(* ===== verification/_CoqProject ===== *)
-Q . S2P
Prelude.v
JsNumber.v
JsDate.v
Json.v
WebStorage.v
OverviewModel.v
OverviewStorage.v
OverviewContext.v
Workspace.v
Url.v
Contracts.v
UrlState.v
ProcessTree.v
Topology.v
Graphs.v
ApiClient.v
Auth.v
Translations.v
I18n.v
Dom.v
Report.v
Charts.v
Shell.v
ListPages.v
Investigation.v
EventDetail.v
Pickers.v
Ui.v
Intelligence.v
Overview.v
Routes.v
Triage.v
Operations.v
EndpointPage.v
IncidentGraph.v
WorkspaceView.v
Rest.v
Schemas.v
PageRequests.v
Conformance.v
IntelligenceView.v
GraphView.v
ActivityPanel.v
IncidentView.v
Markup.v
ListViews.v
ArchivesView.v
DetailViews.v
ShellView.v
OperationsView.v
Dtos.v
