(* ===== verification/Prelude.v ===== *)
(** * OWLBY dashboard: verification of the frontend's core logic

    The repository is an endpoint detection and response system: agents (Swift, C++), a
    backend (Python) and a dashboard, the TypeScript application under src/frontend/src.
    This development models the dashboard. Every definition is a translation of source
    lines; paths below are relative to src/frontend/src.

    ** How the program is put together

    main.tsx mounts App.tsx, whose routes show the pages inside the shell
    (components/AppShell.tsx) once a session exists (auth/AuthContext.tsx). A page keeps
    its state in the query string (lib/url.ts, components/filters.tsx), turns it into
    requests of the contract (api/endpoints.ts over api/client.ts, types in
    api/generated/schema.ts) and shows the results through the features/ modules. The
    overview arranges widgets on a grid that a user edits and keeps in browser storage
    (features/overviewLayout), and prints reports (features/dashboardReport.tsx).

    ** The files

    Language and host. This file: tactics, comparators and stable sorting, association
    lists, strings of UTF-16 units. JsNumber: binary64 numbers, [Number(text)] and number
    texts. JsDate: [Date.parse] and [toISOString], with the class [DateHost] for what is
    left to the host. Json: JSON values and narrowing. WebStorage: localStorage and
    sessionStorage with their exceptions. Url: URLSearchParams. Dom: the tree the report
    reads.

    Grid. OverviewModel: widgets, occupancy and placement
    (overviewLayoutModel.ts). OverviewStorage: normalisation of stored JSON, reading and
    writing (overviewLayoutStorage.ts). OverviewContext: the provider
    (OverviewLayoutContext.tsx). Workspace: the editor, and WorkspaceView what it shows
    (OverviewDashboardWorkspace.tsx).

    Contract and session. Contracts: the data types. ApiClient: requests, answers and
    errors. Auth: the session as a machine of calls, answers, timers and renderings. Rest:
    every path and operation of the contract, and the server's reading of a request.
    Schemas: every schema of the contract and the values that have its type. Conformance:
    the client's answers and bodies against these types; Dtos: the records of Contracts and
    of the features against them. PageRequests: the query objects of all pages and when
    they are sent.

    State in the URL. UrlState: lib/{url,params,endpointIds}.ts, filters.tsx,
    listInteractions.ts, alertTriage.ts. ListPages: the queries of the list pages. Routes:
    App.tsx and LoginPage.tsx.

    Texts. Translations: the two tables. I18n: [translate], detection copy, formats.

    Features and pages. ProcessTree, Topology, Graphs (the topology and correlation
    drawings) and GraphView, their components with references, animation frames and
    handlers, IncidentGraph, Report, Charts and ActivityPanel, the panels with the life of
    a chart, Shell (AppShell.tsx, ThemeProvider.tsx), Investigation (the incident page) and
    IncidentView, its parts and the saving of a status, EventDetail, Pickers (the endpoint
    comboboxes), Ui (pagination, errors, dialogs) and Markup, the shared components of
    primitives.tsx and ui.tsx as trees of elements, Intelligence and, for its panels,
    IntelligenceView, Overview, Triage (the alert page), Operations, EndpointPage. As drawn,
    over the trees of Markup: ListViews (filters.tsx and the lists of alerts, endpoints,
    events and incidents), ArchivesView (the archive page, with its date fields and its
    restore request as a machine), DetailViews (the event and alert pages, ProcessTree.tsx
    and RawPayloadViewer.tsx), ShellView (AppShell.tsx and ServiceMark.tsx), OperationsView
    (OperationsPage.tsx).

    ** Conventions

    Strings are lists of UTF-16 units ([ustring], written [u! "text"]). Integers that the
    contract makes integers are in Z; numbers read from text or divided are [jsnum],
    rounded to binary64. A record stands for an object with the source's fields; [null]
    and a missing field are [None]. An outer [option] is a thrown exception: the formatters
    throw for a date that cannot be read (I18n), lookups of texts for inherited names, an
    error state for details it cannot read (Ui), and a page that draws one of these is not
    drawn (IncidentView, ListViews, ArchivesView, DetailViews, OperationsView). State is
    passed explicitly: a component with state is a record, a type of events and a step
    function that returns the next state and the requests made; its runs are folds over
    events, so theorems about them hold for every interleaving of clicks, answers and
    timers. Objects that are compared by reference carry that in their type ([Same] in
    Workspace).

    Parameters stand for what is not in the repository, with laws the code relies on as
    classes that are instantiated: [DateHost] ([utc_host]), [LocaleHost] (collation and
    case), [Router] ([reference_router]), the layouts of dagre and of Bezier labels, the
    host's formats of a time, the public-suffix lookup, and the answers of fetch.

    ** What the theorems show

    Grid: whatever is stored, reading gives well-formed dashboards, writing and reading
    gives them back, placement finds the first free region, and every reachable state of
    the editor keeps widgets inside the grid, apart and distinct. Session: memory, storage
    and timers agree in every reachable state, logging out is final, a reload restores the
    session, and every failure of a request is reported as the contract says. Requests:
    every request a page makes is found by its method and path to be the operation it is
    meant for, with the parameters the contract declares, typed and complete, the commands
    of users among them, whose bodies have the declared types; and every answer that has a
    type the contract declares is understood. The records of the model have the types of the
    schemas of their names, field by field. URL: the
    queries a page sends are, field by field, what its query string says, within the
    contract's bounds, and links restore the time scope, open the page they name and return where they came from.
    Trees and graphs: each process appears once, under its parent, without cycles, and the
    layouts end; grouped edges count every event once; drawings and tables show the same
    selection, and what the inspectors print of it are the totals of the marked rows, with
    two exceptions that are stated with an instance of each (IntelligenceView). A drawing's frames refine the two actions they stand for, fitting
    and focusing (a node of the topology chosen by key is focused beside a label that is
    waiting, which is stated too), a closed inspector gives the focus back, and nothing is left to run once
    a drawing is gone (GraphView); a panel has one chart exactly while its series is shown,
    with the last options (ActivityPanel). Texts: both tables have the same keys and slots, and no known text is lost.
    Pages: what is shown for every combination of query results (Overview, Operations,
    Ui), the sign-in form submits what its fields accept and leads back (Routes), refreshes
    end (Overview), an analyst's triage updates what is shown, goes on to an unresolved
    alert and empties the queue (Triage), a saved status reaches the server once, never for another incident, and outdates what
    the page shows (IncidentView), pickers choose what is listed (Pickers), dialogs restore
    focus (Ui), every label and description of a shared component names an element of the
    page (Markup), every control of a list shows what the request asks for, and changing it
    changes the request and leaves the other controls (ListViews), the archive page draws
    itself after any events that a browser makes, for results that can be printed, and
    restores the shown scope, once at a time (ArchivesView), the buttons of the triage page
    are enabled under the conditions the page states and send exactly the update they name
    (DetailViews), the link of
    the page the user is on is the one the navigation marks (ShellView), reports print every collected figure (Report).

    ** Bounds and fuel

    The traversal of process trees has one unit of fuel more than there are nodes; the
    segments of a template and the units of a number as many as its text; following the
    names of a schema the greatest number of names nested in one; the parser of
    query strings and the search for occurrences one more than their text; the cutting of
    a report as many as there are items; redirects three. A lemma next to each of these
    shows it to be enough. Identifiers are assumed at most 2^53 where they
    are written to and read back from text.

    ** Not modelled

    The markup of the overview, intelligence, incident and endpoint pages beyond what they
    show (that of the shared components and of the other pages is modelled), and styles; the query library's caching, retries and polling (its
    results are inputs of the models: pending, failed, or data with the error of a later
    fetch); the drawing library; main.tsx, which only mounts; contracts.ts, which renames
    generated types; the backend and the agents, which are not TypeScript. *)

From Stdlib Require Export String Ascii ZArith Lia.
From stdpp Require Export base option list sets gmap numbers sorting.

#[global] Open Scope Z_scope.

(** ** Tactics and hint databases *)

Create HintDb owlby.
Create HintDb owlby_rw.

(** Split every boolean conjunction, turn boolean comparisons into their
    propositional form and simplify. *)
Ltac breflect :=
  repeat match goal with
  | H : is_true _ |- _ => unfold is_true in H
  | H : (_ && _)%bool = true |- _ => apply andb_true_iff in H; destruct H
  | H : (_ || _)%bool = false |- _ => apply orb_false_iff in H; destruct H
  | H : negb _ = true |- _ => apply negb_true_iff in H
  | H : negb _ = false |- _ => apply negb_false_iff in H
  | H : (_ <? _) = true |- _ => apply Z.ltb_lt in H
  | H : (_ <? _) = false |- _ => apply Z.ltb_ge in H
  | H : (_ <=? _) = true |- _ => apply Z.leb_le in H
  | H : (_ <=? _) = false |- _ => apply Z.leb_gt in H
  | H : (_ =? _) = true |- _ => apply Z.eqb_eq in H
  | H : (_ =? _) = false |- _ => apply Z.eqb_neq in H
  | H : bool_decide _ = true |- _ => apply bool_decide_eq_true in H
  | H : bool_decide _ = false |- _ => apply bool_decide_eq_false in H
  end.

(** Settles a decidable goal without variables by evaluating its decision. *)
Ltac by_compute := apply (bool_decide_unpack _); vm_compute; exact I.

(** Discharge a goal from a member of the empty list. *)
Ltac no_elem := intros;
  match goal with H : ?x ∈ _ |- _ => exfalso; exact (not_elem_of_nil x H) end.

(** Case on the scrutinee of the first [if]/[match] of the goal. *)
Ltac dmatch :=
  match goal with
  | |- context [match ?x with _ => _ end] => destruct x eqn:?
  end.

(** ** Strings

    A JavaScript string is a sequence of UTF-16 code units; a literal of the
    source is written [u "..."], which decodes the UTF-8 bytes of the literal. *)

Abbreviation ustring := (list Z).

Fixpoint bytes_of (s : string) : list Z :=
  match s with
  | EmptyString => []
  | String a r => Z.of_N (N_of_ascii a) :: bytes_of r
  end.

Fixpoint utf8_decode (bs : list Z) : list Z :=
  match bs with
  | [] => []
  | b :: r =>
    if b <? 128 then b :: utf8_decode r
    else if b <? 224 then
      match r with
      | c :: r1 => ((b - 192) * 64 + (c - 128)) :: utf8_decode r1
      | _ => []
      end
    else if b <? 240 then
      match r with
      | c :: d :: r2 => ((b - 224) * 4096 + (c - 128) * 64 + (d - 128)) :: utf8_decode r2
      | _ => []
      end
    else
      match r with
      | c :: d :: e :: r3 =>
        ((b - 240) * 262144 + (c - 128) * 4096 + (d - 128) * 64 + (e - 128)) :: utf8_decode r3
      | _ => []
      end
  end.

Definition utf16_encode (cps : list Z) : ustring :=
  flat_map (fun cp =>
    if cp <? 65536 then [cp]
    else [55296 + (cp - 65536) / 1024; 56320 + (cp - 65536) mod 1024]) cps.

Definition u (s : string) : ustring := utf16_encode (utf8_decode (bytes_of s)).
Arguments u : simpl never.
(** Conversion unfolds literals last. *)
#[global] Strategy 1000 [u].
Notation "'u!' s" := (u s%string) (at level 1, s at level 0, only parsing).

(** White space and line terminators removed by [String.prototype.trim]. *)
Definition is_space (c : Z) : bool :=
  ((9 <=? c) && (c <=? 13)) || (c =? 32) || (c =? 160) || (c =? 5760) ||
  ((8192 <=? c) && (c <=? 8202)) || (c =? 8232) || (c =? 8233) || (c =? 8239) ||
  (c =? 8287) || (c =? 12288) || (c =? 65279).

Fixpoint trim_start (s : ustring) : ustring :=
  match s with
  | [] => []
  | c :: r => if is_space c then trim_start r else s
  end.

Definition trim_end (s : ustring) : ustring := reverse (trim_start (reverse s)).
Definition trim (s : ustring) : ustring := trim_end (trim_start s).

(** [s.slice(0, n)] for [0 <= n]. *)
Definition slice0 (n : Z) (s : ustring) : ustring := take (Z.to_nat n) s.

(** [s.startsWith(p)]. *)
Fixpoint starts_with (p s : ustring) : bool :=
  match p, s with
  | [], _ => true
  | a :: p', b :: s' => (a =? b) && starts_with p' s'
  | _ :: _, [] => false
  end.

(** [s.includes(p)] *)
Fixpoint includes (s p : ustring) : bool :=
  starts_with p s || match s with [] => false | _ :: r => includes r p end.

(** Empty strings are falsy. *)
Definition truthy (s : ustring) : bool := match s with [] => false | _ => true end.

(** [s || null] on an optional string: [None] stands for null/undefined. *)
Definition truthy_opt (s : option ustring) : bool :=
  match s with Some t => truthy t | None => false end.

(** [allowed.includes(s)] *)
Definition str_in (s : ustring) (l : list ustring) : bool := bool_decide (s ∈ l).

(** [parts.join(sep)] *)
Fixpoint join (sep : ustring) (parts : list ustring) : ustring :=
  match parts with
  | [] => []
  | [p] => p
  | p :: r => p ++ sep ++ join sep r
  end.

(** [s.split(c)] for a one-unit separator. *)
Fixpoint split_on (c : Z) (s : ustring) : list ustring :=
  match s with
  | [] => [[]]
  | d :: r =>
    if d =? c then [] :: split_on c r
    else match split_on c r with
         | [] => [[d]]
         | p :: ps => (d :: p) :: ps
         end
  end.

Lemma trim_start_id s :
  (∀ c r, s = c :: r → is_space c = false) → trim_start s = s.
Proof. destruct s as [|c r]; [done|]. intros H. simpl. by rewrite (H c r). Qed.

Lemma trim_start_head s c r : trim_start s = c :: r → is_space c = false.
Proof.
  induction s as [|d s IH]; simpl; [done|].
  destruct (is_space d) eqn:E; [done|]. intros [= -> ->]. done.
Qed.

Lemma trim_start_idemp s : trim_start (trim_start s) = trim_start s.
Proof. apply trim_start_id. intros c r. apply trim_start_head. Qed.

Lemma trim_start_suffix s : ∃ k, s = k ++ trim_start s ∧ Forall (λ c, is_space c = true) k.
Proof.
  induction s as [|d s (k & IH & HF)]; [by exists []|]. simpl.
  destruct (is_space d) eqn:E.
  - exists (d :: k). simpl. rewrite <- IH. split; [done|by constructor].
  - by exists [].
Qed.

Lemma length_trim_start s : (length (trim_start s) ≤ length s)%nat.
Proof.
  destruct (trim_start_suffix s) as (k & Hk & _).
  apply (f_equal length) in Hk. rewrite length_app in Hk. lia.
Qed.

Lemma trim_end_prefix s : ∃ k, s = trim_end s ++ k.
Proof.
  destruct (trim_start_suffix (reverse s)) as (k & Hk & _).
  exists (reverse k). unfold trim_end. rewrite <- reverse_app, <- Hk. by rewrite reverse_involutive.
Qed.

Lemma trim_end_idemp s : trim_end (trim_end s) = trim_end s.
Proof. unfold trim_end. by rewrite reverse_involutive, trim_start_idemp. Qed.

(** Trimming a second time changes nothing. *)
Lemma trim_idemp s : trim (trim s) = trim s.
Proof.
  unfold trim. rewrite (trim_start_id (trim_end (trim_start s))); [apply trim_end_idemp|].
  intros c r H. destruct (trim_end_prefix (trim_start s)) as [k Hk].
  rewrite H in Hk. simpl in Hk. by eapply trim_start_head.
Qed.

Lemma truthy_true s : truthy s = true ↔ s ≠ [].
Proof. by destruct s. Qed.

Lemma str_in_true s l : str_in s l = true ↔ s ∈ l.
Proof. apply bool_decide_eq_true. Qed.

(** ** Comparators and [Array.prototype.sort]

    A comparator returns the sign of the number the source's comparator
    returns ([NaN] counts as 0, as the language prescribes). *)

Definition cmp_le {A} (cmp : A → A → comparison) (x y : A) : Prop := cmp x y ≠ Gt.
#[export] Instance cmp_le_dec {A} (cmp : A → A → comparison) : RelDecision (cmp_le cmp).
Proof. intros x y. unfold cmp_le. solve_decision. Defined.

(** [c1 || c2]: the second comparator decides when the first returns 0. *)
Definition cmp_or (c1 c2 : comparison) : comparison :=
  match c1 with Eq => c2 | c => c end.
Definition cmp_then {A} (c1 c2 : A → A → comparison) : A → A → comparison :=
  λ x y, cmp_or (c1 x y) (c2 x y).
Definition cmp_on {A B} (f : A → B) (c : B → B → comparison) : A → A → comparison :=
  λ x y, c (f x) (f y).
Definition cmp_rev {A} (c : A → A → comparison) : A → A → comparison := λ x y, c y x.

#[global] Typeclasses Opaque cmp_then cmp_on cmp_rev.

(** What a comparator promises to a sort: it orders its arguments totally. *)
Class Comparator {A} (cmp : A → A → comparison) : Prop := {
  cmp_antisym x y : cmp y x = CompOpp (cmp x y);
  cmp_trans x y z : cmp_le cmp x y → cmp_le cmp y z → cmp_le cmp x z;
}.

Arguments cmp_antisym {A} cmp {_} x y.
Arguments cmp_trans {A} cmp {_} x y z.

Section comparator.
Context {A : Type} (cmp : A → A → comparison) `{!Comparator cmp}.

Lemma cmp_refl x : cmp x x = Eq.
Proof. pose proof (cmp_antisym cmp x x) as H. by destruct (cmp x x). Qed.

Lemma cmp_total x y : cmp_le cmp x y ∨ cmp_le cmp y x.
Proof. unfold cmp_le. rewrite (cmp_antisym cmp x y). destruct (cmp x y); simpl; auto. Qed.

Lemma cmp_not_le x y : ¬ cmp_le cmp x y → cmp y x = Lt.
Proof. unfold cmp_le. rewrite (cmp_antisym cmp x y). destruct (cmp x y); simpl; naive_solver. Qed.

Lemma cmp_eq_le x y : cmp x y = Eq ↔ cmp_le cmp x y ∧ cmp_le cmp y x.
Proof. unfold cmp_le. rewrite (cmp_antisym cmp x y). destruct (cmp x y); simpl; naive_solver. Qed.

Lemma cmp_eq_sym x y : cmp x y = Eq → cmp y x = Eq.
Proof. rewrite !cmp_eq_le. naive_solver. Qed.

Lemma cmp_eq_l x y z : cmp x y = Eq → cmp x z = cmp y z.
Proof.
  intros [Hxy Hyx]%cmp_eq_le.
  assert (cmp_le cmp x z ↔ cmp_le cmp y z) as H1 by (split; by apply (cmp_trans cmp)).
  assert (cmp_le cmp z x ↔ cmp_le cmp z y) as H2 by (split; intros H; by apply (cmp_trans cmp _ _ _ H)).
  unfold cmp_le in H1, H2. rewrite (cmp_antisym cmp x z), (cmp_antisym cmp y z) in H2.
  destruct (cmp x z), (cmp y z); simpl in *; naive_solver.
Qed.
End comparator.

#[export] Instance Zcompare_comparator : Comparator Z.compare.
Proof.
  split; unfold cmp_le.
  - intros x y. apply Z.compare_antisym.
  - intros x y z. rewrite !Z.compare_le_iff. lia.
Qed.

#[export] Instance cmp_on_comparator {A B} (f : A → B) c `{!Comparator c} : Comparator (cmp_on f c).
Proof. split; unfold cmp_on, cmp_le; intros; [apply (cmp_antisym c)|by eapply (cmp_trans c)]. Qed.

#[export] Instance cmp_rev_comparator {A} (c : A → A → comparison) `{!Comparator c} :
  Comparator (cmp_rev c).
Proof. split; unfold cmp_rev, cmp_le; intros; [apply (cmp_antisym c)|by eapply (cmp_trans c)]. Qed.

#[export] Instance cmp_then_comparator {A} (c1 c2 : A → A → comparison)
  `{!Comparator c1, !Comparator c2} : Comparator (cmp_then c1 c2).
Proof.
  split.
  - intros x y. unfold cmp_then. rewrite (cmp_antisym c1 x y), (cmp_antisym c2 x y).
    by destruct (c1 x y).
  - intros x y z. unfold cmp_then, cmp_le, cmp_or. intros Hxy Hyz.
    destruct (c1 x y) eqn:E1; [| |done].
    + rewrite (cmp_eq_l c1 _ _ z E1). destruct (c1 y z); [|done..].
      by eapply (cmp_trans c2).
    + destruct (c1 y z) eqn:E2; [| |done].
      * apply (cmp_eq_sym c1) in E2. rewrite (cmp_antisym c1 z x), (cmp_eq_l c1 _ _ x E2).
        rewrite <- (cmp_antisym c1), E1. done.
      * assert (c1 x z ≠ Gt) as H1.
        { apply (cmp_trans c1) with y; unfold cmp_le; congruence. }
        destruct (c1 x z) eqn:E3; [|done..]. exfalso.
        apply (cmp_eq_sym c1) in E3. rewrite <- (cmp_eq_l c1 _ _ y E3) in E1.
        rewrite (cmp_antisym c1 y z), E2 in E1. done.
Qed.

Section sort.
Context {A : Type} (cmp : A → A → comparison).

Fixpoint sort_insert (x : A) (l : list A) : list A :=
  match l with
  | [] => [x]
  | y :: r => match cmp x y with Gt => y :: sort_insert x r | _ => x :: l end
  end.

(** [Array.prototype.sort(cmp)], which the language requires to be stable. *)
Fixpoint js_sort (l : list A) : list A :=
  match l with
  | [] => []
  | x :: r => sort_insert x (js_sort r)
  end.

Lemma sort_insert_perm x l : sort_insert x l ≡ₚ x :: l.
Proof.
  induction l as [|y l IH]; simpl; [done|]. destruct (cmp x y); [done..|].
  rewrite IH. constructor.
Qed.

Lemma js_sort_perm l : js_sort l ≡ₚ l.
Proof. induction l as [|x l IH]; simpl; [done|]. by rewrite sort_insert_perm, IH. Qed.

Lemma js_sort_elem x l : x ∈ js_sort l ↔ x ∈ l.
Proof. by rewrite js_sort_perm. Qed.

Lemma js_sort_length l : length (js_sort l) = length l.
Proof. by rewrite js_sort_perm. Qed.

Context `{!Comparator cmp}.

Lemma sort_insert_sorted x l :
  StronglySorted (cmp_le cmp) l → StronglySorted (cmp_le cmp) (sort_insert x l).
Proof.
  induction 1 as [|y l Hl IH Hy]; simpl; [by repeat constructor|].
  destruct (decide (cmp_le cmp x y)) as [Hle|Hle].
  - assert (StronglySorted (cmp_le cmp) (x :: y :: l)).
    { constructor; [by constructor|]. constructor; [done|].
      eapply Forall_impl; [done|]. intros z Hz. by eapply (cmp_trans cmp). }
    unfold cmp_le in Hle. by destruct (cmp x y).
  - unfold cmp_le in Hle. destruct (cmp x y) eqn:E; [naive_solver..|].
    constructor; [done|]. rewrite sort_insert_perm. constructor; [|done].
    unfold cmp_le. rewrite (cmp_antisym cmp x y), E. done.
Qed.

Lemma js_sort_sorted l : StronglySorted (cmp_le cmp) (js_sort l).
Proof. induction l; simpl; [constructor|by apply sort_insert_sorted]. Qed.

(** Stability: elements the comparator does not separate keep their order. *)
Lemma sort_insert_filter a x l :
  filter (λ y, cmp a y = Eq) (sort_insert x l) = filter (λ y, cmp a y = Eq) (x :: l).
Proof.
  induction l as [|y l IH]; simpl; [done|].
  destruct (cmp x y) eqn:E; [done..|].
  rewrite !filter_cons, IH, filter_cons.
  destruct (decide (cmp a y = Eq)) as [Hy|], (decide (cmp a x = Eq)) as [Hx|]; try done.
  exfalso.
  apply (cmp_eq_sym cmp) in Hx. rewrite (cmp_eq_l cmp _ _ y Hx) in E. congruence.
Qed.

Lemma js_sort_stable a l :
  filter (λ y, cmp a y = Eq) (js_sort l) = filter (λ y, cmp a y = Eq) l.
Proof.
  induction l as [|x l IH]; simpl; [done|].
  by rewrite sort_insert_filter, !filter_cons, IH.
Qed.

(** A stable sort refines the order its input was already in. *)
Lemma js_sort_then c2 `{!Comparator c2} l :
  StronglySorted (cmp_le c2) l → StronglySorted (cmp_le (cmp_then cmp c2)) (js_sort l).
Proof.
  induction 1 as [|x l Hl IH Hx]; simpl; [constructor|].
  assert (Forall (cmp_le c2 x) (js_sort l)) as Hx' by by rewrite js_sort_perm.
  clear Hl Hx. induction IH as [|y r Hr IHr Hy]; simpl; [by repeat constructor|].
  apply Forall_cons in Hx' as [Hxy Hxr].
  destruct (cmp x y) eqn:E.
  3: { constructor; [by apply IHr|]. rewrite sort_insert_perm. constructor; [|done].
       unfold cmp_le, cmp_then. by rewrite (cmp_antisym cmp x y), E. }
  all: assert (cmp_le (cmp_then cmp c2) x y) as Hle
         by (unfold cmp_le, cmp_then; rewrite E; simpl; done).
  all: constructor; [by constructor|]; constructor; [done|].
  all: apply (Forall_impl _ _ _ Hy); intros z Hz; exact (cmp_trans (cmp_then cmp c2) _ _ _ Hle Hz).
Qed.

(** Sorting an already sorted array changes nothing. *)
Lemma js_sort_id l : StronglySorted (cmp_le cmp) l → js_sort l = l.
Proof.
  induction 1 as [|x l Hl IH Hx]; simpl; [done|]. rewrite IH.
  destruct Hx as [|y l Hy]; simpl; [done|]. unfold cmp_le in Hy. by destruct (cmp x y).
Qed.
End sort.

(** ** [Map] and [Set]

    A [Map] iterates in insertion order, and setting an existing key keeps its
    place: it is an association list with distinct keys. A [Set] is the list of
    its members in insertion order. *)

Section jsmap.
Context {K V : Type} `{EqDecision K}.
Implicit Types (m : list (K * V)).

Fixpoint map_get (k : K) m : option V :=
  match m with
  | [] => None
  | (k', v) :: r => if decide (k = k') then Some v else map_get k r
  end.

Definition map_has (k : K) m : bool :=
  match map_get k m with Some _ => true | None => false end.

Fixpoint map_set (k : K) (v : V) m : list (K * V) :=
  match m with
  | [] => [(k, v)]
  | (k', v') :: r => if decide (k = k') then (k', v) :: r else (k', v') :: map_set k v r
  end.

(** [new Map(entries)] *)
Definition map_of (l : list (K * V)) : list (K * V) :=
  foldl (λ m kv, map_set kv.1 kv.2 m) [] l.

Lemma map_get_set_eq k v m : map_get k (map_set k v m) = Some v.
Proof.
  induction m as [|[k' v'] m IH]; simpl; [by rewrite decide_True|].
  destruct (decide (k = k')) as [->|]; simpl; [by rewrite decide_True|].
  by rewrite decide_False.
Qed.

Lemma map_get_set_ne k k' v m : k' ≠ k → map_get k' (map_set k v m) = map_get k' m.
Proof.
  intros Hne. induction m as [|[k1 v1] m IH]; simpl; [by rewrite decide_False|].
  destruct (decide (k = k1)) as [->|]; simpl; [by rewrite !decide_False|].
  by destruct (decide (k' = k1)).
Qed.

Lemma map_get_set k k' v m :
  map_get k' (map_set k v m) = if decide (k' = k) then Some v else map_get k' m.
Proof. case_decide; subst; [apply map_get_set_eq|by apply map_get_set_ne]. Qed.

Lemma map_get_None k m : map_get k m = None ↔ k ∉ m.*1.
Proof.
  induction m as [|[k' v'] m IH]; simpl; [set_solver|].
  destruct (decide (k = k')); set_solver.
Qed.

Lemma map_get_Some_elem k v m : map_get k m = Some v → (k, v) ∈ m.
Proof.
  induction m as [|[k' v'] m IH]; simpl; [done|].
  destruct (decide (k = k')) as [->|]; intros; simplify_eq; set_solver.
Qed.

Lemma map_get_elem k v m : NoDup m.*1 → (k, v) ∈ m → map_get k m = Some v.
Proof.
  induction m as [|[k' v'] m IH]; simpl; [set_solver|].
  intros [Hn Hd]%NoDup_cons [Heq|Hin]%elem_of_cons; simplify_eq.
  - by rewrite decide_True.
  - rewrite decide_False; [by apply IH|]. intros ->. apply Hn.
    apply list_elem_of_fmap. by exists (k', v).
Qed.

Lemma map_has_true k m : map_has k m = true ↔ k ∈ m.*1.
Proof.
  unfold map_has. destruct (map_get k m) as [v|] eqn:E.
  - split; [|done]. intros _. apply map_get_Some_elem in E. apply list_elem_of_fmap. by exists (k, v).
  - apply map_get_None in E. naive_solver.
Qed.

(** The keys after [set]: unchanged, or the new key at the end. *)
Lemma map_set_keys k v m :
  (map_set k v m).*1 = if decide (k ∈ m.*1) then m.*1 else m.*1 ++ [k].
Proof.
  induction m as [|[k' v'] m IH]; [done|csimpl].
  destruct (decide (k = k')) as [->|Hne]; csimpl.
  - rewrite decide_True; set_solver.
  - rewrite IH. destruct (decide (k ∈ m.*1)); destruct (decide (k ∈ k' :: m.*1)); set_solver.
Qed.

Lemma map_set_NoDup k v m : NoDup m.*1 → NoDup (map_set k v m).*1.
Proof.
  intros Hd. rewrite map_set_keys. case_decide; [done|].
  apply NoDup_app; split_and!; [done|set_solver|apply NoDup_singleton].
Qed.

Lemma map_set_elem k v m kv :
  kv ∈ map_set k v m → kv = (k, v) ∨ kv ∈ m.
Proof.
  induction m as [|[k' v'] m IH]; simpl; [set_solver|].
  destruct (decide (k = k')) as [->|]; set_solver.
Qed.
End jsmap.

Section jsset.
Context {A : Type} `{EqDecision A}.

Definition set_add (x : A) (s : list A) : list A := if decide (x ∈ s) then s else s ++ [x].

(** [[...new Set(l)]] *)
Definition js_unique (l : list A) : list A := foldl (λ s x, set_add x s) [] l.

Lemma set_add_elem x y s : y ∈ set_add x s ↔ y = x ∨ y ∈ s.
Proof. unfold set_add. case_decide; set_solver. Qed.

Lemma set_add_NoDup x s : NoDup s → NoDup (set_add x s).
Proof.
  unfold set_add. case_decide; [done|]. intros.
  apply NoDup_app; split_and!; [done|set_solver|apply NoDup_singleton].
Qed.

Lemma foldl_set_add_elem l s y : y ∈ foldl (λ s x, set_add x s) s l ↔ y ∈ s ∨ y ∈ l.
Proof.
  revert s. induction l as [|x l IH]; intros s; simpl; [set_solver|].
  rewrite IH, set_add_elem. set_solver.
Qed.

Lemma js_unique_elem l y : y ∈ js_unique l ↔ y ∈ l.
Proof. unfold js_unique. rewrite foldl_set_add_elem. set_solver. Qed.

Lemma foldl_set_add_NoDup l s : NoDup s → NoDup (foldl (λ s x, set_add x s) s l).
Proof.
  revert s. induction l as [|x l IH]; intros s Hs; simpl; [done|].
  by apply IH, set_add_NoDup.
Qed.

Lemma js_unique_NoDup l : NoDup (js_unique l).
Proof. apply foldl_set_add_NoDup. constructor. Qed.

Lemma foldl_set_add_id l s :
  NoDup (s ++ l) → foldl (λ s x, set_add x s) s l = s ++ l.
Proof.
  revert s. induction l as [|x l IH]; intros s Hs; simpl; [by rewrite app_nil_r|].
  assert (x ∉ s) as Hx by (apply NoDup_app in Hs; set_solver).
  unfold set_add at 2. rewrite decide_False by done.
  rewrite IH; rewrite <- app_assoc; done.
Qed.

Lemma js_unique_id l : NoDup l → js_unique l = l.
Proof. apply (foldl_set_add_id l []). Qed.

Lemma js_unique_length l : (length (js_unique l) ≤ length l)%nat.
Proof.
  assert (∀ s, (length (foldl (λ s x, set_add x s) s l) ≤ length s + length l)%nat) as H.
  { induction l as [|x l IH]; intros s; simpl; [lia|]. specialize (IH (set_add x s)).
    unfold set_add in *. case_decide; rewrite ?length_app in IH; simpl in *; lia. }
  apply (H []).
Qed.
End jsset.

(** The keys of [new Map(entries)]. *)
Lemma map_of_keys {K V} `{EqDecision K} (l : list (K * V)) : (map_of l).*1 = js_unique l.*1.
Proof.
  unfold map_of, js_unique.
  assert (∀ m : list (K * V), (foldl (λ m kv, map_set kv.1 kv.2 m) m l).*1 =
    foldl (λ s x, set_add x s) m.*1 l.*1) as H; [|apply (H [])].
  induction l as [|[k v] l IH]; intros m; csimpl; [done|]. rewrite IH. f_equal. apply map_set_keys.
Qed.

(** ** Lists *)

(** [l.find(p)] *)
Fixpoint js_find {A} (p : A → bool) (l : list A) : option A :=
  match l with
  | [] => None
  | x :: r => if p x then Some x else js_find p r
  end.

Lemma js_find_Some {A} (p : A → bool) l x : js_find p l = Some x → x ∈ l ∧ p x = true.
Proof.
  induction l as [|y l IH]; simpl; [done|]. destruct (p y) eqn:E.
  - intros [= ->]. split; [set_solver|done].
  - intros [? ?]%IH. split; [set_solver|done].
Qed.

Lemma js_find_None {A} (p : A → bool) l : js_find p l = None ↔ ∀ x, x ∈ l → p x = false.
Proof.
  induction l as [|y l IH]; simpl; [set_solver|]. destruct (p y) eqn:E.
  - split; [done|]. intros H. specialize (H y ltac:(set_solver)). congruence.
  - rewrite IH. set_solver.
Qed.

(** The first match: nothing before it satisfies the predicate. *)
Lemma js_find_first {A} (p : A → bool) l x :
  js_find p l = Some x ↔ ∃ l1 l2, l = l1 ++ x :: l2 ∧ p x = true ∧ ∀ y, y ∈ l1 → p y = false.
Proof.
  split.
  - induction l as [|y l IH]; simpl; [done|]. destruct (p y) eqn:E.
    + intros [= ->]. exists [], l. set_solver.
    + intros (l1 & l2 & -> & ? & ?)%IH. exists (y :: l1), l2. set_solver.
  - intros (l1 & l2 & -> & Hx & Hl1). induction l1 as [|y l1 IH]; simpl; [by rewrite Hx|].
    rewrite Hl1 by set_solver. apply IH. set_solver.
Qed.

Definition js_some {A} (p : A → bool) (l : list A) : bool := existsb p l.

Lemma js_some_true {A} (p : A → bool) l : js_some p l = true ↔ ∃ x, x ∈ l ∧ p x = true.
Proof.
  unfold js_some. rewrite existsb_exists. by setoid_rewrite list_elem_of_In.
Qed.

Lemma js_some_false {A} (p : A → bool) l : js_some p l = false ↔ ∀ x, x ∈ l → p x = false.
Proof.
  rewrite <- not_true_iff_false, js_some_true. setoid_rewrite <- not_true_iff_false. naive_solver.
Qed.

(** [l.filter(p)] with a boolean predicate. *)
Definition js_filter {A} (p : A → bool) (l : list A) : list A := List.filter p l.

Lemma js_filter_elem {A} (p : A → bool) l x : x ∈ js_filter p l ↔ x ∈ l ∧ p x = true.
Proof. unfold js_filter. by rewrite !list_elem_of_In, filter_In. Qed.

Lemma js_filter_comm {A} (f g : A → bool) l : js_filter f (js_filter g l) = js_filter g (js_filter f l).
Proof.
  unfold js_filter. induction l as [|a l IH]; [done|]. cbn [List.filter].
  destruct (f a) eqn:Ef, (g a) eqn:Eg; cbn [List.filter]; rewrite ?Ef, ?Eg, ?IH; done.
Qed.

Lemma js_filter_sublist {A} (p : A → bool) l : js_filter p l `sublist_of` l.
Proof.
  unfold js_filter. induction l as [|x l IH]; simpl; [done|].
  destruct (p x); by constructor.
Qed.

Lemma js_filter_cons {A} (f : A → bool) a l :
  js_filter f (a :: l) = if f a then a :: js_filter f l else js_filter f l.
Proof. done. Qed.

Lemma js_filter_app {A} (p : A → bool) l1 l2 : js_filter p (l1 ++ l2) = js_filter p l1 ++ js_filter p l2.
Proof. apply List.filter_app. Qed.

Lemma js_filter_all {A} (p : A → bool) l : (∀ x, x ∈ l → p x = true) → js_filter p l = l.
Proof. induction l as [|x l IH]; intros Hp; [done|]. rewrite js_filter_cons, (Hp x), IH; [done| |by left]. intros y Hy. apply Hp. by right. Qed.

Lemma js_filter_none {A} (p : A → bool) l : (∀ x, x ∈ l → p x = false) → js_filter p l = [].
Proof. induction l as [|x l IH]; intros Hp; [done|]. rewrite js_filter_cons, (Hp x), IH; [done| |by left]. intros y Hy. apply Hp. by right. Qed.

Definition sumZ (l : list Z) : Z := foldr Z.add 0 l.

Lemma sumZ_app l1 l2 : sumZ (l1 ++ l2) = sumZ l1 + sumZ l2.
Proof. unfold sumZ. induction l1; simpl; lia. Qed.

Lemma sumZ_perm l1 l2 : l1 ≡ₚ l2 → sumZ l1 = sumZ l2.
Proof. unfold sumZ. induction 1; simpl; lia. Qed.

#[export] Instance sumZ_proper : Proper ((≡ₚ) ==> (=)) sumZ.
Proof. intros ???. by apply sumZ_perm. Qed.

#[export] Hint Resolve js_unique_NoDup set_add_NoDup map_set_NoDup js_filter_sublist : owlby.

Lemma seqZ_elem x m n : x ∈ seqZ m n ↔ m ≤ x < m + n.
Proof. apply elem_of_seqZ. Qed.

Lemma StronglySorted_seqZ m n : StronglySorted (cmp_le Z.compare) (seqZ m n).
Proof.
  destruct (decide (0 ≤ n)) as [Hn|]; [|by rewrite seqZ_nil by lia; constructor].
  revert m. pattern n. apply natlike_ind; [| |done]; clear n Hn.
  - intros m. rewrite seqZ_nil by lia. constructor.
  - intros n Hn IH m. rewrite seqZ_cons by lia. constructor.
    + rewrite Z.pred_succ. apply IH.
    + apply Forall_forall. intros y Hy%elem_of_seqZ. unfold cmp_le.
      rewrite Z.compare_le_iff. lia.
Qed.

(** Nested loops are one loop over the concatenated ranges. *)
Lemma foldl_flat_map {A B C} (f : A → B → A) (g : C → list B) l a :
  foldl (λ a c, foldl f a (g c)) a l = foldl f a (flat_map g l).
Proof. revert a. induction l as [|c l IH]; intros a; simpl; [done|]. by rewrite foldl_app, IH. Qed.

Lemma foldl_map {A B C} (f : A → B → A) (g : C → B) l a :
  foldl (λ a c, f a (g c)) a l = foldl f a (map g l).
Proof. revert a. induction l as [|c l IH]; intros a; simpl; [done|]. apply IH. Qed.

Lemma elem_of_flat_map {A B} (f : A → list B) l y :
  y ∈ flat_map f l ↔ ∃ x, x ∈ l ∧ y ∈ f x.
Proof.
  rewrite list_elem_of_In, in_flat_map. by setoid_rewrite list_elem_of_In.
Qed.

Lemma forallb_elem {A} (p : A → bool) l : forallb p l = true ↔ ∀ x, x ∈ l → p x = true.
Proof. rewrite forallb_forall. by setoid_rewrite list_elem_of_In. Qed.

Lemma foldl_ext' {A B} (f g : A → B → A) l a :
  (∀ a b, f a b = g a b) → foldl f a l = foldl g a l.
Proof. intros H. revert a. induction l as [|b l IH]; intros a; simpl; [done|]. by rewrite H, IH. Qed.

(** A loop whose body may throw. *)
Fixpoint foldM {A B} (f : A → B → option A) (a : A) (l : list B) : option A :=
  match l with
  | [] => Some a
  | b :: r => a' ← f a b; foldM f a' r
  end.

(** Invariants of such a loop: it does not throw and keeps [P]. *)
Lemma foldM_inv {A B} (f : A → B → option A) (P : A → Prop) l a :
  (∀ a b, b ∈ l → P a → ∃ a', f a b = Some a' ∧ P a') → P a →
  ∃ a', foldM f a l = Some a' ∧ P a'.
Proof.
  revert a. induction l as [|b l IH]; intros a Hstep Ha; simpl; [by eauto|].
  destruct (Hstep a b) as (a1 & Hf & Ha1); [apply elem_of_cons; auto|done|].
  rewrite Hf. simpl. apply IH; [|done]. intros a2 b2 Hb2. apply Hstep. apply elem_of_cons; auto.
Qed.

Lemma StronglySorted_snoc {A} (R : A → A → Prop) l x :
  StronglySorted R l → Forall (λ y, R y x) l → StronglySorted R (l ++ [x]).
Proof.
  induction 1 as [|y l Hl IH Hy]; intros HF; simpl; [by repeat constructor|].
  apply Forall_cons in HF as [Hyx HF]. constructor; [by apply IH|].
  apply Forall_app. split; [done|by repeat constructor].
Qed.

Lemma NoDup_snoc {A} (l : list A) x : NoDup l → x ∉ l → NoDup (l ++ [x]).
Proof.
  intros Hl Hx. apply NoDup_app. split_and!; [done| |apply NoDup_singleton].
  intros y Hy Hyx%list_elem_of_singleton. by subst.
Qed.

(** Two elements of a list whose images are distinct are the same when their images are. *)
Lemma NoDup_fmap_inj_elem {A B} (f : A → B) l x y : NoDup (f <$> l) → x ∈ l → y ∈ l → f x = f y → x = y.
Proof.
  intros Hnd (i & Hi)%list_elem_of_lookup (j & Hj)%list_elem_of_lookup Hf.
  assert (i = j) as -> by (apply (NoDup_lookup _ i j (f x) Hnd); rewrite list_lookup_fmap; [by rewrite Hi|by rewrite Hj, Hf]).
  congruence.
Qed.

(** The element found by a key that tells the elements apart. *)
Lemma js_find_unique {A B} `{EqDecision B} (f : A → B) l x : NoDup (f <$> l) → x ∈ l →
  js_find (λ y, bool_decide (f y = f x)) l = Some x.
Proof.
  intros Hnd Hx. destruct (js_find _ l) as [y|] eqn:E.
  - apply js_find_Some in E as [Hy Hf%bool_decide_eq_true]. f_equal. by apply (NoDup_fmap_inj_elem f l).
  - rewrite js_find_None in E. specialize (E x Hx). by apply bool_decide_eq_false in E.
Qed.

(** A map built from distinct keys is the list itself. *)
Lemma map_of_id {K V} `{EqDecision K} (fs : list (K * V)) : NoDup fs.*1 → map_of fs = fs.
Proof.
  unfold map_of. intros Hd.
  enough (∀ acc, NoDup (acc ++ fs).*1 → foldl (λ m kv, map_set kv.1 kv.2 m) acc fs = acc ++ fs)
    as H by by apply (H []).
  clear Hd. induction fs as [|[k v] fs IH]; intros acc Hd; simpl; [by rewrite app_nil_r|].
  assert (map_set k v acc = acc ++ [(k, v)]) as ->.
  { rewrite fmap_app in Hd. csimpl in Hd. apply NoDup_app in Hd as (_ & Hd & _).
    assert (k ∉ acc.*1) as Hk by (intros Hin; apply (Hd k Hin); apply elem_of_cons; auto).
    clear -Hk. induction acc as [|[k' v'] acc IH]; csimpl in *; [done|].
    apply not_elem_of_cons in Hk as [Hne Hk]. rewrite decide_False by done. by rewrite IH. }
  rewrite IH; rewrite <- app_assoc; done.
Qed.
