(* ===== verification/JsNumber.v ===== *)
(** * Numbers of the language

    A number is a binary64 value: [NaN], an infinity or a finite value, kept as
    the exact rational it denotes. The file models what the code uses of them:
    [Number(string)] with its rounding to binary64, [Number.isInteger],
    [Number.isFinite], [Math.round], the arithmetic operators and [String(n)]. *)

From Stdlib Require Import ZArith QArith Qround Qreduction Qcanon Lia.
From S2P Require Import Prelude.

#[local] Open Scope Z_scope.

Inductive jsnum : Type :=
| NaN
| Inf (negative : bool)
| Fin (q : Q).

Definition num_of_Z (n : Z) : jsnum := Fin (inject_Z n).

Definition isFinite (n : jsnum) : bool := match n with Fin _ => true | _ => false end.
Definition isNaN (n : jsnum) : bool := match n with NaN => true | _ => false end.

(** The integer a number denotes, when it is one: [Number.isInteger(n)]. *)
Definition to_integer (n : jsnum) : option Z :=
  match n with
  | Fin q => if (Zpos (Qden (Qred q)) =? 1) then Some (Qnum (Qred q)) else None
  | _ => None
  end.

(** [Math.round]: to the nearest integer, ties towards plus infinity. *)
Definition math_round (q : Q) : Z := Qfloor (q + (1 # 2)).

Lemma to_integer_Z n : to_integer (num_of_Z n) = Some n.
Proof.
  unfold to_integer, num_of_Z, inject_Z.
  assert (Qred (n # 1) = (n # 1)) as ->.
  { apply Qred_identity. simpl. apply Z.gcd_1_r. }
  done.
Qed.

Lemma math_round_Z n : math_round (inject_Z n) = n.
Proof.
  unfold math_round. change (Qfloor (inject_Z n + (1 # 2))) with ((n * 2 + 1) / 2).
  rewrite Z.div_add_l by lia. change (1 / 2) with 0. lia.
Qed.

(** ** Rounding a rational to binary64, ties to even *)

Definition round_half_even (n d : Z) : Z :=
  let q := n / d in
  let r := n mod d in
  if 2 * r <? d then q
  else if d <? 2 * r then q + 1
  else if Z.even q then q else q + 1.

(** [scale n k] is [n * 2^k] for [0 <= k]. *)
Definition scale (n k : Z) : Z := n * 2 ^ k.

Definition floor_log2 (n d : Z) : Z :=
  let k := Z.log2 n - Z.log2 d in
  if (if 0 <=? k then n <? scale d k else scale n (- k) <? d) then k - 1 else k.

Definition round64 (q : Q) : jsnum :=
  let n := Z.abs (Qnum q) in
  let d := Zpos (Qden q) in
  if n =? 0 then Fin 0
  else
    let s := Z.max (floor_log2 n d) (-1022) - 52 in
    let m := if s <? 0 then round_half_even (scale n (- s)) d
             else round_half_even n (scale d s) in
    if 2 ^ 1024 <=? (if s <? 0 then m / 2 ^ (- s) else scale m s) then Inf (Qnum q <? 0)
    else
      let v := if s <? 0 then Qred (Z.sgn (Qnum q) * m # Z.to_pos (2 ^ (- s)))
               else inject_Z (Z.sgn (Qnum q) * scale m s) in
      Fin v.

(** ** Arithmetic on numbers; the sign of zero is not kept *)

Definition Qneg (q : Q) : bool := Qnum q <? 0.
Definition Qzero (q : Q) : bool := Qnum q =? 0.

Definition num_max (a b : jsnum) : jsnum :=
  match a, b with
  | NaN, _ | _, NaN => NaN
  | Inf true, n | n, Inf true => n
  | Inf false, _ | _, Inf false => Inf false
  | Fin p, Fin q => if Qle_bool p q then b else a
  end.

Definition num_add (a b : jsnum) : jsnum :=
  match a, b with
  | NaN, _ | _, NaN => NaN
  | Inf s, Inf t => if Bool.eqb s t then a else NaN
  | Inf _, Fin _ => a
  | Fin _, Inf _ => b
  | Fin p, Fin q => round64 (p + q)
  end.

Definition num_opp (a : jsnum) : jsnum :=
  match a with NaN => NaN | Inf s => Inf (negb s) | Fin q => Fin (- q)%Q end.
Definition num_sub (a b : jsnum) : jsnum := num_add a (num_opp b).

Definition num_mul (a b : jsnum) : jsnum :=
  match a, b with
  | NaN, _ | _, NaN => NaN
  | Inf s, Inf t => Inf (xorb s t)
  | Inf s, Fin q | Fin q, Inf s => if Qzero q then NaN else Inf (xorb s (Qneg q))
  | Fin p, Fin q => round64 (p * q)
  end.

Definition num_div (a b : jsnum) : jsnum :=
  match a, b with
  | NaN, _ | _, NaN => NaN
  | Inf _, Inf _ => NaN
  | Inf s, Fin q => Inf (xorb s (Qneg q))
  | Fin _, Inf _ => Fin 0
  | Fin p, Fin q => if Qzero q then (if Qzero p then NaN else Inf (Qneg p)) else round64 (p / q)
  end.

(** [n > 0] *)
Definition num_positive (n : jsnum) : bool :=
  match n with Fin q => 0 <? Qnum q | Inf s => negb s | NaN => false end.

Definition num_round (n : jsnum) : jsnum :=
  match n with Fin q => num_of_Z (math_round q) | _ => n end.

Lemma round_half_even_exact k d : 0 < d → round_half_even (k * d) d = k.
Proof.
  intros Hd. unfold round_half_even.
  rewrite Z.div_mul, Z.mod_mul by lia. rewrite Z.mul_0_r.
  destruct (0 <? d) eqn:E; [done|]. breflect. lia.
Qed.

Lemma floor_log2_int n : 0 < n → floor_log2 n 1 = Z.log2 n.
Proof.
  intros Hn. unfold floor_log2, scale. change (Z.log2 1) with 0. rewrite Z.sub_0_r.
  pose proof (Z.log2_nonneg n). destruct (0 <=? Z.log2 n) eqn:E; breflect; [|lia].
  pose proof (Z.log2_spec n Hn).
  destruct (n <? 1 * 2 ^ Z.log2 n) eqn:E2; breflect; lia.
Qed.

Lemma log2_safe n : 0 < n ≤ 2 ^ 53 → 0 ≤ Z.log2 n ≤ 53.
Proof.
  intros [? ?]. split; [apply Z.log2_nonneg|].
  change 53 with (Z.log2 (2 ^ 53)). by apply Z.log2_le_mono.
Qed.

(** Safe integers are binary64 values: rounding leaves them alone. *)
Lemma round64_safe n : Z.abs n ≤ 2 ^ 53 → round64 (inject_Z n) = num_of_Z n.
Proof.
  intros Hn. unfold round64, num_of_Z, inject_Z. cbn [Qnum Qden].
  destruct (Z.abs n =? 0) eqn:E0; breflect; [by replace n with 0 by lia|].
  pose proof (Z.abs_sgn n) as Hsgn. rewrite Z.mul_comm in Hsgn.
  set (a := Z.abs n) in *. assert (0 < a ≤ 2 ^ 53) as Ha by lia.
  pose proof (log2_safe a Ha) as Hl. assert (a < 2 ^ 1024) as Hbig by (assert (2^53 < 2^1024) by done; lia).
  rewrite floor_log2_int, Z.max_l by lia. unfold scale.
  destruct (Z.log2 a - 52 <? 0) eqn:Es; breflect.
  - set (k := - (Z.log2 a - 52)). assert (0 < k ≤ 52) by lia.
    assert (0 < 2 ^ k) by (apply Z.pow_pos_nonneg; lia).
    rewrite <- (Z.mul_1_r (a * 2 ^ k)), round_half_even_exact by lia.
    rewrite Z.div_mul, (proj2 (Z.leb_gt _ _) Hbig) by lia.
    f_equal. transitivity (Qred (n # 1)).
    + apply Qred_complete. unfold Qeq. cbn [Qnum Qden]. rewrite Z2Pos.id by lia. nia.
    + apply Qred_identity. apply Z.gcd_1_r.
  - assert (Z.log2 a - 52 = 0 ∨ Z.log2 a = 53) as [Hz|Hz] by lia.
    + rewrite Hz. change (1 * 2 ^ 0) with 1. change (2 ^ 0) with 1.
      assert (round_half_even a 1 = a) as ->
        by (rewrite <- (Z.mul_1_r a) at 1; apply round_half_even_exact; lia).
      rewrite Z.mul_1_r.
      rewrite (proj2 (Z.leb_gt _ _) Hbig). unfold inject_Z. by rewrite Hsgn.
    + assert (a = 2 ^ 53) as Ha53.
      { pose proof (Z.log2_spec a ltac:(lia)) as Hs. rewrite Hz in Hs. lia. }
      assert (n = 2 ^ 53 ∨ n = - 2 ^ 53) as [-> | ->] by lia; vm_compute; done.
Qed.

(** ** Rounding stays between integers *)

Lemma round_half_even_mono n n' d : 0 < d → n ≤ n' → round_half_even n d ≤ round_half_even n' d.
Proof.
  intros Hd Hn. unfold round_half_even.
  pose proof (Z.div_mod n d ltac:(lia)) as E. pose proof (Z.mod_pos_bound n d Hd) as B.
  pose proof (Z.div_mod n' d ltac:(lia)) as E'. pose proof (Z.mod_pos_bound n' d Hd) as B'.
  set (q := n / d) in *. set (r := n mod d) in *. set (q' := n' / d) in *. set (r' := n' mod d) in *.
  assert (q < q' ∨ q = q' ∧ r ≤ r') as [Hq|[<- Hr]] by nia.
  - assert (q + 1 ≤ q') by lia. repeat case_match; lia.
  - repeat case_match; lia.
Qed.

Lemma round_half_even_ge0 n d : 0 < d → 0 ≤ n → 0 ≤ round_half_even n d.
Proof. intros Hd Hn. rewrite <- (round_half_even_exact 0 d Hd). apply round_half_even_mono; lia. Qed.

(** The magnitude of a number below [2^53], rounded: [m] over [2^k]. *)
Lemma floor_log2_small n d : 0 < d → 0 < n < 2 ^ 53 * d → floor_log2 n d ≤ 52.
Proof.
  intros Hd [Hn Hlt]. unfold floor_log2, scale.
  assert (Z.log2 n ≤ 53 + Z.log2 d) as Hl.
  { pose proof (Z.log2_spec n Hn) as [Hs _]. pose proof (Z.log2_spec d Hd) as [_ Hs'].
    pose proof (Z.log2_nonneg d). apply Z.lt_succ_r, (Z.pow_lt_mono_r_iff 2); [lia|lia|].
    replace (Z.succ (53 + Z.log2 d)) with (53 + Z.succ (Z.log2 d)) by lia.
    rewrite Z.pow_add_r by lia. nia. }
  destruct (decide (Z.log2 n - Z.log2 d = 53)) as [E|]; [rewrite E; cbn [Z.leb Z.compare]|repeat case_match; lia].
  replace (n <? d * 2 ^ 53) with true by lia. lia.
Qed.

(** Rounding keeps a number that lies between two integers below [2^53] between them. *)
Lemma round64_between a b q : - 2 ^ 53 < a → b < 2 ^ 53 → (inject_Z a <= q <= inject_Z b)%Q →
  ∃ r, round64 q = Fin r ∧ (inject_Z a <= r <= inject_Z b)%Q.
Proof.
  intros Ha Hb [Hq1 Hq2]. unfold Qle, inject_Z in Hq1, Hq2. cbn in Hq1, Hq2.
  unfold round64. set (d := Zpos (Qden q)) in *. set (n := Qnum q) in *.
  assert (0 < d) as Hd by (unfold d; lia).
  destruct (Z.eqb_spec (Z.abs n) 0) as [Hz|Hz].
  { exists 0%Q. split; [done|]. unfold Qle, inject_Z. cbn. assert (n = 0) by lia. nia. }
  pose proof (floor_log2_small (Z.abs n) d Hd ltac:(nia)) as Hf.
  set (s := Z.max (floor_log2 (Z.abs n) d) (-1022) - 52). assert (s ≤ 0) as Hs by (unfold s; lia).
  assert (∃ m, (if s <? 0 then round_half_even (scale (Z.abs n) (- s)) d else round_half_even (Z.abs n) (scale d s)) = m ∧
    m = round_half_even (Z.abs n * 2 ^ (- s)) d) as (m & -> & Hm).
  { eexists. split; [done|]. unfold scale. destruct (Z.ltb_spec s 0); [done|]. replace s with 0 by lia. cbn.
    by rewrite !Z.mul_1_r. }
  pose proof (Z.pow_pos_nonneg 2 (- s) ltac:(lia) ltac:(lia)) as Hp.
  assert (0 ≤ m) as Hm0 by (rewrite Hm; apply round_half_even_ge0; lia).
  assert (∀ k, Z.abs n ≤ k * d → m ≤ k * 2 ^ (- s)) as Hup.
  { intros k Hk. rewrite Hm, <- (round_half_even_exact (k * 2 ^ (- s)) d Hd). apply round_half_even_mono; nia. }
  assert (∀ k, k * d ≤ Z.abs n → k * 2 ^ (- s) ≤ m) as Hdn.
  { intros k Hk. rewrite Hm, <- (round_half_even_exact (k * 2 ^ (- s)) d Hd). apply round_half_even_mono; nia. }
  assert (m ≤ (2 ^ 53) * 2 ^ (- s)) as Hmax by (apply Hup; nia).
  assert ((2 ^ 1024 <=? (if s <? 0 then m / 2 ^ (- s) else scale m s)) = false) as ->.
  { apply Z.leb_gt. assert (2 ^ 53 < 2 ^ 1024) by (apply Z.pow_lt_mono_r; lia).
    destruct (Z.ltb_spec s 0).
    - apply Z.le_lt_trans with (2 ^ 53); [|done]. apply Z.div_le_upper_bound; lia.
    - unfold scale. replace s with 0 in * by lia. cbn [Z.opp] in Hmax. rewrite Z.pow_0_r in *. lia. }
  assert (∀ v : Q, (v == (Z.sgn n * m # Z.to_pos (2 ^ (- s))))%Q → (inject_Z a <= v <= inject_Z b)%Q) as Hfin.
  { intros v ->. unfold Qle, inject_Z. cbn. rewrite Z2Pos.id by lia. rewrite !Z.mul_1_r.
    destruct (Z.sgn_spec n) as [[? ->]|[[? ->]|[? ->]]]; [|lia|].
    - pose proof (Hup b ltac:(lia)). pose proof (Hdn a ltac:(lia)). lia.
    - pose proof (Hup (- a) ltac:(lia)). pose proof (Hdn (- b) ltac:(lia)). lia. }
  eexists. split; [done|]. apply Hfin. destruct (Z.ltb_spec s 0); [apply Qred_correct|].
  unfold scale. replace s with 0 by lia. unfold inject_Z. cbn. by rewrite Z.mul_1_r.
Qed.

(** ** [String(n)] and [Number(s)] *)

Fixpoint dec_digits (fuel : nat) (n : Z) : ustring :=
  match fuel with
  | O => []
  | S f => if n <? 10 then [48 + n] else dec_digits f (n / 10) ++ [48 + n mod 10]
  end.

(** The fuel bounds the number of digits: [n < 2 ^ fuel]. *)
Definition dec_string (n : Z) : ustring := dec_digits (S (Z.to_nat (Z.log2 n))) n.

(** [String(n)] for an integer of magnitude at most [2^53]. *)
Definition string_of_Z (n : Z) : ustring :=
  if n <? 0 then 45 :: dec_string (- n) else dec_string n.

Definition is_digit (c : Z) : bool := (48 <=? c) && (c <=? 57).

(** The value of a run of digits in a given base. *)
Definition digit_value (c : Z) : Z :=
  if is_digit c then c - 48
  else if (97 <=? c) && (c <=? 102) then c - 87
  else if (65 <=? c) && (c <=? 70) then c - 55
  else 99.

Definition digits_value (base : Z) (s : ustring) : Z :=
  foldl (λ acc c, acc * base + digit_value c) 0 s.

Definition all_digits (base : Z) (s : ustring) : bool :=
  truthy s && forallb (λ c, digit_value c <? base) s.

(** The longest prefix of decimal digits and the rest. *)
Fixpoint span_digits (s : ustring) : ustring * ustring :=
  match s with
  | [] => ([], [])
  | c :: r => if is_digit c then let '(a, b) := span_digits r in (c :: a, b) else ([], s)
  end.

Definition pow10 (e : Z) : Q :=
  if 0 <=? e then inject_Z (10 ^ e) else (1 # Z.to_pos (10 ^ (- e))).

(** The optional exponent part, up to the end of the string. *)
Definition parse_exponent (s : ustring) : option Z :=
  match s with
  | [] => Some 0
  | c :: r =>
    if (c =? 101) || (c =? 69) then
      match r with
      | 43 :: r' => if all_digits 10 r' then Some (digits_value 10 r') else None
      | 45 :: r' => if all_digits 10 r' then Some (- digits_value 10 r') else None
      | _ => if all_digits 10 r then Some (digits_value 10 r) else None
      end
    else None
  end.

(** An unsigned decimal literal: digits, an optional fraction, an exponent. *)
Definition parse_unsigned (s : ustring) : option Q :=
  let '(ip, rest) := span_digits s in
  let '(fp, rest') :=
    match rest with
    | 46 :: r => span_digits r
    | _ => ([], rest)
    end in
  if truthy (ip ++ fp) then
    match parse_exponent rest' with
    | Some e =>
      Some (inject_Z (digits_value 10 (ip ++ fp)) * pow10 (e - Z.of_nat (length fp)))%Q
    | None => None
    end
  else None.

Definition radix_prefix (s : ustring) : option (Z * ustring) :=
  match s with
  | 48 :: c :: r =>
    if (c =? 120) || (c =? 88) then Some (16, r)
    else if (c =? 111) || (c =? 79) then Some (8, r)
    else if (c =? 98) || (c =? 66) then Some (2, r)
    else None
  | _ => None
  end.

Definition signed (negative : bool) (s : ustring) : jsnum :=
  if decide (s = u! "Infinity") then Inf negative
  else match parse_unsigned s with
       | Some q => round64 (if negative then - q else q)%Q
       | None => NaN
       end.

(** [Number(s)] on a string. *)
Definition number_of (str : ustring) : jsnum :=
  match trim str with
  | [] => Fin 0
  | s =>
    match radix_prefix s with
    | Some (base, r) => if all_digits base r then round64 (inject_Z (digits_value base r)) else NaN
    | None =>
      match s with
      | 43 :: r => signed false r
      | 45 :: r => signed true r
      | _ => signed false s
      end
    end
  end.

(** [Number(v)] on a string or null. *)
Definition number_of_opt (v : option ustring) : jsnum :=
  match v with Some s => number_of s | None => Fin 0 end.

(** [Number.isInteger(n) && n > 0 ? n : undefined]: the idiom of the sources. *)
Definition positive_int (n : jsnum) : option Z :=
  match to_integer n with
  | Some z => if 0 <? z then Some z else None
  | None => None
  end.

Example number_of_ex1 : to_integer (number_of (u! " 42 ")) = Some 42.
Proof. vm_compute. reflexivity. Qed.
Example number_of_ex2 : to_integer (number_of (u! "1e3")) = Some 1000.
Proof. vm_compute. reflexivity. Qed.
Example number_of_ex3 : number_of (u! "12px") = NaN.
Proof. vm_compute. reflexivity. Qed.
Example number_of_ex4 : to_integer (number_of (u! "0x1F")) = Some 31.
Proof. vm_compute. reflexivity. Qed.
Example number_of_ex5 : number_of (u! "1.5") = Fin (3 # 2).
Proof. vm_compute. reflexivity. Qed.

(** ** The decimal text of a number

    The fewest digits that identify the number, as [Number::toString] asks. *)

(** [n] with [10^(n-1) <= q < 10^n], for a positive [q]. *)
Fixpoint dec_exponent_from (fuel : nat) (n : Z) (q : Q) : Z :=
  match fuel with
  | O => n
  | S fuel => if (Qnum q * Zpos (Qden (pow10 n)) <? Qnum (pow10 n) * Zpos (Qden q)) then n
              else dec_exponent_from fuel (n + 1) q
  end.
Definition dec_exponent (q : Q) : Z :=
  dec_exponent_from 8 ((Z.log2 (Qnum q) - Z.log2 (Zpos (Qden q)) - 1) * 30103 / 100000 - 1) q.

Definition nearest_Z (q : Q) : Z := round_half_even (Qnum q) (Zpos (Qden q)).

(** The digits and their number, from the first count [k] that reads back. *)
Fixpoint shortest_digits (fuel : nat) (k n : Z) (q : Q) : Z * Z :=
  let s := nearest_Z (q * pow10 (k - n)) in
  match fuel with
  | O => (s, k)
  | S fuel =>
    if match round64 (inject_Z s * pow10 (n - k)) with Fin v => Qeq_bool v q | _ => false end then (s, k)
    else shortest_digits fuel (k + 1) n q
  end.

Definition zeros (n : Z) : ustring := replicate (Z.to_nat n) 48.

Definition positive_text (q : Q) : ustring :=
  let n0 := dec_exponent q in
  let '(s0, k) := shortest_digits 16 1 n0 q in
  (* a number just below a power of ten may be written by that power *)
  let '(s, n) := if s0 =? 10 ^ k then (s0 / 10, n0 + 1) else (s0, n0) in
  let ds := dec_string (Z.abs s) in
  if (k <=? n) && (n <=? 21) then ds ++ zeros (n - k)
  else if (0 <? n) && (n <=? 21) then
    match ds with
    | c :: r => c :: take (Z.to_nat (n - 1)) r ++ [46] ++ drop (Z.to_nat (n - 1)) r
    | [] => []
    end
  else if (-6 <? n) && (n <=? 0) then [48; 46] ++ zeros (- n) ++ ds
  else
    match ds with
    | c :: r =>
      c :: (if k =? 1 then [] else 46 :: r) ++ [101] ++ (if n - 1 <? 0 then [45] else [43]) ++
        dec_string (Z.abs (n - 1))
    | [] => []
    end.

Definition fraction_text (q : Q) : ustring :=
  if Qnum q <? 0 then 45 :: positive_text (- q)%Q else positive_text q.

Definition double (n d : Z) : Q := match round64 (n # Z.to_pos d) with Fin q => q | _ => 0%Q end.

Example fraction_texts :
  map fraction_text [double 1 10; double (-3) 2; double (10 ^ 21) 1; double 123456789012345680000 1;
    double 1 (10 ^ 7); double 1 3; double 123456 1000; double 5 (10 ^ 324)] =
  [u! "0.1"; u! "-1.5"; u! "1e+21"; u! "123456789012345680000"; u! "1e-7"; u! "0.3333333333333333";
   u! "123.456"; u! "5e-324"].
Proof. vm_compute. reflexivity. Qed.

(** Rounding to binary64: the literal denotes 1 exactly. *)
Example number_of_ex6 : to_integer (number_of (u! "1.00000000000000000001")) = Some 1.
Proof. vm_compute. reflexivity. Qed.
Example number_of_ex7 : to_integer (number_of (u! "9007199254740993")) = Some 9007199254740992.
Proof. vm_compute. reflexivity. Qed.

(** ** Printing a safe integer and reading it back *)

Lemma dec_digits_spec fuel n :
  0 ≤ n < 2 ^ Z.of_nat fuel → (fuel ≠ 0)%nat →
  Forall (λ c, is_digit c = true) (dec_digits fuel n) ∧ dec_digits fuel n ≠ [] ∧
  ∀ acc, foldl (λ acc c, acc * 10 + digit_value c) acc (dec_digits fuel n) =
         acc * 10 ^ Z.of_nat (length (dec_digits fuel n)) + n.
Proof.
  assert (Hdig : ∀ k, 0 ≤ k < 10 → is_digit (48 + k) = true ∧ digit_value (48 + k) = k).
  { intros k Hk. assert (is_digit (48 + k) = true) as Hd by (unfold is_digit; lia).
    split; [done|]. unfold digit_value. rewrite Hd. lia. }
  revert n. induction fuel as [|f IH]; intros n Hn Hf; [done|]. simpl.
  destruct (n <? 10) eqn:E; breflect.
  - destruct (Hdig n ltac:(lia)) as [H1 H2]. split_and!; [by repeat constructor|done|].
    intros acc. simpl. rewrite H2. lia.
  - assert (f ≠ O) as Hf' by (intros ->; simpl in *; lia).
    rewrite Nat2Z.inj_succ, Z.pow_succ_r in Hn by lia.
    assert (0 ≤ n / 10 < 2 ^ Z.of_nat f) as Hq
      by (split; [apply Z.div_pos; lia|apply Z.div_lt_upper_bound; lia]).
    destruct (IH (n / 10) Hq Hf') as (H1 & H2 & H3).
    pose proof (Z.mod_pos_bound n 10 ltac:(lia)) as Hm.
    destruct (Hdig (n mod 10) Hm) as [H4 H5]. split_and!.
    + apply Forall_app. split; [done|by repeat constructor].
    + by destruct (dec_digits f (n / 10)).
    + intros acc. rewrite foldl_app, H3. simpl. rewrite H5.
      rewrite length_app. simpl. rewrite Nat2Z.inj_add, Z.pow_add_r by lia.
      pose proof (Z.div_mod n 10 ltac:(lia)). change (10 ^ Z.of_nat 1) with 10. nia.
Qed.

Lemma dec_string_spec n :
  0 ≤ n → Forall (λ c, is_digit c = true) (dec_string n) ∧ dec_string n ≠ [] ∧
           digits_value 10 (dec_string n) = n.
Proof.
  intros Hn. unfold dec_string, digits_value.
  destruct (dec_digits_spec (S (Z.to_nat (Z.log2 n))) n) as (H1 & H2 & H3); [|done|].
  - rewrite Nat2Z.inj_succ, Z2Nat.id by apply Z.log2_nonneg.
    destruct (decide (n = 0)) as [->|]; [done|]. pose proof (Z.log2_spec n ltac:(lia)). lia.
  - split_and!; [done..|]. rewrite H3. lia.
Qed.

(** No leading zero: a positive number starts with another digit. *)
Lemma dec_digits_head fuel n :
  1 ≤ n < 2 ^ Z.of_nat fuel → ∃ c r, dec_digits fuel n = c :: r ∧ c ≠ 48.
Proof.
  revert n. induction fuel as [|f IH]; intros n Hn; [simpl in Hn; lia|]. simpl.
  destruct (n <? 10) eqn:E; breflect; [eexists _, _; split; [done|lia]|].
  rewrite Nat2Z.inj_succ, Z.pow_succ_r in Hn by lia.
  destruct (IH (n / 10)) as (c & r & -> & Hc).
  - split; [apply Z.div_le_lower_bound; lia|apply Z.div_lt_upper_bound; lia].
  - by eexists _, _.
Qed.

Lemma dec_string_head n : 1 ≤ n → ∃ c r, dec_string n = c :: r ∧ c ≠ 48.
Proof.
  intros Hn. apply dec_digits_head. rewrite Nat2Z.inj_succ, Z2Nat.id by apply Z.log2_nonneg.
  pose proof (Z.log2_spec n ltac:(lia)). lia.
Qed.

Lemma span_digits_all s : Forall (λ c, is_digit c = true) s → span_digits s = (s, []).
Proof. induction 1 as [|c s Hc Hs IH]; simpl; [done|]. by rewrite Hc, IH. Qed.

Lemma digits_no_space s :
  Forall (λ c, is_digit c = true) s → Forall (λ c, is_space c = false) s.
Proof.
  intros Hs. eapply Forall_impl; [exact Hs|]. intros c H. unfold is_digit in H. unfold is_space.
  breflect. repeat (rewrite orb_false_iff || rewrite andb_false_iff); lia.
Qed.

Lemma trim_no_space s : Forall (λ c, is_space c = false) s → trim s = s.
Proof.
  intros H. unfold trim, trim_end.
  rewrite (trim_start_id s) by (intros c r ->; by inversion H).
  rewrite trim_start_id; [apply reverse_involutive|].
  intros c r Hr. assert (c ∈ s) as Hc by (rewrite <- (reverse_involutive s), Hr; set_solver).
  rewrite Forall_forall in H. by apply H.
Qed.

Lemma parse_unsigned_digits s :
  Forall (λ c, is_digit c = true) s → s ≠ [] →
  parse_unsigned s = Some (inject_Z (digits_value 10 s) * pow10 0)%Q.
Proof.
  intros Hs Hne. unfold parse_unsigned. rewrite span_digits_all, app_nil_r by done.
  by destruct s.
Qed.

Lemma pow10_0 n : (inject_Z n * pow10 0)%Q = inject_Z n.
Proof. unfold pow10, Qmult, inject_Z. simpl. by rewrite Z.mul_1_r. Qed.

Lemma digits_radix s : Forall (λ c, is_digit c = true) s → radix_prefix s = None.
Proof.
  intros H. unfold radix_prefix. destruct s as [|c1 s]; [done|].
  apply Forall_cons in H as [_ H]. destruct s as [|c2 s]; [by repeat case_match|].
  apply Forall_cons in H as [H _].
  unfold is_digit in H. breflect.
  assert ((c2 =? 120) || (c2 =? 88) = false) as -> by lia.
  assert ((c2 =? 111) || (c2 =? 79) = false) as -> by lia.
  assert ((c2 =? 98) || (c2 =? 66) = false) as -> by lia.
  by repeat case_match.
Qed.

(** Reading back the decimal rendering of a safe positive integer. *)
Lemma number_of_string_of_Z n : 0 < n ≤ 2 ^ 53 → number_of (string_of_Z n) = num_of_Z n.
Proof.
  intros Hn. unfold string_of_Z. destruct (n <? 0) eqn:E; breflect; [lia|].
  destruct (dec_string_spec n ltac:(lia)) as (H1 & H2 & H3).
  unfold number_of. rewrite trim_no_space by by apply digits_no_space.
  assert (Hs : signed false (dec_string n) = num_of_Z n).
  { unfold signed. rewrite decide_False.
    - rewrite parse_unsigned_digits, H3, pow10_0 by done. apply round64_safe. lia.
    - intros Hi. rewrite Hi in H1. inversion H1 as [|? ? Hc]; discriminate Hc. }
  destruct (dec_string n) as [|c s] eqn:Hd; [done|]. rewrite digits_radix by done.
  inversion H1 as [|? ? Hc _]; subst. unfold is_digit in Hc. breflect.
  destruct (decide (c = 43)); [lia|]. destruct (decide (c = 45)); [lia|].
  repeat case_match; done || lia.
Qed.

Lemma positive_int_Z n : 0 < n → positive_int (num_of_Z n) = Some n.
Proof. intros Hn. unfold positive_int. rewrite to_integer_Z. by destruct (0 <? n) eqn:E; breflect; [|lia]. Qed.

Lemma positive_int_pos n z : positive_int n = Some z → 0 < z.
Proof. unfold positive_int. destruct (to_integer n); [|done]. case_match; breflect; naive_solver. Qed.

(** Decimal rendering is injective on safe integers. *)
Lemma dec_string_inj n m : 0 ≤ n → 0 ≤ m → dec_string n = dec_string m → n = m.
Proof.
  intros Hn Hm H. destruct (dec_string_spec n Hn) as (_ & _ & <-), (dec_string_spec m Hm) as (_ & _ & <-).
  by rewrite H.
Qed.

#[export] Instance string_of_Z_inj : Inj (=) (=) string_of_Z.
Proof.
  intros n m. unfold string_of_Z.
  destruct (n <? 0) eqn:E1, (m <? 0) eqn:E2; breflect; intros H.
  - injection H as H. apply dec_string_inj in H; lia.
  - destruct (dec_string_spec m ltac:(lia)) as (H1 & _). rewrite <- H in H1.
    inversion H1 as [|? ? Hc]; discriminate Hc.
  - destruct (dec_string_spec n ltac:(lia)) as (H1 & _). rewrite H in H1.
    inversion H1 as [|? ? Hc]; discriminate Hc.
  - apply dec_string_inj in H; lia.
Qed.
