(* ===== verification/JsDate.v ===== *)
(** * Dates of the language

    Time values are integers of milliseconds since the epoch, at most
    8.64e15 in magnitude. [Date.prototype.toISOString] and the part of
    [Date.parse] the language defines (its date-time string format) are
    definitions; what it leaves to the host is the class [DateHost]. *)

From S2P Require Import Prelude JsNumber.

(** The host: the local time zone, and [Date.parse] on strings outside the
    date-time string format, which is implementation-defined. *)
Class DateHost := {
  utc_of_local : Z → Z;
  timezoneOffset : Z → Z;
  legacy_parse : ustring → option Z;
  legacy_parse_range s t : legacy_parse s = Some t → Z.abs t ≤ 8640000000000000;
}.

(** A host in UTC that refuses what the language does not define. *)
Definition utc_host : DateHost.
Proof. refine {| utc_of_local t := t; timezoneOffset _ := 0; legacy_parse _ := None |}. done. Defined.

Definition max_time : Z := 8640000000000000.
Definition msPerDay : Z := 86400000.

(** ** The proleptic Gregorian calendar *)

Definition days_from_civil (yr m d : Z) : Z :=
  let yy := if m <=? 2 then yr - 1 else yr in
  let era := yy / 400 in
  let yoe := yy - era * 400 in
  let mp := if 2 <? m then m - 3 else m + 9 in
  let doy := (153 * mp + 2) / 5 + d - 1 in
  let doe := yoe * 365 + yoe / 4 - yoe / 100 + doy in
  era * 146097 + doe - 719468.

(** The year of the era, the month and the day of a day of a 400-year era. *)
Definition era_day (doe : Z) : Z * Z * Z :=
  let yoe := (doe - doe / 1460 + doe / 36524 - doe / 146096) / 365 in
  let doy := doe - (365 * yoe + yoe / 4 - yoe / 100) in
  let mp := (5 * doy + 2) / 153 in
  (yoe, if mp <? 10 then mp + 3 else mp - 9, doy - (153 * mp + 2) / 5 + 1).

Definition civil_from_days (days : Z) : Z * Z * Z :=
  let z := days + 719468 in
  let era := z / 146097 in
  let '(yoe, m, d) := era_day (z - era * 146097) in
  let yy := yoe + era * 400 in
  (if m <=? 2 then yy + 1 else yy, m, d).

(** Every day of an era is rebuilt from its date. *)
Lemma era_day_spec doe :
  0 ≤ doe < 146097 →
  let '(yoe, m, d) := era_day doe in
  0 ≤ yoe < 400 ∧ 1 ≤ m ≤ 12 ∧ 1 ≤ d ≤ 31 ∧
  yoe * 365 + yoe / 4 - yoe / 100 +
    ((153 * (if 2 <? m then m - 3 else m + 9) + 2) / 5 + d - 1) = doe.
Proof.
  intros Hdoe. unfold era_day.
  set (yoe := (doe - doe / 1460 + doe / 36524 - doe / 146096) / 365).
  set (doy := doe - (365 * yoe + yoe / 4 - yoe / 100)).
  assert (0 ≤ yoe < 400 ∧ 0 ≤ doy ≤ 365) as [Hy Hd]
    by (unfold doy, yoe; clear yoe doy; Z.div_mod_to_equations; lia).
  assert (doe = doy + (365 * yoe + yoe / 4 - yoe / 100)) as Hdoe' by (unfold doy; lia).
  clearbody doy yoe.
  set (mp := (5 * doy + 2) / 153).
  assert (0 ≤ mp ≤ 11 ∧ 1 ≤ doy - (153 * mp + 2) / 5 + 1 ≤ 31) as [Hmp Hday]
    by (unfold mp; clear mp; Z.div_mod_to_equations; lia).
  assert ((if 2 <? (if mp <? 10 then mp + 3 else mp - 9)
           then (if mp <? 10 then mp + 3 else mp - 9) - 3
           else (if mp <? 10 then mp + 3 else mp - 9) + 9) = mp) as ->
    by (destruct (mp <? 10) eqn:E1; breflect; case_match; breflect; lia).
  destruct (mp <? 10) eqn:E1; breflect; lia.
Qed.

Lemma civil_roundtrip days :
  let '(yr, m, d) := civil_from_days days in
  days_from_civil yr m d = days ∧ 1 ≤ m ≤ 12 ∧ 1 ≤ d ≤ 31.
Proof.
  unfold civil_from_days.
  set (z := days + 719468). set (era := z / 146097).
  assert (0 ≤ z - era * 146097 < 146097) as Hdoe.
  { unfold era. pose proof (Z.mod_pos_bound z 146097 ltac:(lia)).
    pose proof (Z.div_mod z 146097 ltac:(lia)). lia. }
  pose proof (era_day_spec _ Hdoe) as Hok.
  destruct (era_day (z - era * 146097)) as [[yoe m] d].
  destruct Hok as (Hyoe & Hm & Hd & Hok). split; [|lia]. unfold days_from_civil.
  assert ((if m <=? 2 then (if m <=? 2 then yoe + era * 400 + 1 else yoe + era * 400) - 1
           else (if m <=? 2 then yoe + era * 400 + 1 else yoe + era * 400)) = yoe + era * 400) as ->
    by (destruct (m <=? 2); lia).
  rewrite Z.div_add, (Z.div_small yoe 400) by lia.
  replace (yoe + era * 400 - (0 + era) * 400) with yoe by lia.
  unfold z in *. lia.
Qed.

(** ** [toISOString] *)

(** [n] in [k] decimal digits, zero-padded. *)
Fixpoint pad (k : nat) (n : Z) : ustring :=
  match k with
  | O => []
  | S k' => (48 + (n / 10 ^ Z.of_nat k') mod 10) :: pad k' n
  end.

Definition iso_year (yr : Z) : ustring :=
  if (0 <=? yr) && (yr <=? 9999) then pad 4 yr
  else if yr <? 0 then 45 :: pad 6 (- yr) else 43 :: pad 6 yr.

Definition toISOString (t : Z) : ustring :=
  let '(yr, m, d) := civil_from_days (t / msPerDay) in
  let ms := t mod msPerDay in
  iso_year yr ++ [45] ++ pad 2 m ++ [45] ++ pad 2 d ++ [84] ++
  pad 2 (ms / 3600000) ++ [58] ++ pad 2 (ms / 60000 mod 60) ++ [58] ++
  pad 2 (ms / 1000 mod 60) ++ [46] ++ pad 3 (ms mod 1000) ++ [90].

Example iso_epoch : toISOString 0 = u! "1970-01-01T00:00:00.000Z".
Proof. vm_compute. reflexivity. Qed.
Example iso_leap : toISOString 1709210096789 = u! "2024-02-29T12:34:56.789Z".
Proof. vm_compute. reflexivity. Qed.

(** ** [Date.parse] *)

(** Exactly [k] digits. *)
Fixpoint take_digits (k : nat) (acc : Z) (s : ustring) : option (Z * ustring) :=
  match k with
  | O => Some (acc, s)
  | S k' =>
    match s with
    | c :: r => if is_digit c then take_digits k' (acc * 10 + (c - 48)) r else None
    | [] => None
    end
  end.

Definition take_unit (c : Z) (s : ustring) : option ustring :=
  match s with d :: r => if d =? c then Some r else None | [] => None end.

Definition parse_year (s : ustring) : option (Z * ustring) :=
  match s with
  | 43 :: r => take_digits 6 0 r
  | 45 :: r => '(n, r') ← take_digits 6 0 r; if n =? 0 then None else Some (- n, r')
  | _ => take_digits 4 0 s
  end.

(** An optional "-dd" part; the value is 1 when it is absent. *)
Definition opt_dash2 (s : ustring) : option (Z * ustring) :=
  match s with
  | 45 :: r => take_digits 2 0 r
  | _ => Some (1, s)
  end.

Inductive zone := ZUtc (minutes : Z) | ZLocal.

Definition parse_zone (s : ustring) : option zone :=
  match s with
  | [] => Some ZLocal
  | [90] => Some (ZUtc 0)
  | c :: r =>
    if (c =? 43) || (c =? 45) then
      '(hh, r1) ← take_digits 2 0 r;
      r2 ← take_unit 58 r1;
      '(mm, r3) ← take_digits 2 0 r2;
      match r3 with
      | [] => if (hh <=? 23) && (mm <=? 59)
              then Some (ZUtc (if c =? 43 then hh * 60 + mm else - (hh * 60 + mm))) else None
      | _ => None
      end
    else None
  end.

(** The time part after "T": milliseconds of the day and the zone. *)
Definition parse_time (s : ustring) : option (Z * zone) :=
  '(hh, r1) ← take_digits 2 0 s;
  r2 ← take_unit 58 r1;
  '(mm, r3) ← take_digits 2 0 r2;
  '(ss, r4) ← match r3 with 58 :: r => take_digits 2 0 r | _ => Some (0, r3) end;
  '(ms, r5) ← match r3, r4 with
              | 58 :: _, 46 :: r => take_digits 3 0 r
              | _, _ => Some (0, r4)
              end;
  z ← parse_zone r5;
  let total := hh * 3600000 + mm * 60000 + ss * 1000 + ms in
  if (mm <=? 59) && (ss <=? 59) && ((hh <=? 23) || (total =? msPerDay)) then Some (total, z) else None.

Definition time_clip (t : Z) : option Z := if Z.abs t <=? max_time then Some t else None.

Section parse.
Context `{DateHost}.

(** The date-time string format of the language. *)
Definition parse_iso (s : ustring) : option Z :=
  '(yr, r1) ← parse_year s;
  '(m, r2) ← opt_dash2 r1;
  '(d, r3) ← match r1 with [] => Some (1, r2) | 45 :: _ => opt_dash2 r2 | _ => Some (1, r2) end;
  if (1 <=? m) && (m <=? 12) && (1 <=? d) && (d <=? 31) then
    let day := days_from_civil yr m d * msPerDay in
    match r3 with
    | [] => time_clip day
    | 84 :: r =>
      '(ms, z) ← parse_time r;
      match z with
      | ZUtc minutes => time_clip (day + ms - minutes * 60000)
      | ZLocal => time_clip (utc_of_local (day + ms))
      end
    | _ => None
    end
  else None.

(** [Date.parse(s)]; [None] is [NaN]. *)
Definition Date_parse (s : ustring) : option Z :=
  match parse_iso s with
  | Some t => Some t
  | None => legacy_parse s
  end.

(** [new Date(s).toISOString()]: [None] is the [RangeError] of an invalid date. *)
Definition iso_of_string (s : ustring) : option ustring := toISOString <$> Date_parse s.
End parse.

Example parse_ex1 : @Date_parse utc_host (u! "2024-02-29T12:34:56.789Z") = Some 1709210096789.
Proof. vm_compute. reflexivity. Qed.
Example parse_ex2 : @Date_parse utc_host (u! "2024-02-29") = Some 1709164800000.
Proof. vm_compute. reflexivity. Qed.
Example parse_ex3 : @Date_parse utc_host (u! "2024-02-29T12:34+09:00") = Some 1709177640000.
Proof. vm_compute. reflexivity. Qed.
Example parse_ex4 : @Date_parse utc_host (u! "yesterday") = None.
Proof. vm_compute. reflexivity. Qed.

(** ** Round trip *)

Lemma take_digits_pad k n acc rest :
  0 ≤ n → take_digits k acc (pad k n ++ rest) =
          Some (acc * 10 ^ Z.of_nat k + n mod 10 ^ Z.of_nat k, rest).
Proof.
  intros Hn. revert acc. induction k as [|k IH]; intros acc.
  - simpl. rewrite Z.mod_1_r. do 2 f_equal. lia.
  - cbn [pad take_digits app].
    pose proof (Z.mod_pos_bound (n / 10 ^ Z.of_nat k) 10 ltac:(lia)) as Hb.
    assert (is_digit (48 + (n / 10 ^ Z.of_nat k) mod 10) = true) as -> by (unfold is_digit; lia).
    rewrite IH. do 2 f_equal.
    rewrite Nat2Z.inj_succ, Z.pow_succ_r by lia.
    assert (0 < 10 ^ Z.of_nat k) by (apply Z.pow_pos_nonneg; lia).
    rewrite (Z.mul_comm 10 (10 ^ Z.of_nat k)), Z.rem_mul_r by lia. nia.
Qed.

Lemma take_digits_pad_small k n rest :
  0 ≤ n < 10 ^ Z.of_nat k → take_digits k 0 (pad k n ++ rest) = Some (n, rest).
Proof. intros Hn. rewrite take_digits_pad by lia. rewrite Z.mod_small by lia. done. Qed.

Lemma parse_year_iso yr rest :
  - 1000000 < yr < 1000000 → parse_year (iso_year yr ++ rest) = Some (yr, rest).
Proof.
  intros Hy. unfold iso_year. destruct ((0 <=? yr) && (yr <=? 9999)) eqn:E; breflect.
  - assert (parse_year (pad 4 yr ++ rest) = take_digits 4 0 (pad 4 yr ++ rest)) as ->.
    { unfold pad. cbn [app]. pose proof (Z.mod_pos_bound (yr / 10 ^ Z.of_nat 3) 10 ltac:(lia)).
      unfold parse_year. destruct (48 + (yr / 10 ^ Z.of_nat 3) mod 10) eqn:Ec; [done| |done].
      repeat (destruct p as [p|p|]; try done); exfalso; lia. }
    apply take_digits_pad_small. change (10 ^ Z.of_nat 4) with 10000. lia.
  - destruct (yr <? 0) eqn:Es; breflect; cbn [app parse_year].
    + rewrite take_digits_pad_small by (change (10 ^ Z.of_nat 6) with 1000000; lia). simpl.
      destruct (- yr =? 0) eqn:Ez; breflect; [lia|]. do 2 f_equal. lia.
    + apply take_digits_pad_small. change (10 ^ Z.of_nat 6) with 1000000.
      destruct (0 <=? yr) eqn:E0; breflect; lia.
Qed.

Lemma civil_year_bound days :
  - 100000000 ≤ days ≤ 100000000 →
  let '(yr, _, _) := civil_from_days days in - 1000000 < yr < 1000000.
Proof.
  intros Hd. unfold civil_from_days.
  set (era := (days + 719468) / 146097).
  assert (0 ≤ days + 719468 - era * 146097 < 146097 ∧ - 700 ≤ era ≤ 700) as [Hdoe He]
    by (unfold era; clear era; Z.div_mod_to_equations; lia).
  pose proof (era_day_spec _ Hdoe) as Hok.
  destruct (era_day _) as [[yoe m] d]. destruct Hok as (Hy & _). destruct (m <=? 2); lia.
Qed.

(** Read the next padded field of an ISO rendering. *)
Ltac read_field :=
  rewrite take_digits_pad_small by
    (change (10 ^ Z.of_nat 2) with 100; change (10 ^ Z.of_nat 3) with 1000; lia);
  cbn [mbind option_bind app take_unit opt_dash2]; rewrite ?Z.eqb_refl;
  cbn [mbind option_bind].

(** The time part of an ISO rendering is read back. *)
Lemma parse_time_iso ms :
  0 ≤ ms < msPerDay →
  parse_time (pad 2 (ms / 3600000) ++ [58] ++ pad 2 (ms / 60000 mod 60) ++ [58] ++
    pad 2 (ms / 1000 mod 60) ++ [46] ++ pad 3 (ms mod 1000) ++ [90]) = Some (ms, ZUtc 0).
Proof.
  unfold msPerDay. intros Hms. unfold parse_time.
  assert (0 ≤ ms / 3600000 < 24 ∧ 0 ≤ ms / 60000 mod 60 < 60 ∧ 0 ≤ ms / 1000 mod 60 < 60 ∧
    0 ≤ ms mod 1000 < 1000 ∧
    ms / 3600000 * 3600000 + ms / 60000 mod 60 * 60000 + ms / 1000 mod 60 * 1000 + ms mod 1000 = ms)
    as (H1 & H2 & H3 & H4 & H5) by (Z.div_mod_to_equations; lia).
  do 4 read_field.
  cbn [parse_zone]. rewrite H5.
  destruct (_ && _) eqn:E; [done|]. exfalso. revert E. apply not_false_iff_true.
  rewrite !andb_true_iff, orb_true_iff. unfold msPerDay. lia.
Qed.

Section roundtrip.
Context `{DateHost}.

(** [Date.parse] inverts [toISOString] on every time value. *)
Lemma Date_parse_toISOString t : Z.abs t ≤ max_time → Date_parse (toISOString t) = Some t.
Proof.
  intros Ht. unfold max_time in Ht. unfold Date_parse, toISOString.
  assert (- 100000000 ≤ t / msPerDay ≤ 100000000) as Hdays
    by (unfold msPerDay; Z.div_mod_to_equations; lia).
  pose proof (civil_roundtrip (t / msPerDay)) as Hc. pose proof (civil_year_bound _ Hdays) as Hy.
  destruct (civil_from_days (t / msPerDay)) as [[yr m] d]. destruct Hc as (Hc & Hm & Hd).
  unfold parse_iso. rewrite parse_year_iso by done. cbn [mbind option_bind app opt_dash2].
  do 2 read_field.
  destruct ((1 <=? m) && (m <=? 12) && (1 <=? d) && (d <=? 31)) eqn:E.
  2: { exfalso. revert E. apply not_false_iff_true. rewrite !andb_true_iff. lia. }
  pose proof (Z.mod_pos_bound t msPerDay ltac:(unfold msPerDay; lia)) as Hb.
  pose proof (parse_time_iso (t mod msPerDay) Hb) as Hp. cbn [app] in Hp. rewrite Hp.
  cbn [mbind option_bind].
  rewrite Hc. pose proof (Z.div_mod t msPerDay ltac:(unfold msPerDay; lia)) as Hdm.
  replace (t / msPerDay * msPerDay + t mod msPerDay - 0 * 60000) with t by lia.
  unfold time_clip, max_time. by rewrite (proj2 (Z.leb_le _ _) Ht).
Qed.

Lemma time_clip_range t t' : time_clip t = Some t' → Z.abs t' ≤ max_time.
Proof. unfold time_clip. case_match; breflect; naive_solver. Qed.

Lemma parse_iso_range s t : parse_iso s = Some t → Z.abs t ≤ max_time.
Proof.
  unfold parse_iso. intros Hp.
  repeat (case_match || (apply bind_Some in Hp as ([? ?] & _ & Hp))); try done;
    by eapply time_clip_range.
Qed.

Lemma Date_parse_range s t : Date_parse s = Some t → Z.abs t ≤ max_time.
Proof.
  unfold Date_parse. destruct (parse_iso s) eqn:E.
  - intros; simplify_eq. by eapply parse_iso_range.
  - apply legacy_parse_range.
Qed.

(** Rendering what was read gives a string that reads back to the same time. *)
Lemma iso_of_string_stable s s' :
  iso_of_string s = Some s' → iso_of_string s' = Some s' ∧ Date_parse s' = Date_parse s.
Proof.
  unfold iso_of_string. destruct (Date_parse s) as [t|] eqn:E; [|done].
  simpl. intros; simplify_eq. apply Date_parse_range in E.
  by rewrite Date_parse_toISOString.
Qed.
End roundtrip.

(** [Date.parse(a) > Date.parse(b)]: false when either is [NaN]. *)
Definition time_lt `{DateHost} (a b : ustring) : bool :=
  match Date_parse a, Date_parse b with Some s, Some t => s <? t | _, _ => false end.

(** The sign of [Date.parse(a) - Date.parse(b)]: [NaN] counts as 0. *)
Definition cmp_time `{DateHost} (a b : ustring) : comparison :=
  match Date_parse a, Date_parse b with Some s, Some t => Z.compare s t | _, _ => Eq end.
