(* ===== verification/Json.v ===== *)
(** * JSON values

    What [JSON.parse] can return and the narrowing tests of the sources on such
    values of type [unknown]. A property read gives [None] for [undefined]. *)

From Stdlib Require Import ZArith QArith.
From S2P Require Import Prelude JsNumber.

#[local] Open Scope Z_scope.

Inductive json : Type :=
| JNull
| JBool (b : bool)
| JNum (n : jsnum)
| JStr (s : ustring)
| JArr (items : list json)
| JObj (fields : list (ustring * json)).

(** [typeof value === "object" && value !== null] *)
Definition isRecord (value : json) : bool :=
  match value with JArr _ | JObj _ => true | _ => false end.

(** [value[key]] for a name that is not an array index or [length]. *)
Definition prop (key : ustring) (value : json) : option json :=
  match value with JObj fields => map_get key fields | _ => None end.

Definition as_string (v : option json) : option ustring :=
  match v with Some (JStr s) => Some s | _ => None end.
Definition as_number (v : option json) : option jsnum :=
  match v with Some (JNum n) => Some n | _ => None end.
Definition as_array (v : option json) : option (list json) :=
  match v with Some (JArr l) => Some l | _ => None end.

(** A safe integer as a JSON number. *)
Definition JInt (n : Z) : json := JNum (num_of_Z n).

(** ** [JSON.stringify] *)

Definition hex_digit (n : Z) : Z := if n <? 10 then 48 + n else 87 + n.

Definition hex4 (c : Z) : ustring :=
  [hex_digit (c / 4096 mod 16); hex_digit (c / 256 mod 16);
   hex_digit (c / 16 mod 16); hex_digit (c mod 16)].

Definition is_high (c : Z) : bool := (55296 <=? c) && (c <=? 56319).
Definition is_low (c : Z) : bool := (56320 <=? c) && (c <=? 57343).

(** The escape of one code unit that is not part of a surrogate pair. *)
Definition quote_unit (c : Z) : ustring :=
  if c =? 8 then [92; 98] else if c =? 9 then [92; 116] else if c =? 10 then [92; 110]
  else if c =? 12 then [92; 102] else if c =? 13 then [92; 114]
  else if c =? 34 then [92; 34] else if c =? 92 then [92; 92]
  else if (c <? 32) || is_high c || is_low c then [92; 117] ++ hex4 c
  else [c].

Fixpoint quote_units (s : ustring) : ustring :=
  match s with
  | [] => []
  | c :: r =>
    match r with
    | d :: r' => if is_high c && is_low d then c :: d :: quote_units r' else quote_unit c ++ quote_units r
    | [] => quote_unit c
    end
  end.

Definition quote (s : ustring) : ustring := [34] ++ quote_units s ++ [34].

Definition max_safe : Z := 2 ^ 53.

(** The rendering of a number: safe integers in full, others by the fewest digits. *)
Definition number_text (n : jsnum) : option ustring :=
  match n with
  | NaN | Inf _ => Some (u! "null")
  | Fin q =>
    match to_integer n with
    | Some z => if Z.abs z <=? max_safe then Some (string_of_Z z) else Some (fraction_text q)
    | None => Some (fraction_text q)
    end
  end.

(** [String(n)] for a number. *)
Definition string_of_num (n : jsnum) : ustring :=
  match n with
  | NaN => u! "NaN"
  | Inf negative => if negative then u! "-Infinity" else u! "Infinity"
  | Fin _ => default [] (number_text n)
  end.

Definition option_list {A} (l : list (option A)) : option (list A) := mapM (λ o, o) l.

Fixpoint stringify (v : json) : option ustring :=
  match v with
  | JNull => Some (u! "null")
  | JBool true => Some (u! "true")
  | JBool false => Some (u! "false")
  | JNum n => number_text n
  | JStr s => Some (quote s)
  | JArr l =>
    (λ parts, [91] ++ join [44] parts ++ [93]) <$> option_list (map stringify l)
  | JObj fs =>
    (λ parts, [123] ++ join [44] parts ++ [125]) <$>
    option_list (map (λ kv, (λ t, quote kv.1 ++ [58] ++ t) <$> stringify kv.2) fs)
  end.

(** ** [JSON.parse] *)

Definition is_ws (c : Z) : bool := (c =? 9) || (c =? 10) || (c =? 13) || (c =? 32).

Fixpoint skip_ws (s : ustring) : ustring :=
  match s with
  | c :: r => if is_ws c then skip_ws r else s
  | [] => []
  end.

Definition hex_value (c : Z) : option Z := if digit_value c <? 16 then Some (digit_value c) else None.

Definition hex4_value (a b c d : Z) : option Z :=
  x ← hex_value a; y ← hex_value b; z ← hex_value c; t ← hex_value d;
  Some (x * 4096 + y * 256 + z * 16 + t).

Definition unescape (c : Z) : option Z :=
  if c =? 34 then Some 34 else if c =? 92 then Some 92 else if c =? 47 then Some 47
  else if c =? 98 then Some 8 else if c =? 102 then Some 12 else if c =? 110 then Some 10
  else if c =? 114 then Some 13 else if c =? 116 then Some 9 else None.

(** The rest of a string literal after its opening quote. *)
Fixpoint parse_string (s : ustring) : option (ustring * ustring) :=
  match s with
  | [] => None
  | c :: r =>
    if c =? 34 then Some ([], r)
    else if c =? 92 then
      match r with
      | e :: r1 =>
        if e =? 117 then
          match r1 with
          | h1 :: h2 :: h3 :: h4 :: r2 =>
            v ← hex4_value h1 h2 h3 h4; '(t, rest) ← parse_string r2; Some (v :: t, rest)
          | _ => None
          end
        else v ← unescape e; '(t, rest) ← parse_string r1; Some (v :: t, rest)
      | [] => None
      end
    else if c <? 32 then None
    else '(t, rest) ← parse_string r; Some (c :: t, rest)
  end.

Definition no_leading_zero (ip : ustring) : bool :=
  match ip with [] => false | [_] => true | c :: _ => negb (c =? 48) end.

(** The optional fraction and exponent of a number. *)
Definition json_fraction (s : ustring) : option (ustring * ustring) :=
  match s with
  | 46 :: r => let '(fp, r') := span_digits r in if truthy fp then Some (fp, r') else None
  | _ => Some ([], s)
  end.

Definition json_exponent (s : ustring) : option (Z * ustring) :=
  match s with
  | c :: r =>
    if (c =? 101) || (c =? 69) then
      let '(sg, r1) := match r with 43 :: q => (1, q) | 45 :: q => (-1, q) | _ => (1, r) end in
      let '(ep, r2) := span_digits r1 in
      if truthy ep then Some (sg * digits_value 10 ep, r2) else None
    else Some (0, s)
  | [] => Some (0, [])
  end.

Definition json_unsigned (negative : bool) (s : ustring) : option (jsnum * ustring) :=
  let '(ip, r1) := span_digits s in
  if no_leading_zero ip then
    '(fp, r2) ← json_fraction r1;
    '(e, r3) ← json_exponent r2;
    let q := (inject_Z (digits_value 10 (ip ++ fp)) * pow10 (e - Z.of_nat (length fp)))%Q in
    Some (round64 (if negative then - q else q)%Q, r3)
  else None.

Definition json_number (s : ustring) : option (jsnum * ustring) :=
  match s with
  | c :: r => if c =? 45 then json_unsigned true r else json_unsigned false s
  | [] => None
  end.

Definition literal (text s : ustring) : option ustring :=
  if starts_with text s then Some (drop (length text) s) else None.

Fixpoint parse_value (n : nat) (s : ustring) : option (json * ustring) :=
  match n with
  | O => None
  | S n =>
    match skip_ws s with
    | [] => None
    | c :: r =>
      if c =? 34 then '(t, rest) ← parse_string r; Some (JStr t, rest)
      else if c =? 91 then
        match skip_ws r with
        | 93 :: rest => Some (JArr [], rest)
        | _ => '(l, rest) ← parse_elements n r; Some (JArr l, rest)
        end
      else if c =? 123 then
        match skip_ws r with
        | 125 :: rest => Some (JObj [], rest)
        | _ => '(fs, rest) ← parse_members n r; Some (JObj (map_of fs), rest)
        end
      else if c =? 110 then rest ← literal (u! "null") (c :: r); Some (JNull, rest)
      else if c =? 116 then rest ← literal (u! "true") (c :: r); Some (JBool true, rest)
      else if c =? 102 then rest ← literal (u! "false") (c :: r); Some (JBool false, rest)
      else '(v, rest) ← json_number (c :: r); Some (JNum v, rest)
    end
  end
with parse_elements (n : nat) (s : ustring) : option (list json * ustring) :=
  match n with
  | O => None
  | S n =>
    '(v, r) ← parse_value n s;
    match skip_ws r with
    | 44 :: r' => '(l, rest) ← parse_elements n r'; Some (v :: l, rest)
    | 93 :: rest => Some ([v], rest)
    | _ => None
    end
  end
with parse_members (n : nat) (s : ustring) : option (list (ustring * json) * ustring) :=
  match n with
  | O => None
  | S n =>
    match skip_ws s with
    | 34 :: r =>
      '(k, r1) ← parse_string r;
      match skip_ws r1 with
      | 58 :: r2 =>
        '(v, r3) ← parse_value n r2;
        match skip_ws r3 with
        | 44 :: r' => '(l, rest) ← parse_members n r'; Some ((k, v) :: l, rest)
        | 125 :: rest => Some ([(k, v)], rest)
        | _ => None
        end
      | _ => None
      end
    | _ => None
    end
  end.

(** [JSON.parse(s)]; [None] is the [SyntaxError]. Each nested call consumes at
    least one code unit, so the length bounds the depth. *)
Definition JSON_parse (s : ustring) : option json :=
  match parse_value (S (length s)) s with
  | Some (v, rest) => match skip_ws rest with [] => Some v | _ => None end
  | None => None
  end.

Definition sample : json :=
  JObj [(u! "version", JInt 1);
        (u! "dashboards", JArr [JObj [(u! "id", JStr (u! "q\q")); (u! "ok", JBool true)]; JNull])].
Example parse_sample : (stringify sample ≫= JSON_parse) = Some sample.
Proof. vm_compute. reflexivity. Qed.
Example parse_overflow : JSON_parse (u! " [1e999, 2.5e-1 , -0]") = Some (JArr [JNum (Inf false); JNum (Fin (1 # 4)); JNum (Fin 0)]).
Proof. vm_compute. reflexivity. Qed.

(** ** Parsing what was printed *)

Definition units (s : ustring) : Prop := Forall (λ c, 0 ≤ c < 65536) s.
#[export] Instance units_dec s : Decision (units s).
Proof. unfold units. apply _. Defined.

(** The values whose rendering is modelled: code units in range, numbers that
    are safe integers, distinct keys. *)
Fixpoint json_wf (v : json) : Prop :=
  match v with
  | JNull | JBool _ => True
  | JNum n => ∃ z, n = num_of_Z z ∧ Z.abs z ≤ max_safe
  | JStr s => units s
  | JArr l => foldr (λ v P, json_wf v ∧ P) True l
  | JObj fs => NoDup fs.*1 ∧ foldr (λ kv P, (units kv.1 ∧ json_wf kv.2) ∧ P) True fs
  end.

Lemma json_wf_arr l : json_wf (JArr l) ↔ Forall json_wf l.
Proof. simpl. induction l; simpl; [by split|]. rewrite Forall_cons, IHl. done. Qed.

Lemma json_wf_obj fs :
  json_wf (JObj fs) ↔ NoDup fs.*1 ∧ Forall (λ kv, units kv.1 ∧ json_wf kv.2) fs.
Proof.
  simpl. assert (∀ l, foldr (λ kv P, (units kv.1 ∧ json_wf kv.2) ∧ P) True l ↔
    Forall (λ kv, units kv.1 ∧ json_wf kv.2) l) as H.
  { induction l; simpl; [by split|]. by rewrite Forall_cons, IHl. }
  by rewrite H.
Qed.

Section json_induction.
Context (P : json → Prop).
Context (Hnull : P JNull) (Hbool : ∀ b, P (JBool b)) (Hnum : ∀ n, P (JNum n)) (Hstr : ∀ s, P (JStr s)).
Context (Harr : ∀ l, Forall P l → P (JArr l)).
Context (Hobj : ∀ fs, Forall (λ kv, P kv.2) fs → P (JObj fs)).

Fixpoint json_nested_ind (v : json) : P v :=
  match v with
  | JNull => Hnull
  | JBool b => Hbool b
  | JNum n => Hnum n
  | JStr s => Hstr s
  | JArr l => Harr l ((fix go l : Forall P l :=
      match l with [] => Forall_nil_2 P | v :: r => Forall_cons_2 P v r (json_nested_ind v) (go r) end) l)
  | JObj fs => Hobj fs ((fix go fs : Forall (λ kv, P kv.2) fs :=
      match fs with
      | [] => Forall_nil_2 _
      | kv :: r => Forall_cons_2 (λ kv, P kv.2) kv r (json_nested_ind kv.2) (go r)
      end) fs)
  end.
End json_induction.

Lemma hex_value_digit n : 0 ≤ n < 16 → hex_value (hex_digit n) = Some n.
Proof.
  intros Hn. unfold hex_value, hex_digit, digit_value, is_digit.
  destruct (n <? 10) eqn:E; breflect.
  - assert ((48 <=? 48 + n) && (48 + n <=? 57) = true) as -> by lia.
    rewrite (proj2 (Z.ltb_lt _ _)) by lia. f_equal. lia.
  - assert ((48 <=? 87 + n) && (87 + n <=? 57) = false) as -> by lia.
    assert ((97 <=? 87 + n) && (87 + n <=? 102) = true) as -> by lia.
    rewrite (proj2 (Z.ltb_lt _ _)) by lia. f_equal. lia.
Qed.

(** One escaped unit is read back as that unit. *)
Lemma parse_quote_unit c t :
  0 ≤ c < 65536 →
  parse_string (quote_unit c ++ t) = '(x, rest) ← parse_string t; Some (c :: x, rest).
Proof.
  intros Hc. unfold quote_unit.
  repeat match goal with
  | |- context [c =? ?k] => destruct (c =? k) eqn:?; breflect; [by subst c|]
  end.
  destruct ((c <? 32) || is_high c || is_low c) eqn:E.
  - cbn [app parse_string hex4]. change (92 =? 34) with false. change (92 =? 92) with true. change (117 =? 117) with true. cbv iota.
    unfold hex4_value. rewrite !hex_value_digit by (Z.div_mod_to_equations; lia).
    cbn [mbind option_bind].
    assert (c / 4096 mod 16 * 4096 + c / 256 mod 16 * 256 + c / 16 mod 16 * 16 + c mod 16 = c) as ->
      by (Z.div_mod_to_equations; lia).
    done.
  - cbn [app parse_string]. breflect.
    repeat match goal with
    | |- context [c =? ?k] => destruct (c =? k) eqn:?; breflect; [lia|]
    end.
    destruct (c <? 32) eqn:?; breflect; [lia|done].
Qed.

Lemma quote_units_cons2 c d r :
  quote_units (c :: d :: r) =
  if is_high c && is_low d then c :: d :: quote_units r else quote_unit c ++ quote_units (d :: r).
Proof. done. Qed.

Lemma parse_quoted s rest : units s → parse_string (quote_units s ++ 34 :: rest) = Some (s, rest).
Proof.
  remember (length s) as n eqn:Hn. revert s Hn.
  induction (lt_wf n) as [n _ IH]. intros s -> Hs.
  destruct s as [|c [|d r]]; [done| |].
  - inversion_clear Hs. cbn [quote_units]. by rewrite parse_quote_unit.
  - inversion_clear Hs as [|? ? Hc Hr]. rewrite quote_units_cons2.
    destruct (is_high c && is_low d) eqn:E.
    + inversion_clear Hr as [|? ? Hd Hr']. unfold is_high, is_low in E. breflect.
      cbn [app parse_string].
      repeat match goal with
      | |- context [?a =? ?k] => destruct (a =? k) eqn:?; breflect; [lia|]
      | |- context [?a <? ?k] => destruct (a <? k) eqn:?; breflect; [lia|]
      end.
      rewrite (IH (length r)); [done|simpl; lia|done|done].
    + rewrite <- app_assoc, parse_quote_unit by done.
      rewrite (IH (length (d :: r))); [done|simpl; lia|done|done].
Qed.

(** What may follow a value inside a rendering. *)
Definition delim (rest : ustring) : Prop :=
  match rest with [] => True | c :: _ => c = 44 ∨ c = 93 ∨ c = 125 ∨ c = 10 end.

Lemma span_digits_delim s rest :
  Forall (λ c, is_digit c = true) s → delim rest → span_digits (s ++ rest) = (s, rest).
Proof.
  intros Hs Hr. induction Hs as [|c s Hc _ IH]; simpl.
  - destruct rest as [|c r]; [done|]. simpl. by destruct Hr as [->|[->|[->| ->]]].
  - by rewrite Hc, IH.
Qed.

Lemma json_unsigned_dec negative n rest :
  0 ≤ n ≤ max_safe → delim rest →
  json_unsigned negative (dec_string n ++ rest) = Some (num_of_Z (if negative then - n else n), rest).
Proof.
  intros Hn Hr. destruct (dec_string_spec n ltac:(lia)) as (H1 & H2 & H3).
  unfold json_unsigned. rewrite span_digits_delim by done.
  assert (no_leading_zero (dec_string n) = true) as ->.
  { destruct (decide (n = 0)) as [->|]; [done|].
    destruct (dec_string_head n ltac:(lia)) as (c & r & -> & Hc). simpl.
    destruct r; [done|]. by rewrite (proj2 (Z.eqb_neq _ _) Hc). }
  assert (json_fraction rest = Some ([], rest)) as ->
    by (destruct rest as [|c r]; [done|]; by destruct Hr as [->|[->|[->| ->]]]).
  cbn [mbind option_bind].
  assert (json_exponent rest = Some (0, rest)) as ->
    by (destruct rest as [|c r]; [done|]; by destruct Hr as [->|[->|[->| ->]]]).
  cbn [mbind option_bind]. rewrite app_nil_r, H3. do 2 f_equal.
  change (0 - Z.of_nat (length [])) with 0. rewrite pow10_0.
  destruct negative; [change (- inject_Z n)%Q with (inject_Z (- n))|]; apply round64_safe;
    unfold max_safe in *; lia.
Qed.

Lemma json_number_Z z rest :
  Z.abs z ≤ max_safe → delim rest → json_number (string_of_Z z ++ rest) = Some (num_of_Z z, rest).
Proof.
  intros Hz Hr. unfold string_of_Z. destruct (z <? 0) eqn:E; breflect.
  - cbn [app json_number]. rewrite Z.eqb_refl, json_unsigned_dec by (done || lia).
    by rewrite Z.opp_involutive.
  - destruct (dec_string_spec z ltac:(lia)) as (H1 & H2 & _).
    pose proof (json_unsigned_dec false z rest ltac:(lia) Hr) as H.
    destruct (dec_string z) as [|c r]; [done|]. cbn [app json_number].
    inversion_clear H1. unfold is_digit in *. breflect.
    by rewrite (proj2 (Z.eqb_neq c 45)) by lia.
Qed.

Ltac norm_app := repeat first [rewrite <- app_assoc | progress cbn [app]].
Ltac norm_len H := repeat first [rewrite length_app in H | progress cbn [length] in H].

Lemma option_list_map {A} (f : A → option ustring) l parts :
  option_list (map f l) = Some parts ↔ Forall2 (λ a p, f a = Some p) l parts.
Proof.
  unfold option_list. rewrite mapM_Some. change (map f l) with (f <$> l).
  by rewrite Forall2_fmap_l.
Qed.

(** How a rendering starts: never with white space or a closing bracket. *)
Definition starts_value (s : ustring) : Prop :=
  ∃ c r, s = c :: r ∧ is_ws c = false ∧ c ≠ 93 ∧ c ≠ 125.

Lemma digit_start c r : is_digit c = true → starts_value (c :: r).
Proof. unfold is_digit. intros Hc. breflect. exists c, r. unfold is_ws. split_and!; [done|lia..]. Qed.

Lemma dec_string_start n rest : 0 ≤ n → starts_value (dec_string n ++ rest).
Proof.
  intros Hn. destruct (dec_string_spec n Hn) as (H1 & H2 & _).
  destruct (dec_string n) as [|c r]; [done|]. inversion_clear H1 as [|? ? Hc]. by apply digit_start.
Qed.

Lemma positive_text_start q : starts_value (positive_text q).
Proof.
  unfold positive_text. destruct (shortest_digits _ _ _ _) as [s0 k].
  destruct (if s0 =? _ then _ else _) as [s n].
  destruct (_ && _); [apply dec_string_start; lia|].
  pose proof (dec_string_start (Z.abs s) [] ltac:(lia)) as Hs. rewrite app_nil_r in Hs.
  destruct (dec_string (Z.abs s)) as [|c r]; [by destruct Hs as (? & ? & ? & _)|].
  destruct Hs as (c' & r' & [= <- <-] & Hc).
  repeat case_match; first [by apply digit_start|by eexists _, _].
Qed.

Lemma number_text_start n s : number_text n = Some s → starts_value s.
Proof.
  assert (∀ q, starts_value (fraction_text q)) as Hf.
  { intros q. unfold fraction_text. case_match; [by eexists _, _|apply positive_text_start]. }
  unfold number_text. destruct n as [| |q]; [intros [= <-]; by eexists _, _..|].
  destruct (to_integer (Fin q)) as [z|]; [|by intros [= <-]]. case_match; [|by intros [= <-]]. intros [= <-].
  unfold string_of_Z. destruct (z <? 0) eqn:E; breflect; [by eexists _, _|].
  rewrite <- (app_nil_r (dec_string z)). by apply dec_string_start.
Qed.

Lemma stringify_start v s : stringify v = Some s → starts_value s.
Proof.
  destruct v as [|[]|n|t|l|fs]; simpl.
  1-3: intros [= <-]; by eexists _, _.
  - apply number_text_start.
  - intros [= <-]. by eexists _, _.
  - intros (parts & _ & ->)%fmap_Some. by eexists _, _.
  - intros (parts & _ & ->)%fmap_Some. by eexists _, _.
Qed.

Lemma skip_ws_start s rest : starts_value s → skip_ws (s ++ rest) = s ++ rest.
Proof. intros (c & r & -> & Hc & _). simpl. by rewrite Hc. Qed.

Definition reads (v : json) : Prop := ∀ s rest n,
  stringify v = Some s → json_wf v → delim rest → (length s < n)%nat →
  parse_value n (s ++ rest) = Some (v, rest).

Lemma join_cons2 (sep p q : ustring) ps : join sep (p :: q :: ps) = p ++ sep ++ join sep (q :: ps).
Proof. done. Qed.

Lemma parse_elements_reads l parts : l ≠ [] →
  Forall2 (λ v p, stringify v = Some p) l parts → Forall reads l → Forall json_wf l →
  ∀ n rest, (S (length (join [44%Z] parts)) < n)%nat →
  parse_elements n (join [44] parts ++ 93 :: rest) = Some (l, rest).
Proof.
  intros Hne HF. induction HF as [|v p l parts Hp HF IH]; [done|].
  intros Hr Hw n rest Hn. inversion_clear Hr as [|? ? Hv Hr']. inversion_clear Hw as [|? ? Wv Wl].
  destruct n as [|n]; [simpl in Hn; lia|].
  destruct HF as [|v' p' l parts Hp' HF].
  - cbn [join] in *. cbn [parse_elements].
    rewrite (Hv p (93 :: rest) n) by (done || (simpl; auto) || lia). done.
  - rewrite join_cons2 in *. norm_len Hn.
    rewrite <- !app_assoc. cbn [parse_elements].
    rewrite (Hv p) by (done || (simpl; auto) || lia). cbn [mbind option_bind app].
    cbn [skip_ws]. change (is_ws 44) with false. cbv iota.
    rewrite IH by (done || lia). done.
Qed.

Lemma parse_members_reads fs parts : fs ≠ [] →
  Forall2 (λ kv p, (λ t, quote kv.1 ++ [58] ++ t) <$> stringify kv.2 = Some p) fs parts →
  Forall (λ kv, reads kv.2) fs → Forall (λ kv, units kv.1 ∧ json_wf kv.2) fs →
  ∀ n rest, (S (length (join [44%Z] parts)) < n)%nat →
  parse_members n (join [44] parts ++ 125 :: rest) = Some (fs, rest).
Proof.
  intros Hne HF. induction HF as [|kv p fs parts Hp HF IH]; [done|].
  intros Hr Hw n rest Hn. inversion_clear Hr as [|? ? Hv Hr'].
  inversion_clear Hw as [|? ? [Wk Wv] Wl]. destruct kv as [k v]. simpl in Hp, Hv, Wk, Wv.
  apply fmap_Some in Hp as (t & Ht & ->). destruct n as [|n]; [simpl in Hn; lia|].
  destruct HF as [|kv' p' fs parts Hp' HF].
  - unfold quote in *. cbn [join] in *. norm_len Hn.
    norm_app. cbn [parse_members skip_ws]. change (is_ws 34) with false. cbv iota.
    rewrite parse_quoted by done. cbn [mbind option_bind skip_ws]. change (is_ws 58) with false. cbv iota.
    rewrite (Hv t) by (done || (simpl; auto) || lia). done.
  - rewrite join_cons2 in *. unfold quote in *. norm_len Hn.
    norm_app. cbn [parse_members skip_ws]. change (is_ws 34) with false. cbv iota.
    rewrite parse_quoted by done. cbn [mbind option_bind skip_ws]. change (is_ws 58) with false. cbv iota.
    rewrite (Hv t) by (done || (simpl; auto) || lia). cbn [mbind option_bind skip_ws].
    change (is_ws 44) with false. cbv iota. rewrite IH by (done || lia). done.
Qed.

Lemma number_text_Z z : Z.abs z ≤ max_safe → number_text (num_of_Z z) = Some (string_of_Z z).
Proof.
  intros Hz. unfold number_text, num_of_Z. fold (num_of_Z z).
  by rewrite to_integer_Z, (proj2 (Z.leb_le _ _) Hz).
Qed.

Lemma reads_num n : reads (JNum n).
Proof.
  intros s rest f Hs (z & -> & Hz) Hr Hn.
  pose proof (stringify_start _ _ Hs) as Hstart.
  change (number_text (num_of_Z z) = Some s) in Hs. rewrite number_text_Z in Hs by done.
  injection Hs as Hs.
  destruct f as [|f]; [lia|]. cbn [parse_value]. rewrite skip_ws_start by done.
  pose proof (json_number_Z z rest Hz Hr) as Hnum. rewrite Hs in Hnum.
  assert (∃ c r, s = c :: r ∧ (is_digit c = true ∨ c = 45)) as (c & r & -> & Hc).
  { subst s. unfold string_of_Z. destruct (z <? 0) eqn:E; breflect; [by eauto|].
    destruct (dec_string_spec z ltac:(lia)) as (H1 & H2 & _).
    destruct (dec_string z) as [|c r]; [done|]. inversion_clear H1. eauto. }
  cbn [app] in *. rewrite Hnum. cbn [mbind option_bind].
  unfold is_digit in Hc.
  repeat match goal with
  | |- context [c =? ?k] => destruct (c =? k) eqn:?; breflect; [exfalso; lia|]
  end. done.
Qed.

(** Every printable value is read back from its rendering, whatever follows. *)
Lemma stringify_reads v : reads v.
Proof.
  induction v as [|b|n|t|l IH|fs IH] using json_nested_ind.
  - intros s rest [|f] [= <-] _ _ Hn; [lia|done].
  - intros s rest [|f] Hs _ _ Hn; [lia|]. destruct b; injection Hs as <-; done.
  - apply reads_num.
  - intros s rest [|f] [= <-] Hw _ Hn; [lia|]. unfold quote. cbn [parse_value app skip_ws].
    change (is_ws 34) with false. cbv iota. rewrite <- app_assoc. cbn [app].
    change (34 =? 34) with true. cbv iota. by rewrite parse_quoted.
  - intros s rest [|f] Hs Hw Hr Hn; [lia|]. simpl in Hs.
    apply fmap_Some in Hs as (parts & Hp & ->). apply option_list_map in Hp.
    apply json_wf_arr in Hw. norm_len Hn.
    cbn [parse_value app skip_ws]. change (is_ws 91) with false. cbv iota. change (91 =? 34) with false. change (91 =? 91) with true. cbv iota.
    rewrite <- app_assoc. cbn [app]. destruct l as [|v l].
    + inversion_clear Hp. done.
    + pose proof (parse_elements_reads (v :: l) parts ltac:(done) Hp IH Hw f rest ltac:(lia)) as He.
      assert (starts_value (join [44] parts ++ 93 :: rest)) as (c & r & Heq & H1 & H2 & _).
      { inversion Hp as [|? p ? ps Hv Hp']; subst. apply stringify_start in Hv as (c & r & -> & ?).
        destruct ps; by eexists _, _. }
      rewrite He. rewrite Heq. cbn [skip_ws]. rewrite H1. cbn [mbind option_bind].
      destruct c as [|c|c]; try done. repeat (destruct c as [c|c|]; try done).
  - intros s rest [|f] Hs Hw Hr Hn; [lia|]. simpl in Hs.
    apply fmap_Some in Hs as (parts & Hp & ->). apply option_list_map in Hp.
    apply json_wf_obj in Hw as [Hd Hw]. norm_len Hn.
    cbn [parse_value app skip_ws]. change (is_ws 123) with false. cbv iota.
    change (123 =? 34) with false. change (123 =? 91) with false. change (123 =? 123) with true. cbv iota.
    rewrite <- app_assoc. cbn [app]. destruct fs as [|kv fs].
    + inversion_clear Hp. done.
    + pose proof (parse_members_reads (kv :: fs) parts ltac:(done) Hp IH Hw f rest ltac:(lia)) as He.
      assert (∃ r, join [44] parts ++ 125 :: rest = 34 :: r) as (r & Heq).
      { inversion Hp as [|? p ? ps Hv Hp']; subst. apply fmap_Some in Hv as (t & _ & ->).
        destruct ps; by eexists. }
      rewrite He. rewrite Heq. cbn [skip_ws]. change (is_ws 34) with false. cbv iota. cbn [mbind option_bind].
      by rewrite map_of_id.
Qed.

(** [JSON.parse(JSON.stringify(v))] is [v]. *)
Lemma JSON_parse_stringify v s : json_wf v → stringify v = Some s → JSON_parse s = Some v.
Proof.
  intros Hw Hs. unfold JSON_parse. rewrite <- (app_nil_r s) at 2.
  by rewrite (stringify_reads v s [] _ Hs Hw I) by lia.
Qed.

(** Every well-formed value has a rendering. *)
Lemma stringify_total v : json_wf v → is_Some (stringify v).
Proof.
  induction v as [|b|n|t|l IH|fs IH] using json_nested_ind; intros Hw.
  - by eexists.
  - destruct b; by eexists.
  - destruct Hw as (z & -> & Hz). exists (string_of_Z z). by apply number_text_Z.
  - by eexists.
  - simpl. apply fmap_is_Some. apply json_wf_arr in Hw. unfold option_list.
    apply mapM_is_Some. change (map stringify l) with (stringify <$> l). apply Forall_fmap.
    rewrite Forall_forall in *. naive_solver.
  - simpl. apply fmap_is_Some. apply json_wf_obj in Hw as [_ Hw]. unfold option_list.
    apply mapM_is_Some. apply Forall_fmap. rewrite Forall_forall in *.
    intros kv Hkv. apply fmap_is_Some. apply IH; [done|]. by apply Hw.
Qed.

(** So has every value at all. *)
Lemma stringify_Some v : is_Some (stringify v).
Proof.
  induction v as [|b|n|t|l IH|fs IH] using json_nested_ind; try by eexists.
  - destruct b; by eexists.
  - unfold stringify, number_text. repeat case_match; by eexists.
  - simpl. apply fmap_is_Some, mapM_is_Some. change (map stringify l) with (stringify <$> l). by apply Forall_fmap.
  - simpl. apply fmap_is_Some, mapM_is_Some, Forall_fmap. eapply Forall_impl; [exact IH|].
    intros kv Hkv. by apply fmap_is_Some.
Qed.

(** ** [JSON.stringify(v, null, 2)] *)

Definition newline (depth : nat) : ustring := 10 :: replicate (2 * depth) 32.

Definition member_text (key text : ustring) : ustring := quote key ++ [58; 32] ++ text.

Fixpoint pretty (v : json) (depth : nat) : ustring :=
  match v with
  | JNull => u! "null"
  | JBool true => u! "true"
  | JBool false => u! "false"
  | JNum n => default [] (number_text n)
  | JStr s => quote s
  | JArr [] => [91; 93]
  | JArr l =>
    [91] ++ newline (S depth) ++ join (44 :: newline (S depth)) (map (λ v, pretty v (S depth)) l) ++ newline depth ++ [93]
  | JObj [] => [123; 125]
  | JObj fs =>
    [123] ++ newline (S depth) ++
    join (44 :: newline (S depth)) (map (λ kv, member_text kv.1 (pretty kv.2 (S depth))) fs) ++ newline depth ++ [125]
  end.

Example pretty_sample : pretty (JObj [(u! "a", JArr [JInt 1; JNull]); (u! "b", JObj [])]) 0 =
  map (λ c, if c =? 39 then 34 else c) (join [10] [u! "{"; u! "  'a': ["; u! "    1,"; u! "    null"; u! "  ],"; u! "  'b': {}"; u! "}"]).
Proof. vm_compute. reflexivity. Qed.

Lemma skip_ws_newline depth s : skip_ws (newline depth ++ s) = skip_ws s.
Proof.
  unfold newline. cbn [app skip_ws]. change (is_ws 10) with true. cbv iota.
  induction (2 * depth)%nat as [|k IH]; [done|]. cbn [replicate app skip_ws]. change (is_ws 32) with true. exact IH.
Qed.

Lemma parse_value_newline n depth s : parse_value n (newline depth ++ s) = parse_value n s.
Proof. destruct n as [|n]; [done|]. cbn [parse_value]. by rewrite skip_ws_newline. Qed.

Lemma parse_elements_newline n depth s : parse_elements n (newline depth ++ s) = parse_elements n s.
Proof. destruct n as [|n]; [done|]. cbn [parse_elements]. by rewrite parse_value_newline. Qed.

Lemma parse_members_newline n depth s : parse_members n (newline depth ++ s) = parse_members n s.
Proof. destruct n as [|n]; [done|]. cbn [parse_members]. by rewrite skip_ws_newline. Qed.

Definition pretty_reads (v : json) : Prop := ∀ depth rest n,
  json_wf v → delim rest → (length (pretty v depth) < n)%nat →
  parse_value n (pretty v depth ++ rest) = Some (v, rest).

Lemma pretty_elements_reads l depth depth' : l ≠ [] → Forall pretty_reads l → Forall json_wf l →
  ∀ n rest, let text := join (44 :: newline depth) (map (λ v, pretty v depth) l) in
  (S (length text) < n)%nat → parse_elements n (text ++ newline depth' ++ 93 :: rest) = Some (l, rest).
Proof.
  intros Hne Hr Hw n rest. cbv zeta. revert n. induction l as [|v l IH]; [done|]; intros n Hn.
  inversion_clear Hr as [|? ? Hv Hr']. inversion_clear Hw as [|? ? Wv Wl].
  destruct n as [|n]; [simpl in Hn; lia|]. destruct l as [|v' l].
  - cbn [map join] in *. cbn [parse_elements].
    rewrite (Hv depth (newline depth' ++ 93 :: rest) n) by (done || (simpl; auto) || lia). cbn [mbind option_bind].
    by rewrite skip_ws_newline.
  - cbn [map] in *. rewrite join_cons2 in *. norm_len Hn. rewrite <- !app_assoc. cbn [parse_elements].
    rewrite Hv by (done || (simpl; auto) || lia). cbn [mbind option_bind app skip_ws].
    change (is_ws 44) with false. cbv iota. rewrite parse_elements_newline, IH by (done || lia). done.
Qed.

Lemma pretty_member_read n k v depth rest :
  units k → json_wf v → pretty_reads v → delim rest → (length (member_text k (pretty v depth)) ≤ n)%nat →
  parse_members (S n) (member_text k (pretty v depth) ++ rest) =
  match skip_ws rest with
  | 44 :: r' => '(l, rest) ← parse_members n r'; Some ((k, v) :: l, rest)
  | 125 :: rest => Some ([(k, v)], rest)
  | _ => None
  end.
Proof.
  intros Hk Hw Hv Hd Hn. unfold member_text, quote in *. norm_len Hn. norm_app. cbn [parse_members skip_ws].
  change (is_ws 34) with false. cbv iota. rewrite parse_quoted by done. cbn [mbind option_bind skip_ws].
  change (is_ws 58) with false. cbv iota.
  replace (parse_value n (32 :: pretty v depth ++ rest)) with (parse_value n (pretty v depth ++ rest)) by (by destruct n).
  by rewrite Hv by (done || lia).
Qed.

Lemma pretty_members_reads fs depth depth' : fs ≠ [] →
  Forall (λ kv, pretty_reads kv.2) fs → Forall (λ kv, units kv.1 ∧ json_wf kv.2) fs →
  ∀ n rest, let text := join (44 :: newline depth) (map (λ kv, member_text kv.1 (pretty kv.2 depth)) fs) in
  (S (length text) < n)%nat → parse_members n (text ++ newline depth' ++ 125 :: rest) = Some (fs, rest).
Proof.
  intros Hne Hr Hw n rest. cbv zeta. revert n. induction fs as [|[k v] fs IH]; [done|]; intros n Hn.
  inversion_clear Hr as [|? ? Hv Hr']. inversion_clear Hw as [|? ? [Wk Wv] Wl]. cbn [fst snd] in *.
  destruct n as [|n]; [simpl in Hn; lia|]. destruct fs as [|kv' fs]; cbn [map fst snd] in *.
  - cbn [join] in *. rewrite pretty_member_read; [|done|done|done|simpl; auto|lia]. by rewrite skip_ws_newline.
  - rewrite join_cons2 in *. norm_len Hn. rewrite <- !app_assoc.
    rewrite pretty_member_read; [|done|done|done|simpl; auto|lia]. cbn [app skip_ws].
    change (is_ws 44) with false. cbv iota. rewrite parse_members_newline, IH by (done || lia). done.
Qed.

Lemma pretty_start v depth : starts_value (pretty v depth).
Proof.
  destruct v as [|[]|n|t|[|v l]|[|kv fs]]; try by eexists _, _.
  cbn [pretty]. destruct (stringify_Some (JNum n)) as [s Hs]. change (number_text n = Some s) in Hs. rewrite Hs.
  by eapply number_text_start.
Qed.

(** Every value is read back from its indented rendering. *)
Lemma pretty_reads_all v : pretty_reads v.
Proof.
  induction v as [|b|n|t|l IH|fs IH] using json_nested_ind; intros depth rest [|f] Hw Hr Hn; try lia.
  - done.
  - by destruct b.
  - cbn [pretty] in *. destruct (stringify_Some (JNum n)) as [s Hs]. change (number_text n = Some s) in Hs. rewrite Hs in *.
    by apply (stringify_reads (JNum n) s rest (S f)).
  - cbn [pretty] in *. by apply (stringify_reads (JStr t) _ rest (S f)).
  - apply json_wf_arr in Hw. destruct l as [|v l]; [done|]. set (l' := v :: l) in *.
    change (pretty (JArr l') depth) with ([91] ++ newline (S depth) ++ join (44 :: newline (S depth))
      (map (λ v, pretty v (S depth)) l') ++ newline depth ++ [93]) in *.
    norm_len Hn. rewrite <- !app_assoc. cbn [app parse_value skip_ws]. change (is_ws 91) with false. cbv iota.
    change (91 =? 34) with false. change (91 =? 91) with true. cbv iota.
    rewrite skip_ws_newline, parse_elements_newline, pretty_elements_reads by (done || lia).
    assert (starts_value (join (44 :: newline (S depth)) (map (λ v, pretty v (S depth)) l'))) as Hst.
    { subst l'. cbn [map]. destruct (pretty_start v (S depth)) as (c & r & -> & ?). destruct l; by eexists _, _. }
    rewrite (skip_ws_start _ _ Hst). destruct Hst as (c & r & -> & _ & Hc & _). cbn [mbind option_bind app].
    destruct c as [|c|c]; try done. repeat (destruct c as [c|c|]; try done).
  - apply json_wf_obj in Hw as [Hd Hw]. destruct fs as [|kv fs]; [done|]. set (fs' := kv :: fs) in *.
    change (pretty (JObj fs') depth) with ([123] ++ newline (S depth) ++ join (44 :: newline (S depth))
      (map (λ kv, member_text kv.1 (pretty kv.2 (S depth))) fs') ++ newline depth ++ [125]) in *.
    norm_len Hn. rewrite <- !app_assoc. cbn [app parse_value skip_ws]. change (is_ws 123) with false. cbv iota.
    change (123 =? 34) with false. change (123 =? 91) with false. change (123 =? 123) with true. cbv iota.
    rewrite skip_ws_newline, parse_members_newline, pretty_members_reads by (done || lia).
    assert (∃ r, join (44 :: newline (S depth)) (map (λ kv, member_text kv.1 (pretty kv.2 (S depth))) fs') = 34 :: r) as (r & ->)
      by (subst fs'; destruct fs; by eexists).
    cbn [app skip_ws]. change (is_ws 34) with false. cbv iota. cbn [mbind option_bind]. by rewrite map_of_id.
Qed.

(** [JSON.parse(JSON.stringify(v, null, 2))] is [v]. *)
Lemma JSON_parse_pretty v : json_wf v → JSON_parse (pretty v 0) = Some v.
Proof.
  intros Hw. unfold JSON_parse. rewrite <- (app_nil_r (pretty v 0)) at 2.
  by rewrite (pretty_reads_all v 0%nat [] _ Hw I) by lia.
Qed.
