(* ===== verification/WebStorage.v ===== *)
(** * Browser storage

    [localStorage] and [sessionStorage] as the sources use them: string keys and
    values, and the exceptions a browser may throw. [None] outside a result is a
    thrown exception. *)

From S2P Require Import Prelude.

(** [StorageLike]: a store that may refuse to be read or written. *)
Record Storage := mkStorage {
  items : list (ustring * ustring);
  get_throws : bool;
  set_throws : ustring → ustring → bool;
}.

(** [None] is a thrown exception. *)
Definition getItem (st : Storage) (key : ustring) : option (option ustring) :=
  if get_throws st then None else Some (map_get key (items st)).

Definition setItem (st : Storage) (key value : ustring) : option Storage :=
  if set_throws st key value then None
  else Some (mkStorage (map_set key value (items st)) (get_throws st) (set_throws st)).

Definition map_delete {V} (k : ustring) (m : list (ustring * V)) : list (ustring * V) :=
  js_filter (λ kv, negb (bool_decide (kv.1 = k))) m.

(** Refused only where the store cannot be reached at all. *)
Definition removeItem (st : Storage) (key : ustring) : option Storage :=
  if get_throws st then None
  else Some (mkStorage (map_delete key (items st)) (get_throws st) (set_throws st)).

(** A store that never throws. *)
Definition reliable (st : Storage) : Prop :=
  get_throws st = false ∧ ∀ k v, set_throws st k v = false.

Lemma map_get_delete_eq {V} k (m : list (ustring * V)) : map_get k (map_delete k m) = None.
Proof.
  apply map_get_None. intros ([k' v] & -> & Hin)%list_elem_of_fmap.
  apply js_filter_elem in Hin as [_ Hb]. cbn in Hb. by rewrite bool_decide_eq_true_2 in Hb.
Qed.

Lemma map_get_delete_ne {V} k k' (m : list (ustring * V)) :
  k' ≠ k → map_get k' (map_delete k m) = map_get k' m.
Proof.
  intros Hne. induction m as [|[k1 v] m IH]; [done|]. unfold map_delete, js_filter in *. cbn.
  destruct (bool_decide (k1 = k)) eqn:E; breflect; cbn; rewrite IH; [|done].
  case_decide; congruence.
Qed.

Lemma setItem_reliable st k v st' : setItem st k v = Some st' → reliable st → reliable st'.
Proof. unfold setItem. case_match; [done|]. intros [= <-] []. by split. Qed.

Lemma removeItem_reliable st k st' : removeItem st k = Some st' → reliable st → reliable st'.
Proof. unfold removeItem. case_match; [done|]. intros [= <-] []. by split. Qed.
