(* ===== verification/OverviewModel.v ===== *)
(** * The overview grid: widget catalogue, occupancy and placement

    Models frontend/src/features/overviewLayout/overviewLayoutModel.ts. The grid
    has 12 columns and 256 rows; its occupancy is the [Uint8Array] of 3072 cells
    of the source, kept as a list updated by index. Coordinates of widgets are
    integers: every producer of a widget rounds or counts. *)

From S2P Require Import Prelude JsNumber Json.

Inductive OverviewWidgetType : Type :=
| edr_state
| kpi_alerts
| kpi_critical_alerts
| kpi_high_risk_endpoints
| kpi_open_incidents
| detection_activity
| alert_severity
| highest_risk_endpoints
| incident_queue.

#[export] Instance OverviewWidgetType_eq_dec : EqDecision OverviewWidgetType.
Proof. solve_decision. Defined.

(** The string literal each member of the union stands for. *)
Definition widget_type_name (t : OverviewWidgetType) : ustring :=
  match t with
  | edr_state => u! "edr-state"
  | kpi_alerts => u! "kpi-alerts"
  | kpi_critical_alerts => u! "kpi-critical-alerts"
  | kpi_high_risk_endpoints => u! "kpi-high-risk-endpoints"
  | kpi_open_incidents => u! "kpi-open-incidents"
  | detection_activity => u! "detection-activity"
  | alert_severity => u! "alert-severity"
  | highest_risk_endpoints => u! "highest-risk-endpoints"
  | incident_queue => u! "incident-queue"
  end.

Definition OVERVIEW_WIDGET_TYPES : list OverviewWidgetType :=
  [edr_state; kpi_alerts; kpi_critical_alerts; kpi_high_risk_endpoints; kpi_open_incidents;
   detection_activity; alert_severity; highest_risk_endpoints; incident_queue].

Record OverviewWidgetDefinition := {
  d_type : OverviewWidgetType;
  d_titleKey : ustring;
  defaultW : Z; defaultH : Z;
  minW : Z; minH : Z;
  maxW : Z; maxH : Z;
}.

(** [Pick<CustomDashboardWidget, "x" | "y" | "w" | "h">] *)
Record Rect := mkRect { rx : Z; ry : Z; rw : Z; rh : Z }.

Record CustomDashboardWidget := mkWidget {
  uid : ustring;
  wtype : OverviewWidgetType;
  wrect : Rect;
}.

#[export] Instance Rect_eq_dec : EqDecision Rect.
Proof. solve_decision. Defined.
#[export] Instance CustomDashboardWidget_eq_dec : EqDecision CustomDashboardWidget.
Proof. solve_decision. Defined.

Record CustomOverviewDashboard := mkDashboard {
  dash_id : ustring;
  dash_name : ustring;
  dash_widgets : list CustomDashboardWidget;
  dash_createdAt : ustring;
  dash_updatedAt : ustring;
}.

Definition OVERVIEW_GRID_COLUMNS : Z := 12.
Definition OVERVIEW_GRID_MAX_ROWS : Z := 256.
Definition DEFAULT_DASHBOARD_ID : ustring := u! "default".
Definition OVERVIEW_GRID_CELL_COUNT : Z := OVERVIEW_GRID_COLUMNS * OVERVIEW_GRID_MAX_ROWS.

Definition OVERVIEW_WIDGET_DEFINITIONS : list OverviewWidgetDefinition :=
  [ {| d_type := edr_state; d_titleKey := u! "edrState.current"; defaultW := 12; defaultH := 4; minW := 12; minH := 4; maxW := 12; maxH := 8 |};
    {| d_type := kpi_alerts; d_titleKey := u! "overview.totalAlerts"; defaultW := 3; defaultH := 2; minW := 3; minH := 2; maxW := 6; maxH := 5 |};
    {| d_type := kpi_critical_alerts; d_titleKey := u! "overview.criticalAlerts"; defaultW := 3; defaultH := 2; minW := 3; minH := 2; maxW := 6; maxH := 5 |};
    {| d_type := kpi_high_risk_endpoints; d_titleKey := u! "overview.highRiskEndpoints"; defaultW := 3; defaultH := 2; minW := 3; minH := 2; maxW := 6; maxH := 5 |};
    {| d_type := kpi_open_incidents; d_titleKey := u! "overview.openIncidents"; defaultW := 3; defaultH := 2; minW := 3; minH := 2; maxW := 6; maxH := 5 |};
    {| d_type := detection_activity; d_titleKey := u! "overview.detectionActivity"; defaultW := 8; defaultH := 10; minW := 6; minH := 10; maxW := 12; maxH := 12 |};
    {| d_type := alert_severity; d_titleKey := u! "overview.alertSeverity"; defaultW := 4; defaultH := 7; minW := 4; minH := 7; maxW := 8; maxH := 12 |};
    {| d_type := highest_risk_endpoints; d_titleKey := u! "overview.highestRiskEndpoints"; defaultW := 6; defaultH := 7; minW := 6; minH := 7; maxW := 12; maxH := 12 |};
    {| d_type := incident_queue; d_titleKey := u! "overview.incidentQueueWidget"; defaultW := 6; defaultH := 7; minW := 6; minH := 7; maxW := 12; maxH := 12 |} ].

(** The type guard: it narrows [value] to the member it names. *)
Definition isOverviewWidgetType (value : option json) : option OverviewWidgetType :=
  match value with
  | Some (JStr s) => js_find (λ t, bool_decide (widget_type_name t = s)) OVERVIEW_WIDGET_TYPES
  | _ => None
  end.

(** [None] is the thrown [Error]. *)
Definition widgetDefinition (t : OverviewWidgetType) : option OverviewWidgetDefinition :=
  js_find (λ d, bool_decide (d_type d = t)) OVERVIEW_WIDGET_DEFINITIONS.

(** [value] is the random part drawn by [createOverviewId]: a UUID, or the
    clock and [Math.random] where the browser has no UUIDs. *)
Definition createOverviewId (prefix value : ustring) : ustring := prefix ++ u! "-" ++ value.

Definition createOverviewWidget (random : ustring) (t : OverviewWidgetType)
  : option CustomDashboardWidget :=
  match widgetDefinition t with
  | Some definition =>
    Some (mkWidget (createOverviewId (u! "widget") random) t
            (mkRect 0 0 (defaultW definition) (defaultH definition)))
  | None => None
  end.

Fixpoint dedup_types (seen : list OverviewWidgetType) (ws : list CustomDashboardWidget)
  : list CustomDashboardWidget :=
  match ws with
  | [] => []
  | widget :: rest =>
    if decide (wtype widget ∈ seen) then dedup_types seen rest
    else widget :: dedup_types (set_add (wtype widget) seen) rest
  end.

Definition deduplicateOverviewWidgetTypes (ws : list CustomDashboardWidget)
  : list CustomDashboardWidget := dedup_types [] ws.

(** ** Occupancy *)

(** [for (let i = from; i < to; i += 1)] *)
Definition range (from to : Z) : list Z := seqZ from (to - from).

Definition occupyOverviewGridRegion (occupancy : list Z) (widget : Rect) : list Z :=
  let left := Z.max 0 (rx widget) in
  let top := Z.max 0 (ry widget) in
  let right := Z.min OVERVIEW_GRID_COLUMNS (rx widget + rw widget) in
  let bottom := Z.min OVERVIEW_GRID_MAX_ROWS (ry widget + rh widget) in
  foldl (λ occ row,
    foldl (λ occ column, <[Z.to_nat (row * OVERVIEW_GRID_COLUMNS + column) := 1]> occ)
      occ (range left right))
    occupancy (range top bottom).

Definition createOverviewGridOccupancy (ws : list Rect) : list Z :=
  foldl occupyOverviewGridRegion (replicate (Z.to_nat OVERVIEW_GRID_CELL_COUNT) 0) ws.

(** [occupancy[i]] as a condition: out of range it is [undefined]. *)
Definition cell (occupancy : list Z) (i : Z) : bool :=
  if i <? 0 then false
  else match occupancy !! Z.to_nat i with Some v => negb (v =? 0) | None => false end.

Definition overviewGridRegionAvailable (occupancy : list Z) (x0 y0 w0 h0 : Z) : bool :=
  forallb (λ row,
    forallb (λ column, negb (cell occupancy (row * OVERVIEW_GRID_COLUMNS + column)))
      (range x0 (x0 + w0)))
    (range y0 (y0 + h0)).

Definition overviewWidgetsOverlap (left right : Rect) : bool :=
  (rx left <? rx right + rw right) && (rx right <? rx left + rw left) &&
  (ry left <? ry right + rh right) && (ry right <? ry left + rh left).

(** ** Placement *)

Definition by_distance (requested : Z) : Z → Z → comparison :=
  cmp_on (λ a, Z.abs (a - requested)) Z.compare.

Definition candidates (requested size limit : Z) : list Z :=
  js_sort (by_distance requested) (range 0 (limit - size + 1)).

Definition clamp (v lo hi : Z) : Z := Z.min (Z.max v lo) hi.

Fixpoint first_free (occupancy : list Z) (w0 h0 : Z) (xs ys : list Z) : option (Z * Z) :=
  match ys with
  | [] => None
  | cy :: rest =>
    match js_find (λ cx, overviewGridRegionAvailable occupancy cx cy w0 h0) xs with
    | Some cx => Some (cx, cy)
    | None => first_free occupancy w0 h0 xs rest
    end
  end.

Definition requestedX (widget : Rect) : Z := clamp (rx widget) 0 (OVERVIEW_GRID_COLUMNS - rw widget).
Definition requestedY (widget : Rect) : Z := clamp (ry widget) 0 (OVERVIEW_GRID_MAX_ROWS - rh widget).

(** The occupancy is computed from the widgets when it is not passed. *)
Definition findAvailableOverviewWidgetPosition (widget : Rect) (ws : list Rect)
  (occupancy : option (list Z)) : option (Z * Z) :=
  let occ := match occupancy with Some o => o | None => createOverviewGridOccupancy ws end in
  if (rw widget <? 1) || (rh widget <? 1) || (OVERVIEW_GRID_COLUMNS <? rw widget)
     || (OVERVIEW_GRID_MAX_ROWS <? rh widget) then None
  else
    first_free occ (rw widget) (rh widget)
      (candidates (requestedX widget) (rw widget) OVERVIEW_GRID_COLUMNS)
      (candidates (requestedY widget) (rh widget) OVERVIEW_GRID_MAX_ROWS).

Definition placed (widget : CustomDashboardWidget) (position : Z * Z) : CustomDashboardWidget :=
  mkWidget (uid widget) (wtype widget)
    (mkRect position.1 position.2 (rw (wrect widget)) (rh (wrect widget))).

Example place_next_to :
  findAvailableOverviewWidgetPosition (mkRect 0 0 3 2) [mkRect 0 0 3 2; mkRect 3 0 6 2] None = Some (9, 0).
Proof. vm_compute. reflexivity. Qed.
Example place_below :
  findAvailableOverviewWidgetPosition (mkRect 0 0 6 7) [mkRect 0 0 8 2] None = Some (0, 2).
Proof. vm_compute. reflexivity. Qed.

(** ** The catalogue *)

(** What the rest of the layout relies on in every widget definition. *)
Definition definition_ok (d : OverviewWidgetDefinition) : Prop :=
  1 ≤ minW d ≤ defaultW d ∧ defaultW d ≤ maxW d ≤ OVERVIEW_GRID_COLUMNS ∧
  1 ≤ minH d ≤ defaultH d ∧ defaultH d ≤ maxH d ≤ OVERVIEW_GRID_MAX_ROWS.

Lemma widgetDefinition_total t : ∃ d, widgetDefinition t = Some d ∧ d_type d = t ∧ definition_ok d.
Proof. destruct t; eexists; (split; [reflexivity|split; [reflexivity|]]); vm_compute; intuition congruence. Qed.

Lemma widgetDefinition_ok t d : widgetDefinition t = Some d → d_type d = t ∧ definition_ok d.
Proof. intros H. destruct (widgetDefinition_total t) as (d' & H' & ?). naive_solver. Qed.

#[export] Instance widget_type_name_inj : Inj (=) (=) widget_type_name.
Proof. intros [] []; vm_compute; congruence. Qed.

Lemma isOverviewWidgetType_Some v t :
  isOverviewWidgetType v = Some t ↔ v = Some (JStr (widget_type_name t)).
Proof.
  split.
  - destruct v as [[| | |s| |]|]; try done. unfold isOverviewWidgetType.
    intros [_ H]%js_find_Some. by apply bool_decide_eq_true in H as ->.
  - intros ->. by destruct t.
Qed.

(** ** Deduplication *)

Lemma dedup_types_spec seen ws :
  NoDup (wtype <$> dedup_types seen ws) ∧
  (∀ t, t ∈ wtype <$> dedup_types seen ws ↔ t ∈ wtype <$> ws ∧ t ∉ seen) ∧
  dedup_types seen ws `sublist_of` ws.
Proof.
  revert seen. induction ws as [|a ws IH]; intros seen; csimpl.
  { split_and!; [constructor|set_solver|constructor]. }
  case_decide as Ha; csimpl.
  - destruct (IH seen) as (H1 & H2 & H3).
    split_and!; [done| |by constructor]. intros t. rewrite H2, elem_of_cons. clear H1 H2 H3 IH. naive_solver.
  - destruct (IH (set_add (wtype a) seen)) as (H1 & H2 & H3). split_and!.
    + constructor; [|done]. rewrite H2, set_add_elem. naive_solver.
    + intros t. rewrite !elem_of_cons, H2, set_add_elem. clear H1 H2 H3 IH.
      destruct (decide (t = wtype a)); naive_solver.
    + by constructor.
Qed.

(** A list whose types are distinct already is unchanged. *)
Lemma dedup_types_id seen ws :
  NoDup (wtype <$> ws) → (∀ t, t ∈ wtype <$> ws → t ∉ seen) → dedup_types seen ws = ws.
Proof.
  revert seen. induction ws as [|a ws IH]; intros seen; csimpl; [done|].
  intros [Ha Hd]%NoDup_cons Hs. rewrite decide_False by set_solver. f_equal. apply IH; [done|].
  intros t Ht. rewrite set_add_elem. set_solver.
Qed.

(** The first widget of a type is the one that is kept. *)
Lemma dedup_types_first seen l1 w l2 :
  wtype w ∉ wtype <$> l1 → wtype w ∉ seen → w ∈ dedup_types seen (l1 ++ w :: l2).
Proof.
  revert seen. induction l1 as [|a l1 IH]; intros seen; csimpl.
  - intros _ Hw. rewrite decide_False by done. apply elem_of_cons. auto.
  - intros [Ha Hl]%not_elem_of_cons Hs. case_decide; [by apply IH|].
    apply elem_of_cons. right. apply IH; [done|]. rewrite set_add_elem. naive_solver.
Qed.

(** ** Cells and rectangles *)

Definition covers (r : Rect) (cx cy : Z) : Prop :=
  rx r ≤ cx < rx r + rw r ∧ ry r ≤ cy < ry r + rh r.
#[export] Instance covers_dec r cx cy : Decision (covers r cx cy).
Proof. unfold covers. apply _. Defined.

Definition in_grid (r : Rect) : Prop :=
  0 ≤ rx r ∧ 1 ≤ rw r ∧ rx r + rw r ≤ OVERVIEW_GRID_COLUMNS ∧
  0 ≤ ry r ∧ 1 ≤ rh r ∧ ry r + rh r ≤ OVERVIEW_GRID_MAX_ROWS.
#[export] Instance in_grid_dec r : Decision (in_grid r).
Proof. unfold in_grid. apply _. Defined.

(** The overlap test is exact: it holds when the rectangles share a cell. *)
Lemma overlap_shared_cell r1 r2 :
  overviewWidgetsOverlap r1 r2 = true →
  1 ≤ rw r1 → 1 ≤ rh r1 → 1 ≤ rw r2 → 1 ≤ rh r2 →
  ∃ cx cy, covers r1 cx cy ∧ covers r2 cx cy.
Proof.
  unfold overviewWidgetsOverlap, covers. intros. breflect.
  exists (Z.max (rx r1) (rx r2)), (Z.max (ry r1) (ry r2)). lia.
Qed.

Lemma shared_cell_overlap r1 r2 cx cy :
  covers r1 cx cy → covers r2 cx cy → overviewWidgetsOverlap r1 r2 = true.
Proof. unfold overviewWidgetsOverlap, covers. intros. rewrite !andb_true_iff. lia. Qed.

Lemma overlap_sym r1 r2 : overviewWidgetsOverlap r1 r2 = overviewWidgetsOverlap r2 r1.
Proof. unfold overviewWidgetsOverlap. lia. Qed.

Lemma range_elem i from to : i ∈ range from to ↔ from ≤ i < to.
Proof. unfold range. rewrite seqZ_elem. lia. Qed.

Lemma cell_lookup occ i : 0 ≤ i → cell occ i = true ↔ ∃ v, occ !! Z.to_nat i = Some v ∧ v ≠ 0.
Proof.
  intros Hi. unfold cell. destruct (i <? 0) eqn:E; breflect; [lia|].
  destruct (occ !! Z.to_nat i) as [v|]; [|naive_solver].
  rewrite negb_true_iff, Z.eqb_neq. naive_solver.
Qed.

(** Writing 1 at a list of indices. *)
Lemma fill_lookup (idx : list nat) (occ : list Z) (i : nat) :
  (i < length occ)%nat →
  foldl (λ o j, <[j := 1]> o) occ idx !! i = if decide (i ∈ idx) then Some 1 else occ !! i.
Proof.
  revert occ. induction idx as [|j idx IH]; intros occ Hi; csimpl; [done|].
  rewrite IH by by rewrite length_insert. destruct (decide (i ∈ idx)) as [Hin|Hin].
  - rewrite decide_True by set_solver. done.
  - destruct (decide (i = j)) as [->|Hne].
    + rewrite decide_True by set_solver. by apply list_lookup_insert_eq.
    + rewrite decide_False by set_solver. by apply list_lookup_insert_ne.
Qed.

Lemma fill_length (idx : list nat) (occ : list Z) :
  length (foldl (λ o j, <[j := 1]> o) occ idx) = length occ.
Proof. revert occ. induction idx as [|j idx IH]; intros occ; simpl; [done|]. by rewrite IH, length_insert. Qed.

Definition region_indices (r : Rect) : list nat :=
  flat_map (λ row, map (λ column, Z.to_nat (row * OVERVIEW_GRID_COLUMNS + column))
    (range (Z.max 0 (rx r)) (Z.min OVERVIEW_GRID_COLUMNS (rx r + rw r))))
    (range (Z.max 0 (ry r)) (Z.min OVERVIEW_GRID_MAX_ROWS (ry r + rh r))).

Lemma occupy_fill occ r :
  occupyOverviewGridRegion occ r = foldl (λ o j, <[j := 1]> o) occ (region_indices r).
Proof.
  unfold occupyOverviewGridRegion, region_indices. rewrite <- foldl_flat_map.
  apply foldl_ext'. intros o row. apply (foldl_map (λ (o : list Z) (j : nat), <[j := 1]> o)).
Qed.

Lemma region_indices_elem r cx cy :
  0 ≤ cx < OVERVIEW_GRID_COLUMNS → 0 ≤ cy < OVERVIEW_GRID_MAX_ROWS →
  Z.to_nat (cy * OVERVIEW_GRID_COLUMNS + cx) ∈ region_indices r ↔ covers r cx cy.
Proof.
  unfold region_indices, covers, OVERVIEW_GRID_COLUMNS, OVERVIEW_GRID_MAX_ROWS. intros Hx Hy.
  rewrite elem_of_flat_map. split.
  - intros (row & Hrow & Hin). apply range_elem in Hrow.
    apply list_elem_of_In, in_map_iff in Hin as (column & Heq & Hin).
    apply list_elem_of_In, range_elem in Hin. lia.
  - intros H. exists cy. rewrite range_elem. split; [lia|].
    apply list_elem_of_In, in_map_iff. exists cx. split; [done|].
    apply list_elem_of_In, range_elem. lia.
Qed.

Lemma occupy_length occ r : length (occupyOverviewGridRegion occ r) = length occ.
Proof. rewrite occupy_fill. apply fill_length. Qed.

Definition grid_sized (occ : list Z) : Prop := length occ = Z.to_nat OVERVIEW_GRID_CELL_COUNT.

(** [occ] marks exactly the cells of the rectangles [rs]. *)
Definition marks (occ : list Z) (rs : list Rect) : Prop :=
  grid_sized occ ∧
  ∀ cx cy, 0 ≤ cx < OVERVIEW_GRID_COLUMNS → 0 ≤ cy < OVERVIEW_GRID_MAX_ROWS →
    cell occ (cy * OVERVIEW_GRID_COLUMNS + cx) = true ↔ ∃ r, r ∈ rs ∧ covers r cx cy.

Lemma cell_occupy occ r cx cy :
  grid_sized occ → 0 ≤ cx < OVERVIEW_GRID_COLUMNS → 0 ≤ cy < OVERVIEW_GRID_MAX_ROWS →
  cell (occupyOverviewGridRegion occ r) (cy * OVERVIEW_GRID_COLUMNS + cx) = true ↔
  covers r cx cy ∨ cell occ (cy * OVERVIEW_GRID_COLUMNS + cx) = true.
Proof.
  intros Hlen Hx Hy.
  assert (0 ≤ cy * OVERVIEW_GRID_COLUMNS + cx < OVERVIEW_GRID_CELL_COUNT) as Hi
    by (unfold OVERVIEW_GRID_CELL_COUNT, OVERVIEW_GRID_COLUMNS, OVERVIEW_GRID_MAX_ROWS in *; lia).
  rewrite !cell_lookup, occupy_fill by lia.
  rewrite fill_lookup by (rewrite Hlen; lia).
  rewrite <- (region_indices_elem r cx cy) by done. case_decide; naive_solver.
Qed.

Lemma marks_empty : marks (createOverviewGridOccupancy []) [].
Proof.
  split; [apply length_replicate|]. intros cx cy Hx Hy.
  unfold createOverviewGridOccupancy. cbn [foldl].
  rewrite cell_lookup by (unfold OVERVIEW_GRID_COLUMNS; lia).
  split; [|intros (r & Hr & _); by apply not_elem_of_nil in Hr]. intros (v & Hv & Hne). apply lookup_replicate in Hv. naive_solver.
Qed.

Lemma marks_occupy occ rs r :
  marks occ rs → marks (occupyOverviewGridRegion occ r) (rs ++ [r]).
Proof.
  intros [Hlen Hm]. split; [unfold grid_sized; by rewrite occupy_length|].
  intros cx cy Hx Hy. rewrite cell_occupy, Hm by done. set_solver.
Qed.

(** The occupancy array represents the union of the widgets' cells. *)
Lemma createOverviewGridOccupancy_marks rs : marks (createOverviewGridOccupancy rs) rs.
Proof.
  unfold createOverviewGridOccupancy.
  assert (∀ occ done, marks occ done → marks (foldl occupyOverviewGridRegion occ rs) (done ++ rs)) as H.
  { induction rs as [|r rs IH]; intros occ dn Hm; simpl; [by rewrite app_nil_r|].
    rewrite cons_middle, app_assoc. apply IH. by apply marks_occupy. }
  apply (H _ []), marks_empty.
Qed.

Lemma region_available_true occ rs x0 y0 w0 h0 :
  marks occ rs → in_grid (mkRect x0 y0 w0 h0) →
  overviewGridRegionAvailable occ x0 y0 w0 h0 = true ↔
  ∀ r cx cy, r ∈ rs → covers r cx cy → ¬ covers (mkRect x0 y0 w0 h0) cx cy.
Proof.
  intros [_ Hm] Hg. unfold in_grid in Hg; simpl in Hg.
  unfold overviewGridRegionAvailable. rewrite forallb_elem. setoid_rewrite forallb_elem.
  setoid_rewrite range_elem. setoid_rewrite negb_true_iff. setoid_rewrite <- not_true_iff_false.
  split.
  - intros H r cx cy Hr Hc Hc'. unfold covers in Hc'; simpl in Hc'.
    apply (H cy ltac:(lia) cx ltac:(lia)). apply Hm; [lia..|]. eauto.
  - intros H row Hrow col Hcol Hc. apply Hm in Hc as (r & Hr & Hc); [|lia..].
    apply (H r col row Hr Hc). unfold covers. simpl. lia.
Qed.

(** A region is free when it overlaps no rectangle of positive size. *)
Lemma region_available_disjoint occ rs x0 y0 w0 h0 :
  marks occ rs → in_grid (mkRect x0 y0 w0 h0) → Forall (λ r, 1 ≤ rw r ∧ 1 ≤ rh r) rs →
  overviewGridRegionAvailable occ x0 y0 w0 h0 = true ↔
  Forall (λ r, overviewWidgetsOverlap (mkRect x0 y0 w0 h0) r = false) rs.
Proof.
  intros Hm Hg Hpos. rewrite region_available_true, Forall_forall by done.
  rewrite Forall_forall in Hpos. unfold in_grid in Hg; simpl in Hg. split.
  - intros H r Hr. apply not_true_iff_false. intros Ho.
    destruct (overlap_shared_cell _ _ Ho) as (cx & cy & H1 & H2); simpl; [lia..|naive_solver lia|naive_solver lia|].
    naive_solver.
  - intros H r cx cy Hr Hc Hc'. specialize (H r Hr).
    rewrite (shared_cell_overlap _ _ cx cy) in H; done.
Qed.

(** ** The search for a free position *)

#[export] Instance by_distance_comparator requested : Comparator (by_distance requested).
Proof. unfold by_distance. apply _. Qed.

Lemma candidates_elem requested size limit c :
  c ∈ candidates requested size limit ↔ 0 ≤ c ≤ limit - size.
Proof. unfold candidates. rewrite js_sort_elem, range_elem. lia. Qed.

(** Candidates come nearest first, the smaller one first on a tie. *)
Lemma candidates_sorted requested size limit :
  StronglySorted (cmp_le (cmp_then (by_distance requested) Z.compare))
    (candidates requested size limit).
Proof. apply js_sort_then; [apply _..|]. apply StronglySorted_seqZ. Qed.

Definition nearer (requested a b : Z) : Prop :=
  Z.abs (a - requested) < Z.abs (b - requested) ∨
  (Z.abs (a - requested) = Z.abs (b - requested) ∧ a ≤ b).

Lemma by_distance_nearer requested a b :
  cmp_le (cmp_then (by_distance requested) Z.compare) a b → nearer requested a b.
Proof.
  unfold cmp_le, cmp_then, by_distance, cmp_on, nearer.
  destruct (Z.compare_spec (Z.abs (a - requested)) (Z.abs (b - requested))); simpl; [|lia|done].
  rewrite Z.compare_le_iff. lia.
Qed.

Lemma StronglySorted_app_cons {A} (R : A → A → Prop) l1 a l2 b :
  StronglySorted R (l1 ++ a :: l2) → b ∈ l2 → R a b.
Proof.
  induction l1 as [|c l1 IH]; simpl; intros H Hb; inversion H; subst; [|by apply IH].
  match goal with HF : Forall _ _ |- _ => rewrite Forall_forall in HF; by apply HF end.
Qed.

(** The first candidate found is nearer than any other that qualifies. *)
Lemma find_nearest p requested size limit a b :
  js_find p (candidates requested size limit) = Some a →
  b ∈ candidates requested size limit → p b = true → nearer requested a b.
Proof.
  intros (l1 & l2 & Hl & Ha & Hl1)%js_find_first Hb Hpb. rewrite Hl in Hb.
  apply elem_of_app in Hb as [Hb|[->|Hb]%elem_of_cons].
  - specialize (Hl1 b Hb). congruence.
  - right. lia.
  - apply by_distance_nearer. eapply StronglySorted_app_cons; [|exact Hb].
    rewrite <- Hl. apply candidates_sorted.
Qed.

Section first_free.
Context (occ : list Z) (w0 h0 : Z).
Local Abbreviation free cx cy := (overviewGridRegionAvailable occ cx cy w0 h0).

Lemma first_free_Some xs ys cx cy :
  first_free occ w0 h0 xs ys = Some (cx, cy) →
  ∃ ys1 ys2, ys = ys1 ++ cy :: ys2 ∧
    js_find (λ a, free a cy) xs = Some cx ∧
    (∀ b a, b ∈ ys1 → a ∈ xs → free a b = false).
Proof.
  induction ys as [|b ys IH]; simpl; [done|].
  destruct (js_find (λ a, free a b) xs) as [a|] eqn:E.
  - intros; simplify_eq. exists [], ys. split_and!; [done..|]. no_elem.
  - intros (ys1 & ys2 & -> & H1 & H2)%IH. exists (b :: ys1), ys2. split_and!; [done..|].
    intros b' a [->|Hb]%elem_of_cons Ha; [by eapply js_find_None in E|by apply H2].
Qed.

Lemma first_free_None xs ys :
  first_free occ w0 h0 xs ys = None ↔ ∀ a b, a ∈ xs → b ∈ ys → free a b = false.
Proof.
  induction ys as [|b ys IH]; simpl.
  - split; [no_elem|done].
  - destruct (js_find _ xs) as [a|] eqn:E.
    + apply js_find_Some in E as [H1 H2]. split; [done|]. intros H.
      rewrite (H a b) in H2; [done|done|]. apply elem_of_cons. auto.
    + rewrite IH. rewrite js_find_None in E. split.
      * intros H a b' Ha [->|Hb]%elem_of_cons; [by apply E|by apply H].
      * intros H a b' Ha Hb. apply H; [done|]. apply elem_of_cons. auto.
Qed.
End first_free.

(** The positions at which a widget of this size lies inside the grid. *)
Definition position_ok (r : Rect) (p : Z * Z) : Prop :=
  0 ≤ p.1 ≤ OVERVIEW_GRID_COLUMNS - rw r ∧ 0 ≤ p.2 ≤ OVERVIEW_GRID_MAX_ROWS - rh r.

Definition size_ok (r : Rect) : Prop :=
  1 ≤ rw r ≤ OVERVIEW_GRID_COLUMNS ∧ 1 ≤ rh r ≤ OVERVIEW_GRID_MAX_ROWS.
#[export] Instance size_ok_dec r : Decision (size_ok r).
Proof. unfold size_ok. apply _. Defined.

Definition at_position (r : Rect) (p : Z * Z) : Rect := mkRect p.1 p.2 (rw r) (rh r).

Lemma position_ok_in_grid r p : size_ok r → position_ok r p ↔ in_grid (at_position r p).
Proof. unfold size_ok, position_ok, in_grid, at_position. simpl. lia. Qed.

(** No rectangle of [rs] overlaps [r]. *)
Definition disjoint_from (r : Rect) (rs : list Rect) : Prop :=
  Forall (λ r', overviewWidgetsOverlap r r' = false) rs.
#[export] Instance disjoint_from_dec r rs : Decision (disjoint_from r rs).
Proof. unfold disjoint_from. apply _. Defined.

Definition positive_sizes (rs : list Rect) : Prop := Forall (λ r, 1 ≤ rw r ∧ 1 ≤ rh r) rs.

Section placement.
Context (occ : list Z) (rs : list Rect) (Hocc : marks occ rs) (Hpos : positive_sizes rs).

Lemma find_unfold r :
  size_ok r →
  findAvailableOverviewWidgetPosition r rs (Some occ) =
  first_free occ (rw r) (rh r)
    (candidates (requestedX r) (rw r) OVERVIEW_GRID_COLUMNS)
    (candidates (requestedY r) (rh r) OVERVIEW_GRID_MAX_ROWS).
Proof.
  unfold size_ok. intros Hs. unfold findAvailableOverviewWidgetPosition.
  destruct (_ || _) eqn:E; [|done]. exfalso. rewrite !orb_true_iff in E. lia.
Qed.

Lemma find_size r p :
  findAvailableOverviewWidgetPosition r rs (Some occ) = Some p → size_ok r.
Proof.
  unfold findAvailableOverviewWidgetPosition, size_ok.
  destruct (_ || _) eqn:E; [done|]. breflect. lia.
Qed.

Lemma free_disjoint r p :
  size_ok r → position_ok r p →
  overviewGridRegionAvailable occ p.1 p.2 (rw r) (rh r) = true ↔ disjoint_from (at_position r p) rs.
Proof.
  intros Hs Hp. apply region_available_disjoint; [done| |done].
  change (in_grid (at_position r p)). by apply position_ok_in_grid.
Qed.

(** Soundness: the position found is inside the grid and overlaps nothing. *)
Lemma find_sound r p :
  findAvailableOverviewWidgetPosition r rs (Some occ) = Some p →
  in_grid (at_position r p) ∧ disjoint_from (at_position r p) rs.
Proof.
  intros Hf. pose proof (find_size r p Hf) as Hs. rewrite find_unfold in Hf by done.
  destruct p as [px py]. apply first_free_Some in Hf as (ys1 & ys2 & Hys & Hx & _).
  apply js_find_Some in Hx as [Hx1 Hx2]. rewrite candidates_elem in Hx1.
  assert (py ∈ candidates (requestedY r) (rh r) OVERVIEW_GRID_MAX_ROWS) as Hy
    by (rewrite Hys, elem_of_app, elem_of_cons; auto).
  rewrite candidates_elem in Hy.
  assert (position_ok r (px, py)) as Hp by (unfold position_ok; simpl; lia).
  split; [by apply position_ok_in_grid|]. by apply (free_disjoint r (px, py)).
Qed.

(** Completeness: a size of the grid is refused only when nothing is free. *)
Lemma find_complete r p :
  size_ok r → position_ok r p → disjoint_from (at_position r p) rs →
  findAvailableOverviewWidgetPosition r rs (Some occ) ≠ None.
Proof.
  intros Hs Hp Hd Hf. rewrite find_unfold, first_free_None in Hf by done.
  apply (free_disjoint r p Hs Hp) in Hd. rewrite Hf in Hd; [done|..].
  all: rewrite candidates_elem; unfold position_ok in Hp; lia.
Qed.

(** Optimality: row first, then column, the nearest to the request. *)
Lemma find_nearest_free r p q :
  findAvailableOverviewWidgetPosition r rs (Some occ) = Some p →
  position_ok r q → disjoint_from (at_position r q) rs →
  nearer (requestedY r) p.2 q.2 ∧ (q.2 = p.2 → nearer (requestedX r) p.1 q.1).
Proof.
  intros Hf Hq Hd. pose proof (find_size r p Hf) as Hs. rewrite find_unfold in Hf by done.
  apply (free_disjoint r q Hs Hq) in Hd.
  assert (Hqx : q.1 ∈ candidates (requestedX r) (rw r) OVERVIEW_GRID_COLUMNS)
    by (rewrite candidates_elem; unfold position_ok in Hq; lia).
  assert (Hqy : q.2 ∈ candidates (requestedY r) (rh r) OVERVIEW_GRID_MAX_ROWS)
    by (rewrite candidates_elem; unfold position_ok in Hq; lia).
  destruct p as [px py]. apply first_free_Some in Hf as (ys1 & ys2 & Hys & Hx & Hbefore). simpl.
  split.
  - rewrite Hys in Hqy. apply elem_of_app in Hqy as [Hin|[->|Hin]%elem_of_cons].
    + rewrite (Hbefore q.2 q.1) in Hd; done.
    + right. lia.
    + apply by_distance_nearer. eapply StronglySorted_app_cons; [|exact Hin].
      rewrite <- Hys. apply candidates_sorted.
  - intros Heq. rewrite Heq in Hd. by eapply find_nearest.
Qed.

(** A widget whose own place is free keeps it. *)
Lemma find_keeps r :
  in_grid r → disjoint_from r rs →
  findAvailableOverviewWidgetPosition r rs (Some occ) = Some (rx r, ry r).
Proof.
  intros Hg Hd. set (q := (rx r, ry r)).
  assert (at_position r q = r) as Hr by by destruct r.
  assert (Hs : size_ok r) by (unfold in_grid, size_ok in *; lia).
  assert (Hq : position_ok r q) by (apply position_ok_in_grid; by rewrite ?Hr).
  assert (requestedX r = rx r ∧ requestedY r = ry r) as [HX HY]
    by (unfold requestedX, requestedY, clamp, in_grid in *; lia).
  destruct (findAvailableOverviewWidgetPosition r rs (Some occ)) as [p|] eqn:Hf.
  - destruct (find_nearest_free r p q Hf Hq) as [Hy Hx]; [by rewrite Hr|].
    unfold nearer in Hy, Hx. rewrite HX, HY in *. simpl in *.
    assert (p.2 = ry r) by lia. assert (p.1 = rx r) by lia. destruct p; simpl in *; subst q; congruence.
  - exfalso. eapply (find_complete r q); by rewrite ?Hr.
Qed.
End placement.

(** ** Claims *)

(** C4: The placement search is sound, complete and optimal: a position it
    returns puts the widget inside the grid, off every widget already there, and
    nearest to the request (row first, then column) among all the free positions;
    it gives up only when the size cannot fit the grid or no position is free. *)
Theorem findAvailableOverviewWidgetPosition_spec widget ws :
  positive_sizes ws →
  match findAvailableOverviewWidgetPosition widget ws None with
  | Some p =>
    in_grid (at_position widget p) ∧ disjoint_from (at_position widget p) ws ∧
    ∀ q, position_ok widget q → disjoint_from (at_position widget q) ws →
      nearer (requestedY widget) p.2 q.2 ∧ (q.2 = p.2 → nearer (requestedX widget) p.1 q.1)
  | None =>
    ¬ size_ok widget ∨
    ∀ q, position_ok widget q → ¬ disjoint_from (at_position widget q) ws
  end.
Proof.
  intros Hpos. pose proof (createOverviewGridOccupancy_marks ws) as Hm.
  change (findAvailableOverviewWidgetPosition widget ws None)
    with (findAvailableOverviewWidgetPosition widget ws (Some (createOverviewGridOccupancy ws))).
  destruct (findAvailableOverviewWidgetPosition _ _ _) as [p|] eqn:Hf.
  - destruct (find_sound _ _ Hm Hpos _ _ Hf). split_and!; [done..|]. intros q Hq Hd.
    by eapply (find_nearest_free _ _ Hm Hpos).
  - destruct (decide (size_ok widget)) as [Hs|Hs]; [right|by left]. intros q Hq Hd.
    by apply (find_complete _ _ Hm Hpos widget q Hs Hq Hd).
Qed.

Lemma findAvailableOverviewWidgetPosition_spec_witness :
  positive_sizes [mkRect 0 0 3 2] ∧
  in_grid (at_position (mkRect 0 0 6 2) (3, 0)) ∧ disjoint_from (at_position (mkRect 0 0 6 2) (3, 0)) [mkRect 0 0 3 2].
Proof.
  assert (positive_sizes [mkRect 0 0 3 2]) as Hp by (apply Forall_singleton; simpl; lia).
  split; [exact Hp|].
  pose proof (findAvailableOverviewWidgetPosition_spec (mkRect 0 0 6 2) [mkRect 0 0 3 2] Hp) as H.
  assert (findAvailableOverviewWidgetPosition (mkRect 0 0 6 2) [mkRect 0 0 3 2] None = Some (3, 0)) as E
    by (vm_compute; reflexivity).
  rewrite E in H. split; apply H.
Defined.

(** Deduplicating widgets keeps exactly one widget of every type present, the
    first in the order given, and changes nothing when the types are distinct. *)
Theorem deduplicateOverviewWidgetTypes_spec ws :
  NoDup (wtype <$> deduplicateOverviewWidgetTypes ws) ∧
  deduplicateOverviewWidgetTypes ws `sublist_of` ws ∧
  (∀ l1 w l2, ws = l1 ++ w :: l2 → wtype w ∉ wtype <$> l1 → w ∈ deduplicateOverviewWidgetTypes ws) ∧
  (NoDup (wtype <$> ws) → deduplicateOverviewWidgetTypes ws = ws).
Proof.
  unfold deduplicateOverviewWidgetTypes. destruct (dedup_types_spec [] ws) as (H1 & _ & H3).
  split_and!; [done|done| |].
  - intros l1 w l2 -> Hw. apply dedup_types_first; [done|]. apply not_elem_of_nil.
  - intros Hnd. apply dedup_types_id; [done|]. intros t _ Ht. no_elem.
Qed.
