(* ===== verification/OverviewStorage.v ===== *)
(** * Persisted overview dashboards

    Models frontend/src/features/overviewLayout/overviewLayoutStorage.ts: the
    normalisation of untrusted JSON into dashboards, and reading and writing
    them in browser storage. [option] at the outside of a result is an exception
    that was thrown; the sets of the source are lists. *)

From S2P Require Import Prelude JsNumber JsDate Json WebStorage OverviewModel.

Definition DASHBOARDS_STORAGE_PREFIX : ustring := u! "edr.overviewDashboards.v1.user.".
Definition ACTIVE_DASHBOARD_STORAGE_PREFIX : ustring := u! "edr.overviewActiveDashboard.v1.user.".

Record StoredOverviewLayoutState := mkLayoutState {
  dashboards : list CustomOverviewDashboard;
  activeDashboardId : ustring;
}.

Definition dashboardsStorageKey (userId : Z) : ustring :=
  DASHBOARDS_STORAGE_PREFIX ++ string_of_Z userId.
Definition activeDashboardStorageKey (userId : Z) : ustring :=
  ACTIVE_DASHBOARD_STORAGE_PREFIX ++ string_of_Z userId.

Definition normalizeText (value : option json) (maxLength : Z) : option ustring :=
  match as_string value with
  | None => None
  | Some s =>
    let normalized := slice0 maxLength (trim s) in
    if truthy normalized then Some normalized else None
  end.

Definition clampInteger (value : option json) (min max fallback : Z) : Z :=
  match as_number value with
  | Some (Fin q) => clamp (math_round q) min max
  | _ => fallback
  end.

(** The widget, when it is accepted, and the updated set of widget ids. *)
Definition normalizeWidget (value : json) (widgetIds : list ustring)
  : option (option CustomDashboardWidget * list ustring) :=
  match isOverviewWidgetType (prop (u! "type") value) with
  | None => Some (None, widgetIds)
  | Some t =>
    if isRecord value then
      match normalizeText (prop (u! "uid") value) 160 with
      | None => Some (None, widgetIds)
      | Some uid =>
        if decide (uid ∈ widgetIds) then Some (None, widgetIds)
        else
          definition ← widgetDefinition t;
          let w := clampInteger (prop (u! "w") value) (minW definition)
                     (Z.min (maxW definition) OVERVIEW_GRID_COLUMNS) (defaultW definition) in
          let h := clampInteger (prop (u! "h") value) (minH definition) (maxH definition)
                     (defaultH definition) in
          let x := clampInteger (prop (u! "x") value) 0 (OVERVIEW_GRID_COLUMNS - w) 0 in
          let y := clampInteger (prop (u! "y") value) 0 (OVERVIEW_GRID_MAX_ROWS - h) 0 in
          Some (Some (mkWidget uid t (mkRect x y w h)), set_add uid widgetIds)
      end
    else Some (None, widgetIds)
  end.

(** The local variables of the loop of [normalizeDashboard]. *)
Record NormalizeState := mkNorm {
  n_widgetIds : list ustring;
  n_widgetTypes : list OverviewWidgetType;
  n_widgets : list CustomDashboardWidget;
  n_occupancy : list Z;
  n_unplaceable : list ustring;
}.

Definition initial_norm : NormalizeState := mkNorm [] [] [] (createOverviewGridOccupancy []) [].

Definition sizeKey (r : Rect) : ustring := string_of_Z (rw r) ++ u! "x" ++ string_of_Z (rh r).

(** The candidate's type was placed already. *)
Definition type_taken (candidate : json) (types : list OverviewWidgetType) : bool :=
  isRecord candidate &&
  match isOverviewWidgetType (prop (u! "type") candidate) with
  | Some t => bool_decide (t ∈ types)
  | None => false
  end.

(** One iteration of the loop over the candidate widgets. *)
Definition normalize_step (st : NormalizeState) (candidate : json) : option NormalizeState :=
  if type_taken candidate (n_widgetTypes st) then Some st
  else
    '(widget, ids) ← normalizeWidget candidate (n_widgetIds st);
    let st := mkNorm ids (n_widgetTypes st) (n_widgets st) (n_occupancy st) (n_unplaceable st) in
    match widget with
    | None => Some st
    | Some widget =>
      if decide (sizeKey (wrect widget) ∈ n_unplaceable st) then Some st
      else
        match findAvailableOverviewWidgetPosition (wrect widget) (wrect <$> n_widgets st)
                (Some (n_occupancy st)) with
        | None =>
          Some (mkNorm (n_widgetIds st) (n_widgetTypes st) (n_widgets st) (n_occupancy st)
                  (set_add (sizeKey (wrect widget)) (n_unplaceable st)))
        | Some position =>
          let placedWidget := placed widget position in
          Some (mkNorm (n_widgetIds st) (set_add (wtype placedWidget) (n_widgetTypes st))
                  (n_widgets st ++ [placedWidget])
                  (occupyOverviewGridRegion (n_occupancy st) (wrect placedWidget))
                  (n_unplaceable st))
        end
    end.

Section normalize.
Context `{DateHost}.

Definition normalizeDate (value : option json) : option ustring :=
  s ← as_string value; iso_of_string s.

Definition fallbackDate : ustring := toISOString 0.

(** The dashboard, when it is accepted, and the updated set of dashboard ids. *)
Definition normalizeDashboard (value : json) (dashboardIds : list ustring)
  : option (option CustomOverviewDashboard * list ustring) :=
  if isRecord value then
    match normalizeText (prop (u! "id") value) 120, normalizeText (prop (u! "name") value) 80,
          as_array (prop (u! "widgets") value) with
    | Some id, Some name, Some candidates =>
      if decide (id ∈ dashboardIds) then Some (None, dashboardIds)
      else
        st ← foldM normalize_step initial_norm candidates;
        match n_widgets st with
        | [] => Some (None, dashboardIds)
        | widgets =>
          Some (Some (mkDashboard id name widgets
                  (default fallbackDate (normalizeDate (prop (u! "createdAt") value)))
                  (default fallbackDate (normalizeDate (prop (u! "updatedAt") value)))),
                set_add id dashboardIds)
        end
    | _, _, _ => Some (None, dashboardIds)
    end
  else Some (None, dashboardIds).

Definition store_step (acc : list ustring * list CustomOverviewDashboard) (candidate : json)
  : option (list ustring * list CustomOverviewDashboard) :=
  '(dashboard, ids) ← normalizeDashboard candidate acc.1;
  Some (ids, match dashboard with Some d => acc.2 ++ [d] | None => acc.2 end).

(** [value.version === 1] *)
Definition version_one (value : json) : bool :=
  match as_number (prop (u! "version") value) with
  | Some n => bool_decide (to_integer n = Some 1)
  | None => false
  end.

(** The dashboards of the store; its version is always 1. *)
Definition normalizeOverviewDashboardStore (value : json) : option (list CustomOverviewDashboard) :=
  match as_array (prop (u! "dashboards") value) with
  | Some candidates =>
    if isRecord value && version_one value then snd <$> foldM store_step ([], []) candidates
    else Some []
  | None => Some []
  end.

Definition parseOverviewDashboardStore (raw : option ustring) : list CustomOverviewDashboard :=
  if truthy_opt raw then
    match raw with
    | Some text =>
      match JSON_parse text with
      | Some value => default [] (normalizeOverviewDashboardStore value)
      | None => []
      end
    | None => []
    end
  else [].

Definition empty_layout : StoredOverviewLayoutState := mkLayoutState [] DEFAULT_DASHBOARD_ID.

(** The [catch] clause gives the empty layout. *)
Definition readOverviewLayoutState (userId : Z) (storage : Storage) : StoredOverviewLayoutState :=
  default empty_layout
    (raw ← getItem storage (dashboardsStorageKey userId);
     let ds := parseOverviewDashboardStore raw in
     storedActive ← getItem storage (activeDashboardStorageKey userId);
     Some (mkLayoutState ds
       (match storedActive with
        | Some active =>
          if truthy active && js_some (λ d, bool_decide (dash_id d = active)) ds then active
          else DEFAULT_DASHBOARD_ID
        | None => DEFAULT_DASHBOARD_ID
        end))).
End normalize.

(** ** Writing *)

Definition widget_json (w : CustomDashboardWidget) : json :=
  JObj [(u! "uid", JStr (uid w)); (u! "type", JStr (widget_type_name (wtype w)));
        (u! "x", JInt (rx (wrect w))); (u! "y", JInt (ry (wrect w)));
        (u! "w", JInt (rw (wrect w))); (u! "h", JInt (rh (wrect w)))].

Definition dashboard_json (d : CustomOverviewDashboard) : json :=
  JObj [(u! "id", JStr (dash_id d)); (u! "name", JStr (dash_name d));
        (u! "widgets", JArr (map widget_json (dash_widgets d)));
        (u! "createdAt", JStr (dash_createdAt d)); (u! "updatedAt", JStr (dash_updatedAt d))].

Definition store_json (ds : list CustomOverviewDashboard) : json :=
  JObj [(u! "version", JInt 1); (u! "dashboards", JArr (map dashboard_json ds))].

(** The first [setItem] stays done when the second one throws. *)
Definition writeOverviewLayoutState (userId : Z) (state : StoredOverviewLayoutState)
  (storage : Storage) : Storage :=
  match stringify (store_json (dashboards state)) with
  | None => storage
  | Some text =>
    match setItem storage (dashboardsStorageKey userId) text with
    | None => storage
    | Some storage1 =>
      match setItem storage1 (activeDashboardStorageKey userId) (activeDashboardId state) with
      | None => storage1
      | Some storage2 => storage2
      end
    end
  end.

(** ** Well-formed layouts *)

Definition text_ok (n : nat) (s : ustring) : Prop := s ≠ [] ∧ (length s ≤ n)%nat.

(** The size of a widget is within its definition's bounds, inside the grid. *)
Definition widget_ok (w : CustomDashboardWidget) : Prop :=
  in_grid (wrect w) ∧
  ∃ d, widgetDefinition (wtype w) = Some d ∧
    minW d ≤ rw (wrect w) ≤ maxW d ∧ minH d ≤ rh (wrect w) ≤ maxH d.

Definition no_overlap (ws : list CustomDashboardWidget) : Prop :=
  StronglySorted (λ a b, overviewWidgetsOverlap (wrect a) (wrect b) = false) ws.

Record layout_ok (ws : list CustomDashboardWidget) : Prop := {
  lo_widgets : Forall widget_ok ws;
  lo_types : NoDup (wtype <$> ws);
  lo_uids : NoDup (uid <$> ws);
  lo_disjoint : no_overlap ws;
}.

Definition iso_date (s : ustring) : Prop := ∃ t, Z.abs t ≤ max_time ∧ s = toISOString t.

Record dashboard_ok (d : CustomOverviewDashboard) : Prop := {
  do_id : text_ok 120 (dash_id d);
  do_name : text_ok 80 (dash_name d);
  do_nonempty : dash_widgets d ≠ [];
  do_layout : layout_ok (dash_widgets d);
  do_uids : Forall (λ w, text_ok 160 (uid w)) (dash_widgets d);
  do_created : iso_date (dash_createdAt d);
  do_updated : iso_date (dash_updatedAt d);
}.

Definition store_ok (ds : list CustomOverviewDashboard) : Prop :=
  NoDup (dash_id <$> ds) ∧ Forall dashboard_ok ds.

(** ** Helpers *)

Lemma normalizeText_ok v n s : normalizeText v n = Some s → 0 ≤ n → text_ok (Z.to_nat n) s.
Proof.
  unfold normalizeText. destruct (as_string v) as [t|]; [|done].
  case_match eqn:E; [|done]. intros [= <-] Hn. apply truthy_true in E. split; [done|].
  unfold slice0. rewrite length_take. lia.
Qed.

Lemma clamp_bounds v lo hi : lo ≤ hi → lo ≤ clamp v lo hi ≤ hi.
Proof. unfold clamp. lia. Qed.

Lemma clamp_id v lo hi : lo ≤ v ≤ hi → clamp v lo hi = v.
Proof. unfold clamp. lia. Qed.

Lemma clampInteger_bounds v lo hi f : lo ≤ f ≤ hi → lo ≤ clampInteger v lo hi f ≤ hi.
Proof.
  intros Hf. unfold clampInteger. destruct (as_number v) as [[| |q]|]; try lia.
  apply clamp_bounds. lia.
Qed.

Lemma clampInteger_Z n lo hi f : lo ≤ n ≤ hi → clampInteger (Some (JInt n)) lo hi f = n.
Proof. intros Hn. unfold clampInteger. simpl. rewrite math_round_Z. by apply clamp_id. Qed.

Lemma widget_ok_size w : widget_ok w → size_ok (wrect w).
Proof. intros [Hg _]. unfold in_grid, size_ok in *. lia. Qed.

Lemma widgets_positive ws : Forall widget_ok ws → positive_sizes (wrect <$> ws).
Proof.
  intros H. unfold positive_sizes. apply Forall_fmap. eapply Forall_impl; [exact H|].
  intros w [Hg _]. unfold in_grid in Hg. simpl. lia.
Qed.

(** The result of [normalizeWidget] on every input. *)
Lemma normalizeWidget_spec value ids :
  ∃ r ids', normalizeWidget value ids = Some (r, ids') ∧
  match r with
  | None => ids' = ids
  | Some w => uid w ∉ ids ∧ ids' = set_add (uid w) ids ∧ text_ok 160 (uid w) ∧ widget_ok w ∧
              isRecord value = true ∧ isOverviewWidgetType (prop (u! "type") value) = Some (wtype w)
  end.
Proof.
  unfold normalizeWidget.
  destruct (isOverviewWidgetType _) as [t|] eqn:Et; [|by exists None, ids].
  destruct (isRecord value) eqn:Er; [|by exists None, ids].
  destruct (normalizeText _ 160) as [id|] eqn:Ei; [|by exists None, ids].
  case_decide as Hd; [by exists None, ids|].
  destruct (widgetDefinition_total t) as (d & Hdef & _ & Hok). rewrite Hdef. simpl.
  eexists _, _. split; [done|]. simpl. apply normalizeText_ok in Ei; [|lia].
  unfold definition_ok, OVERVIEW_GRID_COLUMNS, OVERVIEW_GRID_MAX_ROWS in *.
  set (w := clampInteger (prop (u! "w") value) _ _ _).
  assert (minW d ≤ w ≤ Z.min (maxW d) 12) as Hw by (apply clampInteger_bounds; lia).
  set (h := clampInteger (prop (u! "h") value) _ _ _).
  assert (minH d ≤ h ≤ maxH d) as Hh by (apply clampInteger_bounds; lia).
  clearbody w h.
  assert (0 ≤ clampInteger (prop (u! "x") value) 0 (12 - w) 0 ≤ 12 - w)
    by (apply clampInteger_bounds; lia).
  assert (0 ≤ clampInteger (prop (u! "y") value) 0 (256 - h) 0 ≤ 256 - h)
    by (apply clampInteger_bounds; lia).
  split_and!; try done.
  split; [unfold in_grid, OVERVIEW_GRID_COLUMNS, OVERVIEW_GRID_MAX_ROWS; simpl; lia|].
  exists d. simpl. split; [done|lia].
Qed.

(** ** The placement loop *)

(** A size recorded as unplaceable fits nowhere beside the widgets placed. *)
Definition unplaceable_ok (keys : list ustring) (rs : list Rect) : Prop :=
  ∀ r p, size_ok r → sizeKey r ∈ keys → position_ok r p → ¬ disjoint_from (at_position r p) rs.

Record norm_inv (st : NormalizeState) : Prop := {
  ni_layout : layout_ok (n_widgets st);
  ni_marks : marks (n_occupancy st) (wrect <$> n_widgets st);
  ni_types : ∀ t, t ∈ n_widgetTypes st ↔ t ∈ wtype <$> n_widgets st;
  ni_ids : ∀ i, i ∈ uid <$> n_widgets st → i ∈ n_widgetIds st;
  ni_uids : Forall (λ w, text_ok 160 (uid w)) (n_widgets st);
  ni_unplaceable : unplaceable_ok (n_unplaceable st) (wrect <$> n_widgets st);
}.

Lemma disjoint_from_app r rs1 rs2 :
  disjoint_from r (rs1 ++ rs2) ↔ disjoint_from r rs1 ∧ disjoint_from r rs2.
Proof. apply Forall_app. Qed.

Lemma at_position_size r p : rw (at_position r p) = rw r ∧ rh (at_position r p) = rh r.
Proof. done. Qed.

(** Adding a placed widget keeps the layout well formed. *)
Lemma layout_snoc ws w p :
  layout_ok ws → widget_ok w → wtype w ∉ wtype <$> ws → uid w ∉ uid <$> ws →
  in_grid (at_position (wrect w) p) → disjoint_from (at_position (wrect w) p) (wrect <$> ws) →
  layout_ok (ws ++ [placed w p]).
Proof.
  intros [H1 H2 H3 H4] [_ (d & Hd & Hs)] Ht Hu Hg Hdis. split.
  - apply Forall_app. split; [done|]. apply Forall_singleton. split; [done|]. by exists d.
  - rewrite fmap_app. by apply NoDup_snoc.
  - rewrite fmap_app. by apply NoDup_snoc.
  - apply StronglySorted_snoc; [done|]. unfold disjoint_from in Hdis.
    rewrite Forall_fmap in Hdis. eapply Forall_impl; [exact Hdis|].
    intros a Ha. rewrite overlap_sym. exact Ha.
Qed.

Lemma unplaceable_mono keys rs r : unplaceable_ok keys rs → unplaceable_ok keys (rs ++ [r]).
Proof. intros H r0 p Hs Hk Hp [Hd _]%disjoint_from_app. by eapply H. Qed.

Lemma sizeKey_inj r1 r2 : sizeKey r1 = sizeKey r2 → size_ok r1 → size_ok r2 →
  rw r1 = rw r2 ∧ rh r1 = rh r2.
Proof.
  unfold sizeKey, size_ok. intros Heq [Hw1 Hh1] [Hw2 Hh2].
  assert (∀ a b s t, Forall (λ c, is_digit c = true) a → Forall (λ c, is_digit c = true) b →
    a ++ 120 :: s = b ++ 120 :: t → a = b ∧ s = t) as Hsplit.
  { intros a b s t Ha. revert b. induction Ha as [|c a Hc Ha IH]; intros b Hb E.
    - destruct Hb as [|c b Hc Hb]; [by injection E|]. injection E as <- _. discriminate Hc.
    - destruct Hb as [|c' b Hc' Hb]; [injection E as -> _; discriminate Hc|].
      injection E as <- E. destruct (IH b Hb E). by subst. }
  assert (∀ n, 0 ≤ n → Forall (λ c, is_digit c = true) (string_of_Z n)) as Hdig.
  { intros n Hn. unfold string_of_Z. destruct (n <? 0) eqn:E; breflect; [lia|].
    by apply dec_string_spec. }
  apply Hsplit in Heq as [Hw Hh]; [|apply Hdig; lia..].
  split; by apply (inj string_of_Z).
Qed.

Lemma position_ok_size r1 r2 p :
  rw r1 = rw r2 → rh r1 = rh r2 → position_ok r1 p → position_ok r2 p ∧ at_position r1 p = at_position r2 p.
Proof. unfold position_ok, at_position. intros -> ->. done. Qed.

Lemma unplaceable_add keys rs r occ :
  unplaceable_ok keys rs → marks occ rs → positive_sizes rs → size_ok r →
  findAvailableOverviewWidgetPosition r rs (Some occ) = None →
  unplaceable_ok (set_add (sizeKey r) keys) rs.
Proof.
  intros H Hm Hpos Hr Hf r0 p Hs [Hk|Hk]%set_add_elem Hp Hd; [|by eapply H].
  apply sizeKey_inj in Hk as [Hw Hh]; [|done..].
  destruct (position_ok_size r0 r p Hw Hh Hp) as [Hp' Heq]. rewrite Heq in Hd.
  by apply (find_complete occ rs Hm Hpos r p Hr Hp' Hd).
Qed.

Lemma type_taken_false candidate types t :
  type_taken candidate types = false → isRecord candidate = true →
  isOverviewWidgetType (prop (u! "type") candidate) = Some t → t ∉ types.
Proof. unfold type_taken. intros H Hr Ht. rewrite Hr, Ht in H. simpl in H. by breflect. Qed.

(** An iteration never throws and keeps the invariant. *)
Lemma normalize_step_inv st candidate :
  norm_inv st → ∃ st', normalize_step st candidate = Some st' ∧ norm_inv st'.
Proof.
  intros Hinv. unfold normalize_step.
  destruct (type_taken candidate (n_widgetTypes st)) eqn:Ett; [by eauto|].
  destruct (normalizeWidget_spec candidate (n_widgetIds st)) as (r & ids' & -> & Hr). simpl.
  destruct Hinv as [Hlay Hm Hty Hids Hu Hunp].
  destruct r as [w|]; [|subst ids'; eexists; split; [done|by constructor]].
  destruct Hr as (Huid & -> & Htext & Hw & Hrec & Htype).
  pose proof (widgets_positive _ (lo_widgets _ Hlay)) as Hpos.
  assert (∀ i, i ∈ uid <$> n_widgets st → i ∈ set_add (uid w) (n_widgetIds st)) as Hids'
    by (intros i Hi; apply set_add_elem; auto).
  case_decide as Hk; [eexists; split; [done|by constructor]|].
  destruct (findAvailableOverviewWidgetPosition _ _ _) as [p|] eqn:Hf; eexists; (split; [done|]).
  - apply (find_sound _ _ Hm Hpos) in Hf as [Hg Hd].
    pose proof (type_taken_false _ _ _ Ett Hrec Htype) as Hnt.
    constructor; simpl.
    + apply layout_snoc; [done|done| | |done|done]; [by rewrite <- Hty|]. intros Hi. by apply Huid, Hids.
    + rewrite fmap_app. by apply marks_occupy.
    + intros t. rewrite set_add_elem, fmap_app, elem_of_app, Hty. simpl.
      rewrite list_elem_of_singleton. naive_solver.
    + intros i. rewrite fmap_app, elem_of_app. simpl. rewrite list_elem_of_singleton, set_add_elem.
      intros [Hi| ->]; auto.
    + apply Forall_app. split; [done|by apply Forall_singleton].
    + rewrite fmap_app. by apply unplaceable_mono.
  - constructor; try done. simpl. eapply unplaceable_add; try done. by apply widget_ok_size.
Qed.

Lemma initial_norm_inv : norm_inv initial_norm.
Proof.
  constructor; simpl; [|apply marks_empty|done|no_elem|constructor|].
  - split; constructor.
  - intros r p _ Hk. no_elem.
Qed.

Lemma normalize_loop candidates :
  ∃ st, foldM normalize_step initial_norm candidates = Some st ∧ norm_inv st.
Proof.
  apply (foldM_inv _ norm_inv); [|apply initial_norm_inv].
  intros st c _. apply normalize_step_inv.
Qed.

Section normalize_facts.
Context `{DateHost}.

Lemma normalizeDate_iso v s : normalizeDate v = Some s → iso_date s.
Proof.
  unfold normalizeDate. intros (t & _ & Hs)%bind_Some. unfold iso_of_string in Hs.
  apply fmap_Some in Hs as (tv & Htv & ->). exists tv. split; [by eapply Date_parse_range|done].
Qed.

Lemma default_date_iso v : iso_date (default fallbackDate (normalizeDate v)).
Proof.
  destruct (normalizeDate v) eqn:E; simpl; [by eapply normalizeDate_iso|].
  exists 0. split; [|done]. unfold max_time. lia.
Qed.

Lemma normalizeDashboard_spec value ids :
  ∃ r ids', normalizeDashboard value ids = Some (r, ids') ∧
  match r with
  | None => ids' = ids
  | Some d => dashboard_ok d ∧ dash_id d ∉ ids ∧ ids' = set_add (dash_id d) ids
  end.
Proof.
  unfold normalizeDashboard. destruct (isRecord value); [|by exists None, ids].
  destruct (normalizeText _ 120) as [id|] eqn:Ei; [|by exists None, ids].
  destruct (normalizeText _ 80) as [name|] eqn:En; [|by exists None, ids].
  destruct (as_array _) as [cs|]; [|by exists None, ids].
  case_decide as Hid; [by exists None, ids|].
  destruct (normalize_loop cs) as (st & -> & Hst). simpl.
  destruct (n_widgets st) as [|w ws] eqn:Ew; [by exists None, ids|].
  eexists _, _. split; [done|]. simpl. split_and!; try done.
  apply normalizeText_ok in Ei, En; [|lia..]. destruct Hst. rewrite Ew in *.
  constructor; simpl; try done; apply default_date_iso.
Qed.

Definition store_inv (acc : list ustring * list CustomOverviewDashboard) : Prop :=
  store_ok acc.2 ∧ ∀ i, i ∈ dash_id <$> acc.2 → i ∈ acc.1.

Lemma store_step_inv acc c : store_inv acc → ∃ acc', store_step acc c = Some acc' ∧ store_inv acc'.
Proof.
  intros [[Hnd Hok] Hids]. unfold store_step.
  destruct (normalizeDashboard_spec c acc.1) as (r & ids' & -> & Hr). simpl.
  eexists. split; [done|]. destruct r as [d|]; [|by subst ids'].
  destruct Hr as (Hd & Hni & ->). split; simpl; [split|].
  - rewrite fmap_app. apply NoDup_snoc; [done|]. intros Hi. by apply Hni, Hids.
  - apply Forall_app. split; [done|by apply Forall_singleton].
  - intros i. rewrite fmap_app, elem_of_app. simpl. rewrite list_elem_of_singleton, set_add_elem.
    intros [Hi| ->]; auto.
Qed.

(** Normalisation of any JSON value ends with a well-formed store. *)
Lemma normalize_store_spec value :
  ∃ ds, normalizeOverviewDashboardStore value = Some ds ∧ store_ok ds.
Proof.
  unfold normalizeOverviewDashboardStore.
  assert (store_ok []) as Hnil by (split; constructor).
  destruct (as_array _) as [cs|]; [|by eauto]. case_match; [|by eauto].
  destruct (foldM_inv store_step store_inv cs ([], [])) as (acc & -> & [Hok _]).
  - intros a b _. apply store_step_inv.
  - split; [done|simpl; no_elem].
  - by exists acc.2.
Qed.

Lemma parse_store_ok raw : store_ok (parseOverviewDashboardStore raw).
Proof.
  assert (store_ok []) as Hnil by (split; constructor).
  unfold parseOverviewDashboardStore. destruct (truthy_opt raw); [|done].
  destruct raw as [text|]; [|done]. destruct (JSON_parse text) as [v|]; [|done].
  by destruct (normalize_store_spec v) as (ds & -> & ?).
Qed.

(** The active dashboard is the default one or one of the dashboards. *)
Definition active_ok (st : StoredOverviewLayoutState) : Prop :=
  activeDashboardId st = DEFAULT_DASHBOARD_ID ∨
  activeDashboardId st ∈ dash_id <$> dashboards st.

Lemma read_state_ok userId storage :
  store_ok (dashboards (readOverviewLayoutState userId storage)) ∧
  active_ok (readOverviewLayoutState userId storage).
Proof.
  unfold readOverviewLayoutState, getItem, active_ok. destruct (get_throws storage).
  { split; [split; constructor|by left]. }
  cbn [mbind option_bind]. set (ds := parseOverviewDashboardStore _).
  assert (store_ok ds) as Hds by apply parse_store_ok. clearbody ds.
  destruct (map_get (activeDashboardStorageKey userId) (items storage)) as [active|]; [|by auto].
  cbn [default from_option dashboards activeDashboardId Datatypes.id]. split; [done|].
  destruct (truthy active && _) eqn:E; [|by left]. breflect.
  match goal with Hs : js_some _ _ = true |- _ => apply js_some_true in Hs as (d & Hd & He) end.
  breflect. right. apply list_elem_of_fmap. by exists d.
Qed.
End normalize_facts.

(** ** The set of unplaceable sizes is only a shortcut *)

Definition forget (st : NormalizeState) : NormalizeState :=
  mkNorm (n_widgetIds st) (n_widgetTypes st) (n_widgets st) (n_occupancy st) [].

(** The loop body without the shortcut: every candidate is searched for. *)
Definition normalize_step_search (st : NormalizeState) (candidate : json) : option NormalizeState :=
  forget <$> normalize_step (forget st) candidate.

Lemma step_search st c st' :
  norm_inv st → normalize_step st c = Some st' → normalize_step_search st c = Some (forget st').
Proof.
  intros Hinv. unfold normalize_step_search, normalize_step. cbn [n_widgetTypes n_widgetIds forget].
  destruct (type_taken c (n_widgetTypes st)); [by intros [= <-]|].
  destruct (normalizeWidget_spec c (n_widgetIds st)) as (r & ids' & -> & Hr).
  cbn [mbind option_bind]. destruct r as [w|]; [|by intros [= <-]]. cbn [n_unplaceable n_widgets n_occupancy].
  destruct Hr as (_ & _ & _ & Hw & _). destruct Hinv as [Hlay Hm _ _ _ Hunp].
  destruct (decide (sizeKey (wrect w) ∈ [])) as [Hn|_]; [exfalso; by apply not_elem_of_nil in Hn|].
  case_decide as Hk; intros Hst.
  - destruct (findAvailableOverviewWidgetPosition _ _ _) as [p|] eqn:Hf.
    + exfalso. pose proof (widgets_positive _ (lo_widgets _ Hlay)) as Hpos.
      destruct (find_sound _ _ Hm Hpos _ _ Hf) as [Hg Hd].
      pose proof (widget_ok_size _ Hw) as Hs.
      eapply (Hunp (wrect w) p Hs Hk); [by apply position_ok_in_grid|done].
    + simplify_eq. done.
  - destruct (findAvailableOverviewWidgetPosition _ _ _) as [p|]; simplify_eq; done.
Qed.

Lemma loop_search cs st st' :
  norm_inv st → foldM normalize_step st cs = Some st' →
  foldM normalize_step_search (forget st) cs = Some (forget st').
Proof.
  revert st. induction cs as [|c cs IH]; intros st Hinv; simpl; [by intros [= <-]|].
  destruct (normalize_step_inv st c Hinv) as (st1 & H1 & Hinv1). rewrite H1. simpl.
  pose proof (step_search st c st1 Hinv H1) as H2.
  change (normalize_step_search (forget st) c) with (normalize_step_search st c).
  rewrite H2. simpl. by apply IH.
Qed.

(** ** Round trip through JSON *)

(** A text that normalisation leaves alone. *)
Definition stable_text (n : nat) (s : ustring) : Prop := text_ok n s ∧ trim s = s ∧ units s.

Definition stable_widget (w : CustomDashboardWidget) : Prop := stable_text 160 (uid w).

Definition stable_dashboard (d : CustomOverviewDashboard) : Prop :=
  dashboard_ok d ∧ stable_text 120 (dash_id d) ∧ stable_text 80 (dash_name d) ∧
  Forall stable_widget (dash_widgets d).

Definition stable_store (ds : list CustomOverviewDashboard) : Prop :=
  NoDup (dash_id <$> ds) ∧ Forall stable_dashboard ds.

Lemma normalizeText_stable n s : stable_text (Z.to_nat n) s → normalizeText (Some (JStr s)) n = Some s.
Proof.
  intros ([Hne Hlen] & Htrim & _). unfold normalizeText, slice0. simpl.
  rewrite Htrim, take_ge by done. by rewrite (proj2 (truthy_true s) Hne).
Qed.

Lemma normalizeWidget_json w ids :
  widget_ok w → stable_widget w → uid w ∉ ids →
  normalizeWidget (widget_json w) ids = Some (Some w, set_add (uid w) ids).
Proof.
  intros [Hg (d & Hd & Hw & Hh)] Hs Hu. unfold normalizeWidget.
  change (prop (u! "type") (widget_json w)) with (Some (JStr (widget_type_name (wtype w)))).
  rewrite (proj2 (isOverviewWidgetType_Some _ (wtype w)) eq_refl).
  change (isRecord (widget_json w)) with true. cbv iota.
  change (prop (u! "uid") (widget_json w)) with (Some (JStr (uid w))).
  change (prop (u! "x") (widget_json w)) with (Some (JInt (rx (wrect w)))).
  change (prop (u! "y") (widget_json w)) with (Some (JInt (ry (wrect w)))).
  change (prop (u! "w") (widget_json w)) with (Some (JInt (rw (wrect w)))).
  change (prop (u! "h") (widget_json w)) with (Some (JInt (rh (wrect w)))).
  rewrite normalizeText_stable, decide_False, Hd by done. cbn [mbind option_bind].
  unfold in_grid, OVERVIEW_GRID_COLUMNS, OVERVIEW_GRID_MAX_ROWS in *.
  rewrite (clampInteger_Z (rw (wrect w))), (clampInteger_Z (rh (wrect w))) by lia.
  rewrite !clampInteger_Z by lia. by destruct w as [? ? []].
Qed.

Lemma placed_same w : placed w (rx (wrect w), ry (wrect w)) = w.
Proof. by destruct w as [? ? []]. Qed.

(** The types and ids the loop has recorded are those of the widgets placed. *)
Definition exact_ids (st : NormalizeState) : Prop :=
  n_unplaceable st = [] ∧ ∀ i, i ∈ n_widgetIds st → i ∈ uid <$> n_widgets st.

Lemma layout_ok_middle ws1 w ws2 :
  layout_ok (ws1 ++ w :: ws2) →
  widget_ok w ∧ wtype w ∉ wtype <$> ws1 ∧ uid w ∉ uid <$> ws1 ∧
  disjoint_from (wrect w) (wrect <$> ws1).
Proof.
  intros [H1 H2 H3 H4]. rewrite Forall_app, Forall_cons in H1. rewrite fmap_app in H2. rewrite fmap_app in H3.
  csimpl in H2. csimpl in H3. apply NoDup_app in H2 as (_ & H2 & _), H3 as (_ & H3 & _).
  split_and!; [naive_solver|intros Hi; apply (H2 _ Hi), elem_of_cons; auto|
    intros Hi; apply (H3 _ Hi), elem_of_cons; auto|].
  unfold disjoint_from. rewrite Forall_fmap. apply Forall_forall. intros a Ha. simpl.
  rewrite overlap_sym. apply list_elem_of_split in Ha as (l1 & l2 & ->). unfold no_overlap in H4.
  rewrite <- app_assoc in H4. simpl in H4.
  apply (StronglySorted_app_cons _ l1 a (l2 ++ w :: ws2) w H4).
  apply elem_of_app. right. apply elem_of_cons. auto.
Qed.

Lemma normalize_step_json st w ws :
  norm_inv st → exact_ids st → layout_ok (n_widgets st ++ w :: ws) → stable_widget w →
  ∃ st', normalize_step st (widget_json w) = Some st' ∧ norm_inv st' ∧ exact_ids st' ∧
         n_widgets st' = n_widgets st ++ [w].
Proof.
  intros Hinv [Hunp Hids] Hlay Hs.
  destruct (layout_ok_middle _ _ _ Hlay) as (Hw & Ht & Hu & Hdis).
  destruct (normalize_step_inv st (widget_json w) Hinv) as (st' & Hst & Hinv').
  exists st'. split; [done|]. split; [done|]. revert Hst. unfold normalize_step.
  assert (type_taken (widget_json w) (n_widgetTypes st) = false) as ->.
  { unfold type_taken. change (isRecord (widget_json w)) with true.
    change (prop (u! "type") (widget_json w)) with (Some (JStr (widget_type_name (wtype w)))).
    rewrite (proj2 (isOverviewWidgetType_Some _ (wtype w)) eq_refl). simpl.
    apply bool_decide_eq_false. by rewrite (ni_types _ Hinv). }
  rewrite normalizeWidget_json by (try done; intros Hi; by apply Hu, Hids).
  cbn [mbind option_bind n_unplaceable n_widgets n_occupancy n_widgetTypes n_widgetIds].
  rewrite Hunp. destruct (decide (sizeKey (wrect w) ∈ [])) as [Hn|_]; [by apply not_elem_of_nil in Hn|].
  rewrite (find_keeps _ _ (ni_marks _ Hinv) (widgets_positive _ (lo_widgets _ (ni_layout _ Hinv))))
    by (done || apply Hw).
  rewrite placed_same. intros [= <-]. split; [|done]. split; [done|]. simpl. intros i.
  rewrite set_add_elem, fmap_app, elem_of_app. simpl. rewrite list_elem_of_singleton. naive_solver.
Qed.

Lemma normalize_loop_json ws st :
  norm_inv st → exact_ids st → layout_ok (n_widgets st ++ ws) → Forall stable_widget ws →
  ∃ st', foldM normalize_step st (map widget_json ws) = Some st' ∧ n_widgets st' = n_widgets st ++ ws.
Proof.
  revert st. induction ws as [|w ws IH]; intros st Hinv Hex Hlay Hs; simpl.
  { exists st. by rewrite app_nil_r. }
  apply Forall_cons in Hs as [Hw Hs].
  destruct (normalize_step_json st w ws Hinv Hex Hlay Hw) as (st1 & -> & Hinv1 & Hex1 & H1). simpl.
  destruct (IH st1 Hinv1 Hex1) as (st2 & -> & H2); [by rewrite H1, <- app_assoc|done|].
  exists st2. split; [done|]. by rewrite H2, H1, <- app_assoc.
Qed.

Section roundtrip.
Context `{DateHost}.

Lemma normalizeDate_stable s : iso_date s → normalizeDate (Some (JStr s)) = Some s.
Proof.
  intros (t & Ht & ->). unfold normalizeDate. simpl. unfold iso_of_string.
  by rewrite Date_parse_toISOString.
Qed.

Lemma normalizeDashboard_json d ids :
  stable_dashboard d → dash_id d ∉ ids →
  normalizeDashboard (dashboard_json d) ids = Some (Some d, set_add (dash_id d) ids).
Proof.
  intros (Hok & Hid & Hname & Hws) Hni. unfold normalizeDashboard.
  change (isRecord (dashboard_json d)) with true. cbv iota.
  change (prop (u! "id") (dashboard_json d)) with (Some (JStr (dash_id d))).
  change (prop (u! "name") (dashboard_json d)) with (Some (JStr (dash_name d))).
  change (as_array (prop (u! "widgets") (dashboard_json d)))
    with (Some (map widget_json (dash_widgets d))).
  change (prop (u! "createdAt") (dashboard_json d)) with (Some (JStr (dash_createdAt d))).
  change (prop (u! "updatedAt") (dashboard_json d)) with (Some (JStr (dash_updatedAt d))).
  rewrite !normalizeText_stable, decide_False by done.
  destruct (normalize_loop_json (dash_widgets d) initial_norm) as (st & -> & Hst);
    [apply initial_norm_inv|split; [done|no_elem]|apply Hok|done|].
  cbn [mbind option_bind]. rewrite Hst. cbn [n_widgets initial_norm app].
  rewrite !normalizeDate_stable by apply Hok. pose proof (do_nonempty _ Hok) as Hne.
  destruct d as [did dn dws dc du]. simpl in *. by destruct dws.
Qed.

Lemma store_loop_json ds ids acc :
  Forall stable_dashboard ds → NoDup (dash_id <$> ds) → (∀ d, d ∈ ds → dash_id d ∉ ids) →
  ∃ ids', foldM store_step (ids, acc) (map dashboard_json ds) = Some (ids', acc ++ ds).
Proof.
  revert ids acc. induction ds as [|d ds IH]; intros ids acc Hs Hnd Hni; cbn [map foldM].
  { exists ids. by rewrite app_nil_r. }
  apply Forall_cons in Hs as [Hd Hs]. csimpl in Hnd. apply NoDup_cons in Hnd as [Hdn Hnd].
  assert (store_step (ids, acc) (dashboard_json d) = Some (set_add (dash_id d) ids, acc ++ [d])) as ->.
  { unfold store_step. cbn [fst snd].
    by rewrite normalizeDashboard_json by (done || (apply Hni, elem_of_cons; auto)). }
  cbn [mbind option_bind].
  destruct (IH (set_add (dash_id d) ids) (acc ++ [d])) as (ids' & Hf); [done|done| |].
  - intros d' Hd'. rewrite set_add_elem. intros [He|Hi].
    + apply Hdn. apply list_elem_of_fmap. eauto.
    + apply (Hni d'); [apply elem_of_cons; auto|done].
  - exists ids'. by rewrite Hf, <- app_assoc.
Qed.

Lemma normalize_store_json ds :
  stable_store ds → normalizeOverviewDashboardStore (store_json ds) = Some ds.
Proof.
  intros [Hnd Hs]. unfold normalizeOverviewDashboardStore.
  change (as_array (prop (u! "dashboards") (store_json ds))) with (Some (map dashboard_json ds)).
  change (isRecord (store_json ds) && version_one (store_json ds)) with true. cbv iota.
  destruct (store_loop_json ds [] [] Hs Hnd) as (ids' & ->); [|done].
  intros d _ Hi. no_elem.
Qed.
End roundtrip.

(** ** Rendering *)

Lemma units_app s t : units s → units t → units (s ++ t).
Proof. intros. by apply Forall_app. Qed.

Lemma pad_units k n : units (pad k n).
Proof.
  induction k as [|k IH]; simpl; [constructor|]. constructor; [|done].
  pose proof (Z.mod_pos_bound (n / 10 ^ Z.of_nat k) 10 ltac:(lia)). lia.
Qed.

Lemma toISOString_units t : units (toISOString t).
Proof.
  unfold toISOString. destruct (civil_from_days _) as [[yr m] d].
  assert (∀ c, 0 ≤ c < 65536 → units [c]) as H1 by (intros; by apply Forall_singleton).
  assert (units (iso_year yr)).
  { unfold iso_year. repeat case_match; try apply pad_units; constructor; try lia; apply pad_units. }
  repeat apply units_app; try apply pad_units; try done; apply H1; lia.
Qed.

Lemma widget_type_name_units t : units (widget_type_name t).
Proof. apply (bool_decide_unpack _). by destruct t. Qed.

Lemma widget_json_wf w : widget_ok w → stable_widget w → json_wf (widget_json w).
Proof.
  intros [Hg _] (_ & _ & Hu). unfold in_grid, OVERVIEW_GRID_COLUMNS, OVERVIEW_GRID_MAX_ROWS in Hg.
  apply json_wf_obj. split; [by_compute|].
  repeat (constructor; [split; [by_compute|]|]); [..|constructor];
    simpl; try done; try apply widget_type_name_units; eexists; (split; [done|unfold max_safe; lia]).
Qed.

Lemma dashboard_json_wf d : stable_dashboard d → json_wf (dashboard_json d).
Proof.
  intros (Hok & (_ & _ & Hid) & (_ & _ & Hname) & Hws).
  apply json_wf_obj. split; [by_compute|].
  repeat (constructor; [split; [by_compute|]|]); [..|constructor]; try done.
  - apply json_wf_arr. apply Forall_fmap. pose proof (lo_widgets _ (do_layout _ Hok)) as Hwok.
    rewrite Forall_forall in *. intros w Hw. apply widget_json_wf; [by apply Hwok|by apply Hws].
  - destruct (do_created _ Hok) as (t & _ & ->). apply toISOString_units.
  - destruct (do_updated _ Hok) as (t & _ & ->). apply toISOString_units.
Qed.

Lemma store_json_wf ds : stable_store ds → json_wf (store_json ds).
Proof.
  intros [_ Hs]. apply json_wf_obj. split; [by_compute|].
  repeat (constructor; [split; [by_compute|]|]); [..|constructor]; simpl.
  - exists 1. split; [done|unfold max_safe; lia].
  - apply json_wf_arr. apply Forall_fmap. eapply Forall_impl; [exact Hs|]. apply dashboard_json_wf.
Qed.

(** ** Reading back what was written *)

Lemma storage_keys_differ userId userId' :
  dashboardsStorageKey userId ≠ activeDashboardStorageKey userId'.
Proof. intros H. apply (f_equal (λ l, nth 12 l 0)) in H. discriminate H. Qed.

#[export] Instance dashboardsStorageKey_inj : Inj (=) (=) dashboardsStorageKey.
Proof. intros a b Hab. exact (string_of_Z_inj a b (app_inv_head DASHBOARDS_STORAGE_PREFIX _ _ Hab)). Qed.

#[export] Instance activeDashboardStorageKey_inj : Inj (=) (=) activeDashboardStorageKey.
Proof. intros a b Hab. exact (string_of_Z_inj a b (app_inv_head ACTIVE_DASHBOARD_STORAGE_PREFIX _ _ Hab)). Qed.

#[global] Opaque dashboardsStorageKey activeDashboardStorageKey.

(** Nothing is refused by the store. *)
Definition working (st : Storage) : Prop :=
  get_throws st = false ∧ ∀ k v, set_throws st k v = false.

Section read_write.
Context `{DateHost}.

Lemma parse_store_json ds text :
  stable_store ds → stringify (store_json ds) = Some text →
  parseOverviewDashboardStore (Some text) = ds.
Proof.
  intros Hs Ht. unfold parseOverviewDashboardStore.
  assert (truthy_opt (Some text) = true) as ->.
  { simpl. apply stringify_start in Ht as (c & r & -> & _). done. }
  rewrite (JSON_parse_stringify _ _ (store_json_wf ds Hs) Ht).
  by rewrite normalize_store_json.
Qed.

Lemma write_working userId state storage :
  working storage → working (writeOverviewLayoutState userId state storage).
Proof.
  intros [Hg Hw]. unfold writeOverviewLayoutState, setItem.
  destruct (stringify _); [|done]. rewrite Hw. simpl. by rewrite Hw.
Qed.

(** The state written is the state read back, whatever was stored before. *)
Lemma read_write userId state storage :
  working storage → stable_store (dashboards state) → active_ok state →
  readOverviewLayoutState userId (writeOverviewLayoutState userId state storage) = state.
Proof.
  intros [Hg Hw] Hs Ha. unfold writeOverviewLayoutState, setItem.
  destruct (stringify_total _ (store_json_wf _ Hs)) as [text Ht]. rewrite Ht, Hw.
  cbn [set_throws]. rewrite Hw. unfold readOverviewLayoutState, getItem. cbn [get_throws items].
  rewrite Hg. cbn [mbind option_bind].
  rewrite map_get_set_ne, map_get_set_eq by apply storage_keys_differ.
  rewrite map_get_set_eq, (parse_store_json _ _ Hs Ht).
  cbn [default from_option]. destruct state as [ds active]. unfold Datatypes.id. f_equal.
  simpl in *. destruct Ha as [Ha|Ha]; simpl in Ha.
  { subst. by repeat case_match. }
  apply list_elem_of_fmap in Ha as (d & -> & Hd).
  assert (truthy (dash_id d) = true) as ->.
  { destruct Hs as [_ Hs]. rewrite Forall_forall in Hs. apply truthy_true. by apply (Hs d Hd). }
  assert (js_some (λ d0, bool_decide (dash_id d0 = dash_id d)) ds = true) as ->; [|done].
  apply js_some_true. exists d. split; [done|]. by apply bool_decide_eq_true.
Qed.

Lemma setItem_get_ne storage k v storage' k' :
  setItem storage k v = Some storage' → k' ≠ k → getItem storage' k' = getItem storage k'.
Proof.
  unfold setItem. case_match; [done|]. intros [= <-] Hne. unfold getItem. simpl.
  by rewrite map_get_set_ne.
Qed.

(** Writing one user's dashboards leaves every other user's alone. *)
Lemma write_other_user userId userId' state storage :
  userId ≠ userId' →
  readOverviewLayoutState userId' (writeOverviewLayoutState userId state storage) =
  readOverviewLayoutState userId' storage.
Proof.
  intros Hne.
  assert (∀ k, k = dashboardsStorageKey userId' ∨ k = activeDashboardStorageKey userId' →
    getItem (writeOverviewLayoutState userId state storage) k = getItem storage k) as Hget.
  { intros k Hk. unfold writeOverviewLayoutState. destruct (stringify _); [|done].
    assert (k ≠ dashboardsStorageKey userId ∧ k ≠ activeDashboardStorageKey userId) as [H1 H2].
    { destruct Hk as [-> | ->]; split; intros He.
      - exact (Hne (eq_sym (dashboardsStorageKey_inj _ _ He))).
      - exact (storage_keys_differ _ _ He).
      - exact (storage_keys_differ _ _ (eq_sym He)).
      - exact (Hne (eq_sym (activeDashboardStorageKey_inj _ _ He))). }
    destruct (setItem storage _ _) as [st1|] eqn:E1; [|done].
    destruct (setItem st1 _ _) as [st2|] eqn:E2; [|exact (setItem_get_ne _ _ _ _ k E1 H1)].
    rewrite (setItem_get_ne _ _ _ _ k E2 H2). exact (setItem_get_ne _ _ _ _ k E1 H1). }
  unfold readOverviewLayoutState.
  rewrite (Hget _ (or_introl eq_refl)), (Hget _ (or_intror eq_refl)). reflexivity.
Qed.
End read_write.

(** ** Claims *)

(** C1: Whatever the browser store holds (nothing, malformed or hostile JSON, any
    active id) and even when it throws, reading a user's layout yields a
    well-formed state: distinct dashboard ids, bounded texts, ISO dates, and in
    every dashboard a non-empty layout of distinct widget types and ids, inside
    the grid, of legal size and without overlaps; the active id names one of
    them or the default dashboard. *)
Theorem readOverviewLayoutState_well_formed `{DateHost} userId storage :
  store_ok (dashboards (readOverviewLayoutState userId storage)) ∧
  active_ok (readOverviewLayoutState userId storage).
Proof. apply read_state_ok. Qed.

(** Skipping the search for sizes already found unplaceable is only a
    shortcut: normalising a dashboard's widgets always ends without an exception,
    and with the same widgets as the loop that searches for every candidate. *)
Theorem unplaceable_cache_is_transparent candidates :
  ∃ st, foldM normalize_step initial_norm candidates = Some st ∧
        foldM normalize_step_search initial_norm candidates = Some (forget st).
Proof.
  destruct (normalize_loop candidates) as (st & Hst & _). exists st. split; [done|].
  apply (loop_search candidates initial_norm); [apply initial_norm_inv|done].
Qed.

(** C3: Reading after writing: in a store that accepts writes, the state written
    for a user (well-formed, its texts trimmed) is rendered to JSON, parsed,
    normalised and read back unchanged, whatever the store held before. *)
Theorem readOverviewLayoutState_writeOverviewLayoutState `{DateHost} userId state storage :
  working storage → stable_store (dashboards state) → active_ok state →
  readOverviewLayoutState userId (writeOverviewLayoutState userId state storage) = state.
Proof. apply read_write. Qed.

Definition sample_dashboard : CustomOverviewDashboard :=
  mkDashboard (u! "dashboard-1") (u! "Ops") [mkWidget (u! "widget-1") kpi_alerts (mkRect 2 1 3 2)]
    (toISOString 0) (toISOString 1700000000000).

Definition empty_storage : Storage := mkStorage [] false (λ _ _, false).

Lemma sample_dashboard_stable : stable_store [sample_dashboard].
Proof.
  split; [apply NoDup_singleton|]. apply Forall_singleton.
  assert (Hw : widget_ok (mkWidget (u! "widget-1") kpi_alerts (mkRect 2 1 3 2))).
  { split; [by_compute|].
    eexists. split; [reflexivity|]. vm_compute. intuition congruence. }
  split_and!.
  - constructor; cbn [sample_dashboard dash_id dash_name dash_widgets dash_createdAt dash_updatedAt].
    + split; [done|vm_compute; lia].
    + split; [done|vm_compute; lia].
    + done.
    + split; [by apply Forall_singleton|apply NoDup_singleton..|]. constructor; constructor.
    + apply Forall_singleton. split; [done|vm_compute; lia].
    + exists 0. split; [vm_compute; congruence|done].
    + exists 1700000000000. split; [vm_compute; congruence|done].
  - split_and!; [split; [done|vm_compute; lia]|by vm_compute|by_compute].
  - split_and!; [split; [done|vm_compute; lia]|by vm_compute|by_compute].
  - apply Forall_singleton.
    split_and!; [split; [done|vm_compute; lia]|by vm_compute|by_compute].
Qed.

Lemma empty_storage_working : working empty_storage.
Proof. done. Qed.

Lemma readOverviewLayoutState_writeOverviewLayoutState_witness :
  let state := mkLayoutState [sample_dashboard] (u! "dashboard-1") in
  @readOverviewLayoutState utc_host 7 (writeOverviewLayoutState 7 state empty_storage) = state.
Proof.
  apply (@readOverviewLayoutState_writeOverviewLayoutState utc_host 7 _ empty_storage).
  - exact empty_storage_working.
  - exact sample_dashboard_stable.
  - right. apply list_elem_of_singleton. reflexivity.
Defined.

(** Dashboards are private to a user of the browser: writing one user's
    layout, whether the store accepts it, refuses it or fails half way, leaves
    what any other user reads unchanged. *)
Theorem writeOverviewLayoutState_other_user `{DateHost} userId userId' state storage :
  userId ≠ userId' →
  readOverviewLayoutState userId' (writeOverviewLayoutState userId state storage) =
  readOverviewLayoutState userId' storage.
Proof. apply write_other_user. Qed.

Lemma writeOverviewLayoutState_other_user_witness :
  @readOverviewLayoutState utc_host 8
    (writeOverviewLayoutState 7 (mkLayoutState [sample_dashboard] (u! "dashboard-1")) empty_storage) =
  @readOverviewLayoutState utc_host 8 empty_storage.
Proof. apply (@writeOverviewLayoutState_other_user utc_host 7 8). discriminate. Defined.
