(* ===== verification/OverviewContext.v ===== *)
(** * The dashboard provider

    Models frontend/src/features/overviewLayout/OverviewLayoutContext.tsx: the
    state of the provider of one user, its four operations, each of which
    commits the next state to memory and to storage, and the machine they form.
    Clock readings and random identifiers are arguments. *)

From S2P Require Import Prelude JsNumber JsDate Json WebStorage OverviewModel OverviewStorage.

(** The provider's React state together with the browser storage it writes. *)
Record Provider := mkProvider {
  p_state : StoredOverviewLayoutState;
  p_storage : Storage;
}.

Definition commit (userId : Z) (update : StoredOverviewLayoutState → StoredOverviewLayoutState)
  (p : Provider) : Provider :=
  let next := update (p_state p) in
  mkProvider next (writeOverviewLayoutState userId next (p_storage p)).

Definition selectDashboard (userId : Z) (dashboardId : ustring) : Provider → Provider :=
  commit userId (λ current,
    mkLayoutState (dashboards current)
      (if bool_decide (dashboardId = DEFAULT_DASHBOARD_ID)
          || js_some (λ d, bool_decide (dash_id d = dashboardId)) (dashboards current)
       then dashboardId else DEFAULT_DASHBOARD_ID)).

(** [random] and [now] are drawn when the callback runs. *)
Definition createDashboard (userId : Z) (random : ustring) (now : Z) (name : ustring)
  (widgets : list CustomDashboardWidget) (p : Provider) : ustring * Provider :=
  let id := createOverviewId (u! "dashboard") random in
  let dashboard := mkDashboard id (trim name) (deduplicateOverviewWidgetTypes widgets)
                     (toISOString now) (toISOString now) in
  (id, commit userId (λ current, mkLayoutState (dashboards current ++ [dashboard]) id) p).

Definition updateDashboard (userId : Z) (now : Z) (dashboardId name : ustring)
  (widgets : list CustomDashboardWidget) : Provider → Provider :=
  commit userId (λ current,
    mkLayoutState
      (map (λ d, if bool_decide (dash_id d = dashboardId)
                 then mkDashboard (dash_id d) (trim name) (deduplicateOverviewWidgetTypes widgets)
                        (dash_createdAt d) (toISOString now)
                 else d) (dashboards current))
      (activeDashboardId current)).

Definition deleteDashboard (userId : Z) (dashboardId : ustring) : Provider → Provider :=
  commit userId (λ current,
    mkLayoutState (js_filter (λ d, negb (bool_decide (dash_id d = dashboardId))) (dashboards current))
      (if bool_decide (activeDashboardId current = dashboardId) then DEFAULT_DASHBOARD_ID
       else activeDashboardId current)).

Definition activeDashboard (p : Provider) : option CustomOverviewDashboard :=
  js_find (λ d, bool_decide (dash_id d = activeDashboardId (p_state p))) (dashboards (p_state p)).

Section machine.
(** [exact_texts]: whether the stored texts are ones that normalisation leaves alone. *)
Context `{DateHost} (userId : Z) (exact_texts : Prop).

(** [useState(() => readOverviewLayoutState(userId))] *)
Definition mount (storage : Storage) : Provider :=
  mkProvider (readOverviewLayoutState userId storage) storage.

(** What the builder hands to the provider: a trimmed non-empty name of at most
    80 units and a non-empty well-formed layout. *)
Definition submission_ok (name : ustring) (ws : list CustomDashboardWidget) : Prop :=
  text_ok 80 (trim name) ∧ ws ≠ [] ∧ layout_ok ws ∧ Forall (λ w, text_ok 160 (uid w)) ws ∧
  (exact_texts → units (trim name) ∧ Forall stable_widget ws).

(** The transitions of the provider. *)
Inductive provider_step : Provider → Provider → Prop :=
| step_select p dashboardId :
    provider_step p (selectDashboard userId dashboardId p)
| step_create p random now name ws :
    submission_ok name ws → Z.abs now ≤ max_time →
    stable_text 120 (createOverviewId (u! "dashboard") random) →
    createOverviewId (u! "dashboard") random ∉ dash_id <$> dashboards (p_state p) →
    provider_step p (createDashboard userId random now name ws p).2
| step_update p now dashboardId name ws :
    submission_ok name ws → Z.abs now ≤ max_time →
    provider_step p (updateDashboard userId now dashboardId name ws p)
| step_delete p dashboardId :
    provider_step p (deleteDashboard userId dashboardId p).

Inductive reachable (storage : Storage) : Provider → Prop :=
| reach_mount : reachable storage (mount storage)
| reach_step p p' : reachable storage p → provider_step p p' → reachable storage p'.

(** ** Preservation *)

Definition provider_ok (p : Provider) : Prop :=
  store_ok (dashboards (p_state p)) ∧ active_ok (p_state p).

Lemma dedup_layout ws : layout_ok ws → deduplicateOverviewWidgetTypes ws = ws.
Proof. intros Hl. apply dedup_types_id; [apply Hl|]. intros t _ Hn. no_elem. Qed.

Lemma submitted_dashboard_ok id name ws created updated :
  text_ok 120 id → submission_ok name ws → iso_date created → iso_date updated →
  dashboard_ok (mkDashboard id (trim name) (deduplicateOverviewWidgetTypes ws) created updated).
Proof.
  intros Hid (Hname & Hne & Hl & Hs & _) Hc Hu. rewrite dedup_layout by done. by constructor.
Qed.

Lemma now_iso now : Z.abs now ≤ max_time → iso_date (toISOString now).
Proof. intros. by exists now. Qed.

Lemma active_elem st :
  active_ok st ↔ activeDashboardId st = DEFAULT_DASHBOARD_ID ∨
                 ∃ d, d ∈ dashboards st ∧ dash_id d = activeDashboardId st.
Proof. unfold active_ok. rewrite list_elem_of_fmap. naive_solver. Qed.

Lemma select_ok p dashboardId : provider_ok p → provider_ok (selectDashboard userId dashboardId p).
Proof.
  intros [Hs Ha]. split; [done|]. apply active_elem. simpl.
  destruct (bool_decide _ || _) eqn:E; [|by left].
  apply orb_true_iff in E as [E|E]; [left; by breflect|].
  apply js_some_true in E as (d & Hd & He). breflect. right. by exists d.
Qed.

Lemma create_ok p random now name ws :
  provider_ok p → submission_ok name ws → Z.abs now ≤ max_time →
  text_ok 120 (createOverviewId (u! "dashboard") random) →
  createOverviewId (u! "dashboard") random ∉ dash_id <$> dashboards (p_state p) →
  provider_ok (createDashboard userId random now name ws p).2.
Proof.
  intros [[Hnd Hok] Ha] Hsub Hnow Hid Hfresh. unfold createDashboard, commit, provider_ok. cbn [snd p_state].
  set (d := mkDashboard _ _ _ _ _). split; [split|]; cbn [dashboards].
  - rewrite fmap_app. by apply NoDup_snoc.
  - apply Forall_app. split; [done|]. apply Forall_singleton.
    apply submitted_dashboard_ok; by try apply now_iso.
  - apply active_elem. right. exists d. split; [apply elem_of_app; right; by apply list_elem_of_singleton|done].
Qed.

Lemma update_ids ds (f : CustomOverviewDashboard → CustomOverviewDashboard) :
  (∀ d, dash_id (f d) = dash_id d) → dash_id <$> map f ds = dash_id <$> ds.
Proof. intros Hf. induction ds as [|d ds IH]; csimpl; [done|]. by rewrite Hf, IH. Qed.

Lemma update_ok p now dashboardId name ws :
  provider_ok p → submission_ok name ws → Z.abs now ≤ max_time →
  provider_ok (updateDashboard userId now dashboardId name ws p).
Proof.
  intros [[Hnd Hok] Ha] Hsub Hnow. unfold updateDashboard, commit, provider_ok. cbn [p_state].
  set (f := λ d : CustomOverviewDashboard, if bool_decide (dash_id d = dashboardId) then _ else _).
  assert (Hf : ∀ d, dash_id (f d) = dash_id d) by (intros d; unfold f; by case_match).
  split; [split|]; cbn [dashboards].
  - by rewrite update_ids.
  - apply Forall_fmap. eapply Forall_impl; [exact Hok|]. intros d Hd. unfold f. simpl.
    case_match; [|done]. apply submitted_dashboard_ok; [apply Hd|done|apply Hd|by apply now_iso].
  - unfold active_ok. cbn [activeDashboardId dashboards]. by rewrite update_ids.
Qed.

Lemma js_filter_fmap_NoDup (f : CustomOverviewDashboard → bool) ds :
  NoDup (dash_id <$> ds) → NoDup (dash_id <$> js_filter f ds).
Proof. intros Hnd. eapply sublist_NoDup; [exact Hnd|]. apply fmap_sublist, js_filter_sublist. Qed.

Lemma delete_ok p dashboardId : provider_ok p → provider_ok (deleteDashboard userId dashboardId p).
Proof.
  intros [[Hnd Hok] Ha]. unfold deleteDashboard, commit, provider_ok. cbn [p_state].
  split; [split|]; cbn [dashboards].
  - by apply js_filter_fmap_NoDup.
  - rewrite Forall_forall in *. intros d [Hd _]%js_filter_elem. by apply Hok.
  - apply active_elem. cbn [activeDashboardId dashboards]. case_bool_decide as Hact; [by left|].
    apply active_elem in Ha as [Ha|(d & Hd & He)]; [by left|]. right. exists d.
    split; [|done]. apply js_filter_elem. split; [done|]. rewrite He. by apply negb_true_iff, bool_decide_eq_false.
Qed.

Lemma step_ok p p' : provider_ok p → provider_step p p' → provider_ok p'.
Proof.
  intros Hp Hstep. destruct Hstep as [p i|p r n nm ws Hs Hn [Hi _] Hf|p n i nm ws Hs Hn|p i].
  - by apply select_ok.
  - by apply create_ok.
  - by apply update_ok.
  - by apply delete_ok.
Qed.

(** ** Memory and storage agree *)

Lemma submitted_dashboard_stable id name ws created updated :
  exact_texts → stable_text 120 id → submission_ok name ws → iso_date created → iso_date updated →
  stable_dashboard (mkDashboard id (trim name) (deduplicateOverviewWidgetTypes ws) created updated).
Proof.
  intros He Hid Hsub Hc Hu. split.
  - apply submitted_dashboard_ok; try done. apply Hid.
  - destruct Hsub as (Hname & _ & Hl & _ & Hs). destruct (Hs He) as [Hn Hw]. rewrite dedup_layout by done.
    split; [done|]. split; [|done]. split; [done|]. split; [apply trim_idemp|done].
Qed.

Lemma step_stable p p' :
  exact_texts → stable_store (dashboards (p_state p)) → provider_step p p' → stable_store (dashboards (p_state p')).
Proof.
  intros He [Hnd Hok] Hstep. destruct Hstep as [p i|p r n nm ws Hs Hn Hi Hf|p n i nm ws Hs Hn|p i];
    unfold selectDashboard, createDashboard, updateDashboard, deleteDashboard, commit;
    cbn [snd p_state dashboards]; [done|split..].
  - rewrite fmap_app. by apply NoDup_snoc.
  - apply Forall_app. split; [done|]. apply Forall_singleton.
    apply submitted_dashboard_stable; by try apply now_iso.
  - rewrite update_ids; [done|]. intros d. by case_match.
  - apply Forall_fmap. eapply Forall_impl; [exact Hok|]. intros d Hsd. pose proof Hsd as (Hd & Hid & _). simpl.
    case_match; [|exact Hsd]. apply submitted_dashboard_stable; [done|done|done|apply Hd|by apply now_iso].
  - by apply js_filter_fmap_NoDup.
  - rewrite Forall_forall in *. intros d [Hd _]%js_filter_elem. by apply Hok.
Qed.

Lemma stable_store_ok ds : stable_store ds → store_ok ds.
Proof.
  intros [Hnd Hs]. split; [done|]. eapply Forall_impl; [exact Hs|]. intros d Hd. apply Hd.
Qed.

Lemma step_storage p p' :
  provider_step p p' → p_storage p' = writeOverviewLayoutState userId (p_state p') (p_storage p).
Proof. by intros []. Qed.

(** Every transition leaves the store holding exactly the state in memory. *)
Lemma step_persists p p' :
  exact_texts → working (p_storage p) → stable_store (dashboards (p_state p)) → active_ok (p_state p) →
  provider_step p p' →
  working (p_storage p') ∧ readOverviewLayoutState userId (p_storage p') = p_state p'.
Proof.
  intros He Hw Hs Ha Hstep. rewrite (step_storage _ _ Hstep). split; [by apply write_working|].
  apply read_write; [done|by eapply step_stable|].
  eapply (step_ok p p'); [|done]. split; [by apply stable_store_ok|done].
Qed.
End machine.

(** ** Claims *)

(** Every state the provider can reach from any stored content, by any
    sequence of selections, creations, updates and deletions, is well formed,
    and its active dashboard is the default one or exists: deleting the active
    dashboard falls back, selecting an unknown id selects the default. *)
Theorem provider_reachable_well_formed `{DateHost} userId exact_texts storage p :
  reachable userId exact_texts storage p → store_ok (dashboards (p_state p)) ∧ active_ok (p_state p).
Proof.
  intros Hr. change (provider_ok p). induction Hr as [|p p' Hr IH Hs].
  - apply read_state_ok.
  - by eapply step_ok.
Qed.

Lemma sample_submission :
  submission_ok True (u! " Ops ") [mkWidget (u! "widget-1") kpi_alerts (mkRect 2 1 3 2)].
Proof.
  destruct sample_dashboard_stable as [_ Hs]. apply Forall_singleton in Hs as (Hok & _ & Hn & Hw).
  split_and!; [apply Hn|done|apply Hok|apply Hok|]. intros _. split; [apply Hn|exact Hw].
Qed.

Lemma provider_reachable_well_formed_witness :
  let p := (@mount utc_host 7 empty_storage) in
  let p' := (createDashboard 7 (u! "x1") 0 (u! " Ops ")
               [mkWidget (u! "widget-1") kpi_alerts (mkRect 2 1 3 2)] p).2 in
  store_ok (dashboards (p_state (deleteDashboard 7 (u! "dashboard-x1") p'))).
Proof.
  intros p p'. refine (proj1 (@provider_reachable_well_formed utc_host 7 True empty_storage _ _)).
  eapply reach_step; [|apply step_delete]. eapply reach_step; [apply reach_mount|].
  apply step_create; [exact sample_submission|vm_compute; congruence| |apply not_elem_of_nil].
  split_and!; [split; [done|vm_compute; lia]|by vm_compute|by_compute].
Defined.
