(* ===== verification/Workspace.v ===== *)
(** * The dashboard workspace

    Models frontend/src/features/overviewLayout/OverviewDashboardWorkspace.tsx:
    the editing operations on a layout (drop, palette, grid drag and resize,
    keyboard), the builder, and the workspace that opens it over the provider.
    An outer [option] is a thrown exception; an operation that returns the array
    it was given, which the callers test by reference, returns [Same]. *)

From Stdlib Require Import QArith_base.
From S2P Require Import Prelude JsNumber JsDate Json WebStorage OverviewModel OverviewStorage OverviewContext.

(** The result of an edit: the same array, or a new one. *)
Inductive edit : Type :=
| Same
| New (ws : list CustomDashboardWidget).

Definition edited (ws : list CustomDashboardWidget) (e : edit) : list CustomDashboardWidget :=
  match e with Same => ws | New ws' => ws' end.

(** An item of the grid library's layout: positions are numbers it computed. *)
Record LayoutItem := mkItem {
  li_i : ustring;
  li_x : jsnum; li_y : jsnum; li_w : jsnum; li_h : jsnum;
}.

Definition clampGridInteger (value : jsnum) (min max fallback : Z) : Z :=
  match value with
  | Fin q => clamp (math_round q) min max
  | _ => clamp fallback min max
  end.

Definition normalizeGridWidget (widget : CustomDashboardWidget) (item : LayoutItem)
  : option CustomDashboardWidget :=
  definition ← widgetDefinition (wtype widget);
  let w := clampGridInteger (li_w item) (minW definition)
             (Z.min (maxW definition) OVERVIEW_GRID_COLUMNS) (rw (wrect widget)) in
  let h := clampGridInteger (li_h item) (minH definition)
             (Z.min (maxH definition) OVERVIEW_GRID_MAX_ROWS) (rh (wrect widget)) in
  let x := clampGridInteger (li_x item) 0 (OVERVIEW_GRID_COLUMNS - w) (rx (wrect widget)) in
  let y := clampGridInteger (li_y item) 0 (OVERVIEW_GRID_MAX_ROWS - h) (ry (wrect widget)) in
  Some (mkWidget (uid widget) (wtype widget) (mkRect x y w h)).

Fixpoint widgetsDoNotOverlap (ws : list CustomDashboardWidget) : bool :=
  match ws with
  | [] => true
  | widget :: rest =>
    forallb (λ candidate, negb (overviewWidgetsOverlap (wrect widget) (wrect candidate))) rest
    && widgetsDoNotOverlap rest
  end.

(** The repair loop: [None] when a widget has no place left. *)
Fixpoint repair (repaired normalized : list CustomDashboardWidget)
  : option (list CustomDashboardWidget) :=
  match normalized with
  | [] => Some repaired
  | widget :: rest =>
    match findAvailableOverviewWidgetPosition (wrect widget) (wrect <$> repaired) None with
    | None => None
    | Some position => repair (repaired ++ [placed widget position]) rest
    end
  end.

Definition normalize_item (positions : list (ustring * LayoutItem)) (widget : CustomDashboardWidget)
  : option CustomDashboardWidget :=
  match map_get (uid widget) positions with
  | Some item => normalizeGridWidget widget item
  | None => Some widget
  end.

Definition applyGridLayout (widgets : list CustomDashboardWidget) (layout : list LayoutItem)
  : option (list CustomDashboardWidget) :=
  let positions := map_of (map (λ item, (li_i item, item)) layout) in
  normalized ← mapM (normalize_item positions) widgets;
  Some (if widgetsDoNotOverlap normalized then normalized
        else default widgets (repair [] normalized)).

Definition place_new (widgets : list CustomDashboardWidget) (widget : CustomDashboardWidget) : edit :=
  match findAvailableOverviewWidgetPosition (wrect widget) (wrect <$> widgets) None with
  | Some available => New (widgets ++ [placed widget available])
  | None => Same
  end.

Definition has_type (widgets : list CustomDashboardWidget) (t : OverviewWidgetType) : bool :=
  js_some (λ widget, bool_decide (wtype widget = t)) widgets.

Definition applyDroppedWidget (random : ustring) (widgets : list CustomDashboardWidget)
  (t : OverviewWidgetType) (position : LayoutItem) : option edit :=
  if has_type widgets t then Some Same
  else
    created ← createOverviewWidget random t;
    widget ← normalizeGridWidget created position;
    Some (place_new widgets widget).

Definition tryAddOverviewWidget (random : ustring) (widgets : list CustomDashboardWidget)
  (t : OverviewWidgetType) : option edit :=
  if has_type widgets t then Some Same
  else
    widget ← createOverviewWidget random t;
    Some (place_new widgets widget).

Definition isKeyboardAdjustmentKey (key : ustring) : bool :=
  str_in key [u! "ArrowLeft"; u! "ArrowRight"; u! "ArrowUp"; u! "ArrowDown"].

(** The rectangle after one key press. *)
Definition adjust (definition : OverviewWidgetDefinition) (key : ustring) (resize : bool) (r : Rect) : Rect :=
  if resize then
    if decide (key = u! "ArrowLeft") then
      mkRect (rx r) (ry r) (Z.max (minW definition) (rw r - 1)) (rh r)
    else if decide (key = u! "ArrowRight") then
      mkRect (rx r) (ry r)
        (Z.min (Z.min (maxW definition) (OVERVIEW_GRID_COLUMNS - rx r)) (rw r + 1)) (rh r)
    else if decide (key = u! "ArrowUp") then
      mkRect (rx r) (ry r) (rw r) (Z.max (minH definition) (rh r - 1))
    else
      mkRect (rx r) (ry r) (rw r)
        (Z.min (Z.min (maxH definition) (OVERVIEW_GRID_MAX_ROWS - ry r)) (rh r + 1))
  else
    if decide (key = u! "ArrowLeft") then mkRect (Z.max 0 (rx r - 1)) (ry r) (rw r) (rh r)
    else if decide (key = u! "ArrowRight") then
      mkRect (Z.min (OVERVIEW_GRID_COLUMNS - rw r) (rx r + 1)) (ry r) (rw r) (rh r)
    else if decide (key = u! "ArrowUp") then mkRect (rx r) (Z.max 0 (ry r - 1)) (rw r) (rh r)
    else mkRect (rx r) (Z.min (OVERVIEW_GRID_MAX_ROWS - rh r) (ry r + 1)) (rw r) (rh r).

Definition applyKeyboardWidgetAdjustment (widgets : list CustomDashboardWidget) (id key : ustring)
  (resize : bool) : option edit :=
  match js_find (λ candidate, bool_decide (uid candidate = id)) widgets with
  | Some widget =>
    if isKeyboardAdjustmentKey key then
      definition ← widgetDefinition (wtype widget);
      let adjusted := mkWidget (uid widget) (wtype widget) (adjust definition key resize (wrect widget)) in
      Some
        (if decide (wrect adjusted = wrect widget) then Same
         else if js_some (λ candidate, negb (bool_decide (uid candidate = id)) &&
                   overviewWidgetsOverlap (wrect adjusted) (wrect candidate)) widgets then Same
         else New (map (λ candidate, if bool_decide (uid candidate = id) then adjusted else candidate)
                     widgets))
    else Some Same
  | None => Some Same
  end.

(** ** The builder and the workspace *)

Inductive PlacementIssue := duplicate | space.

Record BuilderState := mkBuilder {
  b_dashboardId : option ustring;
  b_name : ustring;
  b_widgets : list CustomDashboardWidget;
}.

(** Where the keyboard focus goes once the element is rendered. *)
Inductive BuilderFocusTarget :=
| focus_palette (t : OverviewWidgetType)
| focus_widget (id : ustring).

(** The state of the workspace: the provider it writes to, the builder when it is
    open, the dashboard whose deletion is being confirmed, the message of the last
    placement, the palette item being dragged, the pending focus, whether the
    settings dialog is open, and whether the screen is wide enough to edit. *)
Record Workspace := mkWorkspace {
  ws_provider : Provider;
  ws_builder : option BuilderState;
  ws_deleteTarget : option CustomOverviewDashboard;
  ws_issue : option PlacementIssue;
  ws_dragged : option OverviewWidgetType;
  ws_focus : option BuilderFocusTarget;
  ws_settings : bool;
  ws_editing : bool;
}.

Definition set_builder (b : option BuilderState) (s : Workspace) : Workspace :=
  mkWorkspace (ws_provider s) b (ws_deleteTarget s) (ws_issue s) (ws_dragged s) (ws_focus s) (ws_settings s) (ws_editing s).
Definition set_provider (p : Provider) (s : Workspace) : Workspace :=
  mkWorkspace p (ws_builder s) (ws_deleteTarget s) (ws_issue s) (ws_dragged s) (ws_focus s) (ws_settings s) (ws_editing s).
Definition set_deleteTarget (d : option CustomOverviewDashboard) (s : Workspace) : Workspace :=
  mkWorkspace (ws_provider s) (ws_builder s) d (ws_issue s) (ws_dragged s) (ws_focus s) (ws_settings s) (ws_editing s).
Definition set_issue (i : option PlacementIssue) (s : Workspace) : Workspace :=
  mkWorkspace (ws_provider s) (ws_builder s) (ws_deleteTarget s) i (ws_dragged s) (ws_focus s) (ws_settings s) (ws_editing s).
Definition set_dragged (t : option OverviewWidgetType) (s : Workspace) : Workspace :=
  mkWorkspace (ws_provider s) (ws_builder s) (ws_deleteTarget s) (ws_issue s) t (ws_focus s) (ws_settings s) (ws_editing s).
Definition set_focus (f : option BuilderFocusTarget) (s : Workspace) : Workspace :=
  mkWorkspace (ws_provider s) (ws_builder s) (ws_deleteTarget s) (ws_issue s) (ws_dragged s) f (ws_settings s) (ws_editing s).
Definition set_settings (open : bool) (s : Workspace) : Workspace :=
  mkWorkspace (ws_provider s) (ws_builder s) (ws_deleteTarget s) (ws_issue s) (ws_dragged s) (ws_focus s) open (ws_editing s).
Definition set_editing (e : bool) (s : Workspace) : Workspace :=
  mkWorkspace (ws_provider s) (ws_builder s) (ws_deleteTarget s) (ws_issue s) (ws_dragged s) (ws_focus s) (ws_settings s) e.

(** Opening the builder mounts it with no issue, nothing dragged and no pending
    focus, and closes the settings dialog. *)
Definition mount_builder (b : BuilderState) (s : Workspace) : Workspace :=
  set_settings false (set_focus None (set_dragged None (set_issue None (set_builder (Some b) s)))).

Definition openNewDashboard (s : Workspace) : Workspace :=
  if ws_editing s then mount_builder (mkBuilder None [] []) s else s.

Definition openExistingDashboard (s : Workspace) : Workspace :=
  match ws_editing s, activeDashboard (ws_provider s) with
  | true, Some d => mount_builder (mkBuilder (Some (dash_id d)) (dash_name d) (dash_widgets d)) s
  | _, _ => s
  end.

Definition onCancel (s : Workspace) : Workspace := set_builder None s.

Definition onSave (userId : Z) (random : ustring) (now : Z) (s : Workspace) : Workspace :=
  if ws_editing s then
    match ws_builder s with
    | Some b =>
      let name := trim (b_name b) in
      if truthy name && match b_widgets b with [] => false | _ => true end then
        let p := ws_provider s in
        let p' := if truthy_opt (b_dashboardId b)
                  then updateDashboard userId now (default [] (b_dashboardId b)) name (b_widgets b) p
                  else (createDashboard userId random now name (b_widgets b) p).2 in
        set_builder None (set_provider p' s)
      else s
    | None => s
    end
  else s.

Definition onNameChange (name : ustring) (s : Workspace) : Workspace :=
  match ws_builder s with
  | Some b => set_builder (Some (mkBuilder (b_dashboardId b) name (b_widgets b))) s
  | None => s
  end.

Definition set_widgets (ws : list CustomDashboardWidget) (b : BuilderState) (s : Workspace) : Workspace :=
  set_builder (Some (mkBuilder (b_dashboardId b) (b_name b) ws)) s.

(** [addWidget(type, position?)] *)
Definition addWidget (random : ustring) (t : OverviewWidgetType) (position : option LayoutItem)
  (s : Workspace) : option Workspace :=
  match ws_editing s, ws_builder s with
  | true, Some b =>
    let s := set_dragged None s in
    if has_type (b_widgets b) t then Some (set_issue (Some duplicate) s)
    else
      e ← match position with
          | Some p => applyDroppedWidget random (b_widgets b) t p
          | None => tryAddOverviewWidget random (b_widgets b) t
          end;
      Some (match e with
            | Same => set_issue (Some space) s
            | New ws =>
              set_widgets ws b
                (set_focus (match last ws with Some w => Some (focus_widget (uid w)) | None => ws_focus s end)
                   (set_issue None s))
            end)
  | _, _ => Some s
  end.

Definition onRemove (id : ustring) (s : Workspace) : Workspace :=
  match ws_builder s with
  | Some b =>
    set_widgets (js_filter (λ w, negb (bool_decide (uid w = id))) (b_widgets b)) b
      (set_issue None
         (set_focus (match js_find (λ w, bool_decide (uid w = id)) (b_widgets b) with
                     | Some removed => Some (focus_palette (wtype removed))
                     | None => ws_focus s
                     end) s))
  | None => s
  end.

Definition onWidgetsChange (ws : list CustomDashboardWidget) (s : Workspace) : Workspace :=
  match ws_builder s with
  | Some b => set_widgets ws b (set_issue None s)
  | None => s
  end.

(** The grid's drag or resize ended: [commitLayout]. *)
Definition commitLayout (layout : list LayoutItem) (s : Workspace) : option Workspace :=
  match ws_editing s, ws_builder s with
  | true, Some b => ws ← applyGridLayout (b_widgets b) layout; Some (onWidgetsChange ws s)
  | _, _ => Some s
  end.

Definition handleWidgetKeyboardAdjustment (id key : ustring) (shiftKey : bool) (s : Workspace)
  : option Workspace :=
  match ws_editing s, ws_builder s with
  | true, Some b =>
    if isKeyboardAdjustmentKey key then
      e ← applyKeyboardWidgetAdjustment (b_widgets b) id key shiftKey;
      Some (match e with Same => s | New ws => onWidgetsChange ws s end)
    else Some s
  | _, _ => Some s
  end.

(** [onDrop] of the grid: the dragged palette item lands at the item's place. *)
Definition onDrop (random : ustring) (item : option LayoutItem) (s : Workspace) : option Workspace :=
  match ws_dragged s, item with
  | Some t, Some p => addWidget random t (Some p) s
  | _, _ => Some s
  end.

(** An element is rendered: it takes the focus that was waiting for it. *)
Definition registerPaletteButton (t : OverviewWidgetType) (s : Workspace) : Workspace :=
  match ws_focus s with
  | Some (focus_palette t') => if decide (t' = t) then set_focus None s else s
  | _ => s
  end.
Definition registerWidgetHandle (id : ustring) (s : Workspace) : Workspace :=
  match ws_focus s with
  | Some (focus_widget id') => if decide (id' = id) then set_focus None s else s
  | _ => s
  end.

Definition startPaletteDrag (t : OverviewWidgetType) (s : Workspace) : Workspace := set_dragged (Some t) s.

(** The settings dialog's selector closes the builder. *)
Definition onSelect (userId : Z) (id : ustring) (s : Workspace) : Workspace :=
  set_builder None (set_provider (selectDashboard userId id (ws_provider s)) s).

Definition askDelete (s : Workspace) : Workspace :=
  match activeDashboard (ws_provider s) with
  | Some d => set_deleteTarget (Some d) (set_settings false s)
  | None => s
  end.

Definition confirmDelete (userId : Z) (s : Workspace) : Workspace :=
  set_deleteTarget None
    (match ws_deleteTarget s, ws_editing s with
     | Some target, true =>
       let s' := set_provider (deleteDashboard userId (dash_id target) (ws_provider s)) s in
       if bool_decide (ws_builder s ≫= b_dashboardId = Some (dash_id target)) then set_builder None s' else s'
     | _, _ => s
     end).

Definition sample_layout : list CustomDashboardWidget :=
  [mkWidget (u! "a") kpi_alerts (mkRect 0 0 3 2); mkWidget (u! "b") alert_severity (mkRect 3 0 4 7)].

Example keyboard_blocked :
  applyKeyboardWidgetAdjustment sample_layout (u! "a") (u! "ArrowRight") false = Some Same.
Proof. vm_compute. reflexivity. Qed.
Example keyboard_moves :
  applyKeyboardWidgetAdjustment sample_layout (u! "b") (u! "ArrowRight") false =
  Some (New [mkWidget (u! "a") kpi_alerts (mkRect 0 0 3 2); mkWidget (u! "b") alert_severity (mkRect 4 0 4 7)]).
Proof. vm_compute. reflexivity. Qed.

(** ** Editing keeps a layout well formed *)

Lemma clampGridInteger_bounds v lo hi f : lo ≤ hi → lo ≤ clampGridInteger v lo hi f ≤ hi.
Proof. intros. unfold clampGridInteger. destruct v; by apply clamp_bounds. Qed.

(** Whatever numbers the grid reports, the widget comes back within bounds. *)
Lemma normalizeGridWidget_spec widget item :
  ∃ w', normalizeGridWidget widget item = Some w' ∧
        uid w' = uid widget ∧ wtype w' = wtype widget ∧ widget_ok w'.
Proof.
  unfold normalizeGridWidget.
  destruct (widgetDefinition_total (wtype widget)) as (d & Hd & _ & Hok). rewrite Hd.
  cbn [mbind option_bind]. eexists. split; [done|]. cbn [uid wtype]. split_and!; [done..|].
  unfold definition_ok, OVERVIEW_GRID_COLUMNS, OVERVIEW_GRID_MAX_ROWS in *.
  set (w := clampGridInteger (li_w item) _ _ _).
  assert (minW d ≤ w ≤ Z.min (maxW d) 12) as Hw by (apply clampGridInteger_bounds; lia).
  set (h := clampGridInteger (li_h item) _ _ _).
  assert (minH d ≤ h ≤ Z.min (maxH d) 256) as Hh by (apply clampGridInteger_bounds; lia).
  clearbody w h.
  pose proof (clampGridInteger_bounds (li_x item) 0 (12 - w) (rx (wrect widget)) ltac:(lia)).
  pose proof (clampGridInteger_bounds (li_y item) 0 (256 - h) (ry (wrect widget)) ltac:(lia)).
  split; cbn [wrect wtype].
  - unfold in_grid, OVERVIEW_GRID_COLUMNS, OVERVIEW_GRID_MAX_ROWS. cbn [rx ry rw rh]. lia.
  - exists d. cbn [rw rh]. split; [done|lia].
Qed.

Lemma createOverviewWidget_spec random t :
  ∃ w, createOverviewWidget random t = Some w ∧ wtype w = t ∧
       uid w = createOverviewId (u! "widget") random ∧ widget_ok w.
Proof.
  unfold createOverviewWidget. destruct (widgetDefinition_total t) as (d & Hd & _ & Hok).
  rewrite Hd. eexists. split; [done|]. cbn [uid wtype]. split_and!; [done..|].
  unfold definition_ok, OVERVIEW_GRID_COLUMNS, OVERVIEW_GRID_MAX_ROWS in *.
  split; cbn [wrect wtype].
  - unfold in_grid, OVERVIEW_GRID_COLUMNS, OVERVIEW_GRID_MAX_ROWS. cbn [rx ry rw rh]. lia.
  - exists d. cbn [rw rh]. split; [done|lia].
Qed.

Lemma find_default r rs :
  findAvailableOverviewWidgetPosition r rs None =
  findAvailableOverviewWidgetPosition r rs (Some (createOverviewGridOccupancy rs)).
Proof. done. Qed.

Lemma widgetsDoNotOverlap_true ws : widgetsDoNotOverlap ws = true ↔ no_overlap ws.
Proof.
  unfold no_overlap. induction ws as [|a ws IH]; simpl; [by split; [constructor|]|].
  rewrite andb_true_iff, IH, forallb_elem. split.
  - intros [Ha Hs]. constructor; [done|]. apply Forall_forall. intros b Hb.
    specialize (Ha b Hb). by breflect.
  - intros Hs. inversion_clear Hs as [|? ? Hs' Ha]. split; [|done]. rewrite Forall_forall in Ha.
    intros b Hb. by apply negb_true_iff, Ha.
Qed.

Lemma has_type_false ws t : has_type ws t = false → t ∉ wtype <$> ws.
Proof.
  unfold has_type. rewrite js_some_false. intros Hf (w & -> & Hw)%list_elem_of_fmap.
  specialize (Hf w Hw). by breflect.
Qed.

(** Placing a new widget, or leaving the layout alone when it does not fit. *)
Lemma place_new_ok ws w :
  layout_ok ws → widget_ok w → wtype w ∉ wtype <$> ws → uid w ∉ uid <$> ws →
  layout_ok (edited ws (place_new ws w)).
Proof.
  intros Hl Hw Ht Hu. unfold place_new. rewrite find_default.
  destruct (findAvailableOverviewWidgetPosition _ _ _) as [p|] eqn:Hf; [|done]. simpl.
  apply find_sound in Hf as [Hg Hd];
    [|apply createOverviewGridOccupancy_marks|apply widgets_positive, Hl].
  by apply layout_snoc.
Qed.

Lemma edited_place_new_uids ws w :
  edited ws (place_new ws w) = ws ∨ uid <$> edited ws (place_new ws w) = (uid <$> ws) ++ [uid w].
Proof.
  unfold place_new. destruct (findAvailableOverviewWidgetPosition _ _ _); [right|by left].
  simpl. by rewrite fmap_app.
Qed.

Lemma tryAdd_ok random ws t :
  layout_ok ws → createOverviewId (u! "widget") random ∉ uid <$> ws →
  ∃ e, tryAddOverviewWidget random ws t = Some e ∧ layout_ok (edited ws e) ∧
       (edited ws e = ws ∨ uid <$> edited ws e = (uid <$> ws) ++ [createOverviewId (u! "widget") random]).
Proof.
  intros Hl Hu. unfold tryAddOverviewWidget. destruct (has_type ws t) eqn:Et; [by exists Same; auto|].
  destruct (createOverviewWidget_spec random t) as (w & -> & Hwt & Hwu & Hw).
  cbn [mbind option_bind]. exists (place_new ws w). split; [done|]. split.
  - apply place_new_ok; [done|done|rewrite Hwt; by apply has_type_false|by rewrite Hwu].
  - rewrite <- Hwu. apply edited_place_new_uids.
Qed.

Lemma applyDropped_ok random ws t item :
  layout_ok ws → createOverviewId (u! "widget") random ∉ uid <$> ws →
  ∃ e, applyDroppedWidget random ws t item = Some e ∧ layout_ok (edited ws e) ∧
       (edited ws e = ws ∨ uid <$> edited ws e = (uid <$> ws) ++ [createOverviewId (u! "widget") random]).
Proof.
  intros Hl Hu. unfold applyDroppedWidget. destruct (has_type ws t) eqn:Et; [by exists Same; auto|].
  destruct (createOverviewWidget_spec random t) as (w0 & -> & Hwt & Hwu & _). cbn [mbind option_bind].
  destruct (normalizeGridWidget_spec w0 item) as (w & -> & Hu' & Ht' & Hw). cbn [mbind option_bind].
  rewrite <- Hu' in Hwu. rewrite <- Ht' in Hwt. exists (place_new ws w). split; [done|]. split.
  - apply place_new_ok; [done|done|rewrite Hwt; by apply has_type_false|by rewrite Hwu].
  - rewrite <- Hwu. apply edited_place_new_uids.
Qed.

Lemma layout_sublist ws ws' : ws' `sublist_of` ws → layout_ok ws → layout_ok ws'.
Proof.
  intros Hsub [H1 H2 H3 H4]. split.
  - rewrite Forall_forall in *. intros w Hw. apply H1. by eapply elem_of_sublist.
  - eapply sublist_NoDup; [exact H2|]. by apply fmap_sublist.
  - eapply sublist_NoDup; [exact H3|]. by apply fmap_sublist.
  - unfold no_overlap in *. clear H1 H2 H3. induction Hsub as [|a l1 l2 Hsub IH|a l1 l2 Hsub IH].
    + constructor.
    + inversion_clear H4 as [|? ? Hs Ha]. constructor; [by apply IH|].
      rewrite Forall_forall in *. intros w Hw. apply Ha. by eapply elem_of_sublist.
    + inversion_clear H4. by apply IH.
Qed.

Lemma repair_ok rest acc ws :
  layout_ok acc → Forall widget_ok rest →
  NoDup (wtype <$> acc ++ rest) → NoDup (uid <$> acc ++ rest) →
  repair acc rest = Some ws → layout_ok ws ∧ uid <$> ws = uid <$> acc ++ rest ∧ wtype <$> ws = wtype <$> acc ++ rest.
Proof.
  revert acc. induction rest as [|w rest IH]; intros acc Hl Hok Ht Hu; simpl.
  { intros [= <-]. by rewrite app_nil_r. }
  rewrite find_default. destruct (findAvailableOverviewWidgetPosition _ _ _) as [p|] eqn:Hf; [|done].
  apply Forall_cons in Hok as [Hw Hok].
  apply find_sound in Hf as [Hg Hd];
    [|apply createOverviewGridOccupancy_marks|apply widgets_positive, Hl].
  assert (wtype w ∉ wtype <$> acc ∧ uid w ∉ uid <$> acc) as [Hwt Hwu].
  { rewrite fmap_app in Ht. rewrite fmap_app in Hu. csimpl in Ht. csimpl in Hu.
    apply NoDup_app in Ht as (_ & Ht & _), Hu as (_ & Hu & _).
    split; intros Hi; [apply (Ht _ Hi)|apply (Hu _ Hi)]; apply elem_of_cons; auto. }
  assert (uid <$> (acc ++ [placed w p]) ++ rest = uid <$> acc ++ w :: rest) as Eu
    by (by rewrite <- app_assoc, !fmap_app).
  assert (wtype <$> (acc ++ [placed w p]) ++ rest = wtype <$> acc ++ w :: rest) as Et
    by (by rewrite <- app_assoc, !fmap_app).
  intros Hr. destruct (IH (acc ++ [placed w p])) as (H1 & H2 & H3);
    [by apply layout_snoc|done|by rewrite Et|by rewrite Eu|done|].
  by rewrite H2, H3, Eu, Et.
Qed.

Lemma normalize_items positions ws :
  Forall widget_ok ws →
  ∃ ns, mapM (normalize_item positions) ws = Some ns ∧ Forall widget_ok ns ∧
        uid <$> ns = uid <$> ws ∧ wtype <$> ns = wtype <$> ws.
Proof.
  induction ws as [|w ws IH]; intros Hok; [by exists []|].
  apply Forall_cons in Hok as [Hw Hok]. destruct (IH Hok) as (ns & Hm & Hns & Hu & Ht).
  assert (∃ n, normalize_item positions w = Some n ∧ widget_ok n ∧ uid n = uid w ∧ wtype n = wtype w)
    as (n & Hn & Hnok & Hnu & Hnt).
  { unfold normalize_item. destruct (map_get _ positions) as [item|]; [|by exists w].
    destruct (normalizeGridWidget_spec w item) as (n & ? & ? & ? & ?). by exists n. }
  exists (n :: ns). rewrite mapM_Some in Hm. rewrite mapM_Some. csimpl.
  split_and!; [by constructor|by constructor|by rewrite Hnu, Hu|by rewrite Hnt, Ht].
Qed.

(** A drag or resize keeps the widgets and yields a well-formed layout. *)
Lemma applyGridLayout_ok ws layout :
  layout_ok ws →
  ∃ ws', applyGridLayout ws layout = Some ws' ∧ layout_ok ws' ∧
         uid <$> ws' = uid <$> ws ∧ wtype <$> ws' = wtype <$> ws.
Proof.
  intros Hl. unfold applyGridLayout.
  destruct (normalize_items (map_of (map (λ item, (li_i item, item)) layout)) ws (lo_widgets _ Hl))
    as (ns & -> & Hok & Hu & Ht). cbn [mbind option_bind].
  eexists. split; [done|].
  destruct (widgetsDoNotOverlap ns) eqn:E.
  - apply widgetsDoNotOverlap_true in E. split_and!; [|done..].
    split; [done|rewrite Ht; apply Hl|rewrite Hu; apply Hl|done].
  - destruct (repair [] ns) as [rs|] eqn:Hr; [|done]. simpl.
    apply repair_ok in Hr as (H1 & H2 & H3); [|by split; constructor|done|..]; simpl in *.
    + by rewrite H2, H3.
    + rewrite Ht. apply Hl.
    + rewrite Hu. apply Hl.
Qed.

(** ** Keyboard *)

Lemma adjust_ok d key resize r :
  definition_ok d → in_grid r → minW d ≤ rw r ≤ maxW d → minH d ≤ rh r ≤ maxH d →
  in_grid (adjust d key resize r) ∧
  minW d ≤ rw (adjust d key resize r) ≤ maxW d ∧ minH d ≤ rh (adjust d key resize r) ≤ maxH d.
Proof.
  unfold definition_ok, in_grid, adjust, OVERVIEW_GRID_COLUMNS, OVERVIEW_GRID_MAX_ROWS.
  intros. destruct resize; repeat case_decide; cbn [rx ry rw rh]; lia.
Qed.

Definition replace_widget (id : ustring) (a : CustomDashboardWidget) (ws : list CustomDashboardWidget)
  : list CustomDashboardWidget :=
  map (λ c, if bool_decide (uid c = id) then a else c) ws.

Lemma replace_uids id a ws : uid a = id → uid <$> replace_widget id a ws = uid <$> ws.
Proof.
  intros Ha. induction ws as [|w ws IH]; csimpl; [done|]. rewrite IH. f_equal.
  case_bool_decide; congruence.
Qed.

Lemma replace_types id a ws :
  (∀ c, c ∈ ws → uid c = id → wtype c = wtype a) → wtype <$> replace_widget id a ws = wtype <$> ws.
Proof.
  intros Ha. induction ws as [|w ws IH]; csimpl; [done|]. rewrite IH.
  - f_equal. case_bool_decide as E; [|done]. symmetry. apply Ha; [apply elem_of_cons; auto|done].
  - intros c Hc. apply Ha, elem_of_cons. auto.
Qed.

Lemma replace_no_overlap id a ws :
  NoDup (uid <$> ws) → no_overlap ws →
  (∀ c, c ∈ ws → uid c ≠ id → overviewWidgetsOverlap (wrect a) (wrect c) = false) →
  no_overlap (replace_widget id a ws).
Proof.
  unfold no_overlap. induction ws as [|w ws IH]; csimpl; [done|].
  intros [Hw Hnd]%NoDup_cons Hs Ha. inversion_clear Hs as [|? ? Hs' Hww].
  assert (Ha' : ∀ c, c ∈ ws → uid c ≠ id → overviewWidgetsOverlap (wrect a) (wrect c) = false)
    by (intros c Hc; apply Ha, elem_of_cons; auto).
  constructor; [by apply IH|]. apply Forall_fmap, Forall_forall. intros c Hc. simpl.
  rewrite Forall_forall in Hww. case_bool_decide as E1; case_bool_decide as E2.
  - exfalso. apply Hw. rewrite E1, <- E2. apply list_elem_of_fmap. by exists c.
  - by apply Ha'.
  - rewrite overlap_sym. apply Ha; [apply elem_of_cons; auto|done].
  - by apply Hww.
Qed.

(** A key press keeps the layout well formed and moves at most one widget. *)
Lemma applyKeyboard_ok ws id key resize :
  layout_ok ws →
  ∃ e, applyKeyboardWidgetAdjustment ws id key resize = Some e ∧ layout_ok (edited ws e) ∧
       uid <$> edited ws e = uid <$> ws ∧
       (∀ c, c ∈ edited ws e → uid c ≠ id → c ∈ ws).
Proof.
  intros Hl. unfold applyKeyboardWidgetAdjustment.
  destruct (js_find _ ws) as [w|] eqn:Ef; [|by exists Same].
  apply js_find_Some in Ef as [Hw Hid]. breflect.
  destruct (isKeyboardAdjustmentKey key); [|by exists Same].
  pose proof (lo_widgets _ Hl) as Hok. rewrite Forall_forall in Hok.
  destruct (Hok w Hw) as [Hg (d & Hd & Hsz)]. rewrite Hd. cbn [mbind option_bind].
  destruct (widgetDefinition_ok _ _ Hd) as [_ Hdok].
  eexists. split; [done|]. cbn [wrect]. case_decide; [done|].
  destruct (js_some _ ws) eqn:Eo; [done|]. cbn [edited].
  set (a := mkWidget (uid w) (wtype w) (adjust d key resize (wrect w))).
  change (map _ ws) with (replace_widget id a ws).
  assert (Hua : uid a = id) by done.
  destruct (adjust_ok d key resize (wrect w) Hdok Hg) as (Hg' & Hsz'); [apply Hsz..|].
  split_and!; [split|by apply replace_uids|].
  - apply Forall_fmap, Forall_forall. intros c Hc. simpl. case_bool_decide; [|by apply Hok].
    split; [done|]. by exists d.
  - rewrite replace_types; [apply Hl|]. intros c Hc Hcu.
    assert (c = w) as ->; [|done].
    pose proof (lo_uids _ Hl) as Hnd. apply list_elem_of_lookup in Hc as [i Hi], Hw as [j Hj].
    assert (i = j) as ->; [|congruence].
    apply (NoDup_lookup (uid <$> ws) i j id Hnd); rewrite list_lookup_fmap; [by rewrite Hi, <- Hcu|by rewrite Hj, <- Hid].
  - rewrite replace_uids by done. apply Hl.
  - apply replace_no_overlap; [apply Hl|apply Hl|]. intros c Hc Hcu.
    rewrite js_some_false in Eo. specialize (Eo c Hc).
    rewrite (bool_decide_eq_false_2 _ Hcu) in Eo. exact Eo.
  - intros c Hc Hcu. apply list_elem_of_In, in_map_iff in Hc as (c' & <- & Hc').
    apply list_elem_of_In in Hc'. case_bool_decide; [|done]. by rewrite Hua in Hcu.
Qed.

(** ** The workspace machine *)

(** The random part of an identifier: what a UUID or the fallback produces. *)
Definition random_ok (r : ustring) : Prop :=
  r ≠ [] ∧ (length r ≤ 100)%nat ∧ Forall (λ c, is_space c = false) r ∧ units r.

Lemma createOverviewId_stable prefix r n :
  random_ok r → Forall (λ c, is_space c = false) prefix → units prefix →
  (length prefix + 101 ≤ n)%nat → stable_text n (createOverviewId prefix r).
Proof.
  intros (Hne & Hlen & Hsp & Hu) Hp Hpu Hn. unfold createOverviewId. split_and!.
  - split; [by destruct prefix|]. rewrite !length_app.
    change (length (u! "-")) with 1%nat. lia.
  - apply trim_no_space. rewrite !Forall_app. split_and!; try done. by repeat constructor.
  - apply units_app; [done|]. apply units_app; [|done]. by repeat constructor.
Qed.

Section workspace.
(** [exact_texts]: the storage works, and the dashboards it had were ones that reading
    leaves alone. *)
Context `{DateHost} (userId : Z) (exact_texts : Prop).

Definition builder_ok (b : BuilderState) : Prop :=
  layout_ok (b_widgets b) ∧ Forall (λ w, text_ok 160 (uid w)) (b_widgets b) ∧ (length (b_name b) ≤ 80)%nat ∧
  (exact_texts → Forall stable_widget (b_widgets b) ∧ units (b_name b)).

(** One user action in manage mode. The name field holds at most 80 units; a
    random identifier is fresh; the clock is a time value. *)
Inductive workspace_step : Workspace → Workspace → Prop :=
| ws_new s : ws_builder s = None → workspace_step s (openNewDashboard s)
| ws_edit s : ws_builder s = None → workspace_step s (openExistingDashboard s)
| ws_cancel s : workspace_step s (onCancel s)
| ws_save s random now :
    random_ok random → Z.abs now ≤ max_time →
    createOverviewId (u! "dashboard") random ∉ dash_id <$> dashboards (p_state (ws_provider s)) →
    workspace_step s (onSave userId random now s)
| ws_name s name : units name → (length name ≤ 80)%nat → workspace_step s (onNameChange name s)
| ws_add s random t position s' :
    random_ok random →
    (∀ b, ws_builder s = Some b → createOverviewId (u! "widget") random ∉ uid <$> b_widgets b) →
    addWidget random t position s = Some s' → workspace_step s s'
| ws_drop s random item s' :
    random_ok random →
    (∀ b, ws_builder s = Some b → createOverviewId (u! "widget") random ∉ uid <$> b_widgets b) →
    onDrop random item s = Some s' → workspace_step s s'
| ws_palette s t : workspace_step s (registerPaletteButton t s)
| ws_handle s id : workspace_step s (registerWidgetHandle id s)
| ws_settings_toggle s open : workspace_step s (set_settings open s)
| ws_remove s id : workspace_step s (onRemove id s)
| ws_grid s layout s' : commitLayout layout s = Some s' → workspace_step s s'
| ws_key s id key shift s' :
    handleWidgetKeyboardAdjustment id key shift s = Some s' → workspace_step s s'
| ws_drag s t : workspace_step s (startPaletteDrag t s)
| ws_dragend s : workspace_step s (set_dragged None s)
| ws_select s id : ws_builder s = None → workspace_step s (onSelect userId id s)
| ws_ask s : ws_builder s = None → workspace_step s (askDelete s)
| ws_keep s : workspace_step s (set_deleteTarget None s)
| ws_delete s : workspace_step s (confirmDelete userId s)
| ws_resize_screen s editing :
    workspace_step s (set_editing editing s).

Record workspace_ok (s : Workspace) : Prop := {
  wo_store : store_ok (dashboards (p_state (ws_provider s)));
  wo_active : active_ok (p_state (ws_provider s));
  wo_builder : ∀ b, ws_builder s = Some b → builder_ok b;
  wo_saved : exact_texts → stable_store (dashboards (p_state (ws_provider s))) ∧ working (p_storage (ws_provider s)) ∧
    readOverviewLayoutState userId (p_storage (ws_provider s)) = p_state (ws_provider s);
}.

(** Handlers that leave the provider alone. *)
Lemma ok_same_provider s s' :
  workspace_ok s → ws_provider s' = ws_provider s →
  (∀ b, ws_builder s' = Some b → builder_ok b) → workspace_ok s'.
Proof. intros [H1 H2 _ H4] Hp Hb. constructor; by rewrite ?Hp. Qed.

(** Handlers that make the provider take a step. *)
Lemma ok_provider_step s p' b :
  workspace_ok s → provider_step userId exact_texts (ws_provider s) p' → ws_builder s = b ∨ b = None →
  workspace_ok (set_builder b (set_provider p' s)).
Proof.
  intros [H1 H2 H3 H4] Hstep Hb. destruct (step_ok userId exact_texts _ _ (conj H1 H2) Hstep) as [Hs Ha].
  constructor; cbn [set_builder set_provider ws_provider ws_builder]; [done|done|..].
  - intros b' Hb'. destruct Hb as [Hb|Hb]; [apply H3; congruence|congruence].
  - intros He. destruct (H4 He) as (Hst & Hw & _). split; [exact (step_stable userId exact_texts _ _ He Hst Hstep)|].
    by apply (step_persists userId exact_texts _ _ He Hw Hst H2).
Qed.

Lemma widgets_ok b ws s s' :
  workspace_ok s → ws_builder s = Some b → layout_ok ws → Forall (λ w, text_ok 160 (uid w)) ws →
  (exact_texts → Forall stable_widget ws) → ws_provider s' = ws_provider s → workspace_ok (set_widgets ws b s').
Proof.
  intros Hs Hb Hl Hok Hst Hp. eapply ok_same_provider; [exact Hs|done|].
  intros b' [= <-]. destruct (wo_builder _ Hs b Hb) as (_ & _ & Hlen & Hn).
  split_and!; [done..|]. intros He. split; [by apply Hst|by apply Hn].
Qed.

Lemma by_uids (good : ustring → Prop) ws ws' :
  (∀ i, i ∈ uid <$> ws' → i ∈ uid <$> ws) → Forall (λ w, good (uid w)) ws → Forall (λ w, good (uid w)) ws'.
Proof.
  intros Hu Hs. rewrite Forall_forall in *. intros w Hw.
  destruct (proj1 (list_elem_of_fmap uid ws (uid w)) (Hu _ (list_elem_of_fmap_2 uid _ _ Hw)))
    as (w0 & He & Hw0).
  rewrite He. by apply Hs.
Qed.

Lemma trim_infix s : ∃ a b, s = a ++ trim s ++ b.
Proof.
  destruct (trim_start_suffix s) as (a & Ha & _). destruct (trim_end_prefix (trim_start s)) as (b & Hb).
  exists a, b. unfold trim. by rewrite <- Hb.
Qed.

Lemma trim_text_ok n s : (length s ≤ n)%nat → truthy (trim s) = true → text_ok n (trim s).
Proof.
  intros Hlen Ht. apply truthy_true in Ht. destruct (trim_infix s) as (a & b & E).
  split; [done|]. rewrite E, !length_app in Hlen. lia.
Qed.

Lemma trim_units s : units s → units (trim s).
Proof.
  intros Hu. destruct (trim_infix s) as (a & b & E). rewrite E in Hu. unfold units in *. rewrite !Forall_app in Hu. apply Hu.
Qed.

Lemma onSave_ok random now s :
  random_ok random → Z.abs now ≤ max_time →
  createOverviewId (u! "dashboard") random ∉ dash_id <$> dashboards (p_state (ws_provider s)) →
  workspace_ok s → workspace_ok (onSave userId random now s).
Proof.
  intros Hr Hnow Hf Hs. unfold onSave. destruct (ws_editing s); [|done].
  destruct (ws_builder s) as [b|] eqn:Hb; [|done]. cbv zeta.
  destruct (truthy (trim (b_name b)) && _) eqn:E; [|done].
  apply andb_true_iff in E as [En Ew].
  destruct (wo_builder _ Hs b Hb) as (Hl & Hok & Hlen & Hst).
  assert (submission_ok exact_texts (trim (b_name b)) (b_widgets b)).
  { split_and!; [rewrite trim_idemp; by apply trim_text_ok|by destruct (b_widgets b)|done..|].
    intros He. destruct (Hst He). rewrite trim_idemp. split; [by apply trim_units|done]. }
  apply ok_provider_step; [done| |by right].
  destruct (truthy_opt (b_dashboardId b)).
  - by apply step_update.
  - apply step_create; [done..| |done]. by apply createOverviewId_stable; [|repeat constructor..|vm_compute; lia].
Qed.

Lemma openExisting_ok s : workspace_ok s → workspace_ok (openExistingDashboard s).
Proof.
  intros Hs. unfold openExistingDashboard. destruct (ws_editing s); [|done].
  destruct (activeDashboard (ws_provider s)) as [d|] eqn:Ha; [|done].
  eapply ok_same_provider; [exact Hs|done|]. intros b [= <-].
  apply js_find_Some in Ha as [Hd _]. destruct (wo_store _ Hs) as [_ Hst].
  rewrite Forall_forall in Hst. destruct (Hst d Hd) as [_ Hn _ Hl Hw _ _].
  split_and!; [done|done|apply Hn|]. intros He. destruct (wo_saved _ Hs He) as ([_ Hsd] & _).
  rewrite Forall_forall in Hsd. destruct (Hsd d Hd) as (_ & _ & (_ & _ & Hu) & Hsw). done.
Qed.

Lemma addWidget_ok random t position s s' :
  random_ok random →
  (∀ b, ws_builder s = Some b → createOverviewId (u! "widget") random ∉ uid <$> b_widgets b) →
  addWidget random t position s = Some s' → workspace_ok s → workspace_ok s'.
Proof.
  intros Hr Hf Ha Hs. unfold addWidget in Ha. destruct (ws_editing s); [|naive_solver].
  destruct (ws_builder s) as [b|] eqn:Hb; [|naive_solver]. cbv zeta in Ha.
  destruct (wo_builder _ Hs b Hb) as (Hl & Hok & Hlen & Hst).
  assert (Hsame : ∀ i, workspace_ok (set_issue i (set_dragged None s))).
  { intros i. eapply ok_same_provider; [exact Hs|done|]. apply (wo_builder _ Hs). }
  destruct (has_type (b_widgets b) t); [injection Ha as <-; apply Hsame|].
  set (e := match position with Some _ => _ | None => _ end) in Ha.
  assert (∃ e', e = Some e' ∧ layout_ok (edited (b_widgets b) e') ∧
     (edited (b_widgets b) e' = b_widgets b ∨ uid <$> edited (b_widgets b) e'
        = (uid <$> b_widgets b) ++ [createOverviewId (u! "widget") random])) as (e' & He & Hl' & Hu).
  { subst e. destruct position; [apply applyDropped_ok|apply tryAdd_ok]; auto. }
  rewrite He in Ha. cbn [mbind option_bind] in Ha. injection Ha as <-.
  destruct e' as [|ws']; [apply Hsame|]. cbn [edited] in *.
  assert (stable_text 160 (createOverviewId (u! "widget") random)) as Hid
    by (by apply createOverviewId_stable; [|repeat constructor..|vm_compute; lia]).
  assert (∀ good : ustring → Prop, good (createOverviewId (u! "widget") random) → Forall (λ w, good (uid w)) (b_widgets b) →
    Forall (λ w, good (uid w)) ws') as Hall.
  { intros good Hg Hall. destruct Hu as [->|Hu]; [done|]. apply (Forall_fmap uid good). rewrite Hu.
    apply Forall_app. split; [by apply Forall_fmap|by apply Forall_singleton]. }
  eapply widgets_ok; [exact Hs|done..|apply (Hall (text_ok 160)); [apply Hid|done]| |done].
  intros Hx. apply (Hall (stable_text 160)); [done|by apply Hst].
Qed.

Lemma onWidgetsChange_ok b ws s :
  workspace_ok s → ws_builder s = Some b → layout_ok ws → uid <$> ws = uid <$> b_widgets b →
  workspace_ok (onWidgetsChange ws s).
Proof.
  intros Hs Hb Hl Hu. unfold onWidgetsChange. rewrite Hb. destruct (wo_builder _ Hs b Hb) as (_ & Hok & _ & Hst).
  eapply widgets_ok; [exact Hs|done..| | |done].
  - eapply (by_uids (text_ok 160)); [by rewrite Hu|done].
  - intros He. eapply (by_uids (stable_text 160)); [by rewrite Hu|by apply Hst].
Qed.

Lemma onRemove_ok id s : workspace_ok s → workspace_ok (onRemove id s).
Proof.
  intros Hs. unfold onRemove. destruct (ws_builder s) as [b|] eqn:Hb; [|done].
  destruct (wo_builder _ Hs b Hb) as (Hl & Hok & _ & Hst). eapply widgets_ok; [exact Hs|done..| | | |done].
  - eapply layout_sublist; [apply js_filter_sublist|done].
  - rewrite Forall_forall in *. intros w [Hw _]%js_filter_elem. by apply Hok.
  - intros He. destruct (Hst He) as [Hsw _]. rewrite Forall_forall in *. intros w [Hw _]%js_filter_elem. by apply Hsw.
Qed.

Lemma commitLayout_ok layout s s' : commitLayout layout s = Some s' → workspace_ok s → workspace_ok s'.
Proof.
  unfold commitLayout. intros Hc Hs. destruct (ws_editing s); [|naive_solver].
  destruct (ws_builder s) as [b|] eqn:Hb; [|naive_solver].
  destruct (applyGridLayout_ok (b_widgets b) layout) as (ws & He & Hl & Hu & _);
    [apply (wo_builder _ Hs b Hb)|].
  rewrite He in Hc. injection Hc as <-. by eapply onWidgetsChange_ok.
Qed.

Lemma keyboard_ok id key shift s s' :
  handleWidgetKeyboardAdjustment id key shift s = Some s' → workspace_ok s → workspace_ok s'.
Proof.
  unfold handleWidgetKeyboardAdjustment. intros Hc Hs. destruct (ws_editing s); [|naive_solver].
  destruct (ws_builder s) as [b|] eqn:Hb; [|naive_solver].
  destruct (isKeyboardAdjustmentKey key); [|naive_solver].
  destruct (applyKeyboard_ok (b_widgets b) id key shift) as (e & He & Hl & Hu & _);
    [apply (wo_builder _ Hs b Hb)|].
  rewrite He in Hc. injection Hc as <-. destruct e; [done|]. by eapply onWidgetsChange_ok.
Qed.

Lemma confirmDelete_ok s : workspace_ok s → workspace_ok (confirmDelete userId s).
Proof.
  intros Hs. unfold confirmDelete.
  set (s1 := match ws_deleteTarget s with Some _ => _ | None => _ end).
  assert (workspace_ok s1) as H1.
  { subst s1. destruct (ws_deleteTarget s) as [t|]; [|done]. destruct (ws_editing s); [|done]. cbv zeta.
    case_match; [apply ok_provider_step; [done|by apply step_delete|by right]|].
    apply (ok_provider_step s _ (ws_builder s)); [done|by apply step_delete|by left]. }
  eapply ok_same_provider; [exact H1|done|apply (wo_builder _ H1)].
Qed.

Lemma workspace_step_ok s s' : workspace_step s s' → workspace_ok s → workspace_ok s'.
Proof.
  assert (Hsame : ∀ t t', workspace_ok t → ws_provider t' = ws_provider t →
    ws_builder t' = ws_builder t → workspace_ok t').
  { intros t t' Ht Hp Hb. eapply ok_same_provider; [exact Ht|done|]. rewrite Hb. apply (wo_builder _ Ht). }
  intros [] Hs; try (by eapply Hsame; [exact Hs|..]).
  - unfold openNewDashboard. destruct (ws_editing _); [|done].
    eapply ok_same_provider; [exact Hs|done|]. intros b [= <-].
    split_and!; [by split; constructor|constructor|simpl; lia|by split; constructor].
  - by apply openExisting_ok.
  - by eapply ok_same_provider; [exact Hs|..].
  - by apply onSave_ok.
  - unfold onNameChange. destruct (ws_builder _) as [b|] eqn:Hb; [|done].
    eapply ok_same_provider; [exact Hs|done|]. intros b' [= <-].
    destruct (wo_builder _ Hs b Hb) as (? & ? & _ & Hst). split_and!; [done..|]. intros He. by destruct (Hst He).
  - by eapply addWidget_ok.
  - match goal with Hd : onDrop _ _ _ = Some _ |- _ => unfold onDrop in Hd; repeat case_match end;
      simplify_eq; try done; by eapply addWidget_ok.
  - unfold registerPaletteButton. repeat case_match; try done; by eapply Hsame; [exact Hs|..].
  - unfold registerWidgetHandle. repeat case_match; try done; by eapply Hsame; [exact Hs|..].
  - by apply onRemove_ok.
  - by eapply commitLayout_ok.
  - by eapply keyboard_ok.
  - apply ok_provider_step; [done|by apply step_select|by right].
  - unfold askDelete. case_match; [|done]. by eapply Hsame; [exact Hs|..].
  - by apply confirmDelete_ok.
Qed.

(** The workspace a page load starts from, and what its user can reach. *)
Definition open_workspace (editing : bool) (storage : Storage) : Workspace :=
  mkWorkspace (mount userId storage) None None None None None false editing.

Inductive workspace_reachable (storage : Storage) : Workspace → Prop :=
| wr_open editing : workspace_reachable storage (open_workspace editing storage)
| wr_step s s' : workspace_reachable storage s → workspace_step s s' → workspace_reachable storage s'.

Lemma workspace_reachable_ok storage s :
  workspace_ok (open_workspace false storage) → workspace_reachable storage s → workspace_ok s.
Proof.
  intros H0 Hr. induction Hr as [editing|s s' Hr IH Hstep]; [|by eapply workspace_step_ok].
  by eapply ok_same_provider; [exact H0|..].
Qed.

(** Every state the user reaches is in order, whatever the storage does and had. *)
Lemma workspace_reachable_always storage s :
  (exact_texts → working storage ∧ stable_store (dashboards (readOverviewLayoutState userId storage))) →
  workspace_reachable storage s → workspace_ok s.
Proof.
  intros He. apply workspace_reachable_ok. constructor; [apply read_state_ok|apply read_state_ok|done|].
  intros Hx. by destruct (He Hx).
Qed.
End workspace.

(** No handler throws in a well-formed workspace. *)
Lemma addWidget_total random t position s : is_Some (addWidget random t position s).
Proof.
  unfold addWidget. destruct (ws_editing s), (ws_builder s) as [b|]; try done. cbv zeta.
  destruct (has_type (b_widgets b) t) eqn:Et; [done|].
  destruct (createOverviewWidget_spec random t) as (w & Hc & _).
  destruct position as [p|]; unfold applyDroppedWidget, tryAddOverviewWidget; rewrite Et, Hc;
    cbn [mbind option_bind]; [|done].
  destruct (normalizeGridWidget_spec w p) as (w' & -> & _). done.
Qed.

Lemma handlers_total userId `{DateHost} exact_texts s :
  workspace_ok userId exact_texts s →
  (∀ layout, is_Some (commitLayout layout s)) ∧
  (∀ id key shift, is_Some (handleWidgetKeyboardAdjustment id key shift s)).
Proof.
  intros Hs. split; intros;
    unfold commitLayout, handleWidgetKeyboardAdjustment;
    destruct (ws_editing s), (ws_builder s) as [b|] eqn:Hb; try done;
    destruct (wo_builder _ _ _ Hs b Hb) as (Hl & _).
  - by destruct (applyGridLayout_ok (b_widgets b) layout Hl) as (ws & -> & _).
  - destruct (isKeyboardAdjustmentKey key); [|done].
    by destruct (applyKeyboard_ok (b_widgets b) id key shift Hl) as (e & -> & _).
Qed.

(** ** Claims *)

(** Finishing a drag or resize, whatever positions and sizes the grid library
    reports (fractions, negatives, infinities, NaN, missing or unknown items),
    keeps exactly the same widgets in the same order and gives a well-formed
    layout: legal sizes, inside the grid, no overlap. *)
Theorem applyGridLayout_preserves ws layout :
  layout_ok ws →
  ∃ ws', applyGridLayout ws layout = Some ws' ∧ layout_ok ws' ∧
         uid <$> ws' = uid <$> ws ∧ wtype <$> ws' = wtype <$> ws.
Proof. apply applyGridLayout_ok. Qed.

Lemma sample_layout_ok : layout_ok sample_layout.
Proof.
  split.
  - unfold sample_layout. apply Forall_cons. split; [|apply Forall_singleton];
      (split; [by_compute|]);
      eexists; (split; [reflexivity|]); vm_compute; intuition congruence.
  - apply (bool_decide_unpack _). by vm_compute.
  - apply (bool_decide_unpack _). by vm_compute.
  - apply widgetsDoNotOverlap_true. by vm_compute.
Qed.

Lemma applyGridLayout_preserves_witness :
  ∃ ws', applyGridLayout sample_layout [mkItem (u! "b") (Fin (inject_Z 0)) (Fin (Qmake 1 2)) NaN (Fin (inject_Z 99))] = Some ws' ∧ layout_ok ws'.
Proof.
  destruct (applyGridLayout_preserves sample_layout
    [mkItem (u! "b") (Fin (inject_Z 0)) (Fin (Qmake 1 2)) NaN (Fin (inject_Z 99))] sample_layout_ok) as (ws' & H1 & H2 & _).
  exists ws'. split; assumption.
Defined.

(** A key press on a widget never throws, keeps the layout well formed and
    its widgets in order, and touches no other widget; a move or resize that
    would overlap another widget is refused as a whole. *)
Theorem applyKeyboardWidgetAdjustment_preserves ws id key resize :
  layout_ok ws →
  ∃ e, applyKeyboardWidgetAdjustment ws id key resize = Some e ∧ layout_ok (edited ws e) ∧
       uid <$> edited ws e = uid <$> ws ∧
       (∀ c, c ∈ edited ws e → uid c ≠ id → c ∈ ws).
Proof. apply applyKeyboard_ok. Qed.

Lemma applyKeyboardWidgetAdjustment_preserves_witness :
  ∃ e, applyKeyboardWidgetAdjustment sample_layout (u! "b") (u! "ArrowDown") true = Some e ∧
       layout_ok (edited sample_layout e).
Proof.
  destruct (applyKeyboardWidgetAdjustment_preserves sample_layout (u! "b") (u! "ArrowDown") true
    sample_layout_ok) as (e & H1 & H2 & _). exists e. split; assumption.
Defined.

(** Adding a widget from the palette or dropping one at any position keeps
    the layout well formed; the new widget is appended or the layout is left
    exactly as it was. *)
Theorem adding_widgets_preserves random ws t position :
  layout_ok ws → createOverviewId (u! "widget") random ∉ uid <$> ws →
  ∃ e, match position with
       | Some item => applyDroppedWidget random ws t item
       | None => tryAddOverviewWidget random ws t
       end = Some e ∧ layout_ok (edited ws e) ∧
       (edited ws e = ws ∨
        uid <$> edited ws e = (uid <$> ws) ++ [createOverviewId (u! "widget") random]).
Proof. destruct position; [apply applyDropped_ok|apply tryAdd_ok]. Qed.

Lemma adding_widgets_preserves_witness :
  ∃ e, tryAddOverviewWidget (u! "z9") sample_layout incident_queue = Some e ∧
       layout_ok (edited sample_layout e).
Proof.
  destruct (adding_widgets_preserves (u! "z9") sample_layout incident_queue None sample_layout_ok)
    as (e & H1 & H2 & _); [by_compute|]. exists e. split; assumption.
Defined.

(** C2: In every state the dashboard workspace can reach (opening, editing,
    saving, cancelling, deleting, dragging, key presses, in any order), whatever
    the browser's storage does and whatever it holds, the layout under construction
    is well formed, the saved dashboards are well formed and the active one among
    them, and no handler throws. If moreover the storage works (nothing throws and
    what is written is kept) and the dashboards it held when the page was loaded
    had trimmed texts, then the saved dashboards read back from the storage are
    exactly those in memory. *)
Theorem workspace_reachable_invariant `{DateHost} userId storage s :
  workspace_reachable userId storage s →
  (∀ b, ws_builder s = Some b → layout_ok (b_widgets b)) ∧
  store_ok (dashboards (p_state (ws_provider s))) ∧ active_ok (p_state (ws_provider s)) ∧
  (∀ layout, is_Some (commitLayout layout s)) ∧
  (∀ id key shift, is_Some (handleWidgetKeyboardAdjustment id key shift s)) ∧
  (∀ random t position, is_Some (addWidget random t position s)) ∧
  (working storage → stable_store (dashboards (readOverviewLayoutState userId storage)) →
   readOverviewLayoutState userId (p_storage (ws_provider s)) = p_state (ws_provider s)).
Proof.
  intros Hr. set (exact_texts := working storage ∧ stable_store (dashboards (readOverviewLayoutState userId storage))).
  assert (workspace_ok userId exact_texts s) as Hok by by eapply workspace_reachable_always.
  destruct (handlers_total userId _ s Hok). pose proof Hok as [Hs Ha Hb Hsaved]. split_and!; try done.
  - intros b E. by apply Hb.
  - intros. apply addWidget_total.
  - intros Hw Hst. by destruct (Hsaved (conj Hw Hst)) as (_ & _ & ?).
Qed.

Definition sample_session : Workspace :=
  onNameChange (u! "Ops") (openNewDashboard (@open_workspace utc_host 7 true empty_storage)).

Lemma workspace_reachable_invariant_witness :
  @readOverviewLayoutState utc_host 7 (p_storage (ws_provider sample_session)) =
    p_state (ws_provider sample_session) ∧
  is_Some (addWidget (u! "z9") incident_queue None sample_session).
Proof.
  assert (@workspace_reachable utc_host 7 empty_storage sample_session) as Hr.
  { eapply wr_step; [eapply wr_step; [apply wr_open|apply ws_new; reflexivity]|apply ws_name; [|vm_compute; lia]].
    apply (bool_decide_unpack _). by vm_compute. }
  destruct (@workspace_reachable_invariant utc_host 7 empty_storage sample_session)
    as (_ & _ & _ & _ & _ & H2 & H1).
  - exact Hr.
  - split; [|apply H2]. apply H1; [exact empty_storage_working|split; constructor].
Defined.
