(* ===== verification/Url.v ===== *)
(** * URLSearchParams

    The part of the URL standard the client uses: query strings as lists of name
    and value pairs, with [application/x-www-form-urlencoded] parsing and
    serialising over UTF-8. Strings are UTF-16; like the browser, every name and
    value is converted to scalar values, lone surrogates becoming U+FFFD. *)

From S2P Require Import Prelude JsNumber.

(** ** Scalar values *)

Definition is_lead (c : Z) : bool := (55296 <=? c) && (c <=? 56319).
Definition is_trail (c : Z) : bool := (56320 <=? c) && (c <=? 57343).
Definition replacement : Z := 65533.

(** The code points of a string, lone surrogates replaced. *)
Fixpoint code_points (s : ustring) : list Z :=
  match s with
  | [] => []
  | c :: r =>
    if is_lead c then
      match r with
      | d :: r' =>
        if is_trail d then ((c - 55296) * 1024 + (d - 56320) + 65536) :: code_points r'
        else replacement :: code_points r
      | [] => [replacement]
      end
    else if is_trail c then replacement :: code_points r
    else c :: code_points r
  end.

(** Conversion to a [USVString]. *)
Definition usv (s : ustring) : ustring := utf16_encode (code_points s).

Definition scalar (cp : Z) : Prop := 0 ≤ cp < 1114112 ∧ ¬ (55296 ≤ cp ≤ 57343).
#[export] Instance scalar_dec cp : Decision (scalar cp).
Proof. unfold scalar. apply _. Defined.

(** A string without lone surrogates. *)
Definition well_formed (s : ustring) : Prop := ∃ cps, Forall scalar cps ∧ s = utf16_encode cps.

(** ** UTF-8 *)

Definition utf8_bytes (cp : Z) : list Z :=
  if cp <? 128 then [cp]
  else if cp <? 2048 then [192 + cp / 64; 128 + cp mod 64]
  else if cp <? 65536 then [224 + cp / 4096; 128 + cp / 64 mod 64; 128 + cp mod 64]
  else [240 + cp / 262144; 128 + cp / 4096 mod 64; 128 + cp / 64 mod 64; 128 + cp mod 64].

Definition utf8_encode (s : ustring) : list Z := flat_map utf8_bytes (code_points s).

(** The decoder of the Encoding standard: the code point so far, the number of
    bytes still needed, and the bounds of the next byte. *)
Record decoder := mkDecoder { d_cp : Z; d_needed : nat; d_lower : Z; d_upper : Z }.

Definition idle : decoder := mkDecoder 0 0 128 191.

Definition start_byte (b : Z) (k : decoder → list Z) : list Z :=
  if b <? 128 then b :: k idle
  else if (194 <=? b) && (b <=? 223) then k (mkDecoder (b - 192) 1 128 191)
  else if (224 <=? b) && (b <=? 239) then
    k (mkDecoder (b - 224) 2 (if b =? 224 then 160 else 128) (if b =? 237 then 159 else 191))
  else if (240 <=? b) && (b <=? 244) then
    k (mkDecoder (b - 240) 3 (if b =? 240 then 144 else 128) (if b =? 244 then 143 else 191))
  else replacement :: k idle.

Fixpoint decode_from (st : decoder) (bs : list Z) : list Z :=
  match bs with
  | [] => match d_needed st with O => [] | S _ => [replacement] end
  | b :: r =>
    match d_needed st with
    | O => start_byte b (λ st', decode_from st' r)
    | S needed =>
      if (d_lower st <=? b) && (b <=? d_upper st) then
        let cp := d_cp st * 64 + (b - 128) in
        match needed with
        | O => cp :: decode_from idle r
        | S _ => decode_from (mkDecoder cp needed 128 191) r
        end
      else replacement :: start_byte b (λ st', decode_from st' r)
    end
  end.

Definition utf8_decode_lossy (bs : list Z) : list Z := decode_from idle bs.

(** ** Form encoding *)

Definition hex_upper (n : Z) : Z := if n <? 10 then 48 + n else 55 + n.

Definition hex_of (c : Z) : option Z :=
  if (48 <=? c) && (c <=? 57) then Some (c - 48)
  else if (65 <=? c) && (c <=? 70) then Some (c - 55)
  else if (97 <=? c) && (c <=? 102) then Some (c - 87)
  else None.

(** The bytes a serialiser writes as they are: ASCII alphanumerics and [*-._]. *)
Definition form_safe (b : Z) : bool :=
  (48 <=? b) && (b <=? 57) || (65 <=? b) && (b <=? 90) || (97 <=? b) && (b <=? 122)
  || (b =? 42) || (b =? 45) || (b =? 46) || (b =? 95).

Definition form_byte (b : Z) : ustring :=
  if b =? 32 then [43] else if form_safe b then [b] else [37; hex_upper (b / 16); hex_upper (b mod 16)].

Fixpoint percent_decode (bs : list Z) : list Z :=
  match bs with
  | [] => []
  | b :: t =>
    if b =? 37 then
      match t with
      | h :: l :: r =>
        match hex_of h, hex_of l with
        | Some hv, Some lv => (hv * 16 + lv) :: percent_decode r
        | _, _ => b :: percent_decode t
        end
      | _ => b :: percent_decode t
      end
    else b :: percent_decode t
  end.

Definition plus_to_space (b : Z) : Z := if b =? 43 then 32 else b.

Definition form_encode (s : ustring) : ustring := flat_map form_byte (utf8_encode s).
Definition form_decode (bs : list Z) : ustring :=
  utf16_encode (utf8_decode_lossy (percent_decode (map plus_to_space bs))).

(** The text before and after the first [=]. *)
Fixpoint split_pair (bs : list Z) : list Z * list Z :=
  match bs with
  | [] => ([], [])
  | b :: r => if b =? 61 then ([], r) else let '(n, v) := split_pair r in (b :: n, v)
  end.

(** ** The object *)

Abbreviation URLSearchParams := (list (ustring * ustring)).

Definition params_of_bytes (bs : list Z) : URLSearchParams :=
  map (λ part, let '(n, v) := split_pair part in (form_decode n, form_decode v))
    (js_filter truthy (split_on 38 bs)).

(** [new URLSearchParams(string)] *)
Definition params_of_string (s : ustring) : URLSearchParams :=
  params_of_bytes (utf8_encode (match s with c :: r => if c =? 63 then r else s | [] => s end)).

Definition params_pair (kv : ustring * ustring) : ustring := form_encode kv.1 ++ 61 :: form_encode kv.2.

(** [params.toString()] *)
Definition params_string (p : URLSearchParams) : ustring := join [38%Z] (map params_pair p).

Definition params_get (p : URLSearchParams) (k : ustring) : option ustring :=
  snd <$> js_find (λ kv, bool_decide (kv.1 = usv k)) p.

Definition params_delete (k : ustring) (p : URLSearchParams) : URLSearchParams :=
  js_filter (λ kv, negb (bool_decide (kv.1 = usv k))) p.

(** [set] rewrites the first pair of that name, drops the others, or appends. *)
Fixpoint params_set_first (k v : ustring) (p : URLSearchParams) : URLSearchParams :=
  match p with
  | [] => [(k, v)]
  | kv :: r =>
    if decide (kv.1 = k) then (k, v) :: js_filter (λ kv, negb (bool_decide (kv.1 = k))) r
    else kv :: params_set_first k v r
  end.
Definition params_set (k v : ustring) (p : URLSearchParams) : URLSearchParams :=
  params_set_first (usv k) (usv v) p.

(** [new URLSearchParams(record)] *)
Definition params_of_record (r : list (ustring * ustring)) : URLSearchParams :=
  map (λ kv, (usv kv.1, usv kv.2)) r.

Example parse_example :
  params_of_string (u! "?a=1+2&b=%ED%95%9C&&c&%zz=x=y") =
  [(u! "a", u! "1 2"); (u! "b", u! "한"); (u! "c", []); (u! "%zz", u! "x=y")].
Proof. vm_compute. reflexivity. Qed.
Example decode_malformed : utf8_decode_lossy [226; 130; 65; 255; 240; 159] = [65533; 65; 65533; 65533].
Proof. vm_compute. reflexivity. Qed.
Example string_example : params_string [(u! "q", u! "a b&c"); ([], u! "é~")] = u! "q=a+b%26c&=%C3%A9%7E".
Proof. vm_compute. reflexivity. Qed.

(** ** Decoding what was encoded *)

(** The base-64 digits of a code point. *)
Lemma digits64 n : ∃ q r, n / 64 = q ∧ n mod 64 = r ∧ n = q * 64 + r ∧ 0 ≤ r < 64.
Proof.
  exists (n / 64), (n mod 64). pose proof (Z.div_mod n 64 ltac:(lia)).
  pose proof (Z.mod_pos_bound n 64 ltac:(lia)). lia.
Qed.

Ltac decide_ifs :=
  repeat match goal with
  | |- context [if ?b then _ else _] =>
    first [replace b with true by (symmetry; rewrite ?andb_true_iff; lia)
          |replace b with false by (symmetry; rewrite ?andb_false_iff; lia)]; cbv iota
  end.

Lemma decode_utf8_bytes cp rest :
  scalar cp → decode_from idle (utf8_bytes cp ++ rest) = cp :: decode_from idle rest.
Proof.
  intros [Hcp Hsur]. unfold utf8_bytes.
  replace (cp / 262144) with (cp / 64 / 64 / 64) by (rewrite !Z.div_div by lia; f_equal; lia).
  replace (cp / 4096) with (cp / 64 / 64) by (rewrite Z.div_div by lia; f_equal; lia).
  destruct (digits64 cp) as (q1 & r1 & -> & -> & E1 & B1).
  destruct (digits64 q1) as (q2 & r2 & -> & -> & E2 & B2).
  destruct (digits64 q2) as (q3 & r3 & -> & -> & E3 & B3).
  destruct (Z.ltb_spec cp 128); [|destruct (Z.ltb_spec cp 2048); [|destruct (Z.ltb_spec cp 65536)]];
    cbn [app decode_from d_needed idle]; unfold start_byte; decide_ifs;
    repeat match goal with |- context [if ?a =? ?b then _ else _] => destruct (Z.eqb_spec a b) end;
    cbn [decode_from d_needed d_cp d_lower d_upper]; decide_ifs; f_equal.
  all: lia.
Qed.

Lemma decode_encode cps : Forall scalar cps → utf8_decode_lossy (flat_map utf8_bytes cps) = cps.
Proof.
  unfold utf8_decode_lossy. induction 1 as [|cp cps Hcp Hs IH]; [done|]. cbn [flat_map].
  by rewrite decode_utf8_bytes, IH.
Qed.

Lemma code_points_encode cps : Forall scalar cps → code_points (utf16_encode cps) = cps.
Proof.
  induction 1 as [|cp cps [Hcp Hsur] Hs IH]; [done|]. unfold utf16_encode. cbn [flat_map].
  change (flat_map _ cps) with (utf16_encode cps). destruct (Z.ltb_spec cp 65536); cbn [app code_points].
  - unfold is_lead, is_trail. decide_ifs. by rewrite IH.
  - pose proof (Z.mod_pos_bound (cp - 65536) 1024 ltac:(lia)).
    pose proof (Z.div_mod (cp - 65536) 1024 ltac:(lia)).
    set (q := (cp - 65536) / 1024) in *. set (m := (cp - 65536) mod 1024) in *. clearbody q m.
    unfold is_lead, is_trail. decide_ifs. rewrite IH. f_equal. lia.
Qed.

Lemma replacement_scalar : scalar replacement.
Proof. unfold scalar, replacement. lia. Qed.

Lemma code_points_scalar s : Forall (λ c, 0 ≤ c < 65536) s → Forall scalar (code_points s).
Proof.
  assert (∀ n s, (length s ≤ n)%nat → Forall (λ c, 0 ≤ c < 65536) s → Forall scalar (code_points s)) as H.
  { clear s. induction n as [|n IH]; intros [|c s] Hn Hs; simpl in Hn; try (cbn [code_points]; constructor; fail); [lia|].
    apply Forall_cons in Hs as [Hc Hs]. cbn [code_points]. unfold is_lead, is_trail.
    destruct ((55296 <=? c) && (c <=? 56319)) eqn:E1; breflect.
    - destruct s as [|d s']; [apply Forall_singleton, replacement_scalar|].
      destruct ((56320 <=? d) && (d <=? 57343)) eqn:E2; breflect.
      + apply Forall_cons in Hs as [Hd Hs]. constructor; [unfold scalar; lia|]. apply IH; [simpl in Hn; lia|done].
      + constructor; [apply replacement_scalar|]. apply IH; [lia|done].
    - destruct ((56320 <=? c) && (c <=? 57343)) eqn:E2; breflect; (constructor; [|apply IH; [lia|done]]);
        [apply replacement_scalar|]. unfold scalar. rewrite andb_false_iff in *. lia. }
  by apply (H (length s)).
Qed.

Lemma usv_well_formed s : well_formed s → usv s = s.
Proof. intros (cps & Hc & ->). unfold usv. by rewrite code_points_encode. Qed.

Lemma well_formed_usv s : Forall (λ c, 0 ≤ c < 65536) s → well_formed (usv s).
Proof. intros Hs. exists (code_points s). split; [by apply code_points_scalar|done]. Qed.

(** ** The form encoding round trip *)

Definition byte (b : Z) : Prop := 0 ≤ b < 256.

Lemma hex_of_upper n : 0 ≤ n < 16 → hex_of (hex_upper n) = Some n ∧ hex_upper n ≠ 43.
Proof.
  intros Hn. unfold hex_of, hex_upper. destruct (Z.ltb_spec n 10); decide_ifs; (split; [f_equal|]); lia.
Qed.

Lemma percent_decode_safe b rest : b ≠ 37 → percent_decode (b :: rest) = b :: percent_decode rest.
Proof. intros Hb. cbn [percent_decode]. by decide_ifs. Qed.

Lemma percent_decode_byte b rest :
  byte b → percent_decode (map plus_to_space (form_byte b) ++ rest) = b :: percent_decode rest.
Proof.
  unfold byte. intros Hb. unfold form_byte. destruct (Z.eqb_spec b 32) as [->|Hne]; [done|].
  destruct (form_safe b) eqn:Es.
  - assert (b ≠ 37 ∧ b ≠ 43) as [H1 H2] by (split; intros ->; discriminate).
    cbn [map app]. unfold plus_to_space. decide_ifs. by apply percent_decode_safe.
  - pose proof (Z.div_mod b 16 ltac:(lia)). pose proof (Z.mod_pos_bound b 16 ltac:(lia)).
    assert (0 ≤ b / 16 < 16) by lia.
    destruct (hex_of_upper (b / 16)) as [Hh Hh']; [lia|].
    destruct (hex_of_upper (b mod 16)) as [Hl Hl']; [lia|].
    cbn [map app]. unfold plus_to_space. decide_ifs. cbn [percent_decode]. decide_ifs.
    rewrite Hh, Hl. f_equal. lia.
Qed.

Lemma percent_decode_encode bs :
  Forall byte bs → percent_decode (map plus_to_space (flat_map form_byte bs)) = bs.
Proof.
  induction 1 as [|b bs Hb Hs IH]; [done|]. cbn [flat_map]. rewrite map_app.
  by rewrite percent_decode_byte, IH.
Qed.

Lemma utf8_bytes_byte cp : scalar cp → Forall byte (utf8_bytes cp).
Proof.
  intros [Hcp _]. unfold utf8_bytes, byte.
  replace (cp / 262144) with (cp / 64 / 64 / 64) by (rewrite !Z.div_div by lia; f_equal; lia).
  replace (cp / 4096) with (cp / 64 / 64) by (rewrite Z.div_div by lia; f_equal; lia).
  destruct (digits64 cp) as (q1 & r1 & -> & -> & E1 & B1).
  destruct (digits64 q1) as (q2 & r2 & -> & -> & E2 & B2).
  destruct (digits64 q2) as (q3 & r3 & -> & -> & E3 & B3).
  destruct (Z.ltb_spec cp 128); [|destruct (Z.ltb_spec cp 2048); [|destruct (Z.ltb_spec cp 65536)]];
    rewrite !Forall_cons, Forall_nil; split_and!; done || lia.
Qed.

Lemma encode_byte cps : Forall scalar cps → Forall byte (flat_map utf8_bytes cps).
Proof.
  induction 1 as [|cp cps Hc Hs IH]; cbn [flat_map]; [constructor|].
  apply Forall_app. split; [by apply utf8_bytes_byte|done].
Qed.

(** Decoding an encoded component gives it back. *)
Lemma form_decode_encode s : well_formed s → form_decode (form_encode s) = s.
Proof.
  intros (cps & Hc & ->). unfold form_decode, form_encode, utf8_encode.
  rewrite code_points_encode, percent_decode_encode, decode_encode; [done|done|by apply encode_byte|done].
Qed.

(** What the serialiser writes: neither separators, nor [?], all ASCII. *)
Definition plain_unit (c : Z) : Prop := 0 ≤ c < 128 ∧ c ≠ 38 ∧ c ≠ 61 ∧ c ≠ 63 ∧ c ≠ 35.

Lemma form_byte_plain b : byte b → Forall plain_unit (form_byte b).
Proof.
  unfold byte. intros Hb. unfold form_byte.
  pose proof (Z.mod_pos_bound b 16 ltac:(lia)). pose proof (Z.div_mod b 16 ltac:(lia)). assert (0 ≤ b / 16 < 16) by lia.
  assert (∀ n, 0 ≤ n < 16 → 0 ≤ hex_upper n < 128 ∧ hex_upper n ≠ 38 ∧ hex_upper n ≠ 61 ∧ hex_upper n ≠ 63 ∧ hex_upper n ≠ 35)
    as Hx by (intros n Hn; unfold hex_upper; case_match; breflect; lia).
  destruct (b =? 32); [apply Forall_singleton; unfold plain_unit; lia|]. destruct (form_safe b) eqn:Es.
  - apply Forall_singleton. unfold plain_unit. unfold form_safe in Es.
    repeat match goal with E : (_ || _) = true |- _ => apply orb_true_iff in E as [E|E] end; breflect; lia.
  - apply Forall_cons. split; [unfold plain_unit; lia|]. apply Forall_cons. split; [by apply Hx|].
    apply Forall_singleton. by apply Hx.
Qed.

Lemma form_encode_plain s : well_formed s → Forall plain_unit (form_encode s).
Proof.
  intros (cps & Hc & ->). unfold form_encode, utf8_encode. rewrite code_points_encode by done.
  pose proof (encode_byte _ Hc) as Hb. induction Hb as [|b bs Hb Hs IH]; cbn [flat_map]; [constructor|].
  apply Forall_app. split; [by apply form_byte_plain|done].
Qed.

(** On ASCII text UTF-8 is the identity. *)
Lemma utf8_encode_ascii s : Forall (λ c, 0 ≤ c < 128) s → utf8_encode s = s.
Proof.
  unfold utf8_encode. induction 1 as [|c s Hc Hs IH]; [done|]. cbn [code_points].
  unfold is_lead, is_trail. decide_ifs. cbn [flat_map]. rewrite IH. unfold utf8_bytes. by decide_ifs.
Qed.

(** ** Splitting and joining *)

Lemma split_on_free c s : c ∉ s → split_on c s = [s].
Proof.
  induction s as [|d s IH]; [done|]. intros [Hd Hs]%not_elem_of_cons. cbn [split_on].
  destruct (Z.eqb_spec d c); [done|]. by rewrite IH.
Qed.

Lemma split_on_app c p rest : c ∉ p → split_on c (p ++ c :: rest) = p :: split_on c rest.
Proof.
  induction p as [|d p IH]; cbn [app split_on]; [by rewrite Z.eqb_refl|].
  intros [Hd Hp]%not_elem_of_cons. destruct (Z.eqb_spec d c); [done|]. by rewrite IH.
Qed.

Lemma split_on_join c parts :
  parts ≠ [] → Forall (λ p, c ∉ p) parts → split_on c (join [c] parts) = parts.
Proof.
  intros Hne Hp. induction Hp as [|p parts Hpc Hps IH]; [done|]. destruct parts as [|q parts].
  - by apply split_on_free.
  - change (join [c] (p :: q :: parts)) with (p ++ c :: join [c] (q :: parts)).
    rewrite split_on_app by done. by rewrite IH.
Qed.

Lemma split_pair_app n v : 61 ∉ n → split_pair (n ++ 61 :: v) = (n, v).
Proof.
  induction n as [|c n IH]; [done|]. intros [Hc Hn]%not_elem_of_cons. cbn [app split_pair].
  destruct (Z.eqb_spec c 61); [done|]. by rewrite IH.
Qed.

(** Every name and value is free of lone surrogates, as the object guarantees. *)
Definition params_ok (p : URLSearchParams) : Prop :=
  Forall (λ kv, well_formed kv.1 ∧ well_formed kv.2) p.

Lemma plain_not c s : Forall plain_unit s → c = 38 ∨ c = 61 ∨ c = 63 → c ∉ s.
Proof. intros Hs Hc Hin. rewrite Forall_forall in Hs. specialize (Hs c Hin). unfold plain_unit in Hs. lia. Qed.

Lemma params_pair_ascii kv :
  well_formed kv.1 → well_formed kv.2 →
  Forall (λ c, 0 ≤ c < 128) (params_pair kv) ∧ 38 ∉ params_pair kv ∧ 63 ∉ params_pair kv.
Proof.
  intros H1%form_encode_plain H2%form_encode_plain. unfold params_pair. split_and!.
  - apply Forall_app. split; [|apply Forall_cons; split; [lia|]];
      (eapply Forall_impl; [eassumption|]); unfold plain_unit; intros; lia.
  - rewrite elem_of_app, elem_of_cons. intros [H|[H|H]]; [|lia|]; eapply plain_not in H; eauto.
  - rewrite elem_of_app, elem_of_cons. intros [H|[H|H]]; [|lia|]; eapply plain_not in H; eauto.
Qed.

Lemma join_ascii sep parts (P : Z → Prop) :
  Forall P sep → Forall (Forall P) parts → Forall P (join sep parts).
Proof.
  intros Hsep. induction 1 as [|p parts Hp Hps IH]; [constructor|]. destruct parts; [done|].
  change (join sep (p :: l :: parts)) with (p ++ sep ++ join sep (l :: parts)).
  apply Forall_app. split; [done|]. apply Forall_app. by split.
Qed.

Lemma params_string_ascii p :
  params_ok p → Forall (λ c, 0 ≤ c < 128 ∧ c ≠ 63) (params_string p).
Proof.
  intros Hp. apply join_ascii; [apply Forall_singleton; lia|]. apply Forall_fmap.
  eapply Forall_impl; [exact Hp|]. intros kv [H1 H2]. simpl.
  destruct (params_pair_ascii kv H1 H2) as (Ha & _ & Hq). apply Forall_forall. intros c Hc.
  rewrite Forall_forall in Ha. split; [by apply Ha|]. by intros ->.
Qed.

Lemma params_string_no_hash p : params_ok p → 35 ∉ params_string p.
Proof.
  intros Hp Hin. assert (Forall (λ c, c ≠ 35) (params_string p)) as Hall; [|by rewrite Forall_forall in Hall; apply (Hall 35)].
  apply join_ascii; [apply Forall_singleton; lia|]. apply Forall_fmap. eapply Forall_impl; [exact Hp|]. intros kv [H1 H2]. simpl.
  apply form_encode_plain in H1, H2. unfold params_pair. apply Forall_app. split; [|apply Forall_cons; split; [lia|]];
    (eapply Forall_impl; [eassumption|]); unfold plain_unit; intros; lia.
Qed.

Lemma params_string_nonempty p : p ≠ [] → params_string p ≠ [].
Proof.
  intros Hp E. unfold params_string in E. destruct p as [|kv [|kv' l]]; [done|..]; cbn [map join] in E; unfold params_pair in E;
    rewrite <- ?app_assoc in E; by apply app_eq_nil in E as [_ E].
Qed.

(** No pair is written as the empty text. *)
Lemma params_pairs_kept p : js_filter truthy (map params_pair p) = map params_pair p.
Proof.
  unfold js_filter. induction p as [|[k v] p IH]; [done|]. cbn [map List.filter]. rewrite IH.
  assert (truthy (params_pair (k, v)) = true) as ->; [|done]. unfold params_pair. by destruct (form_encode _).
Qed.

Lemma params_of_bytes_string p : params_ok p → params_of_bytes (params_string p) = p.
Proof.
  intros Hp. unfold params_of_bytes, params_string. destruct p as [|kv p]; [done|].
  rewrite split_on_join; [|done|].
  - rewrite params_pairs_kept. induction Hp as [|[k v] l [Hk Hv] Hl IH]; [done|]. cbn [map]. rewrite IH. f_equal.
    unfold params_pair. cbn [fst snd]. rewrite split_pair_app by (eapply plain_not; [by apply form_encode_plain|auto]).
    by rewrite !form_decode_encode.
  - apply Forall_fmap. eapply Forall_impl; [exact Hp|]. intros [k v] [Hk Hv]. by apply params_pair_ascii.
Qed.

(** Parsing the text of a query, with or without its question mark, restores it. *)
Lemma params_of_string_string p :
  params_ok p → params_of_string (params_string p) = p ∧ params_of_string (63 :: params_string p) = p.
Proof.
  intros Hp. pose proof (params_string_ascii p Hp) as Ha.
  assert (Forall (λ c, 0 ≤ c < 128) (params_string p)) as Ha'
    by (eapply Forall_impl; [exact Ha|]; intros c Hc; apply Hc).
  unfold params_of_string. cbv beta iota. rewrite Z.eqb_refl. split.
  - assert ((match params_string p with c :: r => if c =? 63 then r else params_string p | [] => params_string p end)
      = params_string p) as ->.
    { destruct (params_string p) as [|c r]; [done|]. apply Forall_cons in Ha as [[_ Hc] _].
      by destruct (Z.eqb_spec c 63). }
    by rewrite utf8_encode_ascii, params_of_bytes_string.
  - by rewrite utf8_encode_ascii, params_of_bytes_string.
Qed.

(** ** Laws of the object *)

(** The pairs of a query whose name satisfies a test. *)
Definition params_where (q : ustring → bool) (p : URLSearchParams) : URLSearchParams :=
  js_filter (λ kv, q kv.1) p.

Lemma params_get_cons kv p k :
  params_get (kv :: p) k = if bool_decide (kv.1 = usv k) then Some kv.2 else params_get p k.
Proof. unfold params_get. cbn [js_find]. by destruct (bool_decide _). Qed.

Lemma params_get_where q p k :
  q (usv k) = true → params_get (params_where q p) k = params_get p k.
Proof.
  intros Hq. unfold params_where, js_filter. induction p as [|kv p IH]; [done|]. cbn [List.filter].
  destruct (q kv.1) eqn:E; rewrite !params_get_cons, IH; [done|]. case_bool_decide as Hk; [|done].
  by rewrite Hk, Hq in E.
Qed.

Lemma params_get_where_not q p k : q (usv k) = false → params_get (params_where q p) k = None.
Proof.
  intros Hq. unfold params_where, js_filter. induction p as [|kv p IH]; [done|]. cbn [List.filter].
  destruct (q kv.1) eqn:E; [|done]. rewrite params_get_cons, IH. case_bool_decide as Hk; [|done].
  by rewrite Hk, Hq in E.
Qed.

Lemma params_delete_where k p :
  params_delete k p = params_where (λ n, negb (bool_decide (n = usv k))) p.
Proof. done. Qed.

Lemma params_get_delete_eq p k : params_get (params_delete k p) k = None.
Proof. rewrite params_delete_where. apply params_get_where_not. by rewrite bool_decide_eq_true_2. Qed.

Lemma params_get_delete_ne p k k' : usv k' ≠ usv k → params_get (params_delete k p) k' = params_get p k'.
Proof. intros. rewrite params_delete_where. apply params_get_where. by rewrite bool_decide_eq_false_2. Qed.

Lemma params_get_set p k v k' :
  params_get (params_set k v p) k' = if decide (usv k' = usv k) then Some (usv v) else params_get p k'.
Proof.
  unfold params_set. induction p as [|kv p IH]; cbn [params_set_first].
  - rewrite params_get_cons. cbn [fst snd]. case_bool_decide; case_decide; congruence.
  - destruct (decide (kv.1 = usv k)) as [Hk|Hk].
    + rewrite !params_get_cons. cbn [fst snd]. case_bool_decide; case_decide; try congruence.
      rewrite bool_decide_eq_false_2 by congruence. apply params_get_delete_ne. congruence.
    + rewrite !params_get_cons, IH. case_bool_decide; case_decide; congruence.
Qed.

Lemma js_filter_idemp {A} (f : A → bool) l : js_filter f (js_filter f l) = js_filter f l.
Proof.
  unfold js_filter. induction l as [|a l IH]; [done|]. cbn [List.filter].
  destruct (f a) eqn:E; [|done]. cbn [List.filter]. by rewrite E, IH.
Qed.

(** Setting a name touches no other pair, nor their order. *)
Lemma params_set_others p k v : params_delete k (params_set k v p) = params_delete k p.
Proof.
  unfold params_set, params_delete. induction p as [|kv p IH]; cbn [params_set_first].
  - rewrite js_filter_cons. cbn [fst]. by rewrite bool_decide_eq_true_2.
  - destruct (decide (kv.1 = usv k)) as [Hk|Hk]; rewrite !js_filter_cons; cbn [fst].
    + rewrite !bool_decide_eq_true_2 by done. cbn [negb]. apply js_filter_idemp.
    + rewrite !bool_decide_eq_false_2 by done. cbn [negb]. f_equal. apply IH.
Qed.

(** Deleting one name and setting another commute. *)
Lemma params_delete_set p k k' v :
  usv k ≠ usv k' → params_delete k (params_set k' v p) = params_set k' v (params_delete k p).
Proof.
  intros Hne. unfold params_set, params_delete. induction p as [|kv p IH]; cbn [params_set_first].
  - rewrite js_filter_cons. cbn [fst]. by rewrite bool_decide_eq_false_2.
  - destruct (decide (kv.1 = usv k')) as [Hk|Hk]; rewrite !js_filter_cons; cbn [fst].
    + rewrite !bool_decide_eq_false_2 by congruence. cbn [negb params_set_first fst].
      rewrite decide_True by done. f_equal. apply js_filter_comm.
    + case_bool_decide; cbn [negb]; [apply IH|]. cbn [params_set_first]. rewrite decide_False by done.
      f_equal. apply IH.
Qed.

Definition units_ok (s : ustring) : Prop := Forall (λ c, 0 ≤ c < 65536) s.

Lemma params_ok_where q p : params_ok p → params_ok (params_where q p).
Proof. unfold params_ok. rewrite !Forall_forall. intros Hp kv [Hkv _]%js_filter_elem. by apply Hp. Qed.

Lemma params_ok_delete k p : params_ok p → params_ok (params_delete k p).
Proof. intros. rewrite params_delete_where. by apply params_ok_where. Qed.

Lemma params_ok_set k v p : units_ok k → units_ok v → params_ok p → params_ok (params_set k v p).
Proof.
  intros Hk%well_formed_usv Hv%well_formed_usv Hp. unfold params_set.
  induction Hp as [|kv p Hkv Hp IH]; cbn [params_set_first]; [by apply Forall_singleton|].
  case_decide; (constructor; [done|]); [|done]. unfold params_ok in Hp. rewrite Forall_forall in *.
  intros kv' [Hin _]%js_filter_elem. by apply Hp.
Qed.

Lemma params_ok_record r :
  Forall (λ kv, units_ok kv.1 ∧ units_ok kv.2) r → params_ok (params_of_record r).
Proof.
  intros Hr. apply Forall_fmap. eapply Forall_impl; [exact Hr|]. intros kv [H1 H2]. simpl.
  split; by apply well_formed_usv.
Qed.

Lemma well_formed_units s : well_formed s → units_ok s.
Proof.
  intros (cps & Hc & ->). unfold units_ok, utf16_encode.
  induction Hc as [|cp cps [Hcp _] Hs IH]; cbn [flat_map]; [constructor|]. apply Forall_app. split; [|done].
  pose proof (Z.mod_pos_bound (cp - 65536) 1024 ltac:(lia)).
  pose proof (Z.div_mod (cp - 65536) 1024 ltac:(lia)).
  destruct (Z.ltb_spec cp 65536); [apply Forall_singleton; lia|].
  rewrite !Forall_cons, Forall_nil. split_and!; done || lia.
Qed.

(** ** A parsed query holds no lone surrogate *)

(** However the sequence under way continues, it ends in a scalar value. *)
Definition decoder_ok (st : decoder) : Prop :=
  match d_needed st with
  | O => True
  | S n => 128 ≤ d_lower st ∧ d_upper st ≤ 191 ∧
    ∀ b t, d_lower st ≤ b ≤ d_upper st → 0 ≤ t < 64 ^ Z.of_nat n →
      scalar ((d_cp st * 64 + (b - 128)) * 64 ^ Z.of_nat n + t)
  end.

Lemma start_byte_ok b k :
  byte b → (∀ st, decoder_ok st → Forall scalar (k st)) → Forall scalar (start_byte b k).
Proof.
  unfold byte. intros Hb Hk. unfold start_byte.
  assert (decoder_ok idle) as Hidle by done.
  destruct (b <? 128) eqn:E0; breflect; [constructor; [unfold scalar; lia|auto]|].
  destruct ((194 <=? b) && _) eqn:E1; breflect.
  { apply Hk. cbn. split_and!; [lia..|]. intros c t ? ?. unfold scalar. lia. }
  destruct ((224 <=? b) && _) eqn:E2; breflect.
  { apply Hk. cbn. split_and!; [case_match; lia..|]. intros c t. change (64 ^ 1) with 64. unfold scalar.
    destruct (Z.eqb_spec b 224), (Z.eqb_spec b 237); lia. }
  destruct ((240 <=? b) && _) eqn:E3; breflect.
  { apply Hk. cbn. split_and!; [case_match; lia..|]. intros c t. change (64 ^ 2) with 4096. unfold scalar.
    destruct (Z.eqb_spec b 240), (Z.eqb_spec b 244); lia. }
  constructor; [apply replacement_scalar|auto].
Qed.

Lemma decode_from_scalar bs st : Forall byte bs → decoder_ok st → Forall scalar (decode_from st bs).
Proof.
  intros Hbs. revert st. induction Hbs as [|b bs Hb Hbs IH]; intros st Hst; cbn [decode_from].
  { destruct (d_needed st); constructor; [apply replacement_scalar|constructor]. }
  unfold decoder_ok in Hst. destruct (d_needed st) as [|n]; [by apply start_byte_ok|].
  destruct Hst as (Hlo & Hhi & Hst).
  destruct ((d_lower st <=? b) && (b <=? d_upper st)) eqn:E; breflect.
  2: { constructor; [apply replacement_scalar|by apply start_byte_ok]. }
  cbv zeta. set (v := d_cp st * 64 + (b - 128)) in *. destruct n as [|n].
  - constructor; [|by apply IH]. specialize (Hst b 0 ltac:(lia) ltac:(simpl; lia)). fold v in Hst.
    simpl in Hst. by rewrite Z.mul_1_r, Z.add_0_r in Hst.
  - apply IH. cbn. split_and!; [lia..|]. intros b' t Hb' Ht.
    replace ((v * 64 + (b' - 128)) * 64 ^ Z.of_nat n + t)
      with (v * 64 ^ Z.of_nat (S n) + ((b' - 128) * 64 ^ Z.of_nat n + t))
      by (rewrite Nat2Z.inj_succ, Z.pow_succ_r by lia; ring).
    apply Hst; [lia|]. rewrite Nat2Z.inj_succ, Z.pow_succ_r by lia. nia.
Qed.

Lemma percent_decode_bytes bs : Forall byte bs → Forall byte (percent_decode bs).
Proof.
  assert (∀ n bs, (length bs ≤ n)%nat → Forall byte bs → Forall byte (percent_decode bs)) as H.
  { clear bs. induction n as [|n IH]; intros [|b bs] Hn Hbs; simpl in Hn; try (cbn; constructor; fail); [lia|].
    apply Forall_cons in Hbs as [Hb Hbs]. cbn [percent_decode].
    assert (Forall byte (b :: percent_decode bs)) by (constructor; [done|]; apply IH; [lia|done]).
    destruct (b =? 37); [|done]. destruct bs as [|h [|l r]]; [done..|].
    destruct (hex_of h) as [hv|] eqn:Eh; [|done]. destruct (hex_of l) as [lv|] eqn:El; [|done].
    assert (∀ c v, hex_of c = Some v → 0 ≤ v < 16) as Hx.
    { unfold hex_of. intros c v Hv. repeat case_match; breflect; simplify_eq; lia. }
    apply Hx in Eh, El. rewrite !Forall_cons in Hbs. constructor; [unfold byte; lia|].
    apply IH; [simpl in Hn; lia|apply Hbs]. }
  by apply (H (length bs)).
Qed.

Lemma form_decode_wf bs : Forall byte bs → well_formed (form_decode bs).
Proof.
  intros Hbs. exists (utf8_decode_lossy (percent_decode (map plus_to_space bs))). split; [|done].
  apply decode_from_scalar; [|done]. apply percent_decode_bytes, Forall_fmap.
  eapply Forall_impl; [exact Hbs|]. unfold byte, plus_to_space. simpl. intros b Hb. case_match; lia.
Qed.

Lemma split_on_Forall (P : Z → Prop) c bs : Forall P bs → Forall (Forall P) (split_on c bs).
Proof.
  induction 1 as [|b bs Hb Hbs IH]; cbn [split_on]; [by constructor|].
  destruct (b =? c); [by constructor|]. destruct (split_on c bs) as [|p ps]; [by repeat constructor|].
  apply Forall_cons in IH as [? ?]. by repeat constructor.
Qed.

Lemma split_pair_Forall (P : Z → Prop) bs :
  Forall P bs → Forall P (split_pair bs).1 ∧ Forall P (split_pair bs).2.
Proof.
  induction 1 as [|b bs Hb Hbs IH]; cbn [split_pair]; [done|]. destruct (b =? 61); [done|].
  destruct (split_pair bs) as [n v]. destruct IH. split; [by constructor|done].
Qed.

Lemma params_of_string_ok s : units_ok s → params_ok (params_of_string s).
Proof.
  intros Hs. unfold params_of_string. set (s' := match s with [] => s | c :: r => if c =? 63 then r else s end).
  assert (units_ok s') as Hs'.
  { subst s'. destruct s as [|c r]; [done|]. case_match; [|done]. by apply Forall_cons in Hs as [_ ?]. }
  assert (Forall byte (utf8_encode s')) as Hb by by apply encode_byte, code_points_scalar.
  unfold params_of_bytes. apply Forall_fmap. apply (split_on_Forall _ 38) in Hb.
  rewrite Forall_forall in Hb. apply Forall_forall. intros part [Hin _]%js_filter_elem. simpl.
  destruct (split_pair_Forall _ _ (Hb _ Hin)). destruct (split_pair part) as [n v].
  split; by apply form_decode_wf.
Qed.

(** ** ASCII text *)

Lemma well_formed_ascii s : Forall (λ c, 0 ≤ c < 128) s → well_formed s.
Proof.
  intros Hs. exists s. unfold utf16_encode. split.
  - eapply Forall_impl; [exact Hs|]. unfold scalar. intros; simpl in *; lia.
  - induction Hs as [|c s Hc Hs IH]; [done|]. cbn [flat_map]. rewrite <- IH.
    by destruct (Z.ltb_spec c 65536); [|lia].
Qed.

Lemma usv_lit_units s : Forall (λ c, 0 ≤ c < 128) s → usv s = s.
Proof. intros Hs. by apply usv_well_formed, well_formed_ascii. Qed.

Lemma dec_string_ascii n : 0 ≤ n → Forall (λ c, 0 ≤ c < 128) (dec_string n).
Proof.
  intros Hn. destruct (dec_string_spec n Hn) as (Hd & _ & _). eapply Forall_impl; [exact Hd|].
  unfold is_digit. intros c Hc. cbv beta in Hc. breflect. lia.
Qed.

Lemma string_of_Z_ascii n : Forall (λ c, 0 ≤ c < 128) (string_of_Z n).
Proof.
  unfold string_of_Z. destruct (n <? 0) eqn:E; breflect; [apply Forall_cons; split; [lia|]|];
    apply dec_string_ascii; lia.
Qed.

Lemma string_of_Z_digits n : 0 ≤ n → Forall (λ c, is_digit c = true) (string_of_Z n).
Proof.
  intros Hn. unfold string_of_Z. rewrite (proj2 (Z.ltb_ge n 0)) by done.
  by destruct (dec_string_spec n Hn) as (? & _ & _).
Qed.

Lemma digits_ascii s : Forall (λ c, is_digit c = true) s → Forall (λ c, 0 ≤ c < 128) s.
Proof.
  intros H. eapply Forall_impl; [exact H|]. cbn. intros c Hc. unfold is_digit in Hc. apply andb_true_iff in Hc as [H1 H2].
  apply Z.leb_le in H1, H2. lia.
Qed.

(** Digits are sent as they are. *)
Lemma form_encode_digits s : Forall (λ c, is_digit c = true) s → form_encode s = s.
Proof.
  intros Hs. unfold form_encode. rewrite utf8_encode_ascii by by apply digits_ascii.
  induction Hs as [|c s Hc Hs IH]; [done|]. cbn [flat_map]. rewrite IH. unfold is_digit in Hc. unfold form_byte, form_safe.
  rewrite Hc. apply andb_true_iff in Hc as [H1 H2]. by destruct (c =? 32) eqn:E; breflect; [lia|].
Qed.

(** ** [encodeURIComponent] *)

(** The bytes [encodeURIComponent] leaves alone. *)
Definition component_safe (b : Z) : bool :=
  (48 <=? b) && (b <=? 57) || (65 <=? b) && (b <=? 90) || (97 <=? b) && (b <=? 122)
  || bool_decide (b ∈ u! "-_.!~*'()").

Definition component_byte (b : Z) : ustring :=
  if component_safe b then [b] else [37; hex_upper (b / 16); hex_upper (b mod 16)].

(** [None]: a lone surrogate makes it throw. *)
Definition encodeURIComponent (s : ustring) : option ustring :=
  if decide (usv s = s) then Some (flat_map component_byte (utf8_encode s)) else None.

(** [decodeURIComponent], for text whose bytes are valid UTF-8. *)
Definition decode_component (s : ustring) : ustring := utf16_encode (utf8_decode_lossy (percent_decode s)).

Lemma percent_decode_component bs :
  Forall byte bs → percent_decode (flat_map component_byte bs) = bs.
Proof.
  induction 1 as [|b bs Hb Hs IH]; [done|]. cbn [flat_map]. unfold component_byte at 1.
  destruct (component_safe b) eqn:E; cbn [app].
  - rewrite percent_decode_safe, IH; [done|]. intros ->. by vm_compute in E.
  - unfold byte in Hb. pose proof (Z.div_mod b 16 ltac:(lia)). pose proof (Z.mod_pos_bound b 16 ltac:(lia)).
    destruct (hex_of_upper (b / 16)) as [Hh _]; [lia|].
    destruct (hex_of_upper (b mod 16)) as [Hl _]; [lia|].
    cbn [percent_decode]. rewrite Z.eqb_refl, Hh, Hl, IH. f_equal. lia.
Qed.

Lemma encodeURIComponent_inj s t e :
  units_ok s → units_ok t →
  encodeURIComponent s = Some e → encodeURIComponent t = Some e → s = t.
Proof.
  unfold encodeURIComponent. intros Hs Ht. case_decide as Us; [|done]. case_decide as Ut; [|done].
  intros [= <-] [= Heq].
  assert (∀ r, units_ok r → Forall byte (utf8_encode r)) as Hb
    by (intros r Hr; by apply encode_byte, code_points_scalar).
  apply (f_equal percent_decode) in Heq. rewrite !percent_decode_component in Heq by auto.
  unfold utf8_encode in Heq. apply (f_equal utf8_decode_lossy) in Heq.
  rewrite !decode_encode in Heq by by apply code_points_scalar.
  rewrite <- Us, <- Ut. unfold usv. by rewrite Heq.
Qed.

Lemma encodeURIComponent_decode s e : units_ok s → encodeURIComponent s = Some e → decode_component e = s.
Proof.
  intros Hs. unfold encodeURIComponent. case_decide as Us; [|done]. intros [= <-].
  unfold decode_component. pose proof (code_points_scalar s Hs) as Hc.
  rewrite percent_decode_component by by apply encode_byte.
  unfold utf8_encode. by rewrite decode_encode.
Qed.

(** Its output has no character with a meaning in a path or a query. *)
Lemma encodeURIComponent_safe s e c :
  units_ok s → encodeURIComponent s = Some e → c ∈ e → component_safe c = true ∨ c = 37.
Proof.
  intros Hs. unfold encodeURIComponent. case_decide as Us; [|done]. intros [= <-] Hc.
  apply elem_of_flat_map in Hc as (b & Hb & Hc).
  pose proof (encode_byte _ (code_points_scalar s Hs)) as Hbytes.
  rewrite Forall_forall in Hbytes. specialize (Hbytes b Hb). unfold byte in Hbytes.
  unfold component_byte in Hc. destruct (component_safe b) eqn:E; [left; set_solver|].
  pose proof (Z.div_mod b 16 ltac:(lia)). pose proof (Z.mod_pos_bound b 16 ltac:(lia)).
  rewrite !elem_of_cons, elem_of_nil in Hc. destruct Hc as [->|[->|[->|[]]]]; [by right| |]; left;
    unfold component_safe, hex_upper; case_match; breflect; repeat rewrite orb_true_iff; left;
    rewrite !andb_true_iff; lia.
Qed.
