(* ===== verification/Contracts.v ===== *)
(** * The API contract

    The data types of the generated client, frontend/src/api/generated/schema.ts,
    that the modelled code reads, with every field of each: string enums as
    inductive types (their literals in [_name] functions), counts, identifiers and scores as integers, rates and latencies as numbers,
    [null] and optional fields as [option]. *)

From S2P Require Import Prelude JsNumber.

(** A union of string literals: the text of each member, the members, and that
    the texts tell them apart. *)
Class Literal (A : Type) := {
  lit_name : A → ustring;
  lit_values : list A;
  #[export] lit_inj :: Inj (=) (=) lit_name;
  lit_complete : ∀ a, a ∈ lit_values;
}.

Ltac literal_laws :=
  [> intros [] []; vm_compute; congruence | intros []; by_compute].

(** The member a text names, if it is one of those allowed. *)
Definition lit_find `{Literal A} (allowed : list A) (s : ustring) : option A :=
  js_find (λ a, bool_decide (lit_name a = s)) allowed.

Lemma lit_find_Some `{Literal A} (allowed : list A) s a :
  lit_find allowed s = Some a ↔ a ∈ allowed ∧ lit_name a = s.
Proof.
  split.
  - intros [Ha Hs]%js_find_Some. by breflect.
  - intros [Ha <-]. unfold lit_find. destruct (js_find _ allowed) as [b|] eqn:E.
    + apply js_find_Some in E as [_ E]. breflect. by apply (inj lit_name) in E as ->.
    + rewrite js_find_None in E. specialize (E a Ha). by breflect.
Qed.

Inductive Severity : Type := Severity_LOW | Severity_MEDIUM | Severity_HIGH | Severity_CRITICAL.
#[export] Instance Severity_eq_dec : EqDecision Severity.
Proof. solve_decision. Defined.
Definition Severity_name (v : Severity) : ustring :=
  match v with
  | Severity_LOW => u! "LOW"
  | Severity_MEDIUM => u! "MEDIUM"
  | Severity_HIGH => u! "HIGH"
  | Severity_CRITICAL => u! "CRITICAL"
  end.
#[export] Instance Severity_literal : Literal Severity.
Proof.
  refine {| lit_name := Severity_name; lit_values := [Severity_LOW; Severity_MEDIUM; Severity_HIGH; Severity_CRITICAL] |}; literal_laws.
Defined.

Inductive RiskLevel : Type := Risk_LOW | Risk_MEDIUM | Risk_HIGH | Risk_CRITICAL.
#[export] Instance RiskLevel_eq_dec : EqDecision RiskLevel.
Proof. solve_decision. Defined.
Definition RiskLevel_name (v : RiskLevel) : ustring :=
  match v with
  | Risk_LOW => u! "LOW"
  | Risk_MEDIUM => u! "MEDIUM"
  | Risk_HIGH => u! "HIGH"
  | Risk_CRITICAL => u! "CRITICAL"
  end.
#[export] Instance RiskLevel_literal : Literal RiskLevel.
Proof.
  refine {| lit_name := RiskLevel_name; lit_values := [Risk_LOW; Risk_MEDIUM; Risk_HIGH; Risk_CRITICAL] |}; literal_laws.
Defined.

Inductive AlertStatus : Type := Alert_OPEN | Alert_IN_PROGRESS | Alert_RESOLVED.
#[export] Instance AlertStatus_eq_dec : EqDecision AlertStatus.
Proof. solve_decision. Defined.
Definition AlertStatus_name (v : AlertStatus) : ustring :=
  match v with
  | Alert_OPEN => u! "OPEN"
  | Alert_IN_PROGRESS => u! "IN_PROGRESS"
  | Alert_RESOLVED => u! "RESOLVED"
  end.
#[export] Instance AlertStatus_literal : Literal AlertStatus.
Proof.
  refine {| lit_name := AlertStatus_name; lit_values := [Alert_OPEN; Alert_IN_PROGRESS; Alert_RESOLVED] |}; literal_laws.
Defined.

Inductive IncidentStatus : Type := Incident_OPEN | Incident_CLOSED.
#[export] Instance IncidentStatus_eq_dec : EqDecision IncidentStatus.
Proof. solve_decision. Defined.
Definition IncidentStatus_name (v : IncidentStatus) : ustring :=
  match v with
  | Incident_OPEN => u! "OPEN"
  | Incident_CLOSED => u! "CLOSED"
  end.
#[export] Instance IncidentStatus_literal : Literal IncidentStatus.
Proof.
  refine {| lit_name := IncidentStatus_name; lit_values := [Incident_OPEN; Incident_CLOSED] |}; literal_laws.
Defined.

Inductive EventType : Type := Ev_PROCESS_EXECUTION | Ev_NETWORK_CONNECTION | Ev_FILE_EVENT | Ev_DNS_QUERY | Ev_L7_EVENT.
#[export] Instance EventType_eq_dec : EqDecision EventType.
Proof. solve_decision. Defined.
Definition EventType_name (v : EventType) : ustring :=
  match v with
  | Ev_PROCESS_EXECUTION => u! "PROCESS_EXECUTION"
  | Ev_NETWORK_CONNECTION => u! "NETWORK_CONNECTION"
  | Ev_FILE_EVENT => u! "FILE_EVENT"
  | Ev_DNS_QUERY => u! "DNS_QUERY"
  | Ev_L7_EVENT => u! "L7_EVENT"
  end.
#[export] Instance EventType_literal : Literal EventType.
Proof.
  refine {| lit_name := EventType_name; lit_values := [Ev_PROCESS_EXECUTION; Ev_NETWORK_CONNECTION; Ev_FILE_EVENT; Ev_DNS_QUERY; Ev_L7_EVENT] |}; literal_laws.
Defined.

Inductive OsType : Type := Os_WINDOWS | Os_MACOS.
#[export] Instance OsType_eq_dec : EqDecision OsType.
Proof. solve_decision. Defined.
Definition OsType_name (v : OsType) : ustring :=
  match v with
  | Os_WINDOWS => u! "WINDOWS"
  | Os_MACOS => u! "MACOS"
  end.
#[export] Instance OsType_literal : Literal OsType.
Proof.
  refine {| lit_name := OsType_name; lit_values := [Os_WINDOWS; Os_MACOS] |}; literal_laws.
Defined.

Inductive DnsRecordType : Type := Dns_A | Dns_AAAA | Dns_MX | Dns_NS | Dns_PTR.
#[export] Instance DnsRecordType_eq_dec : EqDecision DnsRecordType.
Proof. solve_decision. Defined.
Definition DnsRecordType_name (v : DnsRecordType) : ustring :=
  match v with
  | Dns_A => u! "A"
  | Dns_AAAA => u! "AAAA"
  | Dns_MX => u! "MX"
  | Dns_NS => u! "NS"
  | Dns_PTR => u! "PTR"
  end.
#[export] Instance DnsRecordType_literal : Literal DnsRecordType.
Proof.
  refine {| lit_name := DnsRecordType_name; lit_values := [Dns_A; Dns_AAAA; Dns_MX; Dns_NS; Dns_PTR] |}; literal_laws.
Defined.

Inductive EndpointStatus : Type := Endpoint_ONLINE | Endpoint_OFFLINE | Endpoint_RETIRED.
#[export] Instance EndpointStatus_eq_dec : EqDecision EndpointStatus.
Proof. solve_decision. Defined.
Definition EndpointStatus_name (v : EndpointStatus) : ustring :=
  match v with
  | Endpoint_ONLINE => u! "ONLINE"
  | Endpoint_OFFLINE => u! "OFFLINE"
  | Endpoint_RETIRED => u! "RETIRED"
  end.
#[export] Instance EndpointStatus_literal : Literal EndpointStatus.
Proof.
  refine {| lit_name := EndpointStatus_name; lit_values := [Endpoint_ONLINE; Endpoint_OFFLINE; Endpoint_RETIRED] |}; literal_laws.
Defined.

Inductive SensorHealth : Type := Health_HEALTHY | Health_DEGRADED | Health_UNAVAILABLE.
#[export] Instance SensorHealth_eq_dec : EqDecision SensorHealth.
Proof. solve_decision. Defined.
Definition SensorHealth_name (v : SensorHealth) : ustring :=
  match v with
  | Health_HEALTHY => u! "HEALTHY"
  | Health_DEGRADED => u! "DEGRADED"
  | Health_UNAVAILABLE => u! "UNAVAILABLE"
  end.
#[export] Instance SensorHealth_literal : Literal SensorHealth.
Proof.
  refine {| lit_name := SensorHealth_name; lit_values := [Health_HEALTHY; Health_DEGRADED; Health_UNAVAILABLE] |}; literal_laws.
Defined.

Inductive WorkerStatus : Type := Worker_RUNNING | Worker_IDLE | Worker_OFFLINE | Worker_UNKNOWN.
#[export] Instance WorkerStatus_eq_dec : EqDecision WorkerStatus.
Proof. solve_decision. Defined.
Definition WorkerStatus_name (v : WorkerStatus) : ustring :=
  match v with
  | Worker_RUNNING => u! "RUNNING"
  | Worker_IDLE => u! "IDLE"
  | Worker_OFFLINE => u! "OFFLINE"
  | Worker_UNKNOWN => u! "UNKNOWN"
  end.
#[export] Instance WorkerStatus_literal : Literal WorkerStatus.
Proof.
  refine {| lit_name := WorkerStatus_name; lit_values := [Worker_RUNNING; Worker_IDLE; Worker_OFFLINE; Worker_UNKNOWN] |}; literal_laws.
Defined.

Inductive StorageStatus : Type := Storage_HOT | Storage_ARCHIVED | Storage_RESTORE_REQUESTED | Storage_RESTORED | Storage_RESTORE_FAILED | Storage_EXPIRED.
#[export] Instance StorageStatus_eq_dec : EqDecision StorageStatus.
Proof. solve_decision. Defined.
Definition StorageStatus_name (v : StorageStatus) : ustring :=
  match v with
  | Storage_HOT => u! "HOT"
  | Storage_ARCHIVED => u! "ARCHIVED"
  | Storage_RESTORE_REQUESTED => u! "RESTORE_REQUESTED"
  | Storage_RESTORED => u! "RESTORED"
  | Storage_RESTORE_FAILED => u! "RESTORE_FAILED"
  | Storage_EXPIRED => u! "EXPIRED"
  end.
#[export] Instance StorageStatus_literal : Literal StorageStatus.
Proof.
  refine {| lit_name := StorageStatus_name; lit_values := [Storage_HOT; Storage_ARCHIVED; Storage_RESTORE_REQUESTED; Storage_RESTORED; Storage_RESTORE_FAILED; Storage_EXPIRED] |}; literal_laws.
Defined.

Inductive StorageBackend : Type := Backend_CLICKHOUSE | Backend_S3.
#[export] Instance StorageBackend_eq_dec : EqDecision StorageBackend.
Proof. solve_decision. Defined.
Definition StorageBackend_name (v : StorageBackend) : ustring :=
  match v with
  | Backend_CLICKHOUSE => u! "CLICKHOUSE"
  | Backend_S3 => u! "S3"
  end.
#[export] Instance StorageBackend_literal : Literal StorageBackend.
Proof.
  refine {| lit_name := StorageBackend_name; lit_values := [Backend_CLICKHOUSE; Backend_S3] |}; literal_laws.
Defined.

Inductive StorageClass : Type := Class_HOT | Class_GLACIER_FLEXIBLE_RETRIEVAL.
#[export] Instance StorageClass_eq_dec : EqDecision StorageClass.
Proof. solve_decision. Defined.
Definition StorageClass_name (v : StorageClass) : ustring :=
  match v with
  | Class_HOT => u! "HOT"
  | Class_GLACIER_FLEXIBLE_RETRIEVAL => u! "GLACIER_FLEXIBLE_RETRIEVAL"
  end.
#[export] Instance StorageClass_literal : Literal StorageClass.
Proof.
  refine {| lit_name := StorageClass_name; lit_values := [Class_HOT; Class_GLACIER_FLEXIBLE_RETRIEVAL] |}; literal_laws.
Defined.

Inductive UserRole : Type := Role_ADMIN | Role_ANALYST | Role_VIEWER.
#[export] Instance UserRole_eq_dec : EqDecision UserRole.
Proof. solve_decision. Defined.
Definition UserRole_name (v : UserRole) : ustring :=
  match v with
  | Role_ADMIN => u! "ADMIN"
  | Role_ANALYST => u! "ANALYST"
  | Role_VIEWER => u! "VIEWER"
  end.
#[export] Instance UserRole_literal : Literal UserRole.
Proof.
  refine {| lit_name := UserRole_name; lit_values := [Role_ADMIN; Role_ANALYST; Role_VIEWER] |}; literal_laws.
Defined.

Inductive UserStatus : Type := User_ACTIVE | User_DISABLED.
#[export] Instance UserStatus_eq_dec : EqDecision UserStatus.
Proof. solve_decision. Defined.
Definition UserStatus_name (v : UserStatus) : ustring :=
  match v with
  | User_ACTIVE => u! "ACTIVE"
  | User_DISABLED => u! "DISABLED"
  end.
#[export] Instance UserStatus_literal : Literal UserStatus.
Proof.
  refine {| lit_name := UserStatus_name; lit_values := [User_ACTIVE; User_DISABLED] |}; literal_laws.
Defined.

Inductive UserLocale : Type := Locale_EN | Locale_KO.
#[export] Instance UserLocale_eq_dec : EqDecision UserLocale.
Proof. solve_decision. Defined.
Definition UserLocale_name (v : UserLocale) : ustring :=
  match v with
  | Locale_EN => u! "EN"
  | Locale_KO => u! "KO"
  end.
#[export] Instance UserLocale_literal : Literal UserLocale.
Proof.
  refine {| lit_name := UserLocale_name; lit_values := [Locale_EN; Locale_KO] |}; literal_laws.
Defined.

Inductive TimePreset : Type := Preset_LATEST_15M | Preset_LATEST_1H | Preset_LATEST_24H | Preset_LATEST_7D | Preset_CUSTOM.
#[export] Instance TimePreset_eq_dec : EqDecision TimePreset.
Proof. solve_decision. Defined.
Definition TimePreset_name (v : TimePreset) : ustring :=
  match v with
  | Preset_LATEST_15M => u! "LATEST_15M"
  | Preset_LATEST_1H => u! "LATEST_1H"
  | Preset_LATEST_24H => u! "LATEST_24H"
  | Preset_LATEST_7D => u! "LATEST_7D"
  | Preset_CUSTOM => u! "CUSTOM"
  end.
#[export] Instance TimePreset_literal : Literal TimePreset.
Proof.
  refine {| lit_name := TimePreset_name; lit_values := [Preset_LATEST_15M; Preset_LATEST_1H; Preset_LATEST_24H; Preset_LATEST_7D; Preset_CUSTOM] |}; literal_laws.
Defined.

Inductive DashboardInterval : Type := Interval_1m | Interval_5m | Interval_1h | Interval_1d.
#[export] Instance DashboardInterval_eq_dec : EqDecision DashboardInterval.
Proof. solve_decision. Defined.
Definition DashboardInterval_name (v : DashboardInterval) : ustring :=
  match v with
  | Interval_1m => u! "1m"
  | Interval_5m => u! "5m"
  | Interval_1h => u! "1h"
  | Interval_1d => u! "1d"
  end.
#[export] Instance DashboardInterval_literal : Literal DashboardInterval.
Proof.
  refine {| lit_name := DashboardInterval_name; lit_values := [Interval_1m; Interval_5m; Interval_1h; Interval_1d] |}; literal_laws.
Defined.

Inductive InvestigationNodeType : Type := Node_INCIDENT | Node_ALERT | Node_EVENT | Node_PROCESS | Node_DESTINATION.
#[export] Instance InvestigationNodeType_eq_dec : EqDecision InvestigationNodeType.
Proof. solve_decision. Defined.
Definition InvestigationNodeType_name (v : InvestigationNodeType) : ustring :=
  match v with
  | Node_INCIDENT => u! "INCIDENT"
  | Node_ALERT => u! "ALERT"
  | Node_EVENT => u! "EVENT"
  | Node_PROCESS => u! "PROCESS"
  | Node_DESTINATION => u! "DESTINATION"
  end.
#[export] Instance InvestigationNodeType_literal : Literal InvestigationNodeType.
Proof.
  refine {| lit_name := InvestigationNodeType_name; lit_values := [Node_INCIDENT; Node_ALERT; Node_EVENT; Node_PROCESS; Node_DESTINATION] |}; literal_laws.
Defined.

Inductive InvestigationRelation : Type := Rel_CONTAINS | Rel_TRIGGERED_BY | Rel_PARENT_OF | Rel_CONNECTED_TO.
#[export] Instance InvestigationRelation_eq_dec : EqDecision InvestigationRelation.
Proof. solve_decision. Defined.
Definition InvestigationRelation_name (v : InvestigationRelation) : ustring :=
  match v with
  | Rel_CONTAINS => u! "CONTAINS"
  | Rel_TRIGGERED_BY => u! "TRIGGERED_BY"
  | Rel_PARENT_OF => u! "PARENT_OF"
  | Rel_CONNECTED_TO => u! "CONNECTED_TO"
  end.
#[export] Instance InvestigationRelation_literal : Literal InvestigationRelation.
Proof.
  refine {| lit_name := InvestigationRelation_name; lit_values := [Rel_CONTAINS; Rel_TRIGGERED_BY; Rel_PARENT_OF; Rel_CONNECTED_TO] |}; literal_laws.
Defined.

Inductive InvestigationEvidence : Type := Evidence_OBSERVED.
#[export] Instance InvestigationEvidence_eq_dec : EqDecision InvestigationEvidence.
Proof. solve_decision. Defined.
Definition InvestigationEvidence_name (v : InvestigationEvidence) : ustring :=
  match v with
  | Evidence_OBSERVED => u! "OBSERVED"
  end.
#[export] Instance InvestigationEvidence_literal : Literal InvestigationEvidence.
Proof.
  refine {| lit_name := InvestigationEvidence_name; lit_values := [Evidence_OBSERVED] |}; literal_laws.
Defined.

Inductive InvestigationWarningCode : Type := Warning_EVENT_NOT_FOUND | Warning_ARCHIVE_NOT_READY.
#[export] Instance InvestigationWarningCode_eq_dec : EqDecision InvestigationWarningCode.
Proof. solve_decision. Defined.
Definition InvestigationWarningCode_name (v : InvestigationWarningCode) : ustring :=
  match v with
  | Warning_EVENT_NOT_FOUND => u! "EVENT_NOT_FOUND"
  | Warning_ARCHIVE_NOT_READY => u! "ARCHIVE_NOT_READY"
  end.
#[export] Instance InvestigationWarningCode_literal : Literal InvestigationWarningCode.
Proof.
  refine {| lit_name := InvestigationWarningCode_name; lit_values := [Warning_EVENT_NOT_FOUND; Warning_ARCHIVE_NOT_READY] |}; literal_laws.
Defined.

Inductive AlertSortBy : Type := AlertSort_priority | AlertSort_detectedAt | AlertSort_severity | AlertSort_riskScore | AlertSort_status.
#[export] Instance AlertSortBy_eq_dec : EqDecision AlertSortBy.
Proof. solve_decision. Defined.
Definition AlertSortBy_name (v : AlertSortBy) : ustring :=
  match v with
  | AlertSort_priority => u! "priority"
  | AlertSort_detectedAt => u! "detectedAt"
  | AlertSort_severity => u! "severity"
  | AlertSort_riskScore => u! "riskScore"
  | AlertSort_status => u! "status"
  end.
#[export] Instance AlertSortBy_literal : Literal AlertSortBy.
Proof.
  refine {| lit_name := AlertSortBy_name; lit_values := [AlertSort_priority; AlertSort_detectedAt; AlertSort_severity; AlertSort_riskScore; AlertSort_status] |}; literal_laws.
Defined.

Record TimeRangeDto := mkTimeRangeDto {
  range_from : ustring;
  range_to : ustring;
}.

Record EventDto := mkEventDto {
  event_agentId : ustring;
  event_batchId : ustring;
  event_commandLine : option ustring;
  event_dnsAnswers : list ustring;
  event_dnsQuery : option ustring;
  event_dnsRecordType : option ustring;
  event_dnsResponseCode : option ustring;
  event_endpointId : Z;
  event_eventId : ustring;
  event_eventType : EventType;
  event_fileAction : option ustring;
  event_fileHashSha256 : option ustring;
  event_filePath : option ustring;
  event_hostname : ustring;
  event_httpHost : option ustring;
  event_httpMethod : option ustring;
  event_httpStatusCode : option Z;
  event_httpUserAgent : option ustring;
  event_ingestedAt : ustring;
  event_ipAddress : option ustring;
  event_l7Protocol : option ustring;
  event_occurredAt : ustring;
  event_osType : OsType;
  event_pid : option Z;
  event_ppid : option Z;
  event_processName : option ustring;
  event_processPath : option ustring;
  event_protocol : option ustring;
  event_remoteDomain : option ustring;
  event_remoteIp : option ustring;
  event_remotePort : option Z;
  event_tlsCertificateIssuer : option ustring;
  event_tlsCertificateSha256 : option ustring;
  event_tlsCertificateSubject : option ustring;
  event_tlsSni : option ustring;
  event_tlsVersion : option ustring;
  event_url : option ustring;
  event_userName : option ustring;
}.

Record AlertDto := mkAlertDto {
  alert_agentId : ustring;
  alert_alertId : Z;
  alert_batchId : option ustring;
  alert_createdAt : ustring;
  alert_detectedAt : ustring;
  alert_endpointId : Z;
  alert_eventId : ustring;
  alert_eventOccurredAt : ustring;
  alert_mitreTacticCode : ustring;
  alert_mitreTacticName : ustring;
  alert_mitreTechniqueCode : ustring;
  alert_mitreTechniqueName : ustring;
  alert_riskScore : Z;
  alert_ruleCode : ustring;
  alert_ruleName : ustring;
  alert_ruleVersion : Z;
  alert_severity : Severity;
  alert_status : AlertStatus;
  alert_summary : ustring;
  alert_title : ustring;
  alert_updatedAt : ustring;
}.

Record InvestigationNodeDto := mkInvestigationNodeDto {
  node_alertId : option Z;
  node_destination : option ustring;
  node_endpointId : option Z;
  node_eventId : option ustring;
  node_eventType : option EventType;
  node_incidentId : option Z;
  node_label : ustring;
  node_nodeId : ustring;
  node_nodeType : InvestigationNodeType;
  node_occurredAt : option ustring;
  node_pid : option Z;
  node_processName : option ustring;
  node_protocol : option ustring;
  node_riskScore : option Z;
  node_severity : option Severity;
}.

Record InvestigationEdgeDto := mkInvestigationEdgeDto {
  edge_alertId : option Z;
  edge_edgeId : ustring;
  edge_eventId : option ustring;
  edge_evidence : InvestigationEvidence;
  edge_incidentId : option Z;
  edge_observedAt : option ustring;
  edge_relation : InvestigationRelation;
  edge_sourceNodeId : ustring;
  edge_targetNodeId : ustring;
}.

Record InvestigationWarningDto := mkInvestigationWarningDto {
  warning_code : InvestigationWarningCode;
  warning_endpointId : option Z;
  warning_eventId : option ustring;
  warning_message : ustring;
  warning_occurredAt : option ustring;
}.

Record InvestigationFallbackDto := mkInvestigationFallbackDto {
  fallback_alertTableAvailable : bool;
  fallback_eventTableAvailable : bool;
  fallback_timelineAvailable : bool;
}.

Record IncidentInvestigationDto := mkIncidentInvestigationDto {
  inv_edgeCount : Z;
  inv_edges : list InvestigationEdgeDto;
  inv_fallback : InvestigationFallbackDto;
  inv_incidentId : Z;
  inv_nodeCount : Z;
  inv_nodes : list InvestigationNodeDto;
  inv_partial : bool;
  inv_timeRange : TimeRangeDto;
  inv_truncated : bool;
  inv_warnings : list InvestigationWarningDto;
}.

Inductive AttackTimelineItemItemType : Type := item_itemType_INCIDENT | item_itemType_EVENT | item_itemType_ALERT.
#[export] Instance AttackTimelineItemItemType_eq_dec : EqDecision AttackTimelineItemItemType.
Proof. solve_decision. Defined.
Definition AttackTimelineItemItemType_name (v : AttackTimelineItemItemType) : ustring :=
  match v with
  | item_itemType_INCIDENT => u! "INCIDENT"
  | item_itemType_EVENT => u! "EVENT"
  | item_itemType_ALERT => u! "ALERT"
  end.

Record AttackTimelineItemDto := mkAttackTimelineItemDto {
  item_alertId : option Z;
  item_endpointId : Z;
  item_eventId : option ustring;
  item_eventType : option EventType;
  item_incidentId : option Z;
  item_itemType : AttackTimelineItemItemType;
  item_occurredAt : ustring;
  item_severity : option Severity;
  item_summary : ustring;
  item_title : ustring;
}.

Record ProcessTreeNodeDto := mkProcessTreeNodeDto {
  ptn_commandLine : option ustring;
  ptn_eventCount : Z;
  ptn_firstSeenAt : ustring;
  ptn_lastSeenAt : ustring;
  ptn_parentCaptured : bool;
  ptn_pid : Z;
  ptn_ppid : option Z;
  ptn_processName : ustring;
  ptn_processPath : option ustring;
  ptn_selected : bool;
  ptn_userName : option ustring;
}.

Record ProcessTreeDto := mkProcessTreeDto {
  pt_endpointId : Z;
  pt_from : ustring;
  pt_nodes : list ProcessTreeNodeDto;
  pt_to : ustring;
}.

Record TopologyNodeDto := mkTopologyNodeDto {
  tn_alertCount : Z;
  tn_endpointId : Z;
  tn_hostname : ustring;
  tn_riskLevel : RiskLevel;
  tn_riskScore : Z;
  tn_status : EndpointStatus;
}.

Record TopologyEdgeDto := mkTopologyEdgeDto {
  te_alertCount : Z;
  te_endpointId : Z;
  te_eventCount : Z;
  te_lastSeenAt : ustring;
  te_protocol : ustring;
  te_sourceLabel : ustring;
  te_target : ustring;
}.

Record EgressTopologyDto := mkEgressTopologyDto {
  topo_edges : list TopologyEdgeDto;
  topo_from : ustring;
  topo_nodes : list TopologyNodeDto;
  topo_to : ustring;
}.

Inductive CorrelationRelationshipRelation : Type := cr_relation_RESOLVES_TO | cr_relation_PTR_CANDIDATE | cr_relation_SUBDOMAIN_OF.
#[export] Instance CorrelationRelationshipRelation_eq_dec : EqDecision CorrelationRelationshipRelation.
Proof. solve_decision. Defined.
Definition CorrelationRelationshipRelation_name (v : CorrelationRelationshipRelation) : ustring :=
  match v with
  | cr_relation_RESOLVES_TO => u! "RESOLVES_TO"
  | cr_relation_PTR_CANDIDATE => u! "PTR_CANDIDATE"
  | cr_relation_SUBDOMAIN_OF => u! "SUBDOMAIN_OF"
  end.

Inductive CorrelationValueType : Type := VT_IP | VT_DOMAIN.
#[export] Instance CorrelationValueType_eq_dec : EqDecision CorrelationValueType.
Proof. solve_decision. Defined.
Definition CorrelationValueType_name (v : CorrelationValueType) : ustring :=
  match v with
  | VT_IP => u! "IP"
  | VT_DOMAIN => u! "DOMAIN"
  end.

Inductive CorrelationSource : Type := Source_LIVE_DNS | Source_OBSERVED_EVENTS.
#[export] Instance CorrelationSource_eq_dec : EqDecision CorrelationSource.
Proof. solve_decision. Defined.
Definition CorrelationSource_name (v : CorrelationSource) : ustring :=
  match v with
  | Source_LIVE_DNS => u! "LIVE_DNS"
  | Source_OBSERVED_EVENTS => u! "OBSERVED_EVENTS"
  end.

Record CorrelationRelationshipDto := mkCorrelationRelationshipDto {
  cr_relation : CorrelationRelationshipRelation;
  cr_sourceType : CorrelationValueType;
  cr_sourceValue : ustring;
  cr_sources : list CorrelationSource;
  cr_targetType : CorrelationValueType;
  cr_targetValue : ustring;
}.

Record RelatedValueDto := mkRelatedValueDto {
  rv_sources : list CorrelationSource;
  rv_value : ustring;
  rv_valueType : CorrelationValueType;
}.

Record CorrelationDto := mkCorrelationDto {
  corr_from : ustring;
  corr_inputType : CorrelationValueType;
  corr_inputValue : ustring;
  corr_related : list RelatedValueDto;
  corr_relationships : list CorrelationRelationshipDto;
  corr_to : ustring;
}.

Record ServiceHealthDto := mkServiceHealthDto {
  svc_detail : ustring;
  svc_latencyMs : jsnum;
  svc_service : ustring;
  svc_status : SensorHealth;
}.

Record PipelineWorkerDto := mkPipelineWorkerDto {
  worker_detail : ustring;
  worker_groupId : ustring;
  worker_lag : option Z;
  worker_memberCount : option Z;
  worker_status : WorkerStatus;
  worker_topic : ustring;
  worker_worker : ustring;
}.

Record OperationsHealthDto := mkOperationsHealthDto {
  health_checkedAt : ustring;
  health_services : list ServiceHealthDto;
  health_status : SensorHealth;
  health_workers : list PipelineWorkerDto;
}.

Record IngestEventFailuresDto := mkIngestEventFailuresDto {
  failures_failedCount : Z;
  failures_oldestFailedAt : option ustring;
  failures_ratePerMinute : jsnum;
  failures_reprocessFailedCount : Z;
  failures_reprocessedCount : Z;
}.

Record IngestEventsDto := mkIngestEventsDto {
  ingested_ingestedCount : Z;
  ingested_latestIngestedAt : option ustring;
  ingested_ratePerMinute : jsnum;
}.

Record IngestStorageDto := mkIngestStorageDto {
  istorage_clickhouseHotBucketCount : Z;
  istorage_expiredBucketCount : Z;
  istorage_failedBucketCount : Z;
  istorage_glacierArchivedBucketCount : Z;
  istorage_restoredBucketCount : Z;
  istorage_restoringBucketCount : Z;
}.

Record IngestSummaryDto := mkIngestSummaryDto {
  ingest_eventFailures : IngestEventFailuresDto;
  ingest_events : IngestEventsDto;
  ingest_storage : IngestStorageDto;
  ingest_timeRange : TimeRangeDto;
}.

Record ArchiveBucketDto := mkArchiveBucketDto {
  bucket_archiveVerifiedAt : option ustring;
  bucket_archivedAt : option ustring;
  bucket_bucketEndAt : ustring;
  bucket_bucketStartAt : ustring;
  bucket_checksumSha256 : option ustring;
  bucket_endpointId : Z;
  bucket_eventCount : Z;
  bucket_lastError : option ustring;
  bucket_restoreExpiresAt : option ustring;
  bucket_restoreRequestedAt : option ustring;
  bucket_restoredAt : option ustring;
  bucket_sizeBytes : option Z;
  bucket_storageBackend : StorageBackend;
  bucket_storageClass : StorageClass;
  bucket_storagePath : ustring;
  bucket_storageStatus : StorageStatus;
}.

Record UserDto := mkUserDto {
  user_locale : UserLocale;
  user_loginId : ustring;
  user_name : ustring;
  user_role : UserRole;
  user_status : UserStatus;
  user_userId : Z;
}.

Inductive LoginDataTokenType : Type := login_tokenType_Bearer.
#[export] Instance LoginDataTokenType_eq_dec : EqDecision LoginDataTokenType.
Proof. solve_decision. Defined.
Definition LoginDataTokenType_name (v : LoginDataTokenType) : ustring :=
  match v with
  | login_tokenType_Bearer => u! "Bearer"
  end.

Record LoginData := mkLoginData {
  login_accessToken : ustring;
  login_expiresIn : Z;
  login_tokenType : LoginDataTokenType;
  login_user : UserDto;
}.
