(* ===== verification/UrlState.v ===== *)
(** * State kept in the URL

    Models the modules that read and write the query string of a page:
    frontend/src/lib/{url,params,endpointIds}.ts, features/listInteractions.ts,
    the time filter of components/filters.tsx, features/alertTriage.ts and the
    queries of features/incidentInvestigation.ts. An optional property of a query
    object is an [option]; an outer [option] is a thrown exception. *)

From S2P Require Import Prelude JsNumber JsDate Json Url Contracts.

(** ** lib/params.ts and lib/endpointIds.ts *)

Definition allowedValue `{Literal A} (value : option ustring) (allowed : list A) : option A :=
  v ← value; lit_find allowed v.

Definition positiveInteger (value : option ustring) : option Z := positive_int (number_of_opt value).

Definition parseEndpointIds (value : option ustring) : list Z :=
  match value with
  | Some v =>
    if truthy (trim v) then
      take 100 (js_unique (omap (λ part, positive_int (number_of (trim part))) (split_on 44 v)))
    else []
  | None => []
  end.

(** ** lib/url.ts *)

Definition TIME_SCOPED_ROUTES : list ustring :=
  [u! "/"; u! "/alerts"; u! "/incidents"; u! "/events"; u! "/intelligence"].

Definition stringParam (params : URLSearchParams) (key fallback : ustring) : ustring :=
  default fallback (params_get params key).

Definition numberParam (params : URLSearchParams) (key : ustring) (fallback : Z) : Z :=
  default fallback (positive_int (number_of_opt (params_get params key))).

(** The values of a query update. *)
Inductive param_value := PText (s : ustring) | PNumber (n : Z) | PNull | PUndefined.

Definition param_text (v : param_value) : option ustring :=
  match v with
  | PText s => if truthy s then Some s else None
  | PNumber n => Some (string_of_Z n)
  | PNull | PUndefined => None
  end.

Definition update_one (next : URLSearchParams) (kv : ustring * param_value) : URLSearchParams :=
  match param_text kv.2 with
  | None => params_delete kv.1 next
  | Some s => params_set kv.1 s next
  end.

Definition updateParams (current : URLSearchParams) (values : list (ustring * param_value))
  (resetPage : bool) : URLSearchParams :=
  let next := foldl update_one current values in
  if resetPage then params_delete (u! "page") next else next.

Definition timePreset (params : URLSearchParams) : TimePreset :=
  default Preset_LATEST_24H
    (v ← params_get params (u! "timePreset");
     lit_find [Preset_LATEST_15M; Preset_LATEST_1H; Preset_LATEST_7D; Preset_CUSTOM] v).

Section dates.
Context `{DateHost}.

(** The range both of whose ends are given and readable, in order. *)
Definition custom_range (params : URLSearchParams) : option (ustring * ustring) :=
  match params_get params (u! "from"), params_get params (u! "to") with
  | Some from, Some to =>
    if truthy from && truthy to then
      match Date_parse from, Date_parse to with
      | Some f, Some t => if t <=? f then None else Some (from, to)
      | _, _ => None
      end
    else None
  | _, _ => None
  end.

(** The argument is the parsed query; a string is parsed first. *)
Definition navigationTimeScope (params : URLSearchParams) : option ustring :=
  match params_get params (u! "timePreset") with
  | Some rawPreset =>
    if truthy rawPreset && str_in rawPreset (map lit_name (lit_values : list TimePreset)) then
      let scope := params_of_record [(u! "timePreset", rawPreset)] in
      if decide (rawPreset = u! "CUSTOM") then
        '(from, to) ← custom_range params;
        Some (params_string (params_set (u! "to") to (params_set (u! "from") from scope)))
      else Some (params_string scope)
    else None
  | None => None
  end.

Definition navigationDestination (path timeScope : ustring) : ustring :=
  if str_in path TIME_SCOPED_ROUTES then path ++ u! "?" ++ timeScope else path.

(** Hours are compared in milliseconds; an unreadable date compares as [NaN]. *)
Definition intervalFor (preset : TimePreset) (from to : option ustring) : DashboardInterval :=
  match preset with
  | Preset_LATEST_15M => Interval_1m
  | Preset_LATEST_1H => Interval_5m
  | Preset_LATEST_24H => Interval_1h
  | Preset_LATEST_7D => Interval_1d
  | Preset_CUSTOM =>
    if truthy_opt from && truthy_opt to then
      match Date_parse (default [] from), Date_parse (default [] to) with
      | Some f, Some t =>
        if t - f <=? 6 * 3600000 then Interval_5m
        else if t - f <=? 48 * 3600000 then Interval_1h else Interval_1d
      | _, _ => Interval_1d
      end
    else Interval_1h
  end.

Definition validEventDetailQuery (params : URLSearchParams) : bool :=
  match positive_int (number_of_opt (params_get params (u! "endpointId"))),
        params_get params (u! "occurredAt") with
  | Some _, Some occurredAt => match Date_parse occurredAt with Some _ => true | None => false end
  | _, _ => false
  end.

(** [None]: [toISOString] throws on an invalid date. *)
Definition localDateTimeValue (timestamp : ustring) : option ustring :=
  date ← Date_parse timestamp;
  shifted ← time_clip (date - timezoneOffset date * 60000);
  Some (slice0 16 (toISOString shifted)).

Definition utcFromLocal (value : ustring) : option ustring := iso_of_string value.

(** ** components/filters.tsx *)

Record DashboardTimeQuery := mkTimeQuery {
  tq_timePreset : TimePreset;
  tq_from : option ustring;
  tq_to : option ustring;
}.

Record TimeFilterState := mkTimeFilter {
  tf_preset : TimePreset;
  tf_from : option ustring;
  tf_to : option ustring;
  tf_valid : bool;
  tf_query : DashboardTimeQuery;
  tf_interval : DashboardInterval;
}.

Definition readTimeFilter (params : URLSearchParams) : TimeFilterState :=
  let rawPreset := params_get params (u! "timePreset") in
  let preset := timePreset params in
  let from := params_get params (u! "from") in
  let to := params_get params (u! "to") in
  let presetValid :=
    match rawPreset with
    | None => true
    | Some raw => str_in raw (map lit_name (lit_values : list TimePreset))
    end in
  let valid :=
    presetValid &&
    (negb (bool_decide (preset = Preset_CUSTOM)) ||
     (truthy_opt from && truthy_opt to && time_lt (default [] from) (default [] to))) in
  let query :=
    if bool_decide (preset = Preset_CUSTOM) && truthy_opt from && truthy_opt to
    then mkTimeQuery preset from to else mkTimeQuery preset None None in
  mkTimeFilter preset from to valid query (intervalFor preset from to).

(** The handlers of [TimeFilterFields], as the query they set. *)
Definition onPresetClick (params : URLSearchParams) (preset : TimePreset) : URLSearchParams :=
  updateParams params
    ((u! "timePreset", PText (lit_name preset)) ::
     (if bool_decide (preset = Preset_CUSTOM) then [] else [(u! "from", PNull); (u! "to", PNull)])) true.

Definition onPresetSelect (params : URLSearchParams) (value : ustring) : URLSearchParams :=
  updateParams params [(u! "timePreset", PText value)] true.

Definition onBoundChange (key : ustring) (params : URLSearchParams) (value : ustring) : option URLSearchParams :=
  if truthy value then
    utc ← utcFromLocal value; Some (updateParams params [(key, PText utc)] true)
  else Some (updateParams params [(key, PNull)] true).
End dates.

(** ** features/listInteractions.ts *)

Record FilterDefinition := mkFilterDefinition {
  fd_key : ustring;
  fd_label : ustring;
  fd_format : option (ustring → ustring);
}.

Record AppliedFilterDescriptor := mkDescriptor {
  af_key : ustring;
  af_label : ustring;
  af_value : ustring;
}.

Definition appliedFilterDescriptors (params : URLSearchParams) (definitions : list FilterDefinition)
  : list AppliedFilterDescriptor :=
  flat_map (λ definition,
    match params_get params (fd_key definition) with
    | Some value =>
      if truthy value then
        [mkDescriptor (fd_key definition) (fd_label definition)
           (match fd_format definition with Some format => format value | None => value end)]
      else []
    | None => []
    end) definitions.

Definition removeListFilter (params : URLSearchParams) (key : ustring) : URLSearchParams :=
  let next := params_delete key params in
  let next := if decide (key = u! "timePreset")
              then params_delete (u! "to") (params_delete (u! "from") next) else next in
  params_delete (u! "page") next.

Definition hasInvalidEnum (params : URLSearchParams) (key : ustring) (allowed : list ustring) : bool :=
  match params_get params key with Some value => negb (str_in value allowed) | None => false end.

Definition hasInvalidPositiveInteger (params : URLSearchParams) (key : ustring) : bool :=
  match params_get params key with
  | None => false
  | Some value =>
    match to_integer (number_of value) with Some parsed => parsed <=? 0 | None => true end
  end.

Definition hasInvalidPagination (params : URLSearchParams) : bool :=
  hasInvalidPositiveInteger params (u! "page") ||
  match params_get params (u! "size") with
  | None => false
  | Some size =>
    match to_integer (number_of size) with
    | Some parsed => (parsed <? 1) || (200 <? parsed)
    | None => true
    end
  end.

Definition hasInvalidText (params : URLSearchParams) (key : ustring) (maximum : Z) : bool :=
  match params_get params key with
  | Some value =>
    let n := Z.of_nat (length (trim value)) in (n <? 1) || (maximum <? n)
  | None => false
  end.

(** [?] and the query, or nothing for the empty query. *)
Definition search_of (p : URLSearchParams) : ustring :=
  match p with [] => [] | _ => u! "?" ++ params_string p end.

Definition selectedSearch (params : URLSearchParams) (value : ustring) : ustring :=
  search_of (params_set (u! "selected") value params).

Definition isSelected (params : URLSearchParams) (value : ustring) : bool :=
  bool_decide (params_get params (u! "selected") = Some value).

Definition event_return_params (params : URLSearchParams) (eventId : ustring) : URLSearchParams :=
  params_set (u! "selected") eventId params.

Definition eventDetailSearch (params : URLSearchParams) (eventId : ustring) (endpointId : Z)
  (occurredAt : ustring) : ustring :=
  let returnTo := u! "/events" ++ search_of (event_return_params params eventId) in
  u! "?" ++ params_string (params_of_record
    [(u! "endpointId", string_of_Z endpointId); (u! "occurredAt", occurredAt); (u! "returnTo", returnTo)]).

Definition safeReturnPath (params : URLSearchParams) (fallback : ustring) : ustring :=
  match params_get params (u! "returnTo") with
  | Some value =>
    if truthy value && starts_with (u! "/events") value && negb (starts_with (u! "//") value)
    then value else fallback
  | None => fallback
  end.

(** ** features/alertTriage.ts and features/incidentInvestigation.ts *)

Definition is_resolved (a : AlertDto) : bool := bool_decide (alert_status a = Alert_RESOLVED).

(** The items from the one at [findIndex] on. *)
Fixpoint after_alert (currentAlertId : Z) (items : list AlertDto) : option (list AlertDto) :=
  match items with
  | [] => None
  | item :: rest => if alert_alertId item =? currentAlertId then Some rest else after_alert currentAlertId rest
  end.

Definition nextActionableAlert (items : list AlertDto) (currentAlertId : Z) : option AlertDto :=
  let actionable :=
    js_filter (λ item, negb (is_resolved item) && negb (alert_alertId item =? currentAlertId)) items in
  match actionable with
  | [] => None
  | first :: _ =>
    match after_alert currentAlertId items with
    | None => Some first
    | Some rest => Some (default first (js_find (λ item, negb (is_resolved item)) rest))
    end
  end.

Definition alertDetailUrl (alertId : Z) (params : URLSearchParams) : ustring :=
  u! "/alerts/" ++ string_of_Z alertId ++ u! "?" ++
  params_string (params_set (u! "selected") (string_of_Z alertId) params).

Definition incidentDetailUrl (incidentId : Z) (params : URLSearchParams) : ustring :=
  let search := params_string (params_set (u! "selected") (string_of_Z incidentId) params) in
  u! "/incidents/" ++ string_of_Z incidentId ++ (if truthy search then u! "?" ++ search else []).

Inductive SortOrder := Order_asc | Order_desc.
#[export] Instance SortOrder_eq_dec : EqDecision SortOrder.
Proof. solve_decision. Defined.
#[export] Instance SortOrder_literal : Literal SortOrder.
Proof.
  refine {| lit_name o := match o with Order_asc => u! "asc" | Order_desc => u! "desc" end;
            lit_values := [Order_asc; Order_desc] |}; literal_laws.
Defined.

Record AlertListQuery := mkAlertListQuery {
  aq_time : DashboardTimeQuery;
  aq_page : Z; aq_size : Z;
  aq_sortBy : AlertSortBy; aq_sortOrder : SortOrder;
  aq_status : option AlertStatus;
  aq_severity : option Severity;
  aq_endpointId : option Z;
  aq_ruleCode : option ustring;
}.

Record IncidentListQuery := mkIncidentListQuery {
  iq_time : DashboardTimeQuery;
  iq_page : Z; iq_size : Z;
  iq_sortOrder : SortOrder;
  iq_status : IncidentStatus;
  iq_severity : option Severity;
  iq_endpointId : option Z;
}.

Section queries.
Context `{DateHost}.

Definition alertTriageQueueQuery (params : URLSearchParams) : AlertListQuery :=
  let ruleCode := trim (default [] (params_get params (u! "ruleCode"))) in
  mkAlertListQuery (tf_query (readTimeFilter params)) 1 500
    (default AlertSort_priority (allowedValue (params_get params (u! "sortBy"))
       [AlertSort_priority; AlertSort_detectedAt; AlertSort_severity; AlertSort_riskScore; AlertSort_status]))
    (default Order_desc (allowedValue (params_get params (u! "sortOrder")) [Order_asc; Order_desc]))
    (allowedValue (params_get params (u! "status")) [Alert_OPEN; Alert_IN_PROGRESS; Alert_RESOLVED])
    (allowedValue (params_get params (u! "severity"))
       [Severity_LOW; Severity_MEDIUM; Severity_HIGH; Severity_CRITICAL])
    (positiveInteger (params_get params (u! "endpointId")))
    (if truthy ruleCode then Some ruleCode else None).

Definition incidentQueueQuery (params : URLSearchParams) : IncidentListQuery :=
  mkIncidentListQuery (tf_query (readTimeFilter params)) 1 500
    (default Order_desc (allowedValue (params_get params (u! "sortOrder")) [Order_asc; Order_desc]))
    (default Incident_OPEN (allowedValue (params_get params (u! "status")) [Incident_OPEN; Incident_CLOSED]))
    (allowedValue (params_get params (u! "severity"))
       [Severity_LOW; Severity_MEDIUM; Severity_HIGH; Severity_CRITICAL])
    (positiveInteger (params_get params (u! "endpointId"))).
End queries.

(** ** Reading and writing parameters *)

(** Distinct literals of the source. *)
Ltac lit_ne := let E := fresh in intros E; vm_compute in E; discriminate E.

Lemma params_get_usv p k k' : usv k = usv k' → params_get p k = params_get p k'.
Proof. intros E. unfold params_get. by rewrite E. Qed.

Lemma updates_get values cur k :
  params_get (foldl update_one cur values) k =
  match js_find (λ kv, bool_decide (usv kv.1 = usv k)) (reverse values) with
  | Some kv => usv <$> param_text kv.2
  | None => params_get cur k
  end.
Proof.
  induction values as [|kv values IH] using rev_ind; [done|].
  rewrite foldl_snoc, reverse_snoc. cbn [js_find]. unfold update_one at 1.
  destruct (decide (usv kv.1 = usv k)) as [E|E];
    [rewrite bool_decide_eq_true_2 by done|rewrite bool_decide_eq_false_2 by done].
  - destruct (param_text kv.2); cbn [fmap option_fmap option_map].
    + rewrite params_get_set, decide_True by done. done.
    + rewrite (params_get_usv _ _ kv.1) by done. apply params_get_delete_eq.
  - rewrite <- IH. destruct (param_text kv.2).
    + rewrite params_get_set. by rewrite decide_False by congruence.
    + apply params_get_delete_ne. congruence.
Qed.

Lemma updates_others values cur (q : ustring → bool) :
  Forall (λ kv, q (usv kv.1) = false) values →
  params_where q (foldl update_one cur values) = params_where q cur.
Proof.
  intros Hq. induction values as [|kv values IH] using rev_ind; [done|].
  apply Forall_app in Hq as [Hv Hkv]. rewrite Forall_singleton in Hkv.
  rewrite foldl_snoc, <- IH by done. unfold update_one.
  assert (∀ p, params_where q (params_delete kv.1 p) = params_where q p) as Hd.
  { intros p. unfold params_where, params_delete. induction p as [|a p IHp]; [done|].
    rewrite !js_filter_cons. destruct (decide (a.1 = usv kv.1)) as [E|E].
    - rewrite bool_decide_eq_true_2 by done. cbn [negb]. by rewrite IHp, E, Hkv.
    - rewrite bool_decide_eq_false_2 by done. cbn [negb]. by rewrite js_filter_cons, IHp. }
  destruct (param_text kv.2) as [s|]; [|apply Hd].
  rewrite <- Hd, params_set_others. apply Hd.
Qed.

(** ** The time filter *)

Section time_filter.
Context `{DateHost}.

Lemma timePreset_raw params t :
  params_get params (u! "timePreset") = Some (lit_name t) → timePreset params = t.
Proof.
  intros Hg. unfold timePreset. rewrite Hg. cbn [mbind option_bind]. destruct t; by vm_compute.
Qed.

Lemma preset_names raw :
  str_in raw (map lit_name (lit_values : list TimePreset)) = true ↔ ∃ t : TimePreset, raw = lit_name t.
Proof.
  rewrite str_in_true, list_elem_of_fmap. split; [intros (t & -> & _); by exists t|].
  intros (t & ->). exists t. split; [done|apply lit_complete].
Qed.

Lemma preset_name_wf (t : TimePreset) : usv (lit_name t) = lit_name t ∧ well_formed (lit_name t).
Proof.
  assert (Forall (λ c, 0 ≤ c < 128) (lit_name t)) as Ha
    by (apply (bool_decide_unpack _); destruct t; by vm_compute).
  split; [by apply usv_lit_units|]. rewrite <- usv_lit_units by done. apply well_formed_usv.
  eapply Forall_impl; [exact Ha|]. simpl. lia.
Qed.

(** The filter read from a query depends on three parameters only. *)
Lemma readTimeFilter_ext p q :
  (∀ k, k ∈ [u! "timePreset"; u! "from"; u! "to"] → params_get p k = params_get q k) →
  readTimeFilter p = readTimeFilter q.
Proof.
  intros Hk. unfold readTimeFilter, timePreset.
  rewrite !(Hk (u! "timePreset")), !(Hk (u! "from")), !(Hk (u! "to"));
    [done|by_compute..].
Qed.

Lemma custom_range_Some params from to :
  custom_range params = Some (from, to) →
  params_get params (u! "from") = Some from ∧ params_get params (u! "to") = Some to ∧
  truthy from = true ∧ truthy to = true ∧ time_lt from to = true.
Proof.
  unfold custom_range, time_lt.
  destruct (params_get params (u! "from")) as [f|]; [|done].
  destruct (params_get params (u! "to")) as [t|]; [|done].
  destruct (truthy f && truthy t) eqn:E; [|done]. apply andb_true_iff in E as [E1 E2].
  destruct (Date_parse f) as [a|] eqn:Ha; [|done]. destruct (Date_parse t) as [b|] eqn:Hb; [|done].
  destruct (b <=? a) eqn:Hab; [done|]. intros [= <- <-]. rewrite Ha, Hb. breflect.
  split_and!; try done. by apply Z.ltb_lt.
Qed.

Lemma custom_range_None params :
  custom_range params = None ↔
  truthy_opt (params_get params (u! "from")) && truthy_opt (params_get params (u! "to"))
    && time_lt (default [] (params_get params (u! "from"))) (default [] (params_get params (u! "to"))) = false.
Proof.
  unfold custom_range, time_lt.
  destruct (params_get params (u! "from")) as [f|]; [|done].
  destruct (params_get params (u! "to")) as [t|]; [|by rewrite andb_false_r].
  cbn [truthy_opt default from_option Datatypes.id]. destruct (truthy f && truthy t); [|done].
  destruct (Date_parse f) as [a|]; [|done]. destruct (Date_parse t) as [b|]; [|done].
  cbn [andb]. rewrite Z.ltb_antisym. destruct (b <=? a); by split.
Qed.

(** What the scope of a link keeps: the preset, and the range of a custom one. *)
Lemma scope_params params scope :
  params_ok params → navigationTimeScope params = Some scope →
  ∃ t p, params_get params (u! "timePreset") = Some (lit_name t) ∧ params_ok p ∧ scope = params_string p ∧
    params_get p (u! "timePreset") = Some (lit_name t) ∧
    (t = Preset_CUSTOM → ∃ from to, custom_range params = Some (from, to) ∧
       params_get p (u! "from") = Some from ∧ params_get p (u! "to") = Some to) ∧
    (t ≠ Preset_CUSTOM → params_get p (u! "from") = None ∧ params_get p (u! "to") = None).
Proof.
  intros Hok. unfold navigationTimeScope.
  destruct (params_get params (u! "timePreset")) as [raw|] eqn:Hraw; [|done].
  destruct (truthy raw && _) eqn:E; [|done]. apply andb_true_iff in E as [_ (t & ->)%preset_names].
  destruct (preset_name_wf t) as [Hu Hwf].
  set (base := params_of_record _).
  assert (base = [(u! "timePreset", lit_name t)]) as Hbase.
  { subst base. unfold params_of_record. cbn [map fst snd]. rewrite Hu. reflexivity. }
  assert (params_ok base) as Hb.
  { rewrite Hbase. apply Forall_singleton. split; [|done]. exists (u! "timePreset").
    split; [by_compute|by vm_compute]. }
  assert (∀ k, k ∈ [u! "from"; u! "to"] → params_get base k = None) as Hn.
  { intros k Hk. rewrite Hbase, params_get_cons. cbn [fst].
    rewrite bool_decide_eq_false_2; [done|].
    apply elem_of_cons in Hk as [->|Hk]; [lit_ne|apply list_elem_of_singleton in Hk as ->; lit_ne]. }
  assert (params_get base (u! "timePreset") = Some (lit_name t)) as Hp.
  { rewrite Hbase, params_get_cons. cbn [fst snd]. by rewrite bool_decide_eq_true_2 by by vm_compute. }
  destruct (decide (lit_name t = u! "CUSTOM")) as [Hc|Hc].
  - assert (t = Preset_CUSTOM) as -> by (destruct t; vm_compute in Hc; congruence || done).
    destruct (custom_range params) as [[from to]|] eqn:Hr; [|done]. intros [= <-].
    destruct (custom_range_Some _ _ _ Hr) as (Hf & Ht & _).
    assert (∀ k v, params_get params k = Some v → well_formed v) as Hv.
    { intros k v. unfold params_get. intros ([n w] & Hj & Hw)%fmap_Some. apply js_find_Some in Hj as [Hj _].
      unfold params_ok in Hok. rewrite Forall_forall in Hok. destruct (Hok _ Hj) as [_ ?]. simpl in *. congruence. }
    pose proof (Hv _ _ Hf) as Wf. pose proof (Hv _ _ Ht) as Wt.
    exists Preset_CUSTOM, (params_set (u! "to") to (params_set (u! "from") from base)).
    split_and!; [done| |done|..].
    + apply params_ok_set; [by_compute|by apply well_formed_units|].
      apply params_ok_set; [by_compute|by apply well_formed_units|done].
    + rewrite !params_get_set, !decide_False by lit_ne. done.
    + intros _. exists from, to. split; [done|]. rewrite !params_get_set.
      rewrite (decide_False (P := usv (u! "from") = usv (u! "to"))) by lit_ne.
      rewrite !decide_True by done. by rewrite !usv_well_formed.
    + done.
  - intros [= <-]. exists t, base. split_and!; try done.
    intros ->. by destruct Hc.
Qed.

Lemma readTimeFilter_of params t :
  params_get params (u! "timePreset") = Some (lit_name t) →
  tf_preset (readTimeFilter params) = t ∧
  tf_valid (readTimeFilter params) =
    (negb (bool_decide (t = Preset_CUSTOM)) || match custom_range params with Some _ => true | None => false end) ∧
  tf_query (readTimeFilter params) =
    (if bool_decide (t = Preset_CUSTOM) && truthy_opt (params_get params (u! "from"))
        && truthy_opt (params_get params (u! "to"))
     then mkTimeQuery t (params_get params (u! "from")) (params_get params (u! "to"))
     else mkTimeQuery t None None).
Proof.
  intros Hg. unfold readTimeFilter. rewrite (timePreset_raw _ _ Hg), Hg. cbn [tf_preset tf_valid tf_query].
  split_and!; [done| |done].
  rewrite (proj2 (preset_names (lit_name t))) by by exists t. cbn [andb]. f_equal.
  destruct (custom_range params) as [[from to]|] eqn:Hr.
  - apply custom_range_Some in Hr as (-> & -> & H1 & H2 & H3). cbn. by rewrite H1, H2, H3.
  - by apply custom_range_None in Hr.
Qed.

(** A link's time scope restores the filter it was built from. *)
Lemma scope_restores params scope :
  params_ok params → navigationTimeScope params = Some scope →
  tf_valid (readTimeFilter (params_of_string scope)) = true ∧
  tf_preset (readTimeFilter (params_of_string scope)) = tf_preset (readTimeFilter params) ∧
  tf_query (readTimeFilter (params_of_string scope)) = tf_query (readTimeFilter params).
Proof.
  intros Hok Hs. destruct (scope_params _ _ Hok Hs) as (t & p & Ht & Hp & -> & Hpt & Hcustom & Hother).
  rewrite (proj1 (params_of_string_string p Hp)).
  destruct (readTimeFilter_of params t Ht) as (P1 & P2 & P3).
  destruct (readTimeFilter_of p t Hpt) as (Q1 & Q2 & Q3).
  rewrite P1, Q1, P3, Q3, Q2. destruct (decide (t = Preset_CUSTOM)) as [->|Hne].
  - destruct (Hcustom eq_refl) as (from & to & Hr & Hf & Hto).
    pose proof (custom_range_Some _ _ _ Hr) as (Gf & Gt & T1 & T2 & T3).
    rewrite Gf, Gt, Hf, Hto. split_and!; [|done|done].
    cbn. assert (custom_range p = Some (from, to)) as ->; [|done].
    revert Hr. unfold custom_range. by rewrite Gf, Gt, Hf, Hto.
  - rewrite bool_decide_eq_false_2 by done. done.
Qed.

(** There is a scope to pass on exactly when a readable filter was chosen. *)
Lemma scope_defined params :
  is_Some (navigationTimeScope params) ↔
  is_Some (params_get params (u! "timePreset")) ∧ tf_valid (readTimeFilter params) = true.
Proof.
  unfold navigationTimeScope.
  destruct (params_get params (u! "timePreset")) as [raw|] eqn:Hraw; [|unfold is_Some; naive_solver].
  destruct (str_in raw (map lit_name (lit_values : list TimePreset))) eqn:E.
  - pose proof E as (t & ->)%preset_names.
    destruct (readTimeFilter_of params t Hraw) as (_ & -> & _).
    assert (truthy (lit_name t) = true) as -> by (by destruct t). cbn [andb].
    destruct (decide (lit_name t = u! "CUSTOM")) as [Hc|Hc].
    + assert (t = Preset_CUSTOM) as -> by (destruct t; vm_compute in Hc; congruence || done).
      cbn. destruct (custom_range params) as [[from to]|]; cbn; unfold is_Some; naive_solver.
    + rewrite bool_decide_eq_false_2 by (by intros ->). unfold is_Some. naive_solver.
  - rewrite andb_false_r. unfold readTimeFilter. rewrite Hraw, E. cbn. unfold is_Some. naive_solver.
Qed.
End time_filter.

(** ** Lists *)

Lemma js_find_filter {A} (f : A → bool) l :
  js_find f l = match js_filter f l with [] => None | x :: _ => Some x end.
Proof.
  induction l as [|a l IH]; [done|]. rewrite js_filter_cons. cbn [js_find]. by destruct (f a).
Qed.

Lemma js_find_app {A} (f : A → bool) l1 l2 :
  js_find f (l1 ++ l2) = match js_find f l1 with Some x => Some x | None => js_find f l2 end.
Proof. induction l1 as [|a l1 IH]; [done|]. cbn [app js_find]. by destruct (f a). Qed.

Lemma js_find_ext {A} (f g : A → bool) l : (∀ x, x ∈ l → f x = g x) → js_find f l = js_find g l.
Proof.
  induction l as [|a l IH]; intros Hfg; [done|]. cbn [js_find].
  rewrite (Hfg a) by (apply elem_of_cons; auto). rewrite IH; [done|].
  intros x Hx. apply Hfg, elem_of_cons. auto.
Qed.

Definition actionable (currentAlertId : Z) (a : AlertDto) : bool :=
  negb (is_resolved a) && negb (alert_alertId a =? currentAlertId).

Lemma after_alert_split cur items :
  match after_alert cur items with
  | Some rest => ∃ before c, items = before ++ c :: rest ∧ alert_alertId c = cur
  | None => ∀ a, a ∈ items → alert_alertId a ≠ cur
  end.
Proof.
  induction items as [|a items IH]; cbn [after_alert]; [intros a; no_elem|].
  destruct (Z.eqb_spec (alert_alertId a) cur); [by exists [], a|].
  destruct (after_alert cur items).
  - destruct IH as (before & c & -> & Hc). by exists (a :: before), c.
  - intros b [->|Hb]%elem_of_cons; [done|by apply IH].
Qed.

Lemma next_alert_unfold items cur :
  nextActionableAlert items cur =
  match js_find (actionable cur) items with
  | None => None
  | Some first =>
    match after_alert cur items with
    | None => Some first
    | Some rest => Some (default first (js_find (λ item, negb (is_resolved item)) rest))
    end
  end.
Proof.
  rewrite js_find_filter. unfold nextActionableAlert.
  change (js_filter (λ item, _) items) with (js_filter (actionable cur) items).
  by destruct (js_filter (actionable cur) items).
Qed.

Lemma next_alert_rotation before c rest :
  NoDup (alert_alertId <$> before ++ c :: rest) →
  nextActionableAlert (before ++ c :: rest) (alert_alertId c) =
  js_find (actionable (alert_alertId c)) (rest ++ before).
Proof.
  intros Hnd. set (cur := alert_alertId c) in *.
  assert (∀ a, a ∈ before ++ rest → alert_alertId a ≠ cur) as Hid.
  { intros a Ha E. rewrite fmap_app in Hnd. csimpl in Hnd. apply NoDup_app in Hnd as (_ & H1 & H2).
    apply elem_of_app in Ha as [Ha|Ha].
    - apply (H1 (alert_alertId a)); [by apply list_elem_of_fmap_2|]. rewrite E. apply elem_of_cons. auto.
    - apply NoDup_cons in H2 as [H2 _]. apply H2.
      replace (alert_alertId c) with (alert_alertId a) by done. by apply list_elem_of_fmap_2. }
  assert (after_alert cur (before ++ c :: rest) = Some rest) as Hafter.
  { assert (∀ l, (∀ a, a ∈ l → alert_alertId a ≠ cur) → after_alert cur (l ++ c :: rest) = Some rest) as Hl.
    { induction l as [|a l IH]; intros Hl; cbn [app after_alert]; [by rewrite Z.eqb_refl|].
      destruct (Z.eqb_spec (alert_alertId a) cur) as [E|_]; [by apply Hl in E; [|apply elem_of_cons; auto]|].
      apply IH. intros b Hb. apply Hl, elem_of_cons. auto. }
    apply Hl. intros a Ha. apply Hid, elem_of_app. auto. }
  assert (js_find (λ a, negb (is_resolved a)) rest = js_find (actionable cur) rest) as Hrest.
  { apply js_find_ext. intros a Ha. unfold actionable.
    rewrite (proj2 (Z.eqb_neq _ _)); [by rewrite andb_true_r|]. apply Hid, elem_of_app. auto. }
  rewrite next_alert_unfold, Hafter, Hrest. clear Hafter Hrest Hid Hnd.
  assert (actionable cur c = false) as Hc by (unfold actionable, cur; by rewrite Z.eqb_refl, andb_false_r).
  rewrite !js_find_app. cbn [js_find]. rewrite Hc.
  destruct (js_find (actionable cur) before), (js_find (actionable cur) rest); done.
Qed.

Lemma next_alert_absent items cur :
  (∀ a, a ∈ items → alert_alertId a ≠ cur) →
  nextActionableAlert items cur = js_find (actionable cur) items.
Proof.
  intros Hn. rewrite next_alert_unfold. destruct (js_find (actionable cur) items); [|done].
  pose proof (after_alert_split cur items) as Ha.
  destruct (after_alert cur items); [|done]. destruct Ha as (before & c & -> & Hc).
  exfalso. apply (Hn c); [apply elem_of_app; right; apply elem_of_cons; auto|done].
Qed.

(** ** Descriptors and endpoint lists *)

(** The names [removeListFilter] clears. *)
Definition cleared (key : ustring) : list ustring :=
  u! "page" :: key :: (if decide (key = u! "timePreset") then [u! "from"; u! "to"] else []).

(** A parameter that removing the filter leaves alone. *)
Definition survives (key k : ustring) : bool := negb (bool_decide (usv k ∈ usv <$> cleared key)).

Lemma removeListFilter_get params key k :
  params_get (removeListFilter params key) k =
  if bool_decide (usv k ∈ usv <$> cleared key) then None else params_get params k.
Proof.
  unfold removeListFilter, cleared.
  assert (∀ p a, params_get (params_delete a p) k =
    if decide (usv k = usv a) then None else params_get p k) as Hd.
  { intros p a. case_decide as E; [|by apply params_get_delete_ne].
    rewrite (params_get_usv _ _ a) by done. apply params_get_delete_eq. }
  destruct (decide (key = u! "timePreset")); rewrite !Hd; csimpl;
    repeat case_decide; case_bool_decide as Hb; try done; exfalso; revert Hb;
    rewrite ?elem_of_cons, ?elem_of_nil; naive_solver.
Qed.

Lemma descriptors_restrict params params' (q : ustring → bool) defs :
  (∀ k, params_get params' k = if q k then params_get params k else None) →
  appliedFilterDescriptors params' defs =
  js_filter (λ d, q (af_key d)) (appliedFilterDescriptors params defs).
Proof.
  intros Hq. unfold appliedFilterDescriptors. induction defs as [|d defs IH]; [done|]. cbn [flat_map].
  rewrite IH, Hq. unfold js_filter. rewrite List.filter_app. f_equal.
  destruct (params_get params (fd_key d)) as [v|]; [|by destruct (q (fd_key d))].
  destruct (q (fd_key d)) eqn:E; destruct (truthy v); cbn; rewrite ?E; done.
Qed.

Lemma omap_positive_strings ids :
  Forall (λ n, 0 < n ≤ 2 ^ 53) ids →
  omap (λ part, positive_int (number_of (trim part))) (map string_of_Z ids) = ids.
Proof.
  induction 1 as [|n ids Hn Hids IH]; [done|]. cbn [map]. csimpl.
  assert (Forall (λ c, is_digit c = true) (string_of_Z n)) as Hd.
  { unfold string_of_Z. destruct (Z.ltb_spec n 0); [lia|]. apply dec_string_spec. lia. }
  rewrite (trim_no_space (string_of_Z n)) by by apply digits_no_space.
  rewrite number_of_string_of_Z, positive_int_Z by lia. f_equal. apply IH.
Qed.

Lemma endpoint_text ids :
  ids ≠ [] → Forall (λ n, 0 < n ≤ 2 ^ 53) ids →
  split_on 44 (join [44%Z] (map string_of_Z ids)) = map string_of_Z ids ∧
  truthy (trim (join [44%Z] (map string_of_Z ids))) = true.
Proof.
  intros Hne Hids.
  assert (Forall (λ s : ustring, Forall (λ c, is_digit c = true) s ∧ s ≠ []) (map string_of_Z ids)) as Hd.
  { apply Forall_fmap. eapply Forall_impl; [exact Hids|]. intros n Hn. cbv beta in Hn. simpl. unfold string_of_Z.
    destruct (Z.ltb_spec n 0); [lia|]. destruct (dec_string_spec n) as (H1 & H2 & _); [lia|done]. }
  split.
  - apply split_on_join; [by destruct ids|]. eapply Forall_impl; [exact Hd|].
    intros s [Hs _] Hin. rewrite Forall_forall in Hs. by specialize (Hs _ Hin).
  - assert (Forall (λ c, is_space c = false) (join [44%Z] (map string_of_Z ids))) as Hsp.
    { apply join_ascii; [by apply Forall_singleton|]. eapply Forall_impl; [exact Hd|].
      intros s [Hs _]. by apply digits_no_space. }
    rewrite trim_no_space by done. destruct ids as [|n ids]; [done|]. cbn [map] in *.
    apply Forall_cons in Hd as [[_ Hn] _]. unfold join. fold join.
    destruct (map string_of_Z ids), (string_of_Z n); done.
Qed.

(** ** The link to an event and back *)

Lemma return_search params eventId :
  search_of (event_return_params params eventId) = u! "?" ++ params_string (event_return_params params eventId).
Proof.
  unfold search_of. destruct (event_return_params params eventId) eqn:E; [|done]. exfalso.
  assert (params_get (event_return_params params eventId) (u! "selected") = Some (usv eventId)) as Hg
    by (unfold event_return_params; by rewrite params_get_set, decide_True).
  by rewrite E in Hg.
Qed.

Lemma return_params_ok params eventId :
  params_ok params → well_formed eventId → params_ok (event_return_params params eventId).
Proof.
  intros. apply params_ok_set; [by_compute|by apply well_formed_units|done].
Qed.

(** The parameters the detail page parses. *)
Lemma detail_params params eventId endpointId occurredAt :
  params_ok params → well_formed eventId → well_formed occurredAt → 0 < endpointId →
  params_of_string (eventDetailSearch params eventId endpointId occurredAt) =
  [(u! "endpointId", string_of_Z endpointId); (u! "occurredAt", occurredAt);
   (u! "returnTo", u! "/events?" ++ params_string (event_return_params params eventId))].
Proof.
  intros Hok He Ho Hid. pose proof (return_params_ok _ _ Hok He) as Hback.
  pose proof (string_of_Z_ascii endpointId) as Hdigits.
  unfold eventDetailSearch. rewrite return_search.
  set (back := event_return_params params eventId) in *.
  change (u! "/events" ++ u! "?" ++ params_string back) with (u! "/events?" ++ params_string back).
  assert (Forall (λ c, 0 ≤ c < 128) (u! "/events?" ++ params_string back)) as Hascii.
  { apply Forall_app. split; [by_compute|].
    eapply Forall_impl; [by apply params_string_ascii|]. intros c Hc. apply Hc. }
  set (record := params_of_record _). assert (params_ok record) as Hrok.
  { apply params_ok_record. rewrite !Forall_cons, Forall_nil. cbn [fst snd].
    assert (∀ s, Forall (λ c, 0 ≤ c < 128) s → units_ok s) as Ha
      by (intros s Hs; eapply Forall_impl; [exact Hs|]; simpl; lia).
    split_and!; try done; first [by apply Ha|by apply well_formed_units|by_compute]. }
  change (u! "?" ++ params_string record) with (63 :: params_string record).
  rewrite (proj2 (params_of_string_string record Hrok)). subst record. unfold params_of_record. cbn [map fst snd].
  rewrite (usv_lit_units _ Hascii), (usv_lit_units _ Hdigits), (usv_well_formed occurredAt) by done. reflexivity.
Qed.

(** ** Claims *)

(** A query update sets exactly what it is asked to: every name among the
    values reads as its last value (or is absent when that is empty, null or
    undefined), every other parameter keeps its value, multiplicity and order,
    and the page is dropped when it is to be reset. *)
Theorem updateParams_spec current values resetPage :
  (∀ k, params_get (updateParams current values resetPage) k =
     if resetPage && bool_decide (usv k = usv (u! "page")) then None
     else match js_find (λ kv, bool_decide (usv kv.1 = usv k)) (reverse values) with
          | Some kv => usv <$> param_text kv.2
          | None => params_get current k
          end) ∧
  (∀ q : ustring → bool, Forall (λ kv, q (usv kv.1) = false) values →
     (resetPage = true → q (u! "page") = false) →
     params_where q (updateParams current values resetPage) = params_where q current).
Proof.
  unfold updateParams. split.
  - intros k. destruct resetPage; cbn [andb]; [|apply updates_get]. case_bool_decide as E.
    + rewrite (params_get_usv _ _ (u! "page")) by done. apply params_get_delete_eq.
    + rewrite params_get_delete_ne by done. apply updates_get.
  - intros q Hq Hpage. destruct resetPage; [|by apply updates_others].
    change (params_delete (u! "page") (foldl update_one current values))
      with (foldl update_one (foldl update_one current values) [(u! "page", PNull)]).
    rewrite <- foldl_app. apply updates_others. apply Forall_app. split; [done|].
    apply Forall_singleton. by apply Hpage.
Qed.

(** Removing an applied filter removes its chip and no other: the chips after
    the removal are those before whose parameter is none of the filter's own, its
    range when it is the time preset, and the page. *)
Theorem removeListFilter_descriptors params key defs :
  appliedFilterDescriptors (removeListFilter params key) defs =
  js_filter (λ d, survives key (af_key d)) (appliedFilterDescriptors params defs).
Proof.
  apply (descriptors_restrict _ _ (survives key)). intros k. rewrite removeListFilter_get.
  unfold survives. by case_bool_decide.
Qed.

(** C7: The time scope passed along navigation links restores the filter: it
    exists exactly when a preset was chosen and the filter is valid, and the
    query string it produces, parsed on the next page, is a valid filter with the
    same preset and the same server query. *)
Theorem navigationTimeScope_restores `{DateHost} search :
  units_ok search →
  let params := params_of_string search in
  (is_Some (navigationTimeScope params) ↔
     is_Some (params_get params (u! "timePreset")) ∧ tf_valid (readTimeFilter params) = true) ∧
  (∀ scope, navigationTimeScope params = Some scope →
     let next := readTimeFilter (params_of_string scope) in
     tf_valid next = true ∧ tf_preset next = tf_preset (readTimeFilter params) ∧
     tf_query next = tf_query (readTimeFilter params)).
Proof.
  intros Hs params. split; [apply scope_defined|]. intros scope Hscope.
  apply scope_restores; [by apply params_of_string_ok|done].
Qed.

Lemma navigationTimeScope_restores_witness :
  @navigationTimeScope utc_host (params_of_string (u! "?timePreset=CUSTOM&from=2026-07-14T00%3A00Z&to=2026-07-15T00%3A00Z&page=2"))
    = Some (u! "timePreset=CUSTOM&from=2026-07-14T00%3A00Z&to=2026-07-15T00%3A00Z") ∧
  tf_valid (@readTimeFilter utc_host (params_of_string
    (u! "timePreset=CUSTOM&from=2026-07-14T00%3A00Z&to=2026-07-15T00%3A00Z"))) = true.
Proof.
  assert (units_ok (u! "?timePreset=CUSTOM&from=2026-07-14T00%3A00Z&to=2026-07-15T00%3A00Z&page=2")) as Hu
    by (by_compute).
  assert (@navigationTimeScope utc_host (params_of_string (u! "?timePreset=CUSTOM&from=2026-07-14T00%3A00Z&to=2026-07-15T00%3A00Z&page=2"))
    = Some (u! "timePreset=CUSTOM&from=2026-07-14T00%3A00Z&to=2026-07-15T00%3A00Z")) as Hn
    by (vm_compute; reflexivity).
  split; [exact Hn|].
  exact (proj1 (proj2 (@navigationTimeScope_restores utc_host _ Hu) _ Hn)).
Defined.

(** The link from the event list to an event and back: the query it carries is
    accepted by the detail page, and the return path found there is the events
    page whose query, parsed, is the list's own with the event selected. *)
Theorem eventDetailSearch_returns `{DateHost} params eventId endpointId occurredAt fallback :
  params_ok params → well_formed eventId → well_formed occurredAt →
  0 < endpointId ≤ 2 ^ 53 → is_Some (Date_parse occurredAt) →
  let detail := params_of_string (eventDetailSearch params eventId endpointId occurredAt) in
  let back := event_return_params params eventId in
  validEventDetailQuery detail = true ∧
  safeReturnPath detail fallback = u! "/events?" ++ params_string back ∧
  params_of_string (params_string back) = back ∧ isSelected back eventId = true.
Proof.
  intros Hok He Ho Hid [t Ht]. cbv zeta. rewrite detail_params by (done || lia). split_and!.
  - unfold validEventDetailQuery. rewrite !params_get_cons. cbn [fst snd].
    rewrite (bool_decide_eq_true_2 (u! "endpointId" = usv (u! "endpointId"))) by reflexivity.
    rewrite (bool_decide_eq_false_2 (u! "endpointId" = usv (u! "occurredAt"))) by lit_ne.
    rewrite (bool_decide_eq_true_2 (u! "occurredAt" = usv (u! "occurredAt"))) by reflexivity.
    cbn [number_of_opt]. by rewrite number_of_string_of_Z, positive_int_Z, Ht by lia.
  - unfold safeReturnPath. rewrite !params_get_cons. cbn [fst snd].
    rewrite (bool_decide_eq_false_2 (u! "endpointId" = usv (u! "returnTo"))) by lit_ne.
    rewrite (bool_decide_eq_false_2 (u! "occurredAt" = usv (u! "returnTo"))) by lit_ne.
    rewrite (bool_decide_eq_true_2 (u! "returnTo" = usv (u! "returnTo"))) by reflexivity.
    reflexivity.
  - apply params_of_string_string. by apply return_params_ok.
  - unfold isSelected, event_return_params. rewrite params_get_set, decide_True by done.
    rewrite usv_well_formed by done. by apply bool_decide_eq_true.
Qed.

Lemma eventDetailSearch_returns_witness :
  @validEventDetailQuery utc_host (params_of_string
    (eventDetailSearch (params_of_string (u! "?status=OPEN&page=2")) (u! "event-1") 1001 (u! "2026-07-15T03:00:00Z")))
  = true.
Proof.
  assert (Hw : ∀ s : ustring, Forall (λ c, 0 ≤ c < 128) s → well_formed s).
  { intros s Hs. rewrite <- (usv_lit_units s Hs). apply well_formed_usv.
    eapply Forall_impl; [exact Hs|]. simpl. intros. lia. }
  refine (proj1 (@eventDetailSearch_returns utc_host (params_of_string (u! "?status=OPEN&page=2"))
    (u! "event-1") 1001 (u! "2026-07-15T03:00:00Z") [] _ _ _ _ _)).
  - apply params_of_string_ok. by_compute.
  - apply Hw. by_compute.
  - apply Hw. by_compute.
  - lia.
  - vm_compute. eexists. reflexivity.
Defined.

(** A list of endpoint ids survives its trip through the URL: parsing any text
    gives at most 100 distinct positive ids, and parsing the comma-separated text
    of at most 100 distinct ids gives them back in order. *)
Theorem parseEndpointIds_spec :
  (∀ value, (length (parseEndpointIds value) ≤ 100)%nat ∧ NoDup (parseEndpointIds value) ∧
     Forall (λ n, 0 < n) (parseEndpointIds value)) ∧
  (∀ ids, NoDup ids → (length ids ≤ 100)%nat → Forall (λ n, 0 < n ≤ 2 ^ 53) ids →
     parseEndpointIds (Some (join [44] (map string_of_Z ids))) = ids).
Proof.
  split.
  - intros [v|]; [|split_and!; [simpl; lia|constructor..]]. unfold parseEndpointIds.
    destruct (truthy (trim v)); [|split_and!; [simpl; lia|constructor..]].
    set (l := omap _ _). split_and!.
    + rewrite length_take. lia.
    + eapply sublist_NoDup; [apply (js_unique_NoDup l)|]. apply sublist_take.
    + apply Forall_take. apply Forall_forall. intros n Hn. rewrite js_unique_elem in Hn.
      apply list_elem_of_omap in Hn as (part & _ & Hp). by eapply positive_int_pos.
  - intros ids Hnd Hlen Hids. destruct ids as [|n ids]; [done|]. unfold parseEndpointIds.
    destruct (endpoint_text (n :: ids)) as [-> ->]; [done|done|].
    rewrite omap_positive_strings, js_unique_id by done. by apply take_ge.
Qed.

(** After handling an alert, the next one offered is the first alert still to
    be handled in cyclic order after it in the queue (from the top when it is not
    in the queue), and there is none exactly when no other alert is open. *)
Theorem nextActionableAlert_spec items cur :
  NoDup (alert_alertId <$> items) →
  (∀ before c rest, items = before ++ c :: rest → alert_alertId c = cur →
     nextActionableAlert items cur = js_find (actionable cur) (rest ++ before)) ∧
  ((∀ a, a ∈ items → alert_alertId a ≠ cur) →
     nextActionableAlert items cur = js_find (actionable cur) items) ∧
  (nextActionableAlert items cur = None ↔ ∀ a, a ∈ items → actionable cur a = false).
Proof.
  intros Hnd. split_and!.
  - intros before c rest -> <-. by apply next_alert_rotation.
  - by apply next_alert_absent.
  - rewrite next_alert_unfold, <- js_find_None.
    destruct (js_find (actionable cur) items); [|done]. by destruct (after_alert cur items).
Qed.

Definition sample_alert (id : Z) (st : AlertStatus) : AlertDto :=
  mkAlertDto [] id None [] [] 1 [] [] [] [] [] [] 50 [] [] 1 Severity_HIGH st [] [] [].

Lemma nextActionableAlert_spec_witness :
  nextActionableAlert [sample_alert 1 Alert_OPEN; sample_alert 2 Alert_RESOLVED; sample_alert 3 Alert_OPEN] 3
  = Some (sample_alert 1 Alert_OPEN).
Proof.
  destruct (nextActionableAlert_spec
    [sample_alert 1 Alert_OPEN; sample_alert 2 Alert_RESOLVED; sample_alert 3 Alert_OPEN] 3) as (H & _).
  - by_compute.
  - rewrite (H [sample_alert 1 Alert_OPEN; sample_alert 2 Alert_RESOLVED] (sample_alert 3 Alert_OPEN) []);
      reflexivity.
Defined.
