(* ===== verification/ProcessTree.v ===== *)
(** * Process trees

    Models frontend/src/features/processTree.ts and [layoutProcessTree] of
    frontend/src/components/ProcessTree.tsx, which lay processes out as a forest
    by depth-first search. Both run the same traversal, modelled once over the
    accessors they use; its recursion gets fuel, and the theorems show that one
    more than the number of processes is enough. *)

From S2P Require Import Prelude JsNumber JsDate Contracts.

Section forest.
Context {A : Type} (pid ppid : A → option Z) (chronological : A → A → comparison).

(** No parent, its own parent, or a parent that was not captured. *)
Definition is_root (known : list Z) (n : A) : bool :=
  match ppid n with
  | None => true
  | Some q => bool_decide (pid n = Some q) || negb (bool_decide (q ∈ known))
  end.

(** The loop that fills the [children] map and the list of roots. *)
Definition classify (known : list Z) (acc : list (Z * list A) * list A) (n : A)
  : list (Z * list A) * list A :=
  if is_root known n then (acc.1, acc.2 ++ [n])
  else match ppid n with
       | Some q => (map_set q (default [] (map_get q acc.1) ++ [n]) acc.1, acc.2)
       | None => acc
       end.

Definition sort_children (children : list (Z * list A)) : list (Z * list A) :=
  map (λ kv, (kv.1, js_sort chronological kv.2)) children.

(** The pids visited, and the nodes laid out with their depths. *)
Abbreviation layout_state := (list Z * list (A * Z))%type.

(** [None]: out of fuel. *)
Fixpoint visit (fuel : nat) (children : list (Z * list A)) (st : layout_state) (n : A) (depth : Z)
  : option layout_state :=
  match fuel with
  | O => None
  | S fuel =>
    match pid n with
    | None => Some st
    | Some p =>
      if decide (p ∈ st.1) then Some st
      else foldM (λ st child, visit fuel children st child (Z.min (depth + 1) 12))
             (set_add p st.1, st.2 ++ [(n, depth)]) (default [] (map_get p children))
    end
  end.

(** The whole traversal: the roots first, then whatever was not reached. *)
Definition forest (known : list Z) (nodes : list A) : option (list (A * Z)) :=
  let fuel := S (length nodes) in
  let '(children, roots) := foldl (classify known) ([], []) nodes in
  let children := sort_children children in
  st ← foldM (λ st root, visit fuel children st root 0) ([], []) (js_sort chronological roots);
  st ← foldM (λ st n, visit fuel children st n 0) st (js_sort chronological nodes);
  Some st.2.
End forest.

(** ** The two layouts *)

Section layouts.
Context `{DateHost}.

(** [Date.parse(left) - Date.parse(right) || pid - pid] *)
Definition node_chronological : ProcessTreeNodeDto → ProcessTreeNodeDto → comparison :=
  cmp_then (cmp_on ptn_firstSeenAt cmp_time) (cmp_on ptn_pid Z.compare).

Definition layoutProcessTree (nodes : list ProcessTreeNodeDto)
  : option (list (ProcessTreeNodeDto * Z)) :=
  let byPid := map_of (map (λ node, (ptn_pid node, node)) nodes) in
  forest (λ n, Some (ptn_pid n)) ptn_ppid node_chronological byPid.*1 nodes.

Record ProcessTreeNode := mkProcessTreeNode {
  tree_event : EventDto;
  tree_depth : Z;
  tree_orphaned : bool;
  tree_selected : bool;
}.

(** [None]: [toISOString] throws on an unreadable or unrepresentable date. *)
Definition processTreeWindow (occurredAt : ustring) : option (ustring * ustring) :=
  pivot ← Date_parse occurredAt;
  from ← time_clip (pivot - 30 * 60000);
  to ← time_clip (pivot + 5 * 60000);
  Some (toISOString from, toISOString to).

(** [Date.parse(left) >= Date.parse(right)] *)
Definition time_ge (a b : ustring) : bool :=
  match Date_parse a, Date_parse b with Some s, Some t => t <=? s | _, _ => false end.

Definition index_event (byPid : list (Z * EventDto)) (event : EventDto) : list (Z * EventDto) :=
  match event_eventType event, event_pid event with
  | Ev_PROCESS_EXECUTION, Some p =>
    match map_get p byPid with
    | Some existing =>
      if time_ge (event_occurredAt event) (event_occurredAt existing) then map_set p event byPid else byPid
    | None => map_set p event byPid
    end
  | _, _ => byPid
  end.

Definition event_chronological : EventDto → EventDto → comparison :=
  cmp_then (cmp_on event_occurredAt cmp_time) (cmp_on (λ e, default 0 (event_pid e)) Z.compare).

Definition buildProcessTree (events : list EventDto) (selectedPid : option Z)
  : option (list ProcessTreeNode) :=
  let byPid := foldl index_event [] events in
  laid ← forest event_pid event_ppid event_chronological byPid.*1 byPid.*2;
  Some (map (λ entry : EventDto * Z,
    let '(event, depth) := entry in
    mkProcessTreeNode event depth
      (match event_ppid event with
       | Some q => negb (bool_decide (event_pid event = Some q)) && negb (map_has q byPid)
       | None => false
       end)
      (match selectedPid with
       | Some p => bool_decide (event_pid event = Some p)
       | None => false
       end)) laid).
End layouts.

(** ** Soundness of the traversal *)

Section traversal.
Context {A : Type} (pid ppid : A → option Z) (chronological : A → A → comparison).
Context (known : list Z) (nodes : list A).
Context (Hpid : ∀ n, n ∈ nodes → ∃ p, pid n = Some p ∧ p ∈ known).

Abbreviation is_root := (is_root pid ppid known).

Definition entry_pid (e : A * Z) : Z := default 0 (pid e.1).

(** An entry below the top hangs under an earlier entry, its parent. *)
Definition placed_under (earlier : list (A * Z)) (n : A) (depth : Z) : Prop :=
  depth = 0 ∨
  (is_root n = false ∧
   ∃ parent, parent ∈ earlier ∧ ppid n = Some (entry_pid parent) ∧ depth = Z.min (parent.2 + 1) 12).

Record laid_ok (laid : list (A * Z)) : Prop := {
  la_nodup : NoDup (entry_pid <$> laid);
  la_nodes : Forall (λ e, e.1 ∈ nodes ∧ 0 ≤ e.2 ≤ 12) laid;
  la_parents : ∀ l1 e l2, laid = l1 ++ e :: l2 → placed_under l1 e.1 e.2;
}.

Definition state_ok (st : list Z * list (A * Z)) : Prop :=
  st.1 = entry_pid <$> st.2 ∧ laid_ok st.2.

(** The pids not yet visited. *)
Definition remaining (visited : list Z) : nat :=
  length (js_filter (λ p, negb (bool_decide (p ∈ visited))) known).

Lemma remaining_le (l v v' : list Z) :
  (∀ p, p ∈ v → p ∈ v') →
  (length (js_filter (λ p, negb (bool_decide (p ∈ v'))) l)
   ≤ length (js_filter (λ p, negb (bool_decide (p ∈ v))) l))%nat.
Proof.
  intros Hv. unfold js_filter. induction l as [|p l IH]; cbn [List.filter]; [lia|].
  destruct (decide (p ∈ v)) as [Hp|Hp].
  - by rewrite !bool_decide_eq_true_2 by auto.
  - rewrite (bool_decide_eq_false_2 (p ∈ v)) by done. cbn [negb]. case_bool_decide; cbn [negb length]; lia.
Qed.

Lemma remaining_mono v v' : (∀ p, p ∈ v → p ∈ v') → (remaining v' ≤ remaining v)%nat.
Proof. apply remaining_le. Qed.

Lemma remaining_add p v : p ∈ known → p ∉ v → (remaining (v ++ [p]) < remaining v)%nat.
Proof.
  clear Hpid. intros Hp Hv. unfold remaining, js_filter.
  assert (∀ l, (length (List.filter (λ q, negb (bool_decide (q ∈ v ++ [p]))) l)
    ≤ length (List.filter (λ q, negb (bool_decide (q ∈ v))) l))%nat) as Hle
    by (intros l; apply (remaining_le l); intros q Hq; apply elem_of_app; auto).
  induction known as [|q l IH]; [by apply not_elem_of_nil in Hp|]. cbn [List.filter].
  apply elem_of_cons in Hp as [->|Hp].
  - rewrite (bool_decide_eq_true_2 (q ∈ v ++ [q])) by (apply elem_of_app; right; by apply list_elem_of_singleton).
    rewrite (bool_decide_eq_false_2 (q ∈ v)) by done. cbn [negb length]. specialize (Hle l). lia.
  - specialize (IH Hp). destruct (decide (q ∈ v)) as [Hq|Hq].
    + rewrite !bool_decide_eq_true_2 by (done || apply elem_of_app; auto). done.
    + rewrite (bool_decide_eq_false_2 (q ∈ v)) by done. cbn [negb]. case_bool_decide; cbn [negb length]; lia.
Qed.

(** The children recorded for a pid are nodes whose parent it is. *)
Definition children_ok (children : list (Z * list A)) : Prop :=
  ∀ q c, c ∈ default [] (map_get q children) → c ∈ nodes ∧ is_root c = false ∧ ppid c = Some q.

Lemma placed_under_mono l l' n depth :
  (∀ e, e ∈ l → e ∈ l') → placed_under l n depth → placed_under l' n depth.
Proof. intros Hl [Hd|(Hr & parent & Hp & Heq & Hd)]; [by left|right]. eauto 10. Qed.

Lemma laid_snoc laid n depth :
  laid_ok laid → n ∈ nodes → 0 ≤ depth ≤ 12 → default 0 (pid n) ∉ entry_pid <$> laid →
  placed_under laid n depth → laid_ok (laid ++ [(n, depth)]).
Proof.
  intros [H1 H2 H3] Hn Hd Hp Hu. split.
  - rewrite fmap_app. by apply NoDup_snoc.
  - apply Forall_app. split; [done|]. by apply Forall_singleton.
  - intros l1 e l2 E. destruct l2 as [|x l2] using rev_ind.
    + apply app_inj_tail in E as [-> <-]. done.
    + rewrite app_comm_cons, app_assoc in E. apply app_inj_tail in E as [E _]. by eapply H3.
Qed.

Section visiting.
Context (children : list (Z * list A)) (Hch : children_ok children).

(** The entries added between two states have all their children visited, and
    only those of [tops] are at the top. *)
Definition closed_since (st st' : list Z * list (A * Z)) (tops : list A) : Prop :=
  ∀ e, e ∈ st'.2 → e ∈ st.2 ∨
    ((e.2 = 0 → e.1 ∈ tops) ∧
     ∀ c, c ∈ default [] (map_get (entry_pid e) children) → default 0 (pid c) ∈ st'.1).

(** A call of [visit] extends the layout and reaches its node. *)
Definition visited_from (st st' : list Z * list (A * Z)) (n : A) (depth : Z) : Prop :=
  state_ok st' ∧ st.2 `prefix_of` st'.2 ∧ default 0 (pid n) ∈ st'.1 ∧
  closed_since st st' (if decide (depth = 0) then [n] else []).

Definition visit_ok (fuel : nat) : Prop := ∀ st n depth,
  state_ok st → n ∈ nodes → 0 ≤ depth ≤ 12 → (remaining st.1 < fuel)%nat → placed_under st.2 n depth →
  ∃ st', visit pid fuel children st n depth = Some st' ∧ visited_from st st' n depth.

Lemma prefix_visited st st' p :
  state_ok st → state_ok st' → st.2 `prefix_of` st'.2 → p ∈ st.1 → p ∈ st'.1.
Proof.
  intros [-> _] [-> _] [l ->]. rewrite fmap_app, elem_of_app. auto.
Qed.

Lemma visit_children fuel depth l st :
  visit_ok fuel → state_ok st → 0 ≤ depth ≤ 12 → (remaining st.1 < fuel)%nat →
  Forall (λ c, c ∈ nodes ∧ placed_under st.2 c depth) l →
  ∃ st', foldM (λ st c, visit pid fuel children st c depth) st l = Some st' ∧
    state_ok st' ∧ st.2 `prefix_of` st'.2 ∧ Forall (λ c, default 0 (pid c) ∈ st'.1) l ∧
    closed_since st st' (if decide (depth = 0) then l else []).
Proof.
  intros IH. revert st. induction l as [|c l IHl]; intros st Hst Hd Hrem Hl; cbn [foldM].
  { exists st. split_and!; try done. intros e He. by left. }
  apply Forall_cons in Hl as [[Hc Hu] Hl].
  destruct (IH st c depth) as (st1 & -> & Hst1 & Hpre & Hin & Hcl); [done..|]. cbn [mbind option_bind].
  destruct (IHl st1) as (st2 & -> & Hst2 & Hpre2 & Hall & Hcl2); [done|done| | |].
  - eapply Nat.le_lt_trans; [apply remaining_mono|exact Hrem]. intros p. by apply (prefix_visited st st1).
  - eapply Forall_impl; [exact Hl|]. intros x [Hx Hxu]. split; [done|].
    eapply placed_under_mono; [|exact Hxu]. destruct Hpre as [k ->]. intros e He. apply elem_of_app. auto.
  - exists st2. split_and!; [done|done|by etrans| |].
    + constructor; [|done]. by apply (prefix_visited st1 st2).
    + intros e He. destruct (Hcl2 e He) as [He1|[Ht Hk]].
      * destruct (Hcl e He1) as [|[Ht Hk]]; [by left|right]. split.
        -- intros E. specialize (Ht E). case_decide; [|by apply not_elem_of_nil in Ht].
           apply list_elem_of_singleton in Ht as ->. apply elem_of_cons. auto.
        -- intros x Hx. apply (prefix_visited st1 st2); auto.
      * right. split; [|done]. intros E. specialize (Ht E). case_decide; [|done]. apply elem_of_cons. auto.
Qed.

Lemma visit_total fuel : visit_ok fuel.
Proof.
  induction fuel as [|fuel IH]; intros st n depth Hst Hn Hd Hrem Hu; [lia|]. cbn [visit].
  destruct (Hpid n Hn) as (p & Hp & Hk). rewrite Hp. case_decide as Hv.
  { exists st. split; [done|]. split_and!; [done|done|by rewrite Hp|]. intros e He. by left. }
  destruct Hst as [Hst1 Hst2]. unfold set_add. rewrite decide_False by done.
  set (st1 := (st.1 ++ [p], st.2 ++ [(n, depth)])).
  assert (state_ok st1) as Hok1.
  { split; cbn [st1 fst snd].
    - rewrite fmap_app, <- Hst1. cbn. unfold entry_pid. cbn. by rewrite Hp.
    - apply laid_snoc; [done..| |done]. rewrite Hp, <- Hst1. done. }
  destruct (visit_children fuel (Z.min (depth + 1) 12) (default [] (map_get p children)) st1 IH Hok1)
    as (st2 & -> & Hst2' & Hpre & Hall & Hcl).
  - lia.
  - pose proof (remaining_add p st.1 Hk Hv). cbn [st1 fst]. lia.
  - apply Forall_forall. intros c Hc. destruct (Hch p c Hc) as (Hcn & Hcr & Hcp). split; [done|].
    right. split; [done|]. exists (n, depth). split_and!.
    + cbn [st1 snd]. apply elem_of_app. right. by apply list_elem_of_singleton.
    + unfold entry_pid. cbn. by rewrite Hp.
    + done.
  - exists st2. split; [done|]. split_and!; [done| | |].
    + etrans; [|exact Hpre]. by exists [(n, depth)].
    + apply (prefix_visited st1 st2); [done..|]. rewrite Hp. cbn [st1 fst].
      apply elem_of_app. right. by apply list_elem_of_singleton.
    + intros e He. destruct (Hcl e He) as [He1|[Ht Hk']].
      * cbn [st1 snd] in He1. apply elem_of_app in He1 as [He1|He1]; [by left|right].
        apply list_elem_of_singleton in He1 as ->. cbn [fst snd]. split.
        -- intros ->. by apply list_elem_of_singleton.
        -- unfold entry_pid. cbn [fst]. rewrite Hp. cbn [default from_option Datatypes.id].
           by rewrite Forall_forall in Hall.
      * right. split; [|done]. intros E. specialize (Ht E). rewrite decide_False in Ht by lia.
        by apply not_elem_of_nil in Ht.
Qed.
End visiting.

(** The classification puts every node among the roots or under its parent. *)
Lemma classify_ok l acc :
  (∀ n, n ∈ l → n ∈ nodes) → children_ok acc.1 → Forall (λ n, n ∈ nodes) acc.2 →
  children_ok (foldl (classify pid ppid known) acc l).1 ∧
  Forall (λ n, n ∈ nodes) (foldl (classify pid ppid known) acc l).2.
Proof.
  revert acc. induction l as [|n l IH]; intros acc Hl Hc Hr; cbn [foldl]; [done|].
  assert (n ∈ nodes) as Hn by (apply Hl, elem_of_cons; auto).
  assert (∀ m, m ∈ l → m ∈ nodes) as Hl' by (intros m Hm; apply Hl, elem_of_cons; auto).
  apply IH; [done|..]; unfold classify; destruct (is_root n) eqn:E; try done.
  - destruct (ppid n) as [q|] eqn:Eq; [|done]. cbn [fst]. intros q' c. rewrite map_get_set.
    case_decide as Eqq; [|apply Hc]. subst q'. cbn [default from_option].
    intros [Hin|Hin]%elem_of_app; [by apply Hc|]. apply list_elem_of_singleton in Hin as ->. done.
  - apply Forall_app. split; [done|]. by apply Forall_singleton.
  - by destruct (ppid n).
Qed.

(** Conversely every node is found where it belongs. *)
Lemma classify_complete l acc :
  (∀ n, n ∈ l → is_root n = true → n ∈ (foldl (classify pid ppid known) acc l).2) ∧
  (∀ n q, n ∈ l → is_root n = false → ppid n = Some q →
     n ∈ default [] (map_get q (foldl (classify pid ppid known) acc l).1)) ∧
  (∀ n, n ∈ acc.2 → n ∈ (foldl (classify pid ppid known) acc l).2) ∧
  (∀ n q, n ∈ default [] (map_get q acc.1) →
     n ∈ default [] (map_get q (foldl (classify pid ppid known) acc l).1)) ∧
  (Forall (λ n, is_root n = true) acc.2 →
     Forall (λ n, is_root n = true) (foldl (classify pid ppid known) acc l).2).
Proof.
  revert acc. induction l as [|m l IH]; intros acc; cbn [foldl]; [split_and!; try done; no_elem|].
  destruct (IH (classify pid ppid known acc m)) as (R & C & R' & C' & F). clear IH.
  assert (∀ n, n ∈ acc.2 → n ∈ (classify pid ppid known acc m).2) as KR.
  { intros n Hn. unfold classify. destruct (is_root m); [apply elem_of_app; auto|]. by destruct (ppid m). }
  assert (∀ n q, n ∈ default [] (map_get q acc.1) → n ∈ default [] (map_get q (classify pid ppid known acc m).1)) as KC.
  { intros n q Hn. unfold classify. destruct (is_root m); [done|]. destruct (ppid m) as [r|]; [|done].
    cbn [fst]. rewrite map_get_set. case_decide; [|done]. subst. cbn. apply elem_of_app. auto. }
  split_and!; auto.
  - intros n [->|Hn]%elem_of_cons Hr; [|by apply R]. apply R'. unfold classify. rewrite Hr.
    apply elem_of_app. right. by apply list_elem_of_singleton.
  - intros n q [->|Hn]%elem_of_cons Hr Hq; [|by apply C]. apply C'. unfold classify. rewrite Hr, Hq. cbn [fst].
    rewrite map_get_set_eq. cbn. apply elem_of_app. right. by apply list_elem_of_singleton.
  - intros Ha. apply F. unfold classify. destruct (is_root m) eqn:E; [|by destruct (ppid m)].
    apply Forall_app. split; [done|]. by apply Forall_singleton.
Qed.

Lemma sort_children_get children q c :
  c ∈ default [] (map_get q (sort_children chronological children)) ↔ c ∈ default [] (map_get q children).
Proof.
  assert (map_get q (sort_children chronological children)
    = js_sort chronological <$> map_get q children) as ->.
  { unfold sort_children. induction children as [|[k v] l IH]; [done|]. cbn. by case_decide. }
  destruct (map_get q children); cbn; [|done]. by rewrite js_sort_elem.
Qed.

(** The pids whose chain of captured parents ends at a root. *)
Inductive from_root : Z → Prop :=
| fr_root r : r ∈ nodes → is_root r = true → from_root (default 0 (pid r))
| fr_child c q : c ∈ nodes → is_root c = false → ppid c = Some q → from_root q →
    from_root (default 0 (pid c)).

(** After the roots are visited, so is everything that descends from them. *)
Lemma from_root_visited children roots st p :
  (∀ n, n ∈ nodes → is_root n = true → n ∈ roots) →
  (∀ n q, n ∈ nodes → is_root n = false → ppid n = Some q → n ∈ default [] (map_get q children)) →
  state_ok st → Forall (λ c, default 0 (pid c) ∈ st.1) roots → closed_since children ([], []) st roots →
  from_root p → p ∈ st.1.
Proof.
  intros Hr Hc Hst Hin Hcl. rewrite Forall_forall in Hin.
  induction 1 as [r Hn Hroot|c q Hn Hroot Hq _ IH]; [by apply Hin, Hr|].
  destruct Hst as [Hst _]. rewrite Hst in IH. apply list_elem_of_fmap in IH as (e & -> & He).
  destruct (Hcl e He) as [He'|[_ Hk]]; [by apply not_elem_of_nil in He'|]. apply Hk. by apply Hc.
Qed.

Lemma entries_unique laid : laid_ok laid → ∀ e e', e ∈ laid → e' ∈ laid → entry_pid e' = entry_pid e → e = e'.
Proof.
  intros [Hnd _ _] e e' (i & Hi)%list_elem_of_lookup (j & Hj)%list_elem_of_lookup E.
  assert (i = j) as ->; [|congruence].
  apply (NoDup_lookup _ i j (entry_pid e) Hnd); rewrite list_lookup_fmap; [by rewrite Hi|by rewrite Hj, <- E].
Qed.

Lemma remaining_nil_le : (remaining [] ≤ length known)%nat.
Proof. unfold remaining, js_filter. apply List.filter_length_le. Qed.

(** The layout exists, shows every process exactly once, within depth 12, under
    its parent whenever it is indented, and indented whenever it descends from a
    root. *)
Lemma forest_ok :
  (length known ≤ length nodes)%nat →
  ∃ laid, forest pid ppid chronological known nodes = Some laid ∧ laid_ok laid ∧
    Forall (λ n, default 0 (pid n) ∈ entry_pid <$> laid) nodes ∧
    (∀ e, e ∈ laid → e.2 = 0 → from_root (entry_pid e) → is_root e.1 = true).
Proof.
  intros Hlen. unfold forest.
  destruct (classify_ok nodes ([], [])) as [Hc Hr]; [done|intros q c; cbn; no_elem|constructor|].
  destruct (classify_complete nodes ([], [])) as (Rc & Cc & _ & _ & Fr).
  destruct (foldl _ ([], []) nodes) as [ch roots]. cbn [fst snd] in Hc, Hr, Rc, Cc, Fr.
  specialize (Fr (Forall_nil_2 _)).
  assert (children_ok (sort_children chronological ch)) as Hc'
    by (intros q c Hq; apply Hc; by apply sort_children_get).
  assert (∀ n q, n ∈ nodes → is_root n = false → ppid n = Some q →
    n ∈ default [] (map_get q (sort_children chronological ch))) as Cc'
    by (intros n q H1 H2 H3; apply sort_children_get; by apply Cc).
  set (children := sort_children chronological ch) in *. clearbody children. clear Hc Cc.
  pose proof (visit_total children Hc' (S (length nodes))) as Hvisit. pose proof remaining_nil_le as Hrem.
  assert (state_ok ([], [])) as Hinit.
  { split; [done|]. split; [constructor|constructor|]. intros l1 e l2 E. by destruct l1. }
  assert (∀ l, Forall (λ n, n ∈ nodes) l → ∀ st, Forall (λ c, c ∈ nodes ∧ placed_under st c 0) (js_sort chronological l))
    as Hall.
  { intros l Hl st. rewrite Forall_forall in *. intros c Hcl. rewrite js_sort_elem in Hcl.
    split; [by apply Hl|by left]. }
  destruct (visit_children children (S (length nodes)) 0 (js_sort chronological roots) ([], []) Hvisit Hinit)
    as (st1 & -> & Hst1 & _ & Hroots & Hcl); [lia|cbn [fst]; lia|by apply Hall|]. cbn [mbind option_bind].
  destruct (visit_children children (S (length nodes)) 0 (js_sort chronological nodes) st1 Hvisit Hst1)
    as (st2 & -> & [Hv Hlaid] & Hpre & Hin & _); [lia| |apply Hall; by apply Forall_forall|].
  { eapply Nat.le_lt_trans; [|apply Nat.lt_succ_diag_r]. etrans; [|exact Hlen]. etrans; [|exact Hrem].
    apply remaining_mono. intros p. no_elem. }
  exists st2.2. split_and!; [done|done| |].
  - rewrite <- Hv. rewrite Forall_forall in *. intros n Hn. apply Hin. by rewrite js_sort_elem.
  - intros e He H0 Hfrom. rewrite Forall_forall in Fr.
    apply (from_root_visited children (js_sort chronological roots) st1) in Hfrom;
      [|intros; rewrite js_sort_elem; by apply Rc|done|done|done|done].
    destruct Hst1 as [Hv1 _]. rewrite Hv1 in Hfrom. apply list_elem_of_fmap in Hfrom as (e1 & Ee & He1).
    assert (e1 = e) as ->.
    { apply (entries_unique _ Hlaid); [|done|done]. destruct Hpre as [k ->]. apply elem_of_app. auto. }
    destruct (Hcl e He1) as [He'|[Ht _]]; [by apply not_elem_of_nil in He'|].
    apply Fr. specialize (Ht H0). by rewrite decide_True, js_sort_elem in Ht by done.
Qed.
End traversal.

(** ** The index of the events by pid *)

Section index.
Context `{DateHost}.

Definition is_process (e : EventDto) : bool := bool_decide (event_eventType e = Ev_PROCESS_EXECUTION).

(** The keys are the pids of the processes seen, each once. *)
Record index_ok (seen : list EventDto) (byPid : list (Z * EventDto)) : Prop := {
  io_nodup : NoDup byPid.*1;
  io_sound : ∀ p e, (p, e) ∈ byPid → e ∈ seen ∧ is_process e = true ∧ event_pid e = Some p;
  io_complete : ∀ e p, e ∈ seen → is_process e = true → event_pid e = Some p → p ∈ byPid.*1;
}.

(** Each pid keeps the latest of its events. *)
Definition index_latest (seen : list EventDto) (byPid : list (Z * EventDto)) : Prop :=
  ∀ e p e', e ∈ seen → is_process e = true → event_pid e = Some p → map_get p byPid = Some e' →
    ∃ t t', Date_parse (event_occurredAt e) = Some t ∧ Date_parse (event_occurredAt e') = Some t' ∧ t ≤ t'.

Definition readable (events : list EventDto) : Prop :=
  Forall (λ e, is_process e = true → is_Some (Date_parse (event_occurredAt e))) events.

Lemma index_event_skip byPid e :
  is_process e = false ∨ event_pid e = None → index_event byPid e = byPid.
Proof.
  unfold is_process, index_event. intros [Hp|Hp].
  - breflect. by destruct (event_eventType e).
  - rewrite Hp. by destruct (event_eventType e).
Qed.

Lemma index_event_process byPid e p :
  is_process e = true → event_pid e = Some p →
  index_event byPid e =
  match map_get p byPid with
  | Some existing =>
    if time_ge (event_occurredAt e) (event_occurredAt existing) then map_set p e byPid else byPid
  | None => map_set p e byPid
  end.
Proof. unfold is_process, index_event. intros Hp ->. breflect. by rewrite Hp. Qed.

Lemma index_set_ok seen byPid e p :
  index_ok seen byPid → is_process e = true → event_pid e = Some p → index_ok (seen ++ [e]) (map_set p e byPid).
Proof.
  intros [H1 H2 H3] He Hp. split.
  - by apply map_set_NoDup.
  - intros q x [E|Hx]%map_set_elem.
    + simplify_eq. split_and!; [|done..]. apply elem_of_app. right. by apply list_elem_of_singleton.
    + destruct (H2 q x Hx) as (? & ? & ?). split_and!; [apply elem_of_app; auto|done..].
  - intros x q [Hx|Hx]%elem_of_app Hxp Hq; rewrite map_set_keys.
    + specialize (H3 x q Hx Hxp Hq). case_decide; [done|]. apply elem_of_app. auto.
    + apply list_elem_of_singleton in Hx as ->. simplify_eq. case_decide; [done|].
      apply elem_of_app. right. by apply list_elem_of_singleton.
Qed.

Lemma index_keep_ok seen byPid e :
  index_ok seen byPid → (∀ p, is_process e = true → event_pid e = Some p → p ∈ byPid.*1) →
  index_ok (seen ++ [e]) byPid.
Proof.
  intros [H1 H2 H3] Hk. split; [done|..].
  - intros p x Hx. destruct (H2 p x Hx) as (? & ? & ?). split_and!; [apply elem_of_app; auto|done..].
  - intros x q [Hx|Hx]%elem_of_app Hxp Hq; [by eapply H3|]. apply list_elem_of_singleton in Hx as ->. by apply Hk.
Qed.

Lemma index_event_ok seen byPid e : index_ok seen byPid → index_ok (seen ++ [e]) (index_event byPid e).
Proof.
  intros Hok. destruct (is_process e) eqn:He.
  2: { rewrite index_event_skip by auto. apply index_keep_ok; [done|]. congruence. }
  destruct (event_pid e) as [p|] eqn:Hp.
  2: { rewrite index_event_skip by auto. apply index_keep_ok; [done|]. congruence. }
  rewrite (index_event_process _ _ _ He Hp).
  destruct (map_get p byPid) as [x|] eqn:Hg; [|by apply index_set_ok].
  destruct (time_ge _ _); [by apply index_set_ok|]. apply index_keep_ok; [done|].
  intros q _ Hq. assert (q = p) as -> by congruence. apply map_get_Some_elem in Hg.
  apply list_elem_of_fmap. by exists (p, x).
Qed.

Lemma index_event_latest seen byPid e :
  readable (seen ++ [e]) → index_ok seen byPid → index_latest seen byPid →
  index_latest (seen ++ [e]) (index_event byPid e).
Proof.
  intros Hr Hok Hl x p x' Hx Hxp Hpid Hget. unfold readable in Hr. rewrite Forall_forall in Hr.
  destruct (Hr x Hx Hxp) as [t Ht].
  assert (is_process e = true → event_pid e = Some p → ∃ te, Date_parse (event_occurredAt e) = Some te) as Hre.
  { intros He _. apply Hr; [|done]. apply elem_of_app. right. by apply list_elem_of_singleton. }
  destruct (decide (is_process e = true ∧ event_pid e = Some p)) as [[He Hp]|Hne].
  - destruct (Hre He Hp) as [te Hte]. rewrite (index_event_process _ _ _ He Hp) in Hget.
    apply elem_of_app in Hx as [Hx|Hx].
    + destruct (map_get p byPid) as [old|] eqn:Hg.
      2: { exfalso. apply map_get_None in Hg. by apply Hg, (io_complete _ _ Hok x). }
      destruct (Hl x p old Hx Hxp Hpid Hg) as (t1 & t2 & E1 & E2 & Hle). simplify_eq.
      unfold time_ge in Hget. rewrite Hte, E2 in Hget. destruct (t2 <=? te) eqn:E; breflect.
      * rewrite map_get_set_eq in Hget. simplify_eq. do 2 eexists. split_and!; [done..|lia].
      * simplify_eq. do 2 eexists. by split_and!.
    + apply list_elem_of_singleton in Hx as ->. assert (te = t) as -> by congruence. clear Hte.
      destruct (map_get p byPid) as [old|] eqn:Hg;
        [|rewrite map_get_set_eq in Hget; simplify_eq; do 2 eexists; by split_and!].
      unfold time_ge in Hget. rewrite Ht in Hget.
      destruct (Date_parse (event_occurredAt old)) as [t2|] eqn:E2.
      * destruct (t2 <=? t) eqn:E; breflect.
        -- rewrite map_get_set_eq in Hget. simplify_eq. do 2 eexists. by split_and!.
        -- simplify_eq. do 2 eexists. split_and!; [done..|lia].
      * exfalso. pose proof (map_get_Some_elem _ _ _ Hg) as Hin.
        destruct (io_sound _ _ Hok _ _ Hin) as (Hs & Hsp & _).
        destruct (Hr old) as [? ?]; [apply elem_of_app; auto|done|congruence].
  - apply elem_of_app in Hx as [Hx|Hx]; [|apply list_elem_of_singleton in Hx as ->; by destruct Hne].
    apply (Hl x p x' Hx Hxp Hpid). rewrite <- Hget.
    destruct (is_process e) eqn:He; [|by rewrite index_event_skip by auto].
    destruct (event_pid e) as [q|] eqn:Hq; [|by rewrite index_event_skip by auto].
    assert (p ≠ q) by naive_solver. rewrite (index_event_process _ _ _ He Hq).
    repeat case_match; rewrite ?map_get_set_ne by done; done.
Qed.

Lemma index_all events :
  index_ok events (foldl index_event [] events) ∧
  (readable events → index_latest events (foldl index_event [] events)).
Proof.
  induction events as [|e events [IH1 IH2]] using rev_ind.
  - split; [split; [constructor|intros; no_elem..]|]. intros _ e p e'. no_elem.
  - rewrite foldl_snoc. split; [by apply index_event_ok|]. intros Hr.
    apply index_event_latest; [done|done|]. apply IH2. by apply Forall_app in Hr as [? _].
Qed.
End index.

(** ** The tree of the events *)

Section build.
Context `{DateHost} (events : list EventDto).

Definition indexed : list (Z * EventDto) := foldl index_event [] events.

Lemma indexed_pid p :
  p ∈ indexed.*1 ↔ ∃ e, e ∈ events ∧ is_process e = true ∧ event_pid e = Some p.
Proof.
  destruct (index_all events) as [[H1 H2 H3] _]. split.
  - intros ([q e] & -> & Hin)%list_elem_of_fmap. exists e. by apply H2.
  - intros (e & He & Hp & Hpid). by eapply H3.
Qed.

Lemma indexed_event e : e ∈ indexed.*2 → ∃ p, event_pid e = Some p ∧ map_get p indexed = Some e ∧ e ∈ events.
Proof.
  destruct (index_all events) as [[H1 H2 H3] _]. intros ([p x] & -> & Hin)%list_elem_of_fmap.
  destruct (H2 p x Hin) as (Hx & _ & Hp). exists p. split_and!; [done|by apply map_get_elem|done].
Qed.

Lemma build_forest :
  ∃ laid, forest event_pid event_ppid event_chronological indexed.*1 indexed.*2 = Some laid ∧
    laid_ok event_pid event_ppid indexed.*1 indexed.*2 laid ∧
    (∀ p, p ∈ indexed.*1 → p ∈ entry_pid event_pid <$> laid).
Proof.
  destruct (forest_ok event_pid event_ppid event_chronological indexed.*1 indexed.*2)
    as (laid & Hf & Hok & Hall & _).
  - intros e (p & Hp & Hget & _)%indexed_event. exists p. split; [done|].
    apply map_get_Some_elem in Hget. apply list_elem_of_fmap. by exists (p, e).
  - by rewrite !length_fmap.
  - exists laid. split_and!; [done..|]. intros p ([q e] & -> & Hin)%list_elem_of_fmap.
    rewrite Forall_forall in Hall. specialize (Hall e (list_elem_of_fmap_2 snd _ _ Hin)).
    destruct (io_sound _ _ (proj1 (index_all events)) _ _ Hin) as (_ & _ & Hp). by rewrite Hp in Hall.
Qed.

(** The fields of a node of the tree. *)
Definition tree_node (selectedPid : option Z) (entry : EventDto * Z) : ProcessTreeNode :=
  let '(event, depth) := entry in
  mkProcessTreeNode event depth
    (match event_ppid event with
     | Some q => negb (bool_decide (event_pid event = Some q)) && negb (map_has q indexed)
     | None => false
     end)
    (match selectedPid with
     | Some p => bool_decide (event_pid event = Some p)
     | None => false
     end).

Lemma build_unfold selectedPid :
  buildProcessTree events selectedPid =
  map (tree_node selectedPid) <$> forest event_pid event_ppid event_chronological indexed.*1 indexed.*2.
Proof. unfold buildProcessTree. fold indexed. by destruct (forest _ _ _ _ _). Qed.

Lemma orphaned_spec selectedPid e d :
  tree_orphaned (tree_node selectedPid (e, d)) = true ↔
  ∃ q, event_ppid e = Some q ∧ event_pid e ≠ Some q ∧
       ¬ ∃ e', e' ∈ events ∧ is_process e' = true ∧ event_pid e' = Some q.
Proof.
  cbn [tree_orphaned tree_node]. setoid_rewrite <- indexed_pid. setoid_rewrite <- map_has_true.
  destruct (event_ppid e) as [q|]; [|naive_solver].
  rewrite andb_true_iff, !negb_true_iff, bool_decide_eq_false, <- not_true_iff_false. naive_solver.
Qed.
End build.

(** ** Claims *)

(** C6: Laying out the process nodes of the server always terminates with a
    layout, whatever the parent links (missing parents, self-parents, cycles,
    repeated pids): every pid appears exactly once, at a depth between 0 and 12;
    an indented process comes after its parent and one level below it; and a
    process that is not indented though its parents lead to a root is a root. *)
Theorem layoutProcessTree_spec `{DateHost} nodes :
  ∃ laid, layoutProcessTree nodes = Some laid ∧
    NoDup ((ptn_pid ∘ fst) <$> laid) ∧
    (∀ p, p ∈ (ptn_pid ∘ fst) <$> laid ↔ p ∈ ptn_pid <$> nodes) ∧
    laid_ok (λ n, Some (ptn_pid n)) ptn_ppid (js_unique (ptn_pid <$> nodes)) nodes laid ∧
    (∀ n depth, (n, depth) ∈ laid → depth = 0 →
       from_root (λ n, Some (ptn_pid n)) ptn_ppid (js_unique (ptn_pid <$> nodes)) nodes (ptn_pid n) →
       is_root (λ n, Some (ptn_pid n)) ptn_ppid (js_unique (ptn_pid <$> nodes)) n = true).
Proof.
  unfold layoutProcessTree. rewrite map_of_keys.
  replace ((map (λ node, (ptn_pid node, node)) nodes).*1) with (ptn_pid <$> nodes)
    by (rewrite <- list_fmap_compose; done).
  destruct (forest_ok (λ n, Some (ptn_pid n)) ptn_ppid node_chronological (js_unique (ptn_pid <$> nodes)) nodes)
    as (laid & -> & Hok & Hall & Hroot).
  - intros n Hn. exists (ptn_pid n). split; [done|]. rewrite js_unique_elem. by apply list_elem_of_fmap_2.
  - rewrite js_unique_length, length_fmap. done.
  - exists laid. split_and!; [done|apply Hok| |done|].
    + intros p. split.
      * intros ([n d] & -> & Hn)%list_elem_of_fmap. pose proof (la_nodes _ _ _ _ _ Hok) as Hnodes.
        rewrite Forall_forall in Hnodes. destruct (Hnodes _ Hn) as [Hn' _]. by apply (list_elem_of_fmap_2 ptn_pid).
      * intros (n & -> & Hn)%list_elem_of_fmap. rewrite Forall_forall in Hall. by apply Hall.
    + intros n depth Hn H0 Hfrom. by apply (Hroot (n, depth)).
Qed.

(** C5: Building the tree from raw events always terminates: it shows every pid of
    the process events exactly once, each with the latest of its events when their
    times are readable, at a depth between 0 and 12, under its parent whenever it
    is indented; a node is an orphan exactly when it has a parent, other than
    itself, with no event; it is selected exactly when it has the selected pid. *)
Theorem buildProcessTree_spec `{DateHost} events selectedPid :
  ∃ tree, buildProcessTree events selectedPid = Some tree ∧
    NoDup ((event_pid ∘ tree_event) <$> tree) ∧
    (∀ p, Some p ∈ (event_pid ∘ tree_event) <$> tree ↔
       ∃ e, e ∈ events ∧ is_process e = true ∧ event_pid e = Some p) ∧
    Forall (λ n, tree_event n ∈ events ∧ 0 ≤ tree_depth n ≤ 12 ∧
      (tree_orphaned n = true ↔ ∃ q, event_ppid (tree_event n) = Some q ∧
         event_pid (tree_event n) ≠ Some q ∧
         ¬ ∃ e, e ∈ events ∧ is_process e = true ∧ event_pid e = Some q) ∧
      (tree_selected n = true ↔ ∃ p, selectedPid = Some p ∧ event_pid (tree_event n) = Some p)) tree ∧
    (readable events → Forall (λ n, ∀ e, e ∈ events → is_process e = true →
       event_pid e = event_pid (tree_event n) →
       ∃ t t', Date_parse (event_occurredAt e) = Some t ∧
               Date_parse (event_occurredAt (tree_event n)) = Some t' ∧ t ≤ t') tree) ∧
    (∀ l1 n l2, tree = l1 ++ n :: l2 → tree_depth n ≠ 0 →
       ∃ parent, parent ∈ l1 ∧ event_ppid (tree_event n) = event_pid (tree_event parent) ∧
                 tree_depth n = Z.min (tree_depth parent + 1) 12).
Proof.
  rewrite build_unfold. destruct (build_forest events) as (laid & -> & Hok & Hall).
  pose proof (la_nodes _ _ _ _ _ Hok) as Hnodes. rewrite Forall_forall in Hnodes.
  assert (∀ e, e ∈ laid → ∃ p, event_pid e.1 = Some p ∧ map_get p (indexed events) = Some e.1 ∧ e.1 ∈ events) as Hev
    by (intros e He; apply indexed_event, Hnodes, He).
  assert (∀ e, e ∈ laid → event_pid e.1 = Some (entry_pid event_pid e)) as Hpid.
  { intros e He. destruct (Hev e He) as (p & Hp & _). unfold entry_pid. by rewrite Hp. }
  assert ((event_pid ∘ tree_event) <$> map (tree_node events selectedPid) laid = Some <$> (entry_pid event_pid <$> laid)) as Hpids.
  { rewrite <- !list_fmap_compose. apply list_fmap_ext. intros i [e d] Hi. cbn.
    apply (Hpid (e, d)). by eapply list_elem_of_lookup_2. }
  eexists. split; [done|]. rewrite Hpids. split_and!.
  - apply (NoDup_fmap_2 Some), (la_nodup _ _ _ _ _ Hok).
  - intros p. rewrite list_elem_of_fmap, <- indexed_pid. split.
    + intros (q & [= ->] & Hq). apply list_elem_of_fmap in Hq as (e & -> & He).
      destruct (Hev e He) as (p & Hp & Hget & _). unfold entry_pid. rewrite Hp. cbn.
      apply map_get_Some_elem in Hget. apply list_elem_of_fmap. by exists (p, e.1).
    + intros Hp. exists p. split; [done|by apply Hall].
  - apply Forall_fmap, Forall_forall. intros [e d] He. destruct (Hev _ He) as (p & Hp & _ & Hin).
    destruct (Hnodes _ He) as [_ Hd]. cbn in Hp, Hin, Hd |- *. split_and!; [done|lia..|apply (orphaned_spec events selectedPid e d)|].
    destruct selectedPid as [q|]; [rewrite bool_decide_eq_true|]; naive_solver.
  - intros Hr. apply Forall_fmap, Forall_forall. intros [e d] He x Hx Hxp Hxe.
    destruct (Hev _ He) as (p & Hp & Hget & _). cbn in *.
    apply (proj2 (index_all events) Hr x p e); [done|done|congruence|done].
  - intros l1 n l2 E Hd. apply map_eq_app in E as (k1 & k2 & -> & <- & E).
    apply map_eq_cons in E as ([e d] & k3 & -> & <- & <-).
    destruct (la_parents _ _ _ _ _ Hok k1 (e, d) k3 eq_refl) as [H0|(_ & parent & Hp & Hpp & Hdd)]; [done|].
    exists (tree_node events selectedPid parent). split_and!.
    + by apply list_elem_of_fmap_2.
    + cbn in *. rewrite Hpp. destruct parent as [pe pd]. cbn. symmetry. apply (Hpid (pe, pd)).
      apply elem_of_app. auto.
    + by destruct parent.
Qed.
