(* ===== verification/Topology.v ===== *)
(** * Topology, correlation and operations views

    Models frontend/src/features/intelligenceOperations.ts: grouping and
    filtering of egress topologies, the domain view, the correlation graph, the
    pipeline snapshot and the archive life cycle. What the host's locale decides
    (collation, lower case) and the public-suffix lookup of the tldts package are
    parameters. An outer [option] is a thrown exception. *)

From S2P Require Import Prelude JsNumber JsDate Url Contracts.

(** The locale services of the host: [String.prototype.localeCompare], a
    consistent comparison, and [toLocaleLowerCase]. *)
Class LocaleHost := {
  localeCompare : ustring → ustring → comparison;
  toLocaleLowerCase : ustring → ustring;
  #[export] localeCompare_comparator :: Comparator localeCompare;
}.

(** Comparison by code units, the order of [sort()] without a comparator. *)
Fixpoint cmp_units (s t : ustring) : comparison :=
  match s, t with
  | [], [] => Eq
  | [], _ :: _ => Lt
  | _ :: _, [] => Gt
  | c :: s', d :: t' => cmp_or (Z.compare c d) (cmp_units s' t')
  end.

Inductive TopologySelection :=
| TNode (id : ustring)
| TEdge (id : ustring)
| TEdgeGroup (id : ustring).

Record TopologyEdgeGroup := mkGroup {
  g_id : ustring;
  g_endpointId : Z;
  g_sourceLabel : ustring;
  g_target : ustring;
  g_protocols : list ustring;
  g_eventCount : Z;
  g_alertCount : Z;
  g_lastSeenAt : ustring;
  g_edges : list TopologyEdgeDto;
}.

Record TopologyDomainGroup := mkDomainGroup { dg_domain : ustring; dg_targets : list ustring }.

Record TopologyDomainView := mkDomainView {
  dv_topology : EgressTopologyDto;
  dv_groups : list TopologyDomainGroup;
}.

Inductive CorrelationSelection := CNode (id : ustring) | CEdge (id : ustring).

Definition CORRELATION_GRAPH_RELATIONSHIP_LIMIT : Z := 20.
Definition CORRELATION_INLINE_RELATIONSHIP_LIMIT : Z := 10.

Inductive PipelineStageId := COLLECTION | DETECTION | STORAGE.

Record PipelineSnapshotStage := mkStage { stage_id : PipelineStageId; stage_status : SensorHealth }.

Definition STORAGE_LIFECYCLE : list StorageStatus :=
  [Storage_HOT; Storage_ARCHIVED; Storage_RESTORE_REQUESTED; Storage_RESTORED; Storage_RESTORE_FAILED;
   Storage_EXPIRED].

Definition HEALTH_PRIORITY (h : SensorHealth) : Z :=
  match h with Health_UNAVAILABLE => 0 | Health_DEGRADED => 1 | Health_HEALTHY => 2 end.

(** [value] is the build-time variable, [None] when it is not set. *)
Definition topologyGraphEnabled (value : option ustring) : bool :=
  negb (bool_decide (value = Some (u! "false"))) && negb (bool_decide (value = Some (u! "0"))).

(** ** Identifiers *)

Definition topologyEdgeId (endpointId : Z) (target protocol : ustring) : ustring :=
  string_of_Z endpointId ++ u! "|" ++ target ++ u! "|" ++ protocol.

Definition topologyEdgeGroupId (endpointId : Z) (target : ustring) : option ustring :=
  encoded ← encodeURIComponent target;
  Some (u! "topology-group:" ++ string_of_Z endpointId ++ u! ":" ++ encoded).

Definition endpointNodeId (endpointId : Z) : ustring := u! "endpoint:" ++ string_of_Z endpointId.
Definition targetNodeId (target : ustring) : ustring := u! "target:" ++ target.
Definition correlationNodeId (valueType : CorrelationValueType) (value : ustring) : ustring :=
  u! "correlation:" ++ CorrelationValueType_name valueType ++ u! ":" ++ value.
Definition correlationEdgeId (edge : CorrelationRelationshipDto) : ustring :=
  u! "correlation-edge:" ++ CorrelationRelationshipRelation_name (cr_relation edge) ++ u! ":" ++
  CorrelationValueType_name (cr_sourceType edge) ++ u! ":" ++ cr_sourceValue edge ++ u! ":" ++
  CorrelationValueType_name (cr_targetType edge) ++ u! ":" ++ cr_targetValue edge.

Section topology.
Context `{DateHost}.

(** [Date.parse(a) > Date.parse(b)] *)
Definition time_gt (a b : ustring) : bool := time_lt b a.

(** ** Grouping the edges of an endpoint and a target *)

Definition new_group (id : ustring) (edge : TopologyEdgeDto) : TopologyEdgeGroup :=
  mkGroup id (te_endpointId edge) (te_sourceLabel edge) (te_target edge) [te_protocol edge]
    (te_eventCount edge) (te_alertCount edge) (te_lastSeenAt edge) [edge].

Definition extend_group (current : TopologyEdgeGroup) (edge : TopologyEdgeDto) : TopologyEdgeGroup :=
  mkGroup (g_id current) (g_endpointId current) (g_sourceLabel current) (g_target current)
    (set_add (te_protocol edge) (g_protocols current))
    (g_eventCount current + te_eventCount edge) (g_alertCount current + te_alertCount edge)
    (if time_gt (te_lastSeenAt edge) (g_lastSeenAt current) then te_lastSeenAt edge else g_lastSeenAt current)
    (g_edges current ++ [edge]).

Definition group_step (groups : list (ustring * TopologyEdgeGroup)) (edge : TopologyEdgeDto)
  : option (list (ustring * TopologyEdgeGroup)) :=
  id ← topologyEdgeGroupId (te_endpointId edge) (te_target edge);
  Some (match map_get id groups with
        | None => map_set id (new_group id edge) groups
        | Some current => map_set id (extend_group current edge) groups
        end).

Definition sort_protocols (group : TopologyEdgeGroup) : TopologyEdgeGroup :=
  mkGroup (g_id group) (g_endpointId group) (g_sourceLabel group) (g_target group)
    (js_sort cmp_units (g_protocols group)) (g_eventCount group) (g_alertCount group)
    (g_lastSeenAt group) (g_edges group).

Definition groupTopologyEdges (edges : list TopologyEdgeDto) : option (list TopologyEdgeGroup) :=
  groups ← foldM group_step [] edges;
  Some (map sort_protocols groups.*2).

(** ** Ordering and filtering *)

Context `{LocaleHost}.

Definition compareTopologyEdges : TopologyEdgeDto → TopologyEdgeDto → comparison :=
  cmp_then (cmp_rev (cmp_on te_alertCount Z.compare))
  (cmp_then (cmp_rev (cmp_on te_eventCount Z.compare))
  (cmp_then (cmp_rev (cmp_on te_lastSeenAt cmp_time))
  (cmp_then (cmp_on te_endpointId Z.compare)
  (cmp_then (cmp_on te_target localeCompare) (cmp_on te_protocol localeCompare))))).

Definition topology_matches (topology : EgressTopologyDto) (normalized : ustring) (edge : TopologyEdgeDto) : bool :=
  if truthy normalized then
    let nodeByEndpoint := map_of (map (λ node, (tn_endpointId node, node)) (topo_nodes topology)) in
    js_some (λ value, match value with
                      | Some v => includes (toLocaleLowerCase v) normalized
                      | None => false
                      end)
      [Some (te_sourceLabel edge); tn_hostname <$> map_get (te_endpointId edge) nodeByEndpoint;
       Some (string_of_Z (te_endpointId edge)); Some (te_target edge); Some (te_protocol edge)]
  else true.

Definition filterTopology (topology : EgressTopologyDto) (search : ustring) (limit : Z) : EgressTopologyDto :=
  let normalized := toLocaleLowerCase (trim search) in
  let matching := js_filter (topology_matches topology normalized) (topo_edges topology) in
  let edges := take (Z.to_nat (Z.max 1 limit)) (js_sort compareTopologyEdges matching) in
  let endpointIds := js_unique (map te_endpointId edges) in
  let nodes := js_filter (λ node, bool_decide (tn_endpointId node ∈ endpointIds)) (topo_nodes topology) in
  mkEgressTopologyDto edges (topo_from topology) nodes (topo_to topology).

Definition selectedTopologyEdge (topology : EgressTopologyDto) (selection : option TopologySelection)
  : option TopologyEdgeDto :=
  match selection with
  | Some (TEdge id) =>
    js_find (λ edge, bool_decide (topologyEdgeId (te_endpointId edge) (te_target edge) (te_protocol edge) = id))
      (topo_edges topology)
  | _ => None
  end.

Definition selectedTopologyEdgeGroup (topology : EgressTopologyDto) (selection : option TopologySelection)
  : option (option TopologyEdgeGroup) :=
  match selection with
  | Some (TEdgeGroup id) =>
    groups ← groupTopologyEdges (topo_edges topology);
    Some (js_find (λ group, bool_decide (g_id group = id)) groups)
  | _ => Some None
  end.

(** ** The domain view *)

Section domains.
(** tldts' [getDomain] with private domains allowed. *)
Context (getDomain : ustring → option ustring).

(** [target.trim().replace(/\.$/, "")] *)
Definition strip_dot (s : ustring) : ustring :=
  match last s with Some c => if c =? 46 then take (length s - 1) s else s | None => s end.

Definition registrableDomainForTarget (target : ustring) : option ustring := getDomain (strip_dot (trim target)).

(** A null or empty domain counts as none. *)
Definition domain_of (target : ustring) : option ustring :=
  match registrableDomainForTarget target with
  | Some d => if truthy d then Some d else None
  | None => None
  end.

Definition domain_step (targetsByDomain : list (ustring * list ustring)) (edge : TopologyEdgeDto)
  : list (ustring * list ustring) :=
  match domain_of (te_target edge) with
  | None => targetsByDomain
  | Some domain =>
    map_set domain (set_add (te_target edge) (default [] (map_get domain targetsByDomain))) targetsByDomain
  end.

Definition domain_groups (edges : list TopologyEdgeDto) : list TopologyDomainGroup :=
  js_sort (cmp_on dg_domain localeCompare)
    (map (λ entry, mkDomainGroup entry.1 (js_sort cmp_units entry.2))
      (js_filter (λ entry, bool_decide (1 < length entry.2)%nat) (foldl domain_step [] edges))).

Definition group_by_target (groups : list TopologyDomainGroup) : list (ustring * ustring) :=
  map_of (flat_map (λ group, map (λ target, (target, dg_domain group)) (dg_targets group)) groups).

Definition view_target (groupByTarget : list (ustring * ustring)) (expandedDomains : list ustring)
  (target : ustring) : ustring :=
  match map_get target groupByTarget with
  | Some domain => if truthy domain && negb (bool_decide (domain ∈ expandedDomains)) then domain else target
  | None => target
  end.

Definition with_target (target : ustring) (edge : TopologyEdgeDto) : TopologyEdgeDto :=
  mkTopologyEdgeDto (te_alertCount edge) (te_endpointId edge) (te_eventCount edge) (te_lastSeenAt edge)
    (te_protocol edge) (te_sourceLabel edge) target.

Definition merge_edge (current edge : TopologyEdgeDto) : TopologyEdgeDto :=
  mkTopologyEdgeDto (te_alertCount current + te_alertCount edge) (te_endpointId current)
    (te_eventCount current + te_eventCount edge)
    (if time_gt (te_lastSeenAt edge) (te_lastSeenAt current) then te_lastSeenAt edge else te_lastSeenAt current)
    (te_protocol current) (te_sourceLabel current) (te_target current).

Definition view_step (groupByTarget : list (ustring * ustring)) (expandedDomains : list ustring)
  (edges : list (ustring * TopologyEdgeDto)) (edge : TopologyEdgeDto) : list (ustring * TopologyEdgeDto) :=
  let target := view_target groupByTarget expandedDomains (te_target edge) in
  let id := topologyEdgeId (te_endpointId edge) target (te_protocol edge) in
  match map_get id edges with
  | None => map_set id (with_target target edge) edges
  | Some current => map_set id (merge_edge current edge) edges
  end.

Definition buildTopologyDomainView (topology : EgressTopologyDto) (expandedDomains : list ustring)
  : TopologyDomainView :=
  let groups := domain_groups (topo_edges topology) in
  let edges := foldl (view_step (group_by_target groups) expandedDomains) [] (topo_edges topology) in
  mkDomainView
    (mkEgressTopologyDto (js_sort compareTopologyEdges edges.*2) (topo_from topology)
       (topo_nodes topology) (topo_to topology))
    groups.
End domains.
End topology.

(** ** Correlation *)

Definition input_connected (inputId : ustring) (edge : CorrelationRelationshipDto) : bool :=
  str_in inputId [correlationNodeId (cr_sourceType edge) (cr_sourceValue edge);
                  correlationNodeId (cr_targetType edge) (cr_targetValue edge)].

(** An element of the array that is sorted: the edge, its index, and whether it
    touches the input. *)
Definition indexed_edge : Type := CorrelationRelationshipDto * nat * bool.

Definition compare_connected : indexed_edge → indexed_edge → comparison :=
  cmp_then (cmp_rev (cmp_on (λ e : indexed_edge, Z.b2z e.2) Z.compare))
    (cmp_on (λ e : indexed_edge, Z.of_nat e.1.2) Z.compare).

Definition correlationGraphRelationships (correlation : CorrelationDto) (limit : Z)
  : list CorrelationRelationshipDto :=
  let inputId := correlationNodeId (corr_inputType correlation) (corr_inputValue correlation) in
  let entries := imap (λ index edge, (edge, index, input_connected inputId edge))
                   (corr_relationships correlation) in
  map (λ e, e.1.1) (take (Z.to_nat (Z.max 1 limit)) (js_sort compare_connected entries)).

Definition selectedCorrelationRelationship (correlation : CorrelationDto)
  (selection : option CorrelationSelection) : option CorrelationRelationshipDto :=
  match selection with
  | Some (CEdge id) =>
    js_find (λ edge, bool_decide (correlationEdgeId edge = id)) (corr_relationships correlation)
  | _ => None
  end.

(** ** Operations *)

Definition worstHealth (statuses : list SensorHealth) : SensorHealth :=
  match statuses with
  | [] => Health_UNAVAILABLE
  | _ => foldl (λ worst status, if HEALTH_PRIORITY status <? HEALTH_PRIORITY worst then status else worst)
           Health_HEALTHY statuses
  end.

Definition services_health (names : list ustring) (health : OperationsHealthDto) : list SensorHealth :=
  map svc_status (js_filter (λ service, str_in (svc_service service) names) (health_services health)).

Definition worker_health (worker : PipelineWorkerDto) : SensorHealth :=
  match worker_status worker with
  | Worker_OFFLINE => Health_UNAVAILABLE
  | Worker_IDLE | Worker_UNKNOWN => Health_DEGRADED
  | _ => if 0 <? default 0 (worker_lag worker) then Health_DEGRADED else Health_HEALTHY
  end.

Definition compare_stages : PipelineSnapshotStage → PipelineSnapshotStage → comparison :=
  cmp_on (λ stage, HEALTH_PRIORITY (stage_status stage)) Z.compare.

Definition pipeline_stages (health : OperationsHealthDto) (ingest : IngestSummaryDto)
  : list PipelineSnapshotStage :=
  let collection := worstHealth (services_health [u! "Backend API"; u! "Kafka"] health) in
  let workerStatuses :=
    map worker_health (health_workers health) ++
    (if (0 <? failures_failedCount (ingest_eventFailures ingest))
        || (0 <? failures_reprocessFailedCount (ingest_eventFailures ingest))
     then [Health_DEGRADED] else []) in
  let storageStatuses :=
    services_health [u! "PostgreSQL"; u! "ClickHouse"; u! "S3"] health ++
    (if 0 <? istorage_failedBucketCount (ingest_storage ingest) then [Health_DEGRADED] else []) in
  [mkStage COLLECTION collection; mkStage DETECTION (worstHealth workerStatuses);
   mkStage STORAGE (worstHealth storageStatuses)].

Definition buildPipelineSnapshot (health : OperationsHealthDto) (ingest : IngestSummaryDto)
  : list PipelineSnapshotStage := js_sort compare_stages (pipeline_stages health ingest).

Definition archiveLifecycleCounts (items : list ArchiveBucketDto) : list (StorageStatus * Z) :=
  map (λ status, (status, Z.of_nat (length
         (js_filter (λ item, bool_decide (bucket_storageStatus item = status)) items)))) STORAGE_LIFECYCLE.

(** ** Identifiers are faithful *)

(** A text is cut in one way at its first, and at its last separator. *)
Lemma split_first c a b (s t : ustring) : c ∉ a → c ∉ b → a ++ c :: s = b ++ c :: t → a = b ∧ s = t.
Proof.
  revert b. induction a as [|d a IH]; intros [|e b] Ha Hb E; cbn in E; simplify_eq.
  - done.
  - exfalso. apply Hb. apply elem_of_cons. auto.
  - exfalso. apply Ha. apply elem_of_cons. auto.
  - destruct (IH b) as [-> ->]; [intros Hi; apply Ha, elem_of_cons; auto|
      intros Hi; apply Hb, elem_of_cons; auto|done|done].
Qed.

Lemma split_last c a b (s t : ustring) : c ∉ s → c ∉ t → a ++ c :: s = b ++ c :: t → a = b ∧ s = t.
Proof.
  intros Hs Ht E. apply (f_equal reverse) in E. rewrite !reverse_app, !reverse_cons, <- !app_assoc in E. cbn [app] in E.
  apply split_first in E as [E1 E2]; [|by rewrite elem_of_reverse..]. by apply (inj reverse) in E1 as ->, E2 as ->.
Qed.

Lemma string_of_Z_free c n : is_digit c = false → c ≠ 45 → c ∉ string_of_Z n.
Proof.
  intros Hc Hm. assert (∀ m, 0 ≤ m → c ∉ dec_string m) as Hd.
  { intros m Hn Hin. destruct (dec_string_spec m) as (Hd & _); [done|]. rewrite Forall_forall in Hd.
    specialize (Hd _ Hin). congruence. }
  unfold string_of_Z. destruct (Z.ltb_spec n 0); [|by apply Hd]. intros [E|Hin]%elem_of_cons; [done|].
  by apply Hd in Hin; [|lia].
Qed.

(** The group id identifies the endpoint and the target. *)
Lemma topologyEdgeGroupId_inj e1 t1 e2 t2 id :
  units_ok t1 → units_ok t2 →
  topologyEdgeGroupId e1 t1 = Some id → topologyEdgeGroupId e2 t2 = Some id → e1 = e2 ∧ t1 = t2.
Proof.
  unfold topologyEdgeGroupId. intros H1 H2.
  destruct (encodeURIComponent t1) as [s1|] eqn:E1; [|done].
  destruct (encodeURIComponent t2) as [s2|] eqn:E2; [|done]. cbn [mbind option_bind].
  intros [= <-] Heq. injection Heq as Heq.
  destruct (split_first 58 (string_of_Z e2) (string_of_Z e1) s2 s1) as [He Hs];
    [by apply string_of_Z_free..|exact Heq|].
  apply (inj string_of_Z) in He as ->. subst s2. split; [done|]. by eapply encodeURIComponent_inj.
Qed.

(** ** Grouping conserves the edges *)

Section grouping.
Context `{DateHost}.

(** One of the times, and the latest when they are all readable. *)
Definition latest_of (s : ustring) (l : list ustring) : Prop :=
  s ∈ l ∧ (Forall (λ x, is_Some (Date_parse x)) l →
    Forall (λ x, ∃ t t', Date_parse x = Some t ∧ Date_parse s = Some t' ∧ t ≤ t') l).

Lemma latest_singleton s : latest_of s [s].
Proof.
  split; [by apply list_elem_of_singleton|]. intros [[t Ht] _]%Forall_cons. apply Forall_singleton.
  by exists t, t.
Qed.

Lemma latest_snoc s l x : latest_of s l → latest_of (if time_gt x s then x else s) (l ++ [x]).
Proof.
  intros [Hs Hl]. split.
  - rewrite elem_of_app, list_elem_of_singleton. destruct (time_gt x s); auto.
  - intros [Hr Hx]%Forall_app. specialize (Hl Hr). rewrite Forall_singleton in Hx. destruct Hx as [tx Hx].
    assert (is_Some (Date_parse s)) as [ts Hts] by (rewrite Forall_forall in Hr; by apply Hr).
    unfold time_gt, time_lt. rewrite Hts, Hx. apply Forall_app. split.
    + eapply Forall_impl; [exact Hl|]. intros y (t & t' & Hy & Hs' & Hle).
      assert (t' = ts) as -> by congruence.
      destruct (Z.ltb_spec ts tx); [exists t, tx|exists t, ts]; (split_and!; [done..|lia]).
    + apply Forall_singleton. destruct (Z.ltb_spec ts tx); [exists tx, tx|exists tx, ts]; (split_and!; [done..|lia]).
Qed.

(** What a group says about its edges. *)
Record group_ok (g : TopologyEdgeGroup) : Prop := {
  go_id : topologyEdgeGroupId (g_endpointId g) (g_target g) = Some (g_id g);
  go_edges : Forall (λ e, te_endpointId e = g_endpointId g ∧ te_target e = g_target g) (g_edges g);
  go_protocols : g_protocols g ≡ₚ js_unique (te_protocol <$> g_edges g);
  go_events : g_eventCount g = sumZ (te_eventCount <$> g_edges g);
  go_alerts : g_alertCount g = sumZ (te_alertCount <$> g_edges g);
  go_seen : latest_of (g_lastSeenAt g) (te_lastSeenAt <$> g_edges g);
}.

Lemma js_unique_snoc (x : ustring) l : js_unique (l ++ [x]) = set_add x (js_unique l).
Proof. unfold js_unique. by rewrite foldl_snoc. Qed.

Lemma set_add_perm (x : ustring) l l' : l ≡ₚ l' → set_add x l ≡ₚ set_add x l'.
Proof.
  intros Hl. unfold set_add. destruct (decide (x ∈ l)) as [Hd|Hd].
  - rewrite decide_True; [done|]. by rewrite <- Hl.
  - rewrite decide_False; [by rewrite Hl|]. by rewrite <- Hl.
Qed.

Lemma new_group_ok id edge :
  topologyEdgeGroupId (te_endpointId edge) (te_target edge) = Some id → group_ok (new_group id edge).
Proof.
  intros Hid. split; cbn; try done; try lia; [by apply Forall_singleton|apply latest_singleton].
Qed.

Lemma extend_group_ok g edge :
  group_ok g → te_endpointId edge = g_endpointId g → te_target edge = g_target g →
  group_ok (extend_group g edge).
Proof.
  intros [H1 H2 H3 H4 H5 H6] He Ht. split; cbn [extend_group g_id g_endpointId g_target g_protocols
    g_eventCount g_alertCount g_lastSeenAt g_edges]; rewrite ?fmap_app; cbn [fmap list_fmap].
  - done.
  - apply Forall_app. split; [done|]. by apply Forall_singleton.
  - rewrite js_unique_snoc. by apply set_add_perm.
  - rewrite sumZ_app, <- H4. cbn. lia.
  - rewrite sumZ_app, <- H5. cbn. lia.
  - by apply latest_snoc.
Qed.

Definition edges_of (groups : list (ustring * TopologyEdgeGroup)) : list TopologyEdgeDto :=
  flat_map (λ kv, g_edges kv.2) groups.

Record groups_ok (seen : list TopologyEdgeDto) (groups : list (ustring * TopologyEdgeGroup)) : Prop := {
  gs_nodup : NoDup groups.*1;
  gs_ids : Forall (λ kv, g_id kv.2 = kv.1) groups;
  gs_groups : Forall (λ kv, group_ok kv.2) groups;
  gs_edges : edges_of groups ≡ₚ seen;
}.

Lemma edges_of_new id g groups :
  map_get id groups = None → edges_of (map_set id g groups) = edges_of groups ++ g_edges g.
Proof.
  unfold edges_of. induction groups as [|[k v] groups IH]; cbn [map_get map_set flat_map]; [by rewrite app_nil_r|].
  case_decide; [done|]. intros Hn. cbn [flat_map]. by rewrite IH, app_assoc.
Qed.

Lemma edges_of_extend id g g' groups l :
  map_get id groups = Some g → g_edges g' = g_edges g ++ l →
  edges_of (map_set id g' groups) ≡ₚ edges_of groups ++ l.
Proof.
  unfold edges_of. induction groups as [|[k v] groups IH]; cbn [map_get map_set flat_map]; [done|].
  case_decide; intros Hg Hl; cbn [flat_map snd].
  - simplify_eq. rewrite Hl, <- !app_assoc. by rewrite (Permutation_app_comm l).
  - by rewrite IH, app_assoc by done.
Qed.

Lemma Forall_map_set (P : ustring * TopologyEdgeGroup → Prop) id g groups :
  Forall P groups → P (id, g) → Forall P (map_set id g groups).
Proof.
  intros Hg Hp. rewrite Forall_forall in *. intros kv [->|Hin]%map_set_elem; auto.
Qed.

Lemma group_step_ok seen groups edge :
  well_formed (te_target edge) → Forall (λ e, well_formed (te_target e)) seen → groups_ok seen groups →
  ∃ groups', group_step groups edge = Some groups' ∧ groups_ok (seen ++ [edge]) groups'.
Proof.
  intros Hwf Hseen [H1 H2 H3 H4]. unfold group_step.
  assert (∃ id, topologyEdgeGroupId (te_endpointId edge) (te_target edge) = Some id) as [id Hid].
  { unfold topologyEdgeGroupId, encodeURIComponent. rewrite decide_True by by apply usv_well_formed. by eexists. }
  rewrite Hid. cbn [mbind option_bind]. eexists. split; [done|].
  destruct (map_get id groups) as [g|] eqn:Hg.
  - pose proof (map_get_Some_elem _ _ _ Hg) as Hin. rewrite Forall_forall in H2. rewrite Forall_forall in H3.
    pose proof (H2 _ Hin) as Hgid. pose proof (H3 _ Hin) as Hgok. cbn in Hgid, Hgok.
    assert (te_endpointId edge = g_endpointId g ∧ te_target edge = g_target g) as [He Ht].
    { eapply topologyEdgeGroupId_inj; [by apply well_formed_units| |exact Hid|].
      - pose proof (go_edges _ Hgok) as Hed. pose proof (go_seen _ Hgok) as [Hs _].
        apply list_elem_of_fmap in Hs as (e & _ & Hes). rewrite Forall_forall in Hed.
        destruct (Hed e Hes) as [_ <-]. apply well_formed_units. rewrite Forall_forall in Hseen.
        apply Hseen. rewrite <- H4. unfold edges_of. apply elem_of_flat_map. by exists (id, g).
      - rewrite (go_id _ Hgok). by rewrite Hgid. }
    split.
    + by apply map_set_NoDup.
    + apply Forall_map_set; [by apply Forall_forall|done].
    + apply Forall_map_set; [by apply Forall_forall|]. by apply extend_group_ok.
    + rewrite (edges_of_extend id g _ _ [edge]) by done. by rewrite H4.
  - split.
    + by apply map_set_NoDup.
    + by apply Forall_map_set.
    + apply Forall_map_set; [done|]. by apply new_group_ok.
    + rewrite edges_of_new by done. by rewrite H4.
Qed.

Lemma group_loop edges :
  Forall (λ e, well_formed (te_target e)) edges →
  ∃ groups, foldM group_step [] edges = Some groups ∧ groups_ok edges groups.
Proof.
  intros Hwf.
  assert (∀ l seen groups, Forall (λ e, well_formed (te_target e)) (seen ++ l) → groups_ok seen groups →
    ∃ groups', foldM group_step groups l = Some groups' ∧ groups_ok (seen ++ l) groups') as Hloop.
  { induction l as [|e l IH]; intros seen groups Hs Hok; cbn [foldM]; [rewrite app_nil_r; by eauto|].
    pose proof Hs as [Hseen [He _]%Forall_cons]%Forall_app.
    destruct (group_step_ok seen groups e He Hseen Hok) as (g1 & -> & Hok1). cbn [mbind option_bind].
    rewrite cons_middle, app_assoc in Hs. destruct (IH _ _ Hs Hok1) as (g2 & -> & Hok2).
    exists g2. split; [done|]. by rewrite <- app_assoc in Hok2. }
  apply (Hloop edges [] []); [done|]. split; constructor.
Qed.

Lemma sort_protocols_ok g : group_ok g → group_ok (sort_protocols g).
Proof. intros [H1 H2 H3 H4 H5 H6]. split; cbn; try done. by rewrite js_sort_perm. Qed.
End grouping.

#[export] Instance cmp_units_comparator : Comparator cmp_units.
Proof.
  split.
  - induction x as [|c s IH]; intros [|d t]; cbn; try done. rewrite (Z.compare_antisym c d), IH.
    by destruct (c ?= d).
  - induction x as [|c s IH]; intros [|d t] [|e r]; unfold cmp_le; cbn; try done.
    destruct (Z.compare_spec c d), (Z.compare_spec d e); cbn; try done; subst.
    + rewrite Z.compare_refl. cbn. by apply IH.
    + rewrite (proj2 (Z.compare_lt_iff d e)) by done. done.
    + rewrite (proj2 (Z.compare_lt_iff c e)) by done. done.
    + rewrite (proj2 (Z.compare_lt_iff c e)) by lia. done.
Qed.

(** ** Sorting with times that are readable *)

Section ordering.
Context `{DateHost} `{LocaleHost}.

Definition readable_edges (edges : list TopologyEdgeDto) : Prop :=
  Forall (λ e, is_Some (Date_parse (te_lastSeenAt e))) edges.

(** The comparator of the source, total on readable times. *)
Definition edge_order : TopologyEdgeDto → TopologyEdgeDto → comparison :=
  cmp_then (cmp_rev (cmp_on te_alertCount Z.compare))
  (cmp_then (cmp_rev (cmp_on te_eventCount Z.compare))
  (cmp_then (cmp_rev (cmp_on (λ e, default 0 (Date_parse (te_lastSeenAt e))) Z.compare))
  (cmp_then (cmp_on te_endpointId Z.compare)
  (cmp_then (cmp_on te_target localeCompare) (cmp_on te_protocol localeCompare))))).

#[export] Instance edge_order_comparator : Comparator edge_order.
Proof. unfold edge_order. apply _. Qed.

Lemma compare_edge_order a b :
  is_Some (Date_parse (te_lastSeenAt a)) → is_Some (Date_parse (te_lastSeenAt b)) →
  compareTopologyEdges a b = edge_order a b.
Proof.
  intros [s Hs] [t Ht]. unfold compareTopologyEdges, edge_order, cmp_then, cmp_rev, cmp_on, cmp_time.
  by rewrite Hs, Ht.
Qed.

Lemma js_sort_ext {A} (c1 c2 : A → A → comparison) l :
  (∀ x y, x ∈ l → y ∈ l → c1 x y = c2 x y) → js_sort c1 l = js_sort c2 l.
Proof.
  induction l as [|x l IH]; intros Heq; cbn [js_sort]; [done|].
  rewrite IH by (intros a b Ha Hb; apply Heq; apply elem_of_cons; auto).
  assert (∀ y, y ∈ js_sort c2 l → c1 x y = c2 x y) as Hx.
  { intros y Hy. rewrite js_sort_elem in Hy. apply Heq; apply elem_of_cons; auto. }
  revert Hx. generalize (js_sort c2 l) as r. induction r as [|y r IHr]; intros Hx; cbn [sort_insert]; [done|].
  rewrite Hx by (apply elem_of_cons; auto). rewrite IHr; [done|]. intros z Hz. apply Hx, elem_of_cons. auto.
Qed.

Lemma sort_edges edges :
  readable_edges edges → js_sort compareTopologyEdges edges = js_sort edge_order edges.
Proof.
  intros Hr. unfold readable_edges in Hr. rewrite Forall_forall in Hr. apply js_sort_ext. intros x y Hx Hy.
  apply compare_edge_order; auto.
Qed.

End ordering.

(** ** The domain view conserves traffic *)

Section domain_view.
Context `{DateHost} `{LocaleHost} (getDomain : ustring → option ustring).

Abbreviation domain_of := (domain_of getDomain).

(** The distinct targets of a domain. *)
Definition targets_of (edges : list TopologyEdgeDto) (d : ustring) : list ustring :=
  js_unique (js_filter (λ t, bool_decide (domain_of t = Some d)) (te_target <$> edges)).

Definition domain_index (edges : list TopologyEdgeDto) : list (ustring * list ustring) :=
  foldl (domain_step getDomain) [] edges.

Lemma targets_of_snoc edges e d :
  targets_of (edges ++ [e]) d =
  if bool_decide (domain_of (te_target e) = Some d) then set_add (te_target e) (targets_of edges d)
  else targets_of edges d.
Proof.
  unfold targets_of, js_filter. rewrite fmap_app. cbn [fmap list_fmap]. rewrite List.filter_app. cbn [List.filter].
  case_bool_decide; [apply js_unique_snoc|by rewrite app_nil_r].
Qed.

Lemma domain_index_spec edges :
  NoDup (domain_index edges).*1 ∧
  (∀ d, map_get d (domain_index edges) =
     if bool_decide (targets_of edges d = []) then None else Some (targets_of edges d)).
Proof.
  induction edges as [|e edges [IH1 IH2]] using rev_ind; [split; [constructor|done]|].
  unfold domain_index in *. rewrite foldl_snoc.
  set (index := foldl (domain_step getDomain) [] edges) in *. clearbody index. unfold domain_step.
  destruct (domain_of (te_target e)) as [d0|] eqn:Hd.
  - split; [by apply map_set_NoDup|]. intros d. rewrite map_get_set, targets_of_snoc, Hd.
    destruct (decide (d = d0)) as [->|Hne].
    + rewrite !(bool_decide_eq_true_2 (Some d0 = Some d0)) by done. rewrite IH2.
      assert (default [] (if bool_decide (targets_of edges d0 = []) then None else Some (targets_of edges d0))
        = targets_of edges d0) as -> by (case_bool_decide; done).
      rewrite bool_decide_eq_false_2; [done|]. unfold set_add. case_decide as Hin; [|by destruct (targets_of edges d0)].
      intros E. rewrite E in Hin. by apply not_elem_of_nil in Hin.
    + rewrite !(bool_decide_eq_false_2 (Some d0 = Some d)) by congruence. apply IH2.
  - split; [done|]. intros d. rewrite targets_of_snoc, Hd, !(bool_decide_eq_false_2 (None = Some d)) by done. apply IH2.
Qed.

Lemma targets_of_elem edges d t :
  t ∈ targets_of edges d ↔ t ∈ te_target <$> edges ∧ domain_of t = Some d.
Proof. unfold targets_of. rewrite js_unique_elem, js_filter_elem, bool_decide_eq_true. done. Qed.

(** A group gathers the targets of a registrable domain that has several. *)
Lemma domain_groups_elem edges g :
  g ∈ domain_groups getDomain edges ↔
  dg_targets g = js_sort cmp_units (targets_of edges (dg_domain g)) ∧
  (1 < length (targets_of edges (dg_domain g)))%nat.
Proof.
  unfold domain_groups. rewrite js_sort_elem. destruct (domain_index_spec edges) as [Hnd Hget].
  fold (domain_index edges). split.
  - intros Hg. apply list_elem_of_In, in_map_iff in Hg as ([d ts] & <- & Hin).
    apply list_elem_of_In in Hin. apply js_filter_elem in Hin as [Hin Hlen]. breflect. cbn in *.
    apply (map_get_elem _ _ _ Hnd) in Hin. rewrite Hget in Hin. case_bool_decide; [done|]. by simplify_eq.
  - destruct g as [d ts]. cbn. intros [-> Hlen]. apply list_elem_of_In, in_map_iff.
    exists (d, targets_of edges d). split; [done|]. apply list_elem_of_In, js_filter_elem.
    split; [|by apply bool_decide_eq_true]. apply map_get_Some_elem. rewrite Hget.
    rewrite bool_decide_eq_false_2; [done|]. intros E. rewrite E in Hlen. cbn in Hlen. lia.
Qed.

Lemma map_of_get {K V} `{EqDecision K} (l : list (K * V)) k v :
  map_get k (map_of l) = Some v → (k, v) ∈ l.
Proof.
  unfold map_of. induction l as [|kv l IH] using rev_ind; [done|]. rewrite foldl_snoc, map_get_set.
  rewrite elem_of_app, list_elem_of_singleton. case_decide; [|auto]. intros [= <-]. subst. right. by destruct kv.
Qed.

(** The group of a target, if its domain is shared. *)
Lemma group_by_target_spec edges t :
  t ∈ te_target <$> edges →
  map_get t (group_by_target (domain_groups getDomain edges)) =
  (d ← domain_of t; if bool_decide (1 < length (targets_of edges d))%nat then Some d else None).
Proof.
  intros Ht. unfold group_by_target. set (pairs := flat_map _ _).
  assert (∀ d, (t, d) ∈ pairs ↔ domain_of t = Some d ∧ (1 < length (targets_of edges d))%nat) as Hp.
  { intros d. subst pairs. rewrite elem_of_flat_map. split.
    - intros (g & Hg & Hin). apply list_elem_of_In, in_map_iff in Hin as (t' & E & Hin). simplify_eq.
      apply list_elem_of_In in Hin. apply domain_groups_elem in Hg as [Hts Hlen]. rewrite Hts in Hin.
      rewrite js_sort_elem, targets_of_elem in Hin. naive_solver.
    - intros [Hd Hlen]. exists (mkDomainGroup d (js_sort cmp_units (targets_of edges d))).
      split; [by apply domain_groups_elem|]. apply list_elem_of_In, in_map_iff. exists t. split; [done|].
      apply list_elem_of_In. cbn. rewrite js_sort_elem. by apply targets_of_elem. }
  destruct (map_get t (map_of pairs)) as [d|] eqn:Hg.
  - apply map_of_get in Hg. apply Hp in Hg as [-> Hlen]. cbn. by rewrite bool_decide_eq_true_2.
  - destruct (domain_of t) as [d|] eqn:Hd; [|done]. cbn. case_bool_decide as Hlen; [|done]. exfalso.
    apply map_get_None in Hg. apply Hg. rewrite map_of_keys, js_unique_elem.
    apply list_elem_of_fmap. exists (t, d). split; [done|]. by apply Hp.
Qed.

Definition edge_id (e : TopologyEdgeDto) : ustring :=
  topologyEdgeId (te_endpointId e) (te_target e) (te_protocol e).

(** The edge an original edge is folded into. *)
Definition view_edge (byTarget : list (ustring * ustring)) (expanded : list ustring) (e : TopologyEdgeDto)
  : TopologyEdgeDto := with_target (view_target byTarget expanded (te_target e)) e.

Record view_ok (byTarget : list (ustring * ustring)) (expanded : list ustring) (seen : list TopologyEdgeDto)
  (edges : list (ustring * TopologyEdgeDto)) : Prop := {
  vo_nodup : NoDup edges.*1;
  vo_ids : Forall (λ kv, edge_id kv.2 = kv.1) edges;
  vo_keys : ∀ id, id ∈ edges.*1 ↔ id ∈ edge_id <$> (view_edge byTarget expanded <$> seen);
  vo_events : sumZ (te_eventCount <$> edges.*2) = sumZ (te_eventCount <$> seen);
  vo_alerts : sumZ (te_alertCount <$> edges.*2) = sumZ (te_alertCount <$> seen);
}.

(** Replacing one value of a map changes a sum by the difference. *)
Lemma sum_map_set {V} (f : V → Z) id (v : V) (m : list (ustring * V)) :
  sumZ (f <$> (map_set id v m).*2) =
  sumZ (f <$> m.*2) + f v - match map_get id m with Some old => f old | None => 0 end.
Proof.
  induction m as [|[k w] m IH]; csimpl; [lia|]. case_decide; csimpl; [lia|]. rewrite IH. lia.
Qed.

Lemma view_step_ok byTarget expanded seen edges e :
  view_ok byTarget expanded seen edges →
  view_ok byTarget expanded (seen ++ [e]) (view_step byTarget expanded edges e).
Proof.
  intros [H1 H2 H3 H4 H5]. unfold view_step.
  set (target := view_target byTarget expanded (te_target e)).
  set (id := topologyEdgeId (te_endpointId e) target (te_protocol e)).
  assert (edge_id (view_edge byTarget expanded e) = id) as Hid by done.
  assert (∀ v, (map_set id v edges).*1 = if decide (id ∈ edges.*1) then edges.*1 else edges.*1 ++ [id]) as Hk
    by (intros; apply map_set_keys).
  set (value := match map_get id edges with Some current => merge_edge current e | None => with_target target e end).
  assert (match map_get id edges with
          | None => map_set id (with_target target e) edges
          | Some current => map_set id (merge_edge current e) edges
          end = map_set id value edges) as -> by (subst value; by destruct (map_get id edges)).
  split.
  - by apply map_set_NoDup.
  - rewrite Forall_forall in *. intros kv [->|Hin]%map_set_elem; [|by apply H2]. cbn. subst value.
    destruct (map_get id edges) as [cur|] eqn:Hg; [|done].
    apply map_get_Some_elem in Hg. by apply (H2 (id, cur)).
  - intros i. rewrite Hk, !fmap_app, elem_of_app, <- H3. csimpl. rewrite Hid, list_elem_of_singleton.
    case_decide; [naive_solver|]. by rewrite elem_of_app, list_elem_of_singleton.
  - rewrite sum_map_set, fmap_app, sumZ_app, H4. subst value. csimpl. destruct (map_get id edges); cbn; lia.
  - rewrite sum_map_set, fmap_app, sumZ_app, H5. subst value. csimpl. destruct (map_get id edges); cbn; lia.
Qed.

Lemma view_loop byTarget expanded edges :
  view_ok byTarget expanded edges (foldl (view_step byTarget expanded) [] edges).
Proof.
  induction edges as [|e edges IH] using rev_ind.
  - split; try done. constructor.
  - rewrite foldl_snoc. by apply view_step_ok.
Qed.
End domain_view.

(** ** Correlation, health and archives *)

(** Sorting by a flag, then by position, moves the flagged elements to the front. *)
Lemma sorted_flag_split (l : list indexed_edge) :
  StronglySorted (cmp_le (cmp_on (λ e : indexed_edge, Z.of_nat e.1.2) Z.compare)) l →
  js_sort compare_connected l = js_filter (λ e, e.2) l ++ js_filter (λ e, negb e.2) l.
Proof.
  induction 1 as [|x l Hl IH Hx]; [done|]. cbn [js_sort]. rewrite IH, !js_filter_cons.
  assert (∀ y, y ∈ l → y.2 = x.2 → compare_connected x y ≠ Gt) as Hxy.
  { intros y Hy E. rewrite Forall_forall in Hx. specialize (Hx y Hy). revert Hx.
    unfold compare_connected, cmp_le, cmp_then, cmp_rev, cmp_on. by rewrite E, Z.compare_refl. }
  destruct x as [[e i] b]. cbn [snd] in *. destruct b; cbn [negb].
  - cbn [app]. destruct (js_filter (λ e0, e0.2) l ++ js_filter (λ e0, negb e0.2) l) as [|y r] eqn:E; [done|].
    cbn [sort_insert]. assert (compare_connected (e, i, true) y ≠ Gt) as Hc.
    { destruct y as [[ey iy] []] eqn:Ey.
      - apply Hxy; [|done].
        assert ((ey, iy, true) ∈ js_filter (λ e0, e0.2) l ++ js_filter (λ e0, negb e0.2) l) as Hin
          by (rewrite E; apply elem_of_cons; auto).
        apply elem_of_app in Hin as [Hin|Hin]; by apply js_filter_elem in Hin as [? ?].
      - by vm_compute. }
    by destruct (compare_connected (e, i, true) y).
  - assert (∀ r, js_filter (λ e0, negb e0.2) l = r →
      sort_insert compare_connected (e, i, false) r = (e, i, false) :: r) as Hback.
    { intros [|y r] E; [done|]. cbn [sort_insert].
      assert (y ∈ js_filter (λ e0, negb e0.2) l) as Hin by (rewrite E; apply elem_of_cons; auto).
      apply js_filter_elem in Hin as [Hin Hb]. apply negb_true_iff in Hb.
      specialize (Hxy y Hin Hb). by destruct (compare_connected (e, i, false) y). }
    assert (∀ r, Forall (λ y : indexed_edge, y.2 = true) r →
      sort_insert compare_connected (e, i, false) (r ++ js_filter (λ e0, negb e0.2) l) =
      r ++ (e, i, false) :: js_filter (λ e0, negb e0.2) l) as Hfront.
    { induction 1 as [|[[ey iy] []] r Hy Hr IHr]; cbn [app]; [by apply Hback| |done].
      cbn [sort_insert].
      assert (compare_connected (e, i, false) (ey, iy, true) = Gt) as -> by by vm_compute. by rewrite IHr. }
    apply Hfront. apply Forall_forall. intros y [_ Hy]%js_filter_elem. done.
Qed.

Lemma imap_sorted {A} (f : nat → A → indexed_edge) k l :
  (∀ i x, (f i x).1.2 = (k + i)%nat) →
  StronglySorted (cmp_le (cmp_on (λ e : indexed_edge, Z.of_nat e.1.2) Z.compare)) (imap f l).
Proof.
  revert f k. induction l as [|x l IH]; intros f k Hf; cbn [imap]; [constructor|]. constructor.
  - apply (IH _ (S k)). intros i y. cbn. rewrite Hf. lia.
  - apply Forall_forall. intros e He. apply list_elem_of_lookup in He as [i Hi].
    rewrite list_lookup_imap in Hi. destruct (l !! i) as [y|]; [|done]. cbn in Hi. injection Hi as <-.
    unfold cmp_le, cmp_on. rewrite !Hf, Z.compare_le_iff. lia.
Qed.

Lemma imap_filter {A} (p : A → bool) (l : list A) (f : nat → A → indexed_edge) (g : indexed_edge → A) :
  (∀ i x, g (f i x) = x ∧ (f i x).2 = p x) →
  map g (js_filter (λ e, e.2) (imap f l)) = js_filter p l ∧
  map g (js_filter (λ e, negb e.2) (imap f l)) = js_filter (λ x, negb (p x)) l.
Proof.
  revert f. induction l as [|x l IH]; intros f Hf; cbn [imap]; [done|]. rewrite !js_filter_cons.
  destruct (Hf 0%nat x) as [Hg Hp]. rewrite Hp. destruct (IH (f ∘ S)) as [IH1 IH2]; [intros; apply Hf|].
  destruct (p x); cbn [negb map]; rewrite ?Hg, IH1, IH2; done.
Qed.

Lemma worst_foldl statuses worst :
  let r := foldl (λ worst status, if HEALTH_PRIORITY status <? HEALTH_PRIORITY worst then status else worst)
             worst statuses in
  (r = worst ∨ r ∈ statuses) ∧ HEALTH_PRIORITY r ≤ HEALTH_PRIORITY worst ∧
  Forall (λ s, HEALTH_PRIORITY r ≤ HEALTH_PRIORITY s) statuses.
Proof.
  revert worst. induction statuses as [|s l IH]; intros worst; cbn [foldl]; [split_and!; auto; lia|].
  set (w := if HEALTH_PRIORITY s <? HEALTH_PRIORITY worst then s else worst). specialize (IH w). cbv zeta in *. destruct IH as (H1 & H2 & H3).
  assert (HEALTH_PRIORITY w ≤ HEALTH_PRIORITY worst ∧ HEALTH_PRIORITY w ≤ HEALTH_PRIORITY s ∧ (w = worst ∨ w = s))
    as (Hw1 & Hw2 & Hw) by (subst w; case_match; breflect; split_and!; auto; lia).
  split_and!; [|lia|constructor; [lia|done]].
  destruct H1 as [->|H1]; [|right; apply elem_of_cons; auto].
  destruct Hw as [->| ->]; [by left|right; apply elem_of_cons; auto].
Qed.

Lemma worstHealth_spec statuses :
  (statuses = [] → worstHealth statuses = Health_UNAVAILABLE) ∧
  (statuses ≠ [] → worstHealth statuses ∈ statuses ∧
     Forall (λ s, HEALTH_PRIORITY (worstHealth statuses) ≤ HEALTH_PRIORITY s) statuses).
Proof.
  split; [by intros ->|]. destruct statuses as [|s l]; [done|]. intros _. unfold worstHealth.
  destruct (worst_foldl (s :: l) Health_HEALTHY) as (H1 & _ & H3). split; [|done].
  destruct H1 as [H1|H1]; [|done]. rewrite H1 in *. apply Forall_cons in H3 as [H3 _].
  destruct s; try (vm_compute in H3; congruence). apply elem_of_cons. auto.
Qed.

Lemma lifecycle_partition (items : list ArchiveBucketDto) :
  sumZ (map snd (archiveLifecycleCounts items)) = Z.of_nat (length items).
Proof.
  unfold archiveLifecycleCounts. rewrite map_map. cbn [snd].
  induction items as [|i items IH]; [done|].
  assert (∀ st, Z.of_nat (length (js_filter (λ item, bool_decide (bucket_storageStatus item = st)) (i :: items))) =
    Z.b2z (bool_decide (bucket_storageStatus i = st)) +
    Z.of_nat (length (js_filter (λ item, bool_decide (bucket_storageStatus item = st)) items))) as Hc.
  { intros st. rewrite js_filter_cons. case_bool_decide; cbn [length Z.b2z]; lia. }
  unfold STORAGE_LIFECYCLE in *. cbn [map sumZ foldr] in *. rewrite !Hc. cbn [length].
  destruct (bucket_storageStatus i); cbn [bool_decide Z.b2z]; repeat case_bool_decide; try done; cbn [Z.b2z]; lia.
Qed.

(** ** Claims *)

(** Grouping topology edges never loses or double-counts traffic: for targets
    without lone surrogates it succeeds, the groups partition the edges by
    endpoint and target under distinct ids, and every group's event and alert
    counts, protocols (sorted, distinct) and last-seen time are those of its
    edges. *)
Theorem groupTopologyEdges_spec `{DateHost} edges :
  Forall (λ e, well_formed (te_target e)) edges →
  ∃ groups, groupTopologyEdges edges = Some groups ∧
    NoDup (g_id <$> groups) ∧ Forall group_ok groups ∧
    Forall (λ g, StronglySorted (cmp_le cmp_units) (g_protocols g)) groups ∧
    flat_map g_edges groups ≡ₚ edges ∧
    sumZ (g_eventCount <$> groups) = sumZ (te_eventCount <$> edges) ∧
    sumZ (g_alertCount <$> groups) = sumZ (te_alertCount <$> edges).
Proof.
  intros Hwf. destruct (group_loop edges Hwf) as (groups & Hf & [H1 H2 H3 H4]).
  unfold groupTopologyEdges. rewrite Hf. cbn [mbind option_bind]. eexists. split; [done|].
  assert (∀ f : TopologyEdgeGroup → Z, ∀ h : TopologyEdgeDto → Z,
    (∀ kv, kv ∈ groups → f kv.2 = sumZ (h <$> g_edges kv.2)) →
    sumZ ((λ kv, f kv.2) <$> groups) = sumZ (h <$> edges)) as Hsum.
  { intros f h Hfh. rewrite <- (sumZ_perm _ _ (fmap_Permutation h _ _ H4)). unfold edges_of.
    clear - Hfh. induction groups as [|kv groups IH]; [done|]. csimpl. cbn [flat_map].
    rewrite fmap_app, sumZ_app, <- (Hfh kv) by (apply elem_of_cons; auto).
    rewrite <- IH; [done|]. intros kv' Hkv. apply Hfh, elem_of_cons. auto. }
  change (map sort_protocols groups.*2) with (sort_protocols <$> groups.*2).
  rewrite <- !list_fmap_compose. rewrite Forall_forall in H3.
  split_and!.
  - replace ((g_id ∘ (sort_protocols ∘ snd)) <$> groups) with groups.*1; [done|].
    apply list_fmap_ext. intros i kv Hi. rewrite Forall_forall in H2. symmetry.
    by apply (H2 kv), list_elem_of_lookup_2 with i.
  - apply Forall_fmap, Forall_forall. intros kv Hkv. by apply sort_protocols_ok, H3.
  - apply Forall_fmap, Forall_forall. intros kv Hkv. cbn. apply js_sort_sorted. apply _.
  - etrans; [|exact H4]. unfold edges_of. rewrite flat_map_concat_map, flat_map_concat_map, map_map. done.
  - apply (Hsum g_eventCount). intros kv Hkv. by apply (go_events _ (H3 _ Hkv)).
  - apply (Hsum g_alertCount). intros kv Hkv. by apply (go_alerts _ (H3 _ Hkv)).
Qed.

Definition sample_edge (endpoint : Z) (target protocol : ustring) (events : Z) : TopologyEdgeDto :=
  mkTopologyEdgeDto 1 endpoint events (u! "2026-07-15T00:00:00Z") protocol (u! "host") target.

Lemma ascii_wf s : forallb (λ c, (0 <=? c) && (c <? 128)) s = true → well_formed s.
Proof.
  intros Hs. exists s. assert (Forall (λ c, 0 ≤ c < 128) s) as Ha.
  { apply Forall_forall. intros c Hc. rewrite forallb_elem in Hs. specialize (Hs c Hc). breflect. lia. }
  split.
  - eapply Forall_impl; [exact Ha|]. unfold scalar. intros; simpl in *; lia.
  - unfold utf16_encode. clear Hs. induction Ha as [|c s Hc Hs IH]; [done|]. cbn [flat_map]. rewrite <- IH.
    by destruct (Z.ltb_spec c 65536); [|lia].
Qed.

Lemma groupTopologyEdges_spec_witness :
  ∃ groups, @groupTopologyEdges utc_host
    [sample_edge 1 (u! "a.example") (u! "TLS") 3; sample_edge 1 (u! "a.example") (u! "HTTP") 4] = Some groups ∧
    sumZ (g_eventCount <$> groups) = 7.
Proof.
  destruct (@groupTopologyEdges_spec utc_host
    [sample_edge 1 (u! "a.example") (u! "TLS") 3; sample_edge 1 (u! "a.example") (u! "HTTP") 4])
    as (groups & H1 & _ & _ & _ & _ & H2 & _).
  - apply Forall_cons. split; [apply ascii_wf; vm_compute; reflexivity|].
    apply Forall_singleton. apply ascii_wf. vm_compute. reflexivity.
  - exists groups. split; [exact H1|]. rewrite H2. reflexivity.
Defined.

(** Collapsing targets into their registrable domains conserves traffic:
    whatever the public-suffix lookup answers and whichever domains are expanded,
    the edges of the view add up to the original events and alerts, have distinct
    ids, and stand for every original edge with its target replaced by its domain
    exactly when the domain has several targets and is not expanded. *)
Theorem buildTopologyDomainView_spec `{DateHost} `{LocaleHost} getDomain topology expanded :
  let view := dv_topology (buildTopologyDomainView getDomain topology expanded) in
  let shown t :=
    match domain_of getDomain t with
    | Some d =>
      if bool_decide (1 < length (targets_of getDomain (topo_edges topology) d))%nat
         && negb (bool_decide (d ∈ expanded)) then d else t
    | None => t
    end in
  sumZ (te_eventCount <$> topo_edges view) = sumZ (te_eventCount <$> topo_edges topology) ∧
  sumZ (te_alertCount <$> topo_edges view) = sumZ (te_alertCount <$> topo_edges topology) ∧
  NoDup (edge_id <$> topo_edges view) ∧
  (∀ id, id ∈ edge_id <$> topo_edges view ↔
     ∃ e, e ∈ topo_edges topology ∧ id = topologyEdgeId (te_endpointId e) (shown (te_target e)) (te_protocol e)) ∧
  topo_nodes view = topo_nodes topology.
Proof.
  intros view shown. set (edges := topo_edges topology) in *.
  set (byTarget := group_by_target (domain_groups getDomain edges)).
  destruct (view_loop getDomain byTarget expanded edges) as [H1 H2 H3 H4 H5].
  assert (∀ t, t ∈ te_target <$> edges → view_target byTarget expanded t = shown t) as Hshown.
  { intros t Ht. unfold view_target, byTarget. rewrite group_by_target_spec by done. unfold shown.
    destruct (domain_of getDomain t) as [d|] eqn:Hd; [|done]. cbn.
    assert (truthy d = true) as Htr.
    { unfold domain_of in Hd. destruct (registrableDomainForTarget _ _); [|done]. case_match; congruence. }
    case_bool_decide; [|done]. by rewrite Htr. }
  assert (topo_edges view ≡ₚ (foldl (view_step byTarget expanded) [] edges).*2) as Hp by apply js_sort_perm.
  assert (edge_id <$> (foldl (view_step byTarget expanded) [] edges).*2 = (foldl (view_step byTarget expanded) [] edges).*1) as Hids.
  { rewrite <- list_fmap_compose. apply list_fmap_ext. intros i kv Hi. rewrite Forall_forall in H2.
    by apply (H2 kv), list_elem_of_lookup_2 with i. }
  split_and!.
  - by rewrite (sumZ_perm _ _ (fmap_Permutation te_eventCount _ _ Hp)).
  - by rewrite (sumZ_perm _ _ (fmap_Permutation te_alertCount _ _ Hp)).
  - by rewrite Hp, Hids.
  - intros id. rewrite Hp, Hids, H3, <- list_fmap_compose, list_elem_of_fmap. split.
    + intros (e & -> & He). exists e. split; [done|]. cbn. rewrite <- Hshown; [done|by apply list_elem_of_fmap_2].
    + intros (e & He & ->). exists e. split; [|done]. cbn. rewrite <- Hshown; [done|by apply list_elem_of_fmap_2].
  - done.
Qed.

(** Filtering a topology keeps the best matches: the edges shown match the
    search, are in order, at most the limit (at least one) and never displaced by
    a matching edge that ranks better; the nodes shown are exactly the endpoints
    of the edges shown. *)
Theorem filterTopology_spec `{DateHost} `{LocaleHost} topology search limit :
  readable_edges (topo_edges topology) →
  let result := filterTopology topology search limit in
  let matches := topology_matches topology (toLocaleLowerCase (trim search)) in
  (length (topo_edges result) = Nat.min (Z.to_nat (Z.max 1 limit)) (length (js_filter matches (topo_edges topology)))) ∧
  Forall (λ e, e ∈ topo_edges topology ∧ matches e = true) (topo_edges result) ∧
  StronglySorted (cmp_le edge_order) (topo_edges result) ∧
  (∃ rest, js_filter matches (topo_edges topology) ≡ₚ topo_edges result ++ rest ∧
     ∀ e e', e ∈ topo_edges result → e' ∈ rest → cmp_le edge_order e e') ∧
  (∀ n, n ∈ topo_nodes result ↔
     n ∈ topo_nodes topology ∧ tn_endpointId n ∈ te_endpointId <$> topo_edges result).
Proof.
  intros Hr result matches. set (m := js_filter matches (topo_edges topology)).
  assert (readable_edges m) as Hrm.
  { unfold readable_edges in *. rewrite Forall_forall in *. intros e [He _]%js_filter_elem. by apply Hr. }
  assert (topo_edges result = take (Z.to_nat (Z.max 1 limit)) (js_sort edge_order m)) as He.
  { unfold result, filterTopology. cbn [topo_edges]. by rewrite sort_edges. }
  pose proof (js_sort_sorted edge_order m) as Hs.
  split_and!.
  - by rewrite He, length_take, js_sort_length.
  - rewrite He. apply Forall_take, Forall_forall. intros e Hin. rewrite js_sort_elem in Hin.
    by apply js_filter_elem in Hin.
  - rewrite He. eapply StronglySorted_app_1_l. by rewrite take_drop.
  - exists (drop (Z.to_nat (Z.max 1 limit)) (js_sort edge_order m)). rewrite He, take_drop.
    split; [by rewrite js_sort_perm|]. intros e e'. apply StronglySorted_app_1_elem_of. by rewrite take_drop.
  - intros n. unfold result at 1, filterTopology. cbn [topo_nodes].
    rewrite js_filter_elem, bool_decide_eq_true, js_unique_elem. done.
Qed.

(** A host that compares by code units and folds ASCII letters. *)
Definition unit_locale : LocaleHost :=
  {| localeCompare := cmp_units;
     toLocaleLowerCase := map (λ c, if (65 <=? c) && (c <=? 90) then c + 32 else c);
     localeCompare_comparator := cmp_units_comparator |}.

Definition sample_topology : EgressTopologyDto :=
  mkEgressTopologyDto [sample_edge 1 (u! "a.example") (u! "TLS") 3; sample_edge 2 (u! "b.example") (u! "HTTP") 4]
    [] [mkTopologyNodeDto 0 1 (u! "HOST-1") Risk_LOW 1 Endpoint_ONLINE] [].

Lemma filterTopology_spec_witness :
  Forall (λ e, e ∈ topo_edges sample_topology ∧
    @topology_matches unit_locale sample_topology (u! "host-1") e = true)
    (topo_edges (@filterTopology utc_host unit_locale sample_topology (u! " HOST-1 ") 20)).
Proof.
  destruct (@filterTopology_spec utc_host unit_locale sample_topology (u! " HOST-1 ") 20) as (_ & H & _).
  - apply Forall_cons. split; [vm_compute; eexists; reflexivity|]. apply Forall_singleton.
    vm_compute. eexists. reflexivity.
  - exact H.
Defined.

(** The correlation graph shows the relationships of the searched value first:
    the ones that touch it, then the others, each in the order given, cut at the
    limit (at least one). *)
Theorem correlationGraphRelationships_spec correlation limit :
  let touches := input_connected (correlationNodeId (corr_inputType correlation) (corr_inputValue correlation)) in
  correlationGraphRelationships correlation limit =
  take (Z.to_nat (Z.max 1 limit))
    (js_filter touches (corr_relationships correlation) ++
     js_filter (λ e, negb (touches e)) (corr_relationships correlation)).
Proof.
  intros touches. unfold correlationGraphRelationships. fold touches.
  set (f := λ (index : nat) (edge : CorrelationRelationshipDto), (edge, index, touches edge)).
  rewrite sorted_flag_split by (apply (imap_sorted _ 0); done).
  rewrite <- firstn_map, map_app.
  destruct (imap_filter touches (corr_relationships correlation) f (λ e : indexed_edge, e.1.1)) as [H1 H2]; [done|].
  f_equal. f_equal; [exact H1|exact H2].
Qed.

(** The pipeline snapshot lists each stage once, worst first: the collection
    stage has the worst health of its services, detection that of its workers
    (degraded by failed events), storage that of its stores (degraded by failed
    buckets), and a stage nothing reports on is unavailable. *)
Theorem buildPipelineSnapshot_spec health ingest :
  StronglySorted (λ a b, HEALTH_PRIORITY (stage_status a) ≤ HEALTH_PRIORITY (stage_status b))
    (buildPipelineSnapshot health ingest) ∧
  buildPipelineSnapshot health ingest ≡ₚ pipeline_stages health ingest ∧
  (∀ statuses, statuses ≠ [] →
     worstHealth statuses ∈ statuses ∧
     Forall (λ s, HEALTH_PRIORITY (worstHealth statuses) ≤ HEALTH_PRIORITY s) statuses) ∧
  (∀ stage, stage ∈ buildPipelineSnapshot health ingest → stage_status stage = Health_HEALTHY →
     stage_id stage = DETECTION → failures_failedCount (ingest_eventFailures ingest) ≤ 0 ∧
       failures_reprocessFailedCount (ingest_eventFailures ingest) ≤ 0 ∧
       Forall (λ w, worker_health w = Health_HEALTHY) (health_workers health)).
Proof.
  split_and!.
  - pose proof (js_sort_sorted compare_stages (pipeline_stages health ingest)) as Hs.
    unfold buildPipelineSnapshot. induction Hs as [|a l Hs IH Ha]; constructor; [done|].
    eapply Forall_impl; [exact Ha|]. intros b. unfold cmp_le, compare_stages, cmp_on.
    by rewrite Z.compare_le_iff.
  - apply js_sort_perm.
  - intros statuses Hne. by apply worstHealth_spec.
  - intros stage Hin Hh Hid. unfold buildPipelineSnapshot in Hin. rewrite js_sort_elem in Hin.
    unfold pipeline_stages in Hin. rewrite !elem_of_cons, elem_of_nil in Hin.
    destruct Hin as [->|[->|[->|[]]]]; [done| |done]. cbn [stage_status] in Hh.
    set (l := map worker_health (health_workers health) ++ _) in Hh.
    destruct (decide (l = [])) as [E|E]; [rewrite E in Hh; discriminate Hh|].
    destruct (proj2 (worstHealth_spec l) E) as [_ Hall]. rewrite Hh in Hall.
    assert (Forall (λ s, s = Health_HEALTHY) l) as Hl.
    { eapply Forall_impl; [exact Hall|]. intros s Hs. destruct s; vm_compute in Hs; congruence. }
    subst l. apply Forall_app in Hl as [Hw Hf]. split_and!; [..|by rewrite Forall_fmap in Hw].
    all: destruct ((0 <? failures_failedCount _) || _) eqn:Ef;
      [rewrite Forall_singleton in Hf; discriminate Hf|breflect; lia].
Qed.

(** The archive life cycle counts every bucket once: its counts, one for each
    storage status in order, add up to the number of buckets. *)
Theorem archiveLifecycleCounts_spec items :
  map fst (archiveLifecycleCounts items) = lit_values ∧
  sumZ (map snd (archiveLifecycleCounts items)) = Z.of_nat (length items) ∧
  Forall (λ sc, sc.2 = Z.of_nat (length (js_filter
    (λ item, bool_decide (bucket_storageStatus item = sc.1)) items))) (archiveLifecycleCounts items).
Proof.
  split_and!; [done|apply lifecycle_partition|]. by repeat constructor.
Qed.
