(* ===== verification/Graphs.v ===== *)
(** * Graph drawings

    Models frontend/src/components/{TopologyGraph,CorrelationGraph}.tsx: the nodes
    and edges handed to the drawing library, the positions of nodes and of edge
    labels, and the height of the drawing. The layout of dagre and the label
    point of a Bezier curve are parameters; coordinates are exact rationals. *)

From Stdlib Require Import QArith Qminmax Qround Lqa.
From S2P Require Import Prelude JsNumber JsDate Url Contracts Topology.

#[local] Open Scope Z_scope.

Definition point : Type := Q * Q.

(** ** Constants *)

Definition NODE_WIDTH : Q := 160.
Definition NODE_HEIGHT : Q := 64.
Definition EDGE_LABEL_GAP : Q := 40.
Definition EDGE_LABEL_LANE_OFFSET : Q := 50.
Definition EDGE_LABEL_TARGET_HEIGHT : Q := 36.
Definition GRAPH_VERTICAL_MARGIN : Q := 64.
Definition TOPOLOGY_FIT_VIEW_PADDING : Q := 1 # 10.
Definition CORRELATION_FIT_VIEW_PADDING : Q := 5 # 100.

Definition topologyEdgeVisualState (alertCount : Z) : ustring :=
  if 0 <? alertCount then u! "has-alerts" else u! "observed-only".

(** What [closest] finds: the element's [data-id], and whether it is a node. *)
Definition topologySelectionFromElement (element : option (option ustring * bool)) : option TopologySelection :=
  match element with
  | Some (Some id, isNode) => if truthy id then Some (if isNode then TNode id else TEdgeGroup id) else None
  | _ => None
  end.

Definition correlationSelectionFromElement (element : option (option ustring * bool)) : option CorrelationSelection :=
  match element with
  | Some (Some id, isNode) => if truthy id then Some (if isNode then CNode id else CEdge id) else None
  | _ => None
  end.

(** ** Heights *)

Definition Qmin_list (q : Q) (l : list Q) : Q := foldl Qmin q l.
Definition Qmax_list (q : Q) (l : list Q) : Q := foldl Qmax q l.

(** Both drawings; [base] and [padding] are their constants. *)
Definition graph_min_height (base : Z) (padding : Q) (ys labels : list Q) : Z :=
  match ys with
  | [] => base
  | y :: r =>
    let nodeTop := Qmin_list y r in
    let nodeBottom := (Qmax_list y r + NODE_HEIGHT)%Q in
    let nodeCenter := ((nodeTop + nodeBottom) / 2)%Q in
    let visualTop := match labels with
                     | [] => nodeTop
                     | c :: cs => Qmin nodeTop (Qmin_list c cs - EDGE_LABEL_TARGET_HEIGHT / 2)
                     end in
    let visualBottom := match labels with
                        | [] => nodeBottom
                        | c :: cs => Qmax nodeBottom (Qmax_list c cs + EDGE_LABEL_TARGET_HEIGHT / 2)
                        end in
    let centered := (Qmax (nodeCenter - visualTop) (visualBottom - nodeCenter) * 2)%Q in
    Z.max base (Qceiling (centered * (1 + padding * 2) + GRAPH_VERTICAL_MARGIN))
  end.

Definition topologyGraphMinHeight (positions : list (ustring * point)) (labels : list (ustring * (Q * Q))) : Z :=
  graph_min_height 420 TOPOLOGY_FIT_VIEW_PADDING (map (λ p, p.2.2) positions) (map (λ l, l.2.2) labels).

Definition correlationGraphMinHeight (positions : list (ustring * point)) (labels : list (ustring * Q)) : Z :=
  graph_min_height 520 CORRELATION_FIT_VIEW_PADDING (map (λ p, p.2.2) positions) (map snd labels).

(** ** Positions *)

(** A dagre graph: its nodes in the order they were set, and its edges.
    [setEdge] sets the nodes it names. *)
Record DagreGraph := mkDagre { dagre_nodes : list ustring; dagre_edges : list (ustring * ustring) }.

Definition setNode (id : ustring) (g : DagreGraph) : DagreGraph := mkDagre (set_add id (dagre_nodes g)) (dagre_edges g).
Definition setEdge (v w : ustring) (g : DagreGraph) : DagreGraph :=
  mkDagre (set_add w (set_add v (dagre_nodes g))) (set_add (v, w) (dagre_edges g)).

Section graphs.
Context `{DateHost} `{LocaleHost}.
Context (toUpperCase : ustring → ustring).
(** [dagre.layout] with the options of each drawing: the centre of a node. *)
Context (topologyLayout correlationLayout : DagreGraph → ustring → option point).
(** The third component of [getBezierPath], from the bottom of the source to the
    top of the target. *)
Context (bezierLabelY : point → point → Q).

(** The corner of each node from its centre. *)
Definition node_positions (layout : DagreGraph → ustring → option point) (g : DagreGraph) : list (ustring * point) :=
  map_of (map (λ id,
    let p := default (NODE_WIDTH / 2, NODE_HEIGHT / 2)%Q (layout g id) in
    (id, (p.1 - NODE_WIDTH / 2, p.2 - NODE_HEIGHT / 2)%Q)) (dagre_nodes g)).

Definition topology_dagre (nodes : list TopologyNodeDto) (edgeGroups : list TopologyEdgeGroup) : DagreGraph :=
  foldl (λ g edge, setEdge (endpointNodeId (g_endpointId edge)) (targetNodeId (g_target edge))
                     (setNode (targetNodeId (g_target edge)) g))
    (foldl (λ g node, setNode (endpointNodeId (tn_endpointId node)) g) (mkDagre [] []) nodes) edgeGroups.

Definition layoutTopologyNodes (topology : EgressTopologyDto) : option (list (ustring * point)) :=
  edgeGroups ← groupTopologyEdges (topo_edges topology);
  Some (node_positions topologyLayout (topology_dagre (topo_nodes topology) edgeGroups)).

Definition position_of (positions : list (ustring * point)) (id : ustring) : point :=
  default (0, 0)%Q (map_get id positions).

Definition label_y (source target : point) : Q :=
  bezierLabelY (source.1 + NODE_WIDTH / 2, source.2 + NODE_HEIGHT)%Q (target.1 + NODE_WIDTH / 2, target.2)%Q.

Definition compare_candidates : ustring * Q → ustring * Q → comparison :=
  cmp_then (cmp_on snd Qcompare) (cmp_on fst localeCompare).

(** [Math.max(labelY, previousY + EDGE_LABEL_GAP)]; [None] is minus infinity. *)
Definition adjusted (labelY : Q) (previous : option Q) : Q :=
  match previous with None => labelY | Some p => Qmax labelY (p + EDGE_LABEL_GAP) end.

(** One label: the lane where it can be highest, and the lanes after it. *)
Definition place_label (acc : option Q * option Q * list (ustring * (Q * Q))) (candidate : ustring * Q)
  : option Q * option Q * list (ustring * (Q * Q)) :=
  let '(previous0, previous1, out) := acc in
  let '(id, labelY) := candidate in
  let y0 := adjusted labelY previous0 in
  let y1 := adjusted labelY previous1 in
  if Qle_bool y0 y1 then (Some y0, previous1, out ++ [(id, ((- EDGE_LABEL_LANE_OFFSET)%Q, y0))])
  else (previous0, Some y1, out ++ [(id, (EDGE_LABEL_LANE_OFFSET, y1))]).

Definition place_labels (candidates : list (ustring * Q)) : list (ustring * (Q * Q)) :=
  match candidates with
  | [(id, labelY)] => [(id, (0%Q, labelY))]
  | _ => (foldl place_label (None, None, []) candidates).2
  end.

Definition topology_candidates (edgeGroups : list TopologyEdgeGroup) (positions : list (ustring * point))
  : list (ustring * Q) :=
  js_sort compare_candidates
    (map (λ edge, (g_id edge, label_y (position_of positions (endpointNodeId (g_endpointId edge)))
                                      (position_of positions (targetNodeId (g_target edge))))) edgeGroups).

Definition layoutTopologyEdgeLabels (edgeGroups : list TopologyEdgeGroup) (positions : list (ustring * point))
  : list (ustring * (Q * Q)) :=
  map_of (place_labels (topology_candidates edgeGroups positions)).

Definition correlation_dagre (nodeIds : list ustring) (relationships : list CorrelationRelationshipDto) : DagreGraph :=
  foldl (λ g edge, setEdge (correlationNodeId (cr_sourceType edge) (cr_sourceValue edge))
                     (correlationNodeId (cr_targetType edge) (cr_targetValue edge)) g)
    (foldl (λ g id, setNode id g) (mkDagre [] []) nodeIds) relationships.

Definition layoutCorrelationNodes (nodeIds : list ustring) (relationships : list CorrelationRelationshipDto)
  : list (ustring * point) :=
  node_positions correlationLayout (correlation_dagre nodeIds relationships).

Definition stack_label (acc : option Q * list (ustring * Q)) (candidate : ustring * Q) : option Q * list (ustring * Q) :=
  let y := adjusted candidate.2 acc.1 in (Some y, acc.2 ++ [(candidate.1, y)]).

Definition stack_labels (candidates : list (ustring * Q)) : list (ustring * Q) :=
  (foldl stack_label (None, []) candidates).2.

Definition correlation_candidates (relationships : list CorrelationRelationshipDto) (positions : list (ustring * point))
  : list (ustring * Q) :=
  js_sort compare_candidates
    (map (λ edge, (correlationEdgeId edge,
        label_y (position_of positions (correlationNodeId (cr_sourceType edge) (cr_sourceValue edge)))
                (position_of positions (correlationNodeId (cr_targetType edge) (cr_targetValue edge))))) relationships).

Definition layoutCorrelationEdgeLabelYs (relationships : list CorrelationRelationshipDto)
  (positions : list (ustring * point)) : list (ustring * Q) :=
  map_of (stack_labels (correlation_candidates relationships positions)).

(** ** What is drawn *)

Record GraphNode := mkGraphNode {
  gn_id : ustring;
  gn_position : point;
  gn_kind : ustring;
  gn_label : ustring;
  gn_ariaLabel : ustring;
  gn_className : ustring;
  gn_selected : bool;
}.

Record GraphEdge := mkGraphEdge {
  ge_id : ustring;
  ge_source : ustring;
  ge_target : ustring;
  ge_label : ustring;
  ge_ariaLabel : ustring;
  ge_className : ustring;
  ge_selected : bool;
  ge_labelOffset : Q;
  ge_labelY : Q;
}.

Definition topology_node_ids (nodes : list TopologyNodeDto) (edgeGroups : list TopologyEdgeGroup) : list ustring :=
  foldl (λ ids edge, set_add (targetNodeId (g_target edge)) ids)
    (foldl (λ ids node, set_add (endpointNodeId (tn_endpointId node)) ids) [] nodes) edgeGroups.

Definition is_selected_node (selection : option TopologySelection) (id : ustring) : bool :=
  match selection with Some (TNode i) => bool_decide (i = id) | _ => false end.
Definition is_selected_group (selection : option TopologySelection) (id : ustring) : bool :=
  match selection with Some (TEdgeGroup i) => bool_decide (i = id) | _ => false end.

Section topology_graph.
Context (topology : EgressTopologyDto) (selection : option TopologySelection).
Context (destinationLabel domainGroupLabel hostsLabel : ustring) (domainGroups : list TopologyDomainGroup).

Definition topology_node (positions : list (ustring * point)) (id : ustring) : GraphNode :=
  let endpoint := if starts_with (u! "endpoint:") id
                  then js_find (λ item, bool_decide (endpointNodeId (tn_endpointId item) = id)) (topo_nodes topology)
                  else None in
  match endpoint with
  | Some e =>
    mkGraphNode id (position_of positions id) (u! "ENDPOINT")
      (tn_hostname e ++ u! " · Risk " ++ string_of_Z (tn_riskScore e))
      (u! "Endpoint " ++ tn_hostname e ++ u! ", risk " ++ string_of_Z (tn_riskScore e))
      (u! "topology-flow-node endpoint") (is_selected_node selection id)
  | None =>
    let target := drop 7 id in
    let domainGroup := if truthy target
                       then map_get target (map_of (map (λ group, (dg_domain group, group)) domainGroups))
                       else None in
    mkGraphNode id (position_of positions id)
      (match domainGroup with
       | Some g => toUpperCase domainGroupLabel ++ u! " · " ++ string_of_Z (Z.of_nat (length (dg_targets g)))
                   ++ u! " " ++ toUpperCase hostsLabel
       | None => toUpperCase destinationLabel
       end)
      target
      ((match domainGroup with Some _ => domainGroupLabel | None => destinationLabel end) ++ u! " " ++ target)
      (u! "topology-flow-node target" ++ match domainGroup with Some _ => u! " domain-group" | None => [] end)
      (is_selected_node selection id)
  end.

Definition protocol_label (protocols : list ustring) : ustring :=
  let first := match protocols with p :: _ => p | [] => u! "undefined" end in
  if bool_decide (length protocols = 1%nat) then first
  else first ++ u! " +" ++ string_of_Z (Z.of_nat (length protocols) - 1).

Definition topology_edge (labels : list (ustring * (Q * Q))) (edge : TopologyEdgeGroup) : GraphEdge :=
  let label := default (0, 0)%Q (map_get (g_id edge) labels) in
  mkGraphEdge (g_id edge) (endpointNodeId (g_endpointId edge)) (targetNodeId (g_target edge))
    (protocol_label (g_protocols edge) ++ u! " · E" ++ string_of_Z (g_eventCount edge) ++ u! " A"
      ++ string_of_Z (g_alertCount edge))
    (join (u! ", ") (g_protocols edge) ++ u! ", " ++ string_of_Z (g_eventCount edge) ++ u! " Events, "
      ++ string_of_Z (g_alertCount edge) ++ u! " Alerts")
    (u! "topology-edge " ++ topologyEdgeVisualState (g_alertCount edge))
    (is_selected_group selection (g_id edge)) label.1 label.2.

(** The nodes, the edges and the height; [None] when an identifier throws. *)
Definition TopologyGraph : option (list GraphNode * list GraphEdge * Z) :=
  edgeGroups ← groupTopologyEdges (topo_edges topology);
  positions ← layoutTopologyNodes topology;
  let labels := layoutTopologyEdgeLabels edgeGroups positions in
  Some (map (topology_node positions) (topology_node_ids (topo_nodes topology) edgeGroups),
        map (topology_edge labels) edgeGroups, topologyGraphMinHeight positions labels).
End topology_graph.

Record CorrelationValue := mkValue { val_value : ustring; val_type : CorrelationValueType; val_input : bool }.

Definition addValue (valueType : CorrelationValueType) (value : ustring) (input : bool)
  (values : list (ustring * CorrelationValue)) : list (ustring * CorrelationValue) :=
  let id := correlationNodeId valueType value in
  map_set id (mkValue value valueType (input || from_option val_input false (map_get id values))) values.

Definition correlation_values (correlation : CorrelationDto) (visible : list CorrelationRelationshipDto)
  : list (ustring * CorrelationValue) :=
  foldl (λ values edge, addValue (cr_targetType edge) (cr_targetValue edge) false
                          (addValue (cr_sourceType edge) (cr_sourceValue edge) false values))
    (addValue (corr_inputType correlation) (corr_inputValue correlation) true []) visible.

Section correlation_graph.
Context (correlation : CorrelationDto) (selection : option CorrelationSelection) (relationshipLimit : Z).

Definition type_name (t : CorrelationValueType) : ustring := CorrelationValueType_name t.

Definition correlation_node (positions : list (ustring * point)) (entry : ustring * CorrelationValue) : GraphNode :=
  let '(id, item) := entry in
  mkGraphNode id (position_of positions id)
    (if val_input item then u! "INPUT · " ++ type_name (val_type item) else type_name (val_type item))
    (val_value item)
    ((if val_input item then u! "Input " else []) ++ type_name (val_type item) ++ u! " " ++ val_value item)
    (u! "topology-flow-node correlation " ++
       match val_type item with VT_IP => u! "ip" | VT_DOMAIN => u! "domain" end
       ++ if val_input item then u! " input" else [])
    (match selection with Some (CNode i) => bool_decide (i = id) | _ => false end).

Definition live (edge : CorrelationRelationshipDto) : bool := bool_decide (Source_LIVE_DNS ∈ cr_sources edge).

Definition correlation_edge (labels : list (ustring * Q)) (edge : CorrelationRelationshipDto) : GraphEdge :=
  let id := correlationEdgeId edge in
  let evidence := join (u! " + ") (map (λ s, if bool_decide (s = Source_LIVE_DNS) then u! "LIVE" else u! "OBS")
                                     (cr_sources edge)) in
  let relation := CorrelationRelationshipRelation_name (cr_relation edge) in
  mkGraphEdge id (correlationNodeId (cr_sourceType edge) (cr_sourceValue edge))
    (correlationNodeId (cr_targetType edge) (cr_targetValue edge))
    (map (λ c, if c =? 95 then 32 else c) relation ++ u! " · " ++ evidence)
    (cr_sourceValue edge ++ u! " " ++ relation ++ u! " " ++ cr_targetValue edge ++ u! ", " ++ evidence)
    (u! "correlation-edge " ++ if live edge then u! "live" else u! "observed-only")
    (match selection with Some (CEdge i) => bool_decide (i = id) | _ => false end)
    0%Q (default 0%Q (map_get id labels)).

Definition CorrelationGraph : list GraphNode * list GraphEdge * Z :=
  let visible := correlationGraphRelationships correlation relationshipLimit in
  let values := correlation_values correlation visible in
  let positions := layoutCorrelationNodes values.*1 visible in
  let labels := layoutCorrelationEdgeLabelYs visible positions in
  (map (correlation_node positions) values, map (correlation_edge labels) visible,
   correlationGraphMinHeight positions labels).
End correlation_graph.
End graphs.

(** ** Labels *)

(** Later labels of a lane are lower by the gap at least. *)
Definition below (a b : ustring * (Q * Q)) : Prop := a.2.1 = b.2.1 → (a.2.2 + EDGE_LABEL_GAP <= b.2.2)%Q.

Definition lane_bound (previous0 previous1 : option Q) (e : ustring * (Q * Q)) : Prop :=
  e.2.1 = (- EDGE_LABEL_LANE_OFFSET)%Q ∧ (∃ p, previous0 = Some p ∧ (e.2.2 <= p)%Q) ∨
  e.2.1 = EDGE_LABEL_LANE_OFFSET ∧ (∃ p, previous1 = Some p ∧ (e.2.2 <= p)%Q).

Lemma adjusted_ge labelY previous : (labelY <= adjusted labelY previous)%Q.
Proof. destruct previous; cbn; [apply Q.le_max_l|apply Qle_refl]. Qed.

(** What is bounded by the last label of a lane is a gap above the next one. *)
Lemma adjusted_gap labelY p y : (y <= p)%Q → (y + EDGE_LABEL_GAP <= adjusted labelY (Some p))%Q.
Proof.
  intros Hy. cbn. eapply Qle_trans; [|apply Q.le_max_r]. by apply Qplus_le_compat; [|apply Qle_refl].
Qed.

Lemma adjusted_bound labelY p y : (y <= p)%Q → (y <= adjusted labelY (Some p))%Q.
Proof. intros Hy. pose proof (adjusted_gap labelY p y Hy). unfold EDGE_LABEL_GAP in *. lra. Qed.

Lemma lanes_differ : (- EDGE_LABEL_LANE_OFFSET)%Q ≠ EDGE_LABEL_LANE_OFFSET.
Proof. by vm_compute. Qed.

Record labels_ok (candidates : list (ustring * Q)) (acc : option Q * option Q * list (ustring * (Q * Q))) : Prop := {
  lok_below : StronglySorted below acc.2;
  lok_bound : Forall (lane_bound acc.1.1 acc.1.2) acc.2;
  lok_ids : acc.2.*1 = candidates.*1;
  lok_ge : Forall2 (λ c e, (c.2 <= e.2.2)%Q) candidates acc.2;
}.

Lemma place_label_ok candidates acc c : labels_ok candidates acc → labels_ok (candidates ++ [c]) (place_label acc c).
Proof.
  destruct acc as [[p0 p1] out], c as [id labelY]. intros [Hb Hl Hi Hg]. cbn in *.
  assert (∀ x y q0 q1, (labelY <= y)%Q → lane_bound q0 q1 (id, (x, y)) →
    (∀ e, e ∈ out → below e (id, (x, y))) → (∀ e, lane_bound p0 p1 e → lane_bound q0 q1 e) →
    labels_ok (candidates ++ [(id, labelY)]) (q0, q1, out ++ [(id, (x, y))])) as Hnew.
  { intros x y q0 q1 Hy Hx Hbel Hup. constructor; cbn.
    - apply StronglySorted_snoc; [done|]. by apply Forall_forall.
    - apply Forall_app. split; [|by apply Forall_singleton]. eapply Forall_impl; [exact Hl|exact Hup].
    - rewrite !fmap_app. cbn. by rewrite Hi.
    - apply Forall2_app; [done|]. by constructor. }
  rewrite Forall_forall in Hl. destruct (Qle_bool _ _); apply Hnew; clear Hnew; try apply adjusted_ge.
  - left. split; [done|]. eexists. split; [done|apply Qle_refl].
  - intros e He Hlane. cbn in Hlane. destruct (Hl e He) as [[_ (p & -> & Hp)]|[Hx _]]; [by apply adjusted_gap|].
    rewrite Hx in Hlane. by apply eq_sym, lanes_differ in Hlane.
  - intros e [[Hx (p & -> & Hp)]|Hr]; [left|by right]. split; [done|]. eexists. split; [done|by apply adjusted_bound].
  - right. split; [done|]. eexists. split; [done|apply Qle_refl].
  - intros e He Hlane. cbn in Hlane. destruct (Hl e He) as [[Hx _]|[_ (p & -> & Hp)]]; [|by apply adjusted_gap].
    rewrite Hx in Hlane. by apply lanes_differ in Hlane.
  - intros e [Hr|[Hx (p & -> & Hp)]]; [by left|right]. split; [done|]. eexists. split; [done|by apply adjusted_bound].
Qed.

Lemma foldl_labels_ok seen acc l : labels_ok seen acc → labels_ok (seen ++ l) (foldl place_label acc l).
Proof.
  revert seen acc. induction l as [|c l IH]; intros seen acc Hok; cbn; [by rewrite app_nil_r|].
  rewrite (cons_middle c seen l), app_assoc. by apply IH, place_label_ok.
Qed.

Lemma place_labels_ok candidates :
  let labels := place_labels candidates in
  StronglySorted below labels ∧ labels.*1 = candidates.*1 ∧ Forall2 (λ c e, (c.2 <= e.2.2)%Q) candidates labels.
Proof.
  assert (labels_ok candidates (foldl place_label (None, None, []) candidates)) as [H1 _ H3 H4]
    by (apply (foldl_labels_ok [] (None, None, [])); constructor; cbn; by constructor).
  destruct candidates as [|[id y] [|c l]]; [by split_and!| |by split_and!].
  cbn. split_and!; [by repeat constructor|done|]. repeat constructor. apply Qle_refl.
Qed.

(** One stack of labels: each is a gap below all those before it. *)
Definition stacked (a b : ustring * Q) : Prop := (a.2 + EDGE_LABEL_GAP <= b.2)%Q.

Record stack_ok (candidates : list (ustring * Q)) (acc : option Q * list (ustring * Q)) : Prop := {
  sok_stacked : StronglySorted stacked acc.2;
  sok_bound : Forall (λ e, ∃ p, acc.1 = Some p ∧ (e.2 <= p)%Q) acc.2;
  sok_ids : acc.2.*1 = candidates.*1;
  sok_ge : Forall2 (λ c e, (c.2 <= e.2)%Q) candidates acc.2;
}.

Lemma stack_label_ok candidates acc c : stack_ok candidates acc → stack_ok (candidates ++ [c]) (stack_label acc c).
Proof.
  destruct acc as [p out], c as [id labelY]. intros [Hb Hl Hi Hg]. cbn in *. rewrite Forall_forall in Hl. constructor; cbn.
  - apply StronglySorted_snoc; [done|]. apply Forall_forall. intros e He.
    destruct (Hl e He) as (q & -> & Hq). by apply adjusted_gap.
  - apply Forall_app. split; [|apply Forall_singleton; eexists; split; [done|apply Qle_refl]].
    apply Forall_forall. intros e He. destruct (Hl e He) as (q & -> & Hq). eexists. split; [done|by apply adjusted_bound].
  - rewrite !fmap_app. cbn. by rewrite Hi.
  - apply Forall2_app; [done|]. constructor; [apply adjusted_ge|constructor].
Qed.

Lemma stack_labels_ok candidates :
  let labels := stack_labels candidates in
  StronglySorted stacked labels ∧ labels.*1 = candidates.*1 ∧ Forall2 (λ c e, (c.2 <= e.2)%Q) candidates labels.
Proof.
  assert (∀ seen acc l, stack_ok seen acc → stack_ok (seen ++ l) (foldl stack_label acc l)) as Hf.
  { intros seen acc l. revert seen acc. induction l as [|c l IH]; intros seen acc Hok; cbn; [by rewrite app_nil_r|].
    rewrite (cons_middle c seen l), app_assoc. by apply IH, stack_label_ok. }
  destruct (Hf [] (None, []) candidates) as [H1 _ H3 H4]; [constructor; cbn; by constructor|]. by split_and!.
Qed.

(** ** Heights *)

Lemma Qmin_list_le q l x : x = q ∨ x ∈ l → (Qmin_list q l <= x)%Q.
Proof.
  unfold Qmin_list. revert q. assert (∀ l q, (foldl Qmin q l <= q)%Q) as Hq.
  { clear. induction l as [|y l IH]; intros q; cbn; [apply Qle_refl|].
    eapply Qle_trans; [apply IH|apply Q.le_min_l]. }
  induction l as [|y l IH]; intros q Hx; cbn.
  - destruct Hx as [->|Hx]; [apply Qle_refl|by apply not_elem_of_nil in Hx].
  - destruct Hx as [->|[->|Hx]%elem_of_cons]; [| |apply IH; by right];
      (eapply Qle_trans; [apply Hq|]); [apply Q.le_min_l|apply Q.le_min_r].
Qed.

Lemma Qmax_list_ge q l x : x = q ∨ x ∈ l → (x <= Qmax_list q l)%Q.
Proof.
  unfold Qmax_list. revert q. assert (∀ l q, (q <= foldl Qmax q l)%Q) as Hq.
  { clear. induction l as [|y l IH]; intros q; cbn; [apply Qle_refl|].
    eapply Qle_trans; [apply Q.le_max_l|apply IH]. }
  induction l as [|y l IH]; intros q Hx; cbn.
  - destruct Hx as [->|Hx]; [apply Qle_refl|by apply not_elem_of_nil in Hx].
  - destruct Hx as [->|[->|Hx]%elem_of_cons]; [| |apply IH; by right];
      (eapply Qle_trans; [|apply Hq]); [apply Q.le_max_l|apply Q.le_max_r].
Qed.

(** A vertical extent that is drawn: of a node or of a label. *)
Definition drawn (ys labels : list Q) (top bottom : Q) : Prop :=
  (∃ y, y ∈ ys ∧ top = y ∧ bottom = (y + NODE_HEIGHT)%Q) ∨
  (∃ c, c ∈ labels ∧ top = (c - EDGE_LABEL_TARGET_HEIGHT / 2)%Q ∧ bottom = (c + EDGE_LABEL_TARGET_HEIGHT / 2)%Q).

Lemma Qmax_double a b : (a + b <= Qmax a b * 2)%Q.
Proof. pose proof (Q.le_max_l a b). pose proof (Q.le_max_r a b). lra. Qed.

Lemma scaled_le a b p m : (0 <= p)%Q → (a <= b)%Q → (a * (1 + p * 2) + m <= b * (1 + p * 2) + m)%Q.
Proof. intros Hp Hab. apply Qplus_le_compat; [|apply Qle_refl]. apply Qmult_le_compat_r; [done|lra]. Qed.

Lemma graph_min_height_fits base padding ys labels top bottom top' bottom' :
  (0 <= padding)%Q → ys ≠ [] → drawn ys labels top bottom → drawn ys labels top' bottom' →
  base ≤ graph_min_height base padding ys labels ∧
  ((bottom' - top) * (1 + padding * 2) + GRAPH_VERTICAL_MARGIN <= inject_Z (graph_min_height base padding ys labels))%Q.
Proof.
  intros Hp Hys Htop Hbot. destruct ys as [|y r]; [done|]. unfold graph_min_height.
  set (nodeTop := Qmin_list y r). set (nodeBottom := (Qmax_list y r + NODE_HEIGHT)%Q).
  set (vt := match labels with [] => nodeTop | c :: cs => _ end).
  set (vb := match labels with [] => nodeBottom | c :: cs => _ end).
  set (nc := ((nodeTop + nodeBottom) / 2)%Q). split; [lia|].
  assert (vt <= top)%Q as Hvt.
  { destruct Htop as [(z & Hz%elem_of_cons & -> & _)|(c & Hc & -> & _)].
    - eapply Qle_trans; [|apply (Qmin_list_le y r z Hz)]. subst vt. destruct labels; [apply Qle_refl|apply Q.le_min_l].
    - subst vt. destruct labels as [|c0 cs]; [by apply not_elem_of_nil in Hc|]. eapply Qle_trans; [apply Q.le_min_r|].
      apply elem_of_cons in Hc. pose proof (Qmin_list_le c0 cs c Hc). unfold EDGE_LABEL_TARGET_HEIGHT. lra. }
  assert (bottom' <= vb)%Q as Hvb.
  { destruct Hbot as [(z & Hz%elem_of_cons & _ & ->)|(c & Hc & _ & ->)].
    - pose proof (Qmax_list_ge y r z Hz). eapply Qle_trans with nodeBottom.
      + subst nodeBottom. by apply Qplus_le_compat; [|apply Qle_refl].
      + subst vb. destruct labels; [apply Qle_refl|apply Q.le_max_l].
    - subst vb. destruct labels as [|c0 cs]; [by apply not_elem_of_nil in Hc|]. eapply Qle_trans; [|apply Q.le_max_r].
      apply elem_of_cons in Hc. pose proof (Qmax_list_ge c0 cs c Hc). unfold EDGE_LABEL_TARGET_HEIGHT. lra. }
  set (centered := (Qmax (nc - vt) (vb - nc) * 2)%Q).
  assert (bottom' - top <= centered)%Q as Hc by (pose proof (Qmax_double (nc - vt) (vb - nc)); subst centered; lra).
  eapply Qle_trans; [apply (scaled_le _ centered padding GRAPH_VERTICAL_MARGIN Hp Hc)|].
  eapply Qle_trans; [apply Qle_ceiling|]. rewrite <- Zle_Qle. lia.
Qed.

Lemma Forall2_keys {K A B} (P : K * A → K * B → Prop) l k :
  Forall2 P l k → l.*1 = k.*1 → Forall2 (λ a b, a.1 = b.1 ∧ P a b) l k.
Proof. induction 1; intros Hk; [constructor|]. cbn in Hk. injection Hk as H1 H2. constructor; auto. Qed.

Lemma sorted_ids `{LocaleHost} {A} (f : A → ustring * Q) l :
  (js_sort compare_candidates (map f l)).*1 ≡ₚ map (λ x, (f x).1) l.
Proof. rewrite js_sort_perm. by rewrite <- list_fmap_compose. Qed.

(** ** Claims *)

(** The labels of the drawings never cover one another: every edge has exactly
    one label, none is drawn above its own curve's label point, and of two
    labels of one lane of the topology, or of any two labels of the
    correlation, one is at least 40 pixels lower, more than the 36 pixels a
    label is high. *)
Theorem edge_labels_never_overlap `{LocaleHost} bezierLabelY edgeGroups relationships positions :
  NoDup (map g_id edgeGroups) → NoDup (map correlationEdgeId relationships) →
  (EDGE_LABEL_TARGET_HEIGHT < EDGE_LABEL_GAP)%Q ∧
  (let labels := layoutTopologyEdgeLabels bezierLabelY edgeGroups positions in
   labels.*1 ≡ₚ map g_id edgeGroups ∧ StronglySorted below labels ∧
   Forall2 (λ c e, c.1 = e.1 ∧ (c.2 <= e.2.2)%Q) (topology_candidates bezierLabelY edgeGroups positions) labels) ∧
  (let labels := layoutCorrelationEdgeLabelYs bezierLabelY relationships positions in
   labels.*1 ≡ₚ map correlationEdgeId relationships ∧ StronglySorted stacked labels ∧
   Forall2 (λ c e, c.1 = e.1 ∧ (c.2 <= e.2)%Q) (correlation_candidates bezierLabelY relationships positions) labels).
Proof.
  intros Hg Hr. split; [by vm_compute|]. split.
  - destruct (place_labels_ok (topology_candidates bezierLabelY edgeGroups positions)) as (Hb & Hi & Hc).
    pose proof (sorted_ids (λ edge, (g_id edge, label_y bezierLabelY (position_of positions (endpointNodeId (g_endpointId edge)))
      (position_of positions (targetNodeId (g_target edge))))) edgeGroups) as Hp.
    unfold layoutTopologyEdgeLabels. cbv zeta. rewrite map_of_id by (rewrite Hi; unfold topology_candidates; by rewrite Hp).
    split_and!; [rewrite Hi; exact Hp|done|by apply Forall2_keys].
  - destruct (stack_labels_ok (correlation_candidates bezierLabelY relationships positions)) as (Hb & Hi & Hc).
    pose proof (sorted_ids (λ edge, (correlationEdgeId edge,
        label_y bezierLabelY (position_of positions (correlationNodeId (cr_sourceType edge) (cr_sourceValue edge)))
                (position_of positions (correlationNodeId (cr_targetType edge) (cr_targetValue edge))))) relationships) as Hp.
    unfold layoutCorrelationEdgeLabelYs. cbv zeta. rewrite map_of_id by (rewrite Hi; unfold correlation_candidates; by rewrite Hp).
    split_and!; [rewrite Hi; exact Hp|done|by apply Forall2_keys].
Qed.

(** The drawing's height has room for everything drawn, with the padding of the
    fitted view and the margin: whichever node or label reaches highest and
    whichever reaches lowest, and it is never below the minimum. *)
Theorem graph_heights_fit positions labels clabels top bottom top' bottom' :
  positions ≠ [] →
  let ys := map (λ p, p.2.2) positions in
  (drawn ys (map (λ l, l.2.2) labels) top bottom → drawn ys (map (λ l, l.2.2) labels) top' bottom' →
   420 ≤ topologyGraphMinHeight positions labels ∧
   ((bottom' - top) * (12 # 10) + GRAPH_VERTICAL_MARGIN <= inject_Z (topologyGraphMinHeight positions labels))%Q) ∧
  (drawn ys (map snd clabels) top bottom → drawn ys (map snd clabels) top' bottom' →
   520 ≤ correlationGraphMinHeight positions clabels ∧
   ((bottom' - top) * (11 # 10) + GRAPH_VERTICAL_MARGIN <= inject_Z (correlationGraphMinHeight positions clabels))%Q).
Proof.
  intros Hne ys. assert (ys ≠ []) as Hys by (by destruct positions).
  split; intros H1 H2.
  - destruct (graph_min_height_fits 420 TOPOLOGY_FIT_VIEW_PADDING ys _ _ _ _ _ ltac:(by vm_compute) Hys H1 H2) as [Hb Hf].
    split; [done|]. eapply Qle_trans; [|exact Hf]. unfold TOPOLOGY_FIT_VIEW_PADDING. lra.
  - destruct (graph_min_height_fits 520 CORRELATION_FIT_VIEW_PADDING ys _ _ _ _ _ ltac:(by vm_compute) Hys H1 H2) as [Hb Hf].
    split; [done|]. eapply Qle_trans; [|exact Hf]. unfold CORRELATION_FIT_VIEW_PADDING. lra.
Qed.

(** ** Every edge has its ends *)

Definition closed_topology (nodes : list TopologyNodeDto) (edges : list TopologyEdgeDto) : Prop :=
  ∀ e, e ∈ edges → te_endpointId e ∈ map tn_endpointId nodes.

Section closure.
Context `{DateHost} `{LocaleHost}.

Lemma filter_closed topology search limit :
  closed_topology (topo_nodes topology) (topo_edges topology) →
  closed_topology (topo_nodes (filterTopology topology search limit)) (topo_edges (filterTopology topology search limit)).
Proof.
  intros Hc e He. cbn in He |- *. set (edges := take _ _) in *.
  assert (e ∈ topo_edges topology) as Hin.
  { unfold edges in He. apply elem_of_take in He as (i & Hi & _). apply list_elem_of_lookup_2, js_sort_elem, js_filter_elem in Hi. apply Hi. }
  specialize (Hc e Hin). apply list_elem_of_In, in_map_iff in Hc as (n & Hn & Hin'%list_elem_of_In).
  apply list_elem_of_In, in_map_iff. exists n. split; [done|]. apply list_elem_of_In, js_filter_elem. split; [done|].
  apply bool_decide_eq_true. rewrite Hn. apply js_unique_elem. by apply list_elem_of_fmap_2.
Qed.

Lemma view_closed getDomain topology expanded :
  let view := dv_topology (buildTopologyDomainView getDomain topology expanded) in
  closed_topology (topo_nodes topology) (topo_edges topology) → closed_topology (topo_nodes view) (topo_edges view).
Proof.
  intros view Hc e He. cbn in He |- *. apply js_sort_elem, list_elem_of_fmap in He as ([id e'] & -> & He).
  set (byTarget := group_by_target _) in He. cbn [snd].
  assert (∀ l acc, (∀ kv, kv ∈ acc → te_endpointId kv.2 ∈ map te_endpointId (topo_edges topology)) →
    (∀ x, x ∈ l → x ∈ topo_edges topology) →
    ∀ kv, kv ∈ foldl (view_step byTarget expanded) acc l → te_endpointId kv.2 ∈ map te_endpointId (topo_edges topology)) as Hf.
  { induction l as [|x l IH]; intros acc Ha Hl; [exact Ha|]. cbn. apply IH; [|intros y Hy; apply Hl; by right].
    intros kv Hkv. unfold view_step in Hkv. case_match eqn:Eg; apply map_set_elem in Hkv as [->|Hkv]; auto; cbn.
    - exact (Ha _ (map_get_Some_elem _ _ _ Eg)).
    - apply list_elem_of_fmap_2, Hl. by left. }
  specialize (Hf (topo_edges topology) [] ltac:(intros kv Hkv; by apply not_elem_of_nil in Hkv) ltac:(done) _ He).
  cbn in Hf. apply list_elem_of_In, in_map_iff in Hf as (x & Hx & Hin%list_elem_of_In). rewrite <- Hx. by apply Hc.
Qed.

(** Groups are told apart by their ids, and come from the edges. *)
Lemma groups_from edges groups :
  groupTopologyEdges edges = Some groups →
  NoDup (map g_id groups) ∧ ∀ g, g ∈ groups → g_endpointId g ∈ map te_endpointId edges.
Proof.
  unfold groupTopologyEdges. intros (gs & Hf & Hg)%bind_Some. injection Hg as <-.
  assert (∀ l acc gs, foldM group_step acc l = Some gs → NoDup acc.*1 →
    (∀ kv, kv ∈ acc → g_id kv.2 = kv.1 ∧ g_endpointId kv.2 ∈ map te_endpointId edges) → (∀ x, x ∈ l → x ∈ edges) →
    NoDup gs.*1 ∧ ∀ kv, kv ∈ gs → g_id kv.2 = kv.1 ∧ g_endpointId kv.2 ∈ map te_endpointId edges) as Hloop.
  { induction l as [|x l IH]; intros acc gs' Hfold Hnd Ha Hl; cbn in Hfold; [by injection Hfold as <-|].
    unfold group_step in Hfold. destruct (topologyEdgeGroupId _ _) as [id|] eqn:Eid; [|done]. cbn in Hfold.
    eapply IH; [exact Hfold| |  |intros y Hy; apply Hl; by right].
    - case_match; by apply map_set_NoDup.
    - intros kv Hkv. destruct (map_get id acc) as [current|] eqn:Eg; apply map_set_elem in Hkv as [->|Hkv]; auto; cbn.
      + destruct (Ha _ (map_get_Some_elem _ _ _ Eg)) as [H1 H2]. done.
      + split; [done|]. apply list_elem_of_fmap_2, Hl. by left. }
  destruct (Hloop edges [] gs Hf ltac:(constructor) ltac:(intros kv Hkv; by apply not_elem_of_nil in Hkv) ltac:(done)) as [Hnd Hk].
  split.
  - assert (map g_id (map sort_protocols gs.*2) = gs.*1) as ->; [|done]. rewrite map_map.
    change (gs.*1) with (map fst gs). change (gs.*2) with (map snd gs). rewrite map_map. apply map_ext_in.
    intros kv Hkv%list_elem_of_In. by apply Hk.
  - intros g Hg. apply list_elem_of_In, in_map_iff in Hg as (g' & <- & Hg'%list_elem_of_In).
    apply list_elem_of_fmap in Hg' as (kv & -> & Hkv). by apply Hk.
Qed.

Lemma foldl_set_add_map {A} (f : A → ustring) l acc :
  foldl (λ ids x, set_add (f x) ids) acc l = foldl (λ ids x, set_add x ids) acc (map f l).
Proof. revert acc. induction l as [|x l IH]; intros acc; cbn; [done|]. by rewrite IH. Qed.

Lemma topology_node_ids_spec nodes groups :
  NoDup (topology_node_ids nodes groups) ∧
  ∀ id, id ∈ topology_node_ids nodes groups ↔
    id ∈ map (endpointNodeId ∘ tn_endpointId) nodes ∨ id ∈ map (targetNodeId ∘ g_target) groups.
Proof.
  unfold topology_node_ids.
  rewrite (foldl_set_add_map (λ edge, targetNodeId (g_target edge))), (foldl_set_add_map (λ node, endpointNodeId (tn_endpointId node))).
  split; [by apply foldl_set_add_NoDup, foldl_set_add_NoDup; constructor|].
  intros id. rewrite !foldl_set_add_elem, elem_of_nil. unfold compose. naive_solver.
Qed.
End closure.

Lemma filter_one {A} (f : A → ustring) (p : A → bool) i l :
  NoDup (map f l) → (∀ x, x ∈ l → p x = true → f x = i) → (length (js_filter p l) ≤ 1)%nat.
Proof.
  intros Hnd Hp. assert (NoDup (map f (js_filter p l))) as Hn.
  { eapply sublist_NoDup; [exact Hnd|]. apply (fmap_sublist f), js_filter_sublist. }
  assert (∀ x, x ∈ js_filter p l → f x = i) as Hi by (intros x [Hx Hpx]%js_filter_elem; auto).
  destruct (js_filter p l) as [|a [|b r]]; cbn; try lia. exfalso. cbn in Hn. apply NoDup_cons in Hn as [Hn _].
  apply Hn. rewrite (Hi a), (Hi b); [by left|set_solver..].
Qed.

Lemma topology_node_id toUpperCase topology selection d1 d2 d3 groups positions id :
  gn_id (topology_node toUpperCase topology selection d1 d2 d3 groups positions id) = id ∧
  gn_selected (topology_node toUpperCase topology selection d1 d2 d3 groups positions id) = is_selected_node selection id.
Proof. unfold topology_node. by destruct (if starts_with _ _ then _ else _). Qed.

Lemma one_selected toUpperCase topology selection d1 d2 d3 groups positions labels ids gs :
  NoDup ids → NoDup (map g_id gs) →
  (length (js_filter gn_selected (map (topology_node toUpperCase topology selection d1 d2 d3 groups positions) ids)) +
   length (js_filter ge_selected (map (topology_edge selection labels) gs)) ≤ 1)%nat.
Proof.
  intros Hids Hgs. set (node := topology_node _ _ _ _ _ _ _ _).
  assert (∀ id, gn_id (node id) = id ∧ gn_selected (node id) = is_selected_node selection id) as Hn
    by (intros; apply topology_node_id).
  assert (map gn_id (map node ids) = ids) as Hmap.
  { rewrite map_map. rewrite <- (map_id ids) at 2. apply map_ext. intros id. apply Hn. }
  assert (∀ x, x ∈ map node ids → gn_selected x = is_selected_node selection (gn_id x)) as Hsel.
  { intros x (id & <- & _)%list_elem_of_In%in_map_iff. destruct (Hn id) as [-> ->]. done. }
  assert (∀ x, x ∈ map (topology_edge selection labels) gs → ge_selected x = is_selected_group selection (ge_id x)) as Hesel
    by (by intros x (g & <- & _)%list_elem_of_In%in_map_iff).
  destruct selection as [[i|i|i]|]; cbn [is_selected_node is_selected_group] in *;
    rewrite ?(js_filter_none gn_selected _ Hsel), ?(js_filter_none ge_selected _ Hesel); cbn [length]; try lia.
  - rewrite Nat.add_0_r. apply (filter_one gn_id _ i); [by rewrite Hmap|].
    intros x Hx Hs. rewrite (Hsel x Hx) in Hs. by breflect.
  - apply (filter_one ge_id _ i); [by rewrite map_map|]. intros x Hx Hs. rewrite (Hesel x Hx) in Hs. by breflect.
Qed.

(** What the topology view draws is a graph: from a topology whose edges start
    at known endpoints, whatever is searched for, however many edges are shown
    and whichever domains are expanded, the drawn nodes have distinct ids, the
    edges have distinct ids, both ends of every edge are drawn nodes, and at
    most one node or edge is selected. *)
Theorem topology_drawing_closed `{DateHost} `{LocaleHost} toUpperCase layout bezierLabelY getDomain
    topology search limit expanded selection d1 d2 d3 groups nodes edges height :
  closed_topology (topo_nodes topology) (topo_edges topology) →
  TopologyGraph toUpperCase layout bezierLabelY
    (dv_topology (buildTopologyDomainView getDomain (filterTopology topology search limit) expanded))
    selection d1 d2 d3 groups = Some (nodes, edges, height) →
  NoDup (map gn_id nodes) ∧ NoDup (map ge_id edges) ∧
  (∀ e, e ∈ edges → ge_source e ∈ map gn_id nodes ∧ ge_target e ∈ map gn_id nodes) ∧
  (length (js_filter gn_selected nodes) + length (js_filter ge_selected edges) ≤ 1)%nat.
Proof.
  intros Hc. set (view := dv_topology _). intros Hg.
  assert (closed_topology (topo_nodes view) (topo_edges view)) as Hv by (by apply view_closed, filter_closed).
  unfold TopologyGraph in Hg. destruct (groupTopologyEdges (topo_edges view)) as [gs|] eqn:Eg; [|done].
  cbn [mbind option_bind] in Hg. destruct (layoutTopologyNodes layout view) as [positions|]; [|done].
  cbn [mbind option_bind] in Hg. apply (inj Some) in Hg. injection Hg as <- <- <-.
  destruct (groups_from _ _ Eg) as [Hnd Hends]. destruct (topology_node_ids_spec (topo_nodes view) gs) as [Hids Helem].
  rewrite !map_map. rewrite (map_ext _ _ (λ id, proj1 (topology_node_id toUpperCase view selection d1 d2 d3 groups positions id))), map_id.
  assert (map (λ x, ge_id (topology_edge selection (layoutTopologyEdgeLabels bezierLabelY gs positions) x)) gs = map g_id gs) as -> by done.
  split_and!; [done..| |].
  - intros e He. apply list_elem_of_In, in_map_iff in He as (g & <- & Hin%list_elem_of_In). cbn. split; apply Helem.
    + left. specialize (Hends g Hin). apply list_elem_of_In, in_map_iff in Hends as (te & Hte & Hin'%list_elem_of_In).
      specialize (Hv te Hin'). apply list_elem_of_In, in_map_iff in Hv as (n & Hn & Hnin).
      apply list_elem_of_In, in_map_iff. exists n. split; [|done]. unfold compose. congruence.
    + right. by apply (list_elem_of_fmap_2 (targetNodeId ∘ g_target)).
  - by apply one_selected.
Qed.

(** ** The correlation drawing *)

Record values_ok (inputId : ustring) (values : list (ustring * CorrelationValue)) : Prop := {
  va_nodup : NoDup values.*1;
  va_has_input : inputId ∈ values.*1;
  va_input : ∀ id item, (id, item) ∈ values → val_input item = bool_decide (id = inputId);
  va_ids : ∀ id item, (id, item) ∈ values → id = correlationNodeId (val_type item) (val_value item);
}.

Lemma map_set_mem {V} k (v : V) m x : x ∈ (map_set k v m : list (ustring * V)).*1 ↔ x = k ∨ x ∈ m.*1.
Proof.
  rewrite map_set_keys. case_match; [|set_solver]. split; [by right|]. intros [->|]; done.
Qed.

Lemma addValue_ok inputId values t v :
  values_ok inputId values →
  values_ok inputId (addValue t v false values) ∧ correlationNodeId t v ∈ (addValue t v false values).*1 ∧
  ∀ x, x ∈ values.*1 → x ∈ (addValue t v false values).*1.
Proof.
  intros [H1 H2 H3 H4]. unfold addValue. set (id := correlationNodeId t v). split; [constructor|split].
  - by apply map_set_NoDup.
  - apply map_set_mem. by right.
  - intros id' item [[= -> ->]|Hin]%map_set_elem; [|by apply H3]. cbn.
    destruct (map_get id values) as [old|] eqn:Eg; cbn.
    + apply (H3 id old), map_get_Some_elem, Eg.
    + symmetry. apply bool_decide_eq_false. intros ->. by apply map_get_None in Eg.
  - intros id' item [[= -> ->]|Hin]%map_set_elem; [done|by apply H4].
  - apply map_set_mem. by left.
  - intros x Hx. apply map_set_mem. by right.
Qed.

Lemma correlation_values_ok correlation visible :
  let values := correlation_values correlation visible in
  values_ok (correlationNodeId (corr_inputType correlation) (corr_inputValue correlation)) values ∧
  ∀ edge, edge ∈ visible → correlationNodeId (cr_sourceType edge) (cr_sourceValue edge) ∈ values.*1 ∧
                           correlationNodeId (cr_targetType edge) (cr_targetValue edge) ∈ values.*1.
Proof.
  unfold correlation_values. set (inputId := correlationNodeId _ (corr_inputValue correlation)).
  assert (values_ok inputId (addValue (corr_inputType correlation) (corr_inputValue correlation) true [])) as Hinit.
  { constructor; cbn.
    - by apply NoDup_singleton.
    - by left.
    - intros id item Hin. apply list_elem_of_singleton in Hin as [= -> ->]. cbn. by rewrite bool_decide_eq_true_2.
    - intros id item Hin. apply list_elem_of_singleton in Hin as [= -> ->]. done. }
  generalize dependent (addValue (corr_inputType correlation) (corr_inputValue correlation) true []).
  induction visible as [|edge l IH]; intros acc Hacc; cbn [foldl]; [split; [done|intros e He; by apply not_elem_of_nil in He]|].
  destruct (addValue_ok inputId acc (cr_sourceType edge) (cr_sourceValue edge) Hacc) as (H1 & E1 & K1).
  destruct (addValue_ok inputId _ (cr_targetType edge) (cr_targetValue edge) H1) as (H2 & E2 & K2).
  set (next := addValue (cr_targetType edge) _ _ _) in *.
  assert (∀ l acc x, x ∈ acc.*1 → x ∈ (foldl (λ values edge, addValue (cr_targetType edge) (cr_targetValue edge) false
    (addValue (cr_sourceType edge) (cr_sourceValue edge) false values)) acc l).*1) as Hkeep.
  { clear. induction l as [|e l IH]; intros acc x Hx; cbn; [done|]. apply IH. unfold addValue. rewrite !map_set_mem. auto. }
  destruct (IH next H2) as [Hok Hends]. split; [done|]. intros e [->|He]%elem_of_cons; [|by apply Hends].
  split; apply Hkeep; auto.
Qed.

(** The correlation drawing is a graph around its input: node ids are distinct,
    both ends of every drawn relationship are nodes, the value that was looked
    up is a node, and it is the only one marked as the input. *)
Theorem correlation_drawing_closed `{LocaleHost} layout bezierLabelY correlation selection limit :
  let '(nodes, edges, _) := CorrelationGraph layout bezierLabelY correlation selection limit in
  let inputId := correlationNodeId (corr_inputType correlation) (corr_inputValue correlation) in
  NoDup (map gn_id nodes) ∧ inputId ∈ map gn_id nodes ∧
  (∀ e, e ∈ edges → ge_source e ∈ map gn_id nodes ∧ ge_target e ∈ map gn_id nodes) ∧
  (∀ n, n ∈ nodes → starts_with (u! "INPUT") (gn_kind n) = bool_decide (gn_id n = inputId)).
Proof.
  unfold CorrelationGraph. set (visible := correlationGraphRelationships _ _).
  destruct (correlation_values_ok correlation visible) as [[H1 H2 H3 H4] Hends].
  set (values := correlation_values correlation visible) in *. cbv zeta.
  assert (∀ positions, map gn_id (map (correlation_node selection positions) values) = values.*1) as Hids.
  { intros positions. rewrite map_map. apply map_ext. by intros []. }
  rewrite Hids. split_and!; [done..| |].
  - intros e He. apply list_elem_of_In, in_map_iff in He as (edge & <- & Hin%list_elem_of_In). cbn. by apply Hends.
  - intros n Hn. apply list_elem_of_In, in_map_iff in Hn as ([id item] & <- & Hin%list_elem_of_In). cbn [correlation_node gn_kind gn_id].
    rewrite <- (H3 id item Hin). destruct item as [v t []], t; by vm_compute.
Qed.

(** ** Witnesses *)

Definition bezier_middle (source target : point) : Q := ((source.2 + target.2) / 2)%Q.
Definition origin_layout (_ : DagreGraph) (_ : ustring) : option point := Some (80%Q, 32%Q).

Definition sample_group (id : ustring) (endpoint : Z) : TopologyEdgeGroup :=
  mkGroup id endpoint (u! "host") (u! "example.com") [u! "TCP"] 1 0 (u! "2026-01-01T00:00:00Z") [].
Definition sample_relationship (target : ustring) : CorrelationRelationshipDto :=
  mkCorrelationRelationshipDto cr_relation_RESOLVES_TO VT_DOMAIN (u! "a.b") [Source_LIVE_DNS] VT_IP target.

Lemma edge_labels_never_overlap_witness :
  StronglySorted stacked (@layoutCorrelationEdgeLabelYs unit_locale bezier_middle
    [sample_relationship (u! "1.1.1.1"); sample_relationship (u! "8.8.8.8")] []).
Proof.
  apply (@edge_labels_never_overlap unit_locale bezier_middle [sample_group (u! "g1") 1; sample_group (u! "g2") 2]
    [sample_relationship (u! "1.1.1.1"); sample_relationship (u! "8.8.8.8")] []);
    by_compute.
Defined.

Lemma graph_heights_fit_witness :
  520 ≤ correlationGraphMinHeight [(u! "n", (0%Q, 0%Q)); (u! "m", (0%Q, 900%Q))] [(u! "e", 450%Q)].
Proof.
  apply (graph_heights_fit [(u! "n", (0%Q, 0%Q)); (u! "m", (0%Q, 900%Q))] [] [(u! "e", 450%Q)] 0%Q 64%Q 900%Q 964%Q); [done| |].
  - left. exists 0%Q. split_and!; [by left|done|by vm_compute].
  - left. exists 900%Q. split_and!; [by right; left|done|by vm_compute].
Defined.

Definition drawn_topology : EgressTopologyDto :=
  mkEgressTopologyDto [sample_edge 1 (u! "a.example.com") (u! "TCP") 3; sample_edge 1 (u! "b.example.com") (u! "TCP") 2]
    (u! "2026-01-01T00:00:00Z") [mkTopologyNodeDto 0 1 (u! "host") Risk_LOW 10 Endpoint_ONLINE] (u! "2026-01-02T00:00:00Z").

Definition drawn_view : EgressTopologyDto :=
  dv_topology (@buildTopologyDomainView utc_host unit_locale (λ _, Some (u! "example.com"))
    (@filterTopology utc_host unit_locale drawn_topology [] 10) []).

Definition drawing : option (list GraphNode * list GraphEdge * Z) :=
  @TopologyGraph utc_host unit_locale (λ s, s) origin_layout bezier_middle drawn_view
    (Some (TNode (u! "endpoint:1"))) (u! "d") (u! "g") (u! "h") [].

Lemma drawn_topology_closed : closed_topology (topo_nodes drawn_topology) (topo_edges drawn_topology).
Proof.
  assert (Forall (λ e, te_endpointId e = 1) (topo_edges drawn_topology)) as H by by repeat constructor.
  rewrite Forall_forall in H. intros e He. rewrite (H e He). by left.
Qed.

Lemma drawing_computes : ∃ nodes edges height, drawing = Some (nodes, edges, height) ∧ length edges = 1%nat.
Proof. eexists _, _, _. split; [vm_compute; reflexivity|reflexivity]. Qed.

Lemma topology_drawing_closed_witness :
  ∃ nodes edges height, drawing = Some (nodes, edges, height) ∧ length edges = 1%nat ∧
    NoDup (map gn_id nodes) ∧ ∀ e, e ∈ edges → ge_source e ∈ map gn_id nodes ∧ ge_target e ∈ map gn_id nodes.
Proof.
  destruct drawing_computes as (nodes & edges & height & E & Hlen). exists nodes, edges, height.
  pose proof (@topology_drawing_closed utc_host unit_locale (λ s, s) origin_layout bezier_middle
    (λ _, Some (u! "example.com")) drawn_topology [] 10 [] (Some (TNode (u! "endpoint:1")))
    (u! "d") (u! "g") (u! "h") [] nodes edges height) as H.
  destruct H as (H1 & _ & H3 & _); [exact drawn_topology_closed|exact E|auto].
Defined.
