(* ===== verification/ApiClient.v ===== *)
(** * The API client

    Models frontend/src/api/client.ts and frontend/src/api/endpoints.ts: the
    module's credentials, the request that is sent, how a response becomes a
    result or an [ApiError], the rendering of query strings, and the request of
    every endpoint. [fetch] is what the network answers; an aborted request, a
    network failure and a response are its three outcomes. *)

From S2P Require Import Prelude JsNumber Json Url.

Definition API_ROOT : ustring := u! "/api/v1".

(** ** Credentials

    [accessToken] and [unauthorizedHandler], the module's variables; [H] is the
    type of the handlers. *)

Record ApiAuth (H : Type) := mkApiAuth {
  accessToken : option ustring;
  unauthorizedHandler : option H;
}.
Arguments mkApiAuth {H}.
Arguments accessToken {H}.
Arguments unauthorizedHandler {H}.

Definition configureApiAuth {H} (token : option ustring) (onUnauthorized : option H) : ApiAuth H :=
  mkApiAuth token onUnauthorized.

Record ApiError := mkApiError {
  err_status : Z;
  err_code : ustring;
  err_message : ustring;
  err_retryable : bool;
  err_details : list json;
  err_requestId : option ustring;
  err_retryAfterSeconds : option jsnum;
}.

(** What a rejected promise holds: an [ApiError], the [AbortError] of the
    browser, or the [TypeError] of a header that cannot be sent. *)
Inductive Rejection := RApi (error : ApiError) | RAbort | RType.

Definition isUnavailableTimeRangeError (error : Rejection) : bool :=
  match error with RApi e => bool_decide (err_code e = u! "ARCHIVE_NOT_READY") | _ => false end.
Definition isRollupNotReadyError (error : Rejection) : bool :=
  match error with RApi e => bool_decide (err_code e = u! "ROLLUP_NOT_READY") | _ => false end.

(** ** Headers *)

Definition ascii_lower (s : ustring) : ustring :=
  map (λ c, if (65 <=? c) && (c <=? 90) then c + 32 else c) s.

Definition Headers : Type := list (ustring * ustring).

Definition http_space (c : Z) : bool := (c =? 9) || (c =? 10) || (c =? 13) || (c =? 32).
Fixpoint strip_start (s : ustring) : ustring :=
  match s with c :: r => if http_space c then strip_start r else s | [] => [] end.
Definition strip (s : ustring) : ustring := reverse (strip_start (reverse (strip_start s))).

(** A header value is a byte string without NUL, CR or LF; others throw. *)
Definition header_value (s : ustring) : option ustring :=
  let v := strip s in
  if forallb (λ c, (c <? 256)) s && forallb (λ c, negb ((c =? 0) || (c =? 10) || (c =? 13))) v
  then Some v else None.

Definition headers_set (h : Headers) (name value : ustring) : option Headers :=
  v ← header_value value; Some (map_set (ascii_lower name) v h).
Definition headers_has (h : Headers) (name : ustring) : bool := map_has (ascii_lower name) h.
Definition headers_get (h : Headers) (name : ustring) : option ustring := map_get (ascii_lower name) h.

(** ** The request *)

Record RequestInit := mkInit {
  init_method : option ustring;
  init_headers : Headers;
  init_body : option ustring;
}.
Definition no_init : RequestInit := mkInit None [] None.

Record FetchRequest := mkFetch {
  fetch_url : ustring;
  fetch_method : option ustring;
  fetch_headers : Headers;
  fetch_body : option ustring;
}.

(** What [apiRequest] hands to [fetch]; [None] when a header throws. *)
Definition request_of {H} (auth : ApiAuth H) (path : ustring) (init : RequestInit) : option FetchRequest :=
  h1 ← headers_set (init_headers init) (u! "Accept") (u! "application/json");
  h2 ← (if bool_decide (is_Some (init_body init)) && negb (headers_has h1 (u! "Content-Type"))
        then headers_set h1 (u! "Content-Type") (u! "application/json") else Some h1);
  h3 ← (match accessToken auth with
        | Some token => if truthy token then headers_set h2 (u! "Authorization") (u! "Bearer " ++ token)
                        else Some h2
        | None => Some h2
        end);
  Some (mkFetch (API_ROOT ++ path) (init_method init) h3 (init_body init)).

(** ** The response *)

(** [body] is the decoded text, [None] when it could not be read. *)
Record Response := mkResponse {
  resp_status : Z;
  resp_headers : Headers;
  resp_body : option ustring;
}.

Inductive FetchResult := FetchAborted | FetchFailed | FetchOk (response : Response).

Definition resp_ok (r : Response) : bool := (200 <=? resp_status r) && (resp_status r <=? 299).

(** [await response.json().catch(() => null)] *)
Definition resp_payload (r : Response) : json :=
  match resp_body r with Some text => default JNull (JSON_parse text) | None => JNull end.

Definition is_record (v : option json) : bool := match v with Some v => isRecord v | None => false end.
Definition as_bool (v : option json) : option bool := match v with Some (JBool b) => Some b | _ => None end.
Definition member (key : ustring) (v : option json) : option json := v ≫= prop key.

Definition isSuccessEnvelope (payload : json) : bool :=
  isRecord payload && bool_decide (is_Some (prop (u! "data") payload)) && is_record (prop (u! "meta") payload)
  && bool_decide (is_Some (as_string (member (u! "requestId") (prop (u! "meta") payload)))).

Record ErrorEnvelope := mkErrorEnvelope {
  env_code : ustring;
  env_message : ustring;
  env_retryable : bool;
  env_details : list json;
  env_requestId : ustring;
}.

(** The fields the guard establishes, when it accepts the payload. *)
Definition isErrorEnvelope (payload : json) : option ErrorEnvelope :=
  if isRecord payload && is_record (prop (u! "error") payload) && is_record (prop (u! "meta") payload) then
    let error := prop (u! "error") payload in
    code ← as_string (member (u! "code") error);
    message ← as_string (member (u! "message") error);
    retryable ← as_bool (member (u! "retryable") error);
    details ← as_array (member (u! "details") error);
    requestId ← as_string (member (u! "requestId") (prop (u! "meta") payload));
    Some (mkErrorEnvelope code message retryable details requestId)
  else None.

Definition network_error : ApiError :=
  mkApiError 0 (u! "NETWORK_ERROR") (u! "The Backend could not be reached. Check the connection and retry.")
    true [] None None.

(** [Number.isFinite(retryAfter ? Number(retryAfter) : null) ? parsed : null] *)
Definition retry_after (header : option ustring) : option jsnum :=
  match header with
  | Some text => if truthy text then (let n := number_of text in if isFinite n then Some n else None) else None
  | None => None
  end.

Definition response_error (r : Response) : ApiError :=
  let envelope := isErrorEnvelope (resp_payload r) in
  mkApiError (resp_status r)
    (from_option env_code (u! "HTTP_" ++ string_of_Z (resp_status r)) envelope)
    (from_option env_message (u! "The request failed without a valid error envelope.") envelope)
    (from_option env_retryable false envelope)
    (from_option env_details [] envelope)
    (match envelope with Some e => Some (env_requestId e) | None => headers_get (resp_headers r) (u! "X-Request-ID") end)
    (retry_after (headers_get (resp_headers r) (u! "Retry-After"))).

Definition invalid_envelope (r : Response) : ApiError :=
  mkApiError (resp_status r) (u! "INVALID_ENVELOPE") (u! "The Backend returned an invalid success envelope.")
    false [] (headers_get (resp_headers r) (u! "X-Request-ID")) None.

(** The result of the promise, and the handler that was called on the way. *)
Definition settle {H} (auth : ApiAuth H) (result : FetchResult) : (json + Rejection) * option H :=
  match result with
  | FetchAborted => (inr RAbort, None)
  | FetchFailed => (inr (RApi network_error), None)
  | FetchOk r =>
    let payload := resp_payload r in
    if negb (resp_ok r) then
      (inr (RApi (response_error r)), if resp_status r =? 401 then unauthorizedHandler auth else None)
    else if negb (isSuccessEnvelope payload) then (inr (RApi (invalid_envelope r)), None)
    else (inl payload, None)
  end.

(** [before] and [after]: the credentials when the request is sent and when the
    response arrives. *)
Definition apiRequest {H} (fetch : FetchRequest → FetchResult) (before after : ApiAuth H) (path : ustring)
  (init : RequestInit) : (json + Rejection) * option H :=
  match request_of before path init with
  | None => (inr RType, None)
  | Some request => settle after (fetch request)
  end.

(** ** Query strings *)

Inductive QueryValue :=
| QUndefined
| QNull
| QString (s : ustring)
| QNumber (n : jsnum)
| QNumbers (l : list jsnum)
| QBool (b : bool).

(** [String(b)] *)
Definition string_of_bool (b : bool) : ustring := if b then u! "true" else u! "false".

Definition QueryRecord : Type := list (ustring * QueryValue).

Definition params_append (k v : ustring) (p : URLSearchParams) : URLSearchParams := p ++ [(usv k, usv v)].

Definition query_step (query : URLSearchParams) (kv : ustring * QueryValue) : URLSearchParams :=
  let '(key, value) := kv in
  match value with
  | QUndefined | QNull => query
  | QString s => if truthy s then params_set key s query else query
  | QNumbers l => foldl (λ q item, params_append key (string_of_num item) q) query l
  | QNumber n => params_set key (string_of_num n) query
  | QBool b => params_set key (string_of_bool b) query
  end.

Definition buildQuery (values : QueryRecord) : ustring :=
  let rendered := params_string (foldl query_step [] values) in
  if truthy rendered then u! "?" ++ rendered else [].

(** ** The endpoints *)

Definition get (path : ustring) : ustring * RequestInit := (path, no_init).

(** [JSON.stringify(body)] of a request body. *)
Definition send (method path : ustring) (body : json) : ustring * RequestInit :=
  (path, mkInit (Some method) [] (stringify body)).

Inductive ApiCall :=
| login (body : json)
| currentUser
| updateLocale (body : json)
| endpoints (query : QueryRecord)
| endpoint (endpointId : Z)
| processTree (endpointId : Z) (query : QueryRecord)
| events (query : QueryRecord)
| event (eventId : ustring) (query : QueryRecord)
| failures (query : QueryRecord)
| alerts (query : QueryRecord)
| alert (alertId : Z)
| updateAlert (alertId : Z) (body : json)
| incidents (query : QueryRecord)
| incident (incidentId : Z)
| updateIncident (incidentId : Z) (body : json)
| incidentTimeline (incidentId : Z)
| incidentInvestigation (incidentId : Z)
| dashboard (query : QueryRecord)
| dashboardAvailability (query : QueryRecord)
| endpointSummary (query : QueryRecord)
| ingestSummary (query : QueryRecord)
| topology (query : QueryRecord)
| correlation (query : QueryRecord)
| operationsHealth
| archives (query : QueryRecord)
| startRestore (body : json).

(** The path and the [RequestInit] of a call; [None] when building them throws. *)
Definition api (call : ApiCall) : option (ustring * RequestInit) :=
  let id := string_of_Z in
  match call with
  | login body => Some (send (u! "POST") (u! "/auth/login") body)
  | currentUser => Some (get (u! "/users/me"))
  | updateLocale body => Some (send (u! "PATCH") (u! "/users/me/locale") body)
  | endpoints query => Some (get (u! "/endpoints" ++ buildQuery query))
  | endpoint endpointId => Some (get (u! "/endpoints/" ++ id endpointId))
  | processTree endpointId query =>
      Some (get (u! "/endpoints/" ++ id endpointId ++ u! "/process-tree" ++ buildQuery query))
  | events query => Some (get (u! "/events" ++ buildQuery query))
  | event eventId query =>
      encoded ← encodeURIComponent eventId; Some (get (u! "/events/" ++ encoded ++ buildQuery query))
  | failures query => Some (get (u! "/failures" ++ buildQuery query))
  | alerts query => Some (get (u! "/alerts" ++ buildQuery query))
  | alert alertId => Some (get (u! "/alerts/" ++ id alertId))
  | updateAlert alertId body => Some (send (u! "PATCH") (u! "/alerts/" ++ id alertId ++ u! "/status") body)
  | incidents query => Some (get (u! "/incidents" ++ buildQuery query))
  | incident incidentId => Some (get (u! "/incidents/" ++ id incidentId))
  | updateIncident incidentId body =>
      Some (send (u! "PATCH") (u! "/incidents/" ++ id incidentId ++ u! "/status") body)
  | incidentTimeline incidentId => Some (get (u! "/incidents/" ++ id incidentId ++ u! "/timeline"))
  | incidentInvestigation incidentId => Some (get (u! "/incidents/" ++ id incidentId ++ u! "/investigation"))
  | dashboard query => Some (get (u! "/dashboard/summary" ++ buildQuery query))
  | dashboardAvailability query => Some (get (u! "/dashboard/availability" ++ buildQuery query))
  | endpointSummary query => Some (get (u! "/dashboard/endpoints/summary" ++ buildQuery query))
  | ingestSummary query => Some (get (u! "/dashboard/ingest/summary" ++ buildQuery query))
  | topology query => Some (get (u! "/dashboard/topology" ++ buildQuery query))
  | correlation query => Some (get (u! "/intelligence/correlate" ++ buildQuery query))
  | operationsHealth => Some (get (u! "/operations/health"))
  | archives query => Some (get (u! "/archives/restores" ++ buildQuery query))
  | startRestore body => Some (send (u! "POST") (u! "/archives/restores") body)
  end.

(** ** The text of numbers is ASCII *)

Definition ascii (s : ustring) : Prop := Forall (λ c, 0 ≤ c < 128) s.

Lemma zeros_ascii n : ascii (zeros n).
Proof. apply Forall_replicate. lia. Qed.

Lemma positive_text_ascii q : ascii (positive_text q).
Proof.
  unfold positive_text. destruct (shortest_digits _ _ _ _) as [s0 k].
  destruct (if s0 =? _ then _ else _) as [s n].
  pose proof (dec_string_ascii (Z.abs s) ltac:(lia)) as Hs.
  pose proof (dec_string_ascii (Z.abs (n - 1)) ltac:(lia)) as He.
  pose proof zeros_ascii as Hz. unfold ascii in *.
  assert (Forall (λ c, 0 ≤ c < 128) [48; 46]) by (repeat constructor; lia).
  assert (∀ z, 0 ≤ z < 128 → Forall (λ c, 0 ≤ c < 128) [z]) as H1 by (intros; by apply Forall_singleton).
  destruct (_ && _); [by apply Forall_app|].
  destruct (dec_string (Z.abs s)) as [|c r]; [repeat case_match; rewrite ?Forall_app; done|].
  apply Forall_cons in Hs as [Hc Hr].
  repeat case_match; repeat first [rewrite Forall_cons | rewrite Forall_app | split];
    first [done | lia | by apply Forall_take | by apply Forall_drop | by apply H1 | idtac].
Qed.

Lemma number_text_ascii n : ascii (default [] (number_text n)).
Proof.
  assert (∀ q, ascii (fraction_text q)) as Hf.
  { intros q. unfold fraction_text. case_match; [apply Forall_cons; split; [lia|]|]; apply positive_text_ascii. }
  assert (ascii (u! "null")) by (by_compute).
  unfold number_text. destruct n as [| |q]; [done..|]. repeat case_match; try apply Hf. apply string_of_Z_ascii.
Qed.

Lemma string_of_num_ascii n : ascii (string_of_num n).
Proof.
  destruct n as [|[]|q]; [by_compute..|]. apply number_text_ascii.
Qed.

(** ** Rendering queries *)

(** What a value contributes to the query. *)
Definition query_texts (value : QueryValue) : list ustring :=
  match value with
  | QUndefined | QNull => []
  | QString s => if truthy s then [s] else []
  | QNumber n => [string_of_num n]
  | QNumbers l => map string_of_num l
  | QBool b => [string_of_bool b]
  end.

Definition query_pairs (values : QueryRecord) : list (ustring * ustring) :=
  flat_map (λ kv, map (pair kv.1) (query_texts kv.2)) values.

Definition query_ok (values : QueryRecord) : Prop :=
  Forall (λ kv, well_formed kv.1 ∧ match kv.2 with QString s => well_formed s | _ => True end) values.

Lemma params_set_fresh k v p : usv k ∉ p.*1 → params_set k v p = p ++ [(usv k, usv v)].
Proof.
  unfold params_set. induction p as [|[k' v'] p IH]; [done|]. cbn. intros Hk.
  rewrite not_elem_of_cons in Hk. rewrite decide_False by (intros ->; by destruct Hk). by rewrite IH by apply Hk.
Qed.

Lemma query_step_fresh query key value :
  usv key ∉ query.*1 →
  query_step query (key, value) = query ++ map (λ t, (usv key, usv t)) (query_texts value).
Proof.
  intros Hk. destruct value as [| |s|n|l|b]; cbn [query_step query_texts map]; rewrite ?app_nil_r; [done..| | | |by apply params_set_fresh].
  - destruct (truthy s); cbn [map]; [by apply params_set_fresh|by rewrite app_nil_r].
  - by apply params_set_fresh.
  - clear Hk. revert query. induction l as [|n l IH]; intros query; cbn; [by rewrite app_nil_r|].
    rewrite IH. unfold params_append. by rewrite <- app_assoc.
Qed.

Lemma query_texts_wf value :
  match value with QString s => well_formed s | _ => True end → Forall well_formed (query_texts value).
Proof.
  destruct value as [| |s|n|l|b]; cbn; try constructor; try done.
  - intros Hs. destruct (truthy s); by repeat constructor.
  - apply well_formed_ascii, string_of_num_ascii.
  - intros _. apply Forall_fmap, Forall_forall. intros n _. apply well_formed_ascii, string_of_num_ascii.
  - apply well_formed_ascii. destruct b; by_compute.
Qed.

Lemma query_foldl query values :
  query_ok values → NoDup values.*1 → (∀ k, k ∈ values.*1 → k ∉ query.*1) →
  foldl query_step query values = query ++ query_pairs values.
Proof.
  intros Hok. revert query. induction Hok as [|[k v] values [Hk Hv] Hok IH]; intros query Hnd Hd.
  - by rewrite app_nil_r.
  - cbn [foldl fst snd] in *. cbn [fmap list_fmap fst] in Hnd, Hd. apply NoDup_cons in Hnd as [Hkv Hnd].
    rewrite query_step_fresh by (rewrite usv_well_formed by done; apply Hd; by left).
    assert (map (λ t, (usv k, usv t)) (query_texts v) = map (pair k) (query_texts v)) as ->.
    { apply map_ext_in. intros t Ht%list_elem_of_In. pose proof (query_texts_wf v Hv) as Hw.
      rewrite Forall_forall in Hw. rewrite !usv_well_formed; auto. }
    rewrite IH; [by rewrite <- app_assoc|done|]. intros k' Hk'. rewrite fmap_app, elem_of_app. intros [Hin|Hin].
    + by apply (Hd k'); [right|].
    + apply list_elem_of_fmap in Hin as ([k1 t] & -> & Hin). apply list_elem_of_In, in_map_iff in Hin as (t' & [= <- <-] & _).
      done.
Qed.

Lemma query_pairs_ok values : query_ok values → params_ok (query_pairs values).
Proof.
  intros Hok. apply Forall_forall. intros kv (v & Hv & Hin)%elem_of_flat_map.
  apply list_elem_of_In, in_map_iff in Hin as (t & <- & Ht%list_elem_of_In).
  unfold query_ok in Hok. rewrite Forall_forall in Hok. destruct (Hok v Hv) as [Hk Ht'].
  split; [done|]. pose proof (query_texts_wf _ Ht') as Hw. rewrite Forall_forall in Hw. by apply Hw.
Qed.

Lemma buildQuery_text values :
  query_ok values → NoDup values.*1 →
  buildQuery values = match query_pairs values with [] => [] | ps => 63 :: params_string ps end.
Proof.
  intros Hok Hnd. unfold buildQuery. rewrite query_foldl by (done || set_solver). cbn [app].
  destruct (query_pairs values) as [|[k v] ps]; [done|].
  assert (truthy (params_string ((k, v) :: ps)) = true) as ->; [|done]. unfold params_string.
  destruct ps; cbn [map join]; unfold params_pair at 1; by destruct (form_encode _).
Qed.

(** ** Characters of a URL *)

(** Characters with no meaning outside the path or the query they stand in. *)
Definition url_char (c : Z) : bool := component_safe c || bool_decide (c ∈ u! "%+&=/").

Lemma hex_upper_char n : 0 ≤ n < 16 → url_char (hex_upper n) = true.
Proof.
  intros Hn. unfold url_char, component_safe, hex_upper. apply orb_true_iff. left.
  case_match; breflect; repeat rewrite orb_true_iff; left; rewrite !andb_true_iff; lia.
Qed.

Lemma form_byte_char b : byte b → Forall (λ c, url_char c = true) (form_byte b).
Proof.
  unfold byte. intros Hb. pose proof (Z.div_mod b 16 ltac:(lia)). pose proof (Z.mod_pos_bound b 16 ltac:(lia)).
  unfold form_byte. destruct (b =? 32); [apply Forall_singleton; by vm_compute|].
  destruct (form_safe b) eqn:Es; rewrite ?Forall_cons, ?Forall_nil; split_and!; try done;
    try (apply hex_upper_char; lia).
  unfold url_char. apply orb_true_iff. left. unfold component_safe. unfold form_safe in Es.
  rewrite !orb_true_iff in *. destruct Es as [[[[?|?]|?]|?]|?]; auto; right; breflect; subst; by vm_compute.
Qed.

Lemma form_encode_char s : well_formed s → Forall (λ c, url_char c = true) (form_encode s).
Proof.
  intros (cps & Hc & ->). unfold form_encode, utf8_encode. rewrite code_points_encode by done.
  pose proof (encode_byte _ Hc) as Hb. induction Hb as [|b bs Hb Hs IH]; cbn [flat_map]; [constructor|].
  apply Forall_app. split; [by apply form_byte_char|done].
Qed.

Lemma params_string_char p : params_ok p → Forall (λ c, url_char c = true) (params_string p).
Proof.
  intros Hp. apply join_ascii; [apply Forall_singleton; by vm_compute|]. apply Forall_fmap.
  eapply Forall_impl; [exact Hp|]. intros kv [H1 H2]. cbn. unfold params_pair.
  apply Forall_app. split; [by apply form_encode_char|]. apply Forall_cons.
  split; [by vm_compute|by apply form_encode_char].
Qed.

(** ** The endpoints' requests *)

Definition call_query (call : ApiCall) : QueryRecord :=
  match call with
  | endpoints q | processTree _ q | events q | event _ q | failures q | alerts q | incidents q | dashboard q
  | dashboardAvailability q | endpointSummary q | ingestSummary q | topology q | correlation q | archives q => q
  | _ => []
  end.

Definition call_body (call : ApiCall) : option json :=
  match call with
  | login b | updateLocale b | updateAlert _ b | updateIncident _ b | startRestore b => Some b
  | _ => None
  end.

Definition call_ok (call : ApiCall) : Prop :=
  query_ok (call_query call) ∧ NoDup (call_query call).*1 ∧ from_option json_wf True (call_body call) ∧
  match call with event eventId _ => units_ok eventId | _ => True end.

Definition url_text (s : ustring) : Prop := Forall (λ c, url_char c = true) s.
#[export] Instance url_text_dec s : Decision (url_text s).
Proof. unfold url_text. apply _. Defined.

(** A route, and a query that is empty or starts with the only question mark. *)
Definition target_ok (path route : ustring) (values : QueryRecord) : Prop :=
  path = route ++ buildQuery values ∧ url_text route ∧ starts_with (u! "/") route = true ∧
  (buildQuery values = [] ∨ ∃ q, buildQuery values = 63 :: q ∧ url_text q).

Lemma string_of_Z_char n : url_text (string_of_Z n).
Proof.
  assert (∀ m, 0 ≤ m → url_text (dec_string m)) as Hd.
  { intros m Hm. destruct (dec_string_spec m Hm) as (Hs & _). eapply Forall_impl; [exact Hs|].
    unfold is_digit. intros c Hc. cbv beta in Hc. unfold url_char, component_safe. by rewrite Hc. }
  unfold string_of_Z. destruct (n <? 0) eqn:E; breflect; [apply Forall_cons; split; [by vm_compute|]|]; apply Hd; lia.
Qed.

Lemma buildQuery_ok values :
  query_ok values → NoDup values.*1 → buildQuery values = [] ∨ ∃ q, buildQuery values = 63 :: q ∧ url_text q.
Proof.
  intros Hok Hnd. rewrite buildQuery_text by done. pose proof (query_pairs_ok values Hok) as Hp.
  destruct (query_pairs values) as [|kv ps]; [by left|]. right. eexists. split; [done|].
  by apply params_string_char.
Qed.

Lemma target_route route values :
  url_text route → starts_with (u! "/") route = true → query_ok values → NoDup values.*1 →
  target_ok (route ++ buildQuery values) route values.
Proof. intros. split_and!; auto using buildQuery_ok. Qed.

Lemma target_plain route : url_text route → starts_with (u! "/") route = true → target_ok route route [].
Proof. intros. unfold target_ok. rewrite app_nil_r. split_and!; auto. Qed.

Lemma encoded_char s e : units_ok s → encodeURIComponent s = Some e → url_text e ∧ 47 ∉ e.
Proof.
  intros Hs He. split.
  - apply Forall_forall. intros c Hc. destruct (encodeURIComponent_safe s e c Hs He Hc) as [H| ->]; [|by vm_compute].
    unfold url_char. by rewrite H.
  - intros Hc. destruct (encodeURIComponent_safe s e 47 Hs He Hc) as [H|H]; by vm_compute in H.
Qed.

Lemma starts_app p s t : starts_with p s = true → starts_with p (s ++ t) = true.
Proof.
  revert s. induction p as [|c p IH]; intros [|d s]; cbn; try done.
  rewrite !andb_true_iff. intros [? ?]. auto.
Qed.

Lemma url_app s t : url_text s → url_text t → url_text (s ++ t).
Proof. intros. by apply Forall_app. Qed.

Ltac url_route :=
  repeat match goal with |- url_text (app _ _) => apply url_app end;
  match goal with
  | |- url_text (string_of_Z _) => apply string_of_Z_char
  | |- _ => by_compute
  end.
Ltac url_start :=
  repeat match goal with |- starts_with _ (app _ _) = true => apply starts_app end; by vm_compute.

Definition is_event (call : ApiCall) : bool := match call with event _ _ => true | _ => false end.

Lemma api_route call path init :
  call_ok call → is_event call = false → api call = Some (path, init) →
  ∃ route, target_ok path route (call_query call).
Proof.
  intros (Hq & Hnd & _ & _) He Hapi.
  destruct call; try discriminate He; cbn [api call_query] in *;
    unfold get, send in Hapi; apply (inj Some), pair_equal_spec in Hapi as [<- _]; rewrite ?app_assoc; eexists;
    lazymatch goal with
    | |- target_ok (app _ (buildQuery _)) _ _ => apply target_route; [url_route|url_start|done..]
    | |- _ => apply target_plain; [url_route|url_start]
    end.
Qed.

Lemma api_init call path init :
  api call = Some (path, init) →
  call_body call = None ∧ init = no_init ∨
  ∃ b m, call_body call = Some b ∧ init = mkInit (Some m) [] (stringify b).
Proof.
  intros Hapi. destruct call; cbn [api call_body] in *; unfold get, send in Hapi;
    try (destruct (encodeURIComponent _); [cbn in Hapi|discriminate Hapi]); injection Hapi as <- <-; eauto 10.
Qed.

(** ** Claims *)

(** A query string says exactly what its record holds: parsing it gives the
    record's pairs in order, without the undefined, null and empty values and
    with one pair per element of an array, and it is empty when there are none. *)
Theorem buildQuery_roundtrip values :
  query_ok values → NoDup values.*1 →
  params_of_string (buildQuery values) = query_pairs values ∧
  (buildQuery values = [] ↔ query_pairs values = []).
Proof.
  intros Hok Hnd. rewrite buildQuery_text by done. pose proof (query_pairs_ok values Hok) as Hp.
  destruct (query_pairs values) as [|kv ps]; [done|]. split; [|done].
  apply (params_of_string_string (kv :: ps) Hp).
Qed.

Definition sample_query : QueryRecord :=
  [(u! "q", QString (u! "a&b=한")); (u! "none", QNull); (u! "page", QNumber (num_of_Z 2));
   (u! "endpointIds", QNumbers [num_of_Z 7; num_of_Z 9]); (u! "empty", QString [])].

Lemma well_formed_check s : units s → usv s = s → well_formed s.
Proof. intros Hs <-. by apply well_formed_usv. Qed.

Lemma sample_query_ok : query_ok sample_query.
Proof.
  repeat (apply Forall_cons; split; [|]); try apply Forall_nil; cbn [fst snd]; split; try exact I;
    apply well_formed_check; by_compute.
Qed.

Lemma buildQuery_roundtrip_witness :
  params_of_string (buildQuery sample_query) = query_pairs sample_query ∧
  query_pairs sample_query =
    [(u! "q", u! "a&b=한"); (u! "page", u! "2"); (u! "endpointIds", u! "7"); (u! "endpointIds", u! "9")].
Proof.
  split; [|by vm_compute]. apply buildQuery_roundtrip; [apply sample_query_ok|].
  by_compute.
Defined.

(** The request of every endpoint is the call's own: its path is an absolute
    route, whose variable parts hold no delimiter of a URL, followed by the
    query of the call alone; a request has a body exactly when it has a method
    of its own, and the body is the JSON text of what was passed; the event of
    an event request is its last segment, whatever characters its id has. *)
Theorem api_spec call path init :
  call_ok call → api call = Some (path, init) →
  (∃ route, target_ok path route (call_query call) ∧
    match call with
    | event eventId _ => ∃ seg, route = u! "/events/" ++ seg ∧ 47 ∉ seg ∧ decode_component seg = eventId
    | _ => True
    end) ∧
  init_headers init = [] ∧ (is_Some (init_method init) ↔ is_Some (init_body init)) ∧
  (init_body init ≫= JSON_parse) = call_body call.
Proof.
  intros Hok Hapi. split.
  - destruct (is_event call) eqn:E.
    + destruct call as [| | | | | | |eventId query| | | | | | | | | | | | | | | | | |]; try discriminate E.
      destruct Hok as (Hq & Hnd & _ & Hid). cbn [api call_query] in *.
      destruct (encodeURIComponent eventId) as [e|] eqn:He; [|discriminate Hapi]. cbn in Hapi.
      apply (inj Some), pair_equal_spec in Hapi as [<- _]. destruct (encoded_char _ _ Hid He) as [Hc Hs].
      exists (u! "/events/" ++ e). split; [|exists e; split_and!; eauto using encodeURIComponent_decode].
      rewrite app_assoc. apply target_route; [|url_start|done..].
      apply url_app; [url_route|done].
    + destruct (api_route _ _ _ Hok E Hapi) as [route Hr]. exists route. split; [done|]. by destruct call.
  - destruct Hok as (_ & _ & Hb & _).
    destruct (api_init _ _ _ Hapi) as [[Hn ->]|(b & m & Hn & ->)]; rewrite Hn in *; cbn in *.
    + split_and!; [done| |done]. by split; intros [? [=]].
    + destruct (stringify_total b Hb) as [t Ht]. rewrite Ht. cbn. rewrite (JSON_parse_stringify b t Hb Ht).
      split_and!; [done| |done]. split; intros _; by eexists.
Qed.

Lemma api_spec_witness :
  ∃ route, target_ok (u! "/events/a%2F%3F?endpointId=3") route [(u! "endpointId", QNumber (num_of_Z 3))] ∧
    ∃ seg, route = u! "/events/" ++ seg ∧ 47 ∉ seg ∧ decode_component seg = u! "a/?".
Proof.
  refine (proj1 (api_spec (event (u! "a/?") [(u! "endpointId", QNumber (num_of_Z 3))])
    (u! "/events/a%2F%3F?endpointId=3") no_init _ _)).
  - split_and!; [|by_compute|done|by_compute].
    apply Forall_singleton. split; [|done]. apply well_formed_check; by_compute.
  - by vm_compute.
Defined.

(** ** Responses *)

Definition success_json (data : json) (requestId : ustring) : json :=
  JObj [(u! "data", data); (u! "meta", JObj [(u! "requestId", JStr requestId)])].

Definition error_json (e : ErrorEnvelope) : json :=
  JObj [(u! "error", JObj [(u! "code", JStr (env_code e)); (u! "message", JStr (env_message e));
                           (u! "retryable", JBool (env_retryable e)); (u! "details", JArr (env_details e))]);
        (u! "meta", JObj [(u! "requestId", JStr (env_requestId e))])].

Lemma isSuccessEnvelope_json data requestId : isSuccessEnvelope (success_json data requestId) = true.
Proof. by vm_compute. Qed.

Lemma isErrorEnvelope_json e : isErrorEnvelope (error_json e) = Some e.
Proof. by destruct e. Qed.

Lemma isSuccessEnvelope_true payload :
  isSuccessEnvelope payload = true →
  is_Some (prop (u! "data") payload) ∧
  ∃ id, member (u! "requestId") (prop (u! "meta") payload) = Some (JStr id).
Proof.
  unfold isSuccessEnvelope. intros H. breflect. split; [done|].
  match goal with E : is_Some (as_string ?v) |- _ => destruct v as [[| | |id| |]|]; destruct E as [? [=]] end.
  by exists id.
Qed.

Lemma resp_payload_json r v t :
  json_wf v → stringify v = Some t → resp_body r = Some t → resp_payload r = v.
Proof. intros Hw Ht Hb. unfold resp_payload. by rewrite Hb, (JSON_parse_stringify v t). Qed.

Lemma resp_ok_true r : resp_ok r = true ↔ 200 ≤ resp_status r ≤ 299.
Proof. unfold resp_ok. rewrite andb_true_iff. lia. Qed.

Lemma retry_after_finite header n : retry_after header = Some n → isFinite n = true.
Proof. unfold retry_after. repeat case_match; naive_solver. Qed.

(** C11: A request settles in one of four ways and in no other: with the payload of
    a 2xx response that is a success envelope, unchanged; with an [ApiError]
    that carries the response's status (0 when the network failed), is
    retryable only for a network failure or when the error envelope says so,
    and has a retry delay only when it is a finite number; with the browser's
    abort; or with a header that could not be set. The unauthorized handler
    runs exactly when the response has status 401, and it is the one configured
    when the response arrives. *)
Theorem apiRequest_spec {H} fetch (before after : ApiAuth H) path init :
  let answer := fetch <$> request_of before path init in
  let '(result, called) := apiRequest fetch before after path init in
  called = match answer with
           | Some (FetchOk r) => if resp_status r =? 401 then unauthorizedHandler after else None
           | _ => None
           end ∧
  match result with
  | inl payload => ∃ r text, answer = Some (FetchOk r) ∧ 200 ≤ resp_status r ≤ 299 ∧
      resp_body r = Some text ∧ JSON_parse text = Some payload ∧ is_Some (prop (u! "data") payload) ∧
      ∃ id, member (u! "requestId") (prop (u! "meta") payload) = Some (JStr id)
  | inr (RApi e) =>
      (answer = Some FetchFailed ∧ err_status e = 0 ∧ err_retryable e = true ∨
       ∃ r, answer = Some (FetchOk r) ∧ err_status e = resp_status r ∧
         (err_retryable e = true → ∃ env, isErrorEnvelope (resp_payload r) = Some env ∧ env_retryable env = true)) ∧
      (∀ n, err_retryAfterSeconds e = Some n → isFinite n = true)
  | inr RAbort => answer = Some FetchAborted
  | inr RType => answer = None
  end.
Proof.
  unfold apiRequest. destruct (request_of before path init) as [request|]; cbn; [|done].
  destruct (fetch request) as [| |r]; cbn; [done|split; [done|]; split; [by left|done]|].
  destruct (resp_ok r) eqn:Eok; cbn.
  - pose proof (proj1 (resp_ok_true r) Eok) as Hok. assert ((resp_status r =? 401) = false) as -> by lia.
    destruct (isSuccessEnvelope (resp_payload r)) eqn:Ee; cbn; (split; [done|]).
    + destruct (isSuccessEnvelope_true _ Ee) as [Hd Hid]. unfold resp_payload in *.
      destruct (resp_body r) as [text|] eqn:Et; [|discriminate Ee].
      destruct (JSON_parse text) as [v|] eqn:Ev; [|discriminate Ee]. by exists r, text.
    + split; [|done]. right. by exists r.
  - split; [done|]. split; [|intros n; apply retry_after_finite]. right. exists r. split_and!; [done..|].
    unfold response_error. cbn. destruct (isErrorEnvelope (resp_payload r)) as [env|]; [|done]. intros He. by exists env.
Qed.

(** What the backend wraps is what the caller gets: a success envelope in a
    2xx response is returned as it was sent, and an error envelope in any other
    response becomes an error with its code, message, retry flag, details and
    request id. *)
Theorem apiRequest_envelopes {H} fetch (before after : ApiAuth H) path init request r v text :
  request_of before path init = Some request → fetch request = FetchOk r →
  json_wf v → stringify v = Some text → resp_body r = Some text →
  (∀ data id, v = success_json data id → 200 ≤ resp_status r ≤ 299 →
     (apiRequest fetch before after path init).1 = inl v) ∧
  (∀ env, v = error_json env → ¬ 200 ≤ resp_status r ≤ 299 →
     ∃ retryAfter, (apiRequest fetch before after path init).1 =
       inr (RApi (mkApiError (resp_status r) (env_code env) (env_message env) (env_retryable env)
                    (env_details env) (Some (env_requestId env)) retryAfter))).
Proof.
  intros Hreq Hf Hw Ht Hb. pose proof (resp_payload_json r v text Hw Ht Hb) as Hp.
  unfold apiRequest. rewrite Hreq, Hf. unfold settle. rewrite Hp. split.
  - intros data id -> Hs. rewrite (proj2 (resp_ok_true r) Hs). by rewrite isSuccessEnvelope_json.
  - intros env -> Hs. destruct (resp_ok r) eqn:E; [by apply resp_ok_true in E|]. cbn.
    unfold response_error. rewrite Hp, isErrorEnvelope_json. by eexists.
Qed.

Definition sample_error : ErrorEnvelope :=
  mkErrorEnvelope (u! "ARCHIVE_NOT_READY") (u! "m") true [JNull] (u! "req-1").
Definition sample_response : Response :=
  mkResponse 409 [(u! "retry-after", u! "30")] (stringify (error_json sample_error)).

Lemma apiRequest_envelopes_witness :
  ∃ retryAfter,
    (apiRequest (λ _, FetchOk sample_response) (mkApiAuth (Some (u! "t")) (None : option unit)) (mkApiAuth None None)
       (u! "/users/me") no_init).1 =
    inr (RApi (mkApiError 409 (u! "ARCHIVE_NOT_READY") (u! "m") true [JNull] (Some (u! "req-1")) retryAfter)).
Proof.
  destruct (stringify (error_json sample_error)) as [text|] eqn:Ht; [|by vm_compute in Ht].
  refine (proj2 (apiRequest_envelopes (λ _, FetchOk sample_response) (mkApiAuth (Some (u! "t")) (None : option unit))
    (mkApiAuth None None) (u! "/users/me") no_init _ sample_response (error_json sample_error) text
    eq_refl eq_refl _ Ht Ht) sample_error eq_refl _).
  - split; [by_compute|]. cbn. split_and!; try done;
      by_compute.
  - intros [_ Hs]. by vm_compute in Hs.
Defined.

Lemma headers_get_set h name value h' :
  headers_set h name value = Some h' → headers_get h' name = header_value value.
Proof.
  unfold headers_set. destruct (header_value value) as [v|]; [|done]. cbn. intros [= <-].
  apply map_get_set_eq.
Qed.

Lemma headers_get_set_ne h name value h' other :
  headers_set h name value = Some h' → ascii_lower other ≠ ascii_lower name →
  headers_get h' other = headers_get h other.
Proof.
  unfold headers_set. destruct (header_value value) as [v|]; [|done]. cbn. intros [= <-] Hne.
  by apply map_get_set_ne.
Qed.

Ltac header_ne := by_compute.

Lemma content_type_step body h1 h2 :
  (if bool_decide (is_Some body) && negb (headers_has h1 (u! "Content-Type"))
   then headers_set h1 (u! "Content-Type") (u! "application/json") else Some h1) = Some h2 →
  (is_Some (body : option ustring) → is_Some (headers_get h2 (u! "Content-Type"))) ∧
  ∀ other, ascii_lower other ≠ ascii_lower (u! "Content-Type") → headers_get h2 other = headers_get h1 other.
Proof.
  intros E. destruct (bool_decide (is_Some body)) eqn:Eb; breflect; cbn [andb] in E.
  - unfold headers_has, map_has in E. fold (headers_get h1 (u! "Content-Type")) in E.
    destruct (headers_get h1 (u! "Content-Type")) as [v|] eqn:Eh; cbn [negb] in E.
    + injection E as <-. rewrite Eh. split; [by eexists|done].
    + split; [|intros; by eapply headers_get_set_ne]. rewrite (headers_get_set _ _ _ _ E). by eexists.
  - injection E as <-. by split.
Qed.

Lemma bearer_step {H} (auth : ApiAuth H) h2 h3 :
  match accessToken auth with
  | Some token => if truthy token then headers_set h2 (u! "Authorization") (u! "Bearer " ++ token) else Some h2
  | None => Some h2
  end = Some h3 →
  (∀ token, accessToken auth = Some token → token ≠ [] →
     headers_get h3 (u! "Authorization") = header_value (u! "Bearer " ++ token)) ∧
  (truthy_opt (accessToken auth) = false → h3 = h2) ∧
  ∀ other, ascii_lower other ≠ ascii_lower (u! "Authorization") → headers_get h3 other = headers_get h2 other.
Proof.
  destruct (accessToken auth) as [t|]; [|by intros [= <-]]. cbn [truthy_opt]. destruct (truthy t) eqn:Et; intros E.
  - split_and!; [|done|intros; by eapply headers_get_set_ne].
    intros ? [= <-] _. by rewrite (headers_get_set _ _ _ _ E).
  - injection E as <-. split_and!; [|done..]. intros ? [= <-] Hne. apply truthy_true in Hne. congruence.
Qed.

(** Every request asks for JSON, declares JSON when it has a body, and carries
    the bearer token exactly when there is a non-empty one, whatever headers
    the caller passed; other headers are the caller's. *)
Theorem request_of_headers {H} (auth : ApiAuth H) path init request :
  request_of auth path init = Some request →
  fetch_url request = API_ROOT ++ path ∧ fetch_method request = init_method init ∧ fetch_body request = init_body init ∧
  headers_get (fetch_headers request) (u! "Accept") = Some (u! "application/json") ∧
  (is_Some (init_body init) → is_Some (headers_get (fetch_headers request) (u! "Content-Type"))) ∧
  (∀ token, accessToken auth = Some token → token ≠ [] →
     headers_get (fetch_headers request) (u! "Authorization") = header_value (u! "Bearer " ++ token)) ∧
  (truthy_opt (accessToken auth) = false → init_headers init = [] →
     headers_get (fetch_headers request) (u! "Authorization") = None).
Proof.
  unfold request_of. intros Hreq.
  destruct (headers_set (init_headers init) _ _) as [h1|] eqn:E1; [|done]. cbn [mbind option_bind] in Hreq.
  destruct (if _ && _ then _ else _) as [h2|] eqn:E2; [|done]. cbn [mbind option_bind] in Hreq.
  destruct (match accessToken auth with Some _ => _ | None => _ end) as [h3|] eqn:E3; [|done].
  cbn [mbind option_bind] in Hreq. apply (inj Some) in Hreq as <-. cbn [fetch_url fetch_method fetch_body fetch_headers].
  pose proof (content_type_step _ _ _ E2) as (Hc2 & Ho2).
  pose proof (bearer_step auth _ _ E3) as (Hb3 & Hn3 & Ho3).
  split_and!; [done..| | | |].
  - rewrite Ho3, Ho2 by header_ne. rewrite (headers_get_set _ _ _ _ E1). by vm_compute.
  - intros Hb. rewrite Ho3 by header_ne. by apply Hc2.
  - done.
  - intros Ht Hi. rewrite (Hn3 Ht), Ho2, (headers_get_set_ne _ _ _ _ _ E1), Hi by header_ne. by vm_compute.
Qed.

Lemma request_of_headers_witness :
  headers_get [(u! "accept", u! "application/json"); (u! "authorization", u! "Bearer tok")] (u! "Authorization") =
  header_value (u! "Bearer " ++ u! "tok").
Proof.
  apply (request_of_headers (mkApiAuth (Some (u! "tok")) (None : option unit)) (u! "/users/me") no_init
    (mkFetch (u! "/api/v1/users/me") None
       [(u! "accept", u! "application/json"); (u! "authorization", u! "Bearer tok")] None)); [|done|done].
  by vm_compute.
Defined.
