(* ===== verification/Auth.v ===== *)
(** * Authentication

    Models frontend/src/auth/AuthContext.tsx and frontend/src/query/policy.ts: the
    session kept in browser storage, and the provider as a machine whose events
    are calls, responses, timers and renders. State updates wait in a queue until
    the next render runs them in order, as React documents; the effects of a
    render run with it. A [user] is the JSON object that was received, because
    the code does not look inside responses. *)

From Stdlib Require Import QArith Qround.
From S2P Require Import Prelude JsNumber Json WebStorage Contracts ApiClient.

#[local] Open Scope Z_scope.

Definition canMutate (role : UserRole) : bool :=
  bool_decide (role = Role_ADMIN) || bool_decide (role = Role_ANALYST).

(** [restored]: the object came from [normalizeAuthSession], which lists the
    properties in another order. *)
Record AuthSession := mkSession {
  token : ustring;
  user : json;
  expiresAt : jsnum;
  restored : bool;
}.

Definition AUTH_SESSION_KEY : ustring := u! "edr.authSession".

(** ** The stored session *)

(** [String(value)] of a JSON value; [None] when a [toString] of its own, which
    is no function, makes the conversion throw. *)
Fixpoint js_String (v : json) : option ustring :=
  match v with
  | JNull => Some (u! "null")
  | JBool b => Some (if b then u! "true" else u! "false")
  | JNum n => Some (string_of_num n)
  | JStr s => Some s
  | JArr l => join [44] <$> option_list (map (λ v, match v with JNull => Some [] | _ => js_String v end) l)
  | JObj fs => if map_has (u! "toString") fs then None else Some (u! "[object Object]")
  end.

Definition String_opt (v : option json) : option ustring :=
  match v with Some v => js_String v | None => Some (u! "undefined") end.

Definition isUserLocale (v : option json) : option UserLocale :=
  match v with Some (JStr s) => lit_find lit_values s | _ => None end.

(** [None] is an exception. *)
Definition hasUserDtoFields (value : json) : option bool :=
  if negb (isRecord value) then Some false
  else
    match as_number (prop (u! "userId") value), as_string (prop (u! "loginId") value),
          as_string (prop (u! "name") value) with
    | Some _, Some _, Some _ =>
      role ← String_opt (prop (u! "role") value);
      if str_in role [u! "ADMIN"; u! "ANALYST"; u! "VIEWER"] then
        status ← String_opt (prop (u! "status") value);
        Some (str_in status [u! "ACTIVE"; u! "DISABLED"])
      else Some false
    | _, _, _ => Some false
    end.

Definition isUserDto (value : json) : option bool :=
  hasFields ← hasUserDtoFields value;
  Some (hasFields && bool_decide (is_Some (isUserLocale (prop (u! "locale") value)))).

(** Reading a property that the guard found. *)
Definition got (v : option json) : json := default JNull v.

Definition normalizeUserDto (value : json) : option (option json) :=
  hasFields ← hasUserDtoFields value;
  Some (if (hasFields : bool) then
    Some (JObj [(u! "userId", got (prop (u! "userId") value));
                (u! "loginId", got (prop (u! "loginId") value));
                (u! "name", got (prop (u! "name") value));
                (u! "role", got (prop (u! "role") value));
                (u! "status", got (prop (u! "status") value));
                (u! "locale", JStr (lit_name (default Locale_EN (isUserLocale (prop (u! "locale") value)))))])
  else None).

Definition isAuthSession (value : json) : option bool :=
  if negb (isRecord value) then Some false
  else
    match as_string (prop (u! "token") value), as_number (prop (u! "expiresAt") value) with
    | Some _, Some _ =>
      match prop (u! "user") value with Some v => isUserDto v | None => Some false end
    | _, _ => Some false
    end.

Definition normalizeAuthSession (value : json) : option (option AuthSession) :=
  if negb (isRecord value) then Some None
  else
    match as_string (prop (u! "token") value), as_number (prop (u! "expiresAt") value) with
    | Some t, Some e =>
      match prop (u! "user") value with
      | Some v => normalized ← normalizeUserDto v; Some ((λ w, mkSession t w e true) <$> (normalized : option json))
      | None => Some None
      end
    | _, _ => Some None
    end.

Definition session_json (s : AuthSession) : json :=
  JObj (if restored s
        then [(u! "token", JStr (token s)); (u! "expiresAt", JNum (expiresAt s)); (u! "user", user s)]
        else [(u! "token", JStr (token s)); (u! "user", user s); (u! "expiresAt", JNum (expiresAt s))]).

Definition saveAuthSession (store : Storage) (s : AuthSession) : Storage :=
  match stringify (session_json s) with
  | Some text => default store (setItem store AUTH_SESSION_KEY text)
  | None => store
  end.

Definition clearAuthSession (store : Storage) : Storage := default store (removeItem store AUTH_SESSION_KEY).

(** [n <= now] *)
Definition num_le (n : jsnum) (now : Z) : bool :=
  match n with
  | NaN => false
  | Inf negative => negative
  | Fin q => Qle_bool q (inject_Z now)
  end.

(** The body of the [try]; [None] is an exception. *)
Definition try_load (now : Z) (store : Storage) : option (option AuthSession * Storage) :=
  raw ← getItem store AUTH_SESSION_KEY;
  match raw with
  | Some text =>
    if truthy text then
      value ← JSON_parse text;
      normalized ← normalizeAuthSession value;
      match normalized with
      | Some s =>
        if num_le (expiresAt s) now then store' ← removeItem store AUTH_SESSION_KEY; Some (None, store')
        else
          complete ← isAuthSession value;
          Some (Some s, if (complete : bool) then store else saveAuthSession store s)
      | None => store' ← removeItem store AUTH_SESSION_KEY; Some (None, store')
      end
    else Some (None, store)
  | None => Some (None, store)
  end.

Definition loadAuthSession (now : Z) (store : Storage) : option AuthSession * Storage :=
  default (None, clearAuthSession store) (try_load now store).

(** ** The provider *)

(** The only handler ever configured: [() => logout(true)]. *)
Inductive AuthHandler := LogoutKeepingIntended.

(** A call of [setSession] that waits for the next render. *)
Inductive SessionUpdate :=
| SetSession (next : option AuthSession)
| SyncUser (forToken : ustring) (data : json)
| LocaleUser (requestToken : ustring) (updateVersion : Z) (data : json).

(** Requests in flight, with what their continuations captured. *)
Inductive Pending :=
| PLogin
| PSync (forToken : ustring) (syncVersion : Z) (active : bool)
| PLocale (requestToken : ustring) (updateVersion : Z).

Record AuthState := mkAuth {
  session : option AuthSession;
  preserveIntended : bool;
  localeUpdateVersion : Z;
  apiAuth : ApiAuth AuthHandler;
  store : Storage;
  queryCache : list ustring;
  queue : list SessionUpdate;
  nextPreserve : bool;
  pending : list (nat * Pending);
  nextRequest : nat;
  timer : option Z;
}.

Definition session_token (s : option AuthSession) : option ustring := token <$> s.

(** ToInt32 of the delay of [setTimeout], which runs negative delays at once. *)
Definition to_int32 (n : jsnum) : Z :=
  match n with
  | Fin q => (Qfloor q + 2 ^ 31) mod 2 ^ 32 - 2 ^ 31
  | _ => 0
  end.

(** [Math.max(0, session.expiresAt - Date.now())] *)
Definition remainingMilliseconds (now : Z) (e : jsnum) : jsnum :=
  match e with
  | NaN => NaN
  | Inf negative => if negative then Fin 0 else Inf false
  | Fin q => if Qle_bool q (inject_Z now) then Fin 0 else round64 (q - inject_Z now)%Q
  end.

Definition timer_due (now : Z) (s : AuthSession) : Z :=
  now + Z.max 0 (to_int32 (remainingMilliseconds now (expiresAt s))).

Definition logout (keepIntended : bool) (st : AuthState) : AuthState :=
  {| session := session st; preserveIntended := preserveIntended st;
     localeUpdateVersion := localeUpdateVersion st + 1;
     apiAuth := configureApiAuth None None;
     store := clearAuthSession (store st);
     queryCache := [];
     queue := queue st ++ [SetSession None];
     nextPreserve := keepIntended;
     pending := pending st; nextRequest := nextRequest st; timer := timer st |}.

(** One queued update, run on the session the earlier ones left: the session,
    whether it is a new object, and the store. *)
Definition apply_update (version : Z) (acc : option AuthSession * bool * Storage) (update : SessionUpdate)
  : option AuthSession * bool * Storage :=
  let '(current, fresh, st) := acc in
  let merge (ok : bool) (data : json) :=
    match current with
    | Some s => if ok then let next := mkSession (token s) data (expiresAt s) (restored s) in
                           (Some next, true, saveAuthSession st next)
                else acc
    | None => acc
    end in
  match update with
  | SetSession next => (next, bool_decide (is_Some next) || bool_decide (is_Some current) || fresh, st)
  | SyncUser forToken data => merge (bool_decide (session_token current = Some forToken)) data
  | LocaleUser requestToken updateVersion data =>
      merge (bool_decide (session_token current = Some requestToken) && (version =? updateVersion)) data
  end.

Definition run_queue (version : Z) (updates : list SessionUpdate) (current : option AuthSession) (st : Storage)
  : option AuthSession * bool * Storage :=
  foldl (apply_update version) (current, false, st) updates.

(** The cleanup of the synchronising effect: [active = false]. *)
Definition deactivate (p : nat * Pending) : nat * Pending :=
  match p with
  | (id, PSync t v _) => (id, PSync t v false)
  | p => p
  end.

(** The effects whose dependency is the token. *)
Definition token_effects (newToken : option ustring) (st : AuthState) : AuthState :=
  let old := map deactivate (pending st) in
  let starts := truthy_opt newToken in
  {| session := session st; preserveIntended := preserveIntended st;
     localeUpdateVersion := localeUpdateVersion st;
     apiAuth := configureApiAuth newToken (Some LogoutKeepingIntended);
     store := store st; queryCache := queryCache st; queue := queue st; nextPreserve := nextPreserve st;
     pending := if starts then old ++ [(nextRequest st, PSync (default [] newToken) (localeUpdateVersion st) true)]
                else old;
     nextRequest := if starts then S (nextRequest st) else nextRequest st;
     timer := timer st |}.

(** Rendering: the queue runs, then the effects whose dependencies changed. *)
Definition render (now : Z) (st : AuthState) : AuthState :=
  let '(next, fresh, store') := run_queue (localeUpdateVersion st) (queue st) (session st) (store st) in
  let st1 := {| session := next; preserveIntended := nextPreserve st;
                localeUpdateVersion := localeUpdateVersion st; apiAuth := apiAuth st; store := store';
                queryCache := queryCache st; queue := []; nextPreserve := nextPreserve st;
                pending := pending st; nextRequest := nextRequest st;
                timer := if fresh then timer_due now <$> next else timer st |} in
  if bool_decide (session_token next = session_token (session st)) then st1
  else token_effects (session_token next) st1.

(** The restored session, the credentials it configures, and the store. *)
Definition initializeAuthSession (now : Z) (st : Storage) : option AuthSession * ApiAuth AuthHandler * Storage :=
  let '(s, store') := loadAuthSession now st in (s, configureApiAuth (session_token s) None, store').

(** The first render and its effects. *)
Definition mount (now : Z) (st : Storage) : AuthState :=
  let '(s, auth, store') := initializeAuthSession now st in
  token_effects (session_token s)
    {| session := s; preserveIntended := negb (bool_decide (is_Some s)); localeUpdateVersion := 0;
       apiAuth := auth; store := store'; queryCache := []; queue := [];
       nextPreserve := negb (bool_decide (is_Some s)); pending := []; nextRequest := 0;
       timer := timer_due now <$> s |}.

Record LoginResponse := mkLoginResponse {
  resp_accessToken : ustring;
  resp_user : json;
  resp_expiresIn : Z;
}.

Inductive AuthEvent :=
| CallLogin
| LoginReceived (id : nat) (data : LoginResponse) (now : Z)
| CallUpdateLocale (locale : UserLocale)
| UserReceived (id : nat) (data : json)
| RequestFailed (id : nat) (unauthorized : bool)
| OtherUnauthorized
| CallLogout (keepIntended : bool)
| TimerTick (now : Z)
| CacheQuery (key : ustring).

Fixpoint take_pending (id : nat) (l : list (nat * Pending)) : option (Pending * list (nat * Pending)) :=
  match l with
  | [] => None
  | p :: r => if decide (p.1 = id) then Some (p.2, r)
              else '(q, r') ← take_pending id r; Some (q, p :: r')
  end.

Definition with_pending (l : list (nat * Pending)) (st : AuthState) : AuthState :=
  {| session := session st; preserveIntended := preserveIntended st; localeUpdateVersion := localeUpdateVersion st;
     apiAuth := apiAuth st; store := store st; queryCache := queryCache st; queue := queue st;
     nextPreserve := nextPreserve st; pending := l; nextRequest := nextRequest st; timer := timer st |}.

Definition enqueue (update : SessionUpdate) (st : AuthState) : AuthState :=
  {| session := session st; preserveIntended := preserveIntended st; localeUpdateVersion := localeUpdateVersion st;
     apiAuth := apiAuth st; store := store st; queryCache := queryCache st; queue := queue st ++ [update];
     nextPreserve := nextPreserve st; pending := pending st; nextRequest := nextRequest st; timer := timer st |}.

Definition send_request (version : Z) (p : Pending) (st : AuthState) : AuthState :=
  {| session := session st; preserveIntended := preserveIntended st; localeUpdateVersion := version;
     apiAuth := apiAuth st; store := store st; queryCache := queryCache st; queue := queue st;
     nextPreserve := nextPreserve st; pending := pending st ++ [(nextRequest st, p)];
     nextRequest := S (nextRequest st); timer := timer st |}.

(** What follows [await api.login(request)]. *)
Definition login_received (data : LoginResponse) (now : Z) (st : AuthState) : AuthState :=
  let next := mkSession (resp_accessToken data) (resp_user data) (num_of_Z (now + resp_expiresIn data * 1000)) false in
  {| session := session st; preserveIntended := preserveIntended st;
     localeUpdateVersion := localeUpdateVersion st + 1;
     apiAuth := configureApiAuth (Some (token next)) (Some LogoutKeepingIntended);
     store := saveAuthSession (store st) next; queryCache := queryCache st;
     queue := queue st ++ [SetSession (Some next)]; nextPreserve := false;
     pending := pending st; nextRequest := nextRequest st; timer := timer st |}.

(** [unauthorizedHandler?.()] *)
Definition unauthorized (st : AuthState) : AuthState :=
  match unauthorizedHandler (apiAuth st) with
  | Some LogoutKeepingIntended => logout true st
  | None => st
  end.

(** [updateLocale] up to its request, from the session of the last render. *)
Definition updateLocale (locale : UserLocale) (st : AuthState) : AuthState :=
  match session st with
  | None => st
  | Some s =>
    if bool_decide (as_string (prop (u! "locale") (user s)) = Some (lit_name locale)) then st
    else let version := localeUpdateVersion st + 1 in send_request version (PLocale (token s) version) st
  end.

Definition handle (e : AuthEvent) (st : AuthState) : AuthState :=
  match e with
  | CallLogin => send_request (localeUpdateVersion st) PLogin st
  | LoginReceived id data now =>
    match take_pending id (pending st) with
    | Some (PLogin, rest) => login_received data now (with_pending rest st)
    | _ => st
    end
  | CallUpdateLocale locale => updateLocale locale st
  | UserReceived id data =>
    match take_pending id (pending st) with
    | Some (PSync t v active, rest) =>
      if active && (localeUpdateVersion st =? v) then enqueue (SyncUser t data) (with_pending rest st)
      else with_pending rest st
    | Some (PLocale t v, rest) => enqueue (LocaleUser t v data) (with_pending rest st)
    | _ => st
    end
  | RequestFailed id is401 =>
    match take_pending id (pending st) with
    | Some (_, rest) => if is401 then unauthorized (with_pending rest st) else with_pending rest st
    | None => st
    end
  | OtherUnauthorized => unauthorized st
  | CallLogout keepIntended => logout keepIntended st
  | TimerTick now =>
    match timer st with
    | Some due => if due <=? now then logout true st else st
    | None => st
    end
  | CacheQuery key =>
    {| session := session st; preserveIntended := preserveIntended st; localeUpdateVersion := localeUpdateVersion st;
       apiAuth := apiAuth st; store := store st; queryCache := set_add key (queryCache st); queue := queue st;
       nextPreserve := nextPreserve st; pending := pending st; nextRequest := nextRequest st; timer := timer st |}
  end.

(** ** The route guard *)

Inductive RouteResult := Children | NavigateToLogin (intended : option ustring).

Definition RequireAuth (st : AuthState) (pathname search : ustring) : RouteResult :=
  if truthy_opt (session_token (session st)) && bool_decide (is_Some (session st)) then Children
  else NavigateToLogin (if preserveIntended st then Some (pathname ++ search) else None).

(** ** Runs *)

Inductive Action := Event (e : AuthEvent) | Render (now : Z).

Definition act (st : AuthState) (a : Action) : AuthState :=
  match a with Event e => handle e st | Render now => render now st end.

Definition run (actions : list Action) (st : AuthState) : AuthState := foldl act st actions.

(** The token of the session once the queue has run. *)
Definition queued_token (updates : list SessionUpdate) (t : option ustring) : option ustring :=
  foldl (λ t update, match update with SetSession next => session_token next | _ => t end) t updates.

Arguments queued_token : simpl never.
Arguments session_token : simpl never.
Arguments run_queue : simpl never.

Lemma queued_token_snoc q u t :
  queued_token (q ++ [u]) t = match u with SetSession next => session_token next | _ => queued_token q t end.
Proof. unfold queued_token. by rewrite foldl_app. Qed.

Lemma apply_update_token version acc u :
  session_token (apply_update version acc u).1.1 =
  match u with SetSession next => session_token next | _ => session_token acc.1.1 end.
Proof. destruct acc as [[current fresh] st]. destruct u, current; cbn; repeat case_match; done. Qed.

Lemma run_queue_token version q s st :
  session_token (run_queue version q s st).1.1 = queued_token q (session_token s).
Proof.
  unfold run_queue. change s with ((s, false, st) : option AuthSession * bool * Storage).1.1 at 2.
  generalize (s, false, st). induction q as [|u q IH]; intros acc; cbn; [done|].
  rewrite IH, apply_update_token. by destruct u.
Qed.

(** What a render leaves, before the effects of a new token. *)
Lemma render_session now st :
  session (render now st) = (run_queue (localeUpdateVersion st) (queue st) (session st) (store st)).1.1.
Proof. unfold render. destruct (run_queue _ _ _ _) as [[next fresh] store']. by case_match. Qed.

Lemma render_store now st :
  store (render now st) = (run_queue (localeUpdateVersion st) (queue st) (session st) (store st)).2.
Proof. unfold render. destruct (run_queue _ _ _ _) as [[next fresh] store']. by case_match. Qed.

Lemma render_queue now st : queue (render now st) = [].
Proof. unfold render. destruct (run_queue _ _ _ _) as [[next fresh] store']. by case_match. Qed.

Lemma render_version now st : localeUpdateVersion (render now st) = localeUpdateVersion st.
Proof. unfold render. destruct (run_queue _ _ _ _) as [[next fresh] store']. by case_match. Qed.

Lemma render_token now st :
  session_token (session (render now st)) = queued_token (queue st) (session_token (session st)).
Proof. rewrite render_session. apply run_queue_token. Qed.

Lemma take_pending_elem id l p rest :
  take_pending id l = Some (p, rest) → (id, p) ∈ l ∧ l ≡ₚ (id, p) :: rest.
Proof.
  revert rest. induction l as [|[i q] l IH]; intros rest; cbn; [done|].
  case_decide as E; [intros [= -> <-]; subst; split; [by left|done]|].
  destruct (take_pending id l) as [[q' r']|]; [|done]. cbn. intros [= -> <-].
  destruct (IH r' eq_refl) as [Hin Hp]. split; [by right|]. rewrite Hp. constructor.
Qed.

(** ** The invariant of every interleaving *)

(** The version a request was sent at. *)
Definition request_version (p : Pending) : option Z :=
  match p with PLogin => None | PSync _ v _ => Some v | PLocale _ v => Some v end.

Definition active_token (p : Pending) : option ustring :=
  match p with PSync t _ true => Some t | _ => None end.

Record auth_inv (st : AuthState) : Prop := {
  inv_token : accessToken (apiAuth st) = queued_token (queue st) (session_token (session st));
  inv_versions : Forall (λ p, ∀ v, request_version p.2 = Some v → v ≤ localeUpdateVersion st) (pending st);
  inv_ids : Forall (λ p, (p.1 < nextRequest st)%nat) (pending st);
  inv_active : Forall (λ p, ∀ t, active_token p.2 = Some t → session_token (session st) = Some t) (pending st);
  inv_timer : is_Some (timer st) ↔ is_Some (session st);
}.

Lemma Forall_taken {P : nat * Pending → Prop} id l p rest :
  take_pending id l = Some (p, rest) → Forall P l → Forall P rest.
Proof. intros [_ Hp]%take_pending_elem. rewrite Hp. by intros [_ ?]%Forall_cons. Qed.

Lemma logout_inv keep st : auth_inv st → auth_inv (logout keep st).
Proof.
  intros [H1 H2 H3 H4 H5]. constructor; cbn; try done; [by rewrite queued_token_snoc|].
  eapply Forall_impl; [exact H2|]. intros p Hp v Hv. specialize (Hp v Hv). lia.
Qed.

Lemma with_pending_inv id p rest st :
  take_pending id (pending st) = Some (p, rest) → auth_inv st → auth_inv (with_pending rest st).
Proof. intros Ht [H1 H2 H3 H4 H5]. constructor; cbn; try done; by eapply Forall_taken. Qed.

Lemma enqueue_inv u st :
  match u with SetSession _ => False | _ => True end → auth_inv st → auth_inv (enqueue u st).
Proof.
  intros Hu [H1 H2 H3 H4 H5]. constructor; cbn; try done. rewrite queued_token_snoc. by destruct u.
Qed.

Lemma send_inv version p st :
  localeUpdateVersion st ≤ version → (∀ v, request_version p = Some v → v ≤ version) → active_token p = None →
  auth_inv st → auth_inv (send_request version p st).
Proof.
  intros Hv Hp Ha [H1 H2 H3 H4 H5]. constructor; cbn; try done; (apply Forall_app; split; [|apply Forall_singleton]); cbn.
  - eapply Forall_impl; [exact H2|]. intros q Hq v Hv'. specialize (Hq v Hv'). lia.
  - done.
  - eapply Forall_impl; [exact H3|]. cbn. lia.
  - lia.
  - done.
  - intros t Ht. congruence.
Qed.

Lemma login_inv data now st : auth_inv st → auth_inv (login_received data now st).
Proof.
  intros [H1 H2 H3 H4 H5]. constructor; cbn; try done; [by rewrite queued_token_snoc|].
  eapply Forall_impl; [exact H2|]. intros p Hp v Hv. specialize (Hp v Hv). lia.
Qed.

Lemma unauthorized_inv st : auth_inv st → auth_inv (unauthorized st).
Proof. intros H. unfold unauthorized. case_match; [|done]. case_match. by apply logout_inv. Qed.

Lemma handle_inv e st : auth_inv st → auth_inv (handle e st).
Proof.
  intros Hi. destruct e as [|id data now|locale|id data|id b| |keep|now|key]; cbn [handle].
  - by apply send_inv.
  - destruct (take_pending id _) as [[[] rest]|] eqn:E; try done. eauto using login_inv, with_pending_inv.
  - unfold updateLocale. case_match; [|done]. case_match; [done|]. apply send_inv; cbn; try done; [lia|].
    intros v [= <-]. lia.
  - destruct (take_pending id _) as [[[] rest]|] eqn:E; try done; [|by eapply enqueue_inv, with_pending_inv].
    case_match; [by eapply enqueue_inv, with_pending_inv|by eapply with_pending_inv].
  - destruct (take_pending id _) as [[p rest]|] eqn:E; [|done].
    case_match; [apply unauthorized_inv|]; by eapply with_pending_inv.
  - by apply unauthorized_inv.
  - by apply logout_inv.
  - repeat case_match; try done. by apply logout_inv.
  - destruct Hi. by constructor.
Qed.

Lemma deactivated l : Forall (λ p, ∀ t, active_token p.2 = Some t → False) (map deactivate l).
Proof. apply Forall_fmap, Forall_forall. by intros [i [|t v a|t v]] _ t' Ht. Qed.

Lemma Forall_deactivate (P : nat * Pending → Prop) l :
  (∀ i t v a, P (i, PSync t v a) → P (i, PSync t v false)) → Forall P l → Forall P (map deactivate l).
Proof. intros HP H. apply Forall_fmap. eapply Forall_impl; [exact H|]. intros [i []]; cbn; eauto. Qed.

(** The token effects establish what depends on the token. *)
Lemma token_effects_inv st :
  queue st = [] → (is_Some (timer st) ↔ is_Some (session st)) →
  Forall (λ p, ∀ v, request_version p.2 = Some v → v ≤ localeUpdateVersion st) (pending st) →
  Forall (λ p, (p.1 < nextRequest st)%nat) (pending st) →
  auth_inv (token_effects (session_token (session st)) st).
Proof.
  intros Hq Ht Hv Hn. pose proof (deactivated (pending st)) as Hd.
  assert (Hv' : Forall (λ p, ∀ v, request_version p.2 = Some v → v ≤ localeUpdateVersion st) (map deactivate (pending st)))
    by (by apply Forall_deactivate).
  assert (Hn' : ∀ n, (nextRequest st ≤ n)%nat → Forall (λ p, (p.1 < n)%nat) (map deactivate (pending st))).
  { intros n Hle. apply Forall_deactivate; [done|]. eapply Forall_impl; [exact Hn|]. cbn. lia. }
  constructor; cbn; [by rewrite Hq| | | |done];
    destruct (session_token (session st)) as [t|] eqn:Es; cbn [truthy_opt]; try (destruct (truthy t));
    try (apply Forall_app; split; [|apply Forall_singleton]); cbn; try done; auto; try (eapply Forall_impl; [exact Hd|]; naive_solver);
    try (intros ? [= <-]); done || lia.
Qed.

Lemma apply_update_fresh version acc u s :
  (acc.1.2 = false → acc.1.1 = s) → (apply_update version acc u).1.2 = false → (apply_update version acc u).1.1 = s.
Proof.
  destruct acc as [[current fresh] st]. intros Hs. cbn in Hs.
  destruct u as [next| |]; cbn; [|destruct current; cbn; repeat case_match; cbn; auto; done..].
  destruct next, current; cbn; auto; done.
Qed.

(** A session that is not a new object is the one of the last render. *)
Lemma run_queue_fresh version q s st :
  (run_queue version q s st).1.2 = false → (run_queue version q s st).1.1 = s.
Proof.
  unfold run_queue. assert ((s, false, st).1.2 = false → (s, false, st).1.1 = s) as H by done.
  revert H. generalize (s, false, st). induction q as [|u q IH]; intros acc H; cbn; [done|].
  apply IH. by apply apply_update_fresh.
Qed.

Lemma render_inv now st : auth_inv st → auth_inv (render now st).
Proof.
  intros [H1 H2 H3 H4 H5]. pose proof (render_token now st) as Ht. unfold render in *.
  pose proof (run_queue_fresh (localeUpdateVersion st) (queue st) (session st) (store st)) as Hf.
  destruct (run_queue _ _ _ _) as [[next fresh] store'] eqn:E. cbn in Hf.
  assert (Htimer : is_Some (if fresh then timer_due now <$> next else timer st) ↔ is_Some next).
  { destruct fresh; [apply fmap_is_Some|]. by rewrite Hf. }
  destruct (bool_decide _) eqn:Eb; breflect.
  - constructor; cbn in *; try done.
    + by rewrite Ht.
    + eapply Forall_impl; [exact H4|]. intros p Hp t Hpt. rewrite Eb. by apply Hp.
  - match goal with |- auth_inv (token_effects (session_token next) ?s) =>
      apply (token_effects_inv s); cbn; done end.
Qed.

Lemma act_inv a st : auth_inv st → auth_inv (act st a).
Proof. destruct a; [apply handle_inv|apply render_inv]. Qed.

Lemma run_inv actions st : auth_inv st → auth_inv (run actions st).
Proof. revert st. induction actions as [|a l IH]; intros st H; cbn; [done|]. by apply IH, act_inv. Qed.

Lemma mount_inv now st : auth_inv (mount now st).
Proof.
  unfold mount, initializeAuthSession. destruct (loadAuthSession now st) as [s store'].
  match goal with |- auth_inv (token_effects (session_token s) ?x) => apply (token_effects_inv x) end;
    cbn; try done; [apply fmap_is_Some|constructor..].
Qed.

(** ** Versions only grow, and a request keeps the version it was sent at *)

Record later (st st' : AuthState) : Prop := {
  later_version : localeUpdateVersion st ≤ localeUpdateVersion st';
  later_next : (nextRequest st ≤ nextRequest st')%nat;
  later_old : ∀ id p, (id, p) ∈ pending st' → (id < nextRequest st)%nat →
    ∃ p0, (id, p0) ∈ pending st ∧ request_version p0 = request_version p;
}.

Lemma later_refl st : later st st.
Proof. constructor; [lia..|]. intros id p Hp _. by exists p. Qed.

Lemma later_trans st1 st2 st3 : later st1 st2 → later st2 st3 → later st1 st3.
Proof.
  intros [V1 N1 O1] [V2 N2 O2]. constructor; [lia..|]. intros id p Hp Hid.
  destruct (O2 id p Hp ltac:(lia)) as (p2 & Hp2 & <-). by apply O1.
Qed.

Lemma later_same st st' :
  localeUpdateVersion st ≤ localeUpdateVersion st' → nextRequest st' = nextRequest st →
  (∀ x, x ∈ pending st' → x ∈ pending st) → later st st'.
Proof. intros Hv Hn Hp. constructor; [lia..|]. intros id p Hin _. exists p. auto. Qed.

Lemma later_send version p st : localeUpdateVersion st ≤ version → later st (send_request version p st).
Proof.
  intros Hv. constructor; cbn; [lia..|]. intros id q Hq Hid.
  apply elem_of_app in Hq as [Hq|Hq]; [by exists q|]. apply list_elem_of_singleton in Hq as [= -> ->]. lia.
Qed.

Lemma later_taken id st p rest :
  take_pending id (pending st) = Some (p, rest) → later st (with_pending rest st).
Proof.
  intros [_ Hp]%take_pending_elem. apply later_same; cbn; [lia|done|]. intros x Hx. rewrite Hp. by right.
Qed.

Lemma later_logout keep st : later st (logout keep st).
Proof. apply later_same; cbn; done || lia. Qed.

Lemma later_unauthorized st : later st (unauthorized st).
Proof. unfold unauthorized. repeat case_match; auto using later_refl, later_logout. Qed.

Lemma later_handle e st : later st (handle e st).
Proof.
  destruct e as [|id data now|locale|id data|id b| |keep|now|key]; cbn [handle].
  - by apply later_send.
  - destruct (take_pending id _) as [[[] rest]|] eqn:E; try apply later_refl.
    eapply later_trans; [by eapply later_taken|]. apply later_same; cbn; done || lia.
  - unfold updateLocale. repeat case_match; try apply later_refl. apply later_send. lia.
  - destruct (take_pending id _) as [[[] rest]|] eqn:E; try apply later_refl;
      try case_match; (eapply later_trans; [by eapply later_taken|]); try apply later_refl; by apply later_same.
  - destruct (take_pending id _) as [[p rest]|] eqn:E; [|apply later_refl].
    case_match; [|by eapply later_taken]. eapply later_trans; [by eapply later_taken|apply later_unauthorized].
  - apply later_unauthorized.
  - apply later_logout.
  - repeat case_match; auto using later_refl, later_logout.
  - by apply later_same.
Qed.

Lemma later_token_effects t st : later st (token_effects t st).
Proof.
  assert (∀ id p, (id, p) ∈ map deactivate (pending st) →
    ∃ p0, (id, p0) ∈ pending st ∧ request_version p0 = request_version p) as Hd.
  { intros id p Hp. apply list_elem_of_In, in_map_iff in Hp as ([i q] & Hq & Hin%list_elem_of_In).
    exists q. destruct q; cbn in Hq; injection Hq as -> <-; done. }
  constructor; cbn; [lia|case_match; lia|]. intros id p Hp Hid.
  destruct (truthy_opt t); [|by apply Hd].
  apply elem_of_app in Hp as [Hp|Hp]; [by apply Hd|]. apply list_elem_of_singleton in Hp as [= -> ->]. lia.
Qed.

Lemma later_run actions st : later st (run actions st).
Proof.
  revert st. induction actions as [|a l IH]; intros st; cbn; [apply later_refl|].
  eapply later_trans; [|apply IH]. destruct a as [e|now]; cbn; [apply later_handle|].
  unfold render. destruct (run_queue _ _ _ _) as [[next fresh] store'].
  case_match; [by apply later_same|]. eapply later_trans; [|apply later_token_effects]. by apply later_same.
Qed.

(** ** Claims on every interleaving *)

(** C8: Whatever calls, responses, timers and renders happen after the page is
    loaded, requests carry the token of the newest login, or none after a
    logout, also while that is not rendered yet; and after any render the token
    in use is the session's, a timer runs exactly when there is a session, and
    a synchronisation that may still be applied belongs to that session. *)
Theorem auth_run_invariant now0 stored actions now :
  let st := run actions (mount now0 stored) in
  let rendered := render now st in
  accessToken (apiAuth st) = queued_token (queue st) (session_token (session st)) ∧
  accessToken (apiAuth rendered) = session_token (session rendered) ∧
  (is_Some (timer rendered) ↔ is_Some (session rendered)) ∧
  (∀ id t v, (id, PSync t v true) ∈ pending rendered → session_token (session rendered) = Some t).
Proof.
  intros st rendered. pose proof (run_inv actions _ (mount_inv now0 stored)) as Hi. fold st in Hi.
  pose proof (render_inv now _ Hi) as [Hr _ _ Ha Ht]. fold rendered in Hr, Ha, Ht.
  split_and!; [apply Hi| |done|].
  - rewrite Hr. unfold rendered. by rewrite render_queue.
  - intros id t v Hin. rewrite Forall_forall in Ha. by apply (Ha _ Hin).
Qed.

Definition no_login (a : Action) : Prop := match a with Event (LoginReceived _ _ _) => False | _ => True end.

Definition logged_out (st : AuthState) : Prop :=
  accessToken (apiAuth st) = None ∧ queued_token (queue st) (session_token (session st)) = None.

Lemma logged_out_logout keep st : logged_out (logout keep st).
Proof. split; [done|]. cbn. by rewrite queued_token_snoc. Qed.

Lemma logged_out_handle e st : no_login (Event e) → logged_out st → logged_out (handle e st).
Proof.
  intros Hn Hl. assert (∀ st', logged_out st' → logged_out (unauthorized st')) as Hu.
  { intros st' H. unfold unauthorized. repeat case_match; auto using logged_out_logout. }
  destruct e as [|id data now|locale|id data|id b| |keep|now|key]; cbn [handle]; try done.
  - unfold updateLocale. case_match; [|done]. case_match; [done|exact Hl].
  - destruct (take_pending id _) as [[[] rest]|]; try done; try (case_match; [|exact Hl]);
      (split; [apply Hl|]); cbn; rewrite queued_token_snoc; apply Hl.
  - destruct (take_pending id _) as [[p rest]|]; [|done]. case_match; [apply Hu|]; exact Hl.
  - by apply Hu.
  - apply logged_out_logout.
  - repeat case_match; try done. apply logged_out_logout.
Qed.

Lemma logged_out_render now st : logged_out st → logged_out (render now st).
Proof.
  intros [H1 H2]. pose proof (render_token now st) as Ht. rewrite H2 in Ht.
  split; [|by rewrite render_queue].
  unfold render in *. destruct (run_queue _ _ _ _) as [[next fresh] store']. by case_match.
Qed.

Lemma logged_out_run actions st : Forall no_login actions → logged_out st → logged_out (run actions st).
Proof.
  intros Ha. revert st. induction Ha as [|a l Hn Hl IH]; intros st H; cbn; [done|]. apply IH.
  destruct a; [by apply logged_out_handle|by apply logged_out_render].
Qed.

(** C9: A logout is final: until a login response arrives, no response of a
    request sent before or after it, no timer and no render brings a session
    back; requests carry no token, and the guard sends every route to the
    login page. *)
Theorem logout_is_final keep st actions now pathname search :
  Forall no_login actions →
  let st' := run actions (logout keep st) in
  accessToken (apiAuth st') = None ∧ session (render now st') = None ∧
  ∃ intended, RequireAuth (render now st') pathname search = NavigateToLogin intended.
Proof.
  intros Ha st'. destruct (logged_out_run actions (logout keep st) Ha (logged_out_logout keep st)) as [H1 H2].
  fold st' in H1, H2. pose proof (render_token now st') as Ht. rewrite H2 in Ht.
  assert (session (render now st') = None) as Hs by (by destruct (session (render now st'))).
  split_and!; [done..|]. unfold RequireAuth. rewrite Hs. by eexists.
Qed.

(** A response that was overtaken is ignored: when a login, a logout or a
    newer change of language has happened since its request was sent, receiving
    the user has no effect on the session or on the stored session. *)
Theorem superseded_response_ignored now0 stored actions actions' id data now :
  let st := run actions (mount now0 stored) in
  let st' := run actions' st in
  (id < nextRequest st)%nat → localeUpdateVersion st < localeUpdateVersion st' →
  let answered := handle (UserReceived id data) st' in
  session (render now answered) = session (render now st') ∧ store (render now answered) = store (render now st').
Proof.
  intros st st' Hid Hv answered. pose proof (run_inv actions _ (mount_inv now0 stored)) as Hi. fold st in Hi.
  pose proof (later_run actions' st) as [_ _ Hold]. fold st' in Hold.
  unfold answered. cbn [handle]. destruct (take_pending id (pending st')) as [[p rest]|] eqn:E; [|done].
  destruct (take_pending_elem _ _ _ _ E) as [Hin _]. destruct (Hold id p Hin Hid) as (p0 & Hp0 & Hver).
  destruct Hi as [_ Hvs _ _ _]. rewrite Forall_forall in Hvs. specialize (Hvs _ Hp0). cbn in Hvs. rewrite Hver in Hvs.
  rewrite !render_session, !render_store. destruct p as [|t v a|t v]; [done| |]; specialize (Hvs v eq_refl).
  - assert ((localeUpdateVersion st' =? v) = false) as -> by lia. rewrite andb_false_r. done.
  - cbn. unfold run_queue. rewrite foldl_app. cbn [foldl].
    destruct (foldl _ _ (queue st')) as [[current fresh] store']. cbn.
    assert ((localeUpdateVersion st' =? v) = false) as -> by lia. rewrite andb_false_r. by destruct current.
Qed.

(** ** Sessions of the contract *)

Definition lit_of `{Literal A} (v : option json) : option A := s ← as_string v; lit_find lit_values s.

(** The user an object describes. *)
Definition user_view (v : json) : option UserDto :=
  n ← as_number (prop (u! "userId") v); id ← to_integer n;
  loginId ← as_string (prop (u! "loginId") v); name ← as_string (prop (u! "name") v);
  role ← lit_of (prop (u! "role") v); status ← lit_of (prop (u! "status") v);
  locale ← lit_of (prop (u! "locale") v);
  Some (mkUserDto locale loginId name role status id).

Definition session_view (s : AuthSession) : ustring * option UserDto * jsnum :=
  (token s, user_view (user s), expiresAt s).

Definition user_ok (v : json) : Prop := json_wf v ∧ is_Some (user_view v).

Record session_ok (s : AuthSession) : Prop := {
  so_token : units (token s);
  so_user : user_ok (user s);
  so_expiry : ∃ e, expiresAt s = num_of_Z e ∧ Z.abs e ≤ max_safe;
}.

Lemma lit_of_Some `{Literal A} v (a : A) : lit_of v = Some a → v = Some (JStr (lit_name a)).
Proof.
  unfold lit_of. destruct v as [[| | |s| |]|]; try done. cbn. intros [_ ->]%lit_find_Some. done.
Qed.

Lemma lit_of_name `{Literal A} (a : A) : lit_of (Some (JStr (lit_name a))) = Some a.
Proof. unfold lit_of. cbn. apply lit_find_Some. split; [apply lit_complete|done]. Qed.

Lemma isUserLocale_lit v : isUserLocale v = lit_of v.
Proof. by destruct v as [[]|]. Qed.

Lemma bind_Some' {A B} (f : A → option B) (o : option A) b : (o ≫= f) = Some b → ∃ a, o = Some a ∧ f a = Some b.
Proof. destruct o; [|done]. eauto. Qed.

(** The fields that [user_view] reads, as the object holds them. *)
Lemma user_view_fields v d :
  user_view v = Some d →
  isRecord v = true ∧
  (∃ n, prop (u! "userId") v = Some (JNum n) ∧ to_integer n = Some (user_userId d)) ∧
  prop (u! "loginId") v = Some (JStr (user_loginId d)) ∧ prop (u! "name") v = Some (JStr (user_name d)) ∧
  prop (u! "role") v = Some (JStr (lit_name (user_role d))) ∧
  prop (u! "status") v = Some (JStr (lit_name (user_status d))) ∧
  prop (u! "locale") v = Some (JStr (lit_name (user_locale d))).
Proof.
  assert (∀ o s, as_string o = Some s → o = Some (JStr s)) as Hs by (intros [[]|] ?; naive_solver).
  assert (∀ o n, as_number o = Some n → o = Some (JNum n)) as Hn by (intros [[]|] ?; naive_solver).
  unfold user_view. intros H. apply bind_Some' in H as (n & E1%Hn & H). apply bind_Some' in H as (id & E2 & H).
  apply bind_Some' in H as (l & E3%Hs & H). apply bind_Some' in H as (nm & E4%Hs & H).
  apply bind_Some' in H as (r & E5%lit_of_Some & H). apply bind_Some' in H as (st & E6%lit_of_Some & H).
  apply bind_Some' in H as (lo & E7%lit_of_Some & H). injection H as <-. cbn.
  split_and!; try done; [|by exists n]. by destruct v.
Qed.

Lemma role_allowed (r : UserRole) : str_in (lit_name r) [u! "ADMIN"; u! "ANALYST"; u! "VIEWER"] = true.
Proof. by destruct r; vm_compute. Qed.
Lemma status_allowed (s : UserStatus) : str_in (lit_name s) [u! "ACTIVE"; u! "DISABLED"] = true.
Proof. by destruct s; vm_compute. Qed.

Lemma hasUserDtoFields_ok v d : user_view v = Some d → hasUserDtoFields v = Some true.
Proof.
  intros (Hr & (n & E1 & _) & E2 & E3 & E4 & E5 & _)%user_view_fields.
  unfold hasUserDtoFields. rewrite Hr, E1, E2, E3, E4, E5. cbn [negb as_number as_string String_opt js_String].
  cbn [mbind option_bind]. by rewrite role_allowed, status_allowed.
Qed.

Lemma isUserDto_ok v d : user_view v = Some d → isUserDto v = Some true.
Proof.
  intros H. unfold isUserDto. rewrite (hasUserDtoFields_ok v d H). cbn.
  destruct (user_view_fields v d H) as (_ & _ & _ & _ & _ & _ & E). rewrite isUserLocale_lit, E, lit_of_name. done.
Qed.

Lemma literal_units `{Literal A} (a : A) : (∀ b, b ∈ lit_values → units (lit_name b)) → units (lit_name a).
Proof. intros H'. apply H', lit_complete. Qed.

(** The object [normalizeUserDto] builds for a user. *)
Definition user_object (n : jsnum) (d : UserDto) : json :=
  JObj [(u! "userId", JNum n); (u! "loginId", JStr (user_loginId d)); (u! "name", JStr (user_name d));
        (u! "role", JStr (lit_name (user_role d))); (u! "status", JStr (lit_name (user_status d)));
        (u! "locale", JStr (lit_name (user_locale d)))].

Lemma user_object_view n d : to_integer n = Some (user_userId d) → user_view (user_object n d) = Some d.
Proof.
  intros Hn. unfold user_view. change (prop (u! "userId") (user_object n d)) with (Some (JNum n)). cbn [as_number mbind option_bind].
  rewrite Hn. cbn [mbind option_bind].
  change (prop (u! "loginId") (user_object n d)) with (Some (JStr (user_loginId d))).
  change (prop (u! "name") (user_object n d)) with (Some (JStr (user_name d))). cbn [as_string mbind option_bind].
  change (prop (u! "role") (user_object n d)) with (Some (JStr (lit_name (user_role d)))).
  change (prop (u! "status") (user_object n d)) with (Some (JStr (lit_name (user_status d)))).
  change (prop (u! "locale") (user_object n d)) with (Some (JStr (lit_name (user_locale d)))).
  rewrite !lit_of_name. cbn. by destruct d.
Qed.

Lemma normalizeUserDto_ok v d :
  user_view v = Some d → ∃ n, prop (u! "userId") v = Some (JNum n) ∧ to_integer n = Some (user_userId d) ∧
    normalizeUserDto v = Some (Some (user_object n d)).
Proof.
  intros H. unfold normalizeUserDto. rewrite (hasUserDtoFields_ok v d H). cbn [mbind option_bind].
  destruct (user_view_fields v d H) as (_ & (n & E1 & Hn) & E2 & E3 & E4 & E5 & E6). exists n. split_and!; [done..|].
  rewrite isUserLocale_lit, E1, E2, E3, E4, E5, E6, lit_of_name. done.
Qed.

Lemma prop_wf k v w : json_wf v → prop k v = Some w → json_wf w.
Proof.
  destruct v as [| | | | |fs]; try done. intros [_ Hf]%json_wf_obj Hg%map_get_Some_elem.
  rewrite Forall_forall in Hf. by apply (Hf _ Hg).
Qed.

Lemma user_object_wf v n d :
  json_wf v → user_view v = Some d → prop (u! "userId") v = Some (JNum n) → json_wf (user_object n d).
Proof.
  intros Hw (_ & _ & E2 & E3 & E4 & E5 & E6)%user_view_fields E1. apply json_wf_obj. split.
  - by_compute.
  - pose proof (prop_wf _ _ _ Hw E1). pose proof (prop_wf _ _ _ Hw E2). pose proof (prop_wf _ _ _ Hw E3).
    pose proof (prop_wf _ _ _ Hw E4). pose proof (prop_wf _ _ _ Hw E5). pose proof (prop_wf _ _ _ Hw E6).
    repeat (apply Forall_cons; split; [split; [by_compute|done]|]). by apply Forall_nil.
Qed.

Lemma user_object_ok v n d :
  user_ok v → user_view v = Some d → prop (u! "userId") v = Some (JNum n) → to_integer n = Some (user_userId d) →
  user_ok (user_object n d).
Proof.
  intros [Hw _] Hv E Hn. split; [by eapply user_object_wf|]. rewrite user_object_view by done. by eexists.
Qed.

(** ** What a reload restores *)

Lemma session_json_wf s : session_ok s → json_wf (session_json s).
Proof.
  intros [Ht [Hu _] (e & He & Hb)]. unfold session_json.
  assert (json_wf (JNum (expiresAt s))) by (cbn; rewrite He; by exists e).
  destruct (restored s); (apply json_wf_obj; split; [by_compute|]);
    repeat (apply Forall_cons; split; [split; [by_compute|done]|]); by apply Forall_nil.
Qed.

Lemma session_json_props s :
  isRecord (session_json s) = true ∧ prop (u! "token") (session_json s) = Some (JStr (token s)) ∧
  prop (u! "expiresAt") (session_json s) = Some (JNum (expiresAt s)) ∧
  prop (u! "user") (session_json s) = Some (user s).
Proof. unfold session_json. destruct (restored s); by vm_compute. Qed.

Lemma normalizeAuthSession_ok s :
  session_ok s → ∃ s', normalizeAuthSession (session_json s) = Some (Some s') ∧ session_ok s' ∧
    session_view s' = session_view s ∧ isAuthSession (session_json s) = Some true.
Proof.
  intros Hs. destruct (session_json_props s) as (Er & Et & Ee & Eu). destruct (so_user s Hs) as [Hw [d Hd]].
  destruct (normalizeUserDto_ok _ _ Hd) as (n & En & Hn & Hnorm).
  exists (mkSession (token s) (user_object n d) (expiresAt s) true). unfold normalizeAuthSession, isAuthSession.
  rewrite Er, Et, Ee, Eu. cbn [negb as_string as_number]. rewrite Hnorm. split_and!; [done| | |].
  - destruct Hs as [H1 H2 H3]. constructor; [done| |done]. by eapply user_object_ok.
  - unfold session_view. cbn. by rewrite (user_object_view n d Hn), Hd.
  - by eapply isUserDto_ok.
Qed.

(** The stored text of a session. *)
Definition stores (st : Storage) (s : AuthSession) : Prop :=
  map_get AUTH_SESSION_KEY (items st) = stringify (session_json s).

Lemma save_stores st s : reliable st → stores (saveAuthSession st s) s ∧ reliable (saveAuthSession st s).
Proof.
  intros [Hg Hs]. unfold saveAuthSession, stores. destruct (stringify_Some (session_json s)) as [t Ht].
  rewrite Ht. unfold setItem. rewrite Hs. cbn. by rewrite map_get_set_eq.
Qed.

Lemma clear_clears st :
  reliable st → map_get AUTH_SESSION_KEY (items (clearAuthSession st)) = None ∧ reliable (clearAuthSession st).
Proof.
  intros [Hg Hs]. unfold clearAuthSession, removeItem. rewrite Hg. cbn. by rewrite map_get_delete_eq.
Qed.

Lemma stored_truthy v t : stringify v = Some t → truthy t = true.
Proof. intros (c & r & -> & _)%stringify_start. done. Qed.

Lemma load_stored now st s :
  reliable st → session_ok s → stores st s →
  if num_le (expiresAt s) now then loadAuthSession now st = (None, clearAuthSession st)
  else ∃ s', loadAuthSession now st = (Some s', st) ∧ session_ok s' ∧ session_view s' = session_view s.
Proof.
  intros [Hg Hset] Hs Hst. unfold loadAuthSession, try_load, getItem. rewrite Hg. cbn [mbind option_bind].
  destruct (stringify_Some (session_json s)) as [t Ht]. unfold stores in Hst. rewrite Hst, Ht.
  rewrite (stored_truthy _ _ Ht), (JSON_parse_stringify _ _ (session_json_wf s Hs) Ht). cbn [mbind option_bind].
  destruct (normalizeAuthSession_ok s Hs) as (s' & -> & Hs' & Hv & ->). cbn [mbind option_bind].
  assert (expiresAt s' = expiresAt s) as -> by (unfold session_view in Hv; congruence).
  destruct (num_le (expiresAt s) now).
  - unfold clearAuthSession, removeItem. by rewrite Hg.
  - by exists s'.
Qed.

Lemma load_nothing now st :
  map_get AUTH_SESSION_KEY (items st) = None → get_throws st = false → loadAuthSession now st = (None, st).
Proof. intros Hm Hg. unfold loadAuthSession, try_load, getItem. rewrite Hg. cbn. by rewrite Hm. Qed.

(** What is saved is what a reload restores: after saving a session whose
    user has the contract's fields, loading gives a session with the same token,
    the same user and the same expiry while it has not expired, and leaves the
    store alone; once it has expired, loading gives none and removes it. *)
Theorem loadAuthSession_saveAuthSession now st s :
  reliable st → session_ok s →
  let st' := saveAuthSession st s in
  if num_le (expiresAt s) now
  then (loadAuthSession now st').1 = None ∧
       map_get AUTH_SESSION_KEY (items (loadAuthSession now st').2) = None
  else ∃ s', loadAuthSession now st' = (Some s', st') ∧ session_ok s' ∧ session_view s' = session_view s.
Proof.
  intros Hr Hs st'. destruct (save_stores st s Hr) as [Hst Hr']. fold st' in Hst, Hr'.
  pose proof (load_stored now st' s Hr' Hs Hst) as Hl. destruct (num_le _ _); [|done].
  rewrite Hl. split; [done|]. by apply clear_clears.
Qed.

(** ** Untrusted storage *)

Lemma normalizeUserDto_sound v w :
  normalizeUserDto v = Some (Some w) → isUserDto w = Some true.
Proof.
  unfold normalizeUserDto. destruct (hasUserDtoFields v) as [[]|] eqn:Hf; try done.
  cbn [mbind option_bind]. set (l := default Locale_EN _). intros [= <-]. revert Hf.
  unfold hasUserDtoFields. destruct (isRecord v); [|done]. cbn [negb].
  destruct (prop (u! "userId") v) as [[| |n| | |]|]; try done.
  destruct (prop (u! "loginId") v) as [[| | |s1| |]|]; try done.
  destruct (prop (u! "name") v) as [[| | |s2| |]|]; try done. cbn [as_number as_string].
  destruct (String_opt (prop (u! "role") v)) as [r|] eqn:Er; [|done]. cbn [mbind option_bind].
  destruct (str_in r _) eqn:Ei; [|done].
  destruct (String_opt (prop (u! "status") v)) as [s|] eqn:Es; [|done]. cbn [mbind option_bind].
  intros [= Hs]. unfold isUserDto.
  set (w := JObj _). assert (hasUserDtoFields w = Some true) as ->.
  { unfold hasUserDtoFields. subst w. cbn [isRecord negb].
    change (as_number (prop (u! "userId") _)) with (Some n). change (as_string (prop (u! "loginId") _)) with (Some s1).
    change (as_string (prop (u! "name") _)) with (Some s2). cbv iota.
    change (prop (u! "role") (JObj _)) with (Some (got (prop (u! "role") v))).
    change (prop (u! "status") (JObj _)) with (Some (got (prop (u! "status") v))). cbn [String_opt].
    destruct (prop (u! "role") v) as [jr|]; [|by injection Er as <-; vm_compute in Ei].
    destruct (prop (u! "status") v) as [js|]; [|by injection Es as <-; vm_compute in Hs].
    change (got (Some jr)) with jr. change (got (Some js)) with js. cbn [String_opt] in Er, Es.
    rewrite Er. cbn [mbind option_bind]. rewrite Ei, Es. cbn [mbind option_bind]. by rewrite Hs. }
  cbn [mbind option_bind andb]. subst w. change (prop (u! "locale") (JObj _)) with (Some (JStr (lit_name l))).
  rewrite isUserLocale_lit, lit_of_name. done.
Qed.

Lemma normalizeAuthSession_sound v s :
  normalizeAuthSession v = Some (Some s) → isUserDto (user s) = Some true.
Proof.
  unfold normalizeAuthSession. destruct (isRecord v); [|done]. cbn [negb].
  destruct (as_string _) as [t|]; [|done]. destruct (as_number _) as [e|]; [|done].
  destruct (prop (u! "user") v) as [w|]; [|done]. destruct (normalizeUserDto w) as [[w'|]|] eqn:E; try done.
  intros [= <-]. by eapply normalizeUserDto_sound.
Qed.

Lemma clear_or st : reliable st → map_get AUTH_SESSION_KEY (items (clearAuthSession st)) = None.
Proof. intros H. by apply clear_clears. Qed.

(** Loading never trusts the store: whatever text it holds, and also when
    reading or parsing throws, a session that is restored has not expired and
    its user has the fields of the contract; and when nothing is restored from
    a working store, the store holds no session text afterwards. *)
Theorem loadAuthSession_sound now st :
  match loadAuthSession now st with
  | (Some s, _) => num_le (expiresAt s) now = false ∧ isUserDto (user s) = Some true
  | (None, st') => reliable st → map_get AUTH_SESSION_KEY (items st') = None ∨
                                 map_get AUTH_SESSION_KEY (items st') = Some []
  end.
Proof.
  unfold loadAuthSession, try_load. destruct (getItem st AUTH_SESSION_KEY) as [raw|] eqn:Eg.
  2: { cbn. intros [Hg _]. unfold getItem in Eg. by rewrite Hg in Eg. }
  assert (raw = map_get AUTH_SESSION_KEY (items st)) as Hraw
    by (unfold getItem in Eg; case_match; naive_solver).
  assert (Hremove : match default (None, clearAuthSession st)
      (store' ← removeItem st AUTH_SESSION_KEY; Some (None : option AuthSession, store')) with
    | (Some _, _) => False
    | (None, st') => reliable st → map_get AUTH_SESSION_KEY (items st') = None ∨ map_get AUTH_SESSION_KEY (items st') = Some []
    end).
  { destruct (removeItem st AUTH_SESSION_KEY) as [st'|] eqn:E; cbn.
    - intros Hr. left. pose proof (clear_or st Hr) as H. unfold clearAuthSession in H. by rewrite E in H.
    - intros Hr. left. by apply clear_or. }
  cbn [mbind option_bind]. destruct raw as [text|]; [|cbn; auto].
  destruct (truthy text) eqn:Et; [|cbn; intros; right; rewrite <- Hraw; by destruct text].
  destruct (JSON_parse text) as [v|]; [|cbn; auto using clear_or]. cbn [mbind option_bind].
  destruct (normalizeAuthSession v) as [[s|]|] eqn:En; [| |cbn; auto using clear_or]; cbn [mbind option_bind].
  - destruct (num_le (expiresAt s) now) eqn:El.
    + by destruct (default _ _) as [[s'|] st'].
    + destruct (isAuthSession v); [|cbn; auto using clear_or]. cbn. split; [done|]. by eapply normalizeAuthSession_sound.
  - by destruct (default _ _) as [[s'|] st'].
Qed.

(** ** Prompt rendering *)

(** Events that carry data of the contract. *)
Definition event_ok (e : AuthEvent) : Prop :=
  match e with
  | LoginReceived _ data now =>
      units (resp_accessToken data) ∧ user_ok (resp_user data) ∧ Z.abs (now + resp_expiresIn data * 1000) ≤ max_safe
  | UserReceived _ data => user_ok data
  | _ => True
  end.

(** Each event is rendered before the next one. *)
Inductive prompt_reachable (stored : Storage) : AuthState → Prop :=
| prompt_mount now : prompt_reachable stored (mount now stored)
| prompt_event st e now : prompt_reachable stored st → event_ok e → prompt_reachable stored (render now (handle e st)).

(** The store holds the session, or a text that stands for it. *)
Definition coherent (current : option AuthSession) (st : Storage) : Prop :=
  reliable st ∧
  match current with
  | None => map_get AUTH_SESSION_KEY (items st) = None
  | Some s => session_ok s ∧ ∃ s0, session_ok s0 ∧ session_view s0 = session_view s ∧ stores st s0
  end.

Lemma coherent_saved st s : reliable st → session_ok s → coherent (Some s) (saveAuthSession st s).
Proof. intros Hr Hs. destruct (save_stores st s Hr) as [Hst Hr']. split; [done|]. split; [done|]. by exists s. Qed.

Lemma coherent_cleared current st : coherent current st → coherent None (clearAuthSession st).
Proof. intros [Hr _]. destruct (clear_clears st Hr). by split. Qed.

(** What the next render will leave. *)
Definition settles (st : AuthState) : Prop :=
  let r := run_queue (localeUpdateVersion st) (queue st) (session st) (store st) in coherent r.1.1 r.2.

Lemma merged_settles u st :
  queue st = [] → coherent (session st) (store st) →
  match u with SetSession _ => False | SyncUser _ d | LocaleUser _ _ d => user_ok d end → settles (enqueue u st).
Proof.
  intros Hq Hc Hu. unfold settles, run_queue. cbn [queue enqueue localeUpdateVersion session store]. rewrite Hq. cbn [app foldl].
  generalize (localeUpdateVersion st). intros version.
  destruct u as [|t d|t v d]; [done| |]; cbn; (destruct (session st) as [s|]; [|done]);
    case_match; try done; destruct Hc as [Hr [[H1 H2 H3] _]]; by apply coherent_saved.
Qed.

Lemma logout_settles keep st : queue st = [] → coherent (session st) (store st) → settles (logout keep st).
Proof. intros Hq Hc. unfold settles, run_queue. cbn. rewrite Hq. cbn. by eapply coherent_cleared. Qed.

Lemma login_settles data now st :
  queue st = [] → coherent (session st) (store st) → event_ok (LoginReceived 0 data now) →
  settles (login_received data now st).
Proof.
  intros Hq [Hr _] (Ht & Hu & He). unfold settles, run_queue. cbn. rewrite Hq. cbn. apply coherent_saved; [done|].
  constructor; cbn; [done..|]. by eexists.
Qed.

Lemma idle_settles st : queue st = [] → coherent (session st) (store st) → settles st.
Proof. intros Hq Hc. unfold settles. by rewrite Hq. Qed.

Lemma handle_settles e st :
  queue st = [] → coherent (session st) (store st) → event_ok e → settles (handle e st).
Proof.
  intros Hq Hc He. pose proof (idle_settles st Hq Hc) as Hidle.
  destruct e as [|id data now|locale|id data|id b| |keep|now|key]; cbn [handle].
  - by apply idle_settles.
  - destruct (take_pending id _) as [[[] rest]|]; try done. by apply login_settles.
  - unfold updateLocale. destruct (session st) eqn:Es; [|done]. case_match; [done|]. apply idle_settles; [done|]. cbn. by rewrite Es.
  - destruct (take_pending id _) as [[[] rest]|]; try done; [|by apply merged_settles].
    case_match; [by apply merged_settles|by apply idle_settles].
  - destruct (take_pending id _) as [[p rest]|]; [|done]. case_match; [|by apply idle_settles].
    unfold unauthorized. repeat case_match; [by apply logout_settles|by apply idle_settles].
  - unfold unauthorized. repeat case_match; [by apply logout_settles|done].
  - by apply logout_settles.
  - repeat case_match; try done. by apply logout_settles.
  - by apply idle_settles.
Qed.

(** A store that holds nothing, or the text of a session of the contract. *)
Definition stored_ok (stored : Storage) : Prop :=
  reliable stored ∧ (map_get AUTH_SESSION_KEY (items stored) = None ∨ ∃ s, session_ok s ∧ stores stored s).

Lemma mount_coherent now stored :
  stored_ok stored → queue (mount now stored) = [] ∧ coherent (session (mount now stored)) (store (mount now stored)).
Proof.
  intros [Hr Hs]. assert (coherent (loadAuthSession now stored).1 (loadAuthSession now stored).2) as Hc.
  { destruct Hs as [Hn|(s & Hok & Hst)]; [rewrite load_nothing by (done || apply Hr); by split|].
    pose proof (load_stored now stored s Hr Hok Hst) as Hl. destruct (num_le _ _).
    - rewrite Hl. cbn. destruct (clear_clears stored Hr). by split.
    - destruct Hl as (s' & -> & Hs' & Hv). split; [done|]. split; [done|]. by exists s. }
  unfold mount, initializeAuthSession. by destruct (loadAuthSession now stored) as [s store'].
Qed.

Lemma prompt_coherent stored st :
  stored_ok stored → prompt_reachable stored st → queue st = [] ∧ coherent (session st) (store st).
Proof.
  intros Hst. induction 1 as [now|st e now Hr [Hq Hc] He]; [by apply mount_coherent|].
  split; [apply render_queue|]. rewrite render_session, render_store. by apply handle_settles.
Qed.

(** C10: Memory and storage agree, as long as the storage works. Take a session storage
    whose reads and writes never throw and that holds nothing or a session of the contract
    when the page is loaded, and let every event be rendered before the next one, with
    login answers and users that have the form the contract gives them (a text for the token,
    the fields of a user, an expiry in milliseconds below 2^53). Then reloading the page at
    any moment restores the same token, user and expiry as the session in memory has while
    it is valid, and nothing when it has expired or when there is no session. *)
Theorem reload_restores_session stored st now :
  stored_ok stored → prompt_reachable stored st →
  match session st with
  | Some s =>
      if num_le (expiresAt s) now then (loadAuthSession now (store st)).1 = None
      else ∃ s', (loadAuthSession now (store st)).1 = Some s' ∧ session_view s' = session_view s
  | None => (loadAuthSession now (store st)).1 = None
  end.
Proof.
  intros Hst Hr. destruct (prompt_coherent stored st Hst Hr) as (_ & Hrel & Hc).
  destruct (session st) as [s|]; [|rewrite load_nothing by (done || apply Hrel); done].
  destruct Hc as (Hs & s0 & Hs0 & Hv & Hstore). pose proof (load_stored now _ s0 Hrel Hs0 Hstore) as Hl.
  assert (expiresAt s0 = expiresAt s) as He by (unfold session_view in Hv; congruence). rewrite He in Hl.
  destruct (num_le _ _); [by rewrite Hl|]. destruct Hl as (s' & -> & _ & Hv'). exists s'. split; [done|]. congruence.
Qed.

(** ** The expiry timer *)

Lemma inject_Z_minus a b : (inject_Z a - inject_Z b)%Q = inject_Z (a - b).
Proof. unfold Qminus, Qplus, Qopp, inject_Z. cbn. f_equal; lia. Qed.

Lemma timer_delay now e :
  Z.abs now ≤ 2 ^ 52 → Z.abs e ≤ 2 ^ 52 →
  remainingMilliseconds now (num_of_Z e) = Fin (inject_Z (Z.max 0 (e - now))).
Proof.
  intros Hn He. unfold remainingMilliseconds, num_of_Z. destruct (Qle_bool _ _) eqn:E.
  - apply Qle_bool_iff in E. rewrite <- Zle_Qle in E. by rewrite Z.max_l by lia.
  - assert (¬ e ≤ now) as Hlt by (intros Hle; rewrite Zle_Qle, <- Qle_bool_iff in Hle; congruence).
    rewrite inject_Z_minus, round64_safe by lia. by rewrite Z.max_r by lia.
Qed.

Lemma to_int32_nat n : 0 ≤ n → to_int32 (Fin (inject_Z n)) ≤ n ∧ (n < 2 ^ 31 → to_int32 (Fin (inject_Z n)) = n).
Proof.
  intros Hn. unfold to_int32. rewrite Qfloor_Z. split.
  - pose proof (Z.mod_le (n + 2 ^ 31) (2 ^ 32) ltac:(lia) ltac:(lia)). lia.
  - intros Hlt. rewrite Z.mod_small by lia. lia.
Qed.

(** For a session that expires at a whole millisecond, the timer set when it
    is rendered is never due after the expiry, is due exactly then (at once for
    a session that has expired) when less than 2^31 milliseconds remain, and
    when the clock reaches it the session is gone. *)
Theorem timer_due_spec now s e :
  expiresAt s = num_of_Z e → Z.abs now ≤ 2 ^ 52 → Z.abs e ≤ 2 ^ 52 →
  now ≤ timer_due now s ≤ Z.max now e ∧
  (e - now < 2 ^ 31 → timer_due now s = Z.max now e) ∧
  ∀ st t, timer st = Some (timer_due now s) → Z.max now e ≤ t →
    session (render t (handle (TimerTick t) st)) = None.
Proof.
  intros He Hn Hb. unfold timer_due. rewrite He, timer_delay by done.
  destruct (to_int32_nat (Z.max 0 (e - now)) ltac:(lia)) as [Hle Heq].
  split_and!; [lia|lia|intros Hlt; rewrite Heq; lia|]. intros st t Ht Hmax. cbn [handle]. rewrite Ht.
  destruct (Z.leb_spec (now + Z.max 0 (to_int32 (Fin (inject_Z (Z.max 0 (e - now)))))) t); [|lia].
  assert (session_token (session (render t (logout true st))) = None) as Hs.
  { rewrite render_token. cbn. by rewrite queued_token_snoc. }
  by destruct (session (render t (logout true st))).
Qed.

(** ** Witnesses and what batching and long sessions do *)

Definition sample_user : UserDto := mkUserDto Locale_KO (u! "analyst") (u! "Kim") Role_ANALYST User_ACTIVE 7.
Definition sample_user_json : json := user_object (num_of_Z 7) sample_user.
Definition sample_session : AuthSession := mkSession (u! "tok") sample_user_json (num_of_Z 5000) false.
Definition empty_store : Storage := mkStorage [] false (λ _ _, false).
Definition sample_store : Storage := saveAuthSession empty_store sample_session.

Lemma empty_store_reliable : reliable empty_store.
Proof. by split. Qed.

Lemma sample_user_ok : user_ok sample_user_json.
Proof.
  split; [|by eexists]. apply json_wf_obj. split; [by_compute|].
  repeat (apply Forall_cons; split; [split; [by_compute|]|]); try by apply Forall_nil.
  1: by exists 7. all: by_compute.
Qed.

Lemma sample_session_ok : session_ok sample_session.
Proof. constructor; [by_compute|apply sample_user_ok|by exists 5000]. Qed.

Lemma loadAuthSession_saveAuthSession_witness :
  ∃ s', loadAuthSession 100 sample_store = (Some s', sample_store) ∧ session_ok s' ∧
    session_view s' = (u! "tok", Some sample_user, num_of_Z 5000).
Proof.
  exact (loadAuthSession_saveAuthSession 100 empty_store sample_session empty_store_reliable sample_session_ok).
Defined.

Lemma logout_is_final_witness :
  session (render 9 (run [Event (UserReceived 0 sample_user_json); Render 8] (logout false (mount 0 sample_store)))) = None.
Proof.
  apply (logout_is_final false (mount 0 sample_store) [Event (UserReceived 0 sample_user_json); Render 8] 9 (u! "/") []).
  by repeat constructor.
Defined.

Lemma superseded_response_ignored_witness :
  session (render 9 (handle (UserReceived 0 sample_user_json)
    (run [Event (CallUpdateLocale Locale_EN)] (run [] (mount 0 sample_store))))) =
  session (render 9 (run [Event (CallUpdateLocale Locale_EN)] (run [] (mount 0 sample_store)))).
Proof.
  refine (proj1 (superseded_response_ignored 0 sample_store [] [Event (CallUpdateLocale Locale_EN)] 0
    sample_user_json 9 _ _)); vm_compute; [lia|done].
Defined.

(** After a login: before the expiry a reload restores the session, afterwards nothing. *)
Definition sample_login : AuthState :=
  render 1 (handle (LoginReceived 0 (mkLoginResponse (u! "t") sample_user_json 60) 1) (render 0 (handle CallLogin (mount 0 empty_store)))).

Lemma reload_restores_session_witness :
  (∃ s, session sample_login = Some s ∧ ∃ s', (loadAuthSession 10 (store sample_login)).1 = Some s' ∧ session_view s' = session_view s) ∧
  (loadAuthSession 70000 (store sample_login)).1 = None ∧
  (loadAuthSession 10 (store (render 1 (handle (CallLogout false) (mount 0 sample_store))))).1 = None.
Proof.
  assert (stored_ok empty_store) as Hempty by (split; [by split|by left]).
  assert (prompt_reachable empty_store sample_login) as Hr.
  { apply prompt_event; [apply prompt_event; [apply prompt_mount|exact I]|].
    split; [by_compute|]. split; [apply sample_user_ok|by vm_compute]. }
  pose proof (reload_restores_session empty_store sample_login 10 Hempty Hr) as H10.
  pose proof (reload_restores_session empty_store sample_login 70000 Hempty Hr) as H70.
  pose proof (reload_restores_session sample_store (render 1 (handle (CallLogout false) (mount 0 sample_store))) 10
    ltac:(split; [by split|right; exists sample_session; split; [apply sample_session_ok|by vm_compute]])
    ltac:(apply prompt_event; [apply prompt_mount|exact I])) as H.
  destruct (session sample_login) as [s|] eqn:Es; [|exfalso; vm_compute in Es; discriminate Es].
  assert (num_le (expiresAt s) 10 = false ∧ num_le (expiresAt s) 70000 = true) as [E1 E2]
    by (vm_compute in Es; injection Es as <-; split; vm_compute; reflexivity).
  rewrite E1 in H10. rewrite E2 in H70. split; [exists s; split; [reflexivity|exact H10]|]. split; [exact H70|].
  revert H. vm_compute. exact (λ h, h).
Defined.

Lemma timer_due_spec_witness : timer_due 1000 sample_session = 5000.
Proof. apply (timer_due_spec 1000 sample_session 5000); [done|lia..]. Defined.

(** The write of the stored session inside a queued update outlives a logout:
    when the answer of the synchronisation and a logout wait for the same
    render, the session in memory is gone, and a reload restores it. *)
Theorem batched_logout_leaves_stored_session :
  let st := run [Event (UserReceived 0 sample_user_json); Event (CallLogout false); Render 20] (mount 10 sample_store) in
  session st = None ∧ accessToken (apiAuth st) = None ∧
  ∃ s', (loadAuthSession 30 (store st)).1 = Some s' ∧ token s' = u! "tok".
Proof. vm_compute. split_and!; [done..|]. by eexists. Qed.

(** A session that has 2^31 milliseconds or more left may end at once: the
    delay does not fit the 32 bits of [setTimeout], and the timer is due
    immediately. *)
Theorem long_session_timer_overflows :
  timer_due 0 (mkSession (u! "tok") sample_user_json (num_of_Z (2 ^ 31)) false) = 0.
Proof. by vm_compute. Qed.

(** The guard of the stored user compares converted text: an array of one role
    passes for the role. *)
Theorem array_role_passes_guard :
  isUserDto (JObj [(u! "userId", JInt 1); (u! "loginId", JStr (u! "a")); (u! "name", JStr (u! "b"));
    (u! "role", JArr [JStr (u! "ADMIN")]); (u! "status", JStr (u! "ACTIVE")); (u! "locale", JStr (u! "EN"))]) = Some true.
Proof. by vm_compute. Qed.
