(* ===== verification/Translations.v ===== *)
(** * Translation tables

    Models the data of frontend/src/i18n/translations.ts: the English texts, the
    Korean texts, key by key in the order of the source. Texts are UTF-8. *)

From Stdlib Require Import String List.
Import ListNotations.

#[local] Open Scope string_scope.

Definition table : Type := list (string * string).

Definition english_1 : table := [
  ("common.retry", "Retry");
  ("common.notAvailable", "Not available");
  ("common.none", "None");
  ("common.noneReported", "None reported");
  ("common.requestIdUnavailable", "Request ID unavailable");
  ("common.requestId", "Request {requestId}");
  ("common.to", "to");
  ("common.latest", "Latest {time}");
  ("common.oldest", "Oldest {time}");
  ("common.loading", "Loading");
  ("common.refreshing", "Refreshing data");
  ("common.largeView", "Large view");
  ("navigation.primary", "Primary navigation");
  ("navigation.skipToContent", "Skip to content");
  ("navigation.expand", "Expand navigation");
  ("navigation.compact", "Compact navigation");
  ("navigation.toggle", "Toggle navigation");
  ("navigation.close", "Close navigation");
  ("navigation.logout", "Log out");
  ("navigation.breadcrumb", "Breadcrumb");
  ("navigation.accountMenu", "Open account menu");
  ("navigation.groupOverview", "Overview");
  ("navigation.groupTriage", "Triage");
  ("navigation.groupEvidence", "Evidence");
  ("navigation.groupAnalysis", "Analysis");
  ("navigation.groupPlatform", "Platform");
  ("navigation.overview", "Overview");
  ("navigation.dashboards", "Dashboards");
  ("navigation.alerts", "Alerts");
  ("navigation.incidents", "Incidents");
  ("navigation.endpoints", "Endpoints");
  ("navigation.events", "Events");
  ("navigation.intelligence", "Intelligence");
  ("navigation.operations", "Operations");
  ("navigation.archives", "Archives");
  ("navigation.console", "OWLBY");
  ("navigation.investigationPath", "Investigation path");
  ("navigation.pathSignal", "Signal");
  ("navigation.pathEvidence", "Evidence");
  ("navigation.pathDecision", "Decision");
  ("navigation.endpointDefense", "Endpoint defense");
  ("navigation.evidenceFirst", "Evidence-first operations");
  ("search.aria", "Search Event evidence");
  ("search.placeholder", "Endpoint ID or process");
  ("report.openAria", "Open printable report");
  ("report.close", "Close report");
  ("report.printTitle", "Print report");
  ("report.snapshot", "{page} snapshot");
  ("report.page", "Page");
  ("report.generated", "Generated");
  ("report.userRole", "User role");
  ("report.cancel", "Cancel");
  ("report.printSave", "Print / Save PDF");
  ("language.label", "Language");
  ("language.english", "English");
  ("language.korean", "한국어");
  ("language.saveError", "Language preference could not be saved. Your previous language is still active.");
  ("theme.switchToLight", "Switch to light theme");
  ("theme.switchToDark", "Switch to dark theme");
  ("dashboard.managerAria", "Dashboard controls");
  ("dashboard.settings", "Dashboard settings");
  ("dashboard.settingsTitle", "Dashboard settings");
  ("dashboard.closeSettings", "Close settings");
  ("dashboard.settingsDescription", "Select a saved layout, or start an explicit draft to create, edit, or delete one.");
  ("dashboard.overviewSettingsDescription", "Switch the read-only Overview layout here. Open the workbench to change its widgets.");
  ("dashboard.activeLayout", "ACTIVE LAYOUT");
  ("dashboard.manage", "Manage dashboards");
  ("dashboard.openOverview", "Open Overview");
  ("dashboard.workbenchEyebrow", "LAYOUT WORKBENCH");
  ("dashboard.workbenchTitle", "Dashboard layouts");
  ("dashboard.workbenchDescription", "Build focused investigation views and apply the selected layout to Overview. Layouts stay in this browser for the signed-in user.");
  ("dashboard.workbenchContext", "BROWSER-LOCAL LAYOUTS");
  ("dashboard.overviewContext", "ACTIVE DASHBOARD");
  ("dashboard.managementHint", "Choose a layout to apply to Overview or open its draft editor.");
  ("dashboard.readOnlyHint", "Overview renders the selected layout read-only. Layout changes live in the workbench.");
  ("dashboard.activeCustomDescription", "This browser-local layout is applied to the read-only Overview.");
  ("dashboard.restoreDefault", "Use Default");
  ("dashboard.layoutCatalog", "Layout catalog");
  ("dashboard.defaultFixed", "Immutable product layout");
  ("dashboard.browserLocal", "Browser-local custom layout");
  ("dashboard.layoutState", "Layout state");
  ("dashboard.savedLayout", "Saved custom layout");
  ("dashboard.widgetCount", "Widgets");
  ("dashboard.storage", "Storage");
  ("dashboard.productDefault", "Product default");
  ("dashboard.defaultRouteHint", "Open the fixed Overview to inspect current security state.");
  ("dashboard.openDraft", "Open draft editor");
  ("dashboard.savedCount", "{count} custom dashboards saved for this user");
  ("dashboard.selectorLabel", "Dashboard");
  ("dashboard.defaultName", "Default");
  ("dashboard.new", "New dashboard");
  ("dashboard.edit", "Edit dashboard");
  ("dashboard.delete", "Delete dashboard");
  ("dashboard.newTitle", "Build a new dashboard");
  ("dashboard.editTitle", "Edit custom dashboard");
  ("dashboard.builderDescription", "Choose only the investigation widgets you need. Changes are saved when you select Save.");
  ("dashboard.nameLabel", "Dashboard name");
  ("dashboard.namePlaceholder", "Example: Priority investigation");
  ("dashboard.saveRequirements", "Required: a name and at least one widget.");
  ("dashboard.palette", "Widget catalog");
  ("dashboard.paletteDescription", "Drag a widget to the canvas or activate it to add with the keyboard.");
  ("dashboard.addWidget", "Add {widget}");
  ("dashboard.removeWidget", "Remove {widget}");
  ("dashboard.dragHandle", "Move {widget}");
  ("dashboard.widgetGeometry", "{widget}: column {column}, row {row}, width {width}, height {height}");
  ("dashboard.keyboardInstructions", "Use Arrow keys to move the focused widget. Hold Shift with Arrow keys to resize.");
  ("dashboard.paletteComplete", "All available widgets are on the canvas. Remove one to make it available again.");
  ("dashboard.widgetAlreadyAdded", "This widget is already on the canvas.");
  ("dashboard.widgetPlacementUnavailable", "There is no available space for this widget. Move, resize, or remove a widget, or try a smaller widget.");
  ("dashboard.emptyTitle", "Start with one investigation widget");
  ("dashboard.emptyDescription", "Add a widget from the catalog. A dashboard is not created until you save it.");
  ("dashboard.save", "Save");
  ("dashboard.cancel", "Cancel");
  ("dashboard.editUnavailable", "Custom dashboard editing is available at 1280px and wider.");
  ("dashboard.customAria", "Custom dashboard: {name}");
  ("dashboard.deleteTitle", "Delete custom dashboard");
  ("dashboard.deleteDescription", "Delete {name}? This removes its browser-local layout for the current user.");
  ("dashboard.confirmDelete", "Delete dashboard");
  ("dashboard.closeDelete", "Close delete confirmation");
  ("filter.filters", "Filters");
  ("filter.clear", "Clear filters");
  ("filter.timeRange", "Time range");
  ("filter.latest15Minutes", "Latest 15 minutes");
  ("filter.latestHour", "Latest hour");
  ("filter.latest24Hours", "Latest 24 hours");
  ("filter.latest7Days", "Latest 7 days");
  ("filter.customUtcRange", "Custom UTC range");
  ("filter.from", "From");
  ("filter.to", "To");
  ("filter.availableRanges", "Queryable data periods");
  ("filter.availabilityLoading", "Checking available periods...");
  ("filter.availabilityUnavailable", "Queryable periods could not be checked.");
  ("filter.noAvailableRanges", "No data periods are currently queryable.");
  ("filter.unavailableRangeTitle", "No data is available for the selected period");
  ("filter.unavailableRangeDescription", "Choose a period from the queryable data ranges below.");
  ("filter.status", "Status");
  ("filter.severity", "Severity");
  ("filter.endpointId", "Endpoint ID");
  ("filter.endpointIds", "Endpoint IDs");
  ("filter.order", "Order")
].

Definition english_2 : table := [
  ("filter.sort", "Sort");
  ("filter.priority", "Priority");
  ("filter.allStatuses", "All statuses");
  ("filter.allSeverities", "All severities");
  ("filter.newestFirst", "Newest first");
  ("filter.oldestFirst", "Oldest first");
  ("filter.descending", "Descending");
  ("filter.ascending", "Ascending");
  ("filter.more", "More filters");
  ("filter.moreTitle", "Additional filters");
  ("filter.closeMore", "Close additional filters");
  ("filter.done", "Done");
  ("filter.active", "Applied filters");
  ("filter.remove", "Remove {label} filter");
  ("filter.sortColumn", "Sort {label}, {direction}");
  ("filter.invalidTitle", "Invalid filters");
  ("filter.invalidDescription", "Review the URL filters and enter supported values before loading data.");
  ("pagination.label", "Pagination");
  ("pagination.previous", "Previous");
  ("pagination.next", "Next");
  ("pagination.summary", "Page {page} of {totalPages} · {total} results");
  ("pagination.pageSize", "Rows per page");
  ("table.aria", "{label} table");
  ("error.dataLoad", "The requested data could not be loaded.");
  ("error.retryableHelp", "The last successful data may be stale. Retry when the service is available.");
  ("error.actionHelp", "Review the request and try the next action below.");
  ("error.refreshStale", "Refresh failed. Showing the last successful data.");
  ("error.archiveAction", "Open archive operations");
  ("error.validation", "The request is invalid. Review the entered values.");
  ("error.invalidToken", "Your session is no longer valid. Sign in again.");
  ("error.forbidden", "You do not have permission to perform this action.");
  ("error.notFound", "The requested resource was not found.");
  ("error.serviceUnavailable", "The Backend service is temporarily unavailable.");
  ("error.archiveNotReady", "The Archive data is not ready for access.");
  ("error.rollupNotReady", "The Dashboard rollup is still being prepared. Retry to load current Event metrics from ClickHouse.");
  ("error.network", "The Backend could not be reached. Check the connection and retry.");
  ("error.invalidEnvelope", "The Backend returned an invalid success envelope.");
  ("error.dashboardRevisionConflict", "The dashboard layout changed in another session. Reload it and retry.");
  ("error.dashboardNotFound", "The requested dashboard layout is not supported.");
  ("error.invalidDashboardLayout", "The dashboard layout is invalid.");
  ("error.detailField", "Review the {field} field.");
  ("error.detailUnknown", "Review the request details.");
  ("error.partialTitle", "Some evidence is unavailable");
  ("edrState.current", "Current EDR state");
  ("edrState.diagnostics", "EDR diagnostic axes");
  ("edrState.threatLevel", "Threat level");
  ("edrState.collectionHealth", "Collection health");
  ("edrState.reasonCodes", "Status drivers");
  ("edrState.noReasons", "No active risk reasons");
  ("edrState.reason.mediumEndpointRisk", "Medium Endpoint Risk");
  ("edrState.reason.highEndpointRisk", "High Endpoint Risk");
  ("edrState.reason.criticalEndpointRisk", "Critical Endpoint Risk");
  ("edrState.reason.openIncident", "Open Incident");
  ("edrState.reason.criticalAlert", "Critical Alert");
  ("edrState.reason.offlineEndpoint", "Offline Endpoint");
  ("edrState.reason.staleEndpoint", "Stale Endpoint");
  ("edrState.reason.degradedSensor", "Degraded Sensor");
  ("edrState.reason.unavailableSensor", "Unavailable Sensor");
  ("edrState.reason.ingestFailure", "Ingest failure");
  ("edrState.reason.ingestDelayed", "Ingest delayed");
  ("edrState.reason.storageFailure", "Storage failure");
  ("edrState.calculated", "Calculated {time}");
  ("edrState.aria", "EDR state {state}, score {score}");
  ("empty.noResponseGuidance", "No response guidance");
  ("empty.responseGuidanceDescription", "The matching RuleV1 version has no guidance steps.");
  ("empty.noRiskFactors", "No active factors");
  ("empty.riskFactorsDescription", "The Backend returned no active Alert or Incident risk factors.");
  ("risk.openSource", "Open {sourceType} source");
  ("risk.openIncidentContribution", "Open correlated Incident contribution");
  ("empty.sourceEventUnavailable", "Source event unavailable");
  ("empty.sourceEventDescription", "The event is not currently available in HOT or RESTORED storage.");
  ("charts.noSeverityTitle", "No alert severity data");
  ("charts.noSeverityDescription", "No Alerts were detected in this time range.");
  ("charts.severityAria", "{total} alerts by severity");
  ("charts.noDistributionTitle", "No distribution data");
  ("charts.noDistributionDescription", "The Backend returned an empty distribution.");
  ("charts.noSeriesTitle", "No {label} series");
  ("charts.noSeriesDescription", "No time buckets were returned for this range.");
  ("charts.seriesAria", "{label} time series");
  ("charts.viewData", "View {label} data table");
  ("charts.bucket", "Bucket");
  ("charts.count", "Count");
  ("charts.noIncidentSeries", "No incident series");
  ("charts.noDetectionActivity", "No detection activity");
  ("charts.noIncidentSeriesDescription", "No Incident time buckets were returned for this range.");
  ("charts.incidentSeriesAria", "Incident open and closed time series");
  ("charts.open", "Open");
  ("charts.closed", "Closed");
  ("charts.viewIncidentData", "View incident data table");
  ("charts.viewMore", "View {count} more values");
  ("charts.minimum", "Minimum");
  ("charts.average", "Average");
  ("charts.maximum", "Maximum");
  ("charts.currentValues", "Current series values");
  ("charts.bucketSelection", "Detection activity time buckets");
  ("charts.selectBucket", "Select a server bucket");
  ("charts.detectionSummary", "Latest server buckets: Events {events}, Alerts {alerts}, Open incidents {incidents}.");
  ("charts.timeContext", "Bucket range {from} – {to} · {timezone} · counts per server bucket");
  ("overview.eyebrow", "CURRENT POSTURE");
  ("overview.title", "Overview");
  ("overview.description", "Backend-calculated EDR posture, collection health, and evidence volume.");
  ("overview.dashboardAria", "Fixed Overview dashboard");
  ("overview.lastRefreshed", "Last refreshed {time}");
  ("overview.notYet", "Not yet");
  ("overview.kpiAria", "Key performance indicators");
  ("overview.events", "Events");
  ("overview.alerts", "Alerts");
  ("overview.totalAlerts", "Total alerts");
  ("overview.criticalAlerts", "Critical alerts");
  ("overview.criticalAlertsDetail", "Critical severity in selected range");
  ("overview.openIncidents", "Open incidents");
  ("overview.incidents", "Incidents");
  ("overview.highRiskEndpoints", "HIGH-level endpoints");
  ("overview.onlineEndpoints", "Online endpoints");
  ("overview.eventFailures", "Event failures");
  ("overview.storageBuckets", "Storage buckets");
  ("overview.eventsDetail", "Events in selected range");
  ("overview.alertsDetail", "Alerts in selected range");
  ("overview.currentlyOpen", "Currently open");
  ("overview.highRiskEndpointsDetail", "Current HIGH-level snapshot");
  ("overview.currentSnapshot", "Current snapshot");
  ("overview.currentFailureRows", "Current failure rows");
  ("overview.allLifecycleBuckets", "All lifecycle buckets");
  ("overview.alertSeverity", "Alert severity");
  ("overview.detectionActivity", "Detection activity");
  ("overview.detectionActivityDescription", "Server-provided Event, Alert, and Incident time buckets");
  ("overview.eventVolume", "Event volume");
  ("overview.alertVolume", "Alert volume");
  ("overview.incidentActivity", "Incident activity");
  ("overview.endpointRisk", "Endpoint risk");
  ("overview.fleetDistribution", "Fleet distribution");
  ("overview.fleetDistributionSubtitle", "Endpoint risk and current Sensor Health");
  ("overview.reportedEndpoints", "{count} reported Endpoints");
  ("overview.reportedRiskSnapshots", "{count} risk snapshots");
  ("overview.reportedSensorChecks", "{count} reported checks");
  ("overview.noSensorHealthSnapshots", "No Sensor Health snapshots are available.");
  ("overview.fleetSnapshotNote", "Current snapshot. Open Endpoints or Operations for root-cause detail.");
  ("overview.riskCritical", "Critical");
  ("overview.riskHigh", "High");
  ("overview.riskMedium", "Medium")
].

Definition english_3 : table := [
  ("overview.riskLow", "Low");
  ("overview.sensorHealthy", "Healthy");
  ("overview.sensorDegraded", "Degraded");
  ("overview.sensorUnavailable", "Unavailable");
  ("overview.allSensors", "All sensors");
  ("overview.sensorByType", "Checks by sensor");
  ("overview.sensorStatusSummary", "{sensor}: {healthy} healthy, {degraded} degraded, {unavailable} unavailable, {total} total");
  ("overview.endpointOs", "Endpoint operating systems");
  ("overview.sensorHealth", "Sensor health");
  ("overview.topRules", "Top rules");
  ("overview.mitreDistribution", "MITRE detection distribution");
  ("overview.processNetwork", "Process and network signals");
  ("overview.fileDnsL7", "File, DNS, and L7 signals");
  ("overview.failureDistribution", "Failure distribution");
  ("overview.storageDistribution", "Storage distribution");
  ("overview.serverDistribution", "Server-provided distribution");
  ("overview.serverBuckets", "Server-provided time buckets");
  ("overview.openClosedBuckets", "Open and closed buckets");
  ("overview.querySnapshot", "Current query-time snapshot");
  ("overview.endpointSnapshot", "Current Endpoint snapshot");
  ("overview.sensorSnapshots", "Current reported sensor snapshots");
  ("overview.mitreSubtitle", "Tactics and techniques observed in Alert snapshots");
  ("overview.backendTopValues", "Top values returned by the Backend");
  ("overview.lifecycleSnapshot", "Current lifecycle snapshot");
  ("overview.highest", "Highest {value}");
  ("overview.oldestFailed", "Oldest failed {time}");
  ("overview.highestRiskEndpoints", "Highest-risk endpoints");
  ("overview.currentRiskSnapshot", "Based on the latest risk assessment");
  ("overview.endpointActiveAlerts", "Endpoint {endpointId} · {count} active Alert(s)");
  ("overview.noEndpoints", "No Endpoints");
  ("overview.noEndpointRiskSnapshot", "No Endpoint risk snapshot is available.");
  ("overview.incidentQueueWidget", "Incident queue");
  ("overview.recentOpenIncidents", "Five most recent open Incidents");
  ("overview.incidentAlertCount", "{time} · {count} Alert(s)");
  ("overview.noOpenIncidents", "No open Incidents");
  ("overview.noOpenIncidentsDescription", "The selected time range has no open Incident rows.");
  ("overview.endpoint", "Endpoint");
  ("overview.incident", "Incident");
  ("overview.riskScore", "Risk score");
  ("overview.status", "Status");
  ("overview.lastDetected", "Last detected");
  ("overview.partialFailure", "Successful dashboard sections remain available. Retry the failed section or refresh the page.");
  ("overview.responseGuidanceSummary", "Response guidance summary");
  ("overview.responseGuidanceCount", "{alerts} active Alerts across {rules} Rule versions");
  ("overview.manualSteps", "{count} manual steps");
  ("overview.toolbarAria", "Overview controls");
  ("overview.endpointScope", "Endpoint scope");
  ("overview.allEndpoints", "All endpoints");
  ("overview.endpointScopeDescription", "Dashboard summary APIs currently support the all-endpoints aggregation scope.");
  ("overview.timeRangeLabel", "Time range: {range}");
  ("overview.refresh", "Refresh");
  ("overview.refreshing", "Refreshing");
  ("overview.autoRefresh", "Auto-refresh every 30 seconds");
  ("overview.signalRibbon", "Observed signal stream");
  ("overview.backendSnapshot", "Backend snapshot");
  ("overview.signalEvents", "Event intake");
  ("overview.signalDetections", "Alert detections");
  ("overview.signalEndpointReach", "Online endpoints");
  ("overview.signalOpenCases", "Open investigations");
  ("alerts.eyebrow", "DETECTION QUEUE");
  ("alerts.title", "Alerts");
  ("alerts.description", "Server-paginated RuleV1 detections and their current workflow state.");
  ("alerts.ruleCode", "Rule code");
  ("alerts.queue", "Alert queue");
  ("alerts.records", "{total} Alert records");
  ("alerts.rule", "Rule");
  ("alerts.risk", "Risk");
  ("alerts.agent", "Agent");
  ("alerts.detected", "Detected");
  ("alerts.noResults", "No Alerts found");
  ("alerts.noFilterMatch", "No Alerts match the current filters.");
  ("alerts.noneInRange", "No Alerts were detected in this time range.");
  ("alerts.priorityOrder", "Open status, severity, risk, then newest detection");
  ("alert.evidence", "Alert evidence");
  ("alert.detectedAt", "Detected {time}");
  ("alert.id", "Alert ID");
  ("alert.riskScore", "Risk score");
  ("alert.agentId", "Agent ID");
  ("alert.eventId", "Event ID");
  ("alert.mitreTactic", "MITRE tactic");
  ("alert.mitreTechnique", "MITRE technique");
  ("alert.updated", "Updated");
  ("alert.workflowState", "Workflow state");
  ("alert.updateAllowed", "ADMIN and ANALYST may update Alert status");
  ("alert.viewerReadOnly", "VIEWER access is read-only");
  ("alert.status", "Alert status");
  ("alert.viewerControlsHidden", "Status controls are hidden for VIEWER.");
  ("alert.sourceEvent", "Source event");
  ("alert.sourceEventSubtitle", "HOT or RESTORED Event reference");
  ("alert.connectedIncidents", "Connected Incidents");
  ("alert.evidenceChain", "Evidence chain");
  ("alert.evidenceChainDescription", "Endpoint to Incident · follow observed records");
  ("alert.notConnected", "Not connected");
  ("alert.correlationReferences", "Read-only correlation references");
  ("alert.noConnectedIncidents", "No connected Incidents");
  ("alert.noConnectedDescription", "This Alert is not linked to an Incident.");
  ("alert.responseGuidance", "Response guidance");
  ("alert.guidanceSubtitle", "Read-only steps from the matching RuleV1 version");
  ("alert.guidanceRuleVersion", "Read-only steps from {ruleCode} v{version}");
  ("alert.guidanceSteps", "Ordered response guidance steps");
  ("alert.manualAction", "Manual action");
  ("alert.activeQueue", "Active alert queue");
  ("alert.requiresAction", "{total} Alerts require action");
  ("alert.riskValue", "Risk {score}");
  ("alert.queueCleared", "Queue cleared");
  ("alert.queueClearedDescription", "No unresolved Alerts match the current time, severity, endpoint, and rule filters.");
  ("alert.queueClearedRecoverableDescription", "No unresolved Alerts match this queue. The resolved Alert remains available below for review or reopening.");
  ("alert.workflowSaved", "Alert workflow state saved.");
  ("alert.saveOrContinue", "Save this Alert or continue directly to the next unresolved item");
  ("alert.saveStatus", "Save status");
  ("alert.submitNext", "Submit & Next");
  ("alert.nextItem", "Next: {ruleCode} · {title}");
  ("alert.noNextItem", "No other unresolved Alert matches this queue.");
  ("detection.procPowershellEncoded.title", "Encoded PowerShell command detected");
  ("detection.procPowershellEncoded.ruleName", "PowerShell Encoded Command");
  ("detection.procPowershellEncoded.titleOnEndpoint", "PowerShell encoded command on {endpoint}");
  ("detection.procPowershellEncoded.summary", "PowerShell was executed with an encoded command argument.");
  ("detection.netSuspiciousEgress.title", "Suspicious encrypted egress detected");
  ("detection.netSuspiciousEgress.ruleName", "Suspicious Egress Destination");
  ("detection.netSuspiciousEgress.titleOnEndpoint", "Suspicious Egress Destination on {endpoint}");
  ("detection.netSuspiciousEgress.summary", "A monitored process connected to a rare external destination.");
  ("detection.dnsRareDomain.title", "Rare domain query detected");
  ("detection.dnsRareDomain.ruleName", "Rare Domain Query");
  ("detection.dnsRareDomain.titleOnEndpoint", "Rare Domain Query on {endpoint}");
  ("detection.dnsRareDomain.summary", "An endpoint queried a rarely observed domain.");
  ("detection.fileSuspiciousDrop.title", "Suspicious file drop detected");
  ("detection.fileSuspiciousDrop.ruleName", "Suspicious File Drop");
  ("detection.fileSuspiciousDrop.titleOnEndpoint", "Suspicious File Drop on {endpoint}");
  ("detection.fileSuspiciousDrop.summary", "A process created a suspicious payload or artifact file.");
  ("detection.l7UploadAnomaly.title", "Unusual HTTPS upload detected");
  ("detection.l7UploadAnomaly.ruleName", "Unusual HTTPS Upload");
  ("detection.l7UploadAnomaly.titleOnEndpoint", "Unusual HTTPS Upload on {endpoint}");
  ("detection.l7UploadAnomaly.summary", "An unusual upload request was observed to an external host.");
  ("detection.qaLongRange.summary", "Deterministic long-range QA alert for {agentId}.");
  ("guidance.reviewDomainProcess", "Review domain and query process");
  ("guidance.blockMaliciousDomain", "Block confirmed malicious domain");
  ("guidance.validateFileOrigin", "Validate file origin and hash");
  ("guidance.quarantineMaliciousFile", "Quarantine confirmed malicious file");
  ("guidance.reviewUploadContext", "Review upload context");
  ("guidance.restrictUploadPath", "Restrict unauthorized upload path")
].

Definition english_4 : table := [
  ("guidance.reviewDestinationProcess", "Review destination and source process");
  ("guidance.containUnauthorizedEgress", "Contain unauthorized egress");
  ("guidance.reviewSourceEvent", "Review source event");
  ("incident.eyebrow", "CORRELATION");
  ("incident.title", "Incidents");
  ("incident.description", "Correlated Alert windows generated by Detection Workers with auditable status control.");
  ("incident.queue", "Incident workbench");
  ("incident.records", "{total} Incident records");
  ("incident.singular", "Incident");
  ("incident.alerts", "Alerts");
  ("incident.window", "Window");
  ("incident.lastDetected", "Last detected");
  ("incident.noResults", "No Incidents found");
  ("incident.noFilterMatch", "No Incidents match the current filters.");
  ("incident.noneInRange", "No correlated Incidents exist in this time range.");
  ("incident.noDescription", "No description was captured for this Incident.");
  ("incident.context", "Correlation context");
  ("incident.contextSubtitle", "Detection projection with preserved Event and Alert evidence");
  ("incident.correlationKey", "Correlation key");
  ("incident.alertCount", "Alert count");
  ("incident.windowStart", "Window start");
  ("incident.windowEnd", "Window end");
  ("incident.firstDetected", "First detected");
  ("incident.closed", "Closed");
  ("incident.lifecycle", "Lifecycle boundary");
  ("incident.statusControlDescription", "ADMIN and ANALYST may reopen or close this Incident. A manual state remains until changed again.");
  ("incident.statusSaved", "Incident status saved.");
  ("incident.saveStatus", "Save Incident status");
  ("incident.viewerReadOnly", "Incident status is read-only for VIEWER");
  ("incident.viewerReadOnlyDescription", "VIEWER can inspect the current status but cannot change it.");
  ("incident.connectedAlerts", "Connected Alerts");
  ("incident.connectedSubtitle", "Alert snapshots attached to this Incident");
  ("incident.noConnectedAlerts", "No connected Alerts");
  ("incident.noConnectedAlertsDescription", "This Incident currently has no linked Alerts.");
  ("incident.attackTimeline", "Attack timeline");
  ("incident.attackTimelineSubtitle", "Event → Alert → Incident evidence assembled by the Backend");
  ("incident.noTimelineEvidence", "No timeline evidence");
  ("incident.noTimelineDescription", "No connected Event or Alert snapshots were found.");
  ("incident.workbench", "Incident investigation workbench");
  ("incident.activeQueue", "Open Incident queue");
  ("incident.activeQueueDescription", "Preserves list filters and opens active investigations first");
  ("incident.queueMeta", "{alerts} Alerts · {time}");
  ("incident.noActiveQueue", "No active Incidents");
  ("incident.noActiveQueueDescription", "No OPEN Incident matches the current list context.");
  ("incident.investigation", "Investigation graph");
  ("incident.investigationSubtitle", "Observed Backend relationships with synchronized context and evidence");
  ("incident.observedOnly", "OBSERVED ONLY");
  ("incident.observedRelationDescription", "This relationship is backed by a source record; it does not assert inferred causality.");
  ("incident.legend", "Legend");
  ("incident.observedNodes", "Observed nodes");
  ("incident.expandObservedNodes", "Open Observed nodes in large view");
  ("incident.expandedInvestigation", "Observed nodes · expanded investigation");
  ("incident.closeExpandedInvestigation", "Close expanded investigation");
  ("incident.edges", "Observed edges");
  ("incident.selectedContext", "Selected context");
  ("incident.selectedPrompt", "Select a graph node, edge, timeline item, or evidence row.");
  ("incident.nothingSelected", "Nothing selected");
  ("incident.investigationPartial", "The graph is partial or truncated. Timeline and evidence tables remain the primary fallback.");
  ("incident.investigationWarnings", "Investigation warnings");
  ("incident.warningArchiveNotReady", "Event evidence is in an Archive bucket that is not ready.");
  ("incident.warningEventNotFound", "Event evidence is not present in HOT or RESTORED Storage.");
  ("incident.graphDisabled", "Graph rendering is disabled by feature flag");
  ("incident.graphEmpty", "No graph nodes are available");
  ("incident.graphIncomplete", "The graph is incomplete");
  ("incident.tableFallback", "TABLE FALLBACK");
  ("incident.graphFallbackDescription", "Use the observed timeline, connected Alerts, and evidence records below.");
  ("incident.graphRequestFailed", "The graph request failed. Timeline and connected Alert evidence remain available.");
  ("incident.evidenceList", "Observed evidence");
  ("incident.evidenceSubtitle", "Every edge links back to its available Incident, Alert, or Event record");
  ("incident.noGraphEvidence", "No graph evidence");
  ("incident.relation", "Relation");
  ("incident.relation.contains", "Contains");
  ("incident.relation.triggeredBy", "Triggered by");
  ("incident.relation.parentOf", "Parent of");
  ("incident.relation.connectedTo", "Connected to");
  ("incident.source", "Source");
  ("incident.target", "Target");
  ("incident.evidence", "Evidence");
  ("incident.observedAt", "Observed at");
  ("incident.sourceRecord", "Source record");
  ("incident.nodeType", "Node type");
  ("incident.process", "Process");
  ("incident.destination", "Destination");
  ("incident.protocol", "Protocol");
  ("incident.selectEvidence", "Select evidence");
  ("incident.processTree", "Process Tree");
  ("incident.processTreeSubtitle", "Loaded only for a selected Process node within the Incident time range");
  ("incident.selectProcess", "Select a Process node");
  ("incident.selectProcessDescription", "Choose an observed Process node or connected edge to load its Endpoint Process Tree.");
  ("endpoints.eyebrow", "CURRENT SNAPSHOT");
  ("endpoints.title", "Endpoints");
  ("endpoints.description", "Endpoint health and Backend-calculated Risk, including retired assets.");
  ("endpoints.operatingSystem", "Operating system");
  ("endpoints.search", "Search endpoints");
  ("endpoints.allSystems", "All systems");
  ("endpoints.riskLevel", "Risk level");
  ("endpoints.allLevels", "All levels");
  ("endpoints.riskScore", "Risk score");
  ("endpoints.lastSeen", "Last seen");
  ("endpoints.registered", "Registered");
  ("endpoints.inventory", "Endpoint inventory");
  ("endpoints.records", "{total} Endpoint records");
  ("endpoints.os", "OS");
  ("endpoints.risk", "Risk");
  ("endpoints.activeAlerts", "Active Alerts");
  ("endpoints.openIncidents", "Open Incidents");
  ("endpoints.versionUnavailable", "Version unavailable");
  ("endpoints.stale", "Stale");
  ("endpoints.noResults", "No Endpoints found");
  ("endpoints.noFilterMatch", "No Endpoints match the current filters.");
  ("endpoints.noneRegistered", "No Endpoint has registered yet.");
  ("endpoint.staleWarning", "This Endpoint snapshot is stale. Last seen {time}.");
  ("endpoint.profile", "Endpoint profile");
  ("endpoint.profileSubtitle", "Current Agent and platform snapshot");
  ("endpoint.ipAddress", "IP address");
  ("endpoint.agentVersion", "Agent version");
  ("endpoint.buildId", "Build ID");
  ("endpoint.architecture", "Architecture");
  ("endpoint.capabilities", "Capabilities");
  ("endpoint.calculated", "Calculated {time}");
  ("endpoint.level", "Level");
  ("endpoint.highestAlertScore", "Highest Alert score");
  ("endpoint.sensorHealth", "Sensor health");
  ("endpoint.heartbeatSubtitle", "Latest heartbeat snapshot");
  ("endpoint.provider", "Provider");
  ("endpoint.packetDrops", "Packet drops");
  ("endpoint.parseErrors", "Parse errors");
  ("endpoint.noSensor", "No sensor health");
  ("endpoint.noSensorDescription", "The Endpoint has not reported sensor snapshots.");
  ("endpoint.certificateHistory", "Certificate history");
  ("endpoint.certificateSubtitle", "Public certificate identity only");
  ("endpoint.subject", "Subject");
  ("endpoint.sanAgentId", "SAN agent ID");
  ("endpoint.issued", "Issued");
  ("endpoint.expires", "Expires");
  ("endpoint.revoked", "Revoked");
  ("endpoint.noCertificates", "No certificate history");
  ("endpoint.noCertificatesDescription", "No certificate records are available for this Endpoint.");
  ("endpoint.switcher", "Switch Endpoint");
  ("endpoint.switcherPlaceholder", "Hostname, agent ID, or exact Endpoint ID")
].

Definition english_5 : table := [
  ("endpoint.switcherError", "Endpoint search failed. Try again.");
  ("endpoint.switcherEmpty", "No Endpoint matches this search.");
  ("endpoint.current", "Current Endpoint {endpointId}");
  ("endpoint.relatedEvidence", "Related evidence");
  ("endpoint.relatedEvidenceSubtitle", "Backend counts with direct links to the owning lists");
  ("endpoint.recentEvents", "Recent Events");
  ("endpoint.openRecentEvents", "Open recent events");
  ("endpoint.processTreeEntry", "Choose an Event to establish the required time range before opening its Process Tree.");
  ("endpoint.chooseEvent", "Choose an Event");
  ("endpoint.certificateAnomaly", "Certificate requires review");
  ("events.eyebrow", "EVENT EVIDENCE");
  ("events.title", "Events");
  ("events.description", "HOT ClickHouse and directly read RESTORED Parquet events.");
  ("events.type", "Event type");
  ("events.allTypes", "All types");
  ("events.stream", "Event stream");
  ("events.records", "{total} Event records");
  ("events.occurred", "Occurred");
  ("events.process", "Process");
  ("events.network", "Network / DNS / L7");
  ("events.ingested", "Ingested");
  ("events.noResults", "No Events found");
  ("events.noFilterMatch", "No Events match the current filters.");
  ("events.noneInRange", "No Events are available in this time range.");
  ("event.routingMissing", "Event routing information is missing");
  ("event.routingDescription", "Open this Event from the Event list so endpointId and occurredAt remain in the URL query.");
  ("event.return", "Return to Events");
  ("event.batchId", "Batch ID");
  ("event.occurred", "Occurred");
  ("event.ingested", "Ingested");
  ("event.processName", "Process name");
  ("event.processPath", "Process path");
  ("event.commandLine", "Command line");
  ("event.user", "User");
  ("event.filePath", "File path");
  ("event.fileAction", "File action");
  ("event.dnsAnswers", "DNS answers");
  ("event.normalized", "Normalized event");
  ("event.normalizedSubtitle", "Required and nullable Event DTO fields");
  ("event.payloadIdentity", "Payload identity");
  ("event.payloadSubtitle", "No packet or PCAP bytes");
  ("event.payloadSha", "Payload SHA-256");
  ("event.schemaVersion", "Schema version");
  ("event.rawPayload", "Raw payload");
  ("event.rawPayloadSubtitle", "Normalized metadata event JSON");
  ("event.processTree", "Process tree");
  ("event.processTreeSubtitle", "Best-effort PID/PPID lineage from collected events, 30 minutes before through 5 minutes after this event");
  ("event.rawPayloadCollapsed", "Collapsed by default · excluded from print");
  ("event.searchPayload", "Search Raw Payload");
  ("event.payloadMatches", "{count} matches");
  ("event.copyPayload", "Copy JSON");
  ("event.copied", "Copied");
  ("event.groupIdentity", "Identity and time");
  ("event.groupIdentitySubtitle", "Common Event, Endpoint, Agent, and timestamp fields");
  ("event.groupProcess", "Process and user");
  ("event.groupProcessSubtitle", "Process lineage and execution context");
  ("event.groupFile", "File activity");
  ("event.groupFileSubtitle", "File path, action, and hash evidence");
  ("event.groupNetwork", "Network destination");
  ("event.groupNetworkSubtitle", "Observed remote address and protocol fields");
  ("event.groupDns", "DNS evidence");
  ("event.groupDnsSubtitle", "Query, response, and collected answers");
  ("event.groupHttpTls", "HTTP and TLS");
  ("event.groupHttpTlsSubtitle", "Observed L7 request and certificate metadata");
  ("event.observedFallback", "{eventType} observed");
  ("events.typeDetail", "Event detail");
  ("operations.eyebrow", "COLLECTION HEALTH");
  ("operations.title", "Operations");
  ("operations.description", "Live dependency probes, Kafka worker lag, ingest freshness, and storage lifecycle.");
  ("operations.archiveAction", "Archive operations");
  ("operations.ingestedEvents", "Ingested events");
  ("operations.failed", "Failed");
  ("operations.reprocessed", "Replay published");
  ("operations.reprocessFailed", "Reprocess failed");
  ("operations.reprocessedDetail", "Kafka acknowledged the CLI replay request");
  ("operations.reprocessFailedDetail", "CLI reprocess failures");
  ("operations.storageLifecycle", "Storage lifecycle");
  ("operations.storageSubtitle", "Current ingest_metadata counts");
  ("operations.boundary", "Operational boundary");
  ("operations.boundarySubtitle", "Failure replay remains CLI-only");
  ("operations.noWebReplay", "No DLQ Monitor or web replay controls");
  ("operations.boundaryDescription", "This screen intentionally exposes only contracted summary counts and Archive lifecycle actions.");
  ("operations.refreshing", "Refreshing");
  ("operations.refreshLive", "Refresh live state");
  ("operations.failureStatus", "Failure status");
  ("operations.stage", "Stage");
  ("operations.retryable", "Retryable");
  ("operations.all", "All");
  ("operations.notRetryable", "Not retryable");
  ("operations.failureQueue", "Failure queue");
  ("operations.failureQueueSubtitle", "Read-only Failure Sink; replay remains CLI-only");
  ("operations.eventFailureQueue", "Event failure queue");
  ("operations.failure", "Failure");
  ("operations.retry", "Retry");
  ("operations.error", "Error");
  ("operations.failedAt", "Failed at");
  ("operations.no", "No");
  ("operations.attempts", "{count} attempt(s)");
  ("operations.uncoded", "Uncoded");
  ("operations.noFailureRows", "No failure rows");
  ("operations.noFailureRowsDescription", "No Event failures match the current filters.");
  ("operations.liveControlPlane", "Live control plane");
  ("operations.checked", "Checked {time}");
  ("operations.serviceHealth", "Service health");
  ("operations.serviceHealthSubtitle", "On-demand probes; no historical status is stored");
  ("operations.pipelineWorkers", "Pipeline workers");
  ("operations.pipelineWorkersSubtitle", "Kafka consumer membership and current committed-offset lag");
  ("operations.pipelineWorkerHealth", "Pipeline worker health");
  ("operations.members", "Members");
  ("operations.brokerState", "Broker state");
  ("operations.unknown", "Unknown");
  ("operations.ingestFreshness", "{rate}/min · Latest {time} · {minutes}m ago");
  ("operations.noIngestedInRange", "No event has been ingested in this range");
  ("operations.failureRate", "{rate}/min · Oldest {time}");
  ("operations.ingestPartial", "Ingest and storage summary is unavailable. Live service and worker probes remain visible.");
  ("operations.healthPartial", "Live service and worker probes are unavailable. Ingest, failure, and storage summaries remain visible.");
  ("operations.currentPipelineSnapshot", "Current pipeline snapshot");
  ("operations.currentPipelineSnapshotSubtitle", "Problem areas first; this is a query-time state list, not a historical flow");
  ("operations.stageCOLLECTION", "Collection");
  ("operations.stageDETECTION", "Detection");
  ("operations.stageSTORAGE", "Storage");
  ("operations.collectionEvents", "{count} Event(s) ingested");
  ("operations.collectionLatest", "Latest Event {time}");
  ("operations.detectionWorkers", "{count} Worker(s) · total lag {lag}");
  ("operations.detectionFailures", "{count} current failure(s)");
  ("operations.storageBuckets", "{count} tracked bucket(s)");
  ("operations.storageExceptions", "Restoring {restoring} · Failed {failed}");
  ("operations.snapshotCaveat", "Snapshot checked {time}. Stages are not an animated or stored historical flow.");
  ("operations.collectionPath", "Multi-layer collection path");
  ("operations.collectionPathSubtitle", "Agent evidence to durable detection storage");
  ("operations.collectionPathCaveat", "Each status comes from the current operations contract. NO PROBE marks architecture layers without a live health signal.");
  ("operations.pathAgent", "Windows / macOS Agent");
  ("operations.pathCollector", "Collector API");
  ("operations.pathStorageWorker", "Event Storage Worker");
  ("operations.pathDetectionWorker", "Detection Worker");
  ("operations.noHealthProbe", "No contracted live health probe");
  ("operations.backendResponding", "The authenticated operations endpoint is responding.");
  ("operations.liveProbeSucceeded", "Live dependency probe succeeded.");
  ("operations.liveProbeFailedPlain", "Live dependency probe failed.");
  ("operations.liveProbeFailed", "Live dependency probe failed ({error}).")
].

Definition english_6 : table := [
  ("operations.workerProbeFailedPlain", "Worker probe failed.");
  ("operations.workerProbeFailed", "Worker probe failed ({error}).");
  ("operations.brokerGroupState", "Broker group state {state}.");
  ("operations.memberLag", "{count} member · lag {lag}");
  ("operations.problemSummary", "Current problem summary");
  ("operations.problemSummaryDescription", "Problem areas first · query-time state");
  ("processTree.empty", "No process lineage captured");
  ("processTree.emptyDescription", "No PROCESS_EXECUTION events were collected in the surrounding 35-minute window.");
  ("processTree.aria", "Collected process lineage");
  ("processTree.commandUnavailable", "Command line unavailable");
  ("processTree.metadata", "{time} · PID {pid} · PPID {ppid} · {count} event(s)");
  ("processTree.selectedPid", "Selected PID");
  ("processTree.parentNotCaptured", "Parent not captured");
  ("intelligence.title", "Intelligence");
  ("intelligence.description", "MITRE mappings and Endpoint egress relationships calculated from existing Event and Alert evidence.");
  ("intelligence.mappedTactics", "Mapped tactics");
  ("intelligence.mitreTactics", "MITRE tactics");
  ("intelligence.mappedTechniques", "Mapped techniques");
  ("intelligence.mitreTechniques", "MITRE techniques");
  ("intelligence.observedEgress", "Endpoints with observed egress");
  ("intelligence.topologyNodes", "Topology nodes");
  ("intelligence.uniqueRelationships", "Unique Endpoint-to-destination relationships");
  ("intelligence.egressEdges", "Egress edges");
  ("intelligence.alertDistribution", "Alert snapshot distribution");
  ("intelligence.topDomains", "Top domains");
  ("intelligence.topRemoteIps", "Top remote IPs");
  ("intelligence.topProcesses", "Top processes");
  ("intelligence.normalizedValues", "Normalized Event values");
  ("intelligence.egressTopology", "Endpoint egress topology");
  ("intelligence.egressSubtitle", "Event and Alert counts only; traffic-byte volume is not inferred");
  ("intelligence.noRelationships", "No egress relationships");
  ("intelligence.noRelationshipsDescription", "No matching network, DNS, or L7 Event targets were found.");
  ("intelligence.relationships", "Endpoint egress relationships");
  ("intelligence.source", "Source");
  ("intelligence.target", "Target");
  ("intelligence.destination", "Destination");
  ("intelligence.summaryUnavailable", "MITRE and Top-N summary is unavailable. Egress evidence remains available.");
  ("intelligence.topologyUnavailable", "Egress topology is unavailable. MITRE and Top-N evidence remains available.");
  ("intelligence.mitreMatrix", "MITRE matrix");
  ("intelligence.mitreMatrixSubtitle", "Tactic and technique counts from the current Alert snapshot; no causal path is inferred");
  ("intelligence.currentAlertSnapshot", "CURRENT ALERT SNAPSHOT");
  ("intelligence.observedTactics", "Observed tactics");
  ("intelligence.observedTechniques", "Observed techniques");
  ("intelligence.coverageUnavailable", "Coverage unavailable");
  ("intelligence.coverageUnavailableDescription", "Active RuleV1 technique catalog required");
  ("intelligence.mitreSelectPrompt", "Select a tactic or technique to inspect its current Alert count.");
  ("intelligence.selectedContext", "Selected context");
  ("intelligence.mappingType", "Mapping type");
  ("intelligence.mappingCode", "Mapping code");
  ("intelligence.alertCount", "Alert count");
  ("intelligence.eventCount", "Event count");
  ("intelligence.timeRange", "Time range");
  ("intelligence.nothingSelected", "Nothing selected");
  ("intelligence.openTableFallback", "Open semantic table fallback");
  ("intelligence.mitreTableFallback", "MITRE mapping table fallback");
  ("intelligence.rulesSignals", "Rules and signal Top-N");
  ("intelligence.topNSubtitle", "Ranked counts from the same query-time snapshot");
  ("intelligence.rules", "Rules");
  ("intelligence.signals", "Signals");
  ("intelligence.alertsCount", "{count} Alert(s)");
  ("intelligence.noMappings", "No MITRE mappings");
  ("intelligence.noMappingsDescription", "No tactic or technique mapping was observed in this range.");
  ("intelligence.searchTopology", "Search topology");
  ("intelligence.topN", "Top-N relationships");
  ("intelligence.expandTopology", "Open Endpoint egress topology in large view");
  ("intelligence.expandedTopology", "Endpoint egress topology — Large view");
  ("intelligence.closeExpandedTopology", "Close large Endpoint egress topology");
  ("intelligence.noFilteredRelationships", "No matching relationships");
  ("intelligence.noFilteredRelationshipsDescription", "Change the topology search or Top-N limit.");
  ("intelligence.legend", "Legend");
  ("intelligence.observedEdge", "Observed relationship");
  ("intelligence.alertBearingEdge", "Relationship with Alerts");
  ("intelligence.countsNotTraffic", "Labels are Event and Alert counts, not traffic volume.");
  ("intelligence.graphAria", "Endpoint egress topology graph");
  ("intelligence.domainGroup", "Domain group");
  ("intelligence.hosts", "hosts");
  ("intelligence.hostCount", "Host count");
  ("intelligence.groupedDomainCaveat", "Sibling subdomains are grouped by registrable domain. The evidence table keeps exact targets.");
  ("intelligence.groupedDomainDescription", "Sibling subdomains grouped for graph readability. Expand the group to inspect exact hosts.");
  ("intelligence.showSubdomains", "Show {count} subdomains");
  ("intelligence.collapseSubdomains", "Collapse to {domain}");
  ("intelligence.tableFallback", "TABLE FALLBACK");
  ("intelligence.graphDisabled", "Topology graph is disabled");
  ("intelligence.graphDisabledDescription", "The Inspector and evidence table preserve the same contracted information.");
  ("intelligence.observedOnly", "OBSERVED COUNTS");
  ("intelligence.relationship", "relationship");
  ("intelligence.lastObserved", "Last observed");
  ("intelligence.openEndpoint", "Open Endpoint");
  ("intelligence.observedTargetDescription", "Destination observed in Event evidence. This may be a Domain, HTTP Host, TLS SNI, IP, or DNS query.");
  ("intelligence.nodeType", "Node type");
  ("intelligence.topologySelectPrompt", "Select a node, edge, or evidence row to inspect its contracted fields.");
  ("intelligence.correlationTitle", "IP and Domain correlation");
  ("intelligence.correlationSubtitle", "Combine live DNS candidates with IP and Domain relationships already observed in Event evidence");
  ("intelligence.correlationValue", "IP or Domain");
  ("intelligence.correlationPlaceholder", "8.8.8.8 or yahoo.com");
  ("intelligence.lookup", "Look up relationships");
  ("intelligence.tryObservedSignal", "Try an observed signal");
  ("intelligence.correlationReady", "Choose an IP or Domain");
  ("intelligence.correlationReadyDescription", "Search directly or select a Top Domain or Remote IP from the current time range.");
  ("intelligence.noCorrelation", "No related values found");
  ("intelligence.noCorrelationDescription", "Live DNS and the selected Event evidence contain no matching IP or Domain relationship.");
  ("intelligence.relatedCount", "{count} related value(s)");
  ("intelligence.correlationLegend", "DNS relationship legend");
  ("intelligence.inputNode", "Search input");
  ("intelligence.ptrCaveat", "PTR names are candidates and never replace the original IP.");
  ("intelligence.correlationGraphAria", "IP and Domain correlation graph");
  ("intelligence.expandCorrelation", "Open IP and Domain correlation graph in large view");
  ("intelligence.expandedCorrelation", "IP and Domain correlation — Large view");
  ("intelligence.closeExpandedCorrelation", "Close large IP and Domain correlation graph");
  ("intelligence.correlationGraphScope", "Graph shows {visible} of {total} relationships. The table retains all relationships.");
  ("intelligence.correlationGraphDisabled", "Correlation graph is disabled");
  ("intelligence.correlationGraphDisabledDescription", "The Inspector and relationship table preserve the same evidence.");
  ("intelligence.evidenceSource", "Evidence source");
  ("intelligence.ipNodeDescription", "The IP remains visible alongside its candidate Domains.");
  ("intelligence.domainNodeDescription", "Domain value returned by live DNS or observed Event evidence.");
  ("intelligence.correlationSelectPrompt", "Select a Domain, IP, or relationship to inspect its evidence source.");
  ("intelligence.correlationTable", "IP and Domain relationship evidence");
  ("archive.eyebrow", "STORAGE LIFECYCLE");
  ("archive.title", "Archive operations");
  ("archive.description", "Query Glacier Flexible Retrieval buckets and start temporary 7-day Standard retrieval.");
  ("archive.endpointHelp", "Comma-separated positive IDs");
  ("archive.invalidDateTime", "Use YYYY-MM-DD HH:mm in your local time.");
  ("archive.chooseRange", "Choose an Archive range");
  ("archive.chooseRangeDescription", "Enter one or more Endpoint IDs and a valid UTC range of at most 31 days. Archive data is not queried until these fields are valid.");
  ("archive.readiness", "Archive query readiness");
  ("archive.scopeReady", "Scope is valid");
  ("archive.valid", "READY");
  ("archive.incomplete", "INPUT REQUIRED");
  ("archive.queryScope", "Query scope");
  ("archive.requiredInput", "Required input");
  ("archive.endpointCount", "{count} Endpoint(s)");
  ("archive.endpointRequirement", "One or more comma-separated IDs");
  ("archive.utcRange", "UTC range");
  ("archive.rangeRequirement", "Maximum 31 days");
  ("archive.restorePolicy", "Restore policy");
  ("archive.actionBoundary", "Action boundary");
  ("archive.retrieval", "Retrieval");
  ("archive.temporaryCopy", "Temporary copy");
  ("archive.standardSevenDays", "Standard tier · 7 days");
  ("archive.nextStep", "Next step")
].

Definition english_7 : table := [
  ("archive.validationGated", "Validation gated");
  ("archive.readyDescription", "The scope is valid. The Archive query starts automatically and restore actions remain permission-gated.");
  ("archive.invalidScopeDescription", "Complete or correct the scope. No Archive API request is sent while validation fails.");
  ("archive.temporaryRestore", "Temporary restore");
  ("archive.policy", "Fixed policy: Days 7 · Standard tier");
  ("archive.starting", "Starting restore…");
  ("archive.start", "Start archive restore");
  ("archive.success", "Restore request processed. Archive status is refreshing.");
  ("archive.access", "Archive access");
  ("archive.viewerSubtitle", "VIEWER access is read-only");
  ("archive.viewerDescription", "Restore controls are hidden for VIEWER. Current bucket status remains available below.");
  ("archive.buckets", "Archive buckets");
  ("archive.records", "{total} S3 Glacier bucket records");
  ("archive.bucket", "Bucket");
  ("archive.objectPath", "Object path");
  ("archive.eventCount", "Events");
  ("archive.restoreWindow", "Restore window");
  ("archive.lastError", "Last error");
  ("archive.requested", "Requested {time}");
  ("archive.notRequested", "Not requested");
  ("archive.expires", "Expires {time}");
  ("archive.noExpiry", "No active expiry");
  ("archive.noBuckets", "No Archive buckets");
  ("archive.noBucketsDescription", "No S3 Glacier buckets overlap this Endpoint and time range.");
  ("archive.lifecycle", "Archive lifecycle");
  ("archive.lifecycleSubtitle", "Current bucket states in lifecycle order; zero and empty are shown explicitly");
  ("archive.lifecycleHot", "Queryable in the hot store");
  ("archive.lifecycleArchived", "Stored in Glacier and not restored");
  ("archive.lifecycleRequested", "Restore accepted and still in progress");
  ("archive.lifecycleRestored", "Temporarily available until expiry");
  ("archive.lifecycleFailed", "Restore failed; review the row error");
  ("archive.lifecycleExpired", "Temporary restore window expired");
  ("archive.successRequested", "Restore request accepted. Buckets remain RESTORE_REQUESTED until the Backend completes retrieval.")
].

Definition english : table :=
  (english_1 ++ english_2 ++ english_3 ++ english_4 ++ english_5 ++ english_6 ++ english_7)%list.

Definition korean_1 : table := [
  ("common.retry", "재시도");
  ("common.notAvailable", "정보 없음");
  ("common.none", "없음");
  ("common.noneReported", "보고된 정보 없음");
  ("common.requestIdUnavailable", "요청 ID 없음");
  ("common.requestId", "요청 {requestId}");
  ("common.to", "~");
  ("common.latest", "최근 {time}");
  ("common.oldest", "가장 오래된 시각 {time}");
  ("common.loading", "불러오는 중");
  ("common.refreshing", "데이터 새로고침 중");
  ("common.largeView", "큰 화면");
  ("navigation.primary", "주요 탐색 메뉴");
  ("navigation.skipToContent", "본문 바로가기");
  ("navigation.expand", "탐색 메뉴 펼치기");
  ("navigation.compact", "탐색 메뉴 접기");
  ("navigation.toggle", "탐색 메뉴 열기/닫기");
  ("navigation.close", "탐색 메뉴 닫기");
  ("navigation.logout", "로그아웃");
  ("navigation.breadcrumb", "경로 탐색");
  ("navigation.accountMenu", "계정 메뉴 열기");
  ("navigation.groupOverview", "Overview");
  ("navigation.groupTriage", "Triage");
  ("navigation.groupEvidence", "Evidence");
  ("navigation.groupAnalysis", "Analysis");
  ("navigation.groupPlatform", "Platform");
  ("navigation.dashboards", "Dashboards");
  ("navigation.archives", "Archives");
  ("navigation.investigationPath", "조사 흐름");
  ("navigation.pathSignal", "Signal");
  ("navigation.pathEvidence", "Evidence");
  ("navigation.pathDecision", "Decision");
  ("navigation.endpointDefense", "Endpoint Defense");
  ("navigation.evidenceFirst", "근거 중심 운영");
  ("search.aria", "Event 근거 검색");
  ("search.placeholder", "Endpoint ID 또는 Process");
  ("report.openAria", "인쇄용 Report 열기");
  ("report.close", "Report 닫기");
  ("report.printTitle", "Report 인쇄");
  ("report.snapshot", "{page} 스냅샷");
  ("report.page", "페이지");
  ("report.generated", "생성 시각");
  ("report.userRole", "사용자 역할");
  ("report.cancel", "취소");
  ("report.printSave", "인쇄 / PDF 저장");
  ("language.label", "언어");
  ("language.saveError", "언어 설정을 저장하지 못했습니다. 기존 언어를 계속 사용합니다.");
  ("theme.switchToLight", "라이트 테마로 전환");
  ("theme.switchToDark", "다크 테마로 전환");
  ("dashboard.managerAria", "Dashboard 관리");
  ("dashboard.settings", "Dashboard 설정");
  ("dashboard.settingsTitle", "Dashboard 설정");
  ("dashboard.closeSettings", "설정 닫기");
  ("dashboard.settingsDescription", "저장된 Layout을 선택하거나 명시적인 Draft를 열어 생성·편집·삭제하세요.");
  ("dashboard.overviewSettingsDescription", "읽기 전용 Overview Layout을 여기서 전환합니다. Widget 변경은 Workbench에서 진행하세요.");
  ("dashboard.activeLayout", "ACTIVE LAYOUT");
  ("dashboard.manage", "Dashboard 관리");
  ("dashboard.openOverview", "Overview 열기");
  ("dashboard.workbenchEyebrow", "LAYOUT WORKBENCH");
  ("dashboard.workbenchTitle", "Dashboard Layout");
  ("dashboard.workbenchDescription", "조사 목적에 맞는 화면을 구성하고 선택한 Layout을 Overview에 적용합니다. Layout은 로그인한 사용자 기준으로 이 Browser에 저장됩니다.");
  ("dashboard.workbenchContext", "BROWSER-LOCAL LAYOUT");
  ("dashboard.overviewContext", "ACTIVE DASHBOARD");
  ("dashboard.managementHint", "Overview에 적용할 Layout을 선택하거나 Draft 편집기를 여세요.");
  ("dashboard.readOnlyHint", "Overview는 선택한 Layout을 읽기 전용으로 표시합니다. Layout 변경은 Workbench에서 진행하세요.");
  ("dashboard.activeCustomDescription", "이 Browser-local Layout이 읽기 전용 Overview에 적용되어 있습니다.");
  ("dashboard.restoreDefault", "Default 적용");
  ("dashboard.layoutCatalog", "Layout 목록");
  ("dashboard.defaultFixed", "변경할 수 없는 제품 기본 Layout");
  ("dashboard.browserLocal", "Browser에 저장된 Custom Layout");
  ("dashboard.layoutState", "Layout 상태");
  ("dashboard.savedLayout", "저장된 Custom Layout");
  ("dashboard.widgetCount", "Widget 수");
  ("dashboard.storage", "저장 위치");
  ("dashboard.productDefault", "제품 기본값");
  ("dashboard.defaultRouteHint", "고정 Overview에서 현재 보안 상태를 확인하세요.");
  ("dashboard.openDraft", "Draft 편집기 열기");
  ("dashboard.savedCount", "이 사용자에게 저장된 Custom Dashboard {count}개");
  ("dashboard.selectorLabel", "Dashboard");
  ("dashboard.defaultName", "Default");
  ("dashboard.new", "새 Dashboard");
  ("dashboard.edit", "Dashboard 편집");
  ("dashboard.delete", "Dashboard 삭제");
  ("dashboard.newTitle", "새 Dashboard 만들기");
  ("dashboard.editTitle", "Custom Dashboard 편집");
  ("dashboard.builderDescription", "조사에 필요한 Widget만 선택합니다. 저장을 선택할 때 변경사항이 반영됩니다.");
  ("dashboard.nameLabel", "Dashboard 이름");
  ("dashboard.namePlaceholder", "예: 우선 조사");
  ("dashboard.saveRequirements", "필수: 이름을 입력하고 Widget을 하나 이상 추가하세요.");
  ("dashboard.palette", "Widget 목록");
  ("dashboard.paletteDescription", "Widget을 Canvas로 끌거나 버튼을 눌러 Keyboard로 추가합니다.");
  ("dashboard.addWidget", "{widget} 추가");
  ("dashboard.removeWidget", "{widget} 제거");
  ("dashboard.dragHandle", "{widget} 이동");
  ("dashboard.widgetGeometry", "{widget}: {column}열, {row}행, 너비 {width}, 높이 {height}");
  ("dashboard.keyboardInstructions", "포커스한 Widget은 방향키로 이동하고 Shift와 방향키를 함께 눌러 크기를 조절합니다.");
  ("dashboard.paletteComplete", "모든 Widget을 Canvas에 추가했습니다. 다시 사용하려면 Canvas에서 Widget을 제거하세요.");
  ("dashboard.widgetAlreadyAdded", "이 Widget은 이미 Canvas에 있습니다.");
  ("dashboard.widgetPlacementUnavailable", "이 Widget을 배치할 공간이 없습니다. 기존 Widget을 이동하거나 크기를 줄이거나 제거하거나 더 작은 Widget을 선택하세요.");
  ("dashboard.emptyTitle", "조사 Widget 하나부터 시작하세요");
  ("dashboard.emptyDescription", "목록에서 Widget을 추가하세요. 저장하기 전에는 Dashboard가 생성되지 않습니다.");
  ("dashboard.save", "저장");
  ("dashboard.cancel", "취소");
  ("dashboard.editUnavailable", "Custom Dashboard 편집은 1280px 이상에서 사용할 수 있습니다.");
  ("dashboard.customAria", "Custom Dashboard: {name}");
  ("dashboard.deleteTitle", "Custom Dashboard 삭제");
  ("dashboard.deleteDescription", "{name}을 삭제할까요? 현재 사용자의 Browser-local layout이 제거됩니다.");
  ("dashboard.confirmDelete", "Dashboard 삭제");
  ("dashboard.closeDelete", "삭제 확인 닫기");
  ("filter.filters", "필터");
  ("filter.clear", "필터 초기화");
  ("filter.timeRange", "조회 기간");
  ("filter.latest15Minutes", "최근 15분");
  ("filter.latestHour", "최근 1시간");
  ("filter.latest24Hours", "최근 24시간");
  ("filter.latest7Days", "최근 7일");
  ("filter.customUtcRange", "UTC 기간 직접 설정");
  ("filter.from", "시작");
  ("filter.to", "종료");
  ("filter.availableRanges", "조회 가능한 데이터 기간");
  ("filter.availabilityLoading", "조회 가능한 기간을 확인하는 중입니다.");
  ("filter.availabilityUnavailable", "조회 가능한 기간을 확인하지 못했습니다.");
  ("filter.noAvailableRanges", "현재 조회 가능한 데이터 기간이 없습니다.");
  ("filter.unavailableRangeTitle", "선택한 기간에 조회 가능한 데이터가 없습니다");
  ("filter.unavailableRangeDescription", "아래 조회 가능한 데이터 기간에서 다시 선택하세요.");
  ("filter.status", "상태");
  ("filter.order", "정렬");
  ("filter.sort", "정렬");
  ("filter.priority", "우선순위");
  ("filter.allStatuses", "전체 상태");
  ("filter.allSeverities", "전체 심각도");
  ("filter.newestFirst", "최신순");
  ("filter.oldestFirst", "오래된순");
  ("filter.descending", "내림차순");
  ("filter.ascending", "오름차순");
  ("filter.more", "추가 필터");
  ("filter.moreTitle", "추가 필터");
  ("filter.closeMore", "추가 필터 닫기");
  ("filter.done", "완료");
  ("filter.active", "적용된 필터")
].

Definition korean_2 : table := [
  ("filter.remove", "{label} 필터 제거");
  ("filter.sortColumn", "{label} 정렬, {direction}");
  ("filter.invalidTitle", "잘못된 필터");
  ("filter.invalidDescription", "데이터를 불러오기 전에 URL 필터와 입력값이 지원되는 형식인지 확인하세요.");
  ("pagination.label", "페이지 탐색");
  ("pagination.previous", "이전");
  ("pagination.next", "다음");
  ("pagination.summary", "{page} / {totalPages}페이지 · 총 {total}건");
  ("pagination.pageSize", "페이지당 행 수");
  ("table.aria", "{label} 표");
  ("error.dataLoad", "요청한 데이터를 불러오지 못했습니다.");
  ("error.retryableHelp", "마지막 정상 데이터가 오래되었을 수 있습니다. 서비스가 복구되면 다시 시도하세요.");
  ("error.actionHelp", "요청 내용을 확인한 뒤 아래 작업을 다시 시도하세요.");
  ("error.refreshStale", "새로고침에 실패하여 마지막 정상 데이터를 표시합니다.");
  ("error.archiveAction", "Archive Operations 열기");
  ("error.validation", "요청 값이 올바르지 않습니다. 입력값을 확인하세요.");
  ("error.invalidToken", "세션이 더 이상 유효하지 않습니다. 다시 로그인하세요.");
  ("error.forbidden", "이 작업을 수행할 권한이 없습니다.");
  ("error.notFound", "요청한 리소스를 찾을 수 없습니다.");
  ("error.serviceUnavailable", "Backend 서비스를 일시적으로 사용할 수 없습니다.");
  ("error.archiveNotReady", "Archive 데이터를 아직 사용할 수 없습니다.");
  ("error.rollupNotReady", "Dashboard Rollup을 아직 준비 중입니다. 다시 시도하면 ClickHouse에서 현재 Event 지표를 조회합니다.");
  ("error.network", "Backend에 연결할 수 없습니다. 연결을 확인하고 다시 시도하세요.");
  ("error.invalidEnvelope", "Backend 응답 형식이 올바르지 않습니다.");
  ("error.dashboardRevisionConflict", "다른 Session에서 Dashboard Layout이 변경되었습니다. 다시 불러온 뒤 재시도하세요.");
  ("error.dashboardNotFound", "지원하지 않는 Dashboard Layout입니다.");
  ("error.invalidDashboardLayout", "Dashboard Layout이 올바르지 않습니다.");
  ("error.detailField", "{field} 항목을 확인하세요.");
  ("error.detailUnknown", "요청 세부 내용을 확인하세요.");
  ("error.partialTitle", "일부 근거를 사용할 수 없음");
  ("edrState.current", "현재 EDR 상태");
  ("edrState.diagnostics", "EDR 진단 축");
  ("edrState.threatLevel", "Threat Level");
  ("edrState.collectionHealth", "Collection Health");
  ("edrState.reasonCodes", "상태 영향 요인");
  ("edrState.noReasons", "활성 Risk 요인 없음");
  ("edrState.reason.mediumEndpointRisk", "중간 등급 Endpoint Risk");
  ("edrState.reason.highEndpointRisk", "높은 등급 Endpoint Risk");
  ("edrState.reason.criticalEndpointRisk", "Critical 등급 Endpoint Risk");
  ("edrState.reason.openIncident", "진행 중인 Incident");
  ("edrState.reason.criticalAlert", "Critical Alert");
  ("edrState.reason.offlineEndpoint", "Offline Endpoint");
  ("edrState.reason.staleEndpoint", "갱신 지연 Endpoint");
  ("edrState.reason.degradedSensor", "성능 저하 Sensor");
  ("edrState.reason.unavailableSensor", "사용 불가 Sensor");
  ("edrState.reason.ingestFailure", "수집 실패");
  ("edrState.reason.ingestDelayed", "수집 지연");
  ("edrState.reason.storageFailure", "Storage 실패");
  ("edrState.calculated", "계산 시각 {time}");
  ("edrState.aria", "EDR 상태 {state}, 점수 {score}");
  ("empty.noResponseGuidance", "Response 가이던스 없음");
  ("empty.responseGuidanceDescription", "일치하는 RuleV1 버전에 Response 가이던스 단계가 없습니다.");
  ("empty.noRiskFactors", "활성 Risk 요인 없음");
  ("empty.riskFactorsDescription", "Backend에서 활성 Alert 또는 Incident Risk 요인을 반환하지 않았습니다.");
  ("risk.openSource", "{sourceType} Source 열기");
  ("risk.openIncidentContribution", "진행 중인 Correlation Incident 반영");
  ("empty.sourceEventUnavailable", "Source Event를 조회할 수 없습니다");
  ("empty.sourceEventDescription", "현재 HOT 또는 RESTORED Storage에서 Event를 조회할 수 없습니다.");
  ("charts.noSeverityTitle", "Alert 심각도 데이터가 없습니다");
  ("charts.noSeverityDescription", "선택한 기간에 탐지된 Alert가 없습니다.");
  ("charts.severityAria", "심각도별 Alert {total}건");
  ("charts.noDistributionTitle", "분포 데이터가 없습니다");
  ("charts.noDistributionDescription", "Backend에서 빈 분포를 반환했습니다.");
  ("charts.noSeriesTitle", "{label} 시계열이 없습니다");
  ("charts.noSeriesDescription", "선택한 기간에 반환된 시간 Bucket이 없습니다.");
  ("charts.seriesAria", "{label} 시계열");
  ("charts.viewData", "{label} 데이터 표 보기");
  ("charts.bucket", "Bucket");
  ("charts.count", "건수");
  ("charts.noIncidentSeries", "Incident 시계열이 없습니다");
  ("charts.noDetectionActivity", "탐지 활동 데이터가 없습니다");
  ("charts.noIncidentSeriesDescription", "선택한 기간에 반환된 Incident 시간 Bucket이 없습니다.");
  ("charts.incidentSeriesAria", "OPEN 및 CLOSED Incident 시계열");
  ("charts.viewIncidentData", "Incident 데이터 표 보기");
  ("charts.viewMore", "나머지 {count}개 값 보기");
  ("charts.minimum", "최솟값");
  ("charts.average", "평균");
  ("charts.maximum", "최댓값");
  ("charts.currentValues", "현재 시계열 값");
  ("charts.bucketSelection", "Detection Activity 시간 Bucket");
  ("charts.selectBucket", "Backend Bucket 선택");
  ("charts.detectionSummary", "최신 Backend Bucket: Event {events}건, Alert {alerts}건, Open Incident {incidents}건.");
  ("charts.timeContext", "Bucket 범위 {from} – {to} · {timezone} · Backend Bucket별 건수");
  ("overview.eyebrow", "SECURITY POSTURE");
  ("overview.description", "EDR 상태, 수집 상태 및 근거 데이터 규모를 표시합니다.");
  ("overview.dashboardAria", "고정형 Overview Dashboard");
  ("overview.lastRefreshed", "마지막 갱신 {time}");
  ("overview.notYet", "아직 갱신되지 않음");
  ("overview.kpiAria", "주요 성과 지표");
  ("overview.totalAlerts", "전체 Alerts");
  ("overview.criticalAlerts", "Critical Alerts");
  ("overview.criticalAlertsDetail", "선택 기간의 Critical 심각도");
  ("overview.openIncidents", "Open Incidents");
  ("overview.incidents", "Incidents");
  ("overview.highRiskEndpoints", "HIGH 등급 Endpoints");
  ("overview.onlineEndpoints", "Online Endpoints");
  ("overview.eventFailures", "Event 실패");
  ("overview.storageBuckets", "Storage Bucket");
  ("overview.eventsDetail", "선택 기간 내 Event");
  ("overview.alertsDetail", "선택 기간 내 Alert");
  ("overview.currentlyOpen", "OPEN");
  ("overview.highRiskEndpointsDetail", "현재 HIGH 등급 스냅샷");
  ("overview.currentSnapshot", "현재 스냅샷");
  ("overview.currentFailureRows", "현재 실패 건수");
  ("overview.allLifecycleBuckets", "전체 Lifecycle Bucket");
  ("overview.alertSeverity", "Alert 심각도");
  ("overview.detectionActivity", "Detection Activity");
  ("overview.detectionActivityDescription", "Backend가 제공한 Event, Alert, Incident 시간 Bucket");
  ("overview.eventVolume", "Event 발생량");
  ("overview.alertVolume", "Alert 발생량");
  ("overview.incidentActivity", "Incident 활동");
  ("overview.endpointRisk", "Endpoint Risk");
  ("overview.fleetDistribution", "전체 Endpoint 현황");
  ("overview.fleetDistributionSubtitle", "Endpoint Risk와 현재 Sensor Health");
  ("overview.reportedEndpoints", "보고된 Endpoint {count}개");
  ("overview.reportedRiskSnapshots", "Risk 스냅샷 {count}개");
  ("overview.reportedSensorChecks", "보고된 Sensor 검사 {count}건");
  ("overview.noSensorHealthSnapshots", "조회 가능한 Sensor Health 스냅샷이 없습니다.");
  ("overview.fleetSnapshotNote", "현재 스냅샷입니다. 상세 원인은 Endpoints 또는 Operations에서 확인하세요.");
  ("overview.riskCritical", "치명적");
  ("overview.riskHigh", "높음");
  ("overview.riskMedium", "중간");
  ("overview.riskLow", "낮음");
  ("overview.sensorHealthy", "정상");
  ("overview.sensorDegraded", "저하");
  ("overview.sensorUnavailable", "사용 불가");
  ("overview.allSensors", "전체 Sensor");
  ("overview.sensorByType", "Sensor별 검사");
  ("overview.sensorStatusSummary", "{sensor}: 정상 {healthy}건, 저하 {degraded}건, 사용 불가 {unavailable}건, 총 {total}건");
  ("overview.endpointOs", "Endpoint OS");
  ("overview.sensorHealth", "Sensor Health");
  ("overview.topRules", "탐지 빈도 상위 Rule");
  ("overview.mitreDistribution", "MITRE 탐지 분포");
  ("overview.processNetwork", "Process · Network Signal");
  ("overview.fileDnsL7", "File · DNS · L7 Signal");
  ("overview.failureDistribution", "실패 분포");
  ("overview.storageDistribution", "스토리지 분포");
  ("overview.serverDistribution", "Backend 제공 분포");
  ("overview.serverBuckets", "Backend 제공 시간 Bucket");
  ("overview.openClosedBuckets", "OPEN 및 CLOSED Bucket")
].

Definition korean_3 : table := [
  ("overview.querySnapshot", "현재 조회 시점 스냅샷");
  ("overview.endpointSnapshot", "현재 Endpoint 스냅샷");
  ("overview.sensorSnapshots", "현재 보고된 Sensor 스냅샷");
  ("overview.mitreSubtitle", "Alert 스냅샷에서 관찰된 Tactic 및 Technique");
  ("overview.backendTopValues", "Backend에서 반환한 상위 값");
  ("overview.lifecycleSnapshot", "현재 Lifecycle 스냅샷");
  ("overview.highest", "최고 {value}");
  ("overview.oldestFailed", "가장 오래된 실패 {time}");
  ("overview.highestRiskEndpoints", "Risk가 가장 높은 Endpoint");
  ("overview.currentRiskSnapshot", "Backend가 계산한 최신 위험도 순위");
  ("overview.endpointActiveAlerts", "Endpoint {endpointId} · 활성 Alert {count}건");
  ("overview.noEndpoints", "Endpoint가 없습니다");
  ("overview.noEndpointRiskSnapshot", "조회 가능한 Endpoint Risk 스냅샷이 없습니다.");
  ("overview.incidentQueueWidget", "Incident Queue");
  ("overview.recentOpenIncidents", "최근 Open Incident 5건");
  ("overview.incidentAlertCount", "{time} · Alert {count}건");
  ("overview.noOpenIncidents", "Open Incident가 없습니다");
  ("overview.noOpenIncidentsDescription", "선택한 기간에 Open Incident가 없습니다.");
  ("overview.endpoint", "Endpoint");
  ("overview.incident", "Incident");
  ("overview.riskScore", "Risk 점수");
  ("overview.status", "상태");
  ("overview.lastDetected", "마지막 탐지");
  ("overview.partialFailure", "정상 응답 영역은 유지합니다. 실패한 영역을 다시 시도하거나 페이지를 새로고침하세요.");
  ("overview.responseGuidanceSummary", "Response 가이던스 요약");
  ("overview.responseGuidanceCount", "Rule 버전 {rules}개에 걸친 활성 Alert {alerts}건");
  ("overview.manualSteps", "수동 단계 {count}개");
  ("overview.toolbarAria", "Overview 제어");
  ("overview.endpointScope", "Endpoint 범위");
  ("overview.allEndpoints", "전체 Endpoints");
  ("overview.endpointScopeDescription", "Dashboard Summary API는 현재 전체 Endpoint 집계 범위를 지원합니다.");
  ("overview.timeRangeLabel", "시간 범위: {range}");
  ("overview.refresh", "새로 고침");
  ("overview.refreshing", "새로 고치는 중");
  ("overview.autoRefresh", "30초마다 자동 갱신");
  ("overview.signalRibbon", "관측 Signal Stream");
  ("overview.backendSnapshot", "Backend 스냅샷");
  ("overview.signalEvents", "Event 수집");
  ("overview.signalDetections", "Alert 탐지");
  ("overview.signalEndpointReach", "Online Endpoint");
  ("overview.signalOpenCases", "Open Investigation");
  ("alerts.description", "서버 페이지네이션으로 RuleV1 Detection과 현재 Workflow 상태를 표시합니다.");
  ("alerts.ruleCode", "Rule 코드");
  ("alerts.queue", "Alert Queue");
  ("alerts.records", "Alert {total}건");
  ("filter.severity", "심각도");
  ("alerts.risk", "Risk");
  ("alerts.detected", "탐지 시각");
  ("alerts.noResults", "Alert가 없습니다");
  ("alerts.noFilterMatch", "현재 필터와 일치하는 Alert가 없습니다.");
  ("alerts.noneInRange", "선택한 기간에 탐지된 Alert가 없습니다.");
  ("alerts.priorityOrder", "미처리 상태, 심각도, Risk, 최신 탐지 순");
  ("alert.evidence", "Alert 근거");
  ("alert.detectedAt", "탐지 시각 {time}");
  ("alert.riskScore", "Risk 점수");
  ("alert.mitreTactic", "MITRE Tactic");
  ("alert.mitreTechnique", "MITRE Technique");
  ("alert.updated", "갱신 시각");
  ("alert.workflowState", "Workflow 상태");
  ("alert.updateAllowed", "ADMIN과 ANALYST는 Alert 상태를 변경할 수 있습니다.");
  ("alert.viewerReadOnly", "VIEWER는 읽기 전용");
  ("alert.status", "Alert 상태");
  ("alert.viewerControlsHidden", "VIEWER에게는 상태 변경 기능이 표시되지 않습니다.");
  ("alert.sourceEvent", "Source Event");
  ("alert.sourceEventSubtitle", "HOT 또는 RESTORED Event 참조");
  ("alert.connectedIncidents", "연결된 Incident");
  ("alert.evidenceChain", "Evidence Chain");
  ("alert.evidenceChainDescription", "Endpoint부터 Incident까지 관측 근거 이동");
  ("alert.notConnected", "연결 없음");
  ("alert.correlationReferences", "읽기 전용 Correlation 참조");
  ("alert.noConnectedIncidents", "연결된 Incident가 없습니다");
  ("alert.noConnectedDescription", "이 Alert는 Incident에 연결되지 않았습니다.");
  ("alert.responseGuidance", "Response 가이던스");
  ("alert.guidanceSubtitle", "일치하는 RuleV1 버전의 읽기 전용 단계");
  ("alert.guidanceRuleVersion", "{ruleCode} v{version}의 읽기 전용 단계");
  ("alert.guidanceSteps", "순서가 지정된 Response Guidance 단계");
  ("alert.manualAction", "수동 조치");
  ("alert.activeQueue", "활성 Alert Queue");
  ("alert.requiresAction", "조치가 필요한 Alert {total}건");
  ("alert.riskValue", "Risk {score}");
  ("alert.queueCleared", "Queue가 비었습니다");
  ("alert.queueClearedDescription", "현재 기간, 심각도, Endpoint 및 Rule 필터와 일치하는 미해결 Alert가 없습니다.");
  ("alert.queueClearedRecoverableDescription", "현재 Queue에 미해결 Alert가 없습니다. 처리한 Alert는 아래에서 계속 확인하거나 다시 열 수 있습니다.");
  ("alert.workflowSaved", "Alert Workflow 상태를 저장했습니다.");
  ("alert.saveOrContinue", "이 Alert를 저장하거나 다음 미해결 항목으로 바로 이동합니다");
  ("alert.saveStatus", "상태 저장");
  ("alert.submitNext", "저장 후 다음");
  ("alert.nextItem", "다음: {ruleCode} · {title}");
  ("alert.noNextItem", "현재 Queue와 일치하는 다른 미해결 Alert가 없습니다.");
  ("incident.eyebrow", "ALERT CORRELATION");
  ("incident.description", "Detection Worker가 Alert를 Correlation Key와 시간 구간으로 묶어 생성하며 상태 변경은 감사 로그에 기록됩니다.");
  ("incident.queue", "Incident Queue");
  ("incident.records", "Incident {total}건");
  ("incident.alerts", "Alert 수");
  ("incident.window", "분석 구간");
  ("incident.noResults", "Incident가 없습니다");
  ("incident.noFilterMatch", "현재 필터와 일치하는 Incident가 없습니다.");
  ("incident.noneInRange", "선택한 기간에 Correlation된 Incident가 없습니다.");
  ("incident.noDescription", "이 Incident에 저장된 설명이 없습니다.");
  ("detection.procPowershellEncoded.title", "인코딩된 PowerShell 명령 실행 탐지");
  ("detection.procPowershellEncoded.ruleName", "PowerShell 인코딩 명령");
  ("detection.procPowershellEncoded.titleOnEndpoint", "{endpoint}의 PowerShell 인코딩 명령 탐지");
  ("detection.procPowershellEncoded.summary", "인코딩된 명령 인자로 PowerShell이 실행되었습니다.");
  ("detection.netSuspiciousEgress.title", "의심스러운 암호화 외부 통신 탐지");
  ("detection.netSuspiciousEgress.ruleName", "의심스러운 외부 통신 대상");
  ("detection.netSuspiciousEgress.titleOnEndpoint", "{endpoint}의 의심스러운 외부 통신 탐지");
  ("detection.netSuspiciousEgress.summary", "모니터링 중인 Process가 드문 외부 대상에 연결되었습니다.");
  ("detection.dnsRareDomain.title", "드문 Domain 질의 탐지");
  ("detection.dnsRareDomain.ruleName", "드문 Domain 질의");
  ("detection.dnsRareDomain.titleOnEndpoint", "{endpoint}의 드문 Domain 질의 탐지");
  ("detection.dnsRareDomain.summary", "Endpoint에서 드물게 관찰되는 Domain을 질의했습니다.");
  ("detection.fileSuspiciousDrop.title", "의심스러운 File 생성 탐지");
  ("detection.fileSuspiciousDrop.ruleName", "의심스러운 File 생성");
  ("detection.fileSuspiciousDrop.titleOnEndpoint", "{endpoint}의 의심스러운 File 생성 탐지");
  ("detection.fileSuspiciousDrop.summary", "Process가 의심스러운 Payload 또는 Artifact File을 생성했습니다.");
  ("detection.l7UploadAnomaly.title", "비정상 HTTPS 업로드 탐지");
  ("detection.l7UploadAnomaly.ruleName", "비정상 HTTPS 업로드");
  ("detection.l7UploadAnomaly.titleOnEndpoint", "{endpoint}의 비정상 HTTPS 업로드 탐지");
  ("detection.l7UploadAnomaly.summary", "외부 Host로 향하는 비정상 업로드 요청이 관찰되었습니다.");
  ("detection.qaLongRange.summary", "{agentId}의 장기 구간 QA Alert입니다.");
  ("guidance.reviewDomainProcess", "Domain과 질의 Process 확인");
  ("guidance.blockMaliciousDomain", "악성 Domain 차단");
  ("guidance.validateFileOrigin", "File 출처와 Hash 확인");
  ("guidance.quarantineMaliciousFile", "확인된 악성 File 격리");
  ("guidance.reviewUploadContext", "업로드 Context 확인");
  ("guidance.restrictUploadPath", "승인되지 않은 업로드 경로 제한");
  ("guidance.reviewDestinationProcess", "목적지와 Source Process 확인");
  ("guidance.containUnauthorizedEgress", "승인되지 않은 외부 통신 차단");
  ("guidance.reviewSourceEvent", "Source Event 확인");
  ("incident.context", "Correlation Context");
  ("incident.contextSubtitle", "Event와 Alert 근거를 보존하는 Detection 결과입니다");
  ("incident.correlationKey", "Correlation Key");
  ("incident.alertCount", "Alert 수");
  ("incident.windowStart", "구간 시작");
  ("incident.windowEnd", "구간 종료");
  ("incident.firstDetected", "최초 탐지 시각");
  ("incident.lastDetected", "마지막 탐지 시각");
  ("incident.closed", "종료 시각");
  ("incident.lifecycle", "Lifecycle 정책");
  ("incident.statusControlDescription", "ADMIN과 ANALYST는 Incident를 다시 열거나 종료할 수 있습니다. 수동 상태는 다시 변경할 때까지 유지됩니다.")
].

Definition korean_4 : table := [
  ("incident.statusSaved", "Incident 상태를 저장했습니다.");
  ("incident.saveStatus", "Incident 상태 저장");
  ("incident.viewerReadOnly", "VIEWER는 Incident 상태를 변경할 수 없습니다");
  ("incident.viewerReadOnlyDescription", "현재 상태는 조회할 수 있지만 변경 권한은 없습니다.");
  ("incident.connectedAlerts", "연결된 Alert");
  ("incident.connectedSubtitle", "이 Incident에 연결된 Alert 스냅샷");
  ("incident.noConnectedAlerts", "연결된 Alert가 없습니다");
  ("incident.noConnectedAlertsDescription", "이 Incident에 연결된 Alert가 없습니다.");
  ("incident.attackTimeline", "Attack Timeline");
  ("incident.attackTimelineSubtitle", "Backend가 구성한 Event → Alert → Incident 근거");
  ("incident.noTimelineEvidence", "Timeline 근거가 없습니다");
  ("incident.noTimelineDescription", "연결된 Event 또는 Alert 스냅샷이 없습니다.");
  ("incident.workbench", "Incident 조사 Workbench");
  ("incident.activeQueue", "Open Incident Queue");
  ("incident.activeQueueDescription", "목록 필터를 유지하고 진행 중인 조사를 먼저 엽니다");
  ("incident.queueMeta", "Alert {alerts}개 · {time}");
  ("incident.noActiveQueue", "진행 중인 Incident가 없습니다");
  ("incident.noActiveQueueDescription", "현재 목록 조건과 일치하는 OPEN Incident가 없습니다.");
  ("incident.investigation", "Investigation Graph");
  ("incident.investigationSubtitle", "Backend 관측 관계와 동기화된 Context 및 Evidence");
  ("incident.observedOnly", "OBSERVED ONLY");
  ("incident.observedRelationDescription", "원본 record로 확인된 관계이며 추론된 인과관계를 의미하지 않습니다.");
  ("incident.legend", "범례");
  ("incident.observedNodes", "Observed nodes");
  ("incident.expandObservedNodes", "Observed nodes 크게 보기");
  ("incident.expandedInvestigation", "Observed nodes · 확대 조사");
  ("incident.closeExpandedInvestigation", "확대 조사 닫기");
  ("incident.edges", "관측 Edge");
  ("incident.selectedContext", "선택 Context");
  ("incident.selectedPrompt", "Graph node, edge, Timeline 항목 또는 Evidence 행을 선택하세요.");
  ("incident.nothingSelected", "선택 항목 없음");
  ("incident.investigationPartial", "Graph가 일부 누락되었거나 제한되었습니다. Timeline과 Evidence 표를 기본 fallback으로 사용합니다.");
  ("incident.investigationWarnings", "Investigation 경고");
  ("incident.warningArchiveNotReady", "Event 근거가 아직 준비되지 않은 Archive Bucket에 있습니다.");
  ("incident.warningEventNotFound", "HOT 또는 RESTORED Storage에서 Event 근거를 찾을 수 없습니다.");
  ("incident.graphDisabled", "Feature flag로 Graph 렌더링이 꺼져 있습니다");
  ("incident.graphEmpty", "표시할 Graph node가 없습니다");
  ("incident.graphIncomplete", "Graph가 완전하지 않습니다");
  ("incident.tableFallback", "TABLE FALLBACK");
  ("incident.graphFallbackDescription", "아래의 관측 Timeline, 연결 Alert와 Evidence record를 사용하세요.");
  ("incident.graphRequestFailed", "Graph 요청이 실패했습니다. Timeline과 연결 Alert 근거는 계속 사용할 수 있습니다.");
  ("incident.evidenceList", "관측 Evidence");
  ("incident.evidenceSubtitle", "모든 Edge에서 사용 가능한 Incident, Alert 또는 Event 원본으로 이동할 수 있습니다");
  ("incident.noGraphEvidence", "Graph Evidence 없음");
  ("incident.relation", "관계");
  ("incident.relation.contains", "포함");
  ("incident.relation.triggeredBy", "실행 유발");
  ("incident.relation.parentOf", "상위 Process");
  ("incident.relation.connectedTo", "연결");
  ("incident.source", "출발점");
  ("incident.target", "도착점");
  ("incident.evidence", "근거");
  ("incident.observedAt", "관측 시각");
  ("incident.sourceRecord", "원본 Record");
  ("incident.nodeType", "Node 유형");
  ("incident.process", "Process");
  ("incident.destination", "Destination");
  ("incident.protocol", "Protocol");
  ("incident.selectEvidence", "Evidence 선택");
  ("incident.processTree", "Process Tree");
  ("incident.processTreeSubtitle", "Incident 구간에서 Process node를 선택한 경우에만 불러옵니다");
  ("incident.selectProcess", "Process node를 선택하세요");
  ("incident.selectProcessDescription", "관측 Process node 또는 연결 Edge를 선택해 Endpoint Process Tree를 불러오세요.");
  ("endpoints.eyebrow", "ENDPOINT SNAPSHOT");
  ("endpoints.description", "폐기된 자산을 포함하여 Endpoint 상태와 Backend에서 계산한 Risk를 표시합니다.");
  ("endpoints.operatingSystem", "OS");
  ("endpoints.search", "Endpoint 검색");
  ("endpoints.allSystems", "전체 OS");
  ("endpoints.riskLevel", "Risk Level");
  ("endpoints.allLevels", "전체 Level");
  ("endpoints.riskScore", "Risk 점수");
  ("endpoints.lastSeen", "마지막 확인 시각");
  ("endpoints.registered", "등록 시각");
  ("endpoints.inventory", "Endpoint Inventory");
  ("endpoints.records", "Endpoint {total}건");
  ("endpoints.activeAlerts", "활성 Alert");
  ("endpoints.openIncidents", "Open Incident");
  ("endpoints.versionUnavailable", "버전 정보 없음");
  ("endpoints.stale", "갱신 지연");
  ("endpoints.noResults", "Endpoint가 없습니다");
  ("endpoints.noFilterMatch", "현재 필터와 일치하는 Endpoint가 없습니다.");
  ("endpoints.noneRegistered", "등록된 Endpoint가 없습니다.");
  ("endpoint.staleWarning", "Endpoint 스냅샷 갱신이 지연되었습니다. 마지막 확인 시각 {time}.");
  ("endpoint.profile", "Endpoint 정보");
  ("endpoint.profileSubtitle", "현재 Agent 및 플랫폼 스냅샷");
  ("endpoint.agentVersion", "Agent 버전");
  ("endpoint.architecture", "아키텍처");
  ("endpoint.capabilities", "Capability");
  ("endpoint.calculated", "계산 시각 {time}");
  ("endpoint.highestAlertScore", "최고 Alert 점수");
  ("endpoint.sensorHealth", "Sensor Health");
  ("endpoint.heartbeatSubtitle", "최신 Heartbeat 스냅샷");
  ("endpoint.provider", "제공자");
  ("endpoint.packetDrops", "패킷 손실");
  ("endpoint.parseErrors", "파싱 오류");
  ("endpoint.noSensor", "Sensor Health 정보가 없습니다");
  ("endpoint.noSensorDescription", "Endpoint에서 Sensor 스냅샷을 보고하지 않았습니다.");
  ("endpoint.certificateHistory", "인증서 이력");
  ("endpoint.certificateSubtitle", "공개 인증서 식별 정보만 표시");
  ("endpoint.issued", "발급 시각");
  ("endpoint.expires", "만료 시각");
  ("endpoint.revoked", "폐기 시각");
  ("endpoint.noCertificates", "인증서 이력이 없습니다");
  ("endpoint.noCertificatesDescription", "이 Endpoint에서 조회할 수 있는 인증서 기록이 없습니다.");
  ("endpoint.switcher", "Endpoint 전환");
  ("endpoint.switcherPlaceholder", "Hostname, Agent ID 또는 정확한 Endpoint ID");
  ("endpoint.switcherError", "Endpoint 검색에 실패했습니다. 다시 시도하세요.");
  ("endpoint.switcherEmpty", "검색과 일치하는 Endpoint가 없습니다.");
  ("endpoint.current", "현재 Endpoint {endpointId}");
  ("endpoint.relatedEvidence", "관련 Evidence");
  ("endpoint.relatedEvidenceSubtitle", "Backend count와 소유 목록으로 이동하는 링크");
  ("endpoint.recentEvents", "최근 Event");
  ("endpoint.openRecentEvents", "최근 Event 열기");
  ("endpoint.processTreeEntry", "Process Tree에 필요한 시간 구간을 확보하려면 Event를 선택하세요.");
  ("endpoint.chooseEvent", "Event 선택");
  ("endpoint.certificateAnomaly", "검토가 필요한 인증서");
  ("events.description", "HOT ClickHouse 및 직접 읽은 RESTORED Parquet Event를 표시합니다.");
  ("events.type", "Event 유형");
  ("events.allTypes", "전체 유형");
  ("events.stream", "Event Stream");
  ("events.records", "Event {total}건");
  ("events.occurred", "발생 시각");
  ("events.ingested", "수집 시각");
  ("events.noResults", "Event가 없습니다");
  ("events.noFilterMatch", "현재 필터와 일치하는 Event가 없습니다.");
  ("events.noneInRange", "선택한 기간에 조회 가능한 Event가 없습니다.");
  ("event.routingMissing", "Event 경로 정보가 없습니다");
  ("event.routingDescription", "endpointId와 occurredAt이 URL query에 유지되도록 Event 목록에서 이 Event를 여세요.");
  ("event.return", "Events로 돌아가기");
  ("event.occurred", "발생 시각");
  ("event.ingested", "수집 시각");
  ("event.processName", "Process 이름");
  ("event.processPath", "Process 경로");
  ("event.commandLine", "Command Line");
  ("event.user", "사용자");
  ("event.filePath", "File 경로");
  ("event.fileAction", "File 동작");
  ("event.dnsAnswers", "DNS 응답");
  ("event.normalized", "정규화 Event");
  ("event.normalizedSubtitle", "필수 및 nullable Event DTO 필드")
].

Definition korean_5 : table := [
  ("event.payloadIdentity", "Payload 식별 정보");
  ("event.payloadSubtitle", "Packet 또는 PCAP byte는 표시하지 않음");
  ("event.schemaVersion", "Schema 버전");
  ("event.rawPayload", "원본 Payload");
  ("event.rawPayloadSubtitle", "정규화 Metadata Event JSON");
  ("event.processTree", "Process Tree");
  ("event.processTreeSubtitle", "현재 Event 전 30분부터 후 5분까지 수집된 Event 기반 PID/PPID 계보");
  ("event.rawPayloadCollapsed", "기본 접힘 · 인쇄 제외");
  ("event.searchPayload", "Raw Payload 검색");
  ("event.payloadMatches", "일치 {count}건");
  ("event.copyPayload", "JSON 복사");
  ("event.copied", "복사됨");
  ("event.groupIdentity", "식별 정보와 시각");
  ("event.groupIdentitySubtitle", "공통 Event, Endpoint, Agent 및 timestamp field");
  ("event.groupProcess", "Process와 사용자");
  ("event.groupProcessSubtitle", "Process 계보와 실행 Context");
  ("event.groupFile", "File 활동");
  ("event.groupFileSubtitle", "File 경로, 동작 및 hash Evidence");
  ("event.groupNetwork", "Network Destination");
  ("event.groupNetworkSubtitle", "관측된 remote 주소와 protocol field");
  ("event.groupDns", "DNS Evidence");
  ("event.groupDnsSubtitle", "Query, response와 수집된 answer");
  ("event.groupHttpTls", "HTTP와 TLS");
  ("event.groupHttpTlsSubtitle", "관측된 L7 request와 인증서 metadata");
  ("event.observedFallback", "{eventType} 관찰");
  ("events.typeDetail", "Event 상세");
  ("operations.eyebrow", "수집 상태");
  ("operations.description", "실시간 의존 서비스 점검, Kafka Worker Lag, 수집 최신성과 Storage Lifecycle을 표시합니다.");
  ("operations.archiveAction", "Archive Operations");
  ("operations.ingestedEvents", "수집된 Event");
  ("operations.failed", "실패");
  ("operations.reprocessed", "재발행 완료");
  ("operations.reprocessFailed", "재처리 실패");
  ("operations.reprocessedDetail", "CLI 재발행을 Kafka가 승인함(후속 처리와 별도)");
  ("operations.reprocessFailedDetail", "CLI 재처리 실패");
  ("operations.storageLifecycle", "STORAGE LIFECYCLE");
  ("operations.storageSubtitle", "현재 ingest_metadata 건수");
  ("operations.boundary", "운영 범위");
  ("operations.boundarySubtitle", "실패 재처리는 CLI에서만 가능");
  ("operations.noWebReplay", "DLQ Monitor 및 Web 재처리 기능 없음");
  ("operations.boundaryDescription", "이 화면은 계약된 요약 건수와 Archive Lifecycle 작업만 제공합니다.");
  ("operations.refreshing", "새로고침 중");
  ("operations.refreshLive", "실시간 상태 새로고침");
  ("operations.failureStatus", "실패 상태");
  ("operations.stage", "Stage");
  ("operations.retryable", "재시도 가능");
  ("operations.all", "전체");
  ("operations.notRetryable", "재시도 불가");
  ("operations.failureQueue", "Failure Queue");
  ("operations.failureQueueSubtitle", "읽기 전용 Failure Sink이며 재처리는 CLI에서만 수행합니다");
  ("operations.eventFailureQueue", "Event Failure Queue");
  ("operations.failure", "Failure");
  ("operations.retry", "재시도");
  ("operations.error", "오류");
  ("operations.failedAt", "실패 시각");
  ("operations.no", "아니요");
  ("operations.attempts", "{count}회 시도");
  ("operations.uncoded", "코드 없음");
  ("operations.noFailureRows", "Failure가 없습니다");
  ("operations.noFailureRowsDescription", "현재 필터와 일치하는 Event Failure가 없습니다.");
  ("operations.liveControlPlane", "실시간 Control Plane");
  ("operations.checked", "확인 시각 {time}");
  ("operations.serviceHealth", "서비스 상태");
  ("operations.serviceHealthSubtitle", "요청 시점 점검이며 과거 상태는 저장하지 않습니다");
  ("operations.pipelineWorkers", "Pipeline Worker");
  ("operations.pipelineWorkersSubtitle", "Kafka Consumer 멤버십과 현재 committed-offset Lag");
  ("operations.pipelineWorkerHealth", "Pipeline Worker 상태");
  ("operations.members", "멤버 수");
  ("operations.brokerState", "Broker 상태");
  ("operations.unknown", "알 수 없음");
  ("operations.ingestFreshness", "{rate}/분 · 마지막 수집 {time} · {minutes}분 전");
  ("operations.noIngestedInRange", "선택한 기간에 수집된 Event가 없습니다");
  ("operations.failureRate", "{rate}/분 · 가장 오래된 실패 {time}");
  ("operations.ingestPartial", "Ingest 및 Storage 요약을 사용할 수 없습니다. 실시간 Service와 Worker 점검은 계속 표시합니다.");
  ("operations.healthPartial", "실시간 Service 및 Worker 점검을 사용할 수 없습니다. Ingest, Failure 및 Storage 요약은 계속 표시합니다.");
  ("operations.currentPipelineSnapshot", "현재 Pipeline 스냅샷");
  ("operations.currentPipelineSnapshotSubtitle", "문제 영역을 먼저 표시하며 조회 시점 상태 목록이지 과거 Flow가 아닙니다");
  ("operations.stageCOLLECTION", "Collection");
  ("operations.stageDETECTION", "Detection");
  ("operations.stageSTORAGE", "Storage");
  ("operations.collectionEvents", "수집 Event {count}건");
  ("operations.collectionLatest", "마지막 Event {time}");
  ("operations.detectionWorkers", "Worker {count}개 · 전체 Lag {lag}");
  ("operations.detectionFailures", "현재 Failure {count}건");
  ("operations.storageBuckets", "추적 Bucket {count}개");
  ("operations.storageExceptions", "Restore 중 {restoring} · 실패 {failed}");
  ("operations.snapshotCaveat", "{time} 확인 스냅샷입니다. Stage를 움직이는 과거 Flow로 표현하지 않습니다.");
  ("operations.collectionPath", "다계층 수집 경로");
  ("operations.collectionPathSubtitle", "Agent Evidence부터 Detection 저장까지");
  ("operations.collectionPathCaveat", "각 상태는 현재 Operations 계약에서 가져옵니다. NO PROBE는 실시간 Health Signal이 없는 아키텍처 계층입니다.");
  ("operations.pathAgent", "Windows / macOS Agent");
  ("operations.pathCollector", "Collector API");
  ("operations.pathStorageWorker", "Event Storage Worker");
  ("operations.pathDetectionWorker", "Detection Worker");
  ("operations.noHealthProbe", "계약된 실시간 Health Probe 없음");
  ("operations.backendResponding", "인증된 Operations Endpoint가 정상 응답 중입니다.");
  ("operations.liveProbeSucceeded", "실시간 의존성 점검에 성공했습니다.");
  ("operations.liveProbeFailedPlain", "실시간 의존성 점검에 실패했습니다.");
  ("operations.liveProbeFailed", "실시간 의존성 점검에 실패했습니다({error}).");
  ("operations.workerProbeFailedPlain", "Worker 점검에 실패했습니다.");
  ("operations.workerProbeFailed", "Worker 점검에 실패했습니다({error}).");
  ("operations.brokerGroupState", "Broker Group 상태: {state}");
  ("operations.memberLag", "멤버 {count}개 · Lag {lag}");
  ("operations.problemSummary", "현재 문제 요약");
  ("operations.problemSummaryDescription", "문제 영역 우선 · 조회 시점 상태");
  ("processTree.empty", "Process 계보가 없습니다");
  ("processTree.emptyDescription", "주변 35분 구간에 수집된 PROCESS_EXECUTION Event가 없습니다.");
  ("processTree.aria", "수집된 Process 계보");
  ("processTree.commandUnavailable", "Command Line 정보 없음");
  ("processTree.metadata", "{time} · PID {pid} · PPID {ppid} · Event {count}건");
  ("processTree.selectedPid", "선택한 PID");
  ("processTree.parentNotCaptured", "상위 Process 미수집");
  ("intelligence.description", "기존 Event 및 Alert 근거에서 계산한 MITRE 매핑과 Endpoint Egress 관계를 표시합니다.");
  ("intelligence.mappedTactics", "매핑된 Tactic");
  ("intelligence.mitreTactics", "MITRE Tactic");
  ("intelligence.mappedTechniques", "매핑된 Technique");
  ("intelligence.mitreTechniques", "MITRE Technique");
  ("intelligence.observedEgress", "Egress가 관찰된 Endpoint");
  ("intelligence.topologyNodes", "Topology Node");
  ("intelligence.uniqueRelationships", "고유 Endpoint-통신 목적지 관계");
  ("intelligence.egressEdges", "Egress Edge");
  ("intelligence.alertDistribution", "Alert 스냅샷 분포");
  ("intelligence.topDomains", "상위 Domain");
  ("intelligence.topRemoteIps", "상위 Remote IP");
  ("intelligence.topProcesses", "상위 Process");
  ("intelligence.normalizedValues", "정규화 Event 값");
  ("intelligence.egressTopology", "Endpoint Egress Topology");
  ("intelligence.egressSubtitle", "Event 및 Alert 건수만 표시하며 Traffic Byte 양은 추론하지 않습니다");
  ("intelligence.noRelationships", "Egress 관계가 없습니다");
  ("intelligence.noRelationshipsDescription", "일치하는 Network, DNS 또는 L7 Event Target이 없습니다.");
  ("intelligence.relationships", "Endpoint Egress 관계");
  ("intelligence.source", "Source");
  ("intelligence.target", "Target");
  ("intelligence.destination", "통신 목적지");
  ("intelligence.summaryUnavailable", "MITRE 및 Top-N 요약을 사용할 수 없습니다. Egress 근거는 계속 확인할 수 있습니다.");
  ("intelligence.topologyUnavailable", "Egress Topology를 사용할 수 없습니다. MITRE 및 Top-N 근거는 계속 확인할 수 있습니다.");
  ("intelligence.mitreMatrix", "MITRE Matrix");
  ("intelligence.mitreMatrixSubtitle", "현재 Alert 스냅샷의 Tactic 및 Technique 건수이며 인과 경로를 추론하지 않습니다");
  ("intelligence.currentAlertSnapshot", "현재 ALERT 스냅샷");
  ("intelligence.observedTactics", "관측 Tactic")
].

Definition korean_6 : table := [
  ("intelligence.observedTechniques", "관측 Technique");
  ("intelligence.coverageUnavailable", "Coverage 미지원");
  ("intelligence.coverageUnavailableDescription", "활성 RuleV1 Technique Catalog API 필요");
  ("intelligence.mitreSelectPrompt", "Tactic 또는 Technique을 선택해 현재 Alert 건수를 확인하세요.");
  ("intelligence.selectedContext", "선택 Context");
  ("intelligence.mappingType", "Mapping 유형");
  ("intelligence.mappingCode", "Mapping 코드");
  ("intelligence.alertCount", "Alert 건수");
  ("intelligence.eventCount", "Event 건수");
  ("intelligence.timeRange", "조회 기간");
  ("intelligence.nothingSelected", "선택 항목 없음");
  ("intelligence.openTableFallback", "Semantic Table fallback 열기");
  ("intelligence.mitreTableFallback", "MITRE Mapping Table fallback");
  ("intelligence.rulesSignals", "Rule 및 Signal Top-N");
  ("intelligence.topNSubtitle", "동일 조회 시점 스냅샷의 순위별 건수");
  ("intelligence.rules", "Rule");
  ("intelligence.signals", "Signal");
  ("intelligence.alertsCount", "Alert {count}건");
  ("intelligence.noMappings", "MITRE Mapping이 없습니다");
  ("intelligence.noMappingsDescription", "이 기간에 관찰된 Tactic 또는 Technique Mapping이 없습니다.");
  ("intelligence.searchTopology", "Topology 검색");
  ("intelligence.topN", "상위 관계 수");
  ("intelligence.expandTopology", "Endpoint Egress Topology를 큰 화면으로 열기");
  ("intelligence.expandedTopology", "Endpoint Egress Topology — 큰 화면");
  ("intelligence.closeExpandedTopology", "큰 Endpoint Egress Topology 닫기");
  ("intelligence.noFilteredRelationships", "일치하는 관계가 없습니다");
  ("intelligence.noFilteredRelationshipsDescription", "Topology 검색어나 Top-N 제한을 변경하세요.");
  ("intelligence.legend", "범례");
  ("intelligence.observedEdge", "관찰된 관계");
  ("intelligence.alertBearingEdge", "Alert가 포함된 관계");
  ("intelligence.countsNotTraffic", "Label은 Event 및 Alert 건수이며 Traffic 양이 아닙니다.");
  ("intelligence.graphAria", "Endpoint Egress Topology Graph");
  ("intelligence.domainGroup", "도메인 그룹");
  ("intelligence.hosts", "호스트");
  ("intelligence.hostCount", "호스트 수");
  ("intelligence.groupedDomainCaveat", "형제 Subdomain은 등록 가능 Domain 기준으로 묶고, Evidence Table에는 정확한 Target을 유지합니다.");
  ("intelligence.groupedDomainDescription", "Graph 가독성을 위해 형제 Subdomain을 묶었습니다. 정확한 Host는 그룹을 펼쳐 확인할 수 있습니다.");
  ("intelligence.showSubdomains", "Subdomain {count}개 펼치기");
  ("intelligence.collapseSubdomains", "{domain}(으)로 묶기");
  ("intelligence.tableFallback", "TABLE FALLBACK");
  ("intelligence.graphDisabled", "Topology Graph가 비활성화됨");
  ("intelligence.graphDisabledDescription", "Inspector와 Evidence Table에서 동일한 계약 정보를 계속 확인할 수 있습니다.");
  ("intelligence.observedOnly", "관찰 건수");
  ("intelligence.relationship", "관계");
  ("intelligence.lastObserved", "마지막 관찰");
  ("intelligence.openEndpoint", "Endpoint 열기");
  ("intelligence.observedTargetDescription", "Event 근거에서 관찰된 통신 목적지입니다. Domain, HTTP Host, TLS SNI, IP 또는 DNS Query일 수 있습니다.");
  ("intelligence.nodeType", "Node 유형");
  ("intelligence.topologySelectPrompt", "Node, Edge 또는 Evidence 행을 선택해 계약된 field를 확인하세요.");
  ("intelligence.correlationTitle", "IP 및 Domain 상관관계");
  ("intelligence.correlationSubtitle", "Live DNS 후보와 Event 근거에서 이미 관찰된 IP 및 Domain 관계를 함께 표시합니다");
  ("intelligence.correlationValue", "IP 또는 Domain");
  ("intelligence.correlationPlaceholder", "8.8.8.8 또는 yahoo.com");
  ("intelligence.lookup", "관계 조회");
  ("intelligence.tryObservedSignal", "관찰된 Signal로 조회");
  ("intelligence.correlationReady", "IP 또는 Domain을 선택하세요");
  ("intelligence.correlationReadyDescription", "직접 검색하거나 현재 기간의 상위 Domain 또는 Remote IP를 선택하세요.");
  ("intelligence.noCorrelation", "연관 값을 찾지 못했습니다");
  ("intelligence.noCorrelationDescription", "Live DNS와 선택한 Event 근거에 일치하는 IP 또는 Domain 관계가 없습니다.");
  ("intelligence.relatedCount", "연관 값 {count}개");
  ("intelligence.correlationLegend", "DNS 관계 범례");
  ("intelligence.inputNode", "검색 입력값");
  ("intelligence.ptrCaveat", "PTR 이름은 후보이며 원래 IP를 대체하지 않습니다.");
  ("intelligence.correlationGraphAria", "IP 및 Domain 상관관계 Graph");
  ("intelligence.expandCorrelation", "IP 및 Domain 상관관계 Graph를 큰 화면으로 열기");
  ("intelligence.expandedCorrelation", "IP 및 Domain 상관관계 — 큰 화면");
  ("intelligence.closeExpandedCorrelation", "큰 IP 및 Domain 상관관계 Graph 닫기");
  ("intelligence.correlationGraphScope", "Graph에는 관계 {total}개 중 {visible}개를 표시합니다. 전체 관계는 Table에 유지됩니다.");
  ("intelligence.correlationGraphDisabled", "상관관계 Graph가 비활성화됨");
  ("intelligence.correlationGraphDisabledDescription", "Inspector와 관계 Table에서 동일한 근거를 계속 확인할 수 있습니다.");
  ("intelligence.evidenceSource", "근거 Source");
  ("intelligence.ipNodeDescription", "IP를 후보 Domain과 함께 유지해 표시합니다.");
  ("intelligence.domainNodeDescription", "Live DNS 또는 관찰된 Event 근거에서 반환된 Domain 값입니다.");
  ("intelligence.correlationSelectPrompt", "Domain, IP 또는 관계를 선택해 근거 Source를 확인하세요.");
  ("intelligence.correlationTable", "IP 및 Domain 관계 근거");
  ("archive.title", "Archive Operations");
  ("archive.description", "Glacier Flexible Retrieval Bucket을 조회하고 7일 동안 Standard 임시 복원을 시작합니다.");
  ("archive.endpointHelp", "쉼표로 구분한 양의 ID");
  ("archive.invalidDateTime", "로컬 시간 기준 YYYY-MM-DD HH:mm 형식으로 입력하세요.");
  ("archive.chooseRange", "Archive 기간을 선택하세요");
  ("archive.chooseRangeDescription", "하나 이상의 Endpoint ID와 최대 31일의 유효한 UTC 기간을 입력하세요. 값이 유효해질 때까지 Archive 데이터를 조회하지 않습니다.");
  ("archive.readiness", "Archive 조회 준비 상태");
  ("archive.scopeReady", "조회 범위가 유효합니다");
  ("archive.valid", "준비 완료");
  ("archive.incomplete", "입력 필요");
  ("archive.queryScope", "조회 범위");
  ("archive.requiredInput", "필수 입력");
  ("archive.endpointCount", "Endpoint {count}개");
  ("archive.endpointRequirement", "쉼표로 구분한 ID 1개 이상");
  ("archive.utcRange", "UTC 기간");
  ("archive.rangeRequirement", "최대 31일");
  ("archive.restorePolicy", "Restore 정책");
  ("archive.actionBoundary", "실행 경계");
  ("archive.retrieval", "Retrieval");
  ("archive.temporaryCopy", "임시 복원본");
  ("archive.standardSevenDays", "Standard tier · 7일");
  ("archive.nextStep", "다음 단계");
  ("archive.validationGated", "입력 검증 필요");
  ("archive.readyDescription", "조회 범위가 유효합니다. Archive 조회가 자동으로 시작되며 Restore 실행은 권한에 따라 제한됩니다.");
  ("archive.invalidScopeDescription", "조회 범위를 완성하거나 수정하세요. 입력 검증에 실패한 동안 Archive API를 호출하지 않습니다.");
  ("archive.temporaryRestore", "Temporary Restore");
  ("archive.policy", "고정 정책: 7일 · Standard tier");
  ("archive.starting", "Restore 시작 중…");
  ("archive.start", "Archive Restore 시작");
  ("archive.success", "Restore 요청을 처리했습니다. Archive 상태를 갱신합니다.");
  ("archive.access", "Archive 접근 권한");
  ("archive.viewerSubtitle", "VIEWER는 읽기 전용");
  ("archive.viewerDescription", "VIEWER에게는 Restore 기능이 표시되지 않습니다. 현재 Bucket 상태는 아래에서 확인할 수 있습니다.");
  ("archive.buckets", "Archive Bucket");
  ("archive.records", "S3 Glacier Bucket {total}건");
  ("archive.objectPath", "Object 경로");
  ("archive.eventCount", "Event");
  ("archive.restoreWindow", "Restore 기간");
  ("archive.lastError", "마지막 오류");
  ("archive.requested", "요청 시각 {time}");
  ("archive.notRequested", "요청되지 않음");
  ("archive.expires", "만료 시각 {time}");
  ("archive.noExpiry", "활성 만료 시각 없음");
  ("archive.noBuckets", "Archive Bucket이 없습니다");
  ("archive.noBucketsDescription", "이 Endpoint 및 기간과 겹치는 S3 Glacier Bucket이 없습니다.");
  ("archive.lifecycle", "Archive Lifecycle");
  ("archive.lifecycleSubtitle", "현재 Bucket 상태를 Lifecycle 순서로 표시하며 0과 Empty를 명시적으로 구분합니다");
  ("archive.lifecycleHot", "HOT 저장소에서 조회 가능");
  ("archive.lifecycleArchived", "Glacier에 보관되어 아직 복원되지 않음");
  ("archive.lifecycleRequested", "Restore 요청이 접수되어 진행 중");
  ("archive.lifecycleRestored", "만료 시각까지 임시 조회 가능");
  ("archive.lifecycleFailed", "Restore 실패 · 행의 오류 확인 필요");
  ("archive.lifecycleExpired", "임시 Restore 기간 만료");
  ("archive.successRequested", "Restore 요청을 접수했습니다. Backend가 복원을 완료할 때까지 Bucket은 RESTORE_REQUESTED 상태를 유지합니다.")
].

Definition korean : table :=
  (korean_1 ++ korean_2 ++ korean_3 ++ korean_4 ++ korean_5 ++ korean_6)%list.
