(* ===== verification/I18n.v ===== *)
(** * Texts and formats

    Models frontend/src/i18n/{translations,types,detectionCopy}.ts,
    frontend/src/i18n/LocaleContext.tsx and frontend/src/lib/format.ts: the
    lookup and filling of translated texts, the copy of detections, and the
    formats that do not depend on the host's calendar. An outer [option] is a
    thrown exception; the host's formatting of a time is a parameter. *)

From Stdlib Require Import String.
From S2P Require Import Prelude JsNumber JsDate Json Contracts ApiClient Translations.

#[local] Open Scope list_scope.
#[local] Open Scope Z_scope.

(** ** [translate] *)

Inductive Locale := EN | KO.
#[export] Instance Locale_eq_dec : EqDecision Locale.
Proof. solve_decision. Defined.

Inductive ParamValue := PText (s : ustring) | PNumber (n : jsnum).
Definition TranslationParams : Type := list (ustring * ParamValue).

Definition param_text (v : ParamValue) : ustring :=
  match v with PText s => s | PNumber n => string_of_num n end.

Fixpoint lookup_text (t : table) (key : string) : option ustring :=
  match t with
  | [] => None
  | (k, v) :: r => if String.eqb key k then Some (u v) else lookup_text r key
  end.

(** [\w] *)
Definition is_word (c : Z) : bool :=
  is_digit c || (65 <=? c) && (c <=? 90) || (97 <=? c) && (c <=? 122) || (c =? 95).

Fixpoint span_word (s : ustring) : ustring * ustring :=
  match s with
  | c :: r => if is_word c then let '(w, rest) := span_word r in (c :: w, rest) else ([], s)
  | [] => ([], [])
  end.

(** A template: single code units, and the matches of [/\{(\w+)\}/g]. *)
Inductive segment := Unit (c : Z) | Slot (name : ustring).

Fixpoint segments (fuel : nat) (s : ustring) : list segment :=
  match fuel, s with
  | S n, c :: r =>
    if c =? 123 then
      match span_word r with
      | (x :: w, 125 :: rest) => Slot (x :: w) :: segments n rest
      | _ => Unit c :: segments n r
      end
    else Unit c :: segments n r
  | _, _ => []
  end.

Definition template (s : ustring) : list segment := segments (List.length s) s.

Definition fill (params : TranslationParams) (seg : segment) : ustring :=
  match seg with
  | Unit c => [c]
  | Slot name => match map_get name params with
                 | Some v => param_text v
                 | None => [123] ++ name ++ [125]
                 end
  end.

Definition text_for (locale : Locale) (key : string) : option ustring :=
  match (match locale with KO => lookup_text korean key | EN => None end) with
  | Some text => Some text
  | None => lookup_text english key
  end.

Definition translate (locale : Locale) (key : string) (params : TranslationParams) : option ustring :=
  text ← text_for locale key; Some (flat_map (fill params) (template text)).

(** ** The locale of the page *)

Definition locale_of (user : option UserLocale) : Locale :=
  if bool_decide (user = Some Locale_KO) then KO else EN.
Definition dateLocale (locale : Locale) : ustring := match locale with KO => u! "ko-KR" | EN => u! "en-US" end.
Definition documentLang (locale : Locale) : ustring := match locale with KO => u! "ko" | EN => u! "en" end.

(** ** Detection copy *)

Record RuleCopyKeys := mkCopyKeys {
  ruleName : string;
  title : string;
  titleOnEndpoint : string;
  summary : string;
}.

Definition copy_keys (name : string) : RuleCopyKeys :=
  mkCopyKeys ("detection." ++ name ++ ".ruleName") ("detection." ++ name ++ ".title")
    ("detection." ++ name ++ ".titleOnEndpoint") ("detection." ++ name ++ ".summary").

Definition RULE_KEYS : list (ustring * RuleCopyKeys) :=
  [(u! "PROC_POWERSHELL_ENCODED", copy_keys "procPowershellEncoded");
   (u! "NET_SUSPICIOUS_EGRESS", copy_keys "netSuspiciousEgress");
   (u! "DNS_RARE_DOMAIN", copy_keys "dnsRareDomain");
   (u! "FILE_SUSPICIOUS_DROP", copy_keys "fileSuspiciousDrop");
   (u! "L7_UPLOAD_ANOMALY", copy_keys "l7UploadAnomaly")].

Definition TITLE_KEYS : list (ustring * string) :=
  [(u! "PROC_POWERSHELL_ENCODED", "detection.procPowershellEncoded.title");
   (u! "PowerShell Encoded Command", "detection.procPowershellEncoded.ruleName");
   (u! "Encoded PowerShell command detected", "detection.procPowershellEncoded.title");
   (u! "NET_SUSPICIOUS_EGRESS", "detection.netSuspiciousEgress.title");
   (u! "Suspicious Egress Destination", "detection.netSuspiciousEgress.ruleName");
   (u! "Suspicious encrypted egress detected", "detection.netSuspiciousEgress.title");
   (u! "DNS_RARE_DOMAIN", "detection.dnsRareDomain.title");
   (u! "Rare Domain Query", "detection.dnsRareDomain.ruleName");
   (u! "Rare domain query detected", "detection.dnsRareDomain.title");
   (u! "FILE_SUSPICIOUS_DROP", "detection.fileSuspiciousDrop.title");
   (u! "Suspicious File Drop", "detection.fileSuspiciousDrop.ruleName");
   (u! "Suspicious file drop detected", "detection.fileSuspiciousDrop.title");
   (u! "L7_UPLOAD_ANOMALY", "detection.l7UploadAnomaly.title");
   (u! "Unusual HTTPS Upload", "detection.l7UploadAnomaly.ruleName");
   (u! "Unusual HTTPS upload detected", "detection.l7UploadAnomaly.title")]%string.

Definition SUMMARY_KEYS : list (ustring * string) :=
  [(u! "PowerShell was executed with an encoded command argument.", "detection.procPowershellEncoded.summary");
   (u! "A monitored process connected to a rare external destination.", "detection.netSuspiciousEgress.summary");
   (u! "An endpoint queried a rarely observed domain.", "detection.dnsRareDomain.summary");
   (u! "A process created a suspicious payload or artifact file.", "detection.fileSuspiciousDrop.summary");
   (u! "An unusual upload request was observed to an external host.", "detection.l7UploadAnomaly.summary")]%string.

Definition TITLE_PREFIXES : list (ustring * ustring) :=
  [(u! "PowerShell Encoded Command on ", u! "PROC_POWERSHELL_ENCODED");
   (u! "Encoded PowerShell Command on ", u! "PROC_POWERSHELL_ENCODED");
   (u! "Suspicious Egress Destination on ", u! "NET_SUSPICIOUS_EGRESS");
   (u! "Rare Domain Query on ", u! "DNS_RARE_DOMAIN");
   (u! "Suspicious File Drop on ", u! "FILE_SUSPICIOUS_DROP");
   (u! "Unusual HTTPS Upload on ", u! "L7_UPLOAD_ANOMALY")].

Definition GUIDANCE_TITLE_KEYS : list (ustring * string) :=
  [(u! "Review domain and query process", "guidance.reviewDomainProcess");
   (u! "Block confirmed malicious domain", "guidance.blockMaliciousDomain");
   (u! "Validate file origin and hash", "guidance.validateFileOrigin");
   (u! "Quarantine confirmed malicious file", "guidance.quarantineMaliciousFile");
   (u! "Review upload context", "guidance.reviewUploadContext");
   (u! "Restrict unauthorized upload path", "guidance.restrictUploadPath");
   (u! "Review destination and source process", "guidance.reviewDestinationProcess");
   (u! "Contain unauthorized egress", "guidance.containUnauthorizedEgress");
   (u! "Review source event", "guidance.reviewSourceEvent")]%string.

(** The names every object literal inherits from [Object.prototype]. *)
Definition inherited_names : list ustring :=
  [u! "constructor"; u! "__defineGetter__"; u! "__defineSetter__"; u! "hasOwnProperty"; u! "__lookupGetter__";
   u! "__lookupSetter__"; u! "isPrototypeOf"; u! "propertyIsEnumerable"; u! "toString"; u! "valueOf";
   u! "__proto__"; u! "toLocaleString"].

(** [object[name]]: a property of its own, an inherited member, or [undefined]. *)
Inductive member_of (A : Type) := Own (a : A) | Inherited | Absent.
Arguments Own {A}. Arguments Inherited {A}. Arguments Absent {A}.

Definition object_get {A} (object : list (ustring * A)) (name : ustring) : member_of A :=
  match map_get name object with
  | Some a => Own a
  | None => if str_in name inherited_names then Inherited else Absent
  end.

Section copy.
(** [t]; translating an inherited member, which is no key, throws. *)
Context (t : string → TranslationParams → option ustring).

Definition t_member (key : member_of string) (fallback : option ustring) : option ustring :=
  match key with Own k => t k [] | Inherited => None | Absent => fallback end.

Fixpoint prefixed_title (prefixes : list (ustring * ustring)) (value : ustring) : option (option ustring) :=
  match prefixes with
  | [] => None
  | (prefix, code) :: r =>
    match object_get RULE_KEYS code with
    | Own copy => if starts_with prefix value
                  then Some (t (titleOnEndpoint copy) [(u! "endpoint", PText (drop (List.length prefix) value))])
                  else prefixed_title r value
    | _ => prefixed_title r value
    end
  end.

(** [RULE_KEYS[ruleCode]?.field], where an inherited member has no such field. *)
Definition rule_key (field : RuleCopyKeys → string) (ruleCode : option ustring) : option string :=
  match ruleCode with
  | Some code => if truthy code then match object_get RULE_KEYS code with Own c => Some (field c) | _ => None end
                 else None
  | None => None
  end.

Definition detectionTitle (value : ustring) (ruleCode : option ustring) : option ustring :=
  t_member (object_get TITLE_KEYS value)
    (match prefixed_title TITLE_PREFIXES value with
     | Some text => text
     | None => match rule_key title ruleCode with Some k => t k [] | None => Some value end
     end).

Definition detectionRuleName (value : ustring) (ruleCode : option ustring) : option ustring :=
  match rule_key ruleName ruleCode with
  | Some k => t k []
  | None => t_member (object_get TITLE_KEYS value) (Some value)
  end.

(** [/^Deterministic long-range QA alert for (.+)\.$/]: the group, without line
    terminators, when the text ends with a dot. *)
Definition line_terminator (c : Z) : bool := (c =? 10) || (c =? 13) || (c =? 8232) || (c =? 8233).

Definition qa_agent (value : ustring) : option ustring :=
  let prefix := u! "Deterministic long-range QA alert for " in
  if starts_with prefix value then
    let rest := drop (List.length prefix) value in
    match reverse rest with
    | 46 :: _ :: _ =>
      let agent := take (List.length rest - 1) rest in
      if forallb (λ c, negb (line_terminator c)) agent then Some agent else None
    | _ => None
    end
  else None.

Definition detectionSummary (value : option ustring) (fallback : ustring) : option ustring :=
  match value with
  | Some v =>
    if truthy v then
      t_member (object_get SUMMARY_KEYS v)
        (match qa_agent v with
         | Some agent => t "detection.qaLongRange.summary"%string [(u! "agentId", PText agent)]
         | None => Some v
         end)
    else Some fallback
  | None => Some fallback
  end.

Definition responseGuidanceTitle (value : ustring) : option ustring :=
  t_member (object_get GUIDANCE_TITLE_KEYS value) (Some value).

Definition riskFactorDescription (value : ustring) : option ustring :=
  if bool_decide (value = u! "OPEN correlation Incident contribution")
  then t "risk.openIncidentContribution"%string [] else Some value.
End copy.

(** ** Formats *)

Section format.
Context `{DateHost}.
(** [String.prototype.toLowerCase], and the host's date formatters, for the time of a date. *)
Context (toLowerCase : ustring → ustring).
Context (mediumDateTime compactDate : Locale → Z → ustring).
Context (queueParts : Locale → Z → list (ustring * ustring)).

Definition notAvailable (displayLocale : Locale) : option ustring :=
  translate displayLocale "common.notAvailable" [].

(** [None]: the formatters throw for a date that cannot be read. *)
Definition formatDateTime (displayLocale : Locale) (value : option ustring) : option ustring :=
  match value with
  | None => notAvailable displayLocale
  | Some v => mediumDateTime displayLocale <$> Date_parse v
  end.

Definition formatCompactDate (displayLocale : Locale) (value : ustring) : option ustring := compactDate displayLocale <$> Date_parse value.

Definition formatQueueDateTime (displayLocale : Locale) (value : ustring) : option ustring :=
  time ← Date_parse value;
  let parts := queueParts displayLocale time in
  let part (type : ustring) := default (u! "--") (snd <$> js_find (λ item, bool_decide (item.1 = type)) parts) in
  Some (part (u! "month") ++ u! "-" ++ part (u! "day") ++ u! " " ++ part (u! "hour") ++ u! ":" ++ part (u! "minute")).

(** [replace(/\b\w/g, upper)]: a word character after another one is kept. *)
Definition upper (c : Z) : Z := if (97 <=? c) && (c <=? 122) then c - 32 else c.
Fixpoint capitalize (inWord : bool) (s : ustring) : ustring :=
  match s with
  | [] => []
  | c :: r => (if is_word c && negb inWord then upper c else c) :: capitalize (is_word c) r
  end.

Definition humanize (value : ustring) : ustring :=
  capitalize false (map (λ c, if c =? 95 then 32 else c) (toLowerCase value)).

Definition displayNullable (displayLocale : Locale) (value : option ParamValue) : option ustring :=
  match value with None => notAvailable displayLocale | Some v => Some (param_text v) end.
End format.

(** ** Templates *)

Definition slots (s : ustring) : list ustring :=
  omap (λ seg, match seg with Slot name => Some name | Unit _ => None end) (template s).

Lemma span_word_app s w rest : span_word s = (w, rest) → s = w ++ rest.
Proof.
  revert w rest. induction s as [|c s IH]; intros w rest; cbn; [by intros [= <- <-]|].
  destruct (is_word c); [|by intros [= <- <-]]. destruct (span_word s) as [w' rest'].
  intros [= <- <-]. cbn. f_equal. by apply IH.
Qed.

(** The segments of a template spell it; its length is fuel enough. *)
Lemma segments_text n s : (List.length s ≤ n)%nat → flat_map (fill []) (segments n s) = s.
Proof.
  revert s. induction n as [|n IH]; intros [|c s] Hn; cbn in *; try done; [lia|].
  destruct (Z.eqb_spec c 123) as [->|Hc]; [|cbn; by rewrite IH by lia].
  destruct (span_word s) as [w rest] eqn:E. pose proof (span_word_app _ _ _ E) as Hs.
  assert (flat_map (fill []) (Unit 123 :: segments n s) = 123 :: s) as Hu by (cbn; by rewrite IH by lia).
  destruct w as [|x w]; [done|]. destruct rest as [|d rest]; [done|].
  destruct (decide (d = 125)) as [->|Hd].
  - cbn [flat_map fill map_get]. rewrite IH; [subst s; cbn; by rewrite <- !app_assoc|].
    subst s. rewrite length_app in Hn. cbn in Hn. lia.
  - assert (match d with 125 => Slot (x :: w) :: segments n rest | _ => Unit 123 :: segments n s end =
            Unit 123 :: segments n s) as -> by (repeat case_match; done).
    done.
Qed.

Lemma fill_none s : flat_map (fill []) (template s) = s.
Proof. by apply segments_text. Qed.

Lemma lookup_text_elem t key text : lookup_text t key = Some text → ∃ v, (key, v) ∈ t ∧ text = u v.
Proof.
  induction t as [|[k v] t IH]; cbn; [done|]. destruct (String.eqb_spec key k) as [->|].
  - intros [= <-]. exists v. split; [by left|done].
  - intros H. destruct (IH H) as (v' & Hin & ->). exists v'. split; [by right|done].
Qed.

Lemma lookup_text_Some t key : key ∈ map fst t → is_Some (lookup_text t key).
Proof.
  induction t as [|[k v] t IH]; cbn; [intros H; by apply not_elem_of_nil in H|].
  intros [->|H]%elem_of_cons; [rewrite String.eqb_refl; by eexists|]. case_match; [by eexists|by apply IH].
Qed.

(** ** The tables agree *)

Definition same_slots (a b : ustring) : bool :=
  forallb (λ n, str_in n (slots b)) (slots a) && forallb (λ n, str_in n (slots a)) (slots b).

Definition korean_entry_ok (kv : string * string) : bool :=
  match lookup_text english kv.1 with
  | Some en => same_slots (u kv.2) en && truthy (trim (u kv.2))
  | None => false
  end.

Lemma korean_entries : forallb korean_entry_ok korean = true.
Proof. vm_compute. reflexivity. Qed.

Lemma english_entries : forallb (λ kv, truthy (trim (u kv.2))) english = true.
Proof. vm_compute. reflexivity. Qed.

Lemma english_keys : NoDup (map fst english).
Proof. by_compute. Qed.

Lemma korean_keys : NoDup (map fst korean).
Proof. by_compute. Qed.

Lemma same_slots_elem a b n : same_slots a b = true → n ∈ slots a ↔ n ∈ slots b.
Proof.
  unfold same_slots. intros [H1 H2]%andb_true_iff. rewrite forallb_elem in H1, H2.
  split; intros H; [apply H1 in H|apply H2 in H]; by apply str_in_true in H.
Qed.

Lemma korean_text key ko :
  lookup_text korean key = Some ko →
  ∃ en, lookup_text english key = Some en ∧ (∀ n, n ∈ slots ko ↔ n ∈ slots en) ∧ trim ko ≠ [].
Proof.
  intros (v & Hin & ->)%lookup_text_elem. pose proof korean_entries as H. rewrite forallb_elem in H.
  specialize (H _ Hin). unfold korean_entry_ok in H. cbn [fst snd] in H.
  destruct (lookup_text english key) as [en|]; [|done]. apply andb_true_iff in H as [Hs Ht].
  exists en. split_and!; [done| |by apply truthy_true]. intros n. by apply same_slots_elem.
Qed.

Lemma text_for_spec locale key en :
  lookup_text english key = Some en →
  ∃ text, text_for locale key = Some text ∧ ∀ n, n ∈ slots text ↔ n ∈ slots en.
Proof.
  intros He. unfold text_for. destruct locale; [by exists en|].
  destruct (lookup_text korean key) as [ko|] eqn:E; [|by exists en].
  destruct (korean_text key ko E) as (en' & He' & Hs & _). exists ko. split; [done|]. rewrite He in He'. injection He' as <-. done.
Qed.

(** ** Claims *)

(** C12: The two tables fit together: no key occurs twice, every Korean text has an
    English one, both name exactly the same placeholders, and no text is blank. *)
Theorem translations_consistent :
  NoDup (map fst english) ∧ NoDup (map fst korean) ∧
  (∀ key v, (key, v) ∈ english → trim (u v) ≠ []) ∧
  ∀ key ko, lookup_text korean key = Some ko →
    ∃ en, lookup_text english key = Some en ∧ (∀ n, n ∈ slots ko ↔ n ∈ slots en) ∧ trim ko ≠ [].
Proof.
  split_and!; [apply english_keys|apply korean_keys| |apply korean_text].
  intros key v Hin. pose proof english_entries as H. rewrite forallb_elem in H.
  apply truthy_true. by apply (H (key, v)).
Qed.

(** Every key translates in both languages, and whoever supplies the
    placeholders of the English text gets a complete text: every placeholder of
    the chosen template is replaced by its parameter's text, everything else is
    kept; without parameters the template itself is returned. *)
Theorem translate_spec locale key en params :
  lookup_text english key = Some en → (∀ n, n ∈ slots en → is_Some (map_get n params)) →
  ∃ text, text_for locale key = Some text ∧ translate locale key [] = Some text ∧
    translate locale key params =
      Some (flat_map (λ seg, match seg with
                             | Unit c => [c]
                             | Slot name => from_option param_text [] (map_get name params)
                             end) (template text)).
Proof.
  intros He Hp. destruct (text_for_spec locale key en He) as (text & Ht & Hs). exists text.
  unfold translate. rewrite Ht. cbn. rewrite fill_none. split_and!; [done..|]. f_equal.
  assert (∀ name, Slot name ∈ template text → is_Some (map_get name params)) as Hslot.
  { intros name Hin. apply Hp, Hs. unfold slots. apply list_elem_of_omap. by exists (Slot name). }
  revert Hslot. generalize (template text). intros l. induction l as [|seg l IH]; intros Hslot; cbn; [done|].
  rewrite IH by (intros name H; apply Hslot; by right). f_equal.
  destruct seg as [c|name]; cbn; [done|]. destruct (Hslot name) as [v ->]; [by left|done].
Qed.

Lemma translate_spec_witness :
  ∃ text, text_for KO "common.requestId"%string = Some text ∧ translate KO "common.requestId" [] = Some text ∧
    translate KO "common.requestId" [(u! "requestId", PText (u! "r1"))] =
      Some (flat_map (λ seg, match seg with
                             | Unit c => [c]
                             | Slot name => from_option param_text [] (map_get name [(u! "requestId", PText (u! "r1"))])
                             end) (template text)).
Proof.
  apply (translate_spec KO "common.requestId"%string (u! "Request {requestId}")); [by vm_compute|].
  intros n Hn. assert (n ∈ [u! "requestId"]) as ->%list_elem_of_singleton by done. by eexists.
Defined.

(** ** Detection copy *)

Definition has_text (key : string) : bool := bool_decide (is_Some (lookup_text english key)).

Lemma translate_total locale key params : has_text key = true → is_Some (translate locale key params).
Proof.
  unfold has_text. intros H. breflect. destruct H as [en He]. destruct (text_for_spec locale key en He) as (text & Ht & _).
  unfold translate. rewrite Ht. by eexists.
Qed.

Definition rule_texts (c : RuleCopyKeys) : bool :=
  has_text (ruleName c) && has_text (title c) && has_text (titleOnEndpoint c) && has_text (summary c).

Lemma rule_texts_all c : rule_texts c = true →
  has_text (ruleName c) = true ∧ has_text (title c) = true ∧ has_text (titleOnEndpoint c) = true.
Proof. unfold rule_texts. rewrite !andb_true_iff. tauto. Qed.

Lemma copy_texts :
  forallb (λ kv, rule_texts kv.2) RULE_KEYS = true ∧
  forallb (λ kv, has_text kv.2) (TITLE_KEYS ++ SUMMARY_KEYS ++ GUIDANCE_TITLE_KEYS) = true ∧
  forallb has_text ["detection.qaLongRange.summary"; "risk.openIncidentContribution"]%string = true.
Proof. vm_compute. done. Qed.

(** No table has an entry under an inherited name. *)
Lemma tables_own :
  forallb (λ n, negb (map_has n TITLE_KEYS) && negb (map_has n SUMMARY_KEYS) && negb (map_has n GUIDANCE_TITLE_KEYS))
    inherited_names = true.
Proof. vm_compute. done. Qed.

Lemma rule_key_text (field : RuleCopyKeys → string) code k :
  (∀ c, rule_texts c = true → has_text (field c) = true) → rule_key field code = Some k → has_text k = true.
Proof.
  intros Hf. unfold rule_key. destruct code as [code|]; [|done]. case_match; [|done].
  unfold object_get. destruct (map_get code RULE_KEYS) as [c|] eqn:E; [|by destruct (str_in code inherited_names)].
  intros [= <-]. apply Hf. destruct copy_texts as [Hc _]. rewrite forallb_elem in Hc.
  apply (Hc (code, c)). by apply map_get_Some_elem.
Qed.

Lemma prefixed_title_text locale prefixes value r :
  prefixed_title (translate locale) prefixes value = Some r → is_Some r.
Proof.
  induction prefixes as [|[prefix code] l IH]; cbn [prefixed_title]; [done|].
  unfold object_get. destruct (map_get code RULE_KEYS) as [c|] eqn:E; [|destruct (str_in code inherited_names); apply IH].
  case_match; [|apply IH]. intros [= <-]. apply translate_total.
  destruct copy_texts as [Hc _]. rewrite forallb_elem in Hc.
  specialize (Hc (code, c) (map_get_Some_elem _ _ _ E)). by apply rule_texts_all in Hc as (_ & _ & Hc).
Qed.

Lemma t_member_throws locale (keys : list (ustring * string)) value fallback :
  forallb (λ kv, has_text kv.2) keys = true → (∀ n, n ∈ inherited_names → map_has n keys = false) →
  is_Some fallback →
  t_member (translate locale) (object_get keys value) fallback = None ↔ value ∈ inherited_names.
Proof.
  intros Hk Hi Hf. unfold object_get. destruct (map_get value keys) as [k|] eqn:E.
  - cbn. rewrite forallb_elem in Hk. specialize (Hk _ (map_get_Some_elem _ _ _ E)).
    destruct (translate_total locale k [] Hk) as [text ->]. split; [done|]. intros Hin%Hi.
    unfold map_has in Hin. by rewrite E in Hin.
  - destruct (str_in value inherited_names) eqn:Es; cbn.
    + apply str_in_true in Es. done.
    + destruct Hf as [f ->]. split; [done|]. intros Hin%str_in_true. congruence.
Qed.

Lemma tables_inherited n : n ∈ inherited_names →
  map_has n TITLE_KEYS = false ∧ map_has n SUMMARY_KEYS = false ∧ map_has n GUIDANCE_TITLE_KEYS = false.
Proof.
  intros Hn. pose proof tables_own as H. rewrite forallb_elem in H. specialize (H n Hn).
  rewrite !andb_true_iff, !negb_true_iff in H. destruct H as [[H1 H2] H3]. auto.
Qed.

Lemma tables_text :
  forallb (λ kv, has_text kv.2) TITLE_KEYS = true ∧ forallb (λ kv, has_text kv.2) SUMMARY_KEYS = true ∧
  forallb (λ kv, has_text kv.2) GUIDANCE_TITLE_KEYS = true.
Proof. vm_compute. done. Qed.

#[local] Opaque english korean has_text RULE_KEYS TITLE_KEYS SUMMARY_KEYS GUIDANCE_TITLE_KEYS inherited_names translate.

(** The copy of detections is total up to one defect: in both languages every
    title, summary, rule name, guidance and risk description has a text, and a
    lookup throws exactly when the value received is the name of a member that
    every object inherits (such as "constructor"), which the tables take for a
    translation key. *)
Theorem detection_copy_throws locale value ruleCode fallback :
  let t := translate locale in
  (detectionTitle t value ruleCode = None ↔ value ∈ inherited_names) ∧
  (detectionRuleName t value ruleCode = None ↔ rule_key ruleName ruleCode = None ∧ value ∈ inherited_names) ∧
  (detectionSummary t (Some value) fallback = None ↔ value ∈ inherited_names) ∧
  (responseGuidanceTitle t value = None ↔ value ∈ inherited_names) ∧
  is_Some (riskFactorDescription t value).
Proof.
  destruct tables_text as (T1 & T2 & T3). destruct copy_texts as (_ & _ & T4). cbn [forallb] in T4.
  rewrite !andb_true_iff in T4. destruct T4 as (T4 & T5 & _). cbv zeta.
  pose proof (λ v f, t_member_throws locale TITLE_KEYS v f T1 (λ n Hn, proj1 (tables_inherited n Hn))) as HT.
  pose proof (λ v f, t_member_throws locale SUMMARY_KEYS v f T2 (λ n Hn, proj1 (proj2 (tables_inherited n Hn)))) as HS.
  pose proof (λ v f, t_member_throws locale GUIDANCE_TITLE_KEYS v f T3 (λ n Hn, proj2 (proj2 (tables_inherited n Hn)))) as HG.
  split_and!.
  - apply HT. destruct (prefixed_title (translate locale) TITLE_PREFIXES value) as [r|] eqn:E;
      [exact (prefixed_title_text locale _ _ _ E)|].
    destruct (rule_key title ruleCode) as [k|] eqn:Ek; [|by eexists].
    apply translate_total. exact (rule_key_text title _ _ (λ c Hc, proj1 (proj2 (rule_texts_all c Hc))) Ek).
  - unfold detectionRuleName. destruct (rule_key ruleName ruleCode) as [k|] eqn:Ek.
    + pose proof (rule_key_text ruleName _ _ (λ c Hc, proj1 (rule_texts_all c Hc)) Ek) as Hk.
      destruct (translate_total locale k [] Hk) as [text Ht]. rewrite Ht. split; [discriminate|]. intros [[=] _].
    + rewrite HT by by eexists. split; [auto|by intros [_ ?]].
  - unfold detectionSummary. destruct (truthy value) eqn:Et.
    + apply HS. destruct (qa_agent value); [exact (translate_total locale _ _ T4)|by eexists].
    + split; [discriminate|]. intros Hin. destruct value; [|discriminate Et]. by apply str_in_true in Hin.
  - apply HG. by eexists.
  - unfold riskFactorDescription. case_match; [exact (translate_total locale _ _ T5)|by eexists].
Qed.

(** ** Labels of enumerations *)

Definition enum_char (c : Z) : bool := is_digit c || (65 <=? c) && (c <=? 90) || (c =? 95).
Definition enum_name (s : ustring) : Prop := Forall (λ c, enum_char c = true) s.

(** The name a label came from. *)
Definition name_of_label (s : ustring) : ustring := map (λ c, if c =? 32 then 95 else upper c) s.

Lemma upper_idemp c : upper (upper c) = upper c.
Proof. unfold upper. repeat case_match; breflect; lia. Qed.

Lemma name_of_capitalize b s : name_of_label (capitalize b s) = name_of_label s.
Proof.
  revert b. induction s as [|c s IH]; intros b; cbn; [done|]. rewrite IH. f_equal.
  destruct (is_word c && negb b) eqn:E; [|done]. rewrite upper_idemp.
  assert (c ≠ 32) by (intros ->; by vm_compute in E).
  assert (upper c ≠ 32) by (unfold upper; case_match; breflect; lia).
  by destruct (Z.eqb_spec c 32), (Z.eqb_spec (upper c) 32).
Qed.

(** Labels of enumerations lose nothing: from the label of a name of upper case
    letters, digits and underscores the name can be read back, so two members
    never share a label. *)
Theorem humanize_names (toLowerCase : ustring → ustring) s :
  (∀ t, Forall (λ c, 0 ≤ c < 128) t → toLowerCase t = ascii_lower t) → enum_name s →
  name_of_label (humanize toLowerCase s) = s.
Proof.
  intros Hl Hs. unfold humanize. rewrite name_of_capitalize, Hl.
  2: { eapply Forall_impl; [exact Hs|]. unfold enum_char, is_digit. intros c Hc. cbv beta in Hc.
       rewrite !orb_true_iff, !andb_true_iff in Hc. lia. }
  unfold name_of_label, ascii_lower. rewrite !map_map. rewrite <- (map_id s) at 2. apply map_ext_in.
  intros c Hc%list_elem_of_In. unfold enum_name in Hs. rewrite Forall_forall in Hs. specialize (Hs c Hc).
  unfold enum_char, is_digit in Hs. rewrite !orb_true_iff, !andb_true_iff in Hs. unfold upper.
  repeat case_match; breflect; rewrite ?andb_false_iff in *; lia.
Qed.

Lemma humanize_names_witness : name_of_label (humanize ascii_lower (u! "FALSE_POSITIVE")) = u! "FALSE_POSITIVE".
Proof. apply (humanize_names ascii_lower); [done|]. by_compute. Defined.
