(* ===== verification/Dom.v ===== *)
(** * The document tree

    What frontend/src/features/dashboardReport.tsx uses of the DOM: elements with
    their attributes, text content, [closest], [matches], [querySelector] and
    [querySelectorAll] for the selectors that occur in the sources. Elements are
    HTML elements, whose tag names are upper case. *)

From S2P Require Import Prelude JsNumber.

#[local] Open Scope Z_scope.

Inductive node :=
  | Text (content : ustring)
  | Element (tagName : ustring) (attributes : list (ustring * ustring)) (childNodes : list node).

(** A node with its ancestors, the parent first. *)
Record located := mkLocated { at_node : node; ancestors : list node }.

Definition is_element (n : node) : bool := match n with Element _ _ _ => true | Text _ => false end.
Definition child_nodes (n : node) : list node := match n with Element _ _ l => l | Text _ => [] end.
Definition tag_of (n : node) : ustring := match n with Element t _ _ => t | Text _ => [] end.
Definition attribute (name : ustring) (n : node) : option ustring :=
  match n with Element _ attrs _ => map_get name attrs | Text _ => None end.

Fixpoint textContent (n : node) : ustring :=
  match n with Text s => s | Element _ _ l => flat_map textContent l end.

Definition className (n : node) : ustring := default [] (attribute (u! "class") n).

(** The tokens of the class attribute, separated by ASCII whitespace. *)
Definition ascii_space (c : Z) : bool := (c =? 9) || (c =? 10) || (c =? 12) || (c =? 13) || (c =? 32).
Fixpoint class_tokens (word s : ustring) : list ustring :=
  match s with
  | [] => [reverse word]
  | c :: r => if ascii_space c then reverse word :: class_tokens [] r else class_tokens (c :: word) r
  end.
Definition has_class (c : ustring) (n : node) : bool :=
  truthy c && str_in c (class_tokens [] (className n)).

(** ** Selectors *)

Inductive simple := Tag (name : ustring) | Class_ (name : ustring) | HasAttr (name : ustring) | Scope.
Inductive combinator := ChildOf | DescendantOf.
(** A selector from its subject outwards: ["header h3"] is [mkSelector (Tag "H3") [(DescendantOf, Tag "HEADER")]]. *)
Record selector := mkSelector { subject : simple; context : list (combinator * simple) }.

Definition sel (s : simple) : selector := mkSelector s [].
Definition tag (name : ustring) : selector := sel (Tag name).
Definition class (name : ustring) : selector := sel (Class_ name).
(** [outer inner] and [outer > inner]. *)
Definition within (outer inner : simple) : selector := mkSelector inner [(DescendantOf, outer)].
Definition directly_in (outer inner : simple) : selector := mkSelector inner [(ChildOf, outer)].

(** [depth] is the number of ancestors of the element the query starts from,
    which tells [:scope] among the ancestors of its descendants. *)
Definition matches_simple (depth : nat) (s : simple) (n : node) (above : list node) : bool :=
  is_element n &&
  match s with
  | Tag name => bool_decide (tag_of n = name)
  | Class_ name => has_class name n
  | HasAttr name => match attribute name n with Some _ => true | None => false end
  | Scope => Nat.eqb (length above) depth
  end.

(** [some_ancestor p above]: an ancestor that satisfies [p], with those above it. *)
Fixpoint some_ancestor (p : node → list node → bool) (above : list node) : bool :=
  match above with
  | [] => false
  | n :: r => p n r || some_ancestor p r
  end.

Fixpoint matches_context (depth : nat) (ctx : list (combinator * simple)) (above : list node) : bool :=
  match ctx with
  | [] => true
  | (ChildOf, s) :: ctx =>
    match above with
    | n :: r => matches_simple depth s n r && matches_context depth ctx r
    | [] => false
    end
  | (DescendantOf, s) :: ctx =>
    some_ancestor (λ n r, matches_simple depth s n r && matches_context depth ctx r) above
  end.

Definition matches_selector (depth : nat) (e : located) (s : selector) : bool :=
  matches_simple depth (subject s) (at_node e) (ancestors e) && matches_context depth (context s) (ancestors e).

(** A selector list. *)
Definition matches_any (depth : nat) (ss : list selector) (e : located) : bool :=
  existsb (matches_selector depth e) ss.

(** [element.matches] *)
Definition matches (ss : list selector) (e : located) : bool := matches_any (length (ancestors e)) ss e.

(** ** Queries *)

Definition children (e : located) : list located :=
  map (λ n, mkLocated n (at_node e :: ancestors e)) (js_filter is_element (child_nodes (at_node e))).

(** The elements of a subtree in document order, the node itself first. *)
Fixpoint elements (above : list node) (n : node) : list located :=
  match n with
  | Text _ => []
  | Element _ _ l => mkLocated n above :: flat_map (elements (n :: above)) l
  end.

Definition descendants (e : located) : list located :=
  flat_map (elements (at_node e :: ancestors e)) (child_nodes (at_node e)).

Definition querySelectorAll (ss : list selector) (e : located) : list located :=
  js_filter (matches_any (length (ancestors e)) ss) (descendants e).
Definition querySelector (ss : list selector) (e : located) : option located :=
  js_find (matches_any (length (ancestors e)) ss) (descendants e).

(** [closest]: the element itself or its nearest matching ancestor. *)
Fixpoint closest_in (depth : nat) (ss : list selector) (n : node) (above : list node) : option located :=
  if matches_any depth ss (mkLocated n above) then Some (mkLocated n above)
  else match above with
       | p :: r => closest_in depth ss p r
       | [] => None
       end.
Definition closest (ss : list selector) (e : located) : option located :=
  closest_in (length (ancestors e)) ss (at_node e) (ancestors e).

(** ** Lemmas *)

Lemma querySelectorAll_elem ss e x :
  x ∈ querySelectorAll ss e ↔ x ∈ descendants e ∧ matches_any (length (ancestors e)) ss x = true.
Proof. apply js_filter_elem. Qed.

(** [querySelector] is the first element of [querySelectorAll]. *)
Lemma querySelector_head ss e : querySelector ss e = head (querySelectorAll ss e).
Proof.
  unfold querySelector, querySelectorAll. induction (descendants e) as [|x l IH]; [done|]. cbn.
  by destruct (matches_any _ ss x).
Qed.

Lemma elements_induction (P : node → Prop) :
  (∀ s, P (Text s)) → (∀ t a l, Forall P l → P (Element t a l)) → ∀ n, P n.
Proof.
  intros HT HE. fix IH 1. intros [s|t a l]; [apply HT|]. apply HE.
  induction l as [|n l IHl]; constructor; [apply IH|apply IHl].
Qed.

(** An element found below [e] keeps the ancestors of [e]. *)
Lemma elements_above n : ∀ above x, x ∈ elements above n → ∃ l, ancestors x = l ++ above.
Proof.
  induction n as [s|t a l IH] using elements_induction; intros above x; cbn; [by intros ?%elem_of_nil|].
  rewrite elem_of_cons, elem_of_flat_map. intros [->|(n & Hn & Hx)]; [by exists []|].
  rewrite Forall_forall in IH. destruct (IH n Hn _ _ Hx) as [l' ->].
  exists (l' ++ [Element t a l]). by rewrite <- app_assoc.
Qed.

Lemma descendants_above e x : x ∈ descendants e → ∃ l, ancestors x = l ++ at_node e :: ancestors e.
Proof. unfold descendants. rewrite elem_of_flat_map. intros (n & _ & H). by eapply elements_above. Qed.

(** [closest] finds a node on the path from the element to the root that matches. *)
Lemma closest_in_Some depth ss : ∀ above n c, closest_in depth ss n above = Some c →
  matches_any depth ss c = true ∧ ∃ l, n :: above = l ++ at_node c :: ancestors c.
Proof.
  induction above as [|p r IH]; intros n c; cbn; destruct (matches_any _ _ _) eqn:E; intros Hc;
    simplify_eq/=; [by split; [|exists []]..|].
  apply IH in Hc as [? [l Hl]]. split; [done|]. exists (n :: l). cbn. by f_equal.
Qed.

Lemma closest_in_None depth ss : ∀ above n l p r, n :: above = l ++ p :: r →
  matches_any depth ss (mkLocated p r) = true → closest_in depth ss n above ≠ None.
Proof.
  induction above as [|q above IH]; intros n [|x l] p r E Hm; simplify_eq/=; try (by rewrite Hm).
  - by destruct l.
  - destruct (matches_any _ _ (mkLocated x _)); [done|]. by eapply IH.
Qed.

(** The nodes on the path to an element of a subtree are elements of it, and
    the element is one of their descendants. *)
Lemma elements_path n : ∀ above x l p r, x ∈ elements above n → ancestors x = l ++ p :: r ++ above →
  mkLocated p (r ++ above) ∈ elements above n ∧ x ∈ descendants (mkLocated p (r ++ above)).
Proof.
  induction n as [s|t a cs IH] using elements_induction; intros above x l p r; cbn [elements]; [by intros ?%elem_of_nil|].
  rewrite !elem_of_cons, !elem_of_flat_map. intros [->|(c & Hc & Hx)] Ha.
  { cbn in Ha. apply (f_equal length) in Ha. rewrite length_app in Ha. cbn in Ha. rewrite length_app in Ha. lia. }
  destruct (elements_above _ _ _ Hx) as [l' Hl']. rewrite Hl' in Ha.
  destruct r as [|q r _] using rev_ind.
  - cbn [app] in *. apply app_inj_2 in Ha as [-> [= <-]]; [|done]. split; [by left|]. unfold descendants.
    apply elem_of_flat_map. eauto.
  - rewrite <- app_assoc in Ha |- *. cbn [app] in *. change (l ++ p :: r ++ q :: above) with (l ++ (p :: r) ++ q :: above) in Ha.
    rewrite app_assoc in Ha. apply app_inj_2 in Ha as [-> [= <-]]; [|done].
    rewrite Forall_forall in IH. destruct (IH c Hc _ x l p r Hx) as [? ?]; [by rewrite Hl', <- app_assoc|].
    split; [|done]. right. eauto.
Qed.

Lemma descendants_path e x l p r : x ∈ descendants e → ancestors x = l ++ p :: r ++ at_node e :: ancestors e →
  mkLocated p (r ++ at_node e :: ancestors e) ∈ descendants e ∧
  x ∈ descendants (mkLocated p (r ++ at_node e :: ancestors e)).
Proof.
  unfold descendants at 1 2. rewrite !elem_of_flat_map. intros (n & Hn & Hx) Ha.
  destruct (elements_path _ _ _ _ _ _ Hx Ha) as [? ?]. eauto.
Qed.

(** Descendants of descendants are descendants. *)
Lemma elements_trans n : ∀ above e x, e ∈ elements above n → x ∈ descendants e → x ∈ elements above n.
Proof.
  induction n as [s|t a cs IH] using elements_induction; intros above e x; cbn [elements]; [by intros ?%elem_of_nil|].
  rewrite !elem_of_cons, !elem_of_flat_map. intros [->|(c & Hc & He)] Hx.
  - right. unfold descendants in Hx. by apply elem_of_flat_map in Hx.
  - right. rewrite Forall_forall in IH. eauto.
Qed.

Lemma descendants_trans e e' x : e' ∈ descendants e → x ∈ descendants e' → x ∈ descendants e.
Proof. unfold descendants at 1 3. rewrite !elem_of_flat_map. intros (n & ? & ?) ?. eauto using elements_trans. Qed.

(** Selectors without [:scope] do not depend on where the query starts. *)
Lemma matches_class depth c e : matches_any depth [class c] e = is_element (at_node e) && has_class c (at_node e).
Proof. unfold matches_any. cbn. unfold matches_selector. cbn. by rewrite andb_true_r, orb_false_r. Qed.
Lemma matches_tag depth t e : matches_any depth [tag t] e = is_element (at_node e) && bool_decide (tag_of (at_node e) = t).
Proof. unfold matches_any. cbn. unfold matches_selector. cbn. by rewrite andb_true_r, orb_false_r. Qed.
