(* ===== verification/Report.v ===== *)
(** * The dashboard report

    Models frontend/src/features/dashboardReport.tsx: what is collected from the
    rendered page, how it is cut into the sheets of the printed document, and
    what each sheet shows. Markup is not modelled; a sheet is its contents. *)

From S2P Require Import Prelude JsNumber JsDate Json Url I18n Dom.
From Stdlib Require Import QArith Qround.

#[local] Open Scope list_scope.
#[local] Open Scope Z_scope.

(** ** Data *)

Inductive DashboardReportScope := SelectedPeriod | CurrentSnapshot | CurrentView.
#[export] Instance DashboardReportScope_eq_dec : EqDecision DashboardReportScope.
Proof. solve_decision. Defined.

Record DashboardReportMetric := mkMetric {
  metric_label : ustring; metric_value : ustring; metric_detail : option ustring; metric_scope : DashboardReportScope;
}.
Record DashboardReportSignal := mkSignal {
  signal_label : ustring; signal_value : ustring; signal_status : option ustring;
  signal_details : list ustring; signal_scope : DashboardReportScope;
}.
Record DashboardReportBreakdownRow := mkBreakdownRow {
  brow_label : ustring; brow_value : ustring; brow_count : jsnum; brow_detail : option ustring; brow_tone : ustring;
}.
Record DashboardReportBreakdown := mkBreakdown {
  breakdown_title : ustring; breakdown_rows : list DashboardReportBreakdownRow; breakdown_scope : DashboardReportScope;
}.
Record DashboardReportTrendSeries := mkSeries {
  series_label : ustring; series_values : list (option jsnum); series_tone : ustring;
}.
Record DashboardReportTrend := mkTrend {
  trend_title : ustring; trend_categories : list ustring; trend_series : list DashboardReportTrendSeries;
  trend_scope : DashboardReportScope;
}.
Record DashboardReportTable := mkTable {
  table_title : ustring; table_columns : list ustring; table_rows : list (list ustring);
  table_scope : DashboardReportScope;
}.
Record ReportItem := mkItem { item_label : ustring; item_value : ustring }.
Record DashboardReportFactGroup := mkFacts {
  facts_title : ustring; facts_items : list ReportItem; facts_scope : DashboardReportScope;
}.
Record ReportRecord := mkRecord { record_label : ustring; record_details : list ustring }.
Record DashboardReportRecordGroup := mkRecords {
  records_title : ustring; records_records : list ReportRecord; records_scope : DashboardReportScope;
}.

(** [ctx_generatedAt] is a time value; [None] is an invalid date. *)
Record DashboardReportContext := mkContext {
  ctx_generatedAt : option Z; ctx_operator : ustring; ctx_pageTitle : ustring; ctx_pathname : ustring;
  ctx_search : ustring; ctx_userRole : ustring;
}.
Record DashboardReportSnapshot := mkSnapshot {
  snap_context : DashboardReportContext;
  breakdowns : list DashboardReportBreakdown;
  factGroups : list DashboardReportFactGroup;
  metrics : list DashboardReportMetric;
  pageLimited : bool;
  recordGroups : list DashboardReportRecordGroup;
  signals : list DashboardReportSignal;
  tables : list DashboardReportTable;
  trends : list DashboardReportTrend;
  visibleRowCount : Z;
}.

(** ** Text *)

(** [replace(/\s+/g, " ")] *)
Fixpoint collapse_spaces (inRun : bool) (s : ustring) : ustring :=
  match s with
  | [] => []
  | c :: r => if is_space c then (if inRun then collapse_spaces true r else 32 :: collapse_spaces true r)
              else c :: collapse_spaces false r
  end.

Definition text (node : option located) : ustring :=
  trim (collapse_spaces false (match node with Some e => textContent (at_node e) | None => [] end)).

(** [replace(/[↕↓↑]+$/u, "")]: the longest run of sort arrows at the end. *)
Definition is_arrow (c : Z) : bool := (c =? 8597) || (c =? 8595) || (c =? 8593).
Fixpoint drop_arrows (s : ustring) : ustring :=
  match s with
  | c :: r => if is_arrow c then drop_arrows r else s
  | [] => []
  end.
Definition cleanCell (node : located) : ustring := trim (reverse (drop_arrows (reverse (text (Some node))))).

(** [replace(/[^\d.-]/g, "")] *)
Definition numeric_units (value : ustring) : ustring :=
  js_filter (λ c, is_digit c || (c =? 46) || (c =? 45)) value.

Definition parseCount (value : ustring) : jsnum :=
  match number_of (numeric_units value) with NaN => Fin 0 | n => n end.

Definition parseNullableCount (value : option ustring) : option jsnum :=
  match value with
  | Some v => if negb (truthy v) || bool_decide (trim v = u! "—") then None
              else let parsed := number_of (numeric_units v) in if isFinite parsed then Some parsed else None
  | None => None
  end.

(** [match(/tone-([a-z-]+)/)?.[1] ?? "neutral"] *)
Definition tone_unit (c : Z) : bool := (97 <=? c) && (c <=? 122) || (c =? 45).
Fixpoint span_tone (s : ustring) : ustring :=
  match s with
  | c :: r => if tone_unit c then c :: span_tone r else []
  | [] => []
  end.
Fixpoint toneFromClass (s : ustring) : ustring :=
  match s with
  | [] => u! "neutral"
  | _ :: r => if starts_with (u! "tone-") s && truthy (span_tone (drop 5 s)) then span_tone (drop 5 s)
              else toneFromClass r
  end.

Definition directChildText (element : located) (tagName : ustring) (excludedClass : option ustring) : ustring :=
  text (js_find (λ candidate,
    bool_decide (tag_of (at_node candidate) = tagName) &&
    match excludedClass with Some c => negb (truthy c) || negb (has_class c (at_node candidate)) | None => true end)
    (children element)).

(** [a || b] on strings. *)
Definition or_text (a b : ustring) : ustring := if truthy a then a else b.

Definition joinedChildText (element : located) : ustring :=
  or_text (join (u! " ") (js_filter truthy (map (λ c, text (Some c)) (children element)))) (text (Some element)).

(** [filter((value, index, values) => values.indexOf(value) === index)] keeps
    the first occurrence of each value. *)
Definition first_occurrences : list ustring → list ustring := js_unique.

(** [x ? { key: x } : {}] *)
Definition optional (s : ustring) : option ustring := if truthy s then Some s else None.

(** ** Collecting *)

Definition CURRENT_SNAPSHOT_BLOCKS : list ustring :=
  [u! "edr-state"; u! "kpi-high-risk-endpoints"; u! "fleet-distribution"; u! "highest-risk-endpoints"].
Definition SELECTED_PERIOD_BLOCKS : list ustring :=
  [u! "kpi-alerts"; u! "kpi-critical-alerts"; u! "kpi-open-incidents"; u! "detection-activity"; u! "alert-severity";
   u! "incident-queue"].
Definition TIME_QUERY_KEYS : list ustring := [u! "timePreset"; u! "from"; u! "to"].

Definition overview_block : selector := sel (HasAttr (u! "data-overview-block")).

Definition scopeForNode (node : located) : DashboardReportScope :=
  let block := closest [overview_block] node ≫= λ e, attribute (u! "data-overview-block") (at_node e) in
  let in_blocks (blocks : list ustring) :=
    match block with Some b => truthy b && str_in b blocks | None => false end in
  if in_blocks CURRENT_SNAPSHOT_BLOCKS then CurrentSnapshot
  else if in_blocks SELECTED_PERIOD_BLOCKS then SelectedPeriod
  else
    let anchor := if matches [tag (u! "A")] node then Some node else closest [tag (u! "A")] node in
    let href := default [] (anchor ≫= λ a, attribute (u! "href") (at_node a)) in
    if js_some (λ key, includes href (key ++ [61])) TIME_QUERY_KEYS then SelectedPeriod else CurrentView.

(** [Array.from(root.querySelectorAll(selectors))] *)
Definition all_of (ss : list selector) (root : located) : list located := querySelectorAll ss root.
(** [text(node.querySelector(selector))] *)
Definition text_of (ss : list selector) (node : located) : ustring := text (querySelector ss node).
(** [text(node.closest(outer)?.querySelector(inner))] *)
Definition text_near (outer inner : selector) (node : located) : ustring :=
  text (closest [outer] node ≫= querySelector [inner]).

Definition panel_title : located → ustring :=
  text_near (class (u! "panel")) (within (Class_ (u! "panel-heading")) (Tag (u! "H2"))).
(** [:scope > header h2] *)
Definition scope_header_h2 : selector :=
  mkSelector (Tag (u! "H2")) [(DescendantOf, Tag (u! "HEADER")); (ChildOf, Scope)].
Definition section_title : located → ustring := text_near (class (u! "detail-ledger-section")) scope_header_h2.

Definition numbered (label : ustring) (index : nat) : ustring := label ++ [32] ++ string_of_Z (Z.of_nat index + 1).

Definition metric_of (card : located) : option DashboardReportMetric :=
  let label := directChildText card (u! "SPAN") (Some (u! "kpi-icon")) in
  let value := directChildText card (u! "STRONG") None in
  let detail := directChildText card (u! "SMALL") None in
  if truthy label && truthy value then Some (mkMetric label value (optional detail) (scopeForNode card)) else None.

Definition collectMetrics (root : located) : list DashboardReportMetric :=
  take 12 (omap metric_of (all_of [class (u! "kpi-card")] root)).

Definition axis_text (axis : located) : ustring :=
  let axisLabel := text_of [tag (u! "SPAN")] axis in
  let axisScore := text_of [tag (u! "STRONG")] axis in
  let axisStatus := text_of [tag (u! "SMALL")] axis in
  join (u! " · ") (js_filter truthy
    [axisLabel; if truthy axisScore then axisScore ++ u! "/100" else []; axisStatus]).

Definition signal_of (signal : located) : DashboardReportSignal :=
  let label := or_text (text_of [class (u! "eyebrow")] signal) (u! "EDR state") in
  let score := text_of [within (Class_ (u! "edr-overall")) (Tag (u! "STRONG"))] signal in
  let status := text_of [class (u! "status-pill")] signal in
  let axes := map axis_text (all_of [class (u! "edr-axis")] signal) in
  let reasons := js_filter truthy
    (map (λ e, text (Some e)) (all_of [within (Class_ (u! "edr-reason-block")) (Tag (u! "LI"))] signal)) in
  mkSignal label (if truthy score then score ++ u! "/100" else u! "—") (optional status)
    (take 6 (axes ++ reasons)) (scopeForNode signal).

Definition collectSignals (root : located) : list DashboardReportSignal :=
  map signal_of (all_of [class (u! "edr-state-summary")] root).

Definition breakdown_row (listIndex : nat) (element : located) : DashboardReportBreakdownRow :=
  let label := text_of [tag (u! "SPAN")] element in
  let value := text_of [tag (u! "STRONG")] element in
  let detail := text_of [tag (u! "SMALL")] element in
  mkBreakdownRow (or_text label (numbered (u! "Item") listIndex)) (or_text value (u! "0")) (parseCount value)
    (optional detail) (toneFromClass (className (at_node element))).

Definition breakdown_of (listIndex : nat) (list : located) : DashboardReportBreakdown :=
  let sectionTitle := text_near (tag (u! "SECTION")) (within (Tag (u! "HEADER")) (Tag (u! "H3"))) list in
  let groupTitle :=
    if has_class (u! "sensor-breakdown-statuses") (at_node list)
    then text_near (class (u! "sensor-breakdown-heading")) (directly_in Scope (Tag (u! "STRONG"))) list else [] in
  let figureLabel := default [] (closest [tag (u! "FIGURE")] list ≫= λ f, attribute (u! "aria-label") (at_node f)) in
  let titleParts := js_filter truthy (first_occurrences [panel_title list; sectionTitle; groupTitle; figureLabel]) in
  mkBreakdown (or_text (join (u! " · ") titleParts) (numbered (u! "Distribution") listIndex))
    (map (breakdown_row listIndex) (children list)) (scopeForNode list).

Definition collectBreakdowns (root : located) : list DashboardReportBreakdown :=
  js_filter (λ b, negb (Nat.eqb (length (breakdown_rows b)) 0))
    (imap breakdown_of (all_of [class (u! "severity-donut-legend"); class (u! "fleet-risk-list");
       class (u! "sensor-health-legend"); class (u! "sensor-breakdown-statuses")] root)).

(** The cells of a table row. *)
Definition cells (row : located) : list located :=
  js_filter (λ c, bool_decide (tag_of (at_node c) = u! "TD") || bool_decide (tag_of (at_node c) = u! "TH"))
    (children row).
Definition header_cells (table : located) : list ustring :=
  map cleanCell (all_of [within (Tag (u! "THEAD")) (Tag (u! "TH"))] table).
Definition body_rows (table : located) : list (list ustring) :=
  map (λ row, map cleanCell (cells row)) (all_of [within (Tag (u! "TBODY")) (Tag (u! "TR"))] table).

(** *** Trends *)

(** A table of the trend: its caption, headers and rows. *)
Record TrendTable := mkTrendTable { tt_caption : ustring; tt_headers : list ustring; tt_rows : list (list ustring) }.

Definition first_cell (row : list ustring) : ustring := default [] (row !! 0%nat).

(** [if (row[0] && !categoryOrder.includes(row[0])) categoryOrder.push(row[0])] *)
Definition push_category (categoryOrder : list ustring) (row : list ustring) : list ustring :=
  if truthy (first_cell row) then set_add (first_cell row) categoryOrder else categoryOrder.

(** [new Map(rows.map(row => [row[0] ?? "", parseNullableCount(row[columnIndex])]))] *)
Definition valueMap (rows : list (list ustring)) (columnIndex : nat) : list (ustring * option jsnum) :=
  map_of (map (λ row, (first_cell row, parseNullableCount (row !! columnIndex))) rows).

Definition TONES : list ustring := [u! "events"; u! "alerts"; u! "incidents-open"; u! "incidents-closed"].

Definition column_series (table : TrendTable) (categoryOrder : list ustring) (position columnIndex : nat)
  : DashboardReportTrendSeries :=
  let valueHeaders := drop 1 (tt_headers table) in
  let label :=
    if Nat.ltb 1 (length valueHeaders)
    then tt_caption table ++ u! " · " ++
         default (string_of_Z (Z.of_nat columnIndex)) (valueHeaders !! (columnIndex - 1)%nat)
    else tt_caption table in
  mkSeries label (map (λ category, mjoin (map_get category (valueMap (tt_rows table) columnIndex))) categoryOrder)
    (default (u! "events") (TONES !! (position mod 4)%nat)).

(** The columns [1 .. max(headers.length, 2) - 1]. *)
Definition value_columns (table : TrendTable) : list nat := seq 1 (Nat.max (length (tt_headers table)) 2 - 1).

Definition add_table (acc : list ustring * list DashboardReportTrendSeries) (table : TrendTable)
  : list ustring * list DashboardReportTrendSeries :=
  let categoryOrder := foldl push_category acc.1 (tt_rows table) in
  (categoryOrder,
   foldl (λ series columnIndex, series ++ [column_series table categoryOrder (length series) columnIndex])
     acc.2 (value_columns table)).

(** The series of earlier tables get [null] for the categories of later ones. *)
Definition pad_series (categoryOrder : list ustring) (s : DashboardReportTrendSeries) : DashboardReportTrendSeries :=
  mkSeries (series_label s)
    (series_values s ++ replicate (length categoryOrder - length (series_values s)) None) (series_tone s).

Definition merge_tables (tables : list TrendTable) : list ustring * list DashboardReportTrendSeries :=
  let '(categoryOrder, series) := foldl add_table ([], []) tables in
  (categoryOrder, map (pad_series categoryOrder) series).

Definition trend_table (tableIndex : nat) (table : located) : TrendTable :=
  mkTrendTable (or_text (text_of [tag (u! "CAPTION")] table) (numbered (u! "Series") tableIndex))
    (header_cells table) (body_rows table).

Definition trend_of (wrapperIndex : nat) (wrapper : located) : DashboardReportTrend :=
  let '(categoryOrder, series) := merge_tables (imap trend_table (all_of [tag (u! "TABLE")] wrapper)) in
  mkTrend
    (or_text (text_near (class (u! "chart-frame")) scope_header_h2 wrapper)
       (or_text (panel_title wrapper)
          (or_text (text_near overview_block (within (Class_ (u! "panel-heading")) (Tag (u! "H2"))) wrapper)
             (numbered (u! "Trend") wrapperIndex))))
    categoryOrder series (scopeForNode wrapper).

Definition trend_tables : selector := class (u! "detection-activity-tables").

Definition collectTrends (root : located) : list DashboardReportTrend :=
  js_filter (λ t, negb (Nat.eqb (length (trend_categories t)) 0) && negb (Nat.eqb (length (trend_series t)) 0))
    (imap trend_of (all_of [trend_tables] root)).

(** *** Tables, facts and records *)

(** [Math.max(...rows.map((row) => row.length), 0)] *)
Definition widest (rows : list (list ustring)) : nat := foldr Nat.max 0%nat (map length rows).

Definition table_of (index : nat) (table : located) : DashboardReportTable :=
  let columns := header_cells table in
  let rows := body_rows table in
  let caption := text_of [tag (u! "CAPTION")] table in
  mkTable (or_text caption (or_text (section_title table) (or_text (panel_title table) (numbered (u! "Table") index))))
    (match columns with [] => map (numbered (u! "Column")) (seq 0 (widest rows)) | _ => columns end)
    rows (scopeForNode table).

Definition outside_trends (table : located) : bool :=
  match closest [trend_tables] table with None => true | Some _ => false end.

Definition collectTables (root : located) : list DashboardReportTable :=
  js_filter (λ t, negb (Nat.eqb (length (table_columns t)) 0) && negb (Nat.eqb (length (table_rows t)) 0))
    (imap table_of (js_filter outside_trends (all_of [tag (u! "TABLE")] root))).

Definition fact_of (item : located) : ReportItem :=
  mkItem (text_of [tag (u! "DT")] item) (text_of [tag (u! "DD")] item).

Definition fact_group (index : nat) (group : located) : DashboardReportFactGroup :=
  mkFacts (or_text (section_title group) (or_text (panel_title group) (numbered (u! "Details") index)))
    (js_filter (λ i, truthy (item_label i) && truthy (item_value i)) (map fact_of (children group)))
    (scopeForNode group).

Definition collectFactGroups (root : located) : list DashboardReportFactGroup :=
  js_filter (λ g, negb (Nat.eqb (length (facts_items g)) 0))
    (imap fact_group (all_of [class (u! "definition-grid"); class (u! "detail-fact-list")] root)).

Definition ranking_metric : selector := directly_in (Class_ (u! "risk-ranking-metrics")) (Tag (u! "DIV")).

Definition detail_text (detail : located) : ustring :=
  if matches [ranking_metric] detail then joinedChildText detail else text (Some detail).

Definition record_of (element : located) : ReportRecord :=
  let label := or_text
    (text_of [tag (u! "A"); directly_in (Class_ (u! "queue-primary")) (Tag (u! "STRONG"));
              directly_in Scope (Tag (u! "STRONG"))] element)
    (slice0 120 (text (Some element))) in
  let found := js_filter (λ detail,
      negb (matches [tag (u! "SMALL")] detail &&
            match closest [class (u! "risk-ranking-metrics")] detail with Some _ => true | None => false end))
    (all_of [tag (u! "SMALL"); class (u! "status-pill"); class (u! "incident-state"); class (u! "incident-alert-count");
             tag (u! "TIME"); ranking_metric] element) in
  mkRecord label
    (take 6 (js_filter (λ value, truthy value && negb (bool_decide (value = label)))
       (first_occurrences (map detail_text found)))).

Definition record_group (index : nat) (group : located) : DashboardReportRecordGroup :=
  mkRecords
    (or_text (panel_title group)
       (or_text (default [] (attribute (u! "aria-label") (at_node group))) (numbered (u! "Records") index)))
    (js_filter (λ r, truthy (record_label r)) (map record_of (children group))) (scopeForNode group).

Definition collectRecordGroups (root : located) : list DashboardReportRecordGroup :=
  js_filter (λ g, negb (Nat.eqb (length (records_records g)) 0))
    (imap record_group (all_of [class (u! "risk-endpoint-ranking"); class (u! "incident-queue-list");
       class (u! "guidance-list"); class (u! "risk-factor-list")] root)).

(** *** The snapshot *)

(** The argument of [collectDashboardReport]: a date, or some fields of the context. *)
Record PartialContext := mkPartial {
  p_generatedAt : option (option Z); p_operator : option ustring; p_pageTitle : option ustring;
  p_pathname : option ustring; p_search : option ustring; p_userRole : option ustring;
}.
Definition of_date (generatedAt : option Z) : PartialContext := mkPartial (Some generatedAt) None None None None None.

(** [now] is the time of the call. *)
Definition report_context (now : Z) (context : PartialContext) : DashboardReportContext :=
  mkContext (default (Some now) (p_generatedAt context)) (default (u! "—") (p_operator context))
    (default (u! "Report") (p_pageTitle context)) (default (u! "/") (p_pathname context))
    (default [] (p_search context)) (default (u! "—") (p_userRole context)).

Definition collectDashboardReport (now : Z) (root : option located) (context : PartialContext)
  : DashboardReportSnapshot :=
  let reportContext := report_context now context in
  match root with
  | None => mkSnapshot reportContext [] [] [] false [] [] [] [] 0
  | Some root =>
    let tables := collectTables root in
    mkSnapshot reportContext (collectBreakdowns root) (collectFactGroups root) (collectMetrics root)
      (match querySelector [class (u! "pagination")] root with Some _ => true | None => false end)
      (collectRecordGroups root) (collectSignals root) tables (collectTrends root)
      (foldl (λ total table, total + Z.of_nat (length (table_rows table))) 0 tables)
  end.

(** ** The copy of the document *)

Definition SERVICE_NAME : ustring := u! "OWLBY".

Record ReportCopy := mkReportCopy {
  appliedScope : ustring; currentSnapshot : ustring; currentView : ustring; documentType : ustring;
  empty : ustring; executiveSummary : ustring; generated : ustring; operator : ustring; page : ustring;
  pageSize : ustring; reportId : ustring; selectedPeriod : ustring; userRole : ustring;
  visibleBoundary : Z → ustring;
}.

Definition REPORT_COPY (locale : Locale) : ReportCopy :=
  match locale with
  | EN => mkReportCopy (u! "Applied filters") (u! "Current snapshot") (u! "Current view")
      (SERVICE_NAME ++ u! " OPERATIONS REPORT") (u! "No structured evidence is rendered on this page.")
      (u! "Executive Summary") (u! "Generated") (u! "Operator") (u! "Page") (u! "Page size") (u! "Report ID")
      (u! "Selected period") (u! "Access role")
      (λ rows, u! "Visible page · " ++ string_of_Z rows ++ u! " rows")
  | KO => mkReportCopy (u! "적용 필터") (u! "현재 스냅샷") (u! "현재 화면")
      (SERVICE_NAME ++ u! " 운영 리포트") (u! "현재 화면에 구조화된 결과가 없습니다.")
      (u! "Executive Summary") (u! "생성 시각") (u! "Operator") (u! "페이지") (u! "페이지 크기") (u! "Report ID")
      (u! "선택 기간") (u! "Access role")
      (λ rows, u! "현재 페이지 · " ++ string_of_Z rows ++ u! "행")
  end.

Definition FILTER_LABELS (locale : Locale) : list (ustring * ustring) :=
  match locale with
  | EN =>
    [(u! "timePreset", u! "Time range"); (u! "from", u! "From (UTC)"); (u! "to", u! "To (UTC)");
     (u! "endpointId", u! "Endpoint ID"); (u! "endpointIds", u! "Endpoint IDs"); (u! "severity", u! "Severity");
     (u! "status", u! "Status"); (u! "riskLevel", u! "Risk level"); (u! "osType", u! "Operating system");
     (u! "sortBy", u! "Sort by"); (u! "sortOrder", u! "Sort order"); (u! "q", u! "Search");
     (u! "processName", u! "Process name"); (u! "eventType", u! "Event type"); (u! "ruleCode", u! "Rule code");
     (u! "domain", u! "Domain")]
  | KO =>
    [(u! "timePreset", u! "조회 기간"); (u! "from", u! "시작 (UTC)"); (u! "to", u! "종료 (UTC)");
     (u! "endpointId", u! "Endpoint ID"); (u! "endpointIds", u! "Endpoint ID 목록"); (u! "severity", u! "심각도");
     (u! "status", u! "상태"); (u! "riskLevel", u! "Risk 등급"); (u! "osType", u! "운영체제");
     (u! "sortBy", u! "정렬 기준"); (u! "sortOrder", u! "정렬 순서"); (u! "q", u! "검색어");
     (u! "processName", u! "Process 이름"); (u! "eventType", u! "Event 유형"); (u! "ruleCode", u! "Rule 코드");
     (u! "domain", u! "Domain")]
  end.

Definition presets (locale : Locale) : list (ustring * ustring) :=
  match locale with
  | EN => [(u! "LATEST_15M", u! "Latest 15 minutes"); (u! "LATEST_1H", u! "Latest 1 hour");
           (u! "LATEST_24H", u! "Latest 24 hours"); (u! "LATEST_7D", u! "Latest 7 days");
           (u! "CUSTOM", u! "Custom UTC range")]
  | KO => [(u! "LATEST_15M", u! "최근 15분"); (u! "LATEST_1H", u! "최근 1시간"); (u! "LATEST_24H", u! "최근 24시간");
           (u! "LATEST_7D", u! "최근 7일"); (u! "CUSTOM", u! "UTC 기간 직접 설정")]
  end.

Definition scopeLabel (scope : DashboardReportScope) (copy : ReportCopy) : ustring :=
  match scope with
  | SelectedPeriod => selectedPeriod copy
  | CurrentSnapshot => currentSnapshot copy
  | CurrentView => currentView copy
  end.

(** ** Filters *)

(** [object[name] ?? fallback]: text, or a member inherited from [Object.prototype]. *)
Inductive shown := ShownText (s : ustring) | ShownMember.
Definition coalesce (m : member_of ustring) (fallback : ustring) : shown :=
  match m with Own s => ShownText s | Inherited => ShownMember | Absent => ShownText fallback end.

Record ReportFilter := mkReportFilter { filter_label : shown; filter_value : shown }.

Definition is_lower_or_digit (c : Z) : bool := (97 <=? c) && (c <=? 122) || is_digit c.
Definition is_upper (c : Z) : bool := (65 <=? c) && (c <=? 90).

(** [replace(/([a-z0-9])([A-Z])/g, "$1 $2")] *)
Fixpoint split_humps (s : ustring) : ustring :=
  match s with
  | c :: r =>
    match r with
    | d :: r' => if is_lower_or_digit c && is_upper d then c :: 32 :: d :: split_humps r' else c :: split_humps r
    | [] => [c]
    end
  | [] => []
  end.
(** [replaceAll("_", " ")] *)
Definition underscores (s : ustring) : ustring := map (λ c, if c =? 95 then 32 else c) s.

Section document.
(** [String.prototype.toUpperCase], [Number.prototype.toLocaleString] and
    [Date.prototype.toLocaleString] of the host. *)
Context (toUpperCase : ustring → ustring).
Context (numberLocaleString : jsnum → ustring).
Context (dateLocaleString : ustring → option Z → ustring).

Definition humanizeKey (value : ustring) : ustring :=
  match underscores (split_humps value) with
  | c :: r => if line_terminator c then c :: r else toUpperCase [c] ++ r
  | [] => []
  end.

Definition humanizeValue (value : ustring) (locale : Locale) : shown :=
  coalesce (object_get (presets locale) value) (underscores value).

Definition filter_of (locale : Locale) (kv : ustring * ustring) : ReportFilter :=
  let '(key, value) := kv in
  mkReportFilter
    (if bool_decide (key = u! "page") then ShownText (page (REPORT_COPY locale))
     else if bool_decide (key = u! "pageSize") then ShownText (pageSize (REPORT_COPY locale))
     else coalesce (object_get (FILTER_LABELS locale) key) (humanizeKey key))
    (humanizeValue value locale).

Definition buildReportFilters (search : ustring) (locale : Locale) : list ReportFilter :=
  map (filter_of locale) (js_filter (λ kv, truthy kv.2) (params_of_string search)).

(** ** The summary *)

Definition SCOPES : list DashboardReportScope := [CurrentSnapshot; SelectedPeriod; CurrentView].

Definition in_scope (scope : DashboardReportScope) (ms : list DashboardReportMetric) : list DashboardReportMetric :=
  js_filter (λ m, bool_decide (metric_scope m = scope)) ms.

Definition signal_summary (locale : Locale) (s : DashboardReportSignal) : ustring :=
  signal_label s ++ (match locale with KO => u! " " | EN => u! ": " end) ++ signal_value s ++
  (match signal_status s with Some st => if truthy st then u! " · " ++ st else [] | None => [] end).

Definition scope_summary (snapshot : DashboardReportSnapshot) (locale : Locale) (summaries : list ustring)
  (scope : DashboardReportScope) : list ustring :=
  let values := in_scope scope (metrics snapshot) in
  if Nat.eqb (length values) 0 || Nat.leb 3 (length summaries) then summaries
  else summaries ++ [scopeLabel scope (REPORT_COPY locale) ++ u! ": " ++
         join (u! " · ") (map (λ m, metric_label m ++ u! " " ++ metric_value m) values)].

Definition buildSummary (snapshot : DashboardReportSnapshot) (locale : Locale) : list ustring :=
  let summaries := match signals snapshot with s :: _ => [signal_summary locale s] | [] => [] end in
  let summaries := foldl (scope_summary snapshot locale) summaries SCOPES in
  let summaries :=
    if pageLimited snapshot && Nat.ltb (length summaries) 3
    then summaries ++ [visibleBoundary (REPORT_COPY locale) (visibleRowCount snapshot)] else summaries in
  take 3 summaries.

(** ** Cutting lists *)

(** The loop [for (index = 0; index < items.length; index += size)]; the fuel is
    the number of items. *)
Fixpoint chunk_loop {A} (fuel : nat) (items : list A) (size : nat) : list (list A) :=
  match fuel, items with
  | S fuel, _ :: _ => take size items :: chunk_loop fuel (drop size items) size
  | _, _ => []
  end.
Definition chunk {A} (items : list A) (size : nat) : list (list A) := chunk_loop (length items) items size.

(** [array.slice(a, b)] for indices within range. *)
Definition slice {A} (a b : nat) (l : list A) : list A := take (b - a) (drop a l).

Definition trend_part (trend : DashboardReportTrend) (size chunkIndex : nat) (categories : list ustring)
  : DashboardReportTrend :=
  mkTrend (trend_title trend) categories
    (map (λ s, mkSeries (series_label s) (slice (chunkIndex * size) ((chunkIndex + 1) * size) (series_values s))
                 (series_tone s)) (trend_series trend))
    (trend_scope trend).

Definition chunkTrend (trend : DashboardReportTrend) (size : nat) : list DashboardReportTrend :=
  imap (trend_part trend size) (chunk (trend_categories trend) size).

Definition commonScope (scopes : list DashboardReportScope) : option DashboardReportScope :=
  match scopes with
  | first :: _ => if forallb (λ s, bool_decide (s = first)) scopes then Some first else None
  | [] => None
  end.

(** [findIndex] and [splice(index, 1)]: the first element that satisfies [p], and
    the list without it. *)
Fixpoint splice_first {A} (p : A → bool) (l : list A) : option A * list A :=
  match l with
  | [] => (None, [])
  | x :: r => if p x then (Some x, r) else let '(found, rest) := splice_first p r in (found, x :: rest)
  end.

(** ** Charts *)

Definition one : jsnum := num_of_Z 1.
(** [Math.max(...values, 1)] *)
Definition maximum_of (values : list jsnum) : jsnum := foldr num_max one values.

(** A bar of [ReportBreakdownCard]: the share of the longest bar, in percent. *)
Definition bar_share (maximum count : jsnum) : jsnum :=
  if num_positive count then num_max (num_mul (num_div count maximum) (num_of_Z 100)) (num_of_Z 2) else num_of_Z 0.

Definition ReportBreakdownCard (breakdown : DashboardReportBreakdown) : list (DashboardReportBreakdownRow * jsnum) :=
  let maximum := maximum_of (map brow_count (breakdown_rows breakdown)) in
  map (λ row, (row, bar_share maximum (brow_count row))) (breakdown_rows breakdown).

Definition trendX (index length : Z) : jsnum :=
  if length <=? 1 then num_of_Z 428
  else num_add (num_of_Z 54) (num_div (num_mul (num_of_Z index) (num_of_Z 748)) (num_of_Z (length - 1))).

Definition trendY (value maximum : jsnum) : jsnum :=
  num_sub (num_of_Z 174) (num_mul (num_div value (num_max maximum one)) (num_of_Z 150)).

Record TrendPoint := mkPoint { pt_index : Z; pt_value : jsnum; pt_x : jsnum; pt_y : jsnum }.

Definition trendPoints (values : list (option jsnum)) (maximum : jsnum) : list TrendPoint :=
  omap id (imap (λ index value, v ← value;
    Some (mkPoint (Z.of_nat index) v (trendX (Z.of_nat index) (Z.of_nat (length values))) (trendY v maximum))) values).

Definition trendPath (values : list (option jsnum)) (maximum : jsnum) : ustring :=
  join (u! " ") (imap (λ index value,
    match value with
    | None => []
    | Some v =>
      (if Nat.eqb index 0 || match values !! (index - 1)%nat with Some None => true | _ => false end then u! "M" else u! "L") ++
      string_of_num (trendX (Z.of_nat index) (Z.of_nat (length values))) ++ u! "," ++ string_of_num (trendY v maximum)
    end) values).

(** [/\d{4}|\d{1,2}[:/-]\d{1,2}/], at the start of the text. *)
Definition is_separator (c : Z) : bool := (c =? 58) || (c =? 47) || (c =? 45).
Definition bucket_here (s : ustring) : bool :=
  match s with
  | a :: b :: r =>
    is_digit a &&
    (match r with c :: d :: _ => is_digit b && is_digit c && is_digit d | _ => false end
     || is_separator b && match r with c :: _ => is_digit c | [] => false end
     || is_digit b && match r with c :: d :: _ => is_separator c && is_digit d | _ => false end)
  | _ => false
  end.
Fixpoint looks_like_bucket (s : ustring) : bool :=
  match s with
  | [] => false
  | _ :: r => bucket_here s || looks_like_bucket r
  end.
Definition localeIndependentBucketLabel (trend : DashboardReportTrend) : ustring :=
  if js_some looks_like_bucket (trend_categories trend) then u! "Bucket" else u! "Category".

Definition formatReportNumber (value : option jsnum) : ustring :=
  match value with None => u! "—" | Some v => numberLocaleString v end.

(** The cells [columns.map((_column, columnIndex) => row[columnIndex] || "—")]. *)
Definition ReportTable (columns : list ustring) (rows : list (list ustring)) : list (list ustring) :=
  map (λ row, map (λ columnIndex, or_text (default [] (row !! columnIndex)) (u! "—")) (seq 0 (length columns))) rows.

(** [[0, middleIndex, categories.length - 1].filter(...)] *)
Definition axisLabels (count : nat) : list Z :=
  let n := Z.of_nat count in
  js_unique (js_filter (λ v, 0 <=? v) [0; (n - 1) / 2; n - 1]).

Record TrendSheet := mkTrendSheet {
  chart_height : Z;
  chart_y_labels : list jsnum;
  chart_series : list (ustring * list TrendPoint);
  chart_x_labels : list (ustring * jsnum);
  chart_columns : list ustring;
  chart_rows : list (list ustring);
}.

Definition ReportTrend (trend : DashboardReportTrend) : TrendSheet :=
  let maximum := maximum_of (flat_map (λ s, omap id (series_values s)) (trend_series trend)) in
  let count := length (trend_categories trend) in
  let columns := localeIndependentBucketLabel trend :: map series_label (trend_series trend) in
  mkTrendSheet (if Nat.leb count 4 then 320 else if Nat.leb count 7 then 270 else 230)
    [maximum; num_round (num_div maximum (num_of_Z 2)); num_of_Z 0]
    (map (λ s, (trendPath (series_values s) maximum, trendPoints (series_values s) maximum)) (trend_series trend))
    (map (λ index, (default [] (trend_categories trend !! Z.to_nat index), trendX index (Z.of_nat count)))
       (axisLabels count))
    columns
    (ReportTable columns (imap (λ index category,
       category :: map (λ s, formatReportNumber (mjoin (series_values s !! index))) (trend_series trend))
       (trend_categories trend))).

(** [String(index + 1).padStart(2, "0")] *)
Definition record_number (index : nat) : ustring :=
  let s := string_of_Z (Z.of_nat index + 1) in replicate (2 - length s) 48 ++ s.
Definition ReportRecords (records : list ReportRecord) : list (ustring * ReportRecord) :=
  imap (λ index record, (record_number index, record)) records.

(** ** Sheets *)

Inductive PageContent :=
  | OverviewContent (breakdowns : list DashboardReportBreakdown) (filters : list ReportFilter)
      (summaries : list ustring) (metricGroups : list (DashboardReportScope * list DashboardReportMetric))
      (signals : list DashboardReportSignal) (boundary : option ustring) (metadata : list (ustring * ustring))
  | BreakdownsContent (group : list DashboardReportBreakdown) (recordGroup : option DashboardReportRecordGroup)
  | TrendContent (trend : DashboardReportTrend)
  | RecordsContent (records : list ReportRecord)
  | FactsContent (items : list ReportItem)
  | TableContent (columns : list ustring) (rows : list (list ustring)).

Record ReportPage := mkPage {
  page_content : PageContent; page_key : ustring; page_scope : option DashboardReportScope; page_title : ustring;
}.

Definition report_metadata (dateLocale : ustring) (copy : ReportCopy) (id : ustring) (context : DashboardReportContext)
  : list (ustring * ustring) :=
  [(reportId copy, id); (generated copy, dateLocaleString dateLocale (ctx_generatedAt context));
   (operator copy, ctx_operator context); (userRole copy, ctx_userRole context)].

Definition ReportOverview (breakdowns : list DashboardReportBreakdown) (dateLocale : ustring)
  (filters : list ReportFilter) (locale : Locale) (id : ustring) (snapshot : DashboardReportSnapshot) : PageContent :=
  OverviewContent breakdowns filters (buildSummary snapshot locale)
    (js_filter (λ g, negb (Nat.eqb (length g.2) 0)) (map (λ scope, (scope, in_scope scope (metrics snapshot))) SCOPES))
    (signals snapshot)
    (if pageLimited snapshot then Some (visibleBoundary (REPORT_COPY locale) (visibleRowCount snapshot)) else None)
    (report_metadata dateLocale (REPORT_COPY locale) id (snap_context snapshot)).

(** [toISOString().replace(/[-:]/g, "").slice(0, 15)]; an invalid date throws. *)
Definition report_id (generatedAt : option Z) : option ustring :=
  t ← generatedAt;
  Some (SERVICE_NAME ++ u! "-" ++
        slice0 15 (js_filter (λ c, negb ((c =? 45) || (c =? 58))) (toISOString t)) ++ u! "Z").

Definition part_key (kind title : ustring) (index : nat) : ustring :=
  kind ++ title ++ u! "-" ++ string_of_Z (Z.of_nat index).

Definition breakdown_page (locale : Locale) (index : nat) (group : list DashboardReportBreakdown)
  (recordGroup : option DashboardReportRecordGroup) : ReportPage :=
  mkPage (BreakdownsContent group recordGroup) (u! "breakdowns-" ++ string_of_Z (Z.of_nat index))
    (commonScope (map breakdown_scope group ++ match recordGroup with Some r => [records_scope r] | None => [] end))
    (match locale with KO => u! "핵심 근거" | EN => u! "Key evidence" end).

(** The first page of breakdowns takes along the first short group of records. *)
Definition breakdown_pages (locale : Locale) (remaining : list DashboardReportBreakdown)
  (groups : list DashboardReportRecordGroup) : list ReportPage * list DashboardReportRecordGroup :=
  match chunk remaining 3 with
  | [] => ([], groups)
  | group :: rest =>
    let '(recordGroup, groups) := splice_first (λ g, Nat.leb (length (records_records g)) 6) groups in
    (breakdown_page locale 0 group recordGroup :: imap (λ i g, breakdown_page locale (S i) g None) rest, groups)
  end.

Definition trend_pages (trend : DashboardReportTrend) : list ReportPage :=
  imap (λ index part, mkPage (TrendContent part) (part_key (u! "trend-") (trend_title trend) index)
                        (Some (trend_scope trend)) (trend_title trend)) (chunkTrend trend 10).
Definition record_pages (group : DashboardReportRecordGroup) : list ReportPage :=
  imap (λ index records, mkPage (RecordsContent records) (part_key (u! "records-") (records_title group) index)
                           (Some (records_scope group)) (records_title group)) (chunk (records_records group) 8).
Definition fact_pages (group : DashboardReportFactGroup) : list ReportPage :=
  imap (λ index items, mkPage (FactsContent items) (part_key (u! "facts-") (facts_title group) index)
                         (Some (facts_scope group)) (facts_title group)) (chunk (facts_items group) 18).

Definition rowsPerPage (table : DashboardReportTable) : nat :=
  if Nat.ltb 8 (length (table_columns table)) then 7 else if Nat.ltb 5 (length (table_columns table)) then 9 else 12.
Definition table_pages (table : DashboardReportTable) : list ReportPage :=
  imap (λ index rows, mkPage (TableContent (table_columns table) rows) (part_key (u! "table-") (table_title table) index)
                        (Some (table_scope table)) (table_title table)) (chunk (table_rows table) (rowsPerPage table)).

(** The pages of the document; [None] when the date of the report is invalid. *)
Definition DashboardReportDocument (dateLocale : ustring) (locale : Locale) (snapshot : DashboardReportSnapshot)
  : option (list ReportPage) :=
  id ← report_id (ctx_generatedAt (snap_context snapshot));
  let filters := buildReportFilters (ctx_search (snap_context snapshot)) locale in
  let '(evidence, remainingRecordGroups) :=
    breakdown_pages locale (drop 2 (breakdowns snapshot)) (recordGroups snapshot) in
  Some (mkPage (ReportOverview (take 2 (breakdowns snapshot)) dateLocale filters locale id snapshot) (u! "overview") None
          (executiveSummary (REPORT_COPY locale))
        :: evidence ++ flat_map trend_pages (trends snapshot) ++ flat_map record_pages remainingRecordGroups ++
           flat_map fact_pages (factGroups snapshot) ++ flat_map table_pages (tables snapshot)).

(** What [ReportSheet] adds to a page: its header but on the first, and its folio. *)
Definition ReportSheet (copy : ReportCopy) (snapshot : DashboardReportSnapshot) (total index : nat) (p : ReportPage)
  : option (ustring * ustring * option ustring) * ustring * ustring :=
  (match index with
   | O => None
   | S _ => Some (documentType copy, page_title p, (λ s, scopeLabel s copy) <$> page_scope p)
   end,
   ctx_pathname (snap_context snapshot) ++ ctx_search (snap_context snapshot),
   string_of_Z (Z.of_nat index + 1) ++ u! " / " ++ string_of_Z (Z.of_nat total)).
End document.

(** ** Lemmas: cutting *)

Lemma chunk_loop_concat {A} fuel (items : list A) size : (0 < size)%nat → (length items ≤ fuel)%nat →
  concat (chunk_loop fuel items size) = items.
Proof.
  intros Hs. revert items. induction fuel as [|fuel IH]; intros [|x l] Hf; cbn in *; try done; try lia.
  rewrite IH; [apply (take_drop size (x :: l))|]. rewrite length_drop. cbn. lia.
Qed.

Lemma chunk_concat {A} (items : list A) size : (0 < size)%nat → concat (chunk items size) = items.
Proof. intros. by apply chunk_loop_concat. Qed.

Lemma chunk_loop_sizes {A} fuel (items : list A) size : (0 < size)%nat →
  Forall (λ part, (0 < length part ≤ size)%nat) (chunk_loop fuel items size).
Proof.
  intros Hs. revert items. induction fuel as [|fuel IH]; intros [|x l]; cbn; [done..|].
  constructor; [|apply IH]. rewrite length_take. cbn. lia.
Qed.

Lemma chunk_sizes {A} (items : list A) size : (0 < size)%nat →
  Forall (λ part, (0 < length part ≤ size)%nat) (chunk items size).
Proof. intros. by apply chunk_loop_sizes. Qed.

(** The part at index [i] starts at item [i * size]. *)
Lemma chunk_loop_lookup {A} fuel (items : list A) size i part : (0 < size)%nat → (length items ≤ fuel)%nat →
  chunk_loop fuel items size !! i = Some part → part = slice (i * size) ((i + 1) * size) items.
Proof.
  intros Hs. revert items i. induction fuel as [|fuel IH]; intros [|x l] i Hf; cbn [chunk_loop]; [done..|].
  destruct i as [|i].
  - cbn [lookup list_lookup]. intros [= <-]. unfold slice. f_equal. lia.
  - intros H%IH; [|rewrite length_drop; cbn in *; lia]. rewrite H. unfold slice. rewrite drop_drop. f_equal; lia.
Qed.

Lemma chunk_lookup {A} (items : list A) size i part : (0 < size)%nat →
  chunk items size !! i = Some part → part = slice (i * size) ((i + 1) * size) items.
Proof. intros. by eapply chunk_loop_lookup. Qed.

Lemma chunk_loop_count {A B} fuel (xs : list A) (ys : list B) size : length xs = length ys →
  length (chunk_loop fuel xs size) = length (chunk_loop fuel ys size).
Proof.
  revert xs ys. induction fuel as [|fuel IH]; intros [|x xs] [|y ys] Hl; cbn in *; try done; try lia.
  f_equal. apply IH. rewrite !length_drop. cbn. lia.
Qed.

Definition opt_items {A} (o : option A) : list A := match o with Some x => [x] | None => [] end.

Lemma splice_first_perm {A} (p : A → bool) l found rest : splice_first p l = (found, rest) →
  opt_items found ++ rest ≡ₚ l ∧ ∀ x, found = Some x → p x = true.
Proof.
  revert found rest. induction l as [|x l IH]; intros found rest; cbn; [by intros [= <- <-]|].
  destruct (p x) eqn:E; [intros [= <- <-]; split; [done|by intros ? [= <-]]|].
  destruct (splice_first p l) as [f r]. intros [= <- <-]. destruct (IH f r eq_refl) as [<- ?].
  split; [|done]. symmetry. apply Permutation_middle.
Qed.

(** ** What the pages print *)

Definition printed_breakdowns (p : ReportPage) : list DashboardReportBreakdown :=
  match page_content p with
  | OverviewContent group _ _ _ _ _ _ | BreakdownsContent group _ => group
  | _ => []
  end.

Definition group_records (g : DashboardReportRecordGroup) : list (ustring * ReportRecord) :=
  map (pair (records_title g)) (records_records g).
Definition printed_records (p : ReportPage) : list (ustring * ReportRecord) :=
  match page_content p with
  | BreakdownsContent _ (Some g) => group_records g
  | RecordsContent records => map (pair (page_title p)) records
  | _ => []
  end.

Definition group_facts (g : DashboardReportFactGroup) : list (ustring * ReportItem) :=
  map (pair (facts_title g)) (facts_items g).
Definition printed_facts (p : ReportPage) : list (ustring * ReportItem) :=
  match page_content p with FactsContent items => map (pair (page_title p)) items | _ => [] end.

Definition table_lines (t : DashboardReportTable) : list (ustring * list ustring * list ustring) :=
  map (pair (table_title t, table_columns t)) (table_rows t).
Definition printed_rows (p : ReportPage) : list (ustring * list ustring * list ustring) :=
  match page_content p with TableContent columns rows => map (pair (page_title p, columns)) rows | _ => [] end.

(** A line of a trend: a category and the value of every series there. *)
Definition trend_line (t : DashboardReportTrend) (index : nat) (category : ustring)
  : ustring * ustring * list (ustring * option jsnum) :=
  (trend_title t, category, map (λ s, (series_label s, mjoin (series_values s !! index))) (trend_series t)).
Definition trend_lines (t : DashboardReportTrend) : list (ustring * ustring * list (ustring * option jsnum)) :=
  imap (trend_line t) (trend_categories t).
Definition printed_lines (p : ReportPage) : list (ustring * ustring * list (ustring * option jsnum)) :=
  match page_content p with TrendContent t => trend_lines t | _ => [] end.

Lemma flat_map_nil {A B} (f : A → list B) l : (∀ x, x ∈ l → f x = []) → flat_map f l = [].
Proof. induction l as [|x l IH]; intros H; [done|]. cbn. rewrite H, IH; set_solver. Qed.

Lemma flat_map_imap_concat {A B C} (f : B → list C) (g : nat → list A → B) (h : A → C) parts :
  (∀ i part, f (g i part) = map h part) → flat_map f (imap g parts) = map h (concat parts).
Proof.
  revert g. induction parts as [|p parts IH]; intros g Hf; [done|]. cbn. rewrite Hf, map_app.
  f_equal. by apply (IH (g ∘ S)); intros; apply Hf.
Qed.

Lemma flat_map_flat_map {A B C} (f : B → list C) (g : A → list B) (h : A → list C) l :
  (∀ x, flat_map f (g x) = h x) → flat_map f (flat_map g l) = flat_map h l.
Proof. intros H. induction l as [|x l IH]; [done|]. cbn. by rewrite flat_map_app, H, IH. Qed.

Lemma flat_map_imap_nil {A B C} (f : B → list C) (g : nat → A → B) l :
  (∀ i x, f (g i x) = []) → flat_map f (imap g l) = [].
Proof. intros H. apply flat_map_nil. intros y (i & x & -> & _)%elem_of_lookup_imap. apply H. Qed.

(** A slice of a series shows, at an index of its part, the value at the index of the whole. *)
Lemma slice_lookup {A} (l : list A) k size i : (i < size)%nat →
  slice (k * size) ((k + 1) * size) l !! i = l !! (k * size + i)%nat.
Proof. intros Hi. unfold slice. rewrite lookup_take_lt by lia. apply lookup_drop. Qed.

Lemma part_lines t size k categories : (length categories ≤ size)%nat →
  trend_lines (trend_part t size k categories) = imap (λ i, trend_line t (k * size + i)) categories.
Proof.
  intros Hl. unfold trend_lines. apply imap_ext. intros i c Hc%lookup_lt_Some.
  unfold trend_line. cbn. f_equal. rewrite map_map. apply map_ext. intros s. cbn. by rewrite slice_lookup by lia.
Qed.

Lemma chunk_loop_lines t fuel size k categories : (0 < size)%nat → (length categories ≤ fuel)%nat →
  flat_map trend_lines (imap (λ i, trend_part t size (k + i)) (chunk_loop fuel categories size)) =
  imap (λ i, trend_line t (k * size + i)) categories.
Proof.
  intros Hs. revert k categories. induction fuel as [|fuel IH]; intros k [|c cs] Hf; cbn [chunk_loop length] in *;
    [done|lia|done|]. set (l := c :: cs). rewrite imap_cons. cbn [flat_map]. rewrite part_lines, Nat.add_0_r
    by (rewrite length_take; lia).
  rewrite (imap_ext _ (λ i, trend_part t size (S k + i))) by (intros; cbn; f_equal; lia).
  rewrite IH by (unfold l; rewrite length_drop; cbn; lia).
  rewrite <- (take_drop size l) at 3. rewrite imap_app. f_equal. apply imap_ext. intros i x Hx. cbn.
  f_equal. apply lookup_lt_Some in Hx. rewrite length_drop in Hx. rewrite length_take_le by lia. lia.
Qed.

(** Cutting a trend into parts loses no line. *)
Lemma chunkTrend_lines t size : (0 < size)%nat → flat_map trend_lines (chunkTrend t size) = trend_lines t.
Proof.
  intros Hs. unfold chunkTrend, chunk.
  by rewrite (chunk_loop_lines t _ size 0) by (done || lia).
Qed.

Lemma flat_map_imap {A B C} (f : B → list C) (g : nat → A → B) (h : A → list C) l :
  (∀ i x, f (g i x) = h x) → flat_map f (imap g l) = flat_map h l.
Proof.
  revert g. induction l as [|x l IH]; intros g H; [done|]. cbn. rewrite H. f_equal. apply (IH (g ∘ S)). intros; apply H.
Qed.

(** *** The pages of one part of the snapshot *)

Section pages.
Context (title_of : ustring).

Lemma record_pages_print g : flat_map printed_records (record_pages g) = group_records g.
Proof.
  unfold record_pages. rewrite (flat_map_imap_concat _ _ (pair (records_title g))) by done.
  by rewrite chunk_concat by lia.
Qed.
Lemma fact_pages_print g : flat_map printed_facts (fact_pages g) = group_facts g.
Proof.
  unfold fact_pages. rewrite (flat_map_imap_concat _ _ (pair (facts_title g))) by done.
  by rewrite chunk_concat by lia.
Qed.
Lemma rowsPerPage_pos t : (0 < rowsPerPage t)%nat.
Proof. unfold rowsPerPage. repeat case_match; lia. Qed.
Lemma table_pages_print t : flat_map printed_rows (table_pages t) = table_lines t.
Proof.
  unfold table_pages. rewrite (flat_map_imap_concat _ _ (pair (table_title t, table_columns t))) by done.
  by rewrite chunk_concat by apply rowsPerPage_pos.
Qed.
Lemma trend_pages_print t : flat_map printed_lines (trend_pages t) = trend_lines t.
Proof.
  unfold trend_pages. rewrite (flat_map_imap _ _ trend_lines) by done. apply chunkTrend_lines. lia.
Qed.
End pages.

(** A page prints one kind of content only. *)
Definition prints_only (kind : PageContent → bool) (pages : list ReportPage) : Prop :=
  Forall (λ p, kind (page_content p) = true) pages.
Definition is_trend (c : PageContent) : bool := match c with TrendContent _ => true | _ => false end.
Definition is_records (c : PageContent) : bool := match c with RecordsContent _ => true | _ => false end.
Definition is_facts (c : PageContent) : bool := match c with FactsContent _ => true | _ => false end.
Definition is_table (c : PageContent) : bool := match c with TableContent _ _ => true | _ => false end.
Definition is_evidence (c : PageContent) : bool :=
  match c with OverviewContent _ _ _ _ _ _ _ | BreakdownsContent _ _ => true | _ => false end.

Lemma imap_prints {A} kind (g : nat → A → ReportPage) l :
  (∀ i x, kind (page_content (g i x)) = true) → prints_only kind (imap g l).
Proof. intros H. apply Forall_forall. intros p (i & x & -> & _)%elem_of_lookup_imap. apply H. Qed.

Lemma flat_map_prints {A} kind (g : A → list ReportPage) l : (∀ x, prints_only kind (g x)) → prints_only kind (flat_map g l).
Proof. intros H. induction l; cbn; [constructor|]. apply Forall_app; split; [apply H|done]. Qed.

Lemma prints_nothing {B} kind (f : ReportPage → list B) pages :
  prints_only kind pages → (∀ p, kind (page_content p) = true → f p = []) → flat_map f pages = [].
Proof. intros Hk Hf. apply flat_map_nil. intros p Hp. unfold prints_only in Hk. rewrite Forall_forall in Hk. by apply Hf, Hk. Qed.

Lemma trend_pages_only ts : prints_only is_trend (flat_map trend_pages ts).
Proof. apply flat_map_prints. intros. by apply imap_prints. Qed.
Lemma record_pages_only gs : prints_only is_records (flat_map record_pages gs).
Proof. apply flat_map_prints. intros. by apply imap_prints. Qed.
Lemma fact_pages_only gs : prints_only is_facts (flat_map fact_pages gs).
Proof. apply flat_map_prints. intros. by apply imap_prints. Qed.
Lemma table_pages_only ts : prints_only is_table (flat_map table_pages ts).
Proof. apply flat_map_prints. intros. by apply imap_prints. Qed.

Lemma breakdown_pages_spec locale bs gs pages rest : breakdown_pages locale bs gs = (pages, rest) →
  prints_only is_evidence pages ∧
  flat_map printed_breakdowns pages = bs ∧
  flat_map printed_records pages ++ flat_map group_records rest ≡ₚ flat_map group_records gs.
Proof.
  intros H. unfold breakdown_pages in H. pose proof (chunk_concat bs 3 ltac:(lia)) as Hc.
  destruct (chunk bs 3) as [|group groups]; [injection H as <- <-; cbn in *; subst; split_and!; [constructor|done..]|].
  destruct (splice_first _ gs) as [found others] eqn:Es. injection H as <- <-.
  apply splice_first_perm in Es as [Hp _]. split; [|split].
  - constructor; [done|]. by apply imap_prints.
  - cbn. rewrite (flat_map_imap_concat _ _ id) by (intros; cbn; by rewrite map_id). rewrite map_id. done.
  - cbn. rewrite (flat_map_imap_nil printed_records) by done. rewrite app_nil_r, <- Hp.
    destruct found as [g|]; cbn; done.
Qed.

(** Drops the pages that print nothing of the kind asked for. *)
Ltac silence := repeat match goal with
  | P : prints_only ?k ?pages |- context [flat_map ?f ?pages] =>
    rewrite (prints_nothing k f pages P) by (intros [c ? ? ?]; by destruct c)
  end.

(** C13: the printed document loses nothing and repeats nothing: for a report with a
    valid date there is a document, its first sheet is the overview with the first
    two breakdowns, and over all its sheets every breakdown, every line of every
    trend (the category with the value of each series), every fact and every table
    row is printed once, in the order of the snapshot; every record is printed
    once under its group's title. *)
Theorem report_prints_everything toUpper dateText dateLocale locale snapshot t :
  ctx_generatedAt (snap_context snapshot) = Some t →
  ∃ first rest, DashboardReportDocument toUpper dateText dateLocale locale snapshot = Some (first :: rest) ∧
    printed_breakdowns first = take 2 (breakdowns snapshot) ∧
    flat_map printed_breakdowns (first :: rest) = breakdowns snapshot ∧
    flat_map printed_lines (first :: rest) = flat_map trend_lines (trends snapshot) ∧
    flat_map printed_records (first :: rest) ≡ₚ flat_map group_records (recordGroups snapshot) ∧
    flat_map printed_facts (first :: rest) = flat_map group_facts (factGroups snapshot) ∧
    flat_map printed_rows (first :: rest) = flat_map table_lines (tables snapshot).
Proof.
  intros Ht. unfold DashboardReportDocument, report_id. rewrite Ht. cbn [mbind option_bind].
  destruct (breakdown_pages _ _ _) as [evidence rest] eqn:Eb.
  apply breakdown_pages_spec in Eb as (He & Hb & Hr). do 2 eexists. split; [done|]. split; [done|].
  pose proof (trend_pages_only (trends snapshot)) as Pt. pose proof (record_pages_only rest) as Pr.
  pose proof (fact_pages_only (factGroups snapshot)) as Pf. pose proof (table_pages_only (tables snapshot)) as Pb.
  split_and!; cbn [flat_map]; rewrite !flat_map_app; silence; rewrite ?app_nil_r; cbn.
  - rewrite Hb. apply take_drop.
  - apply flat_map_flat_map, trend_pages_print.
  - by rewrite (flat_map_flat_map _ _ _ _ record_pages_print).
  - apply flat_map_flat_map, fact_pages_print.
  - apply flat_map_flat_map, table_pages_print.
Qed.


(** ** Lemmas: merging the tables of a trend *)

Lemma foldl_snoc_imap {A B} (g : nat → A → B) cols acc :
  foldl (λ series c, series ++ [g (length series) c]) acc cols = acc ++ imap (λ i, g (length acc + i)%nat) cols.
Proof.
  revert acc. induction cols as [|c cols IH]; intros acc; cbn; [by rewrite app_nil_r|].
  rewrite IH, <- app_assoc. cbn. rewrite Nat.add_0_r. do 2 f_equal. apply imap_ext. intros i x _. cbn.
  f_equal. rewrite length_app. cbn. lia.
Qed.

(** The nonempty first cells of the rows. *)
Definition row_categories (rows : list (list ustring)) : list ustring := js_filter truthy (map first_cell rows).

Lemma push_categories rows cats : foldl push_category cats rows = foldl (λ s x, set_add x s) cats (row_categories rows).
Proof.
  revert cats. induction rows as [|row rows IH]; intros cats; [done|]. cbn. rewrite IH. unfold push_category, row_categories.
  cbn. by destruct (truthy (first_cell row)).
Qed.

(** The categories of a trend: the nonempty first cells of all its tables. *)
Definition all_categories (tables : list TrendTable) : list ustring :=
  js_unique (flat_map (λ t, row_categories (tt_rows t)) tables).
Definition all_columns (tables : list TrendTable) : list (TrendTable * nat) :=
  flat_map (λ t, map (pair t) (value_columns t)) tables.

(** The value a table gives to a category: the one of its last row for it. *)
Definition value_at (table : TrendTable) (column : nat) (category : ustring) : option jsnum :=
  row ← last (js_filter (λ row, bool_decide (first_cell row = category)) (tt_rows table));
  parseNullableCount (row !! column).

Lemma map_get_map_of {K V} `{EqDecision K} (l : list (K * V)) k :
  map_get k (map_of l) = snd <$> last (js_filter (λ kv, bool_decide (kv.1 = k)) l).
Proof.
  induction l as [|[k' v] l IH] using rev_ind; [done|]. unfold map_of in *. rewrite foldl_app. cbn.
  unfold js_filter. rewrite List.filter_app. cbn. rewrite map_get_set. destruct (decide (k = k')) as [->|Hne].
  - rewrite bool_decide_true by done. by rewrite last_snoc.
  - rewrite bool_decide_false by done. by rewrite app_nil_r.
Qed.

Lemma js_filter_map {A B} (f : A → B) (p : B → bool) l : js_filter p (map f l) = map f (js_filter (p ∘ f) l).
Proof. induction l as [|x l IH]; [done|]. cbn [map]. rewrite !js_filter_cons, IH. unfold compose. by destruct (p (f x)). Qed.

Lemma valueMap_get table column category :
  mjoin (map_get category (valueMap (tt_rows table) column)) = value_at table column category.
Proof.
  unfold valueMap, value_at. rewrite map_get_map_of, js_filter_map.
  rewrite (fmap_last (λ row, (first_cell row, parseNullableCount (row !! column)))).
  unfold compose. cbn. by destruct (last _).
Qed.

Lemma column_values table cats i column : series_values (column_series table cats i column) = map (value_at table column) cats.
Proof. cbn. apply map_ext. intros c. apply valueMap_get. Qed.

Lemma value_at_None table column category :
  truthy category = true → category ∉ row_categories (tt_rows table) → value_at table column category = None.
Proof.
  intros Ht Hc. unfold value_at. destruct (last _) as [row|] eqn:E; [|done].
  apply last_Some_elem_of, js_filter_elem in E as [Hr E]. apply bool_decide_eq_true in E as <-.
  destruct Hc. apply js_filter_elem. split; [|done]. apply list_elem_of_fmap. eauto.
Qed.

(** Padding a series is what computing it for all the categories gives. *)
Lemma pad_column table cats more i column : Forall (λ c, truthy c = true) more →
  (∀ c, c ∈ row_categories (tt_rows table) → c ∈ cats) → NoDup (cats ++ more) →
  pad_series (cats ++ more) (column_series table cats i column) = column_series table (cats ++ more) i column.
Proof.
  intros Ht Hc (_ & Hd & _)%NoDup_app. unfold pad_series.
  assert (∀ s s' : DashboardReportTrendSeries, series_label s = series_label s' → series_values s = series_values s' →
    series_tone s = series_tone s' → s = s') as Hext by (intros [] []; cbn; congruence).
  apply Hext; [done| |done]. cbn [series_values]. rewrite !column_values, map_app, length_map, length_app.
  f_equal. replace (_ - _)%nat with (length more) by lia. apply replicate_as_Forall. rewrite length_map.
  split; [done|]. apply Forall_fmap, Forall_forall. intros c Hm. symmetry. rewrite Forall_forall in Ht. cbn.
  apply value_at_None; [by apply Ht|]. intros Hr. by apply (Hd c); [apply Hc|].
Qed.

Lemma foldl_set_add_app {A} `{EqDecision A} (l s : list A) :
  ∃ more, foldl (λ s x, set_add x s) s l = s ++ more ∧ ∀ x, x ∈ more → x ∈ l.
Proof.
  revert s. induction l as [|x l IH]; intros s; cbn; [exists []; rewrite app_nil_r; set_solver|].
  destruct (IH (set_add x s)) as (more & -> & Hm). unfold set_add. case_decide; [exists more; set_solver|].
  exists (x :: more). rewrite <- app_assoc. set_solver.
Qed.

Lemma add_tables tables cats ss :
  NoDup cats →
  ∃ more new, foldl add_table (cats, ss) tables = (cats ++ more, ss ++ new) ∧
    cats ++ more = foldl (λ s x, set_add x s) cats (flat_map (λ t, row_categories (tt_rows t)) tables) ∧
    map (pad_series (cats ++ more)) new =
    imap (λ i tc, column_series tc.1 (cats ++ more) (length ss + i) tc.2) (all_columns tables).
Proof.
  revert cats ss. induction tables as [|t tables IH]; intros cats ss Hn.
  { exists [], []. cbn. by rewrite !app_nil_r. }
  cbn [foldl flat_map all_columns]. unfold add_table at 2. cbn [fst snd].
  rewrite push_categories, foldl_snoc_imap, foldl_app. set (cats1 := foldl _ cats _).
  set (own := imap _ (value_columns t)).
  destruct (IH cats1 (ss ++ own)) as (more1 & new1 & -> & Hc & Hnew); [by apply foldl_set_add_NoDup|].
  destruct (foldl_set_add_app (row_categories (tt_rows t)) cats) as (more0 & Hm0 & Ht0).
  destruct (foldl_set_add_app (flat_map (λ t, row_categories (tt_rows t)) tables) cats1) as (m & Hm & Htm).
  rewrite <- Hc in Hm. apply app_inv_head in Hm as <-. fold cats1 in Hm0.
  assert (NoDup (cats1 ++ more1)) as Hnd by (rewrite Hc; by apply foldl_set_add_NoDup, foldl_set_add_NoDup).
  exists (more0 ++ more1), (own ++ new1). rewrite !app_assoc, <- Hm0. split; [done|]. split; [done|].
  rewrite map_app, Hnew, imap_app. f_equal.
  - unfold own. rewrite (fmap_imap _ (pad_series _)), (imap_fmap _ (pair t)).
    apply imap_ext. intros i c _. cbn. apply pad_column; [|by intros ? ?; apply foldl_set_add_elem; right|done].
    apply Forall_forall. intros x Hx%Htm. apply elem_of_flat_map in Hx as (? & _ & Hx).
    by apply js_filter_elem in Hx as [_ ?].
  - apply imap_ext. intros i tc _. cbn. f_equal. unfold own. rewrite length_app, length_imap, length_map. lia.
Qed.

Lemma merge_tables_reference tables :
  merge_tables tables =
  (all_categories tables, imap (λ i tc, column_series tc.1 (all_categories tables) i tc.2) (all_columns tables)).
Proof.
  destruct (add_tables tables [] [] (NoDup_nil_2)) as (more & new & E & Hc & Hp).
  cbn in *. unfold merge_tables. by rewrite E, Hp, Hc.
Qed.

(** merging the tables of a trend is the same as collecting the categories of
    all tables first and then reading every column for every category: the
    categories are the distinct nonempty first cells in the order they appear, the
    series are the value columns of the tables in order, and each series has one
    value per category, that of the last row of its table for the category, or none. *)
Theorem merge_tables_spec tables :
  let categories := all_categories tables in
  let series := imap (λ i tc, column_series tc.1 categories i tc.2) (all_columns tables) in
  merge_tables tables = (categories, series) ∧
  NoDup categories ∧
  map series_values series = map (λ tc, map (value_at tc.1 tc.2) categories) (all_columns tables).
Proof.
  split; [apply merge_tables_reference|]. split; [apply js_unique_NoDup|].
  rewrite (fmap_imap _ series_values), <- (imap_const (λ tc, map (value_at tc.1 tc.2) (all_categories tables))).
  apply imap_ext. intros i tc _. cbn [compose]. apply column_values.
Qed.

(** ** Lemmas: coordinates *)

(** A finite number between two integers. *)
Definition between (a b : Z) (n : jsnum) : Prop := ∃ q, n = Fin q ∧ (inject_Z a <= q <= inject_Z b)%Q.
Definition counted (n : jsnum) : Prop := ∃ q, n = Fin q ∧ (0 <= q)%Q.

Lemma max_counted values : Forall counted values →
  ∃ m, maximum_of values = Fin m ∧ (1 <= m)%Q ∧ ∀ q, Fin q ∈ values → (q <= m)%Q.
Proof.
  induction 1 as [|n values (p & -> & Hp) _ (m & Hm & H1 & Hle)].
  { exists 1%Q. split; [done|]. split; [apply Qle_refl|]. by intros q ?%elem_of_nil. }
  cbn [maximum_of foldr]. fold (maximum_of values). rewrite Hm. cbn. destruct (Qle_bool p m) eqn:E.
  - exists m. split; [done|]. split; [done|]. intros q [[= ->]|?]%elem_of_cons; [by apply Qle_bool_iff|auto].
  - assert (m <= p)%Q as Hmp by (apply Qnot_lt_le; intros Hlt%Qlt_le_weak%Qle_bool_iff; congruence).
    exists p. split; [done|]. split; [by apply Qle_trans with m|].
    intros q [[= ->]|?]%elem_of_cons; [apply Qle_refl|]. apply Qle_trans with m; auto.
Qed.

Lemma ratio_between p m : (0 <= p <= m)%Q → (1 <= m)%Q → between 0 1 (num_div (Fin p) (Fin m)).
Proof.
  intros [H0 Hm] H1. assert (0 < m)%Q as Hpos by (by apply Qlt_le_trans with 1%Q).
  cbn. unfold Qzero. destruct (Z.eqb_spec (Qnum m) 0) as [E|_].
  { unfold Qlt in Hpos. cbn in Hpos. lia. }
  apply (round64_between 0 1); [lia..|]. split.
  - apply Qle_shift_div_l; [done|]. by rewrite Qmult_0_l.
  - apply Qle_shift_div_r; [done|]. by rewrite Qmult_1_l.
Qed.

Lemma scaled_between n k : 0 ≤ k < 2 ^ 53 → between 0 1 n → between 0 k (num_mul n (num_of_Z k)).
Proof.
  intros Hk (q & -> & H0 & H1). cbn. apply round64_between; [lia..|].
  assert (0 <= inject_Z k)%Q as Hk0 by (change 0%Q with (inject_Z 0); rewrite <- Zle_Qle; lia).
  split; [by apply Qmult_le_0_compat|]. rewrite <- (Qmult_1_l (inject_Z k)) at 2. by apply Qmult_le_compat_r.
Qed.

Lemma shifted_between n a b k : - 2 ^ 53 < k + a → k + b < 2 ^ 53 → between a b n →
  between (k + a) (k + b) (num_add (num_of_Z k) n).
Proof.
  intros Ha Hb (q & -> & H0 & H1). cbn. apply round64_between; [done..|].
  rewrite !inject_Z_plus. split; apply Qplus_le_compat; (done || apply Qle_refl).
Qed.

Lemma opp_between n a b : between a b n → between (- b) (- a) (num_opp n).
Proof.
  intros (q & -> & H0 & H1). exists (- q)%Q. split; [done|]. rewrite !inject_Z_opp. split; by apply Qopp_le_compat.
Qed.

Lemma trendY_between p m : (0 <= p <= m)%Q → (1 <= m)%Q → between 24 174 (trendY (Fin p) (Fin m)).
Proof.
  intros Hp H1. unfold trendY. assert (num_max (Fin m) one = Fin m ∨ (m == 1)%Q ∧ num_max (Fin m) one = one) as Hmax.
  { cbn. destruct (Qle_bool m (inject_Z 1)) eqn:E; [right|by left]. apply Qle_bool_iff in E. split; [|done].
    by apply Qle_antisym. }
  assert (between 0 1 (num_div (Fin p) (num_max (Fin m) one))) as Hr.
  { destruct Hmax as [->|[E ->]]; [by apply ratio_between|]. apply ratio_between; [|apply Qle_refl].
    rewrite E in Hp. apply Hp. }
  apply (scaled_between _ 150), opp_between in Hr; [|lia].
  apply (shifted_between _ (-150) 0 174); [lia..|]. exact Hr.
Qed.

Lemma scaled_ratio index last k : 0 ≤ index ≤ last → 0 < last → 0 ≤ k → last * k < 2 ^ 53 →
  between 0 k (num_div (num_mul (num_of_Z index) (num_of_Z k)) (num_of_Z last)).
Proof.
  intros Hi Hl Hk Hm. cbn [num_mul num_of_Z].
  change (inject_Z index * inject_Z k)%Q with (inject_Z (index * k)). rewrite round64_safe by nia.
  cbn. unfold Qzero. cbn. destruct (Z.eqb_spec last 0); [lia|].
  assert (0 < inject_Z last)%Q as Hpos by (change 0%Q with (inject_Z 0); rewrite <- Zlt_Qlt; lia).
  apply round64_between; [lia|nia|]. split.
  - apply Qle_shift_div_l; [done|]. rewrite <- inject_Z_mult, <- Zle_Qle. nia.
  - apply Qle_shift_div_r; [done|]. rewrite <- inject_Z_mult, <- Zle_Qle. nia.
Qed.

Lemma trendX_between index length : 0 ≤ index < length → length < 2 ^ 32 → between 54 802 (trendX index length).
Proof.
  intros Hi Hl. unfold trendX. destruct (Z.leb_spec length 1).
  { exists (inject_Z 428). split; [done|]. rewrite <- !Zle_Qle. lia. }
  apply (shifted_between _ 0 748 54); [lia..|]. apply scaled_ratio; lia.
Qed.

Lemma trendPoints_in_chart values m : Z.of_nat (length values) < 2 ^ 32 → (1 <= m)%Q →
  Forall (λ v, ∀ n, v = Some n → ∃ q, n = Fin q ∧ (0 <= q <= m)%Q) values →
  Forall (λ pt, between 54 802 (pt_x pt) ∧ between 24 174 (pt_y pt)) (trendPoints values (Fin m)).
Proof.
  intros Hl H1 Hv. apply Forall_forall. unfold trendPoints. intros pt Hpt.
  apply list_elem_of_omap in Hpt as (o & Ho & Hid). cbn in Hid. subst o.
  apply elem_of_lookup_imap in Ho as (i & v & E & Hi). destruct v as [n|]; [|done]. injection E as ->.
  pose proof (lookup_lt_Some _ _ _ Hi). apply list_elem_of_lookup_2 in Hi.
  rewrite Forall_forall in Hv. destruct (Hv _ Hi n eq_refl) as (q & -> & Hq).
  split; [apply trendX_between; lia|by apply trendY_between].
Qed.

Lemma axisLabels_range count v : v ∈ axisLabels count → (0 < count)%nat → 0 ≤ v < Z.of_nat count.
Proof.
  intros Hv Hc. apply js_unique_elem, js_filter_elem in Hv as [Hv H0]. apply Z.leb_le in H0. split; [done|].
  rewrite !elem_of_cons, elem_of_nil in Hv. destruct Hv as [->|[->|[->|[]]]]; try lia.
  apply Z.div_lt_upper_bound; lia.
Qed.

(** The numbers a trend shows are counts. *)
Definition plottable (trend : DashboardReportTrend) : Prop :=
  (0 < length (trend_categories trend))%nat ∧ Z.of_nat (length (trend_categories trend)) < 2 ^ 32 ∧
  Forall (λ s, Z.of_nat (length (series_values s)) < 2 ^ 32 ∧ Forall counted (omap id (series_values s))) (trend_series trend).

(** the chart of a trend stays inside its frame: when the values are counts
    (finite and not negative), every plotted point lies between 54 and 802
    horizontally and between 24 and 174 vertically, and so does every category
    label, in the arithmetic of doubles. *)
Theorem report_chart_bounds numberText trend : plottable trend →
  Forall (λ s, Forall (λ pt, between 54 802 (pt_x pt) ∧ between 24 174 (pt_y pt)) s.2)
    (chart_series (ReportTrend numberText trend)) ∧
  Forall (λ l, between 54 802 l.2) (chart_x_labels (ReportTrend numberText trend)).
Proof.
  intros (Hc & Hl & Hs). unfold ReportTrend. cbn [chart_series chart_x_labels].
  set (values := flat_map _ (trend_series trend)).
  assert (Forall counted values) as Hv.
  { apply Forall_forall. intros n (s & Hin & Hn)%elem_of_flat_map. rewrite Forall_forall in Hs.
    destruct (Hs s Hin) as [_ Hn']. rewrite Forall_forall in Hn'. by apply Hn'. }
  destruct (max_counted values Hv) as (m & -> & H1 & Hle). split.
  - apply Forall_fmap, Forall_forall. intros s Hin. cbn. rewrite Forall_forall in Hs.
    destruct (Hs s Hin) as [Hlen _]. apply trendPoints_in_chart; [done..|].
    apply Forall_forall. intros v Hv' n ->.
    assert (n ∈ values) as Hn by (apply elem_of_flat_map; exists s; split; [done|]; apply list_elem_of_omap; eauto).
    pose proof Hn as Hn'. rewrite Forall_forall in Hv. apply Hv in Hn' as (q & -> & H0). eauto.
  - apply Forall_fmap, Forall_forall. intros i Hi. apply axisLabels_range in Hi; [|done].
    cbn. by apply trendX_between.
Qed.

Definition sample_trend : DashboardReportTrend :=
  mkTrend (u! "Activity") [u! "09:00"; u! "10:00"; u! "11:00"]
    [mkSeries (u! "Events") [Some (num_of_Z 3); None; Some (num_of_Z 7)] (u! "events")] SelectedPeriod.

Lemma report_chart_bounds_witness :
  plottable sample_trend ∧
  Forall (λ l, between 54 802 l.2) (chart_x_labels (ReportTrend string_of_num sample_trend)).
Proof.
  assert (plottable sample_trend) as H.
  { unfold plottable. cbn. split; [lia|]. split; [lia|]. constructor; [|constructor]. split; [cbn; lia|].
    cbn. repeat constructor; eexists; (split; [reflexivity|]); discriminate. }
  split; [exact H|]. exact (proj2 (report_chart_bounds string_of_num sample_trend H)).
Defined.

(** The bars of a breakdown: a positive count has a bar of 2 to 100 percent. *)
Lemma report_bar_bounds breakdown : Forall (λ row, counted (brow_count row)) (breakdown_rows breakdown) →
  Forall (λ rs, between 0 100 rs.2 ∧ (num_positive (brow_count rs.1) = true → between 2 100 rs.2))
    (ReportBreakdownCard breakdown).
Proof.
  intros Hc. unfold ReportBreakdownCard. destruct (max_counted (map brow_count (breakdown_rows breakdown)))
    as (m & -> & H1 & Hle); [by apply Forall_fmap|].
  apply Forall_fmap, Forall_forall. intros row Hr. cbn [compose fst snd]. rewrite Forall_forall in Hc.
  destruct (Hc row Hr) as (q & Hq & H0). unfold bar_share. rewrite Hq.
  destruct (num_positive (Fin q)); [|split; [|done]; exists (inject_Z 0); split; [done|]; rewrite <- !Zle_Qle; lia].
  assert (between 2 100 (num_max (num_mul (num_div (Fin q) (Fin m)) (num_of_Z 100)) (num_of_Z 2))) as Hb.
  { destruct (scaled_between (num_div (Fin q) (Fin m)) 100 ltac:(lia)) as (r & -> & Hr0 & Hr1).
    - apply ratio_between; [split; [done|]|done]. apply Hle. rewrite <- Hq. by apply list_elem_of_fmap_2.
    - cbn. destruct (Qle_bool r (inject_Z 2)) eqn:E.
      + exists (inject_Z 2). split; [done|]. rewrite <- !Zle_Qle. lia.
      + exists r. split; [done|]. split; [|done]. apply Qnot_lt_le. intros Hlt%Qlt_le_weak%Qle_bool_iff. congruence. }
  split; [|done]. destruct Hb as (r & -> & Hr0 & Hr1). exists r. split; [done|]. split; [|done].
  apply Qle_trans with (inject_Z 2); [|done]. rewrite <- Zle_Qle. lia.
Qed.

(** ** Lemmas: the tables of the page *)

Lemma outside_trends_false x : is_element (at_node x) = true →
  outside_trends x = false ↔
  has_class (u! "detection-activity-tables") (at_node x) = true ∨
  ∃ l p r, ancestors x = l ++ p :: r ∧ is_element p && has_class (u! "detection-activity-tables") p = true.
Proof.
  intros Hx. unfold outside_trends, closest. destruct (closest_in _ _ _ _) as [c|] eqn:E.
  - split; [intros _|done]. apply closest_in_Some in E as [Hm [[|y l] Hl]]; unfold trend_tables in Hm;
      rewrite matches_class in Hm; injection Hl as Hn Ha.
    + left. rewrite Hn. by apply andb_true_iff in Hm as [_ ?].
    + right. eauto.
  - split; [done|]. intros H. exfalso. revert E. destruct H as [Hc|(l & p & r & Ha & Hc)].
    + apply (closest_in_None _ _ _ _ [] (at_node x) (ancestors x)); [done|]. unfold trend_tables.
      rewrite matches_class. cbn. by rewrite Hx, Hc.
    + apply (closest_in_None _ _ _ _ (at_node x :: l) p r); [by rewrite Ha|]. unfold trend_tables. by rewrite matches_class.
Qed.

(** on a page that is not itself inside the tables of a trend, a table is left
    out of the report's tables exactly when it is one of the tables of a trend
    (or carries the class of that wrapper itself), so no table is reported twice
    and none below the page is lost. *)
Theorem report_tables_partition root x :
  is_element (at_node root) = true → outside_trends root = true →
  x ∈ querySelectorAll [tag (u! "TABLE")] root →
  (outside_trends x = false ↔
   has_class (u! "detection-activity-tables") (at_node x) = true ∨
   ∃ wrapper, wrapper ∈ querySelectorAll [trend_tables] root ∧ x ∈ querySelectorAll [tag (u! "TABLE")] wrapper).
Proof.
  intros He Hr Hx. pose proof Hx as Hx'. apply querySelectorAll_elem in Hx as [Hd Ht].
  rewrite matches_tag in Ht. pose proof Ht as Ht'. apply andb_true_iff in Ht' as [Hex _].
  rewrite outside_trends_false by done. apply or_iff_compat_l.
  destruct (descendants_above _ _ Hd) as [k Hk]. split.
  - intros (l & p & r & Ha & Hc). rewrite Hk in Ha.
    destruct (decide (length l < length k)%nat) as [Hlt|Hge].
    + assert (∃ r', r = r' ++ at_node root :: ancestors root) as [r' ->].
      { exists (drop (S (length l)) k). apply (f_equal (drop (S (length l)))) in Ha.
        rewrite drop_app_le in Ha by lia. rewrite Ha. change (l ++ p :: r) with (l ++ [p] ++ r). rewrite app_assoc.
        by rewrite drop_app_length' by (rewrite length_app; cbn; lia). }
      rewrite <- Hk in Ha. destruct (descendants_path _ _ _ _ _ Hd Ha) as [Hw Hxw].
      eexists. split; apply querySelectorAll_elem; (split; [done|]).
      * unfold trend_tables. by rewrite matches_class.
      * by rewrite matches_tag.
    + exfalso. revert Hr. apply not_true_iff_false, outside_trends_false; [done|].
      assert (l = k ++ drop (length k) l) as Hl.
      { rewrite <- (take_drop (length k) l) at 1. f_equal. apply (f_equal (take (length k))) in Ha.
        rewrite take_app_length, take_app_le in Ha by lia. by symmetry. }
      rewrite Hl, <- app_assoc in Ha. apply app_inv_head in Ha.
      destruct (drop (length k) l) as [|y l']; injection Ha as Hn Ha.
      * left. rewrite Hn. by apply andb_true_iff in Hc as [_ ?].
      * right. eauto.
  - intros (w & Hw & Hxw). apply querySelectorAll_elem in Hw as [Hw Hc], Hxw as [Hxw _].
    unfold trend_tables in Hc. rewrite matches_class in Hc.
    destruct (descendants_above _ _ Hxw) as [l Hl]. eauto.
Qed.

(** ** Lemmas: sheets *)

(** What fits on a sheet. *)
Definition page_fits (p : ReportPage) : Prop :=
  match page_content p with
  | OverviewContent group _ summaries _ _ _ _ => (length group ≤ 2)%nat ∧ (length summaries ≤ 3)%nat
  | BreakdownsContent group found =>
    (0 < length group ≤ 3)%nat ∧
    (∀ r, found = Some r → (length (records_records r) ≤ 6)%nat) ∧
    (∀ s, page_scope p = Some s → Forall (λ b, breakdown_scope b = s) group ∧ ∀ r, found = Some r → records_scope r = s)
  | TrendContent t => (0 < length (trend_categories t) ≤ 10)%nat
  | RecordsContent records => (0 < length records ≤ 8)%nat
  | FactsContent items => (0 < length items ≤ 18)%nat
  | TableContent columns rows =>
    (0 < length rows ≤ 12)%nat ∧ (5 < length columns → length rows ≤ 9)%nat ∧ (8 < length columns → length rows ≤ 7)%nat
  end.

Lemma commonScope_Some scopes s : commonScope scopes = Some s → Forall (λ x, x = s) scopes.
Proof.
  unfold commonScope. destruct scopes as [|first r]; [done|]. destruct (forallb _ _) eqn:E; [|done]. intros [= <-].
  apply Forall_forall. intros x Hx. rewrite forallb_elem in E.
  by apply E, bool_decide_eq_true in Hx.
Qed.

Lemma breakdown_page_fits locale i group found : (0 < length group ≤ 3)%nat →
  (∀ r, found = Some r → (length (records_records r) ≤ 6)%nat) → page_fits (breakdown_page locale i group found).
Proof.
  intros Hg Hf. split; [done|]. split; [done|]. cbn. intros s Hs%commonScope_Some. apply Forall_app in Hs as [Hs Hr].
  split; [by apply Forall_fmap in Hs|]. intros r ->. by apply Forall_cons in Hr as [? _].
Qed.

Lemma imap_chunk_fits {A} (g : nat → list A → ReportPage) items size : (0 < size)%nat →
  (∀ i part, (0 < length part ≤ size)%nat → page_fits (g i part)) → Forall page_fits (imap g (chunk items size)).
Proof.
  intros Hs Hg. apply Forall_forall. intros p (i & part & -> & Hi)%elem_of_lookup_imap. apply Hg.
  pose proof (chunk_sizes items size Hs) as H. rewrite Forall_lookup in H. by eapply H.
Qed.

Lemma Forall_flat_map {A B} (P : B → Prop) (g : A → list B) l : (∀ x, Forall P (g x)) → Forall P (flat_map g l).
Proof. intros H. induction l; cbn; [constructor|]. by apply Forall_app. Qed.

Lemma breakdown_pages_fit locale bs gs : Forall page_fits (breakdown_pages locale bs gs).1.
Proof.
  unfold breakdown_pages. pose proof (chunk_sizes bs 3 ltac:(lia)) as Hs.
  destruct (chunk bs 3) as [|group rest]; [constructor|]. apply Forall_cons in Hs as [Hg Hs].
  destruct (splice_first _ gs) as [found others] eqn:E. apply splice_first_perm in E as [_ Hf]. cbn. constructor.
  - apply breakdown_page_fits; [done|]. intros r Hr. by apply Nat.leb_le, Hf.
  - apply Forall_forall. intros p (i & part & -> & Hi)%elem_of_lookup_imap. rewrite Forall_lookup in Hs.
    by apply breakdown_page_fits; [eapply Hs|].
Qed.

Lemma trend_pages_fit t : Forall page_fits (trend_pages t).
Proof.
  apply Forall_forall. intros p (i & part & -> & Hi)%elem_of_lookup_imap. unfold chunkTrend in Hi.
  apply list_lookup_imap_Some in Hi as (cats & Hc & ->). cbn.
  pose proof (chunk_sizes (trend_categories t) 10 ltac:(lia)) as H. rewrite Forall_lookup in H. by eapply H.
Qed.

Lemma table_pages_fit t : Forall page_fits (table_pages t).
Proof.
  apply imap_chunk_fits; [apply rowsPerPage_pos|]. intros i part. cbn. unfold rowsPerPage.
  destruct (Nat.ltb_spec 8 (length (table_columns t))), (Nat.ltb_spec 5 (length (table_columns t))); lia.
Qed.

(** every sheet of the document holds something and no more than fits on it: at
    most two breakdowns and three summary lines on the overview, three breakdowns
    with at most six records, ten categories of a trend, eight records, eighteen
    facts, and twelve table rows, nine beyond five columns and seven beyond eight;
    a sheet of breakdowns carries a scope only when all it shows has that scope. *)
Theorem report_sheets_fit toUpper dateText dateLocale locale snapshot pages :
  DashboardReportDocument toUpper dateText dateLocale locale snapshot = Some pages → Forall page_fits pages.
Proof.
  unfold DashboardReportDocument. destruct (report_id _) as [id|]; [|done]. cbn [mbind option_bind].
  pose proof (breakdown_pages_fit locale (drop 2 (breakdowns snapshot)) (recordGroups snapshot)) as Hb.
  destruct (breakdown_pages _ _ _) as [evidence rest]. intros [= <-]. constructor.
  { cbn. rewrite length_take. split; [lia|]. unfold buildSummary. rewrite length_take. lia. }
  rewrite !Forall_app. split_and!; [done|..]; apply Forall_flat_map; intros x.
  - apply trend_pages_fit.
  - by apply imap_chunk_fits; [lia|].
  - by apply imap_chunk_fits; [lia|].
  - apply table_pages_fit.
Qed.

(** The lines of the summary are the first three of all candidates. *)
Definition scope_lines (snapshot : DashboardReportSnapshot) (locale : Locale) (scope : DashboardReportScope) : list ustring :=
  let values := in_scope scope (metrics snapshot) in
  if Nat.eqb (length values) 0 then []
  else [scopeLabel scope (REPORT_COPY locale) ++ u! ": " ++
        join (u! " · ") (map (λ m, metric_label m ++ u! " " ++ metric_value m) values)].

Lemma scope_summary_take snapshot locale scopes acc : (length acc ≤ 3)%nat →
  foldl (scope_summary snapshot locale) acc scopes = take 3 (acc ++ flat_map (scope_lines snapshot locale) scopes).
Proof.
  revert acc. induction scopes as [|s scopes IH]; intros acc Ha; cbn [foldl flat_map].
  { by rewrite app_nil_r, take_ge. }
  unfold scope_summary at 2, scope_lines at 1. destruct (Nat.eqb _ 0); cbn [orb]; [by apply IH|].
  destruct (Nat.leb_spec 3 (length acc)) as [Hl|Hl].
  - rewrite IH, !take_app_le by lia. done.
  - rewrite IH by (rewrite length_app; cbn; lia). by rewrite <- app_assoc.
Qed.

Lemma buildSummary_first snapshot locale :
  buildSummary snapshot locale =
  take 3 (match signals snapshot with s :: _ => [signal_summary locale s] | [] => [] end ++
          flat_map (scope_lines snapshot locale) SCOPES ++
          (if pageLimited snapshot then [visibleBoundary (REPORT_COPY locale) (visibleRowCount snapshot)] else [])).
Proof.
  unfold buildSummary. set (head := match signals snapshot with [] => _ | _ => _ end).
  assert (length head ≤ 3)%nat as Hh by (unfold head; case_match; cbn; lia).
  rewrite scope_summary_take, app_assoc by done. set (lines := head ++ flat_map _ _).
  destruct (pageLimited snapshot); cbn [andb]; [|by rewrite app_nil_r, take_take].
  destruct (Nat.ltb_spec (length (take 3 lines)) 3) as [H|H]; rewrite length_take in H.
  - by rewrite (take_ge lines) by lia.
  - by rewrite take_take, take_app_le by lia.
Qed.

(** ** Lemmas: filters *)

Lemma tables_not_inherited locale :
  forallb (λ n, negb (map_has n (FILTER_LABELS locale)) && negb (map_has n (presets locale)) &&
                negb (bool_decide (n = u! "page")) && negb (bool_decide (n = u! "pageSize"))) inherited_names = true.
Proof. destruct locale; vm_compute; reflexivity. Qed.

Lemma coalesce_member table name fallback :
  (name ∈ inherited_names → map_has name table = false) →
  coalesce (object_get table name) fallback = ShownMember ↔ name ∈ inherited_names.
Proof.
  intros Ht. unfold object_get. destruct (map_get name table) as [a|] eqn:E.
  - split; [done|]. intros Hn%Ht. unfold map_has in Hn. by rewrite E in Hn.
  - destruct (str_in name inherited_names) eqn:Es; cbn; [by apply str_in_true in Es|].
    split; [done|]. rewrite <- str_in_true, Es. done.
Qed.

#[local] Opaque inherited_names FILTER_LABELS presets.

(** the report lists one filter for every query parameter with a value, in
    order; its label and its value are texts, except that a parameter named like
    a member every object inherits (constructor, toString, __proto__, ...) gets
    that member as its label, and such a value gets it as its text. *)
Theorem report_filters_spec toUpper search locale i key value :
  js_filter (λ kv, truthy kv.2) (params_of_string search) !! i = Some (key, value) →
  ∃ f, buildReportFilters toUpper search locale !! i = Some f ∧
    length (buildReportFilters toUpper search locale) =
      length (js_filter (λ kv, truthy kv.2) (params_of_string search)) ∧
    (filter_label f = ShownMember ↔ key ∈ inherited_names) ∧
    (filter_value f = ShownMember ↔ value ∈ inherited_names).
Proof.
  intros Hi. unfold buildReportFilters. eexists. split; [by rewrite list_lookup_fmap, Hi|].
  split; [apply length_map|].
  assert (∀ n, n ∈ inherited_names → map_has n (FILTER_LABELS locale) = false ∧ map_has n (presets locale) = false ∧
    n ≠ u! "page" ∧ n ≠ u! "pageSize") as Hn.
  { intros n Hn. pose proof (tables_not_inherited locale) as H. rewrite forallb_elem in H. specialize (H n Hn).
    rewrite !andb_true_iff, !negb_true_iff, !bool_decide_eq_false in H. destruct H as [[[? ?] ?] ?]. done. }
  split; [|apply coalesce_member; intros Hk; apply (Hn _ Hk)]. cbn [filter_of filter_label].
  destruct (bool_decide_reflect (key = u! "page")) as [E|_].
  { split; [done|]. intros Hk. by destruct (Hn _ Hk) as (_ & _ & ? & _). }
  destruct (bool_decide_reflect (key = u! "pageSize")) as [E|_].
  { split; [done|]. intros Hk. by destruct (Hn _ Hk) as (_ & _ & _ & ?). }
  apply coalesce_member. intros Hk. apply (Hn _ Hk).
Qed.

Lemma report_filters_spec_witness :
  js_filter (λ kv, truthy kv.2) (params_of_string (u! "?severity=HIGH&page=&constructor=x")) !! 1%nat =
    Some (u! "constructor", u! "x") ∧
  ∃ f, buildReportFilters id (u! "?severity=HIGH&page=&constructor=x") EN !! 1%nat = Some f ∧
    filter_label f = ShownMember.
Proof.
  assert (js_filter (λ kv, truthy kv.2) (params_of_string (u! "?severity=HIGH&page=&constructor=x")) !! 1%nat =
    Some (u! "constructor", u! "x")) as H by (vm_compute; reflexivity).
  split; [exact H|].
  destruct (report_filters_spec id (u! "?severity=HIGH&page=&constructor=x") EN 1 _ _ H) as (f & Hf & _ & [_ Hl] & _).
  exists f. split; [exact Hf|]. apply Hl. apply str_in_true. vm_compute. reflexivity.
Defined.

(** ** A page *)

Definition el (t : ustring) (c : ustring) (l : list node) : node := Element t [(u! "class", c)] l.
Definition cell (t s : ustring) : node := Element t [] [Text s].
Definition row (cs : list node) : node := Element (u! "TR") [] cs.
Definition data_table (caption : ustring) (headers : list ustring) (rows : list (list ustring)) : node :=
  Element (u! "TABLE") []
    [Element (u! "CAPTION") [] [Text caption];
     Element (u! "THEAD") [] [row (map (cell (u! "TH")) headers)];
     Element (u! "TBODY") [] (map (λ r, row (map (cell (u! "TD")) r)) rows)].

Definition sample_page : located :=
  mkLocated (Element (u! "MAIN") [] [
    Element (u! "SECTION") [(u! "data-overview-block", u! "kpi-alerts")]
      [el (u! "ARTICLE") (u! "kpi-card") [el (u! "SPAN") (u! "kpi-icon") [Text (u! "!")]; cell (u! "SPAN") (u! " Alerts ");
         cell (u! "STRONG") (u! "12")]];
    el (u! "DIV") (u! "detection-activity-tables wide")
      [data_table (u! "Events") [u! "Bucket"; u! "Count"] [[u! "09:00"; u! "1,200"]; [u! "10:00"; u! "—"]];
       data_table (u! "Alerts") [u! "Bucket"; u! "Count"] [[u! "10:00"; u! "3"]; [u! "11:00"; u! "4"]]];
    el (u! "DIV") (u! "panel") [el (u! "DIV") (u! "panel-heading") [cell (u! "H2") (u! "Rules")];
      data_table [] [u! "Rule ↕"; u! "Hits"] [[u! "DNS"; u! "2"]]];
    el (u! "DIV") (u! "pagination") []]) [].

Example sample_report :
  let r := collectDashboardReport 0 (Some sample_page) (of_date (Some 0)) in
  metrics r = [mkMetric (u! "Alerts") (u! "12") None SelectedPeriod] ∧
  trends r = [mkTrend (u! "Trend 1") [u! "09:00"; u! "10:00"; u! "11:00"]
    [mkSeries (u! "Events") [Some (num_of_Z 1200); None; None] (u! "events");
     mkSeries (u! "Alerts") [None; Some (num_of_Z 3); Some (num_of_Z 4)] (u! "alerts")] CurrentView] ∧
  tables r = [mkTable (u! "Rules") [u! "Rule"; u! "Hits"] [[u! "DNS"; u! "2"]] CurrentView] ∧
  (pageLimited r, visibleRowCount r) = (true, 1).
Proof. vm_compute. repeat split. Qed.

Definition sample_snapshot : DashboardReportSnapshot := collectDashboardReport 0 (Some sample_page) (of_date (Some 0)).
Definition sample_date_text : ustring → option Z → ustring := λ _ _, u! "1970-01-01".

Lemma report_prints_everything_witness :
  ctx_generatedAt (snap_context sample_snapshot) = Some 0 ∧
  ∃ pages, DashboardReportDocument id sample_date_text (u! "en-US") EN sample_snapshot = Some pages ∧
    flat_map printed_rows pages = flat_map table_lines (tables sample_snapshot).
Proof.
  split; [vm_compute; reflexivity|].
  destruct (report_prints_everything id sample_date_text (u! "en-US") EN sample_snapshot 0 ltac:(vm_compute; reflexivity))
    as (first & rest & Hd & _ & _ & _ & _ & _ & Hr).
  exists (first :: rest). split; [exact Hd|exact Hr].
Defined.

Lemma report_sheets_fit_witness :
  match DashboardReportDocument id sample_date_text (u! "en-US") EN sample_snapshot with
  | Some pages => Forall page_fits pages
  | None => False
  end.
Proof.
  destruct (DashboardReportDocument id sample_date_text (u! "en-US") EN sample_snapshot) as [pages|] eqn:E.
  - exact (report_sheets_fit id sample_date_text (u! "en-US") EN sample_snapshot pages E).
  - exfalso. vm_compute in E. discriminate.
Defined.

Lemma report_tables_partition_witness :
  match querySelectorAll [tag (u! "TABLE")] sample_page with
  | x :: _ => outside_trends x = false
  | [] => False
  end.
Proof.
  destruct (querySelectorAll [tag (u! "TABLE")] sample_page) as [|x l] eqn:E; [vm_compute in E; discriminate|].
  apply (report_tables_partition sample_page x); [vm_compute; reflexivity|vm_compute; reflexivity| |].
  - rewrite E. left.
  - right. destruct (querySelectorAll [trend_tables] sample_page) as [|w l'] eqn:Ew; [vm_compute in Ew; discriminate|].
    exists w. split; [left|]. vm_compute in E, Ew. injection E as <- <-. injection Ew as <- <-.
    vm_compute. left.
Defined.
