(* ===== verification/Charts.v ===== *)
(** * Charts and activity tables

    Models frontend/src/features/overview/overviewChartModel.ts, the selection of
    frontend/src/features/overview/DetectionActivityPanel.tsx, the computations of
    AlertSeverityDonut.tsx and FleetDistributionPanel.tsx in the same directory,
    and frontend/src/components/charts.tsx with the data tables it renders, which
    the dashboard report reads back. Counts are integers; [t], number and date
    texts are parameters. *)

From Stdlib Require Import QArith Qround.
From S2P Require Import Prelude JsNumber JsDate Json Url Contracts Topology Dom Report.

#[local] Open Scope list_scope.
#[local] Open Scope Z_scope.

(** ** Data *)

Record TimeSeriesPointDto := mkPointDto { ts_bucketStartAt : ustring; ts_count : Z }.
Record IncidentTimeSeriesPointDto := mkIncidentPoint { it_bucketStartAt : ustring; it_openCount : Z; it_closedCount : Z }.
Record SeverityCountDto := mkSeverityCount { sc_severity : Severity; sc_count : Z }.
Record RiskLevelCountDto := mkRiskCount { rc_level : RiskLevel; rc_count : Z }.
Record SensorHealthCountDto := mkSensorCount { sh_sensor : ustring; sh_status : SensorHealth; sh_count : Z }.

(** ** The chart model *)

Inductive SeriesKey := Events | Alerts | Incidents.
Record DetectionSeriesModel := mkSeriesModel { ds_key : SeriesKey; ds_points : list (Z * option Z) }.
Record DetectionActivityModel := mkActivity {
  domain : option (Z * Z); timestamps : list Z; activity_series : list DetectionSeriesModel;
}.

(** The value of the first point at a time. *)
Definition valueAt {V} (points : list (Z * V)) (timestamp : Z) : option V :=
  snd <$> js_find (λ p, p.1 =? timestamp) points.

Section chart_model.
Context `{DateHost}.

(** The points of rows [(bucketStartAt, count)]; an unreadable time is dropped. *)
Definition row_points (rows : list (ustring * Z)) : list (Z * Z) :=
  omap (λ row, t ← Date_parse row.1; Some (t, row.2)) rows.
Definition sortPoints (points : list (Z * Z)) : list (Z * Z) := js_sort (cmp_on fst Z.compare) points.

Definition sourceSeries (events alerts : list TimeSeriesPointDto) (incidents : list IncidentTimeSeriesPointDto)
  : list (SeriesKey * list (Z * Z)) :=
  [(Events, sortPoints (row_points (map (λ r, (ts_bucketStartAt r, ts_count r)) events)));
   (Alerts, sortPoints (row_points (map (λ r, (ts_bucketStartAt r, ts_count r)) alerts)));
   (Incidents, sortPoints (row_points (map (λ r, (it_bucketStartAt r, it_openCount r)) incidents)))].

Definition buildDetectionActivityModel (events alerts : list TimeSeriesPointDto)
  (incidents : list IncidentTimeSeriesPointDto) : DetectionActivityModel :=
  let source := sourceSeries events alerts incidents in
  let timestamps := js_sort Z.compare (js_unique (flat_map (λ item, map fst item.2) source)) in
  let series := map (λ item, mkSeriesModel item.1 (map (λ ts, (ts, valueAt item.2 ts)) timestamps)) source in
  mkActivity (match head timestamps, last timestamps with Some a, Some b => Some (a, b) | _, _ => None end)
    timestamps series.
End chart_model.

(** ** The selection of the panel *)

(** The effect after the model changed. *)
Definition keep_selected (model : DetectionActivityModel) (current : option Z) : option Z :=
  match current with
  | Some ts => if bool_decide (ts ∈ timestamps model) then current else None
  | None => None
  end.

Fixpoint findIndex {A} (p : A → bool) (l : list A) : option nat :=
  match l with
  | [] => None
  | x :: r => if p x then Some 0%nat else S <$> findIndex p r
  end.

(** [typeof valueAt(series, timestamp) === "number"] *)
Definition has_number (timestamp : Z) (series : DetectionSeriesModel) : bool :=
  match valueAt (ds_points series) timestamp with Some (Some _) => true | _ => false end.

(** The selection and the tip shown: the indices of a series and of its point. *)
Definition selectTimestamp (model : DetectionActivityModel) (timestamp : Z) : option Z * option (nat * nat) :=
  (Some timestamp,
   seriesIndex ← findIndex (has_number timestamp) (activity_series model);
   selectedSeries ← activity_series model !! seriesIndex;
   dataIndex ← findIndex (λ p, p.1 =? timestamp) (ds_points selectedSeries);
   Some (seriesIndex, dataIndex)).

(** The choice of a bucket; the options carry time values, and the empty text. *)
Definition onBucketChange (model : DetectionActivityModel) (value : ustring) : option Z * option (nat * nat) :=
  match to_integer (number_of value) with
  | Some timestamp => if truthy value then selectTimestamp model timestamp else (None, None)
  | None => (None, None)
  end.

(** The values of the last bucket. *)
Definition latest (model : DetectionActivityModel) : list (option Z) :=
  map (λ s, last (ds_points s) ≫= snd) (activity_series model).

Definition selectionSummary (dateText : Z → ustring) (none : ustring) (labels : list ustring)
  (model : DetectionActivityModel) (timestamp : Z) : ustring :=
  dateText timestamp ++ u! ": " ++ join (u! ", ")
    (imap (λ index s, default [] (labels !! index) ++ u! " " ++
       match valueAt (ds_points s) timestamp with Some (Some v) => string_of_Z v | _ => none end)
       (activity_series model)).

(** ** Series charts *)

(** [rows.filter((_row, index) => index % stride === 0)] and the last row. *)
Definition every (stride : nat) {Row} (rows : list Row) : list Row :=
  omap id (imap (λ index row, if Nat.eqb (index mod stride) 0 then Some row else None) rows).

Definition sampleRows {Row} (rows : list Row) (maximum : nat) : list Row :=
  if Nat.leb (length rows) maximum then rows
  else
    let stride := ((length rows + maximum - 1) / maximum)%nat in
    let sampled := every stride rows in
    match last rows with
    | Some r => if Nat.eqb ((length rows - 1) mod stride) 0 then sampled else sampled ++ [r]
    | None => sampled
    end.

Definition coordinates (values : list jsnum) : list (jsnum * jsnum) :=
  let maximum := maximum_of values in
  imap (λ index value,
    (if Nat.eqb (length values) 1 then num_of_Z 260
     else num_add (num_of_Z 20) (num_div (num_mul (num_of_Z (Z.of_nat index)) (num_of_Z 480))
                                   (num_of_Z (Z.max (Z.of_nat (length values) - 1) 1))),
     num_sub (num_of_Z 150) (num_mul (num_div value maximum) (num_of_Z 120)))) values.

(** The width of a bar of [DistributionRows], in percent. *)
Definition bar_width (maximum count : jsnum) : jsnum := num_mul (num_div count maximum) (num_of_Z 100).

(** ** Distributions *)

Definition SEVERITY_ORDER : list Severity := [Severity_CRITICAL; Severity_HIGH; Severity_MEDIUM; Severity_LOW].
Definition RISK_LEVELS : list RiskLevel := [Risk_CRITICAL; Risk_HIGH; Risk_MEDIUM; Risk_LOW].
Definition SENSOR_STATES : list SensorHealth := [Health_HEALTHY; Health_DEGRADED; Health_UNAVAILABLE].

Definition severity_counts (rows : list SeverityCountDto) : list Z :=
  map (λ severity, default 0 (sc_count <$> js_find (λ row, bool_decide (sc_severity row = severity)) rows)) SEVERITY_ORDER.

(** [total > 0 ? Math.min((count / total) * 100, 100) : 0] *)
Definition num_min (a b : jsnum) : jsnum := num_opp (num_max (num_opp a) (num_opp b)).
Definition severity_percentage (total count : Z) : jsnum :=
  if 0 <? total then num_min (num_mul (num_div (num_of_Z count) (num_of_Z total)) (num_of_Z 100)) (num_of_Z 100)
  else num_of_Z 0.

Definition riskRows (byLevel : list RiskLevelCountDto) : list (RiskLevel * Z) :=
  map (λ level, (level, default 0 (rc_count <$> js_find (λ row, bool_decide (rc_level row = level)) byLevel))) RISK_LEVELS.

Definition status_rows (rows : list SensorHealthCountDto) : list (SensorHealth * Z) :=
  map (λ status, (status, sumZ (map sh_count (js_filter (λ row, bool_decide (sh_status row = status)) rows)))) SENSOR_STATES.
Definition rows_total {A} (rows : list (A * Z)) : Z := sumZ (map snd rows).

Definition sensorBreakdown (sensorHealth : list SensorHealthCountDto) : list (ustring * list (SensorHealth * Z)) :=
  map (λ sensor, (sensor, status_rows (js_filter (λ row, bool_decide (sh_sensor row = sensor)) sensorHealth)))
    (js_sort cmp_units (js_unique (map sh_sensor sensorHealth))).

(** ** The data tables of the activity chart *)

Section tables.
Context `{DateHost}.
(** [formatCompactDate], here of dates that can be read (for others it throws and nothing is
    drawn, I18n.v), and the texts of the headers. *)
Context (dateText : ustring → ustring).
Context (bucketText countText openText closedText eventsText alertsText incidentsText : ustring).

Definition sortByBucket {Row} (bucket : Row → ustring) (rows : list Row) : list Row := js_sort (cmp_on bucket cmp_time) rows.

Definition column_header (s : ustring) : node := Element (u! "TH") [(u! "scope", u! "col")] [Text s].
Definition body_cell (s : ustring) : node := Element (u! "TD") [] [Text s].
Definition html_row (l : list node) : node := Element (u! "TR") [] l.

Definition html_table (caption : ustring) (headers : list ustring) (rows : list (list ustring)) : node :=
  Element (u! "TABLE") []
    [Element (u! "CAPTION") [] [Text caption];
     Element (u! "THEAD") [] [html_row (map column_header headers)];
     Element (u! "TBODY") [] (map (λ r, html_row (map body_cell r)) rows)].

Definition ActivityDataTable (label : ustring) (rows : list TimeSeriesPointDto) : node :=
  html_table label [bucketText; countText] (map (λ r, [dateText (ts_bucketStartAt r); string_of_Z (ts_count r)]) rows).

Definition DetectionActivityTable (events alerts : list TimeSeriesPointDto)
  (incidents : list IncidentTimeSeriesPointDto) : node :=
  Element (u! "DIV") [(u! "class", u! "detection-activity-tables")]
    [ActivityDataTable eventsText (sortByBucket ts_bucketStartAt events);
     ActivityDataTable alertsText (sortByBucket ts_bucketStartAt alerts);
     html_table incidentsText [bucketText; openText; closedText]
       (map (λ r, [dateText (it_bucketStartAt r); string_of_Z (it_openCount r); string_of_Z (it_closedCount r)])
          (sortByBucket it_bucketStartAt incidents))].
End tables.

(** ** Lemmas: the chart model *)

Lemma js_find_head_filter {A} (P : A → Prop) `{∀ x, Decision (P x)} (p : A → bool) l :
  (∀ x, p x = true ↔ P x) → js_find p l = head (filter P l).
Proof.
  intros Hp. induction l as [|x l IH]; [done|]. cbn [js_find]. rewrite filter_cons.
  destruct (p x) eqn:E; case_decide as Hd; [done| | |done].
  - by apply Hp in E.
  - apply Hp in Hd. congruence.
Qed.

(** A stable sort does not change which point at a time comes first. *)
Lemma valueAt_sorted points ts : valueAt (sortPoints points) ts = valueAt points ts.
Proof.
  unfold valueAt, sortPoints. set (a := (ts, 0)). set (c := cmp_on fst Z.compare).
  assert (∀ x : Z * Z, (x.1 =? ts) = true ↔ c a x = Eq) as Hp.
  { intros x. unfold c, cmp_on, a. cbn. rewrite Z.compare_eq_iff, Z.eqb_eq. done. }
  rewrite !(js_find_head_filter (λ x, c a x = Eq) _ _ Hp). f_equal. f_equal. apply js_sort_stable. apply _.
Qed.

(** The count of the first row of a bucket. *)
Definition first_count `{DateHost} (rows : list (ustring * Z)) (ts : Z) : option Z :=
  snd <$> js_find (λ row, bool_decide (Date_parse row.1 = Some ts)) rows.

Lemma valueAt_rows `{DateHost} rows ts : valueAt (row_points rows) ts = first_count rows ts.
Proof.
  unfold valueAt, first_count, row_points. induction rows as [|[b n] rows IH]; [done|]. cbn.
  destruct (Date_parse b) as [t|]; cbn; [|by rewrite bool_decide_false by done].
  destruct (Z.eqb_spec t ts) as [->|Hne]; [by rewrite bool_decide_true|].
  rewrite bool_decide_false by congruence. apply IH.
Qed.

Lemma sorted_nodup_lt (l : list Z) : NoDup l → StronglySorted Z.lt (js_sort Z.compare l).
Proof.
  intros Hn. assert (NoDup (js_sort Z.compare l)) as Hn' by (by rewrite js_sort_perm).
  pose proof (js_sort_sorted Z.compare l) as Hs. induction Hs as [|x r Hr IH Hx]; [constructor|].
  apply NoDup_cons in Hn' as [Hx' Hr']. constructor; [by apply IH|]. apply Forall_forall. intros y Hy.
  rewrite Forall_forall in Hx. specialize (Hx y Hy). change (x ≤ y) in Hx.
  assert (x ≠ y) by (by intros ->). lia.
Qed.

Section model_spec.
Context `{DateHost} (events alerts : list TimeSeriesPointDto) (incidents : list IncidentTimeSeriesPointDto).

(** The rows of each series, as times and counts. *)
Definition series_rows : list (SeriesKey * list (ustring * Z)) :=
  [(Events, map (λ r, (ts_bucketStartAt r, ts_count r)) events);
   (Alerts, map (λ r, (ts_bucketStartAt r, ts_count r)) alerts);
   (Incidents, map (λ r, (it_bucketStartAt r, it_openCount r)) incidents)].

Lemma source_rows : sourceSeries events alerts incidents = map (λ kr, (kr.1, sortPoints (row_points kr.2))) series_rows.
Proof. done. Qed.

Lemma row_points_time rows ts : ts ∈ map fst (sortPoints (row_points rows)) ↔ ∃ row, row ∈ rows ∧ Date_parse row.1 = Some ts.
Proof.
  unfold sortPoints. rewrite (list_elem_of_fmap fst). split.
  - intros ([t n] & -> & Hp). rewrite js_sort_perm in Hp. apply list_elem_of_omap in Hp as (row & Hr & E).
    destruct (Date_parse row.1) as [t'|] eqn:Ed; [|done]. injection E as <- <-. eauto.
  - intros (row & Hr & Ed). exists (ts, row.2). split; [done|]. rewrite js_sort_perm. apply list_elem_of_omap.
    exists row. split; [done|]. by rewrite Ed.
Qed.

Lemma model_timestamps ts : ts ∈ timestamps (buildDetectionActivityModel events alerts incidents) ↔
  ∃ kr row, kr ∈ series_rows ∧ row ∈ kr.2 ∧ Date_parse row.1 = Some ts.
Proof.
  unfold buildDetectionActivityModel. cbn [timestamps]. rewrite js_sort_perm, js_unique_elem, elem_of_flat_map, source_rows.
  setoid_rewrite (list_elem_of_fmap (λ kr, (kr.1, sortPoints (row_points kr.2)))). split.
  - intros (item & (kr & -> & Hk) & Ht). apply row_points_time in Ht as (row & ? & ?). eauto.
  - intros (kr & row & Hk & Hr & Ed). eexists. split; [eauto|]. apply row_points_time. eauto.
Qed.

Lemma model_series : activity_series (buildDetectionActivityModel events alerts incidents) =
  map (λ kr, mkSeriesModel kr.1 (map (λ ts, (ts, first_count kr.2 ts))
         (timestamps (buildDetectionActivityModel events alerts incidents)))) series_rows.
Proof.
  unfold buildDetectionActivityModel. cbn [activity_series timestamps]. rewrite source_rows.
  set (tss := js_sort _ _). rewrite map_map. apply map_ext. intros kr. cbn [fst snd]. f_equal. apply map_ext. intros ts.
  by rewrite valueAt_sorted, valueAt_rows.
Qed.

Lemma sorted_last_max (l : list Z) b : StronglySorted Z.lt l → last l = Some b → ∀ x, x ∈ l → x ≤ b.
Proof.
  induction 1 as [|y r Hr IH Hy]; [done|]. intros Hl x Hx. destruct r as [|z r].
  - injection Hl as <-. apply list_elem_of_singleton in Hx. lia.
  - rewrite last_cons_cons in Hl. apply elem_of_cons in Hx as [->|Hx]; [|by apply IH].
    rewrite Forall_forall in Hy. apply last_Some_elem_of in Hl. specialize (Hy b Hl). lia.
Qed.

(** the activity chart lines its three series up: the time axis is the strictly
    increasing list of the readable bucket times of events, alerts and incidents;
    every series has exactly one point per time of the axis, with the count of its
    first row for that time or a gap; and the domain spans the axis, or is absent
    when there is no readable time. *)
Theorem activity_model_spec :
  let model := buildDetectionActivityModel events alerts incidents in
  StronglySorted Z.lt (timestamps model) ∧
  (∀ ts, ts ∈ timestamps model ↔ ∃ kr row, kr ∈ series_rows ∧ row ∈ kr.2 ∧ Date_parse row.1 = Some ts) ∧
  activity_series model =
    map (λ kr, mkSeriesModel kr.1 (map (λ ts, (ts, first_count kr.2 ts)) (timestamps model))) series_rows ∧
  match domain model with
  | Some (a, b) => a ∈ timestamps model ∧ b ∈ timestamps model ∧ ∀ ts, ts ∈ timestamps model → a ≤ ts ≤ b
  | None => timestamps model = []
  end.
Proof.
  cbn zeta. assert (StronglySorted Z.lt (timestamps (buildDetectionActivityModel events alerts incidents))) as Hs
    by (apply sorted_nodup_lt, js_unique_NoDup).
  split; [exact Hs|]. split; [apply model_timestamps|]. split; [apply model_series|].
  unfold buildDetectionActivityModel in *. cbn [domain timestamps] in *. set (tss := js_sort _ _) in *.
  destruct tss as [|a r] eqn:E; [done|]. cbn [head]. destruct (last (a :: r)) as [b|] eqn:El.
  - split; [left|]. split; [by apply last_Some_elem_of|]. intros ts Ht.
    split; [|by eapply sorted_last_max]. apply StronglySorted_inv in Hs as [_ Hf]. rewrite Forall_forall in Hf.
    apply elem_of_cons in Ht as [->|Ht]; [lia|]. specialize (Hf ts Ht). lia.
  - by apply last_None in El.
Qed.
End model_spec.

(** ** Lemmas: the selection *)

Lemma findIndex_Some {A} (p : A → bool) l i : findIndex p l = Some i → ∃ x, l !! i = Some x ∧ p x = true.
Proof.
  revert i. induction l as [|x l IH]; intros i; cbn; [done|]. destruct (p x) eqn:E; [intros [= <-]; eauto|].
  intros (j & Hj & ->)%fmap_Some. by apply IH.
Qed.

Lemma findIndex_is_Some {A} (p : A → bool) l x : x ∈ l → p x = true → is_Some (findIndex p l).
Proof.
  induction l as [|y l IH]; intros Hx Hp; [by apply elem_of_nil in Hx|]. cbn. destruct (p y) eqn:E; [eauto|].
  apply elem_of_cons in Hx as [->|Hx]; [congruence|]. apply fmap_is_Some. by apply IH.
Qed.

Lemma first_count_is_Some `{DateHost} rows row ts : row ∈ rows → Date_parse row.1 = Some ts → is_Some (first_count rows ts).
Proof.
  intros Hr Hd. unfold first_count. apply fmap_is_Some. destruct (js_find _ rows) eqn:E; [done|].
  rewrite js_find_None in E. specialize (E row Hr). apply bool_decide_eq_false in E. done.
Qed.

Lemma valueAt_map {V} (f : Z → V) tss ts : ts ∈ tss → valueAt (map (λ t, (t, f t)) tss) ts = Some (f ts).
Proof.
  unfold valueAt. induction tss as [|t tss IH]; intros Ht; [by apply elem_of_nil in Ht|]. cbn.
  destruct (Z.eqb_spec t ts) as [->|Hne]; [done|]. apply IH. set_solver.
Qed.

(** choosing a bucket of the chart selects it and points at a value: for every
    time of the axis, the option's text selects that time, the tip is shown at a
    series and a point of it that has this time and a count, and the selection
    stays as long as the time is on the axis. *)
Theorem bucket_selection_spec `{DateHost} events alerts incidents ts :
  let model := buildDetectionActivityModel events alerts incidents in
  ts ∈ timestamps model → 0 < ts ≤ 2 ^ 53 →
  ∃ seriesIndex dataIndex series count,
    onBucketChange model (string_of_Z ts) = (Some ts, Some (seriesIndex, dataIndex)) ∧
    activity_series model !! seriesIndex = Some series ∧
    ds_points series !! dataIndex = Some (ts, Some count) ∧
    keep_selected model (Some ts) = Some ts.
Proof.
  cbn zeta. set (model := buildDetectionActivityModel _ _ _). intros Ht Hr.
  pose proof Ht as (kr & row & Hk & Hrow & Hd)%model_timestamps.
  assert (onBucketChange model (string_of_Z ts) = selectTimestamp model ts) as ->.
  { unfold onBucketChange. rewrite number_of_string_of_Z, to_integer_Z by done.
    by destruct (string_of_Z ts) eqn:E; [destruct (dec_string_head ts) as (c & r & Hc & _); [lia|];
      unfold string_of_Z in E; rewrite (proj2 (Z.ltb_ge ts 0)), Hc in E by lia|]. }
  pose proof (model_series events alerts incidents) as Hs. fold model in Hs.
  destruct (first_count_is_Some kr.2 row ts Hrow Hd) as [n Hn].
  set (item := mkSeriesModel kr.1 (map (λ t, (t, first_count kr.2 t)) (timestamps model))).
  assert (item ∈ activity_series model) as Hin by (rewrite Hs; apply list_elem_of_fmap; eauto).
  destruct (findIndex_is_Some (has_number ts) _ item Hin) as [si Hsi].
  { unfold has_number, item. cbn [ds_points]. by rewrite valueAt_map, Hn. }
  destruct (findIndex_Some _ _ _ Hsi) as (sel & Hsel & Hnum).
  assert (∃ rows, ds_points sel = map (λ t, (t, first_count rows t)) (timestamps model)) as [rows Hp].
  { rewrite Hs in Hsel. apply list_elem_of_lookup_2, list_elem_of_fmap in Hsel as (kr' & -> & _). by exists kr'.2. }
  unfold has_number in Hnum. rewrite Hp, valueAt_map in Hnum by done. destruct (first_count rows ts) as [count|] eqn:Ec; [|done].
  destruct (findIndex_is_Some (λ p : Z * option Z, p.1 =? ts) (ds_points sel) (ts, Some count)) as [di Hdi].
  { rewrite Hp. apply list_elem_of_fmap. exists ts. by rewrite Ec. }
  { apply Z.eqb_refl. }
  exists si, di, sel, count. split; [|split; [done|split]].
  - unfold selectTimestamp. rewrite Hsi. cbn [mbind option_bind]. rewrite Hsel. cbn [mbind option_bind]. by rewrite Hdi.
  - destruct (findIndex_Some _ _ _ Hdi) as ([t v] & Hl & Heq). apply Z.eqb_eq in Heq. cbn in Heq. subst t.
    rewrite Hl. pose proof Hl as Hv. rewrite Hp in Hv. apply list_elem_of_lookup_2, list_elem_of_fmap in Hv as (t & [= <- ->] & _).
    by rewrite Ec.
  - unfold keep_selected. by rewrite bool_decide_true.
Qed.

(** ** Lemmas: reading a rendered table *)

(** The text of a cell as the report reads it. *)
Definition clean_text (s : ustring) : ustring := trim (reverse (drop_arrows (reverse (trim (collapse_spaces false s))))).
Definition plain_text (s : ustring) : ustring := trim (collapse_spaces false s).

Lemma js_filter_flat_map {A B} (p : B → bool) (f : A → list B) l :
  js_filter p (flat_map f l) = flat_map (λ x, js_filter p (f x)) l.
Proof. induction l as [|x l IH]; [done|]. cbn [flat_map]. unfold js_filter in *. by rewrite List.filter_app, IH. Qed.

Lemma flat_map_singletons {A B} (f : A → B) l : flat_map (λ x, [f x]) l = map f l.
Proof. induction l; [done|]. cbn. by f_equal. Qed.

(** The elements of a leaf with a text. *)
Lemma elements_leaf above t a s : elements above (Element t a [Text s]) = [mkLocated (Element t a [Text s]) above].
Proof. done. Qed.

Definition not_in_table (above : list node) : Prop :=
  some_ancestor (λ n _, is_element n && bool_decide (tag_of n = u! "THEAD")) above = false ∧
  some_ancestor (λ n _, is_element n && bool_decide (tag_of n = u! "TBODY")) above = false.

Lemma matches_within depth outer inner e :
  matches_any depth [within (Tag outer) (Tag inner)] e =
  is_element (at_node e) && bool_decide (tag_of (at_node e) = inner) &&
  some_ancestor (λ n _, is_element n && bool_decide (tag_of n = outer)) (ancestors e).
Proof.
  unfold matches_any. cbn. rewrite orb_false_r. unfold matches_selector. cbn. f_equal.
  induction (ancestors e) as [|n r IH]; [done|]. cbn. rewrite IH. by rewrite andb_true_r.
Qed.

Section html_table.
Context (caption : ustring) (headers : list ustring) (rows : list (list ustring)) (above : list node).
Let table := html_table caption headers rows.
Let e := mkLocated table above.
Let thead := Element (u! "THEAD") [] [html_row (map column_header headers)].
Let tbody := Element (u! "TBODY") [] (map (λ r, html_row (map body_cell r)) rows).

Lemma row_elements (cell : ustring → node) path r :
  (∀ s, ∃ t a, cell s = Element t a [Text s]) →
  elements path (html_row (map cell r)) =
  mkLocated (html_row (map cell r)) path :: map (λ s, mkLocated (cell s) (html_row (map cell r) :: path)) r.
Proof.
  intros Hc. unfold html_row at 1. cbn [elements]. f_equal. fold (html_row (map cell r)).
  generalize (html_row (map cell r)) as parent. intros parent. induction r as [|s r IH]; [done|].
  cbn [map flat_map]. rewrite IH. destruct (Hc s) as (t & a & ->). done.
Qed.

Lemma body_elements path rs :
  flat_map (elements path) (map (λ r, html_row (map body_cell r)) rs) =
  flat_map (λ r, mkLocated (html_row (map body_cell r)) path ::
    map (λ s, mkLocated (body_cell s) (html_row (map body_cell r) :: path)) r) rs.
Proof.
  induction rs as [|r rs IH]; [done|]. cbn [map flat_map].
  rewrite (row_elements body_cell) by (intros; unfold body_cell; eauto). by rewrite IH.
Qed.

Lemma table_descendants :
  descendants e =
  [mkLocated (Element (u! "CAPTION") [] [Text caption]) (table :: above);
   mkLocated thead (table :: above)] ++
  (mkLocated (html_row (map column_header headers)) (thead :: table :: above) ::
   map (λ s, mkLocated (column_header s) (html_row (map column_header headers) :: thead :: table :: above)) headers) ++
  [mkLocated tbody (table :: above)] ++
  flat_map (λ r, mkLocated (html_row (map body_cell r)) (tbody :: table :: above) ::
    map (λ s, mkLocated (body_cell s) (html_row (map body_cell r) :: tbody :: table :: above)) r) rows.
Proof.
  unfold descendants, e. cbn [at_node ancestors]. unfold table at 2. unfold html_table at 1. cbn [child_nodes flat_map].
  rewrite elements_leaf. fold thead tbody. unfold thead at 1. cbn [elements]. fold thead. cbn [flat_map].
  rewrite (row_elements column_header) by (intros; unfold column_header; eauto). rewrite !app_nil_r.
  unfold tbody at 1. cbn [elements]. fold tbody. by rewrite body_elements.
Qed.

Hypothesis outside : not_in_table above.

(** Decides a selector on an element of the table. *)
Ltac decide_match :=
  rewrite ?matches_within, ?matches_tag; cbn [at_node ancestors];
  unfold html_row, column_header, body_cell, thead, tbody, table, html_table; cbn [is_element tag_of some_ancestor andb];
  repeat first [rewrite bool_decide_true by reflexivity | rewrite bool_decide_false by (vm_compute; discriminate)];
  cbn [andb orb]; try reflexivity; try apply outside.

Lemma cleanCell_leaf t a s path : cleanCell (mkLocated (Element t a [Text s]) path) = clean_text s.
Proof. unfold cleanCell, clean_text, text. cbn [at_node textContent flat_map]. by rewrite app_nil_r. Qed.

(** Decides the selectors on the elements a query lists one by one. *)
Ltac decide_singles :=
  rewrite ?js_filter_app, ?js_filter_cons;
  repeat match goal with
  | |- context [if matches_any ?d ?ss ?x then _ else _] =>
    let H := fresh in
    first [assert (matches_any d ss x = false) as H by decide_match
          |assert (matches_any d ss x = true) as H by decide_match]; rewrite H; clear H
  end.

Lemma table_headers : header_cells e = map clean_text headers.
Proof.
  unfold header_cells, all_of, querySelectorAll. rewrite table_descendants. decide_singles.
  rewrite (js_filter_all _ (map _ headers)).
  2: { intros x (s & -> & _)%list_elem_of_fmap. decide_match. }
  rewrite (js_filter_none _ (flat_map _ rows)).
  2: { intros x (r & _ & [->|(s & -> & _)%list_elem_of_fmap]%elem_of_cons)%elem_of_flat_map; decide_match. }
  cbn [js_filter List.filter app]. rewrite app_nil_r, map_map. apply map_ext. intros s. apply cleanCell_leaf.
Qed.

Lemma table_body : body_rows e = map (map clean_text) rows.
Proof.
  unfold body_rows, all_of, querySelectorAll. rewrite table_descendants. decide_singles.
  rewrite (js_filter_none _ (map _ headers)).
  2: { intros x (s & -> & _)%list_elem_of_fmap. decide_match. }
  rewrite js_filter_flat_map. cbn [js_filter List.filter app].
  rewrite (flat_map_ext _ (λ r, [mkLocated (html_row (map body_cell r)) (tbody :: table :: above)])).
  2: { intros r. decide_singles. rewrite (js_filter_none _ (map _ r)); [done|].
       intros x (s & -> & _)%list_elem_of_fmap. decide_match. }
  rewrite flat_map_singletons, map_map. apply map_ext. intros r. unfold cells, children. cbn [at_node ancestors].
  change (child_nodes (html_row (map body_cell r))) with (map body_cell r). generalize (html_row (map body_cell r) :: tbody :: table :: above). intros path.
  rewrite (js_filter_all is_element) by (by intros x (s & -> & _)%list_elem_of_fmap).
  rewrite js_filter_all.
  2: { intros x (c & -> & (s & -> & _)%list_elem_of_fmap)%list_elem_of_fmap. cbn. by rewrite bool_decide_true. }
  rewrite !map_map. apply map_ext. intros s. apply cleanCell_leaf.
Qed.

Lemma table_caption : text_of [tag (u! "CAPTION")] e = plain_text caption.
Proof.
  unfold text_of. rewrite querySelector_head. unfold querySelectorAll. rewrite table_descendants. decide_singles.
  cbn [head app]. unfold text, plain_text. cbn [at_node textContent flat_map]. by rewrite app_nil_r.
Qed.

(** The table itself is the only table below its parent. *)
Lemma table_only depth : js_filter (matches_any depth [tag (u! "TABLE")]) (elements above table) = [e].
Proof.
  assert (elements above table = e :: descendants e) as -> by done. rewrite table_descendants. decide_singles. decide_singles.
  rewrite (js_filter_none _ (map _ headers)), (js_filter_none _ (flat_map _ rows)); [done|..].
  - intros x (r & _ & [->|(s & -> & _)%list_elem_of_fmap]%elem_of_cons)%elem_of_flat_map; decide_match.
  - intros x (s & -> & _)%list_elem_of_fmap. decide_match.
Qed.
End html_table.

(** ** The report of the activity tables *)

Section reported.
Context `{DateHost} (dateText : ustring → ustring).
Context (bucketText countText openText closedText eventsText alertsText incidentsText : ustring).
Context (events alerts : list TimeSeriesPointDto) (incidents : list IncidentTimeSeriesPointDto).
Context (above : list node).
Hypothesis outside : not_in_table above.

Let wrapper := DetectionActivityTable dateText bucketText countText openText closedText eventsText alertsText
  incidentsText events alerts incidents.

(** The category of a bucket in the report. *)
Definition bucket_category (bucket : ustring) : ustring := clean_text (dateText bucket).

Definition count_row (r : TimeSeriesPointDto) : list ustring := [dateText (ts_bucketStartAt r); string_of_Z (ts_count r)].
Definition incident_row (r : IncidentTimeSeriesPointDto) : list ustring :=
  [dateText (it_bucketStartAt r); string_of_Z (it_openCount r); string_of_Z (it_closedCount r)].

Definition read_table (index : nat) (caption : ustring) (headers : list ustring) (rows : list (list ustring)) : TrendTable :=
  mkTrendTable (or_text (plain_text caption) (numbered (u! "Series") index)) (map clean_text headers)
    (map (map clean_text) rows).

Definition read_tables : list TrendTable :=
  [read_table 0 eventsText [bucketText; countText] (map count_row (sortByBucket ts_bucketStartAt events));
   read_table 1 alertsText [bucketText; countText] (map count_row (sortByBucket ts_bucketStartAt alerts));
   read_table 2 incidentsText [bucketText; openText; closedText] (map incident_row (sortByBucket it_bucketStartAt incidents))].

Lemma wrapper_outside : not_in_table (wrapper :: above).
Proof.
  destruct outside as [H1 H2]. split; cbn [some_ancestor]; [rewrite H1|rewrite H2]; unfold wrapper; cbn [is_element tag_of DetectionActivityTable];
    rewrite bool_decide_false by (vm_compute; discriminate); done.
Qed.

Lemma trend_table_read index caption headers rows :
  trend_table index (mkLocated (html_table caption headers rows) (wrapper :: above)) = read_table index caption headers rows.
Proof.
  unfold trend_table, read_table. pose proof wrapper_outside as Ho.
  by rewrite table_caption, table_headers, table_body.
Qed.

Lemma wrapper_tables : imap trend_table (all_of [tag (u! "TABLE")] (mkLocated wrapper above)) = read_tables.
Proof.
  unfold all_of, querySelectorAll, descendants. cbn [at_node ancestors].
  set (depth := length above). pose proof wrapper_outside as Ho.
  unfold wrapper at 2. unfold DetectionActivityTable at 1. cbn [child_nodes flat_map]. unfold ActivityDataTable.
  rewrite !js_filter_app, !table_only by done. cbn [js_filter List.filter app imap].
  unfold compose. by rewrite !trend_table_read.
Qed.

Definition reported (trend : DashboardReportTrend) (k : nat) (category : ustring) (v : option jsnum) : Prop :=
  ∃ i series, trend_categories trend !! i = Some category ∧ trend_series trend !! k = Some series ∧
    series_values series !! i = Some v.

Lemma trend_of_read index : ∃ title scope,
  trend_of index (mkLocated wrapper above) =
  mkTrend title (all_categories read_tables)
    (imap (λ i tc, column_series tc.1 (all_categories read_tables) i tc.2) (all_columns read_tables)) scope.
Proof. unfold trend_of. rewrite wrapper_tables, merge_tables_reference. by do 2 eexists. Qed.

Lemma read_columns : all_columns read_tables =
  [(read_table 0 eventsText [bucketText; countText] (map count_row (sortByBucket ts_bucketStartAt events)), 1%nat);
   (read_table 1 alertsText [bucketText; countText] (map count_row (sortByBucket ts_bucketStartAt alerts)), 1%nat);
   (read_table 2 incidentsText [bucketText; openText; closedText] (map incident_row (sortByBucket it_bucketStartAt incidents)), 1%nat);
   (read_table 2 incidentsText [bucketText; openText; closedText] (map incident_row (sortByBucket it_bucketStartAt incidents)), 2%nat)].
Proof. reflexivity. Qed.

Lemma reported_iff index k table column category v :
  all_columns read_tables !! k = Some (table, column) →
  reported (trend_of index (mkLocated wrapper above)) k category v ↔
  category ∈ all_categories read_tables ∧ v = value_at table column category.
Proof.
  intros Hk. destruct (trend_of_read index) as (title & scope & ->). unfold reported. cbn [trend_categories trend_series].
  rewrite list_lookup_imap, Hk. cbn [fmap option_fmap option_map fst snd]. split.
  - intros (i & s & Hc & [= <-] & Hv). rewrite column_values in Hv. rewrite list_lookup_fmap, Hc in Hv. injection Hv as <-.
    split; [by eapply list_elem_of_lookup_2|done].
  - intros [(i & Hi)%list_elem_of_lookup ->]. eexists i, _. split; [done|]. split; [done|].
    by rewrite column_values, list_lookup_fmap, Hi.
Qed.

(** A series of the report against the rows it was rendered from: the count at
    the category of every row, and a gap elsewhere. *)
Definition faithful {A} (trend : DashboardReportTrend) (k : nat) (category : A → ustring) (count : A → Z) (rows : list A) : Prop :=
  (∀ r, r ∈ rows → reported trend k (category r) (Some (num_of_Z (count r)))) ∧
  (∀ c v, reported trend k c v → c ∉ map category rows → v = None).

Lemma digits_clean s : Forall (λ c, is_digit c = true) s → clean_text s = s.
Proof.
  intros Hd. pose proof (digits_no_space s Hd) as Hs. unfold clean_text.
  assert (∀ b, collapse_spaces b s = s) as ->.
  { induction Hs as [|c s Hc Hs IH]; intros b; cbn; [done|]. rewrite Hc. apply Forall_cons in Hd as [_ Hd]. by rewrite IH. }
  rewrite (trim_no_space s Hs).
  assert (drop_arrows (reverse s) = reverse s) as ->.
  { destruct (reverse s) as [|c r] eqn:E; [done|]. cbn. assert (is_digit c = true) as Hc.
    { rewrite Forall_forall in Hd. apply Hd, elem_of_reverse. rewrite E. left. }
    unfold is_digit in Hc. apply andb_true_iff in Hc as [H1 H2]. apply Z.leb_le in H1, H2.
    unfold is_arrow. rewrite !(proj2 (Z.eqb_neq _ _)) by lia. done. }
  rewrite reverse_involutive. by apply trim_no_space.
Qed.

Lemma parse_count n : 0 ≤ n ≤ 2 ^ 53 → parseNullableCount (Some (clean_text (string_of_Z n))) = Some (num_of_Z n).
Proof.
  intros [Hn Hm]. pose proof (string_of_Z_digits n Hn) as Hd. rewrite (digits_clean _ Hd). unfold parseNullableCount.
  rewrite (trim_no_space _ (digits_no_space _ Hd)).
  assert (numeric_units (string_of_Z n) = string_of_Z n) as ->.
  { apply js_filter_all. intros c Hc. rewrite Forall_forall in Hd. by rewrite (Hd c Hc). }
  assert (number_of (string_of_Z n) = num_of_Z n) as ->.
  { destruct (decide (n = 0)) as [->|]; [vm_compute; done|]. apply number_of_string_of_Z. lia. }
  destruct (bool_decide_reflect (string_of_Z n = u! "—")) as [E|_].
  { rewrite E in Hd. apply Forall_cons in Hd as [Hd _]. vm_compute in Hd. done. }
  destruct (string_of_Z n) as [|c r] eqn:E; [|done]. exfalso. revert E. unfold string_of_Z.
  rewrite (proj2 (Z.ltb_ge n 0)) by done. destruct (decide (n = 0)) as [->|]; [by vm_compute|].
  destruct (dec_string_head n) as (c & r & -> & _); [lia|done].
Qed.

Lemma filter_by_key {A} (key : A → ustring) l x : NoDup (map key l) → x ∈ l →
  js_filter (λ y, bool_decide (key y = key x)) l = [x].
Proof.
  induction l as [|y l IH]; intros Hn Hx; [by apply elem_of_nil in Hx|]. cbn in Hn. apply NoDup_cons in Hn as [Hy Hn].
  rewrite js_filter_cons. apply elem_of_cons in Hx as [->|Hx].
  - rewrite bool_decide_true by done. f_equal. apply js_filter_none. intros z Hz. apply bool_decide_false. intros E.
    apply Hy. rewrite <- E. by apply list_elem_of_fmap_2.
  - rewrite bool_decide_false; [by apply IH|]. intros E. apply Hy. rewrite E. by apply list_elem_of_fmap_2.
Qed.

Lemma series_faithful {A} index k i caption headers column (f : A → list ustring) (bucket : A → ustring) (count : A → Z) rows :
  all_columns read_tables !! k = Some (read_table i caption headers (map f (sortByBucket bucket rows)), column) →
  (∀ r, f r !! 0%nat = Some (dateText (bucket r)) ∧ f r !! column = Some (string_of_Z (count r))) →
  NoDup (map (λ r, bucket_category (bucket r)) rows) →
  (∀ r, r ∈ rows → bucket_category (bucket r) ≠ [] ∧ 0 ≤ count r ≤ 2 ^ 53) →
  faithful (trend_of index (mkLocated wrapper above)) k (λ r, bucket_category (bucket r)) count rows.
Proof.
  intros Hk Hf Hn Hr. set (cat := λ r, bucket_category (bucket r)). set (sorted := sortByBucket bucket rows) in *.
  assert (sorted ≡ₚ rows) as Hp by apply js_sort_perm.
  assert (∀ r, first_cell (map clean_text (f r)) = cat r) as Hfirst.
  { intros r. unfold first_cell. rewrite list_lookup_fmap. by rewrite (proj1 (Hf r)). }
  assert (row_categories (map (map clean_text) (map f sorted)) = js_filter truthy (map cat sorted)) as Hcats.
  { unfold row_categories. rewrite !map_map. f_equal. apply map_ext. apply Hfirst. }
  set (table := read_table i caption headers (map f sorted)) in *. split.
  - intros r Hin. apply (reported_iff index k table column); [done|]. split.
    + apply js_unique_elem, elem_of_flat_map. exists table. split.
      { apply list_elem_of_lookup_2, elem_of_flat_map in Hk as (t & Ht & (c & [= <- _] & _)%list_elem_of_fmap). done. }
      unfold table, read_table. cbn [tt_rows]. rewrite Hcats. apply js_filter_elem. split.
      * apply list_elem_of_fmap_2. by rewrite Hp.
      * apply truthy_true. apply (Hr r Hin).
    + unfold value_at, table, read_table. cbn [tt_rows]. rewrite map_map, js_filter_map. unfold compose.
      assert (js_filter (λ y, bool_decide (first_cell (map clean_text (f y)) = cat r)) sorted = [r]) as ->.
      { etrans; [apply List.filter_ext; intros y; by rewrite Hfirst|]. apply (filter_by_key cat); [|by rewrite Hp].
        by rewrite Hp. }
      cbn [map last mbind option_bind]. rewrite list_lookup_fmap, (proj2 (Hf r)). cbn [fmap option_fmap option_map].
      symmetry. apply parse_count, (Hr r Hin).
  - intros c v [Hc ->]%(reported_iff index k table column) Hnot; [|done]. apply value_at_None.
    + apply js_unique_elem, elem_of_flat_map in Hc as (t & _ & Hc). by apply js_filter_elem in Hc as [_ ?].
    + unfold table, read_table. cbn [tt_rows]. rewrite Hcats. intros [Hc' _]%js_filter_elem. apply Hnot.
      by rewrite <- Hp.
Qed.

(** what the activity chart tabulates is what the report prints: when the date
    texts are not empty and tell the buckets of one series apart, and the counts
    are not negative and below 2^53, the trend read back from the rendered tables
    has the event, alert, open and closed incident counts of the rows at the
    categories of their buckets, and gaps at the others. *)
Theorem activity_tables_reported index :
  NoDup (map (λ r, bucket_category (ts_bucketStartAt r)) events) →
  NoDup (map (λ r, bucket_category (ts_bucketStartAt r)) alerts) →
  NoDup (map (λ r, bucket_category (it_bucketStartAt r)) incidents) →
  Forall (λ r, bucket_category (ts_bucketStartAt r) ≠ [] ∧ 0 ≤ ts_count r ≤ 2 ^ 53) (events ++ alerts) →
  Forall (λ r, bucket_category (it_bucketStartAt r) ≠ [] ∧ 0 ≤ it_openCount r ≤ 2 ^ 53 ∧ 0 ≤ it_closedCount r ≤ 2 ^ 53) incidents →
  let trend := trend_of index (mkLocated wrapper above) in
  faithful trend 0 (λ r, bucket_category (ts_bucketStartAt r)) ts_count events ∧
  faithful trend 1 (λ r, bucket_category (ts_bucketStartAt r)) ts_count alerts ∧
  faithful trend 2 (λ r, bucket_category (it_bucketStartAt r)) it_openCount incidents ∧
  faithful trend 3 (λ r, bucket_category (it_bucketStartAt r)) it_closedCount incidents.
Proof.
  intros He Ha Hi [Fe Fa]%Forall_app Fi. rewrite Forall_forall in Fe. rewrite Forall_forall in Fa. rewrite Forall_forall in Fi. cbn zeta.
  split_and!; (eapply series_faithful; [rewrite read_columns; reflexivity|by intros r|done|]).
  - apply Fe.
  - apply Fa.
  - intros r Hr. destruct (Fi r Hr) as (? & ? & ?). done.
  - intros r Hr. destruct (Fi r Hr) as (? & ? & ?). done.
Qed.
End reported.

Definition sample_dates (s : ustring) : ustring := s.
Definition sample_events : list TimeSeriesPointDto :=
  [mkPointDto (u! "2026-07-19T14:00:00Z") 7; mkPointDto (u! "2026-07-19T13:00:00Z") 1200].
Definition sample_alerts : list TimeSeriesPointDto := [mkPointDto (u! "2026-07-19T13:00:00Z") 0].

Lemma activity_tables_reported_witness :
  not_in_table [] ∧
  faithful (trend_of 0 (mkLocated (DetectionActivityTable (H := utc_host) sample_dates (u! "Bucket") (u! "Count") (u! "Open")
    (u! "Closed") (u! "Events") (u! "Alerts") (u! "Incidents") sample_events sample_alerts []) []))
    0 (λ r, bucket_category sample_dates (ts_bucketStartAt r)) ts_count sample_events.
Proof.
  assert (not_in_table []) as H by (split; reflexivity). split; [exact H|].
  apply (activity_tables_reported (H := utc_host) sample_dates (u! "Bucket") (u! "Count") (u! "Open") (u! "Closed") (u! "Events")
    (u! "Alerts") (u! "Incidents") sample_events sample_alerts [] [] H 0).
  - by_compute.
  - by_compute.
  - constructor.
  - repeat constructor; cbn; try lia; vm_compute; discriminate.
  - constructor.
Defined.

Lemma bucket_selection_spec_witness :
  0 < 1784466000000 ≤ 2 ^ 53 ∧
  ∃ tip, onBucketChange (buildDetectionActivityModel (H := utc_host) sample_events sample_alerts []) (string_of_Z 1784466000000)
    = (Some 1784466000000, Some tip).
Proof.
  split; [lia|].
  destruct (bucket_selection_spec (H := utc_host) sample_events sample_alerts [] 1784466000000) as (s & d & _ & _ & E & _).
  - by_compute.
  - lia.
  - exists (s, d). exact E.
Defined.

(** ** Lemmas: samples and totals *)

Lemma every_snoc {Row} stride (rows : list Row) r :
  every stride (rows ++ [r]) = every stride rows ++ (if Nat.eqb (length rows mod stride) 0 then [r] else []).
Proof.
  unfold every. rewrite imap_app, omap_app. f_equal. cbn. rewrite Nat.add_0_r. by destruct (Nat.eqb _ 0).
Qed.

Lemma ceil_succ n s : (0 < s)%nat →
  ((n + 1 + s - 1) / s = (n + s - 1) / s + if Nat.eqb (n mod s) 0 then 1 else 0)%nat.
Proof.
  intros Hs. pose proof (Nat.div_mod n s ltac:(lia)) as E. pose proof (Nat.mod_upper_bound n s ltac:(lia)) as B.
  set (q := (n / s)%nat) in *. set (r := (n mod s)%nat) in *.
  replace (n + 1 + s - 1)%nat with (r + (q + 1) * s)%nat by nia. rewrite Nat.div_add, Nat.div_small by lia.
  destruct (Nat.eqb_spec r 0) as [Hr|Hr].
  - replace (n + s - 1)%nat with (s - 1 + q * s)%nat by nia. rewrite Nat.div_add, Nat.div_small by lia. lia.
  - replace (n + s - 1)%nat with (r - 1 + (q + 1) * s)%nat by nia. rewrite Nat.div_add, Nat.div_small by lia. lia.
Qed.

Lemma every_length {Row} stride (rows : list Row) : (0 < stride)%nat →
  length (every stride rows) = ((length rows + stride - 1) / stride)%nat.
Proof.
  intros Hs. induction rows as [|r rows IH] using rev_ind; [cbn; by rewrite Nat.div_small by lia|].
  rewrite every_snoc, !length_app, IH. cbn [length]. rewrite ceil_succ by done. by destruct (Nat.eqb _ 0).
Qed.

Lemma every_sublist {Row} stride (rows : list Row) : every stride rows `sublist_of` rows.
Proof.
  induction rows as [|r rows IH] using rev_ind; [done|]. rewrite every_snoc. apply sublist_app; [done|].
  destruct (Nat.eqb _ 0); [done|]. apply sublist_nil_l.
Qed.

(** A compact chart shows at most one point more than asked for, in order, with
    the first and the last row among them. *)
Lemma sampleRows_spec {Row} (rows : list Row) maximum : (0 < maximum)%nat →
  (length (sampleRows rows maximum) ≤ maximum + 1)%nat ∧
  sampleRows rows maximum `sublist_of` rows ∧
  last (sampleRows rows maximum) = last rows.
Proof.
  intros Hm. unfold sampleRows. destruct (Nat.leb_spec (length rows) maximum) as [Hl|Hl]; [split; [lia|done]|].
  set (stride := ((length rows + maximum - 1) / maximum)%nat).
  pose proof (Nat.div_mod (length rows + maximum - 1) maximum ltac:(lia)) as E.
  pose proof (Nat.mod_upper_bound (length rows + maximum - 1) maximum ltac:(lia)) as B. fold stride in E.
  assert (0 < stride)%nat as Hs by (destruct stride; lia).
  assert (length (every stride rows) ≤ maximum)%nat as He.
  { rewrite every_length by done. apply Nat.lt_succ_r, Nat.div_lt_upper_bound; [lia|]. nia. }
  destruct rows as [|r rows _] using rev_ind; [cbn in Hl; lia|]. rewrite last_snoc.
  assert (length (rows ++ [r]) - 1 = length rows)%nat as -> by (rewrite length_app; cbn; lia).
  pose proof (every_snoc stride rows r) as Hsn.
  destruct (Nat.eqb (length rows mod stride) 0) eqn:Eq.
  - split; [lia|]. split; [apply every_sublist|]. by rewrite Hsn, last_snoc.
  - rewrite app_nil_r in Hsn. rewrite length_app. split; [cbn; lia|]. split; [|by rewrite last_snoc].
    rewrite Hsn. apply sublist_app; [apply every_sublist|done].
Qed.

Lemma sumZ_cons x l : sumZ (x :: l) = x + sumZ l.
Proof. done. Qed.

Lemma sum_by_key {A K} `{EqDecision K} (key : A → K) (g : A → Z) l ks : NoDup ks → (∀ x, x ∈ l → key x ∈ ks) →
  sumZ (map (λ k, sumZ (map g (js_filter (λ x, bool_decide (key x = k)) l))) ks) = sumZ (map g l).
Proof.
  intros Hn. induction l as [|x l IH]; intros Hk.
  { clear. induction ks as [|k ks IH]; [done|]. cbn [map]. by rewrite sumZ_cons, IH. }
  cbn [map]. rewrite sumZ_cons, <- IH by set_solver. clear IH.
  set (part := λ l k, sumZ (map g (js_filter (λ y, bool_decide (key y = k)) l))).
  assert (∀ k, part (x :: l) k = (if bool_decide (key x = k) then g x else 0) + part l k) as Hp.
  { intros k. unfold part. rewrite js_filter_cons.
    destruct (decide (key x = k)); [rewrite !bool_decide_true by done|rewrite !bool_decide_false by done]; done. }
  assert (key x ∈ ks) as Hx by set_solver. clear Hk. change (sumZ (map (part (x :: l)) ks) = g x + sumZ (map (part l) ks)).
  rewrite (map_ext _ _ Hp). induction Hn as [|k ks Hnot Hn IH]; [by apply elem_of_nil in Hx|].
  cbn [map]. rewrite !sumZ_cons. destruct (decide (key x = k)) as [<-|Hne].
  - rewrite bool_decide_true by done.
    assert (map (λ k, (if bool_decide (key x = k) then g x else 0) + part l k) ks = map (part l) ks) as ->.
    { apply map_ext_in. intros k Hk%list_elem_of_In. rewrite bool_decide_false; [lia|].
      intros E. by rewrite E in Hnot. }
    lia.
  - rewrite bool_decide_false by done. apply elem_of_cons in Hx as [?|Hx]; [done|]. rewrite IH by done. lia.
Qed.

(** the fleet panel counts every sensor report once: the totals of the status
    rows, overall and summed over the breakdown by sensor, both equal the sum of
    the reported counts, and the breakdown lists each reported sensor once. *)
Theorem fleet_totals sensorHealth :
  rows_total (status_rows sensorHealth) = sumZ (map sh_count sensorHealth) ∧
  sumZ (map (λ g, rows_total g.2) (sensorBreakdown sensorHealth)) = sumZ (map sh_count sensorHealth) ∧
  map fst (sensorBreakdown sensorHealth) ≡ₚ js_unique (map sh_sensor sensorHealth).
Proof.
  assert (∀ rows, rows_total (status_rows rows) = sumZ (map sh_count rows)) as Ht.
  { intros rows. unfold rows_total, status_rows. rewrite map_map. cbn [snd]. apply sum_by_key.
    - by_compute.
    - intros x _. destruct (sh_status x); unfold SENSOR_STATES; set_solver. }
  split; [apply Ht|]. unfold sensorBreakdown. rewrite !map_map. cbn [fst snd]. rewrite map_id. split; [|apply js_sort_perm].
  rewrite (map_ext _ _ (λ sensor, Ht _)).
  apply (sum_by_key sh_sensor sh_count).
  - rewrite js_sort_perm. apply js_unique_NoDup.
  - intros x Hx. rewrite js_sort_perm. apply js_unique_elem. by apply list_elem_of_fmap_2.
Qed.

Lemma coordinates_bounds values : Z.of_nat (length values) < 2 ^ 32 → Forall counted values →
  Forall (λ p, between 20 500 p.1 ∧ between 30 150 p.2) (coordinates values).
Proof.
  intros Hl Hv. unfold coordinates. destruct (max_counted values Hv) as (m & -> & H1 & Hle).
  apply Forall_forall. intros p (i & v & -> & Hi)%elem_of_lookup_imap. cbn [fst snd].
  pose proof (lookup_lt_Some _ _ _ Hi) as Hlt. apply list_elem_of_lookup_2 in Hi. split.
  - destruct (Nat.eqb_spec (length values) 1).
    { exists (inject_Z 260). split; [done|]. rewrite <- !Zle_Qle. lia. }
    apply (shifted_between _ 0 480 20); [lia..|]. rewrite Z.max_l by lia. cbn [num_mul num_of_Z].
    apply scaled_ratio; lia.
  - rewrite Forall_forall in Hv. destruct (Hv v Hi) as (q & -> & H0). unfold num_sub.
    apply (shifted_between _ (-120) 0 150); [lia..|]. apply (opp_between _ 0 120), scaled_between; [lia|].
    apply ratio_between; [|done]. split; [done|]. by apply Hle.
Qed.
