(* ===== verification/Shell.v ===== *)
(** * The application shell

    Models frontend/src/theme/ThemeProvider.tsx and
    frontend/src/components/AppShell.tsx: the preferences kept in the browser's
    storage, the state of the shell with the events that change it and the
    requests it makes, the navigation and the breadcrumbs. What it renders is in
    ShellView.v; [t] and the settled save of a locale come from outside. *)

From S2P Require Import Prelude JsNumber JsDate Json WebStorage Url Contracts UrlState I18n Dom Report.

#[local] Open Scope list_scope.
#[local] Open Scope Z_scope.

(** ** The theme *)

Inductive Theme := Dark | Light.
#[export] Instance Theme_eq_dec : EqDecision Theme.
Proof. solve_decision. Defined.
Definition theme_name (t : Theme) : ustring := match t with Dark => u! "dark" | Light => u! "light" end.

Definition THEME_STORAGE_KEY : ustring := u! "edr.theme".
Definition DEFAULT_THEME : Theme := Dark.
Definition THEME_COLOR (t : Theme) : ustring := match t with Dark => u! "#09090b" | Light => u! "#f4f6f8" end.

Definition readStoredTheme (st : Storage) : Theme :=
  match getItem st THEME_STORAGE_KEY with
  | Some (Some s) =>
    if bool_decide (s = u! "dark") then Dark else if bool_decide (s = u! "light") then Light else DEFAULT_THEME
  | _ => DEFAULT_THEME
  end.

(** A store that fails is left as it is. *)
Definition store (st : Storage) (key value : ustring) : Storage := default st (setItem st key value).

(** What [applyTheme] sets on the document. *)
Record ThemeEffect := mkThemeEffect { lightClass : bool; colorScheme : ustring; metaScheme : ustring; metaColor : ustring }.
Definition applyTheme (theme : Theme) : ThemeEffect :=
  mkThemeEffect (bool_decide (theme = Light)) (theme_name theme) (theme_name theme) (THEME_COLOR theme).

(** ** Navigation *)

Record NavigationItem := mkNavItem { nav_to : ustring; nav_labelKey : ustring; nav_end : bool; nav_child : bool }.
Record NavigationGroup := mkNavGroup { group_labelKey : ustring; group_items : list NavigationItem }.

Definition NAVIGATION_GROUPS : list NavigationGroup :=
  [mkNavGroup (u! "navigation.groupOverview") [mkNavItem (u! "/") (u! "navigation.overview") true false];
   mkNavGroup (u! "navigation.groupTriage")
     [mkNavItem (u! "/alerts") (u! "navigation.alerts") false false;
      mkNavItem (u! "/incidents") (u! "navigation.incidents") false false];
   mkNavGroup (u! "navigation.groupEvidence")
     [mkNavItem (u! "/endpoints") (u! "navigation.endpoints") false false;
      mkNavItem (u! "/events") (u! "navigation.events") false false];
   mkNavGroup (u! "navigation.groupAnalysis")
     [mkNavItem (u! "/intelligence") (u! "navigation.intelligence") false false];
   mkNavGroup (u! "navigation.groupPlatform")
     [mkNavItem (u! "/operations") (u! "navigation.operations") true false;
      mkNavItem (u! "/operations/archives") (u! "navigation.archives") true true]].

Definition NAVIGATION_ITEMS : list NavigationItem := flat_map group_items NAVIGATION_GROUPS.

(** The links of [PrimaryNavigation]. *)
Definition navigation_links (timeScope : ustring) : list ustring :=
  map (λ item, navigationDestination (nav_to item) timeScope) NAVIGATION_ITEMS.

Record BreadcrumbItem := mkCrumb { crumb_label : ustring; crumb_to : option ustring }.

(** [replace(/s$/, "")] *)
Definition drop_final_s (s : ustring) : ustring :=
  match reverse s with 115 :: r => reverse r | _ => s end.

Definition by_length : NavigationItem → NavigationItem → comparison :=
  cmp_rev (cmp_on (λ item, Z.of_nat (length (nav_to item))) Z.compare).
Definition path_in (pathname : ustring) (item : NavigationItem) : bool :=
  bool_decide (pathname = nav_to item) || starts_with (nav_to item ++ u! "/") pathname.

Definition buildBreadcrumbs (t : ustring → ustring) (pathname : ustring) : list BreadcrumbItem :=
  if bool_decide (pathname = u! "/") then [mkCrumb (t (u! "navigation.overview")) None]
  else if bool_decide (pathname = u! "/dashboards") then [mkCrumb (t (u! "navigation.dashboards")) None]
  else if bool_decide (pathname = u! "/operations/archives") then
    [mkCrumb (t (u! "navigation.operations")) (Some (u! "/operations")); mkCrumb (t (u! "navigation.archives")) None]
  else
    match js_find (path_in pathname) (js_sort by_length NAVIGATION_ITEMS) with
    | None => [mkCrumb (t (u! "navigation.console")) None]
    | Some matched =>
      if bool_decide (pathname = nav_to matched) then [mkCrumb (t (nav_labelKey matched)) None]
      else
        let identifier := default [] (head (split_on 47 (drop (length (nav_to matched) + 1) pathname))) in
        [mkCrumb (t (nav_labelKey matched)) (Some (nav_to matched));
         mkCrumb (drop_final_s (t (nav_labelKey matched)) ++ u! " #" ++ identifier) None]
    end.

(** ** The shell *)

Definition COMPACT_KEY : ustring := u! "edr.compactNavigation".
Definition readCompactNavigation (st : Storage) : bool :=
  match getItem st COMPACT_KEY with Some (Some s) => bool_decide (s = u! "true") | _ => false end.
Definition writeCompactNavigation (st : Storage) (compact : bool) : Storage :=
  store st COMPACT_KEY (if compact then u! "true" else u! "false").

Record Location := mkLocation { pathname : ustring; loc_search : ustring }.

Record Shell := mkShell {
  localStorage : Storage;
  location : Location;
  theme : Theme;
  compact : bool;
  mobileNavigationOpen : bool;
  localeSaving : bool;
  localeError : bool;
  search : ustring;
  reportOpen : bool;
  reportSnapshot : option DashboardReportSnapshot;
  navigationTime : ustring;
  documentTitle : ustring;
}.

(** What the shell asks of its surroundings. *)
Inductive Request :=
  | SaveLocale (locale : Locale)
  | NavigateTo (url : ustring)
  | Print (title : ustring).

Section shell.
Context `{DateHost}.
Context (t : ustring → ustring).

(** The scope of a link, from the query string of the location. *)
Definition scope_of (l : Location) : option ustring := navigationTimeScope (params_of_string (loc_search l)).

Definition mount (st : Storage) (l : Location) (title : ustring) : Shell :=
  mkShell st l (readStoredTheme st) (readCompactNavigation st) false false false [] false None
    (default (u! "timePreset=LATEST_24H") (scope_of l)) title.

Definition setTheme (s : Shell) (next : Theme) : Shell :=
  mkShell (store (localStorage s) THEME_STORAGE_KEY (theme_name next)) (location s) next (compact s)
    (mobileNavigationOpen s) (localeSaving s) (localeError s) (search s) (reportOpen s) (reportSnapshot s)
    (navigationTime s) (documentTitle s).
Definition toggleTheme (s : Shell) : Shell := setTheme s (match theme s with Dark => Light | Light => Dark end).

Definition toggleCompact (s : Shell) : Shell :=
  let next := negb (compact s) in
  mkShell (writeCompactNavigation (localStorage s) next) (location s) (theme s) next (mobileNavigationOpen s)
    (localeSaving s) (localeError s) (search s) (reportOpen s) (reportSnapshot s) (navigationTime s) (documentTitle s).

(** A new location, and the effects that depend on it. *)
Definition locationChanged (s : Shell) (l : Location) : Shell :=
  mkShell (localStorage s) l (theme s) (compact s)
    (if bool_decide (pathname l = pathname (location s)) then mobileNavigationOpen s else false)
    (localeSaving s) (localeError s) (search s) (reportOpen s) (reportSnapshot s)
    (if bool_decide (loc_search l = loc_search (location s)) then navigationTime s
     else default (navigationTime s) (match scope_of l with Some n => if truthy n then Some n else None | None => None end))
    (documentTitle s).

Definition setMobile (s : Shell) (open : bool) : Shell :=
  mkShell (localStorage s) (location s) (theme s) (compact s) open (localeSaving s) (localeError s) (search s)
    (reportOpen s) (reportSnapshot s) (navigationTime s) (documentTitle s).

Definition setLocaleState (s : Shell) (saving error : bool) : Shell :=
  mkShell (localStorage s) (location s) (theme s) (compact s) (mobileNavigationOpen s) saving error (search s)
    (reportOpen s) (reportSnapshot s) (navigationTime s) (documentTitle s).

(** [changeLocale] up to its [await], and after it: [ok] tells whether the save succeeded. *)
Definition changeLocale (locale : Locale) (s : Shell) (nextLocale : Locale) : Shell * list Request :=
  if bool_decide (nextLocale = locale) || localeSaving s then (s, [])
  else (setLocaleState s true false, [SaveLocale nextLocale]).
Definition localeSettled (s : Shell) (ok : bool) : Shell :=
  setLocaleState s false (if ok then localeError s else true).

Definition setSearch (s : Shell) (value : ustring) : Shell :=
  mkShell (localStorage s) (location s) (theme s) (compact s) (mobileNavigationOpen s) (localeSaving s) (localeError s)
    value (reportOpen s) (reportSnapshot s) (navigationTime s) (documentTitle s).

(** [/^[1-9]\d*$/] *)
Definition positive_decimal (value : ustring) : bool :=
  match value with
  | c :: r => (49 <=? c) && (c <=? 57) && forallb is_digit r
  | [] => false
  end.

Definition search_params (value : ustring) : URLSearchParams :=
  if positive_decimal value then params_set (u! "endpointId") value [] else params_set (u! "processName") value [].

Definition submitSearch (s : Shell) : list Request :=
  let value := trim (search s) in
  if truthy value then [NavigateTo (u! "/events?" ++ params_string (search_params value))] else [].

Definition setReport (s : Shell) (open : bool) (snapshot : option DashboardReportSnapshot) : Shell :=
  mkShell (localStorage s) (location s) (theme s) (compact s) (mobileNavigationOpen s) (localeSaving s) (localeError s)
    (search s) open snapshot (navigationTime s) (documentTitle s).

Definition pageTitleText (l : Location) : ustring :=
  default (t (u! "navigation.console")) (crumb_label <$> last (buildBreadcrumbs t (pathname l))).

(** [user] is the name and the role of the user; [root] the rendered page. *)
Definition openReport (now : Z) (root : option located) (user : option (ustring * ustring)) (s : Shell) : Shell :=
  setReport s true (Some (collectDashboardReport now root
    (mkPartial None (Some (default (u! "—") (fst <$> user))) (Some (pageTitleText (location s)))
       (Some (pathname (location s))) (Some (loc_search (location s))) (Some (default (u! "—") (snd <$> user)))))).

Definition setTitle (s : Shell) (title : ustring) : Shell :=
  mkShell (localStorage s) (location s) (theme s) (compact s) (mobileNavigationOpen s) (localeSaving s) (localeError s)
    (search s) (reportOpen s) (reportSnapshot s) (navigationTime s) title.

(** The title is set for the time of the print and set back, also when [print] throws;
    an invalid date throws before it is set. *)
Definition printReport (s : Shell) : Shell * list Request :=
  match reportSnapshot s with
  | Some snapshot =>
    match ctx_generatedAt (snap_context snapshot) with
    | Some at_ =>
      let during := setTitle s (SERVICE_NAME ++ u! " - " ++ ctx_pageTitle (snap_context snapshot) ++ u! " - " ++
                                slice0 10 (toISOString at_)) in
      (setTitle during (documentTitle s), [Print (documentTitle during)])
    | None => (s, [])
    end
  | None => (s, [])
  end.

Inductive ShellEvent :=
  | ToggleTheme | ToggleCompact
  | Located (l : Location)
  | MobileNavigation (open : bool)
  | ChangeLocale (current next : Locale) | LocaleSettled (ok : bool)
  | TypeSearch (value : ustring) | SubmitSearch
  | OpenReport (now : Z) (root : option located) (user : option (ustring * ustring)) | CloseReport | PrintReport.

Definition step (s : Shell) (e : ShellEvent) : Shell * list Request :=
  match e with
  | ToggleTheme => (toggleTheme s, [])
  | ToggleCompact => (toggleCompact s, [])
  | Located l => (locationChanged s l, [])
  | MobileNavigation open => (setMobile s open, [])
  | ChangeLocale current next => changeLocale current s next
  | LocaleSettled ok => (localeSettled s ok, [])
  | TypeSearch value => (setSearch s value, [])
  | SubmitSearch => (s, submitSearch s)
  | OpenReport now root user => (openReport now root user s, [])
  | CloseReport => (setReport s false (reportSnapshot s), [])
  | PrintReport => printReport s
  end.

(** A run: the state after the events, with the requests made on the way. *)
Fixpoint run (s : Shell) (es : list ShellEvent) : Shell * list Request :=
  match es with
  | [] => (s, [])
  | e :: es => let '(s1, rs) := step s e in let '(s2, rs') := run s1 es in (s2, rs ++ rs')
  end.
End shell.

(** ** Lemmas: preferences *)

Lemma store_reliable st k v : reliable st → reliable (store st k v).
Proof.
  intros Hr. unfold store. destruct (setItem st k v) eqn:E; cbn; [|done]. by eapply setItem_reliable.
Qed.

Lemma getItem_store st k v k' : reliable st →
  getItem (store st k v) k' = Some (if decide (k' = k) then Some v else map_get k' (items st)).
Proof.
  intros [Hg Hs]. unfold store, setItem. rewrite Hs. cbn. unfold getItem. cbn. rewrite Hg. by rewrite map_get_set.
Qed.

Lemma getItem_reliable st k : reliable st → getItem st k = Some (map_get k (items st)).
Proof. intros [Hg _]. unfold getItem. by rewrite Hg. Qed.

Lemma theme_stored st next : reliable st →
  readStoredTheme (store st THEME_STORAGE_KEY (theme_name next)) = next ∧
  readCompactNavigation (store st THEME_STORAGE_KEY (theme_name next)) = readCompactNavigation st.
Proof.
  intros Hr. unfold readStoredTheme, readCompactNavigation. rewrite !getItem_store, getItem_reliable by done.
  rewrite decide_True by done. rewrite decide_False by (vm_compute; discriminate). split; [|done].
  destruct next; [by rewrite bool_decide_true|].
  rewrite bool_decide_false by (vm_compute; discriminate). by rewrite bool_decide_true.
Qed.

Lemma compact_stored st next : reliable st →
  readCompactNavigation (writeCompactNavigation st next) = next ∧
  readStoredTheme (writeCompactNavigation st next) = readStoredTheme st.
Proof.
  intros Hr. unfold writeCompactNavigation, readStoredTheme, readCompactNavigation.
  rewrite !getItem_store, getItem_reliable by done.
  rewrite decide_True by done. rewrite decide_False by (vm_compute; discriminate). split; [|done].
  destruct next; [by rewrite bool_decide_true|]. apply bool_decide_false. vm_compute. discriminate.
Qed.

(** ** The invariant of the shell *)

Section invariant.
Context `{DateHost} (t : ustring → ustring).

Record shell_ok (title : ustring) (s : Shell) : Prop := {
  ok_store : reliable (localStorage s);
  ok_theme : readStoredTheme (localStorage s) = theme s;
  ok_compact : readCompactNavigation (localStorage s) = compact s;
  ok_time : tf_valid (readTimeFilter (params_of_string (navigationTime s))) = true;
  ok_report : reportOpen s = true → is_Some (reportSnapshot s);
  ok_title : documentTitle s = title;
}.

(** The query strings of locations are sequences of code units. *)
Definition event_ok (e : ShellEvent) : Prop := match e with Located l => units_ok (loc_search l) | _ => True end.

Lemma scope_valid l scope : units_ok (loc_search l) → scope_of l = Some scope →
  tf_valid (readTimeFilter (params_of_string scope)) = true.
Proof. intros Hu Hs. apply (scope_restores (params_of_string (loc_search l))); [by apply params_of_string_ok|done]. Qed.

Lemma default_scope_valid : tf_valid (readTimeFilter (params_of_string (u! "timePreset=LATEST_24H"))) = true.
Proof. vm_compute. reflexivity. Qed.

Lemma mount_ok st l title : reliable st → units_ok (loc_search l) → shell_ok title (mount st l title).
Proof.
  intros Hr Hu. split; try done. cbn. destruct (scope_of l) eqn:E; [by eapply scope_valid|apply default_scope_valid].
Qed.

Lemma shell_step_ok title s e : event_ok e → shell_ok title s → shell_ok title (step t s e).1.
Proof.
  intros He [Hst Hth Hco Hti Hre Htt]. destruct e as [| |l|open|current next|ok|value| |now root user| |]; cbn [step fst].
  - destruct (theme_stored (localStorage s) (match theme s with Dark => Light | Light => Dark end) Hst) as [H1 H2].
    split; try done; [by apply store_reliable|]. cbn. by rewrite H2.
  - destruct (compact_stored (localStorage s) (negb (compact s)) Hst) as [H1 H2].
    split; try done; [by apply store_reliable|]. cbn. by rewrite H2.
  - split; try done. cbn. destruct (bool_decide _); [done|]. destruct (scope_of l) as [n|] eqn:E; [|done].
    destruct (truthy n); [|done]. by eapply scope_valid.
  - by split.
  - unfold changeLocale. destruct (_ || _); by split.
  - by split.
  - by split.
  - by split.
  - split; try done.
  - split; try done.
  - unfold printReport. destruct (reportSnapshot s) as [snap|] eqn:E; [destruct (ctx_generatedAt (snap_context snap))|];
      split; cbn; rewrite ?E; done.
Qed.

Lemma run_ok title es s : Forall event_ok es → shell_ok title s → shell_ok title (run t s es).1.
Proof.
  intros He. revert s. induction He as [|e es He _ IH]; intros s Hs; [done|]. cbn.
  pose proof (shell_step_ok title s e He Hs) as H1. destruct (step t s e) as [s1 rs]. specialize (IH s1 H1).
  by destruct (run t s1 es).
Qed.

(** C14: in every run of the shell on a storage that does not fail, a reload at any
    location would find the theme and the navigation width of the page again; the
    time scope carried by the navigation links is always a valid filter; an open
    report has a snapshot to show; and printing leaves the document's title as it
    was. *)
Theorem shell_run_invariant st l title es l' title' :
  reliable st → units_ok (loc_search l) → Forall event_ok es →
  let s := (run t (mount st l title) es).1 in
  theme (mount (localStorage s) l' title') = theme s ∧
  compact (mount (localStorage s) l' title') = compact s ∧
  tf_valid (readTimeFilter (params_of_string (navigationTime s))) = true ∧
  (reportOpen s = true → is_Some (reportSnapshot s)) ∧
  documentTitle s = title.
Proof.
  intros Hr Hu He s. destruct (run_ok title es _ He (mount_ok st l title Hr Hu)) as [? ? ? ? ? ?]. by split_and!.
Qed.

(** *** Saving the locale *)

Definition is_save (r : Request) : bool := match r with SaveLocale _ => true | _ => false end.
Definition saves (rs : list Request) : nat := length (js_filter is_save rs).
Definition is_settled (e : ShellEvent) : bool := match e with LocaleSettled _ => true | _ => false end.

(** A save settles only while one is under way. *)
Fixpoint settles_pending (s : Shell) (es : list ShellEvent) : Prop :=
  match es with
  | [] => True
  | e :: es => (is_settled e = true → localeSaving s = true) ∧ settles_pending (step t s e).1 es
  end.

Definition pending (s : Shell) : nat := if localeSaving s then 1 else 0.

Lemma step_saves s e : (is_settled e = true → localeSaving s = true) →
  (pending s + saves (step t s e).2 = (if is_settled e then 1 else 0) + pending (step t s e).1)%nat.
Proof.
  intros Hp. unfold pending. destruct e; cbn in *; try (destruct (localeSaving s); done).
  - unfold changeLocale. destruct (localeSaving s) eqn:E; [rewrite orb_true_r; cbn; by rewrite E|].
    rewrite orb_false_r. destruct (bool_decide _); cbn; [by rewrite E|done].
  - by rewrite Hp.
  - unfold submitSearch. destruct (truthy _), (localeSaving s); done.
  - unfold printReport. destruct (reportSnapshot s) as [snap|]; [destruct (ctx_generatedAt (snap_context snap))|]; cbn;
      by destruct (localeSaving s).
Qed.

Lemma run_saves es s : settles_pending s es →
  (pending s + saves (run t s es).2 = length (js_filter is_settled es) + pending (run t s es).1)%nat.
Proof.
  revert s. induction es as [|e es IH]; intros s Hp; [done|]. destruct Hp as [He Hp].
  pose proof (step_saves s e He) as H1. cbn [run]. destruct (step t s e) as [s1 rs]. specialize (IH s1 Hp).
  destruct (run t s1 es) as [s2 rs']. cbn [fst snd] in *. unfold saves in *. rewrite js_filter_cons.
  unfold js_filter in *. rewrite List.filter_app, length_app. destruct (is_settled e); cbn [length]; lia.
Qed.

(** at most one change of locale is being saved at any time: over every run in
    which saves settle only when under way, the number of saves requested is the
    number settled, plus one exactly while the control is locked. *)
Theorem locale_saves_serialised st l title es :
  settles_pending (mount st l title) es →
  saves (run t (mount st l title) es).2 =
  (length (js_filter is_settled es) + pending (run t (mount st l title) es).1)%nat.
Proof. apply run_saves. Qed.
End invariant.

Definition sample_storage : Storage := mkStorage [] false (λ _ _, false).
Definition sample_location : Location := mkLocation (u! "/alerts/7") (u! "?timePreset=LATEST_1H&page=2").
Definition sample_events : list ShellEvent :=
  [ToggleTheme; ToggleCompact; ChangeLocale EN KO; ChangeLocale EN KO; LocaleSettled false; OpenReport 0 None None; PrintReport].

Lemma shell_run_invariant_witness :
  theme (mount (H := utc_host) (localStorage (run (H := utc_host) id (mount (H := utc_host) sample_storage sample_location []) sample_events).1)
           sample_location []) = Light.
Proof.
  destruct (shell_run_invariant (H := utc_host) id sample_storage sample_location [] sample_events sample_location [])
    as (E & _).
  - split; [reflexivity|intros; reflexivity].
  - by_compute.
  - unfold sample_events. repeat constructor.
  - rewrite E. vm_compute. reflexivity.
Defined.

Lemma locale_saves_serialised_witness :
  saves (run (H := utc_host) id (mount (H := utc_host) sample_storage sample_location []) sample_events).2 = 1%nat.
Proof.
  rewrite (locale_saves_serialised (H := utc_host) id sample_storage sample_location [] sample_events).
  - vm_compute. reflexivity.
  - cbn. repeat split; discriminate || reflexivity.
Defined.

(** ** The search field *)

Lemma params_set_nil k v : params_set k v [] = [(usv k, usv v)].
Proof. done. Qed.

Lemma positive_decimal_digits value : positive_decimal value = true → Forall (λ c, is_digit c = true) value ∧ value ≠ [].
Proof.
  destruct value as [|c r]; [done|]. cbn. rewrite !andb_true_iff. intros [[H1 H2] H3]. split; [|done]. constructor.
  - unfold is_digit. apply Z.leb_le in H1, H2. apply andb_true_iff. split; apply Z.leb_le; lia.
  - apply Forall_forall. rewrite forallb_elem in H3. exact H3.
Qed.

(** what is searched for arrives at the events page: a nonempty search makes
    exactly one request, for the events page; parsed there, its query has the
    trimmed text as the endpoint id when it is a positive decimal number, and as
    the process name otherwise, and no other parameter. *)
Theorem submitSearch_roundtrip (s : Shell) : units_ok (search s) →
  let value := trim (search s) in
  (value = [] → submitSearch s = []) ∧
  (value ≠ [] → ∃ query, submitSearch s = [NavigateTo (u! "/events?" ++ query)] ∧
     params_of_string query =
       [(if positive_decimal value then u! "endpointId" else u! "processName", usv value)] ∧
     (positive_decimal value = true → usv value = value)).
Proof.
  intros Hu value. unfold submitSearch. fold value. split; [by intros ->|]. intros Hv.
  rewrite (proj2 (truthy_true value)) by done. eexists. split; [done|].
  assert (units_ok value) as Huv.
  { unfold units_ok, value, trim. destruct (trim_start_suffix (search s)) as (k & Hk & _).
    destruct (trim_end_prefix (trim_start (search s))) as [k' Hk'].
    rewrite Hk in Hu. apply Forall_app in Hu as [_ Hu]. rewrite Hk' in Hu. by apply Forall_app in Hu as [? _]. }
  assert (params_ok (search_params value)) as Hok.
  { unfold search_params. destruct (positive_decimal value); apply params_ok_set; try done;
      try (by constructor); by_compute. }
  rewrite (proj1 (params_of_string_string _ Hok)). split.
  - unfold search_params. rewrite !params_set_nil.
    destruct (positive_decimal value); f_equal; f_equal; vm_compute; reflexivity.
  - intros [Hd _]%positive_decimal_digits. by apply usv_lit_units, digits_ascii.
Qed.

Lemma submitSearch_roundtrip_witness :
  let s := setSearch (mount (H := utc_host) sample_storage sample_location []) (u! " 42 ") in
  units_ok (search s) ∧ ∃ query, submitSearch s = [NavigateTo (u! "/events?" ++ query)].
Proof.
  cbn zeta. assert (units_ok (search (setSearch (mount (H := utc_host) sample_storage sample_location []) (u! " 42 ")))) as Hu
    by (by_compute).
  split; [exact Hu|].
  destruct (submitSearch_roundtrip _ Hu) as [_ Hn]. destruct Hn as (q & Hq & _); [vm_compute; discriminate|].
  exists q. exact Hq.
Defined.

(** ** Breadcrumbs *)

Lemma starts_with_app p s : starts_with p s = true ↔ ∃ r, s = p ++ r.
Proof.
  revert s. induction p as [|c p IH]; intros s; cbn; [split; [eauto|done]|].
  destruct s as [|d s]; [split; [done|intros [r E]; discriminate]|].
  rewrite andb_true_iff, IH. split.
  - intros [E [r ->]]. exists r. apply Z.eqb_eq in E. by subst.
  - intros [r [= -> ->]]. split; [apply Z.eqb_refl|eauto].
Qed.

(** the breadcrumbs are never empty, end with the current page, which is not a
    link, and have at most one entry before it, a link to a page of the navigation
    that the current path lies below. *)
Theorem breadcrumbs_spec t pathname :
  ∃ parents current, buildBreadcrumbs t pathname = parents ++ [mkCrumb current None] ∧
    (parents = [] ∨ ∃ item rest, parents = [mkCrumb (t (nav_labelKey item)) (Some (nav_to item))] ∧
       item ∈ NAVIGATION_ITEMS ∧ pathname = nav_to item ++ u! "/" ++ rest).
Proof.
  unfold buildBreadcrumbs.
  destruct (bool_decide _); [by eexists [], _; split; [|left]|].
  destruct (bool_decide _); [by eexists [], _; split; [|left]|].
  destruct (bool_decide_reflect (pathname = u! "/operations/archives")) as [->|_].
  { eexists [_], _. split; [done|]. right.
    exists (mkNavItem (u! "/operations") (u! "navigation.operations") true false), (u! "archives"). split; [done|].
    split; [|vm_compute; reflexivity]. unfold NAVIGATION_ITEMS, NAVIGATION_GROUPS. cbn [flat_map group_items app]. do 6 right. left. }
  destruct (js_find _ _) as [matched|] eqn:E; [|by eexists [], _; split; [|left]].
  apply js_find_Some in E as [Hin Hp]. rewrite js_sort_perm in Hin.
  destruct (bool_decide_reflect (pathname = nav_to matched)) as [->|Hne]; [by eexists [], _; split; [|left]|].
  eexists [_], _. split; [done|]. right. unfold path_in in Hp. rewrite bool_decide_false in Hp by done.
  apply starts_with_app in Hp as [rest ->]. exists matched, rest. split; [done|]. split; [done|]. by rewrite <- app_assoc.
Qed.
