(* ===== verification/ListPages.v ===== *)
(** * The list pages

    Models the query strings of frontend/src/pages/{AlertsPage,EndpointsPage,
    EventsPage,IncidentsPage,ArchivesPage}.tsx: what each page refuses, the query
    it sends, how sorting rewrites the query string, and the archive page's dates
    and restore request. Fetching and markup are not modelled. *)

From S2P Require Import Prelude JsNumber JsDate Json Url Contracts UrlState Auth.

#[local] Open Scope list_scope.
#[local] Open Scope Z_scope.

Inductive EndpointSortBy := EndpointSort_riskScore | EndpointSort_lastSeenAt | EndpointSort_registeredAt.
#[export] Instance EndpointSortBy_eq_dec : EqDecision EndpointSortBy.
Proof. solve_decision. Defined.
#[export] Instance EndpointSortBy_literal : Literal EndpointSortBy.
Proof.
  refine {| lit_name o := match o with EndpointSort_riskScore => u! "riskScore" | EndpointSort_lastSeenAt => u! "lastSeenAt"
                                     | EndpointSort_registeredAt => u! "registeredAt" end;
            lit_values := [EndpointSort_riskScore; EndpointSort_lastSeenAt; EndpointSort_registeredAt] |}; literal_laws.
Defined.

Definition ALERT_STATUSES : list AlertStatus := [Alert_OPEN; Alert_IN_PROGRESS; Alert_RESOLVED].
Definition SEVERITIES : list Severity := [Severity_LOW; Severity_MEDIUM; Severity_HIGH; Severity_CRITICAL].
Definition ALERT_SORT_FIELDS : list AlertSortBy :=
  [AlertSort_priority; AlertSort_detectedAt; AlertSort_severity; AlertSort_riskScore; AlertSort_status].
Definition SORT_ORDERS : list SortOrder := [Order_asc; Order_desc].
Definition ENDPOINT_STATUSES : list EndpointStatus := [Endpoint_ONLINE; Endpoint_OFFLINE; Endpoint_RETIRED].
Definition OS_TYPES : list OsType := [Os_WINDOWS; Os_MACOS].
Definition ENDPOINT_RISK_LEVELS : list RiskLevel := [Risk_LOW; Risk_MEDIUM; Risk_HIGH; Risk_CRITICAL].
Definition ENDPOINT_SORT_FIELDS : list EndpointSortBy :=
  [EndpointSort_riskScore; EndpointSort_lastSeenAt; EndpointSort_registeredAt].
Definition EVENT_TYPES : list EventType :=
  [Ev_PROCESS_EXECUTION; Ev_NETWORK_CONNECTION; Ev_FILE_EVENT; Ev_DNS_QUERY; Ev_L7_EVENT].
Definition DETAIL_FILTERS : list ustring :=
  [u! "processName"; u! "filePath"; u! "domain"; u! "remoteIp"; u! "dnsQuery"; u! "l7Protocol"].
Definition INCIDENT_STATUSES : list IncidentStatus := [Incident_OPEN; Incident_CLOSED].

(** A filter read from the query, and whether its text is refused. *)
Definition enum_param `{Literal A} (params : URLSearchParams) (key : ustring) (allowed : list A) : option A :=
  allowedValue (params_get params key) allowed.
Definition enum_invalid `{Literal A} (params : URLSearchParams) (key : ustring) (allowed : list A) : bool :=
  hasInvalidEnum params key (map lit_name allowed).
Definition order_of (params : URLSearchParams) : SortOrder :=
  default Order_desc (enum_param params (u! "sortOrder") SORT_ORDERS).
(** A text filter: trimmed, and left out when empty. *)
Definition text_param (params : URLSearchParams) (key : ustring) : option ustring :=
  let value := trim (stringParam params key []) in if truthy value then Some value else None.
Definition page_of (params : URLSearchParams) : Z := numberParam params (u! "page") 1.
Definition size_of (params : URLSearchParams) : Z := numberParam params (u! "size") 50.
Definition flip (order : SortOrder) : SortOrder := match order with Order_desc => Order_asc | Order_asc => Order_desc end.

Section pages.
Context `{DateHost}.

(** ** Alerts *)

Definition alerts_invalid (params : URLSearchParams) : bool :=
  negb (tf_valid (readTimeFilter params))
  || enum_invalid params (u! "status") ALERT_STATUSES
  || enum_invalid params (u! "severity") SEVERITIES
  || enum_invalid params (u! "sortBy") ALERT_SORT_FIELDS
  || enum_invalid params (u! "sortOrder") SORT_ORDERS
  || hasInvalidPositiveInteger params (u! "endpointId")
  || hasInvalidPagination params.

Definition alerts_sortBy (params : URLSearchParams) : AlertSortBy :=
  default AlertSort_priority (enum_param params (u! "sortBy") ALERT_SORT_FIELDS).

Definition alerts_query (params : URLSearchParams) : AlertListQuery :=
  mkAlertListQuery (tf_query (readTimeFilter params)) (page_of params) (size_of params)
    (alerts_sortBy params) (order_of params)
    (enum_param params (u! "status") ALERT_STATUSES) (enum_param params (u! "severity") SEVERITIES)
    (positiveInteger (params_get params (u! "endpointId"))) (text_param params (u! "ruleCode")).

Definition alerts_updateSort (params : URLSearchParams) (nextSortBy : AlertSortBy) : URLSearchParams :=
  let nextOrder := if bool_decide (alerts_sortBy params = nextSortBy) && bool_decide (order_of params = Order_desc)
                   then Order_asc else Order_desc in
  updateParams params [(u! "sortBy", PText (lit_name nextSortBy)); (u! "sortOrder", PText (lit_name nextOrder))] true.

(** ** Endpoints *)

Record EndpointListQuery := mkEndpointListQuery {
  eq_page : Z; eq_size : Z; eq_sortBy : EndpointSortBy; eq_sortOrder : SortOrder;
  eq_q : option ustring; eq_status : option EndpointStatus; eq_osType : option OsType;
  eq_riskLevel : option RiskLevel; eq_endpointIds : option (list Z);
}.

(** [/^\s*[1-9]\d*\s*$/] *)
Definition id_token (token : ustring) : bool :=
  match trim token with
  | c :: r => (49 <=? c) && (c <=? 57) && forallb is_digit r
  | [] => false
  end.

Definition raw_endpointIds (params : URLSearchParams) : ustring := default [] (params_get params (u! "endpointIds")).
Definition invalidEndpointIds (raw : ustring) : bool := truthy raw && js_some (λ token, negb (id_token token)) (split_on 44 raw).

Definition endpoints_invalid (params : URLSearchParams) : bool :=
  enum_invalid params (u! "status") ENDPOINT_STATUSES
  || enum_invalid params (u! "osType") OS_TYPES
  || enum_invalid params (u! "riskLevel") ENDPOINT_RISK_LEVELS
  || enum_invalid params (u! "sortBy") ENDPOINT_SORT_FIELDS
  || enum_invalid params (u! "sortOrder") SORT_ORDERS
  || hasInvalidText params (u! "q") 128
  || invalidEndpointIds (raw_endpointIds params)
  || hasInvalidPagination params.

Definition endpoints_sortBy (params : URLSearchParams) : EndpointSortBy :=
  default EndpointSort_riskScore (enum_param params (u! "sortBy") ENDPOINT_SORT_FIELDS).

Definition endpoints_query (params : URLSearchParams) : EndpointListQuery :=
  let endpointIds := parseEndpointIds (Some (raw_endpointIds params)) in
  mkEndpointListQuery (page_of params) (size_of params) (endpoints_sortBy params) (order_of params)
    (text_param params (u! "q")) (enum_param params (u! "status") ENDPOINT_STATUSES)
    (enum_param params (u! "osType") OS_TYPES) (enum_param params (u! "riskLevel") ENDPOINT_RISK_LEVELS)
    (match endpointIds with [] => None | _ => Some endpointIds end).

Definition endpoints_updateSort (params : URLSearchParams) (nextSortBy : EndpointSortBy) : URLSearchParams :=
  let nextOrder := if bool_decide (endpoints_sortBy params = nextSortBy) && bool_decide (order_of params = Order_desc)
                   then Order_asc else Order_desc in
  updateParams params [(u! "sortBy", PText (lit_name nextSortBy)); (u! "sortOrder", PText (lit_name nextOrder))] true.

(** ** Events *)

Record EventListQuery := mkEventListQuery {
  vq_time : DashboardTimeQuery; vq_page : Z; vq_size : Z; vq_sortOrder : SortOrder;
  vq_eventType : option EventType; vq_endpointId : option Z;
  vq_details : list (ustring * ustring);
}.

Definition events_invalid (params : URLSearchParams) : bool :=
  negb (tf_valid (readTimeFilter params))
  || enum_invalid params (u! "eventType") EVENT_TYPES
  || enum_invalid params (u! "sortOrder") SORT_ORDERS
  || hasInvalidPositiveInteger params (u! "endpointId")
  || hasInvalidPagination params.

Definition events_query (params : URLSearchParams) : EventListQuery :=
  mkEventListQuery (tf_query (readTimeFilter params)) (page_of params) (size_of params) (order_of params)
    (enum_param params (u! "eventType") EVENT_TYPES) (positiveInteger (params_get params (u! "endpointId")))
    (omap (λ field, pair field <$> text_param params field) DETAIL_FILTERS).

(** ** Incidents *)

(** The status may be left out of the list's query. *)
Record IncidentsPageQuery := mkIncidentsPageQuery {
  pq_time : DashboardTimeQuery; pq_page : Z; pq_size : Z; pq_sortOrder : SortOrder;
  pq_status : option IncidentStatus; pq_severity : option Severity; pq_endpointId : option Z;
}.

Definition incidents_invalid (params : URLSearchParams) : bool :=
  negb (tf_valid (readTimeFilter params))
  || enum_invalid params (u! "status") INCIDENT_STATUSES
  || enum_invalid params (u! "severity") SEVERITIES
  || enum_invalid params (u! "sortOrder") SORT_ORDERS
  || hasInvalidPositiveInteger params (u! "endpointId")
  || hasInvalidPagination params.

Definition incidents_query (params : URLSearchParams) : IncidentsPageQuery :=
  mkIncidentsPageQuery (tf_query (readTimeFilter params)) (page_of params) (size_of params) (order_of params)
    (enum_param params (u! "status") INCIDENT_STATUSES) (enum_param params (u! "severity") SEVERITIES)
    (positiveInteger (params_get params (u! "endpointId"))).

(** The order switch of the event and incident lists. *)
Definition toggleOrder (params : URLSearchParams) : URLSearchParams :=
  updateParams params [(u! "sortOrder", PText (lit_name (flip (order_of params))))] true.

(** The "last seven days" of an empty result. *)
Definition latest7Days (params : URLSearchParams) : URLSearchParams :=
  updateParams params [(u! "timePreset", PText (u! "LATEST_7D")); (u! "from", PNull); (u! "to", PNull); (u! "page", PNull)] true.

(** ** Archives *)

(** The page's own reading of the ids, without the limit of [parseEndpointIds]. *)
Definition archive_endpointIds (raw : ustring) : list Z :=
  js_unique (omap (λ token, positive_int (number_of (trim token))) (split_on 44 raw)).
Definition endpointIdsValid (raw : ustring) : bool := truthy raw && forallb id_token (split_on 44 raw).

Definition validRange (from to : ustring) : bool :=
  truthy from && truthy to &&
  match Date_parse from, Date_parse to with
  | Some f, Some t => (f <? t) && (t - f <=? 31 * 86400000)
  | _, _ => false
  end.

Record ArchiveRestoreListQuery := mkArchiveQuery {
  rq_endpointIds : list Z; rq_from : ustring; rq_to : ustring; rq_page : Z; rq_size : Z;
}.
Record ArchivesPage := mkArchives { hasCriteria : bool; ready : bool; invalid : bool; archive_query : ArchiveRestoreListQuery }.

Definition readArchives (params : URLSearchParams) : ArchivesPage :=
  let raw := raw_endpointIds params in
  let from := stringParam params (u! "from") [] in
  let to := stringParam params (u! "to") [] in
  let endpointIds := archive_endpointIds raw in
  let hasCriteria := truthy raw || truthy from || truthy to in
  let ready := endpointIdsValid raw && negb (Nat.eqb (length endpointIds) 0) && validRange from to &&
               negb (hasInvalidPagination params) in
  mkArchives hasCriteria ready (hasCriteria && negb ready)
    (mkArchiveQuery endpointIds from to (page_of params) (size_of params)).

Record ArchiveRestoreRequest := mkRestore { restore_endpointIds : list Z; restore_from : ustring; restore_to : ustring }.

(** The request behind the restore button, which is there when it may be made. *)
Definition restore_request (params : URLSearchParams) (role : option UserRole) : option ArchiveRestoreRequest :=
  let page := readArchives params in
  let writeAllowed := match role with Some r => canMutate r | None => false end in
  if ready page && writeAllowed
  then Some (mkRestore (rq_endpointIds (archive_query page)) (rq_from (archive_query page)) (rq_to (archive_query page)))
  else None.

(** [/^(\d{4})-(\d{2})-(\d{2}) (\d{2}):(\d{2})$/] with the blank replaced by [T]. *)
Definition archive_local (value : ustring) : option ustring :=
  match value with
  | [y1; y2; y3; y4; 45; m1; m2; 45; d1; d2; 32; h1; h2; 58; n1; n2] =>
    if forallb is_digit [y1; y2; y3; y4; m1; m2; d1; d2; h1; h2; n1; n2]
    then Some [y1; y2; y3; y4; 45; m1; m2; 45; d1; d2; 84; h1; h2; 58; n1; n2] else None
  | _ => None
  end.

Definition utcFromArchiveText (value : ustring) : option ustring :=
  let trimmed := trim value in
  if truthy trimmed then
    localValue ← archive_local trimmed;
    iso ← iso_of_string localValue;
    if bool_decide (localDateTimeValue iso = Some localValue) then utcFromLocal localValue else None
  else None.

(** What leaving the field does: it shows an error, or commits a time or none. *)
Inductive Commit := Refused | Committed (value : option ustring).
Definition commitArchiveDate (value : ustring) : Commit :=
  if truthy (trim value) then
    match utcFromArchiveText value with
    | Some parsed => if truthy parsed then Committed (Some parsed) else Refused
    | None => Refused
    end
  else Committed None.

(** The text the field starts with: [localDateTimeValue(timestamp).replace("T", " ")]. *)
Fixpoint replace_first_T (s : ustring) : ustring :=
  match s with
  | c :: r => if c =? 84 then 32 :: r else c :: replace_first_T r
  | [] => []
  end.
Definition archiveFieldText (timestamp : ustring) : option ustring :=
  if truthy timestamp then replace_first_T <$> localDateTimeValue timestamp else Some [].
End pages.

(** ** Lemmas: filters *)

Lemma enum_kept `{Literal A} params key (allowed : list A) :
  enum_invalid params key allowed = false → lit_name <$> enum_param params key allowed = params_get params key.
Proof.
  unfold enum_invalid, hasInvalidEnum, enum_param, allowedValue. destruct (params_get params key) as [v|]; [|done].
  intros Hv%negb_false_iff%str_in_true. apply list_elem_of_fmap in Hv as (a & -> & Ha). cbn.
  rewrite (proj2 (lit_find_Some allowed (lit_name a) a)) by done. done.
Qed.

Lemma positive_kept params key : hasInvalidPositiveInteger params key = false →
  match params_get params key with
  | None => positiveInteger (params_get params key) = None
  | Some v => ∃ n, to_integer (number_of v) = Some n ∧ 0 < n ∧ positiveInteger (params_get params key) = Some n
  end.
Proof.
  unfold hasInvalidPositiveInteger, positiveInteger. destruct (params_get params key) as [v|]; [|by vm_compute].
  cbn [number_of_opt]. unfold positive_int. destruct (to_integer (number_of v)) as [n|]; [|done].
  intros Hn%Z.leb_gt. exists n. split; [done|]. split; [done|]. by rewrite (proj2 (Z.ltb_lt 0 n)).
Qed.

Lemma page_positive params : 1 ≤ page_of params.
Proof.
  unfold page_of, numberParam. destruct (positive_int _) eqn:E; cbn; [|lia]. apply positive_int_pos in E. lia.
Qed.

Lemma pagination_kept params : hasInvalidPagination params = false → 1 ≤ page_of params ∧ 1 ≤ size_of params ≤ 200.
Proof.
  unfold hasInvalidPagination. intros [_ Hs]%orb_false_iff. split; [apply page_positive|].
  unfold size_of, numberParam, positive_int. destruct (params_get params (u! "size")) as [v|].
  - cbn [number_of_opt]. destruct (to_integer (number_of v)) as [n|]; [|done].
    apply orb_false_iff in Hs as [H1%Z.ltb_ge H2%Z.ltb_ge]. rewrite (proj2 (Z.ltb_lt 0 n)) by lia. cbn. lia.
  - cbn [number_of_opt]. vm_compute. split; discriminate.
Qed.

(** Splits the refusals of a page. *)
Ltac split_valid := repeat match goal with
  | H : _ || _ = false |- _ => apply orb_false_iff in H as [H ?]
  | H : negb _ = false |- _ => apply negb_false_iff in H
  end.

(** What a filter on an identifier sends. *)
Definition id_kept (params : URLSearchParams) (sent : option Z) : Prop :=
  match params_get params (u! "endpointId") with
  | None => sent = None
  | Some v => ∃ n, to_integer (number_of v) = Some n ∧ 0 < n ∧ sent = Some n
  end.

(** What a number, a text, the range of time and the ids of endpoints send. *)
Definition number_kept (params : URLSearchParams) (key : ustring) (fallback sent : Z) : Prop :=
  match params_get params key with
  | None => sent = fallback
  | Some v => to_integer (number_of v) = Some sent ∧ 0 < sent
  end.
Definition text_kept (params : URLSearchParams) (key : ustring) (sent : option ustring) : Prop :=
  match params_get params key with
  | None => sent = None
  | Some v => sent = (if bool_decide (trim v = []) then None else Some (trim v))
  end.
Definition ids_kept (params : URLSearchParams) (sent : option (list Z)) : Prop :=
  let numbers := omap (λ token, positive_int (number_of (trim token))) (split_on 44 (raw_endpointIds params)) in
  match sent with
  | None => raw_endpointIds params = [] ∨ numbers = []
  | Some ids => ids ≠ [] ∧ NoDup ids ∧ (length ids ≤ 100)%nat ∧ (∀ id, id ∈ ids → id ∈ numbers) ∧
      ((length ids < 100)%nat → ∀ id, id ∈ numbers → id ∈ ids)
  end.

Section claims.
Context `{DateHost}.

Definition time_kept (params : URLSearchParams) (sent : DashboardTimeQuery) : Prop :=
  lit_name (tq_timePreset sent) = default (u! "LATEST_24H") (params_get params (u! "timePreset")) ∧
  if bool_decide (params_get params (u! "timePreset") = Some (u! "CUSTOM"))
  then ∃ from to f t, params_get params (u! "from") = Some from ∧ params_get params (u! "to") = Some to ∧
         Date_parse from = Some f ∧ Date_parse to = Some t ∧ f < t ∧ tq_from sent = Some from ∧ tq_to sent = Some to
  else tq_from sent = None ∧ tq_to sent = None.

Lemma time_sent params : tf_valid (readTimeFilter params) = true → time_kept params (tf_query (readTimeFilter params)).
Proof.
  unfold time_kept. destruct (params_get params (u! "timePreset")) as [raw|] eqn:Hraw.
  - unfold readTimeFilter. rewrite Hraw. cbn [tf_valid]. intros [(preset & ->)%preset_names Hv]%andb_true_iff.
    rewrite (timePreset_raw _ _ Hraw) in *. cbn [tf_query default].
    destruct (decide (preset = Preset_CUSTOM)) as [->|Hn].
    + rewrite !bool_decide_true in * by done. cbn [negb orb andb] in Hv.
      destruct (params_get params (u! "from")) as [from|] eqn:Hf; [|done]. destruct (params_get params (u! "to")) as [to|] eqn:Ht; [|by rewrite andb_false_r in Hv].
      apply andb_true_iff in Hv as [[H1 H2]%andb_true_iff Hlt]. rewrite H1, H2. split; [done|].
      change (time_lt from to = true) in Hlt. unfold time_lt in Hlt.
      destruct (Date_parse from) as [f|] eqn:Ef; [|discriminate Hlt]. destruct (Date_parse to) as [t|] eqn:Et; [|discriminate Hlt].
      exists from, to, f, t. split_and!; try done. by apply Z.ltb_lt.
    + rewrite (bool_decide_false (preset = _)) by done. cbn [andb]. rewrite bool_decide_false; [done|]. intros [= E]. apply Hn. by destruct preset; vm_compute in E.
  - intros _. unfold readTimeFilter, timePreset. rewrite Hraw. cbn. done.
Qed.

Lemma number_sent params key fallback : hasInvalidPositiveInteger params key = false → number_kept params key fallback (numberParam params key fallback).
Proof.
  intros Hv%positive_kept. unfold number_kept, numberParam. fold (positiveInteger (params_get params key)).
  destruct (params_get params key) as [v|]; [|by rewrite Hv]. destruct Hv as (n & Hn & Hpos & ->). done.
Qed.

Lemma page_sent params : hasInvalidPagination params = false → number_kept params (u! "page") 1 (page_of params).
Proof. unfold hasInvalidPagination. intros [Hp _]%orb_false_iff. by apply number_sent. Qed.
Lemma size_sent params : hasInvalidPagination params = false → number_kept params (u! "size") 50 (size_of params).
Proof.
  unfold hasInvalidPagination. intros [_ Hs]%orb_false_iff. apply number_sent. unfold hasInvalidPositiveInteger.
  destruct (params_get params (u! "size")) as [v|]; [|done]. destruct (to_integer (number_of v)) as [n|]; [|done].
  apply orb_false_iff in Hs as [H1%Z.ltb_ge _]. apply Z.leb_gt. lia.
Qed.

Lemma text_sent params key : text_kept params key (text_param params key).
Proof.
  unfold text_kept, text_param, stringParam. destruct (params_get params key) as [v|]; [|done].
  change (default [] (Some v)) with v. cbn zeta. case_bool_decide as E; [by rewrite E|]. by rewrite (proj2 (truthy_true _) E).
Qed.

Lemma details_sent params : let details := vq_details (events_query params) in
  NoDup details.*1 ∧ (∀ field, field ∈ DETAIL_FILTERS → text_kept params field (map_get field details)) ∧
  (∀ field value, (field, value) ∈ details → field ∈ DETAIL_FILTERS).
Proof.
  cbn zeta. unfold events_query. cbn [vq_details].
  assert (NoDup DETAIL_FILTERS) as Hnd by by_compute. revert Hnd. generalize DETAIL_FILTERS. intros l Hnd.
  assert (∀ k v, (k, v) ∈ omap (λ field, pair field <$> text_param params field) l → k ∈ l) as Hin.
  { intros k v (field & Hf & E)%list_elem_of_omap. destruct (text_param params field); [|done]. by injection E as <- _. }
  split_and!; [..|exact Hin].
  - induction l as [|k l IH]; [apply NoDup_nil_2|]. apply NoDup_cons in Hnd as [Hk Hnd]. cbn.
    assert (∀ k v, (k, v) ∈ omap (λ field, pair field <$> text_param params field) l → k ∈ l) as Hin'.
    { intros k' v (field & Hf & E)%list_elem_of_omap. destruct (text_param params field); [|done]. by injection E as <- _. }
    destruct (text_param params k); cbn; [|by apply IH]. apply NoDup_cons. split; [|by apply IH].
    intros ([k' v] & Ek & Hkv)%list_elem_of_fmap. cbn in Ek. subst k'. by apply Hk, (Hin' k v).
  - intros field Hf. enough (map_get field (omap (λ field, pair field <$> text_param params field) l) = text_param params field) as -> by apply text_sent.
    clear Hin. induction l as [|k l IH]; [by apply not_elem_of_nil in Hf|]. apply NoDup_cons in Hnd as [Hk Hnd]. cbn.
    destruct (decide (field = k)) as [->|Hne].
    + destruct (text_param params k) as [v|] eqn:E; cbn; [by rewrite decide_True|]. apply map_get_None.
      intros ([k' v] & Ek & (f & Hfl & Ef)%list_elem_of_omap)%list_elem_of_fmap. cbn in Ek. subst k'.
      destruct (text_param params f); [|done]. injection Ef as -> _. done.
    + apply elem_of_cons in Hf as [?|Hf]; [done|]. destruct (text_param params k); cbn; [rewrite decide_False by done|]; by apply IH.
Qed.

Lemma trim_start_nil s : trim_start s = [] → Forall (λ c, is_space c = true) s.
Proof. induction s as [|c s IH]; [by constructor|]. cbn. destruct (is_space c) eqn:E; [|done]. intros Hs. constructor; auto. Qed.

(** A text of blanks is not cut by commas. *)
Lemma blank_whole s : trim s = [] → split_on 44 s = [s].
Proof.
  intros Ht. apply split_on_free. assert (Forall (λ c, is_space c = true) s) as Hs.
  { apply trim_start_nil. unfold trim, trim_end in Ht. apply (f_equal reverse) in Ht. rewrite reverse_involutive in Ht.
    apply trim_start_nil, Forall_reverse in Ht. rewrite ?reverse_involutive in Ht.
    destruct (trim_start s) as [|c r] eqn:E; [done|]. exfalso. apply Forall_cons in Ht as [Hc _].
    assert (is_space c = false) as Hn; [|congruence]. clear -E. induction s as [|d s IH]; [done|]. cbn in E.
    destruct (is_space d) eqn:Ed; [by apply IH|]. by injection E as -> _. }
  rewrite Forall_forall in Hs. intros Hin. specialize (Hs _ Hin). by vm_compute in Hs.
Qed.

Lemma ids_sent params : invalidEndpointIds (raw_endpointIds params) = false → ids_kept params (eq_endpointIds (endpoints_query params)).
Proof.
  intros Hv. unfold ids_kept, endpoints_query. cbn [eq_endpointIds]. set (raw := raw_endpointIds params) in *.
  destruct (proj1 parseEndpointIds_spec (Some raw)) as (Hlen & Hnd & _). unfold parseEndpointIds in *.
  destruct (truthy (trim raw)) eqn:Ht.
  2: { left. destruct raw as [|c r] eqn:E; [done|]. exfalso. unfold invalidEndpointIds in Hv. cbn [truthy andb] in Hv.
       assert (trim (c :: r) = []) as Hb by (destruct (trim (c :: r)); done). rewrite (blank_whole _ Hb) in Hv.
       cbn [js_some existsb] in Hv. unfold id_token in Hv. rewrite Hb in Hv. by vm_compute in Hv. }
  set (numbers := omap _ _) in *. destruct (take 100 (js_unique numbers)) as [|id ids] eqn:E.
  - right. destruct numbers as [|n l] eqn:En; [done|]. exfalso.
    assert (n ∈ js_unique (n :: l)) as Hin by (apply js_unique_elem; left).
    destruct (js_unique (n :: l)); [by apply not_elem_of_nil in Hin|done].
  - split_and!; [done|done|done| |].
    + intros i Hi. apply js_unique_elem. rewrite <- E in Hi. apply elem_of_take in Hi as (k & Hk & _). by eapply list_elem_of_lookup_2.
    + intros Hl i Hi. apply js_unique_elem in Hi. rewrite <- E in Hl |- *. rewrite length_take in Hl. by rewrite take_ge by lia.
Qed.

(** C15: a list page sends the filters of its query string and nothing else. Unless the
    page refuses the query string, every field of the query it sends is what the query
    string says: the range of time (its preset, and the two bounds exactly when it is a
    custom range, which is readable and in order), every enumerated filter with the text it
    has there (and left out when it is absent), the page, its size and an endpoint's id as
    the positive integers that are written there (or the first page, fifty rows and no
    endpoint), texts trimmed and left out when blank, and the list of endpoint ids without
    repetitions, complete up to a hundred. *)
Theorem list_queries_faithful params :
  (alerts_invalid params = false →
   let q := alerts_query params in
   time_kept params (aq_time q) ∧
   lit_name <$> aq_status q = params_get params (u! "status") ∧
   lit_name <$> aq_severity q = params_get params (u! "severity") ∧
   lit_name (aq_sortBy q) = default (u! "priority") (params_get params (u! "sortBy")) ∧
   lit_name (aq_sortOrder q) = default (u! "desc") (params_get params (u! "sortOrder")) ∧
   id_kept params (aq_endpointId q) ∧ text_kept params (u! "ruleCode") (aq_ruleCode q) ∧
   number_kept params (u! "page") 1 (aq_page q) ∧ number_kept params (u! "size") 50 (aq_size q) ∧ aq_size q ≤ 200) ∧
  (endpoints_invalid params = false →
   let q := endpoints_query params in
   lit_name <$> eq_status q = params_get params (u! "status") ∧
   lit_name <$> eq_osType q = params_get params (u! "osType") ∧
   lit_name <$> eq_riskLevel q = params_get params (u! "riskLevel") ∧
   lit_name (eq_sortBy q) = default (u! "riskScore") (params_get params (u! "sortBy")) ∧
   lit_name (eq_sortOrder q) = default (u! "desc") (params_get params (u! "sortOrder")) ∧
   text_kept params (u! "q") (eq_q q) ∧ ids_kept params (eq_endpointIds q) ∧
   number_kept params (u! "page") 1 (eq_page q) ∧ number_kept params (u! "size") 50 (eq_size q) ∧ eq_size q ≤ 200) ∧
  (events_invalid params = false →
   let q := events_query params in
   time_kept params (vq_time q) ∧
   lit_name <$> vq_eventType q = params_get params (u! "eventType") ∧
   lit_name (vq_sortOrder q) = default (u! "desc") (params_get params (u! "sortOrder")) ∧
   id_kept params (vq_endpointId q) ∧ NoDup (vq_details q).*1 ∧
   (∀ field, field ∈ DETAIL_FILTERS → text_kept params field (map_get field (vq_details q))) ∧
   (∀ field value, (field, value) ∈ vq_details q → field ∈ DETAIL_FILTERS) ∧
   number_kept params (u! "page") 1 (vq_page q) ∧ number_kept params (u! "size") 50 (vq_size q) ∧ vq_size q ≤ 200) ∧
  (incidents_invalid params = false →
   let q := incidents_query params in
   time_kept params (pq_time q) ∧
   lit_name <$> pq_status q = params_get params (u! "status") ∧
   lit_name <$> pq_severity q = params_get params (u! "severity") ∧
   lit_name (pq_sortOrder q) = default (u! "desc") (params_get params (u! "sortOrder")) ∧
   id_kept params (pq_endpointId q) ∧
   number_kept params (u! "page") 1 (pq_page q) ∧ number_kept params (u! "size") 50 (pq_size q) ∧ pq_size q ≤ 200).
Proof.
  assert (∀ (A : Type) (L : Literal A) key (allowed : list A) d, enum_invalid params key allowed = false →
    lit_name (default d (enum_param params key allowed)) = default (lit_name d) (params_get params key)) as Hdef.
  { intros A L key allowed d Hv%enum_kept. rewrite <- Hv. by destruct (enum_param params key allowed). }
  split_and!; intros Hv; [unfold alerts_invalid in Hv|pose proof Hv as Hv'; unfold endpoints_invalid in Hv|unfold events_invalid in Hv
    |unfold incidents_invalid in Hv]; split_valid; cbn zeta;
    repeat match goal with |- _ ∧ _ => split end;
    cbn [alerts_query endpoints_query events_query incidents_query aq_time aq_status aq_severity aq_sortBy aq_sortOrder aq_endpointId aq_ruleCode
         aq_page aq_size eq_status eq_osType eq_riskLevel eq_sortBy eq_sortOrder eq_q eq_page eq_size vq_time vq_eventType vq_sortOrder
         vq_endpointId vq_page vq_size pq_time pq_status pq_severity pq_sortOrder pq_endpointId pq_page pq_size];
    try (by apply enum_kept); try (by apply time_sent); try (by apply text_sent); try (by apply page_sent); try (by apply size_sent);
    try (refine (Hdef _ _ (u! "sortBy") ALERT_SORT_FIELDS AlertSort_priority _); assumption);
    try (refine (Hdef _ _ (u! "sortBy") ENDPOINT_SORT_FIELDS EndpointSort_riskScore _); assumption);
    try (refine (Hdef _ _ (u! "sortOrder") SORT_ORDERS Order_desc _); assumption); try (by apply positive_kept);
    try (by apply ids_sent); try (by apply pagination_kept); try apply details_sent.
Qed.

(** the queues the detail pages walk through are the lists they were opened
    from: the alert queue has the filters and the order of the alert list, from the
    first page on and with up to 500 entries; the incident queue has those of the
    incident list, and asks for open incidents when the list shows all. *)
Theorem queues_agree_with_lists params :
  alertTriageQueueQuery params =
    (let q := alerts_query params in
     mkAlertListQuery (aq_time q) 1 500 (aq_sortBy q) (aq_sortOrder q) (aq_status q) (aq_severity q)
       (aq_endpointId q) (aq_ruleCode q)) ∧
  incidentQueueQuery params =
    (let q := incidents_query params in
     mkIncidentListQuery (pq_time q) 1 500 (pq_sortOrder q) (default Incident_OPEN (pq_status q)) (pq_severity q)
       (pq_endpointId q)).
Proof. split; reflexivity. Qed.

(** Setting the order of a list: what the next query string reads. *)
Lemma params_get_update params values key :
  usv key ≠ u! "page" →
  params_get (updateParams params values true) key =
  match js_find (λ kv, bool_decide (usv kv.1 = usv key)) (reverse values) with
  | Some kv => usv <$> param_text kv.2
  | None => params_get params key
  end.
Proof.
  intros Hk. unfold updateParams. rewrite params_get_delete_ne; [apply updates_get|].
  intros E. apply Hk. rewrite E. vm_compute. reflexivity.
Qed.

Definition sort_keys : list ustring := [u! "sortBy"; u! "sortOrder"; u! "page"].

Lemma sort_updates params (sortBy sortOrder : ustring) : usv sortBy = sortBy → usv sortOrder = sortOrder →
  truthy sortBy = true → truthy sortOrder = true →
  let next := updateParams params [(u! "sortBy", PText sortBy); (u! "sortOrder", PText sortOrder)] true in
  params_get next (u! "sortBy") = Some sortBy ∧ params_get next (u! "sortOrder") = Some sortOrder ∧
  params_get next (u! "page") = None ∧
  ∀ key, usv key ∉ sort_keys → params_get next key = params_get params key.
Proof.
  intros U1 U2 T1 T2. cbn zeta. split_and!.
  - rewrite params_get_update by (vm_compute; discriminate). cbn [reverse rev_append js_find].
    rewrite bool_decide_false by (vm_compute; discriminate). rewrite bool_decide_true by done. cbn [snd param_text].
    rewrite T1. cbn. by rewrite U1.
  - rewrite params_get_update by (vm_compute; discriminate). cbn [reverse rev_append js_find].
    rewrite bool_decide_true by done. cbn [snd param_text]. rewrite T2. cbn. by rewrite U2.
  - apply params_get_delete_eq.
  - intros key Hk. unfold sort_keys in Hk. rewrite !not_elem_of_cons in Hk. destruct Hk as (H1 & H2 & H3 & _).
    rewrite params_get_update by done. cbn [reverse rev_append js_find fst].
    rewrite !bool_decide_false; [done|..].
    + intros E. apply H1. rewrite <- E. vm_compute. reflexivity.
    + intros E. apply H2. rewrite <- E. vm_compute. reflexivity.
Qed.

Lemma literal_usv `{Literal A} (a : A) (values : list A) : a ∈ values →
  forallb (λ a, bool_decide (usv (lit_name a) = lit_name a) && truthy (lit_name a)) values = true →
  usv (lit_name a) = lit_name a ∧ truthy (lit_name a) = true.
Proof.
  intros Ha Hf. rewrite forallb_elem in Hf. specialize (Hf a Ha). apply andb_true_iff in Hf as [H1 H2].
  by apply bool_decide_eq_true in H1.
Qed.

Lemma enum_read `{Literal A} params key (allowed : list A) a :
  params_get params key = Some (lit_name a) → a ∈ allowed → enum_param params key allowed = Some a.
Proof. intros Hg Ha. unfold enum_param, allowedValue. rewrite Hg. cbn. by apply lit_find_Some. Qed.

(** choosing a column to sort the alerts by sorts by it: the query string it
    sets reads back as that column, descending, or ascending when the list was
    already sorted by it descending; it starts on the first page and leaves every
    other parameter as it was, and choosing the column twice more gives the same
    order again. *)
Theorem alerts_sort_roundtrip params field :
  let next := alerts_updateSort params field in
  alerts_sortBy next = field ∧
  order_of next = (if bool_decide (alerts_sortBy params = field) then flip (order_of params) else Order_desc) ∧
  page_of next = 1 ∧
  (∀ key, usv key ∉ sort_keys → params_get next key = params_get params key) ∧
  order_of (alerts_updateSort (alerts_updateSort next field) field) = order_of next.
Proof.
  assert (∀ p, let n := alerts_updateSort p field in
    alerts_sortBy n = field ∧
    order_of n = (if bool_decide (alerts_sortBy p = field) then flip (order_of p) else Order_desc) ∧
    page_of n = 1 ∧ (∀ key, usv key ∉ sort_keys → params_get n key = params_get p key)) as Hs.
  { intros p. cbn zeta. unfold alerts_updateSort. 
    set (o := if bool_decide (alerts_sortBy p = field) && bool_decide (order_of p = Order_desc) then Order_asc else Order_desc).
    destruct (literal_usv field lit_values (lit_complete field)) as [U1 T1]; [vm_compute; reflexivity|].
    destruct (literal_usv o lit_values (lit_complete o)) as [U2 T2]; [vm_compute; reflexivity|].
    destruct (sort_updates p (lit_name field) (lit_name o) U1 U2 T1 T2) as (G1 & G2 & G3 & G4).
    set (n := updateParams _ _ _) in *. split_and!; [..|done].
    - unfold alerts_sortBy. rewrite (enum_read n _ _ field G1); [done|]. by destruct field; unfold ALERT_SORT_FIELDS; set_solver.
    - unfold order_of at 1. rewrite (enum_read n _ _ o G2) by (destruct o; unfold SORT_ORDERS; set_solver). cbn. unfold o.
      destruct (bool_decide (alerts_sortBy p = field)); cbn; [|done]. by destruct (order_of p).
    - unfold page_of, numberParam. rewrite G3. vm_compute. reflexivity. }
  cbn zeta. destruct (Hs params) as (A1 & A2 & A3 & A4). split_and!; try done.
  set (n := alerts_updateSort params field) in *. destruct (Hs n) as (B1 & B2 & _).
  destruct (Hs (alerts_updateSort n field)) as (_ & C2 & _).
  rewrite C2, B1, B2, A1, !bool_decide_true by done. by destruct (order_of n).
Qed.
End claims.

(** ** Lemmas: local times to the minute *)

Definition four_digit_year (t : Z) : Prop := let '(yr, _, _) := civil_from_days (t / msPerDay) in 0 ≤ yr ≤ 9999.

Definition minute_text (yr m d h n : Z) : ustring :=
  pad 4 yr ++ [45] ++ pad 2 m ++ [45] ++ pad 2 d ++ [84] ++ pad 2 h ++ [58] ++ pad 2 n.

Lemma slice_iso t : four_digit_year t →
  slice0 16 (toISOString t) =
  let '(yr, m, d) := civil_from_days (t / msPerDay) in
  minute_text yr m d (t mod msPerDay / 3600000) (t mod msPerDay / 60000 mod 60).
Proof.
  unfold four_digit_year, toISOString. destruct (civil_from_days (t / msPerDay)) as [[yr m] d]. intros Hy.
  unfold iso_year. rewrite (proj2 (Z.leb_le 0 yr)), (proj2 (Z.leb_le yr 9999)) by lia. reflexivity.
Qed.

Section local_times.
Context `{DateHost}.

Lemma parse_time_minute ms : 0 ≤ ms < msPerDay → ms mod 60000 = 0 →
  parse_time (pad 2 (ms / 3600000) ++ [58] ++ pad 2 (ms / 60000 mod 60)) = Some (ms, ZLocal).
Proof.
  unfold msPerDay. intros Hms Hz. unfold parse_time.
  assert (0 ≤ ms / 3600000 < 24 ∧ 0 ≤ ms / 60000 mod 60 < 60 ∧
    ms / 3600000 * 3600000 + ms / 60000 mod 60 * 60000 = ms) as (H1 & H2 & H3) by (Z.div_mod_to_equations; lia).
  rewrite <- (app_nil_r (pad 2 (ms / 60000 mod 60))). do 2 read_field. cbn [parse_zone mbind option_bind].
  replace (_ + 0 * 1000 + 0) with ms by lia.
  destruct (_ && _) eqn:E; [done|]. exfalso. revert E. apply not_false_iff_true.
  rewrite !andb_true_iff, orb_true_iff. lia.
Qed.

(** A local time written to the minute is read as the host reads local times. *)
Lemma parse_minute t : four_digit_year t → t mod 60000 = 0 →
  parse_iso (slice0 16 (toISOString t)) = time_clip (utc_of_local t).
Proof.
  intros Hy Hz. rewrite slice_iso by done. unfold four_digit_year in Hy.
  pose proof (civil_roundtrip (t / msPerDay)) as Hc.
  destruct (civil_from_days (t / msPerDay)) as [[yr m] d]. destruct Hc as (Hc & Hm & Hd).
  assert (minute_text yr m d (t mod msPerDay / 3600000) (t mod msPerDay / 60000 mod 60) =
    iso_year yr ++ [45] ++ pad 2 m ++ [45] ++ pad 2 d ++ [84] ++
    pad 2 (t mod msPerDay / 3600000) ++ [58] ++ pad 2 (t mod msPerDay / 60000 mod 60)) as ->.
  { unfold iso_year. by rewrite (proj2 (Z.leb_le 0 yr)), (proj2 (Z.leb_le yr 9999)) by lia. }
  unfold parse_iso. rewrite parse_year_iso by lia. cbn [mbind option_bind app opt_dash2]. do 2 read_field.
  destruct ((1 <=? m) && (m <=? 12) && (1 <=? d) && (d <=? 31)) eqn:E.
  2: { exfalso. revert E. apply not_false_iff_true. rewrite !andb_true_iff. lia. }
  pose proof (Z.mod_pos_bound t msPerDay ltac:(unfold msPerDay; lia)) as Hb.
  pose proof (parse_time_minute (t mod msPerDay) Hb) as Hp. cbn [app] in Hp.
  rewrite Hp by (unfold msPerDay; Z.div_mod_to_equations; lia). cbn [mbind option_bind]. rewrite Hc.
  pose proof (Z.div_mod t msPerDay ltac:(unfold msPerDay; lia)) as Hdm.
  by replace (t / msPerDay * msPerDay + t mod msPerDay) with t by lia.
Qed.

Lemma digit_mod x : is_digit (48 + x mod 10) = true.
Proof. pose proof (Z.mod_pos_bound x 10 ltac:(lia)). unfold is_digit. lia. Qed.

Lemma not_T x : (48 + x mod 10 =? 84) = false.
Proof. pose proof (Z.mod_pos_bound x 10 ltac:(lia)). lia. Qed.

Lemma iso_truthy t : truthy (toISOString t) = true.
Proof. unfold toISOString. destruct (civil_from_days _) as [[yr m] d]. by destruct (iso_year yr). Qed.

(** ISO texts are ASCII. *)
Definition ascii_text (s : ustring) : Prop := Forall (λ c, 0 ≤ c < 128) s.
Lemma pad_ascii k n : ascii_text (pad k n).
Proof.
  induction k as [|k IH]; [constructor|]. constructor; [|done]. pose proof (Z.mod_pos_bound (n / 10 ^ Z.of_nat k) 10 ltac:(lia)). lia.
Qed.
Lemma iso_ascii ms : ascii_text (toISOString ms).
Proof.
  unfold toISOString. destruct (civil_from_days _) as [[yr m] d].
  assert (ascii_text (iso_year yr)) by (unfold iso_year; repeat case_match; try apply pad_ascii; constructor; try lia; apply pad_ascii).
  repeat (apply Forall_app; split); try apply pad_ascii; try done; repeat constructor; lia.
Qed.
Lemma iso_usv ms : usv (toISOString ms) = toISOString ms.
Proof. apply usv_lit_units, iso_ascii. Qed.

(** The text of a minute, as a control for local times writes it: of a time with a four-digit
    local year that has this local time, and no other time has it. *)
Definition local_minute (t : Z) (text : ustring) : Prop :=
  let shown := t - timezoneOffset t * 60000 in
  t mod 60000 = 0 ∧ four_digit_year shown ∧ utc_of_local shown = t ∧ Z.abs t ≤ max_time ∧ Z.abs shown ≤ max_time ∧
  text = slice0 16 (toISOString shown).
(** The text is read as its time, and is the text of this time. *)
Lemma local_minute_roundtrip t text : local_minute t text →
  Date_parse text = Some t ∧ (∀ timestamp, Date_parse timestamp = Some t → localDateTimeValue timestamp = Some text) ∧
  ∃ yr m d h n, text = minute_text yr m d h n.
Proof.
  intros (Hz & Hy & Hu & Ht & Hr & ->). set (shown := t - timezoneOffset t * 60000) in *.
  assert (shown mod 60000 = 0) as Hsz by (unfold shown; Z.div_mod_to_equations; lia). split_and!.
  - unfold Date_parse. rewrite parse_minute by done. rewrite Hu. unfold time_clip. by rewrite (proj2 (Z.leb_le _ _) Ht).
  - intros timestamp Hp. unfold localDateTimeValue. rewrite Hp. cbn [mbind option_bind]. fold shown.
    unfold time_clip. by rewrite (proj2 (Z.leb_le _ _) Hr).
  - rewrite slice_iso by done. destruct (civil_from_days (shown / msPerDay)) as [[yr m] d]. by do 5 eexists.
Qed.
Lemma local_minute_utc t text : local_minute t text →
  truthy text = true ∧ utcFromLocal text = Some (toISOString t) ∧ localDateTimeValue (toISOString t) = Some text.
Proof.
  intros Hm. destruct (local_minute_roundtrip t text Hm) as (Hd & Hl & yr & m & d & h & n & E). split; [by rewrite E|].
  unfold utcFromLocal, iso_of_string. rewrite Hd. split; [done|]. apply Hl. apply Date_parse_toISOString. apply Hm.
Qed.

(** The field's text stands for the local time it was made from. *)
Lemma archive_local_minute yr m d h n : archive_local (replace_first_T (minute_text yr m d h n)) = Some (minute_text yr m d h n).
Proof.
  unfold minute_text. cbn [pad app replace_first_T]. rewrite !not_T. cbn [Z.eqb Pos.eqb].
  unfold archive_local. cbn [forallb]. by rewrite !digit_mod.
Qed.

Lemma minute_trim yr m d h n : trim (replace_first_T (minute_text yr m d h n)) = replace_first_T (minute_text yr m d h n).
Proof.
  unfold minute_text. cbn [pad app replace_first_T]. rewrite !not_T. cbn [Z.eqb Pos.eqb].
  assert (∀ x, is_space (48 + x mod 10) = false) as Hs.
  { intros x. pose proof (Z.mod_pos_bound x 10 ltac:(lia)). unfold is_space. repeat rewrite (proj2 (Z.eqb_neq _ _)) by lia. lia. }
  unfold trim. rewrite trim_start_id by (intros c r [= <- _]; apply Hs).
  unfold trim_end. rewrite trim_start_id; [apply reverse_involutive|]. cbn. intros c r [= <- _]. apply Hs.
Qed.

(** the archive page's English date field gives back the time it shows: for a
    time at a full minute with a four-digit local year, at which the host's local
    times are not ambiguous, leaving the field unchanged commits exactly that
    time. *)
Theorem archive_date_roundtrip timestamp t :
  Date_parse timestamp = Some t → t mod 60000 = 0 →
  let shown := t - timezoneOffset t * 60000 in
  four_digit_year shown → utc_of_local shown = t → Z.abs shown ≤ max_time → timestamp ≠ [] →
  ∃ text, archiveFieldText timestamp = Some text ∧ commitArchiveDate text = Committed (Some (toISOString t)).
Proof.
  intros Hp Hz shown Hy Hu Hr Hne. pose proof (Date_parse_range _ _ Hp) as Ht. set (txt := slice0 16 (toISOString shown)).
  assert (local_minute t txt) as Hm by done. destruct (local_minute_roundtrip t txt Hm) as (Hd & Hl & yr & m & d & h & n & Etxt).
  pose proof (Hl _ Hp) as Hl1. assert (localDateTimeValue (toISOString t) = Some txt) as Hl2 by (by apply Hl, Date_parse_toISOString).
  unfold archiveFieldText. rewrite (proj2 (truthy_true timestamp)), Hl1 by done. eexists. split; [done|].
  unfold commitArchiveDate, utcFromArchiveText. rewrite Etxt, minute_trim, archive_local_minute, <- Etxt.
  assert (truthy (replace_first_T txt) = true) as -> by (rewrite Etxt; unfold minute_text; cbn; by rewrite not_T).
  cbn [mbind option_bind]. unfold utcFromLocal, iso_of_string. rewrite Hd. cbn [fmap option_fmap option_map mbind option_bind].
  rewrite bool_decide_true by done.
  by rewrite iso_truthy.
Qed.
End local_times.

Lemma archive_date_roundtrip_witness :
  ∃ text, archiveFieldText (H := utc_host) (u! "2026-07-19T13:05:00Z") = Some text ∧
    commitArchiveDate (H := utc_host) text = Committed (Some (toISOString 1784466300000)).
Proof.
  apply (archive_date_roundtrip (H := utc_host) (u! "2026-07-19T13:05:00Z") 1784466300000);
    try (vm_compute; reflexivity); try (vm_compute; discriminate).
  unfold four_digit_year. vm_compute. split; discriminate.
Defined.

(** ** The archive page *)

(** what the archive page asks for is within its rules: a page that is ready
    has at least one endpoint id, all ids distinct and positive, a readable range
    that is not empty and at most 31 days long, and a page size of at most 200; a
    restore is offered only on a ready page and only to administrators and
    analysts, with exactly the ids and the range of the query. *)
Theorem archives_request_spec `{DateHost} params role :
  (ready (readArchives params) = true →
   let q := archive_query (readArchives params) in
   rq_endpointIds q ≠ [] ∧ NoDup (rq_endpointIds q) ∧ Forall (λ id, 0 < id) (rq_endpointIds q) ∧
   (∃ f t, Date_parse (rq_from q) = Some f ∧ Date_parse (rq_to q) = Some t ∧ f < t ≤ f + 31 * msPerDay) ∧
   1 ≤ rq_page q ∧ 1 ≤ rq_size q ≤ 200) ∧
  (∀ r, restore_request params role = Some r →
     ready (readArchives params) = true ∧ role ∈ [Some Role_ADMIN; Some Role_ANALYST] ∧
     r = mkRestore (rq_endpointIds (archive_query (readArchives params))) (rq_from (archive_query (readArchives params)))
           (rq_to (archive_query (readArchives params)))).
Proof.
  split.
  - cbn zeta. unfold readArchives. cbn [ready archive_query rq_endpointIds rq_from rq_to rq_page rq_size].
    rewrite !andb_true_iff, !negb_true_iff. intros [[[_ Hn] Hr] Hp]. apply Nat.eqb_neq in Hn.
    split_and!.
    + intros E. by rewrite E in Hn.
    + apply js_unique_NoDup.
    + apply Forall_forall. intros id Hid. apply js_unique_elem, list_elem_of_omap in Hid as (token & _ & Ht).
      by eapply positive_int_pos.
    + unfold validRange in Hr. apply andb_true_iff in Hr as [_ Hr].
      destruct (Date_parse (stringParam params (u! "from") [])) as [f|]; [|done].
      destruct (Date_parse (stringParam params (u! "to") [])) as [t|]; [|done].
      apply andb_true_iff in Hr as [H1%Z.ltb_lt H2%Z.leb_le]. exists f, t. unfold msPerDay. split; [done|]. split; [done|]. lia.
    + apply page_positive.
    + by apply pagination_kept.
    + by apply pagination_kept.
  - intros r. unfold restore_request. destruct (ready (readArchives params)) eqn:E; [|done]. cbn [andb].
    destruct role as [role|]; [|done]. destruct (canMutate role) eqn:Ec; [|done]. intros [= <-].
    split; [done|]. split; [|done]. destruct role; [set_solver|set_solver|]. vm_compute in Ec. discriminate.
Qed.

Lemma archives_request_spec_witness :
  let params := params_of_string (u! "?endpointIds=7,%203&from=2026-07-01&to=2026-07-19") in
  ready (readArchives (H := utc_host) params) = true ∧
  rq_endpointIds (archive_query (readArchives (H := utc_host) params)) ≠ [].
Proof.
  cbn zeta. set (params := params_of_string _).
  assert (ready (readArchives (H := utc_host) params) = true) as Hr by (vm_compute; reflexivity).
  split; [exact Hr|]. exact (proj1 (proj1 (archives_request_spec (H := utc_host) params None) Hr)).
Defined.

Lemma list_queries_faithful_witness :
  let params := params_of_string (u! "?status=OPEN&endpointId=12&size=100") in
  alerts_invalid (H := utc_host) params = false ∧
  lit_name <$> aq_status (alerts_query (H := utc_host) params) = Some (u! "OPEN").
Proof.
  cbn zeta. set (params := params_of_string _).
  assert (alerts_invalid (H := utc_host) params = false) as Hv by (vm_compute; reflexivity).
  split; [exact Hv|].
  destruct (proj1 (list_queries_faithful (H := utc_host) params) Hv) as (_ & Hs & _). rewrite Hs. vm_compute. reflexivity.
Defined.
