(* ===== verification/Investigation.v ===== *)
(** * Incident investigation

    Models frontend/src/features/incidentInvestigation.ts (selections in the
    evidence graph), frontend/src/components/IncidentInvestigation.tsx (what the
    evidence table, the selected context and their links show) and
    frontend/src/pages/IncidentDetailPage.tsx (the selection of the page, its
    requests, the attack timeline). An outer [option] is a thrown exception. *)

From S2P Require Import Prelude JsNumber JsDate Json Url Contracts ApiClient I18n UrlState.

#[local] Open Scope list_scope.
#[local] Open Scope Z_scope.

(** ** Selections *)

Inductive InvestigationSelection := NODE (id : ustring) | EDGE (id : ustring).
#[export] Instance InvestigationSelection_eq_dec : EqDecision InvestigationSelection.
Proof. solve_decision. Defined.

(** The setting is the text of an environment variable, or undefined. *)
Definition incidentGraphEnabled (value : option ustring) : bool :=
  negb (bool_decide (value = Some (u! "false"))) && negb (bool_decide (value = Some (u! "0"))).

Definition graphRequiresFallback (investigation : IncidentInvestigationDto) : bool :=
  inv_partial investigation || inv_truncated investigation || (Nat.eqb (length (inv_nodes investigation)) 0).

Definition node_by_id (investigation : IncidentInvestigationDto) (id : ustring) : option InvestigationNodeDto :=
  js_find (λ node, bool_decide (node_nodeId node = id)) (inv_nodes investigation).

Definition selectedNode (selection : option InvestigationSelection) (investigation : IncidentInvestigationDto) :
  option InvestigationNodeDto :=
  match selection with Some (NODE id) => node_by_id investigation id | _ => None end.

Definition selectedEdge (selection : option InvestigationSelection) (investigation : IncidentInvestigationDto) :
  option InvestigationEdgeDto :=
  match selection with
  | Some (EDGE id) => js_find (λ edge, bool_decide (edge_edgeId edge = id)) (inv_edges investigation)
  | _ => None
  end.

(** A set, in the order of insertion. *)
Definition selectionNodeIds (selection : option InvestigationSelection) (investigation : IncidentInvestigationDto) :
  list ustring :=
  match selection with
  | None => []
  | Some (NODE id) => [id]
  | Some (EDGE _) =>
    match selectedEdge selection investigation with
    | Some edge => js_unique [edge_sourceNodeId edge; edge_targetNodeId edge]
    | None => []
    end
  end.

(** [Boolean(a && b === a)], for an identifier: [null], [0] and the empty text are
    falsy. *)
Definition same_number (a b : option Z) : bool :=
  match a with Some n => negb (n =? 0) && bool_decide (b = Some n) | None => false end.
Definition same_text (a b : option ustring) : bool :=
  match a with Some s => truthy s && bool_decide (b = Some s) | None => false end.

Definition node_type_of (itemType : AttackTimelineItemItemType) : InvestigationNodeType :=
  match itemType with
  | item_itemType_INCIDENT => Node_INCIDENT
  | item_itemType_EVENT => Node_EVENT
  | item_itemType_ALERT => Node_ALERT
  end.

Definition nodeMatchesTimeline (node : InvestigationNodeDto) (item : AttackTimelineItemDto) : bool :=
  bool_decide (node_nodeType node = node_type_of (item_itemType item)) &&
  match item_itemType item with
  | item_itemType_EVENT => same_text (item_eventId item) (node_eventId node)
  | item_itemType_ALERT => same_number (item_alertId item) (node_alertId node)
  | item_itemType_INCIDENT => same_number (item_incidentId item) (node_incidentId node)
  end.

Definition edgeMatchesTimeline (edge : InvestigationEdgeDto) (item : AttackTimelineItemDto) : bool :=
  match item_itemType item with
  | item_itemType_EVENT => same_text (item_eventId item) (edge_eventId edge)
  | item_itemType_ALERT => same_number (item_alertId item) (edge_alertId edge)
  | item_itemType_INCIDENT => same_number (item_incidentId item) (edge_incidentId edge)
  end.

Definition selectionMatchesTimelineItem (selection : option InvestigationSelection)
  (investigation : IncidentInvestigationDto) (item : AttackTimelineItemDto) : bool :=
  match selection with
  | None => false
  | Some _ =>
    let nodes := js_filter (λ node, bool_decide (node_nodeId node ∈ selectionNodeIds selection investigation))
                   (inv_nodes investigation) in
    js_some (λ node, nodeMatchesTimeline node item) nodes ||
    match selectedEdge selection investigation with Some edge => edgeMatchesTimeline edge item | None => false end
  end.

Definition selectionForTimelineItem (investigation : IncidentInvestigationDto) (item : AttackTimelineItemDto) :
  option InvestigationSelection :=
  node ← js_find (λ candidate, nodeMatchesTimeline candidate item) (inv_nodes investigation);
  Some (NODE (node_nodeId node)).

(** The loop of [selectedProcessPid] over the selected identifiers. *)
Fixpoint first_pid (investigation : IncidentInvestigationDto) (ids : list ustring) : option Z :=
  match ids with
  | [] => None
  | nodeId :: rest =>
    match node_by_id investigation nodeId with
    | Some node =>
      if bool_decide (node_nodeType node = Node_PROCESS) && bool_decide (is_Some (node_pid node))
      then node_pid node else first_pid investigation rest
    | None => first_pid investigation rest
    end
  end.

Definition selectedProcessPid (selection : option InvestigationSelection)
  (investigation : option IncidentInvestigationDto) : option Z :=
  match investigation with
  | None => None
  | Some investigation =>
    let loop := first_pid investigation (selectionNodeIds selection investigation) in
    match selectedNode selection investigation with
    | Some direct => if bool_decide (node_nodeType direct = Node_PROCESS) then node_pid direct else loop
    | None => loop
    end
  end.

(** ** Links *)

(** The [to] of a link to an event: the time is encoded, the identifiers are not. *)
Definition event_query (endpointId : Z) (occurredAt : ustring) : option ustring :=
  encoded ← encodeURIComponent occurredAt;
  Some (u! "?endpointId=" ++ string_of_Z endpointId ++ u! "&occurredAt=" ++ encoded).
Definition event_link (eventId : ustring) (endpointId : Z) (occurredAt : ustring) : option ustring :=
  query ← event_query endpointId occurredAt; Some (u! "/events/" ++ eventId ++ query).

Definition record_link (kind : ustring) (id : option Z) : list ustring :=
  match id with Some n => [u! "/" ++ kind ++ u! "/" ++ string_of_Z n] | None => [] end.

(** The link to an event whose identifier, endpoint and time are all known. *)
Definition known_event_link (eventId : option ustring) (endpointId : option Z) (occurredAt : option ustring) :
  option (list ustring) :=
  match eventId, endpointId, occurredAt with
  | Some eventId, Some endpointId, Some occurredAt =>
    if truthy eventId && truthy occurredAt
    then link ← event_link eventId endpointId occurredAt; Some [link] else Some []
  | _, _, _ => Some []
  end.

Definition NodeLinks (node : InvestigationNodeDto) : option (list ustring) :=
  event ← known_event_link (node_eventId node) (node_endpointId node) (node_occurredAt node);
  Some (record_link (u! "incidents") (node_incidentId node) ++ record_link (u! "alerts") (node_alertId node)
        ++ event ++ record_link (u! "endpoints") (node_endpointId node)).

(** The first node of the edge's event. *)
Definition event_node (edge : InvestigationEdgeDto) (investigation : IncidentInvestigationDto) :
  option InvestigationNodeDto :=
  js_find (λ node, truthy_opt (node_eventId node) && bool_decide (node_eventId node = edge_eventId edge))
    (inv_nodes investigation).

Definition EvidenceLinks (edge : InvestigationEdgeDto) (investigation : IncidentInvestigationDto) :
  option (list ustring) :=
  let eventNode := event_node edge investigation in
  event ← known_event_link (edge_eventId edge) (eventNode ≫= node_endpointId) (eventNode ≫= node_occurredAt);
  Some (event ++ record_link (u! "alerts") (edge_alertId edge) ++ record_link (u! "incidents") (edge_incidentId edge)).

(** ** The investigation panel *)

Definition NODE_TYPES : list InvestigationNodeType := [Node_INCIDENT; Node_ALERT; Node_EVENT; Node_PROCESS; Node_DESTINATION].

Definition with_label (node : InvestigationNodeDto) (label : ustring) : InvestigationNodeDto :=
  let '(mkInvestigationNodeDto alertId destination endpointId eventId eventType incidentId _ nodeId nodeType
          occurredAt pid processName protocol riskScore severity) := node in
  mkInvestigationNodeDto alertId destination endpointId eventId eventType incidentId label nodeId nodeType
    occurredAt pid processName protocol riskScore severity.
Definition with_nodes (investigation : IncidentInvestigationDto) (nodes : list InvestigationNodeDto) : IncidentInvestigationDto :=
  let '(mkIncidentInvestigationDto edgeCount edges fallback incidentId nodeCount _ partial timeRange truncated warnings) :=
    investigation in
  mkIncidentInvestigationDto edgeCount edges fallback incidentId nodeCount nodes partial timeRange truncated warnings.

Definition node_counts (investigation : IncidentInvestigationDto) : list (InvestigationNodeType * nat) :=
  map (λ type, (type, length (js_filter (λ node, bool_decide (node_nodeType node = type)) (inv_nodes investigation)))) NODE_TYPES.

Definition showGraph (graphEnabled : bool) (investigation : IncidentInvestigationDto) : bool :=
  graphEnabled && negb (graphRequiresFallback investigation).

Section view.
Context (t : string → TranslationParams → option ustring).
Context `{DateHost} (mediumDateTime : Locale → Z → ustring) (displayLocale : Locale).
#[local] Abbreviation formatDate := (formatDateTime mediumDateTime displayLocale).

Definition localized_node (node : InvestigationNodeDto) : option InvestigationNodeDto :=
  label ← detectionTitle t (node_label node) None; Some (with_label node label).
Definition localizedInvestigation (investigation : IncidentInvestigationDto) : option IncidentInvestigationDto :=
  nodes ← mapM localized_node (inv_nodes investigation); Some (with_nodes investigation nodes).

Definition GraphFallback (enabled : bool) (investigation : IncidentInvestigationDto) : option ustring :=
  if negb enabled then t "incident.graphDisabled" []
  else if Nat.eqb (length (inv_nodes investigation)) 0 then t "incident.graphEmpty" []
  else t "incident.graphIncomplete" [].

Definition relationLabel (relation : InvestigationRelation) : option ustring :=
  t (match relation with
     | Rel_CONTAINS => "incident.relation.contains"
     | Rel_TRIGGERED_BY => "incident.relation.triggeredBy"
     | Rel_PARENT_OF => "incident.relation.parentOf"
     | Rel_CONNECTED_TO => "incident.relation.connectedTo"
     end)%string [].

Definition investigationWarning (code : InvestigationWarningCode) : option ustring :=
  match code with
  | Warning_ARCHIVE_NOT_READY => t "incident.warningArchiveNotReady" []
  | Warning_EVENT_NOT_FOUND => t "incident.warningEventNotFound" []
  end.

(** [value ?? t("common.notAvailable")], for a number. *)
Definition number_or_missing (value : option Z) : option ustring :=
  match value with Some n => Some (string_of_Z n) | None => t "common.notAvailable" [] end.
Definition nullable_text (value : option ustring) : option ustring :=
  displayNullable displayLocale (I18n.PText <$> value).

Definition nodeDefinitionItems (node : InvestigationNodeDto) : option (list (ustring * ustring)) :=
  nodeType ← t "incident.nodeType" []; endpoint ← number_or_missing (node_endpointId node);
  pid ← number_or_missing (node_pid node);
  processLabel ← t "incident.process" []; process ← nullable_text (node_processName node);
  destinationLabel ← t "incident.destination" []; destination ← nullable_text (node_destination node);
  protocolLabel ← t "incident.protocol" []; protocol ← nullable_text (node_protocol node);
  observedLabel ← t "incident.observedAt" []; observed ← formatDate (node_occurredAt node);
  risk ← number_or_missing (node_riskScore node);
  Some [(nodeType, lit_name (node_nodeType node)); (u! "Endpoint", endpoint); (u! "PID", pid); (processLabel, process);
        (destinationLabel, destination); (protocolLabel, protocol); (observedLabel, observed); (u! "Risk", risk)].

(** What the selected context shows. *)
Inductive SelectedView :=
| NothingSelected
| NodeSelected (label : ustring) (items : list (ustring * ustring)) (links : list ustring)
| EdgeSelected (relation source target : ustring) (evidence : InvestigationEvidence) (observedAt : ustring) (links : list ustring).

Definition SelectedContext (selection : option InvestigationSelection) (investigation : IncidentInvestigationDto) :
  option SelectedView :=
  match selectedNode selection investigation, selectedEdge selection investigation with
  | Some node, _ =>
    items ← nodeDefinitionItems node; links ← NodeLinks node; Some (NodeSelected (node_label node) items links)
  | None, None => Some NothingSelected
  | None, Some edge =>
    let label (id : ustring) := default id (node_label <$> node_by_id investigation id) in
    relation ← relationLabel (edge_relation edge); observedAt ← formatDate (edge_observedAt edge);
    links ← EvidenceLinks edge investigation;
    Some (EdgeSelected relation (label (edge_sourceNodeId edge)) (label (edge_targetNodeId edge))
            (edge_evidence edge) observedAt links)
  end.

(** A row of the evidence table. *)
Record EvidenceRow := mkEvidenceRow {
  row_edge : InvestigationEdgeDto; row_pressed : bool; row_marked : bool;
  row_relation : ustring; row_source : ustring; row_target : ustring; row_observedAt : ustring; row_links : list ustring;
}.

Definition nodeById (investigation : IncidentInvestigationDto) : list (ustring * InvestigationNodeDto) :=
  map_of (map (λ node, (node_nodeId node, node)) (inv_nodes investigation)).

Definition evidence_row (selection : option InvestigationSelection) (investigation : IncidentInvestigationDto)
  (edge : InvestigationEdgeDto) : option EvidenceRow :=
  let selectedIds := selectionNodeIds selection investigation in
  let selected := bool_decide (selection = Some (EDGE (edge_edgeId edge))) in
  let connected := bool_decide (edge_sourceNodeId edge ∈ selectedIds) || bool_decide (edge_targetNodeId edge ∈ selectedIds) in
  let label (id : ustring) := default id (node_label <$> map_get id (nodeById investigation)) in
  relation ← relationLabel (edge_relation edge); observedAt ← formatDate (edge_observedAt edge);
  links ← EvidenceLinks edge investigation;
  Some (mkEvidenceRow edge selected (selected || connected) relation (label (edge_sourceNodeId edge))
          (label (edge_targetNodeId edge)) observedAt links).

Definition EvidenceTable (selection : option InvestigationSelection) (investigation : IncidentInvestigationDto) :
  option (list EvidenceRow) :=
  mapM (evidence_row selection investigation) (inv_edges investigation).

(** ** The attack timeline *)

Record TimelineRow := mkTimelineRow {
  item_next : option InvestigationSelection; item_selected : bool;
  item_heading : ustring; item_text : ustring; item_link : option ustring;
}.

Definition timeline_summary (item : AttackTimelineItemDto) : option ustring :=
  match item_itemType item with
  | item_itemType_EVENT =>
    match item_eventType item with
    | Some eventType =>
      if bool_decide (item_summary item = lit_name eventType ++ u! " observed")
      then t "event.observedFallback" [(u! "eventType", I18n.PText (lit_name eventType))]
      else Some (item_summary item)
    | None => Some (item_summary item)
    end
  | _ => detectionSummary t (Some (item_summary item)) (item_summary item)
  end.

Definition event_of_item (item : AttackTimelineItemDto) : option (option ustring) :=
  match item_eventId item with
  | Some eventId =>
    if truthy eventId then Some <$> event_link eventId (item_endpointId item) (item_occurredAt item) else Some None
  | None => Some None
  end.

(** An item leads to its alert, or else to its event. *)
Definition timeline_link (item : AttackTimelineItemDto) : option (option ustring) :=
  match item_alertId item with
  | Some alertId => if negb (alertId =? 0) then Some (Some (u! "/alerts/" ++ string_of_Z alertId)) else event_of_item item
  | None => event_of_item item
  end.

Definition timeline_row (investigation : option IncidentInvestigationDto) (selection : option InvestigationSelection)
  (item : AttackTimelineItemDto) : option TimelineRow :=
  heading ← match item_itemType item with
            | item_itemType_EVENT => Some (item_title item)
            | _ => detectionTitle t (item_title item) None
            end;
  text ← timeline_summary item; link ← timeline_link item;
  Some (mkTimelineRow (investigation ← investigation; selectionForTimelineItem investigation item)
          (match investigation with
           | Some investigation => selectionMatchesTimelineItem selection investigation item
           | None => false
           end) heading text link).

Definition AttackTimeline (items : list AttackTimelineItemDto) (investigation : option IncidentInvestigationDto)
  (selection : option InvestigationSelection) : option (list TimelineRow) :=
  mapM (timeline_row investigation selection) items.
End view.

(** ** The page *)

(** The route's parameter, and the last selection with the incident it was made on. *)
Record IncidentPage := mkIncidentPage {
  page_param : option ustring;
  selectionState : option (Z * InvestigationSelection);
}.

(** [Number(useParams().incidentId)], when it is a positive integer. *)
Definition incidentId (page : IncidentPage) : option Z :=
  param ← page_param page; positive_int (number_of param).

Definition selection (page : IncidentPage) : option InvestigationSelection :=
  match selectionState page, incidentId page with
  | Some (id, value), Some current => if id =? current then Some value else None
  | _, _ => None
  end.

(** The page stays mounted when the route's parameter changes; evidence can be
    selected while a valid incident is shown. *)
Inductive PageEvent := OpenIncident (param : option ustring) | SelectEvidence (value : InvestigationSelection).

Definition page_step (page : IncidentPage) (event : PageEvent) : option IncidentPage :=
  match event with
  | OpenIncident param => Some (mkIncidentPage param (selectionState page))
  | SelectEvidence value => id ← incidentId page; Some (mkIncidentPage (page_param page) (Some (id, value)))
  end.

Definition page_mount (param : option ustring) : IncidentPage := mkIncidentPage param None.
Definition page_run (param : option ustring) (events : list PageEvent) : option IncidentPage :=
  foldM page_step (page_mount param) events.

(** The request for the process tree, and the process it asks for. *)
Definition process_tree_call (page : IncidentPage) (incident_endpoint : option Z)
  (investigation : option IncidentInvestigationDto) : option ApiCall :=
  endpointId ← incident_endpoint; data ← investigation;
  pid ← selectedProcessPid (selection page) investigation;
  Some (processTree endpointId
    [(u! "timePreset", QString (u! "CUSTOM")); (u! "from", QString (range_from (inv_timeRange data)));
     (u! "to", QString (range_to (inv_timeRange data))); (u! "selectedPid", QNumber (num_of_Z pid))]).

(** The status the analyst drafts; the form starts afresh for every saved version. *)
Definition save_status (canUpdate pending : bool) (saved draft : IncidentStatus) (id : Z) : option ApiCall :=
  if canUpdate && negb (pending || bool_decide (draft = saved))
  then Some (updateIncident id (JObj [(u! "status", JStr (lit_name draft))])) else None.

(** ** Lemmas *)

Lemma node_by_id_Some investigation id node :
  node_by_id investigation id = Some node → node ∈ inv_nodes investigation ∧ node_nodeId node = id.
Proof. intros [Hin Hid]%js_find_Some. by breflect. Qed.

Lemma node_by_id_of investigation node :
  NoDup (node_nodeId <$> inv_nodes investigation) → node ∈ inv_nodes investigation →
  node_by_id investigation (node_nodeId node) = Some node.
Proof.
  intros Hnd Hin. unfold node_by_id. induction (inv_nodes investigation) as [|m nodes IH]; [by apply not_elem_of_nil in Hin|].
  cbn [fmap list_fmap] in Hnd. apply NoDup_cons in Hnd as [Hm Hnd]. cbn [js_find]. apply elem_of_cons in Hin as [->|Hin].
  - by rewrite bool_decide_eq_true_2.
  - rewrite bool_decide_eq_false_2; [by apply IH|]. intros Heq. apply Hm. rewrite Heq. by apply list_elem_of_fmap_2.
Qed.

Lemma first_pid_Some investigation ids pid :
  first_pid investigation ids = Some pid →
  ∃ node, node ∈ inv_nodes investigation ∧ node_nodeType node = Node_PROCESS ∧
    node_pid node = Some pid ∧ node_nodeId node ∈ ids.
Proof.
  induction ids as [|id ids IH]; [done|]. cbn [first_pid]. destruct (node_by_id _ id) as [node|] eqn:E.
  - apply node_by_id_Some in E as [Hin <-]. case_match eqn:Hc.
    + intros Hp. breflect. exists node. split_and!; [done..|set_solver].
    + intros H. destruct (IH H) as (m & ?&?&?&?). exists m. split_and!; [done..|set_solver].
  - intros H. destruct (IH H) as (m & ?&?&?&?). exists m. split_and!; [done..|set_solver].
Qed.

Lemma first_pid_None investigation ids node :
  NoDup (node_nodeId <$> inv_nodes investigation) → first_pid investigation ids = None →
  node ∈ inv_nodes investigation → node_nodeId node ∈ ids → node_nodeType node = Node_PROCESS →
  node_pid node = None.
Proof.
  intros Hnd. induction ids as [|id ids IH]; [no_elem|]. cbn [first_pid]. intros H Hin Hid Hty.
  apply elem_of_cons in Hid as [<-|Hid].
  - rewrite node_by_id_of in H by done. rewrite (bool_decide_eq_true_2 _ Hty) in H. cbn [andb] in H.
    case_bool_decide as Hp; [done|]. by apply eq_None_not_Some.
  - destruct (node_by_id investigation id) as [m|]; [|by apply IH].
    case_match; [|by apply IH]. breflect. rewrite H in *. by destruct H1.
Qed.

(** A node that is selected is the one of its identifier. *)
Lemma selected_node_ids sel investigation node :
  selectedNode sel investigation = Some node →
  node ∈ inv_nodes investigation ∧ selectionNodeIds sel investigation = [node_nodeId node].
Proof.
  destruct sel as [[id|id]|]; [|done..]. cbn [selectedNode selectionNodeIds].
  intros [Hin <-]%node_by_id_Some. done.
Qed.

Lemma matches_iff sel investigation item :
  selectionMatchesTimelineItem (Some sel) investigation item = true ↔
  (∃ node, node ∈ inv_nodes investigation ∧ node_nodeId node ∈ selectionNodeIds (Some sel) investigation ∧
     nodeMatchesTimeline node item = true) ∨
  (∃ edge, selectedEdge (Some sel) investigation = Some edge ∧ edgeMatchesTimeline edge item = true).
Proof.
  cbn [selectionMatchesTimelineItem]. rewrite orb_true_iff, js_some_true. f_equiv.
  - split; [intros (n & [Hin Hid]%js_filter_elem & Hm)|intros (n & Hin & Hid & Hm)]; exists n.
    + breflect. done.
    + split; [|done]. apply js_filter_elem. split; [done|]. by apply bool_decide_eq_true.
  - destruct (selectedEdge (Some sel) investigation) as [e|].
    + split; [intros ?; by exists e|intros (? & [= ->] & ?); done].
    + split; [done|intros (? & [=] & _)].
Qed.

Lemma process_of_selection sel investigation pid :
  selectedProcessPid sel (Some investigation) = Some pid →
  ∃ node, node ∈ inv_nodes investigation ∧ node_nodeType node = Node_PROCESS ∧ node_pid node = Some pid ∧
    node_nodeId node ∈ selectionNodeIds sel investigation.
Proof.
  unfold selectedProcessPid. destruct (selectedNode _ _) as [n|] eqn:E; [|by apply first_pid_Some].
  apply selected_node_ids in E as [Hin Hids]. case_bool_decide as Hty; [|by apply first_pid_Some].
  intros Hp. exists n. rewrite Hids. split_and!; [done..|set_solver].
Qed.

(** C16: the attack timeline and the evidence graph point at each other: the control
    of a timeline item is there exactly when the graph has a node of its record,
    pressing it marks that item, and an item without a control is marked by no
    node. The process shown for a selection is a process node of the selection
    with its identifier; when none is shown and the identifiers of the graph are
    distinct, no selected process has one. *)
Theorem investigation_selection_spec investigation item sel :
  (selectionForTimelineItem investigation item = None ↔
     ∀ node, node ∈ inv_nodes investigation → nodeMatchesTimeline node item = false) ∧
  (∀ next, selectionForTimelineItem investigation item = Some next →
     selectionMatchesTimelineItem (Some next) investigation item = true) ∧
  (∀ id, selectionForTimelineItem investigation item = None →
     selectionMatchesTimelineItem (Some (NODE id)) investigation item = false) ∧
  (∀ pid, selectedProcessPid sel (Some investigation) = Some pid →
     ∃ node, node ∈ inv_nodes investigation ∧ node_nodeType node = Node_PROCESS ∧ node_pid node = Some pid ∧
       node_nodeId node ∈ selectionNodeIds sel investigation) ∧
  (NoDup (node_nodeId <$> inv_nodes investigation) → selectedProcessPid sel (Some investigation) = None →
     ∀ node, node ∈ inv_nodes investigation → node_nodeId node ∈ selectionNodeIds sel investigation →
       node_nodeType node = Node_PROCESS → node_pid node = None).
Proof.
  assert (selectionForTimelineItem investigation item = None ↔
     ∀ node, node ∈ inv_nodes investigation → nodeMatchesTimeline node item = false) as Hnone.
  { unfold selectionForTimelineItem. rewrite <- js_find_None. by destruct (js_find _ _). }
  split_and!; [exact Hnone| | | |].
  - unfold selectionForTimelineItem. destruct (js_find _ _) as [n|] eqn:E; [|done]. intros next [= <-].
    apply js_find_Some in E as [Hin Hm]. apply matches_iff. left. exists n. split_and!; [done| |done].
    cbn [selectionNodeIds]. set_solver.
  - intros id Hno. apply not_true_iff_false. rewrite matches_iff. intros [(n & Hin & _ & Hm)|(e & [=] & _)].
    rewrite Hnone in Hno. by rewrite (Hno n Hin) in Hm.
  - intros pid. apply process_of_selection.
  - unfold selectedProcessPid. intros Hnd. destruct (selectedNode _ _) as [n|] eqn:E; [|by eauto using first_pid_None].
    case_bool_decide as Hty; [|by eauto using first_pid_None]. apply selected_node_ids in E as [Hin Hids].
    intros Hp m Hm Hid _. rewrite Hids, list_elem_of_singleton in Hid.
    pose proof (node_by_id_of _ _ Hnd Hin) as H1. pose proof (node_by_id_of _ _ Hnd Hm) as H2. rewrite Hid in H2. congruence.
Qed.

(** *** Labels *)

(** A node without its label; localizing changes nothing else. *)
Definition unlabelled (node : InvestigationNodeDto) : InvestigationNodeDto := with_label node [].

Lemma find_unlabelled (p : InvestigationNodeDto → bool) nodes :
  (∀ node, p (unlabelled node) = p node) →
  js_find p (unlabelled <$> nodes) = unlabelled <$> js_find p nodes.
Proof.
  intros Hp. induction nodes as [|n nodes IH]; [done|]. cbn [fmap list_fmap js_find]. rewrite Hp.
  by destruct (p n).
Qed.

Lemma filter_unlabelled (p : InvestigationNodeDto → bool) nodes :
  (∀ node, p (unlabelled node) = p node) →
  js_filter p (unlabelled <$> nodes) = unlabelled <$> js_filter p nodes.
Proof.
  intros Hp. induction nodes as [|n nodes IH]; [done|]. cbn [fmap list_fmap]. rewrite !js_filter_cons, Hp, IH.
  by destruct (p n).
Qed.

Lemma some_unlabelled (p : InvestigationNodeDto → bool) nodes :
  (∀ node, p (unlabelled node) = p node) → js_some p (unlabelled <$> nodes) = js_some p nodes.
Proof.
  intros Hp. unfold js_some. induction nodes as [|n nodes IH]; [done|]. cbn [fmap list_fmap existsb]. by rewrite Hp, IH.
Qed.

(** Two graphs that differ in the labels of their nodes. *)
Record relabelled (a b : IncidentInvestigationDto) : Prop := {
  same_nodes : unlabelled <$> inv_nodes a = unlabelled <$> inv_nodes b;
  same_rest : with_nodes a [] = with_nodes b [];
}.

Lemma localized_nodes t nodes nodes' :
  mapM (localized_node t) nodes = Some nodes' → unlabelled <$> nodes' = unlabelled <$> nodes.
Proof.
  intros H%mapM_Some. induction H as [|n n' nodes nodes' Hn _ IH]; [done|]. cbn [fmap list_fmap]. rewrite IH. f_equal.
  unfold localized_node in Hn. destruct (detectionTitle _ _ _); [|done]. injection Hn as <-. by destruct n.
Qed.

Lemma localized_relabelled t inv loc : localizedInvestigation t inv = Some loc → relabelled loc inv.
Proof.
  unfold localizedInvestigation. destruct (mapM _ _) as [nodes|] eqn:E; [|done]. intros [= <-].
  apply localized_nodes in E. destruct inv. by split.
Qed.

Section relabelled.
Context (a b : IncidentInvestigationDto) (Hab : relabelled a b).

Lemma relabelled_edges : inv_edges a = inv_edges b.
Proof. destruct Hab as [_ H]. destruct a, b. by injection H. Qed.

Lemma relabelled_find p : (∀ node, p (unlabelled node) = p node) →
  unlabelled <$> js_find p (inv_nodes a) = unlabelled <$> js_find p (inv_nodes b).
Proof. intros Hp. by rewrite <- !find_unlabelled, (same_nodes _ _ Hab). Qed.

Lemma relabelled_node id : unlabelled <$> node_by_id a id = unlabelled <$> node_by_id b id.
Proof. apply relabelled_find. by intros []. Qed.

Lemma relabelled_selectedEdge sel : selectedEdge sel a = selectedEdge sel b.
Proof. unfold selectedEdge. by rewrite relabelled_edges. Qed.

Lemma relabelled_ids sel : selectionNodeIds sel a = selectionNodeIds sel b.
Proof. unfold selectionNodeIds. by rewrite relabelled_selectedEdge. Qed.

Lemma relabelled_fallback : graphRequiresFallback a = graphRequiresFallback b.
Proof.
  destruct Hab as [Hn H]. apply (f_equal length) in Hn. rewrite !length_fmap in Hn. unfold graphRequiresFallback.
  rewrite Hn. destruct a, b. by injection H as -> -> -> -> -> -> -> -> ->.
Qed.

Lemma relabelled_counts : node_counts a = node_counts b.
Proof.
  unfold node_counts. apply map_ext. intros ty. f_equal. rewrite <- (length_fmap unlabelled), <- filter_unlabelled by (by intros []).
  rewrite (same_nodes _ _ Hab), filter_unlabelled by (by intros []). by rewrite length_fmap.
Qed.

Lemma unlabelled_inj_on {X} (f : InvestigationNodeDto → X) n m :
  (∀ node, f (unlabelled node) = f node) → unlabelled n = unlabelled m → f n = f m.
Proof. intros Hf H. by rewrite <- (Hf n), <- (Hf m), H. Qed.

Lemma relabelled_first_pid ids : first_pid a ids = first_pid b ids.
Proof.
  induction ids as [|id ids IH]; [done|]. cbn [first_pid]. pose proof (relabelled_node id) as H.
  destruct (node_by_id a id) as [n|], (node_by_id b id) as [m|]; try done. injection H as H.
  rewrite IH, (unlabelled_inj_on node_nodeType n m), (unlabelled_inj_on node_pid n m); try done; by intros [].
Qed.

Lemma relabelled_pid sel : selectedProcessPid sel (Some a) = selectedProcessPid sel (Some b).
Proof.
  unfold selectedProcessPid. rewrite relabelled_first_pid, relabelled_ids.
  assert (unlabelled <$> selectedNode sel a = unlabelled <$> selectedNode sel b) as H
    by (destruct sel as [[]|]; [apply relabelled_node|done..]).
  destruct (selectedNode sel a) as [n|], (selectedNode sel b) as [m|]; try done. injection H as H.
  rewrite (unlabelled_inj_on node_nodeType n m), (unlabelled_inj_on node_pid n m); try done; by intros [].
Qed.

Lemma relabelled_timeline sel item : selectionMatchesTimelineItem sel a item = selectionMatchesTimelineItem sel b item.
Proof.
  unfold selectionMatchesTimelineItem. destruct sel as [sel|]; [|done]. rewrite relabelled_selectedEdge, relabelled_ids. f_equal.
  rewrite <- !(some_unlabelled _ (js_filter _ _)) by (by intros []).
  rewrite <- !filter_unlabelled by (by intros []). by rewrite (same_nodes _ _ Hab).
Qed.

Lemma relabelled_links edge : EvidenceLinks edge a = EvidenceLinks edge b.
Proof.
  unfold EvidenceLinks. assert (unlabelled <$> event_node edge a = unlabelled <$> event_node edge b) as H
    by (apply relabelled_find; by intros []).
  destruct (event_node edge a) as [n|], (event_node edge b) as [m|]; try done. injection H as H. cbn [mbind option_bind].
  rewrite (unlabelled_inj_on node_endpointId n m), (unlabelled_inj_on node_occurredAt n m); try done; by intros [].
Qed.

Lemma relabelled_unique : NoDup (node_nodeId <$> inv_nodes b) → NoDup (node_nodeId <$> inv_nodes a).
Proof.
  assert (∀ nodes : list InvestigationNodeDto, node_nodeId <$> nodes = node_nodeId <$> (unlabelled <$> nodes)) as H.
  { intros nodes. rewrite <- list_fmap_compose. apply list_fmap_ext. intros ? [] _. done. }
  by rewrite (H (inv_nodes a)), (H (inv_nodes b)), (same_nodes _ _ Hab).
Qed.
End relabelled.

#[export] Instance relabelled_equivalence : Equivalence relabelled.
Proof.
  split.
  - done.
  - intros a b [? ?]. by split.
  - intros a b c [H1 H2] [H3 H4]. split; by etransitivity.
Qed.

#[export] Instance selectionNodeIds_proper : Proper ((=) ==> relabelled ==> (=)) selectionNodeIds.
Proof. intros sel _ <- a b Hab. by apply relabelled_ids. Qed.
#[export] Instance selectedEdge_proper : Proper ((=) ==> relabelled ==> (=)) selectedEdge.
Proof. intros sel _ <- a b Hab. by apply relabelled_selectedEdge. Qed.
#[export] Instance graphRequiresFallback_proper : Proper (relabelled ==> (=)) graphRequiresFallback.
Proof. intros a b Hab. by apply relabelled_fallback. Qed.
#[export] Instance node_counts_proper : Proper (relabelled ==> (=)) node_counts.
Proof. intros a b Hab. by apply relabelled_counts. Qed.
#[export] Instance selectionMatches_proper : Proper ((=) ==> relabelled ==> (=) ==> (=)) selectionMatchesTimelineItem.
Proof. intros sel _ <- a b Hab item _ <-. by apply relabelled_timeline. Qed.
#[export] Instance EvidenceLinks_proper : Proper ((=) ==> relabelled ==> (=)) EvidenceLinks.
Proof. intros edge _ <- a b Hab. by apply relabelled_links. Qed.

Lemma nodeById_find investigation id :
  NoDup (node_nodeId <$> inv_nodes investigation) → map_get id (nodeById investigation) = node_by_id investigation id.
Proof.
  intros Hnd. unfold nodeById. rewrite map_of_id; [|by rewrite <- list_fmap_compose].
  unfold node_by_id. clear Hnd. induction (inv_nodes investigation) as [|n nodes IH]; [done|]. cbn [map map_get js_find].
  case_decide as E; case_bool_decide as E'; [done|by subst|by subst|exact IH].
Qed.

Lemma edge_by_id investigation edge :
  NoDup (edge_edgeId <$> inv_edges investigation) → edge ∈ inv_edges investigation →
  selectedEdge (Some (EDGE (edge_edgeId edge))) investigation = Some edge.
Proof.
  cbn [selectedEdge]. induction (inv_edges investigation) as [|e edges IH]; [no_elem|].
  cbn [fmap list_fmap js_find]. intros [He Hnd]%NoDup_cons [->|Hin]%elem_of_cons; [by rewrite bool_decide_eq_true_2|].
  rewrite bool_decide_eq_false_2; [by apply IH|]. intros Heq. apply He. rewrite Heq. by apply list_elem_of_fmap_2.
Qed.

Lemma evidence_row_spec `{DateHost} t medium locale sel investigation edge row :
  evidence_row t medium locale sel investigation edge = Some row →
  NoDup (node_nodeId <$> inv_nodes investigation) → NoDup (edge_edgeId <$> inv_edges investigation) →
  edge ∈ inv_edges investigation →
  row_edge row = edge ∧
  (row_marked row = true ↔ sel = Some (EDGE (edge_edgeId edge)) ∨
     edge_sourceNodeId edge ∈ selectionNodeIds sel investigation ∨ edge_targetNodeId edge ∈ selectionNodeIds sel investigation) ∧
  SelectedContext t medium locale (Some (EDGE (edge_edgeId edge))) investigation =
    Some (EdgeSelected (row_relation row) (row_source row) (row_target row) (edge_evidence edge) (row_observedAt row) (row_links row)).
Proof.
  intros Hrow Hn He Hin. unfold evidence_row in Hrow. unfold SelectedContext. rewrite edge_by_id by done. cbn [selectedNode].
  rewrite !nodeById_find in Hrow by done.
  destruct (relationLabel t _) as [rel|]; [|done]. cbn [mbind option_bind] in Hrow |- *.
  destruct (formatDateTime _ _ _) as [at_|]; [|done]. cbn [mbind option_bind] in Hrow |- *.
  destruct (EvidenceLinks edge investigation) as [links|]; [|done]. injection Hrow as <-. split_and!; [done| |done].
  cbn [row_marked]. rewrite !orb_true_iff, !bool_decide_eq_true. done.
Qed.

(** C17: the views of an investigation agree. Translating the labels changes no
    selection, count, fallback, process, link or timeline mark, so the panel, which
    works on the translated graph, and the page, which works on the received one,
    tell the same story. With distinct identifiers the evidence table has a row per
    edge, marks exactly the selected edge and the edges that touch the selection,
    and choosing a row shows in the context what the row says. *)
Theorem evidence_views_agree `{DateHost} t medium locale inv loc sel :
  localizedInvestigation t inv = Some loc →
  (selectionNodeIds sel loc = selectionNodeIds sel inv ∧ selectedProcessPid sel (Some loc) = selectedProcessPid sel (Some inv) ∧
   graphRequiresFallback loc = graphRequiresFallback inv ∧ node_counts loc = node_counts inv ∧
   (∀ item, selectionMatchesTimelineItem sel loc item = selectionMatchesTimelineItem sel inv item) ∧
   (∀ edge, EvidenceLinks edge loc = EvidenceLinks edge inv)) ∧
  (NoDup (node_nodeId <$> inv_nodes inv) → NoDup (edge_edgeId <$> inv_edges inv) →
   ∀ rows, EvidenceTable t medium locale sel loc = Some rows →
   Forall2 (λ edge row, row_edge row = edge ∧
     (row_marked row = true ↔ sel = Some (EDGE (edge_edgeId edge)) ∨
        edge_sourceNodeId edge ∈ selectionNodeIds sel inv ∨ edge_targetNodeId edge ∈ selectionNodeIds sel inv) ∧
     SelectedContext t medium locale (Some (EDGE (edge_edgeId edge))) loc =
       Some (EdgeSelected (row_relation row) (row_source row) (row_target row) (edge_evidence edge)
               (row_observedAt row) (row_links row))) (inv_edges inv) rows).
Proof.
  intros Hloc%localized_relabelled. split.
  - split_and!; [by rewrite Hloc|by apply relabelled_pid|by rewrite Hloc|by rewrite Hloc|..]; intros; by rewrite Hloc.
  - intros Hn He rows Hrows%mapM_Some. rewrite (relabelled_edges _ _ Hloc) in Hrows.
    apply (Forall2_impl (λ edge row, edge ∈ inv_edges inv ∧ evidence_row t medium locale sel loc edge = Some row)).
    + apply Forall2_same_length_lookup. apply Forall2_same_length_lookup in Hrows as [Hl Hr]. split; [done|].
      intros i x y Hx Hy. split; [by eapply list_elem_of_lookup_2|by eapply Hr].
    + intros edge row [Hin Hrow]. rewrite <- (relabelled_ids _ _ Hloc). apply (evidence_row_spec _ _ _ _ _ _ _ Hrow).
      * by apply (relabelled_unique _ _ Hloc).
      * by rewrite (relabelled_edges _ _ Hloc).
      * by rewrite (relabelled_edges _ _ Hloc).
Qed.

(** *** Links to events *)

Lemma component_decoded s e : units_ok s → encodeURIComponent s = Some e → form_decode e = s.
Proof.
  intros Hs He. unfold form_decode. replace (map plus_to_space e) with e; [by apply encodeURIComponent_decode|].
  rewrite <- (map_id e) at 1. apply map_ext_in. intros c Hc%list_elem_of_In. unfold plus_to_space.
  destruct (encodeURIComponent_safe s e c Hs He Hc) as [H| ->]; [|done].
  destruct (Z.eqb_spec c 43) as [->|]; [by vm_compute in H|done].
Qed.

Lemma component_safe_id s : Forall (λ c, 0 ≤ c < 128 ∧ component_safe c = true) s → encodeURIComponent s = Some s.
Proof.
  intros Hs. assert (Forall (λ c, 0 ≤ c < 128) s) as Ha by (eapply Forall_impl; [exact Hs|]; naive_solver).
  unfold encodeURIComponent. rewrite decide_True by by apply usv_lit_units. rewrite utf8_encode_ascii by done. f_equal.
  clear Ha. induction Hs as [|c s [_ Hc] Hs IH]; [done|]. cbn [flat_map]. rewrite IH. unfold component_byte. by rewrite Hc.
Qed.

Lemma id_component n : 0 < n → encodeURIComponent (string_of_Z n) = Some (string_of_Z n).
Proof.
  intros Hn. apply component_safe_id. unfold string_of_Z. destruct (n <? 0) eqn:E; breflect; [lia|].
  destruct (dec_string_spec n ltac:(lia)) as (Hd & _ & _). eapply Forall_impl; [exact Hd|].
  unfold is_digit, component_safe. intros c Hc. cbv beta in Hc. rewrite Hc. breflect. split; [lia|done].
Qed.

Lemma component_free s e c : units_ok s → encodeURIComponent s = Some e → component_safe c = false → c ≠ 37 → c ∉ e.
Proof. intros Hs He Hc H37 Hin. destruct (encodeURIComponent_safe s e c Hs He Hin); congruence. Qed.

Lemma component_ascii s e : units_ok s → encodeURIComponent s = Some e → Forall (λ c, 0 ≤ c < 128) e.
Proof.
  intros Hs He. apply Forall_forall. intros c Hc. destruct (encodeURIComponent_safe s e c Hs He Hc) as [H| ->]; [|lia].
  unfold component_safe in H. rewrite !orb_true_iff in H. destruct H as [[[H|H]|H]|H]; breflect; try lia.
  revert c H Hc. change (∀ c, c ∈ u! "-_.!~*'()" → c ∈ e → 0 ≤ c < 128).
  assert (Forall (λ c, 0 ≤ c < 128) (u! "-_.!~*'()")) as Hl by (by_compute).
  rewrite Forall_forall in Hl. intros c H _. by apply Hl.
Qed.

(** A name or a value of a query written by hand. *)
Definition component (s e : ustring) : Prop := units_ok s ∧ encodeURIComponent s = Some e.

Lemma component_pair n v e : component n n → component v e →
  38 ∉ n ++ 61 :: e ∧ Forall (λ c, 0 ≤ c < 128) (n ++ 61 :: e) ∧
  (let '(n', v') := split_pair (n ++ 61 :: e) in (form_decode n', form_decode v')) = (n, v).
Proof.
  intros [Hn En] [Hv Ev]. split_and!.
  - rewrite elem_of_app, elem_of_cons. intros [H|[H|H]]; [|done|].
    + by apply (component_free _ _ 38 Hn En) in H.
    + by apply (component_free _ _ 38 Hv Ev) in H.
  - apply Forall_app. split; [exact (component_ascii _ _ Hn En)|]. apply Forall_cons. split; [lia|exact (component_ascii _ _ Hv Ev)].
  - rewrite split_pair_app by (intros H; by apply (component_free _ _ 61 Hn En) in H).
    by rewrite (component_decoded _ _ Hn En), (component_decoded _ _ Hv Ev).
Qed.

Lemma component_query n1 v1 e1 n2 v2 e2 :
  component n1 n1 → component v1 e1 → component n2 n2 → component v2 e2 →
  params_of_string (63 :: (n1 ++ 61 :: e1) ++ 38 :: (n2 ++ 61 :: e2)) = [(n1, v1); (n2, v2)].
Proof.
  intros Hn1 Hv1 Hn2 Hv2. destruct (component_pair _ _ _ Hn1 Hv1) as (F1 & A1 & P1).
  destruct (component_pair _ _ _ Hn2 Hv2) as (F2 & A2 & P2). unfold params_of_string.
  rewrite Z.eqb_refl, utf8_encode_ascii by (apply Forall_app; split; [done|]; apply Forall_cons; split; [lia|done]).
  unfold params_of_bytes. rewrite split_on_app, split_on_free by done.
  assert (∀ (n e : ustring), truthy (n ++ 61 :: e) = true) as Ht by (by intros [] ?).
  rewrite !js_filter_cons, !Ht. cbn [js_filter List.filter map]. by rewrite P1, P2.
Qed.

(** The query of a link to an event, read back. *)
Lemma event_query_params endpointId occurredAt query :
  0 < endpointId → units_ok occurredAt → event_query endpointId occurredAt = Some query →
  params_of_string query = [(u! "endpointId", string_of_Z endpointId); (u! "occurredAt", occurredAt)].
Proof.
  intros Hid Ho. unfold event_query. destruct (encodeURIComponent occurredAt) as [e|] eqn:E; [|done].
  intros [= <-]. pose proof (string_of_Z_ascii endpointId) as Ha.
  rewrite <- (component_query (u! "endpointId") (string_of_Z endpointId) (string_of_Z endpointId) (u! "occurredAt") occurredAt e).
  - reflexivity.
  - split; [by_compute|by vm_compute].
  - split; [eapply Forall_impl; [exact Ha|]; simpl; lia|by apply id_component].
  - split; [by_compute|by vm_compute].
  - done.
Qed.

(** A link opens an event when its query passes the detail page's check and says
    the endpoint and the time. *)
Definition opens_event `{DateHost} (link eventId : ustring) (endpointId : Z) (occurredAt : ustring) : Prop :=
  ∃ query, link = u! "/events/" ++ eventId ++ query ∧ validEventDetailQuery (params_of_string query) = true ∧
    positiveInteger (params_get (params_of_string query) (u! "endpointId")) = Some endpointId ∧
    params_get (params_of_string query) (u! "occurredAt") = Some occurredAt.

(** An endpoint the API can have and a time the host can read. *)
Definition readable `{DateHost} (endpointId : Z) (occurredAt : ustring) : Prop :=
  0 < endpointId ≤ 2 ^ 53 ∧ units_ok occurredAt ∧ is_Some (Date_parse occurredAt).

Lemma event_link_opens `{DateHost} eventId endpointId occurredAt link :
  event_link eventId endpointId occurredAt = Some link → readable endpointId occurredAt →
  opens_event link eventId endpointId occurredAt.
Proof.
  unfold event_link. destruct (event_query endpointId occurredAt) as [query|] eqn:E; [|done].
  intros [= <-] (Hid & Ho & [time Ht]). apply event_query_params in E; [|lia|done].
  exists query. rewrite E. split; [done|].
  assert (params_get [(u! "endpointId", string_of_Z endpointId); (u! "occurredAt", occurredAt)] (u! "endpointId")
    = Some (string_of_Z endpointId)) as He by reflexivity.
  assert (params_get [(u! "endpointId", string_of_Z endpointId); (u! "occurredAt", occurredAt)] (u! "occurredAt")
    = Some occurredAt) as Hoc by reflexivity.
  assert (positive_int (number_of (string_of_Z endpointId)) = Some endpointId) as Hp
    by (rewrite number_of_string_of_Z by done; apply positive_int_Z; lia).
  split_and!; [unfold validEventDetailQuery|unfold positiveInteger|]; rewrite ?He, ?Hoc; [| |done].
  - cbn [number_of_opt]. by rewrite Hp, Ht.
  - exact Hp.
Qed.

Lemma known_event_link_opens `{DateHost} eventId endpointId occurredAt links link :
  known_event_link eventId endpointId occurredAt = Some links → link ∈ links →
  ∃ e i o, (eventId = Some e ∧ endpointId = Some i ∧ occurredAt = Some o) ∧ (readable i o → opens_event link e i o).
Proof.
  destruct eventId as [e|], endpointId as [i|], occurredAt as [o|]; cbn [known_event_link]; try (intros [= <-]; by no_elem).
  case_match; [|intros [= <-]; by no_elem]. destruct (event_link e i o) as [l|] eqn:El; [|done].
  intros [= <-] ->%list_elem_of_singleton. exists e, i, o. split; [done|]. by apply event_link_opens.
Qed.

Definition event_path (link : ustring) : bool := starts_with (u! "/events/") link.

Lemma record_link_not_event kind id link :
  (∀ rest, event_path (u! "/" ++ kind ++ u! "/" ++ rest) = false) → link ∈ record_link kind id → event_path link = false.
Proof. intros Hk. destruct id as [n|]; cbn [record_link]; [|no_elem]. intros ->%list_elem_of_singleton. apply Hk. Qed.

Ltac no_event_path := eapply record_link_not_event; [|eassumption]; intros; reflexivity.

(** the evidence links lead where they say: every link to an event that a node,
    an edge or a timeline item shows carries the endpoint and the time of its
    record, and the event page accepts its query and reads them back, for the
    endpoints and times the API can have. *)
Theorem event_links_open `{DateHost} :
  (∀ node links link, NodeLinks node = Some links → link ∈ links → event_path link = true →
     ∃ eventId endpointId occurredAt,
       (node_eventId node = Some eventId ∧ node_endpointId node = Some endpointId ∧ node_occurredAt node = Some occurredAt) ∧
       (readable endpointId occurredAt → opens_event link eventId endpointId occurredAt)) ∧
  (∀ edge investigation links link, EvidenceLinks edge investigation = Some links → link ∈ links → event_path link = true →
     ∃ node eventId endpointId occurredAt, node ∈ inv_nodes investigation ∧
       (edge_eventId edge = Some eventId ∧ node_eventId node = Some eventId ∧ node_endpointId node = Some endpointId ∧
        node_occurredAt node = Some occurredAt) ∧
       (readable endpointId occurredAt → opens_event link eventId endpointId occurredAt)) ∧
  (∀ item link, timeline_link item = Some (Some link) → event_path link = true →
     ∃ eventId, item_eventId item = Some eventId ∧
       (readable (item_endpointId item) (item_occurredAt item) →
        opens_event link eventId (item_endpointId item) (item_occurredAt item))).
Proof.
  split_and!.
  - intros node links link. unfold NodeLinks. destruct (known_event_link _ _ _) as [ev|] eqn:E; [|done].
    cbn [mbind option_bind]. intros [= <-]. rewrite !elem_of_app. intros [Hin|[Hin|[Hin|Hin]]] Hp.
    3: by eapply known_event_link_opens.
    all: exfalso; apply not_false_iff_true in Hp; apply Hp; no_event_path.
  - intros edge investigation links link. unfold EvidenceLinks. destruct (known_event_link _ _ _) as [ev|] eqn:E; [|done].
    cbn [mbind option_bind]. intros [= <-]. rewrite !elem_of_app. intros [Hin|[Hin|Hin]] Hp.
    2,3: exfalso; apply not_false_iff_true in Hp; apply Hp; no_event_path.
    destruct (known_event_link_opens _ _ _ _ _ E Hin) as (e & i & o & (He & Hi & Ho) & Hopen).
    destruct (event_node edge investigation) as [n|] eqn:En; [|done]. apply js_find_Some in En as [Hn Hm]. breflect.
    exists n, e, i, o. split_and!; [done|done| |done..]. congruence.
  - intros item link. unfold timeline_link, event_of_item. destruct (item_alertId item) as [al|]; [case_match|].
    { intros [= <-]. done. }
    all: destruct (item_eventId item) as [e|] eqn:E; [|done]; destruct (truthy e); [|done]; intros Hl _;
      exists e; split; [done|]; apply event_link_opens; destruct (event_link e _ _); [|done]; by injection Hl as ->.
Qed.

(** *** The page *)

Definition is_selection (event : PageEvent) : bool := match event with SelectEvidence _ => true | _ => false end.

(** The last selection among some events, with the page it was made on. *)
Definition last_selection (param : option ustring) (events : list PageEvent) (id : Z) (value : InvestigationSelection) : Prop :=
  ∃ before after page, events = before ++ SelectEvidence value :: after ∧ forallb (λ e, negb (is_selection e)) after = true ∧
    page_run param before = Some page ∧ incidentId page = Some id.

Lemma foldM_snoc {A B} (f : A → B → option A) l x a : foldM f a (l ++ [x]) = (foldM f a l ≫= λ b, f b x).
Proof.
  revert a. induction l as [|y l IH]; intros a; cbn [app foldM mbind option_bind].
  - by destruct (f a x).
  - destruct (f a y) as [b|]; [apply IH|done].
Qed.

(** The slot holds the last selection and the incident it was made on. *)
Lemma selectionState_last param events page id value :
  page_run param events = Some page →
  selectionState page = Some (id, value) ↔ last_selection param events id value.
Proof.
  revert page. induction events as [|event events IH] using rev_ind; intros page; unfold page_run.
  - intros [= <-]. split; [done|]. intros (b & a & p & H & _). by destruct b.
  - rewrite foldM_snoc. change (foldM page_step (page_mount param) events) with (page_run param events).
    destruct (page_run param events) as [before|] eqn:Erun; [|done]. cbn [mbind option_bind].
    specialize (IH before eq_refl). destruct event as [next|v]; cbn [page_step].
    + intros [= <-]. cbn [selectionState]. rewrite IH. split.
      * intros (b & a & p & -> & Ha & Hp & Hid). exists b, (a ++ [OpenIncident next]), p.
        split_and!; [by rewrite <- app_assoc|by rewrite forallb_app, Ha|done..].
      * intros (b & a & p & Heq & Ha & Hp & Hid). destruct a as [|e a _] using rev_ind.
        { by apply app_inj_tail in Heq as [_ [=]]. }
        rewrite app_comm_cons, app_assoc in Heq. apply app_inj_tail in Heq as [-> _].
        rewrite forallb_app in Ha. breflect. by exists b, a, p.
    + destruct (incidentId before) as [i|] eqn:Ei; [|done]. intros [= <-]. cbn [selectionState]. split.
      * intros [= -> ->]. exists events, [], before. done.
      * intros (b & a & p & Heq & Ha & Hp & Hid). destruct a as [|e a _] using rev_ind.
        -- apply app_inj_tail in Heq as [-> [= ->]]. congruence.
        -- rewrite app_comm_cons, app_assoc in Heq. apply app_inj_tail in Heq as [_ <-].
           rewrite forallb_app in Ha. by breflect.
Qed.

(** C18: the page's selection belongs to the incident it shows: after any sequence of
    navigations and choices, something is selected exactly when the last choice was
    made on the incident now shown, so no selection leaks to another incident, and
    the process tree asked for is that of a process of the shown investigation that
    the choice touches. *)
Theorem incident_page_refines param events page value :
  page_run param events = Some page →
  (selection page = Some value ↔ ∃ id, incidentId page = Some id ∧ last_selection param events id value) ∧
  (∀ endpoint investigation call, process_tree_call page endpoint investigation = Some call →
     ∃ id endpointId data node pid, incidentId page = Some id ∧ endpoint = Some endpointId ∧ investigation = Some data ∧
       node ∈ inv_nodes data ∧ node_nodeType node = Node_PROCESS ∧ node_pid node = Some pid ∧
       node_nodeId node ∈ selectionNodeIds (selection page) data ∧
       api call = Some (get (u! "/endpoints/" ++ string_of_Z endpointId ++ u! "/process-tree" ++
         buildQuery [(u! "timePreset", QString (u! "CUSTOM")); (u! "from", QString (range_from (inv_timeRange data)));
                     (u! "to", QString (range_to (inv_timeRange data))); (u! "selectedPid", QNumber (num_of_Z pid))]))).
Proof.
  intros Hrun. split.
  - unfold selection. split.
    + destruct (selectionState page) as [[i v]|] eqn:Es; [|done]. destruct (incidentId page) as [c|] eqn:Ec; [|done].
      destruct (Z.eqb_spec i c) as [->|]; [|done]. intros [= ->]. exists c. split; [done|].
      by apply (selectionState_last _ _ _ _ _ Hrun).
    + intros (i & Hi & Hl%(selectionState_last _ _ _ _ _ Hrun)). by rewrite Hl, Hi, Z.eqb_refl.
  - intros endpoint investigation call. unfold process_tree_call.
    destruct endpoint as [ep|]; [|done]. destruct investigation as [data|]; [|done]. cbn [mbind option_bind].
    destruct (selectedProcessPid _ _) as [pid|] eqn:Ep; [|done]. cbn [mbind option_bind]. intros [= <-].
    destruct (process_of_selection _ _ _ Ep) as (n & ? & ? & ? & Hn).
    destruct (incidentId page) as [i|] eqn:Ei.
    + exists i, ep, data, n, pid. done.
    + assert (selection page = None) as Hs by (unfold selection; rewrite Ei; by destruct (selectionState page) as [[]|]).
      rewrite Hs in Hn. by apply not_elem_of_nil in Hn.
Qed.

(** ** Witnesses *)

Definition sample_node (id : ustring) (type : InvestigationNodeType) (label : ustring) (alertId pid : option Z) : InvestigationNodeDto :=
  mkInvestigationNodeDto alertId None (Some 7) (Some (u! "event-1")) None None label id type
    (Some (u! "2026-07-15T03:00:00Z")) pid None None None None.
Definition sample_edge : InvestigationEdgeDto :=
  mkInvestigationEdgeDto (Some 11) (u! "edge-1") (Some (u! "event-1")) Evidence_OBSERVED None None Rel_TRIGGERED_BY
    (u! "alert-11") (u! "process-42").
Definition sample_investigation (label : ustring) : IncidentInvestigationDto :=
  mkIncidentInvestigationDto 1 [sample_edge] (mkInvestigationFallbackDto true true true) 5 2
    [sample_node (u! "alert-11") Node_ALERT label (Some 11) None;
     sample_node (u! "process-42") Node_PROCESS (u! "powershell.exe") None (Some 42)]
    false (mkTimeRangeDto (u! "2026-07-15T00:00:00Z") (u! "2026-07-15T06:00:00Z")) false [].
Definition sample_item : AttackTimelineItemDto :=
  mkAttackTimelineItemDto (Some 11) 7 None None None item_itemType_ALERT (u! "2026-07-15T03:00:00Z") None [] (u! "alert").

Lemma investigation_selection_spec_witness :
  selectionForTimelineItem (sample_investigation []) sample_item = Some (NODE (u! "alert-11")) ∧
  selectionMatchesTimelineItem (Some (NODE (u! "alert-11"))) (sample_investigation []) sample_item = true.
Proof.
  assert (selectionForTimelineItem (sample_investigation []) sample_item = Some (NODE (u! "alert-11"))) as H
    by (vm_compute; reflexivity).
  split; [exact H|].
  exact (proj1 (proj2 (investigation_selection_spec (sample_investigation []) sample_item None)) _ H).
Defined.

Lemma evidence_views_agree_witness :
  selectedProcessPid (Some (EDGE (u! "edge-1"))) (Some (sample_investigation (u! "희귀 도메인 조회"))) = Some 42 ∧
  ∃ loc, localizedInvestigation (translate KO) (sample_investigation (u! "Rare Domain Query")) = Some loc ∧
    selectedProcessPid (Some (EDGE (u! "edge-1"))) (Some loc) = Some 42.
Proof.
  split; [vm_compute; reflexivity|].
  destruct (localizedInvestigation (translate KO) (sample_investigation (u! "Rare Domain Query"))) as [loc|] eqn:E.
  - exists loc. split; [reflexivity|].
    rewrite (proj1 (proj2 (proj1 (evidence_views_agree (H := utc_host) (translate KO) (λ _ time, string_of_Z time) KO _ loc (Some (EDGE (u! "edge-1"))) E)))).
    vm_compute. reflexivity.
  - exfalso. vm_compute in E. discriminate E.
Defined.

Lemma event_links_open_witness :
  ∃ link, NodeLinks (sample_node (u! "alert-11") Node_ALERT [] None None) = Some [link; u! "/endpoints/7"] ∧
    @opens_event utc_host link (u! "event-1") 7 (u! "2026-07-15T03:00:00Z").
Proof.
  destruct (NodeLinks (sample_node (u! "alert-11") Node_ALERT [] None None)) as [links|] eqn:E; [|vm_compute in E; discriminate E].
  assert (∃ link, links = [link; u! "/endpoints/7"] ∧ event_path link = true) as (link & Hl & Hp).
  { vm_compute in E. injection E as <-. eexists. split; [vm_compute; reflexivity|vm_compute; reflexivity]. }
  exists link. split; [by rewrite Hl|].
  destruct (proj1 (@event_links_open utc_host) _ links link E) as (e & i & o & (He & Hi & Ho) & Hopen);
    [rewrite Hl; left|exact Hp|].
  injection He as <-. injection Hi as <-. injection Ho as <-. apply Hopen. split_and!; [lia|lia| |].
  - by_compute.
  - vm_compute. eexists. reflexivity.
Defined.

Lemma incident_page_refines_witness :
  ∃ page, page_run (Some (u! "5")) [SelectEvidence (EDGE (u! "edge-1")); OpenIncident (Some (u! "6")); OpenIncident (Some (u! "5"))]
    = Some page ∧ selection page = Some (EDGE (u! "edge-1")).
Proof.
  eexists. split; [vm_compute; reflexivity|].
  apply (incident_page_refines (Some (u! "5"))
    [SelectEvidence (EDGE (u! "edge-1")); OpenIncident (Some (u! "6")); OpenIncident (Some (u! "5"))]); [vm_compute; reflexivity|].
  exists 5. split; [vm_compute; reflexivity|].
  exists [], [OpenIncident (Some (u! "6")); OpenIncident (Some (u! "5"))], (page_mount (Some (u! "5"))).
  split_and!; vm_compute; reflexivity.
Defined.
