(* ===== verification/EventDetail.v ===== *)
(** * Event details

    Models frontend/src/features/eventPresentation.ts, the requests and the ledger
    of frontend/src/pages/EventDetailPage.tsx, and the payload search of
    frontend/src/components/RawPayloadViewer.tsx. *)

From S2P Require Import Prelude JsNumber JsDate Json Url Contracts ApiClient I18n UrlState ProcessTree.

#[local] Open Scope list_scope.
#[local] Open Scope Z_scope.

(** The fields of a list entry, and those only the detail has. *)
Record EventDetailDto := mkEventDetailDto {
  detail_event : EventDto;
  detail_payloadSha256 : ustring;
  detail_rawPayload : list (ustring * json);
  detail_schemaVersion : Z;
}.

(** ** Groups of fields *)

Inductive EventDetailGroup := IDENTITY | PROCESS | FILE | NETWORK | DNS | HTTP_TLS.
#[export] Instance EventDetailGroup_eq_dec : EqDecision EventDetailGroup.
Proof. solve_decision. Defined.

(** A nullable field, as [hasAny] sees it: a number is a value, the empty text is not. *)
Inductive field := FText (value : option ustring) | FNumber (value : option Z).
Definition has_value (f : field) : bool :=
  match f with
  | FText (Some s) => truthy s
  | FNumber (Some _) => true
  | _ => false
  end.
Definition hasAny (values : list field) : bool := js_some has_value values.

(** The fields each section asks about, in the order of the calls. *)
Definition section_fields (event : EventDto) (group : EventDetailGroup) : list field :=
  match group with
  | IDENTITY => []
  | PROCESS => [FText (event_processName event); FText (event_processPath event); FText (event_commandLine event);
                FNumber (event_pid event); FNumber (event_ppid event); FText (event_userName event)]
  | FILE => [FText (event_filePath event); FText (event_fileAction event); FText (event_fileHashSha256 event)]
  | NETWORK => [FText (event_remoteIp event); FText (event_remoteDomain event); FNumber (event_remotePort event);
                FText (event_protocol event)]
  | DNS => [FText (event_dnsQuery event); FText (event_dnsRecordType event); FText (event_dnsResponseCode event)]
  | HTTP_TLS => [FText (event_l7Protocol event); FText (event_httpMethod event); FText (event_httpHost event);
                 FText (event_url event); FNumber (event_httpStatusCode event); FText (event_httpUserAgent event);
                 FText (event_tlsSni event); FText (event_tlsVersion event); FText (event_tlsCertificateSubject event);
                 FText (event_tlsCertificateIssuer event); FText (event_tlsCertificateSha256 event)]
  end.

Definition eventDetailGroups (event : EventDto) : list EventDetailGroup :=
  let kind (type : EventType) := bool_decide (event_eventType event = type) in
  let push (condition : bool) (group : EventDetailGroup) := if condition then [group] else [] in
  [IDENTITY]
  ++ push (hasAny (section_fields event PROCESS)) PROCESS
  ++ push (kind Ev_FILE_EVENT || hasAny (section_fields event FILE)) FILE
  ++ push (kind Ev_NETWORK_CONNECTION || hasAny (section_fields event NETWORK)) NETWORK
  ++ push (kind Ev_DNS_QUERY || hasAny (section_fields event DNS) || negb (Nat.eqb (length (event_dnsAnswers event)) 0)) DNS
  ++ push (kind Ev_L7_EVENT || hasAny (section_fields event HTTP_TLS)) HTTP_TLS.

(** [filter(Boolean)] and [filter((value) => value !== null && value !== "")]. *)
Definition part (value : option ustring) : list ustring :=
  match value with Some s => if truthy s then [s] else [] | None => [] end.
Definition dot : ustring := u! " · ".

Definition eventListSummary (event : EventDto) : ustring :=
  let or (a b : option ustring) := match a with Some _ => a | None => b end in
  let number (n : option Z) := string_of_Z <$> n in
  join dot (concat (map part
    match event_eventType event with
    | Ev_PROCESS_EXECUTION => [event_processName event; event_commandLine event]
    | Ev_FILE_EVENT => [event_fileAction event; event_filePath event]
    | Ev_NETWORK_CONNECTION =>
      [event_protocol event; or (event_remoteDomain event) (event_remoteIp event); number (event_remotePort event)]
    | Ev_DNS_QUERY => [event_dnsQuery event; event_dnsResponseCode event]
    | Ev_L7_EVENT =>
      [event_httpMethod event; or (event_httpHost event) (event_remoteDomain event);
       or (number (event_httpStatusCode event)) (event_l7Protocol event)]
    end)).

(** ** The ledger *)

Section ledger.
Context (locale : Locale).
Definition label_of (key : string) : option ustring := translate locale key [].
#[local] Abbreviation t := label_of.

(** The label and the value of an item, each a translation that may be missing. *)
Definition entry (label value : option ustring) : option (ustring * ustring) :=
  l ← label; v ← value; Some (l, v).
Definition shown_text (value : option ustring) : option ustring := displayNullable locale (I18n.PText <$> value).
Definition shown_number (value : option Z) : option ustring :=
  match value with Some n => Some (string_of_Z n) | None => t "common.notAvailable" end.

Definition group_entries (event : EventDto) (group : EventDetailGroup) : list (option (ustring * ustring)) :=
  let fixed (label : ustring) := Some label in
    match group with
    | IDENTITY =>
      [entry (t "event.batchId") (Some (event_batchId event)); entry (fixed (u! "Agent ID")) (Some (event_agentId event));
       entry (t "endpoints.operatingSystem") (Some (lit_name (event_osType event)));
       entry (t "endpoint.ipAddress") (shown_text (event_ipAddress event))]
    | PROCESS =>
      [entry (t "event.processName") (shown_text (event_processName event));
       entry (t "event.processPath") (shown_text (event_processPath event));
       entry (fixed (u! "PID")) (shown_number (event_pid event)); entry (fixed (u! "PPID")) (shown_number (event_ppid event));
       entry (t "event.commandLine") (shown_text (event_commandLine event));
       entry (t "event.user") (shown_text (event_userName event))]
    | FILE =>
      [entry (t "event.filePath") (shown_text (event_filePath event));
       entry (t "event.fileAction") (shown_text (event_fileAction event));
       entry (fixed (u! "File SHA-256")) (shown_text (event_fileHashSha256 event))]
    | NETWORK =>
      [entry (fixed (u! "Remote IP")) (shown_text (event_remoteIp event));
       entry (fixed (match locale with KO => u! "Remote Domain" | EN => u! "Remote domain" end)) (shown_text (event_remoteDomain event));
       entry (fixed (match locale with KO => u! "Remote Port" | EN => u! "Remote port" end)) (shown_number (event_remotePort event));
       entry (fixed (u! "Protocol")) (shown_text (event_protocol event))]
    | DNS =>
      [entry (fixed (u! "DNS query")) (shown_text (event_dnsQuery event));
       entry (fixed (u! "DNS record type")) (shown_text (event_dnsRecordType event));
       entry (fixed (u! "DNS response")) (shown_text (event_dnsResponseCode event));
       entry (t "event.dnsAnswers")
         (if negb (Nat.eqb (length (event_dnsAnswers event)) 0) then Some (join (u! ", ") (event_dnsAnswers event)) else t "common.none")]
    | HTTP_TLS =>
      [entry (fixed (u! "L7 protocol")) (shown_text (event_l7Protocol event));
       entry (fixed (u! "HTTP method")) (shown_text (event_httpMethod event));
       entry (fixed (u! "HTTP host")) (shown_text (event_httpHost event));
       entry (fixed (u! "URL")) (shown_text (event_url event));
       entry (fixed (u! "HTTP status")) (shown_number (event_httpStatusCode event));
       entry (fixed (u! "HTTP user agent")) (shown_text (event_httpUserAgent event));
       entry (fixed (u! "TLS SNI")) (shown_text (event_tlsSni event));
       entry (fixed (u! "TLS version")) (shown_text (event_tlsVersion event));
       entry (fixed (u! "TLS subject")) (shown_text (event_tlsCertificateSubject event));
       entry (fixed (u! "TLS issuer")) (shown_text (event_tlsCertificateIssuer event));
       entry (fixed (u! "TLS SHA-256")) (shown_text (event_tlsCertificateSha256 event))]
    end.
Definition groupItems (event : EventDto) (group : EventDetailGroup) : option (list (ustring * ustring)) :=
  mapM (λ e, e) (group_entries event group).

Definition groupTitle (group : EventDetailGroup) : string :=
  match group with
  | IDENTITY => "event.groupIdentity" | PROCESS => "event.groupProcess" | FILE => "event.groupFile"
  | NETWORK => "event.groupNetwork" | DNS => "event.groupDns" | HTTP_TLS => "event.groupHttpTls"
  end.
Definition groupSubtitle (group : EventDetailGroup) : string :=
  match group with
  | IDENTITY => "event.groupIdentitySubtitle" | PROCESS => "event.groupProcessSubtitle" | FILE => "event.groupFileSubtitle"
  | NETWORK => "event.groupNetworkSubtitle" | DNS => "event.groupDnsSubtitle" | HTTP_TLS => "event.groupHttpTlsSubtitle"
  end.

(** A section of the ledger: its title, subtitle and items. *)
Definition ledger_section (event : EventDto) (group : EventDetailGroup) : option (ustring * ustring * list (ustring * ustring)) :=
  items ← groupItems event group; subtitle ← t (groupSubtitle group); title ← t (groupTitle group);
  Some (title, subtitle, items).
Definition ledger (event : EventDto) : option (list (ustring * ustring * list (ustring * ustring))) :=
  mapM (ledger_section event) (eventDetailGroups event).
End ledger.

(** [event.processName ?? event.remoteDomain ?? event.filePath ?? event.eventType] *)
Definition detail_title (event : EventDto) : ustring :=
  match event_processName event, event_remoteDomain event, event_filePath event with
  | Some s, _, _ | None, Some s, _ | None, None, Some s => s
  | None, None, None => lit_name (event_eventType event)
  end.

(** ** The page *)

Section page.
Context `{DateHost}.

(** The parameters of the request for an event, when the route and query are valid. *)
Definition event_call (eventId : option ustring) (params : URLSearchParams) : option ApiCall :=
  let id := default [] eventId in
  if truthy id && validEventDetailQuery params then
    Some (event id [(u! "endpointId", QNumber (number_of_opt (params_get params (u! "endpointId"))));
                    (u! "occurredAt", QString (default [] (params_get params (u! "occurredAt"))))])
  else None.

(** The request for the process tree around the received event; [None] when the
    window cannot be computed, which throws. *)
Definition tree_call (event : EventDto) : option ApiCall :=
  '(from, to) ← processTreeWindow (event_occurredAt event);
  Some (processTree (event_endpointId event)
    ([(u! "timePreset", QString (u! "CUSTOM")); (u! "from", QString from); (u! "to", QString to)]
     ++ match event_pid event with Some pid => [(u! "selectedPid", QNumber (num_of_Z pid))] | None => [] end)).
End page.

(** ** The raw payload *)

(** [s.indexOf(p)] *)
Fixpoint index_of (s p : ustring) : option nat :=
  if starts_with p s then Some 0%nat
  else match s with [] => None | _ :: r => S <$> index_of r p end.
(** [s.indexOf(p, from)], for a [from] within the text and a nonempty [p]. *)
Definition index_from (s p : ustring) (from : nat) : option nat := Nat.add from <$> index_of (drop from s) p.

Section search.
(** [String.prototype.toLowerCase] *)
Context (toLowerCase : ustring → ustring).

Definition payload_text (payload : list (ustring * json)) : ustring := pretty (JObj payload) 0.
Definition payload_lines (payload : list (ustring * json)) : list ustring := split_on 10 (payload_text payload).

(** The loop of [occurrences]; [None] when the fuel runs out. *)
Fixpoint occurrences_loop (fuel : nat) (source target : ustring) (index : nat) : option nat :=
  match fuel with
  | O => None
  | S fuel =>
    match index_from source target index with
    | Some found => S <$> occurrences_loop fuel source target (found + length target)
    | None => Some 0%nat
    end
  end.
Definition occurrences (value query : ustring) : option nat :=
  let source := toLowerCase value in
  let target := toLowerCase query in
  if truthy target then occurrences_loop (S (length source)) source target 0 else Some 0%nat.

Definition matchCount (lines : list ustring) (query : ustring) : option nat :=
  if truthy query then counts ← mapM (λ line, occurrences line query) lines; Some (foldr Nat.add 0%nat counts)
  else Some 0%nat.

Definition line_marked (line query : ustring) : bool :=
  truthy query && includes (toLowerCase line) (toLowerCase query).

(** The text before the mark, the mark and the text after it. *)
Definition highlight (value query : ustring) : ustring * option (ustring * ustring) :=
  if truthy query then
    match index_of (toLowerCase value) (toLowerCase query) with
    | Some index => (take index value, Some (take (length query) (drop index value), drop (index + length query) value))
    | None => (value, None)
    end
  else (value, None).
End search.

(** ** Every value is shown *)

(** The nullable fields of an event, in the order of the record. *)
Definition nullable_fields (event : EventDto) : list field :=
  [FText (event_commandLine event); FText (event_dnsQuery event); FText (event_dnsRecordType event);
   FText (event_dnsResponseCode event); FText (event_fileAction event); FText (event_fileHashSha256 event);
   FText (event_filePath event); FText (event_httpHost event); FText (event_httpMethod event);
   FNumber (event_httpStatusCode event); FText (event_httpUserAgent event); FText (event_ipAddress event);
   FText (event_l7Protocol event); FNumber (event_pid event); FNumber (event_ppid event); FText (event_processName event);
   FText (event_processPath event); FText (event_protocol event); FText (event_remoteDomain event);
   FText (event_remoteIp event); FNumber (event_remotePort event); FText (event_tlsCertificateIssuer event);
   FText (event_tlsCertificateSha256 event); FText (event_tlsCertificateSubject event); FText (event_tlsSni event);
   FText (event_tlsVersion event); FText (event_url event); FText (event_userName event)].

Definition field_text (f : field) : ustring :=
  match f with FText s => default [] s | FNumber n => default [] (string_of_Z <$> n) end.

Lemma items_shown {A} (entries : list (option A)) items x :
  mapM (λ e, e) entries = Some items → Some x ∈ entries → x ∈ items.
Proof.
  intros H%mapM_Some Hx. apply list_elem_of_lookup in Hx as [i Hi].
  destruct (Forall2_lookup_l _ _ _ _ _ H Hi) as (y & Hy & [= ->]). by eapply list_elem_of_lookup_2.
Qed.

Lemma groupItems_total locale event group : is_Some (groupItems locale event group).
Proof.
  unfold groupItems. apply mapM_is_Some.
  assert (∀ o, is_Some (shown_text locale o)) as Ht by (intros [s|]; destruct locale; by vm_compute; eexists).
  assert (∀ o, is_Some (shown_number locale o)) as Hn by (intros [s|]; [by eexists|destruct locale; by vm_compute; eexists]).
  assert (∀ l v, is_Some l → is_Some v → is_Some (entry l v)) as He by (intros ?? [? ->] [? ->]; by eexists).
  assert (∀ key, bool_decide (is_Some (label_of EN key)) && bool_decide (is_Some (label_of KO key)) = true → is_Some (label_of locale key)) as Hl
    by (intros key H; breflect; by destruct locale).
  unfold group_entries. destruct group; repeat (apply Forall_cons; split || apply Forall_nil); try apply He; auto;
    try (apply Hl; vm_compute; reflexivity); try by eexists.
  case_match; [by eexists|]. apply Hl. by vm_compute.
Qed.

(** An entry is found with its label and its value, trying each place. *)
Ltac some_elem := first [apply list_elem_of_here] + (apply list_elem_of_further; some_elem).

Lemma entry_shown (entries : list (option (ustring * ustring))) l v text :
  entry l v ∈ entries → is_Some l → v = Some text → ∃ label, Some (label, text) ∈ entries.
Proof. intros Hin [label ->] ->. by exists label. Qed.

Lemma section_field_entry locale event group f :
  f ∈ section_fields event group → has_value f = true → ∃ label, Some (label, field_text f) ∈ group_entries locale event group.
Proof.
  assert (∀ key, bool_decide (is_Some (label_of EN key)) && bool_decide (is_Some (label_of KO key)) = true →
    is_Some (label_of locale key)) as Hl by (intros key H; breflect; by destruct locale).
  destruct group; cbn [section_fields group_entries]; rewrite ?elem_of_cons, ?elem_of_nil; intros Hf Hv;
    repeat destruct Hf as [-> |Hf]; try done;
    match type of Hv with has_value (?c ?o) = true => destruct o; [|done] end;
    once (eapply entry_shown; [some_elem|first [by eexists|apply Hl; vm_compute; reflexivity]|
      reflexivity]).
Qed.

Lemma group_shown event group f :
  f ∈ section_fields event group → has_value f = true → group ∈ eventDetailGroups event.
Proof.
  intros Hf Hv. assert (hasAny (section_fields event group) = true) as H by (apply js_some_true; by exists f).
  unfold eventDetailGroups. destruct group; [no_elem| | | | |]; rewrite H, ?orb_true_r, ?orb_true_l, !elem_of_app.
  all: repeat (first [left; by apply list_elem_of_here|right]); by apply list_elem_of_here.
Qed.

Lemma groups_NoDup event : NoDup (eventDetailGroups event).
Proof.
  unfold eventDetailGroups. cbv zeta. repeat match goal with |- context [if ?b then _ else _] => destruct b end;
    by_compute.
Qed.

(** Every nullable field but the address, which the first section always shows, is
    asked about by a section. *)
Lemma nullable_covered event f :
  f ∈ nullable_fields event → f = FText (event_ipAddress event) ∨ ∃ group, f ∈ section_fields event group.
Proof.
  unfold nullable_fields. intros Hf. repeat (apply elem_of_cons in Hf as [-> |Hf]).
  29: by apply elem_of_nil in Hf.
  12: by left.
  all: right; first [exists PROCESS; cbn [section_fields]; some_elem|exists FILE; cbn [section_fields]; some_elem|
    exists NETWORK; cbn [section_fields]; some_elem|exists DNS; cbn [section_fields]; some_elem|
    exists HTTP_TLS; cbn [section_fields]; some_elem].
Qed.

Lemma ledger_total locale event :
  ∃ sections, ledger locale event = Some sections ∧
    Forall2 (λ group section, ∃ items, groupItems locale event group = Some items ∧ section.2 = items)
      (eventDetailGroups event) sections.
Proof.
  assert (∀ key, bool_decide (is_Some (label_of EN key)) && bool_decide (is_Some (label_of KO key)) = true →
    is_Some (label_of locale key)) as Hl by (intros key H; breflect; by destruct locale).
  assert (∀ group, ∃ title subtitle items, groupItems locale event group = Some items ∧
    ledger_section locale event group = Some (title, subtitle, items)) as Hs.
  { intros group. unfold ledger_section. destruct (groupItems_total locale event group) as [items ->].
    destruct (Hl (groupSubtitle group)) as [sub ->]; [by destruct group; vm_compute|].
    destruct (Hl (groupTitle group)) as [title ->]; [by destruct group; vm_compute|]. by exists title, sub, items. }
  unfold ledger. induction (eventDetailGroups event) as [|group groups (sections & IH & HF)]; [by exists []|].
  destruct (Hs group) as (title & sub & items & Hi & Hsec). exists ((title, sub, items) :: sections).
  cbn [mapM]. rewrite Hsec. cbn [mbind option_bind]. rewrite IH. split; [done|]. constructor; [by exists items|done].
Qed.

(** the detail page hides no evidence: in either language its ledger can be
    drawn, no section appears twice, and every nullable field of the event that has
    a value (a number, or text that is not empty) is an item of some section, as are
    the answers of a DNS query. *)
Theorem event_ledger_complete locale event :
  ∃ sections, ledger locale event = Some sections ∧
    NoDup (eventDetailGroups event) ∧ length sections = length (eventDetailGroups event) ∧
    (∀ f, f ∈ nullable_fields event → has_value f = true →
       ∃ title subtitle items label, (title, subtitle, items) ∈ sections ∧ (label, field_text f) ∈ items) ∧
    (event_dnsAnswers event ≠ [] →
       ∃ title subtitle items label, (title, subtitle, items) ∈ sections ∧
         (label, join (u! ", ") (event_dnsAnswers event)) ∈ items).
Proof.
  destruct (ledger_total locale event) as (sections & Hl & HF). exists sections.
  assert (∀ group text, group ∈ eventDetailGroups event →
    (∃ label, Some (label, text) ∈ group_entries locale event group) →
    ∃ title subtitle items label, (title, subtitle, items) ∈ sections ∧ (label, text) ∈ items) as Hshow.
  { intros group text [i Hi]%list_elem_of_lookup (label & He).
    destruct (Forall2_lookup_l _ _ _ _ _ HF Hi) as ([[title sub] its] & Hsec & items & Hitems & Heq). cbn [snd] in Heq. subst its.
    exists title, sub, items, label. split; [by eapply list_elem_of_lookup_2|]. by eapply items_shown. }
  split_and!; [done|apply groups_NoDup|by symmetry; eapply Forall2_length| |].
  - intros f Hf Hv. destruct (nullable_covered event f Hf) as [-> |(group & Hg)].
    + apply (Hshow IDENTITY); [by apply list_elem_of_here|]. cbn [group_entries].
      destruct (event_ipAddress event) as [ip|]; [|done].
      eapply entry_shown; [do 3 apply list_elem_of_further; apply list_elem_of_here| |reflexivity].
      destruct locale; by vm_compute; eexists.
    + apply (Hshow group); [by eapply group_shown|by apply section_field_entry].
  - intros Ha. apply (Hshow DNS).
    + unfold eventDetailGroups. cbv zeta. destruct (event_dnsAnswers event); [done|]. cbn [length Nat.eqb negb].
      rewrite orb_true_r, !elem_of_app. do 4 right. left. by apply list_elem_of_here.
    + cbn [group_entries]. eapply entry_shown; [do 3 apply list_elem_of_further; apply list_elem_of_here|destruct locale; by vm_compute; eexists|].
      by destruct (event_dnsAnswers event).
Qed.

(** ** The payload search *)

Lemma starts_with_prefix (p r : ustring) : starts_with p (p ++ r) = true.
Proof. induction p as [|c p IH]; [done|]. cbn [app starts_with]. by rewrite Z.eqb_refl. Qed.

Lemma starts_with_true (p s : ustring) : starts_with p s = true → ∃ r, s = p ++ r.
Proof.
  revert s. induction p as [|c p IH]; intros s; [by exists s|]. destruct s as [|d s]; [done|]. cbn [starts_with].
  intros H. breflect. subst. destruct (IH s) as [r ->]; [done|]. by exists r.
Qed.

Lemma index_of_None s p : index_of s p = None ↔ includes s p = false.
Proof.
  induction s as [|c s IH]; cbn [index_of includes]; destruct (starts_with p _); try done; cbn [orb].
  destruct (index_of s p); [split; [done|]; intros H; by apply IH in H|]. split; [|done]. intros _. by apply IH.
Qed.

(** The first match: what precedes it has none, whatever follows. *)
Lemma index_of_Some s p i : index_of s p = Some i →
  s = take i s ++ p ++ drop (i + length p) s ∧ (i + length p ≤ length s)%nat ∧
  ∀ j, (j < i)%nat → starts_with p (drop j s) = false.
Proof.
  revert i. induction s as [|c s IH]; intros i; cbn [index_of]; destruct (starts_with p _) eqn:E.
  - intros [= <-]. apply starts_with_true in E as [r E]. symmetry in E. apply app_eq_nil in E as [-> ->]. split_and!; [done|simpl; lia|lia].
  - done.
  - intros [= <-]. apply starts_with_true in E as [r E]. rewrite E. cbn [take app Nat.add]. split_and!; [|rewrite length_app; lia|lia].
    by rewrite drop_app_length.
  - destruct (index_of s p) as [k|]; [|done]. intros [= <-]. destruct (IH k eq_refl) as (H1 & H2 & H3).
    cbn [take drop app Nat.add length]. split_and!; [by f_equal|lia|].
    intros [|j] Hj; [done|]. cbn [drop]. apply H3. lia.
Qed.

Lemma starts_with_take p k s : starts_with p (take k s) = true → starts_with p s = true.
Proof. intros [r Hr]%starts_with_true. rewrite <- (take_drop k s), Hr, <- app_assoc. apply starts_with_prefix. Qed.

Lemma includes_at s p : includes s p = true → ∃ j, (j + length p ≤ length s)%nat ∧ starts_with p (drop j s) = true.
Proof.
  intros H. destruct (index_of s p) as [i|] eqn:E; [|apply index_of_None in E; congruence].
  apply index_of_Some in E as (H1 & H2 & _). exists i. split; [done|]. rewrite H1 at 1.
  rewrite drop_app_length' by (rewrite length_take; lia). apply starts_with_prefix.
Qed.

(** What precedes the first match contains none. *)
Lemma before_match s p i : p ≠ [] → index_of s p = Some i → includes (take i s) p = false.
Proof.
  intros Hp (H1 & H2 & H3)%index_of_Some. apply not_true_iff_false. intros (j & Hj & Hs)%includes_at.
  rewrite length_take in Hj. assert (0 < length p)%nat by (destruct p; simpl; [done|lia]).
  rewrite skipn_firstn_comm in Hs. apply starts_with_take in Hs. rewrite H3 in Hs by lia. done.
Qed.

(** The text from the index on, cut at the target: its pieces are one more than the
    matches counted, and contain no match. *)
Lemma occurrences_loop_spec fuel source target index :
  target ≠ [] → (index ≤ length source)%nat → (length source - index < fuel)%nat →
  ∃ n pieces, occurrences_loop fuel source target index = Some n ∧ length pieces = S n ∧
    join target pieces = drop index source ∧ Forall (λ piece, includes piece target = false) pieces.
Proof.
  intros Ht. assert (0 < length target)%nat as Hlen by (destruct target; [done|cbn [length]; lia]).
  revert index. induction fuel as [|fuel IH]; intros index Hi Hf; [lia|]. cbn [occurrences_loop]. unfold index_from.
  destruct (index_of (drop index source) target) as [k|] eqn:E; cbn [fmap option_fmap option_map].
  - pose proof (before_match _ _ _ Ht E) as Hb. apply index_of_Some in E as (H1 & H2 & _). rewrite length_drop in H2.
    destruct (IH (index + k + length target)%nat) as (n & pieces & Hn & Hlp & Hj & HF); [lia..|].
    exists (S n), (take k (drop index source) :: pieces). rewrite Hn. split_and!; [done|simpl; lia| |by constructor].
    destruct pieces as [|piece pieces]; [done|]. change (take k (drop index source) ++ target ++ join target (piece :: pieces) = drop index source).
    rewrite Hj. etransitivity; [|symmetry; exact H1]. do 2 f_equal. rewrite drop_drop. f_equal. lia.
  - exists 0%nat, [drop index source]. split_and!; try done. constructor; [|done]. by apply index_of_None.
Qed.

Lemma mark_lower (f : Z → Z) line query i :
  index_of (map f line) (map f query) = Some i → map f (take (length query) (drop i line)) = map f query.
Proof.
  intros (H1 & H2 & _)%index_of_Some. rewrite <- firstn_map, <- skipn_map, H1.
  rewrite drop_app_length' by (rewrite length_take; lia). by rewrite take_app_length' by (by rewrite length_map).
Qed.

Lemma join_split_on c s : join [c] (split_on c s) = s.
Proof.
  induction s as [|d s IH]; [done|]. cbn [split_on]. destruct (Z.eqb_spec d c) as [->|].
  - assert (split_on c s ≠ []) as Hne by (destruct s as [|e r]; [done|]; cbn [split_on]; destruct (e =? c); [done|]; by destruct (split_on c r)).
    destruct (split_on c s) as [|p ps]; [done|]. change (join [c] ([] :: p :: ps)) with ([c] ++ join [c] (p :: ps)). by rewrite IH.
  - destruct (split_on c s) as [|p ps]; [by rewrite <- IH|]. rewrite <- IH. by destruct ps.
Qed.

Section search_claims.
Context (toLowerCase : ustring → ustring).
(** Lower case makes no text empty and no empty text longer. *)
Hypothesis lower_empty : ∀ s, toLowerCase s = [] ↔ s = [].
#[local] Abbreviation lower := toLowerCase.

Lemma truthy_lower s : truthy (lower s) = truthy s.
Proof. pose proof (lower_empty s) as H. destruct (lower s), s; try done; naive_solver. Qed.

Lemma occurrences_pieces line query : query ≠ [] →
  ∃ n pieces, occurrences lower line query = Some n ∧ length pieces = S n ∧ join (lower query) pieces = lower line ∧
    Forall (λ piece, includes piece (lower query) = false) pieces.
Proof.
  intros Hq. assert (lower query ≠ []) as Hl by by rewrite lower_empty.
  unfold occurrences. rewrite (proj2 (truthy_true _) Hl).
  apply (occurrences_loop_spec _ (lower line) (lower query) 0); [done|lia..].
Qed.

(** A line without matches counts none, and any other counts some. *)
Lemma occurrences_marked line query n :
  occurrences lower line query = Some n → line_marked lower line query = true ↔ (0 < n)%nat.
Proof.
  unfold line_marked. destruct (decide (query = [])) as [->|Hq].
  - unfold occurrences. rewrite truthy_lower. intros [= <-]. cbn [truthy andb]. split; [done|lia].
  - rewrite (proj2 (truthy_true _) Hq). cbn [andb].
    destruct (occurrences_pieces line query Hq) as (n' & pieces & -> & Hlen & Hj & HF). intros [= ->].
    destruct pieces as [|p [|p' ps]]; [done| |].
    + cbn [length] in Hlen. apply Forall_cons in HF as [Hp _]. cbn [join] in Hj. rewrite <- Hj, Hp. split; [done|lia].
    + split; [cbn [length] in Hlen; lia|]. intros _. apply not_false_iff_true. rewrite <- index_of_None.
      intros Hno%index_of_None. rewrite <- Hj in Hno.
      change (join (lower query) (p :: p' :: ps)) with (p ++ lower query ++ join (lower query) (p' :: ps)) in Hno.
      clear -Hno. induction p as [|c p IH]; cbn [app includes] in Hno.
      * destruct (lower query) as [|c q] eqn:E; [by destruct (join _ _)|]. cbn [app includes] in Hno.
        rewrite app_comm_cons, starts_with_prefix in Hno. done.
      * apply orb_false_iff in Hno as [_ Hno]. by apply IH.
Qed.

Lemma matchCount_spec lines query :
  ∃ n, matchCount lower lines query = Some n ∧ ((0 < n)%nat ↔ ∃ line, line ∈ lines ∧ line_marked lower line query = true).
Proof.
  unfold matchCount. destruct (decide (query = [])) as [->|Hq].
  - exists 0%nat. split; [done|]. split; [lia|]. intros (line & _ & H). done.
  - rewrite (proj2 (truthy_true _) Hq).
    assert (∃ counts, mapM (λ line, occurrences lower line query) lines = Some counts ∧
      ((0 < foldr Nat.add 0 counts)%nat ↔ ∃ line, line ∈ lines ∧ line_marked lower line query = true)) as (counts & -> & H); [|by eexists].
    induction lines as [|line lines (counts & Hc & IH)].
    + exists []. split; [done|]. split; [simpl; lia|]. intros (line & H & _). by apply not_elem_of_nil in H.
    + destruct (occurrences_pieces line query Hq) as (n & _ & Hn & _). exists (n :: counts).
      cbn [mapM]. rewrite Hn. cbn [mbind option_bind]. rewrite Hc. split; [done|]. cbn [foldr].
      pose proof (occurrences_marked _ _ _ Hn) as Hm. setoid_rewrite elem_of_cons. split.
      * intros Hpos. destruct n as [|n]; [|exists line; split; [by left|by apply Hm; lia]].
        destruct IH as [IH _]. destruct IH as (l & Hl & Hml); [simpl in Hpos; lia|]. exists l. auto.
      * intros (l & [->|Hl] & Hml); [apply Hm in Hml; lia|]. assert (0 < foldr Nat.add 0 counts)%nat by (apply IH; eauto). lia.
Qed.

(** C19: the payload viewer: the text it shows is the payload (parsing its lines gives
    the payload back); the counting loop always ends, with the number of pieces the
    lower-cased line falls into when cut at the lower-cased query, less one, so
    matches are counted without overlap; the total is positive exactly when some
    line is marked; a line with a mark keeps its text; and the mark is the query up
    to case wherever lower-casing acts on each code unit. *)
Theorem payload_search_spec payload query line :
  (json_wf (JObj payload) → JSON_parse (join [10] (payload_lines payload)) = Some (JObj payload)) ∧
  (query ≠ [] → ∃ n pieces, occurrences lower line query = Some n ∧ length pieces = S n ∧
     join (lower query) pieces = lower line ∧ Forall (λ piece, includes piece (lower query) = false) pieces) ∧
  (∃ total, matchCount lower (payload_lines payload) query = Some total ∧
     ((0 < total)%nat ↔ ∃ l, l ∈ payload_lines payload ∧ line_marked lower l query = true)) ∧
  match highlight lower line query with
  | (text, None) => line_marked lower line query = false ∧ text = line
  | (before, Some (mark, after)) => line_marked lower line query = true ∧ before ++ mark ++ after = line ∧
      (∀ f, lower line = map f line → lower query = map f query → map f mark = lower query)
  end.
Proof.
  split_and!.
  - intros Hw. unfold payload_lines, payload_text. rewrite join_split_on. by apply JSON_parse_pretty.
  - apply occurrences_pieces.
  - apply matchCount_spec.
  - unfold highlight, line_marked. destruct (truthy query); [|done]. cbn [andb].
    destruct (index_of (lower line) (lower query)) as [i|] eqn:E.
    + split_and!.
      * apply not_false_iff_true. rewrite <- index_of_None. congruence.
      * rewrite <- (take_drop i line) at 4. f_equal. rewrite <- (take_drop (length query) (drop i line)) at 2. f_equal.
        by rewrite drop_drop.
      * intros f Hl Hq. rewrite Hl, Hq in *. by apply mark_lower.
    + split; [by apply index_of_None|done].
Qed.
End search_claims.

Definition sample_event : EventDto :=
  mkEventDto (u! "agent") (u! "batch") None [] (Some (u! "example.org")) None None 7 (u! "event-1") Ev_DNS_QUERY None None None
    (u! "host") None None None None (u! "2026-07-15T03:00:01Z") None None (u! "2026-07-15T03:00:00Z") Os_MACOS (Some 42) None
    None None None None (Some (u! "1.1.1.1")) (Some 53) None None None None None None None.

Definition sample_payload : list (ustring * json) :=
  [(u! "processName", JStr (u! "PowerShell.exe")); (u! "pid", JInt 42); (u! "args", JArr [JStr (u! "-enc"); JStr (u! "SGVsbG8=")])].

Lemma payload_search_spec_witness :
  matchCount ascii_lower (payload_lines sample_payload) (u! "POWER") = Some 1%nat ∧
  JSON_parse (join [10] (payload_lines sample_payload)) = Some (JObj sample_payload).
Proof.
  split; [vm_compute; reflexivity|].
  refine (proj1 (payload_search_spec ascii_lower _ sample_payload [] []) _).
  - intros s. destruct s; split; done.
  - simpl. split_and!; try done; try (by_compute). exists 42. split; [reflexivity|unfold max_safe; lia].
Defined.

Lemma event_ledger_complete_witness :
  ∃ sections, ledger KO sample_event = Some sections ∧
    ∃ title subtitle items label, (title, subtitle, items) ∈ sections ∧ (label, u! "1.1.1.1") ∈ items.
Proof.
  destruct (event_ledger_complete KO sample_event) as (sections & Hl & _ & _ & Hf & _). exists sections. split; [exact Hl|].
  refine (Hf (FText (Some (u! "1.1.1.1"))) _ eq_refl). unfold nullable_fields. do 19 apply list_elem_of_further.
  apply list_elem_of_here.
Defined.

(** The request of the page the event list links to: the event of the row. *)
Lemma event_call_of_list `{DateHost} params eventId endpointId occurredAt :
  params_ok params → well_formed eventId → eventId ≠ [] → well_formed occurredAt →
  0 < endpointId ≤ 2 ^ 53 → is_Some (Date_parse occurredAt) →
  event_call (Some eventId) (params_of_string (eventDetailSearch params eventId endpointId occurredAt)) =
  Some (event eventId [(u! "endpointId", QNumber (num_of_Z endpointId)); (u! "occurredAt", QString occurredAt)]).
Proof.
  intros Hok He Hne Ho Hid [time Ht]. rewrite detail_params by (done || lia).
  set (params' := [_; _; _]).
  assert (params_get params' (u! "endpointId") = Some (string_of_Z endpointId)) as H1 by reflexivity.
  assert (params_get params' (u! "occurredAt") = Some occurredAt) as H2 by reflexivity.
  unfold event_call, validEventDetailQuery. rewrite H1, H2. cbn [default number_of_opt from_option id].
  rewrite number_of_string_of_Z, positive_int_Z, Ht, (proj2 (truthy_true _) Hne) by lia. done.
Qed.
