(* ===== verification/Pickers.v ===== *)
(** * Endpoint pickers

    Models the two comboboxes that choose an endpoint,
    frontend/src/features/overview/EndpointScopePicker.tsx and
    frontend/src/components/EndpointSwitcher.tsx, as state machines. Of a listed
    endpoint only its identifier matters here. The results of a search arrive from
    the query cache: a change of the search carries what the cache already holds
    for it, and an answer replaces the results of the current search. *)

From S2P Require Import Prelude JsNumber Url Contracts ApiClient UrlState.

#[local] Open Scope list_scope.
#[local] Open Scope Z_scope.

(** The identifiers listed, the total and the page size of the answer. *)
Record PageData := mkPageData { items : list Z; total : Z; size : Z }.

(** ** Moving the highlight *)

(** [(index + 1) % length] *)
Definition next_index (length index : Z) : Z := Z.rem (index + 1) length.
Definition previous_index (length index : Z) : Z := if index <=? 0 then length - 1 else index - 1.

Definition item_at (l : list Z) (index : Z) : option Z := if 0 <=? index then l !! Z.to_nat index else None.

Lemma next_index_bounds n i : 0 < n → -1 ≤ i → 0 ≤ next_index n i < n.
Proof. intros Hn Hi. unfold next_index. pose proof (Z.rem_bound_pos (i + 1) n ltac:(lia) Hn). lia. Qed.

Lemma previous_index_bounds n i : 0 < n → i ≤ n → 0 ≤ previous_index n i < n.
Proof. intros Hn Hi. unfold previous_index. destruct (i <=? 0) eqn:E; breflect; lia. Qed.

Lemma item_at_Some l i : 0 ≤ i < Z.of_nat (length l) → is_Some (item_at l i).
Proof.
  intros Hi. unfold item_at. rewrite (proj2 (Z.leb_le 0 i)) by lia. apply lookup_lt_is_Some_2. lia.
Qed.

Lemma item_at_elem l i x : item_at l i = Some x → x ∈ l.
Proof. unfold item_at. case_match; [|done]. apply list_elem_of_lookup_2. Qed.

(** ** The scope picker *)

Module Scope.
Definition PAGE_SIZE : Z := 20.

Record State := mkState {
  open : bool; query : ustring; page : Z; activeIndex : Z; results : option PageData;
}.
Definition mount (cached : option PageData) : State := mkState false [] 1 (-1) cached.

Definition endpoints (st : State) : list Z := match results st with Some data => items data | None => [] end.
(** [Math.max(1, Math.ceil(total / PAGE_SIZE))] *)
Definition totalPages (st : State) : Z :=
  Z.max 1 (- ((- match results st with Some data => total data | None => 0 end) / PAGE_SIZE)).

Definition close (st : State) : State := mkState false (query st) (page st) (-1) (results st).
Definition highlight (st : State) (index : Z) : State := mkState (open st) (query st) (page st) index (results st).

Definition search_query (st : State) : QueryRecord :=
  let term := trim (query st) in
  [(u! "page", QNumber (num_of_Z (page st))); (u! "size", QNumber (num_of_Z PAGE_SIZE))]
  ++ (if truthy term then [(u! "q", QString term)] else [])
  ++ [(u! "sortBy", QString (u! "riskScore")); (u! "sortOrder", QString (u! "desc"))].

Inductive Key := Escape | ArrowDown | ArrowUp | Enter.
Inductive Event :=
| Toggle
| PointerOutside
| Type_ (text : ustring) (cached : option PageData)
| Press (key : Key)
| Hover (index : nat)
| Click (index : nat)
| ClickAll
| Previous (cached : option PageData)
| Next (cached : option PageData)
| Answer (data : PageData).

(** [onKeyDown]: the new state, and the argument of [onChange] when it is called. *)
Definition onKeyDown (st : State) (key : Key) : State * option (option Z) :=
  let n := Z.of_nat (length (endpoints st)) in
  match key with
  | Escape => (close st, None)
  | _ =>
    if n =? 0 then (st, None)
    else match key with
         | ArrowDown => (highlight st (next_index n (activeIndex st)), None)
         | ArrowUp => (highlight st (previous_index n (activeIndex st)), None)
         | _ => if 0 <=? activeIndex st then (close st, Some (item_at (endpoints st) (activeIndex st))) else (st, None)
         end
  end.

(** A step; an event whose control is not on the screen does nothing. *)
Definition step (st : State) (ev : Event) : State * option (option Z) :=
  match ev with
  | Toggle => (mkState (negb (open st)) (query st) (page st) (activeIndex st) (results st), None)
  | Answer data => (mkState (open st) (query st) (page st) (activeIndex st) (Some data), None)
  | _ =>
    if negb (open st) then (st, None)
    else match ev with
         | PointerOutside => (close st, None)
         | Type_ text cached => (mkState true text 1 (-1) cached, None)
         | Press key => onKeyDown st key
         | Hover index => if decide (index < length (endpoints st))%nat then (highlight st (Z.of_nat index), None) else (st, None)
         | Click index => match endpoints st !! index with
                          | Some id => (close st, Some (Some id))
                          | None => (st, None)
                          end
         | ClickAll => (close st, Some None)
         | Previous cached =>
           if bool_decide (is_Some (results st)) && (1 <? totalPages st) && (1 <? page st)
           then (mkState true (query st) (page st - 1) (-1) cached, None) else (st, None)
         | Next cached =>
           if bool_decide (is_Some (results st)) && (1 <? totalPages st) && (page st <? totalPages st)
           then (mkState true (query st) (page st + 1) (-1) cached, None) else (st, None)
         | _ => (st, None)
         end
  end.

(** The states after some events, and the scopes chosen on the way. *)
Fixpoint run (st : State) (events : list Event) : State * list (option Z) :=
  match events with
  | [] => (st, [])
  | ev :: rest =>
    let '(st', change) := step st ev in
    let '(final, changes) := run st' rest in
    (final, match change with Some c => c :: changes | None => changes end)
  end.

Record inv (st : State) : Prop := {
  page_positive : 1 ≤ page st;
  index_low : -1 ≤ activeIndex st;
}.

Lemma scope_mount_inv cached : inv (mount cached).
Proof. split; simpl; lia. Qed.

Lemma step_inv st ev : inv st → inv (step st ev).1.
Proof.
  intros [Hp Hi]. destruct ev; cbn [step]; try (destruct (open st); cbn [negb]); try by split.
  - unfold onKeyDown. destruct key; [by split; cbn [close highlight page activeIndex fst]; lia|..];
      (destruct (Z.of_nat _ =? 0) eqn:E; breflect; [by split|]).
    + split; [done|]. cbn [highlight activeIndex fst]. pose proof (next_index_bounds (Z.of_nat (length (endpoints st))) (activeIndex st) ltac:(lia) ltac:(lia)). lia.
    + split; [done|]. cbn [highlight activeIndex fst]. unfold previous_index. case_match; breflect; lia.
    + case_match; [split; cbn [close highlight page activeIndex fst]; lia|by split].
  - case_decide; [split; cbn [close highlight page activeIndex fst]; lia|by split].
  - case_match; [split; cbn [close highlight page activeIndex fst]; lia|by split].
  - case_match; [|by split]. breflect. split; cbn [close highlight page activeIndex fst]; lia.
  - case_match; [|by split]. breflect. split; cbn [close highlight page activeIndex fst]; lia.
Qed.

(** Answers that list no fewer endpoints than are shown keep the highlight on one
    of them. *)
Definition steady (st : State) (ev : Event) : Prop :=
  match ev with Answer data => (length (endpoints st) ≤ length (items data))%nat | _ => True end.
Definition in_list (st : State) : Prop := activeIndex st < Z.of_nat (length (endpoints st)) ∨ activeIndex st = -1.

Lemma step_in_list st ev : inv st → in_list st → steady st ev → in_list (step st ev).1.
Proof.
  unfold in_list, steady. intros [Hp Hi] Hl Hs. destruct ev; cbn [step]; try (destruct (open st); cbn [negb]); try done; try by right.
  - unfold onKeyDown. destruct key; [by right|..]; (destruct (Z.of_nat _ =? 0) eqn:E; breflect; [done|]).
    + left. cbn [highlight fst activeIndex]. change (endpoints (highlight st _)) with (endpoints st). apply next_index_bounds; lia.
    + left. cbn [highlight fst activeIndex]. change (endpoints (highlight st _)) with (endpoints st). apply previous_index_bounds; lia.
    + case_match; [by right|done].
  - case_decide; [|done]. left. cbn [highlight fst activeIndex]. change (endpoints (highlight st _)) with (endpoints st). lia.
  - case_match; [by right|done].
  - case_match; [by right|done].
  - case_match; [by right|done].
  - change (activeIndex st < Z.of_nat (length (items data)) ∨ activeIndex st = -1). lia.
  - change (activeIndex st < Z.of_nat (length (items data)) ∨ activeIndex st = -1). lia.
Qed.

(** A run of steady events. *)
Fixpoint steady_run (st : State) (events : list Event) : Prop :=
  match events with
  | [] => True
  | ev :: rest => steady st ev ∧ steady_run (step st ev).1 rest
  end.

Lemma run_cons st ev rest :
  run st (ev :: rest) = ((run (step st ev).1 rest).1,
    match (step st ev).2 with Some c => c :: (run (step st ev).1 rest).2 | None => (run (step st ev).1 rest).2 end).
Proof. cbn [run]. destruct (step st ev) as [st' change]. cbn [fst snd]. by destruct (run st' rest). Qed.

Lemma scope_run_inv st events : inv st → inv (run st events).1.
Proof.
  revert st. induction events as [|ev rest IH]; intros st Hst; [done|]. rewrite run_cons. cbn [fst]. by apply IH, step_inv.
Qed.

Lemma run_in_list st events : inv st → in_list st → steady_run st events → in_list (run st events).1.
Proof.
  revert st. induction events as [|ev rest IH]; intros st Hst Hl; [done|]. intros [Hs Hr]. rewrite run_cons. cbn [fst].
  apply IH; [by apply step_inv|by apply step_in_list|done].
Qed.

(** What a step chooses is listed, or every endpoint was asked for, or the highlight
    had gone out of the list. *)
Lemma step_change st ev change :
  inv st → (step st ev).2 = Some change → open st = true ∧
  match change with
  | Some id => id ∈ endpoints st
  | None => ev = ClickAll ∨ (ev = Press Enter ∧ Z.of_nat (length (endpoints st)) ≤ activeIndex st)
  end.
Proof.
  intros [Hp Hi]. destruct ev; cbn [step]; try done; (destruct (open st); cbn [negb]; [|done]); try done.
  - unfold onKeyDown. destruct key; [done|..]; (destruct (Z.of_nat _ =? 0) eqn:E; breflect; [done|]); try done.
    destruct (0 <=? activeIndex st) eqn:Ea; [|done]. intros [= <-]. split; [done|].
    destruct (item_at _ _) as [id|] eqn:Ei; [by eapply item_at_elem|]. right. split; [done|]. breflect.
    destruct (decide (Z.of_nat (length (endpoints st)) ≤ activeIndex st)); [done|].
    destruct (item_at_Some (endpoints st) (activeIndex st)) as [? ?]; [lia|congruence].
  - case_decide; done.
  - destruct (endpoints st !! index) as [id|] eqn:Ei; [|done]. intros [= <-]. split; [done|]. by eapply list_elem_of_lookup_2.
  - intros [= <-]. split; [done|by left].
  - case_match; done.
  - case_match; done.
Qed.
End Scope.

(** ** The switcher *)

Module Switcher.
Record State := mkState {
  query : ustring; page : Z; open : bool; activeIndex : Z; results : option PageData;
}.
Definition mount : State := mkState [] 1 false (-1) None.

Definition term (st : State) : ustring := trim (query st).
Definition validTerm (st : State) : bool := let n := Z.of_nat (length (term st)) in (1 <=? n) && (n <=? 128).
Definition endpoints (st : State) : list Z := match results st with Some data => items data | None => [] end.
Definition highlight (st : State) (index : Z) : State := mkState (query st) (page st) (open st) index (results st).

Definition search_query (st : State) : QueryRecord :=
  [(u! "q", QString (term st)); (u! "page", QNumber (num_of_Z (page st))); (u! "size", QNumber (num_of_Z 20));
   (u! "sortBy", QString (u! "riskScore")); (u! "sortOrder", QString (u! "desc"))].
(** The request, when the search is enabled. *)
Definition search_call (st : State) : option ApiCall :=
  if open st && validTerm st then Some (ApiClient.endpoints (search_query st)) else None.

(** The page to navigate to. *)
Definition destination (params : URLSearchParams) (endpointId : Z) : ustring * ustring :=
  (u! "/endpoints/" ++ string_of_Z endpointId, 63 :: params_string (params_set (u! "selected") (string_of_Z endpointId) params)).

Inductive Event :=
| Type_ (text : ustring) (cached : option PageData)
| Focus
| Press (key : Scope.Key)
| Hover (index : nat)
| Click (index : nat)
| Previous (cached : option PageData)
| Next (cached : option PageData)
| Answer (data : PageData).

Definition select (st : State) : State := mkState (query st) (page st) false (activeIndex st) (results st).

(** The new state, and the endpoint to navigate to. *)
Definition onKeyDown (st : State) (key : Scope.Key) : State * option Z :=
  let n := Z.of_nat (length (endpoints st)) in
  match key with
  | Scope.Escape => (mkState (query st) (page st) false (-1) (results st), None)
  | _ =>
    if n =? 0 then (st, None)
    else match key with
         | Scope.ArrowDown => (mkState (query st) (page st) true (next_index n (activeIndex st)) (results st), None)
         | Scope.ArrowUp => (highlight st (previous_index n (activeIndex st)), None)
         | _ => if 0 <=? activeIndex st then
                  match item_at (endpoints st) (activeIndex st) with Some id => (select st, Some id) | None => (st, None) end
                else (st, None)
         end
  end.

Definition step (st : State) (ev : Event) : State * option Z :=
  match ev with
  | Type_ text cached => (mkState text 1 true (-1) cached, None)
  | Focus => (mkState (query st) (page st) (validTerm st) (activeIndex st) (results st), None)
  | Press key => onKeyDown st key
  | Answer data => (mkState (query st) (page st) (open st) (activeIndex st) (Some data), None)
  | _ =>
    if negb (open st && validTerm st) then (st, None)
    else match ev, results st with
         | Hover index, _ => if decide (index < length (endpoints st))%nat then (highlight st (Z.of_nat index), None) else (st, None)
         | Click index, _ => match endpoints st !! index with Some id => (select st, Some id) | None => (st, None) end
         | Previous cached, Some data =>
           if (size data <? total data) && (1 <? page st)
           then (mkState (query st) (page st - 1) (open st) (-1) cached, None) else (st, None)
         | Next cached, Some data =>
           if (size data <? total data) && (page st * size data <? total data)
           then (mkState (query st) (page st + 1) (open st) (-1) cached, None) else (st, None)
         | _, _ => (st, None)
         end
  end.

(** The states after some events, with the navigations on the way and what was
    listed at each. *)
Fixpoint run (st : State) (events : list Event) : State * list (Z * list Z) :=
  match events with
  | [] => (st, [])
  | ev :: rest =>
    let '(st', chosen) := step st ev in
    let '(final, navigations) := run st' rest in
    (final, match chosen with Some id => (id, endpoints st) :: navigations | None => navigations end)
  end.

Record inv (st : State) : Prop := { page_positive : 1 ≤ page st; index_low : -1 ≤ activeIndex st }.

Lemma switcher_step_ok st ev : inv st →
  inv (step st ev).1 ∧ ∀ id, (step st ev).2 = Some id → id ∈ endpoints st.
Proof.
  intros [Hp Hi]. destruct ev as [| |key| | | | |]; cbn [step].
  1,2,8: split; [split; cbn [fst page activeIndex]; lia|done].
  - unfold onKeyDown. destruct key; [split; [split; cbn [fst page activeIndex]; lia|done]|..];
      (destruct (Z.of_nat _ =? 0) eqn:E; breflect; [by split|]).
    + split; [|done]. pose proof (next_index_bounds (Z.of_nat (length (endpoints st))) (activeIndex st) ltac:(lia) ltac:(lia)).
      split; cbn [fst page activeIndex]; lia.
    + split; [|done]. unfold previous_index. split; [done|]. cbn [fst highlight activeIndex]. case_match; breflect; lia.
    + case_match; [|by split]. destruct (item_at _ _) as [id|] eqn:Ei; [|by split].
      split; [by split|]. intros id' [= <-]. by eapply item_at_elem.
  - destruct (open st && validTerm st); [|by split]. cbn [negb]. case_decide; [|by split].
    split; [split; [done|cbn [fst highlight activeIndex]; lia]|done].
  - destruct (open st && validTerm st); [|by split]. cbn [negb]. destruct (endpoints st !! index) as [id|] eqn:Ei; [|by split].
    split; [by split|]. intros id' [= <-]. by eapply list_elem_of_lookup_2.
  - destruct (open st && validTerm st); [|by split]. cbn [negb]. destruct (results st); [|by split]. case_match; [|by split].
    breflect. split; [split; cbn [fst page activeIndex]; lia|done].
  - destruct (open st && validTerm st); [|by split]. cbn [negb]. destruct (results st); [|by split]. case_match; [|by split].
    split; [split; cbn [fst page activeIndex]; lia|done].
Qed.

Lemma switcher_run_ok st events : inv st →
  inv (run st events).1 ∧ Forall (λ nav, nav.1 ∈ nav.2) (run st events).2.
Proof.
  revert st. induction events as [|ev rest IH]; intros st Hst; [done|]. cbn [run].
  destruct (switcher_step_ok st ev Hst) as [Hst' Hin]. destruct (step st ev) as [st' chosen]. cbn [fst snd] in *.
  specialize (IH st' Hst'). destruct (run st' rest) as [final navigations]. cbn [fst snd] in *. destruct IH as [? ?].
  split; [done|]. destruct chosen as [id|]; [|done]. constructor; [|done]. by apply Hin.
Qed.
End Switcher.

(** ** Claims *)

(** C20: the endpoint pickers, after any events: pages start at one and an endpoint
    that is chosen is one that is listed, with mouse or keyboard. In the scope
    picker only the entry for every endpoint clears the scope, as long as no answer
    shortens the list under the highlight; when one does, Enter clears the scope
    though nothing asked for it. The switcher has no such case, and the page it
    goes to keeps the query with the endpoint selected. *)
Theorem pickers_choose_listed :
  (∀ cached events ev, let st := (Scope.run (Scope.mount cached) events).1 in
     1 ≤ Scope.page st ∧ -1 ≤ Scope.activeIndex st ∧
     (∀ id, (Scope.step st ev).2 = Some (Some id) → id ∈ Scope.endpoints st) ∧
     (Scope.steady_run (Scope.mount cached) events → (Scope.step st ev).2 = Some None → ev = Scope.ClickAll)) ∧
  (∃ events, (Scope.step (Scope.run (Scope.mount None) events).1 (Scope.Press Scope.Enter)).2 = Some None) ∧
  (∀ events, Forall (λ navigation, navigation.1 ∈ navigation.2) (Switcher.run Switcher.mount events).2 ∧
     1 ≤ Switcher.page (Switcher.run Switcher.mount events).1) ∧
  (∀ params id, params_ok params → let search := (Switcher.destination params id).2 in
     params_of_string search = params_set (u! "selected") (string_of_Z id) params ∧
     isSelected (params_of_string search) (string_of_Z id) = true).
Proof.
  split_and!.
  - intros cached events ev st. pose proof (Scope.scope_run_inv _ events (Scope.scope_mount_inv cached)) as Hinv.
    fold st in Hinv. split_and!; [apply Hinv|apply Hinv| |].
    + intros id Hid. apply Scope.step_change in Hid; [|done]. apply Hid.
    + intros Hs Hc. apply Scope.step_change in Hc as [_ [->|[-> Hout]]]; [done| |done].
      pose proof (Scope.run_in_list _ events (Scope.scope_mount_inv cached) (or_intror eq_refl) Hs) as [Hl|Hl]; fold st in Hl; lia.
  - exists [Scope.Toggle; Scope.Answer (mkPageData [1; 2] 2 20); Scope.Hover 1; Scope.Toggle; Scope.Toggle;
            Scope.Answer (mkPageData [1] 1 20)].
    vm_compute. reflexivity.
  - intros events. assert (Switcher.inv Switcher.mount) as H0 by (split; vm_compute; congruence).
    destruct (Switcher.switcher_run_ok _ events H0) as [[Hp _] HF]. by split.
  - intros params id Hok. cbn [Switcher.destination snd].
    assert (params_ok (params_set (u! "selected") (string_of_Z id) params)) as Hok'.
    { apply params_ok_set; [by_compute| |done].
      eapply Forall_impl; [apply string_of_Z_ascii|]. simpl. lia. }
    rewrite (proj2 (params_of_string_string _ Hok')). split; [done|].
    unfold isSelected. rewrite params_get_set, decide_True by done.
    rewrite (usv_lit_units _ (string_of_Z_ascii id)). by apply bool_decide_eq_true.
Qed.
