(* ===== verification/Ui.v ===== *)
(** * Shared interface components

    Models the parts of frontend/src/components/ui.tsx and
    frontend/src/components/primitives.tsx that compute or keep state: the links of
    the pagination, the text of an error and of its details, the feedback of a query, the reasons of
    an EDR state, and the focus and scroll handling of modal dialogs. *)

From S2P Require Import Prelude JsNumber Json Url Contracts ApiClient I18n UrlState.

#[local] Open Scope list_scope.
#[local] Open Scope Z_scope.

(** ** Pagination *)

(** [Math.max(1, Math.ceil(total / size))]; the division is exact enough for totals
    below 2^53. *)
Definition total_pages (total size : Z) : Z := Z.max 1 (- ((- total) / size)).

Definition page_params (params : URLSearchParams) (targetPage : Z) : URLSearchParams :=
  if targetPage <=? 1 then params_delete (u! "page") params
  else params_set (u! "page") (string_of_Z targetPage) params.
Definition pageUrl (pathname : ustring) (params : URLSearchParams) (targetPage : Z) : ustring :=
  pathname ++ search_of (page_params params targetPage).

(** The pages the two links lead to; [None] for a disabled one. *)
Definition previous_page (page : Z) : option Z := if page <=? 1 then None else Some (page - 1).
Definition next_page (page total size : Z) : option Z := if total_pages total size <=? page then None else Some (page + 1).

Definition updateListParams (current : URLSearchParams) (values : list (ustring * option ustring)) : URLSearchParams :=
  params_delete (u! "page")
    (foldl (λ next kv, match kv.2 with
                       | Some v => if truthy v then params_set kv.1 v next else params_delete kv.1 next
                       | None => params_delete kv.1 next
                       end) current values).
Definition change_size (params : URLSearchParams) (value : ustring) : URLSearchParams :=
  updateListParams params [(u! "size", Some value)].

(** ** Errors *)

Definition API_ERROR_KEYS : list (ustring * string) :=
  [(u! "VALIDATION_ERROR", "error.validation"); (u! "INVALID_TOKEN", "error.invalidToken");
   (u! "FORBIDDEN", "error.forbidden"); (u! "NOT_FOUND", "error.notFound");
   (u! "SERVICE_UNAVAILABLE", "error.serviceUnavailable"); (u! "ARCHIVE_NOT_READY", "error.archiveNotReady");
   (u! "ROLLUP_NOT_READY", "error.rollupNotReady"); (u! "NETWORK_ERROR", "error.network");
   (u! "INVALID_ENVELOPE", "error.invalidEnvelope");
   (u! "DASHBOARD_LAYOUT_REVISION_CONFLICT", "error.dashboardRevisionConflict");
   (u! "DASHBOARD_LAYOUT_NOT_FOUND", "error.dashboardNotFound");
   (u! "INVALID_DASHBOARD_LAYOUT", "error.invalidDashboardLayout")]%string.

Definition EDR_REASON_KEYS : list (ustring * string) :=
  [(u! "MEDIUM_ENDPOINT_RISK", "edrState.reason.mediumEndpointRisk");
   (u! "HIGH_ENDPOINT_RISK", "edrState.reason.highEndpointRisk");
   (u! "CRITICAL_ENDPOINT_RISK", "edrState.reason.criticalEndpointRisk");
   (u! "OPEN_INCIDENT", "edrState.reason.openIncident"); (u! "CRITICAL_ALERT", "edrState.reason.criticalAlert");
   (u! "OFFLINE_ENDPOINT", "edrState.reason.offlineEndpoint"); (u! "STALE_ENDPOINT", "edrState.reason.staleEndpoint");
   (u! "DEGRADED_SENSOR", "edrState.reason.degradedSensor"); (u! "UNAVAILABLE_SENSOR", "edrState.reason.unavailableSensor");
   (u! "INGEST_FAILURE", "edrState.reason.ingestFailure"); (u! "INGEST_DELAYED", "edrState.reason.ingestDelayed");
   (u! "STORAGE_FAILURE", "edrState.reason.storageFailure")]%string.

(** What an error state shows, but for the list of details. *)
Record ErrorView := mkErrorView {
  view_class : ustring; view_message : ustring; view_help : ustring; view_request : ustring; view_archive : bool;
}.

Section locale.
Context (locale : Locale).

Definition api_error_of (error : Rejection) : option ApiError := match error with RApi e => Some e | _ => None end.

(** [None]: translating a member inherited by the table throws. *)
Definition error_message (error : Rejection) : option ustring :=
  match api_error_of error with
  | Some e =>
    match locale with
    | KO => t_member (translate KO) (object_get API_ERROR_KEYS (err_code e)) (translate KO "error.dataLoad" [])
    | EN => Some (err_message e)
    end
  | None => translate locale "error.dataLoad" []
  end.

Definition has_code (error : Rejection) (code : ustring) : bool :=
  match api_error_of error with Some e => bool_decide (err_code e = code) | None => false end.

Definition ErrorState (error : Rejection) (archiveAction : bool) : option ErrorView :=
  message ← error_message error;
  help ← (if match api_error_of error with Some e => err_retryable e | None => false end
          then translate locale "error.retryableHelp" [] else translate locale "error.actionHelp" []);
  request ← match api_error_of error ≫= err_requestId with
            | Some id => if truthy id then translate locale "common.requestId" [(u! "requestId", I18n.PText id)]
                         else translate locale "common.requestIdUnavailable" []
            | None => translate locale "common.requestIdUnavailable" []
            end;
  Some (mkErrorView
    (if has_code error (u! "FORBIDDEN") then u! "forbidden"
     else if has_code error (u! "ARCHIVE_NOT_READY") then u! "archive-not-ready" else u! "error")
    message help request (archiveAction || has_code error (u! "ARCHIVE_NOT_READY"))).

(** [String(value)] and [Boolean(value)] of a parsed JSON value. [None]: an object whose own
    [toString] hides the inherited one is no text. *)
Fixpoint String_of (value : json) : option ustring :=
  match value with
  | JNull => Some (u! "null") | JBool b => Some (if b then u! "true" else u! "false")
  | JNum n => Some (string_of_num n) | JStr s => Some s
  | JArr items => join [44] <$> option_list (map (λ v, match v with JNull => Some [] | _ => String_of v end) items)
  | JObj fields => if map_has (u! "toString") fields then None else Some (u! "[object Object]")
  end.
Definition json_truthy (value : option json) : bool :=
  match value with
  | None | Some JNull => false | Some (JBool b) => b | Some (JStr s) => truthy s
  | Some (JNum NaN) => false | Some (JNum n) => negb (bool_decide (to_integer n = Some 0))
  | Some (JArr _) | Some (JObj _) => true
  end.
(** A value among the children of an element; [None]: React refuses to draw an object. *)
Fixpoint child_text (value : json) : option ustring :=
  match value with
  | JNull | JBool _ => Some [] | JNum n => Some (string_of_num n) | JStr s => Some s
  | JArr items => join [] <$> option_list (map child_text items)
  | JObj _ => None
  end.

(** An item of the list of details, as the server sent it. [None]: it throws, as reading a
    member of [null] does; its key in the list is made of its field, too. *)
Definition error_detail (detail : json) : option ustring :=
  _ ← match detail with JNull => None | _ => Some () end;
  key ← match prop (u! "field") detail with None | Some JNull => Some (u! "state") | Some field => String_of field end;
  text ← match locale with
         | KO => if json_truthy (prop (u! "field") detail) then translate KO "error.detailField" [(u! "field", I18n.PText key)]
                 else translate KO "error.detailUnknown" []
         | EN => from_option child_text (Some []) (prop (u! "message") detail)
         end;
  context ← match prop (u! "context") detail with
            | Some context => if json_truthy (Some context) then (λ shown, u! " · " ++ shown) <$> stringify context else Some []
            | None => Some []
            end;
  Some (text ++ context).
Definition error_details (error : Rejection) : option (list ustring) :=
  match api_error_of error with Some e => mapM error_detail (err_details e) | None => Some [] end.

(** The whole error state, without the button that leads to the archives. *)
Record DrawnError := mkDrawnError { de_view : ErrorView; de_details : list ustring }.
Definition drawn_error (error : Rejection) : option DrawnError :=
  view ← ErrorState error false; details ← error_details error; Some (mkDrawnError view details).
Definition request_id (error : Rejection) : option ustring := api_error_of error ≫= err_requestId.

(** The text of a reason code. *)
Definition edr_reason (toLowerCase : ustring → ustring) (reason : ustring) : option ustring :=
  t_member (translate locale) (object_get EDR_REASON_KEYS reason) (Some (humanize toLowerCase reason)).
End locale.

(** The parts of the feedback of a query. *)
Inductive Feedback := InvalidFilter | SkeletonRows | ErrorShown | StaleShown | Refetching.
#[export] Instance Feedback_eq_dec : EqDecision Feedback.
Proof. solve_decision. Defined.

Definition QueryFeedback (invalid pending fetching refetchError error hasData : bool) : list Feedback :=
  if invalid then [InvalidFilter]
  else (if pending then [SkeletonRows] else [])
       ++ (if error && negb hasData then [ErrorShown] else [])
       ++ (if refetchError && hasData then [StaleShown] else [])
       ++ (if fetching && hasData && negb refetchError then [Refetching] else []).

(** ** Modal dialogs *)

(** An element of a panel: an identity, its tag in upper case and its attributes. No
    form control of the program is inside a disabled fieldset, so [:disabled] is the
    attribute. *)
Record elem := mkElem { el_id : nat; el_tag : ustring; el_attrs : list (ustring * ustring) }.
Definition has_attr (name : ustring) (e : elem) : bool := map_has name (el_attrs e).
Definition tabbable (e : elem) : bool :=
  match map_get (u! "tabindex") (el_attrs e) with Some v => negb (bool_decide (v = u! "-1")) | None => false end.
Definition form_tags : list ustring := [u! "BUTTON"; u! "INPUT"; u! "SELECT"; u! "TEXTAREA"].

(** The selector of the focusable elements, and that of the first focus. *)
Definition focusable (e : elem) : bool :=
  (str_in (el_tag e) form_tags && negb (has_attr (u! "disabled") e))
  || (bool_decide (el_tag e = u! "A") && has_attr (u! "href") e) || tabbable e.
Definition first_focus (e : elem) : bool :=
  has_attr (u! "data-autofocus") e || str_in (el_tag e) (u! "A" :: form_tags) || tabbable e.

(** What the document holds of it: the element with focus, and the body's overflow. *)
Record Document := mkDocument { activeElement : option nat; overflow : ustring }.
(** What a modal saves when it opens. *)
Record Saved := mkSaved { previousFocus : option nat; previousOverflow : ustring }.

(** [element?.focus()], which a disabled control ignores. *)
Definition focus_elem (doc : Document) (e : option elem) : Document :=
  match e with
  | Some e => if str_in (el_tag e) form_tags && has_attr (u! "disabled") e then doc
              else mkDocument (Some (el_id e)) (overflow doc)
  | None => doc
  end.

(** The effect of opening; the panel is the list of its descendants in document order. *)
Definition open_modal (doc : Document) (returnFocus : option nat) (panel : list elem) : Document * Saved :=
  let saved := mkSaved (match returnFocus with Some e => Some e | None => activeElement doc end) (overflow doc) in
  (focus_elem (mkDocument (activeElement doc) (u! "hidden")) (js_find first_focus panel), saved).
Definition close_modal (doc : Document) (saved : Saved) : Document :=
  mkDocument (match previousFocus saved with Some e => Some e | None => activeElement doc end) (previousOverflow saved).

Inductive KeyAction := CloseModal | FocusOn (e : elem) | DefaultAction.
Definition handleKeyDown (panel : list elem) (active : option nat) (key : ustring) (shiftKey : bool) : KeyAction :=
  if bool_decide (key = u! "Escape") then CloseModal
  else if negb (bool_decide (key = u! "Tab")) then DefaultAction
  else
    let focusables := js_filter focusable panel in
    match head focusables, last focusables with
    | Some first, Some last =>
      if shiftKey && bool_decide (active = Some (el_id first)) then FocusOn last
      else if negb shiftKey && bool_decide (active = Some (el_id last)) then FocusOn first
      else DefaultAction
    | _, _ => DefaultAction
    end.

(** Several modals: each is opened and closed by its component. *)
Inductive ModalEvent :=
| OpenModal (id : nat) (returnFocus : option nat) (panel : list elem)
| CloseModalOf (id : nat)
| MoveFocus (target : option nat).
Record Modals := mkModals { document : Document; opened : list (nat * Saved) }.

Definition modal_step (st : Modals) (ev : ModalEvent) : Modals :=
  match ev with
  | OpenModal id returnFocus panel =>
    let '(doc, saved) := open_modal (document st) returnFocus panel in mkModals doc ((id, saved) :: opened st)
  | CloseModalOf id =>
    match map_get id (opened st) with
    | Some saved => mkModals (close_modal (document st) saved) (js_filter (λ o, negb (Nat.eqb o.1 id)) (opened st))
    | None => st
    end
  | MoveFocus target => mkModals (mkDocument target (overflow (document st))) (opened st)
  end.
Definition modal_run : Modals → list ModalEvent → Modals := foldl modal_step.

(** Modals that are closed in the reverse order of opening. *)
Inductive nested : list nat → list ModalEvent → Prop :=
| nested_nil ids : nested ids []
| nested_focus ids target rest : nested ids rest → nested ids (MoveFocus target :: rest)
| nested_modal ids id returnFocus panel inside rest :
    id ∉ ids → nested (id :: ids) inside → nested ids rest →
    nested ids (OpenModal id returnFocus panel :: inside ++ CloseModalOf id :: rest).

(** ** Lemmas *)

Lemma nested_restores ids evs : nested ids evs → ∀ st, (opened st).*1 = ids →
  opened (modal_run st evs) = opened st ∧ overflow (document (modal_run st evs)) = overflow (document st).
Proof.
  induction 1 as [ids|ids target rest _ IH|ids id returnFocus panel inside rest Hid Hin IHin Hrest IHrest]; intros st Hst; [done| |].
  - cbn [modal_run foldl]. by apply (IH (modal_step st (MoveFocus target))).
  - cbn [modal_run foldl]. unfold modal_run. rewrite foldl_app. cbn [foldl].
    set (st1 := modal_step st (OpenModal id returnFocus panel)).
    destruct (IHin st1) as [Ho1 Hov1]; [by cbn; rewrite Hst|].
    fold (modal_run st1 inside). set (st2 := modal_run st1 inside) in *.
    set (saved := (open_modal (document st) returnFocus panel).2).
    assert (opened st2 = (id, saved) :: opened st) as Ho2 by exact Ho1.
    assert (modal_step st2 (CloseModalOf id) = mkModals (close_modal (document st2) saved) (opened st)) as Hclose.
    { cbn [modal_step]. rewrite Ho2. cbn [map_get]. rewrite decide_True by done. f_equal. rewrite js_filter_cons. cbn [fst].
      rewrite Nat.eqb_refl. cbn [negb]. rewrite <- Hst in Hid. revert Hid. generalize (opened st). induction l as [|o l IHl]; [done|].
      cbn [fmap list_fmap]. intros [Hne Hl]%not_elem_of_cons. rewrite js_filter_cons. destruct (Nat.eqb_spec o.1 id); [congruence|].
      cbn [negb]. by rewrite IHl. }
    rewrite Hclose. destruct (IHrest (mkModals (close_modal (document st2) saved) (opened st))) as [Ho3 Hov3]; [done|].
    split; [exact Ho3|exact Hov3].
Qed.

(** One [Tab] inside a modal: the handler's focus, or the browser's move. *)
Section trap.
Context (panel : list elem).
#[local] Abbreviation stops := (js_filter focusable panel).
(** Sequential navigation, which the panel does not control beyond its ends. *)
Context (sequential : option nat → bool → option nat).
Hypothesis distinct : NoDup (el_id <$> stops).
Hypothesis moves_on : ∀ i e e', stops !! i = Some e → stops !! S i = Some e' →
  sequential (Some (el_id e)) false = Some (el_id e') ∧ sequential (Some (el_id e')) true = Some (el_id e).

Definition press_tab (active : option nat) (shiftKey : bool) : option nat :=
  match handleKeyDown panel active (u! "Tab") shiftKey with
  | FocusOn e => Some (el_id e)
  | _ => sequential active shiftKey
  end.

Definition stop (i : Z) : option nat := el_id <$> stops !! Z.to_nat i.
Definition moved (i : Z) (shiftKey : bool) : Z := (i + (if shiftKey then -1 else 1)) mod Z.of_nat (length stops).

Lemma stop_inj i j e : stops !! i = Some e → (el_id <$> stops !! j) = Some (el_id e) → i = j.
Proof.
  intros Hi Hj. apply (NoDup_lookup _ i j (el_id e) distinct); rewrite list_lookup_fmap; [by rewrite Hi|done].
Qed.

(** The focus stays on the stops, and moves around them. *)
Lemma press_tab_moves i shiftKey : 0 ≤ i < Z.of_nat (length stops) →
  press_tab (stop i) shiftKey = stop (moved i shiftKey) ∧ 0 ≤ moved i shiftKey < Z.of_nat (length stops).
Proof.
  intros Hi. split; [|unfold moved; apply Z.mod_pos_bound; lia].
  destruct (lookup_lt_is_Some_2 stops (Z.to_nat i)) as [e He]; [lia|].
  destruct (lookup_lt_is_Some_2 stops 0) as [first Hfirst]; [lia|].
  destruct (lookup_lt_is_Some_2 stops (length stops - 1)) as [final Hfinal]; [lia|].
  assert (stop i = Some (el_id e)) as Hs by (unfold stop; by rewrite He).
  unfold press_tab, handleKeyDown. rewrite Hs,  (bool_decide_eq_false_2 (u! "Tab" = u! "Escape")) by (by vm_compute).
  rewrite (bool_decide_eq_true_2 (u! "Tab" = u! "Tab")) by done. cbn [negb].
  assert (head stops = Some first) as -> by (destruct stops; [done|exact Hfirst]).
  assert (last stops = Some final) as -> by (rewrite last_lookup, <- Hfinal; f_equal; lia).
  assert (∀ j x, stops !! j = Some x → bool_decide (Some (el_id e) = Some (el_id x)) = bool_decide (Z.to_nat i = j)) as Heq.
  { intros j x Hx. apply bool_decide_ext. split; [intros [= Heq]|intros <-; congruence].
    apply (stop_inj _ _ _ He). rewrite Hx. cbn. by rewrite Heq. }
  rewrite (Heq _ _ Hfirst), (Heq _ _ Hfinal). unfold moved, stop. destruct shiftKey; cbn [negb andb].
  - case_bool_decide as H0.
    + replace ((i + -1) mod Z.of_nat (length stops)) with (Z.of_nat (length stops) - 1).
      * replace (Z.to_nat (Z.of_nat (length stops) - 1)) with (length stops - 1)%nat by lia. by rewrite Hfinal.
      * replace (i + -1) with (-1) by lia. apply (Z.mod_unique _ _ (-1)); lia.
    + rewrite Z.mod_small by lia. destruct (lookup_lt_is_Some_2 stops (Z.to_nat (i + -1))) as [e' He']; [lia|].
      rewrite He'. cbn. apply (moves_on (Z.to_nat (i + -1))); [done|]. by replace (S (Z.to_nat (i + -1))) with (Z.to_nat i) by lia.
  - case_bool_decide as H0.
    + replace ((i + 1) mod Z.of_nat (length stops)) with 0; [change (Z.to_nat 0) with 0%nat; by rewrite Hfirst|].
      replace (i + 1) with (Z.of_nat (length stops)) by lia. by rewrite Z_mod_same_full.
    + rewrite Z.mod_small by lia. destruct (lookup_lt_is_Some_2 stops (Z.to_nat (i + 1))) as [e' He']; [lia|].
      rewrite He'. cbn. apply (moves_on (Z.to_nat i)); [done|]. by replace (S (Z.to_nat i)) with (Z.to_nat (i + 1)) by lia.
Qed.

Lemma tab_run presses i : 0 ≤ i < Z.of_nat (length stops) →
  foldl press_tab (stop i) presses = stop (foldl moved i presses) ∧ 0 ≤ foldl moved i presses < Z.of_nat (length stops).
Proof.
  revert i. induction presses as [|shiftKey presses IH]; intros i Hi; [done|]. cbn [foldl].
  destruct (press_tab_moves i shiftKey Hi) as [-> Hm]. by apply IH.
Qed.
End trap.

(** ** Claims *)

Lemma page_params_read params target : params_ok params → target ≤ 2 ^ 53 →
  numberParam (page_params params target) (u! "page") 1 = Z.max 1 target ∧
  (∀ key, usv key ≠ u! "page" → params_get (page_params params target) key = params_get params key) ∧
  params_of_string (search_of (page_params params target)) = page_params params target.
Proof.
  intros Hok Ht. assert (params_ok (page_params params target)) as Hok'.
  { unfold page_params. case_match; [by apply params_ok_delete|]. apply params_ok_set; [|by eapply Forall_impl; [apply string_of_Z_ascii|]; simpl; lia|done].
    apply (bool_decide_unpack _). by vm_compute. }
  split_and!.
  - unfold numberParam, page_params. destruct (target <=? 1) eqn:E; breflect.
    + rewrite params_get_delete_eq. assert (positive_int (number_of_opt None) = None) as -> by (by vm_compute). cbn. lia.
    + rewrite params_get_set, decide_True by done. rewrite usv_lit_units by apply string_of_Z_ascii.
      cbn [number_of_opt]. rewrite number_of_string_of_Z, positive_int_Z by lia. cbn. lia.
  - intros key Hk. assert (usv (u! "page") = u! "page") as Hp by (by vm_compute). unfold page_params. case_match.
    + rewrite params_get_delete_ne; [done|]. by rewrite Hp.
    + rewrite params_get_set, decide_False; [done|]. by rewrite Hp.
  - unfold search_of. destruct (page_params params target) as [|kv p] eqn:E; [by vm_compute|].
    by apply (params_of_string_string (kv :: p)).
Qed.

(** C21: the pagination: a link is offered exactly for the pages from one to the last,
    its URL is the current page with a query that reads back as itself, names the
    target page (the first by leaving it out) and keeps every other filter; another
    page size starts again at the first page and changes nothing else. *)
Theorem pagination_spec params pathname page total size value :
  params_ok params → 0 < size → 0 ≤ total → 1 ≤ page ≤ total_pages total size → total_pages total size < 2 ^ 53 →
  (∀ target, previous_page page = Some target ∨ next_page page total size = Some target →
     1 ≤ target ≤ total_pages total size ∧
     ∃ search, pageUrl pathname params target = pathname ++ search ∧
       numberParam (params_of_string search) (u! "page") 1 = target ∧
       (∀ key, usv key ≠ u! "page" → params_get (params_of_string search) key = params_get params key)) ∧
  (previous_page page = None ↔ page = 1) ∧ (next_page page total size = None ↔ page = total_pages total size) ∧
  (truthy value = true →
     numberParam (change_size params value) (u! "page") 1 = 1 ∧
     params_get (change_size params value) (u! "size") = Some (usv value) ∧
     (∀ key, usv key ≠ u! "page" → usv key ≠ u! "size" → params_get (change_size params value) key = params_get params key)).
Proof.
  intros Hok Hs Ht Hp Hb. split_and!.
  - intros target Htarget. assert (1 ≤ target ≤ total_pages total size) as Hr.
    { unfold previous_page, next_page in Htarget. destruct Htarget as [H|H]; case_match; try done; injection H as <-; breflect; lia. }
    split; [done|]. destruct (page_params_read params target Hok ltac:(lia)) as (H1 & H2 & H3).
    exists (search_of (page_params params target)). split; [done|]. rewrite H3. split; [lia|done].
  - unfold previous_page. destruct (page <=? 1) eqn:E; breflect; [split; [lia|done]|split; [done|lia]].
  - unfold next_page. destruct (total_pages total size <=? page) eqn:E; breflect; [split; [lia|done]|split; [done|lia]].
  - intros Hv. unfold change_size, updateListParams. cbn [foldl fst snd]. rewrite Hv.
    assert (usv (u! "page") = u! "page") as Up by (by vm_compute). assert (usv (u! "size") = u! "size") as Us by (by vm_compute).
    split_and!.
    + unfold numberParam. rewrite params_get_delete_eq. by vm_compute.
    + rewrite params_get_delete_ne by (rewrite Us, Up; by vm_compute). by rewrite params_get_set, decide_True.
    + intros key Hk1 Hk2. rewrite params_get_delete_ne by (by rewrite Up). rewrite params_get_set, decide_False; [done|]. by rewrite Us.
Qed.

Lemma pagination_spec_witness :
  next_page 2 101 50 = Some 3 ∧
  ∃ search, pageUrl (u! "/alerts") (params_of_string (u! "?status=OPEN&page=2")) 3 = u! "/alerts" ++ search ∧
    numberParam (params_of_string search) (u! "page") 1 = 3.
Proof.
  assert (next_page 2 101 50 = Some 3) as Hn by (vm_compute; reflexivity). split; [exact Hn|].
  destruct (proj1 (pagination_spec (params_of_string (u! "?status=OPEN&page=2")) (u! "/alerts") 2 101 50 [] ltac:(
    apply params_of_string_ok; by_compute) ltac:(lia) ltac:(lia)
    ltac:(vm_compute; split; congruence) ltac:(vm_compute; reflexivity)) 3 (or_intror Hn)) as (_ & search & H1 & H2 & _).
  exists search. split; [exact H1|exact H2].
Defined.

(** C22: modal dialogs give back what they take. Dialogs closed in the reverse order of
    opening leave the page's scrolling and the list of open dialogs as they were;
    inside one, any number of presses of Tab and Shift+Tab keeps the focus on the
    dialog's focusable elements and moves it around them, for a browser that steps
    through them in order. Dialogs closed in another order can leave the page
    unable to scroll. *)
Theorem modal_focus_spec :
  (∀ evs st, nested (opened st).*1 evs →
     opened (modal_run st evs) = opened st ∧ overflow (document (modal_run st evs)) = overflow (document st)) ∧
  (∀ panel sequential, let stops := js_filter focusable panel in
     NoDup (el_id <$> stops) →
     (∀ i e e', stops !! i = Some e → stops !! S i = Some e' →
        sequential (Some (el_id e)) false = Some (el_id e') ∧ sequential (Some (el_id e')) true = Some (el_id e)) →
     ∀ presses i, 0 ≤ i < Z.of_nat (length stops) →
       foldl (press_tab panel sequential) (stop panel i) presses =
         stop panel ((i + sumZ (map (λ shiftKey : bool, if shiftKey then -1 else 1) presses)) mod Z.of_nat (length stops))) ∧
  (∃ evs, let st := modal_run (mkModals (mkDocument None []) []) evs in opened st = [] ∧ overflow (document st) = u! "hidden").
Proof.
  split_and!.
  - intros evs st Hn. by apply (nested_restores _ _ Hn).
  - intros panel sequential stops Hd Hm presses i Hi. rewrite (proj1 (tab_run panel sequential Hd Hm presses i Hi)). f_equal.
    assert (∀ j, foldl (moved panel) j presses mod Z.of_nat (length stops) =
      (j + sumZ (map (λ shiftKey : bool, if shiftKey then -1 else 1) presses)) mod Z.of_nat (length stops)) as H.
    { induction presses as [|s presses IH]; intros j; [cbn; f_equal; lia|]. cbn [foldl map sumZ foldr]. rewrite IH.
      unfold moved. fold stops. rewrite Zplus_mod_idemp_l. f_equal. unfold sumZ. lia. }
    rewrite <- H, Z.mod_small; [done|]. apply (tab_run panel sequential Hd Hm presses i Hi).
  - exists [OpenModal 1 None []; OpenModal 2 None []; CloseModalOf 1; CloseModalOf 2]. vm_compute. done.
Qed.

Lemma error_tables :
  forallb (λ kv, has_text kv.2) (API_ERROR_KEYS ++ EDR_REASON_KEYS) = true ∧
  forallb (λ n, negb (map_has n API_ERROR_KEYS) && negb (map_has n EDR_REASON_KEYS)) inherited_names = true ∧
  forallb has_text ["error.dataLoad"; "error.retryableHelp"; "error.actionHelp"; "common.requestId"; "common.requestIdUnavailable"]%string = true.
Proof. vm_compute. done. Qed.

Lemma error_keys_own n : n ∈ inherited_names → map_has n API_ERROR_KEYS = false ∧ map_has n EDR_REASON_KEYS = false.
Proof. destruct error_tables as (_ & Hown & _). rewrite forallb_elem in Hown. intros Hn. specialize (Hown n Hn). by breflect. Qed.

Lemma error_text locale key params :
  key ∈ ["error.dataLoad"; "error.retryableHelp"; "error.actionHelp"; "common.requestId"; "common.requestIdUnavailable"]%string →
  is_Some (translate locale key params).
Proof. intros Hin. destruct error_tables as (_ & _ & Ht). rewrite forallb_elem in Ht. by apply translate_total, Ht. Qed.

Lemma error_message_None locale error :
  error_message locale error = None ↔ locale = KO ∧ ∃ e, error = RApi e ∧ err_code e ∈ inherited_names.
Proof.
  destruct error_tables as (Hk & _ & _). rewrite forallb_app in Hk. apply andb_true_iff in Hk as [Hk _].
  destruct (error_text locale "error.dataLoad" [] ltac:(by left)) as [x Hx].
  unfold error_message. destruct error as [e| |]; cbn [api_error_of].
  - destruct locale; [split; [done|intros [? _]; done]|].
    rewrite t_member_throws; [|done|intros n Hn; by apply error_keys_own|by eexists].
    split; [intros Hin; split; [done|by exists e]|intros (_ & ? & [= ->] & ?); done].
  - rewrite Hx. split; [done|intros (_ & ? & [=] & _)].
  - rewrite Hx. split; [done|intros (_ & ? & [=] & _)].
Qed.

(** Everything but the message can always be drawn. *)
Lemma ErrorState_message locale error archiveAction : ∃ class help request,
  ErrorState locale error archiveAction =
  (λ message, mkErrorView class message help request (archiveAction || has_code error (u! "ARCHIVE_NOT_READY")))
    <$> error_message locale error.
Proof.
  unfold ErrorState. set (class := if has_code error (u! "FORBIDDEN") then _ else _).
  set (help := if match api_error_of error with Some e => err_retryable e | None => false end then _ else _).
  set (request := match api_error_of error ≫= err_requestId with Some _ => _ | None => _ end).
  assert (is_Some help) as [h Hh] by (subst help; case_match; apply error_text; set_solver).
  assert (is_Some request) as [r Hr] by (subst request; repeat case_match; apply error_text; set_solver).
  exists class, h, r. rewrite Hh, Hr. by destruct (error_message locale error).
Qed.

Lemma error_message_korean error message : error_message KO error = Some message →
  ∃ key, key ∈ "error.dataLoad"%string :: API_ERROR_KEYS.*2 ∧ translate KO key [] = Some message.
Proof.
  unfold error_message. destruct error as [e| |]; cbn [api_error_of].
  2,3: intros H; exists "error.dataLoad"%string; split; [by left|done].
  unfold object_get. destruct (map_get (err_code e) API_ERROR_KEYS) as [key|] eqn:E; cbn [t_member].
  - intros H. exists key. split; [|done]. right. apply map_get_Some_elem in E. by apply (list_elem_of_fmap_2 snd) in E.
  - destruct (str_in _ _); [done|]. cbn [t_member]. intros H. exists "error.dataLoad"%string. split; [by left|done].
Qed.

(** an error is always explained: an error state can be drawn unless the page is
    in Korean and the server's error code is the name of an inherited object member;
    in English it shows the server's message, in Korean one of the translated texts
    for error codes and never the server's; the link to the archives is there for an
    archive that is not ready. Every reason code of the contract has a text of its
    own in both languages. *)
Theorem error_state_spec locale error archiveAction :
  (ErrorState locale error archiveAction = None ↔
     locale = KO ∧ ∃ e, error = RApi e ∧ err_code e ∈ inherited_names) ∧
  (∀ view, ErrorState locale error archiveAction = Some view →
     (∀ e, locale = EN → error = RApi e → view_message view = err_message e) ∧
     (locale = KO → ∃ key, key ∈ "error.dataLoad"%string :: API_ERROR_KEYS.*2 ∧ translate KO key [] = Some (view_message view)) ∧
     (view_archive view = true ↔ archiveAction = true ∨ ∃ e, error = RApi e ∧ err_code e = u! "ARCHIVE_NOT_READY")) ∧
  (∀ toLowerCase reason, reason ∈ EDR_REASON_KEYS.*1 → ∃ key, (reason, key) ∈ EDR_REASON_KEYS ∧
     edr_reason locale toLowerCase reason = translate locale key [] ∧ is_Some (translate locale key [])).
Proof.
  destruct (ErrorState_message locale error archiveAction) as (class & help & request & ->). split_and!.
  - rewrite <- error_message_None. by destruct (error_message locale error).
  - intros view Hv. destruct (error_message locale error) as [m|] eqn:Em; [|done]. injection Hv as <-. cbn [view_message view_archive].
    split_and!.
    + intros e -> ->. by injection Em as <-.
    + intros ->. by apply (error_message_korean error).
    + rewrite orb_true_iff. f_equiv. unfold has_code. destruct error as [e| |]; cbn [api_error_of].
      * rewrite bool_decide_eq_true. split; [intros H; by exists e|by intros (? & [= ->] & ?)].
      * split; [done|by intros (? & [=] & _)].
      * split; [done|by intros (? & [=] & _)].
  - intros toLowerCase reason Hr. apply list_elem_of_fmap in Hr as ([r key] & -> & Hin). exists key. split; [done|].
    assert (map_get r EDR_REASON_KEYS = Some key) as Hg by (apply map_get_elem; [by_compute|done]).
    unfold edr_reason, object_get. cbn [fst]. rewrite Hg. cbn [t_member]. split; [done|]. apply translate_total.
    destruct error_tables as (Hk & _ & _). rewrite forallb_app in Hk. apply andb_true_iff in Hk as [_ Hk].
    rewrite forallb_elem in Hk. exact (Hk _ Hin).
Qed.

(** A detail of the contract: a message, and the name of a field or none. *)
Definition contract_detail (detail : json) : Prop :=
  (∃ message, prop (u! "message") detail = Some (JStr message)) ∧
  (prop (u! "field") detail = Some JNull ∨ ∃ field, prop (u! "field") detail = Some (JStr field)).
(** An error that can be told in a locale: its details keep the contract, and in Korean its
    code is no inherited name. *)
Definition tellable (locale : Locale) (error : Rejection) : Prop :=
  ∀ e, error = RApi e → (locale = KO → err_code e ∉ inherited_names) ∧ Forall contract_detail (err_details e).

Lemma error_detail_Some locale detail : contract_detail detail → is_Some (error_detail locale detail).
Proof.
  intros [[message Hm] Hf]. unfold error_detail. assert (match detail with JNull => None | _ => Some () end = Some ()) as -> by (by destruct detail). cbn [mbind option_bind].
  assert (is_Some (match prop (u! "field") detail with None | Some JNull => Some (u! "state") | Some field => String_of field end)) as [key ->]
    by (destruct Hf as [->|[field ->]]; by eexists).
  cbn [mbind option_bind]. set (text := match locale with EN => _ | KO => _ end).
  assert (is_Some text) as [x ->].
  { unfold text. rewrite Hm. destruct locale; [by eexists|]. destruct (json_truthy _); apply translate_total; by_compute. }
  cbn [mbind option_bind]. destruct (prop (u! "context") detail) as [context|]; [|by eexists].
  destruct (json_truthy (Some context)); [|by eexists]. destruct (stringify_Some context) as [shown ->]. by eexists.
Qed.

Lemma drawn_error_Some locale error : tellable locale error → is_Some (drawn_error locale error).
Proof.
  intros He. unfold drawn_error. destruct (ErrorState locale error false) as [view|] eqn:E.
  - cbn [mbind option_bind]. assert (is_Some (error_details locale error)) as [details ->]; [|by eexists].
    unfold error_details. destruct error as [e| |]; cbn [api_error_of]; [|by eexists..]. apply mapM_is_Some.
    destruct (He e eq_refl) as [_ Hd]. eapply Forall_impl; [done|]. apply error_detail_Some.
  - exfalso. destruct (ErrorState_message locale error false) as (class & help & request & Em). rewrite E in Em.
    destruct (error_message locale error) as [m|] eqn:Hm; [done|]. apply error_message_None in Hm as (Hl & e & -> & Hin).
    by destruct (He e eq_refl) as [Hc _]; apply (Hc Hl).
Qed.
