(* ===== verification/Intelligence.v ===== *)
(** * The intelligence page

    Models the state of frontend/src/pages/IntelligencePage.tsx: which parts of the
    page are shown for the results of its queries, the correlation search, the
    topology workspace (search, limit, selection, expanded domains), the rows its
    evidence table marks, the links to the event and alert lists, and the ranking
    of signals. *)

From S2P Require Import Prelude JsNumber JsDate Url Contracts ApiClient UrlState Topology ListPages.

#[local] Open Scope list_scope.
#[local] Open Scope Z_scope.

(** ** The results of a query *)

(** A query is pending, has failed without data, or has data, perhaps with the error
    of a later fetch; one that is not enabled stays pending. *)
Inductive QueryResult (A : Type) :=
| QPending
| QFailed (error : Rejection)
| QData (data : A) (refetchError : option Rejection).
Arguments QPending {A}. Arguments QFailed {A}. Arguments QData {A}.

Definition q_data {A} (q : QueryResult A) : option A := match q with QData d _ => Some d | _ => None end.
Definition q_error {A} (q : QueryResult A) : option Rejection :=
  match q with QFailed e => Some e | QData _ e => e | QPending => None end.
Definition q_pending {A} (q : QueryResult A) : bool := match q with QPending => true | _ => false end.
Definition q_refetchError {A} (q : QueryResult A) : bool := match q with QData _ (Some _) => true | _ => false end.
Definition is_Some_b {A} (o : option A) : bool := match o with Some _ => true | None => false end.

(** The counts of a DashboardSummaryDto that tell whether its range has evidence. *)
Record DashboardTotals := mkTotals {
  events_totalCount : Z; alerts_totalCount : Z; incidents_openCount : Z; incidents_closedCount : Z; failures_totalCount : Z;
}.
Definition dashboardHasEvidenceInRange (d : DashboardTotals) : bool :=
  (0 <? events_totalCount d) || (0 <? alerts_totalCount d) || (0 <? incidents_openCount d)
  || (0 <? incidents_closedCount d) || (0 <? failures_totalCount d).

(** ** The page *)

Inductive PagePart :=
| InvalidFilterPart | UnavailableRangePart | SkeletonPart | ErrorPart (error : option Rejection)
| PartialWarningPart (summaryMissing : bool) | StaleWarningPart | ContentPart | CorrelationPart.

Section page.
Context {A : Type}.

Definition unavailableRange (time : TimeFilterState) (summary : QueryResult DashboardTotals) (topology : QueryResult A) : bool :=
  bool_decide (tf_preset time = Preset_CUSTOM) && tf_valid time &&
  (match q_error summary with Some e => isUnavailableTimeRangeError e | None => false end
   || match q_error topology with Some e => isUnavailableTimeRangeError e | None => false end
   || match q_data summary with Some d => negb (dashboardHasEvidenceInRange d) | None => false end).

Definition page_parts (time : TimeFilterState) (summary : QueryResult DashboardTotals) (topology : QueryResult A) : list PagePart :=
  let unavailable := unavailableRange time summary topology in
  let missing {B} (q : QueryResult B) := negb unavailable && is_Some_b (q_error q) && negb (is_Some_b (q_data q)) in
  let summaryUnavailable := missing summary in
  let topologyUnavailable := missing topology in
  let error := match q_error summary with Some e => Some e | None => q_error topology end in
  let some_data := is_Some_b (q_data summary) || is_Some_b (q_data topology) in
  (if negb (tf_valid time) && negb (bool_decide (tf_preset time = Preset_CUSTOM)) then [InvalidFilterPart] else [])
  ++ (if unavailable then [UnavailableRangePart] else [])
  ++ (if tf_valid time && negb unavailable && negb (is_Some_b (q_data summary)) && negb (is_Some_b (q_data topology))
         && (q_pending summary || q_pending topology) then [SkeletonPart] else [])
  ++ (if summaryUnavailable && topologyUnavailable then [ErrorPart error] else [])
  ++ (if xorb summaryUnavailable topologyUnavailable then [PartialWarningPart summaryUnavailable] else [])
  ++ (if negb unavailable && (q_refetchError summary || q_refetchError topology) && some_data then [StaleWarningPart] else [])
  ++ (if negb unavailable && some_data then [ContentPart] else [])
  ++ (if tf_valid time && negb unavailable then [CorrelationPart] else []).
End page.

(** ** The correlation search *)

(** [params.get("value")?.trim() ?? ""] *)
Definition correlationValue (params : URLSearchParams) : ustring :=
  match params_get params (u! "value") with Some v => trim v | None => [] end.

Inductive SearchAction := Refetch | SetParams (params : URLSearchParams).
Definition onSearch (params : URLSearchParams) (value : ustring) : SearchAction :=
  let nextValue := trim value in
  if truthy nextValue && bool_decide (nextValue = correlationValue params) then Refetch
  else SetParams (updateParams params [(u! "value", PText nextValue)] true).

(** ** Signals *)

(** The ten most frequent of the labelled signals; the sort is stable. *)
Definition signal_rows (domains remoteIps processes : list (ustring * Z)) : list (ustring * Z) :=
  let labelled (kind : ustring) := map (λ row : ustring * Z, (kind ++ row.1, row.2)) in
  take 10 (js_sort (cmp_rev (cmp_on snd Z.compare))
    (labelled (u! "Domain · ") domains ++ labelled (u! "IP · ") remoteIps ++ labelled (u! "Process · ") processes)).

(** ** The topology workspace *)

Record TopologyWorkspace := mkWorkspace {
  search : ustring; limit : Z; selection : option TopologySelection; expanded : bool; expandedDomains : list ustring;
}.
Definition workspace_mount : TopologyWorkspace := mkWorkspace [] 10 None false [].

Definition changeSearch (ws : TopologyWorkspace) (value : ustring) : TopologyWorkspace :=
  mkWorkspace value (limit ws) None (expanded ws) (expandedDomains ws).
Definition changeLimit (ws : TopologyWorkspace) (nextLimit : Z) : TopologyWorkspace :=
  mkWorkspace (search ws) nextLimit None ((10 <? nextLimit) || expanded ws) (expandedDomains ws).
Definition closeExpanded (ws : TopologyWorkspace) : TopologyWorkspace :=
  mkWorkspace (search ws) (if 10 <? limit ws then 10 else limit ws) None false (expandedDomains ws).
Definition openExpanded (ws : TopologyWorkspace) : TopologyWorkspace :=
  mkWorkspace (search ws) (limit ws) (selection ws) true (expandedDomains ws).
Definition setSelection (ws : TopologyWorkspace) (value : TopologySelection) : TopologyWorkspace :=
  mkWorkspace (search ws) (limit ws) (Some value) (expanded ws) (expandedDomains ws).
Definition toggle_in (domain : ustring) (current : list ustring) : list ustring :=
  if bool_decide (domain ∈ current) then js_filter (λ d, negb (bool_decide (d = domain))) current
  else set_add domain current.
Definition toggleDomain (ws : TopologyWorkspace) (domain : ustring) : TopologyWorkspace :=
  mkWorkspace (search ws) (limit ws) (selection ws) (expanded ws) (toggle_in domain (expandedDomains ws)).

(** The options of the limit. *)
Definition LIMITS : list Z := [10; 25; 50].

Inductive WorkspaceEvent :=
| Search_ (value : ustring) | Limit_ (value : Z) | Expand | Collapse | Select_ (value : TopologySelection) | Toggle_ (domain : ustring).
Definition topology_step (ws : TopologyWorkspace) (ev : WorkspaceEvent) : TopologyWorkspace :=
  match ev with
  | Search_ value => changeSearch ws value
  | Limit_ value => if bool_decide (value ∈ LIMITS) then changeLimit ws value else ws
  | Expand => openExpanded ws
  | Collapse => closeExpanded ws
  | Select_ value => setSelection ws value
  | Toggle_ domain => toggleDomain ws domain
  end.

Section topology.
Context `{DateHost} `{LocaleHost} (getDomain : ustring → option ustring).

Definition filtered (ws : TopologyWorkspace) (topology : EgressTopologyDto) : EgressTopologyDto :=
  filterTopology topology (search ws) (limit ws).
Definition domainView (ws : TopologyWorkspace) (topology : EgressTopologyDto) : TopologyDomainView :=
  buildTopologyDomainView getDomain (filtered ws topology) (expandedDomains ws).

(** Whether the evidence table marks a row; [None] when an identifier cannot be encoded. *)
Definition row_selected (domainGroups : list TopologyDomainGroup) (graphTopology : EgressTopologyDto)
  (sel : option TopologySelection) (edge : TopologyEdgeDto) : option bool :=
  selectedGraphGroup ← selectedTopologyEdgeGroup graphTopology sel;
  let selectedDomainGroup :=
    group ← selectedGraphGroup; js_find (λ g, bool_decide (dg_domain g = g_target group)) domainGroups in
  let id := topologyEdgeId (te_endpointId edge) (te_target edge) (te_protocol edge) in
  by_id ← match sel with
          | Some (TEdge e) => Some (bool_decide (e = id))
          | Some (TEdgeGroup g) =>
            own ← topologyEdgeGroupId (te_endpointId edge) (te_target edge); Some (bool_decide (g = own))
          | _ => Some false
          end;
  Some (by_id ||
    match selectedGraphGroup with
    | Some group =>
      bool_decide (te_endpointId edge = g_endpointId group) &&
      match selectedDomainGroup with
      | Some dg => bool_decide (te_target edge ∈ dg_targets dg)
      | None => bool_decide (te_target edge = g_target group)
      end
    | None => false
    end).
End topology.

(** [new URLSearchParams({...})], [set] and the path of a list. *)
Definition evidence_params (endpointId : Z) (topology : EgressTopologyDto) : URLSearchParams :=
  params_set (u! "endpointId") (string_of_Z endpointId)
    (params_of_record [(u! "timePreset", u! "CUSTOM"); (u! "from", topo_from topology); (u! "to", topo_to topology)]).
Definition evidenceListUrl (route : ustring) (endpointId : Z) (topology : EgressTopologyDto) : ustring :=
  u! "/" ++ route ++ u! "?" ++ params_string (evidence_params endpointId topology).

(** ** Claims: the page *)

Definition is_error (p : PagePart) : bool := match p with ErrorPart _ => true | _ => false end.
Definition is_partial (p : PagePart) : bool := match p with PartialWarningPart _ => true | _ => false end.
Definition is_content (p : PagePart) : bool := match p with ContentPart => true | _ => false end.
Definition is_skeleton (p : PagePart) : bool := match p with SkeletonPart => true | _ => false end.
Definition failed {A} (q : QueryResult A) : bool := match q with QFailed _ => true | _ => false end.

(** the intelligence page explains every outcome of its queries. For a valid time
    range: a range without evidence shows only that it is unavailable; otherwise the
    content is there exactly when some data is, the error exactly when both queries
    failed, the warning of a partial failure exactly when one did, and the skeleton
    exactly when there is no data and a query still runs, so one of content, error
    and skeleton is always there. *)
Theorem intelligence_feedback {A} time (summary : QueryResult DashboardTotals) (topology : QueryResult A) :
  tf_valid time = true →
  let parts := page_parts time summary topology in
  if unavailableRange time summary topology then parts = [UnavailableRangePart]
  else
    js_some is_content parts = is_Some_b (q_data summary) || is_Some_b (q_data topology) ∧
    js_some is_error parts = failed summary && failed topology ∧
    js_some is_partial parts = xorb (failed summary) (failed topology) ∧
    js_some is_skeleton parts =
      negb (is_Some_b (q_data summary) || is_Some_b (q_data topology)) && (q_pending summary || q_pending topology) ∧
    js_some is_content parts || js_some is_error parts || js_some is_skeleton parts = true.
Proof.
  intros Hv parts. subst parts. unfold page_parts. rewrite Hv. cbn [negb andb].
  destruct (unavailableRange time summary topology) eqn:E; cbn [negb andb].
  - by destruct summary as [|e|d [e|]], topology as [|e'|d' [e'|]].
  - by destruct summary as [|e|d [e|]], topology as [|e'|d' [e'|]].
Qed.

Lemma intelligence_feedback_witness :
  let time := @readTimeFilter utc_host [] in
  let summary := QData (mkTotals 3 0 0 0 0) None in
  tf_valid time = true ∧ unavailableRange time summary (@QPending unit) = false ∧
  js_some is_content (page_parts time summary (@QPending unit)) = true.
Proof.
  cbv zeta. split; [vm_compute; reflexivity|]. split; [vm_compute; reflexivity|].
  pose proof (intelligence_feedback (@readTimeFilter utc_host []) (QData (mkTotals 3 0 0 0 0) None) (@QPending unit)
    ltac:(vm_compute; reflexivity)) as H. cbv zeta in H.
  change (unavailableRange (@readTimeFilter utc_host []) (QData (mkTotals 3 0 0 0 0) None) (@QPending unit)) with false in H.
  exact (proj1 H).
Defined.

(** ** Claims: the topology workspace *)

Record workspace_ok (ws : TopologyWorkspace) : Prop := {
  limit_known : limit ws ∈ LIMITS;
  large_is_expanded : 10 < limit ws → expanded ws = true;
  domains_distinct : NoDup (expandedDomains ws);
}.

Lemma toggle_NoDup domain l : NoDup l → NoDup (toggle_in domain l).
Proof.
  intros Hl. unfold toggle_in. case_match; [|by apply set_add_NoDup].
  eapply sublist_NoDup; [exact Hl|]. apply js_filter_sublist.
Qed.

Lemma toggle_elem domain l d : d ∈ toggle_in domain l ↔ if decide (d = domain) then domain ∉ l else d ∈ l.
Proof.
  unfold toggle_in. case_bool_decide as Hd.
  - rewrite js_filter_elem, negb_true_iff, bool_decide_eq_false. case_decide; naive_solver.
  - rewrite set_add_elem. case_decide; naive_solver.
Qed.

Lemma topology_step_ok ws ev : workspace_ok ws → workspace_ok (topology_step ws ev).
Proof.
  intros [Hl He Hd]. destruct ev as [value|value| | |value|domain]; cbn [topology_step].
  - by split.
  - case_bool_decide as Hv; [|by split]. split; cbn [changeLimit limit expanded expandedDomains]; [done| |done].
    intros Hgt. by rewrite (proj2 (Z.ltb_lt _ _) Hgt).
  - split; [done|done|done].
  - split; cbn [closeExpanded limit expanded expandedDomains]; [|destruct (10 <? limit ws) eqn:E; breflect; intros; lia|done].
    case_match; [by left|done].
  - by split.
  - split; [done|done|]. by apply toggle_NoDup.
Qed.

(** the topology workspace, after any actions: the limit is one of those offered,
    more than ten edges are only shown in the expanded view and closing it returns to
    ten; a new search or limit drops the selection; opening and closing a domain
    twice changes nothing and leaves the other domains alone. *)
Theorem topology_workspace_invariant events :
  let ws := foldl topology_step workspace_mount events in
  limit ws ∈ LIMITS ∧ (10 < limit ws → expanded ws = true) ∧
  (∀ value, selection (topology_step ws (Search_ value)) = None) ∧
  (∀ value, value ∈ LIMITS → selection (topology_step ws (Limit_ value)) = None ∧ limit (topology_step ws (Limit_ value)) = value) ∧
  (limit (topology_step ws Collapse) = 10 ∧ expanded (topology_step ws Collapse) = false ∧ selection (topology_step ws Collapse) = None) ∧
  (∀ domain d, d ∈ expandedDomains (topology_step (topology_step ws (Toggle_ domain)) (Toggle_ domain)) ↔ d ∈ expandedDomains ws) ∧
  (∀ domain d, d ≠ domain → d ∈ expandedDomains (topology_step ws (Toggle_ domain)) ↔ d ∈ expandedDomains ws).
Proof.
  intros ws. assert (workspace_ok ws) as [Hl He Hd].
  { subst ws. assert (workspace_ok workspace_mount) as H0 by (split; [by left|cbn; lia|constructor]).
    revert H0. generalize workspace_mount. induction events as [|ev events IH]; intros ws Hws; [done|]. cbn [foldl]. by apply IH, topology_step_ok. }
  split_and!; try done.
  - intros value Hv. cbn [topology_step]. by rewrite bool_decide_eq_true_2.
  - cbn [topology_step closeExpanded limit]. destruct (10 <? limit ws) eqn:E; [done|]. breflect.
    unfold LIMITS in Hl. rewrite !elem_of_cons, elem_of_nil in Hl. lia.
  - intros domain d. cbn [topology_step toggleDomain expandedDomains]. rewrite toggle_elem. case_decide as Heq.
    + subst d. rewrite toggle_elem, decide_True by done. destruct (decide (domain ∈ expandedDomains ws)); naive_solver.
    + by rewrite toggle_elem, decide_False.
  - intros domain d Hne. cbn [topology_step toggleDomain expandedDomains]. by rewrite toggle_elem, decide_False.
Qed.

(** ** Claims: marked rows *)

Section marked.
Context `{DateHost} `{LocaleHost} (getDomain : ustring → option ustring).
#[local] Abbreviation domain_of := (domain_of getDomain).
#[local] Abbreviation targets_of := (targets_of getDomain).

(** Where the view draws a target: at its domain when that has several targets and is
    not expanded. *)
Definition drawn_at (edges : list TopologyEdgeDto) (expanded : list ustring) (target : ustring) : ustring :=
  view_target (group_by_target (domain_groups getDomain edges)) expanded target.

Lemma domain_truthy t d : domain_of t = Some d → truthy d = true.
Proof. unfold Topology.domain_of. destruct (registrableDomainForTarget _ _); [|done]. case_match; congruence. Qed.

Lemma drawn_at_spec edges expanded t : t ∈ te_target <$> edges →
  drawn_at edges expanded t =
  match domain_of t with
  | Some d => if bool_decide (1 < length (targets_of edges d))%nat && negb (bool_decide (d ∈ expanded)) then d else t
  | None => t
  end.
Proof.
  intros Ht. unfold drawn_at, view_target. rewrite group_by_target_spec by done.
  destruct (domain_of t) as [d|] eqn:Hd; [|done]. cbn. case_bool_decide; [|done]. by rewrite (domain_truthy _ _ Hd).
Qed.

(** The edges of the view have the endpoint of an edge and where its target is drawn. *)
Lemma view_edge_origin byTarget expanded edges e :
  e ∈ (foldl (view_step byTarget expanded) [] edges).*2 →
  ∃ o, o ∈ edges ∧ te_endpointId e = te_endpointId o ∧ te_target e = view_target byTarget expanded (te_target o).
Proof.
  revert e. induction edges as [|o edges IH] using rev_ind; intros e; [no_elem|]. rewrite foldl_snoc. unfold view_step.
  set (m := foldl _ [] edges) in *. set (id := topologyEdgeId _ _ _).
  assert (∀ v, te_endpointId v = te_endpointId e ∧ te_target v = te_target e → v ∈ m.*2 ∨ v = with_target (view_target byTarget expanded (te_target o)) o →
    ∃ o', o' ∈ edges ++ [o] ∧ te_endpointId e = te_endpointId o' ∧ te_target e = view_target byTarget expanded (te_target o')) as Hfrom.
  { intros v [<- <-] [Hv| ->].
    - destruct (IH v Hv) as (o' & Ho & ? & ?). exists o'. split; [apply elem_of_app; by left|done].
    - exists o. split; [apply elem_of_app; right; by apply list_elem_of_here|done]. }
  intros Hin. apply list_elem_of_fmap in Hin as (kv & -> & Hin).
  destruct (map_get id m) as [current|] eqn:Hg; apply map_set_elem in Hin as [->|Hin]; cbn [snd] in *.
  - apply (Hfrom current); [done|]. left. apply map_get_Some_elem in Hg. by apply (list_elem_of_fmap_2 snd) in Hg.
  - apply (Hfrom kv.2); [done|]. left. by apply list_elem_of_fmap_2.
  - apply (Hfrom (with_target (view_target byTarget expanded (te_target o)) o)); [done|by right].
  - apply (Hfrom kv.2); [done|]. left. by apply list_elem_of_fmap_2.
Qed.

Lemma selected_group topology id group :
  Forall (λ e, well_formed (te_target e)) (topo_edges topology) →
  selectedTopologyEdgeGroup topology (Some (TEdgeGroup id)) = Some (Some group) →
  topologyEdgeGroupId (g_endpointId group) (g_target group) = Some id ∧
  ∃ e, e ∈ topo_edges topology ∧ te_endpointId e = g_endpointId group ∧ te_target e = g_target group.
Proof.
  intros Hwf. cbn [selectedTopologyEdgeGroup]. unfold groupTopologyEdges.
  destruct (group_loop _ Hwf) as (groups & -> & [_ _ Hok Hperm]). cbn [mbind option_bind]. intros [= Hf].
  apply js_find_Some in Hf as [Hin Hid]. apply bool_decide_eq_true in Hid.
  apply list_elem_of_In, in_map_iff in Hin as (g & <- & Hg%list_elem_of_In).
  apply list_elem_of_fmap in Hg as (kv & -> & Hkv). rewrite Forall_forall in Hok. specialize (Hok kv Hkv).
  destruct (sort_protocols_ok _ Hok) as [Hgid Hedges _ _ _ Hseen]. split; [by rewrite Hgid, Hid|].
  destruct Hseen as [Hin _]. apply list_elem_of_fmap in Hin as (e & _ & He). exists e. rewrite Forall_forall in Hedges. split.
  - rewrite <- Hperm. unfold edges_of. apply elem_of_flat_map. by exists kv.
  - by apply Hedges.
Qed.

Context (normal : ∀ t d, domain_of t = Some d → domain_of d = Some d ∧ well_formed d).
Context (topology : EgressTopologyDto) (expanded : list ustring).
#[local] Abbreviation edges := (topo_edges topology).
Context (wf : Forall (λ e, well_formed (te_target e)) edges).
#[local] Abbreviation view := (buildTopologyDomainView getDomain topology expanded).

Lemma drawn_wf t : t ∈ te_target <$> edges → well_formed (drawn_at edges expanded t).
Proof.
  intros Ht. rewrite drawn_at_spec by done. assert (well_formed t) as Hw.
  { apply list_elem_of_fmap in Ht as (e & -> & He). rewrite Forall_forall in wf. by apply wf. }
  destruct (domain_of t) as [d|] eqn:Hd; [|done]. case_match; [|done]. by apply (normal t).
Qed.

Lemma view_edges_origin e : e ∈ topo_edges (dv_topology view) →
  ∃ o, o ∈ edges ∧ te_endpointId e = te_endpointId o ∧ te_target e = drawn_at edges expanded (te_target o).
Proof. unfold buildTopologyDomainView. cbn [dv_topology topo_edges]. rewrite js_sort_elem. apply view_edge_origin. Qed.

Lemma view_edges_wf : Forall (λ e, well_formed (te_target e)) (topo_edges (dv_topology view)).
Proof.
  apply Forall_forall. intros e (o & Ho & _ & ->)%view_edges_origin. apply drawn_wf. by apply list_elem_of_fmap_2.
Qed.

(** The group of a domain that gathers targets. *)
Lemma domain_group_found T : ∀ g, js_find (λ g, bool_decide (dg_domain g = T)) (dv_groups view) = Some g →
  (1 < length (targets_of edges T))%nat ∧ (∀ t, t ∈ dg_targets g ↔ t ∈ te_target <$> edges ∧ domain_of t = Some T).
Proof.
  intros g [Hin Hd]%js_find_Some. apply bool_decide_eq_true in Hd. unfold buildTopologyDomainView in Hin. cbn [dv_groups] in Hin.
  apply domain_groups_elem in Hin as [Hts Hlen]. rewrite Hd in *. split; [done|]. intros t. rewrite Hts, js_sort_elem. apply targets_of_elem.
Qed.

Lemma domain_group_missing T : js_find (λ g, bool_decide (dg_domain g = T)) (dv_groups view) = None →
  ¬ (1 < length (targets_of edges T))%nat.
Proof.
  rewrite js_find_None. intros Hno Hlen.
  assert (mkDomainGroup T (js_sort cmp_units (targets_of edges T)) ∈ dv_groups view) as Hin
    by (unfold buildTopologyDomainView; cbn [dv_groups]; by apply domain_groups_elem).
  specialize (Hno _ Hin). cbn [dg_domain] in Hno. by rewrite bool_decide_eq_true_2 in Hno.
Qed.

(** A target is drawn at a shown place exactly when the table takes it for one of it. *)
Lemma drawn_iff T t o :
  T ∉ expanded → o ∈ te_target <$> edges → T = drawn_at edges expanded o → t ∈ te_target <$> edges →
  drawn_at edges expanded t = T ↔
  t = T ∨ match js_find (λ g, bool_decide (dg_domain g = T)) (dv_groups view) with
          | Some g => t ∈ dg_targets g
          | None => t = T
          end.
Proof.
  intros HT Ho HTo Ht.
  assert (T ∈ te_target <$> edges → drawn_at edges expanded T = T) as Hself.
  { intros HTin. rewrite drawn_at_spec in HTo by done. destruct (domain_of o) as [d|] eqn:Hd; [|subst T; by rewrite drawn_at_spec, Hd].
    case_match eqn:Hc; [|subst T; by rewrite drawn_at_spec, Hd, Hc]. subst d. rewrite drawn_at_spec by done.
    rewrite (proj1 (normal _ _ Hd)). by rewrite Hc. }
  split.
  - intros Hdrawn. rewrite drawn_at_spec in Hdrawn by done. destruct (domain_of t) as [d|] eqn:Hd; [|by left].
    case_match eqn:Hc; [|by left]. breflect. subst d. right.
    destruct (js_find _ _) as [g|] eqn:Eg; [|by apply domain_group_missing in Eg]. by apply domain_group_found in Eg as [_ ->].
  - intros [->|Hg]; [by apply Hself|]. destruct (js_find _ _) as [g|] eqn:Eg; [|subst; by apply Hself].
    apply domain_group_found in Eg as [Hlen Hts]. apply Hts in Hg as [_ Hd]. rewrite drawn_at_spec, Hd by done.
    by rewrite bool_decide_eq_true_2, bool_decide_eq_false_2.
Qed.
End marked.

(** A lookup that knows one domain, and a domain that is a target beside another. *)
Definition sample_getDomain (t : ustring) : option ustring :=
  if includes t (u! "example.com") then Some (u! "example.com") else None.
Definition sample_link (target : ustring) : TopologyEdgeDto :=
  mkTopologyEdgeDto 0 1 5 (u! "2026-07-15T03:00:00Z") (u! "TLS") (u! "host-1") target.
Definition sample_subdomains : EgressTopologyDto :=
  mkEgressTopologyDto [sample_link (u! "example.com"); sample_link (u! "api.example.com")] (u! "2026-07-15T00:00:00Z") []
    (u! "2026-07-16T00:00:00Z").

(** Selecting an edge of the topology graph marks the rows of its endpoint whose target
    the graph draws there. *)
Lemma topology_rows_marked `{DateHost} `{LocaleHost} getDomain topology expanded id group edge :
  (∀ t d, Topology.domain_of getDomain t = Some d → Topology.domain_of getDomain d = Some d ∧ well_formed d) →
  Forall (λ e, well_formed (te_target e)) (topo_edges topology) →
  let view := buildTopologyDomainView getDomain topology expanded in
  selectedTopologyEdgeGroup (dv_topology view) (Some (TEdgeGroup id)) = Some (Some group) →
  g_target group ∉ expanded → edge ∈ topo_edges topology →
  ∃ marked, row_selected (dv_groups view) (dv_topology view) (Some (TEdgeGroup id)) edge = Some marked ∧
    (marked = true ↔ te_endpointId edge = g_endpointId group ∧
       drawn_at getDomain (topo_edges topology) expanded (te_target edge) = g_target group).
Proof.
  intros Hnormal Hwf view Hsel Hexp Hedge.
  destruct (selected_group _ _ _ (view_edges_wf getDomain Hnormal topology expanded Hwf) Hsel) as (Hid & e & He & He1 & He2).
  destruct (view_edges_origin getDomain topology expanded e He) as (o & Ho & Ho1 & Ho2).
  assert (te_target edge ∈ te_target <$> topo_edges topology) as Ht by by apply list_elem_of_fmap_2.
  assert (te_target o ∈ te_target <$> topo_edges topology) as Hot by by apply list_elem_of_fmap_2.
  assert (g_target group = drawn_at getDomain (topo_edges topology) expanded (te_target o)) as HT by congruence.
  pose proof (drawn_iff getDomain Hnormal topology expanded _ _ _ Hexp Hot HT Ht) as Hiff.
  assert (well_formed (te_target edge)) as Hwe by (rewrite Forall_forall in Hwf; by apply Hwf).
  assert (well_formed (g_target group)) as Hwg by (rewrite HT; by apply drawn_wf).
  unfold row_selected. rewrite Hsel. cbn [mbind option_bind].
  destruct (topologyEdgeGroupId (te_endpointId edge) (te_target edge)) as [own|] eqn:Eown.
  2:{ unfold topologyEdgeGroupId, encodeURIComponent in Eown. rewrite decide_True in Eown by by apply usv_well_formed. done. }
  cbn [mbind option_bind]. eexists. split; [done|]. rewrite Hiff, orb_true_iff, andb_true_iff, !bool_decide_eq_true.
  assert (id = own ↔ te_endpointId edge = g_endpointId group ∧ te_target edge = g_target group) as ->.
  { split; [intros ->|intros [E1 E2]; congruence].
    by apply (topologyEdgeGroupId_inj _ _ _ _ own); [apply well_formed_units..| |]. }
  fold view. destruct (js_find _ (dv_groups view)) as [g|]; rewrite bool_decide_eq_true; tauto.
Qed.

(** ** Claims: links and search *)

Lemma evidence_params_list endpointId topology :
  well_formed (topo_from topology) → well_formed (topo_to topology) →
  evidence_params endpointId topology =
    [(u! "timePreset", u! "CUSTOM"); (u! "from", topo_from topology); (u! "to", topo_to topology);
     (u! "endpointId", string_of_Z endpointId)].
Proof.
  intros Hf Ht. unfold evidence_params, params_of_record. cbn [map fst snd].
  rewrite (usv_well_formed (topo_from topology)), (usv_well_formed (topo_to topology)) by done. unfold params_set. rewrite (usv_lit_units (string_of_Z endpointId)) by apply string_of_Z_ascii.
  reflexivity.
Qed.

Lemma evidence_params_read endpointId topology :
  well_formed (topo_from topology) → well_formed (topo_to topology) →
  params_of_string (params_string (evidence_params endpointId topology)) =
    [(u! "timePreset", u! "CUSTOM"); (u! "from", topo_from topology); (u! "to", topo_to topology);
     (u! "endpointId", string_of_Z endpointId)].
Proof.
  intros Hf Ht. rewrite <- evidence_params_list by done. apply params_of_string_string.
  rewrite evidence_params_list by done. pose proof (well_formed_ascii _ (string_of_Z_ascii endpointId)).
  assert (∀ s, bool_decide (Forall (λ c, 0 ≤ c < 128) s) = true → well_formed s) as Ha
    by (intros s Hs; apply well_formed_ascii; by apply bool_decide_eq_true in Hs).
  do 4 (apply Forall_cons; split; [split; [apply Ha; by vm_compute|try done; apply Ha; by vm_compute]|]). apply Forall_nil; exact I.
Qed.

(** The keys the lists read, but for the time range and the endpoint. *)
Definition list_keys : list ustring :=
  [u! "eventType"; u! "sortOrder"; u! "page"; u! "size"; u! "status"; u! "severity"; u! "sortBy"; u! "ruleCode"] ++ DETAIL_FILTERS.

(** A query with only a time range and an endpoint. *)
Lemma plain_list_query `{DateHost} params endpointId :
  (∀ key, key ∈ list_keys → params_get params key = None) → tf_valid (readTimeFilter params) = true →
  params_get params (u! "endpointId") = Some (string_of_Z endpointId) → 0 < endpointId ≤ 2 ^ 53 →
  let time := tf_query (readTimeFilter params) in
  events_invalid params = false ∧ events_query params = mkEventListQuery time 1 50 Order_desc None (Some endpointId) [] ∧
  alerts_invalid params = false ∧
  alerts_query params = mkAlertListQuery time 1 50 AlertSort_priority Order_desc None None (Some endpointId) None.
Proof.
  intros Hno Hv G4 Hid time.
  assert (positiveInteger (Some (string_of_Z endpointId)) = Some endpointId) as Hp
    by (unfold positiveInteger; cbn [number_of_opt]; rewrite number_of_string_of_Z by done; apply positive_int_Z; lia).
  assert (hasInvalidPositiveInteger params (u! "endpointId") = false) as Hi.
  { unfold hasInvalidPositiveInteger. rewrite G4, number_of_string_of_Z, to_integer_Z by done. apply Z.leb_gt. lia. }
  assert (∀ {A} `{Literal A} (allowed : list A) key, key ∈ list_keys →
    enum_invalid params key allowed = false ∧ enum_param params key allowed = None) as He.
  { intros A ? allowed key Hk%Hno. unfold enum_invalid, enum_param, hasInvalidEnum, allowedValue. by rewrite Hk. }
  assert (∀ key, key ∈ list_keys → text_param params key = None) as Ht
    by (intros key Hk%Hno; unfold text_param, stringParam; by rewrite Hk).
  assert (u! "page" ∈ list_keys ∧ u! "size" ∈ list_keys ∧ u! "sortOrder" ∈ list_keys ∧ u! "sortBy" ∈ list_keys ∧
    u! "eventType" ∈ list_keys ∧ u! "status" ∈ list_keys ∧ u! "severity" ∈ list_keys ∧ u! "ruleCode" ∈ list_keys)
    as (K1 & K2 & K3 & K4 & K5 & K6 & K7 & K8) by (by_compute).
  assert (hasInvalidPagination params = false) as Hpag
    by (unfold hasInvalidPagination, hasInvalidPositiveInteger; by rewrite (Hno _ K1), (Hno _ K2)).
  assert (page_of params = 1 ∧ size_of params = 50 ∧ order_of params = Order_desc) as (P1 & P2 & P3).
  { unfold page_of, size_of, numberParam, order_of. by rewrite (Hno _ K1), (Hno _ K2), (proj2 (He _ _ _ _ K3)). }
  assert (omap (λ field, pair field <$> text_param params field) DETAIL_FILTERS = []) as Ho.
  { assert (∀ l, (∀ f, f ∈ l → f ∈ list_keys) → omap (λ field, pair field <$> text_param params field) l = []) as Hl.
    { induction l as [|f l IH]; intros Hin; [done|]. cbn [omap list_omap]. rewrite (Ht f) by (apply Hin; by left).
      apply IH. intros g Hg. apply Hin. by right. }
    apply Hl. intros f Hf. unfold list_keys. apply elem_of_app. by right. }
  unfold events_invalid, events_query, alerts_invalid, alerts_query, alerts_sortBy.
  rewrite Hv, Hi, Hpag, P1, P2, P3, G4, Hp, Ho, (Ht _ K8), !(proj1 (He _ _ _ _ K3)), !(proj1 (He _ _ _ _ K4)), !(proj1 (He _ _ _ _ K5)),
    !(proj1 (He _ _ _ _ K6)), !(proj1 (He _ _ _ _ K7)), !(proj2 (He _ _ _ _ K4)), !(proj2 (He _ _ _ _ K5)),
    !(proj2 (He _ _ _ _ K6)), !(proj2 (He _ _ _ _ K7)). done.
Qed.

(** the links from the topology to the lists open what they name: the event list
    and the alert list accept the query, and ask for the endpoint's records of the
    topology's own time range, from the first page and with no other filter. *)
Theorem evidence_list_opens `{DateHost} topology endpointId :
  well_formed (topo_from topology) → well_formed (topo_to topology) →
  truthy (topo_from topology) = true → truthy (topo_to topology) = true →
  time_lt (topo_from topology) (topo_to topology) = true → 0 < endpointId ≤ 2 ^ 53 →
  ∃ search, (∀ route, evidenceListUrl route endpointId topology = u! "/" ++ route ++ u! "?" ++ search) ∧
    let params := params_of_string search in
    let time := mkTimeQuery Preset_CUSTOM (Some (topo_from topology)) (Some (topo_to topology)) in
    events_invalid params = false ∧
    events_query params = mkEventListQuery time 1 50 Order_desc None (Some endpointId) [] ∧
    alerts_invalid params = false ∧
    alerts_query params = mkAlertListQuery time 1 50 AlertSort_priority Order_desc None None (Some endpointId) None.
Proof.
  intros Hf Ht Hf' Ht' Hlt Hid. exists (params_string (evidence_params endpointId topology)). split; [done|]. cbv zeta.
  rewrite evidence_params_read by done. set (params := [_; _; _; _]).
  assert (params_get params (u! "from") = Some (topo_from topology)) as G2 by reflexivity.
  assert (params_get params (u! "to") = Some (topo_to topology)) as G3 by reflexivity.
  destruct (readTimeFilter_of params Preset_CUSTOM eq_refl) as (_ & Hvalid & Hquery).
  rewrite G2, G3 in Hquery. cbn [truthy_opt] in Hquery. rewrite Hf', Ht' in Hquery.
  assert (tf_valid (readTimeFilter params) = true) as Hv.
  { rewrite Hvalid. unfold custom_range. rewrite G2, G3, Hf', Ht'. cbn [andb]. unfold time_lt in Hlt.
    destruct (Date_parse (topo_from topology)) as [f|]; [|done]. destruct (Date_parse (topo_to topology)) as [t'|]; [|done].
    breflect. destruct (t' <=? f) eqn:E; breflect; [lia|done]. }
  change (mkTimeQuery Preset_CUSTOM (Some (topo_from topology)) (Some (topo_to topology))) with
    (if bool_decide (Preset_CUSTOM = Preset_CUSTOM) && true && true
     then mkTimeQuery Preset_CUSTOM (Some (topo_from topology)) (Some (topo_to topology)) else mkTimeQuery Preset_CUSTOM None None).
  rewrite <- Hquery. apply plain_list_query; [|done|reflexivity|done].
  intros key Hk. unfold list_keys in Hk. repeat (apply elem_of_cons in Hk as [->|Hk]; [reflexivity|]). by apply elem_of_nil in Hk.
Qed.

Lemma evidence_list_opens_witness :
  ∃ search, evidenceListUrl (u! "events") 1 sample_subdomains = u! "/events?" ++ search ∧
    @events_invalid utc_host (params_of_string search) = false.
Proof.
  destruct (@evidence_list_opens utc_host sample_subdomains 1) as (search & Hurl & Hinv & _).
  - apply well_formed_ascii. by_compute.
  - apply well_formed_ascii. by_compute.
  - vm_compute. reflexivity.
  - vm_compute. reflexivity.
  - vm_compute. reflexivity.
  - lia.
  - exists search. split; [exact (Hurl (u! "events"))|exact Hinv].
Defined.

(** The correlation search: asking for the value shown fetches it again; any other
    value becomes the page's, trimmed, from the first page, and keeps the other
    filters. *)
Lemma onSearch_spec params value : well_formed (trim value) →
  match onSearch params value with
  | Refetch => trim value ≠ [] ∧ trim value = correlationValue params
  | SetParams next =>
    correlationValue next = trim value ∧ params_get next (u! "page") = None ∧
    (∀ key, usv key ≠ u! "page" → usv key ≠ u! "value" → params_get next key = params_get params key)
  end.
Proof.
  intros Hw. unfold onSearch. destruct (truthy (trim value) && bool_decide (trim value = correlationValue params)) eqn:E.
  - breflect. split; [by apply truthy_true|done].
  - split_and!.
    + unfold correlationValue. rewrite params_get_update by (vm_compute; discriminate). cbn [reverse rev_append js_find].
      rewrite bool_decide_true by done. cbn [snd param_text]. destruct (trim value) as [|c r] eqn:Et; [done|]. cbn [truthy fmap option_fmap option_map].
      rewrite usv_well_formed by done. rewrite <- Et. apply trim_idemp.
    + apply params_get_delete_eq.
    + intros key Hk Hv. rewrite params_get_update by done. cbn [reverse rev_append js_find fst].
      rewrite bool_decide_false; [done|]. intros Heq. apply Hv. rewrite <- Heq. by vm_compute.
Qed.
