(* ===== verification/Overview.v ===== *)
(** * The overview page

    Models frontend/src/pages/OverviewPage.tsx and
    frontend/src/features/overview/OverviewDashboard.tsx: which notices, errors and
    widgets the page shows for the results of its four queries, what every widget
    shows, the figures and links of the key indicators, and the manual refresh as a
    machine of requests and answers. *)

From S2P Require Import Prelude JsNumber JsDate Url Contracts ApiClient UrlState Topology OverviewModel ListPages Intelligence.

#[local] Open Scope list_scope.
#[local] Open Scope Z_scope.

(** ** The data of the page *)

(** The fields of a DashboardSummaryDto and an EndpointSummaryDto the page reads. *)
Record DashboardData := mkDashboardData { dash_totals : DashboardTotals; dash_bySeverity : list (Severity * Z) }.
Record EndpointSummary := mkEndpointSummary { sum_onlineCount : Z; sum_totalCount : Z; sum_highRiskEndpointCount : Z }.

(** The two queues only show their items, so their types are left open. *)
Record OverviewQueries (E I : Type) := mkOverviewQueries {
  dashboard : QueryResult DashboardData;
  endpoints : QueryResult EndpointSummary;
  endpointRanking : QueryResult (list E);
  incidentQueue : QueryResult (list I);
}.
Arguments mkOverviewQueries {E I}. Arguments dashboard {E I}. Arguments endpoints {E I}.
Arguments endpointRanking {E I}. Arguments incidentQueue {E I}.

Definition readOverviewEndpointId (params : URLSearchParams) : option Z :=
  positive_int (number_of_opt (params_get params (u! "endpointId"))).

(** ** What the page shows *)

Definition erase {A} (q : QueryResult A) : QueryResult unit :=
  match q with QPending => QPending | QFailed e => QFailed e | QData _ e => QData tt e end.

Definition unavailable_error (e : option Rejection) : bool :=
  match e with Some e => isUnavailableTimeRangeError e | None => false end.
Definition rollup_error (e : option Rejection) : bool :=
  match e with Some e => isRollupNotReadyError e | None => false end.

(** A page error names its error and whether its retry is the manual refresh. *)
Inductive OverviewPart :=
| PInvalidFilter | PPartialFailure | PStale (error : Rejection) (manual : bool)
| PError (error : Rejection) (manual : bool) | PUnavailableRange | PWorkspace.

Section page.
Context {E I : Type}.

Definition allQueries (q : OverviewQueries E I) : list (QueryResult unit) :=
  [erase (dashboard q); erase (endpoints q); erase (endpointRanking q); erase (incidentQueue q)].

Definition hasPanelData (q : OverviewQueries E I) : bool := js_some (λ r, is_Some_b (q_data r)) (allQueries q).
Definition rollupNotReady (q : OverviewQueries E I) : bool := rollup_error (q_error (dashboard q)).

Definition overview_unavailableRange (time : TimeFilterState) (q : OverviewQueries E I) : bool :=
  bool_decide (tf_preset time = Preset_CUSTOM) && tf_valid time &&
  (js_some (λ r, unavailable_error (q_error r)) (allQueries q)
   || match q_data (dashboard q) with Some d => negb (dashboardHasEvidenceInRange (dash_totals d)) | None => false end).

(** [query.error && !query.data && !isUnavailableTimeRangeError(query.error)] *)
Definition lost (r : QueryResult unit) : bool :=
  is_Some_b (q_error r) && negb (is_Some_b (q_data r)) && negb (unavailable_error (q_error r)).

Definition totalFailure (q : OverviewQueries E I) : bool := forallb lost (allQueries q).
Definition initialError (q : OverviewQueries E I) : option Rejection :=
  if totalFailure q then
    match js_find is_Some_b (map q_error (allQueries q)) with Some e => e | None => None end
  else None.

Definition partialFailure (time : TimeFilterState) (q : OverviewQueries E I) : bool :=
  negb (overview_unavailableRange time q) && hasPanelData q
  && js_some (λ r, lost r && negb (rollup_error (q_error r))) (allQueries q).

Definition staleQueryError (q : OverviewQueries E I) : option Rejection :=
  match js_find (λ r, q_refetchError r && negb (unavailable_error (q_error r))) [erase (dashboard q); erase (endpoints q)] with
  | Some r => q_error r
  | None => None
  end.
Definition staleError (live : option Rejection) (q : OverviewQueries E I) : option Rejection :=
  match live with Some e => Some e | None => staleQueryError q end.

(** The warning of stale data and the error of the page, with whether their retry is
    the manual refresh. *)
Definition page_stale (live : option Rejection) (q : OverviewQueries E I) : option (Rejection * bool) :=
  e ← staleError live q; if hasPanelData q then Some (e, is_Some_b live || rollupNotReady q) else None.
Definition page_error (time : TimeFilterState) (q : OverviewQueries E I) : option (Rejection * bool) :=
  if rollupNotReady q && negb (is_Some_b (q_data (dashboard q))) then e ← q_error (dashboard q); Some (e, true)
  else e ← initialError q; if negb (overview_unavailableRange time q) then Some (e, false) else None.

Definition overview_parts (time : TimeFilterState) (live : option Rejection) (q : OverviewQueries E I) : list OverviewPart :=
  let unavailable := overview_unavailableRange time q in
  (if negb (tf_valid time) && negb (bool_decide (tf_preset time = Preset_CUSTOM)) then [PInvalidFilter] else [])
  ++ (if partialFailure time q then [PPartialFailure] else [])
  ++ (match page_stale live q with Some (e, manual) => [PStale e manual] | None => [] end)
  ++ (match page_error time q with Some (e, manual) => [PError e manual] | None => [] end)
  ++ (if unavailable then [PUnavailableRange] else [])
  ++ (if tf_valid time && negb (totalFailure q) && negb unavailable then [PWorkspace] else []).

(** ** Widgets *)

Record PanelState := mkPanelState { ps_pending : bool; ps_error : option Rejection; ps_stale : bool }.
Definition panel_state {A} (r : QueryResult A) : PanelState := mkPanelState (q_pending r) (q_error r) (q_refetchError r).
(** The dashboard's state while its figures are not computed yet. *)
Definition dashboard_state (q : OverviewQueries E I) : PanelState :=
  let waiting := rollupNotReady q && negb (is_Some_b (q_data (dashboard q))) in
  mkPanelState (q_pending (dashboard q) || waiting) (if waiting then None else q_error (dashboard q)) (q_refetchError (dashboard q)).

Inductive WidgetView := WContent (stale : bool) | WError (error : Rejection) | WSkeleton.

Definition ResourceFeedback {A} (data : option A) (state : PanelState) : WidgetView :=
  match data with
  | Some _ => WContent false
  | None => match ps_error state with Some e => WError e | None => WSkeleton end
  end.

Definition QueueFeedback {A} (items : list A) (state : PanelState) : WidgetView :=
  let none := match items with [] => true | _ => false end in
  if ps_pending state && none then WSkeleton
  else match ps_error state with
       | Some e => if none then WError e else WContent (ps_stale state)
       | None => WContent (ps_stale state && negb none)
       end.

Definition queue_items {A} (r : QueryResult (list A)) : list A := default [] (q_data r).

Definition OverviewWidget (q : OverviewQueries E I) (type : OverviewWidgetType) : WidgetView :=
  match type with
  | kpi_high_risk_endpoints => ResourceFeedback (q_data (endpoints q)) (panel_state (endpoints q))
  | highest_risk_endpoints => QueueFeedback (queue_items (endpointRanking q)) (panel_state (endpointRanking q))
  | incident_queue => QueueFeedback (queue_items (incidentQueue q)) (panel_state (incidentQueue q))
  | _ => ResourceFeedback (q_data (dashboard q)) (dashboard_state q)
  end.
End page.

(** ** Figures and links *)

Definition includes_question (path : ustring) : bool := js_some (λ c, bool_decide (c = 63)) path.

Definition scopedPath (path : ustring) (endpointId : option Z) (parameter : ustring) : ustring :=
  match endpointId with
  | None => path
  | Some id => path ++ (if includes_question path then u! "&" else u! "?") ++ parameter ++ u! "=" ++ string_of_Z id
  end.

(** The preset of a time range is always given here. *)
Definition time_params (timeRange : DashboardTimeQuery) (endpointId : option Z) (params : URLSearchParams) : URLSearchParams :=
  let params := params_set (u! "timePreset") (lit_name (tq_timePreset timeRange)) params in
  let bound key (value : option ustring) params :=
    match value with Some v => if truthy v then params_set key v params else params | None => params end in
  let params :=
    if bool_decide (tq_timePreset timeRange = Preset_CUSTOM)
    then bound (u! "to") (tq_to timeRange) (bound (u! "from") (tq_from timeRange) params)
    else params_delete (u! "to") (params_delete (u! "from") params) in
  match endpointId with Some id => params_set (u! "endpointId") (string_of_Z id) params | None => params end.

Definition timeScopedPath (path : ustring) (timeRange : DashboardTimeQuery) (endpointId : option Z) : ustring :=
  let parts := split_on 63 path in
  let query := params_string (time_params timeRange endpointId (params_of_string (default [] (parts !! 1%nat)))) in
  let pathname := default path (parts !! 0%nat) in
  if truthy query then pathname ++ u! "?" ++ query else pathname.

Record KpiCard := mkKpiCard { kpi_value : Z; kpi_tone : ustring; kpi_to : ustring }.

Definition criticalAlerts (d : DashboardData) : Z :=
  match js_find (λ row, bool_decide (row.1 = Severity_CRITICAL)) (dash_bySeverity d) with Some row => row.2 | None => 0 end.
Definition tone_if (count : Z) (tone : ustring) : ustring := if count =? 0 then u! "neutral" else tone.

Definition alerts_card (d : DashboardData) (timeRange : DashboardTimeQuery) (endpointId : option Z) : KpiCard :=
  mkKpiCard (alerts_totalCount (dash_totals d)) (u! "accent") (timeScopedPath (u! "/alerts") timeRange endpointId).
Definition critical_card (d : DashboardData) (timeRange : DashboardTimeQuery) (endpointId : option Z) : KpiCard :=
  mkKpiCard (criticalAlerts d) (tone_if (criticalAlerts d) (u! "critical"))
    (timeScopedPath (u! "/alerts?severity=CRITICAL") timeRange endpointId).
Definition high_risk_card (s : EndpointSummary) (endpointId : option Z) : KpiCard :=
  mkKpiCard (sum_highRiskEndpointCount s) (tone_if (sum_highRiskEndpointCount s) (u! "high"))
    (scopedPath (u! "/endpoints?riskLevel=HIGH&sortBy=riskScore&sortOrder=desc") endpointId (u! "endpointIds")).
Definition incidents_card (d : DashboardData) (timeRange : DashboardTimeQuery) (endpointId : option Z) : KpiCard :=
  mkKpiCard (incidents_openCount (dash_totals d)) (tone_if (incidents_openCount (dash_totals d)) (u! "info"))
    (timeScopedPath (u! "/incidents?status=OPEN") timeRange endpointId).
(** Where an empty activity chart leads. *)
Definition recoveryTo (endpointId : option Z) : ustring :=
  timeScopedPath (u! "/") (mkTimeQuery Preset_LATEST_7D None None) endpointId.

(** The figures of the ribbon, once both summaries are there. *)
Definition OverviewSignalRibbon (d : option DashboardData) (s : option EndpointSummary) : option (list ustring) :=
  d ← d; s ← s;
  Some [string_of_Z (events_totalCount (dash_totals d)); string_of_Z (alerts_totalCount (dash_totals d));
        string_of_Z (sum_onlineCount s) ++ u! " / " ++ string_of_Z (sum_totalCount s);
        string_of_Z (incidents_openCount (dash_totals d))].

(** ** The manual refresh *)

Inductive Resource := LiveDashboard | EndpointTotals | RankingQueue | IncidentItems | Availability.
#[export] Instance Resource_eq_dec : EqDecision Resource.
Proof. solve_decision. Defined.

(** The page shows the figures of a query [Q]; [custom] tells the queries of a custom
    range. An entry of the cache is a query and the query whose answer it holds. *)
Section refresh.
Context {Q : Type} (custom : Q → bool).

(** Whether a running mutation calls back the functions of the latest rendering, as
    TanStack Query 5 does, or those of the rendering that started it. *)
Context (latest_callbacks : bool).

Record Refresh := mkRefresh {
  summaryQuery : Q;
  manualRefreshing : bool;
  liveError : option Rejection;
  requested : option Q;
  outstanding : list Resource;
  cached : list (Q * Q);
}.
Definition refresh_mount (q : Q) : Refresh := mkRefresh q false None None [] [].

Inductive RefreshEvent :=
| FilterChanged (q : Q) | RefreshClicked | Settled (r : Resource) (failure : option Rejection).

Definition refresh_requests (q : Q) : list Resource :=
  [LiveDashboard; EndpointTotals; RankingQueue; IncidentItems] ++ (if custom q then [Availability] else []).

(** The requests of a click; none while a refresh runs. *)
Definition refreshManually (st : Refresh) : Refresh * list Resource :=
  if manualRefreshing st then (st, [])
  else (mkRefresh (summaryQuery st) true None (Some (summaryQuery st)) (refresh_requests (summaryQuery st)) (cached st),
        refresh_requests (summaryQuery st)).

(** One of the awaited promises settles; the last one ends the refresh. *)
Definition settle (st : Refresh) (r : Resource) (failure : option Rejection) : Refresh :=
  if bool_decide (r ∈ outstanding st) then
    let rest := js_filter (λ r', negb (bool_decide (r' = r))) (outstanding st) in
    let live := bool_decide (r = LiveDashboard) in
    let cached' :=
      match live, failure, requested st with
      | true, None, Some origin => ((if latest_callbacks then summaryQuery st else origin), origin) :: cached st
      | _, _, _ => cached st
      end in
    mkRefresh (summaryQuery st) (match rest with [] => false | _ => true end)
      (if live then match failure with Some e => Some e | None => liveError st end else liveError st)
      (requested st) rest cached'
  else st.

Definition refresh_step (st : Refresh) (ev : RefreshEvent) : Refresh :=
  match ev with
  | FilterChanged q => mkRefresh q (manualRefreshing st) (liveError st) (requested st) (outstanding st) (cached st)
  | RefreshClicked => (refreshManually st).1
  | Settled r failure => settle st r failure
  end.
Definition refresh_run : Refresh → list RefreshEvent → Refresh := foldl refresh_step.
End refresh.
Arguments Refresh : clear implicits. Arguments RefreshEvent : clear implicits.

(** ** Claims: what the page shows *)

Lemma part_if {A} (b : bool) (x y : A) : x ∈ (if b then [y] else []) ↔ b = true ∧ x = y.
Proof. destruct b; rewrite ?list_elem_of_singleton, ?elem_of_nil; naive_solver. Qed.

Lemma lost_spec r : lost r = true ↔ ∃ e, r = QFailed e ∧ isUnavailableTimeRangeError e = false.
Proof.
  unfold lost. destruct r as [|e|d [e|]]; cbn; rewrite ?negb_true_iff.
  - split; [done|]. by intros (? & ? & _).
  - split; [by exists e|]. by intros (? & [= ->] & ?).
  - split; [done|]. by intros (? & ? & _).
  - split; [done|]. by intros (? & ? & _).
Qed.

Section feedback.
Context {E I : Type} (time : TimeFilterState) (live : option Rejection) (q : OverviewQueries E I).

(** The first query's error stands for a total failure. *)
Lemma total_failure_error : totalFailure q = true →
  ∃ e, dashboard q = QFailed e ∧ isUnavailableTimeRangeError e = false ∧ initialError q = Some e.
Proof.
  intros Ht. assert (lost (erase (dashboard q)) = true) as (e & He & Hu)%lost_spec
    by (unfold totalFailure in Ht; cbn [allQueries forallb] in Ht; by apply andb_true_iff in Ht as [? _]).
  exists e. assert (dashboard q = QFailed e) as Hd by (destruct (dashboard q); [done|by injection He as ->|done]).
  split_and!; [done|done|]. unfold initialError. rewrite Ht. unfold allQueries. by rewrite Hd.
Qed.

Lemma initial_error_failed e : initialError q = Some e → QFailed e ∈ allQueries q.
Proof.
  intros Hi. assert (totalFailure q = true) as Ht by (unfold initialError in Hi; by destruct (totalFailure q)).
  destruct (total_failure_error Ht) as (e' & Hd & _ & Hi'). rewrite Hi in Hi'. injection Hi' as <-.
  unfold allQueries. rewrite Hd. by apply list_elem_of_here.
Qed.

Lemma parts_spec p : p ∈ overview_parts time live q ↔
  match p with
  | PInvalidFilter => tf_valid time = false ∧ tf_preset time ≠ Preset_CUSTOM
  | PPartialFailure => partialFailure time q = true
  | PStale e manual => page_stale live q = Some (e, manual)
  | PError e manual => page_error time q = Some (e, manual)
  | PUnavailableRange => overview_unavailableRange time q = true
  | PWorkspace => tf_valid time = true ∧ totalFailure q = false ∧ overview_unavailableRange time q = false
  end.
Proof.
  assert (∀ (A B : Type) (o : option (A * B)) (f : A → B → OverviewPart) x,
    x ∈ match o with Some (a, b) => [f a b] | None => [] end ↔ ∃ a b, o = Some (a, b) ∧ x = f a b) as Hopt.
  { intros A B [[a b]|] f x; [rewrite list_elem_of_singleton|rewrite elem_of_nil]; split.
    - intros ->. by exists a, b.
    - by intros (? & ? & [= <- <-] & ->).
    - done.
    - by intros (? & ? & ? & _). }
  unfold overview_parts. rewrite !elem_of_app, !part_if, !Hopt, !andb_true_iff, !negb_true_iff, bool_decide_eq_false.
  destruct p; intuition (try discriminate);
    repeat match goal with
    | H : ∃ _ _, _ |- _ => destruct H as (? & ? & ? & H); try discriminate H
    | H : PStale _ _ = _ |- _ => injection H as -> ->
    | H : PError _ _ = _ |- _ => injection H as -> ->
    end; trivial.
  - right. right. left. eauto.
  - right. right. right. left. eauto.
Qed.

Lemma page_error_failed e manual : page_error time q = Some (e, manual) → QFailed e ∈ allQueries q.
Proof.
  unfold page_error, rollupNotReady, allQueries. destruct (dashboard q) as [|e0|d [e0|]] eqn:Hd; cbn.
  - intros Hi. apply bind_Some in Hi as (e' & Hi%initial_error_failed & H). unfold allQueries in Hi. rewrite Hd in Hi.
    destruct (negb _); [|done]. by injection H as -> _.
  - destruct (isRollupNotReadyError e0); cbn.
    + intros [= -> _]. apply list_elem_of_here.
    + intros Hi. apply bind_Some in Hi as (e' & Hi%initial_error_failed & H). unfold allQueries in Hi. rewrite Hd in Hi.
      destruct (negb _); [|done]. by injection H as -> _.
  - rewrite andb_false_r. intros Hi. apply bind_Some in Hi as (e' & Hi & H).
    assert (totalFailure q = false) as Ht by (unfold totalFailure, allQueries; by rewrite Hd).
    unfold initialError in Hi. by rewrite Ht in Hi.
  - intros Hi. apply bind_Some in Hi as (e' & Hi & H).
    assert (totalFailure q = false) as Ht by (unfold totalFailure, allQueries; by rewrite Hd).
    unfold initialError in Hi. by rewrite Ht in Hi.
Qed.

Lemma total_failure_shown : totalFailure q = true → overview_unavailableRange time q = false →
  ∃ e manual, page_error time q = Some (e, manual).
Proof.
  intros Ht Hu. destruct (total_failure_error Ht) as (e & Hd & _ & Hi). unfold page_error. rewrite Hd, Hi, Hu.
  destruct (rollupNotReady q); cbn; eauto.
Qed.

(** While the workspace is shown, the error of a query without data is shown by a
    widget; that of figures not computed yet is the page's. *)
Lemma failure_shown e : QFailed e ∈ allQueries q →
  (∃ type, OverviewWidget q type = WError e) ∨ page_error time q = Some (e, true).
Proof.
  unfold allQueries. rewrite !elem_of_cons, elem_of_nil. intros [H|[H|[H|[H|[]]]]].
  - destruct (dashboard q) as [|e'|] eqn:Hd; [done| |done]. injection H as <-.
    destruct (isRollupNotReadyError e) eqn:Hr.
    + right. unfold page_error, rollupNotReady. rewrite Hd. cbn. by rewrite Hr.
    + left. exists edr_state. unfold OverviewWidget, dashboard_state, ResourceFeedback, rollupNotReady. rewrite Hd. cbn. by rewrite Hr.
  - left. exists kpi_high_risk_endpoints. unfold OverviewWidget. destruct (endpoints q); [done| |done]. by injection H as <-.
  - left. exists highest_risk_endpoints. unfold OverviewWidget. destruct (endpointRanking q); [done| |done]. by injection H as <-.
  - left. exists incident_queue. unfold OverviewWidget. destruct (incidentQueue q); [done| |done]. by injection H as <-.
Qed.
End feedback.

(** for a valid time range the overview page always explains itself: it shows the
    widgets unless all queries failed or the range is unavailable, and then an error or
    the notice of the range stands in; every query that failed without data is shown,
    as the page's error or by one of its widgets, unless the range is unavailable; and
    the page's error is that of a failed query. A custom range is called unavailable
    exactly when a query says so or its figures show no evidence. *)
Theorem overview_feedback {E I} time live (q : OverviewQueries E I) :
  tf_valid time = true →
  let parts := overview_parts time live q in
  (PWorkspace ∈ parts ↔ totalFailure q = false ∧ PUnavailableRange ∉ parts) ∧
  (PWorkspace ∈ parts ∨ PUnavailableRange ∈ parts ∨ ∃ e manual, PError e manual ∈ parts) ∧
  (∀ e, QFailed e ∈ allQueries q → PUnavailableRange ∉ parts →
    (∃ e' manual, PError e' manual ∈ parts) ∨ PWorkspace ∈ parts ∧ ∃ type, OverviewWidget q type = WError e) ∧
  (∀ e manual, PError e manual ∈ parts → QFailed e ∈ allQueries q) ∧
  (totalFailure q = true ↔ ∀ r, r ∈ allQueries q → ∃ e, r = QFailed e ∧ isUnavailableTimeRangeError e = false) ∧
  (PUnavailableRange ∈ parts ↔ tf_preset time = Preset_CUSTOM ∧
    ((∃ r e, r ∈ allQueries q ∧ q_error r = Some e ∧ isUnavailableTimeRangeError e = true)
     ∨ ∃ d, q_data (dashboard q) = Some d ∧ dashboardHasEvidenceInRange (dash_totals d) = false)).
Proof.
  intros Hv parts. subst parts. setoid_rewrite parts_spec. split_and!.
  - rewrite not_true_iff_false. tauto.
  - destruct (overview_unavailableRange time q) eqn:Hu; [tauto|]. destruct (totalFailure q) eqn:Ht; [|tauto].
    right. right. by apply total_failure_shown.
  - intros e He Hu%not_true_iff_false. destruct (totalFailure q) eqn:Ht; [left; by apply total_failure_shown|].
    destruct (failure_shown time q e He) as [Hw|Hp]; [by right|left; eauto].
  - intros e manual. apply page_error_failed.
  - unfold totalFailure. rewrite forallb_forall. setoid_rewrite list_elem_of_In. setoid_rewrite lost_spec. done.
  - unfold overview_unavailableRange. rewrite Hv, andb_true_r, andb_true_iff, bool_decide_eq_true, orb_true_iff, js_some_true.
    apply and_iff_compat_l. f_equiv; [f_equiv; intros r|].
    + unfold unavailable_error. destruct (q_error r) as [e|]; naive_solver.
    + destruct (q_data (dashboard q)) as [d|]; rewrite ?negb_true_iff; naive_solver.
Qed.

Definition sample_failure (code : ustring) : Rejection := RApi (mkApiError 500 code [] false [] None None).

(** One lost queue of four, on a custom range. *)
Definition sample_overview : OverviewQueries unit unit :=
  mkOverviewQueries (QData (mkDashboardData (mkTotals 3 0 0 0 0) []) None) QPending (QFailed (sample_failure (u! "NETWORK_ERROR"))) (QData [] None).

Lemma overview_feedback_witness :
  let time := @readTimeFilter utc_host [] in
  tf_valid time = true ∧ PWorkspace ∈ overview_parts time None sample_overview ∧
  ∃ type, OverviewWidget sample_overview type = WError (sample_failure (u! "NETWORK_ERROR")).
Proof.
  intros time. destruct (overview_feedback time None sample_overview) as (Hw & _ & Hf & Hp & _); [by vm_compute|].
  split; [by vm_compute|]. assert (PUnavailableRange ∉ overview_parts time None sample_overview) as Hn
    by (intros H%parts_spec; vm_compute in H; discriminate H).
  split; [apply Hw; split; [by vm_compute|exact Hn]|].
  destruct (Hf (sample_failure (u! "NETWORK_ERROR"))) as [(e & m & H)|[_ H]].
  - apply list_elem_of_further, list_elem_of_further, list_elem_of_here.
  - exact Hn.
  - apply parts_spec in H. vm_compute in H. discriminate H.
  - exact H.
Defined.

(** ** Claims: the manual refresh *)

Section refresh_claims.
Context {Q : Type} (custom : Q → bool) (latest_callbacks : bool).
Notation run := (refresh_run custom latest_callbacks).
Notation step := (refresh_step custom latest_callbacks).

Record refresh_ok (st : Refresh Q) : Prop := {
  refresh_distinct : NoDup (outstanding st);
  refresh_running : manualRefreshing st = match outstanding st with [] => false | _ => true end;
  refresh_live : LiveDashboard ∈ outstanding st → liveError st = None ∧ is_Some (requested st);
}.

Lemma refresh_requests_distinct q : NoDup (refresh_requests custom q).
Proof. unfold refresh_requests. destruct (custom q); by_compute. Qed.

Lemma settle_outstanding (st : Refresh Q) r failure :
  outstanding (settle latest_callbacks st r failure) = js_filter (λ r', negb (bool_decide (r' = r))) (outstanding st).
Proof.
  unfold settle. case_bool_decide as Hin; [done|]. symmetry. apply js_filter_all.
  intros r' Hr'. apply negb_true_iff, bool_decide_eq_false. by intros ->.
Qed.

Lemma settle_live_error (st : Refresh Q) r failure : refresh_ok st →
  liveError (settle latest_callbacks st r failure) =
  if bool_decide (r = LiveDashboard) && bool_decide (r ∈ outstanding st) then failure else liveError st.
Proof.
  intros [_ _ Hl]. unfold settle. repeat case_bool_decide; try done. cbn. destruct failure; [done|]. subst r. by apply Hl.
Qed.

Lemma refresh_step_ok st ev : refresh_ok st → refresh_ok (step st ev).
Proof.
  intros Hok. pose proof Hok as [Hd Hr Hl]. destruct ev as [q| |r failure]; cbn [refresh_step].
  - by split.
  - unfold refreshManually. destruct (manualRefreshing st); [done|]. split; cbn.
    + apply refresh_requests_distinct.
    + done.
    + intros _. split; [done|by eexists].
  - split.
    + rewrite settle_outstanding. eapply sublist_NoDup; [exact Hd|apply js_filter_sublist].
    + rewrite settle_outstanding. unfold settle. case_bool_decide as Hin; [done|]. rewrite Hr, js_filter_all; [done|].
      intros r' Hr'. apply negb_true_iff, bool_decide_eq_false. by intros ->.
    + rewrite settle_outstanding, js_filter_elem, negb_true_iff, bool_decide_eq_false. intros [Hin Hne].
      rewrite settle_live_error by done. rewrite (bool_decide_false (r = LiveDashboard)) by done. cbn [andb].
      destruct (Hl Hin) as [? ?]. split; [done|]. unfold settle. by case_bool_decide.
Qed.

Lemma refresh_run_ok st events : refresh_ok st → refresh_ok (run st events).
Proof. revert st. induction events as [|ev events IH]; intros st Hst; [done|]. apply IH. by apply refresh_step_ok. Qed.

Lemma refresh_mount_ok q : refresh_ok (refresh_mount q).
Proof. split; [apply NoDup_nil_2|done|by intros H%elem_of_nil]. Qed.

Definition settlements (settles : list (Resource * option Rejection)) : list (RefreshEvent Q) :=
  map (λ s, Settled s.1 s.2) settles.

Lemma refresh_completes settles st : refresh_ok st → settles.*1 ≡ₚ outstanding st →
  let st' := run st (settlements settles) in
  manualRefreshing st' = false ∧ outstanding st' = [] ∧
  (∀ failure, (LiveDashboard, failure) ∈ settles → liveError st' = failure).
Proof.
  revert st. induction settles as [|[r f] settles IH]; intros st Hok Hp.
  - apply Permutation_nil_l in Hp. cbn. rewrite (refresh_running _ Hok), <- Hp. split_and!; [done..|]. by intros ? ?%elem_of_nil.
  - cbn [settlements map refresh_run foldl fst snd]. set (st1 := step st (Settled r f)).
    assert (refresh_ok st1) as Hok1 by by apply refresh_step_ok.
    pose proof (refresh_distinct _ Hok) as Hd. cbn in Hp. rewrite <- Hp in Hd. apply NoDup_cons in Hd as [Hr Hd].
    assert (settles.*1 ≡ₚ outstanding st1) as Hp1.
    { apply NoDup_Permutation; [done|by apply refresh_distinct|]. intros x. unfold st1. cbn [refresh_step].
      rewrite settle_outstanding, js_filter_elem, negb_true_iff, bool_decide_eq_false, <- Hp, elem_of_cons. split; [|tauto].
      intros Hx. split; [by right|]. by intros ->. }
    destruct (IH st1 Hok1 Hp1) as (H1 & H2 & H3). split_and!; [done|done|]. intros failure [Heq|Hin]%elem_of_cons; [|by apply H3].
    injection Heq as <- <-. assert (liveError st1 = failure) as Hl.
    { unfold st1. cbn [refresh_step]. rewrite settle_live_error by done. rewrite !bool_decide_true; [done| |done].
      rewrite <- Hp. apply list_elem_of_here. }
    rewrite <- Hl. clear -Hok1 Hr. assert (∀ settles' st', refresh_ok st' → LiveDashboard ∉ settles'.*1 →
      liveError (run st' (settlements settles')) = liveError st') as Hkeep; [|by apply Hkeep].
    induction settles' as [|[r f] settles' IH]; intros st' Hok' Hn; [done|]. cbn in Hn. apply not_elem_of_cons in Hn as [Hne Hn].
    cbn [settlements map refresh_run foldl fst snd]. etrans; [apply IH; [by apply refresh_step_ok|done]|].
    cbn [refresh_step]. rewrite settle_live_error by done. by rewrite bool_decide_false.
Qed.

(** Runs whose filter only changes while no refresh is running. *)
Fixpoint quiet_run (st : Refresh Q) (events : list (RefreshEvent Q)) : Prop :=
  match events with
  | [] => True
  | ev :: rest =>
    match ev with FilterChanged _ => manualRefreshing st = false | _ => True end ∧ quiet_run (step st ev) rest
  end.

(** While a quiet refresh runs, the page shows the query it was started for. *)
Definition cache_ok (st : Refresh Q) : Prop :=
  Forall (λ entry, entry.1 = entry.2) (cached st) ∧
  (latest_callbacks = true → manualRefreshing st = true → requested st = Some (summaryQuery st)).

Lemma cache_step st ev : refresh_ok st →
  latest_callbacks = false ∨ match ev with FilterChanged _ => manualRefreshing st = false | _ => True end →
  cache_ok st → cache_ok (step st ev).
Proof.
  intros [_ Hr _] Hq [Hc Hs]. destruct ev as [q| |r failure]; cbn [refresh_step].
  - split; [done|]. cbn. intros Hl Hm. destruct Hq as [Hq|Hq]; congruence.
  - unfold refreshManually. destruct (manualRefreshing st) eqn:E; [by split; [|intros; apply Hs]|]. split; [done|]. by intros.
  - unfold settle. case_bool_decide as Hin; [|done].
    assert (manualRefreshing st = true) as Hm by (rewrite Hr; destruct (outstanding st); [by apply elem_of_nil in Hin|done]).
    split; cbn; [|intros Hl _; by apply Hs].
    destruct (bool_decide (r = LiveDashboard)), failure, (requested st) as [origin|] eqn:Ho; try done.
    apply Forall_cons. split; [|done]. cbn. destruct latest_callbacks; [|done]. specialize (Hs eq_refl Hm). congruence.
Qed.

Lemma cache_run st events : refresh_ok st → latest_callbacks = false ∨ quiet_run st events →
  cache_ok st → cache_ok (run st events).
Proof.
  revert st. induction events as [|ev events IH]; intros st Hok Hq Hc; [done|]. cbn [refresh_run foldl].
  apply IH; [by apply refresh_step_ok| |].
  - destruct Hq as [Hq|[_ Hq]]; [by left|by right].
  - apply cache_step; [done| |done]. destruct Hq as [Hq|[Hq _]]; [by left|by right].
Qed.
End refresh_claims.

(** the manual refresh comes to an end: in every reachable state the page is
    refreshing exactly while requests are outstanding, each of them once; a click then
    sends nothing, and otherwise sends every request; and once all the outstanding
    requests have settled, in whatever order and way, the page is not refreshing, and
    the error it keeps is that of the live figures, if they failed. *)
Theorem manual_refresh_ends {Q} (custom : Q → bool) latest_callbacks (q : Q) events settles :
  let st := refresh_run custom latest_callbacks (refresh_mount q) events in
  settles.*1 ≡ₚ outstanding st →
  let st' := refresh_run custom latest_callbacks st (settlements settles) in
  (manualRefreshing st = true ↔ outstanding st ≠ []) ∧ NoDup (outstanding st) ∧
  (refreshManually custom st).2 = (if manualRefreshing st then [] else refresh_requests custom (summaryQuery st)) ∧
  manualRefreshing st' = false ∧ outstanding st' = [] ∧
  (∀ failure, (LiveDashboard, failure) ∈ settles → liveError st' = failure).
Proof.
  intros st Hp st'. assert (refresh_ok st) as Hok by apply refresh_run_ok, refresh_mount_ok.
  pose proof (refresh_completes custom latest_callbacks settles st Hok Hp) as Hend. fold st' in Hend.
  pose proof Hok as [Hd Hr _]. split_and!; [|done| |apply Hend..].
  - rewrite Hr. by destruct (outstanding st).
  - unfold refreshManually. by destruct (manualRefreshing st).
Qed.

Lemma manual_refresh_ends_witness :
  let st := refresh_run (λ _ : Z, true) true (refresh_mount 0) [RefreshClicked] in
  manualRefreshing (refresh_run (λ _ : Z, true) true st
    (settlements [(Availability, None); (LiveDashboard, Some (sample_failure [])); (IncidentItems, None); (RankingQueue, None);
                  (EndpointTotals, None)])) = false.
Proof.
  intros st. refine (proj1 (proj2 (proj2 (proj2 (manual_refresh_ends (λ _ : Z, true) true 0 [RefreshClicked] _ _))))).
  apply NoDup_Permutation.
  - by_compute.
  - by_compute.
  - intros []; split; intros _; by_compute.
Defined.

(** the live figures of a manual refresh are cached for the query they answer, when
    a mutation calls back the functions of the rendering that started it, or the filter
    does not change while a refresh runs; with the functions of the latest rendering, a
    filter changed in between stores the figures of the old query for the new one. *)
Theorem live_figures_cached {Q} (custom : Q → bool) :
  (∀ latest_callbacks q events,
    latest_callbacks = false ∨ quiet_run custom latest_callbacks (refresh_mount q) events →
    Forall (λ entry, entry.1 = entry.2) (cached (refresh_run custom latest_callbacks (refresh_mount q) events))) ∧
  (∀ old new, old ≠ new → ∃ events,
    cached (refresh_run custom true (refresh_mount old) events) = [(new, old)]).
Proof.
  split.
  - intros latest_callbacks q events Hq. apply (cache_run custom latest_callbacks); [apply refresh_mount_ok|done|].
    split; [by apply Forall_nil|done].
  - intros old new _. exists [RefreshClicked; FilterChanged new; Settled LiveDashboard None].
    cbn. unfold settle. cbn. unfold refresh_requests. by destruct (custom old).
Qed.

(** ** Claims: links *)

Section links.
Context `{DateHost}.

Definition id_ok (endpointId : option Z) : Prop := match endpointId with Some id => 0 < id ≤ 2 ^ 53 | None => True end.

(** The pairs a link adds for a time range and an endpoint. *)
Definition scope_pairs (time : DashboardTimeQuery) (endpointId : option Z) : URLSearchParams :=
  [(u! "timePreset", lit_name (tq_timePreset time))]
  ++ match tq_from time with Some v => [(u! "from", v)] | None => [] end
  ++ match tq_to time with Some v => [(u! "to", v)] | None => [] end
  ++ match endpointId with Some id => [(u! "endpointId", string_of_Z id)] | None => [] end.
Definition scope_keys : list ustring := [u! "timePreset"; u! "from"; u! "to"; u! "endpointId"].

(** A time range of a valid filter: a preset, or a custom range with its bounds. *)
Definition range_ok (time : DashboardTimeQuery) : Prop :=
  (tq_timePreset time ≠ Preset_CUSTOM ∧ tq_from time = None ∧ tq_to time = None)
  ∨ (∃ from to, time = mkTimeQuery Preset_CUSTOM (Some from) (Some to) ∧ well_formed from ∧ well_formed to ∧
       truthy from = true ∧ truthy to = true ∧ time_lt from to = true).

Lemma params_get_app p1 p2 key :
  params_get (p1 ++ p2) key = match params_get p1 key with Some v => Some v | None => params_get p2 key end.
Proof.
  induction p1 as [|kv p1 IH]; [done|]. cbn [app]. rewrite !params_get_cons. by destruct (bool_decide _).
Qed.

Lemma params_set_new key v p : params_get p key = None → params_set key v p = p ++ [(usv key, usv v)].
Proof.
  intros Hn. unfold params_set. induction p as [|kv p IH]; [done|]. rewrite params_get_cons in Hn.
  cbn [params_set_first app]. case_decide as Hd; [|rewrite IH; [done|]]; case_bool_decide; try done.
Qed.

Lemma params_delete_new key p : params_get p key = None → params_delete key p = p.
Proof.
  intros Hn. unfold params_delete. induction p as [|kv p IH]; [done|]. rewrite params_get_cons in Hn.
  rewrite js_filter_cons. case_bool_decide; [done|]. cbn [negb]. by rewrite IH.
Qed.

Lemma preset_usv (t : TimePreset) : usv (lit_name t) = lit_name t.
Proof. by destruct t; vm_compute. Qed.

Lemma time_params_base time endpointId base : range_ok time →
  (∀ key, key ∈ scope_keys → params_get base key = None) →
  time_params time endpointId base = base ++ scope_pairs time endpointId.
Proof.
  intros Ht Hb.
  assert (params_get base (u! "timePreset") = None ∧ params_get base (u! "from") = None ∧
    params_get base (u! "to") = None ∧ params_get base (u! "endpointId") = None) as (Gp & Gf & Gt & Ge)
    by (split_and!; apply Hb; by_compute).
  assert (∀ tail, (∀ kv, kv ∈ tail → kv.1 ≠ u! "endpointId") →
    match endpointId with Some id => params_set (u! "endpointId") (string_of_Z id) (base ++ tail) | None => base ++ tail end
    = base ++ tail ++ match endpointId with Some id => [(u! "endpointId", string_of_Z id)] | None => [] end) as Hid.
  { intros tail Htail. destruct endpointId as [id|]; [|by rewrite app_nil_r]. rewrite params_set_new.
    - rewrite <- app_assoc, (usv_lit_units (string_of_Z id)) by apply string_of_Z_ascii. done.
    - rewrite params_get_app, Ge. clear -Htail. induction tail as [|kv tail IH]; [done|].
      rewrite params_get_cons, bool_decide_false; [|apply Htail; by left]. apply IH. intros kv' Hkv'. apply Htail. by right. }
  unfold time_params, scope_pairs. rewrite (params_set_new (u! "timePreset")), preset_usv by done.
  destruct Ht as [(Hne & -> & ->)|(from & to & -> & Wf & Wt & Tf & Tt & _)].
  - rewrite bool_decide_false by done. assert (∀ key value, params_get base key = None → usv key ≠ u! "timePreset" →
      params_get (base ++ [(usv (u! "timePreset"), value)]) key = None) as Hdel.
    { intros key value Hk Hne'. rewrite params_get_app, Hk, params_get_cons. by rewrite bool_decide_false by (intros E; apply Hne'; rewrite <- E; by vm_compute). }
    rewrite (params_delete_new (u! "from")), (params_delete_new (u! "to")) by (apply Hdel; [done|by vm_compute]).
    cbn [app]. apply Hid. intros kv ->%list_elem_of_singleton. by vm_compute.
  - cbn [tq_timePreset tq_from tq_to]. rewrite bool_decide_true, Tf, Tt by done.
    rewrite (params_set_new (u! "from")) by (rewrite params_get_app, Gf; done).
    rewrite (params_set_new (u! "to")) by (rewrite !params_get_app, Gt; done).
    rewrite (usv_well_formed from), (usv_well_formed to), <- !app_assoc by done. cbn [app]. apply Hid.
    intros kv Hkv. repeat (apply elem_of_cons in Hkv as [->|Hkv]; [by vm_compute|]). by apply elem_of_nil in Hkv.
Qed.

Lemma valid_range params : params_ok params → tf_valid (readTimeFilter params) = true → range_ok (tf_query (readTimeFilter params)).
Proof.
  intros Hok Hv. unfold readTimeFilter in *. cbn [tf_valid tf_query] in *. apply andb_true_iff in Hv as [_ Hv].
  destruct (decide (timePreset params = Preset_CUSTOM)) as [Hc|Hc].
  - rewrite bool_decide_true in Hv |- * by done. cbn [negb orb andb] in *.
    apply andb_true_iff in Hv as [[Hf Ht]%andb_true_iff Hlt]. rewrite Hf, Ht, Hc. right.
    destruct (params_get params (u! "from")) as [from|] eqn:Gf; [|done].
    destruct (params_get params (u! "to")) as [to|] eqn:Gt; [|done].
    exists from, to. assert (∀ k v, params_get params k = Some v → well_formed v) as Hwf.
    { intros k v (kv & Hin & ->)%fmap_Some. apply js_find_Some in Hin as [Hin _].
      unfold params_ok in Hok. rewrite Forall_forall in Hok. by apply Hok. }
    split_and!; eauto.
  - rewrite bool_decide_false by done. by left.
Qed.

Section base.
Context (time : DashboardTimeQuery) (endpointId : option Z) (base : URLSearchParams).
Context (Htime : range_ok time) (Hid : id_ok endpointId).
Context (Hbase : ∀ key, key ∈ scope_keys → params_get base key = None) (Hok : params_ok base).
Let p := base ++ scope_pairs time endpointId.

Lemma scope_ok : params_ok p.
Proof.
  clear Hid Hbase.   apply Forall_app. split; [done|]. unfold scope_pairs.
  assert (∀ s, bool_decide (Forall (λ c, 0 ≤ c < 128) s) = true → well_formed s) as Ha
    by (intros s Hs; apply well_formed_ascii; by apply bool_decide_eq_true in Hs).
  assert (well_formed (lit_name (tq_timePreset time))) as Hp by (apply Ha; by destruct (tq_timePreset time); vm_compute).
  assert (params_ok (match endpointId with Some id => [(u! "endpointId", string_of_Z id)] | None => [] end)) as He.
  { destruct endpointId as [id|]; [|by apply Forall_nil]. apply Forall_singleton.
    split; [apply Ha; by vm_compute|apply well_formed_ascii, string_of_Z_ascii]. }
  destruct Htime as [(_ & -> & ->)|(from & to & -> & Wf & Wt & _)]; cbn [tq_from tq_to app] in *;
    repeat (apply Forall_cons; split; [split; [apply Ha; by vm_compute|done]|]); done.
Qed.

Lemma scope_get key : usv key ∉ scope_keys → params_get p key = params_get base key.
Proof.
  clear Htime Hid Hbase Hok.   intros Hk. unfold p. rewrite params_get_app. destruct (params_get base key); [done|].
  assert (∀ kv, kv ∈ scope_pairs time endpointId → kv.1 ∈ scope_keys) as Hkeys.
  { assert (∀ (o : option ustring) key', key' ∈ scope_keys → ∀ kv,
      kv ∈ match o with Some v => [(key', v)] | None => [] end → kv.1 ∈ scope_keys) as Ho
      by (intros [v|] key' Hin kv Hkv; [by apply list_elem_of_singleton in Hkv as ->|by apply elem_of_nil in Hkv]).
    intros kv. unfold scope_pairs. rewrite !elem_of_app. intros [Hkv|[Hkv|[Hkv|Hkv]]].
    - apply list_elem_of_singleton in Hkv as ->. by_compute.
    - eapply (Ho _ (u! "from")); [by_compute|exact Hkv].
    - eapply (Ho _ (u! "to")); [by_compute|exact Hkv].
    - eapply (Ho (string_of_Z <$> endpointId) (u! "endpointId")); [by_compute|]. by destruct endpointId. }
  clear -Hk Hkeys. induction (scope_pairs time endpointId) as [|kv l IH]; [done|].
  rewrite params_get_cons, bool_decide_false; [|intros E; apply Hk; rewrite <- E; apply Hkeys; by left].
  apply IH. intros kv' Hkv'. apply Hkeys. by right.
Qed.

Lemma scope_endpoint : params_get p (u! "endpointId") = string_of_Z <$> endpointId.
Proof.
  clear Htime Hid Hok.   unfold p. rewrite params_get_app, (Hbase (u! "endpointId")) by by_compute. unfold scope_pairs.
  destruct (tq_from time), (tq_to time), endpointId; reflexivity.
Qed.

Lemma scope_endpoint_read :
  positiveInteger (params_get p (u! "endpointId")) = endpointId ∧ hasInvalidPositiveInteger p (u! "endpointId") = false.
Proof.
  clear Htime Hok. unfold hasInvalidPositiveInteger. rewrite scope_endpoint. destruct endpointId as [id|]; [|done]. cbn in Hid |- *.
  unfold positiveInteger. cbn [number_of_opt]. rewrite number_of_string_of_Z, to_integer_Z, positive_int_Z by lia.
  split; [done|]. apply Z.leb_gt. lia.
Qed.

Lemma scope_time : tf_valid (readTimeFilter p) = true ∧ tf_query (readTimeFilter p) = time.
Proof.
  clear Hid Hok.   assert (params_get p (u! "timePreset") = Some (lit_name (tq_timePreset time))) as Hp
    by (unfold p; by rewrite params_get_app, (Hbase (u! "timePreset")) by by_compute).
  assert (params_get p (u! "from") = tq_from time ∧ params_get p (u! "to") = tq_to time) as [Gf Gt].
  { unfold p. rewrite !params_get_app, (Hbase (u! "from")), (Hbase (u! "to")) by by_compute. unfold scope_pairs.
    destruct (tq_from time), (tq_to time), endpointId; done. }
  destruct (readTimeFilter_of p _ Hp) as (_ & -> & ->). unfold custom_range. rewrite Gf, Gt.
  destruct Htime as [(Hne & Hf & Ht)|(from & to & -> & _ & _ & Tf & Tt & Hlt)].
  - rewrite bool_decide_false by done. split; [done|]. cbn [andb]. destruct time as [preset from to]; cbn [tq_timePreset tq_from tq_to] in Hf, Ht |- *. by rewrite Hf, Ht.
  - cbn. rewrite Tf, Tt. cbn. split; [|done]. unfold time_lt in Hlt.
    destruct (Date_parse from), (Date_parse to); try done. destruct (_ <=? _) eqn:E; [|done]. breflect. lia.
Qed.
End base.

(** A link whose own pairs are [base]. *)
Lemma scoped_link path pathname rest base time endpointId :
  split_on 63 path = pathname :: rest → params_of_string (default [] (rest !! 0%nat)) = base →
  params_ok base → (∀ key, key ∈ scope_keys → params_get base key = None) → range_ok time →
  ∃ search, timeScopedPath path time endpointId = pathname ++ u! "?" ++ search ∧
    params_of_string search = base ++ scope_pairs time endpointId.
Proof.
  intros Hs Hb Hok Hbase Ht. exists (params_string (base ++ scope_pairs time endpointId)).
  split; [|apply params_of_string_string; by apply scope_ok].
  unfold timeScopedPath. rewrite Hs. change ((pathname :: rest) !! 1%nat) with (rest !! 0%nat).
  rewrite Hb, time_params_base by done. cbn [lookup list_lookup default from_option].
  assert (truthy (params_string (base ++ scope_pairs time endpointId)) = true) as ->; [|done].
  apply truthy_true, params_string_nonempty. by destruct base.
Qed.

Definition opens (link path : ustring) (P : URLSearchParams → Prop) : Prop :=
  ∃ search, link = path ++ u! "?" ++ search ∧ P (params_of_string search).

Ltac base_keys := intros key Hkey; unfold scope_keys in Hkey;
  repeat (apply elem_of_cons in Hkey as [->|Hkey]; [by vm_compute|]); by apply elem_of_nil in Hkey.
Ltac ascii_pairs := repeat (apply Forall_cons; split; [split; apply well_formed_ascii; by_compute|]); by apply Forall_nil.

Lemma alerts_link path pathname rest base time endpointId severity :
  split_on 63 path = pathname :: rest → params_of_string (default [] (rest !! 0%nat)) = base →
  base = match severity with Some s => [(u! "severity", lit_name s)] | None => [] end → range_ok time → id_ok endpointId →
  opens (timeScopedPath path time endpointId) pathname (λ p, alerts_invalid p = false ∧
    alerts_query p = mkAlertListQuery time 1 50 AlertSort_priority Order_desc None severity endpointId None).
Proof.
  intros Hs Hb Hbase Ht Hid.
  assert (params_ok base ∧ ∀ key, key ∈ scope_keys → params_get base key = None) as [Hok Hk].
  { rewrite Hbase. destruct severity as [[]|]; split; first [ascii_pairs|base_keys]. }
  destruct (scoped_link path pathname rest base time endpointId) as (search & Hl & Hp); [done..|].
  exists search. split; [done|]. rewrite Hp.
  destruct (scope_time time endpointId base Ht Hk) as [Tv Tq], (scope_endpoint_read time endpointId base Hid Hk) as [Ep Ei].
  pose proof (scope_get time endpointId base) as Hget.
  unfold alerts_invalid, alerts_query, alerts_sortBy, order_of, page_of, size_of, numberParam, text_param, stringParam, enum_invalid, enum_param,
    hasInvalidEnum, hasInvalidPagination. unfold hasInvalidPositiveInteger in *.
  rewrite Tv, Tq, Ep, Ei, !Hget by by_compute. rewrite Hbase. destruct severity as [[]|]; split; vm_compute; reflexivity.
Qed.

Lemma incidents_link time endpointId : range_ok time → id_ok endpointId →
  opens (timeScopedPath (u! "/incidents?status=OPEN") time endpointId) (u! "/incidents") (λ p, incidents_invalid p = false ∧
    incidents_query p = mkIncidentsPageQuery time 1 50 Order_desc (Some Incident_OPEN) None endpointId).
Proof.
  intros Ht Hid. set (base := [(u! "status", u! "OPEN")]).
  assert (params_ok base ∧ ∀ key, key ∈ scope_keys → params_get base key = None) as [Hok Hk] by (split; first [ascii_pairs|base_keys]).
  destruct (scoped_link (u! "/incidents?status=OPEN") (u! "/incidents") [u! "status=OPEN"] base time endpointId)
    as (search & Hl & Hp); [vm_compute; reflexivity..|done|done|done|].
  exists search. split; [done|]. rewrite Hp.
  destruct (scope_time time endpointId base Ht Hk) as [Tv Tq], (scope_endpoint_read time endpointId base Hid Hk) as [Ep Ei].
  pose proof (scope_get time endpointId base) as Hget.
  unfold incidents_invalid, incidents_query, order_of, page_of, size_of, numberParam, text_param, stringParam, enum_invalid, enum_param,
    hasInvalidEnum, hasInvalidPagination. unfold hasInvalidPositiveInteger in *.
  rewrite Tv, Tq, Ep, Ei, !Hget by by_compute. split; vm_compute; reflexivity.
Qed.

(** The id of one endpoint is a list of ids. *)
Lemma id_token_Z id : 0 < id → id_token (string_of_Z id) = true.
Proof.
  intros Hid. pose proof (string_of_Z_digits id ltac:(lia)) as Hd. unfold id_token.
  rewrite (trim_no_space _ (digits_no_space _ Hd)). destruct (dec_string_head id ltac:(lia)) as (c & r & Hs & Hc).
  unfold string_of_Z in *. rewrite (proj2 (Z.ltb_ge id 0)), Hs in * by lia. apply Forall_cons in Hd as [Hcd Hr].
  unfold is_digit in Hcd. apply andb_true_iff in Hcd as [H1 H2]. breflect. apply andb_true_iff. split; [lia|].
  apply forallb_forall. intros x Hx%list_elem_of_In. rewrite Forall_forall in Hr. by apply Hr.
Qed.

Lemma parse_one_id id : 0 < id ≤ 2 ^ 53 → parseEndpointIds (Some (string_of_Z id)) = [id].
Proof.
  intros Hid. exact (proj2 parseEndpointIds_spec [id] (NoDup_singleton id) ltac:(cbn; lia) ltac:(by apply Forall_singleton)).
Qed.

Lemma endpoints_link endpointId : id_ok endpointId →
  opens (scopedPath (u! "/endpoints?riskLevel=HIGH&sortBy=riskScore&sortOrder=desc") endpointId (u! "endpointIds")) (u! "/endpoints")
    (λ p, endpoints_invalid p = false ∧ endpoints_query p =
      mkEndpointListQuery 1 50 EndpointSort_riskScore Order_desc None None None (Some Risk_HIGH) ((λ id, [id]) <$> endpointId)).
Proof.
  intros Hid. destruct endpointId as [id|]; cbn [scopedPath fmap option_fmap option_map].
  2:{ exists (u! "riskLevel=HIGH&sortBy=riskScore&sortOrder=desc"). split; [by vm_compute|]. split; vm_compute; reflexivity. }
  cbn in Hid. pose proof (string_of_Z_digits id ltac:(lia)) as Hd.
  set (base := [(u! "riskLevel", u! "HIGH"); (u! "sortBy", u! "riskScore"); (u! "sortOrder", u! "desc")]).
  exists (params_string (base ++ [(u! "endpointIds", string_of_Z id)])). split.
  { unfold params_string, base. cbn [app map]. unfold params_pair. cbn [fst snd]. rewrite (form_encode_digits (string_of_Z id)) by done.
    cbn [join]. rewrite <- !app_assoc. reflexivity. }
  rewrite (proj1 (params_of_string_string (base ++ [(u! "endpointIds", string_of_Z id)]) ltac:(apply Forall_app; split;
    [ascii_pairs|apply Forall_singleton; split; apply well_formed_ascii; [by_compute|apply string_of_Z_ascii]]))).
  set (p := base ++ [(u! "endpointIds", string_of_Z id)]).
  assert (id_token (string_of_Z id) = true ∧ 44 ∉ string_of_Z id) as [Htoken Hcomma].
  { split; [apply id_token_Z; lia|]. intros Hin. rewrite Forall_forall in Hd. by specialize (Hd _ Hin). }
  assert (raw_endpointIds p = string_of_Z id) as Hraw by done.
  unfold endpoints_invalid, endpoints_query, invalidEndpointIds. rewrite Hraw, (split_on_free 44 (string_of_Z id)) by done.
  cbn [js_some existsb]. rewrite Htoken, (parse_one_id id) by done. cbn [negb orb]. rewrite andb_false_r. split; reflexivity.
Qed.

Lemma recovery_link endpointId : id_ok endpointId →
  opens (recoveryTo endpointId) (u! "/") (λ p, tf_valid (readTimeFilter p) = true ∧
    tf_query (readTimeFilter p) = mkTimeQuery Preset_LATEST_7D None None ∧ readOverviewEndpointId p = endpointId).
Proof.
  intros Hid. set (time := mkTimeQuery Preset_LATEST_7D None None). assert (range_ok time) as Ht by by left.
  assert (∀ key, key ∈ scope_keys → params_get [] key = None) as Hk by done.
  destruct (scoped_link (u! "/") (u! "/") [] [] time endpointId) as (search & Hl & Hp); [by vm_compute|by vm_compute|by apply Forall_nil|done|done|].
  exists search. split; [exact Hl|]. rewrite Hp.
  destruct (scope_time time endpointId [] Ht Hk) as [Tv Tq], (scope_endpoint_read time endpointId [] Hid Hk) as [Ep _].
  split_and!; [exact Tv|exact Tq|exact Ep].
Qed.
End links.

(** C23: every key indicator of the overview opens the list of what it counts. From a
    page with a valid time range, the lists accept the query of its link, and ask for
    the page's time range and endpoint, from the first page: all alerts, the critical
    alerts, the open incidents, and the endpoints of high risk by their score, for the
    page's endpoint alone when one is chosen; and the link of an empty chart opens the
    overview of the last seven days for the same endpoint. *)
Theorem overview_links_open `{DateHost} params d s endpointId :
  params_ok params → tf_valid (readTimeFilter params) = true → id_ok endpointId →
  let time := tf_query (readTimeFilter params) in
  opens (kpi_to (alerts_card d time endpointId)) (u! "/alerts") (λ p, alerts_invalid p = false ∧
    alerts_query p = mkAlertListQuery time 1 50 AlertSort_priority Order_desc None None endpointId None) ∧
  opens (kpi_to (critical_card d time endpointId)) (u! "/alerts") (λ p, alerts_invalid p = false ∧
    alerts_query p = mkAlertListQuery time 1 50 AlertSort_priority Order_desc None (Some Severity_CRITICAL) endpointId None) ∧
  opens (kpi_to (incidents_card d time endpointId)) (u! "/incidents") (λ p, incidents_invalid p = false ∧
    incidents_query p = mkIncidentsPageQuery time 1 50 Order_desc (Some Incident_OPEN) None endpointId) ∧
  opens (kpi_to (high_risk_card s endpointId)) (u! "/endpoints") (λ p, endpoints_invalid p = false ∧ endpoints_query p =
    mkEndpointListQuery 1 50 EndpointSort_riskScore Order_desc None None None (Some Risk_HIGH) ((λ id, [id]) <$> endpointId)) ∧
  opens (recoveryTo endpointId) (u! "/") (λ p, tf_valid (readTimeFilter p) = true ∧
    tf_query (readTimeFilter p) = mkTimeQuery Preset_LATEST_7D None None ∧ readOverviewEndpointId p = endpointId).
Proof.
  intros Hok Hv Hid time. pose proof (valid_range params Hok Hv) as Ht. fold time in Ht. split_and!.
  - apply (alerts_link _ _ [] [] time endpointId None); [by vm_compute..|done|done].
  - apply (alerts_link _ _ [u! "severity=CRITICAL"] [(u! "severity", u! "CRITICAL")] time endpointId (Some Severity_CRITICAL)); [by vm_compute..|done|done].
  - by apply incidents_link.
  - by apply endpoints_link.
  - by apply recovery_link.
Qed.

Lemma overview_links_open_witness :
  let params := [(u! "timePreset", u! "CUSTOM"); (u! "from", u! "2026-07-15T00:00:00Z"); (u! "to", u! "2026-07-16T00:00:00Z")] in
  let time := tf_query (@readTimeFilter utc_host params) in
  opens (kpi_to (critical_card (mkDashboardData (mkTotals 3 2 1 0 0) []) time (Some 7))) (u! "/alerts")
    (λ p, @alerts_invalid utc_host p = false ∧ @alerts_query utc_host p =
       mkAlertListQuery time 1 50 AlertSort_priority Order_desc None (Some Severity_CRITICAL) (Some 7) None).
Proof.
  intros params time.
  refine (proj1 (proj2 (@overview_links_open utc_host params _ (mkEndpointSummary 0 0 0) (Some 7) _ _ _))).
  - repeat (apply Forall_cons; split; [split; apply well_formed_ascii; by_compute|]). by apply Forall_nil.
  - vm_compute. reflexivity.
  - cbn. lia.
Defined.
