(* ===== verification/Routes.v ===== *)
(** * Routes and signing in

    Models frontend/src/App.tsx (the route table and its guard) and
    frontend/src/pages/LoginPage.tsx (the sign-in form), with the redirects between
    them. The route matcher is react-router's: a class states what the table relies
    on, and a first-match router shows that it can hold. *)

From S2P Require Import Prelude JsNumber JsDate Json WebStorage Url Contracts ApiClient UrlState Shell Investigation Pickers Auth.

#[local] Open Scope list_scope.
#[local] Open Scope Z_scope.

(** ** The table *)

Inductive Segment := Static (text : ustring) | Param (name : ustring) | Splat.
#[export] Instance Segment_eq_dec : EqDecision Segment.
Proof. solve_decision. Defined.
Definition Pattern := list Segment.

Inductive PageName :=
| OverviewPage | DashboardManagementPage | AlertsPage | AlertDetailPage | IncidentsPage | IncidentDetailPage
| EndpointsPage | EndpointDetailPage | EventsPage | EventDetailPage | IntelligencePage | OperationsPage | ArchivesPage.
#[export] Instance PageName_eq_dec : EqDecision PageName.
Proof. solve_decision. Defined.
Inductive RouteElement := LoginElement | Guarded (page : PageName) | NavigateHome.

Definition ROUTES : list (Pattern * RouteElement) :=
  [([Static (u! "login")], LoginElement);
   ([], Guarded OverviewPage);
   ([Static (u! "dashboards")], Guarded DashboardManagementPage);
   ([Static (u! "alerts")], Guarded AlertsPage);
   ([Static (u! "alerts"); Param (u! "alertId")], Guarded AlertDetailPage);
   ([Static (u! "incidents")], Guarded IncidentsPage);
   ([Static (u! "incidents"); Param (u! "incidentId")], Guarded IncidentDetailPage);
   ([Static (u! "endpoints")], Guarded EndpointsPage);
   ([Static (u! "endpoints"); Param (u! "endpointId")], Guarded EndpointDetailPage);
   ([Static (u! "events")], Guarded EventsPage);
   ([Static (u! "events"); Param (u! "eventId")], Guarded EventDetailPage);
   ([Static (u! "intelligence")], Guarded IntelligencePage);
   ([Static (u! "operations")], Guarded OperationsPage);
   ([Static (u! "operations"); Static (u! "archives")], Guarded ArchivesPage);
   ([Splat], NavigateHome)].

(** ** What is expected of the router *)

(** A segment that is written in a path as it is. *)
Definition safe_segment (s : ustring) : bool :=
  truthy s && forallb component_safe s && negb (bool_decide (s = u! ".")) && negb (bool_decide (s = u! "..")).
Definition path_of (segments : list ustring) : ustring := 47 :: join [47] segments.

Fixpoint matches (same : ustring → ustring → bool) (pattern : Pattern) (segments : list ustring) : bool :=
  match pattern, segments with
  | [], [] => true
  | Static text :: p, s :: r => same text s && matches same p r
  | Param _ :: p, s :: r => truthy s && matches same p r
  | _, _ => false
  end.
Definition same_exactly (a b : ustring) : bool := bool_decide (a = b).
Definition same_folded (a b : ustring) : bool := bool_decide (ascii_lower a = ascii_lower b).
Fixpoint captures (pattern : Pattern) (segments : list ustring) : list (ustring * ustring) :=
  match pattern, segments with
  | Param name :: p, s :: r => (name, s) :: captures p r
  | _ :: p, _ :: r => captures p r
  | _, _ => []
  end.

(** Matching finds the only pattern that fits a path, whose static parts are compared
    without case, and something when the table has a splat; a link is cut into its
    path and search. *)
Class Router := {
  matchRoutes : list Pattern → ustring → option (nat * list (ustring * ustring));
  parsePath : ustring → ustring * ustring;
  match_only : ∀ table i pattern segments, table !! i = Some pattern → forallb safe_segment segments = true →
    matches same_exactly pattern segments = true →
    (∀ j q, table !! j = Some q → matches same_folded q segments = true → j = i) →
    matchRoutes table (path_of segments) = Some (i, captures pattern segments);
  match_splat : ∀ table path, [Splat] ∈ table → ∃ i captured, matchRoutes table path = Some (i, captured) ∧ (i < length table)%nat;
  parse_path : ∀ path search, 35 ∉ path → 63 ∉ path → 35 ∉ search → search ≠ [] →
    parsePath path = (path, []) ∧ parsePath (path ++ 63 :: search) = (path, 63 :: search);
}.

(** ** The guarded application *)

(** A location's state may hold the intended location. *)
Record AppLocation := mkAppLocation { loc_path : ustring; loc_query : ustring; loc_intended : option ustring }.

Inductive View := ShowLogin (intended : option ustring) | ShowPage (page : PageName) (captured : list (ustring * ustring)) | NavigateTo (to : AppLocation).

Section router.
Context `{Router}.

Definition route_of (path : ustring) : option (RouteElement * list (ustring * ustring)) :=
  '(i, captured) ← matchRoutes (map fst ROUTES) path;
  route ← ROUTES !! i; Some (route.2, captured).

Definition App (auth : AuthState) (loc : AppLocation) : option View :=
  '(element, captured) ← route_of (loc_path loc);
  Some match element with
       | LoginElement => ShowLogin (loc_intended loc)
       | Guarded page =>
         match RequireAuth auth (loc_path loc) (loc_query loc) with
         | Children => ShowPage page captured
         | NavigateToLogin intended => NavigateTo (mkAppLocation (u! "/login") [] intended)
         end
       | NavigateHome => NavigateTo (mkAppLocation (u! "/") [] None)
       end.

(** Following redirects; [None] when they do not end. *)
Fixpoint follow (fuel : nat) (auth : AuthState) (loc : AppLocation) : option View :=
  match fuel with
  | O => None
  | S fuel =>
    view ← App auth loc;
    match view with NavigateTo to => follow fuel auth to | _ => Some view end
  end.

(** [navigate(to)] *)
Definition navigate (to : ustring) : AppLocation :=
  let '(path, search) := parsePath to in mkAppLocation path search None.

(** ** The sign-in form *)

Record LoginForm := mkLoginForm { loginId : ustring; password : ustring; loading : bool; login_error : option ApiError }.
Definition login_mount : LoginForm := mkLoginForm [] [] false None.

Inductive LoginEvent :=
| SetLoginId (value : ustring) | SetPassword (value : ustring) | SubmitForm | LoginAnswered (failure : option Rejection).
Inductive LoginAction := CallLoginApi (loginId password : ustring) | Leave (to : AppLocation).

Definition empty_fields : ApiError :=
  mkApiError 400 (u! "VALIDATION_ERROR") (u! "Enter both login ID and password.") false [] None None.

Definition submit (form : LoginForm) : LoginForm * option LoginAction :=
  if negb (truthy (trim (loginId form))) || negb (truthy (password form))
  then (mkLoginForm (loginId form) (password form) (loading form) (Some empty_fields), None)
  else (mkLoginForm (loginId form) (password form) true None, Some (CallLoginApi (loginId form) (password form))).

(** What follows the call of [auth.login]; the intended location is the location's state. *)
Definition answered (intended : option ustring) (form : LoginForm) (failure : option Rejection) : LoginForm * option LoginAction :=
  match failure with
  | None => (mkLoginForm (loginId form) (password form) false (login_error form), Some (Leave (navigate (default (u! "/") intended))))
  | Some r => (mkLoginForm (loginId form) (password form) false (match r with RApi e => Some e | _ => None end), None)
  end.

(** [minLength={3}] of the first field and the fields' [maxLength]: a browser lets no more
    be typed, and submits no form with a field that was left too short; an empty field is
    not too short. *)
Definition LOGIN_ID_MIN : nat := 3.
Definition LOGIN_ID_MAX : nat := 64.
Definition PASSWORD_MAX : nat := 1024.
Definition tooShort (value : ustring) : bool := truthy value && (length value <? LOGIN_ID_MIN)%nat.

(** The button of a loading form is disabled, and so is submitting it. *)
Definition login_step (intended : option ustring) (form : LoginForm) (ev : LoginEvent) : LoginForm * option LoginAction :=
  match ev with
  | SetLoginId value =>
    (if (length value <=? LOGIN_ID_MAX)%nat then mkLoginForm value (password form) (loading form) (login_error form) else form, None)
  | SetPassword value =>
    (if (length value <=? PASSWORD_MAX)%nat then mkLoginForm (loginId form) value (loading form) (login_error form) else form, None)
  | SubmitForm => if loading form || tooShort (loginId form) then (form, None) else submit form
  | LoginAnswered failure => if loading form then answered intended form failure else (form, None)
  end.
Fixpoint login_run (intended : option ustring) (form : LoginForm) (events : list LoginEvent) : LoginForm * list LoginAction :=
  match events with
  | [] => (form, [])
  | ev :: rest =>
    let '(form', action) := login_step intended form ev in
    let '(final, actions) := login_run intended form' rest in
    (final, match action with Some a => a :: actions | None => actions end)
  end.
End router.

(** ** Lemmas on the table *)

Ltac only_route :=
  let j := fresh "j" in let q := fresh "q" in let Hj := fresh "Hj" in let Hm := fresh "Hm" in
  intros j q Hj Hm;
  do 15 (destruct j as [|j]; [injection Hj as <-; (reflexivity || (exfalso; vm_compute in Hm; discriminate Hm))|]);
  destruct j; discriminate Hj.

Section table.
Context `{Router}.

Lemma route_found i pattern element segments :
  ROUTES !! i = Some (pattern, element) → forallb safe_segment segments = true → matches same_exactly pattern segments = true →
  (∀ j q, map fst ROUTES !! j = Some q → matches same_folded q segments = true → j = i) →
  route_of (path_of segments) = Some (element, captures pattern segments).
Proof.
  intros Hi Hs Hm Ho. unfold route_of. rewrite (match_only (map fst ROUTES) i pattern segments); [|change (map fst ROUTES) with (fst <$> ROUTES); by rewrite list_lookup_fmap, Hi|done..].
  cbn [mbind option_bind]. by rewrite Hi.
Qed.

Lemma login_route : route_of (u! "/login") = Some (LoginElement, []).
Proof. apply (route_found 0 _ _ [u! "login"] eq_refl); [by vm_compute|by vm_compute|only_route]. Qed.

Lemma home_route : route_of (u! "/") = Some (Guarded OverviewPage, []).
Proof. apply (route_found 1 _ _ [] eq_refl); [done|done|only_route]. Qed.

(** The static pages, by their path below the root. *)
Definition STATIC_PAGES : list (list ustring * PageName) :=
  [([], OverviewPage); ([u! "dashboards"], DashboardManagementPage); ([u! "alerts"], AlertsPage);
   ([u! "incidents"], IncidentsPage); ([u! "endpoints"], EndpointsPage); ([u! "events"], EventsPage);
   ([u! "intelligence"], IntelligencePage); ([u! "operations"], OperationsPage);
   ([u! "operations"; u! "archives"], ArchivesPage)].
Definition DETAIL_PAGES : list (ustring * ustring * PageName) :=
  [(u! "alerts", u! "alertId", AlertDetailPage); (u! "incidents", u! "incidentId", IncidentDetailPage);
   (u! "endpoints", u! "endpointId", EndpointDetailPage); (u! "events", u! "eventId", EventDetailPage)].

Lemma static_route segments page : (segments, page) ∈ STATIC_PAGES →
  route_of (path_of segments) = Some (Guarded page, []).
Proof.
  intros Hin. unfold STATIC_PAGES in Hin.
  repeat (apply elem_of_cons in Hin as [[= -> ->]|Hin]); [..|by apply elem_of_nil in Hin].
  1: apply (route_found 1 _ _ [] eq_refl). 4: apply (route_found 2 _ _ [_] eq_refl). 7: apply (route_found 3 _ _ [_] eq_refl).
  10: apply (route_found 5 _ _ [_] eq_refl). 13: apply (route_found 7 _ _ [_] eq_refl). 16: apply (route_found 9 _ _ [_] eq_refl).
  19: apply (route_found 11 _ _ [_] eq_refl). 22: apply (route_found 12 _ _ [_] eq_refl). 25: apply (route_found 13 _ _ [_; _] eq_refl).
  all: first [by vm_compute|only_route].
Qed.

Lemma detail_route kind name page id : (kind, name, page) ∈ DETAIL_PAGES → safe_segment id = true →
  route_of (path_of [kind; id]) = Some (Guarded page, [(name, id)]).
Proof.
  intros Hin Hid. assert (truthy id = true) as Ht by (unfold safe_segment in Hid; rewrite !andb_true_iff in Hid; tauto).
  unfold DETAIL_PAGES in Hin. repeat (apply elem_of_cons in Hin as [[= -> -> ->]|Hin]); [..|by apply elem_of_nil in Hin].
  1: apply (route_found 4 _ _ [_; id] eq_refl). 4: apply (route_found 6 _ _ [_; id] eq_refl).
  7: apply (route_found 8 _ _ [_; id] eq_refl). 10: apply (route_found 10 _ _ [_; id] eq_refl).
  all: first [only_route|cbn [forallb]; rewrite Hid; by vm_compute|unfold same_exactly; cbn [matches]; by rewrite Ht, bool_decide_true].
Qed.
End table.

(** ** A router *)

Fixpoint cut (c : Z) (s : ustring) : ustring * ustring :=
  match s with
  | [] => ([], [])
  | x :: r => if x =? c then ([], s) else let '(a, b) := cut c r in (x :: a, b)
  end.

Lemma cut_free c s : c ∉ s → cut c s = (s, []).
Proof.
  induction s as [|x s IH]; intros Hn; [done|]. apply not_elem_of_cons in Hn as [Hx Hn]. cbn.
  by rewrite (proj2 (Z.eqb_neq x c)), IH by done.
Qed.

Lemma cut_at c s r : c ∉ s → cut c (s ++ c :: r) = (s, c :: r).
Proof.
  induction s as [|x s IH]; intros Hn; cbn; [by rewrite Z.eqb_refl|]. apply not_elem_of_cons in Hn as [Hx Hn].
  by rewrite (proj2 (Z.eqb_neq x c)), IH by done.
Qed.

Fixpoint first_match (n : nat) (table : list Pattern) (segments : list ustring) : option (nat * list (ustring * ustring)) :=
  match table with
  | [] => None
  | p :: rest => if matches same_exactly p segments then Some (n, captures p segments) else first_match (S n) rest segments
  end.
Fixpoint splat_index (n : nat) (table : list Pattern) : option nat :=
  match table with [] => None | p :: rest => if bool_decide (p = [Splat]) then Some n else splat_index (S n) rest end.

Definition first_router (table : list Pattern) (path : ustring) : option (nat * list (ustring * ustring)) :=
  match first_match 0 table (js_filter truthy (split_on 47 path)) with
  | Some found => Some found
  | None => i ← splat_index 0 table; Some (i, [])
  end.

Lemma matches_folded p segments : matches same_exactly p segments = true → matches same_folded p segments = true.
Proof.
  revert segments. induction p as [|[text|name|] p IH]; intros [|s r]; cbn; try done; rewrite !andb_true_iff; intros [Hs Hr]; split; auto.
  unfold same_exactly, same_folded in *. apply bool_decide_eq_true in Hs as ->. by apply bool_decide_eq_true.
Qed.

Lemma first_match_only n table i p segments : table !! i = Some p → matches same_exactly p segments = true →
  (∀ j q, table !! j = Some q → matches same_folded q segments = true → j = i) →
  first_match n table segments = Some ((n + i)%nat, captures p segments).
Proof.
  revert n i. induction table as [|q table IH]; intros n i Hi Hm Ho; [done|]. cbn [first_match].
  destruct (matches same_exactly q segments) eqn:E.
  - pose proof (Ho 0%nat q eq_refl (matches_folded _ _ E)) as <-. injection Hi as ->. by rewrite Nat.add_0_r.
  - destruct i as [|i]; [injection Hi as ->; congruence|]. rewrite (IH (S n) i Hi Hm); [do 2 f_equal; lia|].
    intros j q' Hj Hq'. pose proof (Ho (S j) q' Hj Hq'). lia.
Qed.

Lemma first_match_lt n table segments i captured : first_match n table segments = Some (i, captured) → (i < n + length table)%nat.
Proof.
  revert n. induction table as [|q table IH]; intros n; [done|]. cbn. case_match; [intros [= <- _]; lia|]. intros Hi%IH. lia.
Qed.

Lemma splat_index_lt n table : [Splat] ∈ table → ∃ i, splat_index n table = Some i ∧ (i < n + length table)%nat.
Proof.
  revert n. induction table as [|q table IH]; intros n Hin; [by apply elem_of_nil in Hin|]. cbn.
  case_bool_decide as Hq; [eexists; split; [done|lia]|]. apply elem_of_cons in Hin as [Heq|Hin]; [congruence|].
  destruct (IH (S n) Hin) as (i & Hi & Hlt). exists i. split; [done|lia].
Qed.

Lemma safe_segment_spec s : safe_segment s = true → s ≠ [] ∧ 47 ∉ s ∧ 63 ∉ s ∧ 35 ∉ s.
Proof.
  unfold safe_segment. rewrite !andb_true_iff, truthy_true, forallb_forall. intros [[[Hne Hs] _] _].
  split; [done|]. assert (∀ c, component_safe c = false → c ∉ s) as Hn
    by (intros c Hc Hin%list_elem_of_In; apply Hs in Hin; congruence).
  split_and!; by apply Hn.
Qed.

Lemma path_segments segments : forallb safe_segment segments = true →
  js_filter truthy (split_on 47 (path_of segments)) = segments.
Proof.
  intros Hs. rewrite forallb_forall in Hs.
  assert (∀ s, s ∈ segments → s ≠ [] ∧ 47 ∉ s) as Hseg by (intros s Hin; destruct (safe_segment_spec s) as (? & ? & _); [by apply Hs, list_elem_of_In|done]).
  unfold path_of. change (47 :: join [47] segments) with ([] ++ 47 :: join [47] segments).
  rewrite split_on_app by apply not_elem_of_nil. rewrite js_filter_cons. cbn [truthy].
  destruct segments as [|s r]; [done|]. rewrite split_on_join; [|done|apply Forall_forall; intros p Hp; by apply Hseg].
  apply js_filter_all. intros p Hp. apply truthy_true. by apply Hseg.
Qed.

#[export] Program Instance reference_router : Router := {|
  matchRoutes := first_router;
  parsePath := λ s, cut 63 (cut 35 s).1;
|}.
Next Obligation.
  intros table i p segments Hi Hs Hm Ho. unfold first_router. rewrite path_segments by done. by rewrite (first_match_only 0 table i p).
Qed.
Next Obligation.
  intros table path Hin. unfold first_router. destruct (first_match _ _ _) as [[i captured]|] eqn:E.
  - exists i, captured. split; [done|]. by apply first_match_lt in E.
  - destruct (splat_index_lt 0 table Hin) as (i & -> & Hlt). by exists i, [].
Qed.
Next Obligation.
  intros path search H35 H63 Hs Hne. cbn. split.
  - by rewrite (cut_free 35), cut_free by done.
  - rewrite (cut_free 35); [cbn [fst]; by rewrite cut_at|]. rewrite not_elem_of_app, not_elem_of_cons. done.
Qed.

(** ** Claims *)

Section claims.
Context `{Router}.

Lemma App_total auth loc : ∃ view, App auth loc = Some view ∧
  match view with
  | NavigateTo to => to = mkAppLocation (u! "/") [] None ∨
      (∃ intended, RequireAuth auth (loc_path loc) (loc_query loc) = NavigateToLogin intended ∧ to = mkAppLocation (u! "/login") [] intended)
  | ShowPage _ _ => RequireAuth auth (loc_path loc) (loc_query loc) = Children
  | ShowLogin _ => True
  end.
Proof.
  destruct (match_splat (map fst ROUTES) (loc_path loc)) as (i & captured & Hm & Hi); [by_compute|].
  unfold App, route_of. rewrite Hm. cbn [mbind option_bind]. rewrite length_map in Hi. apply lookup_lt_is_Some_2 in Hi as [[p element] ->].
  cbn [mbind option_bind snd]. destruct element as [|page|].
  - by eexists.
  - destruct (RequireAuth _ _ _) as [|intended] eqn:E; [by eexists|]. eexists. split; [done|]. right. by exists intended.
  - eexists. split; [done|]. by left.
Qed.

Lemma follow_login n auth query intended : follow (S n) auth (mkAppLocation (u! "/login") query intended) = Some (ShowLogin intended).
Proof. cbn [follow]. unfold App. cbn [loc_path]. by rewrite login_route. Qed.

Lemma follow_guarded n auth path query state page captured : route_of path = Some (Guarded page, captured) →
  follow (S (S n)) auth (mkAppLocation path query state) = Some
    match RequireAuth auth path query with Children => ShowPage page captured | NavigateToLogin intended => ShowLogin intended end.
Proof.
  intros Hr. set (loc := mkAppLocation path query state).
  assert (App auth loc = Some match RequireAuth auth path query with Children => ShowPage page captured
    | NavigateToLogin intended => NavigateTo (mkAppLocation (u! "/login") [] intended) end) as Ha by (unfold App; cbn [loc loc_path loc_query]; by rewrite Hr).
  change (follow (S (S n)) auth loc) with (App auth loc ≫= λ view, match view with NavigateTo to => follow (S n) auth to | _ => Some view end).
  rewrite Ha. cbn [mbind option_bind]. destruct (RequireAuth auth path query) as [|intended]; [done|]. apply follow_login.
Qed.

(** Signing in replaces the session, whatever was queued before. *)
Lemma login_token id data now now' auth rest : take_pending id (pending auth) = Some (PLogin, rest) →
  session_token (session (render now' (handle (LoginReceived id data now) auth))) = Some (resp_accessToken data).
Proof.
  intros Hp. cbn [handle]. rewrite Hp, render_token. unfold login_received. cbn [queue with_pending session].
  by rewrite queued_token_snoc.
Qed.

Lemma require_children auth path query t : session_token (session auth) = Some t → truthy t = true → RequireAuth auth path query = Children.
Proof. unfold RequireAuth. intros Ht Hr. destruct (session auth) as [s|]; [|done]. rewrite Ht. cbn. by rewrite Hr. Qed.

Lemma page_of_number n : 0 < n ≤ 2 ^ 53 → safe_segment (string_of_Z n) = true ∧ positive_int (number_of (string_of_Z n)) = Some n.
Proof.
  intros Hn. pose proof (string_of_Z_digits n ltac:(lia)) as Hd. split; [|rewrite number_of_string_of_Z by done; apply positive_int_Z; lia].
  assert (string_of_Z n ≠ []) as Hne by (unfold string_of_Z; rewrite (proj2 (Z.ltb_ge n 0)) by lia; by destruct (dec_string_spec n ltac:(lia)) as (_ & ? & _)).
  unfold safe_segment. rewrite (proj2 (truthy_true _) Hne). cbn [andb].
  rewrite !andb_true_iff, !negb_true_iff, !bool_decide_eq_false, forallb_forall. rewrite Forall_forall in Hd.
  split_and!; [|intros E; rewrite E in Hd; by specialize (Hd 46 (list_elem_of_here _ _))..].
  intros c Hc%list_elem_of_In. apply Hd in Hc. unfold is_digit in Hc. unfold component_safe. by rewrite Hc.
Qed.
End claims.

(** the redirects of the application end, after two at most, at the sign-in form or
    at a page; and a page is only shown for a location the guard lets through. *)
Theorem routing_ends `{Router} auth loc :
  ∃ view, follow 3 auth loc = Some view ∧
    match view with
    | NavigateTo _ => False
    | ShowPage _ _ => ∃ path query, RequireAuth auth path query = Children
    | ShowLogin _ => True
    end.
Proof.
  destruct (App_total auth loc) as (view & Ha & Hv).
  assert (follow 3 auth loc = match view with NavigateTo to => follow 2 auth to | _ => Some view end) as Hf
    by (cbn [follow]; rewrite Ha; by destruct view).
  rewrite Hf. destruct view as [intended|page captured|to].
  { by eexists. }
  { exists (ShowPage page captured). split; [done|]. by exists (loc_path loc), (loc_query loc). }
  destruct Hv as [->|(intended & _ & ->)].
  - rewrite (follow_guarded 0 auth _ _ _ _ _ home_route). eexists. split; [done|].
    destruct (RequireAuth auth (u! "/") []) eqn:E; [by exists (u! "/"), []|done].
  - rewrite follow_login. by eexists.
Qed.

(** A location that is written as a link: a plain path, and a search or none. *)
Definition location_ok (path query : ustring) : Prop :=
  35 ∉ path ∧ 63 ∉ path ∧ (query = [] ∨ ∃ search, query = 63 :: search ∧ search ≠ [] ∧ 35 ∉ search).

Lemma navigate_back `{Router} path query : location_ok path query → navigate (path ++ query) = mkAppLocation path query None.
Proof.
  intros (H35 & H63 & Hq). unfold navigate. destruct Hq as [->|(search & -> & Hne & Hs)].
  - rewrite app_nil_r. destruct (parse_path path [0] H35 H63) as [-> _]; [intros E%list_elem_of_singleton; done|done|done].
  - by destruct (parse_path path search H35 H63 Hs Hne) as [_ ->].
Qed.

(** C25: signing in leads back. Without a session, a page's location leads to the sign-in
    form, which remembers the location, unless the user has logged out. Of a login ID and a
    password that fit their fields, submitting them asks for a session exactly when the ID
    has at least three characters and is not blank and there is a password; an ID of one
    or two characters is kept from being submitted by the browser, and otherwise the form
    says that both are to be entered. When the session arrives, whatever else happened in
    between, the form leads to the remembered location and that page is shown, or else to
    the overview. *)
Theorem login_returns `{Router} auth path query state page captured :
  session auth = None → route_of path = Some (Guarded page, captured) → location_ok path query →
  let intended := if preserveIntended auth then Some (path ++ query) else None in
  follow 2 auth (mkAppLocation path query state) = Some (ShowLogin intended) ∧
  (∀ id secret, (length id ≤ LOGIN_ID_MAX)%nat → (length secret ≤ PASSWORD_MAX)%nat →
    let run := login_run intended login_mount [SetLoginId id; SetPassword secret; SubmitForm] in
    if (0 <? length id)%nat && (length id <? 3)%nat then run = (mkLoginForm id secret false None, [])
    else if truthy (trim id) && truthy secret then
      run = (mkLoginForm id secret true None, [CallLoginApi id secret]) ∧
      login_run intended run.1 [LoginAnswered None] = (mkLoginForm id secret false None, [Leave (navigate (default (u! "/") intended))])
    else run = (mkLoginForm id secret false (Some empty_fields), [])) ∧
  (∀ auth' id data now now' rest, take_pending id (pending auth') = Some (PLogin, rest) → truthy (resp_accessToken data) = true →
    follow 2 (render now' (handle (LoginReceived id data now) auth')) (navigate (default (u! "/") intended)) =
      Some (if preserveIntended auth then ShowPage page captured else ShowPage OverviewPage [])).
Proof.
  intros Hs Hr Hl intended. split_and!.
  - rewrite (follow_guarded 0 auth _ _ _ _ _ Hr). unfold RequireAuth. by rewrite Hs.
  - intros id secret Hid%Nat.leb_le Hsecret%Nat.leb_le. cbn [login_run login_step login_mount loginId password loading login_error].
    rewrite Hid, Hsecret. cbn [loginId password loading login_error].
    assert (tooShort id = (0 <? length id)%nat && (length id <? 3)%nat) as -> by by destruct id.
    destruct ((0 <? length id)%nat && (length id <? 3)%nat); [done|]. cbn [orb]. unfold submit. cbn [loginId password].
    by destruct (truthy (trim id)), (truthy secret).
  - intros auth' id data now now' rest Hp Ht. pose proof (login_token id data now now' auth' rest Hp) as Htoken. unfold intended.
    destruct (preserveIntended auth).
    + change (default (u! "/") (Some (path ++ query))) with (path ++ query). rewrite navigate_back, (follow_guarded 0 _ _ _ _ _ _ Hr) by done. by rewrite (require_children _ _ _ _ Htoken Ht).
    + change (default (u! "/") None) with (u! "/" ++ []). rewrite navigate_back.
      * rewrite (follow_guarded 0 _ _ _ _ _ _ home_route). by rewrite (require_children _ _ _ _ Htoken Ht).
      * split_and!; [by_compute..|by left].
Qed.

Definition no_session : AuthState := mount 0 (mkStorage [] false (λ _ _, false)).

Lemma login_returns_witness :
  login_run (Some (u! "/alerts/7?page=2")) login_mount [SetLoginId (u! "kim"); SetPassword (u! "secret"); SubmitForm] =
    (mkLoginForm (u! "kim") (u! "secret") true None, [CallLoginApi (u! "kim") (u! "secret")]) ∧
  login_run (Some (u! "/alerts/7?page=2")) login_mount [SetLoginId (u! "ab"); SetPassword (u! "secret"); SubmitForm] =
    (mkLoginForm (u! "ab") (u! "secret") false None, []) ∧
  follow 2 no_session (mkAppLocation (u! "/alerts/7") (u! "?page=2") None) = Some (ShowLogin (Some (u! "/alerts/7?page=2"))) ∧
  follow 2 (render 9 (handle (LoginReceived 0 (mkLoginResponse (u! "t") JNull 60) 5) (handle CallLogin no_session)))
    (navigate (u! "/alerts/7?page=2")) = Some (ShowPage AlertDetailPage [(u! "alertId", u! "7")]).
Proof.
  destruct (login_returns no_session (u! "/alerts/7") (u! "?page=2") None AlertDetailPage [(u! "alertId", u! "7")]) as (H1 & H3 & H2).
  - vm_compute. reflexivity.
  - vm_compute. reflexivity.
  - split; [by_compute|]. split; [by_compute|].
    right. exists (u! "page=2"). split; [reflexivity|]. split; [discriminate|by_compute].
  - split; [exact (proj1 (H3 (u! "kim") (u! "secret") ltac:(vm_compute; lia) ltac:(vm_compute; lia)))|].
    split; [exact (H3 (u! "ab") (u! "secret") ltac:(vm_compute; lia) ltac:(vm_compute; lia))|].
    split; [exact H1|]. apply (H2 _ 0%nat (mkLoginResponse (u! "t") JNull 60) 5 9 []); vm_compute; reflexivity.
Defined.

(** What a link opens: the page, what its path captures, and its query. *)
Definition open_link `{Router} (to : ustring) : option (PageName * list (ustring * ustring) * URLSearchParams) :=
  let loc := navigate to in
  '(element, captured) ← route_of (loc_path loc);
  match element with Guarded page => Some (page, captured, params_of_string (loc_query loc)) | _ => None end.

Lemma open_plain `{Router} path element captured : 35 ∉ path → 63 ∉ path → route_of path = Some (Guarded element, captured) →
  open_link path = Some (element, captured, []).
Proof.
  intros H35 H63 Hr. unfold open_link.
  assert (navigate path = mkAppLocation path [] None) as -> by (rewrite <- (app_nil_r path) at 1; apply navigate_back; split_and!; [done|done|by left]).
  cbn [loc_path loc_query]. by rewrite Hr.
Qed.

Lemma open_query `{Router} path query element captured : 35 ∉ path → 63 ∉ path → route_of path = Some (Guarded element, captured) →
  query ≠ [] → 35 ∉ query → open_link (path ++ 63 :: query) = Some (element, captured, params_of_string (63 :: query)).
Proof.
  intros H35 H63 Hr Hne Hq. unfold open_link. rewrite navigate_back by (split_and!; [done|done|right; by eexists]).
  cbn [loc_path loc_query]. by rewrite Hr.
Qed.

(** The path of a detail page is plain. *)
Lemma detail_path kind name page id : (kind, name, page) ∈ DETAIL_PAGES → safe_segment id = true →
  let path := u! "/" ++ kind ++ u! "/" ++ id in 35 ∉ path ∧ 63 ∉ path ∧ path = path_of [kind; id].
Proof.
  intros Hin Hid. destruct (safe_segment_spec id Hid) as (_ & _ & H63 & H35).
  assert (35 ∉ kind ∧ 63 ∉ kind) as [K35 K63].
  { unfold DETAIL_PAGES in Hin. repeat (apply elem_of_cons in Hin as [[= -> _ _]|Hin]; [split; by_compute|]).
    by apply elem_of_nil in Hin. }
  assert (∀ c, c ∉ kind → c ∉ id → c ≠ 47 → c ∉ u! "/" ++ kind ++ u! "/" ++ id) as Hc.
  { intros c H1 H2 H3. rewrite !elem_of_app. assert (c ∉ u! "/") by (by intros ->%list_elem_of_singleton). tauto. }
  split_and!; [by apply Hc|by apply Hc|reflexivity].
Qed.

(** The link of a record, with its list's query and the record selected in it. *)
Lemma open_selected `{Router} kind name page n params :
  (kind, name, page) ∈ DETAIL_PAGES → params_ok params → 0 < n ≤ 2 ^ 53 →
  let next := params_set (u! "selected") (string_of_Z n) params in
  open_link ((u! "/" ++ kind ++ u! "/" ++ string_of_Z n) ++ 63 :: params_string next) = Some (page, [(name, string_of_Z n)], next) ∧
  params_get next (u! "selected") = Some (string_of_Z n) ∧ truthy (params_string next) = true.
Proof.
  intros Hin Hok Hn next. destruct (page_of_number n Hn) as [Hs _]. destruct (detail_path _ _ _ _ Hin Hs) as (P35 & P63 & Hp).
  assert (params_ok next) as Hnext.
  { apply params_ok_set; [|apply well_formed_units, well_formed_ascii, string_of_Z_ascii|done].
    apply well_formed_units, well_formed_ascii. by_compute. }
  assert (params_get next (u! "selected") = Some (string_of_Z n)) as Hsel.
  { unfold next. rewrite params_get_set, decide_True by done. f_equal. apply usv_lit_units, string_of_Z_ascii. }
  assert (params_string next ≠ []) as Hne by (apply params_string_nonempty; intros E; by rewrite E in Hsel).
  split_and!; [|done|by apply truthy_true].
  rewrite (open_query _ _ page [(name, string_of_Z n)]); [|done|done| |done|by apply params_string_no_hash].
  - by rewrite (proj2 (params_of_string_string next Hnext)).
  - rewrite Hp. by eapply detail_route.
Qed.

Lemma open_record `{Router} kind name page n : (kind, name, page) ∈ DETAIL_PAGES → 0 < n ≤ 2 ^ 53 →
  open_link (u! "/" ++ kind ++ u! "/" ++ string_of_Z n) = Some (page, [(name, string_of_Z n)], []).
Proof.
  intros Hin Hn. destruct (page_of_number n Hn) as [Hs _]. destruct (detail_path _ _ _ _ Hin Hs) as (P35 & P63 & Hp).
  apply open_plain; [done|done|]. rewrite Hp. by eapply detail_route.
Qed.

Lemma encoded_no_hash s e : units_ok s → encodeURIComponent s = Some e → 35 ∉ e.
Proof. intros Hs He Hin. destruct (encodeURIComponent_safe s e 35 Hs He Hin) as [Hc|Hc]; [by vm_compute in Hc|done]. Qed.

(** The pages of the navigation, in its order. *)
Definition NAVIGATION_PAGES : list PageName :=
  [OverviewPage; AlertsPage; IncidentsPage; EndpointsPage; EventsPage; IntelligencePage; OperationsPage; ArchivesPage].

Lemma open_navigation `{Router} p item page : params_ok p → p ≠ [] → (item, page) ∈ zip NAVIGATION_ITEMS NAVIGATION_PAGES →
  open_link (navigationDestination (nav_to item) (params_string p)) =
    Some (page, [], if str_in (nav_to item) TIME_SCOPED_ROUTES then p else []).
Proof.
  intros Hok Hne Hin. pose proof (params_string_nonempty p Hne) as Hs. pose proof (params_string_no_hash p Hok) as Hh.
  assert (∃ segments, (segments, page) ∈ STATIC_PAGES ∧ nav_to item = path_of segments) as (segments & Hp & ->).
  { assert (forallb (λ entry, js_some (λ static, bool_decide (nav_to entry.1 = path_of static.1) && bool_decide (entry.2 = static.2)) STATIC_PAGES)
      (zip NAVIGATION_ITEMS NAVIGATION_PAGES) = true) as Hall by (vm_compute; reflexivity).
    rewrite forallb_forall in Hall. specialize (Hall _ (proj1 (list_elem_of_In _ _) Hin)). apply js_some_true in Hall as ([segments page'] & Hst & Heq).
    breflect. cbn [fst snd] in *. subst page'. by exists segments. }
  assert (35 ∉ path_of segments ∧ 63 ∉ path_of segments) as [P35 P63].
  { unfold STATIC_PAGES in Hp. repeat (apply elem_of_cons in Hp as [[= -> _]|Hp]; [split; by_compute|]).
    by apply elem_of_nil in Hp. }
  pose proof (static_route segments page Hp) as Hr. unfold navigationDestination. destruct (str_in _ _).
  - change (u! "?" ++ params_string p) with (63 :: params_string p). rewrite (open_query _ _ page []) by done.
    by rewrite (proj2 (params_of_string_string p Hok)).
  - by apply open_plain.
Qed.

Lemma open_event `{Router} `{DateHost} eventId endpointId occurredAt link :
  event_link eventId endpointId occurredAt = Some link → safe_segment eventId = true → readable endpointId occurredAt →
  ∃ query, open_link link = Some (EventDetailPage, [(u! "eventId", eventId)], query) ∧
    validEventDetailQuery query = true ∧ positiveInteger (params_get query (u! "endpointId")) = Some endpointId ∧
    params_get query (u! "occurredAt") = Some occurredAt.
Proof.
  intros Hl Hs Hr. pose proof Hr as (Hid & Hu & _).
  destruct (event_link_opens eventId endpointId occurredAt link Hl Hr) as (query' & Hlink & Hv & He & Ho).
  unfold event_link, event_query in Hl. destruct (encodeURIComponent occurredAt) as [encoded|] eqn:E; [|done].
  cbn [mbind option_bind] in Hl. apply (inj Some) in Hl.
  set (query := u! "endpointId=" ++ string_of_Z endpointId ++ u! "&occurredAt=" ++ encoded).
  change (u! "/events/" ++ eventId ++ 63 :: query = link) in Hl.
  assert (query' = 63 :: query) as ->. { rewrite <- Hl in Hlink. apply app_inv_head in Hlink. by apply app_inv_head in Hlink. }
  assert (35 ∉ query) as Hhash.
  { unfold query. rewrite !not_elem_of_app. split_and!; [by_compute| |by_compute|].
    - intros Hin. pose proof (string_of_Z_digits endpointId ltac:(lia)) as Hd. rewrite Forall_forall in Hd. by specialize (Hd 35 Hin).
    - by eapply encoded_no_hash. }
  destruct (detail_path (u! "events") (u! "eventId") EventDetailPage eventId) as (P35 & P63 & Hp); [by_compute|done|].
  exists (params_of_string (63 :: query)). split; [|done]. rewrite Hlink.
  replace (u! "/events/" ++ eventId ++ 63 :: query) with ((u! "/" ++ u! "events" ++ u! "/" ++ eventId) ++ 63 :: query)
    by (rewrite <- !app_assoc; reflexivity).
  apply open_query; [done|done| |done|done]. rewrite Hp. eapply detail_route; [by_compute|done].
Qed.

(** C24: the links of the program open the pages they name. Every entry of the navigation
    opens its page, with the time scope where the page has one; the links of an alert,
    an incident and an endpoint, from a list or from evidence, open its detail page,
    whose number is read back from the path, with the list's query and the record
    selected in it; and the link of an event opens the event's page with a query the
    page accepts, for identifiers that need no encoding. *)
Theorem links_open_pages `{Router} `{DateHost} :
  (∀ p item page, params_ok p → p ≠ [] → (item, page) ∈ zip NAVIGATION_ITEMS NAVIGATION_PAGES →
     open_link (navigationDestination (nav_to item) (params_string p)) =
       Some (page, [], if str_in (nav_to item) TIME_SCOPED_ROUTES then p else [])) ∧
  (∀ n params, 0 < n ≤ 2 ^ 53 → params_ok params →
     let next := params_set (u! "selected") (string_of_Z n) params in
     open_link (alertDetailUrl n params) = Some (AlertDetailPage, [(u! "alertId", string_of_Z n)], next) ∧
     open_link (incidentDetailUrl n params) = Some (IncidentDetailPage, [(u! "incidentId", string_of_Z n)], next) ∧
     (let '(path, search) := Switcher.destination params n in
      open_link (path ++ search) = Some (EndpointDetailPage, [(u! "endpointId", string_of_Z n)], next)) ∧
     isSelected next (string_of_Z n) = true) ∧
  (∀ n kind name page link, 0 < n ≤ 2 ^ 53 → (kind, name, page) ∈ DETAIL_PAGES → link ∈ record_link kind (Some n) →
     ∃ captured, open_link link = Some (page, [(name, captured)], []) ∧ positive_int (number_of captured) = Some n) ∧
  (∀ eventId endpointId occurredAt link, event_link eventId endpointId occurredAt = Some link →
     safe_segment eventId = true → readable endpointId occurredAt →
     ∃ query, open_link link = Some (EventDetailPage, [(u! "eventId", eventId)], query) ∧
       validEventDetailQuery query = true ∧ positiveInteger (params_get query (u! "endpointId")) = Some endpointId ∧
       params_get query (u! "occurredAt") = Some occurredAt).
Proof.
  split_and!.
  - intros p item page. apply open_navigation.
  - intros n params Hn Hok next.
    destruct (open_selected (u! "alerts") (u! "alertId") AlertDetailPage n params) as (Ha & Hsel & Ht); [by_compute|done..|].
    destruct (open_selected (u! "incidents") (u! "incidentId") IncidentDetailPage n params) as (Hi & _); [by_compute|done..|].
    destruct (open_selected (u! "endpoints") (u! "endpointId") EndpointDetailPage n params) as (He & _); [by_compute|done..|].
    fold next in Ha, Hi, He, Hsel, Ht. split_and!; [exact Ha| |exact He|].
    + unfold incidentDetailUrl. fold next. rewrite Ht. exact Hi.
    + unfold isSelected. rewrite Hsel. by apply bool_decide_eq_true.
  - intros n kind name page link Hn Hin ->%list_elem_of_singleton. exists (string_of_Z n).
    split; [by apply open_record|by apply page_of_number].
  - apply open_event.
Qed.


Lemma links_open_pages_witness :
  @open_link reference_router (alertDetailUrl 7 [(u! "page", u! "2")]) =
    Some (AlertDetailPage, [(u! "alertId", u! "7")], [(u! "page", u! "2"); (u! "selected", u! "7")]).
Proof.
  destruct (@links_open_pages reference_router utc_host) as (_ & Hids & _).
  refine (proj1 (Hids 7 [(u! "page", u! "2")] _ _)); [lia|].
  apply Forall_singleton. split; apply well_formed_ascii; by_compute.
Defined.

Lemma routing_ends_witness :
  ∃ view, @follow reference_router 3 no_session (mkAppLocation (u! "/no/such/page") [] None) = Some view ∧
    match view with NavigateTo _ => False | _ => True end.
Proof.
  destruct (@routing_ends reference_router no_session (mkAppLocation (u! "/no/such/page") [] None)) as (view & Hf & Hv).
  exists view. split; [exact Hf|]. destruct view; [exact I|exact I|exact Hv].
Defined.
