(* ===== verification/Triage.v ===== *)
(** * Triaging alerts

    Models frontend/src/pages/AlertDetailPage.tsx: the page of an alert with its queue,
    the draft of a new status, the update of the alert as a machine of requests and
    answers, and the chain of evidence. *)

From S2P Require Import Prelude JsNumber JsDate Url Contracts ApiClient UrlState Auth Investigation.

#[local] Open Scope list_scope.
#[local] Open Scope Z_scope.

(** ** The page *)

Record TriageSubmission := mkSubmission { sub_status : AlertStatus; sub_nextAlertId : option Z }.

(** A pending update remembers the alert and the query of the rendering that sent it. *)
Inductive Mutation :=
| MIdle | MPending (alertId : Z) (params : URLSearchParams) (submission : TriageSubmission) | MFailed (error : Rejection) | MSaved.

(** [detail] is the status of the loaded alert; the draft lives with the loaded alert.
    [queueReady] tells that the queue is there, without an error. *)
Record TriagePage := mkTriage {
  alertId : Z;
  params : URLSearchParams;
  detail : option AlertStatus;
  draft : option AlertStatus;
  queue : list AlertDto;
  queueReady : bool;
  mutation : Mutation;
}.

Inductive TriageEvent :=
| OpenAlert (id : Z) | DetailLoaded (status : AlertStatus) | QueueLoaded (items : list AlertDto) | QueueLost
| ChooseStatus (status : AlertStatus) | SaveStatus | SubmitNext | Answered (failure : option Rejection).
#[export] Instance TriageEvent_submit_dec ev : Decision (ev = SubmitNext).
Proof. destruct ev; first [by left|right; discriminate]. Defined.
Inductive TriageAction := UpdateAlert (alertId : Z) (status : AlertStatus) | InvalidateAlert (alertId : Z).

Definition is_pending (page : TriagePage) : bool := match mutation page with MPending _ _ _ => true | _ => false end.
Definition nextAlert (page : TriagePage) : option AlertDto := nextActionableAlert (queue page) (alertId page).
Definition activeQueue (page : TriagePage) : list AlertDto := js_filter (λ item, negb (is_resolved item)) (queue page).
Definition queueCleared (page : TriagePage) : bool :=
  queueReady page && bool_decide (detail page = Some Alert_RESOLVED) && match activeQueue page with [] => true | _ => false end.

(** [navigate(alertDetailUrl(id, params))], and the links of the queue. *)
Definition go_to (page : TriagePage) (id : Z) (from : URLSearchParams) : TriagePage :=
  let same := id =? alertId page in
  mkTriage id (params_set (u! "selected") (string_of_Z id) from) (if same then detail page else None)
    (if same then draft page else None) (queue page) (queueReady page) (mutation page).

Definition set_mutation (page : TriagePage) (m : Mutation) : TriagePage :=
  mkTriage (alertId page) (params page) (detail page) (draft page) (queue page) (queueReady page) m.

(** The [disabled] of the two buttons. *)
Definition save_disabled (page : TriagePage) (status draft : AlertStatus) : bool := is_pending page || bool_decide (draft = status).
Definition next_disabled (page : TriagePage) (status draft : AlertStatus) : bool :=
  is_pending page || (bool_decide (nextAlert page = None) && bool_decide (draft = status)).

Section page.
Context (canUpdate latest_callbacks : bool).

Definition mutate (page : TriagePage) (submission : TriageSubmission) : TriagePage * list TriageAction :=
  (set_mutation page (MPending (alertId page) (params page) submission), [UpdateAlert (alertId page) (sub_status submission)]).

(** The draft and the status shown, when the controls are there. *)
Definition decision (page : TriagePage) : option (AlertStatus * AlertStatus) :=
  if canUpdate then shown ← detail page; d ← draft page; Some (d, shown) else None.
(** The same for the select, which is disabled while an update is pending. *)
Definition controls (page : TriagePage) : option (AlertStatus * AlertStatus) :=
  if is_pending page then None else decision page.

(** A click on a button, which does nothing when the button is disabled. *)
Definition save (page : TriagePage) : TriagePage * list TriageAction :=
  match decision page with
  | Some (d, shown) => if save_disabled page shown d then (page, []) else mutate page (mkSubmission d None)
  | None => (page, [])
  end.

Definition submitNext (page : TriagePage) : TriagePage * list TriageAction :=
  match decision page with
  | Some (d, shown) =>
    if next_disabled page shown d then (page, []) else mutate page (mkSubmission d (alert_alertId <$> nextAlert page))
  | None => (page, [])
  end.

(** The answer of an update: [onSuccess] refreshes the alert and leads to the next one.
    [latest_callbacks] tells whether it is the function of the latest rendering. *)
Definition onAnswered (page : TriagePage) (failure : option Rejection) : TriagePage * list TriageAction :=
  match mutation page with
  | MPending id from submission =>
    match failure with
    | Some e => (set_mutation page (MFailed e), [])
    | None =>
      let '(id, from) := if latest_callbacks then (alertId page, params page) else (id, from) in
      let page' := set_mutation page MSaved in
      (match sub_nextAlertId submission with
       | Some next => if next =? 0 then page' else go_to page' next from
       | None => page'
       end, [InvalidateAlert id])
    end
  | _ => (page, [])
  end.

Definition triage_step (page : TriagePage) (ev : TriageEvent) : TriagePage * list TriageAction :=
  match ev with
  | OpenAlert id => (go_to page id (params page), [])
  | DetailLoaded status =>
    (mkTriage (alertId page) (params page) (Some status) (match draft page with Some d => Some d | None => Some status end)
       (queue page) (queueReady page) (mutation page), [])
  | QueueLoaded items =>
    (mkTriage (alertId page) (params page) (detail page) (draft page) items true (mutation page), [])
  | QueueLost => (mkTriage (alertId page) (params page) (detail page) (draft page) (queue page) false (mutation page), [])
  | ChooseStatus status =>
    (match controls page with
     | Some _ => mkTriage (alertId page) (params page) (detail page) (Some status) (queue page) (queueReady page) (mutation page)
     | None => page
     end, [])
  | SaveStatus => save page
  | SubmitNext => submitNext page
  | Answered failure => onAnswered page failure
  end.

Fixpoint triage_run (page : TriagePage) (events : list TriageEvent) : TriagePage * list TriageAction :=
  match events with
  | [] => (page, [])
  | ev :: rest =>
    let '(page', actions) := triage_step page ev in
    let '(final, actions') := triage_run page' rest in
    (final, actions ++ actions')
  end.
End page.

Definition triage_mount (id : Z) (params : URLSearchParams) : TriagePage := mkTriage id params None None [] false MIdle.

(** ** The chain of evidence *)

Inductive StepState := Linked | Unavailable | Observed | Current.
Record EvidenceStep := mkStep { step_label : ustring; step_detail : ustring; step_to : option ustring; step_state : StepState }.

(** The source event and the incidents of an AlertDetailDto, by their identifiers;
    [None] when the event's time cannot be encoded, which throws. *)
Definition AlertEvidenceChain (notConnected : ustring) (alert : AlertDto) (sourceEvent : option EventDto) (incidents : list Z) :
  option (list EvidenceStep) :=
  event_to ← match sourceEvent with
             | Some e => link ← event_link (event_eventId e) (event_endpointId e) (event_occurredAt e); Some (Some link)
             | None => Some None
             end;
  Some
    [mkStep (u! "Endpoint") (u! "Endpoint " ++ string_of_Z (alert_endpointId alert))
       (Some (u! "/endpoints/" ++ string_of_Z (alert_endpointId alert))) Linked;
     mkStep (u! "Event") (match sourceEvent with Some e => event_eventId e | None => alert_eventId alert end) event_to
       (match sourceEvent with Some _ => Linked | None => Unavailable end);
     mkStep (u! "Rule") (alert_ruleCode alert ++ u! " · v" ++ string_of_Z (alert_ruleVersion alert)) None Observed;
     mkStep (u! "Alert") (u! "#" ++ string_of_Z (alert_alertId alert)) None Current;
     mkStep (u! "Incident")
       (match incidents with
        | [] => notConnected
        | i :: rest => u! "#" ++ string_of_Z i ++ match rest with [] => [] | _ => u! " +" ++ string_of_Z (Z.of_nat (length rest)) end
        end)
       (match incidents with [] => None | i :: _ => Some (u! "/incidents/" ++ string_of_Z i) end)
       (match incidents with [] => Unavailable | _ => Linked end)].

(** ** The server's side of a triage *)

Definition with_status (status : AlertStatus) (a : AlertDto) : AlertDto :=
  mkAlertDto (alert_agentId a) (alert_alertId a) (alert_batchId a) (alert_createdAt a) (alert_detectedAt a) (alert_endpointId a)
    (alert_eventId a) (alert_eventOccurredAt a) (alert_mitreTacticCode a) (alert_mitreTacticName a) (alert_mitreTechniqueCode a)
    (alert_mitreTechniqueName a) (alert_riskScore a) (alert_ruleCode a) (alert_ruleName a) (alert_ruleVersion a) (alert_severity a)
    status (alert_summary a) (alert_title a) (alert_updatedAt a).

(** What an update does to the alerts of the server. *)
Definition serve (server : list AlertDto) (action : TriageAction) : list AlertDto :=
  match action with
  | UpdateAlert id status => (λ a, if alert_alertId a =? id then with_status status a else a) <$> server
  | InvalidateAlert _ => server
  end.
Definition status_of (server : list AlertDto) (id : Z) : option AlertStatus :=
  alert_status <$> js_find (λ a, alert_alertId a =? id) server.
Definition unresolved (server : list AlertDto) : list AlertDto := js_filter (λ a, negb (is_resolved a)) server.

(** One alert of a triage: the analyst chooses RESOLVED and submits, the server answers, and
    the refreshed queue and alert arrive. [reload] is the queue the server answers with. *)
Definition triage_round (latest_callbacks : bool) (reload : list AlertDto → list AlertDto) (page : TriagePage) (server : list AlertDto) :
  TriagePage * list AlertDto * list TriageAction :=
  let '(page, sent) := triage_run true latest_callbacks page [ChooseStatus Alert_RESOLVED; SubmitNext] in
  let server := fold_left serve sent server in
  let '(page, _) := triage_run true latest_callbacks page [Answered None; QueueLoaded (reload server)] in
  let page := match status_of server (alertId page) with
              | Some status => (triage_step true latest_callbacks page (DetailLoaded status)).1
              | None => page
              end in
  (page, server, sent).

Fixpoint triage_rounds (n : nat) (latest_callbacks : bool) (reload : list AlertDto → list AlertDto) (page : TriagePage) (server : list AlertDto) :
  TriagePage * list AlertDto * list TriageAction :=
  match n with
  | O => (page, server, [])
  | S n =>
    let '(page, server, sent) := triage_round latest_callbacks reload page server in
    let '(page, server, later) := triage_rounds n latest_callbacks reload page server in
    (page, server, sent ++ later)
  end.

(** ** Claims: updates *)

Lemma next_alert_spec items cur : NoDup (alert_alertId <$> items) →
  match nextActionableAlert items cur with
  | Some a => a ∈ items ∧ actionable cur a = true
  | None => ∀ a, a ∈ items → actionable cur a = false
  end.
Proof.
  intros Hnd. assert (∀ l, (∀ a, a ∈ l → a ∈ items) → (∀ a, a ∈ items → actionable cur a = true → a ∈ l) →
    match js_find (actionable cur) l with Some a => a ∈ items ∧ actionable cur a = true | None => ∀ a, a ∈ items → actionable cur a = false end) as Hl.
  { intros l H1 H2. destruct (js_find (actionable cur) l) as [a|] eqn:E.
    - apply js_find_Some in E as [Hin Ha]. eauto.
    - intros a Hin. destruct (actionable cur a) eqn:Ha; [|done]. rewrite js_find_None in E. by rewrite E in Ha by auto. }
  pose proof (after_alert_split cur items) as Hs. destruct (after_alert cur items).
  - destruct Hs as (before & c & -> & <-). rewrite next_alert_rotation by done. apply Hl.
    + intros a. rewrite !elem_of_app, elem_of_cons. tauto.
    + intros a. rewrite !elem_of_app, elem_of_cons. intros [Ha|[->|Ha]]; [tauto| |tauto].
      unfold actionable. by rewrite Z.eqb_refl, andb_false_r.
  - rewrite next_alert_absent by done. by apply Hl.
Qed.

Section updates.
Context (canUpdate latest_callbacks : bool).
Notation step := (triage_step canUpdate latest_callbacks).
Notation run := (triage_run canUpdate latest_callbacks).

Definition is_update (a : TriageAction) : bool := match a with UpdateAlert _ _ => true | _ => false end.
Definition updates (actions : list TriageAction) : nat := length (js_filter is_update actions).
Definition is_answer (ev : TriageEvent) : bool := match ev with Answered _ => true | _ => false end.
Definition pending_count (page : TriagePage) : nat := if is_pending page then 1 else 0.

Lemma controls_Some page d shown : controls canUpdate page = Some (d, shown) →
  canUpdate = true ∧ is_pending page = false ∧ detail page = Some shown ∧ draft page = Some d.
Proof.
  unfold controls, decision. destruct canUpdate, (is_pending page), (detail page), (draft page); try done. intros [= -> ->]. done.
Qed.

Lemma save_controls page : save canUpdate page =
  match controls canUpdate page with
  | Some (d, shown) => if bool_decide (d = shown) then (page, []) else mutate page (mkSubmission d None)
  | None => (page, [])
  end.
Proof. unfold save, controls, save_disabled. by destruct (is_pending page), (decision canUpdate page) as [[]|]. Qed.

Lemma submit_controls page : submitNext canUpdate page =
  match controls canUpdate page with
  | Some (d, shown) =>
    if bool_decide (nextAlert page = None) && bool_decide (d = shown) then (page, [])
    else mutate page (mkSubmission d (alert_alertId <$> nextAlert page))
  | None => (page, [])
  end.
Proof. unfold submitNext, controls, next_disabled. by destruct (is_pending page), (decision canUpdate page) as [[]|]. Qed.

(** The events that send an update, and what they send. *)
Lemma update_sent page ev page' actions id status : step page ev = (page', actions) → UpdateAlert id status ∈ actions →
  ∃ submission shown, actions = [UpdateAlert id status] ∧ page' = set_mutation page (MPending id (params page) submission) ∧
    id = alertId page ∧ sub_status submission = status ∧ canUpdate = true ∧ is_pending page = false ∧
    detail page = Some shown ∧ draft page = Some status ∧
    (ev = SaveStatus ∧ status ≠ shown ∧ sub_nextAlertId submission = None
     ∨ ev = SubmitNext ∧ sub_nextAlertId submission = alert_alertId <$> nextAlert page ∧ (nextAlert page = None → status ≠ shown)).
Proof.
  destruct ev; cbn [triage_step]; try (intros [= <- <-] Hin; by apply elem_of_nil in Hin).
  - rewrite save_controls. destruct (controls canUpdate page) as [[d shown]|] eqn:E; [|intros [= <- <-] Hin; by apply elem_of_nil in Hin].
    case_bool_decide as Hd; [intros [= <- <-] Hin; by apply elem_of_nil in Hin|]. intros [= <- <-] [= -> ->]%list_elem_of_singleton.
    apply controls_Some in E as (H1 & H2 & H3 & H4). exists (mkSubmission d None), shown. split_and!; try done. by left.
  - rewrite submit_controls. destruct (controls canUpdate page) as [[d shown]|] eqn:E; [|intros [= <- <-] Hin; by apply elem_of_nil in Hin].
    destruct (bool_decide (nextAlert page = None) && bool_decide (d = shown)) eqn:Hb; [intros [= <- <-] Hin; by apply elem_of_nil in Hin|].
    intros [= <- <-] [= -> ->]%list_elem_of_singleton. apply controls_Some in E as (H1 & H2 & H3 & H4).
    exists (mkSubmission d (alert_alertId <$> nextAlert page)), shown. split_and!; try done. right. split_and!; [done|done|].
    intros Hn ->. by rewrite !bool_decide_true in Hb.
  - unfold onAnswered. destruct (mutation page) as [|id0 from sub|e|]; try (intros [= <- <-] Hin; by apply elem_of_nil in Hin).
    destruct failure; [intros [= <- <-] Hin; by apply elem_of_nil in Hin|].
    destruct latest_callbacks; intros [= <- <-] Hin; by apply list_elem_of_singleton in Hin.
Qed.

Lemma step_counts page ev page' actions : step page ev = (page', actions) →
  (pending_count page + updates actions ≤ pending_count page' + (if is_answer ev then 1 else 0))%nat.
Proof.
  intros Hs. destruct (decide (updates actions = 0)%nat) as [Hz|Hz].
  - rewrite Hz, Nat.add_0_r. destruct ev; cbn [triage_step is_answer] in *; [..|unfold pending_count; destruct (is_pending page); lia];
      try (injection Hs as <- <-; unfold pending_count, is_pending; cbn [mutation go_to]; lia).
    + injection Hs as <- <-. unfold pending_count, is_pending. destruct (controls canUpdate page); cbn [mutation]; lia.
    + rewrite save_controls in Hs. destruct (controls _ _) as [[d s]|]; [|injection Hs as <- <-; lia].
      case_bool_decide; injection Hs as <- <-; [lia|by vm_compute in Hz].
    + rewrite submit_controls in Hs. destruct (controls _ _) as [[d s]|]; [|injection Hs as <- <-; lia].
      destruct (_ && _); injection Hs as <- <-; [lia|by vm_compute in Hz].
  - unfold updates in Hz |- *. destruct (js_filter is_update actions) as [|[id status|id] rest] eqn:E; [done| |].
    + assert (UpdateAlert id status ∈ actions) as Hin by (apply (js_filter_elem is_update); rewrite E; apply list_elem_of_here).
      destruct (update_sent _ _ _ _ _ _ Hs Hin) as (sub & shown & -> & -> & _ & _ & _ & Hp & _).
      injection E as <-. unfold pending_count. rewrite Hp. cbn. lia.
    + assert (InvalidateAlert id ∈ js_filter is_update actions) as Hin by (rewrite E; apply list_elem_of_here).
      by apply js_filter_elem in Hin as [_ ?].
Qed.

Lemma run_counts page events : let '(page', actions) := run page events in
  (pending_count page + updates actions ≤ pending_count page' + length (js_filter is_answer events))%nat.
Proof.
  revert page. induction events as [|ev events IH]; intros page; cbn [triage_run]; [cbn; lia|].
  destruct (step page ev) as [page1 actions1] eqn:E. specialize (IH page1). destruct (run page1 events) as [page2 actions2].
  pose proof (step_counts page ev page1 actions1 E) as Hc. unfold updates in *. rewrite js_filter_app, length_app, js_filter_cons.
  destruct (is_answer ev); cbn [length] in *; lia.
Qed.
End updates.

(** C26: updates of alerts are sent as the page says. An update is sent for the alert
    shown, by a user who may change it, with the chosen status, and only when no other
    update is pending, so that the updates sent never exceed the answered ones by more
    than one. Saving sends a new status only, and stays on the alert; submitting takes the
    next alert with it, which is an unresolved other alert of the queue (whose alerts are
    distinct) whenever there is one, or, without one, sends a new status only. A success
    leads to the alert that the submission took with it (identifiers are not zero), or
    stays, and refreshes the updated alert when the page is still on it or the answer calls
    the function of the rendering that sent it; a failure stays and refreshes nothing. *)
Theorem triage_updates_safe canUpdate latest_callbacks :
  (∀ page ev page' actions id status, triage_step canUpdate latest_callbacks page ev = (page', actions) →
     UpdateAlert id status ∈ actions →
     actions = [UpdateAlert id status] ∧ id = alertId page ∧ canUpdate = true ∧ is_pending page = false ∧
     draft page = Some status ∧ (ev = SaveStatus ∨ ev = SubmitNext) ∧
     (ev = SaveStatus ∨ nextAlert page = None → detail page ≠ Some status) ∧
     page' = set_mutation page (MPending id (params page)
       (mkSubmission status (if bool_decide (ev = SubmitNext) then alert_alertId <$> nextAlert page else None)))) ∧
  (∀ page events, is_pending page = false → let '(page', actions) := triage_run canUpdate latest_callbacks page events in
     (updates actions ≤ length (js_filter is_answer events) + if is_pending page' then 1 else 0)%nat) ∧
  (∀ page, NoDup (alert_alertId <$> queue page) →
     match nextAlert page with
     | Some a => a ∈ queue page ∧ is_resolved a = false ∧ alert_alertId a ≠ alertId page
     | None => ∀ a, a ∈ queue page → is_resolved a = true ∨ alert_alertId a = alertId page
     end) ∧
  (∀ page id from status next failure, mutation page = MPending id from (mkSubmission status next) → next ≠ Some 0 →
     let '(page', actions) := triage_step canUpdate latest_callbacks page (Answered failure) in
     is_pending page' = false ∧
     match failure with
     | None => alertId page' = default (alertId page) next ∧
        ∃ refreshed, actions = [InvalidateAlert refreshed] ∧ (latest_callbacks = false ∨ alertId page = id → refreshed = id)
     | Some _ => alertId page' = alertId page ∧ actions = []
     end).
Proof.
  split_and!.
  - intros page ev page' actions id status Hs Hin.
    destruct (update_sent _ _ _ _ _ _ _ _ Hs Hin) as (sub & shown & -> & -> & -> & H1 & H2 & H3 & H4 & H5 & Hev).
    destruct sub as [st next]. cbn [sub_status sub_nextAlertId] in *. subst st.
    split_and!; try done; [destruct Hev as [[? _]|[? _]]; tauto| |].
    + rewrite H4. intros Hor [= Heq].
      destruct Hev as [(_ & Hne & _)|(-> & _ & Hne)]; [done|]. destruct Hor as [?|Hn]; [done|]. by apply Hne.
    + destruct Hev as [(-> & _ & ->)|(-> & -> & _)]; first [by rewrite bool_decide_false|by rewrite bool_decide_true].
  - intros page events Hp. pose proof (run_counts canUpdate latest_callbacks page events) as Hc.
    destruct (triage_run _ _ page events) as [page' actions]. unfold pending_count in Hc. rewrite Hp in Hc. lia.
  - intros page Hnd. unfold nextAlert. pose proof (next_alert_spec (queue page) (alertId page) Hnd) as Hs.
    destruct (nextActionableAlert (queue page) (alertId page)) as [a|].
    + destruct Hs as [Hin Ha]. unfold actionable in Ha. apply andb_true_iff in Ha as [H1%negb_true_iff H2%negb_true_iff].
      split_and!; [done|done|by apply Z.eqb_neq].
    + intros a Hin. specialize (Hs a Hin). unfold actionable in Hs. destruct (is_resolved a); [by left|right].
      by apply negb_false_iff, Z.eqb_eq in Hs.
  - intros page id from status next failure Hm Hn. cbn [triage_step]. unfold onAnswered. rewrite Hm. cbn [sub_nextAlertId].
    destruct failure as [e|]; [done|]. destruct next as [n|]; [rewrite (proj2 (Z.eqb_neq n 0)) by congruence|];
      destruct latest_callbacks; (split; [done|]); (split; [done|]); (eexists; split; [done|]); by intros [?|?].
Qed.

(** The answer of an update refreshes the updated alert, when the mutation calls back
    the functions of the rendering that sent it, or when the page still shows that
    alert; with the functions of the latest rendering, opening another alert while the
    update is pending refreshes that other alert instead, and still leads away from it
    to the next alert. *)
Theorem answer_refreshes_alert canUpdate :
  (∀ latest_callbacks page id from submission, mutation page = MPending id from submission →
     latest_callbacks = false ∨ alertId page = id →
     (onAnswered latest_callbacks page None).2 = [InvalidateAlert id]) ∧
  (∀ page d shown other next, controls canUpdate page = Some (d, shown) → nextAlert page = Some next →
     alert_alertId next ≠ 0 → other ≠ alertId page →
     let '(page', actions) := triage_run canUpdate true page [SubmitNext; OpenAlert other; Answered None] in
     actions = [UpdateAlert (alertId page) d; InvalidateAlert other] ∧ alertId page' = alert_alertId next).
Proof.
  split.
  - intros latest page id from submission Hm Hor. unfold onAnswered. rewrite Hm.
    destruct latest; [destruct Hor as [?|Hid]; [done|]; rewrite Hid|]; destruct (sub_nextAlertId submission) as [n|]; try destruct (n =? 0); reflexivity.
  - intros page d shown other next Hc Hn Hne Ho.
    assert (submitNext canUpdate page = mutate page (mkSubmission d (Some (alert_alertId next)))) as Hsub
      by (rewrite submit_controls, Hc, Hn; reflexivity).
    cbn [triage_run triage_step]. rewrite Hsub. unfold mutate. cbn [sub_status]. unfold onAnswered. cbn [mutation go_to set_mutation sub_nextAlertId].
    rewrite (proj2 (Z.eqb_neq (alert_alertId next) 0)) by done. cbn [app]. split; [done|]. reflexivity.
Qed.

(** ** Claims: a whole triage *)

Section drain.
Context (latest_callbacks : bool) (reload : list AlertDto → list AlertDto).

(** The page shows an unresolved alert of the server, with its queue. *)
Definition triaging (page : TriagePage) (server : list AlertDto) : Prop :=
  is_pending page = false ∧ queue page = reload server ∧ queueReady page = true ∧ is_Some (draft page) ∧
  ∃ a, a ∈ unresolved server ∧ alertId page = alert_alertId a ∧ detail page = Some (alert_status a).

(** The queue has the unresolved alerts, each once. *)
Definition serves_queue : Prop := ∀ server, NoDup (alert_alertId <$> server) →
  NoDup (alert_alertId <$> reload server) ∧ ∀ a, is_resolved a = false → a ∈ reload server ↔ a ∈ server.

Lemma serve_ids server action : alert_alertId <$> serve server action = alert_alertId <$> server.
Proof.
  destruct action as [id status|id]; [|done]. cbn [serve]. rewrite <- list_fmap_compose. apply list_fmap_ext.
  intros _ a _. cbn. by destruct (alert_alertId a =? id).
Qed.

Lemma unresolved_elem a server : a ∈ unresolved server ↔ a ∈ server ∧ is_resolved a = false.
Proof. unfold unresolved. by rewrite js_filter_elem, negb_true_iff. Qed.

Lemma serve_cons b server id status : serve (b :: server) (UpdateAlert id status) =
  (if alert_alertId b =? id then with_status status b else b) :: serve server (UpdateAlert id status).
Proof. reflexivity. Qed.

Lemma serve_absent server id status : id ∉ alert_alertId <$> server → serve server (UpdateAlert id status) = server.
Proof.
  intros Hb. cbn [serve]. rewrite <- (list_fmap_id server) at 2. apply list_fmap_ext. intros i c Hc.
  destruct (Z.eqb_spec (alert_alertId c) id) as [Heq|]; [|done].
  destruct Hb. rewrite <- Heq. apply list_elem_of_fmap_2. by apply list_elem_of_lookup_2 in Hc.
Qed.

(** Resolving an alert removes it from the unresolved ones, and changes no other. *)
Lemma serve_resolved a server : NoDup (alert_alertId <$> server) → a ∈ unresolved server →
  unresolved server ≡ₚ a :: unresolved (serve server (UpdateAlert (alert_alertId a) Alert_RESOLVED)).
Proof.
  induction server as [|b server IH]; [intros _ Hin; by apply elem_of_nil in Hin|].
  rewrite fmap_cons. intros [Hb Hnd]%NoDup_cons Hin.
  assert (a = b ∨ alert_alertId b ≠ alert_alertId a ∧ a ∈ unresolved server) as [->|[Hne Ha]].
  { apply unresolved_elem in Hin as [[->|Hin]%elem_of_cons Hra]; [by left|right]. split; [|by apply unresolved_elem].
    intros Heq. apply Hb. rewrite Heq. by apply list_elem_of_fmap_2. }
  - apply unresolved_elem in Hin as [_ Hrb]. unfold unresolved.
    rewrite serve_cons, Z.eqb_refl, serve_absent, !js_filter_cons, Hrb by done. reflexivity.
  - specialize (IH Hnd Ha). unfold unresolved in *.
    rewrite serve_cons, (proj2 (Z.eqb_neq (alert_alertId b) (alert_alertId a)) Hne), !js_filter_cons.
    destruct (negb (is_resolved b)); [rewrite IH; apply Permutation_swap|done].
Qed.

Lemma status_of_elem server a : NoDup (alert_alertId <$> server) → a ∈ server → status_of server (alert_alertId a) = Some (alert_status a).
Proof.
  intros Hnd Hin. unfold status_of. destruct (js_find _ server) as [b|] eqn:E.
  - apply js_find_Some in E as [Hb Heq%Z.eqb_eq]. cbn. by rewrite (NoDup_fmap_inj_elem alert_alertId server b a).
  - rewrite js_find_None in E. specialize (E a Hin). by rewrite Z.eqb_refl in E.
Qed.

(** Choosing RESOLVED and submitting, on an unresolved alert. *)
Lemma choose_submit page shown d : is_pending page = false → detail page = Some shown → shown ≠ Alert_RESOLVED → draft page = Some d →
  triage_run true latest_callbacks page [ChooseStatus Alert_RESOLVED; SubmitNext] =
  (mkTriage (alertId page) (params page) (Some shown) (Some Alert_RESOLVED) (queue page) (queueReady page)
     (MPending (alertId page) (params page) (mkSubmission Alert_RESOLVED (alert_alertId <$> nextAlert page))),
   [UpdateAlert (alertId page) Alert_RESOLVED]).
Proof.
  destruct page as [id from det dr items ready m]. cbn [detail draft]. intros Hp -> Hne ->.
  assert (bool_decide (Alert_RESOLVED = shown) = false) as Hb by (by apply bool_decide_false).
  destruct m; [|done|..]; cbn [triage_run triage_step controls decision is_pending mutation detail draft mbind option_bind fst snd alertId params queue queueReady];
    unfold submitNext, next_disabled; cbn [decision is_pending mutation detail draft orb mbind option_bind]; rewrite Hb, andb_false_r; reflexivity.
Qed.

(** The answer to it leads to the next alert, if there is one. *)
Lemma answer_loaded id from shown d items ready status next items' : next ≠ Some 0 →
  triage_run true latest_callbacks
    (mkTriage id from (Some shown) d items ready (MPending id from (mkSubmission status next))) [Answered None; QueueLoaded items'] =
  (match next with
   | Some n => let p := go_to (mkTriage id from (Some shown) d items ready MSaved) n from in
     mkTriage n (params p) (detail p) (draft p) items' true MSaved
   | None => mkTriage id from (Some shown) d items' true MSaved
   end, [InvalidateAlert id]).
Proof.
  intros Hn. cbn [triage_run triage_step]. unfold onAnswered. cbn [mutation alertId params sub_nextAlertId].
  destruct latest_callbacks, next as [n|]; try reflexivity.
  all: rewrite (proj2 (Z.eqb_neq n 0)) by congruence; reflexivity.
Qed.

(** Nothing is left to triage once the queue has no next alert. *)
Lemma drained server a : serves_queue → NoDup (alert_alertId <$> server) → a ∈ unresolved server →
  (∀ b, b ∈ reload server → actionable (alert_alertId a) b = false) →
  unresolved (serve server (UpdateAlert (alert_alertId a) Alert_RESOLVED)) = [].
Proof.
  intros Hq Hnd Ha Hnone. pose proof (serve_resolved a server Hnd Ha) as Hperm.
  destruct (unresolved (serve _ _)) as [|b rest]; [done|]. exfalso.
  assert (b ∈ unresolved server) as Hb by (rewrite Hperm, !elem_of_cons; tauto). apply unresolved_elem in Hb as [Hb Hrb].
  specialize (Hnone b (proj2 (proj2 (Hq server Hnd) b Hrb) Hb)). unfold actionable in Hnone. rewrite Hrb in Hnone.
  apply negb_false_iff, Z.eqb_eq in Hnone.
  assert (NoDup (alert_alertId <$> unresolved server)) as Hndu
    by (eapply sublist_NoDup; [exact Hnd|]; apply fmap_sublist, js_filter_sublist).
  rewrite Hperm in Hndu. apply NoDup_cons in Hndu as [Hni _]. apply Hni. rewrite <- Hnone. apply list_elem_of_here.
Qed.

Lemma serve_resolves server a : NoDup (alert_alertId <$> server) → a ∈ server →
  status_of (serve server (UpdateAlert (alert_alertId a) Alert_RESOLVED)) (alert_alertId a) = Some Alert_RESOLVED.
Proof.
  intros Hnd Ha. apply (status_of_elem _ (with_status Alert_RESOLVED a)); [by rewrite serve_ids|].
  cbn [serve]. apply list_elem_of_fmap. exists a. by rewrite Z.eqb_refl.
Qed.

(** What a round does to a page that triages alert [a]. *)
Lemma round_spec page server a : serves_queue → NoDup (alert_alertId <$> server) → (∀ b, b ∈ server → alert_alertId b ≠ 0) →
  triaging page server → a ∈ unresolved server → alertId page = alert_alertId a →
  let server' := serve server (UpdateAlert (alert_alertId a) Alert_RESOLVED) in
  ∃ page', triage_round latest_callbacks reload page server = (page', server', [UpdateAlert (alert_alertId a) Alert_RESOLVED]) ∧
    (triaging page' server' ∨ unresolved server' = [] ∧ queueCleared page' = true).
Proof.
  intros Hq Hnd Hnz (Hp & Hqueue & Hr & [d Hd] & b & Hb & Hid & Hdet) Ha Hida server'.
  assert (b = a) as ->.
  { apply unresolved_elem in Ha as [Ha _]. apply unresolved_elem in Hb as [Hb _].
    apply (NoDup_fmap_inj_elem alert_alertId server); congruence. }
  clear Hida Hb. assert (NoDup (alert_alertId <$> server')) as Hnd' by (unfold server'; by rewrite serve_ids).
  pose proof (serve_resolved a server Hnd Ha) as Hperm. fold server' in Hperm.
  destruct (Hq server Hnd) as [Hndq Hinq]. destruct (Hq server' Hnd') as [_ Hinq'].
  pose proof (next_alert_spec (reload server) (alert_alertId a) Hndq) as Hnext.
  destruct (proj1 (unresolved_elem _ _) Ha) as [Hina Hra].
  assert (alert_status a ≠ Alert_RESOLVED) as Hst by (intros He; unfold is_resolved in Hra; by rewrite He in Hra).
  unfold triage_round. rewrite (choose_submit page (alert_status a) d) by done. cbn [fold_left].
  unfold nextAlert. rewrite Hid, Hqueue, Hr. fold server'. destruct (nextActionableAlert (reload server) (alert_alertId a)) as [b|]; cbn [fmap option_fmap option_map].
  - destruct Hnext as [Hinb Hactb]. unfold actionable in Hactb. apply andb_true_iff in Hactb as [Hrb%negb_true_iff Hne%negb_true_iff].
    apply Hinq in Hinb; [|done].
    assert (b ∈ unresolved server') as Hb.
    { assert (b ∈ unresolved server) as Hb by by apply unresolved_elem. rewrite Hperm in Hb.
      apply elem_of_cons in Hb as [->|?]; [by rewrite Z.eqb_refl in Hne|done]. }
    rewrite answer_loaded by (intros [= He]; by apply (Hnz b)).
    cbn [alertId]. apply unresolved_elem in Hb as [Hb ?]. rewrite (status_of_elem server' b) by done. eexists. split; [reflexivity|]. left.
    cbn [triage_step fst]. unfold triaging. cbn [is_pending mutation queue queueReady draft detail alertId].
    split_and!; [done|done|done|by case_match|]. exists b. by rewrite unresolved_elem.
  - rewrite answer_loaded by done. cbn [alertId]. unfold server' at 1. rewrite serve_resolves by done.
    eexists. split; [reflexivity|]. right. pose proof (drained server a Hq Hnd Ha Hnext) as Hempty. fold server' in Hempty. split; [done|].
    unfold queueCleared, activeQueue. cbn [triage_step fst queueReady detail queue].
    rewrite bool_decide_true by done. destruct (js_filter _ (reload server')) as [|b rest] eqn:E; [done|]. exfalso.
    assert (b ∈ js_filter (λ c, negb (is_resolved c)) (reload server')) as [Hb Hrb%negb_true_iff]%js_filter_elem by (rewrite E; apply list_elem_of_here).
    apply Hinq' in Hb; [|done]. apply (not_elem_of_nil b). rewrite <- Hempty. by apply unresolved_elem.
Qed.
End drain.

(** C27: a triage ends. An analyst who resolves the alert shown and submits, again and
    again, sends exactly one update for every unresolved alert of the queue, wherever
    the triage started, and after the last of them every alert is resolved and the page
    says that the queue is cleared. *)
Theorem triage_drains_queue latest_callbacks reload page server :
  serves_queue reload → NoDup (alert_alertId <$> server) → (∀ b, b ∈ server → alert_alertId b ≠ 0) → triaging reload page server →
  ∃ page' server' ids,
    triage_rounds (length (unresolved server)) latest_callbacks reload page server =
      (page', server', (λ id, UpdateAlert id Alert_RESOLVED) <$> ids) ∧
    ids ≡ₚ alert_alertId <$> unresolved server ∧ unresolved server' = [] ∧
    alert_alertId <$> server' = alert_alertId <$> server ∧ queueCleared page' = true.
Proof.
  remember (length (unresolved server)) as n eqn:Hn. revert page server Hn.
  induction n as [|n IH]; intros page server Hn Hq Hnd Hnz Ht; pose proof Ht as (_ & _ & _ & _ & a & Ha & Hid & _).
  - symmetry in Hn. apply nil_length_inv in Hn. rewrite Hn in Ha. by apply elem_of_nil in Ha.
  - destruct (round_spec latest_callbacks reload page server a) as (page1 & Hr & Hor); [done..|].
    cbn [triage_rounds]. rewrite Hr. pose proof (serve_resolved server a Hnd Ha) as Hperm || pose proof (serve_resolved a server Hnd Ha) as Hperm.
    set (server1 := serve server _) in *. rewrite Hperm in Hn. cbn [length] in Hn. injection Hn as Hn.
    assert (alert_alertId <$> server1 = alert_alertId <$> server) as Hids by apply serve_ids.
    destruct Hor as [Ht1|[Hempty Hclear]].
    + destruct (IH page1 server1) as (page' & server' & ids & Hrun & Hperm' & He & Hids' & Hc); [done|done|by rewrite Hids| |done|].
      { intros b Hb. assert (alert_alertId b ∈ alert_alertId <$> server) as (c & -> & Hcin)%list_elem_of_fmap
          by (rewrite <- Hids; by apply list_elem_of_fmap_2). by apply Hnz. }
      rewrite Hrun. exists page', server', (alert_alertId a :: ids). split_and!; [done|by rewrite Hperm, Hperm'|done|congruence|done].
    + rewrite Hempty in Hn. destruct n; [|done]. exists page1, server1, [alert_alertId a]. split_and!; [done|by rewrite Hperm, Hempty|done..].
Qed.

Definition sample_alert (id : Z) (status : AlertStatus) : AlertDto :=
  mkAlertDto [] id None [] [] 1 [] [] [] [] [] [] 10 [] [] 1 Severity_LOW status [] [] [].
Definition sample_alerts : list AlertDto :=
  [sample_alert 1 Alert_OPEN; sample_alert 2 Alert_RESOLVED; sample_alert 3 Alert_IN_PROGRESS; sample_alert 4 Alert_OPEN].
Definition sample_page : TriagePage := mkTriage 3 [] (Some Alert_IN_PROGRESS) (Some Alert_IN_PROGRESS) sample_alerts true MIdle.

Lemma triage_drains_queue_witness : ∃ page' server' ids,
  triage_rounds 3 true id sample_page sample_alerts = (page', server', (λ id, UpdateAlert id Alert_RESOLVED) <$> ids) ∧
  ids ≡ₚ [1; 3; 4] ∧ unresolved server' = [] ∧
  alert_alertId <$> server' = [1; 2; 3; 4] ∧ queueCleared page' = true.
Proof.
  apply (triage_drains_queue true id sample_page sample_alerts).
  - intros server Hnd. by split.
  - by_compute.
  - apply Forall_forall. repeat constructor; done.
  - split_and!; [done..|by eexists|]. exists (sample_alert 3 Alert_IN_PROGRESS). split_and!; [|done..].
    vm_compute. by right; left.
Defined.
