(* ===== verification/Operations.v ===== *)
(** * The operations page

    Models frontend/src/pages/OperationsPage.tsx: the query of the failure list and its
    filters, what the page shows for the results of its three queries, the collection
    path and the snapshot of the pipeline, the figures of the ingest summary, and the
    translation of the sentences the backend reports. *)

From Stdlib Require Import QArith Qround.
From S2P Require Import Prelude JsNumber JsDate Json Url Contracts ApiClient UrlState Translations I18n Topology ListPages Intelligence.

#[local] Open Scope list_scope.
#[local] Open Scope Z_scope.

(** ** The contract of failures *)

Inductive EventFailureStatus : Type := Failure_FAILED | Failure_REPLAY_PUBLISHED | Failure_REPROCESSED | Failure_REPROCESS_FAILED.
#[export] Instance EventFailureStatus_eq_dec : EqDecision EventFailureStatus.
Proof. solve_decision. Defined.
Definition EventFailureStatus_name (v : EventFailureStatus) : ustring :=
  match v with
  | Failure_FAILED => u! "FAILED"
  | Failure_REPLAY_PUBLISHED => u! "REPLAY_PUBLISHED"
  | Failure_REPROCESSED => u! "REPROCESSED"
  | Failure_REPROCESS_FAILED => u! "REPROCESS_FAILED"
  end.
#[export] Instance EventFailureStatus_literal : Literal EventFailureStatus.
Proof.
  refine {| lit_name := EventFailureStatus_name;
    lit_values := [Failure_FAILED; Failure_REPLAY_PUBLISHED; Failure_REPROCESSED; Failure_REPROCESS_FAILED] |}; literal_laws.
Defined.

Record EventFailureDto := mkEventFailureDto {
  failure_consumerName : ustring;
  failure_createdAt : ustring;
  failure_endpointId : Z;
  failure_errorMessage : ustring;
  failure_eventId : ustring;
  failure_failedAt : ustring;
  failure_failureCode : option ustring;
  failure_failureId : ustring;
  failure_failureStage : ustring;
  failure_lastReplayedAt : option ustring;
  failure_payloadObjectKey : option ustring;
  failure_payloadSha256 : option ustring;
  failure_payloadSizeBytes : option Z;
  failure_replayCount : Z;
  failure_reprocessOutcome : option ustring;
  failure_resolvedAt : option ustring;
  failure_retentionExpiresAt : ustring;
  failure_retryCount : Z;
  failure_retryable : bool;
  failure_sourceOffset : Z;
  failure_sourcePartition : Z;
  failure_sourceTopic : ustring;
  failure_status : EventFailureStatus;
  failure_updatedAt : ustring;
}.

Record FailureListQuery := mkFailureListQuery {
  fq_time : DashboardTimeQuery; fq_page : Z; fq_size : Z; fq_sortOrder : SortOrder;
  fq_status : option EventFailureStatus; fq_failureStage : option ustring; fq_retryable : option bool;
}.

(** ** The page *)

Section queries.
Context `{DateHost}.

Definition FAILURE_STATUSES : list EventFailureStatus :=
  [Failure_FAILED; Failure_REPLAY_PUBLISHED; Failure_REPROCESSED; Failure_REPROCESS_FAILED].

Definition failureStatus (params : URLSearchParams) : option EventFailureStatus :=
  allowedValue (params_get params (u! "failureStatus")) FAILURE_STATUSES.

(** [allowedValue(params.get("retryable"), ["true", "false"])], compared with "true". *)
Definition retryable (params : URLSearchParams) : option bool :=
  match params_get params (u! "retryable") with
  | Some v => if bool_decide (v = u! "true") then Some true else if bool_decide (v = u! "false") then Some false else None
  | None => None
  end.

Definition failureQuery (params : URLSearchParams) : FailureListQuery :=
  mkFailureListQuery (tf_query (readTimeFilter params)) (page_of params) 50 Order_desc (failureStatus params)
    (stage ← params_get params (u! "failureStage"); if truthy stage then Some stage else None) (retryable params).

(** The three filters of the failure list. *)
Definition onFailureFilter (key : ustring) (params : URLSearchParams) (value : ustring) : URLSearchParams :=
  updateParams params [(key, UrlState.PText value); (u! "page", PNull)] true.

(** What the page fetches by itself, and what the refresh button fetches. *)
Inductive OperationsRequest := IngestRequest (query : DashboardTimeQuery) | HealthRequest | FailuresRequest (query : FailureListQuery).

Definition enabled_requests (params : URLSearchParams) : list OperationsRequest :=
  let time := readTimeFilter params in
  (if tf_valid time then [IngestRequest (tf_query time)] else []) ++ [HealthRequest]
  ++ (if tf_valid time then [FailuresRequest (failureQuery params)] else []).

Definition refresh (params : URLSearchParams) (refreshing : bool) : list OperationsRequest :=
  if refreshing then []
  else [IngestRequest (tf_query (readTimeFilter params)); HealthRequest; FailuresRequest (failureQuery params)].
End queries.

Inductive Resource := HealthResource | IngestResource | FailuresResource.
Inductive OperationsPart :=
| OSkeleton (which : Resource) | OError (which : Resource) (error : Rejection) | OStale (which : Resource) (error : option Rejection)
| OPartial (ingestMissing : bool) | OSnapshot | OContent (which : Resource).

Definition lost_query {A} (q : QueryResult A) : bool := is_Some_b (q_error q) && negb (is_Some_b (q_data q)).

(** Skeleton, error, stale warning of a query. *)
Definition query_state {A} (which : Resource) (stale : bool) (q : QueryResult A) : list OperationsPart * list OperationsPart * list OperationsPart :=
  (if q_pending q then [OSkeleton which] else [],
   match q_error q, q_data q with Some e, None => [OError which e] | _, _ => [] end,
   if stale && q_refetchError q then match q_data q with Some _ => [OStale which (q_error q)] | None => [] end else []).

Definition operations_parts {H I F} (health : QueryResult H) (ingest : QueryResult I) (failures : QueryResult F) : list OperationsPart :=
  let '(hs, he, hw) := query_state HealthResource true health in
  let '(ss, ie, iw) := query_state IngestResource true ingest in
  let '(fs, fe, _) := query_state FailuresResource false failures in
  hs ++ he ++ hw
  ++ (if xorb (lost_query health) (lost_query ingest) then [OPartial (is_Some_b (q_data health))] else [])
  ++ match q_data health, q_data ingest with Some _, Some _ => [OSnapshot] | _, _ => [] end
  ++ match q_data health with Some _ => [OContent HealthResource] | None => [] end
  ++ ss ++ ie ++ iw
  ++ match q_data ingest with Some _ => [OContent IngestResource] | None => [] end
  ++ fs ++ fe
  ++ match q_data failures with Some _ => [OContent FailuresResource] | None => [] end.

(** ** Sentences of the backend *)

(** [/(.+)<suffix>$/]: the longest group first. *)
Fixpoint greedy_group (suffix s : ustring) : option ustring :=
  match s with
  | [] => None
  | c :: rest =>
    if line_terminator c then None
    else match greedy_group suffix rest with
         | Some group => Some (c :: group)
         | None => if bool_decide (rest = suffix) then Some [c] else None
         end
  end.

(** [/(.+?)[.]?$/]: the shortest group first. *)
Fixpoint lazy_group (s : ustring) : option ustring :=
  match s with
  | [] => None
  | c :: rest =>
    if line_terminator c then None
    else if bool_decide (rest = u! ".") || bool_decide (rest = []) then Some [c]
    else cons c <$> lazy_group rest
  end.

Definition strip_prefix (prefix s : ustring) : option ustring :=
  if starts_with prefix s then Some (drop (length prefix) s) else None.

Definition liveFailure (detail : ustring) : option ustring :=
  rest ← strip_prefix (u! "Live dependency probe failed (") detail; greedy_group (u! ").") rest.
Definition workerFailure (detail : ustring) : option ustring :=
  rest ← strip_prefix (u! "Worker probe failed (") detail; greedy_group (u! ").") rest.
(** The colon is taken when it is there. *)
Definition brokerState (detail : ustring) : option ustring :=
  rest ← strip_prefix (u! "Broker group state") detail;
  rest ← strip_prefix (u! " ") (default rest (strip_prefix (u! ":") rest));
  lazy_group rest.

Section texts.
Context (displayLocale : Locale).
#[local] Abbreviation t := (translate displayLocale).

Definition operationsDetail (detail : ustring) : option ustring :=
  if bool_decide (detail = u! "The authenticated operations endpoint is responding.") then t "operations.backendResponding" []
  else if bool_decide (detail = u! "Live dependency probe succeeded.") then t "operations.liveProbeSucceeded" []
  else if bool_decide (detail = u! "Live dependency probe failed.") then t "operations.liveProbeFailedPlain" []
  else if bool_decide (detail = u! "Worker probe failed.") then t "operations.workerProbeFailedPlain" []
  else match liveFailure detail with
  | Some error => t "operations.liveProbeFailed" [(u! "error", I18n.PText error)]
  | None =>
    match workerFailure detail with
    | Some error => t "operations.workerProbeFailed" [(u! "error", I18n.PText error)]
    | None =>
      match brokerState detail with
      | Some state => t "operations.brokerGroupState" [(u! "state", I18n.PText state)]
      | None => Some detail
      end
    end
  end.

Definition count_param (unknown : ustring) (count : option Z) : ParamValue :=
  match count with Some n => I18n.PNumber (num_of_Z n) | None => I18n.PText unknown end.

Definition workerDetail (worker : option PipelineWorkerDto) (unknown : ustring) : option ustring :=
  match worker with
  | None => Some unknown
  | Some w => t "operations.memberLag"
                [(u! "count", count_param unknown (worker_memberCount w)); (u! "lag", count_param unknown (worker_lag w))]
  end.

(** ** The collection path *)

Context (toLowerCase : ustring → ustring).

Definition find_service (health : OperationsHealthDto) (name : ustring) : option ServiceHealthDto :=
  js_find (λ item, bool_decide (svc_service item = name)) (health_services health).
Definition find_worker (health : OperationsHealthDto) (name : ustring) : option PipelineWorkerDto :=
  js_find (λ item, includes (toLowerCase (worker_worker item)) name) (health_workers health).

Record PathNode := mkPathNode { path_label : ustring; path_detail : ustring; path_status : ustring }.

Definition no_probe : ustring := u! "NO PROBE".
Definition service_status (s : option ServiceHealthDto) : ustring :=
  match s with Some s => lit_name (svc_status s) | None => no_probe end.
Definition worker_state (w : option PipelineWorkerDto) : ustring :=
  match w with Some w => lit_name (worker_status w) | None => no_probe end.

Definition service_detail (latency : bool) (s : option ServiceHealthDto) : option ustring :=
  match s with
  | Some s =>
    detail ← operationsDetail (svc_detail s);
    Some ((if latency then string_of_num (svc_latencyMs s) ++ u! " ms · " else []) ++ detail)
  | None => t "operations.noHealthProbe" []
  end.

Definition CollectionPath (health : OperationsHealthDto) : option (list PathNode) :=
  let backend := find_service health (u! "Backend API") in
  let kafka := find_service health (u! "Kafka") in
  let clickhouse := find_service health (u! "ClickHouse") in
  let postgres := find_service health (u! "PostgreSQL") in
  let storageWorker := find_worker health (u! "storage") in
  let detectionWorker := find_worker health (u! "detection") in
  agent ← t "operations.pathAgent" []; none ← t "operations.noHealthProbe" []; unknown ← t "operations.unknown" [];
  collector ← t "operations.pathCollector" []; collector_detail ← service_detail true backend;
  kafka_detail ← service_detail false kafka;
  storage ← t "operations.pathStorageWorker" []; storage_detail ← workerDetail storageWorker unknown;
  clickhouse_detail ← service_detail true clickhouse;
  detection ← t "operations.pathDetectionWorker" []; detection_detail ← workerDetail detectionWorker unknown;
  postgres_detail ← service_detail true postgres;
  Some
    [mkPathNode agent none no_probe; mkPathNode (u! "Nginx / mTLS") none no_probe;
     mkPathNode collector collector_detail (service_status backend);
     mkPathNode (u! "Kafka telemetry.raw") kafka_detail (service_status kafka);
     mkPathNode storage storage_detail (worker_state storageWorker);
     mkPathNode (u! "ClickHouse") clickhouse_detail (service_status clickhouse);
     mkPathNode (u! "Kafka telemetry.validated") kafka_detail (service_status kafka);
     mkPathNode detection detection_detail (worker_state detectionWorker);
     mkPathNode (u! "PostgreSQL") postgres_detail (service_status postgres)].
End texts.

(** ** The snapshot of the pipeline and the figures of the summary *)

(** [value.toFixed(2)] *)
Definition two_digits (n : Z) : ustring := if n <? 10 then 48 :: dec_string n else dec_string n.
Definition hundredths (n : Z) : ustring := dec_string (n / 100) ++ u! "." ++ two_digits (n mod 100).
Definition toFixed2 (x : jsnum) : ustring :=
  match x with
  | Fin q =>
    let text q := if Qle_bool (inject_Z (10 ^ 21)) q then string_of_num (Fin q) else hundredths (Qfloor (q * inject_Z 100 + (1 # 2))) in
    if Qneg q then 45 :: text (- q)%Q else text q
  | _ => string_of_num x
  end.

Section figures.
Context `{DateHost} (displayLocale : Locale) (mediumDateTime : Locale → Z → ustring).
#[local] Abbreviation t := (translate displayLocale).
#[local] Abbreviation formatDate := (formatDateTime mediumDateTime displayLocale).
#[local] Abbreviation number := (λ n, I18n.PNumber (num_of_Z n)).

Definition totalLag (health : OperationsHealthDto) : Z :=
  foldl (λ sum worker, sum + default 0 (worker_lag worker)) 0 (health_workers health).

(** The primary and secondary lines of a stage. *)
Definition stage_details (health : OperationsHealthDto) (ingest : IngestSummaryDto) (id : PipelineStageId) : option (ustring * ustring) :=
  let events := ingest_events ingest in let failures := ingest_eventFailures ingest in let storage := ingest_storage ingest in
  match id with
  | COLLECTION =>
    primary ← t "operations.collectionEvents" [(u! "count", number (ingested_ingestedCount events))];
    secondary ← match ingested_latestIngestedAt events with
                | Some latest => if truthy latest then time ← formatDate (Some latest); t "operations.collectionLatest" [(u! "time", I18n.PText time)]
                                 else t "operations.noIngestedInRange" []
                | None => t "operations.noIngestedInRange" []
                end;
    Some (primary, secondary)
  | DETECTION =>
    primary ← t "operations.detectionWorkers" [(u! "count", number (Z.of_nat (length (health_workers health)))); (u! "lag", number (totalLag health))];
    secondary ← t "operations.detectionFailures" [(u! "count", number (failures_failedCount failures + failures_reprocessFailedCount failures))];
    Some (primary, secondary)
  | STORAGE =>
    primary ← t "operations.storageBuckets" [(u! "count", number (istorage_clickhouseHotBucketCount storage
                + istorage_glacierArchivedBucketCount storage + istorage_restoredBucketCount storage))];
    secondary ← t "operations.storageExceptions" [(u! "restoring", number (istorage_restoringBucketCount storage));
                  (u! "failed", number (istorage_failedBucketCount storage))];
    Some (primary, secondary)
  end.

Definition PipelineSnapshot (health : OperationsHealthDto) (ingest : IngestSummaryDto) :
  list (PipelineSnapshotStage * option (ustring * ustring)) :=
  map (λ stage, (stage, stage_details health ingest (stage_id stage))) (buildPipelineSnapshot health ingest).

(** [Math.max(0, Math.floor((Date.now() - Date.parse(timestamp)) / 60_000))] *)
Definition freshness (now : Z) (timestamp : option ustring) : option (option (ustring * jsnum)) :=
  match timestamp with
  | Some timestamp =>
    if truthy timestamp then
      time ← formatDate (Some timestamp);
      Some (Some (time, match Date_parse timestamp with Some at_ => num_of_Z (Z.max 0 ((now - at_) / 60000)) | None => NaN end))
    else Some None
  | None => Some None
  end.

Record IngestCard := mkIngestCard { card_detail : ustring; card_tone : ustring; card_value : Z }.

Definition IngestContent (now : Z) (data : IngestSummaryDto) : option (list IngestCard * list (ustring * Z)) :=
  let events := ingest_events data in let failures := ingest_eventFailures data in let storage := ingest_storage data in
  let tone n name := if n =? 0 then u! "neutral" else name in
  latest ← freshness now (ingested_latestIngestedAt events);
  ingested ← match latest with
             | Some (time, minutes) =>
               t "operations.ingestFreshness" [(u! "rate", I18n.PText (toFixed2 (ingested_ratePerMinute events)));
                 (u! "time", I18n.PText time); (u! "minutes", I18n.PNumber minutes)]
             | None => t "operations.noIngestedInRange" []
             end;
  oldest ← formatDate (failures_oldestFailedAt failures);
  failed ← t "operations.failureRate" [(u! "rate", I18n.PText (toFixed2 (failures_ratePerMinute failures))); (u! "time", I18n.PText oldest)];
  reprocessed ← t "operations.reprocessedDetail" []; reprocessFailed ← t "operations.reprocessFailedDetail" [];
  Some
    ([mkIngestCard ingested (u! "neutral") (ingested_ingestedCount events);
      mkIngestCard failed (tone (failures_failedCount failures) (u! "critical")) (failures_failedCount failures);
      mkIngestCard reprocessed (u! "neutral") (failures_reprocessedCount failures);
      mkIngestCard reprocessFailed (tone (failures_reprocessFailedCount failures) (u! "warning")) (failures_reprocessFailedCount failures)],
     [(u! "ClickHouse HOT", istorage_clickhouseHotBucketCount storage); (u! "RESTORED", istorage_restoredBucketCount storage);
      (u! "ARCHIVED", istorage_glacierArchivedBucketCount storage); (u! "RESTORE REQUESTED", istorage_restoringBucketCount storage);
      (u! "RESTORE FAILED", istorage_failedBucketCount storage); (u! "EXPIRED", istorage_expiredBucketCount storage)]).
End figures.

Example toFixed2_texts : map toFixed2 [Fin (double 1 10); Fin (double 1005 1000); Fin (double (-5) 2); num_of_Z 12; NaN; Fin (double 375 1000)] =
  [u! "0.10"; u! "1.00"; u! "-2.50"; u! "12.00"; u! "NaN"; u! "0.38"].
Proof. vm_compute. reflexivity. Qed.

(** ** Claims: sentences *)

Definition no_breaks (s : ustring) : Prop := Forall (λ c, line_terminator c = false) s.

Lemma greedy_group_spec suffix s group : no_breaks suffix → suffix ≠ [] →
  greedy_group suffix s = Some group → s = group ++ suffix ∧ group ≠ [] ∧ no_breaks group.
Proof.
  intros Hs Hne. revert group. induction s as [|c s IH]; intros group; cbn [greedy_group]; [done|].
  destruct (line_terminator c) eqn:Hc; [done|]. destruct (greedy_group suffix s) as [g|].
  - intros [= <-]. destruct (IH g eq_refl) as (-> & _ & Hb). split_and!; [done..|by constructor].
  - case_bool_decide as Heq; [|done]. intros [= <-]. subst. split_and!; [done..|by repeat constructor].
Qed.

Lemma greedy_group_found suffix group : no_breaks suffix → suffix ≠ [] → no_breaks group → group ≠ [] →
  greedy_group suffix (group ++ suffix) = Some group.
Proof.
  intros Hs Hne Hg Hng. assert (greedy_group suffix suffix = None) as Hself.
  { destruct (greedy_group suffix suffix) as [g|] eqn:E; [|done].
    apply greedy_group_spec in E as (E & Hgne & _); [|done..]. apply (f_equal length) in E. rewrite length_app in E.
    destruct g; [done|]. cbn in E. lia. }
  induction Hg as [|c g Hc Hg IH]; [done|]. cbn [app greedy_group]. rewrite Hc. destruct g as [|d g].
  - cbn [app]. by rewrite Hself, bool_decide_true.
  - by rewrite IH.
Qed.

Lemma lazy_group_found s : no_breaks s → s ≠ [] → lazy_group (s ++ u! ".") = Some s.
Proof.
  intros Hs Hne. induction Hs as [|c s Hc Hs IH]; [done|]. cbn [app lazy_group]. rewrite Hc. destruct s as [|d s].
  - reflexivity.
  - rewrite bool_decide_false, bool_decide_false by (intros Heq; apply (f_equal length) in Heq; rewrite !length_app in Heq; cbn in Heq; lia).
    cbn [orb]. by rewrite IH.
Qed.

Lemma strip_prefix_app prefix s : strip_prefix prefix (prefix ++ s) = Some s.
Proof.
  unfold strip_prefix. assert (starts_with prefix (prefix ++ s) = true) as ->; [|by rewrite drop_app_length].
  induction prefix as [|c prefix IH]; [done|]. cbn. by rewrite Z.eqb_refl.
Qed.

Lemma strip_prefix_Some prefix s rest : strip_prefix prefix s = Some rest → s = prefix ++ rest.
Proof.
  unfold strip_prefix. destruct (starts_with prefix s) eqn:E; [|done]. intros [= <-]. revert s E.
  induction prefix as [|c prefix IH]; intros [|d s]; cbn; try done. rewrite andb_true_iff, Z.eqb_eq. intros [-> E]. by rewrite <- IH.
Qed.

Lemma failure_spec prefix detail error : (rest ← strip_prefix prefix detail; greedy_group (u! ").") rest) = Some error →
  detail = prefix ++ error ++ u! ").".
Proof.
  destruct (strip_prefix prefix detail) as [rest|] eqn:E; [|done]. cbn [mbind option_bind]. intros Hg.
  apply strip_prefix_Some in E as ->. apply greedy_group_spec in Hg as (-> & _); [done|by repeat constructor|done].
Qed.

(** The texts of the sentences with a group. *)
Lemma live_text error : translate EN "operations.liveProbeFailed" [(u! "error", I18n.PText error)] =
  Some (u! "Live dependency probe failed (" ++ error ++ u! ").").
Proof. vm_compute. reflexivity. Qed.
Lemma worker_text error : translate EN "operations.workerProbeFailed" [(u! "error", I18n.PText error)] =
  Some (u! "Worker probe failed (" ++ error ++ u! ").").
Proof. vm_compute. reflexivity. Qed.
Lemma broker_text state : translate EN "operations.brokerGroupState" [(u! "state", I18n.PText state)] =
  Some (u! "Broker group state " ++ state ++ u! ".").
Proof. vm_compute. reflexivity. Qed.

Ltac text_known := apply translate_total; vm_compute; reflexivity.

(** A sentence with a group is none of those without. *)
Lemma probe_not_plain detail prefix error : detail = prefix ++ error ++ u! ")." →
  prefix = u! "Live dependency probe failed (" ∨ prefix = u! "Worker probe failed (" →
  detail ≠ u! "The authenticated operations endpoint is responding." ∧ detail ≠ u! "Live dependency probe succeeded." ∧
  detail ≠ u! "Live dependency probe failed." ∧ detail ≠ u! "Worker probe failed.".
Proof. intros -> [->| ->]; split_and!; vm_compute; congruence. Qed.

Lemma sentence_live displayLocale detail error : detail = u! "Live dependency probe failed (" ++ error ++ u! ")." →
  liveFailure detail = Some error →
  operationsDetail displayLocale detail = translate displayLocale "operations.liveProbeFailed" [(u! "error", I18n.PText error)].
Proof.
  intros Hd Hl. destruct (probe_not_plain _ _ _ Hd (or_introl eq_refl)) as (H1 & H2 & H3 & H4). clear Hd.
  unfold operationsDetail. do 4 (rewrite bool_decide_false by assumption). by rewrite Hl.
Qed.

Lemma sentence_worker displayLocale detail error : detail = u! "Worker probe failed (" ++ error ++ u! ")." →
  workerFailure detail = Some error →
  operationsDetail displayLocale detail = translate displayLocale "operations.workerProbeFailed" [(u! "error", I18n.PText error)].
Proof.
  intros Hd Hw. destruct (probe_not_plain _ _ _ Hd (or_intror eq_refl)) as (H1 & H2 & H3 & H4).
  assert (liveFailure detail = None) as Hl by (rewrite Hd; vm_compute; reflexivity). clear Hd.
  unfold operationsDetail. do 4 (rewrite bool_decide_false by assumption). by rewrite Hl, Hw.
Qed.

Lemma sentence_broker displayLocale detail state : (∃ rest, detail = u! "Broker group state" ++ rest) → brokerState detail = Some state →
  operationsDetail displayLocale detail = translate displayLocale "operations.brokerGroupState" [(u! "state", I18n.PText state)].
Proof.
  intros [rest Hd] Hs. assert (liveFailure detail = None ∧ workerFailure detail = None) as [H1 H2] by (rewrite Hd; split; vm_compute; reflexivity).
  unfold operationsDetail. do 4 (rewrite bool_decide_false by (rewrite Hd; vm_compute; congruence)). by rewrite H1, H2, Hs.
Qed.

Lemma probe_no_broker error :
  brokerState (u! "Live dependency probe failed (" ++ error ++ u! ").") = None ∧
  brokerState (u! "Worker probe failed (" ++ error ++ u! ").") = None.
Proof. split; vm_compute; reflexivity. Qed.

(** the sentences of the backend are translated without loss. Every sentence has a
    text in both languages; a failed probe shows its error and a broker group its state,
    with or without the colon, in the words of the language; and in English a sentence
    is shown as it came, a broker state being written the backend's way. *)
Theorem operations_detail_faithful :
  (∀ displayLocale detail, is_Some (operationsDetail displayLocale detail)) ∧
  (∀ displayLocale error, no_breaks error → error ≠ [] →
     operationsDetail displayLocale (u! "Live dependency probe failed (" ++ error ++ u! ").")
       = translate displayLocale "operations.liveProbeFailed" [(u! "error", I18n.PText error)] ∧
     operationsDetail displayLocale (u! "Worker probe failed (" ++ error ++ u! ").")
       = translate displayLocale "operations.workerProbeFailed" [(u! "error", I18n.PText error)]) ∧
  (∀ displayLocale (colon : bool) state, no_breaks state → state ≠ [] →
     operationsDetail displayLocale (u! "Broker group state" ++ (if colon then u! ":" else []) ++ u! " " ++ state ++ u! ".")
       = translate displayLocale "operations.brokerGroupState" [(u! "state", I18n.PText state)]) ∧
  (∀ detail, operationsDetail EN detail =
     Some (match brokerState detail with Some state => u! "Broker group state " ++ state ++ u! "." | None => detail end)).
Proof.
  split_and!.
  - intros loc detail. unfold operationsDetail. repeat case_match; subst; try text_known. by eexists.
  - intros loc error Hb Hne.
    assert (∀ prefix, (rest ← strip_prefix prefix (prefix ++ error ++ u! ")."); greedy_group (u! ").") rest) = Some error) as Hg.
    { intros prefix. rewrite strip_prefix_app. cbn [mbind option_bind]. apply greedy_group_found; [by repeat constructor|done..]. }
    split; [eapply (sentence_live _ _ _ eq_refl)|eapply (sentence_worker _ _ _ eq_refl)]; apply Hg.
  - intros loc colon state Hb Hne. apply sentence_broker; [by destruct colon; eexists|].
    unfold brokerState. rewrite strip_prefix_app. cbn [mbind option_bind].
    assert (default ((if colon then u! ":" else []) ++ u! " " ++ state ++ u! ".")
      (strip_prefix (u! ":") ((if colon then u! ":" else []) ++ u! " " ++ state ++ u! ".")) = u! " " ++ state ++ u! ".") as ->
      by (destruct colon; reflexivity).
    rewrite strip_prefix_app. by apply lazy_group_found.
  - intros detail. unfold operationsDetail.
    do 4 (case_bool_decide; [subst; vm_compute; reflexivity|]).
    destruct (liveFailure detail) as [error|] eqn:E; [apply failure_spec in E as ->; by rewrite live_text, (proj1 (probe_no_broker error))|].
    destruct (workerFailure detail) as [error|] eqn:E'; [apply failure_spec in E' as ->; by rewrite worker_text, (proj2 (probe_no_broker error))|].
    destruct (brokerState detail); [apply broker_text|done].
Qed.

(** ** Claims: what is shown *)

Definition concerns (which : Resource) (part : OperationsPart) : bool :=
  match part with
  | OSkeleton r | OError r _ | OContent r =>
    match r, which with HealthResource, HealthResource | IngestResource, IngestResource | FailuresResource, FailuresResource => true | _, _ => false end
  | _ => false
  end.

(** The part that stands for a query. *)
Definition part_of {A} (which : Resource) (q : QueryResult A) : OperationsPart :=
  match q with QPending => OSkeleton which | QFailed e => OError which e | QData _ _ => OContent which end.

Definition fails {A} (q : QueryResult A) : bool := match q with QFailed _ => true | _ => false end.
Definition loaded {A} (q : QueryResult A) : bool := match q with QData _ _ => true | _ => false end.
Definition stale_warning {A} (which : Resource) (q : QueryResult A) : list OperationsPart :=
  match q with QData _ (Some e) => [OStale which (Some e)] | _ => [] end.
Definition is_snapshot (part : OperationsPart) : bool := match part with OSnapshot => true | _ => false end.
Definition is_partial (part : OperationsPart) : bool := match part with OPartial _ => true | _ => false end.
Definition is_stale (part : OperationsPart) : bool := match part with OStale _ _ => true | _ => false end.

(** C28: the operations page says how each of its queries went. For each of the three,
    exactly one of a skeleton, its error and its content is shown; the snapshot is shown
    when health and ingest are; later failures of these two are reported with the
    content, those of the failure list are not. The warning of a partial failure is
    shown when just one of health and ingest has failed, and it blames the ingest
    summary exactly when the health is there: while the health is still loading, a
    failed ingest summary is announced as missing probes. *)
Theorem operations_feedback {H I F} (health : QueryResult H) (ingest : QueryResult I) (failures : QueryResult F) :
  let parts := operations_parts health ingest failures in
  js_filter (concerns HealthResource) parts = [part_of HealthResource health] ∧
  js_filter (concerns IngestResource) parts = [part_of IngestResource ingest] ∧
  js_filter (concerns FailuresResource) parts = [part_of FailuresResource failures] ∧
  js_filter is_snapshot parts = (if loaded health && loaded ingest then [OSnapshot] else []) ∧
  js_filter is_stale parts = stale_warning HealthResource health ++ stale_warning IngestResource ingest ∧
  js_filter is_partial parts = (if xorb (fails health) (fails ingest) then [OPartial (loaded health)] else []) ∧
  (∀ e, OPartial false ∈ operations_parts (@QPending H) (@QFailed I e) failures).
Proof.
  intros parts. unfold parts, operations_parts, query_state, lost_query.
  destruct health as [|eh|dh [eh|]], ingest as [|ei|di [ei|]], failures as [|ef|df [ef|]]; cbn;
    split_and!; try reflexivity; intros e; right; apply list_elem_of_here.
Qed.
