(* ===== verification/EndpointPage.v ===== *)
(** * The endpoint page and the queues of the overview

    Models frontend/src/pages/EndpointDetailPage.tsx (the page of an endpoint: its links,
    facts, sensors and certificates), the risk factors, guidance steps and source event of
    frontend/src/components/ui.tsx, and the two queues of
    frontend/src/features/overview/InvestigationQueues.tsx. *)

From S2P Require Import Prelude JsNumber JsDate Json Url Contracts ApiClient UrlState Translations I18n Topology ListPages Shell Investigation Pickers Intelligence Routes.

#[local] Open Scope list_scope.
#[local] Open Scope Z_scope.

(** ** The contract of endpoints *)

Inductive AgentArchitecture : Type := Arch_X64 | Arch_ARM64.
Definition AgentArchitecture_name (v : AgentArchitecture) : ustring := match v with Arch_X64 => u! "X64" | Arch_ARM64 => u! "ARM64" end.

Inductive RiskFactorSource : Type := Source_ALERT | Source_INCIDENT.
#[export] Instance RiskFactorSource_eq_dec : EqDecision RiskFactorSource.
Proof. solve_decision. Defined.
Definition RiskFactorSource_name (v : RiskFactorSource) : ustring :=
  match v with Source_ALERT => u! "ALERT" | Source_INCIDENT => u! "INCIDENT" end.

Record EndpointRiskFactorDto := mkRiskFactor {
  factor_code : ustring;
  factor_contribution : Z;
  factor_description : ustring;
  factor_sourceId : Z;
  factor_sourceType : RiskFactorSource;
  factor_title : ustring;
}.

Record EndpointRiskDto := mkEndpointRisk {
  risk_activeAlertCount : Z;
  risk_calculatedAt : ustring;
  risk_highestAlertRiskScore : option Z;
  risk_level : RiskLevel;
  risk_openIncidentCount : Z;
  risk_riskFactors : list EndpointRiskFactorDto;
  risk_score : Z;
}.

Record SensorHealthDto := mkSensorHealth {
  sensor_packetDropCount : option Z;
  sensor_parseErrorCount : option Z;
  sensor_provider : option ustring;
  sensor_sensor : ustring;
  sensor_status : SensorHealth;
}.

Record CertificateDto := mkCertificate {
  cert_certFingerprint : ustring;
  cert_certSanAgentId : ustring;
  cert_certSubject : ustring;
  cert_expiresAt : ustring;
  cert_isExpired : bool;
  cert_isRevoked : bool;
  cert_issuedAt : ustring;
  cert_revokedAt : option ustring;
}.

Record EndpointDto := mkEndpointDto {
  endpoint_agentArch : option AgentArchitecture;
  endpoint_agentBuildId : option ustring;
  endpoint_agentId : ustring;
  endpoint_agentVersion : option ustring;
  endpoint_capabilityCodes : list ustring;
  endpoint_endpointId : Z;
  endpoint_hostname : ustring;
  endpoint_ipAddress : option ustring;
  endpoint_isStale : bool;
  endpoint_lastSeenAt : option ustring;
  endpoint_osType : OsType;
  endpoint_osVersion : option ustring;
  endpoint_registeredAt : ustring;
  endpoint_risk : EndpointRiskDto;
  endpoint_sensorHealth : list SensorHealthDto;
  endpoint_status : EndpointStatus;
}.

(** The details are the endpoint with its certificates. *)
Record EndpointDetailDto := mkEndpointDetail { detail_endpoint : EndpointDto; detail_certificates : list CertificateDto }.

Record IncidentDto := mkIncidentDto {
  incident_alertCount : Z;
  incident_closedAt : option ustring;
  incident_correlationKey : ustring;
  incident_createdAt : ustring;
  incident_description : option ustring;
  incident_endpointId : Z;
  incident_firstDetectedAt : ustring;
  incident_incidentId : Z;
  incident_lastDetectedAt : ustring;
  incident_severity : Severity;
  incident_status : IncidentStatus;
  incident_title : ustring;
  incident_updatedAt : ustring;
  incident_windowEndAt : ustring;
  incident_windowStartAt : ustring;
}.

(** ** Certificates *)

Inductive CertificateStatus := REVOKED | EXPIRED | ACTIVE.
#[export] Instance CertificateStatus_eq_dec : EqDecision CertificateStatus.
Proof. solve_decision. Defined.

Definition anomaly (c : CertificateDto) : bool := cert_isRevoked c || cert_isExpired c.
Definition certificateStatus (c : CertificateDto) : CertificateStatus :=
  if cert_isRevoked c then REVOKED else if cert_isExpired c then EXPIRED else ACTIVE.

Section certificates.
Context `{LocaleHost}.

(** [Number(right anomaly) - Number(left anomaly) || right.issuedAt.localeCompare(left.issuedAt)] *)
Definition compare_certificates : CertificateDto → CertificateDto → comparison :=
  cmp_then (cmp_rev (cmp_on (λ c, if anomaly c then 1 else 0) Z.compare)) (cmp_rev (cmp_on cert_issuedAt localeCompare)).

Definition certificates (endpoint : EndpointDetailDto) : list CertificateDto := js_sort compare_certificates (detail_certificates endpoint).

Record CertificateRow := mkCertificateRow {
  row_certificate : CertificateDto; row_status : CertificateStatus; row_anomaly : bool;
}.
Definition certificate_rows (endpoint : EndpointDetailDto) : list CertificateRow :=
  map (λ c, mkCertificateRow c (certificateStatus c) (anomaly c)) (certificates endpoint).
End certificates.

(** ** The page *)

Record EndpointPage := mkEndpointPage { page_endpointId : option Z; page_back : ustring }.

(** [None] is the page of an invalid identifier. *)
Definition endpoint_page (param : ustring) (params : URLSearchParams) : EndpointPage :=
  mkEndpointPage (positive_int (number_of param)) (u! "/endpoints" ++ search_of params).

Definition alerts_of (id : Z) : ustring := u! "/alerts?endpointId=" ++ string_of_Z id ++ u! "&status=OPEN".
Definition incidents_of (id : Z) : ustring := u! "/incidents?endpointId=" ++ string_of_Z id ++ u! "&status=OPEN".
Definition events_of (id : Z) : ustring := u! "/events?endpointId=" ++ string_of_Z id.

Inductive FactValue := FText (s : ustring) | FNumber (n : Z) | FLevel (level : RiskLevel).

Section facts.
Context `{DateHost} (displayLocale : Locale) (mediumDateTime : Locale → Z → ustring) (toLowerCase : ustring → ustring).
#[local] Abbreviation t := (translate displayLocale).
#[local] Abbreviation formatDate := (formatDateTime mediumDateTime displayLocale).
#[local] Abbreviation nullable v := (displayNullable displayLocale (I18n.PText <$> v)).

(** The warning of an endpoint that has not been heard of. *)
Definition stale_text (e : EndpointDto) : option (option ustring) :=
  if endpoint_isStale e then
    time ← formatDate (endpoint_lastSeenAt e); text ← t "endpoint.staleWarning" [(u! "time", I18n.PText time)]; Some (Some text)
  else Some None.

Definition risk_facts (e : EndpointDto) : option (list (ustring * FactValue)) :=
  let risk := endpoint_risk e in
  level ← t "endpoint.level" []; alerts ← t "endpoints.activeAlerts" []; incidents ← t "endpoints.openIncidents" [];
  highest ← t "endpoint.highestAlertScore" []; none ← t "common.notAvailable" [];
  Some [(level, FLevel (risk_level risk)); (alerts, FNumber (risk_activeAlertCount risk)); (incidents, FNumber (risk_openIncidentCount risk));
        (highest, match risk_highestAlertRiskScore risk with Some n => FNumber n | None => FText none end)].

Definition profile_facts (e : EndpointDto) : option (list (ustring * ustring)) :=
  os ← t "endpoints.operatingSystem" []; ip ← t "endpoint.ipAddress" []; version ← t "endpoint.agentVersion" [];
  build ← t "endpoint.buildId" []; arch ← t "endpoint.architecture" []; seen ← t "endpoints.lastSeen" [];
  registered ← t "endpoints.registered" []; capabilities ← t "endpoint.capabilities" []; none ← t "common.noneReported" [];
  osVersion ← nullable (endpoint_osVersion e); ipAddress ← nullable (endpoint_ipAddress e); agentVersion ← nullable (endpoint_agentVersion e);
  buildId ← nullable (endpoint_agentBuildId e); agentArch ← nullable (AgentArchitecture_name <$> endpoint_agentArch e);
  lastSeen ← formatDate (endpoint_lastSeenAt e); registeredAt ← formatDate (Some (endpoint_registeredAt e));
  Some [(u! "Agent ID", endpoint_agentId e); (os, lit_name (endpoint_osType e) ++ u! " · " ++ osVersion); (ip, ipAddress);
        (version, agentVersion); (build, buildId); (arch, agentArch); (seen, lastSeen); (registered, registeredAt);
        (capabilities, match endpoint_capabilityCodes e with [] => none | codes => join (u! ", ") codes end)].

Definition sensor_rows (e : EndpointDto) : option (list (ustring * SensorHealth * ustring * FactValue * FactValue)) :=
  none ← t "common.notAvailable" [];
  let count n := match n with Some n => FNumber n | None => FText none end in
  mapM (λ s, provider ← nullable (sensor_provider s);
             Some (sensor_sensor s, sensor_status s, provider, count (sensor_packetDropCount s), count (sensor_parseErrorCount s)))
    (endpoint_sensorHealth e).

(** ** RiskFactorList *)

Record FactorRow := mkFactorRow { factor_key : ustring; factor_score : ustring; factor_text : ustring; factor_detail : ustring; factor_to : ustring; factor_open : ustring }.

Definition factor_link (f : EndpointRiskFactorDto) : ustring :=
  (match factor_sourceType f with Source_ALERT => u! "/alerts/" | Source_INCIDENT => u! "/incidents/" end) ++ string_of_Z (factor_sourceId f).

Definition RiskFactorList (risk : EndpointRiskDto) : option (list FactorRow) :=
  mapM (λ f,
    title ← detectionTitle t (factor_title f) None; description ← riskFactorDescription t (factor_description f);
    let source := match displayLocale with
                  | KO => match factor_sourceType f with Source_ALERT => u! "Alert" | Source_INCIDENT => u! "Incident" end
                  | EN => toLowerCase (RiskFactorSource_name (factor_sourceType f))
                  end in
    open ← t "risk.openSource" [(u! "sourceType", I18n.PText source)];
    Some (mkFactorRow (RiskFactorSource_name (factor_sourceType f) ++ u! "-" ++ string_of_Z (factor_sourceId f) ++ u! "-" ++ factor_code f)
            (u! "+" ++ string_of_Z (factor_contribution f)) title description (factor_link f) open)) (risk_riskFactors risk).
End facts.

(** ** ResponseGuidance and SourceEvent *)

Record ResponseGuidanceStepDto := mkGuidanceStep { step_description : ustring; step_order : Z; step_requiresManualAction : bool; step_title : ustring }.

Definition ResponseGuidance (t : string → TranslationParams → option ustring) (steps : list ResponseGuidanceStepDto) :
  option (list (Z * ustring * option ustring * ustring)) :=
  mapM (λ step, title ← responseGuidanceTitle t (step_title step);
                manual ← (if step_requiresManualAction step then badge ← t "alert.manualAction"%string []; Some (Some badge) else Some None);
                Some (step_order step, title, manual, step_description step)) steps.

(** The link and name of the event; [None] when its time cannot be encoded. *)
Definition SourceEvent (sourceEvent : option EventDto) : option (option (ustring * ustring)) :=
  match sourceEvent with
  | None => Some None
  | Some e =>
    link ← event_link (event_eventId e) (event_endpointId e) (event_occurredAt e);
    Some (Some (link, match event_processName e, event_remoteDomain e, event_filePath e with
                      | Some name, _, _ | None, Some name, _ | None, None, Some name => name
                      | None, None, None => event_eventId e
                      end))
  end.

(** ** The queues of the overview *)

(** [String(n).padStart(2, "0")] *)
Definition pad2 (n : Z) : ustring := let s := string_of_Z n in replicate (2 - length s) 48 ++ s.

Record RankingRow := mkRankingRow {
  rank_text : ustring; rank_endpoint : EndpointDto; rank_to : ustring; rank_note : ustring; rank_level : ustring;
}.
Definition RiskEndpointRanking (toLowerCase : ustring → ustring) (endpoints : list EndpointDto) : list RankingRow :=
  imap (λ index e, mkRankingRow (pad2 (Z.of_nat index + 1)) e (u! "/endpoints/" ++ string_of_Z (endpoint_endpointId e))
    (u! "ID " ++ string_of_Z (endpoint_endpointId e) ++ u! " · " ++ endpoint_agentId e)
    (humanize toLowerCase (lit_name (risk_level (endpoint_risk e))))) endpoints.

Record IncidentQueueRow := mkIncidentRow {
  queue_title : ustring; queue_to : ustring; queue_note : ustring; queue_state : ustring; queue_hover : ustring; queue_time : ustring; queue_incident : IncidentDto;
}.
Section incident_queue.
Context `{DateHost} (displayLocale : Locale) (toLowerCase : ustring → ustring) (mediumDateTime : Locale → Z → ustring)
  (queueParts : Locale → Z → list (ustring * ustring)).
Definition IncidentQueueList (incidents : list IncidentDto) : option (list IncidentQueueRow) :=
  mapM (λ incident,
    title ← detectionTitle (translate displayLocale) (incident_title incident) None;
    hover ← formatDateTime mediumDateTime displayLocale (Some (incident_lastDetectedAt incident));
    time ← formatQueueDateTime queueParts displayLocale (incident_lastDetectedAt incident);
    Some (mkIncidentRow title (u! "/incidents/" ++ string_of_Z (incident_incidentId incident))
      (u! "ID " ++ string_of_Z (incident_incidentId incident)) (humanize toLowerCase (lit_name (incident_status incident))) hover time incident)) incidents.
End incident_queue.

(** ** Claims: certificates *)

Section certificates_claims.
Context `{LocaleHost}.

#[export] Instance compare_certificates_comparator : Comparator compare_certificates.
Proof. unfold compare_certificates. apply _. Qed.

(** A list sorted by a flag and then by [c2] is the flagged elements and then the
    others, each sorted by [c2]. *)
Lemma flagged_first {A} (p : A → bool) c2 (l : list A) :
  StronglySorted (cmp_le (cmp_then (cmp_rev (cmp_on (λ c, if p c then 1 else 0) Z.compare)) c2)) l →
  l = js_filter p l ++ js_filter (λ c, negb (p c)) l ∧
  StronglySorted (cmp_le c2) (js_filter p l) ∧ StronglySorted (cmp_le c2) (js_filter (λ c, negb (p c)) l).
Proof.
  assert (∀ x y, cmp_le (cmp_then (cmp_rev (cmp_on (λ c, if p c then 1 else 0) Z.compare)) c2) x y →
    (p x = p y → cmp_le c2 x y) ∧ (p y = true → p x = true)) as Hle.
  { intros x y. unfold cmp_le, cmp_then, cmp_rev, cmp_on. destruct (p x), (p y); cbn; done. }
  induction 1 as [|x l Hl IH Hx]; [split_and!; [done|constructor..]|]. destruct IH as (Heq & Hp & Hn).
  rewrite !js_filter_cons. rewrite Forall_forall in Hx. destruct (p x) eqn:E; cbn [negb].
  - split_and!; [cbn; by rewrite <- Heq| |done]. constructor; [done|]. apply Forall_forall. intros y [Hy Hpy]%js_filter_elem.
    apply (Hle x y (Hx y Hy)). congruence.
  - assert (js_filter p l = []) as Hnil.
    { destruct (js_filter p l) as [|y r] eqn:E'; [done|]. assert (y ∈ js_filter p l) as [Hy Hpy]%js_filter_elem
        by (rewrite E'; apply list_elem_of_here). by rewrite (proj2 (Hle x y (Hx y Hy)) Hpy) in E. }
    rewrite Hnil in Heq |- *. split_and!; [cbn in *; by rewrite <- Heq|constructor|]. constructor; [done|].
    apply Forall_forall. intros y [Hy Hpy%negb_true_iff]%js_filter_elem. apply (Hle x y (Hx y Hy)). congruence.
Qed.
End certificates_claims.

Definition newest_first `{LocaleHost} : CertificateDto → CertificateDto → Prop :=
  cmp_le (cmp_rev (cmp_on cert_issuedAt localeCompare)).

(** the certificate history of an endpoint is complete and in order. Every
    certificate is listed once; the revoked and expired ones come first and are marked,
    and within the two groups the newest come first, certificates issued at the same
    time keeping the order the server gave them. A certificate is shown as active
    exactly when it is not marked, and a revoked one as revoked even if it has expired. *)
Theorem certificates_listed `{LocaleHost} endpoint :
  certificates endpoint ≡ₚ detail_certificates endpoint ∧
  (∃ marked active, certificates endpoint = marked ++ active ∧
     marked = js_filter anomaly (certificates endpoint) ∧ Forall (λ c, anomaly c = false) active ∧
     StronglySorted newest_first marked ∧ StronglySorted newest_first active) ∧
  (∀ a, filter (λ c, compare_certificates a c = Eq) (certificates endpoint)
        = filter (λ c, compare_certificates a c = Eq) (detail_certificates endpoint)) ∧
  (∀ row, row ∈ certificate_rows endpoint →
     (row_anomaly row = true ↔ row_status row ≠ ACTIVE) ∧
     (row_status row = REVOKED ↔ cert_isRevoked (row_certificate row) = true)) ∧
  row_certificate <$> certificate_rows endpoint = certificates endpoint.
Proof.
  split_and!.
  - apply js_sort_perm.
  - destruct (flagged_first anomaly (cmp_rev (cmp_on cert_issuedAt localeCompare)) (certificates endpoint)) as (Heq & Hm & Ha);
      [apply (js_sort_sorted compare_certificates)|].
    eexists _, _. split_and!; [exact Heq|done| |exact Hm|exact Ha].
    apply Forall_forall. intros c [_ Hc%negb_true_iff]%js_filter_elem. done.
  - intros a. apply (js_sort_stable compare_certificates).
  - intros row (c & -> & _)%list_elem_of_fmap. unfold row_anomaly, row_status, row_certificate, certificateStatus, anomaly.
    destruct (cert_isRevoked c), (cert_isExpired c); split; split; done.
  - unfold certificate_rows. rewrite <- list_fmap_compose. apply list_fmap_id.
Qed.

(** ** Claims: links *)

Section links.
Context `{Router} `{DateHost} (id : Z) (Hid : 0 < id ≤ 2 ^ 53).

Definition evidence_query (more : URLSearchParams) : URLSearchParams := (u! "endpointId", string_of_Z id) :: more.

Lemma evidence_query_ok more : params_ok more → params_ok (evidence_query more).
Proof.
  intros Hm. apply Forall_cons. split; [|done]. split; apply well_formed_ascii; [by_compute|apply string_of_Z_ascii].
Qed.

Lemma evidence_query_text more : params_string (evidence_query more) =
  u! "endpointId=" ++ string_of_Z id ++ match more with [] => [] | _ => u! "&" ++ params_string more end.
Proof.
  unfold params_string, evidence_query. rewrite map_cons. unfold params_pair at 1. cbn [fst snd].
  rewrite (form_encode_digits (string_of_Z id)) by (apply string_of_Z_digits; lia).
  destruct more; cbn [map join]; [by rewrite app_nil_r|]. rewrite <- !app_assoc. reflexivity.
Qed.

Lemma evidence_endpoint more : hasInvalidPositiveInteger (evidence_query more) (u! "endpointId") = false ∧
  positiveInteger (params_get (evidence_query more) (u! "endpointId")) = Some id.
Proof.
  assert (params_get (evidence_query more) (u! "endpointId") = Some (string_of_Z id)) as Hg by reflexivity.
  unfold hasInvalidPositiveInteger, positiveInteger. rewrite Hg. cbn [number_of_opt].
  rewrite number_of_string_of_Z, to_integer_Z, positive_int_Z by lia. split; [apply Z.leb_gt; lia|done].
Qed.

(** A link to a list of the endpoint's evidence. *)
Lemma open_evidence kind page more link : ([kind], page) ∈ STATIC_PAGES → params_ok more →
  link = u! "/" ++ kind ++ 63 :: params_string (evidence_query more) → 35 ∉ kind → 63 ∉ kind →
  open_link link = Some (page, [], evidence_query more).
Proof.
  intros Hin Hm -> H35 H63.
  assert (∀ c, c ≠ 47 → c ∉ kind → c ∉ u! "/" ++ kind) as Hc.
  { intros c Hc Hk. rewrite elem_of_app. intros [Hin'|?]; [|done]. apply list_elem_of_singleton in Hin'. done. }
  replace (u! "/" ++ kind ++ 63 :: params_string (evidence_query more)) with ((u! "/" ++ kind) ++ 63 :: params_string (evidence_query more))
    by by rewrite <- app_assoc.
  rewrite (open_query _ _ page []).
  - by rewrite (proj2 (params_of_string_string _ (evidence_query_ok more Hm))).
  - by apply Hc.
  - by apply Hc.
  - change (u! "/" ++ kind) with (path_of [kind]). by apply static_route.
  - apply params_string_nonempty. done.
  - apply params_string_no_hash. by apply evidence_query_ok.
Qed.

Lemma alerts_of_opens : let p := evidence_query [(u! "status", u! "OPEN")] in
  open_link (alerts_of id) = Some (AlertsPage, [], p) ∧ alerts_invalid p = false ∧
  alerts_query p = mkAlertListQuery (mkTimeQuery Preset_LATEST_24H None None) 1 50 AlertSort_priority Order_desc (Some Alert_OPEN) None (Some id) None.
Proof.
  intros p. destruct (evidence_endpoint [(u! "status", u! "OPEN")]) as [Hi He]. fold p in Hi, He. split_and!.
  - apply (open_evidence (u! "alerts")); [by_compute| | |by_compute..].
    + apply Forall_singleton. split; apply well_formed_ascii; by_compute.
    + rewrite evidence_query_text. unfold alerts_of. reflexivity.
  - unfold alerts_invalid. rewrite Hi. reflexivity.
  - unfold alerts_query. rewrite He. reflexivity.
Qed.

Lemma incidents_of_opens : let p := evidence_query [(u! "status", u! "OPEN")] in
  open_link (incidents_of id) = Some (IncidentsPage, [], p) ∧ incidents_invalid p = false ∧
  incidents_query p = mkIncidentsPageQuery (mkTimeQuery Preset_LATEST_24H None None) 1 50 Order_desc (Some Incident_OPEN) None (Some id).
Proof.
  intros p. destruct (evidence_endpoint [(u! "status", u! "OPEN")]) as [Hi He]. fold p in Hi, He. split_and!.
  - apply (open_evidence (u! "incidents")); [by_compute| | |by_compute..].
    + apply Forall_singleton. split; apply well_formed_ascii; by_compute.
    + rewrite evidence_query_text. unfold incidents_of. reflexivity.
  - unfold incidents_invalid. rewrite Hi. reflexivity.
  - unfold incidents_query. rewrite He. reflexivity.
Qed.

Lemma events_of_opens : let p := evidence_query [] in
  open_link (events_of id) = Some (EventsPage, [], p) ∧ events_invalid p = false ∧
  events_query p = mkEventListQuery (mkTimeQuery Preset_LATEST_24H None None) 1 50 Order_desc None (Some id) [].
Proof.
  intros p. destruct (evidence_endpoint []) as [Hi He]. fold p in Hi, He. split_and!.
  - apply (open_evidence (u! "events")); [by_compute|by apply Forall_nil| |by_compute..].
    rewrite evidence_query_text, app_nil_r. reflexivity.
  - unfold events_invalid. rewrite Hi. reflexivity.
  - unfold events_query. rewrite He. reflexivity.
Qed.
End links.

(** The page of an identifier, and the way back to the list. *)
Lemma endpoint_page_spec `{Router} id params : 0 < id ≤ 2 ^ 53 → params_ok params →
  page_endpointId (endpoint_page (string_of_Z id) params) = Some id ∧
  open_link (page_back (endpoint_page (string_of_Z id) params)) = Some (EndpointsPage, [], params).
Proof.
  intros Hid Hok. split; [cbn; rewrite number_of_string_of_Z by done; apply positive_int_Z; lia|].
  cbn [endpoint_page page_back]. assert (route_of (u! "/endpoints") = Some (Guarded EndpointsPage, [])) as Hr
    by (change (u! "/endpoints") with (path_of [u! "endpoints"]); apply static_route; by_compute).
  destruct params as [|kv params]; [rewrite app_nil_r; apply open_plain; [by_compute|by_compute|done]|].
  unfold search_of. change (u! "?" ++ params_string (kv :: params)) with (63 :: params_string (kv :: params)).
  rewrite (open_query _ _ EndpointsPage []); [|by_compute|by_compute|done|by apply params_string_nonempty|by apply params_string_no_hash].
  by rewrite (proj2 (params_of_string_string _ Hok)).
Qed.

(** C29: the links around an endpoint open what they name. The three links of its evidence
    open the alert, incident and event lists with a query these accept, for this
    endpoint, the first two restricted to what is open, all of the last 24 hours; a risk
    factor opens the alert or incident it comes from, and a row of the overview's queues
    its endpoint or incident; and the endpoint's page leads back to the list with the
    query it was opened with. *)
Theorem endpoint_links_open `{Router} `{DateHost} id : 0 < id ≤ 2 ^ 53 →
  let day := mkTimeQuery Preset_LATEST_24H None None in
  (∃ p, open_link (alerts_of id) = Some (AlertsPage, [], p) ∧ alerts_invalid p = false ∧
     alerts_query p = mkAlertListQuery day 1 50 AlertSort_priority Order_desc (Some Alert_OPEN) None (Some id) None) ∧
  (∃ p, open_link (incidents_of id) = Some (IncidentsPage, [], p) ∧ incidents_invalid p = false ∧
     incidents_query p = mkIncidentsPageQuery day 1 50 Order_desc (Some Incident_OPEN) None (Some id)) ∧
  (∃ p, open_link (events_of id) = Some (EventsPage, [], p) ∧ events_invalid p = false ∧
     events_query p = mkEventListQuery day 1 50 Order_desc None (Some id) []) ∧
  (∀ f, factor_sourceId f = id → open_link (factor_link f) = Some
     (match factor_sourceType f with
      | Source_ALERT => (AlertDetailPage, [(u! "alertId", string_of_Z id)], [])
      | Source_INCIDENT => (IncidentDetailPage, [(u! "incidentId", string_of_Z id)], [])
      end)) ∧
  (∀ toLowerCase endpoints row, row ∈ RiskEndpointRanking toLowerCase endpoints → endpoint_endpointId (rank_endpoint row) = id →
     open_link (rank_to row) = Some (EndpointDetailPage, [(u! "endpointId", string_of_Z id)], [])) ∧
  (∀ locale toLowerCase mediumDateTime queueParts incidents rows row, IncidentQueueList locale toLowerCase mediumDateTime queueParts incidents = Some rows →
     row ∈ rows → incident_incidentId (queue_incident row) = id →
     open_link (queue_to row) = Some (IncidentDetailPage, [(u! "incidentId", string_of_Z id)], [])) ∧
  (∀ params, params_ok params → page_endpointId (endpoint_page (string_of_Z id) params) = Some id ∧
     open_link (page_back (endpoint_page (string_of_Z id) params)) = Some (EndpointsPage, [], params)).
Proof.
  intros Hid day. split_and!.
  - eexists. by apply alerts_of_opens.
  - eexists. by apply incidents_of_opens.
  - eexists. by apply events_of_opens.
  - intros f Hf. unfold factor_link. rewrite Hf. destruct (factor_sourceType f);
      [apply (open_record (u! "alerts") (u! "alertId"))|apply (open_record (u! "incidents") (u! "incidentId"))];
      [by_compute|done|by_compute|done].
  - intros toLower endpoints row (i & Hrow)%list_elem_of_lookup Hrid. unfold RiskEndpointRanking in Hrow.
    rewrite list_lookup_imap in Hrow. destruct (endpoints !! i) as [e|]; [|done]. injection Hrow as <-. cbn in Hrid |- *.
    rewrite Hrid. apply (open_record (u! "endpoints")); [by_compute|done].
  - intros locale toLower medium parts incidents rows row Hrows Hin Hrid. unfold IncidentQueueList in Hrows.
    apply mapM_Some in Hrows. apply list_elem_of_lookup in Hin as [i Hi].
    destruct (Forall2_lookup_r _ _ _ _ _ Hrows Hi) as (incident & _ & Hrow).
    apply bind_Some in Hrow as (title & _ & Hrow). apply bind_Some in Hrow as (hover & _ & Hrow). apply bind_Some in Hrow as (time & _ & Hrow).
    injection Hrow as <-. cbn in Hrid |- *. rewrite Hrid. apply (open_record (u! "incidents")); [by_compute|done].
  - intros params. by apply endpoint_page_spec.
Qed.

Lemma endpoint_links_open_witness :
  @open_link reference_router (factor_link (mkRiskFactor [] 30 [] 7 Source_INCIDENT [])) =
    Some (IncidentDetailPage, [(u! "incidentId", u! "7")], []) ∧
  ∃ p, @open_link reference_router (alerts_of 7) = Some (AlertsPage, [], p) ∧ @alerts_invalid utc_host p = false.
Proof.
  destruct (@endpoint_links_open reference_router utc_host 7 ltac:(lia)) as ((p & Ha & Hi & _) & _ & _ & Hf & _). split.
  - exact (Hf (mkRiskFactor [] 30 [] 7 Source_INCIDENT []) eq_refl).
  - exists p. by split.
Defined.
