(* ===== verification/IncidentGraph.v ===== *)
(** * The incident graph

    Models frontend/src/components/IncidentGraph.tsx: the nodes and edges handed to the
    drawing library, their positions, and the selection by clicks. The layout of dagre is
    a parameter. *)

From Stdlib Require Import QArith.
From S2P Require Import Prelude JsNumber JsDate Json Url Contracts ApiClient I18n UrlState Graphs Investigation.

#[local] Open Scope list_scope.
#[local] Open Scope Z_scope.

(** ** The drawing *)

Record FlowNode := mkFlowNode {
  flow_id : ustring; flow_position : point; flow_source : InvestigationNodeDto; flow_ariaLabel : ustring; flow_className : ustring;
  flow_selected : bool;
}.
Record FlowEdge := mkFlowEdge {
  flowEdge_id : ustring; flowEdge_source : ustring; flowEdge_target : ustring; flowEdge_label : ustring; flowEdge_ariaLabel : ustring;
  flowEdge_selected : bool;
}.

Section graph.
(** [dagre.layout]: the centre it gives a node. *)
Context (layout : DagreGraph → ustring → option point).
Context (displayLocale : Locale) (toLowerCase : ustring → ustring).

Definition investigation_dagre (investigation : IncidentInvestigationDto) : DagreGraph :=
  foldl (λ g edge, setEdge (edge_sourceNodeId edge) (edge_targetNodeId edge) g)
    (foldl (λ g node, setNode (node_nodeId node) g) (mkDagre [] []) (inv_nodes investigation)) (inv_edges investigation).

(** The corner of a node of 160 by 64 from its centre. *)
Definition node_corner (centre : option point) : point :=
  let '(x, y) := default (160 / 2, 64 / 2)%Q centre in (x - 160 / 2, y - 64 / 2)%Q.

Definition layoutInvestigationNodes (investigation : IncidentInvestigationDto) : list (ustring * point) :=
  map_of (map (λ node, (node_nodeId node, node_corner (layout (investigation_dagre investigation) (node_nodeId node)))) (inv_nodes investigation)).

Definition relation_key (relation : InvestigationRelation) : string :=
  match relation with
  | Rel_CONTAINS => "incident.relation.contains"
  | Rel_TRIGGERED_BY => "incident.relation.triggeredBy"
  | Rel_PARENT_OF => "incident.relation.parentOf"
  | Rel_CONNECTED_TO => "incident.relation.connectedTo"
  end.

Definition graph_nodes (investigation : IncidentInvestigationDto) (selection : option InvestigationSelection) : list FlowNode :=
  let positions := layoutInvestigationNodes investigation in
  map (λ node, mkFlowNode (node_nodeId node) (default (0, 0)%Q (map_get (node_nodeId node) positions)) node
    (lit_name (node_nodeType node) ++ u! ": " ++ node_label node)
    (u! "investigation-node node-" ++ toLowerCase (lit_name (node_nodeType node)))
    (bool_decide (selection = Some (NODE (node_nodeId node))))) (inv_nodes investigation).

Definition graph_edges (investigation : IncidentInvestigationDto) (selection : option InvestigationSelection) : option (list FlowEdge) :=
  mapM (λ edge, relation ← translate displayLocale (relation_key (edge_relation edge)) [];
    Some (mkFlowEdge (edge_edgeId edge) (edge_sourceNodeId edge) (edge_targetNodeId edge) relation
      (relation ++ u! ", " ++ lit_name (edge_evidence edge)) (bool_decide (selection = Some (EDGE (edge_edgeId edge))))))
    (inv_edges investigation).

(** What a click passes to [onSelect]. *)
Definition onNodeClick (node : FlowNode) : InvestigationSelection := NODE (flow_id node).
Definition onEdgeClick (edge : FlowEdge) : InvestigationSelection := EDGE (flowEdge_id edge).

(** ** Claims *)

(** A map whose values are a function of their keys. *)
Lemma map_get_of_function {A} (k : A → ustring) (f : ustring → point) (l : list A) x : x ∈ l →
  map_get (k x) (map_of (map (λ a, (k a, f (k a))) l)) = Some (f (k x)).
Proof.
  induction l as [|a l IH] using rev_ind; [intros Hx; by apply elem_of_nil in Hx|]. intros Hx.
  unfold map_of in *. rewrite map_app, foldl_app. cbn [map foldl fst snd]. rewrite map_get_set. case_decide as Hk; [by rewrite <- Hk|].
  apply elem_of_app in Hx as [Hx|Hx]; [by apply IH|]. apply list_elem_of_singleton in Hx as ->. done.
Qed.

Lemma relation_text relation : is_Some (translate displayLocale (relation_key relation) []).
Proof. apply translate_total. destruct relation; vm_compute; reflexivity. Qed.
End graph.

(** the incident graph shows the investigation. In both languages every node is
    drawn once, in order, with its corner where the layout's centre puts it, or at the
    origin when the layout does not place it; every edge is drawn between its nodes with
    the name of its relation. A click on what is drawn selects it: drawn again, the
    nodes, or the edges, with the clicked identifier are selected and nothing else, and
    the inspector finds the clicked node or edge when identifiers are distinct. *)
Theorem incident_graph_faithful layout displayLocale toLowerCase investigation selection :
  let nodes := graph_nodes layout toLowerCase investigation selection in
  ∃ edges, graph_edges displayLocale investigation selection = Some edges ∧
  flow_source <$> nodes = inv_nodes investigation ∧
  Forall (λ n, flow_id n = node_nodeId (flow_source n) ∧
    flow_position n = match layout (investigation_dagre investigation) (flow_id n) with
                      | Some (x, y) => (x - 160 / 2, y - 64 / 2)%Q
                      | None => (160 / 2 - 160 / 2, 64 / 2 - 64 / 2)%Q
                      end) nodes ∧
  Forall2 (λ e d, flowEdge_id d = edge_edgeId e ∧ flowEdge_source d = edge_sourceNodeId e ∧ flowEdge_target d = edge_targetNodeId e ∧
    translate displayLocale (relation_key (edge_relation e)) [] = Some (flowEdge_label d)) (inv_edges investigation) edges ∧
  (∀ n m, n ∈ nodes → m ∈ graph_nodes layout toLowerCase investigation (Some (onNodeClick n)) →
     flow_selected m = bool_decide (flow_id m = flow_id n)) ∧
  (∀ e m, m ∈ graph_nodes layout toLowerCase investigation (Some (onEdgeClick e)) → flow_selected m = false) ∧
  (∀ n, n ∈ nodes → NoDup (node_nodeId <$> inv_nodes investigation) →
     selectedNode (Some (onNodeClick n)) investigation = Some (flow_source n)) ∧
  (∀ e d, e ∈ inv_edges investigation → d ∈ edges → flowEdge_id d = edge_edgeId e → NoDup (edge_edgeId <$> inv_edges investigation) →
     selectedEdge (Some (onEdgeClick d)) investigation = Some e).
Proof.
  intros nodes. unfold graph_edges.
  destruct (mapM _ (inv_edges investigation)) as [edges|] eqn:Hm.
  2: { exfalso. apply mapM_None in Hm. apply Exists_exists in Hm as (e & _ & He).
       destruct (relation_text displayLocale (edge_relation e)) as [r Hr]. by rewrite Hr in He. }
  apply mapM_Some in Hm. exists edges. split; [done|]. split_and!.
  - unfold nodes, graph_nodes. rewrite <- list_fmap_compose. apply list_fmap_id.
  - apply Forall_forall. intros n (node & -> & Hin)%list_elem_of_fmap. cbn [flow_id flow_source flow_position]. split; [done|].
    unfold layoutInvestigationNodes.
    rewrite (map_get_of_function node_nodeId (λ id, node_corner (layout (investigation_dagre investigation) id))) by done.
    cbn [default]. unfold node_corner. by destruct (layout _ _) as [[x y]|].
  - eapply Forall2_impl; [exact Hm|]. cbn. intros e d Hd. destruct (translate _ _ _); [|done]. injection Hd as <-. done.
  - intros n m (node & -> & _)%list_elem_of_fmap (node' & -> & _)%list_elem_of_fmap. cbn.
    apply bool_decide_ext. unfold onNodeClick. cbn. split; [by intros [= ->]|by intros ->].
  - intros e m (node & -> & _)%list_elem_of_fmap. cbn. by apply bool_decide_false.
  - intros n (node & -> & Hin)%list_elem_of_fmap Hnd. cbn. by apply js_find_unique.
  - intros e d Hin Hd Hid Hnd. unfold onEdgeClick. rewrite Hid. cbn. by apply js_find_unique.
Qed.
