(* ===== verification/WorkspaceView.v ===== *)
(** * What the dashboard workspace shows

    Models the views of frontend/src/features/overviewLayout/OverviewDashboardWorkspace.tsx
    over the state of Workspace.v: the choice between builder, management home, custom and
    default dashboard, the catalogue of dashboards, the palette of widgets, the grid with
    the items it hands to the grid library, and the screen width that allows editing. *)

From S2P Require Import Prelude JsNumber JsDate Json WebStorage I18n OverviewModel OverviewStorage OverviewContext Workspace.

#[local] Open Scope list_scope.
#[local] Open Scope Z_scope.

(** ** The screen *)

(** What the window offers: whether the media query matches, if it can be asked, and the
    inner width. *)
Record Window := mkWindow { matchMedia : option bool; innerWidth : Z }.
Definition desktopDashboardEditingSnapshot (window : Window) : bool :=
  match matchMedia window with Some matches => matches | None => 1280 <=? innerWidth window end.

(** Where the listener of the store is added, and removed by the function returned. *)
Inductive ListenerTarget := WindowResize | MediaChange.
Definition subscribeDesktopDashboardEditing (window : Window) : ListenerTarget :=
  match matchMedia window with None => WindowResize | Some _ => MediaChange end.

(** ** The grid *)

Definition OVERVIEW_BLOCK_IDS : list ustring := map widget_type_name OVERVIEW_WIDGET_TYPES ++ [u! "fleet-distribution"].

Record GridItem := mkGridItem { gi_item : LayoutItem; gi_minW : Z; gi_minH : Z; gi_maxW : Z; gi_maxH : Z }.

Definition toLayoutItem (widget : CustomDashboardWidget) : option GridItem :=
  definition ← widgetDefinition (wtype widget);
  let r := wrect widget in
  Some (mkGridItem (mkItem (uid widget) (num_of_Z (rx r)) (num_of_Z (ry r)) (num_of_Z (rw r)) (num_of_Z (rh r)))
    (minW definition) (minH definition) (maxW definition) (maxH definition)).

Record WidgetCard := mkCard {
  card_uid : ustring; card_type : OverviewWidgetType; card_title : ustring; card_label : ustring; card_editable : bool; card_remove : option ustring;
}.

Record DashboardGrid := mkGrid {
  grid_cards : list WidgetCard;
  grid_items : list GridItem;
  grid_static : bool;
  grid_empty : bool;
  grid_drop : bool;
  grid_defaultItem : Z * Z;
  grid_dragOver : option (Z * Z);
}.

(** A key of ASCII units as the translation tables have it. *)
Definition key_of (key : ustring) : string := string_of_list_ascii (map (λ c, ascii_of_nat (Z.to_nat c)) key).

Section view.
Context (displayLocale : Locale).
#[local] Abbreviation t := (translate displayLocale).
#[local] Abbreviation number n := (I18n.PNumber (num_of_Z n)).

Definition widget_title (widget : OverviewWidgetType) : option ustring :=
  definition ← widgetDefinition widget; t (key_of (d_titleKey definition)) [].

(** Columns and rows are counted from one. *)
Definition geometry (title : ustring) (r : Rect) : option ustring :=
  t "dashboard.widgetGeometry" [(u! "widget", I18n.PText title); (u! "column", number (rx r + 1)); (u! "row", number (ry r + 1));
    (u! "width", number (rw r)); (u! "height", number (rh r))].

Definition widget_card (editable removable : bool) (widget : CustomDashboardWidget) : option WidgetCard :=
  title ← widget_title (wtype widget);
  text ← geometry title (wrect widget);
  handle ← t "dashboard.dragHandle" [(u! "widget", I18n.PText title)];
  remove ← (if editable && removable then label ← t "dashboard.removeWidget" [(u! "widget", I18n.PText title)]; Some (Some label) else Some None);
  Some (mkCard (uid widget) (wtype widget) title (handle ++ u! ". " ++ text) editable remove).

(** The grid of [widgets]; [draggedType] is the palette item over it. *)
Definition dashboard_grid (desktopLayout editable builder : bool) (draggedType : option OverviewWidgetType) (widgets : list CustomDashboardWidget) :
  option DashboardGrid :=
  cards ← mapM (widget_card editable builder) widgets;
  items ← mapM toLayoutItem widgets;
  dragged ← match draggedType with Some type => d ← widgetDefinition type; Some (Some (defaultW d, defaultH d)) | None => Some None end;
  let empty := builder && match widgets with [] => true | _ => false end in
  Some (mkGrid cards items (negb desktopLayout) (desktopLayout && empty) (editable && match draggedType with Some _ => builder | None => false end)
          (default (3, 2) dragged) dragged).

(** ** The builder *)

Record PaletteEntry := mkPalette { pal_type : OverviewWidgetType; pal_label : ustring; pal_size : ustring; pal_disabled : bool }.

Definition usedTypes (b : BuilderState) : list OverviewWidgetType := map wtype (b_widgets b).
Definition availableDefinitions (b : BuilderState) : list OverviewWidgetDefinition :=
  js_filter (λ definition, negb (bool_decide (d_type definition ∈ usedTypes b))) OVERVIEW_WIDGET_DEFINITIONS.
Definition builder_valid (b : BuilderState) : bool := truthy (trim (b_name b)) && match b_widgets b with [] => false | _ => true end.

Record BuilderView := mkBuilderView {
  bv_title : ustring; bv_saveDisabled : bool; bv_palette : list PaletteEntry; bv_complete : bool; bv_issue : option ustring; bv_grid : DashboardGrid;
}.

Definition builder_view (s : Workspace) (b : BuilderState) : option BuilderView :=
  title ← (if truthy_opt (b_dashboardId b) then t "dashboard.editTitle" [] else t "dashboard.newTitle" []);
  palette ← mapM (λ definition,
    name ← t (key_of (d_titleKey definition)) []; label ← t "dashboard.addWidget" [(u! "widget", I18n.PText name)];
    Some (mkPalette (d_type definition) label (string_of_Z (defaultW definition) ++ u! " × " ++ string_of_Z (defaultH definition))
            (negb (ws_editing s)))) (availableDefinitions b);
  issue ← match ws_issue s with
          | Some duplicate => text ← t "dashboard.widgetAlreadyAdded" []; Some (Some text)
          | Some space => text ← t "dashboard.widgetPlacementUnavailable" []; Some (Some text)
          | None => Some None
          end;
  grid ← dashboard_grid (ws_editing s) (ws_editing s) true (ws_dragged s) (b_widgets b);
  Some (mkBuilderView title (negb (ws_editing s) || negb (builder_valid b)) palette
          (match availableDefinitions b with [] => true | _ => false end) issue grid).

(** ** The management home *)

Record CatalogEntry := mkCatalogEntry { cat_id : ustring; cat_name : ustring; cat_note : ustring; cat_pressed : bool; cat_count : Z }.
Record HomeView := mkHome {
  home_catalog : list CatalogEntry; home_title : ustring; home_count : Z; home_newDisabled : option bool; home_editDisabled : option bool;
  home_draft : option bool; home_unavailable : bool; home_preview : option DashboardGrid;
}.

Definition management_home (s : Workspace) : option HomeView :=
  let state := p_state (ws_provider s) in
  let active := activeDashboard (ws_provider s) in
  let hideActions := ws_settings s in
  defaultName ← t "dashboard.defaultName" []; fixed ← t "dashboard.defaultFixed" []; local ← t "dashboard.browserLocal" [];
  preview ← match active with
            | Some d => grid ← dashboard_grid (ws_editing s) false false None (dash_widgets d); Some (Some grid)
            | None => Some None
            end;
  let pressed id := bool_decide (activeDashboardId state = id) in
  Some (mkHome
    (mkCatalogEntry DEFAULT_DASHBOARD_ID defaultName fixed (pressed DEFAULT_DASHBOARD_ID) (Z.of_nat (length OVERVIEW_BLOCK_IDS))
     :: map (λ d, mkCatalogEntry (dash_id d) (dash_name d) local (pressed (dash_id d)) (Z.of_nat (length (dash_widgets d)))) (dashboards state))
    (match active with Some d => dash_name d | None => defaultName end)
    (match active with Some d => Z.of_nat (length (dash_widgets d)) | None => Z.of_nat (length OVERVIEW_BLOCK_IDS) end)
    (if hideActions then None else Some (negb (ws_editing s)))
    (match active with Some _ => if hideActions then None else Some (negb (ws_editing s)) | None => None end)
    (match active with Some _ => Some (negb (ws_editing s) || hideActions) | None => None end)
    (negb (ws_editing s) && negb hideActions) preview).

(** ** The workspace *)

Inductive WorkspaceBody := BuilderBody (view : BuilderView) | HomeBody (view : HomeView) | CustomBody (name : ustring) (grid : DashboardGrid) | DefaultBody.

(** The settings dialog: its selector and its buttons, [None] when they are not shown. *)
Record SettingsView := mkSettings {
  set_locked : bool; set_value : ustring; set_options : list (ustring * ustring); set_newDisabled : bool; set_activeDisabled : option bool;
}.
Record WorkspaceView := mkView { view_body : WorkspaceBody; view_settings : option SettingsView; view_delete : option (ustring * bool) }.

Definition workspace_view (managementMode : bool) (s : Workspace) : option WorkspaceView :=
  let state := p_state (ws_provider s) in
  let active := activeDashboard (ws_provider s) in
  let managerLocked := match ws_builder s with Some _ => true | None => false end in
  defaultName ← t "dashboard.defaultName" [];
  body ← match managementMode, ws_builder s with
         | true, Some b => view ← builder_view s b; Some (BuilderBody view)
         | true, None => view ← management_home s; Some (HomeBody view)
         | false, _ =>
           match active with
           | Some d => grid ← dashboard_grid (ws_editing s) false false None (dash_widgets d); Some (CustomBody (dash_name d) grid)
           | None => Some DefaultBody
           end
         end;
  let disabled := negb (ws_editing s) || managerLocked in
  Some (mkView body
    (if managementMode && ws_settings s then
       Some (mkSettings managerLocked (activeDashboardId state)
               ((DEFAULT_DASHBOARD_ID, defaultName) :: map (λ d, (dash_id d, dash_name d)) (dashboards state)) disabled
               (match active with Some _ => Some disabled | None => None end))
     else None)
    (if managementMode then (λ d, (dash_name d, negb (ws_editing s))) <$> ws_deleteTarget s else None)).
End view.

(** ** Claims: the grid's items *)

Lemma clamp_in value lo hi fallback : lo ≤ value ≤ hi → clampGridInteger (num_of_Z value) lo hi fallback = value.
Proof. intros Hb. unfold clampGridInteger, num_of_Z. rewrite math_round_Z. unfold clamp. lia. Qed.

Lemma layout_item_fits w : widget_ok w → ∃ item, toLayoutItem w = Some item ∧ li_i (gi_item item) = uid w ∧
  normalizeGridWidget w (gi_item item) = Some w ∧
  gi_minW item ≤ rw (wrect w) ≤ gi_maxW item ∧ gi_minH item ≤ rh (wrect w) ≤ gi_maxH item.
Proof.
  intros [Hg (d & Hd & Hw & Hh)]. unfold toLayoutItem, normalizeGridWidget. rewrite Hd. cbn [mbind option_bind].
  eexists. split; [reflexivity|]. cbn [gi_item gi_minW gi_minH gi_maxW gi_maxH li_i li_x li_y li_w li_h].
  destruct (widgetDefinition_ok _ _ Hd) as [_ Hok]. unfold definition_ok, in_grid, OVERVIEW_GRID_COLUMNS, OVERVIEW_GRID_MAX_ROWS in *.
  rewrite (clamp_in (rw (wrect w))), (clamp_in (rh (wrect w))) by lia. rewrite !clamp_in by lia.
  split_and!; [done|by destruct w as [? ? []]|lia..].
Qed.

Lemma layout_items ws : Forall widget_ok ws → ∃ items, mapM toLayoutItem ws = Some items ∧
  Forall2 (λ w item, li_i (gi_item item) = uid w ∧ normalizeGridWidget w (gi_item item) = Some w ∧
    gi_minW item ≤ rw (wrect w) ≤ gi_maxW item ∧ gi_minH item ≤ rh (wrect w) ≤ gi_maxH item) ws items.
Proof.
  induction 1 as [|w ws Hw Hws (items & Hm & Hf)]; [by exists []|].
  destruct (layout_item_fits w Hw) as (item & Hi & Hrest). exists (item :: items).
  cbn [mapM]. rewrite Hi. cbn [mbind option_bind]. rewrite Hm. split; [done|]. by constructor.
Qed.

(** the grid shows a layout as it is. The items handed to the grid library carry every
    widget's place, with limits it satisfies, and when the library hands them back, in
    any order, as it does after a drag that moved nothing, the layout is unchanged. *)
Theorem grid_items_roundtrip ws : layout_ok ws →
  ∃ items, mapM toLayoutItem ws = Some items ∧
  Forall2 (λ w item, gi_minW item ≤ rw (wrect w) ≤ gi_maxW item ∧ gi_minH item ≤ rh (wrect w) ≤ gi_maxH item) ws items ∧
  ∀ layout, layout ≡ₚ gi_item <$> items → applyGridLayout ws layout = Some ws.
Proof.
  intros Hok. destruct (layout_items ws (lo_widgets ws Hok)) as (items & Hm & Hf). exists items. split_and!; [done| |].
  { eapply Forall2_impl; [exact Hf|]. cbn. tauto. }
  intros layout Hperm. unfold applyGridLayout.
  assert (li_i <$> (gi_item <$> items) = uid <$> ws) as Hids.
  { clear -Hf. induction Hf as [|w item ws items (Hi & _) Hf IH]; [done|]. rewrite !fmap_cons. by f_equal. }
  assert (map_of (map (λ item, (li_i item, item)) layout) = map (λ item, (li_i item, item)) layout) as ->.
  { apply map_of_id. change (map (λ item, (li_i item, item)) layout) with ((λ item, (li_i item, item)) <$> layout).
    rewrite <- list_fmap_compose. change (NoDup (li_i <$> layout)). rewrite Hperm, Hids. apply Hok. }
  assert (∀ l l', Forall2 (λ w item, li_i (gi_item item) = uid w ∧ normalizeGridWidget w (gi_item item) = Some w ∧
      gi_minW item ≤ rw (wrect w) ≤ gi_maxW item ∧ gi_minH item ≤ rh (wrect w) ≤ gi_maxH item) l l' → (∀ i, i ∈ l' → gi_item i ∈ layout) →
    mapM (normalize_item (map (λ item, (li_i item, item)) layout)) l = Some l) as Hall.
  { induction 1 as [|w item l l' (Hi & Hn & _) Hl IH]; intros Hin; [done|]. cbn [mapM].
    assert (normalize_item (map (λ item, (li_i item, item)) layout) w = Some w) as ->.
    { unfold normalize_item. rewrite (map_get_elem (uid w) (gi_item item)); [done| |].
      - change (map (λ item, (li_i item, item)) layout) with ((λ item, (li_i item, item)) <$> layout).
        rewrite <- list_fmap_compose. change (NoDup (li_i <$> layout)). rewrite Hperm, Hids. apply Hok.
      - rewrite <- Hi. apply list_elem_of_In, in_map_iff. exists (gi_item item). split; [done|].
        apply list_elem_of_In, Hin. apply list_elem_of_here. }
    cbn [mbind option_bind]. rewrite IH; [done|]. intros i Hi'. apply Hin. by apply list_elem_of_further. }
  rewrite (Hall ws items Hf) by (intros i Hi; rewrite Hperm; by apply list_elem_of_fmap_2).
  cbn [mbind option_bind]. by rewrite (proj2 (widgetsDoNotOverlap_true ws) (lo_disjoint ws Hok)).
Qed.

(** ** Claims: the view *)

Ltac known_text := match goal with |- context [translate ?l ?k ?ps] =>
  let H := fresh in destruct (translate_total l k ps) as [? H]; [vm_compute; reflexivity|rewrite H; clear H; cbn [mbind option_bind]] end.

Section view_lemmas.
Context (displayLocale : Locale).

Lemma title_total type : is_Some (widget_title displayLocale type).
Proof.
  unfold widget_title. destruct type; cbn [widgetDefinition js_find OVERVIEW_WIDGET_DEFINITIONS bool_decide decide decide_rel mbind option_bind];
    apply translate_total; vm_compute; reflexivity.
Qed.

Lemma card_total editable removable w : ∃ card, widget_card displayLocale editable removable w = Some card ∧ card_type card = wtype w ∧ card_uid card = uid w.
Proof.
  unfold widget_card, geometry. destruct (title_total (wtype w)) as [title ->]. cbn [mbind option_bind].
  destruct (editable && removable); repeat known_text; (eexists; split_and!; reflexivity).
Qed.

Lemma cards_total editable removable ws : ∃ cards, mapM (widget_card displayLocale editable removable) ws = Some cards ∧
  card_type <$> cards = wtype <$> ws ∧ card_uid <$> cards = uid <$> ws.
Proof.
  induction ws as [|w ws (cards & Hm & Ht & Hu)]; [by exists []|]. destruct (card_total editable removable w) as (card & Hc & H1 & H2).
  exists (card :: cards). cbn [mapM]. rewrite Hc. cbn [mbind option_bind]. rewrite Hm. cbn. rewrite H1, H2, Ht, Hu. done.
Qed.

Lemma items_total ws : ∃ items, mapM toLayoutItem ws = Some items.
Proof.
  assert (is_Some (mapM toLayoutItem ws)) as [items ?]; [|by exists items]. apply mapM_is_Some_2, Forall_forall. intros w _.
  change (is_Some (toLayoutItem w)). unfold toLayoutItem. destruct (widgetDefinition_total (wtype w)) as (d & -> & _). by eexists.
Qed.

Lemma grid_total desktop editable builder dragged ws : ∃ grid, dashboard_grid displayLocale desktop editable builder dragged ws = Some grid ∧
  card_type <$> grid_cards grid = wtype <$> ws.
Proof.
  unfold dashboard_grid. destruct (cards_total editable builder ws) as (cards & -> & Ht & _). cbn [mbind option_bind].
  destruct (items_total ws) as [items ->]. cbn [mbind option_bind].
  destruct dragged as [type|]; [destruct (widgetDefinition_total type) as (d & -> & _)|];
    cbn [mbind option_bind]; (eexists; split; [reflexivity|exact Ht]).
Qed.

Lemma home_total s : is_Some (management_home displayLocale s).
Proof.
  unfold management_home. do 3 known_text. destruct (activeDashboard _) as [d|]; cbn [mbind option_bind]; [|by eexists].
  destruct (grid_total (ws_editing s) false false None (dash_widgets d)) as (grid & -> & _). by eexists.
Qed.

Lemma palette_total s b : ∃ palette, mapM (λ definition,
    name ← translate displayLocale (key_of (d_titleKey definition)) []; label ← translate displayLocale "dashboard.addWidget" [(u! "widget", I18n.PText name)];
    Some (mkPalette (d_type definition) label (string_of_Z (defaultW definition) ++ u! " × " ++ string_of_Z (defaultH definition))
            (negb (ws_editing s)))) (availableDefinitions b) = Some palette ∧ pal_type <$> palette = d_type <$> availableDefinitions b.
Proof.
  assert (∀ d, d ∈ availableDefinitions b → has_text (key_of (d_titleKey d)) = true) as Hall.
  { intros d [Hd _]%js_filter_elem. assert (Forall (λ d, has_text (key_of (d_titleKey d)) = true) OVERVIEW_WIDGET_DEFINITIONS) as HF by by_compute.
    rewrite Forall_forall in HF. by apply HF. }
  induction (availableDefinitions b) as [|d l IH]; [by exists []|]. destruct IH as (palette & Hm & Ht).
  { intros d' Hd'. apply Hall. by apply list_elem_of_further. }
  cbn [mapM]. destruct (translate_total displayLocale (key_of (d_titleKey d)) []) as [name ->]; [apply Hall, list_elem_of_here|].
  cbn [mbind option_bind]. known_text. rewrite Hm. eexists. split; [done|]. cbn. by rewrite Ht.
Qed.

Lemma builder_total s b : ∃ view, builder_view displayLocale s b = Some view ∧
  pal_type <$> bv_palette view = d_type <$> availableDefinitions b ∧ card_type <$> grid_cards (bv_grid view) = wtype <$> b_widgets b ∧
  bv_saveDisabled view = negb (ws_editing s) || negb (builder_valid b) ∧
  bv_complete view = match availableDefinitions b with [] => true | _ => false end.
Proof.
  unfold builder_view. destruct (palette_total s b) as (palette & Hp & Ht).
  destruct (grid_total (ws_editing s) (ws_editing s) true (ws_dragged s) (b_widgets b)) as (grid & Hg & Hc).
  destruct (truthy_opt (b_dashboardId b)), (ws_issue s) as [[]|]; repeat known_text; rewrite Hp; cbn [mbind option_bind]; repeat known_text;
    rewrite Hg; (eexists; split; [reflexivity|]); cbn [bv_palette bv_grid bv_saveDisabled bv_complete]; by rewrite Ht, Hc.
Qed.

(** Palette and grid share out the widget types. *)
Lemma palette_types b : NoDup (wtype <$> b_widgets b) →
  (d_type <$> availableDefinitions b) ++ (wtype <$> b_widgets b) ≡ₚ OVERVIEW_WIDGET_TYPES.
Proof.
  intros Hnd. assert (d_type <$> OVERVIEW_WIDGET_DEFINITIONS = OVERVIEW_WIDGET_TYPES) as Hdefs by by vm_compute.
  assert (NoDup OVERVIEW_WIDGET_TYPES ∧ ∀ type, type ∈ OVERVIEW_WIDGET_TYPES) as [Hall Hin] by (split; [by_compute|intros []; by_compute]).
  assert (∀ type, type ∈ d_type <$> availableDefinitions b ↔ type ∉ wtype <$> b_widgets b) as Hav.
  { intros type. rewrite list_elem_of_fmap. unfold availableDefinitions, usedTypes.
    change (map wtype (b_widgets b)) with (wtype <$> b_widgets b). split.
    - intros (d & -> & [_ Hd%negb_true_iff]%js_filter_elem). by apply bool_decide_eq_false in Hd.
    - intros Hn. specialize (Hin type). rewrite <- Hdefs in Hin. apply list_elem_of_fmap in Hin as (d & -> & Hd). exists d. split; [done|].
      apply js_filter_elem. split; [done|]. by apply negb_true_iff, bool_decide_eq_false. }
  apply NoDup_Permutation; [|done|].
  - apply NoDup_app. split_and!; [|by intros type ?%Hav|done]. eapply sublist_NoDup; [exact Hall|].
    rewrite <- Hdefs. apply fmap_sublist, js_filter_sublist.
  - intros type. rewrite elem_of_app, Hav. split; [done|]. intros _. destruct (decide (type ∈ wtype <$> b_widgets b)); tauto.
Qed.
End view_lemmas.

(** Exactly one catalogue entry is pressed, and it is the dashboard whose name and number
    of widgets the home shows. *)
Lemma home_pressed displayLocale s home : active_ok (p_state (ws_provider s)) → NoDup (dash_id <$> dashboards (p_state (ws_provider s))) →
  DEFAULT_DASHBOARD_ID ∉ dash_id <$> dashboards (p_state (ws_provider s)) → management_home displayLocale s = Some home →
  ∃ entry, js_filter cat_pressed (home_catalog home) = [entry] ∧ cat_id entry = activeDashboardId (p_state (ws_provider s)) ∧
    cat_name entry = home_title home ∧ cat_count entry = home_count home.
Proof.
  unfold management_home. intros Hact Hnd Hdef. set (state := p_state (ws_provider s)) in *.
  destruct (translate_total displayLocale "dashboard.defaultName" []) as [name ->]; [by vm_compute|].
  destruct (translate_total displayLocale "dashboard.defaultFixed" []) as [fixed ->]; [by vm_compute|].
  destruct (translate_total displayLocale "dashboard.browserLocal" []) as [local ->]; [by vm_compute|]. cbn [mbind option_bind].
  set (entry_of := λ d, mkCatalogEntry (dash_id d) (dash_name d) local (bool_decide (activeDashboardId state = dash_id d)) (Z.of_nat (length (dash_widgets d)))).
  assert (∀ ds, activeDashboardId state ∉ dash_id <$> ds → js_filter cat_pressed (map entry_of ds) = []) as Hnone.
  { induction ds as [|d ds IH]; [done|]. rewrite fmap_cons. intros [Hne Hin]%not_elem_of_cons. cbn [map]. rewrite js_filter_cons.
    cbn [cat_pressed entry_of]. rewrite bool_decide_false by done. by apply IH. }
  unfold activeDashboard. fold state. destruct Hact as [Hd|Hin].
  - assert (js_find (λ d, bool_decide (dash_id d = activeDashboardId state)) (dashboards state) = None) as ->.
    { apply js_find_None. intros d Hd'. apply bool_decide_false. intros Heq. apply Hdef. rewrite <- Hd, <- Heq. by apply list_elem_of_fmap_2. }
    cbn [mbind option_bind]. intros [= <-]. cbn [home_catalog home_title home_count]. rewrite js_filter_cons. cbn [cat_pressed].
    rewrite bool_decide_true, Hnone by congruence. eexists. split_and!; [reflexivity|by cbn|done|done].
  - apply list_elem_of_fmap in Hin as (d & Heq & Hin).
    assert (js_find (λ c, bool_decide (dash_id c = activeDashboardId state)) (dashboards state) = Some d) as ->
      by (rewrite Heq; by apply js_find_unique).
    destruct (grid_total displayLocale (ws_editing s) false false None (dash_widgets d)) as (grid & -> & _).
    cbn [mbind option_bind]. intros [= <-]. cbn [home_catalog home_title home_count]. rewrite js_filter_cons. cbn [cat_pressed].
    rewrite bool_decide_false by (intros Hd; apply Hdef; rewrite <- Hd, Heq; by apply list_elem_of_fmap_2).
    exists (entry_of d). split_and!; [|done|done|done]. fold entry_of.
    assert (∀ l1 l2, dashboards state = l1 ++ d :: l2 → js_filter cat_pressed (map entry_of (dashboards state)) = [entry_of d]) as Hone.
    { intros l1 l2 Hs. rewrite Hs in Hnd |- *. rewrite fmap_app, fmap_cons in Hnd. apply NoDup_app in Hnd as (_ & Hdis & [Hn2 _]%NoDup_cons).
      rewrite map_app, js_filter_app. cbn [map]. rewrite js_filter_cons. cbn [cat_pressed entry_of]. rewrite bool_decide_true by done.
      rewrite !Hnone; [done|rewrite Heq; intros H1; by apply Hn2|rewrite Heq]. intros H1. apply (Hdis _ H1), list_elem_of_here. }
    apply list_elem_of_split in Hin as (l1 & l2 & Hs). by eapply Hone.
Qed.

(** the workspace shows its state. In every state its user can reach, in both languages
    and both modes, a view exists. The builder offers in its palette exactly the widgets
    that its grid does not have, says that it is complete when none is left, and its save
    button is enabled exactly when saving does something, which closes the builder. In the
    management home exactly one dashboard is marked, the active one, and the summary is
    its name and number of widgets, unless a stored dashboard bears the reserved
    identifier; and while the builder is open no button of the settings dialog can
    change the dashboards. *)
Theorem workspace_view_spec `{DateHost} userId storage s displayLocale managementMode :
  workspace_reachable userId storage s →
  ∃ view, workspace_view displayLocale managementMode s = Some view ∧
  (∀ bv, view_body view = BuilderBody bv → ∃ b, ws_builder s = Some b ∧
     (pal_type <$> bv_palette bv) ++ (card_type <$> grid_cards (bv_grid bv)) ≡ₚ OVERVIEW_WIDGET_TYPES ∧
     card_type <$> grid_cards (bv_grid bv) = wtype <$> b_widgets b ∧
     (bv_complete bv = true ↔ bv_palette bv = []) ∧
     ∀ random now, if bv_saveDisabled bv then onSave userId random now s = s else ws_builder (onSave userId random now s) = None) ∧
  (∀ home, view_body view = HomeBody home → DEFAULT_DASHBOARD_ID ∉ dash_id <$> dashboards (p_state (ws_provider s)) →
     ∃ entry, js_filter cat_pressed (home_catalog home) = [entry] ∧ cat_id entry = activeDashboardId (p_state (ws_provider s)) ∧
       cat_name entry = home_title home ∧ cat_count entry = home_count home) ∧
  (∀ settings, view_settings view = Some settings → ws_builder s ≠ None →
     set_locked settings = true ∧ set_newDisabled settings = true ∧ set_activeDisabled settings ≠ Some false).
Proof.
  intros Hr. assert (workspace_ok userId False s) as Hok by by eapply workspace_reachable_always.
  unfold workspace_view. known_text. destruct managementMode; [destruct (ws_builder s) as [b|] eqn:Hb|].
  - destruct (builder_total displayLocale s b) as (bv & -> & Hp & Hc & Hsave & Hcomp). cbn [mbind option_bind].
    eexists. split; [reflexivity|]. cbn [view_body view_settings]. split_and!; [|done|].
    + intros bv' [= <-]. exists b. destruct (wo_builder _ _ _ Hok b Hb) as (Hl & _).
      split_and!; [done|rewrite Hp, Hc; by apply palette_types, Hl|done| |].
      * rewrite Hcomp. clear -Hp. by destruct (bv_palette bv), (availableDefinitions b).
      * intros random now. rewrite Hsave. unfold onSave, builder_valid. rewrite Hb. destruct (ws_editing s); [|done]. cbn [negb orb].
        by destruct (truthy (trim (b_name b)) && _).
    + intros settings Hset _. destruct (ws_settings s); [|done]. injection Hset as <-. cbn. rewrite orb_true_r.
      split_and!; [done|done|by destruct (activeDashboard _)].
  - destruct (home_total displayLocale s) as [home Hhome]. rewrite Hhome. cbn [mbind option_bind]. eexists. split; [reflexivity|].
    cbn [view_body view_settings]. split_and!; [done| |done]. intros home' [= <-] Hdef.
    apply (home_pressed displayLocale s); [apply Hok|apply Hok|done|done].
  - destruct (activeDashboard _) as [d|]; [destruct (grid_total displayLocale (ws_editing s) false false None (dash_widgets d)) as (grid & -> & _)|];
      cbn [mbind option_bind]; eexists; (split; [reflexivity|]); by split_and!.
Qed.

Lemma grid_items_roundtrip_witness : ∃ items, mapM toLayoutItem sample_layout = Some items ∧
  applyGridLayout sample_layout (reverse (gi_item <$> items)) = Some sample_layout.
Proof.
  destruct (grid_items_roundtrip sample_layout sample_layout_ok) as (items & Hm & _ & Hback).
  exists items. split; [exact Hm|]. apply Hback. apply reverse_Permutation.
Defined.

Lemma workspace_view_spec_witness : ∃ view, workspace_view KO true (@open_workspace utc_host 7 true empty_storage) = Some view ∧
  ∀ home, view_body view = HomeBody home → ∃ entry, js_filter cat_pressed (home_catalog home) = [entry] ∧ cat_id entry = DEFAULT_DASHBOARD_ID.
Proof.
  destruct (@workspace_view_spec utc_host 7 empty_storage (@open_workspace utc_host 7 true empty_storage) KO true)
    as (view & Hv & _ & Hhome & _).
  - apply wr_open.
  - exists view. split; [exact Hv|]. intros home Hh. destruct (Hhome home Hh) as (entry & He & Hid & _); [by_compute|].
    exists entry. split; [exact He|exact Hid].
Defined.
