(* ===== verification/Rest.v ===== *)
(** * The HTTP contract

    Models the operations and paths of frontend/src/api/generated/schema.ts (the query and
    path parameters, bodies and responses of every operation, and the paths they are
    found under), what a server that follows the contract reads from a request, and the
    operation each call of frontend/src/api/endpoints.ts is meant for, with the theorem that
    the requests the client builds are requests of the contract. *)

From S2P Require Import Prelude JsNumber JsDate Json Url Contracts ApiClient UrlState ListPages Intelligence Operations.

#[local] Open Scope list_scope.
#[local] Open Scope Z_scope.

(** ** Operations *)

(** The types of parameters; the numbers of the contract are integers. *)
Inductive ParamType := PString | PInteger | PBoolean | PIntegers | PLiteral (values : list ustring).
Record ApiParameter := mkParameter { par_name : ustring; par_type : ParamType; par_required : bool }.

(** The query, the path, the schema of the body, and that of every response. *)
Record Operation := mkOperation {
  op_name : ustring;
  op_query : list ApiParameter;
  op_path : list ApiParameter;
  op_body : option ustring;
  op_responses : list (Z * ustring);
}.

Definition literals (A : Type) `{Literal A} : list ustring := map lit_name (lit_values : list A).
Definition errors (codes : list Z) : list (Z * ustring) := map (λ code, (code, u! "ErrorEnvelope")) codes.

Inductive PathPart := Fixed (text : ustring) | Arg (name : ustring).
Record PathItem := mkPath { item_template : list PathPart; item_methods : list (ustring * Operation) }.

Definition op_alertsList : Operation := mkOperation (u! "alertsList")
    [mkParameter (u! "timePreset") (PLiteral (literals TimePreset)) false; mkParameter (u! "from") PString false;
     mkParameter (u! "to") PString false; mkParameter (u! "page") PInteger false; mkParameter (u! "size") PInteger false;
     mkParameter (u! "endpointId") PInteger false; mkParameter (u! "status") (PLiteral (literals AlertStatus)) false;
     mkParameter (u! "severity") (PLiteral (literals Severity)) false; mkParameter (u! "ruleCode") PString false;
     mkParameter (u! "sortBy") (PLiteral (literals AlertSortBy)) false; mkParameter (u! "sortOrder") (PLiteral (literals SortOrder)) false]
    [] None
    ((200, u! "SuccessEnvelope_PagedData_AlertDto__") :: errors [400; 401; 503]).
Definition op_alertsGet : Operation := mkOperation (u! "alertsGet")
    []
    [mkParameter (u! "alertId") PInteger true] None
    ((200, u! "SuccessEnvelope_AlertDetailDto_") :: errors [400; 401; 404; 503]).
Definition op_alertsUpdateStatus : Operation := mkOperation (u! "alertsUpdateStatus")
    []
    [mkParameter (u! "alertId") PInteger true] (Some (u! "AlertStatusUpdateRequest"))
    ((200, u! "SuccessEnvelope_AlertDto_") :: errors [400; 401; 403; 404; 503]).
Definition op_archiveRestoresList : Operation := mkOperation (u! "archiveRestoresList")
    [mkParameter (u! "page") PInteger false; mkParameter (u! "size") PInteger false; mkParameter (u! "endpointIds") PIntegers true;
     mkParameter (u! "from") PString true; mkParameter (u! "to") PString true]
    [] None
    ((200, u! "SuccessEnvelope_PagedData_ArchiveBucketDto__") :: errors [400; 401; 503]).
Definition op_archiveRestoresStart : Operation := mkOperation (u! "archiveRestoresStart")
    []
    [] (Some (u! "ArchiveRestoreRequest"))
    ((200, u! "SuccessEnvelope_ArchiveRestoreStartDto_") :: (202, u! "SuccessEnvelope_ArchiveRestoreStartDto_") :: errors [400; 401; 403; 503]).
Definition op_authLogin : Operation := mkOperation (u! "authLogin")
    []
    [] (Some (u! "LoginRequest"))
    ((200, u! "SuccessEnvelope_LoginData_") :: errors [400; 401; 403; 429; 503]).
Definition op_collectorHeartbeatAgent : Operation := mkOperation (u! "collectorHeartbeatAgent")
    []
    [] (Some (u! "AgentHeartbeatRequest"))
    ((200, u! "SuccessEnvelope_AgentHeartbeatData_") :: errors [400; 401; 403; 503]).
Definition op_collectorRegisterAgent : Operation := mkOperation (u! "collectorRegisterAgent")
    []
    [] (Some (u! "AgentRegisterRequest"))
    ((200, u! "SuccessEnvelope_AgentRegisterData_") :: (201, u! "SuccessEnvelope_AgentRegisterData_") :: errors [400; 401; 403; 409; 503]).
Definition op_collectorIngestTelemetryBatch : Operation := mkOperation (u! "collectorIngestTelemetryBatch")
    []
    [] (Some (u! "TelemetryBatchRequest"))
    ((200, u! "SuccessEnvelope_TelemetryBatchData_") :: errors [400; 401; 403; 413; 503]).
Definition op_dashboardGetAvailability : Operation := mkOperation (u! "dashboardGetAvailability")
    [mkParameter (u! "endpointIds") PIntegers false]
    [] None
    ((200, u! "SuccessEnvelope_DashboardAvailabilityDto_") :: errors [400; 401; 503]).
Definition op_dashboardGetEndpointSummary : Operation := mkOperation (u! "dashboardGetEndpointSummary")
    [mkParameter (u! "timePreset") (PLiteral (literals TimePreset)) false; mkParameter (u! "from") PString false;
     mkParameter (u! "to") PString false; mkParameter (u! "endpointId") PInteger false]
    [] None
    ((200, u! "SuccessEnvelope_EndpointSummaryDto_") :: errors [400; 401; 503]).
Definition op_dashboardGetIngestSummary : Operation := mkOperation (u! "dashboardGetIngestSummary")
    [mkParameter (u! "timePreset") (PLiteral (literals TimePreset)) false; mkParameter (u! "from") PString false;
     mkParameter (u! "to") PString false; mkParameter (u! "endpointId") PInteger false]
    [] None
    ((200, u! "SuccessEnvelope_IngestSummaryDto_") :: errors [400; 401; 503]).
Definition op_dashboardLayoutsGet : Operation := mkOperation (u! "dashboardLayoutsGet")
    []
    [mkParameter (u! "dashboardKey") PString true] None
    ((200, u! "SuccessEnvelope_DashboardLayoutDto_") :: errors [401; 404; 503]).
Definition op_dashboardLayoutsPut : Operation := mkOperation (u! "dashboardLayoutsPut")
    []
    [mkParameter (u! "dashboardKey") PString true] (Some (u! "DashboardLayoutPutRequest"))
    ((200, u! "SuccessEnvelope_DashboardLayoutDto_") :: errors [400; 401; 404; 409; 503]).
Definition op_dashboardLayoutsDelete : Operation := mkOperation (u! "dashboardLayoutsDelete")
    []
    [mkParameter (u! "dashboardKey") PString true] None
    ((200, u! "SuccessEnvelope_DashboardLayoutDto_") :: errors [401; 404; 503]).
Definition op_dashboardGetSummary : Operation := mkOperation (u! "dashboardGetSummary")
    [mkParameter (u! "timePreset") (PLiteral (literals TimePreset)) false; mkParameter (u! "from") PString false;
     mkParameter (u! "to") PString false; mkParameter (u! "endpointId") PInteger false;
     mkParameter (u! "interval") (PLiteral (literals DashboardInterval)) true;
     mkParameter (u! "eventSource") (PLiteral [u! "ROLLUP"; u! "LIVE"]) false]
    [] None
    ((200, u! "SuccessEnvelope_DashboardSummaryDto_") :: errors [400; 401; 429; 503]).
Definition op_dashboardGetTopology : Operation := mkOperation (u! "dashboardGetTopology")
    [mkParameter (u! "timePreset") (PLiteral (literals TimePreset)) false; mkParameter (u! "from") PString false;
     mkParameter (u! "to") PString false; mkParameter (u! "endpointIds") PIntegers false]
    [] None
    ((200, u! "SuccessEnvelope_EgressTopologyDto_") :: errors [400; 401; 503]).
Definition op_endpointsList : Operation := mkOperation (u! "endpointsList")
    [mkParameter (u! "page") PInteger false; mkParameter (u! "size") PInteger false; mkParameter (u! "endpointIds") PIntegers false;
     mkParameter (u! "q") PString false; mkParameter (u! "status") (PLiteral (literals EndpointStatus)) false;
     mkParameter (u! "osType") (PLiteral (literals OsType)) false; mkParameter (u! "riskLevel") (PLiteral (literals RiskLevel)) false;
     mkParameter (u! "sortBy") (PLiteral (literals EndpointSortBy)) false; mkParameter (u! "sortOrder") (PLiteral (literals SortOrder)) false]
    [] None
    ((200, u! "SuccessEnvelope_PagedData_EndpointDto__") :: errors [400; 401; 503]).
Definition op_endpointsGet : Operation := mkOperation (u! "endpointsGet")
    []
    [mkParameter (u! "endpointId") PInteger true] None
    ((200, u! "SuccessEnvelope_EndpointDetailDto_") :: errors [400; 401; 404; 503]).
Definition op_endpointsGetProcessTree : Operation := mkOperation (u! "endpointsGetProcessTree")
    [mkParameter (u! "timePreset") (PLiteral (literals TimePreset)) false; mkParameter (u! "from") PString false;
     mkParameter (u! "to") PString false; mkParameter (u! "selectedPid") PInteger false]
    [mkParameter (u! "endpointId") PInteger true] None
    ((200, u! "SuccessEnvelope_ProcessTreeDto_") :: errors [400; 401; 503]).
Definition op_eventsList : Operation := mkOperation (u! "eventsList")
    [mkParameter (u! "timePreset") (PLiteral (literals TimePreset)) false; mkParameter (u! "from") PString false;
     mkParameter (u! "to") PString false; mkParameter (u! "page") PInteger false; mkParameter (u! "size") PInteger false;
     mkParameter (u! "endpointId") PInteger false; mkParameter (u! "eventType") (PLiteral (literals EventType)) false;
     mkParameter (u! "processName") PString false; mkParameter (u! "filePath") PString false; mkParameter (u! "domain") PString false;
     mkParameter (u! "remoteIp") PString false; mkParameter (u! "dnsQuery") PString false; mkParameter (u! "l7Protocol") PString false;
     mkParameter (u! "sortOrder") (PLiteral (literals SortOrder)) false]
    [] None
    ((200, u! "SuccessEnvelope_PagedData_EventDto__") :: errors [400; 401; 409; 503]).
Definition op_eventsGet : Operation := mkOperation (u! "eventsGet")
    [mkParameter (u! "endpointId") PInteger true; mkParameter (u! "occurredAt") PString true]
    [mkParameter (u! "eventId") PString true] None
    ((200, u! "SuccessEnvelope_EventDetailDto_") :: errors [400; 401; 404; 409; 503]).
Definition op_failuresList : Operation := mkOperation (u! "failuresList")
    [mkParameter (u! "timePreset") (PLiteral (literals TimePreset)) false; mkParameter (u! "from") PString false;
     mkParameter (u! "to") PString false; mkParameter (u! "page") PInteger false; mkParameter (u! "size") PInteger false;
     mkParameter (u! "status") (PLiteral (literals EventFailureStatus)) false; mkParameter (u! "failureStage") PString false;
     mkParameter (u! "retryable") PBoolean false; mkParameter (u! "sortOrder") (PLiteral (literals SortOrder)) false]
    [] None
    ((200, u! "SuccessEnvelope_PagedData_EventFailureDto__") :: errors [400; 401; 503]).
Definition op_incidentsList : Operation := mkOperation (u! "incidentsList")
    [mkParameter (u! "timePreset") (PLiteral (literals TimePreset)) false; mkParameter (u! "from") PString false;
     mkParameter (u! "to") PString false; mkParameter (u! "page") PInteger false; mkParameter (u! "size") PInteger false;
     mkParameter (u! "endpointId") PInteger false; mkParameter (u! "status") (PLiteral (literals IncidentStatus)) false;
     mkParameter (u! "severity") (PLiteral (literals Severity)) false; mkParameter (u! "sortOrder") (PLiteral (literals SortOrder)) false]
    [] None
    ((200, u! "SuccessEnvelope_PagedData_IncidentDto__") :: errors [400; 401; 503]).
Definition op_incidentsGet : Operation := mkOperation (u! "incidentsGet")
    []
    [mkParameter (u! "incidentId") PInteger true] None
    ((200, u! "SuccessEnvelope_IncidentDetailDto_") :: errors [400; 401; 404; 503]).
Definition op_incidentsGetInvestigation : Operation := mkOperation (u! "incidentsGetInvestigation")
    []
    [mkParameter (u! "incidentId") PInteger true] None
    ((200, u! "SuccessEnvelope_IncidentInvestigationDto_") :: errors [400; 401; 404; 503]).
Definition op_incidentsUpdateStatus : Operation := mkOperation (u! "incidentsUpdateStatus")
    []
    [mkParameter (u! "incidentId") PInteger true] (Some (u! "IncidentStatusUpdateRequest"))
    ((200, u! "SuccessEnvelope_IncidentDto_") :: errors [400; 401; 403; 404; 503]).
Definition op_incidentsGetTimeline : Operation := mkOperation (u! "incidentsGetTimeline")
    []
    [mkParameter (u! "incidentId") PInteger true] None
    ((200, u! "SuccessEnvelope_AttackTimelineDto_") :: errors [400; 401; 404; 503]).
Definition op_intelligenceCorrelate : Operation := mkOperation (u! "intelligenceCorrelate")
    [mkParameter (u! "timePreset") (PLiteral (literals TimePreset)) false; mkParameter (u! "from") PString false;
     mkParameter (u! "to") PString false; mkParameter (u! "value") PString true; mkParameter (u! "endpointIds") PIntegers false]
    [] None
    ((200, u! "SuccessEnvelope_CorrelationDto_") :: errors [400; 401; 503]).
Definition op_intelligenceDnsLookup : Operation := mkOperation (u! "intelligenceDnsLookup")
    [mkParameter (u! "query") PString true; mkParameter (u! "recordType") (PLiteral (literals DnsRecordType)) true]
    [] None
    ((200, u! "SuccessEnvelope_DnsLookupDto_") :: errors [400; 401; 404; 503]).
Definition op_intelligenceForwardDns : Operation := mkOperation (u! "intelligenceForwardDns")
    [mkParameter (u! "domain") PString true]
    [] None
    ((200, u! "SuccessEnvelope_ForwardDnsDto_") :: errors [400; 401; 404; 503]).
Definition op_intelligenceReverseDns : Operation := mkOperation (u! "intelligenceReverseDns")
    [mkParameter (u! "ip") PString true]
    [] None
    ((200, u! "SuccessEnvelope_ReverseDnsDto_") :: errors [400; 401; 404; 503]).
Definition op_operationsGetHealth : Operation := mkOperation (u! "operationsGetHealth")
    []
    [] None
    ((200, u! "SuccessEnvelope_OperationsHealthDto_") :: errors [401]).
Definition op_usersMeGet : Operation := mkOperation (u! "usersMeGet")
    []
    [] None
    ((200, u! "SuccessEnvelope_UserDto_") :: errors [401; 503]).
Definition op_usersLocaleUpdate : Operation := mkOperation (u! "usersLocaleUpdate")
    []
    [] (Some (u! "UserLocaleUpdateRequest"))
    ((200, u! "SuccessEnvelope_UserDto_") :: errors [400; 401; 503]).

(** ** The paths *)

Definition path_alerts : PathItem :=
  mkPath [Fixed (u! "api"); Fixed (u! "v1"); Fixed (u! "alerts")]
    [(u! "GET", op_alertsList)].
Definition path_alerts_alertId : PathItem :=
  mkPath [Fixed (u! "api"); Fixed (u! "v1"); Fixed (u! "alerts"); Arg (u! "alertId")]
    [(u! "GET", op_alertsGet)].
Definition path_alerts_alertId_status : PathItem :=
  mkPath [Fixed (u! "api"); Fixed (u! "v1"); Fixed (u! "alerts"); Arg (u! "alertId"); Fixed (u! "status")]
    [(u! "PATCH", op_alertsUpdateStatus)].
Definition path_archives_restores : PathItem :=
  mkPath [Fixed (u! "api"); Fixed (u! "v1"); Fixed (u! "archives"); Fixed (u! "restores")]
    [(u! "GET", op_archiveRestoresList); (u! "POST", op_archiveRestoresStart)].
Definition path_auth_login : PathItem :=
  mkPath [Fixed (u! "api"); Fixed (u! "v1"); Fixed (u! "auth"); Fixed (u! "login")]
    [(u! "POST", op_authLogin)].
Definition path_collector_agents_heartbeat : PathItem :=
  mkPath [Fixed (u! "api"); Fixed (u! "v1"); Fixed (u! "collector"); Fixed (u! "agents"); Fixed (u! "heartbeat")]
    [(u! "POST", op_collectorHeartbeatAgent)].
Definition path_collector_agents_register : PathItem :=
  mkPath [Fixed (u! "api"); Fixed (u! "v1"); Fixed (u! "collector"); Fixed (u! "agents"); Fixed (u! "register")]
    [(u! "POST", op_collectorRegisterAgent)].
Definition path_collector_telemetry_batches : PathItem :=
  mkPath [Fixed (u! "api"); Fixed (u! "v1"); Fixed (u! "collector"); Fixed (u! "telemetry"); Fixed (u! "batches")]
    [(u! "POST", op_collectorIngestTelemetryBatch)].
Definition path_dashboard_availability : PathItem :=
  mkPath [Fixed (u! "api"); Fixed (u! "v1"); Fixed (u! "dashboard"); Fixed (u! "availability")]
    [(u! "GET", op_dashboardGetAvailability)].
Definition path_dashboard_endpoints_summary : PathItem :=
  mkPath [Fixed (u! "api"); Fixed (u! "v1"); Fixed (u! "dashboard"); Fixed (u! "endpoints"); Fixed (u! "summary")]
    [(u! "GET", op_dashboardGetEndpointSummary)].
Definition path_dashboard_ingest_summary : PathItem :=
  mkPath [Fixed (u! "api"); Fixed (u! "v1"); Fixed (u! "dashboard"); Fixed (u! "ingest"); Fixed (u! "summary")]
    [(u! "GET", op_dashboardGetIngestSummary)].
Definition path_dashboard_layouts_dashboardKey : PathItem :=
  mkPath [Fixed (u! "api"); Fixed (u! "v1"); Fixed (u! "dashboard"); Fixed (u! "layouts"); Arg (u! "dashboardKey")]
    [(u! "GET", op_dashboardLayoutsGet); (u! "PUT", op_dashboardLayoutsPut); (u! "DELETE", op_dashboardLayoutsDelete)].
Definition path_dashboard_summary : PathItem :=
  mkPath [Fixed (u! "api"); Fixed (u! "v1"); Fixed (u! "dashboard"); Fixed (u! "summary")]
    [(u! "GET", op_dashboardGetSummary)].
Definition path_dashboard_topology : PathItem :=
  mkPath [Fixed (u! "api"); Fixed (u! "v1"); Fixed (u! "dashboard"); Fixed (u! "topology")]
    [(u! "GET", op_dashboardGetTopology)].
Definition path_endpoints : PathItem :=
  mkPath [Fixed (u! "api"); Fixed (u! "v1"); Fixed (u! "endpoints")]
    [(u! "GET", op_endpointsList)].
Definition path_endpoints_endpointId : PathItem :=
  mkPath [Fixed (u! "api"); Fixed (u! "v1"); Fixed (u! "endpoints"); Arg (u! "endpointId")]
    [(u! "GET", op_endpointsGet)].
Definition path_endpoints_endpointId_process_tree : PathItem :=
  mkPath [Fixed (u! "api"); Fixed (u! "v1"); Fixed (u! "endpoints"); Arg (u! "endpointId"); Fixed (u! "process-tree")]
    [(u! "GET", op_endpointsGetProcessTree)].
Definition path_events : PathItem :=
  mkPath [Fixed (u! "api"); Fixed (u! "v1"); Fixed (u! "events")]
    [(u! "GET", op_eventsList)].
Definition path_events_eventId : PathItem :=
  mkPath [Fixed (u! "api"); Fixed (u! "v1"); Fixed (u! "events"); Arg (u! "eventId")]
    [(u! "GET", op_eventsGet)].
Definition path_failures : PathItem :=
  mkPath [Fixed (u! "api"); Fixed (u! "v1"); Fixed (u! "failures")]
    [(u! "GET", op_failuresList)].
Definition path_incidents : PathItem :=
  mkPath [Fixed (u! "api"); Fixed (u! "v1"); Fixed (u! "incidents")]
    [(u! "GET", op_incidentsList)].
Definition path_incidents_incidentId : PathItem :=
  mkPath [Fixed (u! "api"); Fixed (u! "v1"); Fixed (u! "incidents"); Arg (u! "incidentId")]
    [(u! "GET", op_incidentsGet)].
Definition path_incidents_incidentId_investigation : PathItem :=
  mkPath [Fixed (u! "api"); Fixed (u! "v1"); Fixed (u! "incidents"); Arg (u! "incidentId"); Fixed (u! "investigation")]
    [(u! "GET", op_incidentsGetInvestigation)].
Definition path_incidents_incidentId_status : PathItem :=
  mkPath [Fixed (u! "api"); Fixed (u! "v1"); Fixed (u! "incidents"); Arg (u! "incidentId"); Fixed (u! "status")]
    [(u! "PATCH", op_incidentsUpdateStatus)].
Definition path_incidents_incidentId_timeline : PathItem :=
  mkPath [Fixed (u! "api"); Fixed (u! "v1"); Fixed (u! "incidents"); Arg (u! "incidentId"); Fixed (u! "timeline")]
    [(u! "GET", op_incidentsGetTimeline)].
Definition path_intelligence_correlate : PathItem :=
  mkPath [Fixed (u! "api"); Fixed (u! "v1"); Fixed (u! "intelligence"); Fixed (u! "correlate")]
    [(u! "GET", op_intelligenceCorrelate)].
Definition path_intelligence_dns_lookup : PathItem :=
  mkPath [Fixed (u! "api"); Fixed (u! "v1"); Fixed (u! "intelligence"); Fixed (u! "dns-lookup")]
    [(u! "GET", op_intelligenceDnsLookup)].
Definition path_intelligence_forward_dns : PathItem :=
  mkPath [Fixed (u! "api"); Fixed (u! "v1"); Fixed (u! "intelligence"); Fixed (u! "forward-dns")]
    [(u! "GET", op_intelligenceForwardDns)].
Definition path_intelligence_reverse_dns : PathItem :=
  mkPath [Fixed (u! "api"); Fixed (u! "v1"); Fixed (u! "intelligence"); Fixed (u! "reverse-dns")]
    [(u! "GET", op_intelligenceReverseDns)].
Definition path_operations_health : PathItem :=
  mkPath [Fixed (u! "api"); Fixed (u! "v1"); Fixed (u! "operations"); Fixed (u! "health")]
    [(u! "GET", op_operationsGetHealth)].
Definition path_users_me : PathItem :=
  mkPath [Fixed (u! "api"); Fixed (u! "v1"); Fixed (u! "users"); Fixed (u! "me")]
    [(u! "GET", op_usersMeGet)].
Definition path_users_me_locale : PathItem :=
  mkPath [Fixed (u! "api"); Fixed (u! "v1"); Fixed (u! "users"); Fixed (u! "me"); Fixed (u! "locale")]
    [(u! "PATCH", op_usersLocaleUpdate)].

Definition CONTRACT : list PathItem :=
  [path_alerts; path_alerts_alertId; path_alerts_alertId_status; path_archives_restores; path_auth_login;
   path_collector_agents_heartbeat; path_collector_agents_register; path_collector_telemetry_batches;
   path_dashboard_availability; path_dashboard_endpoints_summary; path_dashboard_ingest_summary;
   path_dashboard_layouts_dashboardKey; path_dashboard_summary; path_dashboard_topology; path_endpoints;
   path_endpoints_endpointId; path_endpoints_endpointId_process_tree; path_events; path_events_eventId; path_failures;
   path_incidents; path_incidents_incidentId; path_incidents_incidentId_investigation; path_incidents_incidentId_status;
   path_incidents_incidentId_timeline; path_intelligence_correlate; path_intelligence_dns_lookup;
   path_intelligence_forward_dns; path_intelligence_reverse_dns; path_operations_health; path_users_me;
   path_users_me_locale].

(** ** What a server reads *)

Fixpoint fits (template : list PathPart) (segments : list ustring) : option (list (ustring * ustring)) :=
  match template, segments with
  | [], [] => Some []
  | Fixed text :: template, segment :: segments => if bool_decide (text = segment) then fits template segments else None
  | Arg name :: template, segment :: segments =>
    if truthy segment then cons (name, segment) <$> fits template segments else None
  | _, _ => None
  end.

Fixpoint find_operation (contract : list PathItem) (method : ustring) (segments : list ustring) :
  option (Operation * list (ustring * ustring)) :=
  match contract with
  | [] => None
  | item :: rest =>
    match fits (item_template item) segments, map_get method (item_methods item) with
    | Some args, Some op => Some (op, args)
    | _, _ => find_operation rest method segments
    end
  end.

(** The operation, path arguments and query of a request for [target]. *)
Definition serve_request (method target : ustring) : option (Operation * list (ustring * ustring) * URLSearchParams) :=
  match split_on 63 target with
  | [] => None
  | pathname :: search =>
    '(op, args) ← find_operation CONTRACT method (drop 1 (split_on 47 pathname));
    Some (op, map (λ kv, (kv.1, decode_component kv.2)) args, params_of_string (default [] (head search)))
  end.

(** The text of a parameter. *)
Definition text_ok (type : ParamType) (text : ustring) : bool :=
  match type with
  | PString => true
  | PInteger | PIntegers => truthy text && forallb is_digit text
  | PBoolean => bool_decide (text = u! "true") || bool_decide (text = u! "false")
  | PLiteral values => str_in text values
  end.

Definition parameter (name : ustring) (parameters : list ApiParameter) : option ApiParameter :=
  js_find (λ p, bool_decide (par_name p = name)) parameters.
Definition declared (parameters : list ApiParameter) (kv : ustring * ustring) : bool :=
  match parameter kv.1 parameters with Some p => text_ok (par_type p) kv.2 | None => false end.
Definition accepts (parameters : list ApiParameter) (pairs : list (ustring * ustring)) : bool :=
  forallb (declared parameters) pairs &&
  forallb (λ p, negb (par_required p) || js_some (λ kv, bool_decide (kv.1 = par_name p)) pairs) parameters.

(** ** The operation of a call *)

Definition call_operation (call : ApiCall) : Operation :=
  match call with
  | login _ => op_authLogin
  | currentUser => op_usersMeGet
  | updateLocale _ => op_usersLocaleUpdate
  | endpoints _ => op_endpointsList
  | endpoint _ => op_endpointsGet
  | processTree _ _ => op_endpointsGetProcessTree
  | events _ => op_eventsList
  | event _ _ => op_eventsGet
  | failures _ => op_failuresList
  | alerts _ => op_alertsList
  | alert _ => op_alertsGet
  | updateAlert _ _ => op_alertsUpdateStatus
  | incidents _ => op_incidentsList
  | incident _ => op_incidentsGet
  | updateIncident _ _ => op_incidentsUpdateStatus
  | incidentTimeline _ => op_incidentsGetTimeline
  | incidentInvestigation _ => op_incidentsGetInvestigation
  | dashboard _ => op_dashboardGetSummary
  | dashboardAvailability _ => op_dashboardGetAvailability
  | endpointSummary _ => op_dashboardGetEndpointSummary
  | ingestSummary _ => op_dashboardGetIngestSummary
  | topology _ => op_dashboardGetTopology
  | correlation _ => op_intelligenceCorrelate
  | operationsHealth => op_operationsGetHealth
  | archives _ => op_archiveRestoresList
  | startRestore _ => op_archiveRestoresStart
  end.

(** The schema the code gives to the answer. *)
Definition call_answer (call : ApiCall) : ustring :=
  match call with
  | login _ => u! "SuccessEnvelope_LoginData_"
  | currentUser | updateLocale _ => u! "SuccessEnvelope_UserDto_"
  | endpoints _ => u! "SuccessEnvelope_PagedData_EndpointDto__"
  | endpoint _ => u! "SuccessEnvelope_EndpointDetailDto_"
  | processTree _ _ => u! "SuccessEnvelope_ProcessTreeDto_"
  | events _ => u! "SuccessEnvelope_PagedData_EventDto__"
  | event _ _ => u! "SuccessEnvelope_EventDetailDto_"
  | failures _ => u! "SuccessEnvelope_PagedData_EventFailureDto__"
  | alerts _ => u! "SuccessEnvelope_PagedData_AlertDto__"
  | alert _ => u! "SuccessEnvelope_AlertDetailDto_"
  | updateAlert _ _ => u! "SuccessEnvelope_AlertDto_"
  | incidents _ => u! "SuccessEnvelope_PagedData_IncidentDto__"
  | incident _ => u! "SuccessEnvelope_IncidentDetailDto_"
  | updateIncident _ _ => u! "SuccessEnvelope_IncidentDto_"
  | incidentTimeline _ => u! "SuccessEnvelope_AttackTimelineDto_"
  | incidentInvestigation _ => u! "SuccessEnvelope_IncidentInvestigationDto_"
  | dashboard _ => u! "SuccessEnvelope_DashboardSummaryDto_"
  | dashboardAvailability _ => u! "SuccessEnvelope_DashboardAvailabilityDto_"
  | endpointSummary _ => u! "SuccessEnvelope_EndpointSummaryDto_"
  | ingestSummary _ => u! "SuccessEnvelope_IngestSummaryDto_"
  | topology _ => u! "SuccessEnvelope_EgressTopologyDto_"
  | correlation _ => u! "SuccessEnvelope_CorrelationDto_"
  | operationsHealth => u! "SuccessEnvelope_OperationsHealthDto_"
  | archives _ => u! "SuccessEnvelope_PagedData_ArchiveBucketDto__"
  | startRestore _ => u! "SuccessEnvelope_ArchiveRestoreStartDto_"
  end.

(** The identifiers in a call's path. *)
Definition call_args (call : ApiCall) : list (ustring * ustring) :=
  match call with
  | endpoint id | processTree id _ => [(u! "endpointId", string_of_Z id)]
  | event id _ => [(u! "eventId", id)]
  | alert id | updateAlert id _ => [(u! "alertId", string_of_Z id)]
  | incident id | updateIncident id _ | incidentTimeline id | incidentInvestigation id => [(u! "incidentId", string_of_Z id)]
  | _ => []
  end.

(** ** Calls with values of the declared types *)

Definition value_ok (type : ParamType) (value : QueryValue) : Prop :=
  match type, value with
  | _, (QUndefined | QNull) => True
  | PString, QString s => True
  | PLiteral values, QString s => s ∈ values
  | PInteger, QNumber n => ∃ z, to_integer n = Some z ∧ 0 ≤ z ≤ max_safe
  | PIntegers, QNumbers l => Forall (λ n, ∃ z, to_integer n = Some z ∧ 0 ≤ z ≤ max_safe) l
  | PBoolean, QBool _ => True
  | _, _ => False
  end.

(** A query object has the type of the contract: its properties are declared, each once,
    with values of their types, and the required ones have a value. *)
Definition query_typed (parameters : list ApiParameter) (query : QueryRecord) : Prop :=
  query_ok query ∧ NoDup query.*1 ∧
  Forall (λ kv, ∃ p, parameter kv.1 parameters = Some p ∧ value_ok (par_type p) kv.2) query ∧
  Forall (λ p, par_required p = true → ∃ v, (par_name p, v) ∈ query ∧ query_texts v ≠ []) parameters.

Definition call_typed (call : ApiCall) : Prop :=
  query_typed (op_query (call_operation call)) (call_query call) ∧ from_option json_wf True (call_body call) ∧
  match call with
  | endpoint id | processTree id _ | alert id | updateAlert id _ | incident id | updateIncident id _ | incidentTimeline id
  | incidentInvestigation id => 0 < id ≤ max_safe
  | event id _ => well_formed id ∧ id ≠ []
  | _ => True
  end.


(** ** Reading back what the client sends *)

Lemma decode_component_digits s : Forall (λ c, is_digit c = true) s → decode_component s = s.
Proof.
  intros Hs. pose proof (digits_ascii s Hs) as Ha. unfold decode_component.
  assert (percent_decode s = s) as ->.
  { clear Ha. induction Hs as [|c s Hc Hs IH]; [done|]. rewrite percent_decode_safe, IH; [done|].
    intros ->. by vm_compute in Hc. }
  rewrite <- (utf8_encode_ascii s Ha) at 1. unfold utf8_encode.
  rewrite decode_encode; [by apply usv_lit_units|]. apply code_points_scalar. eapply Forall_impl; [exact Ha|].
  intros c ?. cbv beta in *. lia.
Qed.

Lemma string_of_Z_truthy z : truthy (string_of_Z z) = true.
Proof.
  unfold string_of_Z. destruct (Z.ltb_spec z 0); [done|].
  destruct (dec_string_spec z ltac:(lia)) as (_ & Hne & _). by destruct (dec_string z).
Qed.

Lemma integer_text n z :
  to_integer n = Some z → 0 ≤ z ≤ max_safe → truthy (string_of_num n) && forallb is_digit (string_of_num n) = true.
Proof.
  intros Hn Hz. destruct n as [| |q]; [done..|]. cbn [string_of_num number_text]. rewrite Hn, (proj2 (Z.leb_le _ _)) by lia.
  cbn. rewrite string_of_Z_truthy. apply forallb_elem. intros c Hc.
  pose proof (string_of_Z_digits z ltac:(lia)) as Hd. rewrite Forall_forall in Hd. by apply Hd.
Qed.

Lemma text_ok_value type value t : value_ok type value → t ∈ query_texts value → text_ok type t = true.
Proof.
  intros Hv Ht. destruct type, value; cbn in Hv, Ht |- *; try done; try (by apply elem_of_nil in Ht).
  - apply list_elem_of_singleton in Ht as ->. destruct Hv as (z & Hz & ?). by apply (integer_text _ z).
  - apply list_elem_of_singleton in Ht as ->. by destruct b.
  - apply list_elem_of_fmap in Ht as (n & -> & Hn). rewrite Forall_forall in Hv.
    destruct (Hv n Hn) as (z & Hz & ?). by apply (integer_text _ z).
  - destruct (truthy s); [|by apply elem_of_nil in Ht]. apply list_elem_of_singleton in Ht as ->. by apply str_in_true.
Qed.

Lemma query_pairs_elem kv query :
  kv ∈ query_pairs query ↔ ∃ v, (kv.1, v) ∈ query ∧ kv.2 ∈ query_texts v.
Proof.
  unfold query_pairs. rewrite elem_of_flat_map. destruct kv as [k t]. cbn. split.
  - intros ([k' v] & Hin & (t' & [= -> ->] & Ht)%list_elem_of_fmap). eauto.
  - intros (v & Hin & Ht). exists (k, v). split; [done|]. by apply list_elem_of_fmap_2.
Qed.

(** The pairs of a typed query are those of the contract. *)
Lemma query_accepted parameters query : query_typed parameters query → accepts parameters (query_pairs query) = true.
Proof.
  intros (_ & _ & Hd & Hr). unfold accepts. apply andb_true_iff. split; apply forallb_elem.
  - intros kv (v & Hin & Ht)%query_pairs_elem. rewrite Forall_forall in Hd.
    destruct (Hd _ Hin) as (p & Hp & Hv). cbn in Hp, Hv. unfold declared. rewrite Hp. by apply (text_ok_value _ v).
  - intros p Hp. rewrite Forall_forall in Hr. specialize (Hr p Hp). destruct (par_required p); [|done].
    destruct Hr as (v & Hin & Hne); [done|]. cbn. destruct (query_texts v) as [|t ts] eqn:Et; [done|].
    apply js_some_true. exists (par_name p, t). split; [|by apply bool_decide_eq_true].
    apply query_pairs_elem. exists v. split; [done|]. rewrite Et. by left.
Qed.

(** ** The path of a call *)

(** [segments] is the path of a request for [call], found under its own operation. *)
Definition leads_to (call : ApiCall) (method : ustring) (segments : list ustring) : Prop :=
  ∃ args, find_operation CONTRACT method ([u! "api"; u! "v1"] ++ segments) = Some (call_operation call, args) ∧
    map (λ kv, (kv.1, decode_component kv.2)) args = call_args call ∧ Forall (λ s, 47 ∉ s ∧ 63 ∉ s) segments.

Definition path_text (segments : list ustring) : ustring := flat_map (cons 47) segments.

Lemma literal_segments segments :
  forallb (λ s, forallb (λ c, negb ((c =? 47) || (c =? 63))) s) segments = true →
  Forall (λ s : ustring, 47 ∉ s ∧ 63 ∉ s) segments.
Proof.
  rewrite forallb_elem. intros H. apply Forall_forall. intros s Hs. specialize (H s Hs). rewrite forallb_elem in H.
  split; intros Hin; by specialize (H _ Hin).
Qed.

Lemma leads_to_fixed call method segments :
  find_operation CONTRACT method ([u! "api"; u! "v1"] ++ segments) = Some (call_operation call, []) → call_args call = [] →
  forallb (λ s, forallb (λ c, negb ((c =? 47) || (c =? 63))) s) segments = true → leads_to call method segments.
Proof. intros Hf Ha Hs. exists []. split_and!; [done|done|by apply literal_segments]. Qed.

(** The identifier is any text that is not empty and has no delimiter. *)
Lemma leads_to_arg call method name before id decoded after :
  (∀ c r, find_operation CONTRACT method ([u! "api"; u! "v1"] ++ before ++ (c :: r) :: after) =
    Some (call_operation call, [(name, c :: r)])) →
  call_args call = [(name, decoded)] → decode_component id = decoded → id ≠ [] → 47 ∉ id → 63 ∉ id →
  forallb (λ s, forallb (λ c, negb ((c =? 47) || (c =? 63))) s) (before ++ after) = true →
  leads_to call method (before ++ id :: after).
Proof.
  intros Hf Ha Hd Hne H47 H63 [Hb Haf]%literal_segments%Forall_app. exists [(name, id)]. split_and!.
  - destruct id as [|c r]; [done|]. apply Hf.
  - by rewrite Ha, <- Hd.
  - apply Forall_app. split; [done|]. by apply Forall_cons.
Qed.

Lemma id_text z : 0 < z → decode_component (string_of_Z z) = string_of_Z z ∧ string_of_Z z ≠ [] ∧
  47 ∉ string_of_Z z ∧ 63 ∉ string_of_Z z.
Proof.
  intros Hz. pose proof (string_of_Z_digits z ltac:(lia)) as Hd. split_and!.
  - by apply decode_component_digits.
  - pose proof (string_of_Z_truthy z) as Ht. by destruct (string_of_Z z).
  - rewrite Forall_forall in Hd. intros Hin. by specialize (Hd _ Hin).
  - rewrite Forall_forall in Hd. intros Hin. by specialize (Hd _ Hin).
Qed.

(** The route of a call, and its method. *)
Definition call_segments (call : ApiCall) : list ustring :=
  match call with
  | login _ => [u! "auth"; u! "login"]
  | currentUser => [u! "users"; u! "me"]
  | updateLocale _ => [u! "users"; u! "me"; u! "locale"]
  | endpoints _ => [u! "endpoints"]
  | endpoint id => [u! "endpoints"; string_of_Z id]
  | processTree id _ => [u! "endpoints"; string_of_Z id; u! "process-tree"]
  | events _ => [u! "events"]
  | event id _ => [u! "events"; default [] (encodeURIComponent id)]
  | failures _ => [u! "failures"]
  | alerts _ => [u! "alerts"]
  | alert id => [u! "alerts"; string_of_Z id]
  | updateAlert id _ => [u! "alerts"; string_of_Z id; u! "status"]
  | incidents _ => [u! "incidents"]
  | incident id => [u! "incidents"; string_of_Z id]
  | updateIncident id _ => [u! "incidents"; string_of_Z id; u! "status"]
  | incidentTimeline id => [u! "incidents"; string_of_Z id; u! "timeline"]
  | incidentInvestigation id => [u! "incidents"; string_of_Z id; u! "investigation"]
  | dashboard _ => [u! "dashboard"; u! "summary"]
  | dashboardAvailability _ => [u! "dashboard"; u! "availability"]
  | endpointSummary _ => [u! "dashboard"; u! "endpoints"; u! "summary"]
  | ingestSummary _ => [u! "dashboard"; u! "ingest"; u! "summary"]
  | topology _ => [u! "dashboard"; u! "topology"]
  | correlation _ => [u! "intelligence"; u! "correlate"]
  | operationsHealth => [u! "operations"; u! "health"]
  | archives _ | startRestore _ => [u! "archives"; u! "restores"]
  end.

Definition call_method (call : ApiCall) : ustring :=
  match call with
  | login _ | startRestore _ => u! "POST"
  | updateLocale _ | updateAlert _ _ | updateIncident _ _ => u! "PATCH"
  | _ => u! "GET"
  end.

Lemma api_path call path init :
  api call = Some (path, init) →
  path = path_text (call_segments call) ++ buildQuery (call_query call) ∧
  default (u! "GET") (init_method init) = call_method call.
Proof.
  intros Hapi. destruct call; cbn [api call_segments] in *; unfold get, send in Hapi;
    try (destruct (encodeURIComponent eventId) as [e|] eqn:He; [cbn in Hapi|discriminate Hapi]);
    apply (inj Some), pair_equal_spec in Hapi as [<- <-]; split; try reflexivity; unfold path_text; cbn [flat_map call_query];
    rewrite ?app_nil_r, <- ?app_assoc; reflexivity.
Qed.

Ltac id_path before after :=
  match goal with
  | Hz : 0 < ?id ≤ max_safe |- _ =>
    destruct (id_text id (proj1 Hz)) as (? & ? & ? & ?);
    eapply (leads_to_arg _ _ _ before (string_of_Z id) _ after)
  end; [intros; vm_compute; reflexivity|reflexivity|assumption..|reflexivity].

(** Every call is a request for its own operation. *)
Lemma call_leads call path init :
  call_typed call → api call = Some (path, init) → leads_to call (call_method call) (call_segments call).
Proof.
  intros (_ & _ & Hid) Hapi. destruct call; cbn beta iota in Hid; cbn [call_method call_segments];
    lazymatch goal with
    | |- leads_to _ _ [?a; string_of_Z _] => id_path [a] (@nil ustring)
    | |- leads_to _ _ [?a; string_of_Z _; ?b] => id_path [a] [b]
    | |- leads_to (event _ _) _ _ => idtac
    | |- _ => apply leads_to_fixed; [vm_compute; reflexivity|done|vm_compute; reflexivity]
    end.
  cbn [api] in Hapi. destruct Hid as [Hu%well_formed_units Hne]. destruct (encodeURIComponent eventId) as [e|] eqn:He; [|discriminate Hapi].
  destruct (encoded_char _ _ Hu He) as [Hc H47]. pose proof (encodeURIComponent_decode _ _ Hu He) as Hd. cbn [default id].
  apply (leads_to_arg _ _ (u! "eventId") [u! "events"] _ eventId []); [intros; vm_compute; reflexivity|done..| |done| |done].
  - intros ->. by subst.
  - intros Hin. unfold url_text in Hc. rewrite Forall_forall in Hc. by specialize (Hc _ Hin).
Qed.

Lemma call_leads_body call :
  (is_Some (op_body (call_operation call)) ↔ is_Some (call_body call)) ∧
  (200, call_answer call) ∈ op_responses (call_operation call) ∧
  (401, u! "ErrorEnvelope") ∈ op_responses (call_operation call).
Proof.
  split_and!; [by destruct call; split; intros []|destruct call; by_compute..].
Qed.

Lemma serve_path method path search args op :
  63 ∉ path → find_operation CONTRACT method (drop 1 (split_on 47 path)) = Some (op, args) →
  search = [] ∨ (∃ q, search = 63 :: q ∧ 63 ∉ q) →
  serve_request method (path ++ search) =
    Some (op, map (λ kv, (kv.1, decode_component kv.2)) args, params_of_string search).
Proof.
  intros Hp Hf Hs. unfold serve_request. destruct Hs as [->|(q & -> & Hq)].
  - rewrite app_nil_r, split_on_free by done. by rewrite Hf.
  - rewrite split_on_app, (split_on_free 63 q) by done. rewrite Hf. cbn. do 2 f_equal.
    unfold params_of_string. cbn. destruct q as [|c q]; [done|]. destruct (Z.eqb_spec c 63) as [->|]; [|done].
    by apply not_elem_of_cons in Hq as [? _].
Qed.

Lemma path_text_segments segments :
  Forall (λ s, 47 ∉ s ∧ 63 ∉ s) segments →
  63 ∉ API_ROOT ++ path_text segments ∧
  drop 1 (split_on 47 (API_ROOT ++ path_text segments)) = [u! "api"; u! "v1"] ++ segments.
Proof.
  intros Hs. split.
  - rewrite not_elem_of_app. split; [by_compute|]. unfold path_text. intros (s & Hin & Hc)%elem_of_flat_map.
    rewrite Forall_forall in Hs. destruct (Hs s Hin) as [_ H63]. by apply elem_of_cons in Hc as [?|?].
  - assert (∀ l, l ≠ [] → 47 :: join [47] l = path_text l) as Hj.
    { induction l as [|a l IH]; [done|]. intros _. destruct l as [|b l]; [unfold path_text; cbn; by rewrite app_nil_r|].
      change (47 :: a ++ 47 :: join [47] (b :: l) = 47 :: a ++ path_text (b :: l)). by rewrite IH. }
    change (API_ROOT ++ path_text segments) with (path_text ([u! "api"; u! "v1"] ++ segments)). rewrite <- Hj by done.
    change (split_on 47 (47 :: ?r)) with ([] :: split_on 47 r). cbn [drop]. apply split_on_join; [done|].
    apply Forall_app. split; [by_compute|]. eapply Forall_impl; [exact Hs|]. by intros s [? _].
Qed.

Lemma args_accepted call : call_typed call → accepts (op_path (call_operation call)) (call_args call) = true.
Proof.
  intros (_ & _ & Hid). assert (∀ z, 0 < z → text_ok PInteger (string_of_Z z) = true) as Hz.
  { intros z ?. cbn. rewrite string_of_Z_truthy. apply forallb_elem. intros c Hc.
    pose proof (string_of_Z_digits z ltac:(lia)) as Hd. rewrite Forall_forall in Hd. by apply Hd. }
  assert (∀ name type text, text_ok type text = true →
    accepts [mkParameter name type true] [(name, text)] = true) as Hone.
  { intros name type text Hok. unfold accepts, declared, parameter. cbn [forallb js_find js_some par_name par_required par_type fst snd]. rewrite (bool_decide_true (name = name)) by done. cbn. rewrite Hok. by rewrite bool_decide_true. }
  destruct call; cbn beta iota in Hid; try reflexivity; apply Hone; first [done|apply Hz, Hid].
Qed.

(** C30: The request of a call is an operation of the contract: a server that looks its
    method and path up in the contract finds the operation the call is meant for, with
    the identifiers of the call as path arguments, and parses the query to the call's
    own values; every argument is a parameter the operation declares with a text of its
    type, none that is required is missing, a body is sent exactly to the operations
    that take one, and the answer the code expects is one the operation can give. *)
Theorem requests_conform call path init :
  call_typed call → api call = Some (path, init) →
  let op := call_operation call in
  serve_request (default (u! "GET") (init_method init)) (API_ROOT ++ path) =
    Some (op, call_args call, query_pairs (call_query call)) ∧
  accepts (op_query op) (query_pairs (call_query call)) = true ∧
  accepts (op_path op) (call_args call) = true ∧
  (init_body init ≫= JSON_parse) = call_body call ∧ (is_Some (call_body call) ↔ is_Some (op_body op)) ∧
  (200, call_answer call) ∈ op_responses op ∧ (401, u! "ErrorEnvelope") ∈ op_responses op.
Proof.
  intros Ht Hapi. pose proof Ht as ((Hq & Hnd & Hd & Hr) & Hb & Hid).
  pose proof (call_leads call path init Ht Hapi) as (args & Hf & Ha & Hs).
  destruct (path_text_segments _ Hs) as [H63 Hsplit]. destruct (call_leads_body call) as (Hbody & H200 & H401).
  pose proof (api_path _ _ _ Hapi) as [-> Hm]. split_and!; [| | | |done..].
  - rewrite Hm, app_assoc, (serve_path _ _ _ args (call_operation call)); [|done|by rewrite Hsplit|].
    + rewrite Ha. by rewrite (proj1 (buildQuery_roundtrip _ Hq Hnd)).
    + destruct (buildQuery_ok _ Hq Hnd) as [?|(q & Hbq & Hu)]; [by left|right]. exists q. split; [done|].
      intros Hin. unfold url_text in Hu. rewrite Forall_forall in Hu. by specialize (Hu _ Hin).
  - by apply query_accepted.
  - by apply args_accepted.
  - clear -Hapi Hb. destruct (api_init _ _ _ Hapi) as [[Hn ->]|(b & m & Hn & ->)]; rewrite Hn in *; [done|]. cbn in *.
    destruct (stringify_total b Hb) as [t Hst]. rewrite Hst. apply (JSON_parse_stringify b t Hb Hst).
Qed.

Definition sample_call : ApiCall :=
  event (u! "a/?") [(u! "endpointId", QNumber (num_of_Z 3)); (u! "occurredAt", QString (u! "2026-01-02T03:04:05Z"))].

Lemma sample_call_typed : call_typed sample_call.
Proof.
  split; [|split; [exact I|split; [apply well_formed_check; by_compute|done]]]. split; [|split; [by_compute|split]].
  - repeat (apply Forall_cons; split; [|]); [| |by apply Forall_nil]; (split; [|try exact I]); apply well_formed_check; by_compute.
  - repeat (apply Forall_cons; split; [|]); [| |by apply Forall_nil].
    + exists (mkParameter (u! "endpointId") PInteger true). split; [by vm_compute|]. exists 3. by split.
    + exists (mkParameter (u! "occurredAt") PString true). split; [by vm_compute|]. done.
  - repeat (apply Forall_cons; split; [|]); [intros _..|by apply Forall_nil].
    + exists (QNumber (num_of_Z 3)). split; [by left|by vm_compute].
    + eexists (QString _). split; [by right; left|by vm_compute].
Qed.

(** The request for an event whose identifier has delimiters. *)
Lemma requests_conform_witness :
  serve_request (u! "GET") (API_ROOT ++ u! "/events/a%2F%3F?endpointId=3&occurredAt=2026-01-02T03%3A04%3A05Z") =
    Some (op_eventsGet, [(u! "eventId", u! "a/?")],
      [(u! "endpointId", u! "3"); (u! "occurredAt", u! "2026-01-02T03:04:05Z")]).
Proof.
  eapply eq_trans.
  - apply (proj1 (requests_conform sample_call
      (u! "/events/a%2F%3F?endpointId=3&occurredAt=2026-01-02T03%3A04%3A05Z") no_init sample_call_typed
      ltac:(vm_compute; reflexivity))).
  - vm_compute. reflexivity.
Defined.
