(* ===== verification/Schemas.v ===== *)
(** * The data types of the contract

    Translates components.schemas of frontend/src/api/generated/schema.ts, one definition
    per schema under the name [schema_<name>], and what it is for a JSON value to have a
    type of the contract. Conformance.v relates the types to what the client sends and
    reads. *)

From S2P Require Import Prelude JsNumber Json.

#[local] Open Scope list_scope.
#[local] Open Scope Z_scope.

(** ** Types *)

(** The types of TypeScript that the contract is written in. [SRef]: a schema by its name;
    [SMap]: an object with any fields; a field has its name and whether it is required. *)
Inductive Schema :=
| SText | SNumber | SBoolean | SUnknown | SMap
| SConstant (value : Z)
| SLiterals (values : list ustring)
| SRef (name : ustring)
| SNullable (type : Schema)
| SArray (item : Schema)
| SUnion (types : list Schema)
| SObject (fields : list (ustring * bool * Schema)).

Definition ref (name : string) : Schema := SRef (u name).
Definition req (name : string) (type : Schema) : ustring * bool * Schema := (u name, true, type).
Definition opt (name : string) (type : Schema) : ustring * bool * Schema := (u name, false, type).

(** ** components.schemas *)

Definition schema_AgentArchitecture : Schema := SLiterals [u! "X64"; u! "ARM64"].
Definition schema_AgentHeartbeatData : Schema := SObject
    [req "endpointStatus" (ref "EndpointStatus"); req "nextHeartbeatSeconds" SNumber; req "serverTime" SText].
Definition schema_AgentHeartbeatRequest : Schema := SObject
    [req "agentArch" (ref "AgentArchitecture"); req "agentBuildId" SText; req "agentId" SText; req "agentVersion" SText; req "bufferDepth" SNumber;
     req "capabilityCodes" (SArray SText); req "sensorHealth" (SArray (ref "SensorHealthSnapshot")); req "sentAt" SText].
Definition schema_AgentRegisterData : Schema := SObject
    [req "agentId" SText; req "endpointId" SNumber; req "heartbeatIntervalSeconds" SNumber; req "registeredAt" SText;
     req "status" (ref "EndpointStatus")].
Definition schema_AgentRegisterRequest : Schema := SObject
    [req "agentArch" (ref "AgentArchitecture"); req "agentBuildId" SText; req "agentId" SText; req "agentVersion" SText;
     req "capabilityCodes" (SArray SText); req "hostname" SText; req "osType" (ref "OsType"); req "osVersion" SText].
Definition schema_AlertDetailDto : Schema := SObject
    [req "agentId" SText; req "alertId" SNumber; req "batchId" (SNullable SText); req "createdAt" SText; req "detectedAt" SText;
     req "endpointId" SNumber; req "eventId" SText; req "eventOccurredAt" SText; req "incidents" (SArray (ref "IncidentReferenceDto"));
     req "mitreTacticCode" SText; req "mitreTacticName" SText; req "mitreTechniqueCode" SText; req "mitreTechniqueName" SText;
     req "responseGuidance" (SArray (ref "ResponseGuidanceStepDto")); req "riskScore" SNumber; req "ruleCode" SText; req "ruleName" SText;
     req "ruleVersion" SNumber; req "severity" (ref "Severity"); req "sourceEvent" (SNullable (ref "EventDto")); req "status" (ref "AlertStatus");
     req "summary" SText; req "title" SText; req "updatedAt" SText].
Definition schema_AlertDto : Schema := SObject
    [req "agentId" SText; req "alertId" SNumber; req "batchId" (SNullable SText); req "createdAt" SText; req "detectedAt" SText;
     req "endpointId" SNumber; req "eventId" SText; req "eventOccurredAt" SText; req "mitreTacticCode" SText; req "mitreTacticName" SText;
     req "mitreTechniqueCode" SText; req "mitreTechniqueName" SText; req "riskScore" SNumber; req "ruleCode" SText; req "ruleName" SText;
     req "ruleVersion" SNumber; req "severity" (ref "Severity"); req "status" (ref "AlertStatus"); req "summary" SText; req "title" SText;
     req "updatedAt" SText].
Definition schema_AlertSortBy : Schema := SLiterals [u! "priority"; u! "detectedAt"; u! "severity"; u! "riskScore"; u! "status"].
Definition schema_AlertStatus : Schema := SLiterals [u! "OPEN"; u! "IN_PROGRESS"; u! "RESOLVED"].
Definition schema_AlertStatusCountDto : Schema := SObject
    [req "count" SNumber; req "status" (ref "AlertStatus")].
Definition schema_AlertStatusUpdateRequest : Schema := SObject
    [req "status" (ref "AlertStatus")].
Definition schema_ArchiveBucketDto : Schema := SObject
    [req "archiveVerifiedAt" (SNullable SText); req "archivedAt" (SNullable SText); req "bucketEndAt" SText; req "bucketStartAt" SText;
     req "checksumSha256" (SNullable SText); req "endpointId" SNumber; req "eventCount" SNumber; req "lastError" (SNullable SText);
     req "restoreExpiresAt" (SNullable SText); req "restoreRequestedAt" (SNullable SText); req "restoredAt" (SNullable SText);
     req "sizeBytes" (SNullable SNumber); req "storageBackend" (ref "StorageBackend"); req "storageClass" (ref "StorageClass");
     req "storagePath" SText; req "storageStatus" (ref "StorageStatus")].
Definition schema_ArchiveRestoreRequest : Schema := SObject
    [req "endpointIds" (SArray SNumber); req "from" SText; req "to" SText].
Definition schema_ArchiveRestoreStartDto : Schema := SObject
    [req "buckets" (SArray (ref "ArchiveBucketDto")); req "endpointIds" (SArray SNumber); req "from" SText; req "restoreDays" (SConstant 7);
     req "retrievalTier" (SLiterals [u! "Standard"]); req "to" SText].
Definition schema_AttackTimelineDto : Schema := SObject
    [req "endpointId" SNumber; req "incidentId" SNumber; req "items" (SArray (ref "AttackTimelineItemDto"))].
Definition schema_AttackTimelineItemDto : Schema := SObject
    [req "alertId" (SNullable SNumber); req "endpointId" SNumber; req "eventId" (SNullable SText); req "eventType" (SNullable (ref "EventType"));
     req "incidentId" (SNullable SNumber); req "itemType" (SLiterals [u! "INCIDENT"; u! "EVENT"; u! "ALERT"]); req "occurredAt" SText;
     req "severity" (SNullable (ref "Severity")); req "summary" SText; req "title" SText].
Definition schema_CertificateDto : Schema := SObject
    [req "certFingerprint" SText; req "certSanAgentId" SText; req "certSubject" SText; req "expiresAt" SText; req "isExpired" SBoolean;
     req "isRevoked" SBoolean; req "issuedAt" SText; req "revokedAt" (SNullable SText)].
Definition schema_CorrelationDto : Schema := SObject
    [req "from" SText; req "inputType" (SLiterals [u! "IP"; u! "DOMAIN"]); req "inputValue" SText; req "related" (SArray (ref "RelatedValueDto"));
     req "relationships" (SArray (ref "CorrelationRelationshipDto")); req "to" SText].
Definition schema_CorrelationRelationshipDto : Schema := SObject
    [req "relation" (SLiterals [u! "RESOLVES_TO"; u! "PTR_CANDIDATE"; u! "SUBDOMAIN_OF"]); req "sourceType" (SLiterals [u! "IP"; u! "DOMAIN"]);
     req "sourceValue" SText; req "sources" (SArray (SLiterals [u! "LIVE_DNS"; u! "OBSERVED_EVENTS"]));
     req "targetType" (SLiterals [u! "IP"; u! "DOMAIN"]); req "targetValue" SText].
Definition schema_DashboardAlertsDto : Schema := SObject
    [req "bySeverity" (SArray (ref "SeverityCountDto")); req "byStatus" (SArray (ref "AlertStatusCountDto"));
     req "mitreTactics" (SArray (ref "MitreTacticCountDto")); req "mitreTechniques" (SArray (ref "MitreTechniqueCountDto"));
     req "timeSeries" (SArray (ref "TimeSeriesPointDto")); req "topRules" (SArray (ref "TopRuleDto")); req "totalCount" SNumber].
Definition schema_DashboardAvailabilityDto : Schema := SObject
    [req "availableRanges" (SArray (ref "TimeRangeDto"))].
Definition schema_DashboardEndpointsDto : Schema := SObject
    [req "offlineCount" SNumber; req "onlineCount" SNumber; req "retiredCount" SNumber; req "staleCount" SNumber; req "totalCount" SNumber].
Definition schema_DashboardEventFailuresDto : Schema := SObject
    [req "byCode" (SArray (ref "FailureCodeCountDto")); req "byStage" (SArray (ref "FailureStageCountDto"));
     req "byStatus" (SArray (ref "FailureStatusCountDto")); req "totalCount" SNumber].
Definition schema_DashboardEventSource : Schema := SLiterals [u! "ROLLUP"; u! "LIVE"].
Definition schema_DashboardEventsDto : Schema := SObject
    [req "byEventType" (SArray (ref "EventTypeCountDto")); req "timeSeries" (SArray (ref "TimeSeriesPointDto"));
     req "topDnsQueries" (SArray (ref "TopDnsQueryDto")); req "topDomains" (SArray (ref "TopDomainDto"));
     req "topFileHashes" (SArray (ref "TopFileHashDto")); req "topL7Protocols" (SArray (ref "TopL7ProtocolDto"));
     req "topProcesses" (SArray (ref "TopProcessDto")); req "topRemoteIps" (SArray (ref "TopRemoteIpDto")); req "totalCount" SNumber].
Definition schema_DashboardIncidentsDto : Schema := SObject
    [req "bySeverity" (SArray (ref "SeverityCountDto")); req "closedCount" SNumber; req "openCount" SNumber;
     req "timeSeries" (SArray (ref "IncidentTimeSeriesPointDto"))].
Definition schema_DashboardInterval : Schema := SLiterals [u! "1m"; u! "5m"; u! "1h"; u! "1d"].
Definition schema_DashboardLayoutDto : Schema := SObject
    [req "dashboardKey" SText; req "isDefault" SBoolean; req "layoutVersion" (SUnion [(SConstant 1); (SConstant 2)]); req "revision" SNumber;
     req "widgets" (SArray (ref "DashboardWidgetLayoutDto"))].
Definition schema_DashboardLayoutPutRequest : Schema := SObject
    [req "layoutVersion" (SUnion [(SConstant 1); (SConstant 2)]); req "revision" SNumber; req "widgets" (SArray (ref "DashboardWidgetLayoutDto"))].
Definition schema_DashboardStorageDto : Schema := SObject
    [req "byBackend" (SArray (ref "StorageBackendCountDto")); req "byClass" (SArray (ref "StorageClassCountDto"));
     req "byStatus" (SArray (ref "StorageStatusCountDto")); req "totalBucketCount" SNumber].
Definition schema_DashboardSummaryDto : Schema := SObject
    [req "alerts" (ref "DashboardAlertsDto"); req "edrState" (ref "EdrStateDto"); req "endpoints" (ref "DashboardEndpointsDto");
     req "eventFailures" (ref "DashboardEventFailuresDto"); req "events" (ref "DashboardEventsDto"); req "incidents" (ref "DashboardIncidentsDto");
     req "interval" (ref "DashboardInterval"); req "responseGuidance" (ref "ResponseGuidanceSummaryDto"); req "storage" (ref "DashboardStorageDto");
     req "timeRange" (ref "TimeRangeDto")].
Definition schema_DashboardWidgetLayoutDto : Schema := SObject
    [req "h" SNumber; req "hidden" SBoolean; req "id" SText; req "w" SNumber; req "x" SNumber; req "y" SNumber].
Definition schema_DnsLookupDto : Schema := SObject
    [req "answers" (SArray SText); req "query" SText; req "recordType" (ref "DnsRecordType")].
Definition schema_DnsQueryEvent : Schema := SObject
    [req "eventId" SText; req "eventType" (SLiterals [u! "DNS_QUERY"]); req "occurredAt" SText; req "payload" (ref "DnsQueryPayload")].
Definition schema_DnsQueryPayload : Schema := SObject
    [opt "answers" (SArray SText); opt "pid" SNumber; opt "processName" SText; req "query" SText; req "recordType" SText; opt "responseCode" SText].
Definition schema_DnsRecordType : Schema := SLiterals [u! "A"; u! "AAAA"; u! "MX"; u! "NS"; u! "PTR"].
Definition schema_EdrStateAxisDto : Schema := SObject
    [req "reasonCodes" (SArray (ref "EdrStateReasonCode")); req "score" SNumber; req "status" (ref "EdrStateStatus")].
Definition schema_EdrStateDto : Schema := SObject
    [req "calculatedAt" SText; req "collectionHealth" (ref "EdrStateAxisDto"); req "criticalRiskEndpointCount" SNumber;
     req "highRiskEndpointCount" SNumber; req "highestEndpointRiskScore" (SNullable SNumber); req "reasonCodes" (SArray (ref "EdrStateReasonCode"));
     req "score" SNumber; req "status" (ref "EdrStateStatus"); req "threatLevel" (ref "EdrStateAxisDto")].
Definition schema_EdrStateReasonCode : Schema := SLiterals [u! "MEDIUM_ENDPOINT_RISK"; u! "HIGH_ENDPOINT_RISK"; u! "CRITICAL_ENDPOINT_RISK"; u! "OPEN_INCIDENT"; u! "CRITICAL_ALERT"; u! "OFFLINE_ENDPOINT"; u! "STALE_ENDPOINT"; u! "DEGRADED_SENSOR"; u! "UNAVAILABLE_SENSOR"; u! "INGEST_FAILURE"; u! "INGEST_DELAYED"; u! "STORAGE_FAILURE"].
Definition schema_EdrStateStatus : Schema := SLiterals [u! "GREEN"; u! "YELLOW"; u! "RED"].
Definition schema_EgressTopologyDto : Schema := SObject
    [req "edges" (SArray (ref "TopologyEdgeDto")); req "from" SText; req "nodes" (SArray (ref "TopologyNodeDto")); req "to" SText].
Definition schema_EndpointDetailDto : Schema := SObject
    [req "agentArch" (SNullable (ref "AgentArchitecture")); req "agentBuildId" (SNullable SText); req "agentId" SText;
     req "agentVersion" (SNullable SText); req "capabilityCodes" (SArray SText); req "certificates" (SArray (ref "CertificateDto"));
     req "endpointId" SNumber; req "hostname" SText; req "ipAddress" (SNullable SText); req "isStale" SBoolean; req "lastSeenAt" (SNullable SText);
     req "osType" (ref "OsType"); req "osVersion" (SNullable SText); req "registeredAt" SText; req "risk" (ref "EndpointRiskDto");
     req "sensorHealth" (SArray (ref "SensorHealthDto")); req "status" (ref "EndpointStatus")].
Definition schema_EndpointDto : Schema := SObject
    [req "agentArch" (SNullable (ref "AgentArchitecture")); req "agentBuildId" (SNullable SText); req "agentId" SText;
     req "agentVersion" (SNullable SText); req "capabilityCodes" (SArray SText); req "endpointId" SNumber; req "hostname" SText;
     req "ipAddress" (SNullable SText); req "isStale" SBoolean; req "lastSeenAt" (SNullable SText); req "osType" (ref "OsType");
     req "osVersion" (SNullable SText); req "registeredAt" SText; req "risk" (ref "EndpointRiskDto");
     req "sensorHealth" (SArray (ref "SensorHealthDto")); req "status" (ref "EndpointStatus")].
Definition schema_EndpointRiskDto : Schema := SObject
    [req "activeAlertCount" SNumber; req "calculatedAt" SText; req "highestAlertRiskScore" (SNullable SNumber); req "level" (ref "RiskLevel");
     req "openIncidentCount" SNumber; req "riskFactors" (SArray (ref "EndpointRiskFactorDto")); req "score" SNumber].
Definition schema_EndpointRiskFactorDto : Schema := SObject
    [req "code" SText; req "contribution" SNumber; req "description" SText; req "sourceId" SNumber;
     req "sourceType" (ref "EndpointRiskFactorSourceType"); req "title" SText].
Definition schema_EndpointRiskFactorSourceType : Schema := SLiterals [u! "ALERT"; u! "INCIDENT"].
Definition schema_EndpointRiskSummaryDto : Schema := SObject
    [req "byLevel" (SArray (ref "RiskLevelCountDto")); req "calculatedAt" SText; req "criticalRiskEndpointCount" SNumber;
     req "highRiskEndpointCount" SNumber; req "highestScore" (SNullable SNumber)].
Definition schema_EndpointStatus : Schema := SLiterals [u! "ONLINE"; u! "OFFLINE"; u! "RETIRED"].
Definition schema_EndpointSummaryAlertsDto : Schema := SObject
    [req "bySeverity" (SArray (ref "SeverityCountDto")); req "totalCount" SNumber].
Definition schema_EndpointSummaryDto : Schema := SObject
    [req "alerts" (ref "EndpointSummaryAlertsDto"); req "byOsType" (SArray (ref "OsTypeCountDto"));
     req "incidents" (ref "EndpointSummaryIncidentsDto"); req "offlineCount" SNumber; req "onlineCount" SNumber; req "retiredCount" SNumber;
     req "risk" (ref "EndpointRiskSummaryDto"); req "sensorHealth" (SArray (ref "SensorHealthCountDto")); req "staleCount" SNumber;
     req "timeRange" (ref "TimeRangeDto"); req "totalCount" SNumber].
Definition schema_EndpointSummaryIncidentsDto : Schema := SObject
    [req "bySeverity" (SArray (ref "SeverityCountDto")); req "closedCount" SNumber; req "openCount" SNumber; req "totalCount" SNumber].
Definition schema_ErrorBody : Schema := SObject
    [req "code" SText; req "details" (SArray (ref "ErrorDetail")); req "message" SText; req "retryable" SBoolean].
Definition schema_ErrorDetail : Schema := SObject
    [req "context" (SNullable SMap); req "field" (SNullable SText); req "message" SText].
Definition schema_ErrorEnvelope : Schema := SObject
    [req "error" (ref "ErrorBody"); req "meta" (ref "RequestMeta")].
Definition schema_EventDetailDto : Schema := SObject
    [req "agentId" SText; req "batchId" SText; req "commandLine" (SNullable SText); req "dnsAnswers" (SArray SText);
     req "dnsQuery" (SNullable SText); req "dnsRecordType" (SNullable SText); req "dnsResponseCode" (SNullable SText); req "endpointId" SNumber;
     req "eventId" SText; req "eventType" (ref "EventType"); req "fileAction" (SNullable SText); req "fileHashSha256" (SNullable SText);
     req "filePath" (SNullable SText); req "hostname" SText; req "httpHost" (SNullable SText); req "httpMethod" (SNullable SText);
     req "httpStatusCode" (SNullable SNumber); req "httpUserAgent" (SNullable SText); req "ingestedAt" SText; req "ipAddress" (SNullable SText);
     req "l7Protocol" (SNullable SText); req "occurredAt" SText; req "osType" (ref "OsType"); req "payloadSha256" SText;
     req "pid" (SNullable SNumber); req "ppid" (SNullable SNumber); req "processName" (SNullable SText); req "processPath" (SNullable SText);
     req "protocol" (SNullable SText); req "rawPayload" SMap; req "remoteDomain" (SNullable SText); req "remoteIp" (SNullable SText);
     req "remotePort" (SNullable SNumber); req "schemaVersion" SNumber; req "tlsCertificateIssuer" (SNullable SText);
     req "tlsCertificateSha256" (SNullable SText); req "tlsCertificateSubject" (SNullable SText); req "tlsSni" (SNullable SText);
     req "tlsVersion" (SNullable SText); req "url" (SNullable SText); req "userName" (SNullable SText)].
Definition schema_EventDto : Schema := SObject
    [req "agentId" SText; req "batchId" SText; req "commandLine" (SNullable SText); req "dnsAnswers" (SArray SText);
     req "dnsQuery" (SNullable SText); req "dnsRecordType" (SNullable SText); req "dnsResponseCode" (SNullable SText); req "endpointId" SNumber;
     req "eventId" SText; req "eventType" (ref "EventType"); req "fileAction" (SNullable SText); req "fileHashSha256" (SNullable SText);
     req "filePath" (SNullable SText); req "hostname" SText; req "httpHost" (SNullable SText); req "httpMethod" (SNullable SText);
     req "httpStatusCode" (SNullable SNumber); req "httpUserAgent" (SNullable SText); req "ingestedAt" SText; req "ipAddress" (SNullable SText);
     req "l7Protocol" (SNullable SText); req "occurredAt" SText; req "osType" (ref "OsType"); req "pid" (SNullable SNumber);
     req "ppid" (SNullable SNumber); req "processName" (SNullable SText); req "processPath" (SNullable SText); req "protocol" (SNullable SText);
     req "remoteDomain" (SNullable SText); req "remoteIp" (SNullable SText); req "remotePort" (SNullable SNumber);
     req "tlsCertificateIssuer" (SNullable SText); req "tlsCertificateSha256" (SNullable SText); req "tlsCertificateSubject" (SNullable SText);
     req "tlsSni" (SNullable SText); req "tlsVersion" (SNullable SText); req "url" (SNullable SText); req "userName" (SNullable SText)].
Definition schema_EventFailureDto : Schema := SObject
    [req "consumerName" SText; req "createdAt" SText; req "endpointId" SNumber; req "errorMessage" SText; req "eventId" SText; req "failedAt" SText;
     req "failureCode" (SNullable SText); req "failureId" SText; req "failureStage" SText; req "lastReplayedAt" (SNullable SText);
     req "payloadObjectKey" (SNullable SText); req "payloadSha256" (SNullable SText); req "payloadSizeBytes" (SNullable SNumber);
     req "replayCount" SNumber; req "reprocessOutcome" (SNullable SText); req "resolvedAt" (SNullable SText); req "retentionExpiresAt" SText;
     req "retryCount" SNumber; req "retryable" SBoolean; req "sourceOffset" SNumber; req "sourcePartition" SNumber; req "sourceTopic" SText;
     req "status" (ref "EventFailureStatus"); req "updatedAt" SText].
Definition schema_EventFailureStatus : Schema := SLiterals [u! "FAILED"; u! "REPLAY_PUBLISHED"; u! "REPROCESSED"; u! "REPROCESS_FAILED"].
Definition schema_EventType : Schema := SLiterals [u! "PROCESS_EXECUTION"; u! "NETWORK_CONNECTION"; u! "FILE_EVENT"; u! "DNS_QUERY"; u! "L7_EVENT"].
Definition schema_EventTypeCountDto : Schema := SObject
    [req "count" SNumber; req "eventType" (ref "EventType")].
Definition schema_FailureCodeCountDto : Schema := SObject
    [req "count" SNumber; req "failureCode" (SNullable SText)].
Definition schema_FailureStageCountDto : Schema := SObject
    [req "count" SNumber; req "failureStage" SText].
Definition schema_FailureStatusCountDto : Schema := SObject
    [req "count" SNumber; req "status" (ref "EventFailureStatus")].
Definition schema_FileEvent : Schema := SObject
    [req "eventId" SText; req "eventType" (SLiterals [u! "FILE_EVENT"]); req "occurredAt" SText; req "payload" (ref "FileEventPayload")].
Definition schema_FileEventPayload : Schema := SObject
    [req "action" (SLiterals [u! "CREATE"; u! "DELETE"; u! "MODIFY"; u! "RENAME"]); req "filePath" SText; opt "pid" SNumber;
     opt "processName" SText; opt "sha256" SText].
Definition schema_ForwardDnsDto : Schema := SObject
    [req "domain" SText; req "ipAddresses" (SArray SText)].
Definition schema_IncidentDetailDto : Schema := SObject
    [req "alertCount" SNumber; req "alerts" (SArray (ref "AlertDto")); req "closedAt" (SNullable SText); req "correlationKey" SText;
     req "createdAt" SText; req "description" (SNullable SText); req "endpointId" SNumber; req "firstDetectedAt" SText; req "incidentId" SNumber;
     req "lastDetectedAt" SText; req "severity" (ref "Severity"); req "status" (ref "IncidentStatus"); req "title" SText; req "updatedAt" SText;
     req "windowEndAt" SText; req "windowStartAt" SText].
Definition schema_IncidentDto : Schema := SObject
    [req "alertCount" SNumber; req "closedAt" (SNullable SText); req "correlationKey" SText; req "createdAt" SText;
     req "description" (SNullable SText); req "endpointId" SNumber; req "firstDetectedAt" SText; req "incidentId" SNumber;
     req "lastDetectedAt" SText; req "severity" (ref "Severity"); req "status" (ref "IncidentStatus"); req "title" SText; req "updatedAt" SText;
     req "windowEndAt" SText; req "windowStartAt" SText].
Definition schema_IncidentInvestigationDto : Schema := SObject
    [req "edgeCount" SNumber; req "edges" (SArray (ref "InvestigationEdgeDto")); req "fallback" (ref "InvestigationFallbackDto");
     req "incidentId" SNumber; req "nodeCount" SNumber; req "nodes" (SArray (ref "InvestigationNodeDto")); req "partial" SBoolean;
     req "timeRange" (ref "TimeRangeDto"); req "truncated" SBoolean; req "warnings" (SArray (ref "InvestigationWarningDto"))].
Definition schema_IncidentReferenceDto : Schema := SObject
    [req "incidentId" SNumber; req "severity" (ref "Severity"); req "status" (ref "IncidentStatus"); req "title" SText; req "windowEndAt" SText;
     req "windowStartAt" SText].
Definition schema_IncidentStatus : Schema := SLiterals [u! "OPEN"; u! "CLOSED"].
Definition schema_IncidentStatusUpdateRequest : Schema := SObject
    [req "status" (ref "IncidentStatus")].
Definition schema_IncidentTimeSeriesPointDto : Schema := SObject
    [req "bucketStartAt" SText; req "closedCount" SNumber; req "openCount" SNumber].
Definition schema_IngestEventFailuresDto : Schema := SObject
    [req "failedCount" SNumber; req "oldestFailedAt" (SNullable SText); req "ratePerMinute" SNumber; req "reprocessFailedCount" SNumber;
     req "reprocessedCount" SNumber].
Definition schema_IngestEventsDto : Schema := SObject
    [req "ingestedCount" SNumber; req "latestIngestedAt" (SNullable SText); req "ratePerMinute" SNumber].
Definition schema_IngestStorageDto : Schema := SObject
    [req "clickhouseHotBucketCount" SNumber; req "expiredBucketCount" SNumber; req "failedBucketCount" SNumber;
     req "glacierArchivedBucketCount" SNumber; req "restoredBucketCount" SNumber; req "restoringBucketCount" SNumber].
Definition schema_IngestSummaryDto : Schema := SObject
    [req "eventFailures" (ref "IngestEventFailuresDto"); req "events" (ref "IngestEventsDto"); req "storage" (ref "IngestStorageDto");
     req "timeRange" (ref "TimeRangeDto")].
Definition schema_InvestigationEdgeDto : Schema := SObject
    [req "alertId" (SNullable SNumber); req "edgeId" SText; req "eventId" (SNullable SText); req "evidence" (ref "InvestigationEvidence");
     req "incidentId" (SNullable SNumber); req "observedAt" (SNullable SText); req "relation" (ref "InvestigationRelation");
     req "sourceNodeId" SText; req "targetNodeId" SText].
Definition schema_InvestigationEvidence : Schema := SLiterals [u! "OBSERVED"].
Definition schema_InvestigationFallbackDto : Schema := SObject
    [req "alertTableAvailable" SBoolean; req "eventTableAvailable" SBoolean; req "timelineAvailable" SBoolean].
Definition schema_InvestigationNodeDto : Schema := SObject
    [req "alertId" (SNullable SNumber); req "destination" (SNullable SText); req "endpointId" (SNullable SNumber); req "eventId" (SNullable SText);
     req "eventType" (SNullable (ref "EventType")); req "incidentId" (SNullable SNumber); req "label" SText; req "nodeId" SText;
     req "nodeType" (ref "InvestigationNodeType"); req "occurredAt" (SNullable SText); req "pid" (SNullable SNumber);
     req "processName" (SNullable SText); req "protocol" (SNullable SText); req "riskScore" (SNullable SNumber);
     req "severity" (SNullable (ref "Severity"))].
Definition schema_InvestigationNodeType : Schema := SLiterals [u! "INCIDENT"; u! "ALERT"; u! "EVENT"; u! "PROCESS"; u! "DESTINATION"].
Definition schema_InvestigationRelation : Schema := SLiterals [u! "CONTAINS"; u! "TRIGGERED_BY"; u! "PARENT_OF"; u! "CONNECTED_TO"].
Definition schema_InvestigationWarningCode : Schema := SLiterals [u! "EVENT_NOT_FOUND"; u! "ARCHIVE_NOT_READY"].
Definition schema_InvestigationWarningDto : Schema := SObject
    [req "code" (ref "InvestigationWarningCode"); req "endpointId" (SNullable SNumber); req "eventId" (SNullable SText); req "message" SText;
     req "occurredAt" (SNullable SText)].
Definition schema_L7Event : Schema := SObject
    [req "eventId" SText; req "eventType" (SLiterals [u! "L7_EVENT"]); req "occurredAt" SText; req "payload" (ref "L7EventPayload")].
Definition schema_L7EventPayload : Schema := SObject
    [opt "httpHost" SText; opt "httpMethod" SText; opt "httpStatusCode" SNumber; opt "httpUserAgent" SText; req "l7Protocol" SText;
     opt "tlsCertificateIssuer" SText; opt "tlsCertificateSha256" SText; opt "tlsCertificateSubject" SText; opt "tlsSni" SText;
     opt "tlsVersion" SText; opt "url" SText].
Definition schema_LoginData : Schema := SObject
    [req "accessToken" SText; req "expiresIn" SNumber; req "tokenType" (SLiterals [u! "Bearer"]); req "user" (ref "UserDto")].
Definition schema_LoginRequest : Schema := SObject
    [req "loginId" SText; req "password" SText].
Definition schema_MitreTacticCountDto : Schema := SObject
    [req "count" SNumber; req "mitreTacticCode" SText; req "mitreTacticName" SText].
Definition schema_MitreTechniqueCountDto : Schema := SObject
    [req "count" SNumber; req "mitreTechniqueCode" SText; req "mitreTechniqueName" SText].
Definition schema_NetworkConnectionEvent : Schema := SObject
    [req "eventId" SText; req "eventType" (SLiterals [u! "NETWORK_CONNECTION"]); req "occurredAt" SText;
     req "payload" (ref "NetworkConnectionPayload")].
Definition schema_NetworkConnectionPayload : Schema := SObject
    [opt "pid" SNumber; opt "processName" SText; req "protocol" SText; opt "remoteDomain" SText; req "remoteIp" SText; req "remotePort" SNumber].
Definition schema_OperationsHealthDto : Schema := SObject
    [req "checkedAt" SText; req "services" (SArray (ref "ServiceHealthDto")); req "status" (ref "SensorHealth");
     req "workers" (SArray (ref "PipelineWorkerDto"))].
Definition schema_OsType : Schema := SLiterals [u! "WINDOWS"; u! "MACOS"].
Definition schema_OsTypeCountDto : Schema := SObject
    [req "count" SNumber; req "osType" (ref "OsType")].
Definition schema_PagedData_AlertDto_ : Schema := SObject
    [req "items" (SArray (ref "AlertDto")); req "page" SNumber; req "size" SNumber; req "total" SNumber].
Definition schema_PagedData_ArchiveBucketDto_ : Schema := SObject
    [req "items" (SArray (ref "ArchiveBucketDto")); req "page" SNumber; req "size" SNumber; req "total" SNumber].
Definition schema_PagedData_EndpointDto_ : Schema := SObject
    [req "items" (SArray (ref "EndpointDto")); req "page" SNumber; req "size" SNumber; req "total" SNumber].
Definition schema_PagedData_EventDto_ : Schema := SObject
    [req "items" (SArray (ref "EventDto")); req "page" SNumber; req "size" SNumber; req "total" SNumber].
Definition schema_PagedData_EventFailureDto_ : Schema := SObject
    [req "items" (SArray (ref "EventFailureDto")); req "page" SNumber; req "size" SNumber; req "total" SNumber].
Definition schema_PagedData_IncidentDto_ : Schema := SObject
    [req "items" (SArray (ref "IncidentDto")); req "page" SNumber; req "size" SNumber; req "total" SNumber].
Definition schema_PipelineWorkerDto : Schema := SObject
    [req "detail" SText; req "groupId" SText; req "lag" (SNullable SNumber); req "memberCount" (SNullable SNumber);
     req "status" (ref "WorkerStatus"); req "topic" SText; req "worker" SText].
Definition schema_ProcessExecutionEvent : Schema := SObject
    [req "eventId" SText; req "eventType" (SLiterals [u! "PROCESS_EXECUTION"]); req "occurredAt" SText;
     req "payload" (ref "ProcessExecutionPayload")].
Definition schema_ProcessExecutionPayload : Schema := SObject
    [opt "commandLine" SText; req "pid" SNumber; opt "ppid" SNumber; req "processName" SText; opt "processPath" SText; opt "userName" SText].
Definition schema_ProcessTreeDto : Schema := SObject
    [req "endpointId" SNumber; req "from" SText; req "nodes" (SArray (ref "ProcessTreeNodeDto")); req "to" SText].
Definition schema_ProcessTreeNodeDto : Schema := SObject
    [req "commandLine" (SNullable SText); req "eventCount" SNumber; req "firstSeenAt" SText; req "lastSeenAt" SText; req "parentCaptured" SBoolean;
     req "pid" SNumber; req "ppid" (SNullable SNumber); req "processName" SText; req "processPath" (SNullable SText); req "selected" SBoolean;
     req "userName" (SNullable SText)].
Definition schema_RejectedEventDto : Schema := SObject
    [req "code" SText; req "eventId" SText; req "message" SText; req "retryable" SBoolean].
Definition schema_RelatedValueDto : Schema := SObject
    [req "sources" (SArray (SLiterals [u! "LIVE_DNS"; u! "OBSERVED_EVENTS"])); req "value" SText;
     req "valueType" (SLiterals [u! "IP"; u! "DOMAIN"])].
Definition schema_RequestMeta : Schema := SObject
    [req "requestId" SText].
Definition schema_ResponseGuidanceStepDto : Schema := SObject
    [req "description" SText; req "order" SNumber; req "requiresManualAction" SBoolean; req "title" SText].
Definition schema_ResponseGuidanceSummaryDto : Schema := SObject
    [req "affectedAlertCount" SNumber; req "highestSeverity" (SNullable (ref "Severity")); req "manualActionStepCount" SNumber;
     req "ruleCount" SNumber; req "steps" (SArray (ref "ResponseGuidanceStepDto"))].
Definition schema_ReverseDnsDto : Schema := SObject
    [req "hostnames" (SArray SText); req "ip" SText].
Definition schema_RiskLevel : Schema := SLiterals [u! "LOW"; u! "MEDIUM"; u! "HIGH"; u! "CRITICAL"].
Definition schema_RiskLevelCountDto : Schema := SObject
    [req "count" SNumber; req "level" (ref "RiskLevel")].
Definition schema_SensorHealth : Schema := SLiterals [u! "HEALTHY"; u! "DEGRADED"; u! "UNAVAILABLE"].
Definition schema_SensorHealthCountDto : Schema := SObject
    [req "count" SNumber; req "sensor" SText; req "status" (ref "SensorHealth")].
Definition schema_SensorHealthDto : Schema := SObject
    [req "packetDropCount" (SNullable SNumber); req "parseErrorCount" (SNullable SNumber); req "provider" (SNullable SText); req "sensor" SText;
     req "status" (ref "SensorHealth")].
Definition schema_SensorHealthSnapshot : Schema := SObject
    [opt "packetDropCount" SNumber; opt "parseErrorCount" SNumber; opt "provider" SText; req "sensor" SText; req "status" (ref "SensorHealth")].
Definition schema_ServiceHealthDto : Schema := SObject
    [req "detail" SText; req "latencyMs" SNumber; req "service" SText; req "status" (ref "SensorHealth")].
Definition schema_Severity : Schema := SLiterals [u! "LOW"; u! "MEDIUM"; u! "HIGH"; u! "CRITICAL"].
Definition schema_SeverityCountDto : Schema := SObject
    [req "count" SNumber; req "severity" (ref "Severity")].
Definition schema_StorageBackend : Schema := SLiterals [u! "CLICKHOUSE"; u! "S3"].
Definition schema_StorageBackendCountDto : Schema := SObject
    [req "count" SNumber; req "storageBackend" (ref "StorageBackend")].
Definition schema_StorageClass : Schema := SLiterals [u! "HOT"; u! "GLACIER_FLEXIBLE_RETRIEVAL"].
Definition schema_StorageClassCountDto : Schema := SObject
    [req "count" SNumber; req "storageClass" (ref "StorageClass")].
Definition schema_StorageStatus : Schema := SLiterals [u! "HOT"; u! "ARCHIVED"; u! "RESTORE_REQUESTED"; u! "RESTORED"; u! "RESTORE_FAILED"; u! "EXPIRED"].
Definition schema_StorageStatusCountDto : Schema := SObject
    [req "count" SNumber; req "storageStatus" (ref "StorageStatus")].
Definition schema_SuccessEnvelope_AgentHeartbeatData_ : Schema := SObject
    [req "data" (ref "AgentHeartbeatData"); req "meta" (ref "RequestMeta")].
Definition schema_SuccessEnvelope_AgentRegisterData_ : Schema := SObject
    [req "data" (ref "AgentRegisterData"); req "meta" (ref "RequestMeta")].
Definition schema_SuccessEnvelope_AlertDetailDto_ : Schema := SObject
    [req "data" (ref "AlertDetailDto"); req "meta" (ref "RequestMeta")].
Definition schema_SuccessEnvelope_AlertDto_ : Schema := SObject
    [req "data" (ref "AlertDto"); req "meta" (ref "RequestMeta")].
Definition schema_SuccessEnvelope_ArchiveRestoreStartDto_ : Schema := SObject
    [req "data" (ref "ArchiveRestoreStartDto"); req "meta" (ref "RequestMeta")].
Definition schema_SuccessEnvelope_AttackTimelineDto_ : Schema := SObject
    [req "data" (ref "AttackTimelineDto"); req "meta" (ref "RequestMeta")].
Definition schema_SuccessEnvelope_CorrelationDto_ : Schema := SObject
    [req "data" (ref "CorrelationDto"); req "meta" (ref "RequestMeta")].
Definition schema_SuccessEnvelope_DashboardAvailabilityDto_ : Schema := SObject
    [req "data" (ref "DashboardAvailabilityDto"); req "meta" (ref "RequestMeta")].
Definition schema_SuccessEnvelope_DashboardLayoutDto_ : Schema := SObject
    [req "data" (ref "DashboardLayoutDto"); req "meta" (ref "RequestMeta")].
Definition schema_SuccessEnvelope_DashboardSummaryDto_ : Schema := SObject
    [req "data" (ref "DashboardSummaryDto"); req "meta" (ref "RequestMeta")].
Definition schema_SuccessEnvelope_DnsLookupDto_ : Schema := SObject
    [req "data" (ref "DnsLookupDto"); req "meta" (ref "RequestMeta")].
Definition schema_SuccessEnvelope_EgressTopologyDto_ : Schema := SObject
    [req "data" (ref "EgressTopologyDto"); req "meta" (ref "RequestMeta")].
Definition schema_SuccessEnvelope_EndpointDetailDto_ : Schema := SObject
    [req "data" (ref "EndpointDetailDto"); req "meta" (ref "RequestMeta")].
Definition schema_SuccessEnvelope_EndpointSummaryDto_ : Schema := SObject
    [req "data" (ref "EndpointSummaryDto"); req "meta" (ref "RequestMeta")].
Definition schema_SuccessEnvelope_EventDetailDto_ : Schema := SObject
    [req "data" (ref "EventDetailDto"); req "meta" (ref "RequestMeta")].
Definition schema_SuccessEnvelope_ForwardDnsDto_ : Schema := SObject
    [req "data" (ref "ForwardDnsDto"); req "meta" (ref "RequestMeta")].
Definition schema_SuccessEnvelope_IncidentDetailDto_ : Schema := SObject
    [req "data" (ref "IncidentDetailDto"); req "meta" (ref "RequestMeta")].
Definition schema_SuccessEnvelope_IncidentDto_ : Schema := SObject
    [req "data" (ref "IncidentDto"); req "meta" (ref "RequestMeta")].
Definition schema_SuccessEnvelope_IncidentInvestigationDto_ : Schema := SObject
    [req "data" (ref "IncidentInvestigationDto"); req "meta" (ref "RequestMeta")].
Definition schema_SuccessEnvelope_IngestSummaryDto_ : Schema := SObject
    [req "data" (ref "IngestSummaryDto"); req "meta" (ref "RequestMeta")].
Definition schema_SuccessEnvelope_LoginData_ : Schema := SObject
    [req "data" (ref "LoginData"); req "meta" (ref "RequestMeta")].
Definition schema_SuccessEnvelope_OperationsHealthDto_ : Schema := SObject
    [req "data" (ref "OperationsHealthDto"); req "meta" (ref "RequestMeta")].
Definition schema_SuccessEnvelope_PagedData_AlertDto__ : Schema := SObject
    [req "data" (ref "PagedData_AlertDto_"); req "meta" (ref "RequestMeta")].
Definition schema_SuccessEnvelope_PagedData_ArchiveBucketDto__ : Schema := SObject
    [req "data" (ref "PagedData_ArchiveBucketDto_"); req "meta" (ref "RequestMeta")].
Definition schema_SuccessEnvelope_PagedData_EndpointDto__ : Schema := SObject
    [req "data" (ref "PagedData_EndpointDto_"); req "meta" (ref "RequestMeta")].
Definition schema_SuccessEnvelope_PagedData_EventDto__ : Schema := SObject
    [req "data" (ref "PagedData_EventDto_"); req "meta" (ref "RequestMeta")].
Definition schema_SuccessEnvelope_PagedData_EventFailureDto__ : Schema := SObject
    [req "data" (ref "PagedData_EventFailureDto_"); req "meta" (ref "RequestMeta")].
Definition schema_SuccessEnvelope_PagedData_IncidentDto__ : Schema := SObject
    [req "data" (ref "PagedData_IncidentDto_"); req "meta" (ref "RequestMeta")].
Definition schema_SuccessEnvelope_ProcessTreeDto_ : Schema := SObject
    [req "data" (ref "ProcessTreeDto"); req "meta" (ref "RequestMeta")].
Definition schema_SuccessEnvelope_ReverseDnsDto_ : Schema := SObject
    [req "data" (ref "ReverseDnsDto"); req "meta" (ref "RequestMeta")].
Definition schema_SuccessEnvelope_TelemetryBatchData_ : Schema := SObject
    [req "data" (ref "TelemetryBatchData"); req "meta" (ref "RequestMeta")].
Definition schema_SuccessEnvelope_UserDto_ : Schema := SObject
    [req "data" (ref "UserDto"); req "meta" (ref "RequestMeta")].
Definition schema_TelemetryBatchData : Schema := SObject
    [req "acceptedEventIds" (SArray SText); req "batchId" SText; req "rejectedEvents" (SArray (ref "RejectedEventDto"))].
Definition schema_TelemetryBatchRequest : Schema := SObject
    [req "agentId" SText; req "batchId" SText;
     req "events" (SArray (SUnion [(ref "ProcessExecutionEvent"); (ref "NetworkConnectionEvent"); (ref "FileEvent"); (ref "DnsQueryEvent"); (ref "L7Event")]));
     req "schemaVersion" (SConstant 1); req "sentAt" SText].
Definition schema_TimePreset : Schema := SLiterals [u! "LATEST_15M"; u! "LATEST_1H"; u! "LATEST_24H"; u! "LATEST_7D"; u! "CUSTOM"].
Definition schema_TimeRangeDto : Schema := SObject
    [req "from" SText; req "to" SText].
Definition schema_TimeSeriesPointDto : Schema := SObject
    [req "bucketStartAt" SText; req "count" SNumber].
Definition schema_TopDnsQueryDto : Schema := SObject
    [req "count" SNumber; req "dnsQuery" SText].
Definition schema_TopDomainDto : Schema := SObject
    [req "count" SNumber; req "domain" SText].
Definition schema_TopFileHashDto : Schema := SObject
    [req "count" SNumber; req "fileHashSha256" SText].
Definition schema_TopL7ProtocolDto : Schema := SObject
    [req "count" SNumber; req "l7Protocol" SText].
Definition schema_TopProcessDto : Schema := SObject
    [req "count" SNumber; req "processName" SText].
Definition schema_TopRemoteIpDto : Schema := SObject
    [req "count" SNumber; req "remoteIp" SText].
Definition schema_TopRuleDto : Schema := SObject
    [req "count" SNumber; req "ruleCode" SText; req "ruleName" SText].
Definition schema_TopologyEdgeDto : Schema := SObject
    [req "alertCount" SNumber; req "endpointId" SNumber; req "eventCount" SNumber; req "lastSeenAt" SText; req "protocol" SText;
     req "sourceLabel" SText; req "target" SText].
Definition schema_TopologyNodeDto : Schema := SObject
    [req "alertCount" SNumber; req "endpointId" SNumber; req "hostname" SText; req "riskLevel" (ref "RiskLevel"); req "riskScore" SNumber;
     req "status" (ref "EndpointStatus")].
Definition schema_UserDto : Schema := SObject
    [req "locale" (ref "UserLocale"); req "loginId" SText; req "name" SText; req "role" (ref "UserRole"); req "status" (ref "UserStatus");
     req "userId" SNumber].
Definition schema_UserLocale : Schema := SLiterals [u! "EN"; u! "KO"].
Definition schema_UserLocaleUpdateRequest : Schema := SObject
    [req "locale" (ref "UserLocale")].
Definition schema_UserRole : Schema := SLiterals [u! "ADMIN"; u! "ANALYST"; u! "VIEWER"].
Definition schema_UserStatus : Schema := SLiterals [u! "ACTIVE"; u! "DISABLED"].
Definition schema_WorkerStatus : Schema := SLiterals [u! "RUNNING"; u! "IDLE"; u! "OFFLINE"; u! "UNKNOWN"].

Definition component_schemas : list (ustring * Schema) :=
  [(u! "AgentArchitecture", schema_AgentArchitecture); (u! "AgentHeartbeatData", schema_AgentHeartbeatData);
   (u! "AgentHeartbeatRequest", schema_AgentHeartbeatRequest); (u! "AgentRegisterData", schema_AgentRegisterData);
   (u! "AgentRegisterRequest", schema_AgentRegisterRequest); (u! "AlertDetailDto", schema_AlertDetailDto); (u! "AlertDto", schema_AlertDto);
   (u! "AlertSortBy", schema_AlertSortBy); (u! "AlertStatus", schema_AlertStatus); (u! "AlertStatusCountDto", schema_AlertStatusCountDto);
   (u! "AlertStatusUpdateRequest", schema_AlertStatusUpdateRequest); (u! "ArchiveBucketDto", schema_ArchiveBucketDto);
   (u! "ArchiveRestoreRequest", schema_ArchiveRestoreRequest); (u! "ArchiveRestoreStartDto", schema_ArchiveRestoreStartDto);
   (u! "AttackTimelineDto", schema_AttackTimelineDto); (u! "AttackTimelineItemDto", schema_AttackTimelineItemDto);
   (u! "CertificateDto", schema_CertificateDto); (u! "CorrelationDto", schema_CorrelationDto);
   (u! "CorrelationRelationshipDto", schema_CorrelationRelationshipDto); (u! "DashboardAlertsDto", schema_DashboardAlertsDto);
   (u! "DashboardAvailabilityDto", schema_DashboardAvailabilityDto); (u! "DashboardEndpointsDto", schema_DashboardEndpointsDto);
   (u! "DashboardEventFailuresDto", schema_DashboardEventFailuresDto); (u! "DashboardEventSource", schema_DashboardEventSource);
   (u! "DashboardEventsDto", schema_DashboardEventsDto); (u! "DashboardIncidentsDto", schema_DashboardIncidentsDto);
   (u! "DashboardInterval", schema_DashboardInterval); (u! "DashboardLayoutDto", schema_DashboardLayoutDto);
   (u! "DashboardLayoutPutRequest", schema_DashboardLayoutPutRequest); (u! "DashboardStorageDto", schema_DashboardStorageDto);
   (u! "DashboardSummaryDto", schema_DashboardSummaryDto); (u! "DashboardWidgetLayoutDto", schema_DashboardWidgetLayoutDto);
   (u! "DnsLookupDto", schema_DnsLookupDto); (u! "DnsQueryEvent", schema_DnsQueryEvent); (u! "DnsQueryPayload", schema_DnsQueryPayload);
   (u! "DnsRecordType", schema_DnsRecordType); (u! "EdrStateAxisDto", schema_EdrStateAxisDto); (u! "EdrStateDto", schema_EdrStateDto);
   (u! "EdrStateReasonCode", schema_EdrStateReasonCode); (u! "EdrStateStatus", schema_EdrStateStatus);
   (u! "EgressTopologyDto", schema_EgressTopologyDto); (u! "EndpointDetailDto", schema_EndpointDetailDto); (u! "EndpointDto", schema_EndpointDto);
   (u! "EndpointRiskDto", schema_EndpointRiskDto); (u! "EndpointRiskFactorDto", schema_EndpointRiskFactorDto);
   (u! "EndpointRiskFactorSourceType", schema_EndpointRiskFactorSourceType); (u! "EndpointRiskSummaryDto", schema_EndpointRiskSummaryDto);
   (u! "EndpointStatus", schema_EndpointStatus); (u! "EndpointSummaryAlertsDto", schema_EndpointSummaryAlertsDto);
   (u! "EndpointSummaryDto", schema_EndpointSummaryDto); (u! "EndpointSummaryIncidentsDto", schema_EndpointSummaryIncidentsDto);
   (u! "ErrorBody", schema_ErrorBody); (u! "ErrorDetail", schema_ErrorDetail); (u! "ErrorEnvelope", schema_ErrorEnvelope);
   (u! "EventDetailDto", schema_EventDetailDto); (u! "EventDto", schema_EventDto); (u! "EventFailureDto", schema_EventFailureDto);
   (u! "EventFailureStatus", schema_EventFailureStatus); (u! "EventType", schema_EventType); (u! "EventTypeCountDto", schema_EventTypeCountDto);
   (u! "FailureCodeCountDto", schema_FailureCodeCountDto); (u! "FailureStageCountDto", schema_FailureStageCountDto);
   (u! "FailureStatusCountDto", schema_FailureStatusCountDto); (u! "FileEvent", schema_FileEvent);
   (u! "FileEventPayload", schema_FileEventPayload); (u! "ForwardDnsDto", schema_ForwardDnsDto);
   (u! "IncidentDetailDto", schema_IncidentDetailDto); (u! "IncidentDto", schema_IncidentDto);
   (u! "IncidentInvestigationDto", schema_IncidentInvestigationDto); (u! "IncidentReferenceDto", schema_IncidentReferenceDto);
   (u! "IncidentStatus", schema_IncidentStatus); (u! "IncidentStatusUpdateRequest", schema_IncidentStatusUpdateRequest);
   (u! "IncidentTimeSeriesPointDto", schema_IncidentTimeSeriesPointDto); (u! "IngestEventFailuresDto", schema_IngestEventFailuresDto);
   (u! "IngestEventsDto", schema_IngestEventsDto); (u! "IngestStorageDto", schema_IngestStorageDto);
   (u! "IngestSummaryDto", schema_IngestSummaryDto); (u! "InvestigationEdgeDto", schema_InvestigationEdgeDto);
   (u! "InvestigationEvidence", schema_InvestigationEvidence); (u! "InvestigationFallbackDto", schema_InvestigationFallbackDto);
   (u! "InvestigationNodeDto", schema_InvestigationNodeDto); (u! "InvestigationNodeType", schema_InvestigationNodeType);
   (u! "InvestigationRelation", schema_InvestigationRelation); (u! "InvestigationWarningCode", schema_InvestigationWarningCode);
   (u! "InvestigationWarningDto", schema_InvestigationWarningDto); (u! "L7Event", schema_L7Event); (u! "L7EventPayload", schema_L7EventPayload);
   (u! "LoginData", schema_LoginData); (u! "LoginRequest", schema_LoginRequest); (u! "MitreTacticCountDto", schema_MitreTacticCountDto);
   (u! "MitreTechniqueCountDto", schema_MitreTechniqueCountDto); (u! "NetworkConnectionEvent", schema_NetworkConnectionEvent);
   (u! "NetworkConnectionPayload", schema_NetworkConnectionPayload); (u! "OperationsHealthDto", schema_OperationsHealthDto);
   (u! "OsType", schema_OsType); (u! "OsTypeCountDto", schema_OsTypeCountDto); (u! "PagedData_AlertDto_", schema_PagedData_AlertDto_);
   (u! "PagedData_ArchiveBucketDto_", schema_PagedData_ArchiveBucketDto_); (u! "PagedData_EndpointDto_", schema_PagedData_EndpointDto_);
   (u! "PagedData_EventDto_", schema_PagedData_EventDto_); (u! "PagedData_EventFailureDto_", schema_PagedData_EventFailureDto_);
   (u! "PagedData_IncidentDto_", schema_PagedData_IncidentDto_); (u! "PipelineWorkerDto", schema_PipelineWorkerDto);
   (u! "ProcessExecutionEvent", schema_ProcessExecutionEvent); (u! "ProcessExecutionPayload", schema_ProcessExecutionPayload);
   (u! "ProcessTreeDto", schema_ProcessTreeDto); (u! "ProcessTreeNodeDto", schema_ProcessTreeNodeDto);
   (u! "RejectedEventDto", schema_RejectedEventDto); (u! "RelatedValueDto", schema_RelatedValueDto); (u! "RequestMeta", schema_RequestMeta);
   (u! "ResponseGuidanceStepDto", schema_ResponseGuidanceStepDto); (u! "ResponseGuidanceSummaryDto", schema_ResponseGuidanceSummaryDto);
   (u! "ReverseDnsDto", schema_ReverseDnsDto); (u! "RiskLevel", schema_RiskLevel); (u! "RiskLevelCountDto", schema_RiskLevelCountDto);
   (u! "SensorHealth", schema_SensorHealth); (u! "SensorHealthCountDto", schema_SensorHealthCountDto);
   (u! "SensorHealthDto", schema_SensorHealthDto); (u! "SensorHealthSnapshot", schema_SensorHealthSnapshot);
   (u! "ServiceHealthDto", schema_ServiceHealthDto); (u! "Severity", schema_Severity); (u! "SeverityCountDto", schema_SeverityCountDto);
   (u! "StorageBackend", schema_StorageBackend); (u! "StorageBackendCountDto", schema_StorageBackendCountDto);
   (u! "StorageClass", schema_StorageClass); (u! "StorageClassCountDto", schema_StorageClassCountDto); (u! "StorageStatus", schema_StorageStatus);
   (u! "StorageStatusCountDto", schema_StorageStatusCountDto);
   (u! "SuccessEnvelope_AgentHeartbeatData_", schema_SuccessEnvelope_AgentHeartbeatData_);
   (u! "SuccessEnvelope_AgentRegisterData_", schema_SuccessEnvelope_AgentRegisterData_);
   (u! "SuccessEnvelope_AlertDetailDto_", schema_SuccessEnvelope_AlertDetailDto_);
   (u! "SuccessEnvelope_AlertDto_", schema_SuccessEnvelope_AlertDto_);
   (u! "SuccessEnvelope_ArchiveRestoreStartDto_", schema_SuccessEnvelope_ArchiveRestoreStartDto_);
   (u! "SuccessEnvelope_AttackTimelineDto_", schema_SuccessEnvelope_AttackTimelineDto_);
   (u! "SuccessEnvelope_CorrelationDto_", schema_SuccessEnvelope_CorrelationDto_);
   (u! "SuccessEnvelope_DashboardAvailabilityDto_", schema_SuccessEnvelope_DashboardAvailabilityDto_);
   (u! "SuccessEnvelope_DashboardLayoutDto_", schema_SuccessEnvelope_DashboardLayoutDto_);
   (u! "SuccessEnvelope_DashboardSummaryDto_", schema_SuccessEnvelope_DashboardSummaryDto_);
   (u! "SuccessEnvelope_DnsLookupDto_", schema_SuccessEnvelope_DnsLookupDto_);
   (u! "SuccessEnvelope_EgressTopologyDto_", schema_SuccessEnvelope_EgressTopologyDto_);
   (u! "SuccessEnvelope_EndpointDetailDto_", schema_SuccessEnvelope_EndpointDetailDto_);
   (u! "SuccessEnvelope_EndpointSummaryDto_", schema_SuccessEnvelope_EndpointSummaryDto_);
   (u! "SuccessEnvelope_EventDetailDto_", schema_SuccessEnvelope_EventDetailDto_);
   (u! "SuccessEnvelope_ForwardDnsDto_", schema_SuccessEnvelope_ForwardDnsDto_);
   (u! "SuccessEnvelope_IncidentDetailDto_", schema_SuccessEnvelope_IncidentDetailDto_);
   (u! "SuccessEnvelope_IncidentDto_", schema_SuccessEnvelope_IncidentDto_);
   (u! "SuccessEnvelope_IncidentInvestigationDto_", schema_SuccessEnvelope_IncidentInvestigationDto_);
   (u! "SuccessEnvelope_IngestSummaryDto_", schema_SuccessEnvelope_IngestSummaryDto_);
   (u! "SuccessEnvelope_LoginData_", schema_SuccessEnvelope_LoginData_);
   (u! "SuccessEnvelope_OperationsHealthDto_", schema_SuccessEnvelope_OperationsHealthDto_);
   (u! "SuccessEnvelope_PagedData_AlertDto__", schema_SuccessEnvelope_PagedData_AlertDto__);
   (u! "SuccessEnvelope_PagedData_ArchiveBucketDto__", schema_SuccessEnvelope_PagedData_ArchiveBucketDto__);
   (u! "SuccessEnvelope_PagedData_EndpointDto__", schema_SuccessEnvelope_PagedData_EndpointDto__);
   (u! "SuccessEnvelope_PagedData_EventDto__", schema_SuccessEnvelope_PagedData_EventDto__);
   (u! "SuccessEnvelope_PagedData_EventFailureDto__", schema_SuccessEnvelope_PagedData_EventFailureDto__);
   (u! "SuccessEnvelope_PagedData_IncidentDto__", schema_SuccessEnvelope_PagedData_IncidentDto__);
   (u! "SuccessEnvelope_ProcessTreeDto_", schema_SuccessEnvelope_ProcessTreeDto_);
   (u! "SuccessEnvelope_ReverseDnsDto_", schema_SuccessEnvelope_ReverseDnsDto_);
   (u! "SuccessEnvelope_TelemetryBatchData_", schema_SuccessEnvelope_TelemetryBatchData_);
   (u! "SuccessEnvelope_UserDto_", schema_SuccessEnvelope_UserDto_); (u! "TelemetryBatchData", schema_TelemetryBatchData);
   (u! "TelemetryBatchRequest", schema_TelemetryBatchRequest); (u! "TimePreset", schema_TimePreset); (u! "TimeRangeDto", schema_TimeRangeDto);
   (u! "TimeSeriesPointDto", schema_TimeSeriesPointDto); (u! "TopDnsQueryDto", schema_TopDnsQueryDto); (u! "TopDomainDto", schema_TopDomainDto);
   (u! "TopFileHashDto", schema_TopFileHashDto); (u! "TopL7ProtocolDto", schema_TopL7ProtocolDto); (u! "TopProcessDto", schema_TopProcessDto);
   (u! "TopRemoteIpDto", schema_TopRemoteIpDto); (u! "TopRuleDto", schema_TopRuleDto); (u! "TopologyEdgeDto", schema_TopologyEdgeDto);
   (u! "TopologyNodeDto", schema_TopologyNodeDto); (u! "UserDto", schema_UserDto); (u! "UserLocale", schema_UserLocale);
   (u! "UserLocaleUpdateRequest", schema_UserLocaleUpdateRequest); (u! "UserRole", schema_UserRole); (u! "UserStatus", schema_UserStatus);
   (u! "WorkerStatus", schema_WorkerStatus)].

(** ** Values of a type *)

Definition schema_of (name : ustring) : option Schema := map_get name component_schemas.

(** A value of the type; [fuel] bounds the names that are followed one after another. An
    object may have fields that its type does not name. *)
Fixpoint conforms (fuel : nat) : Schema → json → bool :=
  fix typed (s : Schema) (j : json) {struct s} : bool :=
    match s with
    | SText => match j with JStr _ => true | _ => false end
    | SNumber => match j with JNum _ => true | _ => false end
    | SBoolean => match j with JBool _ => true | _ => false end
    | SUnknown => true
    | SMap => match j with JObj _ => true | _ => false end
    | SConstant value => match j with JNum n => bool_decide (to_integer n = Some value) | _ => false end
    | SLiterals values => match j with JStr t => str_in t values | _ => false end
    | SRef name =>
      match fuel with
      | O => false
      | S fuel => match schema_of name with Some s => conforms fuel s j | None => false end
      end
    | SNullable s => match j with JNull => true | _ => typed s j end
    | SArray s => match j with JArr items => forallb (typed s) items | _ => false end
    | SUnion types => existsb (λ s, typed s j) types
    | SObject fields =>
      match j with
      | JObj _ => forallb (λ f : ustring * bool * Schema, match prop f.1.1 j with Some v => typed f.2 v | None => negb f.1.2 end) fields
      | _ => false
      end
    end.

(** The names a type follows are found, one after another at most [fuel] times. *)
Fixpoint resolves (fuel : nat) : Schema → bool :=
  fix found (s : Schema) {struct s} : bool :=
    match s with
    | SText | SNumber | SBoolean | SUnknown | SMap | SConstant _ | SLiterals _ => true
    | SRef name =>
      match fuel with
      | O => false
      | S fuel => match schema_of name with Some s => resolves fuel s | None => false end
      end
    | SNullable s | SArray s => found s
    | SUnion types => forallb found types
    | SObject fields => forallb (λ f : ustring * bool * Schema, found f.2) fields
    end.

(** No chain of names in the contract is longer. *)
Definition DEPTH : nat := 6.
Definition valid (name : ustring) (j : json) : bool := conforms DEPTH (SRef name) j.

(** The fields an object of the type has, and those it must have. *)
Definition field_names (s : Schema) : list ustring := match s with SObject fields => map (λ f, f.1.1) fields | _ => [] end.

(** ** Lemmas *)

Section induction.
Context (P : Schema → Prop).
Hypothesis (Htext : P SText) (Hnumber : P SNumber) (Hboolean : P SBoolean) (Hunknown : P SUnknown) (Hmap : P SMap)
  (Hconstant : ∀ z, P (SConstant z)) (Hliterals : ∀ l, P (SLiterals l)) (Href : ∀ name, P (SRef name))
  (Hnullable : ∀ s, P s → P (SNullable s)) (Harray : ∀ s, P s → P (SArray s))
  (Hunion : ∀ l, Forall P l → P (SUnion l)) (Hobject : ∀ fields, Forall (λ f, P f.2) fields → P (SObject fields)).

(** Induction over a type and the types inside it. *)
Fixpoint Schema_rect_nested (s : Schema) : P s :=
  match s with
  | SText => Htext | SNumber => Hnumber | SBoolean => Hboolean | SUnknown => Hunknown | SMap => Hmap
  | SConstant z => Hconstant z | SLiterals l => Hliterals l | SRef name => Href name
  | SNullable s => Hnullable s (Schema_rect_nested s)
  | SArray s => Harray s (Schema_rect_nested s)
  | SUnion l => Hunion l ((fix go l : Forall P l := match l with [] => Forall_nil_2 P | s :: l => Forall_cons_2 P s l (Schema_rect_nested s) (go l) end) l)
  | SObject fields =>
    Hobject fields ((fix go l : Forall (λ f, P f.2) l :=
      match l with [] => Forall_nil_2 _ | f :: l => Forall_cons_2 _ f l (Schema_rect_nested f.2) (go l) end) fields)
  end.
End induction.

(** The two functions on each type, whatever the fuel. *)
Lemma conforms_nullable n s j : conforms n (SNullable s) j = match j with JNull => true | _ => conforms n s j end.
Proof. by destruct n, j. Qed.
Lemma conforms_array n s j : conforms n (SArray s) j = match j with JArr items => forallb (conforms n s) items | _ => false end.
Proof. by destruct n, j. Qed.
Lemma conforms_union n types j : conforms n (SUnion types) j = existsb (λ s, conforms n s j) types.
Proof. by destruct n. Qed.
Lemma conforms_object n fields j : conforms n (SObject fields) j =
  match j with
  | JObj _ => forallb (λ f : ustring * bool * Schema, match prop f.1.1 j with Some v => conforms n f.2 v | None => negb f.1.2 end) fields
  | _ => false
  end.
Proof. by destruct n, j. Qed.
Lemma conforms_ref n name s j : schema_of name = Some s → conforms (S n) (SRef name) j = conforms n s j.
Proof. intros E. cbn [conforms]. by rewrite E. Qed.
Lemma resolves_inside n s : resolves n s =
  match s with
  | SNullable s | SArray s => resolves n s
  | SUnion types => forallb (resolves n) types
  | SObject fields => forallb (λ f, resolves n f.2) fields
  | _ => resolves n s
  end.
Proof. by destruct n, s. Qed.

Lemma forallb_same {A} (p f g : A → bool) l : forallb p l = true → Forall (λ x, p x = true → f x = g x) l → forallb f l = forallb g l.
Proof.
  intros Hp H. induction H as [|x l E _ IH]; [done|]. cbn in Hp |- *. apply andb_prop in Hp as [H1 H2]. by rewrite E, IH.
Qed.
Lemma existsb_same {A} (p f g : A → bool) l : forallb p l = true → Forall (λ x, p x = true → f x = g x) l → existsb f l = existsb g l.
Proof.
  intros Hp H. induction H as [|x l E _ IH]; [done|]. cbn in Hp |- *. apply andb_prop in Hp as [H1 H2]. by rewrite E, IH.
Qed.

Lemma conforms_same n m : (∀ name j, resolves n (SRef name) = true → conforms m (SRef name) j = conforms n (SRef name) j) →
  ∀ s j, resolves n s = true → conforms m s j = conforms n s j.
Proof.
  intros Hname s. induction s as [| | | | | | |name|s IH|s IH|l IH|fields IH] using Schema_rect_nested; intros j Hr; try (by destruct n, m); [by apply Hname|rewrite resolves_inside in Hr..].
  - rewrite !conforms_nullable. destruct j; [done|..]; by apply IH.
  - rewrite !conforms_array. destruct j as [| | | |items|]; try done. apply (forallb_same (λ _, true)); [by apply forallb_forall|].
    apply Forall_forall. intros x _ _. by apply IH.
  - rewrite !conforms_union. eapply existsb_same; [exact Hr|]. eapply Forall_impl; [exact IH|]. intros s Hs Hx. by apply Hs.
  - rewrite !conforms_object. destruct j as [| | | | |kvs]; try done. eapply forallb_same; [exact Hr|]. eapply Forall_impl; [exact IH|].
    intros f Hf Hx. cbn beta in Hx. destruct (prop _ _); [by apply Hf|done].
Qed.
(** More fuel changes nothing once every name is found. *)
Lemma conforms_enough n : ∀ m s j, resolves n s = true → (n ≤ m)%nat → conforms m s j = conforms n s j.
Proof.
  induction n as [|n IH]; intros m s j Hr Hm; (eapply conforms_same; [|exact Hr]); intros name i Hn; [done|].
  destruct m as [|m]; [lia|]. cbn [resolves] in Hn. cbn [conforms]. destruct (schema_of name) as [s'|]; [|done]. apply IH; [done|lia].
Qed.

(** The table names each schema once, and finds every name a schema follows. *)
Lemma schemas_closed : NoDup component_schemas.*1 ∧ ∀ name s, (name, s) ∈ component_schemas → resolves DEPTH (SRef name) = true ∧ schema_of name = Some s.
Proof.
  split; [by_compute|]. assert (forallb (λ entry, resolves 5 entry.2) component_schemas = true) as Hr by (vm_compute; reflexivity).
  intros name s Hin. assert (schema_of name = Some s) as E.
  { unfold schema_of. apply map_get_elem; [by_compute|done]. }
  split; [|done]. unfold DEPTH. cbn [resolves]. rewrite E. rewrite forallb_forall in Hr. apply (Hr (name, s)). by apply list_elem_of_In.
Qed.
