(* ===== verification/PageRequests.v ===== *)
(** * The requests of the pages

    Models the query objects the pages build and hand to frontend/src/api/endpoints.ts, and
    when each is sent: frontend/src/pages/{AlertsPage,AlertDetailPage,EndpointsPage,
    EndpointDetailPage,EventsPage,EventDetailPage,IncidentsPage,IncidentDetailPage,
    ArchivesPage,OperationsPage,OverviewPage,IntelligencePage}.tsx, the pickers
    components/EndpointSwitcher.tsx and features/overview/EndpointScopePicker.tsx, and the
    calls of auth/AuthContext.tsx, with the theorem that they have the types the contract
    declares. *)

From S2P Require Import Prelude JsNumber JsDate Json Url Contracts ApiClient UrlState ListPages Intelligence Operations Overview Rest ProcessTree EventDetail Investigation Pickers.

#[local] Open Scope list_scope.
#[local] Open Scope Z_scope.

(** ** Query objects *)

Definition QInt (z : Z) : QueryValue := QNumber (num_of_Z z).
Definition QInts (l : list Z) : QueryValue := QNumbers (map num_of_Z l).
Definition QLit `{Literal A} (a : A) : QueryValue := QString (lit_name a).

(** A property that is set when there is a value. *)
Definition given {A} (key : ustring) (f : A → QueryValue) (value : option A) : QueryRecord :=
  match value with Some v => [(key, f v)] | None => [] end.

(** [...time.query] *)
Definition time_entries (time : DashboardTimeQuery) : QueryRecord :=
  (u! "timePreset", QLit (tq_timePreset time)) :: given (u! "from") QString (tq_from time) ++ given (u! "to") QString (tq_to time).

Definition alert_entries (q : AlertListQuery) : QueryRecord :=
  time_entries (aq_time q)
  ++ [(u! "page", QInt (aq_page q)); (u! "size", QInt (aq_size q)); (u! "sortBy", QLit (aq_sortBy q));
      (u! "sortOrder", QLit (aq_sortOrder q))]
  ++ given (u! "status") QLit (aq_status q) ++ given (u! "severity") QLit (aq_severity q)
  ++ given (u! "endpointId") QInt (aq_endpointId q) ++ given (u! "ruleCode") QString (aq_ruleCode q).

Definition endpoint_entries (q : EndpointListQuery) : QueryRecord :=
  [(u! "page", QInt (eq_page q)); (u! "size", QInt (eq_size q)); (u! "sortBy", QLit (eq_sortBy q));
   (u! "sortOrder", QLit (eq_sortOrder q))]
  ++ given (u! "q") QString (eq_q q) ++ given (u! "status") QLit (eq_status q) ++ given (u! "osType") QLit (eq_osType q)
  ++ given (u! "riskLevel") QLit (eq_riskLevel q) ++ given (u! "endpointIds") QInts (eq_endpointIds q).

Definition event_entries (q : EventListQuery) : QueryRecord :=
  time_entries (vq_time q)
  ++ [(u! "page", QInt (vq_page q)); (u! "size", QInt (vq_size q)); (u! "sortOrder", QLit (vq_sortOrder q))]
  ++ given (u! "eventType") QLit (vq_eventType q) ++ given (u! "endpointId") QInt (vq_endpointId q)
  ++ map (λ kv, (kv.1, QString kv.2)) (vq_details q).

Definition incident_entries (q : IncidentsPageQuery) : QueryRecord :=
  time_entries (pq_time q)
  ++ [(u! "page", QInt (pq_page q)); (u! "size", QInt (pq_size q)); (u! "sortOrder", QLit (pq_sortOrder q))]
  ++ given (u! "status") QLit (pq_status q) ++ given (u! "severity") QLit (pq_severity q)
  ++ given (u! "endpointId") QInt (pq_endpointId q).

Definition incident_queue_entries (q : IncidentListQuery) : QueryRecord :=
  time_entries (iq_time q)
  ++ [(u! "page", QInt (iq_page q)); (u! "size", QInt (iq_size q)); (u! "sortOrder", QLit (iq_sortOrder q));
      (u! "status", QLit (iq_status q))]
  ++ given (u! "severity") QLit (iq_severity q) ++ given (u! "endpointId") QInt (iq_endpointId q).

Definition archive_entries (q : ArchiveRestoreListQuery) : QueryRecord :=
  [(u! "endpointIds", QInts (rq_endpointIds q)); (u! "from", QString (rq_from q)); (u! "to", QString (rq_to q));
   (u! "page", QInt (rq_page q)); (u! "size", QInt (rq_size q))].

Definition failure_entries (q : FailureListQuery) : QueryRecord :=
  time_entries (fq_time q)
  ++ [(u! "page", QInt (fq_page q)); (u! "size", QInt (fq_size q)); (u! "sortOrder", QLit (fq_sortOrder q))]
  ++ given (u! "status") QLit (fq_status q) ++ given (u! "failureStage") QString (fq_failureStage q)
  ++ given (u! "retryable") QBool (fq_retryable q).

(** ** Commands *)

(** What a user commands, with the values of the forms. *)
Inductive Command :=
| CmdLogin (loginId password : ustring)
| CmdLocale (locale : UserLocale)
| CmdAlert (alertId : Z) (status : AlertStatus)
| CmdIncident (incidentId : Z) (status : IncidentStatus)
| CmdRestore (request : ArchiveRestoreRequest).

Definition status_body (status : ustring) : json := JObj [(u! "status", JStr status)].
Definition restore_body (request : ArchiveRestoreRequest) : json :=
  JObj [(u! "endpointIds", JArr (map JInt (restore_endpointIds request))); (u! "from", JStr (restore_from request)); (u! "to", JStr (restore_to request))].
Definition command_call (command : Command) : ApiCall :=
  match command with
  | CmdLogin loginId password => login (JObj [(u! "loginId", JStr loginId); (u! "password", JStr password)])
  | CmdLocale locale => updateLocale (JObj [(u! "locale", JStr (lit_name locale))])
  | CmdAlert alertId status => updateAlert alertId (status_body (lit_name status))
  | CmdIncident incidentId status => updateIncident incidentId (status_body (lit_name status))
  | CmdRestore request => startRestore (restore_body request)
  end.

(** ** What each page sends *)

Inductive PageRequest :=
| AlertsList | AlertQueue (valid : bool) | EndpointsList | EventsList | EventOf (eventId : option ustring)
| IncidentsList | IncidentQueue (valid : bool) | ArchivesList
| OverviewAvailability | OverviewSummary | OverviewLive | OverviewEndpoints | OverviewRanking | OverviewIncidents
| IntelligenceAvailability | IntelligenceSummary | IntelligenceTopology | IntelligenceCorrelation
| OperationsIngest | OperationsHealth | OperationsFailures
| EndpointOf (param : option ustring) | AlertOf (param : option ustring) | IncidentOf (param : option ustring)
| TimelineOf (param : option ustring) | InvestigationOf (param : option ustring)
| TreeOfEvent (ev : EventDto)
| TreeOfIncident (page : IncidentPage) (incident_endpoint : option Z) (investigation : option IncidentInvestigationDto)
| ScopeSearch (picker : Scope.State) | ScopeSelected | SwitcherSearch (switcher : Switcher.State)
| CurrentUser | SignIn (loginId password : ustring) | SaveLocale (locale : UserLocale)
| SaveAlert (param : option ustring) (status : AlertStatus) | SaveIncident (param : option ustring) (status : IncidentStatus)
| StartRestore (role : option UserRole).

Definition sent_if (condition : bool) (call : ApiCall) : option ApiCall := if condition then Some call else None.

Section requests.
Context `{DateHost}.

(** The endpoint of the dashboard, as part of its queries. *)
Definition scoped_entries (params : URLSearchParams) : QueryRecord :=
  time_entries (tf_query (readTimeFilter params)) ++ given (u! "endpointId") QInt (readOverviewEndpointId params).
Definition summary_entries (params : URLSearchParams) (source : ustring) : QueryRecord :=
  scoped_entries params ++ [(u! "interval", QLit (tf_interval (readTimeFilter params))); (u! "eventSource", QString source)].
(** [endpointIds.length ? { endpointIds } : {}] *)
Definition ids_entries (ids : list Z) : QueryRecord :=
  match ids with [] => [] | _ => [(u! "endpointIds", QInts ids)] end.

(** The queries of the dashboard's panels. *)
Definition overview_availabilityQuery (params : URLSearchParams) : QueryRecord :=
  given (u! "endpointIds") (λ id, QInts [id]) (readOverviewEndpointId params).
Definition endpointRankingQuery (params : URLSearchParams) : QueryRecord :=
  [(u! "page", QInt 1); (u! "size", QInt 5)]
  ++ given (u! "endpointIds") (λ id, QInts [id]) (readOverviewEndpointId params)
  ++ [(u! "sortBy", QLit EndpointSort_riskScore); (u! "sortOrder", QLit Order_desc)].
Definition incidentQuery (params : URLSearchParams) : QueryRecord :=
  scoped_entries params ++ [(u! "status", QLit Incident_OPEN); (u! "page", QInt 1); (u! "size", QInt 5);
                            (u! "sortOrder", QLit Order_desc)].

(** Those of the intelligence page. *)
Definition intelligence_ids (params : URLSearchParams) : QueryRecord :=
  ids_entries (parseEndpointIds (params_get params (u! "endpointIds"))).
Definition intelligence_summaryQuery (params : URLSearchParams) : QueryRecord :=
  let time := readTimeFilter params in time_entries (tf_query time) ++ [(u! "interval", QLit (tf_interval time))].
Definition topologyQuery (params : URLSearchParams) : QueryRecord :=
  time_entries (tf_query (readTimeFilter params)) ++ intelligence_ids params.
Definition correlationRequest (params : URLSearchParams) : QueryRecord :=
  time_entries (tf_query (readTimeFilter params)) ++ [(u! "value", QString (correlationValue params))] ++ intelligence_ids params.

(** [Number(useParams().alertId)], when it is a positive integer, and the like. *)
Definition route_id (param : option ustring) : option Z := positive_int (number_of_opt param).
(** The endpoint that the dashboard is about, for the picker's button. *)
Definition selectedQuery (id : Z) : QueryRecord := [(u! "endpointIds", QInts [id]); (u! "page", QInt 1); (u! "size", QInt 1)].

Definition page_request (request : PageRequest) (params : URLSearchParams) : option ApiCall :=
  let time := readTimeFilter params in
  let custom := bool_decide (tf_preset time = Preset_CUSTOM) in
  match request with
  | AlertsList => sent_if (negb (alerts_invalid params)) (ApiClient.alerts (alert_entries (alerts_query params)))
  | AlertQueue valid => sent_if (valid && tf_valid time) (ApiClient.alerts (alert_entries (alertTriageQueueQuery params)))
  | EndpointsList => sent_if (negb (endpoints_invalid params)) (ApiClient.endpoints (endpoint_entries (endpoints_query params)))
  | EventsList => sent_if (negb (events_invalid params)) (ApiClient.events (event_entries (events_query params)))
  | EventOf eventId => event_call eventId params
  | IncidentsList => sent_if (negb (incidents_invalid params)) (ApiClient.incidents (incident_entries (incidents_query params)))
  | IncidentQueue valid => sent_if valid (ApiClient.incidents (incident_queue_entries (incidentQueueQuery params)))
  | ArchivesList => sent_if (ready (readArchives params)) (archives (archive_entries (archive_query (readArchives params))))
  | OverviewAvailability => sent_if custom (dashboardAvailability (overview_availabilityQuery params))
  | OverviewSummary => sent_if (tf_valid time) (ApiClient.dashboard (summary_entries params (u! "ROLLUP")))
  | OverviewLive => Some (ApiClient.dashboard (summary_entries params (u! "LIVE")))
  | OverviewEndpoints => sent_if (tf_valid time) (endpointSummary (scoped_entries params))
  | OverviewRanking => sent_if (tf_valid time) (ApiClient.endpoints (endpointRankingQuery params))
  | OverviewIncidents => sent_if (tf_valid time) (ApiClient.incidents (incidentQuery params))
  | IntelligenceAvailability => sent_if custom (dashboardAvailability (intelligence_ids params))
  | IntelligenceSummary => sent_if (tf_valid time) (ApiClient.dashboard (intelligence_summaryQuery params))
  | IntelligenceTopology => sent_if (tf_valid time) (ApiClient.topology (topologyQuery params))
  | IntelligenceCorrelation => sent_if (tf_valid time && truthy (correlationValue params))
      (ApiClient.correlation (correlationRequest params))
  | OperationsIngest => sent_if (tf_valid time) (ingestSummary (time_entries (tf_query time)))
  | OperationsHealth => Some operationsHealth
  | OperationsFailures => sent_if (tf_valid time) (ApiClient.failures (failure_entries (failureQuery params)))
  | EndpointOf param => ApiClient.endpoint <$> route_id param
  | AlertOf param => ApiClient.alert <$> route_id param
  | IncidentOf param => ApiClient.incident <$> route_id param
  | TimelineOf param => ApiClient.incidentTimeline <$> route_id param
  | InvestigationOf param => ApiClient.incidentInvestigation <$> route_id param
  | TreeOfEvent ev => tree_call ev
  | TreeOfIncident page incident_endpoint investigation => process_tree_call page incident_endpoint investigation
  | ScopeSearch picker => sent_if (Scope.open picker) (ApiClient.endpoints (Scope.search_query picker))
  | ScopeSelected => (λ id, ApiClient.endpoints (selectedQuery id)) <$> readOverviewEndpointId params
  | SwitcherSearch switcher => Switcher.search_call switcher
  | CurrentUser => Some currentUser
  | SignIn loginId password => Some (command_call (CmdLogin loginId password))
  | SaveLocale locale => Some (command_call (CmdLocale locale))
  | SaveAlert param status => (λ id, command_call (CmdAlert id status)) <$> route_id param
  | SaveIncident param status => (λ id, command_call (CmdIncident id status)) <$> route_id param
  | StartRestore role => (λ request, command_call (CmdRestore request)) <$> restore_request params role
  end.
End requests.

(** ** Trimmed text *)

(** A lone half is never white space, so trimming splits no pair. *)
Lemma utf16_encode_app a b : utf16_encode (a ++ b) = utf16_encode a ++ utf16_encode b.
Proof. unfold utf16_encode. apply flat_map_app. Qed.

Lemma half_not_space c : 55296 ≤ c ≤ 57343 → is_space c = false.
Proof. intros Hc. unfold is_space. rewrite !orb_false_iff. split_and!; lia. Qed.

Lemma trim_start_wf s : well_formed s → well_formed (trim_start s).
Proof.
  intros (cps & Hc & ->). induction Hc as [|cp cps [Hcp Hs] Hc IH]; [by exists []|].
  unfold utf16_encode. cbn [flat_map]. change (flat_map _ cps) with (utf16_encode cps).
  assert (well_formed (utf16_encode (cp :: cps))) as Hw by (exists (cp :: cps); split; [by constructor|done]).
  unfold utf16_encode in Hw. cbn [flat_map] in Hw. change (flat_map _ cps) with (utf16_encode cps) in Hw.
  destruct (cp <? 65536) eqn:E; cbn [app trim_start] in *.
  - by destruct (is_space cp).
  - rewrite half_not_space; [done|]. pose proof (Z.div_mod (cp - 65536) 1024 ltac:(lia)).
    pose proof (Z.mod_pos_bound (cp - 65536) 1024 ltac:(lia)). lia.
Qed.

Lemma trim_end_snoc s c : trim_end (s ++ [c]) = if is_space c then trim_end s else s ++ [c].
Proof.
  unfold trim_end. rewrite reverse_app. change (reverse [c] ++ reverse s) with (c :: reverse s). cbn [trim_start].
  destruct (is_space c); [done|]. rewrite reverse_cons. by rewrite reverse_involutive.
Qed.

Lemma trim_end_wf s : well_formed s → well_formed (trim_end s).
Proof.
  intros (cps & Hc & ->). induction cps as [|cp cps IH] using rev_ind; [by exists []|].
  apply Forall_app in Hc as [Hc Hcp]. pose proof (proj1 (Forall_singleton _ _) Hcp) as [Hr Hs].
  assert (well_formed (utf16_encode (cps ++ [cp]))) as Hw by (exists (cps ++ [cp]); split; [by apply Forall_app_2|done]).
  rewrite utf16_encode_app in *. unfold utf16_encode at 2 in Hw. unfold utf16_encode at 2. cbn [flat_map] in *.
  rewrite app_nil_r in *. destruct (cp <? 65536) eqn:E.
  - rewrite trim_end_snoc. destruct (is_space cp); [by apply IH|done].
  - pose proof (Z.mod_pos_bound (cp - 65536) 1024 ltac:(lia)).
    match goal with |- well_formed (trim_end (?a ++ [?b; ?c])) => change (a ++ [b; c]) with (a ++ [b] ++ [c]) in * end.
    rewrite app_assoc in *. by rewrite trim_end_snoc, half_not_space by lia.
Qed.

Lemma trim_wf s : well_formed s → well_formed (trim s).
Proof. intros Hs. apply trim_end_wf, trim_start_wf, Hs. Qed.

(** ** Typed entries *)

#[export] Instance ParamType_eq_dec : EqDecision ParamType.
Proof. solve_decision. Defined.

Definition value_wf (value : QueryValue) : Prop := match value with QString s => well_formed s | _ => True end.
Definition entry_ok (ps : list ApiParameter) (kv : ustring * QueryValue) : Prop :=
  well_formed kv.1 ∧ value_wf kv.2 ∧ ∃ p, parameter kv.1 ps = Some p ∧ value_ok (par_type p) kv.2.

(** The contract declares the parameter with this type. *)
Definition declares (ps : list ApiParameter) (key : ustring) (type : ParamType) : bool :=
  forallb (λ c, (0 <=? c) && (c <? 128)) key &&
  match parameter key ps with Some p => bool_decide (par_type p = type) | None => false end.

Lemma declares_spec ps key type : declares ps key type = true →
  well_formed key ∧ ∃ p, parameter key ps = Some p ∧ par_type p = type.
Proof.
  unfold declares. intros [Hk Hp]%andb_true_iff. split.
  - apply well_formed_ascii, Forall_forall. intros c Hc. rewrite forallb_elem in Hk. specialize (Hk c Hc).
    apply andb_true_iff in Hk as [?%Z.leb_le ?%Z.ltb_lt]. lia.
  - destruct (parameter key ps) as [p|]; [|done]. exists p. split; [done|]. by breflect.
Qed.

Lemma declared_ok ps key type value :
  declares ps key type = true → value_wf value → value_ok type value → entry_ok ps (key, value).
Proof. intros (Hk & p & Hp & <-)%declares_spec Hw Hv. split_and!; [done..|]. by exists p. Qed.

(** A number that is sent is one whose text is an integer. *)
Definition small (value : QueryValue) : Prop :=
  match value with
  | QNumber n => ∀ z, to_integer n = Some z → z ≤ max_safe
  | QNumbers l => ∀ n z, n ∈ l → to_integer n = Some z → z ≤ max_safe
  | _ => True
  end.

Lemma number_entry ps key n z :
  declares ps key PInteger = true → to_integer n = Some z → 0 < z → small (QNumber n) → entry_ok ps (key, QNumber n).
Proof. intros Hd Hn Hz Hs. eapply declared_ok; [done..|]. exists z. specialize (Hs z Hn). split; [done|lia]. Qed.

Lemma int_entry ps key z :
  declares ps key PInteger = true → 0 < z → small (QInt z) → entry_ok ps (key, QInt z).
Proof. intros. eapply number_entry; [done|apply to_integer_Z|done..]. Qed.

Lemma ints_entry ps key l :
  declares ps key PIntegers = true → Forall (λ z, 0 < z) l → small (QInts l) → entry_ok ps (key, QInts l).
Proof.
  intros Hd Hl Hs. eapply declared_ok; [done..|]. cbn in *. apply Forall_forall. intros n (z & -> & Hz)%list_elem_of_fmap.
  rewrite Forall_forall in Hl. exists z. rewrite to_integer_Z. split; [done|]. specialize (Hl z Hz).
  pose proof (Hs (num_of_Z z) z (list_elem_of_fmap_2 _ _ _ Hz) (to_integer_Z z)). lia.
Qed.

Lemma text_entry ps key s : declares ps key PString = true → well_formed s → entry_ok ps (key, QString s).
Proof. intros. by eapply declared_ok. Qed.

Lemma lit_entry `{Literal A} ps key (a : A) :
  declares ps key (PLiteral (literals A)) = true →
  forallb (forallb (λ c, (0 <=? c) && (c <? 128))) (literals A) = true → entry_ok ps (key, QLit a).
Proof.
  intros Hd Ha. assert (lit_name a ∈ literals A) as Hin by (apply list_elem_of_fmap_2, lit_complete).
  eapply declared_ok; [done| |exact Hin]. rewrite forallb_elem in Ha. specialize (Ha _ Hin). rewrite forallb_elem in Ha.
  apply well_formed_ascii, Forall_forall. intros c Hc. specialize (Ha c Hc).
  apply andb_true_iff in Ha as [?%Z.leb_le ?%Z.ltb_lt]. lia.
Qed.

Lemma entry_Forall {A} (P : ustring * QueryValue → Prop) key (f : A → QueryValue) value :
  Forall P (given key f value) ↔ ∀ a, value = Some a → P (key, f a).
Proof.
  destruct value as [a|]; cbn; rewrite ?Forall_singleton; [|by split; [|intros _; apply Forall_nil]].
  split; [by intros ? ? [= <-]|auto].
Qed.

Lemma entry_keys {A} key (f : A → QueryValue) value : (given key f value).*1 `sublist_of` [key].
Proof. destruct value; cbn; [done|apply sublist_nil_l]. Qed.

(** The objects whose entries are typed, with each key once. *)
Lemma query_typed_intro ps keys query :
  Forall (entry_ok ps) query → query.*1 `sublist_of` keys → NoDup keys →
  Forall (λ p, par_required p = true → ∃ v, (par_name p, v) ∈ query ∧ query_texts v ≠ []) ps → query_typed ps query.
Proof.
  intros Hok Hk Hnd Hr. split_and!; [| | |done].
  - eapply Forall_impl; [exact Hok|]. by intros kv (? & ? & _).
  - by eapply sublist_NoDup.
  - eapply Forall_impl; [exact Hok|]. by intros kv (_ & _ & ?).
Qed.

(** ** The objects *)

Definition time_wf (time : DashboardTimeQuery) : Prop :=
  (∀ s, tq_from time = Some s → well_formed s) ∧ (∀ s, tq_to time = Some s → well_formed s).
Definition small_query (query : QueryRecord) : Prop := Forall (λ kv, small kv.2) query.

Lemma typed_intro ps keys query :
  small_query query → Forall (λ kv, small kv.2 → entry_ok ps kv) query → query.*1 `sublist_of` keys → NoDup keys →
  Forall (λ p, par_required p = true → ∃ v, (par_name p, v) ∈ query ∧ query_texts v ≠ []) ps → query_typed ps query.
Proof.
  intros Hs Hok. apply query_typed_intro. unfold small_query in Hs. rewrite Forall_forall in Hs, Hok |- *. auto.
Qed.

Definition declares_time (ps : list ApiParameter) : bool :=
  declares ps (u! "timePreset") (PLiteral (literals TimePreset)) && declares ps (u! "from") PString
  && declares ps (u! "to") PString.

Lemma time_typed ps time :
  declares_time ps = true → time_wf time → Forall (λ kv, small kv.2 → entry_ok ps kv) (time_entries time).
Proof.
  intros [[Hp Hf]%andb_true_iff Ht]%andb_true_iff [Wf Wt]. apply Forall_cons. split; [|apply Forall_app_2].
  - intros _. apply lit_entry; [done|by vm_compute].
  - apply entry_Forall. intros s Hs _. apply text_entry; auto.
  - apply entry_Forall. intros s Hs _. apply text_entry; auto.
Qed.

Lemma time_keys time : (time_entries time).*1 `sublist_of` [u! "timePreset"; u! "from"; u! "to"].
Proof.
  unfold time_entries. cbn [fmap list_fmap fst]. apply sublist_skip. rewrite fmap_app. apply (sublist_app _ [_] _ [_]); apply entry_keys.
Qed.

Ltac check_key := vm_compute; reflexivity.
Ltac typed_entry :=
  intros ?; first
    [ apply lit_entry; check_key
    | apply int_entry; [check_key|eauto with lia|assumption]
    | apply ints_entry; [check_key|eauto|assumption]
    | apply text_entry; [check_key|eauto]
    | apply (declared_ok _ _ PBoolean); [check_key|exact I|exact I] ].
Ltac typed_entries :=
  lazymatch goal with
  | |- Forall _ (_ ++ _) => apply Forall_app_2; typed_entries
  | |- Forall _ (time_entries _) => apply time_typed; [check_key|assumption]
  | |- Forall _ (given _ _ _) => apply entry_Forall; intros ? ?; cbn [fst snd]; typed_entry
  | |- Forall _ (_ :: _) => apply Forall_cons_2; [cbn [fst snd]; typed_entry|typed_entries]
  | |- Forall _ [] => apply Forall_nil_2
  end.
Lemma keys_cons (k : ustring) (v : QueryValue) l keys : l.*1 `sublist_of` keys → ((k, v) :: l).*1 `sublist_of` k :: keys.
Proof. intros. by apply sublist_skip. Qed.
Ltac keys_of :=
  lazymatch goal with
  | |- (_ ++ _).*1 `sublist_of` _ => rewrite fmap_app; apply sublist_app; keys_of
  | |- (time_entries _).*1 `sublist_of` _ => apply time_keys
  | |- (given _ _ _).*1 `sublist_of` _ => apply entry_keys
  | |- (_ :: _).*1 `sublist_of` _ => apply keys_cons; keys_of
  | |- [].*1 `sublist_of` _ => apply sublist_nil
  end.

Lemma none_required ps (P : ApiParameter → Prop) :
  forallb (λ p, negb (par_required p)) ps = true → Forall (λ p, par_required p = true → P p) ps.
Proof.
  rewrite forallb_elem. intros H. apply Forall_forall. intros p Hp Hr. specialize (H p Hp). by rewrite Hr in H.
Qed.

Ltac typed_query entries :=
  intros; eapply typed_intro; [eassumption|unfold entries; typed_entries|unfold entries; keys_of|by_compute|];
  try (apply none_required; check_key).

Lemma alert_entries_typed q :
  time_wf (aq_time q) → 0 < aq_page q → 0 < aq_size q → (∀ id, aq_endpointId q = Some id → 0 < id) →
  (∀ s, aq_ruleCode q = Some s → well_formed s) → small_query (alert_entries q) →
  query_typed (op_query op_alertsList) (alert_entries q).
Proof. typed_query alert_entries. Qed.

Lemma endpoint_entries_typed q :
  0 < eq_page q → 0 < eq_size q → (∀ ids, eq_endpointIds q = Some ids → Forall (λ z, 0 < z) ids) →
  (∀ s, eq_q q = Some s → well_formed s) → small_query (endpoint_entries q) →
  query_typed (op_query op_endpointsList) (endpoint_entries q).
Proof. typed_query endpoint_entries. Qed.

Lemma incident_entries_typed q :
  time_wf (pq_time q) → 0 < pq_page q → 0 < pq_size q → (∀ id, pq_endpointId q = Some id → 0 < id) →
  small_query (incident_entries q) → query_typed (op_query op_incidentsList) (incident_entries q).
Proof. typed_query incident_entries. Qed.

Lemma incident_queue_entries_typed q :
  time_wf (iq_time q) → 0 < iq_page q → 0 < iq_size q → (∀ id, iq_endpointId q = Some id → 0 < id) →
  small_query (incident_queue_entries q) → query_typed (op_query op_incidentsList) (incident_queue_entries q).
Proof. typed_query incident_queue_entries. Qed.

Lemma failure_entries_typed q :
  time_wf (fq_time q) → 0 < fq_page q → 0 < fq_size q → (∀ s, fq_failureStage q = Some s → well_formed s) →
  small_query (failure_entries q) → query_typed (op_query op_failuresList) (failure_entries q).
Proof. typed_query failure_entries. Qed.

(** The details of an event are searched under their own names. *)
Definition details_ok (details : list (ustring * ustring)) : Prop :=
  details.*1 `sublist_of` DETAIL_FILTERS ∧ Forall (λ kv, well_formed kv.2) details.

Lemma detail_entries_ok details : details_ok details →
  Forall (λ kv, small kv.2 → entry_ok (op_query op_eventsList) kv) (map (λ kv, (kv.1, QString kv.2)) details) ∧
  (map (λ kv, (kv.1, QString kv.2)) details).*1 `sublist_of` DETAIL_FILTERS.
Proof.
  intros [Hk Hw]. split.
  - apply Forall_forall. intros kv (d & -> & Hd)%list_elem_of_fmap _. rewrite Forall_forall in Hw. apply text_entry; [|by apply Hw].
    assert (d.1 ∈ DETAIL_FILTERS) as Hin by (eapply elem_of_sublist; [|exact Hk]; by apply list_elem_of_fmap_2).
    clear -Hin. revert Hin. generalize d.1. apply Forall_forall. repeat (apply Forall_cons_2; [check_key|]). apply Forall_nil_2.
  - change (map (λ kv, (kv.1, QString kv.2)) details) with ((λ kv, (kv.1, QString kv.2)) <$> details).
    by rewrite <- list_fmap_compose.
Qed.

Lemma event_entries_typed q :
  time_wf (vq_time q) → 0 < vq_page q → 0 < vq_size q → (∀ id, vq_endpointId q = Some id → 0 < id) →
  details_ok (vq_details q) → small_query (event_entries q) →
  query_typed (op_query op_eventsList) (event_entries q).
Proof.
  intros ? ? ? ? Hd%detail_entries_ok Hs. destruct Hd as [Hd Hk].
  eapply typed_intro; [eassumption|..|by apply none_required]; [unfold event_entries|unfold event_entries|].
  - apply Forall_app_2; [typed_entries|]. apply Forall_app_2; [typed_entries|]. rewrite app_assoc. apply Forall_app_2; [typed_entries|done].
  - rewrite !fmap_app, !app_assoc. apply sublist_app; [|exact Hk]. rewrite <- !fmap_app, <- !app_assoc. keys_of.
  - by_compute.
Qed.

Lemma archive_entries_typed q :
  Forall (λ z, 0 < z) (rq_endpointIds q) → rq_endpointIds q ≠ [] → well_formed (rq_from q) → truthy (rq_from q) = true →
  well_formed (rq_to q) → truthy (rq_to q) = true → 0 < rq_page q → 0 < rq_size q → small_query (archive_entries q) →
  query_typed (op_query op_archiveRestoresList) (archive_entries q).
Proof.
  intros Hi Hne Hf Hf' Ht Ht' Hp Hz Hs. eapply typed_intro; [eassumption|unfold archive_entries; typed_entries|unfold archive_entries; keys_of|by_compute|].
  repeat (apply Forall_cons_2; [cbn [par_required par_name]; intros Hr|]); [discriminate Hr..| | | |apply Forall_nil_2].
  - exists (QInts (rq_endpointIds q)). split; [by left|]. cbn. by destruct (rq_endpointIds q).
  - exists (QString (rq_from q)). split; [by right; left|]. cbn. by rewrite Hf'.
  - exists (QString (rq_to q)). split; [by right; right; left|]. cbn. by rewrite Ht'.
Qed.

(** ** What the pages read is well-formed *)

Lemma params_get_wf params k v : params_ok params → params_get params k = Some v → well_formed v.
Proof.
  unfold params_get. intros Hok ([n w] & Hj & [= ->])%fmap_Some. apply js_find_Some in Hj as [Hj _].
  unfold params_ok in Hok. rewrite Forall_forall in Hok. by destruct (Hok _ Hj).
Qed.

Lemma text_param_wf params k s : params_ok params → text_param params k = Some s → well_formed s.
Proof.
  intros Hok. unfold text_param, stringParam. destruct (params_get params k) as [v|] eqn:E; cbn [default].
  - case_match; [|done]. intros [= <-]. eapply trim_wf, params_get_wf; eauto.
  - intros [=].
Qed.

Lemma default_wf params k : params_ok params → well_formed (default [] (params_get params k)).
Proof. intros Hok. destruct (params_get params k) eqn:E; [by eapply params_get_wf|by exists []]. Qed.

Lemma numberParam_pos params k n : 0 < n → 0 < numberParam params k n.
Proof. intros. unfold numberParam. destruct (positive_int _) eqn:E; [by eapply positive_int_pos|done]. Qed.

Lemma positiveInteger_pos v n : positiveInteger v = Some n → 0 < n.
Proof. apply positive_int_pos. Qed.

Lemma ids_entries_typed ps ids :
  declares ps (u! "endpointIds") PIntegers = true → Forall (λ z, 0 < z) ids →
  Forall (λ kv, small kv.2 → entry_ok ps kv) (ids_entries ids).
Proof.
  intros Hd Hi. unfold ids_entries. destruct ids as [|i l]; [apply Forall_nil_2|]. apply Forall_singleton. intros Hs.
  by apply ints_entry.
Qed.

Lemma ids_keys ids : (ids_entries ids).*1 `sublist_of` [u! "endpointIds"].
Proof. destruct ids; [apply sublist_nil_l|done]. Qed.

Section typed.
Context `{DateHost}.

Lemma time_query_wf params : params_ok params → time_wf (tf_query (readTimeFilter params)).
Proof.
  intros Hok. unfold readTimeFilter. cbn [tf_query]. case_match; split; cbn; try done;
    intros s Hs; by eapply params_get_wf.
Qed.

Lemma scope_id_pos params id : readOverviewEndpointId params = Some id → 0 < id.
Proof. apply positive_int_pos. Qed.

Lemma ids_pos params : Forall (λ z, 0 < z) (parseEndpointIds (params_get params (u! "endpointIds"))).
Proof. apply parseEndpointIds_spec. Qed.

Lemma correlationValue_wf params : params_ok params → well_formed (correlationValue params).
Proof.
  intros Hok. unfold correlationValue. destruct (params_get params (u! "value")) as [v|] eqn:E; [|by exists []].
  eapply trim_wf, params_get_wf; eauto.
Qed.

Lemma events_details params : params_ok params → details_ok (vq_details (events_query params)).
Proof.
  intros Hok. cbn [vq_details events_query]. split.
  - generalize DETAIL_FILTERS. intros l. induction l as [|k l IH]; [done|]. cbn [omap list_omap].
    destruct (text_param params k); cbn; [by apply sublist_skip|by apply sublist_cons].
  - apply Forall_forall. intros kv (k & _ & Hk)%list_elem_of_omap. apply fmap_Some in Hk as (s & Hs & ->).
    by eapply text_param_wf.
Qed.
End typed.

(** ** The claims *)

Section claims.
Context `{DateHost}.

Ltac parts := first [typed_entries | apply ids_entries_typed; [check_key|apply ids_pos]].
Ltac part_keys :=
  lazymatch goal with
  | |- (_ ++ _).*1 `sublist_of` _ => rewrite fmap_app; apply sublist_app; part_keys
  | |- (ids_entries _).*1 `sublist_of` _ => apply ids_keys
  | |- (given _ _ _).*1 `sublist_of` _ => apply entry_keys
  | |- _ => keys_of
  end.

Lemma one_typed ps params : declares ps (u! "endpointIds") PIntegers = true →
  Forall (λ kv, small kv.2 → entry_ok ps kv) (given (u! "endpointIds") (λ id, QInts [id]) (readOverviewEndpointId params)).
Proof.
  intros Hd. apply entry_Forall. intros id Hid Hs. cbn [fst snd]. apply ints_entry; [done| |done].
  apply Forall_singleton. by eapply scope_id_pos.
Qed.

Lemma scoped_typed ps params :
  declares_time ps = true → declares ps (u! "endpointId") PInteger = true → params_ok params →
  Forall (λ kv, small kv.2 → entry_ok ps kv) (scoped_entries params).
Proof.
  intros Ht Hd Hok. apply Forall_app_2; [by apply time_typed, time_query_wf|]. apply entry_Forall. intros id Hid Hs.
  apply int_entry; [done|by eapply scope_id_pos|done].
Qed.

Lemma scoped_keys params : (scoped_entries params).*1 `sublist_of` [u! "timePreset"; u! "from"; u! "to"; u! "endpointId"].
Proof. unfold scoped_entries. rewrite fmap_app. apply (sublist_app _ [_; _; _] _ [_]); [apply time_keys|apply entry_keys]. Qed.

(** A query whose only required parameter is [key]. *)
Lemma requires_one ps key v (query : QueryRecord) :
  (key, v) ∈ query → query_texts v ≠ [] →
  forallb (λ p, negb (par_required p) || bool_decide (par_name p = key)) ps = true →
  Forall (λ p, par_required p = true → ∃ v, (par_name p, v) ∈ query ∧ query_texts v ≠ []) ps.
Proof.
  rewrite forallb_elem. intros Hin Hne Hp. apply Forall_forall. intros p Hpp Hr. specialize (Hp p Hpp).
  rewrite Hr in Hp. cbn in Hp. breflect. subst. eauto.
Qed.

Lemma summary_typed params source :
  params_ok params → source ∈ [u! "ROLLUP"; u! "LIVE"] → small_query (summary_entries params source) →
  query_typed (op_query op_dashboardGetSummary) (summary_entries params source).
Proof.
  intros Hok Hs Hsm. unfold summary_entries in *. eapply typed_intro; [done|..].
  - apply Forall_app_2; [by apply scoped_typed; [check_key..|]|]. apply Forall_cons_2; [cbn [fst snd]; typed_entry|].
    apply Forall_singleton. intros _. cbn [fst snd].
    apply (declared_ok _ _ (PLiteral [u! "ROLLUP"; u! "LIVE"])); [check_key| |done]. cbn.
    rewrite !elem_of_cons, elem_of_nil in Hs. destruct Hs as [->|[->|[]]]; apply well_formed_ascii; by_compute.
  - rewrite fmap_app. apply sublist_app; [apply scoped_keys|keys_of].
  - by_compute.
  - apply (requires_one _ (u! "interval") (QLit (tf_interval (readTimeFilter params)))); [|by destruct (tf_interval _)|check_key].
    apply elem_of_app. right. by left.
Qed.

Lemma sent_inv condition call sent : sent_if condition call = Some sent → condition = true ∧ sent = call.
Proof. unfold sent_if. destruct condition; [|done]. by intros [= ->]. Qed.

Lemma negb_inv b : negb b = true → b = false.
Proof. by destruct b. Qed.

(** The lists' own pages. *)
Lemma list_requests_typed request params call :
  params_ok params → request ∈ [AlertsList; EndpointsList; EventsList; IncidentsList; ArchivesList] →
  page_request request params = Some call → small_query (call_query call) →
  query_typed (op_query (call_operation call)) (call_query call).
Proof.
  intros Hok Hr Hc Hs. rewrite !elem_of_cons, elem_of_nil in Hr.
  destruct Hr as [->|[->|[->|[->|[->|[]]]]]]; cbn [page_request] in Hc; apply sent_inv in Hc as [Hv ->];
    cbn [call_query call_operation] in *.
  - apply alert_entries_typed; [by apply time_query_wf|by apply numberParam_pos..|apply positiveInteger_pos| |done].
    intros s. by apply text_param_wf.
  - apply endpoint_entries_typed; [by apply numberParam_pos..| | |done].
    + intros ids. unfold endpoints_query. cbn [eq_endpointIds].
      pose proof (proj1 parseEndpointIds_spec (Some (raw_endpointIds params))) as (_ & _ & Hp).
      destruct (parseEndpointIds _); [done|by intros [= <-]].
    + intros s. by apply text_param_wf.
  - apply event_entries_typed; [by apply time_query_wf|by apply numberParam_pos..|apply positiveInteger_pos|by apply events_details|done].
  - apply incident_entries_typed; [by apply time_query_wf|by apply numberParam_pos..|apply positiveInteger_pos|done].
  - cbn [readArchives ready archive_query] in Hv. apply andb_true_iff in Hv as [[[Hi Hne]%andb_true_iff Hrange]%andb_true_iff _].
    unfold validRange in Hrange. apply andb_true_iff in Hrange as [[Hf Ht]%andb_true_iff _].
    apply archive_entries_typed; cbn; [| |by apply default_wf|done|by apply default_wf|done|by apply numberParam_pos..|done].
    + apply Forall_forall. intros z (t & _ & Hz)%js_unique_elem%list_elem_of_omap. by eapply positive_int_pos.
    + by destruct (archive_endpointIds _).
Qed.

(** The dashboard's. *)
Lemma overview_requests_typed request params call :
  params_ok params →
  request ∈ [OverviewAvailability; OverviewSummary; OverviewLive; OverviewEndpoints; OverviewRanking; OverviewIncidents] →
  page_request request params = Some call → small_query (call_query call) →
  query_typed (op_query (call_operation call)) (call_query call).
Proof.
  intros Hok Hr Hc Hs. rewrite !elem_of_cons, elem_of_nil in Hr.
  destruct Hr as [->|[->|[->|[->|[->|[->|[]]]]]]]; cbn [page_request] in Hc;
    first [apply sent_inv in Hc as [Hv ->]|injection Hc as <-]; cbn [call_query call_operation] in *;
    unfold overview_availabilityQuery, endpointRankingQuery, incidentQuery in *.
  - eapply typed_intro; [done|apply one_typed; check_key|apply entry_keys|by_compute|apply none_required; check_key].
  - apply summary_typed; [done|by left|done].
  - apply summary_typed; [done|by right; left|done].
  - eapply typed_intro; [done|apply scoped_typed; [check_key..|done]|apply scoped_keys|by_compute|apply none_required; check_key].
  - eapply typed_intro; [done| |part_keys|by_compute|apply none_required; check_key].
    repeat (apply Forall_cons_2; [cbn [fst snd]; typed_entry|]). apply Forall_app_2; [apply one_typed; check_key|typed_entries].
  - eapply typed_intro; [done|apply Forall_app_2; [apply scoped_typed; [check_key..|done]|typed_entries]
      |rewrite fmap_app; apply sublist_app; [apply scoped_keys|keys_of]|by_compute|apply none_required; check_key].
Qed.

(** Those of the other pages. *)
Lemma other_requests_typed request params call :
  params_ok params →
  request ∈ [IntelligenceAvailability; IntelligenceSummary; IntelligenceTopology; IntelligenceCorrelation; OperationsIngest;
             OperationsFailures] →
  page_request request params = Some call → small_query (call_query call) →
  query_typed (op_query (call_operation call)) (call_query call).
Proof.
  intros Hok Hr Hc Hs. pose proof (time_query_wf params Hok) as Ht. rewrite !elem_of_cons, elem_of_nil in Hr.
  destruct Hr as [->|[->|[->|[->|[->|[->|[]]]]]]]; cbn [page_request] in Hc; apply sent_inv in Hc as [Hv ->];
    cbn [call_query call_operation] in *; unfold intelligence_summaryQuery, topologyQuery, correlationRequest, intelligence_ids in *.
  - eapply typed_intro; [done|parts|part_keys|by_compute|apply none_required; check_key].
  - eapply typed_intro; [done|typed_entries|keys_of|by_compute|].
    apply (requires_one _ (u! "interval") (QLit (tf_interval (readTimeFilter params)))); [|by destruct (tf_interval _)|check_key].
    apply elem_of_app. right. by left.
  - eapply typed_intro; [done|apply Forall_app_2; parts|part_keys|by_compute|apply none_required; check_key].
  - apply andb_true_iff in Hv as [_ Hv]. pose proof (correlationValue_wf params Hok) as Hw.
    eapply typed_intro; [done|repeat first [apply Forall_app_2|parts]|part_keys|by_compute|].
    apply (requires_one _ (u! "value") (QString (correlationValue params))); [|cbn; by rewrite Hv|check_key].
    apply elem_of_app. right. by left.
  - eapply typed_intro; [done|typed_entries|keys_of|by_compute|apply none_required; check_key].
  - apply failure_entries_typed; [done|by apply numberParam_pos|done| |done].
    intros s. cbn. destruct (params_get params _) as [v|] eqn:E; cbn; [|done]. case_match; [|done]. intros [= <-].
    by eapply params_get_wf.
Qed.

Lemma queue_requests_typed request params call valid :
  params_ok params → request ∈ [AlertQueue valid; IncidentQueue valid] →
  page_request request params = Some call → small_query (call_query call) →
  query_typed (op_query (call_operation call)) (call_query call).
Proof.
  intros Hok Hr Hc Hs. rewrite !elem_of_cons, elem_of_nil in Hr.
  destruct Hr as [->|[->|[]]]; cbn [page_request] in Hc; apply sent_inv in Hc as [Hv ->]; cbn [call_query call_operation] in *.
  - apply alert_entries_typed; [by apply time_query_wf|done|done|apply positiveInteger_pos| |done].
    intros s. cbn. case_match; [|done]. intros [= <-]. by apply trim_wf, default_wf.
  - apply incident_queue_entries_typed; [by apply time_query_wf|done|done|apply positiveInteger_pos|done].
Qed.

Lemma event_request_typed eventId params call :
  legacy_parse [] = None →
  params_ok params → well_formed (default [] eventId) → page_request (EventOf eventId) params = Some call → small_query (call_query call) →
  call_typed call.
Proof.
  intros Hlegacy Hok Hw Hc Hs. cbn [page_request] in Hc. unfold event_call in Hc. apply sent_inv in Hc as [Hv ->].
  apply andb_true_iff in Hv as [Hid Hv]. unfold validEventDetailQuery in Hv.
  set (n := number_of_opt (params_get params (u! "endpointId"))) in *.
  destruct (positive_int n) as [z|] eqn:En; [|done]. unfold positive_int in En. destruct (to_integer n) as [z'|] eqn:Ei; [|done].
  destruct (Z.ltb_spec 0 z'); [|done]. injection En as ->. destruct (params_get params (u! "occurredAt")) as [at_|] eqn:Ea; [|done].
  split; [|split; [exact I|split; [done|by destruct (default [] eventId)]]].
  cbn [default call_query call_operation] in *.
  eapply typed_intro; [done| |keys_of|by_compute|].
  - apply Forall_cons_2; [intros Hn; eapply number_entry; [check_key|exact Ei|done|exact Hn]|].
    apply Forall_singleton. intros _. apply text_entry; [check_key|by eapply params_get_wf].
  - repeat (apply Forall_cons_2; [intros _|]); [| |apply Forall_nil_2].
    + exists (QNumber n). split; [by left|done].
    + exists (QString at_). split; [by right; left|]. cbn. destruct at_ as [|c r]; [|done].
      change (Date_parse []) with (legacy_parse []) in Hv. by rewrite Hlegacy in Hv.
Qed.

(** The requests that send a query and nothing else. *)
Definition plain_request (request : PageRequest) : Prop :=
  match request with
  | AlertsList | AlertQueue _ | EndpointsList | EventsList | IncidentsList | IncidentQueue _ | ArchivesList
  | OverviewAvailability | OverviewSummary | OverviewLive | OverviewEndpoints | OverviewRanking | OverviewIncidents
  | IntelligenceAvailability | IntelligenceSummary | IntelligenceTopology | IntelligenceCorrelation
  | OperationsIngest | OperationsHealth | OperationsFailures => True
  | _ => False
  end.
Lemma plain_typed request params call :
  page_request request params = Some call → plain_request request →
  query_typed (op_query (call_operation call)) (call_query call) → call_typed call.
Proof.
  intros Hc He Hq. split; [done|]. destruct request; try done; cbn [page_request] in Hc;
    first [apply sent_inv in Hc as [_ ->]|injection Hc as <-]; by split.
Qed.

Lemma operationsHealth_typed : query_typed (op_query (call_operation operationsHealth)) (call_query operationsHealth).
Proof. split_and!; [apply Forall_nil_2|apply NoDup_nil_2|apply Forall_nil_2..]. Qed.

Lemma api_total call : call_typed call → is_Some (api call).
Proof.
  intros (_ & _ & Hid). destruct call; cbn beta iota in Hid; try (by eexists). destruct Hid as [Hw _].
  cbn [api]. unfold encodeURIComponent. rewrite decide_True by by apply usv_well_formed. by eexists.
Qed.

(** What a request takes from elsewhere: texts from the router, the fields and the server
    are whole, and identifiers and processes of the server not negative. *)
Definition request_wf (request : PageRequest) (params : URLSearchParams) : Prop :=
  match request with
  | EventOf eventId => well_formed (default [] eventId)
  | TreeOfEvent ev => 0 < event_endpointId ev ∧ ∀ pid, event_pid ev = Some pid → 0 ≤ pid
  | TreeOfIncident page incident_endpoint investigation =>
      (∀ id, incident_endpoint = Some id → 0 < id) ∧
      (∀ data, investigation = Some data → well_formed (range_from (inv_timeRange data)) ∧ well_formed (range_to (inv_timeRange data))) ∧
      (∀ pid, selectedProcessPid (selection page) investigation = Some pid → 0 ≤ pid)
  | ScopeSearch picker => well_formed (Scope.query picker) ∧ Scope.inv picker
  | SwitcherSearch switcher => well_formed (Switcher.query switcher) ∧ Switcher.inv switcher
  | SignIn loginId password => units loginId ∧ units password
  | StartRestore _ => Forall (λ id, id ≤ max_safe) (rq_endpointIds (archive_query (readArchives params)))
  | _ => True
  end.
(** The numbers sent are at most 2^53 - 1. *)
Definition small_call (call : ApiCall) : Prop :=
  small_query (call_query call) ∧
  match call with
  | endpoint id | processTree id _ | alert id | updateAlert id _ | incident id | updateIncident id _ | incidentTimeline id
  | incidentInvestigation id => id ≤ max_safe
  | _ => True
  end.

Lemma no_query ps : forallb (λ p, negb (par_required p)) ps = true → query_typed ps [].
Proof. intros Hp. split_and!; [apply Forall_nil_2|apply NoDup_nil_2|apply Forall_nil_2|by apply none_required]. Qed.

Lemma id_typed param id call : route_id param = Some id → small_call call →
  query_typed (op_query (call_operation call)) (call_query call) → from_option json_wf True (call_body call) →
  match call with
  | endpoint i | alert i | updateAlert i _ | incident i | updateIncident i _ | incidentTimeline i | incidentInvestigation i => i = id
  | _ => False
  end → call_typed call.
Proof.
  intros Hid%positive_int_pos [_ Hs] Hq Hb Hc. split; [done|]. split; [done|]. destruct call; try done; subst; lia.
Qed.

Lemma status_wf `{Literal A} (status : A) : units (lit_name status) → json_wf (status_body (lit_name status)).
Proof. intros Hu. apply json_wf_obj. split; [by_compute|]. apply Forall_singleton. split; [by_compute|done]. Qed.
Lemma fields_wf fields : bool_decide (NoDup fields.*1) = true → Forall (λ kv, units kv.1 ∧ json_wf kv.2) fields → json_wf (JObj fields).
Proof. intros Hn%bool_decide_eq_true Hf. by apply json_wf_obj. Qed.

Lemma tree_typed id from to pid : 0 < id ≤ max_safe → well_formed from → well_formed to → from_option (λ p, 0 ≤ p) True pid →
  let query := [(u! "timePreset", QString (u! "CUSTOM")); (u! "from", QString from); (u! "to", QString to)]
                 ++ given (u! "selectedPid") QInt pid in
  small_query query → call_typed (processTree id query).
Proof.
  intros Hid Hf Ht Hp query Hs. split; [|by split]. cbn [call_query call_operation].
  eapply (typed_intro _ [u! "timePreset"; u! "from"; u! "to"; u! "selectedPid"]); [done|..|apply none_required; check_key].
  - apply Forall_cons_2; [intros _; cbn [fst snd]; change (QString (u! "CUSTOM")) with (QLit Preset_CUSTOM); apply lit_entry; check_key|].
    apply Forall_cons_2; [intros _; by apply text_entry; [check_key|]|]. apply Forall_cons_2; [intros _; by apply text_entry; [check_key|]|].
    apply entry_Forall. intros p -> Hsm. cbn [fst snd]. apply (declared_ok _ _ PInteger); [check_key|done|].
    exists p. split; [apply to_integer_Z|]. split; [done|]. apply (Hsm p), to_integer_Z.
  - unfold query. rewrite fmap_app. apply (sublist_app _ [_; _; _] _ [_]); [done|apply entry_keys].
  - by_compute.
Qed.

Lemma search_typed keys (query : QueryRecord) : Forall (λ kv, small kv.2 → entry_ok (op_query op_endpointsList) kv) query →
  query.*1 `sublist_of` keys → NoDup keys → small_query query → call_typed (ApiClient.endpoints query).
Proof. intros He Hk Hn Hs. split; [|done]. eapply typed_intro; [done|done|done|done|apply none_required; check_key]. Qed.

Lemma record_requests_typed request params call :
  params_ok params → request_wf request params → page_request request params = Some call → small_call call →
  match request with
  | EndpointOf _ | AlertOf _ | IncidentOf _ | TimelineOf _ | InvestigationOf _ | TreeOfEvent _ | TreeOfIncident _ _ _
  | ScopeSearch _ | ScopeSelected | SwitcherSearch _ => True
  | _ => False
  end → call_typed call.
Proof.
  intros Hok Hw Hc Hs Hr. destruct request; try done; cbn [page_request] in Hc; clear Hr.
  - apply fmap_Some in Hc as (id & Hid & ->). eapply id_typed; [done|done|by apply no_query|done|done].
  - apply fmap_Some in Hc as (id & Hid & ->). eapply id_typed; [done|done|by apply no_query|done|done].
  - apply fmap_Some in Hc as (id & Hid & ->). eapply id_typed; [done|done|by apply no_query|done|done].
  - apply fmap_Some in Hc as (id & Hid & ->). eapply id_typed; [done|done|by apply no_query|done|done].
  - apply fmap_Some in Hc as (id & Hid & ->). eapply id_typed; [done|done|by apply no_query|done|done].
  - unfold tree_call, processTreeWindow in Hc. destruct (Date_parse _) as [pivot|]; [|done]. cbn [mbind option_bind] in Hc.
    destruct (time_clip (pivot - _)) as [f|]; [|done]. destruct (time_clip (pivot + _)) as [e|]; [|done]. injection Hc as <-.
    destruct Hw as [Hid Hp], Hs as [Hs Hm]. apply (tree_typed _ _ _ (event_pid ev)); [done|apply well_formed_ascii, iso_ascii..| |done].
    destruct (event_pid ev) as [pid|]; [by apply Hp|done].
  - unfold process_tree_call in Hc. destruct incident_endpoint as [id|]; [|done]. destruct investigation as [data|]; [|done]. cbn [mbind option_bind] in Hc.
    destruct (selectedProcessPid _ _) as [pid|] eqn:Ep; [|done]. injection Hc as <-. destruct Hw as (Hid & Hr & Hp), Hs as [Hs Hm].
    destruct (Hr data eq_refl) as [Hf Ht]. apply (tree_typed _ _ _ (Some pid)); [|done|done|by apply Hp|done]. split; [by apply Hid|done].
  - apply sent_inv in Hc as [_ ->]. destruct Hw as [Hq [Hp _]], Hs as [Hs _]. unfold Scope.search_query in *.
    eapply (search_typed [u! "page"; u! "size"; u! "q"; u! "sortBy"; u! "sortOrder"]); [| |by_compute|done].
    + apply Forall_app_2; [|apply Forall_app_2].
      * apply Forall_cons_2; [intros Hn; apply int_entry; [check_key|lia|exact Hn]|]. apply Forall_singleton. intros Hn. apply int_entry; [check_key|done|exact Hn].
      * destruct (truthy _); [|apply Forall_nil_2]. apply Forall_singleton. intros _. apply text_entry; [check_key|by apply trim_wf].
      * change (u! "riskScore") with (lit_name EndpointSort_riskScore). change (u! "desc") with (lit_name Order_desc).
        apply Forall_cons_2; [intros _; apply (lit_entry _ _ EndpointSort_riskScore); check_key|]. apply Forall_singleton. intros _. apply (lit_entry _ _ Order_desc); check_key.
    + destruct (truthy _); [done|]. cbn. do 2 apply sublist_skip. by apply sublist_cons.
  - apply fmap_Some in Hc as (id & Hid & ->). destruct Hs as [Hs _].
    eapply (search_typed [u! "endpointIds"; u! "page"; u! "size"]); [|done|by_compute|done]. unfold selectedQuery.
    apply Forall_cons_2; [intros Hn; apply ints_entry; [check_key|apply Forall_singleton; by eapply scope_id_pos|exact Hn]|].
    apply Forall_cons_2; [intros Hn; apply int_entry; [check_key|done|exact Hn]|]. apply Forall_singleton. intros Hn. apply int_entry; [check_key|done|exact Hn].
  - unfold Switcher.search_call in Hc. destruct (Switcher.open _ && _); [|done]. injection Hc as <-. destruct Hw as [Hq [Hp _]], Hs as [Hs _].
    eapply (search_typed [u! "q"; u! "page"; u! "size"; u! "sortBy"; u! "sortOrder"]); [|done|by_compute|done]. unfold Switcher.search_query.
    change (u! "riskScore") with (lit_name EndpointSort_riskScore). change (u! "desc") with (lit_name Order_desc).
    apply Forall_cons_2; [intros _; apply text_entry; [check_key|by apply trim_wf]|].
    apply Forall_cons_2; [intros Hn; apply int_entry; [check_key|lia|exact Hn]|]. apply Forall_cons_2; [intros Hn; apply int_entry; [check_key|done|exact Hn]|].
    apply Forall_cons_2; [intros _; apply (lit_entry _ _ EndpointSort_riskScore); check_key|]. apply Forall_singleton. intros _. apply (lit_entry _ _ Order_desc); check_key.
Qed.

Lemma command_requests_typed request params call :
  params_ok params → request_wf request params → page_request request params = Some call → small_call call →
  match request with
  | CurrentUser | SignIn _ _ | SaveLocale _ | SaveAlert _ _ | SaveIncident _ _ | StartRestore _ => True
  | _ => False
  end → call_typed call.
Proof.
  intros Hok Hw Hc Hs Hr. destruct request; try done; cbn [page_request] in Hc; clear Hr.
  - injection Hc as <-. split; [by apply no_query|done].
  - injection Hc as <-. destruct Hw as [H1 H2]. split; [by apply no_query|]. split; [|done]. apply fields_wf; [done|].
    apply Forall_cons_2; [split; [by_compute|done]|]. apply Forall_singleton. split; [by_compute|done].
  - injection Hc as <-. split; [by apply no_query|]. split; [|done]. apply fields_wf; [done|]. apply Forall_singleton. split; [by_compute|]. by destruct locale; by_compute.
  - apply fmap_Some in Hc as (id & Hid & ->). eapply id_typed; [done|done|by apply no_query|by apply status_wf; destruct status; by_compute|done].
  - apply fmap_Some in Hc as (id & Hid & ->). eapply id_typed; [done|done|by apply no_query|by apply status_wf; destruct status; by_compute|done].
  - apply fmap_Some in Hc as (r & Hreq & ->). split; [by apply no_query|]. split; [|done]. unfold restore_request in Hreq. destruct (ready _ && _); [|done]. injection Hreq as <-.
    apply fields_wf; [done|]. cbn [request_wf restore_endpointIds restore_from restore_to] in *.
    apply Forall_cons_2; [split; [by_compute|apply json_wf_arr, Forall_forall]|].
    { intros x (z & -> & Hz)%list_elem_of_fmap. exists z. split; [done|]. rewrite Forall_forall in Hw. specialize (Hw z Hz).
      apply js_unique_elem, list_elem_of_omap in Hz as (token & _ & Hz). apply positive_int_pos in Hz. lia. }
    apply Forall_cons_2; [split; [by_compute|by apply well_formed_units, default_wf]|]. apply Forall_singleton. split; [by_compute|by apply well_formed_units, default_wf].
Qed.

End claims.

Definition sample_params : URLSearchParams :=
  [(u! "timePreset", u! "LATEST_24H"); (u! "status", u! "OPEN"); (u! "endpointId", u! "7"); (u! "ruleCode", u! " R-1 ")].
Definition sample_sent : ApiCall := ApiClient.alerts
  [(u! "timePreset", QString (u! "LATEST_24H")); (u! "page", QInt 1); (u! "size", QInt 50);
   (u! "sortBy", QString (u! "priority")); (u! "sortOrder", QString (u! "desc")); (u! "status", QString (u! "OPEN"));
   (u! "endpointId", QInt 7); (u! "ruleCode", QString (u! "R-1"))].

