(* ===== verification/Conformance.v ===== *)
(** * Requests and answers of the contract

    Relates the data types of Schemas.v to frontend/src/api/{client,endpoints}.ts: every
    answer that has the type the contract declares is understood by the client, and the
    bodies that frontend/src/auth/AuthContext.tsx and the pages send have the types their
    operations declare. *)

From S2P Require Import Prelude JsNumber JsDate Json Url Contracts ApiClient UrlState ListPages Intelligence Operations Rest Schemas PageRequests.

#[local] Open Scope list_scope.
#[local] Open Scope Z_scope.

(** ** Bodies *)

(** What users command is sent as the contract asks. The body of every request that
    signs in, sets the language, saves the status of an alert or of an incident, or starts
    a restore has the type that the contract declares for the body of its operation, and no
    fields besides; its values are those of the form. *)
Theorem commands_conform command :
  ∃ body name, call_body (command_call command) = Some body ∧ op_body (call_operation (command_call command)) = Some name ∧
    valid name body = true ∧
    match schema_of name with Some s => match body with JObj fields => fields.*1 = field_names s | _ => False end | None => False end ∧
    match command with
    | CmdLogin loginId password => prop (u! "loginId") body = Some (JStr loginId) ∧ prop (u! "password") body = Some (JStr password)
    | CmdLocale locale => prop (u! "locale") body = Some (JStr (lit_name locale))
    | CmdAlert _ status => prop (u! "status") body = Some (JStr (lit_name status))
    | CmdIncident _ status => prop (u! "status") body = Some (JStr (lit_name status))
    | CmdRestore request => prop (u! "endpointIds") body = Some (JArr (map JInt (restore_endpointIds request))) ∧
        prop (u! "from") body = Some (JStr (restore_from request)) ∧ prop (u! "to") body = Some (JStr (restore_to request))
    end.
Proof.
  destruct command as [loginId password|locale|alertId status|incidentId status|request]; eexists _, _; (split; [reflexivity|]); (split; [reflexivity|]).
  - split; [by vm_compute|]. by split.
  - destruct locale; split; [by vm_compute|by split|by vm_compute|by split].
  - destruct status; (split; [by vm_compute|by split]).
  - destruct status; (split; [by vm_compute|by split]).
  - split; [|by split]. unfold valid, DEPTH. erewrite conforms_ref by reflexivity. unfold schema_ArchiveRestoreRequest, restore_body.
    rewrite conforms_object. cbn [forallb req fst snd]. rewrite !andb_true_iff. split_and!; [|by vm_compute..].
    change (prop _ _) with (Some (JArr (map JInt (restore_endpointIds request)))). cbn [fst snd]. rewrite conforms_array.
    apply forallb_forall. intros j (z & <- & _)%in_map_iff. reflexivity.
Qed.

(** ** Answers *)

Definition all_operations : list Operation := flat_map (λ item, map snd (item_methods item)) CONTRACT.

(** Success answers are envelopes of data, all others the error envelope. *)
Definition success (status : Z) : bool := (200 <=? status) && (status <=? 299).
Definition envelope_of (name : ustring) : option Schema :=
  match schema_of name with
  | Some (SObject [(data, true, type); (meta, true, SRef meta_name)]) =>
    if bool_decide (data = u! "data") && bool_decide (meta = u! "meta") && bool_decide (meta_name = u! "RequestMeta") then Some type else None
  | _ => None
  end.
Definition answer_shape (answer : Z * ustring) : bool :=
  if success answer.1 then match envelope_of answer.2 with Some type => resolves 5 type | None => false end else bool_decide (answer.2 = u! "ErrorEnvelope").

Lemma answers_shaped op answer : op ∈ all_operations → answer ∈ op_responses op → answer_shape answer = true.
Proof.
  intros Ho Ha. assert (forallb (λ op, forallb answer_shape (op_responses op)) all_operations = true) as H by (vm_compute; reflexivity).
  rewrite forallb_forall in H. specialize (H op (proj1 (list_elem_of_In _ _) Ho)). rewrite forallb_forall in H. by apply H, list_elem_of_In.
Qed.

Lemma envelope_schema name type : envelope_of name = Some type →
  schema_of name = Some (SObject [(u! "data", true, type); (u! "meta", true, SRef (u! "RequestMeta"))]).
Proof.
  unfold envelope_of. intros H. repeat case_match; try discriminate. injection H as ->.
  match goal with H : _ && _ = true |- _ => apply andb_prop in H as [[Ha Hb]%andb_prop Hc] end.
  by apply bool_decide_eq_true in Ha as ->, Hb as ->, Hc as ->.
Qed.

Lemma meta_id v : conforms 5 (SRef (u! "RequestMeta")) v = true → isRecord v = true ∧ ∃ id, prop (u! "requestId") v = Some (JStr id).
Proof.
  erewrite (conforms_ref 4) by reflexivity. unfold schema_RequestMeta. rewrite conforms_object. destruct v as [| | | | |fields]; try done.
  cbn [forallb req fst snd]. change (u "requestId") with (u! "requestId"). intros H. apply andb_prop in H as [H _]. split; [done|].
  destruct (prop (u! "requestId") (JObj fields)) as [[]|]; try done. by eexists.
Qed.

Lemma envelope_read name type payload : envelope_of name = Some type → resolves 5 type = true → valid name payload = true →
  isSuccessEnvelope payload = true ∧ ∃ data, prop (u! "data") payload = Some data ∧ conforms DEPTH type data = true.
Proof.
  intros He Hr. unfold valid, DEPTH. rewrite (conforms_ref 5 _ _ _ (envelope_schema name type He)), conforms_object.
  destruct payload as [| | | | |fields]; try done. cbn [forallb fst snd]. intros H. apply andb_prop in H as [Hd H]. apply andb_prop in H as [Hm _].
  destruct (prop (u! "data") (JObj fields)) as [data|] eqn:Ed; [|done]. destruct (prop (u! "meta") (JObj fields)) as [meta|] eqn:Em; [|done].
  destruct (meta_id meta Hm) as (Hrec & id & Hid). split.
  - unfold isSuccessEnvelope. rewrite Ed, Em. cbn [isRecord is_record member mbind option_bind]. rewrite Hrec, Hid. by rewrite !bool_decide_true by eauto.
  - exists data. split; [done|]. rewrite (conforms_enough 5 6); [done|done|lia].
Qed.

(** The fields of an error: texts, a truth value, and details that each have a message. *)
Lemma error_body v : conforms 5 (SRef (u! "ErrorBody")) v = true →
  isRecord v = true ∧ ∃ code message retryable details,
    prop (u! "code") v = Some (JStr code) ∧ prop (u! "message") v = Some (JStr message) ∧ prop (u! "retryable") v = Some (JBool retryable) ∧
    prop (u! "details") v = Some (JArr details) ∧ forallb (conforms DEPTH (ref "ErrorDetail")) details = true.
Proof.
  erewrite (conforms_ref 4) by reflexivity. unfold schema_ErrorBody. rewrite conforms_object. destruct v as [| | | | |fields]; try done.
  cbn [forallb req fst snd]. rewrite !andb_true_iff. intros (Hcode & Hdetails & Hmessage & Hretryable & _). split; [done|].
  destruct (prop (u "code") (JObj fields)) as [[| | |code| |]|] eqn:E1; try done. destruct (prop (u "message") (JObj fields)) as [[| | |message| |]|] eqn:E2; try done.
  destruct (prop (u "retryable") (JObj fields)) as [[|retryable| | | |]|] eqn:E3; try done.
  destruct (prop (u "details") (JObj fields)) as [details|] eqn:E4; [|done]. rewrite conforms_array in Hdetails. destruct details as [| | | |details|]; try done.
  exists code, message, retryable, details. do 4 (split; [done|]). rewrite forallb_forall in Hdetails |- *. intros x Hx.
  rewrite (conforms_enough 4 6); [by apply Hdetails|by vm_compute|unfold DEPTH; lia].
Qed.

Lemma error_read payload : valid (u! "ErrorEnvelope") payload = true →
  ∃ env, isErrorEnvelope payload = Some env ∧ forallb (conforms DEPTH (ref "ErrorDetail")) (env_details env) = true.
Proof.
  unfold valid, DEPTH. erewrite (conforms_ref 5) by reflexivity. unfold schema_ErrorEnvelope. rewrite conforms_object.
  destruct payload as [| | | | |fields]; try done. cbn [forallb req fst snd]. rewrite !andb_true_iff. intros (Herror & Hmeta & _).
  destruct (prop (u "error") (JObj fields)) as [error|] eqn:Ee; [|done]. destruct (prop (u "meta") (JObj fields)) as [meta|] eqn:Em; [|done].
  destruct (error_body error Herror) as (Hrec & code & message & retryable & details & E1 & E2 & E3 & E4 & Hd).
  destruct (meta_id meta Hmeta) as (Hmrec & id & Hid). exists (mkErrorEnvelope code message retryable details id). split; [|done].
  unfold isErrorEnvelope. cbn [isRecord]. rewrite Ee, Em. cbn [is_record andb member mbind option_bind]. rewrite Hrec, Hmrec. cbn [andb].
  by rewrite E1, E2, E3, E4, Hid.
Qed.

(** Every answer the contract allows is understood. Whatever operation is answered, with
    whatever status its contract declares: if the payload has the type declared for that
    status, the client settles the request with the payload when the status is a success,
    and its data then has the type the operation declares; otherwise it rejects it with an
    error that has the status, and the code, the message, the retry advice, the details and
    the request id that the payload carries. No such answer is taken for a broken one, and
    only a status of 401 ends the session. *)
Theorem answers_understood {H} (auth : ApiAuth H) op status name r
  (Hop : op ∈ all_operations) (Hanswer : (status, name) ∈ op_responses op) (Hstatus : resp_status r = status) (Hvalid : valid name (resp_payload r) = true) :
  if success status then
    settle auth (FetchOk r) = (inl (resp_payload r), None) ∧
    ∃ type data, envelope_of name = Some type ∧ prop (u! "data") (resp_payload r) = Some data ∧ conforms DEPTH type data = true
  else
    ∃ e env, settle auth (FetchOk r) = (inr (RApi e), if status =? 401 then unauthorizedHandler auth else None) ∧
      isErrorEnvelope (resp_payload r) = Some env ∧ err_status e = status ∧ err_code e = env_code env ∧ err_message e = env_message env ∧
      err_retryable e = env_retryable env ∧ err_details e = env_details env ∧ err_requestId e = Some (env_requestId env) ∧
      forallb (conforms DEPTH (ref "ErrorDetail")) (env_details env) = true.
Proof.
  pose proof (answers_shaped op (status, name) Hop Hanswer) as Hs. unfold answer_shape in Hs. cbn [fst snd] in Hs.
  assert (resp_ok r = success status) as Hok by (unfold resp_ok, success; by rewrite Hstatus).
  unfold settle. rewrite Hok. destruct (success status) eqn:Es; cbn [negb].
  - destruct (envelope_of name) as [type|] eqn:He; [|done]. destruct (envelope_read name type (resp_payload r) He Hs Hvalid) as (Hsucc & data & Hd & Hc).
    rewrite Hsucc. split; [done|]. by exists type, data.
  - apply bool_decide_eq_true in Hs as ->. destruct (error_read (resp_payload r) Hvalid) as (env & Henv & Hd).
    exists (response_error r), env. rewrite Hstatus. split; [done|]. split; [done|]. unfold response_error. rewrite Henv. by rewrite Hstatus.
Qed.

(** ** Examples *)

Definition sample_envelope : ErrorEnvelope := mkErrorEnvelope (u! "NOT_FOUND") (u! "No such alert.") false [] (u! "req_1").
Definition sample_response : Response := mkResponse 404 [] (stringify (error_json sample_envelope)).

Lemma answers_understood_witness :
  ∃ e, settle (mkApiAuth None (Some tt)) (FetchOk sample_response) = (inr (RApi e), None) ∧ err_code e = u! "NOT_FOUND" ∧ err_requestId e = Some (u! "req_1").
Proof.
  destruct (answers_understood (mkApiAuth None (Some tt)) op_alertsUpdateStatus 404 (u! "ErrorEnvelope") sample_response) as (e & env & H1 & H2 & _ & H4 & _ & _ & _ & H8 & _).
  - apply (list_elem_of_lookup_2 _ 2). reflexivity.
  - vm_compute. do 4 right. left.
  - reflexivity.
  - vm_compute. reflexivity.
  - exists e. assert (env = sample_envelope) as -> by (vm_compute in H2; by injection H2). by rewrite H1, H4, H8.
Defined.
