(* ===== verification/IntelligenceView.v ===== *)
(** * What the intelligence page shows

    Models the panels of frontend/src/pages/IntelligencePage.tsx over the state of
    Intelligence.v: the topology workspace (stage, inspector, evidence table, enlarged
    dialog), the correlation workspace (search form, suggestions, result, inspector,
    table), and the MITRE and signal panels. *)

From S2P Require Import Prelude JsNumber JsDate Url Contracts ApiClient UrlState Topology ListPages Intelligence Graphs I18n.

#[local] Open Scope list_scope.
#[local] Open Scope Z_scope.

(** ** The topology *)

(** What the inspector describes, with its links. *)
Inductive TopologyInspection :=
| InspectGroup (group : TopologyEdgeGroup) (events alerts : ustring)
| InspectEdge (edge : TopologyEdgeDto) (events alerts : ustring)
| InspectEndpoint (found : TopologyNodeDto) (link : ustring)
| InspectTarget (target : ustring) (root : bool) (relationships : Z) (hosts : list ustring)
    (toggle : option (ustring * bool))
| InspectNothing.

Record EvidenceRow := mkEvidenceRow { row_edge : TopologyEdgeDto; row_marked : bool; row_events : ustring; row_alerts : ustring }.

Section topology.
Context `{DateHost}.

(** The edges a target's inspector counts. *)
Definition touches_target (domainGroup : option TopologyDomainGroup) (root : bool) (id : ustring) (item : TopologyEdgeDto) : bool :=
  match domainGroup with
  | Some g =>
    if root then bool_decide (te_target item = dg_domain g) || str_in (te_target item) (dg_targets g)
    else bool_decide (targetNodeId (te_target item) = id)
  | None => bool_decide (targetNodeId (te_target item) = id)
  end.

Definition inspect_target (domainGroups : list TopologyDomainGroup) (expandedDomains : list ustring)
  (topology : EgressTopologyDto) (id : ustring) : TopologyInspection :=
  let target := drop 7 id in
  let domainGroup := js_find (λ g, bool_decide (dg_domain g = target) || str_in target (dg_targets g)) domainGroups in
  let root := match domainGroup with Some g => bool_decide (dg_domain g = target) | None => false end in
  InspectTarget target root (Z.of_nat (length (js_filter (touches_target domainGroup root id) (topo_edges topology))))
    (match domainGroup with Some g => if root then dg_targets g else [] | None => [] end)
    ((λ g, (dg_domain g, bool_decide (dg_domain g ∈ expandedDomains))) <$> domainGroup).

(** [None]: an identifier that cannot be encoded throws. *)
Definition TopologyInspector (domainGroups : list TopologyDomainGroup) (evidenceTopology : EgressTopologyDto)
  (expandedDomains : list ustring) (topology : EgressTopologyDto) (selection : option TopologySelection) :
  option TopologyInspection :=
  edgeGroup ← selectedTopologyEdgeGroup topology selection;
  Some
    match edgeGroup, selectedTopologyEdge evidenceTopology selection, selection with
    | Some group, _, _ =>
      InspectGroup group (evidenceListUrl (u! "events") (g_endpointId group) topology)
        (evidenceListUrl (u! "alerts") (g_endpointId group) topology)
    | None, Some edge, _ =>
      InspectEdge edge (evidenceListUrl (u! "events") (te_endpointId edge) topology)
        (evidenceListUrl (u! "alerts") (te_endpointId edge) topology)
    | None, None, Some (TNode id) =>
      match js_find (λ node, bool_decide (endpointNodeId (tn_endpointId node) = id)) (topo_nodes topology) with
      | Some found => InspectEndpoint found (u! "/endpoints/" ++ string_of_Z (tn_endpointId found))
      | None =>
        if starts_with (u! "target:") id then inspect_target domainGroups expandedDomains topology id else InspectNothing
      end
    | _, _, _ => InspectNothing
    end.

Definition TopologyEvidenceTable (domainGroups : list TopologyDomainGroup) (graphTopology topology : EgressTopologyDto)
  (selection : option TopologySelection) : option (list EvidenceRow) :=
  mapM (λ edge,
    marked ← row_selected domainGroups graphTopology selection edge;
    Some (mkEvidenceRow edge marked (evidenceListUrl (u! "events") (te_endpointId edge) topology)
            (evidenceListUrl (u! "alerts") (te_endpointId edge) topology))) (topo_edges topology).

(** The button of a row. *)
Definition select_row (edge : TopologyEdgeDto) : TopologySelection :=
  TEdge (topologyEdgeId (te_endpointId edge) (te_target edge) (te_protocol edge)).

(** A stage: the drawn topology, or the notice that drawing is disabled, beside the inspector. *)
Record TopologyStage := mkTopologyStage {
  stage_drawn : option EgressTopologyDto; stage_expandable : bool; stage_inspector : TopologyInspection;
}.
Inductive TopologyPanel :=
| NoRelationships | NoFilteredRelationships
| TopologyShown (stage : TopologyStage) (dialog : option TopologyStage) (table : list EvidenceRow).

Context `{LocaleHost} (getDomain : ustring → option ustring).

Definition topology_panel (graphEnabled : bool) (ws : TopologyWorkspace) (topology : EgressTopologyDto) : option TopologyPanel :=
  match topo_edges topology, topo_edges (filtered ws topology) with
  | [], _ => Some NoRelationships
  | _, [] => Some NoFilteredRelationships
  | _, _ =>
    let view := domainView getDomain ws topology in
    inspector ← TopologyInspector (dv_groups view) (filtered ws topology) (expandedDomains ws) (dv_topology view) (selection ws);
    table ← TopologyEvidenceTable (dv_groups view) (dv_topology view) (filtered ws topology) (selection ws);
    let stage expandable := mkTopologyStage (if graphEnabled then Some (dv_topology view) else None) expandable inspector in
    Some (TopologyShown (stage true) (if expanded ws then Some (stage false) else None) table)
  end.
End topology.

(** ** The correlation *)

(** The form: the draft starts as the page's value, and again whenever that changes. *)
Record CorrelationForm := mkForm { form_value : ustring; form_draft : ustring }.
Definition form_mount (value : ustring) : CorrelationForm := mkForm value value.
Inductive FormEvent := Draft (text : ustring) | Submit | Suggest (suggestion : ustring).

(** What the page is asked to look up. *)
Definition form_step (form : CorrelationForm) (ev : FormEvent) : CorrelationForm * option ustring :=
  match ev with
  | Draft text => (mkForm (form_value form) text, None)
  | Submit =>
    (* the button is disabled, and with it the form's implicit submission *)
    if truthy (trim (form_draft form)) then (form, Some (trim (form_draft form))) else (form, None)
  | Suggest suggestion => (mkForm (form_value form) suggestion, Some suggestion)
  end.

(** The page's parameters, the form under its key, and the lookups repeated so far. *)
Record CorrelationSearch := mkSearch { cs_params : URLSearchParams; cs_form : CorrelationForm; cs_refetches : nat }.
Definition search_mount (params : URLSearchParams) : CorrelationSearch :=
  mkSearch params (form_mount (correlationValue params)) 0.
Definition search_step (st : CorrelationSearch) (ev : FormEvent) : CorrelationSearch :=
  let '(form, asked) := form_step (cs_form st) ev in
  match asked with
  | None => mkSearch (cs_params st) form (cs_refetches st)
  | Some value =>
    match onSearch (cs_params st) value with
    | Refetch => mkSearch (cs_params st) form (S (cs_refetches st))
    | SetParams params =>
      mkSearch params (if bool_decide (correlationValue params = form_value form) then form
                       else form_mount (correlationValue params)) (cs_refetches st)
    end
  end.

(** Three observed domains and three addresses, each once. *)
Definition correlation_suggestions (topDomains topRemoteIps : list ustring) : list ustring :=
  js_unique (take 3 topDomains ++ take 3 topRemoteIps).

Inductive CorrelationPart :=
| SuggestionsPart (suggestions : list ustring) | ReadyPart | LoadingPart | FailedPart (error : Rejection) | StalePart
| ResultPart (correlation : CorrelationDto).

Definition correlation_parts (value : ustring) (query : QueryResult CorrelationDto) (suggestions : list ustring) :
  list CorrelationPart :=
  (match suggestions with [] => [] | _ => [SuggestionsPart (js_unique suggestions)] end)
  ++ (if truthy value then [] else [ReadyPart])
  ++ (if truthy value && q_pending query then [LoadingPart] else [])
  ++ (match q_error query, q_data query with Some e, None => if truthy value then [FailedPart e] else [] | _, _ => [] end)
  ++ (match q_data query with Some data => (if q_refetchError query then [StalePart] else []) ++ [ResultPart data] | None => [] end).

Inductive CorrelationInspection :=
| InspectRelationship (edge : CorrelationRelationshipDto)
| InspectValue (value : ustring) (type : CorrelationValueType) (sources : list CorrelationSource) (input : bool) (relationships : Z)
| InspectNoValue.

Definition touches_node (id : ustring) (edge : CorrelationRelationshipDto) : bool :=
  bool_decide (correlationNodeId (cr_sourceType edge) (cr_sourceValue edge) = id)
  || bool_decide (correlationNodeId (cr_targetType edge) (cr_targetValue edge) = id).

Definition CorrelationInspector (correlation : CorrelationDto) (selection : option CorrelationSelection) : CorrelationInspection :=
  match selectedCorrelationRelationship correlation selection, selection with
  | Some edge, _ => InspectRelationship edge
  | None, Some (CNode id) =>
    let relationships := Z.of_nat (length (js_filter (touches_node id) (corr_relationships correlation))) in
    match js_find (λ item, bool_decide (correlationNodeId (rv_valueType item) (rv_value item) = id)) (corr_related correlation) with
    | Some node =>
      InspectValue (rv_value node) (rv_valueType node) (rv_sources node) (match rv_sources node with [] => true | _ => false end)
        relationships
    | None =>
      if bool_decide (correlationNodeId (corr_inputType correlation) (corr_inputValue correlation) = id)
      then InspectValue (corr_inputValue correlation) (corr_inputType correlation) [] true relationships else InspectNoValue
    end
  | _, _ => InspectNoValue
  end.

Definition CorrelationEvidenceTable (correlation : CorrelationDto) (selection : option CorrelationSelection) :
  list (CorrelationRelationshipDto * bool) :=
  map (λ edge, (edge, match selection with Some (CEdge id) => bool_decide (id = correlationEdgeId edge) | _ => false end))
    (corr_relationships correlation).

(** The stages draw ten relationships, and twenty when enlarged, and say how many there are. *)
Definition scope_label (correlation : CorrelationDto) (relationshipLimit : Z) : option (Z * Z) :=
  let total := Z.of_nat (length (corr_relationships correlation)) in
  if relationshipLimit <? total then Some (relationshipLimit, total) else None.

Record CorrelationResult := mkResult {
  res_inline : list CorrelationRelationshipDto; res_inline_scope : option (Z * Z);
  res_dialog : option (list CorrelationRelationshipDto * option (Z * Z));
  res_inspector : CorrelationInspection; res_table : list (CorrelationRelationshipDto * bool);
}.
Definition correlation_result (correlation : CorrelationDto) (expanded : bool) (selection : option CorrelationSelection) :
  option CorrelationResult :=
  match corr_relationships correlation with
  | [] => None
  | _ => Some (mkResult
      (correlationGraphRelationships correlation CORRELATION_INLINE_RELATIONSHIP_LIMIT)
      (scope_label correlation CORRELATION_INLINE_RELATIONSHIP_LIMIT)
      (if expanded then Some (correlationGraphRelationships correlation CORRELATION_GRAPH_RELATIONSHIP_LIMIT,
                              scope_label correlation CORRELATION_GRAPH_RELATIONSHIP_LIMIT) else None)
      (CorrelationInspector correlation selection) (CorrelationEvidenceTable correlation selection))
  end.

(** ** MITRE mappings and signals *)

Inductive MitreType := TACTIC | TECHNIQUE.
#[export] Instance MitreType_eq_dec : EqDecision MitreType.
Proof. solve_decision. Defined.
Record MitreSelection := mkMitre { ms_type : MitreType; ms_code : ustring; ms_name : ustring; ms_count : Z }.

(** A row of mitreTactics or mitreTechniques. *)
Record MitreCountDto := mkMitreCount { mc_code : ustring; mc_name : ustring; mc_count : Z }.
Record TopRuleDto := mkTopRule { tr_count : Z; tr_ruleCode : ustring; tr_ruleName : ustring }.
(** What the panels read of a DashboardSummaryDto. *)
Record IntelligenceDashboard := mkIntelligenceDashboard {
  id_mitreTactics : list MitreCountDto; id_mitreTechniques : list MitreCountDto; id_topRules : list TopRuleDto;
  id_topDomains : list (ustring * Z); id_topRemoteIps : list (ustring * Z); id_topProcesses : list (ustring * Z);
  id_from : ustring; id_to : ustring;
}.

Definition mitre_rows (type : MitreType) (rows : list MitreCountDto) : list MitreSelection :=
  map (λ row, mkMitre type (mc_code row) (mc_name row) (mc_count row)) (take 10 rows).

Definition mitre_pressed (selection : option MitreSelection) (row : MitreSelection) : bool :=
  match selection with
  | Some s => bool_decide (ms_type s = ms_type row) && bool_decide (ms_code s = ms_code row)
  | None => false
  end.
(** The buttons of a group; an empty group says so. *)
Definition MitreGroup (rows : list MitreSelection) (selection : option MitreSelection) : list (MitreSelection * bool) :=
  map (λ row, (row, mitre_pressed selection row)) rows.

Inductive TopTab := RULES | SIGNALS.
Record MitreState := mkMitreState { mitre_selection : option MitreSelection; topTab : TopTab }.
Definition mitre_mount : MitreState := mkMitreState None RULES.
(** A click on the button at [index] of a group of the dashboard on screen, or on a tab. *)
Inductive MitreEvent := ClickMitre (type : MitreType) (index : nat) | ClickTab (tab : TopTab).
Definition group_rows (dashboard : IntelligenceDashboard) (type : MitreType) : list MitreSelection :=
  match type with
  | TACTIC => mitre_rows TACTIC (id_mitreTactics dashboard)
  | TECHNIQUE => mitre_rows TECHNIQUE (id_mitreTechniques dashboard)
  end.
Definition mitre_step (dashboard : IntelligenceDashboard) (st : MitreState) (ev : MitreEvent) : MitreState :=
  match ev with
  | ClickMitre type index =>
    match group_rows dashboard type !! index with Some row => mkMitreState (Some row) (topTab st) | None => st end
  | ClickTab tab => mkMitreState (mitre_selection st) tab
  end.

Section mitre.
Variable detectionRuleName : ustring → option ustring → option ustring.

Record MitreView := mkMitreView {
  mv_tactics : list (MitreSelection * bool); mv_techniques : list (MitreSelection * bool);
  mv_inspector : option (MitreSelection * (ustring * ustring));
  mv_fallback : list MitreSelection;
  mv_bars : option (list (ustring * Z));
}.

(** [None] in the bars: a rule name that throws. *)
Definition MitreAndSignals (dashboard : IntelligenceDashboard) (st : MitreState) : MitreView :=
  mkMitreView (MitreGroup (group_rows dashboard TACTIC) (mitre_selection st))
    (MitreGroup (group_rows dashboard TECHNIQUE) (mitre_selection st))
    ((λ s, (s, (id_from dashboard, id_to dashboard))) <$> mitre_selection st)
    (group_rows dashboard TACTIC ++ group_rows dashboard TECHNIQUE)
    (match topTab st with
     | RULES => mapM (λ row, name ← detectionRuleName (tr_ruleName row) (Some (tr_ruleCode row));
                             Some (tr_ruleCode row ++ u! " · " ++ name, tr_count row)) (take 10 (id_topRules dashboard))
     | SIGNALS => Some (signal_rows (id_topDomains dashboard) (id_topRemoteIps dashboard) (id_topProcesses dashboard))
     end).
End mitre.

(** ** The content *)

(** The figures of the rail. *)
Definition summary_rail (dashboard : option IntelligenceDashboard) (topology : option EgressTopologyDto) : list (ustring * Z) :=
  match dashboard with
  | Some d => [(u! "intelligence.mitreTactics", Z.of_nat (length (id_mitreTactics d)));
               (u! "intelligence.mitreTechniques", Z.of_nat (length (id_mitreTechniques d)))]
  | None => []
  end ++
  match topology with
  | Some topo => [(u! "intelligence.topologyNodes", Z.of_nat (length (topo_nodes topo)));
                  (u! "intelligence.egressEdges", Z.of_nat (length (topo_edges topo)))]
  | None => []
  end.

(** ** Counting what the view draws *)

(** The edges between an endpoint and a target. *)
Definition between (endpoint : Z) (target : ustring) (e : TopologyEdgeDto) : bool :=
  bool_decide (te_endpointId e = endpoint) && bool_decide (te_target e = target).
Definition weigh (f : TopologyEdgeDto → Z) (p : TopologyEdgeDto → bool) (e : TopologyEdgeDto) : Z := if p e then f e else 0.

Lemma between_true endpoint target e : between endpoint target e = true ↔ te_endpointId e = endpoint ∧ te_target e = target.
Proof. unfold between. by rewrite andb_true_iff, !bool_decide_eq_true. Qed.

Lemma sum_weigh f p l : sumZ (weigh f p <$> l) = sumZ (f <$> js_filter p l).
Proof. induction l as [|e l IH]; [done|]. rewrite js_filter_cons. csimpl. unfold weigh at 1. rewrite IH. by destruct (p e). Qed.

(** Identifiers of edges tell them apart when protocols hold no bar. *)
Lemma edge_id_inj e1 t1 p1 e2 t2 p2 :
  124 ∉ p1 → 124 ∉ p2 → topologyEdgeId e1 t1 p1 = topologyEdgeId e2 t2 p2 → e1 = e2 ∧ t1 = t2 ∧ p1 = p2.
Proof.
  intros H1 H2 E. change (string_of_Z e1 ++ 124 :: (t1 ++ 124 :: p1) = string_of_Z e2 ++ 124 :: (t2 ++ 124 :: p2)) in E.
  apply split_first in E as [E1 E2]; [|by apply string_of_Z_free..]. apply split_last in E2 as [-> ->]; [|done..].
  by apply (inj string_of_Z) in E1 as ->.
Qed.

(** Each edge of the view carries the weight of the edges drawn there. *)
Section weights.
Context `{DateHost} `{LocaleHost} (byTarget : list (ustring * ustring)) (expanded : list ustring) (E : Z) (T : ustring).
#[local] Abbreviation draw := (view_target byTarget expanded).
#[local] Abbreviation placed e := ((te_endpointId e =? E) && bool_decide (draw (te_target e) = T)).

Lemma view_weight (f : TopologyEdgeDto → Z) edges :
  (∀ t e, f (with_target t e) = f e) → (∀ a b, f (merge_edge a b) = f a + f b) →
  Forall (λ e, 124 ∉ te_protocol e) edges →
  let m := foldl (view_step byTarget expanded) [] edges in
  Forall (λ kv, edge_id kv.2 = kv.1 ∧ 124 ∉ te_protocol kv.2) m ∧
  sumZ (weigh f (between E T) <$> m.*2) = sumZ (f <$> js_filter (λ e, placed e) edges).
Proof.
  intros Hw Hm. induction edges as [|e edges IH] using rev_ind; intros Hp; [done|].
  apply Forall_app in Hp as [Hp He]. apply Forall_cons in He as [He _]. destruct (IH Hp) as [Hok Hsum]. cbv zeta. rewrite foldl_snoc.
  set (m := foldl _ [] edges) in *. unfold view_step. set (id := topologyEdgeId _ _ _).
  assert (∀ v, edge_id v = id → 124 ∉ te_protocol v → weigh f (between E T) v = if placed e then f v else 0) as Hid.
  { intros v Hv Hpv. destruct (edge_id_inj _ _ _ _ _ _ Hpv He Hv) as (H1 & H2 & _). unfold weigh, between. rewrite H1, H2.
    replace (te_endpointId e =? E) with (bool_decide (te_endpointId e = E)); [done|]. by case_bool_decide; symmetry; [apply Z.eqb_eq|apply Z.eqb_neq]. }
  unfold js_filter. rewrite List.filter_app, fmap_app, sumZ_app. fold (js_filter (λ e, placed e) edges). rewrite <- Hsum.
  cbn [List.filter]. rewrite Forall_forall in Hok.
  destruct (map_get id m) as [current|] eqn:Hg.
  - destruct (Hok _ (map_get_Some_elem _ _ _ Hg)) as [Hc Hcp]. cbn in Hc, Hcp. split.
    + apply Forall_forall. intros kv [->|Hin]%map_set_elem; [done|by apply Hok].
    + rewrite sum_map_set, Hg, !Hid by done. destruct (placed e); csimpl; rewrite ?Hm; lia.
  - split.
    + apply Forall_forall. intros kv [->|Hin]%map_set_elem; [done|by apply Hok].
    + rewrite sum_map_set, Hg, Hid by done. destruct (placed e); csimpl; rewrite ?Hw; lia.
Qed.
End weights.

(** ** The group of a drawn edge *)

Section group.
Context `{DateHost}.

Lemma js_filter_perm {A} (p : A → bool) l l' : l ≡ₚ l' → js_filter p l ≡ₚ js_filter p l'.
Proof.
  induction 1 as [|x l l' _ IH|x y l|l1 l2 l3 _ IH1 _ IH2]; rewrite ?js_filter_cons; [done| | |by rewrite IH1].
  - destruct (p x); by rewrite IH.
  - destruct (p x), (p y); try done. apply Permutation_swap.
Qed.

Lemma group_filter_other g g' endpoint target :
  group_ok g' → topologyEdgeGroupId endpoint target = Some (g_id g) → g_id g' ≠ g_id g →
  js_filter (between endpoint target) (g_edges g') = [].
Proof.
  intros Hok Hid Hne. destruct (js_filter _ _) as [|e l] eqn:Ef; [done|]. exfalso.
  assert (e ∈ js_filter (between endpoint target) (g_edges g')) as [He Hb]%js_filter_elem by (rewrite Ef; by left).
  apply between_true in Hb as [<- <-]. pose proof (go_edges _ Hok) as Hed. rewrite Forall_forall in Hed.
  destruct (Hed e He) as [E1 E2]. rewrite E1, E2, (go_id _ Hok) in Hid. by injection Hid.
Qed.

Lemma group_filter_own g : group_ok g → js_filter (between (g_endpointId g) (g_target g)) (g_edges g) = g_edges g.
Proof. intros Hok. apply js_filter_all. intros e He. pose proof (go_edges _ Hok) as Hed. rewrite Forall_forall in Hed. apply between_true, Hed, He. Qed.

Lemma group_collects groups id g :
  NoDup groups.*1 → Forall (λ kv, g_id kv.2 = kv.1) groups → Forall (λ kv, group_ok kv.2) groups → (id, g) ∈ groups →
  js_filter (between (g_endpointId g) (g_target g)) (edges_of groups) = g_edges g.
Proof.
  intros Hnd Hids Hok Hin. pose proof Hok as Hok'. rewrite Forall_forall in Hok', Hids. pose proof (Hok' _ Hin) as Hg. cbn in Hg.
  pose proof (Hids _ Hin) as Hgid. cbn in Hgid.
  assert (∀ l, (∀ kv, kv ∈ l → kv ∈ groups) → id ∉ l.*1 → js_filter (between (g_endpointId g) (g_target g)) (edges_of l) = []) as Hother.
  { induction l as [|kv l IH]; intros Hl Hni; [done|]. apply not_elem_of_cons in Hni as [Hne Hni].
    unfold edges_of. cbn [flat_map]. rewrite js_filter_app. fold (edges_of l). rewrite IH; [|intros x Hx; apply Hl; by right|done].
    rewrite (group_filter_other g); [done|apply Hok', Hl; by left|by apply go_id|].
    rewrite (Hids kv), Hgid by (apply Hl; by left). done. }
  clear Hids Hok. revert Hnd Hin Hother Hok'. induction groups as [|kv groups IH]; intros Hnd Hin Hother Hok; [by apply elem_of_nil in Hin|].
  cbn in Hnd. apply NoDup_cons in Hnd as [Hni Hnd]. unfold edges_of. cbn [flat_map]. rewrite js_filter_app.
  fold (edges_of groups).
  apply elem_of_cons in Hin as [<-|Hin].
  - rewrite Hother; [|intros x Hx; by right|done]. cbn [snd]. by rewrite group_filter_own, app_nil_r.
  - rewrite IH; [|done|done|intros l Hl; apply Hother; intros x Hx; right; by apply Hl|intros x Hx; apply Hok; by right].
    assert (kv.1 ≠ id) as Hne by (intros <-; apply Hni; by apply (list_elem_of_fmap_2 fst) in Hin).
    specialize (Hother [kv] ltac:(intros x ->%list_elem_of_singleton; by left) ltac:(by intros ?%list_elem_of_singleton)).
    unfold edges_of in Hother. cbn [flat_map] in Hother. rewrite app_nil_r in Hother. by rewrite Hother.
Qed.

(** What a selected group counts: the edges between its endpoint and its target. *)
Lemma selected_group_counts topology id group :
  Forall (λ e, well_formed (te_target e)) (topo_edges topology) →
  selectedTopologyEdgeGroup topology (Some (TEdgeGroup id)) = Some (Some group) →
  let own := js_filter (between (g_endpointId group) (g_target group)) (topo_edges topology) in
  g_eventCount group = sumZ (te_eventCount <$> own) ∧ g_alertCount group = sumZ (te_alertCount <$> own) ∧
  (∀ p, p ∈ g_protocols group ↔ p ∈ te_protocol <$> own).
Proof.
  intros Hwf. cbn [selectedTopologyEdgeGroup]. unfold groupTopologyEdges.
  destruct (group_loop _ Hwf) as (groups & -> & [Hnd Hids Hok Hperm]). cbn [mbind option_bind]. intros [= Hf].
  apply js_find_Some in Hf as [Hin _]. apply list_elem_of_In, in_map_iff in Hin as (g & <- & Hg%list_elem_of_In).
  apply list_elem_of_fmap in Hg as ([k g'] & -> & Hkv). cbn [snd]. pose proof Hok as Hok'. rewrite Forall_forall in Hok'.
  pose proof (sort_protocols_ok _ (Hok' _ Hkv)) as [_ _ Hp He Ha _]. cbn [snd] in Hp, He, Ha.
  pose proof (group_collects groups k g' Hnd Hids Hok Hkv) as Hc.
  assert (js_filter (between (g_endpointId g') (g_target g')) (topo_edges topology) ≡ₚ g_edges g') as Hown.
  { rewrite <- Hc. apply js_filter_perm. by rewrite Hperm. }
  cbv zeta. cbn [g_endpointId g_target sort_protocols] in *. split_and!.
  - by rewrite He, Hown.
  - by rewrite Ha, Hown.
  - intros p. by rewrite Hp, js_unique_elem, Hown.
Qed.
End group.

(** ** Claims: the topology *)

Definition knows_domains (getDomain : ustring → option ustring) : Prop :=
  ∀ t d, domain_of getDomain t = Some d → domain_of getDomain d = Some d ∧ well_formed d.
Definition edges_wf (topology : EgressTopologyDto) : Prop :=
  Forall (λ e, well_formed (te_target e)) (topo_edges topology) ∧ Forall (λ e, 124 ∉ te_protocol e) (topo_edges topology).

Section totals.
Context `{DateHost} `{LocaleHost} (getDomain : ustring → option ustring) (normal : knows_domains getDomain).
Context (topology : EgressTopologyDto) (wf : edges_wf topology) (expanded : list ustring).
#[local] Abbreviation view := (buildTopologyDomainView getDomain topology expanded).

Definition drawn_between (endpoint : Z) (target : ustring) (e : TopologyEdgeDto) : bool :=
  (te_endpointId e =? endpoint) && bool_decide (drawn_at getDomain (topo_edges topology) expanded (te_target e) = target).

Lemma view_counts f endpoint target :
  (∀ t e, f (with_target t e) = f e) → (∀ a b, f (merge_edge a b) = f a + f b) →
  sumZ (f <$> js_filter (between endpoint target) (topo_edges (dv_topology view))) =
  sumZ (f <$> js_filter (drawn_between endpoint target) (topo_edges topology)).
Proof.
  intros Hw Hm. destruct (view_weight (group_by_target (domain_groups getDomain (topo_edges topology))) expanded endpoint target f
    (topo_edges topology) Hw Hm (proj2 wf)) as [_ Hs].
  rewrite <- sum_weigh. etrans; [|exact Hs]. apply sumZ_perm, fmap_Permutation.
  unfold buildTopologyDomainView. cbn [dv_topology topo_edges]. apply js_sort_perm.
Qed.

Lemma view_protocols endpoint target p :
  p ∈ te_protocol <$> js_filter (between endpoint target) (topo_edges (dv_topology view)) ↔
  p ∈ te_protocol <$> js_filter (drawn_between endpoint target) (topo_edges topology).
Proof.
  set (byTarget := group_by_target (domain_groups getDomain (topo_edges topology))).
  destruct (view_weight byTarget expanded endpoint target (λ _, 0) (topo_edges topology) ltac:(done) ltac:(done) (proj2 wf)) as [Hok _].
  destruct (view_loop getDomain byTarget expanded (topo_edges topology)) as [_ _ Hkeys _ _].
  set (m := foldl (view_step byTarget expanded) [] (topo_edges topology)) in *.
  assert (topo_edges (dv_topology view) ≡ₚ m.*2) as Hp by apply js_sort_perm. rewrite Forall_forall in Hok.
  pose proof (proj2 wf) as Hbar. rewrite Forall_forall in Hbar. rewrite !list_elem_of_fmap. split.
  - intros (e & -> & [He [<- <-]%between_true]%js_filter_elem). rewrite Hp in He. apply list_elem_of_fmap in He as (kv & -> & Hkv).
    destruct (Hok _ Hkv) as [Hid Hpr].
    assert (kv.1 ∈ m.*1) as (o' & Ho & Hin)%Hkeys%list_elem_of_fmap by by apply list_elem_of_fmap_2.
    apply list_elem_of_fmap in Hin as (o & -> & Hin). rewrite <- Hid in Ho.
    destruct (edge_id_inj _ _ _ _ _ _ Hpr (Hbar o Hin) Ho) as (E1 & E2 & E3). exists o. split; [done|].
    apply js_filter_elem. split; [done|]. unfold drawn_between. rewrite E1, E2. by rewrite Z.eqb_refl, bool_decide_true.
  - intros (o & -> & [Ho Hd]%js_filter_elem). unfold drawn_between in Hd. apply andb_true_iff in Hd as [E1%Z.eqb_eq E2%bool_decide_eq_true].
    assert (edge_id (view_edge byTarget expanded o) ∈ m.*1) as Hin
      by (apply Hkeys; by do 2 apply list_elem_of_fmap_2).
    apply list_elem_of_fmap in Hin as (kv & Hk & Hkv). destruct (Hok _ Hkv) as [Hid Hpr]. rewrite <- Hid in Hk.
    destruct (edge_id_inj _ _ _ _ _ _ (Hbar o Ho) Hpr Hk) as (F1 & F2 & F3). exists kv.2. split; [done|].
    apply js_filter_elem. rewrite Hp. split; [by apply list_elem_of_fmap_2|]. apply between_true.
    split; [etrans; [symmetry; exact F1|exact E1]|etrans; [symmetry; exact F2|exact E2]].
Qed.
End totals.

Lemma mapM_total {A B} (f : A → option B) (g : A → B) l :
  (∀ x, x ∈ l → f x = Some (g x)) → mapM f l = Some (g <$> l).
Proof. intros Hf. apply mapM_Some. induction l as [|x l IH]; constructor; [apply Hf; by left|]. apply IH. intros y Hy. apply Hf. by right. Qed.

Lemma rows_of `{DateHost} topology marks groups graph selection :
  (∀ e, e ∈ topo_edges topology → row_selected groups graph selection e = Some (marks e)) →
  ∃ rows, TopologyEvidenceTable groups graph topology selection = Some rows ∧ map row_edge rows = topo_edges topology ∧
    map row_edge (js_filter row_marked rows) = js_filter marks (topo_edges topology).
Proof.
  intros Hm. set (row e := mkEvidenceRow e (marks e) (evidenceListUrl (u! "events") (te_endpointId e) topology)
    (evidenceListUrl (u! "alerts") (te_endpointId e) topology)).
  exists (map row (topo_edges topology)). split; [|split].
  - unfold TopologyEvidenceTable. apply mapM_total. intros e He. by rewrite (Hm e He).
  - rewrite map_map. apply map_id.
  - generalize (topo_edges topology). intros l. induction l as [|e l IH]; [done|]. cbn [map]. rewrite !js_filter_cons.
    cbn [row_marked row]. destruct (marks e); cbn [map row_edge]; by rewrite IH.
Qed.

(** Two connections of an endpoint whose identifiers are the same text, [1|a|b|c]. *)
Definition bar_link (target protocol : ustring) (events : Z) : TopologyEdgeDto :=
  mkTopologyEdgeDto 0 1 events (u! "2026-07-15T03:00:00Z") protocol (u! "host-1") target.
Definition sample_bars : EgressTopologyDto :=
  mkEgressTopologyDto [bar_link (u! "a|b") (u! "c") 5; bar_link (u! "a") (u! "b|c") 7] (u! "2026-07-15T00:00:00Z") []
    (u! "2026-07-16T00:00:00Z").

(** C32: The inspector and the evidence table of the topology agree: for a selected edge
    of the drawing, the inspector's event and alert counts are the sums over exactly
    the rows that the table marks, and its protocols are those of these rows, for
    any search result whose targets are whole texts and whose protocols have no
    vertical bar, any public-suffix lookup that knows its own answers and
    any expanded domains but the one the edge leads to. Both exceptions are real. An edge
    to a domain that is expanded and also a target of its own marks rows the inspector does
    not count. And a protocol with a vertical bar, which the contract allows, can give two
    connections the same identifier: the inspector then counts the events of both for the
    edge of one, 12 where the marked rows have 5. *)
Theorem inspector_agrees_with_table :
  (∀ `{DateHost} `{LocaleHost} getDomain topology expanded id group events alerts,
     knows_domains getDomain → edges_wf topology → g_target group ∉ expanded →
     let view := buildTopologyDomainView getDomain topology expanded in
     TopologyInspector (dv_groups view) topology expanded (dv_topology view) (Some (TEdgeGroup id)) =
       Some (InspectGroup group events alerts) →
     ∃ rows, TopologyEvidenceTable (dv_groups view) (dv_topology view) topology (Some (TEdgeGroup id)) = Some rows ∧
       map row_edge rows = topo_edges topology ∧
       let marked := map row_edge (js_filter row_marked rows) in
       g_eventCount group = sumZ (te_eventCount <$> marked) ∧ g_alertCount group = sumZ (te_alertCount <$> marked) ∧
       (∀ p, p ∈ g_protocols group ↔ p ∈ te_protocol <$> marked) ∧
       Forall (λ e, te_endpointId e = g_endpointId group) marked) ∧
  (let view := @buildTopologyDomainView utc_host unit_locale sample_getDomain sample_subdomains [u! "example.com"] in
   ∃ id group events alerts rows,
     @TopologyInspector utc_host (dv_groups view) sample_subdomains [u! "example.com"] (dv_topology view) (Some (TEdgeGroup id)) =
       Some (InspectGroup group events alerts) ∧
     @TopologyEvidenceTable utc_host (dv_groups view) (dv_topology view) sample_subdomains (Some (TEdgeGroup id)) = Some rows ∧
     g_eventCount group = 5 ∧ sumZ (te_eventCount <$> map row_edge (js_filter row_marked rows)) = 10) ∧
  (let view := @buildTopologyDomainView utc_host unit_locale sample_getDomain sample_bars [] in
   ∃ id group events alerts rows,
     @TopologyInspector utc_host (dv_groups view) sample_bars [] (dv_topology view) (Some (TEdgeGroup id)) =
       Some (InspectGroup group events alerts) ∧
     @TopologyEvidenceTable utc_host (dv_groups view) (dv_topology view) sample_bars (Some (TEdgeGroup id)) = Some rows ∧
     g_eventCount group = 12 ∧ sumZ (te_eventCount <$> map row_edge (js_filter row_marked rows)) = 5).
Proof.
  split; [|split].
  2:{ eexists (u! "topology-group:1:example.com"), _, _, _, _. split; [vm_compute; reflexivity|].
      split; [vm_compute; reflexivity|]. split; vm_compute; reflexivity. }
  2:{ eexists (u! "topology-group:1:a%7Cb"), _, _, _, _. split; [vm_compute; reflexivity|].
      split; [vm_compute; reflexivity|]. split; vm_compute; reflexivity. }
  intros ?? getDomain topology expanded id group events alerts Hnormal Hwf Hexp view Hi. unfold TopologyInspector in Hi.
  destruct (selectedTopologyEdgeGroup (dv_topology view) (Some (TEdgeGroup id))) as [sel|] eqn:Hsel; [|discriminate Hi].
  cbn [mbind option_bind selectedTopologyEdge] in Hi. destruct sel as [g|]; [|discriminate Hi]. injection Hi as -> _ _.
  destruct (rows_of topology (drawn_between getDomain topology expanded (g_endpointId group) (g_target group)) (dv_groups view)
    (dv_topology view) (Some (TEdgeGroup id))) as (rows & Hr & Hall & Hmarked).
  { intros e He. destruct (topology_rows_marked getDomain topology expanded id group e Hnormal (proj1 Hwf) Hsel Hexp He) as (marked & Hm & Hiff).
    etrans; [exact Hm|]. f_equal. apply eq_true_iff_eq. rewrite Hiff. unfold drawn_between. by rewrite andb_true_iff, Z.eqb_eq, bool_decide_eq_true. }
  exists rows. split; [done|]. split; [done|]. cbv zeta. rewrite Hmarked.
  destruct (selected_group_counts _ _ _ (view_edges_wf getDomain Hnormal topology expanded (proj1 Hwf)) Hsel) as (-> & -> & Hp).
  split_and!.
  - by apply view_counts.
  - by apply view_counts.
  - intros p. rewrite Hp. by apply view_protocols.
  - apply Forall_forall. intros e [_ Hd]%js_filter_elem. unfold drawn_between in Hd. by apply andb_true_iff in Hd as [?%Z.eqb_eq _].
Qed.

Lemma sample_domains_known : knows_domains sample_getDomain.
Proof.
  intros t d. unfold domain_of, registrableDomainForTarget, sample_getDomain. destruct (includes _ _); [|discriminate].
  intros Hd. assert (d = u! "example.com") as -> by (vm_compute in Hd; injection Hd as <-; vm_compute; reflexivity).
  split; [vm_compute; reflexivity|]. apply well_formed_ascii. by_compute.
Qed.

Lemma sample_subdomains_wf : edges_wf sample_subdomains.
Proof. split; repeat constructor; try (apply well_formed_ascii); by_compute. Qed.

(** The edge to a domain with two targets: its count is the sum of both rows. *)
Lemma inspector_agrees_with_table_witness :
  let view := @buildTopologyDomainView utc_host unit_locale sample_getDomain sample_subdomains [] in
  ∃ rows, @TopologyEvidenceTable utc_host (dv_groups view) (dv_topology view) sample_subdomains
    (Some (TEdgeGroup (u! "topology-group:1:example.com"))) = Some rows ∧
    sumZ (te_eventCount <$> map row_edge (js_filter row_marked rows)) = 10.
Proof.
  intros view.
  destruct (@TopologyInspector utc_host (dv_groups view) sample_subdomains [] (dv_topology view)
    (Some (TEdgeGroup (u! "topology-group:1:example.com")))) as [[group events alerts| | | |]|] eqn:E;
    [|vm_compute in E; discriminate E..].
  assert (g_eventCount group = 10) as Hc by (vm_compute in E; injection E as <- _ _; reflexivity).
  destruct (proj1 inspector_agrees_with_table utc_host unit_locale sample_getDomain sample_subdomains []
    (u! "topology-group:1:example.com") group events alerts sample_domains_known sample_subdomains_wf
    (not_elem_of_nil _) E) as (rows & Hr & _ & Hs & _).
  exists rows. split; [exact Hr|]. rewrite <- Hs. exact Hc.
Defined.

Lemma targetNodeId_drop target : drop 7 (targetNodeId target) = target.
Proof. reflexivity. Qed.

Lemma endpoint_not_target n target : endpointNodeId n ≠ targetNodeId target.
Proof. discriminate. Qed.

(** Every group leads to the target of an edge. *)
Lemma groups_targets `{DateHost} edges groups g :
  groupTopologyEdges edges = Some groups → g ∈ groups → g_target g ∈ te_target <$> edges.
Proof.
  unfold groupTopologyEdges. intros (gs & Hf & [= <-])%bind_Some Hg.
  assert (∀ l acc gs, foldM group_step acc l = Some gs → (∀ kv, kv ∈ acc → g_target kv.2 ∈ te_target <$> edges) →
    (∀ x, x ∈ l → x ∈ edges) → ∀ kv, kv ∈ gs → g_target kv.2 ∈ te_target <$> edges) as Hloop.
  { clear. induction l as [|x l IH]; intros acc gs Hfold Ha Hl; cbn in Hfold; [by injection Hfold as <-|].
    unfold group_step in Hfold. destruct (topologyEdgeGroupId _ _) as [id|]; [|done]. cbn in Hfold.
    apply (IH _ _ Hfold); [|intros y Hy; apply Hl; by right].
    intros kv Hkv. destruct (map_get id acc) as [current|] eqn:Eg; apply map_set_elem in Hkv as [->|Hkv]; auto; cbn.
    - by apply (Ha (id, current)), map_get_Some_elem.
    - apply list_elem_of_fmap_2, Hl. by left. }
  apply list_elem_of_In, in_map_iff in Hg as (g' & <- & Hg'%list_elem_of_In). apply list_elem_of_fmap in Hg' as (kv & -> & Hkv).
  apply (Hloop edges [] gs Hf); [intros kv' Hk; by apply not_elem_of_nil in Hk|done|done].
Qed.

Lemma inspect_target_counts groups expanded topology target :
  target ∈ te_target <$> topo_edges topology →
  ∃ root n hosts toggle, inspect_target groups expanded topology (targetNodeId target) = InspectTarget target root n hosts toggle ∧ 1 ≤ n.
Proof.
  intros Hin. unfold inspect_target. rewrite targetNodeId_drop. set (group := js_find _ groups). set (root := match group with Some _ => _ | None => _ end).
  do 4 eexists. split; [done|]. apply list_elem_of_fmap in Hin as (e & Ht & He).
  assert (e ∈ js_filter (touches_target group root (targetNodeId target)) (topo_edges topology)) as Hf.
  { apply js_filter_elem. split; [done|]. unfold touches_target. subst root. destruct group as [g|]; [|by apply bool_decide_eq_true; rewrite Ht].
    case_bool_decide as Hr; [|by apply bool_decide_eq_true; rewrite Ht]. apply orb_true_iff. left. apply bool_decide_eq_true. by rewrite Hr. }
  destruct (js_filter _ _) as [|x l]; [by apply elem_of_nil in Hf|]. cbn [length]. lia.
Qed.

(** Whatever is drawn or listed can be inspected: selecting a drawn edge shows that
    edge; selecting a drawn node shows the endpoint, or the target with a positive
    number of relationships; and the button of a row shows an edge with the row's
    identifier, which is the row's own edge when identifiers are distinct. *)
Theorem drawn_elements_inspected `{DateHost} domainGroups evidence expanded topology groups :
  groupTopologyEdges (topo_edges topology) = Some groups →
  let inspect selection := TopologyInspector domainGroups evidence expanded topology (Some selection) in
  (∀ g, g ∈ groups → ∃ events alerts, inspect (TEdgeGroup (g_id g)) = Some (InspectGroup g events alerts)) ∧
  (∀ id, id ∈ topology_node_ids (topo_nodes topology) groups → ∃ shown, inspect (TNode id) = Some shown ∧
     match shown with
     | InspectEndpoint node link => node ∈ topo_nodes topology ∧ endpointNodeId (tn_endpointId node) = id ∧
         link = u! "/endpoints/" ++ string_of_Z (tn_endpointId node)
     | InspectTarget target _ relationships _ _ => targetNodeId target = id ∧ 1 ≤ relationships
     | _ => False
     end) ∧
  (∀ e, e ∈ topo_edges evidence → ∃ e' events alerts,
     inspect (select_row e) = Some (InspectEdge e' events alerts) ∧ e' ∈ topo_edges evidence ∧ edge_id e' = edge_id e ∧
     (NoDup (edge_id <$> topo_edges evidence) → e' = e)).
Proof.
  intros Hg inspect. destruct (groups_from _ _ Hg) as [Hnd _]. split_and!.
  - intros g Hin. unfold inspect, TopologyInspector. cbn [selectedTopologyEdgeGroup]. rewrite Hg. cbn [mbind option_bind].
    rewrite (js_find_unique g_id groups g) by done. by eauto.
  - intros id Hid. unfold inspect, TopologyInspector. cbn [selectedTopologyEdgeGroup mbind option_bind selectedTopologyEdge].
    eexists. split; [done|]. destruct (js_find _ (topo_nodes topology)) as [node|] eqn:En.
    + apply js_find_Some in En as [Hin Hn]. apply bool_decide_eq_true in Hn. done.
    + apply topology_node_ids_spec in Hid as [Hid|Hid].
      * apply list_elem_of_In, in_map_iff in Hid as (n & <- & Hn%list_elem_of_In). rewrite js_find_None in En. specialize (En n Hn).
        by rewrite bool_decide_eq_false in En.
      * apply list_elem_of_In, in_map_iff in Hid as (g & <- & Hin%list_elem_of_In). cbn [compose].
        destruct (inspect_target_counts domainGroups expanded topology (g_target g)) as (root & n & hosts & toggle & -> & Hn); [|done].
        by apply (groups_targets _ _ _ Hg).
  - intros e He. unfold inspect, TopologyInspector, select_row. cbn [selectedTopologyEdgeGroup mbind option_bind selectedTopologyEdge].
    fold (edge_id e). destruct (js_find _ (topo_edges evidence)) as [e'|] eqn:Ef.
    + apply js_find_Some in Ef as [Hin Hid%bool_decide_eq_true]. fold (edge_id e') in Hid. eexists e', _, _. split_and!; [done..|].
      intros Hnd'. by apply (NoDup_fmap_inj_elem edge_id (topo_edges evidence)).
    + rewrite js_find_None in Ef. specialize (Ef e He). by rewrite bool_decide_eq_false in Ef.
Qed.

Lemma drawn_elements_inspected_witness :
  ∃ e events alerts,
    @TopologyInspector utc_host [] sample_subdomains [] sample_subdomains (Some (select_row (sample_link (u! "api.example.com")))) =
      Some (InspectEdge e events alerts) ∧ e = sample_link (u! "api.example.com").
Proof.
  destruct (@groupTopologyEdges utc_host (topo_edges sample_subdomains)) as [groups|] eqn:E; [|vm_compute in E; discriminate E].
  destruct (proj2 (proj2 (@drawn_elements_inspected utc_host [] sample_subdomains [] sample_subdomains groups E))
    (sample_link (u! "api.example.com"))) as (e & events & alerts & Hi & _ & _ & He).
  - apply list_elem_of_further, list_elem_of_here.
  - exists e, events, alerts. split; [exact Hi|]. apply He. by_compute.
Defined.

(** ** Claims: the correlation *)

(** The lookups of the form. A step never shows a draft next to another value's results:
    the form's value is the page's. *)
Definition search_ok (st : CorrelationSearch) : Prop := form_value (cs_form st) = correlationValue (cs_params st).

Lemma search_step_ok st ev : search_ok st → search_ok (search_step st ev).
Proof.
  unfold search_ok, search_step. intros Hok. assert (form_value (form_step (cs_form st) ev).1 = form_value (cs_form st)) as Hf
    by (destruct ev; cbn; [done|by case_match|done]).
  destruct (form_step (cs_form st) ev) as [form asked]. cbn [fst] in Hf. destruct asked as [value|]; cbn; [|congruence].
  destruct (onSearch _ _); cbn; [congruence|]. case_bool_decide; [congruence|done].
Qed.

Definition search_run (params : URLSearchParams) (events : list FormEvent) : CorrelationSearch :=
  foldl search_step (search_mount params) events.

Lemma search_run_ok params events : search_ok (search_run params events).
Proof.
  unfold search_run. induction events as [|ev events IH] using rev_ind; [done|]. rewrite foldl_snoc. by apply search_step_ok.
Qed.

Definition is_main (p : CorrelationPart) : bool := match p with SuggestionsPart _ | StalePart => false | _ => true end.

(** The correlation form and the page stay together: after any use of the form, its
    value is the page's; a submission of a draft that is not blank, and a click
    on a suggestion, leave the page looking for that value, trimmed, with the
    other filters kept, from the first page; the same value again is fetched
    again, and another one starts the form afresh with that value as its draft.
    A blank draft is not submitted. Exactly one of the prompt, the skeleton, the
    error and the result is shown, the prompt without a value. *)
Theorem correlation_search_spec :
  (∀ params events ev,
     let st := search_run params events in
     let st' := search_step st ev in
     form_value (cs_form st) = correlationValue (cs_params st) ∧
     match (form_step (cs_form st) ev).2 with
     | None => cs_params st' = cs_params st ∧ cs_refetches st' = cs_refetches st
     | Some value =>
       well_formed (trim value) →
       correlationValue (cs_params st') = trim value ∧
       (if truthy (trim value) && bool_decide (trim value = correlationValue (cs_params st))
        then cs_params st' = cs_params st ∧ cs_refetches st' = S (cs_refetches st)
        else params_get (cs_params st') (u! "page") = None ∧
          (∀ key, usv key ≠ u! "page" → usv key ≠ u! "value" → params_get (cs_params st') key = params_get (cs_params st) key) ∧
          (trim value ≠ correlationValue (cs_params st) → form_draft (cs_form st') = trim value))
     end) ∧
  (∀ form, (form_step form Submit).2 = if truthy (trim (form_draft form)) then Some (trim (form_draft form)) else None) ∧
  (∀ value query suggestions, (value = [] → query = QPending) →
     ∃ part, js_filter is_main (correlation_parts value query suggestions) = [part] ∧ (part = ReadyPart ↔ value = [])).
Proof.
  split_and!.
  - intros params events ev st st'. pose proof (search_run_ok params events) as Hok. fold st in Hok. split; [exact Hok|].
    unfold search_ok in Hok. subst st'. unfold search_step. destruct (form_step (cs_form st) ev) as [form asked] eqn:Ef. cbn [snd].
    assert (form_value form = form_value (cs_form st)) as Hf by (destruct ev; cbn in Ef; try case_match; by injection Ef as <- _).
    destruct asked as [value|]; [|done]. intros Hw. pose proof (onSearch_spec (cs_params st) value Hw) as Hs.
    unfold onSearch in *. destruct (_ && _) eqn:Ec.
    + cbn. destruct Hs as [_ Hs]. done.
    + cbn [cs_params cs_form cs_refetches]. destruct Hs as (Hv & Hp & Hk). split; [done|]. split_and!; [done..|].
      intros Hne. rewrite bool_decide_false; [by rewrite Hv|]. rewrite Hv, Hf, Hok. done.
  - intros form. cbn. by case_match.
  - intros value query suggestions Hv. unfold correlation_parts. rewrite js_filter_app.
    assert (js_filter is_main (match suggestions with [] => [] | _ => [SuggestionsPart (js_unique suggestions)] end) = []) as ->
      by by destruct suggestions.
    destruct value as [|c r].
    + rewrite Hv by done. by exists ReadyPart.
    + destruct query as [|e|data refetch]; cbn; [by eexists|by eexists|]. destruct refetch; by eexists.
Qed.

Lemma correlation_search_spec_witness :
  let st := search_run [] [Draft (u! " evil.test ")] in
  correlationValue (cs_params (search_step st Submit)) = u! "evil.test" ∧ form_draft (cs_form (search_step st Submit)) = u! "evil.test".
Proof.
  intros st. destruct (proj1 correlation_search_spec [] [Draft (u! " evil.test ")] Submit) as [_ H]. fold st in H.
  change ((form_step (cs_form st) Submit).2) with (Some (u! "evil.test")) in H. cbv iota beta in H.
  destruct H as (Hv & _ & _ & Hd).
  - apply well_formed_check; by_compute.
  - split; [exact Hv|]. apply Hd. by_compute.
Defined.

(** The nodes of the drawing are the input and the ends of the drawn relationships. *)
Lemma correlation_values_origin correlation visible id :
  id ∈ (correlation_values correlation visible).*1 →
  id = correlationNodeId (corr_inputType correlation) (corr_inputValue correlation) ∨ ∃ edge, edge ∈ visible ∧ touches_node id edge = true.
Proof.
  unfold correlation_values. set (start := addValue _ _ true []).
  assert (∀ l acc, id ∈ (foldl (λ values edge, addValue (cr_targetType edge) (cr_targetValue edge) false
    (addValue (cr_sourceType edge) (cr_sourceValue edge) false values)) acc l).*1 →
    id ∈ acc.*1 ∨ ∃ edge, edge ∈ l ∧ touches_node id edge = true) as Hl.
  { induction l as [|e l IH]; intros acc Hin; cbn in Hin; [by left|]. apply IH in Hin as [Hin|(edge & He & Ht)].
    - unfold addValue in Hin. rewrite !map_set_mem in Hin. destruct Hin as [->|[->|Hin]]; [right|right|by left];
        exists e; (split; [by left|]); apply orb_true_iff; [right|left]; by apply bool_decide_eq_true.
    - right. exists edge. split; [by right|done]. }
  intros Hin. apply Hl in Hin as [Hin|?]; [left|by right]. unfold start, addValue in Hin. cbn in Hin. by apply list_elem_of_singleton in Hin.
Qed.

Lemma drawn_relationships correlation limit edge :
  edge ∈ correlationGraphRelationships correlation limit → edge ∈ corr_relationships correlation.
Proof.
  rewrite correlationGraphRelationships_spec. intros Hin. eapply elem_of_sublist in Hin; [|apply sublist_take].
  by apply elem_of_app in Hin as [[? _]%js_filter_elem|[? _]%js_filter_elem].
Qed.

(** The ends of every relationship are the input or related values. *)
Definition correlation_closed (correlation : CorrelationDto) : Prop :=
  ∀ id edge, edge ∈ corr_relationships correlation → touches_node id edge = true →
    id = correlationNodeId (corr_inputType correlation) (corr_inputValue correlation) ∨
    id ∈ map (λ item, correlationNodeId (rv_valueType item) (rv_value item)) (corr_related correlation).

(** Everything of a correlation can be inspected: the button of a row shows a
    relationship with the row's identifier, and marks exactly the rows that have it; every
    drawn value, of an answer whose relationships are between its input and its related
    values, shows that value with the number of relationships it takes part in, none only for
    an input without any. A stage announces how much it leaves out exactly when it draws fewer relationships than there are. *)
Theorem correlation_inspected correlation :
  (∀ edge, edge ∈ corr_relationships correlation →
     let selection := Some (CEdge (correlationEdgeId edge)) in
     (∃ shown, CorrelationInspector correlation selection = InspectRelationship shown ∧
        shown ∈ corr_relationships correlation ∧ correlationEdgeId shown = correlationEdgeId edge) ∧
     (∀ row marked, (row, marked) ∈ CorrelationEvidenceTable correlation selection →
        (marked = true ↔ correlationEdgeId row = correlationEdgeId edge))) ∧
  (∀ limit id, correlation_closed correlation →
     id ∈ (correlation_values correlation (correlationGraphRelationships correlation limit)).*1 →
     ∃ value type sources input,
       CorrelationInspector correlation (Some (CNode id)) =
         InspectValue value type sources input (Z.of_nat (length (js_filter (touches_node id) (corr_relationships correlation)))) ∧
       correlationNodeId type value = id ∧
       (js_filter (touches_node id) (corr_relationships correlation) = [] →
        id = correlationNodeId (corr_inputType correlation) (corr_inputValue correlation))) ∧
  (∀ limit, 1 ≤ limit →
     (is_Some (scope_label correlation limit) ↔
      (length (correlationGraphRelationships correlation limit) < length (corr_relationships correlation))%nat)).
Proof.
  split_and!.
  - intros edge Hin selection. split.
    + unfold CorrelationInspector. cbn [selection selectedCorrelationRelationship].
      destruct (js_find _ (corr_relationships correlation)) as [shown|] eqn:Ef.
      * apply js_find_Some in Ef as [Hs Hid%bool_decide_eq_true]. by exists shown.
      * rewrite js_find_None in Ef. specialize (Ef edge Hin). by rewrite bool_decide_eq_false in Ef.
    + intros row marked Hr. apply list_elem_of_In, in_map_iff in Hr as (e & E & _).
      apply pair_equal_spec in E as [-> <-]. unfold selection. cbv iota beta. rewrite bool_decide_eq_true. split; intros E; symmetry; exact E.
  - intros limit id Hclosed Hin. unfold CorrelationInspector. cbn [selectedCorrelationRelationship].
    apply correlation_values_origin in Hin.
    destruct (js_find _ (corr_related correlation)) as [node|] eqn:Ef.
    + apply js_find_Some in Ef as [_ Hid%bool_decide_eq_true]. do 4 eexists. split_and!; [done|done|].
      intros Hnone. destruct Hin as [->|(edge & He & Ht)]; [done|]. exfalso.
      assert (edge ∈ js_filter (touches_node id) (corr_relationships correlation)) as Hx
        by (apply js_filter_elem; split; [by eapply drawn_relationships|done]). rewrite Hnone in Hx. by apply elem_of_nil in Hx.
    + assert (id = correlationNodeId (corr_inputType correlation) (corr_inputValue correlation)) as Hid.
      { destruct Hin as [->|(edge & He & Ht)]; [done|]. destruct (Hclosed id edge (drawn_relationships _ _ _ He) Ht) as [->|Hrel]; [done|].
        apply list_elem_of_In, in_map_iff in Hrel as (node & <- & Hn%list_elem_of_In). rewrite js_find_None in Ef. specialize (Ef node Hn).
        by rewrite bool_decide_eq_false in Ef. }
      rewrite (bool_decide_true (_ = id)) by done. do 4 eexists. split_and!; [done|done|done].
  - intros limit Hl. unfold scope_label. rewrite correlationGraphRelationships_spec, length_take, length_app.
    set (touches := input_connected _).
    assert (length (js_filter touches (corr_relationships correlation)) + length (js_filter (λ e, negb (touches e)) (corr_relationships correlation))
      = length (corr_relationships correlation))%nat as ->.
    { generalize (corr_relationships correlation). intros l. induction l as [|e l IH]; [done|]. rewrite !js_filter_cons. destruct (touches e); cbn; lia. }
    destruct (Z.ltb_spec limit (Z.of_nat (length (corr_relationships correlation)))); split; intros Hx; try (by eexists); try lia.
    by destruct Hx.
Qed.

Definition sample_correlation : CorrelationDto :=
  mkCorrelationDto [] VT_DOMAIN (u! "evil.test") [mkRelatedValueDto [Source_LIVE_DNS] (u! "198.51.100.7") VT_IP]
    [mkCorrelationRelationshipDto cr_relation_RESOLVES_TO VT_DOMAIN (u! "evil.test") [Source_LIVE_DNS] VT_IP (u! "198.51.100.7")] [].

Lemma correlation_inspected_witness :
  ∃ sources input, CorrelationInspector sample_correlation (Some (CNode (correlationNodeId VT_IP (u! "198.51.100.7")))) =
    InspectValue (u! "198.51.100.7") VT_IP sources input 1.
Proof.
  destruct (proj1 (proj2 (correlation_inspected sample_correlation)) 10 (correlationNodeId VT_IP (u! "198.51.100.7")))
    as (value & type & sources & input & Hi & _).
  - intros id edge He Ht. apply list_elem_of_singleton in He as ->. apply orb_true_iff in Ht as [<-%bool_decide_eq_true|<-%bool_decide_eq_true].
    + by left.
    + right. by left.
  - by_compute.
  - exists sources, input. vm_compute in Hi. injection Hi as <- <- <- <-. vm_compute. reflexivity.
Defined.

(** ** MITRE mappings *)

(** The rows shown are the ten first of each kind; the pressed buttons are those of the
    selected code, and the inspector describes the row that was clicked. *)
Lemma mitre_click dashboard st type index row :
  group_rows dashboard type !! index = Some row →
  let st' := mitre_step dashboard st (ClickMitre type index) in
  mitre_selection st' = Some row ∧ topTab st' = topTab st ∧ ms_type row = type ∧
  (∀ detectionRuleName, mv_inspector (MitreAndSignals detectionRuleName dashboard st') = Some (row, (id_from dashboard, id_to dashboard))) ∧
  (row, true) ∈ MitreGroup (group_rows dashboard type) (mitre_selection st').
Proof.
  intros Hr st'. subst st'. cbn [mitre_step]. rewrite Hr. split_and!; [done|done| |done|].
  - destruct type; apply list_elem_of_lookup_2, list_elem_of_In, in_map_iff in Hr as (c & <- & _); done.
  - apply list_elem_of_In, in_map_iff. exists row. split; [|by apply list_elem_of_In, list_elem_of_lookup_2 with index].
    cbn. f_equal. by rewrite !bool_decide_true.
Qed.

(** The clicked row is kept as it was: after a refetch the inspector still shows its
    count, beside the new time range and a button with the new count. *)
Example mitre_selection_stale :
  let before := mkIntelligenceDashboard [mkMitreCount (u! "TA0001") (u! "Initial Access") 3] [] [] [] [] [] (u! "a") (u! "b") in
  let after := mkIntelligenceDashboard [mkMitreCount (u! "TA0001") (u! "Initial Access") 9] [] [] [] [] [] (u! "c") (u! "d") in
  let view := MitreAndSignals (λ name _, Some name) after (mitre_step before mitre_mount (ClickMitre TACTIC 0)) in
  (mv_inspector view, mv_tactics view) =
    (Some (mkMitre TACTIC (u! "TA0001") (u! "Initial Access") 3, (u! "c", u! "d")),
     [(mkMitre TACTIC (u! "TA0001") (u! "Initial Access") 9, true)]).
Proof. vm_compute. reflexivity. Qed.
