(* ===== verification/GraphView.v ===== *)
(** * The interactive graphs

    Models the components of frontend/src/components/{TopologyGraph,CorrelationGraph}.tsx
    around the drawings of Graphs.v: the animation frames they ask for (to fit the view
    and to return the focus), what they do on mounting, resizing, rendering, clicks, keys
    and unmounting, and the labels of the edges. The frames are the window's: a request
    has a handle, is run with the next frame and can be cancelled until then. The drawn
    elements are the library's, and come with each frame. *)

From Stdlib Require Import QArith.
From S2P Require Import Prelude JsNumber JsDate Url Contracts Topology Graphs.

#[local] Open Scope list_scope.
#[local] Open Scope Z_scope.

(** ** Animation frames *)

Section frames.
Context {C : Type}.

Record FrameWindow := mkFrameWindow { w_next : nat; w_frames : list (nat * C) }.

Definition requestAnimationFrame (callback : C) (w : FrameWindow) : nat * FrameWindow :=
  (w_next w, mkFrameWindow (S (w_next w)) (w_frames w ++ [(w_next w, callback)])).
Definition cancelAnimationFrame (handle : nat) (w : FrameWindow) : FrameWindow :=
  mkFrameWindow (w_next w) (js_filter (λ f, negb (bool_decide (f.1 = handle))) (w_frames w)).
Definition window_open : FrameWindow := mkFrameWindow 0 [].
End frames.
Arguments FrameWindow : clear implicits.

(** ** Elements and callbacks *)

Inductive ElementKind := FlowNode | FlowEdge | EdgeLabel.
#[export] Instance ElementKind_eq_dec : EqDecision ElementKind.
Proof. solve_decision. Defined.

(** An element under the container, with its data attributes. *)
Record Element := mkElement { el_kind : ElementKind; el_id : option ustring; el_edgeId : option ustring }.

Inductive Selector := NodeElements | NodeAndEdgeElements | LabelElements.
Inductive DataAttribute := data_id | data_edgeId.

Definition selects (selector : Selector) (element : Element) : bool :=
  match selector, el_kind element with
  | NodeElements, FlowNode | NodeAndEdgeElements, (FlowNode | FlowEdge) | LabelElements, EdgeLabel => true
  | _, _ => false
  end.
Definition dataset (attribute : DataAttribute) (element : Element) : option ustring :=
  match attribute with data_id => el_id element | data_edgeId => el_edgeId element end.

(** What is to be focused. *)
Record Target := mkTarget { t_selector : Selector; t_id : ustring; t_attribute : DataAttribute }.
Definition nextTarget (elements : list Element) (target : Target) : option Element :=
  js_find (λ element, bool_decide (dataset (t_attribute target) element = Some (t_id target)))
    (js_filter (selects (t_selector target)) elements).

(** The callbacks: fitting the view of a flow, the two frames before a focus, and the
    single one. *)
Inductive Callback :=
| Fit (instance : nat) | FocusFirst (target : Target) | FocusSecond (target : Target) | FocusNow (target : Target).

Inductive Effect (S : Type) := Selected (selection : S) | FitView (instance : nat) | Focused (element : Element).
Arguments Selected {S} selection.
Arguments FitView {S} instance.
Arguments Focused {S} element.

(** The references of the component, and the window its frames are requested from. *)
Record GraphView := mkView {
  containerRef : bool;
  observing : bool;
  flowRef : option nat;
  fitFrameRef : option nat;
  focusFrameRef : option nat;
  effectSignature : ustring;
  window : FrameWindow Callback;
}.

Definition set_window (w : FrameWindow Callback) (v : GraphView) : GraphView :=
  mkView (containerRef v) (observing v) (flowRef v) (fitFrameRef v) (focusFrameRef v) (effectSignature v) w.
Definition with_fit (handle : option nat) (w : FrameWindow Callback) (v : GraphView) : GraphView :=
  mkView (containerRef v) (observing v) (flowRef v) handle (focusFrameRef v) (effectSignature v) w.
Definition with_focus (handle : option nat) (w : FrameWindow Callback) (v : GraphView) : GraphView :=
  mkView (containerRef v) (observing v) (flowRef v) (fitFrameRef v) handle (effectSignature v) w.
Definition set_flow (instance : nat) (v : GraphView) : GraphView :=
  mkView (containerRef v) (observing v) (Some instance) (fitFrameRef v) (focusFrameRef v) (effectSignature v) (window v).
Definition set_signature (signature : ustring) (v : GraphView) : GraphView :=
  mkView (containerRef v) (observing v) (flowRef v) (fitFrameRef v) (focusFrameRef v) signature (window v).

Definition cancelled (handle : option nat) (w : FrameWindow Callback) : FrameWindow Callback :=
  match handle with Some h => cancelAnimationFrame h w | None => w end.

Definition scheduleFitView (instance : option nat) (v : GraphView) : GraphView :=
  match instance with
  | None => v
  | Some i => let '(h, w) := requestAnimationFrame (Fit i) (cancelled (fitFrameRef v) (window v)) in with_fit (Some h) w v
  end.

Definition scheduleFocus (target : Target) (v : GraphView) : GraphView :=
  let '(h, w) := requestAnimationFrame (FocusFirst target) (cancelled (focusFrameRef v) (window v)) in
  with_focus (Some h) w v.
Definition requestFocusNow (target : Target) (v : GraphView) : GraphView :=
  set_window (requestAnimationFrame (FocusNow target) (window v)).2 v.

(** The focus goes to the first such element of the container, if there is one. *)
Definition focus_effects {S} (elements : list Element) (v : GraphView) (target : Target) : list (Effect S) :=
  match nextTarget (if containerRef v then elements else []) target with Some e => [Focused e] | None => [] end.

Definition run_callback {S} (elements : list Element) (callback : Callback) (v : GraphView) : GraphView * list (Effect S) :=
  match callback with
  | Fit i => (with_fit None (window v) v, [FitView i])
  | FocusFirst t => let '(h, w) := requestAnimationFrame (FocusSecond t) (window v) in (with_focus (Some h) w v, [])
  | FocusSecond t => (with_focus None (window v) v, focus_effects elements v t)
  | FocusNow t => (v, focus_effects elements v t)
  end.

(** A frame runs what was requested before it, unless it was cancelled meanwhile. *)
Fixpoint run_handles {S} (elements : list Element) (handles : list nat) (v : GraphView) : GraphView * list (Effect S) :=
  match handles with
  | [] => (v, [])
  | h :: rest =>
    match map_get h (w_frames (window v)) with
    | None => run_handles elements rest v
    | Some callback =>
      let '(v1, effects1) := run_callback elements callback (set_window (cancelAnimationFrame h (window v)) v) in
      let '(v2, effects2) := run_handles elements rest v1 in
      (v2, effects1 ++ effects2)
    end
  end.
Definition run_frame {S} (elements : list Element) (v : GraphView) : GraphView * list (Effect S) :=
  run_handles elements (w_frames (window v)).*1 v.

(** ** The component *)

(** What the two graphs have in common: the selections they make, the selection an
    element stands for (none but a node is answered to a key), and how the focus returns
    to a node chosen by key. *)
Record Component (S : Type) := mkComponent {
  select_node : ustring → S;
  select_edge : ustring → S;
  node_of_element : option (option ustring * bool) → option ustring;
  focus_node : ustring → GraphView → GraphView;
}.
Arguments select_node {S}.
Arguments select_edge {S}.
Arguments node_of_element {S}.
Arguments focus_node {S}.

Definition correlation_component : Component CorrelationSelection :=
  mkComponent _ CNode CEdge
    (λ element, match correlationSelectionFromElement element with Some (CNode id) => Some id | _ => None end)
    (λ id, scheduleFocus (mkTarget NodeElements id data_id)).
Definition topology_component : Component TopologySelection :=
  mkComponent _ TNode TEdgeGroup
    (λ element, match topologySelectionFromElement element with Some (TNode id) => Some id | _ => None end)
    (λ id, requestFocusNow (mkTarget NodeAndEdgeElements id data_id)).

(** The ids drawn, whatever their order. *)
Definition layoutSignature (nodeIds edgeIds : list ustring) : ustring :=
  join (u! "|") (js_sort cmp_units nodeIds) ++ u! "::" ++ join (u! "|") (js_sort cmp_units edgeIds).

Inductive GraphEvent :=
| Init (instance : nat)
| Rendered (nodeIds edgeIds : list ustring)
| Resized
| KeyDown (key : ustring) (element : option (option ustring * bool))
| ClickNode (id : ustring)
| ClickEdge (id : ustring)
| ClickLabel (id : ustring) (detail : Z)
| Frame (elements : list Element)
| Unmount.

(** The first effects of the component: no flow to fit yet, and the observer. *)
Definition graph_mount (hasObserver : bool) (nodeIds edgeIds : list ustring) : GraphView :=
  mkView true hasObserver None None None (layoutSignature nodeIds edgeIds) window_open.

(** Removal: the container's reference is reset, the observer stopped, the frames that
    are remembered cancelled. *)
Definition unmount (v : GraphView) : GraphView :=
  mkView false false (flowRef v) (fitFrameRef v) (focusFrameRef v) (effectSignature v)
    (cancelled (focusFrameRef v) (cancelled (fitFrameRef v) (window v))).

Section component.
Context {S : Type} (component : Component S).

Definition onKeyDownCapture (key : ustring) (element : option (option ustring * bool)) (v : GraphView) :
  GraphView * list (Effect S) :=
  if negb (bool_decide (key = u! "Enter")) && negb (bool_decide (key = u! " ")) then (v, [])
  else match node_of_element component element with
       | None => (v, [])
       | Some id => (focus_node component id v, [Selected (select_node component id)])
       end.

(** The label's button; a key gives a click without detail. *)
Definition onSelectLabel (id : ustring) (restoreFocus : bool) (v : GraphView) : GraphView * list (Effect S) :=
  (if restoreFocus then scheduleFocus (mkTarget LabelElements id data_edgeId) v else v,
   [Selected (select_edge component id)]).

(** A component that is removed receives nothing but the window's frames. *)
Definition graph_step (v : GraphView) (event : GraphEvent) : GraphView * list (Effect S) :=
  match event with
  | Frame elements => run_frame elements v
  | _ =>
    if negb (containerRef v) then (v, []) else
    match event with
    | Init instance => (scheduleFitView (Some instance) (set_flow instance v), [])
    | Rendered nodeIds edgeIds =>
      let signature := layoutSignature nodeIds edgeIds in
      if bool_decide (signature = effectSignature v) then (v, [])
      else (scheduleFitView (flowRef v) (set_signature signature v), [])
    | Resized => (if observing v then scheduleFitView (flowRef v) v else v, [])
    | KeyDown key element => onKeyDownCapture key element v
    | ClickNode id => (v, [Selected (select_node component id)])
    | ClickEdge id => (v, [Selected (select_edge component id)])
    | ClickLabel id detail => onSelectLabel id (detail =? 0) v
    | Unmount => (unmount v, [])
    | Frame _ => (v, [])
    end
  end.

(** The effects of each event. *)
Fixpoint graph_run (v : GraphView) (events : list GraphEvent) : GraphView * list (list (Effect S)) :=
  match events with
  | [] => (v, [])
  | event :: rest =>
    let '(v1, effects) := graph_step v event in
    let '(v2, effects') := graph_run v1 rest in
    (v2, effects :: effects')
  end.
End component.

(** ** The labels of the edges *)

Record EdgeButton := mkEdgeButton {
  eb_ariaLabel : ustring; eb_pressed : bool; eb_className : ustring; eb_edgeId : ustring; eb_x : Q; eb_y : Q;
}.
Definition selected_class (selected : bool) : ustring := if selected then u! " selected" else [].

(** [labelX]: where the library's curve has its label. Every edge of the drawings brings
    its data. *)
Definition TopologyEdge (labelXCenter : Q) (alertCount : Z) (edge : GraphEdge) : EdgeButton :=
  mkEdgeButton (ge_ariaLabel edge) (ge_selected edge)
    (u! "topology-edge-label " ++ topologyEdgeVisualState alertCount ++ selected_class (ge_selected edge) ++ u! " nodrag nopan")
    (ge_id edge) (labelXCenter + ge_labelOffset edge)%Q (ge_labelY edge).
Definition CorrelationEdge (labelX : Q) (visualState : ustring) (edge : GraphEdge) : EdgeButton :=
  mkEdgeButton (ge_ariaLabel edge) (ge_selected edge)
    (u! "topology-edge-label correlation-edge-label " ++ visualState ++ selected_class (ge_selected edge) ++ u! " nodrag nopan")
    (ge_id edge) labelX (ge_labelY edge).

(** The element a button is for the focus. *)
Definition button_element (button : EdgeButton) : Element := mkElement EdgeLabel None (Some (eb_edgeId button)).

(** ** What the frames are for *)

(** The same component without handles: whether a fit is wanted, what is to be focused
    (with the next frame or after it), and the nodes to be focused with the next. *)
Record Intent := mkIntent {
  i_mounted : bool; i_observing : bool; i_flow : option nat; i_signature : ustring;
  i_fit : bool; i_focus : option (bool * Target); i_now : list Target;
}.
Definition intent_mount (hasObserver : bool) (nodeIds edgeIds : list ustring) : Intent :=
  mkIntent true hasObserver None (layoutSignature nodeIds edgeIds) false None [].

Definition want_fit (i : Intent) : Intent :=
  mkIntent (i_mounted i) (i_observing i) (i_flow i) (i_signature i) (i_fit i || bool_decide (is_Some (i_flow i))) (i_focus i) (i_now i).
Definition want_focus (t : Target) (i : Intent) : Intent :=
  mkIntent (i_mounted i) (i_observing i) (i_flow i) (i_signature i) (i_fit i) (Some (false, t)) (i_now i).
Definition want_now (t : Target) (i : Intent) : Intent :=
  mkIntent (i_mounted i) (i_observing i) (i_flow i) (i_signature i) (i_fit i) (i_focus i) (i_now i ++ [t]).
Definition intend_flow (instance : nat) (i : Intent) : Intent :=
  mkIntent (i_mounted i) (i_observing i) (Some instance) (i_signature i) (i_fit i) (i_focus i) (i_now i).
Definition intend_signature (signature : ustring) (i : Intent) : Intent :=
  mkIntent (i_mounted i) (i_observing i) (i_flow i) signature (i_fit i) (i_focus i) (i_now i).

(** A frame fits the current flow once if that was asked for since the last frame, and
    focuses what was asked for before the last frame. *)
Definition intent_frame {S} (elements : list Element) (i : Intent) : Intent * list (Effect S) :=
  let focus t := match nextTarget elements t with Some e => [Focused e] | None => [] end in
  (mkIntent (i_mounted i) (i_observing i) (i_flow i) (i_signature i) false
     (match i_focus i with Some (false, t) => Some (true, t) | _ => None end) [],
   (if i_fit i then match i_flow i with Some f => [FitView f] | None => [] end else [])
   ++ (match i_focus i with Some (true, t) => focus t | _ => [] end) ++ (i_now i ≫= focus)).

Section intent.
Context {S : Type} (component : Component S) (want_node : ustring → Intent → Intent).

Definition intent_step (i : Intent) (event : GraphEvent) : Intent * list (Effect S) :=
  if negb (i_mounted i) then (i, []) else
  match event with
  | Frame elements => intent_frame elements i
  | Init instance => (want_fit (intend_flow instance i), [])
  | Rendered nodeIds edgeIds =>
    let signature := layoutSignature nodeIds edgeIds in
    if bool_decide (signature = i_signature i) then (i, []) else (want_fit (intend_signature signature i), [])
  | Resized => (if i_observing i then want_fit i else i, [])
  | KeyDown key element =>
    if bool_decide (key = u! "Enter") || bool_decide (key = u! " ")
    then match node_of_element component element with
         | Some id => (want_node id i, [Selected (select_node component id)])
         | None => (i, [])
         end
    else (i, [])
  | ClickNode id => (i, [Selected (select_node component id)])
  | ClickEdge id => (i, [Selected (select_edge component id)])
  | ClickLabel id detail =>
    (if detail =? 0 then want_focus (mkTarget LabelElements id data_edgeId) i else i, [Selected (select_edge component id)])
  | Unmount => (mkIntent false false (i_flow i) (i_signature i) false None [], [])
  end.
Fixpoint intent_run (i : Intent) (events : list GraphEvent) : Intent * list (list (Effect S)) :=
  match events with
  | [] => (i, [])
  | event :: rest =>
    let '(i1, effects) := intent_step i event in
    let '(i2, effects') := intent_run i1 rest in
    (i2, effects :: effects')
  end.
End intent.

Definition correlation_want (id : ustring) : Intent → Intent := want_focus (mkTarget NodeElements id data_id).
Definition topology_want (id : ustring) : Intent → Intent := want_now (mkTarget NodeAndEdgeElements id data_id).

(** ** The frames of a window *)

Definition is_fit (c : Callback) : bool := match c with Fit _ => true | _ => false end.
Definition is_focus (c : Callback) : bool := match c with FocusFirst _ | FocusSecond _ => true | _ => false end.
Definition is_direct (c : Callback) : bool := match c with FocusSecond _ | FocusNow _ => true | _ => false end.
Definition is_now (c : Callback) : bool := match c with FocusNow _ => true | _ => false end.

Definition frames_of (p : Callback → bool) (frames : list (nat * Callback)) : list (nat * Callback) :=
  js_filter (λ f, p f.2) frames.
Definition but (h : nat) (frames : list (nat * Callback)) : list (nat * Callback) :=
  js_filter (λ f, negb (bool_decide (f.1 = h))) frames.
Arguments frames_of : simpl never.
Arguments but : simpl never.

Record frames_wf (w : FrameWindow Callback) : Prop := {
  handles_unique : NoDup (w_frames w).*1;
  handles_used : Forall (λ h, (h < w_next w)%nat) (w_frames w).*1;
}.

Lemma but_other h frames : h ∉ frames.*1 → but h frames = frames.
Proof.
  intros Hh. apply js_filter_all. intros [h' c] Hin. cbn. apply negb_true_iff, bool_decide_eq_false.
  intros ->. apply Hh. apply list_elem_of_fmap. by exists (h, c).
Qed.

Lemma but_head h c frames : NoDup ((h, c) :: frames).*1 → but h ((h, c) :: frames) = frames.
Proof.
  intros [Hh _]%NoDup_cons. unfold but. rewrite js_filter_cons. cbn. rewrite bool_decide_eq_true_2 by done. cbn.
  by apply but_other.
Qed.

Lemma frames_of_elem p frames h c : (h, c) ∈ frames_of p frames ↔ (h, c) ∈ frames ∧ p c = true.
Proof. unfold frames_of. by rewrite js_filter_elem. Qed.

Lemma frames_of_handles p frames : NoDup frames.*1 → NoDup (frames_of p frames).*1.
Proof. intros H. eapply sublist_NoDup; [exact H|]. apply fmap_sublist, js_filter_sublist. Qed.

Lemma frames_of_but p h frames : frames_of p (but h frames) = but h (frames_of p frames).
Proof. apply js_filter_comm. Qed.

(** Cancelling a callback leaves those of another sort alone. *)
Lemma but_sort p h c frames : NoDup frames.*1 → (h, c) ∈ frames → p c = false →
  frames_of p (but h frames) = frames_of p frames.
Proof.
  intros Hnd Hin Hp. rewrite frames_of_but. apply but_other. intros ([h' c'] & -> & [Hin' Hp']%frames_of_elem)%list_elem_of_fmap.
  cbn in Hin. pose proof (NoDup_fmap_inj_elem fst frames _ _ Hnd Hin Hin' eq_refl). simplify_eq. by rewrite Hp in Hp'.
Qed.

Lemma frames_of_snoc p frames h c : frames_of p (frames ++ [(h, c)]) = frames_of p frames ++ (if p c then [(h, c)] else []).
Proof. unfold frames_of. rewrite js_filter_app, js_filter_cons. cbn. by destruct (p c). Qed.

Lemma cancel_wf h w : frames_wf w → frames_wf (cancelled h w).
Proof.
  destruct h as [h|]; [|done]. intros [Hnd Hlt]. cbn.
  assert ((but h (w_frames w)).*1 `sublist_of` (w_frames w).*1) as Hs by apply fmap_sublist, js_filter_sublist.
  split; cbn; [by eapply sublist_NoDup|]. rewrite Forall_forall in Hlt |- *. intros h' Hh'. apply Hlt. by apply (elem_of_sublist _ _ _ Hh').
Qed.

Lemma request_wf c w : frames_wf w → frames_wf (requestAnimationFrame c w).2.
Proof.
  intros [Hnd Hlt]. split; cbn; rewrite fmap_app; cbn.
  - apply NoDup_snoc; [done|]. intros Hin. rewrite Forall_forall in Hlt. specialize (Hlt _ Hin). lia.
  - apply Forall_app. split; [|apply Forall_cons; split; [lia|by apply Forall_nil]].
    eapply Forall_impl; [exact Hlt|]. cbn. lia.
Qed.

(** *** A frame *)

Definition callback_effects {S} (elements : list Element) (v : GraphView) (c : Callback) : list (Effect S) :=
  match c with Fit i => [FitView i] | FocusFirst _ => [] | FocusSecond t | FocusNow t => focus_effects elements v t end.
Fixpoint followups (n : nat) (frames : list (nat * Callback)) : list (nat * Callback) :=
  match frames with
  | [] => []
  | (_, FocusFirst t) :: rest => (n, FocusSecond t) :: followups (S n) rest
  | _ :: rest => followups n rest
  end.
Fixpoint fit_after (ref : option nat) (frames : list (nat * Callback)) : option nat :=
  match frames with [] => ref | (_, Fit _) :: rest => fit_after None rest | _ :: rest => fit_after ref rest end.
Fixpoint focus_after (n : nat) (ref : option nat) (frames : list (nat * Callback)) : option nat :=
  match frames with
  | [] => ref
  | (_, FocusFirst _) :: rest => focus_after (S n) (Some n) rest
  | (_, FocusSecond _) :: rest => focus_after n None rest
  | _ :: rest => focus_after n ref rest
  end.

Ltac unfolded E := unfold with_fit, with_focus, set_window in *; cbn in E |- *.

(** Running the frames of a window: every callback once, in the order of the requests. *)
Lemma run_handles_spec {S} elements frames : ∀ v later,
  w_frames (window v) = frames ++ later → frames_wf (window v) →
  ∃ w, run_handles (S := S) elements frames.*1 v =
         (mkView (containerRef v) (observing v) (flowRef v) (fit_after (fitFrameRef v) frames)
            (focus_after (w_next (window v)) (focusFrameRef v) frames) (effectSignature v) w,
          frames ≫= λ f, callback_effects elements v f.2)
    ∧ w_frames w = later ++ followups (w_next (window v)) frames ∧ frames_wf w.
Proof.
  induction frames as [|[h c] frames IH]; intros v later Hw Hwf.
  { exists (window v). destruct v. cbn in *. by rewrite app_nil_r. }
  pose proof (handles_unique _ Hwf) as Hnd. rewrite Hw in Hnd.
  pose proof (cancel_wf (Some h) _ Hwf) as Hwf1.
  assert (w_frames (cancelAnimationFrame h (window v)) = frames ++ later) as Hw1.
  { cbn. rewrite Hw. by apply (but_head h c). }
  cbn [fmap list_fmap run_handles fst]. rewrite Hw. cbn [app map_get]. rewrite decide_True by done.
  pose proof (request_wf (match c with FocusFirst t => FocusSecond t | _ => c end) _ Hwf1) as Hwf2.
  destruct c as [i|t|t|t]; cbn [run_callback requestAnimationFrame].
  - destruct (IH (with_fit None (cancelAnimationFrame h (window v)) v) later) as (w & E & Hf & Hok); [done..|].
    unfolded E; rewrite E. by exists w.
  - destruct (IH (with_focus (Some (w_next (window v))) (requestAnimationFrame (FocusSecond t) (cancelAnimationFrame h (window v))).2 v)
      (later ++ [(w_next (window v), FocusSecond t)])) as (w & E & Hf & Hok); [|done|].
    { cbn in Hw1 |- *. by rewrite Hw1, app_assoc. }
    unfolded E; rewrite E. exists w. split_and!; [done| |done]. rewrite Hf. by rewrite <- app_assoc.
  - destruct (IH (with_focus None (cancelAnimationFrame h (window v)) v) later) as (w & E & Hf & Hok); [done..|].
    unfolded E; rewrite E. by exists w.
  - destruct (IH (set_window (cancelAnimationFrame h (window v)) v) later) as (w & E & Hf & Hok); [done..|].
    unfolded E; rewrite E. by exists w.
Qed.

(** *** The references name the frames *)

Definition fit_frames (ref flow : option nat) : list (nat * Callback) :=
  match ref, flow with Some h, Some f => [(h, Fit f)] | _, _ => [] end.
Definition focus_frames (ref : option nat) (focus : option (bool * Target)) : list (nat * Callback) :=
  match ref, focus with Some h, Some (due, t) => [(h, if due then FocusSecond t else FocusFirst t)] | _, _ => [] end.
Definition due_focus (focus : option (bool * Target)) : list Callback :=
  match focus with Some (true, t) => [FocusSecond t] | _ => [] end.

Record simulates (v : GraphView) (i : Intent) : Prop := {
  sim_mounted : containerRef v = i_mounted i;
  sim_observing : observing v = i_observing i;
  sim_flow : flowRef v = i_flow i;
  sim_signature : effectSignature v = i_signature i;
  sim_wf : frames_wf (window v);
  sim_fit : frames_of is_fit (w_frames (window v)) = fit_frames (fitFrameRef v) (flowRef v);
  sim_fit_ref : i_fit i = bool_decide (is_Some (fitFrameRef v));
  sim_fit_flow : is_Some (fitFrameRef v) → is_Some (flowRef v);
  sim_focus : frames_of is_focus (w_frames (window v)) = focus_frames (focusFrameRef v) (i_focus i);
  sim_focus_ref : is_Some (focusFrameRef v) ↔ is_Some (i_focus i);
  sim_direct : (frames_of is_direct (w_frames (window v))).*2 = due_focus (i_focus i) ++ (FocusNow <$> i_now i);
}.
(** After removal only nodes to be focused may be left, without a container to find them in. *)
Definition removed (v : GraphView) (i : Intent) : Prop :=
  containerRef v = false ∧ i_mounted i = false ∧ frames_wf (window v) ∧ Forall (λ f, is_now f.2 = true) (w_frames (window v)).
Definition tracks (v : GraphView) (i : Intent) : Prop := (containerRef v = true ∧ simulates v i) ∨ removed v i.

(** Effects as they can be told apart: the fits, and everything else in order. *)
Definition is_view_fit {S} (effect : Effect S) : bool := match effect with FitView _ => true | _ => false end.
Definition same_effects {S} (a b : list (Effect S)) : Prop :=
  js_filter is_view_fit a = js_filter is_view_fit b ∧ js_filter (λ e, negb (is_view_fit e)) a = js_filter (λ e, negb (is_view_fit e)) b.

#[export] Instance same_effects_refl {S} : Reflexive (@same_effects S).
Proof. done. Qed.

(** What [cancelAnimationFrame(ref)] leaves, when the reference names the only frame of a sort. *)
Lemma cancelled_frames h w : w_frames (cancelled (Some h) w) = but h (w_frames w).
Proof. done. Qed.

Lemma cancel_fit v i : simulates v i →
  frames_of is_fit (w_frames (cancelled (fitFrameRef v) (window v))) = [] ∧
  (∀ p, (∀ f, p (Fit f) = false) →
    frames_of p (w_frames (cancelled (fitFrameRef v) (window v))) = frames_of p (w_frames (window v))).
Proof.
  intros Hsim. pose proof (sim_fit _ _ Hsim) as Hfit. pose proof (sim_fit_flow _ _ Hsim) as Hflow.
  destruct (fitFrameRef v) as [h|]; [|by split].
  destruct Hflow as [f Hf]; [done|]. rewrite Hf in Hfit. cbn [fit_frames] in Hfit. rewrite cancelled_frames.
  assert ((h, Fit f) ∈ w_frames (window v)) as Hin.
  { assert ((h, Fit f) ∈ frames_of is_fit (w_frames (window v))) as [H _]%frames_of_elem by (rewrite Hfit; by left). done. }
  split; [rewrite frames_of_but, Hfit; apply (but_head h (Fit f)); apply NoDup_singleton|].
  intros p Hp. eapply but_sort; [apply (sim_wf _ _ Hsim)|exact Hin|apply Hp].
Qed.

Lemma cancel_focus v i : simulates v i →
  frames_of is_focus (w_frames (cancelled (focusFrameRef v) (window v))) = [] ∧
  (frames_of is_direct (w_frames (cancelled (focusFrameRef v) (window v)))).*2 = FocusNow <$> i_now i ∧
  frames_of is_fit (w_frames (cancelled (focusFrameRef v) (window v))) = frames_of is_fit (w_frames (window v)).
Proof.
  intros Hsim. pose proof (sim_focus _ _ Hsim) as Hfocus. pose proof (sim_direct _ _ Hsim) as Hdirect.
  pose proof (sim_focus_ref _ _ Hsim) as Href. pose proof (handles_unique _ (sim_wf _ _ Hsim)) as Hnd.
  destruct (focusFrameRef v) as [h|], (i_focus i) as [[due t]|]; [| | |by split_and!];
    [|destruct Href as [H _]; by destruct H|destruct Href as [_ H]; by destruct H].
  set (c := if due then FocusSecond t else FocusFirst t) in *. cbn [focus_frames] in Hfocus. fold c in Hfocus.
  rewrite cancelled_frames.
  assert ((h, c) ∈ w_frames (window v)) as Hin.
  { assert ((h, c) ∈ frames_of is_focus (w_frames (window v))) as [H _]%frames_of_elem by (rewrite Hfocus; by left). done. }
  split_and!.
  - rewrite frames_of_but, Hfocus. apply (but_head h c), NoDup_singleton.
  - destruct due.
    + pose proof (frames_of_handles is_direct _ Hnd) as Hnd'. rewrite frames_of_but.
      destruct (frames_of is_direct (w_frames (window v))) as [|[h' c'] rest] eqn:E; [done|]. cbn in Hdirect.
      injection Hdirect as -> Hrest.
      assert ((h', FocusSecond t) ∈ frames_of is_focus (w_frames (window v))) as Hh'.
      { apply frames_of_elem. split; [|done]. apply (frames_of_elem is_direct). rewrite E. by left. }
      rewrite Hfocus in Hh'. apply list_elem_of_singleton in Hh'. simplify_eq. by rewrite but_head.
    + rewrite (but_sort _ _ c); [exact Hdirect|done..].
  - apply (but_sort _ _ c); [done..|]. by destruct due.
Qed.

(** *** Requests *)

Lemma track_fit f v i : simulates v i → simulates (scheduleFitView (Some f) (set_flow f v)) (want_fit (intend_flow f i)).
Proof.
  intros Hsim. pose proof (cancel_fit v i Hsim) as [Hnone Hother]. pose proof Hsim as [].
  split; cbn; try done.
  - apply (request_wf (Fit f)), cancel_wf, sim_wf0.
  - rewrite frames_of_snoc. cbn. by rewrite Hnone.
  - by rewrite orb_true_r.
  - rewrite frames_of_snoc. cbn. rewrite app_nil_r. by rewrite Hother.
  - rewrite frames_of_snoc. cbn. rewrite app_nil_r. by rewrite Hother.
Qed.

Lemma track_same_flow f v i : simulates v i → flowRef v = Some f → set_flow f v = v ∧ intend_flow f i = i.
Proof. intros [] Hf. destruct v, i. cbn in *. by subst. Qed.

Lemma track_refit v i : simulates v i → simulates (scheduleFitView (flowRef v) v) (want_fit i).
Proof.
  intros Hsim. destruct (flowRef v) as [f|] eqn:Hf.
  - pose proof (track_fit f v i Hsim) as H. destruct (track_same_flow f v i Hsim Hf) as [Hv Hi].
    by rewrite Hv, Hi in H.
  - pose proof Hsim as []. split; cbn; try done. rewrite <- sim_flow0, Hf. cbn. by rewrite orb_false_r.
Qed.

Lemma track_signature s v i : simulates v i → simulates (set_signature s v) (intend_signature s i).
Proof. intros []. by split. Qed.

Lemma track_focus t v i : simulates v i → simulates (scheduleFocus t v) (want_focus t i).
Proof.
  intros Hsim. pose proof (cancel_focus v i Hsim) as (Hnone & Hdirect & Hfit). pose proof Hsim as [].
  split; cbn; try done; try (rewrite frames_of_snoc; cbn).
  - apply (request_wf (FocusFirst t)), cancel_wf, sim_wf0.
  - by rewrite app_nil_r, Hfit.
  - by rewrite Hnone.
  - by rewrite app_nil_r, Hdirect.
Qed.

Lemma track_now t v i : simulates v i → simulates (requestFocusNow t v) (want_now t i).
Proof.
  intros Hsim. pose proof Hsim as [].
  split; cbn; try done; try (rewrite frames_of_snoc; cbn); rewrite ?app_nil_r; try done.
  - apply (request_wf (FocusNow t)), sim_wf0.
  - by rewrite !fmap_app, sim_direct0, app_assoc.
Qed.

(** *** Frames *)

Lemma followups_focus n frames : followups n frames = followups n (frames_of is_focus frames).
Proof.
  revert n. induction frames as [|[h [f|t|t|t]] frames IH]; intros n; [done|..]; unfold frames_of; rewrite js_filter_cons;
    cbn; by rewrite IH.
Qed.
Lemma focus_after_focus n ref frames : focus_after n ref frames = focus_after n ref (frames_of is_focus frames).
Proof.
  revert n ref. induction frames as [|[h [f|t|t|t]] frames IH]; intros n ref; [done|..]; unfold frames_of; rewrite js_filter_cons;
    cbn; by rewrite IH.
Qed.
Lemma fit_after_fits ref frames : fit_after ref frames = fit_after ref (frames_of is_fit frames).
Proof.
  revert ref. induction frames as [|[h [f|t|t|t]] frames IH]; intros ref; [done|..]; unfold frames_of; rewrite js_filter_cons;
    cbn; by rewrite IH.
Qed.

Lemma focus_not_fit {S} elements v t : js_filter is_view_fit (focus_effects (S := S) elements v t) = [] ∧
  js_filter (λ e, negb (is_view_fit e)) (focus_effects (S := S) elements v t) = focus_effects elements v t.
Proof. unfold focus_effects. by destruct (nextTarget _ t). Qed.

Lemma frame_fits {S} elements v frames :
  js_filter is_view_fit (frames ≫= λ f, callback_effects (S := S) elements v f.2) =
  frames_of is_fit frames ≫= λ f, callback_effects elements v f.2.
Proof.
  induction frames as [|[h c] frames IH]; [done|]. cbn [mbind list_bind]. rewrite js_filter_app, IH.
  unfold frames_of. rewrite js_filter_cons. destruct c; cbn; [done..| |]; by rewrite (proj1 (focus_not_fit _ _ _)).
Qed.
Lemma frame_focuses {S} elements v frames :
  js_filter (λ e, negb (is_view_fit e)) (frames ≫= λ f, callback_effects (S := S) elements v f.2) =
  (frames_of is_direct frames).*2 ≫= callback_effects elements v.
Proof.
  induction frames as [|[h c] frames IH]; [done|]. cbn [mbind list_bind]. rewrite js_filter_app, IH.
  unfold frames_of. rewrite js_filter_cons. destruct c; cbn; [done..| |]; by rewrite (proj2 (focus_not_fit _ _ _)).
Qed.

Lemma bind_focuses {S} elements v nows :
  (FocusNow <$> nows) ≫= callback_effects (S := S) elements v = nows ≫= focus_effects elements v.
Proof. induction nows as [|t nows IH]; [done|]. cbn. by rewrite IH. Qed.

Lemma focus_shown {S} elements v : containerRef v = true →
  focus_effects (S := S) elements v = λ t, match nextTarget elements t with Some e => [Focused e] | None => [] end.
Proof. intros Hc. unfold focus_effects. by rewrite Hc. Qed.

Lemma track_frame {S} elements v i : containerRef v = true → simulates v i →
  simulates (run_frame (S := S) elements v).1 (intent_frame (S := S) elements i).1 ∧
  same_effects (run_frame (S := S) elements v).2 (intent_frame elements i).2.
Proof.
  intros Hc Hsim. pose proof Hsim as [].
  destruct (run_handles_spec (S := S) elements (w_frames (window v)) v []) as (w & E & Hw & Hwf); [by rewrite app_nil_r|done|].
  unfold run_frame. rewrite E. clear E. cbn [fst snd intent_frame]. split.
  - rewrite followups_focus, sim_focus0 in Hw. cbn in Hw.
    rewrite focus_after_focus, sim_focus0, fit_after_fits, sim_fit0.
    assert (fit_after (fitFrameRef v) (fit_frames (fitFrameRef v) (flowRef v)) = None) as ->.
    { destruct (fitFrameRef v) as [h|]; [|done]. destruct sim_fit_flow0 as [f ->]; done. }
    destruct (focusFrameRef v) as [h|], (i_focus i) as [[[] t]|]; cbn in *; rewrite ?Hw;
      try (by destruct sim_focus_ref0 as [Hs _], Hs); try (by destruct sim_focus_ref0 as [_ Hs], Hs);
      (split; cbn; rewrite ?Hw; try done; try (by split; intros []); by intros []).
  - unfold same_effects. rewrite frame_fits, frame_focuses, sim_fit0, sim_direct0, bind_app, bind_focuses, !js_filter_app.
    rewrite (focus_shown elements v Hc).
    set (focus := λ t, match nextTarget elements t with Some e => [Focused e] | None => [] end).
    assert (∀ l : list Target, js_filter is_view_fit (l ≫= focus) = [] ∧ js_filter (λ e : Effect S, negb (is_view_fit e)) (l ≫= focus) = l ≫= focus) as Hall.
    { induction l as [|t l [IH1 IH2]]; [done|]. cbn. rewrite !js_filter_app, IH1, IH2. unfold focus. by destruct (nextTarget elements t). }
    destruct (Hall (i_now i)) as [-> ->]. rewrite sim_fit_ref0. rewrite <- sim_flow0.
    destruct (fitFrameRef v) as [h|] eqn:Er, (i_focus i) as [[[] t]|]; try (destruct sim_fit_flow0 as [f ->]; [done|]); cbn;
      rewrite ?(focus_shown elements v Hc), ?app_nil_r; try done; by destruct (nextTarget elements t).
Qed.

Lemma removed_frame {S} elements v i : removed v i →
  removed (run_frame (S := S) elements v).1 i ∧ (run_frame (S := S) elements v).2 = [].
Proof.
  intros (Hc & Hm & Hwf & Hnow).
  destruct (run_handles_spec (S := S) elements (w_frames (window v)) v []) as (w & E & Hw & Hwf'); [by rewrite app_nil_r|done|].
  unfold run_frame. rewrite E. cbn [fst snd]. clear E. generalize dependent (w_next (window v)).
  induction Hnow as [|[h []] frames Hh Hnow IH]; intros n Hw; try done; cbn in Hw |- *.
  - split; [|done]. split_and!; [done..|]. cbn. rewrite Hw. by apply Forall_nil_2.
  - destruct (IH n Hw) as [H1 H2]. split; [done|]. cbn in H2. rewrite H2. unfold focus_effects. rewrite Hc. done.
Qed.

Lemma removed_unmount v i : simulates v i →
  removed (unmount v) (mkIntent false false (i_flow i) (i_signature i) false None []).
Proof.
  intros Hsim. pose proof (cancel_fit v i Hsim) as [Hfits Hothers]. pose proof (cancel_focus v i Hsim) as (Hfocus & _ & _).
  split_and!; [done..|apply cancel_wf, cancel_wf, Hsim|]. cbn.
  set (w := cancelled (fitFrameRef v) (window v)) in *.
  assert (∀ p, frames_of p (w_frames (cancelled (focusFrameRef v) w)) `sublist_of` frames_of p (w_frames w)) as Hsub.
  { intros p. destruct (focusFrameRef v) as [h|]; [|done]. rewrite cancelled_frames, frames_of_but. apply js_filter_sublist. }
  assert (frames_of is_focus (w_frames (cancelled (focusFrameRef v) w)) = []) as Hnone.
  { destruct (focusFrameRef v) as [h|].
    - rewrite cancelled_frames, frames_of_but in Hfocus |- *. unfold w. by rewrite Hothers.
    - unfold w. cbn [cancelled] in Hfocus |- *. by rewrite Hothers. }
  apply Forall_forall. intros [h c] Hin. destruct c; [| | |done].
  - specialize (Hsub is_fit). rewrite Hfits in Hsub. apply sublist_nil_r in Hsub.
    assert ((h, Fit instance) ∈ frames_of is_fit (w_frames (cancelled (focusFrameRef v) w))) as H by (by apply frames_of_elem).
    rewrite Hsub in H. no_elem.
  - assert ((h, FocusFirst target) ∈ frames_of is_focus (w_frames (cancelled (focusFrameRef v) w))) as H by (by apply frames_of_elem).
    rewrite Hnone in H. no_elem.
  - assert ((h, FocusSecond target) ∈ frames_of is_focus (w_frames (cancelled (focusFrameRef v) w))) as H by (by apply frames_of_elem).
    rewrite Hnone in H. no_elem.
Qed.

Section runs.
Context {S : Type} (component : Component S) (want_node : ustring → Intent → Intent).
Hypothesis node_intended : ∀ id v i, simulates v i →
  simulates (focus_node component id v) (want_node id i) ∧ containerRef (focus_node component id v) = containerRef v.

Lemma track_step v i event : tracks v i →
  tracks (graph_step component v event).1 (intent_step component want_node i event).1 ∧
  same_effects (graph_step component v event).2 (intent_step component want_node i event).2.
Proof.
  intros [[Hc Hsim]|Hrem].
  2: { pose proof Hrem as (Hc & Hm & _). unfold intent_step. rewrite Hm. cbn [negb].
       destruct event; cbn [graph_step]; rewrite ?Hc; try (by split; [right|]).
       destruct (removed_frame (S := S) elements v i Hrem) as [H1 ->]. by split; [right|]. }
  pose proof (sim_mounted _ _ Hsim) as Hm. rewrite Hc in Hm. unfold intent_step. rewrite <- Hm.
  assert (∀ v' i' (e : list (Effect S)), containerRef v' = containerRef v → simulates v' i' → tracks v' i' ∧ same_effects e e) as Hmounted.
  { intros v' i' e Hc' Hsim'. split; [left; by rewrite Hc'|done]. }
  destruct event; cbn [graph_step]; rewrite ?Hc; cbn [negb].
  - apply Hmounted; [done|]. by apply track_fit.
  - rewrite <- (sim_signature _ _ Hsim). destruct (bool_decide _); cbn [fst snd]; [by apply Hmounted|].
    apply Hmounted; [by destruct (flowRef v)|]. apply (track_refit (set_signature _ v)). by apply track_signature.
  - rewrite <- (sim_observing _ _ Hsim). cbn [fst snd].
    destruct (observing v); apply Hmounted; [by destruct (flowRef v)|by apply track_refit|done..].
  - unfold onKeyDownCapture. rewrite <- negb_orb. destruct (_ || _)%bool; cbn [negb]; [|by apply Hmounted].
    destruct (node_of_element component element) as [id|]; cbn [fst snd]; [|by apply Hmounted].
    destruct (node_intended id v i Hsim). by apply Hmounted.
  - by apply Hmounted.
  - by apply Hmounted.
  - unfold onSelectLabel. cbn [fst snd]. destruct (detail =? 0); apply Hmounted; try done. by apply track_focus.
  - destruct (track_frame (S := S) elements v i Hc Hsim) as [H1 H2]. split; [|done]. left. split; [|done].
    by rewrite (sim_mounted _ _ H1), Hm.
  - split; [right; by apply removed_unmount|done].
Qed.

Lemma track_run events : ∀ v i, tracks v i →
  tracks (graph_run component v events).1 (intent_run component want_node i events).1 ∧
  Forall2 same_effects (graph_run component v events).2 (intent_run component want_node i events).2.
Proof.
  induction events as [|event events IH]; intros v i Hi; cbn [graph_run intent_run]; [by split; [|constructor]|].
  destruct (track_step v i event Hi) as [H1 H2].
  destruct (graph_step component v event) as [v1 e1], (intent_step component want_node i event) as [i1 e1']. cbn [fst snd] in *.
  destruct (IH v1 i1 H1) as [H3 H4].
  destruct (graph_run component v1 events), (intent_run component want_node i1 events). cbn [fst snd] in *. split; [done|by constructor].
Qed.
End runs.

Lemma mount_tracks hasObserver nodeIds edgeIds :
  tracks (graph_mount hasObserver nodeIds edgeIds) (intent_mount hasObserver nodeIds edgeIds).
Proof.
  left. split; [done|]. split; cbn; try done; split; [apply NoDup_nil_2|by apply Forall_nil_2].
Qed.

Lemma correlation_intended id v i : simulates v i →
  simulates (focus_node correlation_component id v) (correlation_want id i) ∧
  containerRef (focus_node correlation_component id v) = containerRef v.
Proof. intros Hsim. split; [by apply track_focus|done]. Qed.
Lemma topology_intended id v i : simulates v i →
  simulates (focus_node topology_component id v) (topology_want id i) ∧
  containerRef (focus_node topology_component id v) = containerRef v.
Proof. intros Hsim. split; [by apply track_now|done]. Qed.

(** ** The effects are those that were asked for *)

(** What a frame focuses for a target. *)
Definition focused {S} (elements : list Element) (target : Target) : list (Effect S) :=
  match nextTarget elements target with Some e => [Focused e] | None => [] end.

(** C33: handles, references and cancelled frames can be forgotten. Whatever happens to a
    graph (its flow starting, rendering, resizing, keys, clicks, frames with any elements,
    removal), the effects of every event are those of a machine without them, which only
    remembers whether a fit is wanted and what is to be focused: each frame fits the current
    flow at most once, and does so exactly when a flow was started, the drawn ids changed or
    the container was resized since the frame before; a removed graph does nothing more; and
    in the correlation drawing an element chosen by key is focused two frames later unless
    another one is chosen by key before. In the topology this holds of the labels alone: a
    node chosen by key there is focused with the next frame and does not replace a label
    whose focus is under way, so that one frame later the label chosen before takes the
    focus away from it. *)
Theorem graph_frames_refine hasObserver nodeIds edgeIds :
  (∀ events, Forall2 same_effects (graph_run correlation_component (graph_mount hasObserver nodeIds edgeIds) events).2
    (intent_run correlation_component correlation_want (intent_mount hasObserver nodeIds edgeIds) events).2) ∧
  (∀ events, Forall2 same_effects (graph_run topology_component (graph_mount hasObserver nodeIds edgeIds) events).2
    (intent_run topology_component topology_want (intent_mount hasObserver nodeIds edgeIds) events).2) ∧
  (∀ label node elements1 elements2, node ≠ [] →
    let events := [ClickLabel label 0; KeyDown (u! "Enter") (Some (Some node, true)); Frame elements1; Frame elements2] in
    (graph_run correlation_component (graph_mount hasObserver nodeIds edgeIds) events).2 =
      [[Selected (CEdge label)]; [Selected (CNode node)]; []; focused elements2 (mkTarget NodeElements node data_id)] ∧
    (graph_run topology_component (graph_mount hasObserver nodeIds edgeIds) events).2 =
      [[Selected (TEdgeGroup label)]; [Selected (TNode node)]; focused elements1 (mkTarget NodeAndEdgeElements node data_id);
       focused elements2 (mkTarget LabelElements label data_edgeId)]).
Proof.
  pose proof (mount_tracks hasObserver nodeIds edgeIds) as Hm.
  split; [intros events; by apply (track_run _ _ correlation_intended)|].
  split; [intros events; by apply (track_run _ _ topology_intended)|].
  intros label node elements1 elements2 Hn. destruct node as [|c node]; [done|].
  split; unfold focused; lazy -[nextTarget].
  - by destruct (nextTarget elements2 _).
  - by destruct (nextTarget elements1 _), (nextTarget elements2 _).
Qed.

(** ** The focus returns *)

Section focus.
Context {S : Type} (component : Component S) (want_node : ustring → Intent → Intent).

(** The node a key chooses, and the label a key presses. *)
Definition keyed_node (event : GraphEvent) : option ustring :=
  match event with
  | KeyDown key element =>
    if bool_decide (key = u! "Enter") || bool_decide (key = u! " ") then node_of_element component element else None
  | _ => None
  end.
Definition keyed_label (event : GraphEvent) : option ustring :=
  match event with ClickLabel id detail => if detail =? 0 then Some id else None | _ => None end.

Definition quiet (event : GraphEvent) : Prop :=
  keyed_node event = None ∧ keyed_label event = None ∧ match event with Frame _ | Unmount => False | _ => True end.
Definition present (event : GraphEvent) : Prop := match event with Unmount => False | _ => True end.

Hypothesis want_mounted : ∀ id i, i_mounted (want_node id i) = i_mounted i.

Definition intent_after (i : Intent) (events : list GraphEvent) : Intent := (intent_run component want_node i events).1.

Lemma intent_after_app i events events' : intent_after i (events ++ events') = intent_after (intent_after i events) events'.
Proof.
  unfold intent_after. revert i. induction events as [|event events IH]; intros i; [done|].
  cbn [app intent_run]. destruct (intent_step component want_node i event) as [i1 e1]. specialize (IH i1).
  destruct (intent_run component want_node i1 (events ++ events')), (intent_run component want_node i1 events). done.
Qed.

Lemma intent_after_one i event : intent_after i [event] = (intent_step component want_node i event).1.
Proof. unfold intent_after. cbn. by destruct (intent_step _ _ i event). Qed.

Lemma intent_step_present i event : present event → i_mounted i = true →
  i_mounted (intent_step component want_node i event).1 = true.
Proof.
  intros Hp Hm. unfold intent_step. rewrite Hm. cbn [negb].
  destruct event; cbn [fst]; try done; repeat case_match; cbn; rewrite ?want_mounted; done.
Qed.

Lemma intent_after_present events : ∀ i, Forall present events → i_mounted i = true → i_mounted (intent_after i events) = true.
Proof.
  induction events as [|event events IH]; intros i Hp Hm; [done|]. apply Forall_cons in Hp as [He Hp].
  change (event :: events) with ([event] ++ events). rewrite intent_after_app, intent_after_one.
  apply IH; [done|]. by apply intent_step_present.
Qed.

Lemma intent_step_quiet i event : quiet event → i_mounted i = true →
  let i' := (intent_step component want_node i event).1 in
  i_mounted i' = true ∧ i_focus i' = i_focus i ∧ i_now i' = i_now i.
Proof.
  intros (Hn & Hl & Hf) Hm. unfold intent_step. rewrite Hm. cbn [negb keyed_node keyed_label] in *.
  destruct event; cbn [fst keyed_node keyed_label] in *; try done; repeat case_match; try done; by split_and!.
Qed.

Lemma intent_after_quiet events : ∀ i, Forall quiet events → i_mounted i = true →
  i_mounted (intent_after i events) = true ∧ i_focus (intent_after i events) = i_focus i ∧ i_now (intent_after i events) = i_now i.
Proof.
  induction events as [|event events IH]; intros i Hq Hm; [done|]. apply Forall_cons in Hq as [He Hq].
  change (event :: events) with ([event] ++ events). rewrite intent_after_app, intent_after_one.
  destruct (intent_step_quiet i event He Hm) as (H1 & <- & <-). by apply IH.
Qed.

(** What the frame after some events focuses. *)
Definition frame_focuses_on (v : GraphView) (events : list GraphEvent) (elements : list Element) : list (Effect S) :=
  js_filter (λ e, negb (is_view_fit e)) (graph_step component (graph_run component v events).1 (Frame elements)).2.

Hypothesis node_intended : ∀ id v i, simulates v i →
  simulates (focus_node component id v) (want_node id i) ∧ containerRef (focus_node component id v) = containerRef v.

Lemma frame_focuses_intent v i events elements : tracks v i → i_mounted (intent_after i events) = true →
  frame_focuses_on v events elements =
  js_filter (λ e, negb (is_view_fit e)) (intent_frame (S := S) elements (intent_after i events)).2.
Proof.
  intros Ht Hm. destruct (track_run component want_node node_intended events v i Ht) as [Hr _].
  destruct (track_step component want_node node_intended _ _ (Frame elements) Hr) as [_ [_ H]].
  unfold frame_focuses_on. rewrite H. unfold intent_step. fold (intent_after i events). by rewrite Hm.
Qed.

(** A label chosen by key, or a node where that takes two frames as well. *)
Lemma two_frames v i before event target later1 elements1 later2 elements2 :
  tracks v i → i_mounted i = true → Forall present before → Forall quiet later1 → Forall quiet later2 →
  (∀ j, i_mounted j = true → (intent_step component want_node j event).1 = want_focus target j) →
  frame_focuses_on v (before ++ event :: later1 ++ Frame elements1 :: later2) elements2 =
  match nextTarget elements2 target with Some e => [Focused e] | None => [] end.
Proof.
  intros Ht Hm Hb H1 H2 Hevent.
  assert (∀ i0, i_mounted i0 = true → let j := intent_after i0 (event :: later1 ++ Frame elements1 :: later2) in
    i_mounted j = true ∧ i_focus j = Some (true, target) ∧ i_now j = []) as Hj.
  { intros i0 Hi0. change (event :: later1 ++ Frame elements1 :: later2) with ([event] ++ later1 ++ [Frame elements1] ++ later2).
    cbn zeta. rewrite !intent_after_app, !intent_after_one, Hevent by done.
    destruct (intent_after_quiet later1 (want_focus target i0)) as (Hm1 & Hf1 & Hn1); [done..|].
    set (j1 := intent_after (want_focus target i0) later1) in *.
    assert ((intent_step component want_node j1 (Frame elements1)).1 = (intent_frame (S := S) elements1 j1).1) as ->.
    { unfold intent_step. by rewrite Hm1. }
    destruct (intent_after_quiet later2 (intent_frame (S := S) elements1 j1).1) as (Hm2 & Hf2 & Hn2); [done..|].
    split_and!; [done| |done]. rewrite Hf2. cbn. by rewrite Hf1. }
  pose proof (intent_after_present before i Hb Hm) as Hmb. destruct (Hj _ Hmb) as (Hm' & Hf & Hn).
  rewrite (frame_focuses_intent v i) by (done || by rewrite intent_after_app). rewrite intent_after_app.
  cbn [intent_frame snd]. rewrite Hf, Hn. cbn [mbind list_bind]. rewrite app_nil_r, js_filter_app.
  set (j := intent_after _ _). destruct (nextTarget elements2 target), (i_fit j), (i_flow j); done.
Qed.
End focus.

Lemma removed_run {S} (component : Component S) events : ∀ v i, removed v i →
  Forall (λ effects, effects = []) (graph_run component v events).2.
Proof.
  induction events as [|event events IH]; intros v i Hr; cbn [graph_run]; [by apply Forall_nil_2|].
  assert (removed (graph_step component v event).1 i ∧ (graph_step component v event).2 = []) as [H1 H2].
  { pose proof Hr as (Hc & _). destruct event; cbn [graph_step]; rewrite ?Hc; try done. by apply removed_frame. }
  destruct (graph_step component v event) as [v1 e1]. cbn [fst snd] in *. specialize (IH v1 i H1).
  destruct (graph_run component v1 events). by apply Forall_cons.
Qed.

Lemma removed_silent {S} (component : Component S) want_node
  (node_intended : ∀ id v i, simulates v i →
    simulates (focus_node component id v) (want_node id i) ∧ containerRef (focus_node component id v) = containerRef v)
  (want_mounted : ∀ id i, i_mounted (want_node id i) = i_mounted i) v i before later :
  tracks v i → i_mounted i = true → Forall present before →
  Forall (λ effects, effects = []) (graph_run component (unmount (graph_run component v before).1) later).2.
Proof.
  intros Ht Hm Hb. destruct (track_run component want_node node_intended before v i Ht) as [Hr _].
  pose proof (intent_after_present component want_node want_mounted before i Hb Hm) as Hp. unfold intent_after in Hp.
  destruct Hr as [[_ Hsim]|(_ & Hm' & _)]; [|by rewrite Hp in Hm'].
  by eapply removed_run, removed_unmount.
Qed.

(** The target of an event that is answered after two frames. *)
Definition correlation_target (event : GraphEvent) : option Target :=
  match keyed_node correlation_component event with
  | Some id => Some (mkTarget NodeElements id data_id)
  | None => (λ id, mkTarget LabelElements id data_edgeId) <$> keyed_label event
  end.
Definition topology_target (event : GraphEvent) : option Target :=
  (λ id, mkTarget LabelElements id data_edgeId) <$> keyed_label event.

Lemma label_wanted {S} (component : Component S) want_node event target :
  (λ id, mkTarget LabelElements id data_edgeId) <$> keyed_label event = Some target →
  ∀ j, i_mounted j = true → (intent_step component want_node j event).1 = want_focus target j.
Proof.
  intros He j Hj. unfold intent_step. rewrite Hj. destruct event; try done. cbn in *. destruct (detail =? 0); by simplify_eq/=.
Qed.

Lemma correlation_wanted event target : correlation_target event = Some target →
  ∀ j, i_mounted j = true → (intent_step correlation_component correlation_want j event).1 = want_focus target j.
Proof.
  unfold correlation_target. destruct (keyed_node correlation_component event) as [id|] eqn:Hk; [|by apply label_wanted].
  intros [= <-] j Hj. unfold intent_step. rewrite Hj. destruct event; try done. cbn [negb] in *. unfold keyed_node in Hk.
  destruct (_ || _)%bool; [|done]. by rewrite Hk.
Qed.

(** C34: choosing by keyboard does not lose the focus. When a node or the label of an edge
    is chosen by key in the correlation drawing, or a label in the topology, then, whatever
    else happens (other choices by mouse, resizing, rendering, new flows) before the second
    frame, that frame focuses exactly the element that then carries the chosen id, if there
    is one; a choice by key before it is forgotten. And after a graph is removed no event
    and no frame has any effect. *)
Theorem graph_focus_returns hasObserver nodeIds edgeIds before event target later1 elements1 later2 elements2
  (Hbefore : Forall present before) :
  (correlation_target event = Some target →
   Forall (quiet correlation_component) later1 → Forall (quiet correlation_component) later2 →
   frame_focuses_on correlation_component (graph_mount hasObserver nodeIds edgeIds)
     (before ++ event :: later1 ++ Frame elements1 :: later2) elements2 =
   match nextTarget elements2 target with Some e => [Focused e] | None => [] end) ∧
  (topology_target event = Some target →
   Forall (quiet topology_component) later1 → Forall (quiet topology_component) later2 →
   frame_focuses_on topology_component (graph_mount hasObserver nodeIds edgeIds)
     (before ++ event :: later1 ++ Frame elements1 :: later2) elements2 =
   match nextTarget elements2 target with Some e => [Focused e] | None => [] end) ∧
  Forall (λ effects, effects = []) (graph_run topology_component
    (unmount (graph_run topology_component (graph_mount hasObserver nodeIds edgeIds) before).1) later1).2 ∧
  Forall (λ effects, effects = []) (graph_run correlation_component
    (unmount (graph_run correlation_component (graph_mount hasObserver nodeIds edgeIds) before).1) later1).2.
Proof.
  pose proof (mount_tracks hasObserver nodeIds edgeIds) as Hm.
  split_and!.
  - intros He H1 H2. eapply (two_frames correlation_component correlation_want);
      [done|exact correlation_intended|exact Hm|done..|]. by apply correlation_wanted.
  - intros He H1 H2. eapply (two_frames topology_component topology_want);
      [done|exact topology_intended|exact Hm|done..|]. by apply label_wanted.
  - by apply (removed_silent _ _ topology_intended (λ _ _, eq_refl) _ _ _ _ Hm).
  - by apply (removed_silent _ _ correlation_intended (λ _ _, eq_refl) _ _ _ _ Hm).
Qed.

(** A label is chosen by key while another focus is under way; the view is resized and
    redrawn, and the second frame focuses the label drawn for the chosen edge. *)
Definition sample_buttons : list Element :=
  [mkElement FlowNode (Some (u! "IP:1.2.3.4")) None; mkElement EdgeLabel None (Some (u! "e1"));
   mkElement EdgeLabel None (Some (u! "e2"))].
Lemma graph_focus_returns_witness :
  frame_focuses_on correlation_component (graph_mount true [u! "a"] [u! "e1"])
    ([Init 7; KeyDown (u! "Enter") (Some (Some (u! "IP:1.2.3.4"), true))]
     ++ ClickLabel (u! "e2") 0 :: [Resized; ClickEdge (u! "e1")] ++ Frame [] :: [Rendered [u! "b"] []]) sample_buttons =
  [Focused (mkElement EdgeLabel None (Some (u! "e2")))].
Proof.
  destruct (graph_focus_returns true [u! "a"] [u! "e1"] [Init 7; KeyDown (u! "Enter") (Some (Some (u! "IP:1.2.3.4"), true))]
    (ClickLabel (u! "e2") 0) (mkTarget LabelElements (u! "e2") data_edgeId) [Resized; ClickEdge (u! "e1")] []
    [Rendered [u! "b"] []] sample_buttons) as [H _]; [repeat constructor|].
  apply H; [vm_compute; reflexivity|repeat constructor..].
Defined.

(** ** The labels and the drawing *)

Lemma cmp_units_eq s : ∀ t, cmp_units s t = Eq → s = t.
Proof.
  induction s as [|c s IH]; intros [|d t]; cbn; try done. destruct (Z.compare_spec c d); cbn; try done.
  intros Hst. by rewrite (IH t Hst), H.
Qed.

(** Drawing the same ids in another order does not fit the view again. *)
Lemma signature_order nodeIds nodeIds' edgeIds edgeIds' : nodeIds ≡ₚ nodeIds' → edgeIds ≡ₚ edgeIds' →
  layoutSignature nodeIds edgeIds = layoutSignature nodeIds' edgeIds'.
Proof.
  intros Hn He. unfold layoutSignature.
  assert (∀ l l', l ≡ₚ l' → js_sort cmp_units l = js_sort cmp_units l') as Hs.
  { intros l l' Hl. apply (StronglySorted_unique_strong (cmp_le cmp_units)); [|apply js_sort_sorted, _..|by rewrite !js_sort_perm].
    intros x y _ _ Hxy Hyx. apply cmp_units_eq, (cmp_eq_le cmp_units). done. }
  by rewrite (Hs nodeIds nodeIds'), (Hs edgeIds edgeIds').
Qed.

(** The focus finds the button of an edge by the edge's id. *)
Lemma button_focused `{LocaleHost} layout bezierLabelY correlation selection limit others edge labelX state :
  let edges := (CorrelationGraph layout bezierLabelY correlation selection limit).1.2 in
  NoDup (ge_id <$> edges) → edge ∈ edges → (∀ e, e ∈ others → el_kind e ≠ EdgeLabel) →
  nextTarget (others ++ ((λ e, button_element (CorrelationEdge (labelX e) (state e) e)) <$> edges))
    (mkTarget LabelElements (ge_id edge) data_edgeId) =
  Some (mkElement EdgeLabel None (Some (ge_id edge))).
Proof.
  intros edges Hnd Hin Ho. unfold nextTarget. cbn [t_selector t_attribute t_id]. rewrite js_filter_app.
  assert (js_filter (selects LabelElements) others = []) as ->.
  { destruct (js_filter _ others) as [|e l] eqn:E; [done|]. assert (e ∈ e :: l) as He by left. rewrite <- E in He.
    apply js_filter_elem in He as [He Hs]. specialize (Ho e He). by destruct e as [[] ? ?]. }
  cbn [app]. rewrite js_filter_all; [|by intros e (x & -> & _)%list_elem_of_fmap].
  induction edges as [|e edges IH]; [no_elem|]. cbn [fmap list_fmap js_find]. cbn [dataset button_element el_edgeId eb_edgeId CorrelationEdge].
  case_bool_decide as Hid; [unfold button_element; cbn; by rewrite Hid|].
  apply NoDup_cons in Hnd as [_ Hnd]. apply elem_of_cons in Hin as [->|Hin]; [done|]. by apply IH.
Qed.
