(* ===== verification/ActivityPanel.v ===== *)
(** * The activity and distribution panels of the overview

    Models frontend/src/features/overview/DetectionActivityPanel.tsx (the life of the
    chart instance, its options, tooltips and texts), FleetDistributionPanel.tsx and
    AlertSeverityDonut.tsx in the same directory, and CountBars and TimeSeriesChart of
    frontend/src/components/charts.tsx, over the computations of Charts.v. The chart
    library is outside: an instance is a number, and what is called on it is listed. *)

From Stdlib Require Import QArith.
From S2P Require Import Prelude JsNumber JsDate Json Url Contracts Topology Dom Report Charts I18n.

#[local] Open Scope list_scope.
#[local] Open Scope Z_scope.

(** ** The chart of the detection activity *)

(** The parts of the options that carry data; the rest are constants, colours and sizes
    of the style sheet. *)
Record ChartSeries := mkChartSeries {
  cs_name : ustring; cs_data : list (Z * option Z); cs_showSymbol : bool; cs_color : ustring; cs_fill : ustring;
}.
Record ChartOption := mkChartOption { co_animation : bool; co_domain : Z * Z; co_splitNumber : Z; co_series : list ChartSeries }.

(** A style property, or its fallback. *)
Definition color (styles : ustring → ustring) (name fallback : ustring) : ustring :=
  let value := trim (styles name) in if truthy value then value else fallback.
Definition chart_colors (styles : ustring → ustring) : list ustring :=
  [color styles (u! "--chart-events") (u! "#2563e9"); color styles (u! "--chart-alerts") (u! "#7c83fd");
   color styles (u! "--chart-incidents") (u! "#16a249")].
Definition chart_fills (styles : ustring → ustring) : list ustring :=
  [color styles (u! "--chart-events-fill") (u! "rgba(37, 99, 233, .18)");
   color styles (u! "--chart-alerts-fill") (u! "rgba(124, 131, 253, .12)");
   color styles (u! "--chart-incidents-fill") (u! "rgba(22, 162, 73, .1)")].

(** What the effects read of the page: the styles of the theme, the height of the
    container, and whether motion is reduced. *)
Record Surroundings := mkSurroundings { styles : ustring → ustring; clientHeight : Z; reducedMotion : bool }.

Definition chart_option (animate : bool) (labels : list ustring) (around : Surroundings) (domain : Z * Z)
  (model : DetectionActivityModel) : ChartOption :=
  mkChartOption animate domain (if clientHeight around <? 220 then 2 else 4)
    (imap (λ index s, mkChartSeries (default [] (labels !! index)) (ds_points s) (Z.of_nat (length (ds_points s)) <? 18)
                        (default [] (chart_colors (styles around) !! index)) (default [] (chart_fills (styles around) !! index)))
       (activity_series model)).

Inductive ChartCall :=
| InitChart (chart : nat)
| SetOption (chart : nat) (option : ChartOption)
| ResizeChart (chart : nat)
| ShowTip (chart : nat) (seriesIndex dataIndex : nat)
| DisposeChart (chart : nat).

(** The props, the references and the selection; [listening] is the instance the window's
    and the observer's callbacks resize. *)
Record ActivityPanel := mkPanel {
  pn_model : DetectionActivityModel; pn_labels : list ustring;
  chartRef : option nat; renderedRef : bool; listening : option nat; nextChart : nat; selectedTimestamp : option Z;
}.

Definition hasDomain (model : DetectionActivityModel) : bool := bool_decide (is_Some (domain model)).

(** A rendering says which of its memoised values are new objects. *)
Inductive PanelEvent :=
| Rendered (model : option DetectionActivityModel) (labels : option (list ustring)) (themeChanged : bool) (around : Surroundings)
| WindowResized | BeforePrint | AfterPrint | Observed
| ChooseBucket (value : ustring)
| Unmounted.

(** The clean-up of the effect of [hasDomain]. *)
Definition dispose (p : ActivityPanel) : ActivityPanel * list ChartCall :=
  (mkPanel (pn_model p) (pn_labels p) None (renderedRef p) None (nextChart p) (selectedTimestamp p),
   match chartRef p with Some c => [DisposeChart c] | None => [] end).
(** The effect itself: the container is there exactly when there is a domain. *)
Definition init_chart (p : ActivityPanel) : ActivityPanel * list ChartCall :=
  if hasDomain (pn_model p) then
    (mkPanel (pn_model p) (pn_labels p) (Some (nextChart p)) (renderedRef p) (Some (nextChart p)) (S (nextChart p))
       (selectedTimestamp p), [InitChart (nextChart p)])
  else (p, []).
(** The effect of the labels, the model and the theme. *)
Definition set_option (around : Surroundings) (p : ActivityPanel) : ActivityPanel * list ChartCall :=
  match chartRef p, domain (pn_model p) with
  | Some c, Some range =>
    (mkPanel (pn_model p) (pn_labels p) (chartRef p) true (listening p) (nextChart p) (selectedTimestamp p),
     [SetOption c (chart_option (negb (renderedRef p) && negb (reducedMotion around)) (pn_labels p) around range (pn_model p))])
  | _, _ => (p, [])
  end.
(** The effect of the time stamps. *)
Definition keep_selection (p : ActivityPanel) : ActivityPanel :=
  mkPanel (pn_model p) (pn_labels p) (chartRef p) (renderedRef p) (listening p) (nextChart p)
    (keep_selected (pn_model p) (selectedTimestamp p)).

Definition and_then (f : ActivityPanel → ActivityPanel * list ChartCall) (r : ActivityPanel * list ChartCall) :
  ActivityPanel * list ChartCall :=
  let '(p, calls) := f r.1 in (p, r.2 ++ calls).

(** After a rendering the clean-ups run before the effects, these in the order of the source. *)
Definition panel_rendered (model : option DetectionActivityModel) (labels : option (list ustring)) (themeChanged : bool)
  (around : Surroundings) (p : ActivityPanel) : ActivityPanel * list ChartCall :=
  let had := hasDomain (pn_model p) in
  let p1 := mkPanel (default (pn_model p) model) (default (pn_labels p) labels) (chartRef p) (renderedRef p) (listening p)
              (nextChart p) (selectedTimestamp p) in
  let domainChanged := xorb had (hasDomain (pn_model p1)) in
  let r := if domainChanged then dispose p1 else (p1, []) in
  let r := if bool_decide (is_Some model) then (keep_selection r.1, r.2) else r in
  let r := if domainChanged then and_then init_chart r else r in
  if bool_decide (is_Some model) || bool_decide (is_Some labels) || themeChanged then and_then (set_option around) r else r.

Definition set_selected (selected : option Z) (p : ActivityPanel) : ActivityPanel :=
  mkPanel (pn_model p) (pn_labels p) (chartRef p) (renderedRef p) (listening p) (nextChart p) selected.

(** The choice of a bucket; the select is there only with a domain. *)
Definition choose_bucket (value : ustring) (p : ActivityPanel) : ActivityPanel * list ChartCall :=
  if negb (hasDomain (pn_model p)) then (p, []) else
  let '(selected, tip) := onBucketChange (pn_model p) value in
  (set_selected selected p,
   match tip, chartRef p with Some (seriesIndex, dataIndex), Some c => [ShowTip c seriesIndex dataIndex] | _, _ => [] end).

Definition resize (p : ActivityPanel) : ActivityPanel * list ChartCall :=
  (p, match listening p with Some c => [ResizeChart c] | None => [] end).

Definition panel_step (p : ActivityPanel) (event : PanelEvent) : ActivityPanel * list ChartCall :=
  match event with
  | Rendered model labels themeChanged around => panel_rendered model labels themeChanged around p
  | WindowResized | BeforePrint | AfterPrint | Observed => resize p
  | ChooseBucket value => choose_bucket value p
  | Unmounted => dispose p
  end.

(** Mounting runs every effect. *)
Definition panel_mount (model : DetectionActivityModel) (labels : list ustring) (around : Surroundings) :
  ActivityPanel * list ChartCall :=
  and_then (set_option around) (and_then init_chart (mkPanel model labels None false None 0 None, [])).

Fixpoint panel_run (p : ActivityPanel) (events : list PanelEvent) : ActivityPanel * list ChartCall :=
  match events with
  | [] => (p, [])
  | event :: rest =>
    let '(p1, calls) := panel_step p event in
    let '(p2, calls') := panel_run p1 rest in
    (p2, calls ++ calls')
  end.

(** ** The texts of the panel *)

Section texts.
Context (t : string → TranslationParams → option ustring) (dateText : ustring → ustring).

(** The entries the chart library gives to the tooltip: those that have the three fields,
    with the point or the bare value, and anything else. *)
Inductive TooltipValue := PointValue (timestamp : Z) (count : option Z) | BareValue (count : option Z).
Record TooltipParam := mkTooltipParam { tp_value : TooltipValue; tp_seriesIndex : nat; tp_seriesName : ustring }.

Definition stamp_text (timestamp : Z) : ustring := dateText (toISOString timestamp).
Definition value_text (count : option Z) : ustring := match count with Some n => string_of_Z n | None => u! "null" end.
Definition tooltip_row (labels : list ustring) (row : TooltipParam) : ustring :=
  default (tp_seriesName row) (labels !! tp_seriesIndex row) ++ u! ": " ++
  value_text (match tp_value row with PointValue _ count | BareValue count => count end).
Definition formatTooltip (raw : list (option TooltipParam)) (labels : list ustring) : ustring :=
  match omap id raw with
  | [] => []
  | first :: rest =>
    join (u! "<br>")
      ((u! "<strong>" ++ match tp_value first with PointValue timestamp _ => stamp_text timestamp | BareValue _ => [] end
        ++ u! "</strong>") :: map (tooltip_row labels) (first :: rest))
  end.

Definition panel_labels : option (list ustring) :=
  events ← t "overview.events"%string []; alerts ← t "overview.alerts"%string [];
  incidents ← t "overview.openIncidents"%string []; Some [events; alerts; incidents].

Definition count_or_none (none : ustring) (count : option Z) : ustring := from_option string_of_Z none count.

Record ActivityView := mkActivityView {
  av_summary : ustring; av_values : list (ustring * ustring * ustring); av_context : ustring;
  av_buckets : list (ustring * ustring); av_value : ustring; av_selected : option ustring;
}.
Inductive ActivityShown := NoActivity (recovery : option ustring) | Activity (view : ActivityView).

Definition series_class (index : nat) : ustring :=
  u! "series-" ++ default (u! "undefined") ([u! "events"; u! "alerts"; u! "incidents"] !! index).

Definition activity_shown (timezone : ustring) (recoveryTo : option ustring) (labels : list ustring)
  (model : DetectionActivityModel) (selected : option Z) : option ActivityShown :=
  match domain model with
  | None => Some (NoActivity recoveryTo)
  | Some (from, to) =>
    none ← t "common.none"%string [];
    let last index := count_or_none none (mjoin (latest model !! index)) in
    summary ← t "charts.detectionSummary"%string
      [(u! "events", PText (last 0%nat)); (u! "alerts", PText (last 1%nat)); (u! "incidents", PText (last 2%nat))];
    context ← t "charts.timeContext"%string
      [(u! "from", PText (stamp_text from)); (u! "to", PText (stamp_text to)); (u! "timezone", PText timezone)];
    choose ← t "charts.selectBucket"%string [];
    Some (Activity (mkActivityView summary
      (imap (λ index label, (series_class index, label, last index)) labels) context
      (([], choose) :: map (λ ts, (string_of_Z ts, stamp_text ts)) (timestamps model))
      (from_option string_of_Z [] selected)
      (selectionSummary stamp_text none labels model <$> selected)))
  end.
End texts.

(** ** Distributions *)

Section distributions.
Context (t : string → TranslationParams → option ustring).
Context (toLowerCase toUpperCase : ustring → ustring).

Definition status_name (status : SensorHealth) : ustring := SensorHealth_name status.
Definition RISK_LABEL_KEYS (level : RiskLevel) : string :=
  match level with
  | Risk_CRITICAL => "overview.riskCritical" | Risk_HIGH => "overview.riskHigh"
  | Risk_MEDIUM => "overview.riskMedium" | Risk_LOW => "overview.riskLow"
  end.
Definition SENSOR_LABEL_KEYS (status : SensorHealth) : string :=
  match status with
  | Health_HEALTHY => "overview.sensorHealthy" | Health_DEGRADED => "overview.sensorDegraded"
  | Health_UNAVAILABLE => "overview.sensorUnavailable"
  end.

(** The count of a status in the rows of a panel. *)
Definition status_count (status : SensorHealth) (rows : list (SensorHealth * Z)) : Z :=
  default 0 (snd <$> js_find (λ row, bool_decide (row.1 = status)) rows).
Definition number (n : Z) : ParamValue := PNumber (num_of_Z n).
Definition sensorSummary (sensor : ustring) (rows : list (SensorHealth * Z)) (total : Z) : option ustring :=
  t "overview.sensorStatusSummary"%string
    [(u! "degraded", number (status_count Health_DEGRADED rows)); (u! "healthy", number (status_count Health_HEALTHY rows));
     (u! "sensor", PText sensor); (u! "total", number total); (u! "unavailable", number (status_count Health_UNAVAILABLE rows))].

(** [replace(/(^|\s)\S/g, upper)]: the character after white space. *)
Fixpoint capitalize_words (after_space : bool) (s : ustring) : ustring :=
  match s with
  | [] => []
  | c :: r => if is_space c then c :: capitalize_words true r
              else (if after_space then toUpperCase [c] else [c]) ++ capitalize_words false r
  end.
Definition panel_humanize (value : ustring) : ustring :=
  capitalize_words true (map (λ c, if c =? 95 then 32 else c) (toLowerCase value)).

Definition share (total count : Z) : jsnum := num_mul (num_div (num_of_Z count) (num_of_Z total)) (num_of_Z 100).
Definition stack (total : Z) (rows : list (SensorHealth * Z)) : list (SensorHealth * jsnum) :=
  map (λ row, (row.1, share total row.2)) (js_filter (λ row, 0 <? row.2) rows).

Record RiskRow := mkRiskRow { rr_level : RiskLevel; rr_label : ustring; rr_count : Z; rr_width : jsnum }.
Record SensorGroup := mkSensorGroup {
  sg_sensor : ustring; sg_summary : ustring; sg_rows : list (SensorHealth * Z); sg_stack : list (SensorHealth * jsnum);
}.
Record FleetView := mkFleetView {
  fv_riskTotal : Z; fv_risk : option (list RiskRow);
  fv_sensorTotal : Z; fv_sensors : option (ustring * list (SensorHealth * jsnum) * list (SensorHealth * Z) * list SensorGroup);
}.

Definition risk_row (total : Z) (row : RiskLevel * Z) : option RiskRow :=
  label ← t (RISK_LABEL_KEYS row.1) []; Some (mkRiskRow row.1 label row.2 (share total row.2)).
Definition sensor_group (group : ustring * list (SensorHealth * Z)) : option SensorGroup :=
  let name := panel_humanize group.1 in
  summary ← sensorSummary name group.2 (rows_total group.2);
  Some (mkSensorGroup name summary group.2 (stack (rows_total group.2) group.2)).

Definition FleetDistributionPanel (byLevel : list RiskLevelCountDto) (sensorHealth : list SensorHealthCountDto) : option FleetView :=
  let riskTotal := rows_total (riskRows byLevel) in
  let sensorRows := status_rows sensorHealth in
  let sensorTotal := rows_total sensorRows in
  risk ← (if riskTotal =? 0 then Some None else Some <$> mapM (risk_row riskTotal) (riskRows byLevel));
  sensors ← (if sensorTotal =? 0 then Some None
             else all ← t "overview.allSensors"%string []; summary ← sensorSummary all sensorRows sensorTotal;
                  groups ← mapM sensor_group (sensorBreakdown sensorHealth);
                  Some (Some (summary, stack sensorTotal sensorRows, sensorRows, groups)));
  Some (mkFleetView riskTotal risk sensorTotal sensors).

(** The ring of the severities: the arcs that are drawn, each from where the ones before it
    end, and the legend. *)
Record DonutSegment := mkSegment { sg_severity : Severity; sg_count : Z; sg_percentage : jsnum; sg_offset : jsnum }.
Definition donut_segments (rows : list SeverityCountDto) (total : Z) : list DonutSegment :=
  let counts := severity_counts rows in
  let percentages := map (severity_percentage total) counts in
  imap (λ index severity,
    mkSegment severity (default 0 (counts !! index)) (default (num_of_Z 0) (percentages !! index))
      (foldl num_add (num_of_Z 0) (take index percentages))) SEVERITY_ORDER.
Definition AlertSeverityDonut (rows : list SeverityCountDto) (total : Z) : list DonutSegment * list DonutSegment :=
  let segments := donut_segments rows total in
  (js_filter (λ s, num_positive (sg_percentage s)) segments, segments).

(** Bars: three rows of a compact list, and the whole list behind a disclosure. *)
Inductive ChartDensity := compact | standard | expanded.
Record BarRow := mkBarRow { br_label : ustring; br_count : Z }.
Definition DistributionRows (maximum : Z) (rows : list BarRow) : list (ustring * Z * jsnum) :=
  map (λ row, (br_label row, br_count row, bar_width (num_of_Z maximum) (num_of_Z (br_count row)))) rows.
Record BarsView := mkBarsView { bv_rows : list (ustring * Z * jsnum); bv_more : option (Z * list (ustring * Z * jsnum)) }.
Definition CountBars (mode : ChartDensity) (rows : list BarRow) : option BarsView :=
  match rows with
  | [] => None
  | _ =>
    let maximum := foldr Z.max 1 (map br_count rows) in
    let visibleRows := match mode with compact => take 3 rows | _ => rows end in
    Some (mkBarsView (DistributionRows maximum visibleRows)
      (if Nat.ltb (length visibleRows) (length rows)
       then Some (Z.of_nat (length rows) - Z.of_nat (length visibleRows), DistributionRows maximum rows) else None))
  end.

(** A series: the drawn rows with their points, the path through these, the statistics of an
    expanded chart, and every row in the table. *)
Record SeriesView := mkSeriesView {
  sv_points : list (jsnum * jsnum * ustring); sv_path : ustring; sv_stats : option (Z * jsnum * Z);
  sv_table : list (ustring * Z);
}.
Definition path_step (index : nat) (point : jsnum * jsnum) : ustring :=
  (if Nat.eqb index 0 then u! "M" else u! "L") ++ param_text (PNumber point.1) ++ u! "," ++ param_text (PNumber point.2).
Definition TimeSeriesChart (dateText : ustring → ustring) (mode : ChartDensity) (rows : list TimeSeriesPointDto) : option SeriesView :=
  match rows with
  | [] => None
  | first :: rest =>
    let chartRows := match mode with compact => sampleRows rows 8 | _ => rows end in
    let points := coordinates (map (λ row, num_of_Z (ts_count row)) chartRows) in
    let counts := map ts_count rows in
    Some (mkSeriesView
      (zip_with (λ point row, (point.1, point.2, dateText (ts_bucketStartAt row) ++ u! ": " ++ string_of_Z (ts_count row))) points chartRows)
      (join (u! " ") (imap path_step points))
      (match mode with
       | expanded => Some (foldr Z.min (ts_count first) (map ts_count rest),
                           num_round (num_div (foldl num_add (num_of_Z 0) (map num_of_Z counts)) (num_of_Z (Z.of_nat (length counts)))),
                           foldr Z.max (ts_count first) (map ts_count rest))
       | _ => None
       end)
      (map (λ row, (dateText (ts_bucketStartAt row), ts_count row)) rows))
  end.
End distributions.

(** ** The life of the chart *)

(** What the chart library makes of the calls: at most one instance lives, a new one has
    never been there before, and every other call names the living one. A tip is shown at
    a point of the shown series that has a value. *)
Record Host := mkHost { h_next : nat; h_live : option (nat * option ChartOption) }.
Definition host_start : Host := mkHost 0 None.

Definition tip_shown (option : ChartOption) (seriesIndex dataIndex : nat) : bool :=
  match co_series option !! seriesIndex with
  | Some series => match cs_data series !! dataIndex with Some (_, Some _) => true | _ => false end
  | None => false
  end.
Definition host_call (h : Host) (call : ChartCall) : option Host :=
  match call, h_live h with
  | InitChart c, None => if Nat.leb (h_next h) c then Some (mkHost (S c) (Some (c, None))) else None
  | SetOption c o, Some (c', _) => if Nat.eqb c c' then Some (mkHost (h_next h) (Some (c, Some o))) else None
  | ResizeChart c, Some (c', _) => if Nat.eqb c c' then Some h else None
  | ShowTip c i j, Some (c', Some o) => if Nat.eqb c c' && tip_shown o i j then Some h else None
  | DisposeChart c, Some (c', _) => if Nat.eqb c c' then Some (mkHost (h_next h) None) else None
  | _, _ => None
  end.
Definition host_run (h : Host) (calls : list ChartCall) : option Host := foldM host_call h calls.

(** The options show the current data under the current labels. *)
Definition shows (model : DetectionActivityModel) (labels : list ustring) (option : ChartOption) : Prop :=
  ∃ animate around range, domain model = Some range ∧ option = chart_option animate labels around range model.

Record panel_ok (p : ActivityPanel) (h : Host) : Prop := {
  ok_chart : is_Some (chartRef p) ↔ hasDomain (pn_model p) = true;
  ok_listening : listening p = chartRef p;
  ok_next : (h_next h ≤ nextChart p)%nat;
  ok_live : match chartRef p with
            | Some c => ∃ o, h_live h = Some (c, Some o) ∧ shows (pn_model p) (pn_labels p) o
            | None => h_live h = None
            end;
}.

Definition animated (call : ChartCall) : bool := match call with SetOption _ o => co_animation o | _ => false end.
Definition animations (calls : list ChartCall) : nat := length (js_filter animated calls).
Arguments animations : simpl never.

Lemma host_run_app h calls calls' : host_run h (calls ++ calls') = host_run h calls ≫= λ h', host_run h' calls'.
Proof.
  revert h. induction calls as [|c calls IH]; intros h; [done|]. unfold host_run in *. cbn. destruct (host_call h c); [apply IH|done].
Qed.

(** The state between the clean-up and the effect of the options: a chart, if there is to
    be one, whose options may be those of an earlier rendering. *)
Record chart_ready (p : ActivityPanel) (h : Host) : Prop := {
  rd_chart : is_Some (chartRef p) ↔ hasDomain (pn_model p) = true;
  rd_listening : listening p = chartRef p;
  rd_next : (h_next h ≤ nextChart p)%nat;
  rd_live : match chartRef p with Some c => ∃ o, h_live h = Some (c, o) | None => h_live h = None end;
}.

Lemma has_domain_Some model : hasDomain model = true ↔ ∃ range, domain model = Some range.
Proof. unfold hasDomain. rewrite bool_decide_eq_true. done. Qed.

Lemma set_option_ok around p h : chart_ready p h →
  ∃ h', host_run h (set_option around p).2 = Some h' ∧ panel_ok (set_option around p).1 h'.
Proof.
  intros [Hc Hl Hn Hlive]. unfold set_option. destruct (chartRef p) as [c|] eqn:E.
  - destruct (proj1 (has_domain_Some (pn_model p))) as [range Hd]; [by apply Hc|]. rewrite Hd. cbn [fst snd].
    destruct Hlive as [o Ho]. exists (mkHost (h_next h) (Some (c, Some (chart_option (negb (renderedRef p) && negb (reducedMotion around))
      (pn_labels p) around range (pn_model p))))).
    split; [unfold host_run; cbn; by rewrite Ho, Nat.eqb_refl|].
    split; cbn; [done..|]. eexists. split; [done|]. by exists (negb (renderedRef p) && negb (reducedMotion around)), around, range.
  - exists h. split; [done|]. split; cbn; rewrite ?E; done.
Qed.

Lemma panel_ok_ready p h : panel_ok p h → chart_ready p h.
Proof.
  intros [Hc Hl Hn Hlive]. split; try done. destruct (chartRef p) as [c|]; [|done]. destruct Hlive as (o & -> & _). eauto.
Qed.

Lemma keep_selection_ready p h : chart_ready p h → chart_ready (keep_selection p) h.
Proof. by intros []. Qed.

(** After the clean-up no chart is left. *)
Lemma dispose_ready p h : chart_ready p h →
  ∃ h', host_run h (dispose p).2 = Some h' ∧ h_live h' = None ∧ (h_next h' ≤ nextChart p)%nat.
Proof.
  intros [_ _ Hn Hlive]. unfold dispose, host_run. destruct (chartRef p) as [c|]; cbn.
  - destruct Hlive as [o ->]. rewrite Nat.eqb_refl. by eexists.
  - by exists h.
Qed.

Lemma init_chart_ready p h : chartRef p = None → listening p = None → h_live h = None → (h_next h ≤ nextChart p)%nat →
  ∃ h', host_run h (init_chart p).2 = Some h' ∧ chart_ready (init_chart p).1 h'.
Proof.
  intros Hc Hl Hlive Hn. unfold init_chart, host_run. destruct (hasDomain (pn_model p)) eqn:Hd; cbn.
  - rewrite Hlive, (proj2 (Nat.leb_le _ _) Hn). eexists. split; [done|]. split; cbn; try done; by eexists.
  - exists h. split; [done|]. split; rewrite ?Hc, ?Hl, ?Hd; try done.
Qed.

Lemma rendered_ok model labels themeChanged around p h : panel_ok p h →
  ∃ h', host_run h (panel_rendered model labels themeChanged around p).2 = Some h' ∧ panel_ok (panel_rendered model labels themeChanged around p).1 h'.
Proof.
  intros Hok. pose proof (panel_ok_ready _ _ Hok) as Hready. unfold panel_rendered.
  set (p1 := mkPanel _ _ _ _ _ _ _). cbn zeta.
  destruct (xorb _ _) eqn:Hx.
  - assert (∃ m, model = Some m) as [m ->].
    { destruct model as [m|]; [by exists m|]. cbn in Hx. by rewrite xorb_nilpotent in Hx. }
    rewrite (bool_decide_eq_true_2 (is_Some (Some m))) by done. cbn [orb].
    destruct (dispose_ready p h Hready) as (h1 & Hh1 & Hlive & Hn).
    assert ((dispose p1).2 = (dispose p).2) as Hcalls by done.
    destruct (init_chart_ready (keep_selection (dispose p1).1) h1) as (h2 & Hh2 & Hready2); [done..|].
    destruct (set_option_ok around _ _ Hready2) as (h3 & Hh3 & Hok3). exists h3.
    unfold and_then. cbn [fst snd]. rewrite Hcalls.
    destruct (init_chart (keep_selection (dispose p1).1)) as [p2 calls2]. cbn [fst snd] in *.
    destruct (set_option around p2) as [p3 calls3]. cbn [fst snd] in *. split; [|done].
    by rewrite !host_run_app, Hh1; cbn [mbind option_bind]; rewrite Hh2; cbn [mbind option_bind].
  - assert (chart_ready p1 h) as Hready1.
    { destruct Hready as [Hc Hl Hn Hlive]. split; try done. apply xorb_eq in Hx.
      change (chartRef p1) with (chartRef p). by rewrite Hc, Hx. }
    set (r := if bool_decide (is_Some model) then _ else _).
    assert (chart_ready r.1 h ∧ r.2 = []) as [Hready2 Hcalls].
    { unfold r. destruct (bool_decide _); split; try done. by apply keep_selection_ready. }
    destruct (_ || _)%bool eqn:Hdeps.
    + destruct (set_option_ok around _ _ Hready2) as (h3 & Hh3 & Hok3). exists h3. unfold and_then. rewrite Hcalls.
      by destruct (set_option around r.1).
    + apply orb_false_iff in Hdeps as [[Hm Hlab]%orb_false_iff _].
      destruct model, labels; try done. subst r. cbn. exists h. split; [done|]. by destruct p, Hok.
Qed.

Lemma valueAt_findIndex points ts v : valueAt points ts = Some (Some v) →
  ∃ i, findIndex (λ p : Z * option Z, p.1 =? ts) points = Some i ∧ points !! i = Some (ts, Some v).
Proof.
  unfold valueAt. induction points as [|[t w] points IH]; cbn; [done|]. destruct (Z.eqb_spec t ts) as [->|Hne].
  - cbn. intros [= ->]. by exists 0%nat.
  - intros H. destruct (IH H) as (i & -> & Hi). by exists (S i).
Qed.

(** The tip of a chosen bucket is a point with a value. *)
Lemma tip_ok p h value : panel_ok p h →
  host_run h (choose_bucket value p).2 = Some h ∧ panel_ok (choose_bucket value p).1 h.
Proof.
  intros Hok. unfold choose_bucket. destruct (hasDomain (pn_model p)) eqn:Hd; cbn [negb]; [|done].
  destruct (onBucketChange (pn_model p) value) as [selected tip] eqn:E. cbn [fst snd].
  split; [|by destruct Hok]. destruct tip as [[si di]|]; [|done]. pose proof (ok_live _ _ Hok) as Hlive.
  destruct (chartRef p) as [c|]; [|done]. destruct Hlive as (o & Hlive & animate & around & range & _ & ->).
  unfold host_run. cbn. rewrite Hlive, Nat.eqb_refl. unfold tip_shown. cbn [andb].
  unfold onBucketChange in E. destruct (to_integer _) as [ts|]; [|done]. destruct (truthy value); [|done].
  unfold selectTimestamp in E. injection E as _ E. destruct (findIndex (has_number ts) _) as [si'|] eqn:Es; [|done].
  destruct (findIndex_Some _ _ _ Es) as (series & Hseries & Hnum). cbn in E. rewrite Hseries in E. cbn in E.
  unfold has_number in Hnum. destruct (valueAt _ ts) as [[v|]|] eqn:Ev; try done.
  destruct (valueAt_findIndex _ _ _ Ev) as (i & Hi & Hpoint). rewrite Hi in E. cbn in E. simplify_eq.
  unfold chart_option. cbn [co_series]. rewrite list_lookup_imap, Hseries. cbn. by rewrite Hpoint.
Qed.

Definition stays (event : PanelEvent) : Prop := match event with Unmounted => False | _ => True end.

Lemma panel_step_ok p h event : stays event → panel_ok p h →
  ∃ h', host_run h (panel_step p event).2 = Some h' ∧ panel_ok (panel_step p event).1 h'.
Proof.
  intros Hs Hok.
  assert (∃ h', host_run h (resize p).2 = Some h' ∧ panel_ok (resize p).1 h') as Hresize.
  { exists h. split; [|done]. unfold resize. cbn. rewrite (ok_listening _ _ Hok). pose proof (ok_live _ _ Hok) as Hlive.
    destruct (chartRef p) as [c|]; [|done]. destruct Hlive as (o & Hl & _). unfold host_run. cbn. by rewrite Hl, Nat.eqb_refl. }
  destruct event; cbn [panel_step]; try done; [by apply rendered_ok|].
  exists h. by apply tip_ok.
Qed.

Lemma panel_run_ok events : ∀ p h, Forall stays events → panel_ok p h →
  ∃ h', host_run h (panel_run p events).2 = Some h' ∧ panel_ok (panel_run p events).1 h'.
Proof.
  induction events as [|event events IH]; intros p h Hs Hok; cbn [panel_run]; [by exists h|].
  apply Forall_cons in Hs as [He Hs]. destruct (panel_step_ok p h event He Hok) as (h1 & Hh1 & Hok1).
  destruct (panel_step p event) as [p1 calls1]. cbn [fst snd] in *. destruct (IH p1 h1 Hs Hok1) as (h2 & Hh2 & Hok2).
  destruct (panel_run p1 events) as [p2 calls2]. exists h2. split; [|done]. cbn [snd]. by rewrite host_run_app, Hh1.
Qed.

Lemma panel_mount_ok model labels around :
  ∃ h, host_run host_start (panel_mount model labels around).2 = Some h ∧ panel_ok (panel_mount model labels around).1 h.
Proof.
  unfold panel_mount. set (p := mkPanel _ _ _ _ _ _ _). cbn zeta.
  destruct (init_chart_ready p host_start) as (h1 & Hh1 & Hready); [done..|].
  destruct (set_option_ok around _ _ Hready) as (h2 & Hh2 & Hok). exists h2. unfold and_then. cbn [fst snd app].
  destruct (init_chart p) as [p1 calls1]. cbn [fst snd] in *. destruct (set_option around p1) as [p2 calls2]. cbn [fst snd] in *.
  split; [|done]. by rewrite host_run_app, Hh1.
Qed.

(** *** Animation *)

Definition budget (p : ActivityPanel) : nat := if renderedRef p then 0 else 1.

Lemma animations_app calls calls' : animations (calls ++ calls') = (animations calls + animations calls')%nat.
Proof. unfold animations. by rewrite js_filter_app, length_app. Qed.

Lemma set_option_budget around p : (animations (set_option around p).2 + budget (set_option around p).1 ≤ budget p)%nat.
Proof.
  unfold set_option. destruct (chartRef p), (domain (pn_model p)); cbn.
  all: try (unfold animations; cbn; lia).
  unfold budget, animations. cbn. destruct (renderedRef p), (reducedMotion around); cbn; lia.
Qed.

Lemma rendered_budget model labels themeChanged around p :
  (animations (panel_rendered model labels themeChanged around p).2 + budget (panel_rendered model labels themeChanged around p).1 ≤ budget p)%nat.
Proof.
  unfold panel_rendered. set (p1 := mkPanel _ _ _ _ _ _ _). cbn zeta.
  set (r1 := if xorb _ _ then dispose p1 else (p1, [])).
  assert (animations r1.2 = 0%nat ∧ budget r1.1 = budget p) as [H1 B1].
  { unfold r1. destruct (xorb _ _); [|done]. unfold dispose. by destruct (chartRef p1). }
  set (r2 := if bool_decide (is_Some model) then _ else _).
  assert (animations r2.2 = 0%nat ∧ budget r2.1 = budget p) as [H2 B2] by (unfold r2; by destruct (bool_decide _)).
  set (r3 := if xorb _ _ then and_then init_chart r2 else r2).
  assert (animations r3.2 = 0%nat ∧ budget r3.1 = budget p) as [H3 B3].
  { unfold r3. destruct (xorb _ _); [|done]. unfold and_then, init_chart. destruct (hasDomain _); cbn; rewrite ?app_nil_r; [|done].
    rewrite animations_app, H2. done. }
  destruct (_ || _)%bool; [|lia]. unfold and_then. pose proof (set_option_budget around r3.1) as H.
  destruct (set_option around r3.1) as [p4 calls4]. cbn in *. rewrite animations_app. lia.
Qed.

Lemma panel_run_budget events : ∀ p, (animations (panel_run p events).2 + budget (panel_run p events).1 ≤ budget p)%nat.
Proof.
  induction events as [|event events IH]; intros p; cbn [panel_run]; [unfold animations; cbn; lia|].
  assert (animations (panel_step p event).2 + budget (panel_step p event).1 ≤ budget p)%nat as H.
  { destruct event; cbn [panel_step]; [apply rendered_budget| | | | | |];
      unfold resize, choose_bucket, dispose, animations, budget; cbn; try (destruct (listening p); cbn; lia).
    - destruct (hasDomain _); cbn; [|lia]. destruct (onBucketChange _ _) as [? [[]|]], (chartRef p); cbn; lia.
    - destruct (chartRef p); cbn; lia. }
  destruct (panel_step p event) as [p1 calls1]. specialize (IH p1). destruct (panel_run p1 events) as [p2 calls2].
  cbn [fst snd] in *. rewrite animations_app. lia.
Qed.

(** C35: the panel keeps its chart in hand. Whatever renderings with new or unchanged data,
    labels and themes, resizes, prints and choices of buckets follow the mounting, the chart
    library accepts every call: instances do not overlap and are not used after their
    disposal, and tips are shown at points that have a value. A chart lives exactly while
    there is activity to show, and shows the current data under the current labels; its
    options are animated at most once, and removing the panel leaves no chart. *)
Theorem activity_chart_lifecycle model labels around events (Hstays : Forall stays events) :
  let '(p0, calls0) := panel_mount model labels around in
  let '(p, calls) := panel_run p0 events in
  ∃ host, host_run host_start (calls0 ++ calls) = Some host ∧
    (if hasDomain (pn_model p)
     then ∃ chart option, chartRef p = Some chart ∧ h_live host = Some (chart, Some option) ∧ shows (pn_model p) (pn_labels p) option
     else h_live host = None) ∧
    (animations (calls0 ++ calls) ≤ 1)%nat ∧
    ∃ host', host_run host_start (calls0 ++ calls ++ (panel_step p Unmounted).2) = Some host' ∧ h_live host' = None.
Proof.
  destruct (panel_mount_ok model labels around) as (h0 & Hh0 & Hok0).
  assert (animations (panel_mount model labels around).2 + budget (panel_mount model labels around).1 ≤ 1)%nat as Hb0.
  { unfold panel_mount, and_then. set (r := init_chart _).
    assert (animations r.2 = 0%nat ∧ budget r.1 = 1%nat) as [H1 H2] by (unfold r, init_chart; by destruct (hasDomain _)).
    destruct r as [p1 calls1]. cbn [fst snd app] in *. pose proof (set_option_budget around p1) as H.
    destruct (set_option around p1). cbn [fst snd] in *. rewrite animations_app. lia. }
  destruct (panel_mount model labels around) as [p0 calls0]. cbn [fst snd] in *.
  destruct (panel_run_ok events p0 h0 Hstays Hok0) as (h & Hh & Hok). pose proof (panel_run_budget events p0) as Hb.
  destruct (panel_run p0 events) as [p calls]. cbn [fst snd] in *. exists h.
  assert (host_run host_start (calls0 ++ calls) = Some h) as Hrun by (by rewrite host_run_app, Hh0).
  split_and!; [done| |rewrite animations_app; lia|].
  - pose proof (ok_chart _ _ Hok) as Hc. pose proof (ok_live _ _ Hok) as Hlive.
    destruct (chartRef p) as [c|], (hasDomain (pn_model p)) eqn:Hd; try done.
    + destruct Hlive as (o & H1 & H2). by exists c, o.
    + destruct Hc as [Hc _]. by discriminate (Hc ltac:(done)).
    + destruct Hc as [_ Hc]. by destruct (Hc eq_refl).
  - destruct (dispose_ready p h (panel_ok_ready _ _ Hok)) as (h' & Hh' & Hlive & _). exists h'. split; [|done].
    cbn [panel_step]. rewrite app_assoc, host_run_app, Hrun. exact Hh'.
Qed.

(** A panel that loses its data and gets new, is printed, and shows a bucket. *)
Definition sample_around : Surroundings := mkSurroundings (λ _, []) 200 false.
Definition no_activity : DetectionActivityModel := mkActivity None [] [].
Definition sample_activity (ts : Z) : DetectionActivityModel :=
  mkActivity (Some (ts, ts)) [ts] [mkSeriesModel Events [(ts, Some 4)]; mkSeriesModel Alerts [(ts, None)]; mkSeriesModel Incidents [(ts, None)]].
Definition sample_events : list PanelEvent :=
  [WindowResized; Rendered (Some no_activity) None false sample_around;
   Rendered (Some (sample_activity 7)) (Some [u! "Events"]) false sample_around; BeforePrint; ChooseBucket (u! "7")].

Lemma activity_chart_lifecycle_witness :
  (panel_run (panel_mount (sample_activity 5) [] sample_around).1 sample_events).2 =
    [ResizeChart 0; DisposeChart 0; InitChart 1;
     SetOption 1 (chart_option false [u! "Events"] sample_around (7, 7) (sample_activity 7)); ResizeChart 1; ShowTip 1 0 0] ∧
  let '(p0, calls0) := panel_mount (sample_activity 5) [] sample_around in
  let '(p, calls) := panel_run p0 sample_events in
  (animations (calls0 ++ calls) ≤ 1)%nat ∧ h_live <$> host_run host_start (calls0 ++ calls) =
    Some (Some (1%nat, Some (chart_option false [u! "Events"] sample_around (7, 7) (sample_activity 7)))).
Proof.
  split; [vm_compute; reflexivity|].
  pose proof (activity_chart_lifecycle (sample_activity 5) [] sample_around sample_events ltac:(repeat constructor)) as H.
  destruct (panel_mount (sample_activity 5) [] sample_around) as [p0 calls0] eqn:E0.
  destruct (panel_run p0 sample_events) as [p calls] eqn:E.
  destruct H as (host & _ & _ & Hb & _). split; [exact Hb|].
  injection E0 as <- <-. vm_compute in E. injection E as <- <-. vm_compute. reflexivity.
Defined.

(** The ring draws what the legend counts: the segments with a share, in the order of severity. *)
Lemma donut_drawn rows total segment : segment ∈ (AlertSeverityDonut rows total).1 →
  segment ∈ (AlertSeverityDonut rows total).2 ∧ 0 < total.
Proof.
  unfold AlertSeverityDonut. cbn [fst snd]. intros [Hin Hp]%js_filter_elem. split; [done|].
  unfold donut_segments in Hin. apply elem_of_lookup_imap in Hin as (i & severity & -> & _). cbn [sg_percentage] in Hp.
  destruct (Z.ltb_spec 0 total); [done|]. exfalso.
  assert (∀ counts, map (severity_percentage total) counts = map (λ _, num_of_Z 0) counts) as E.
  { intros counts. apply map_ext. intros c. unfold severity_percentage. by rewrite (proj2 (Z.ltb_ge 0 total)). }
  rewrite E in Hp. rewrite list_lookup_fmap in Hp. by destruct (severity_counts rows !! i).
Qed.
