(* ===== verification/IncidentView.v ===== *)
(** * What the incident page shows, and the status it saves

    Models the panel of frontend/src/components/IncidentInvestigation.tsx (warnings,
    stage, enlarged dialog) and frontend/src/pages/IncidentDetailPage.tsx (the parts shown
    for the results of its queries, the queue, the ledger, and the update of the status as
    a machine of choices, requests and answers), over the selection and the views of
    Investigation.v. *)

From S2P Require Import Prelude JsNumber JsDate Url Contracts ApiClient UrlState Auth I18n Investigation Intelligence ProcessTree EndpointPage.

#[local] Open Scope list_scope.
#[local] Open Scope Z_scope.

(** ** The investigation *)

Inductive StageGraph := DrawnGraph (investigation : IncidentInvestigationDto) | FallbackTable (warning : bool) (title : ustring).
Record Stage := mkStage {
  stage_expandable : bool; stage_legend : list (InvestigationNodeType * nat); stage_edges : Z;
  stage_graph : StageGraph; stage_selected : SelectedView;
}.
Record WarningItem := mkWarningItem { wi_code : InvestigationWarningCode; wi_text : ustring; wi_archives : option ustring }.
Record InvestigationPanel := mkInvestigationPanel {
  ip_partial : bool; ip_warnings : list WarningItem; ip_stage : Stage; ip_table : option (list EvidenceRow);
  ip_dialog : option Stage;
}.

Section view.
Context (t : string → TranslationParams → option ustring).
Context `{DateHost} (mediumDateTime : Locale → Z → ustring) (displayLocale : Locale).

Definition InvestigationStage (onExpand graphEnabled : bool) (investigation : IncidentInvestigationDto)
  (selection : option InvestigationSelection) : option Stage :=
  graph ← (if showGraph graphEnabled investigation then Some (DrawnGraph investigation)
           else title ← GraphFallback t graphEnabled investigation;
                Some (FallbackTable (inv_partial investigation || inv_truncated investigation) title));
  selected ← SelectedContext t mediumDateTime displayLocale selection investigation;
  Some (mkStage onExpand (node_counts investigation) (inv_edgeCount investigation) graph selected).

Definition warning_item (warning : InvestigationWarningDto) : option WarningItem :=
  text ← investigationWarning t (warning_code warning);
  Some (mkWarningItem (warning_code warning) text
    (match warning_code warning with Warning_ARCHIVE_NOT_READY => Some (u! "/operations/archives") | _ => None end)).

(** [expanded]: the state of the dialog. *)
Definition IncidentInvestigation (graphEnabled expanded : bool) (investigation : IncidentInvestigationDto)
  (selection : option InvestigationSelection) : option InvestigationPanel :=
  localized ← localizedInvestigation t investigation;
  warnings ← mapM warning_item (inv_warnings investigation);
  stage ← InvestigationStage true graphEnabled localized selection;
  table ← match inv_edges localized with
          | [] => Some None
          | _ => Some <$> EvidenceTable t mediumDateTime displayLocale selection localized
          end;
  dialog ← (if expanded then Some <$> InvestigationStage false graphEnabled localized selection else Some None);
  Some (mkInvestigationPanel (inv_partial investigation || inv_truncated investigation) warnings stage table dialog).

(** ** The queue *)

Record QueueRow := mkQueueRow {
  qr_current : bool; qr_to : ustring; qr_title : ustring; qr_severity : Severity; qr_status : IncidentStatus;
  qr_correlationKey : ustring; qr_meta : ustring;
}.
Inductive QueueView := QueueLoading | QueueError (error : Rejection) | QueueEmpty | QueueRows (rows : list QueueRow).

Definition queue_row (currentIncidentId : Z) (params : URLSearchParams) (incident : IncidentDto) : option QueueRow :=
  title ← detectionTitle t (incident_title incident) None;
  time ← formatDateTime mediumDateTime displayLocale (Some (incident_lastDetectedAt incident));
  meta ← t "incident.queueMeta"%string
    [(u! "alerts", PNumber (num_of_Z (incident_alertCount incident))); (u! "time", I18n.PText time)];
  Some (mkQueueRow (incident_incidentId incident =? currentIncidentId) (incidentDetailUrl (incident_incidentId incident) params)
    title (incident_severity incident) (incident_status incident) (incident_correlationKey incident) meta).

Definition IncidentQueue (currentIncidentId : Z) (params : URLSearchParams) (queue : QueryResult (list IncidentDto)) : option QueueView :=
  match queue, q_error queue with
  | QPending, _ => Some QueueLoading
  | _, Some error => Some (QueueError error)
  | _, None =>
    match default [] (q_data queue) with
    | [] => Some QueueEmpty
    | items => QueueRows <$> mapM (queue_row currentIncidentId params) items
    end
  end.

(** ** The ledger of an incident *)

Record IncidentDetailDto := mkIncidentDetail { detail_incident : IncidentDto; detail_alerts : list AlertDto }.

Record AlertRow := mkAlertRow {
  ar_to : ustring; ar_title : ustring; ar_rule : ustring; ar_severity : Severity; ar_status : AlertStatus; ar_detected : ustring;
}.
Definition alert_row (alert : AlertDto) : option AlertRow :=
  title ← detectionTitle t (alert_title alert) (Some (alert_ruleCode alert));
  detected ← formatDateTime mediumDateTime displayLocale (Some (alert_detectedAt alert));
  Some (mkAlertRow (u! "/alerts/" ++ string_of_Z (alert_alertId alert)) title
    (alert_ruleCode alert ++ u! " · v" ++ string_of_Z (alert_ruleVersion alert)) (alert_severity alert) (alert_status alert) detected).

Record IncidentLedger := mkIncidentLedger {
  il_eyebrow : ustring; il_title : ustring; il_description : ustring;
  il_context : list (ustring * ustring); il_endpoint : ustring; il_alerts : option (list AlertRow);
}.
Definition incident_ledger (detail : IncidentDetailDto) : option IncidentLedger :=
  let incident := detail_incident detail in
  let date := formatDateTime mediumDateTime displayLocale in
  title ← detectionTitle t (incident_title incident) None;
  noDescription ← t "incident.noDescription"%string [];
  description ← detectionSummary t (incident_description incident) noDescription;
  key ← t "incident.correlationKey"%string []; alerts ← t "incident.alertCount"%string [];
  from ← t "incident.windowStart"%string []; windowStart ← date (Some (incident_windowStartAt incident));
  to ← t "incident.windowEnd"%string []; windowEnd ← date (Some (incident_windowEndAt incident));
  first ← t "incident.firstDetected"%string []; firstDetected ← date (Some (incident_firstDetectedAt incident));
  last ← t "incident.lastDetected"%string []; lastDetected ← date (Some (incident_lastDetectedAt incident));
  closed ← t "incident.closed"%string []; closedAt ← date (incident_closedAt incident);
  rows ← match detail_alerts detail with [] => Some None | l => Some <$> mapM alert_row l end;
  Some (mkIncidentLedger (u! "INCIDENT " ++ string_of_Z (incident_incidentId incident)) title description
    [(key, incident_correlationKey incident); (u! "Endpoint", u! "Endpoint " ++ string_of_Z (incident_endpointId incident));
     (alerts, string_of_Z (incident_alertCount incident)); (from, windowStart); (to, windowEnd);
     (first, firstDetected); (last, lastDetected); (closed, closedAt)]
    (u! "/endpoints/" ++ string_of_Z (incident_endpointId incident)) rows).
End view.

(** ** The parts of the page *)

(** The link back to the list, and the one of the cleared queue. *)
Definition queueUrl (params : URLSearchParams) : ustring :=
  u! "/incidents" ++ match params with [] => [] | _ => u! "?" ++ params_string params end.

Inductive IncidentPart :=
| InvalidIncident
| DetailLoading | DetailFailed (error : Rejection)
| QueueCleared (link : ustring) | QueuePanel
| DetailShown (incident : IncidentDetailDto)
| InvestigationLoading | InvestigationFailed (error : Rejection) | InvestigationShown (investigation : IncidentInvestigationDto)
| TimelineLoading | TimelineFailed (error : Rejection) | TimelineShown (items : list AttackTimelineItemDto)
| ProcessPrompt | ProcessLoading | ProcessFailed (error : Rejection) | ProcessShown (nodes : list ProcessTreeNodeDto).

Definition part_failed {A} (part : Rejection → IncidentPart) (q : QueryResult A) : list IncidentPart :=
  match q_error q with Some e => [part e] | None => [] end.
Definition part_shown {A} (part : A → IncidentPart) (q : QueryResult A) : list IncidentPart :=
  match q_data q with Some d => [part d] | None => [] end.
Definition part_loading {A} (part : IncidentPart) (q : QueryResult A) : list IncidentPart := if q_pending q then [part] else [].

Definition showQueue (queue : QueryResult (list IncidentDto)) : bool :=
  q_pending queue || bool_decide (is_Some (q_error queue)) || negb (bool_decide (default [] (q_data queue) = [])).

(** The query of the process tree is only enabled for a process, and pending otherwise. *)
Definition incident_page_parts (incidentId : option Z) (params : URLSearchParams) (result : QueryResult IncidentDetailDto)
  (queue : QueryResult (list IncidentDto)) (investigation : QueryResult IncidentInvestigationDto)
  (timeline : QueryResult (list AttackTimelineItemDto)) (processPid : option Z)
  (processTree : QueryResult (list ProcessTreeNodeDto)) : list IncidentPart :=
  match incidentId with
  | None => [InvalidIncident]
  | Some _ =>
    part_loading DetailLoading result ++ part_failed DetailFailed result ++
    match q_data result with
    | None => []
    | Some detail =>
      (if showQueue queue then [] else [QueueCleared (queueUrl params)])
      ++ (if showQueue queue then [QueuePanel] else []) ++ [DetailShown detail]
      ++ part_loading InvestigationLoading investigation ++ part_failed InvestigationFailed investigation
      ++ part_shown InvestigationShown investigation
      ++ part_loading TimelineLoading timeline ++ part_failed TimelineFailed timeline ++ part_shown TimelineShown timeline
      ++ (if bool_decide (processPid = None) then [ProcessPrompt] else part_loading ProcessLoading processTree)
      ++ part_failed ProcessFailed processTree ++ part_shown ProcessShown processTree
    end
  end.

(** ** The status *)

(** A part of a query's key; a query is refreshed when its key starts with the given one. *)
Inductive KeyPart := KText (text : ustring) | KNumber (number : Z).
#[export] Instance KeyPart_eq_dec : EqDecision KeyPart.
Proof. solve_decision. Defined.

Definition invalidateIncidentData (incidentId : Z) : list (list KeyPart) :=
  [[KText (u! "incident"); KNumber incidentId]; [KText (u! "incidents")]; [KText (u! "incident-workbench-queue")];
   [KText (u! "endpoints")]; [KText (u! "dashboard")]].
Definition refreshed (invalidated : list (list KeyPart)) (key : list KeyPart) : bool :=
  js_some (λ prefix, bool_decide (take (length prefix) key = prefix)) invalidated.

Inductive SaveState := SaveIdle | Saving (incidentId : Z) (status : IncidentStatus) | SaveFailed (error : Rejection) | StatusSaved.

(** The valid identifier of the route, the loaded incident, the draft with the key of the
    form it lives in, and the update. *)
Record StatusPage := mkStatusPage {
  st_incidentId : Z; st_incident : option IncidentDto; st_draft : option (ustring * IncidentStatus); st_mutation : SaveState;
}.

(** The key of the form: a new version of the incident starts a new draft. *)
Definition form_key (incident : IncidentDto) : ustring :=
  string_of_Z (incident_incidentId incident) ++ u! "-" ++ incident_updatedAt incident.
Definition form_draft (draft : option (ustring * IncidentStatus)) (incident : option IncidentDto) : option (ustring * IncidentStatus) :=
  match incident with
  | None => None
  | Some i =>
    match draft with
    | Some (key, d) => if bool_decide (key = form_key i) then draft else Some (form_key i, incident_status i)
    | None => Some (form_key i, incident_status i)
    end
  end.

Inductive StatusEvent :=
| GoTo (id : Z) (cached : option IncidentDto) | Loaded (incident : IncidentDto)
| Choose (status : IncidentStatus) | Save | Settled (failure : option Rejection).
Inductive StatusAction := SendStatus (incidentId : Z) (status : IncidentStatus) | Invalidate (keys : list (list KeyPart)).

Definition show_incident (id : Z) (incident : option IncidentDto) (page : StatusPage) : StatusPage :=
  mkStatusPage id incident (form_draft (st_draft page) incident) (st_mutation page).
Definition set_save (m : SaveState) (page : StatusPage) : StatusPage :=
  mkStatusPage (st_incidentId page) (st_incident page) (st_draft page) m.
Definition is_saving (page : StatusPage) : bool := match st_mutation page with Saving _ _ => true | _ => false end.

Section status.
(** Whether the user may change incidents, and whether an answer calls the function of the
    latest rendering. *)
Context (canUpdate latest_callbacks : bool).

(** The form's controls, when they are there and enabled. *)
Definition status_controls (page : StatusPage) : option (IncidentDto * ustring * IncidentStatus) :=
  if canUpdate && negb (is_saving page)
  then incident ← st_incident page; draft ← st_draft page; Some (incident, draft.1, draft.2) else None.

Definition status_step (page : StatusPage) (event : StatusEvent) : StatusPage * list StatusAction :=
  match event with
  | GoTo id cached => (show_incident id cached page, [])
  | Loaded loaded => (show_incident (st_incidentId page) (Some loaded) page, [])
  | Choose status =>
    (match status_controls page with
     | Some (_, key, _) => mkStatusPage (st_incidentId page) (st_incident page) (Some (key, status)) (st_mutation page)
     | None => page
     end, [])
  | Save =>
    match status_controls page with
    | Some (shown, _, draft) =>
      if bool_decide (draft = incident_status shown) then (page, [])
      else (set_save (Saving (st_incidentId page) draft) page, [SendStatus (st_incidentId page) draft])
    | None => (page, [])
    end
  | Settled failure =>
    match st_mutation page with
    | Saving id _ =>
      match failure with
      | Some e => (set_save (SaveFailed e) page, [])
      | None => (set_save StatusSaved page, [Invalidate (invalidateIncidentData (if latest_callbacks then st_incidentId page else id))])
      end
    | _ => (page, [])
    end
  end.

(** Every step with the page it starts from. *)
Fixpoint status_run (page : StatusPage) (events : list StatusEvent) : StatusPage * list (StatusPage * StatusEvent * list StatusAction) :=
  match events with
  | [] => (page, [])
  | ev :: rest =>
    let '(page1, actions) := status_step page ev in
    let '(page2, log) := status_run page1 rest in
    (page2, (page, ev, actions) :: log)
  end.
End status.

(** A page without a save is like a new one. *)
Definition status_mount (id : Z) (cached : option IncidentDto) : StatusPage :=
  show_incident id cached (mkStatusPage id None None SaveIdle).

(** The note and the error over the ledger. *)
Inductive SaveNote := SavedNote | SaveError (error : Rejection).
Definition save_note (page : StatusPage) : option SaveNote :=
  match st_incident page, st_mutation page with
  | Some _, StatusSaved => Some SavedNote
  | Some _, SaveFailed e => Some (SaveError e)
  | _, _ => None
  end.

(** The queries answer for the identifier they were asked with. *)
Fixpoint answers (id : Z) (events : list StatusEvent) : Prop :=
  match events with
  | [] => True
  | GoTo next cached :: rest => from_option (λ i, incident_incidentId i = next) True cached ∧ answers next rest
  | Loaded loaded :: rest => incident_incidentId loaded = id ∧ answers id rest
  | _ :: rest => answers id rest
  end.

(** ** Lemmas *)

Record status_ok (page : StatusPage) : Prop := {
  ok_incident : ∀ i, st_incident page = Some i → incident_incidentId i = st_incidentId page;
  ok_draft : fst <$> st_draft page = form_key <$> st_incident page;
}.

Lemma form_draft_key draft incident : fst <$> form_draft draft incident = form_key <$> incident.
Proof.
  destruct incident as [i|]; [|done]. cbn. destruct draft as [[key d]|]; [|done].
  case_bool_decide as E; [|done]. cbn. by rewrite E.
Qed.

Section status_facts.
Context (canUpdate latest_callbacks : bool).
Abbreviation step := (status_step canUpdate latest_callbacks).
Abbreviation run := (status_run canUpdate latest_callbacks).

Lemma status_controls_Some page incident key d : status_controls canUpdate page = Some (incident, key, d) →
  canUpdate = true ∧ is_saving page = false ∧ st_incident page = Some incident ∧ st_draft page = Some (key, d).
Proof.
  unfold status_controls. destruct canUpdate, (is_saving page); cbn; try done.
  destruct (st_incident page), (st_draft page) as [[]|]; cbn; intros; by simplify_eq.
Qed.

Lemma status_step_ok page ev : answers (st_incidentId page) [ev] → status_ok page → status_ok (step page ev).1.
Proof.
  intros Ha [Hi Hd]. destruct ev as [id cached|loaded|status| |failure]; cbn [status_step].
  - split; [|apply form_draft_key]. cbn. intros i ->. cbn in Ha. by destruct Ha.
  - split; [|apply form_draft_key]. cbn in Ha |- *. intros i [= <-]. by destruct Ha.
  - destruct (status_controls canUpdate page) as [[[incident key] d]|] eqn:E; [|done].
    apply status_controls_Some in E as (_ & _ & _ & Hdraft). split; cbn; [done|]. by rewrite <- Hd, Hdraft.
  - destruct (status_controls canUpdate page) as [[[incident key] d]|]; [|done]. by case_bool_decide.
  - destruct (st_mutation page) eqn:E; try done. by destruct failure.
Qed.

(** The page after each event answers for the identifier it then has. *)
Lemma answers_step page ev rest : answers (st_incidentId page) (ev :: rest) →
  answers (st_incidentId page) [ev] ∧ answers (st_incidentId (step page ev).1) rest.
Proof.
  destruct ev as [id cached|loaded|status| |failure]; cbn [answers status_step]; intros H.
  - destruct H. by split.
  - destruct H. by split.
  - split; [done|]. by destruct (status_controls canUpdate page) as [[[]]|].
  - split; [done|]. destruct (status_controls canUpdate page) as [[[]]|]; [by case_bool_decide|done].
  - split; [done|]. destruct (st_mutation page); try done. by destruct failure.
Qed.

(** What is true of the page before every step. *)
Lemma status_run_before events : ∀ page, answers (st_incidentId page) events → status_ok page →
  Forall (λ entry : StatusPage * StatusEvent * list StatusAction,
    status_ok entry.1.1 ∧ entry.2 = (step entry.1.1 entry.1.2).2) (run page events).2 ∧ status_ok (run page events).1.
Proof.
  induction events as [|ev events IH]; intros page Ha Hok; cbn [status_run]; [by split; [apply Forall_nil_2|]|].
  apply answers_step in Ha as [Hev Ha]. pose proof (status_step_ok page ev Hev Hok) as Hok1.
  destruct (step page ev) as [page1 actions] eqn:E. cbn [fst] in *. destruct (IH page1 Ha Hok1) as [H1 H2].
  destruct (run page1 events) as [page2 log]. split; [|done]. apply Forall_cons. split; [|done]. split; [done|]. by cbn; rewrite E.
Qed.

Definition is_send (a : StatusAction) : bool := match a with SendStatus _ _ => true | _ => false end.
Definition sends (log : list (StatusPage * StatusEvent * list StatusAction)) : nat := length (js_filter is_send (log ≫= snd)).
(** The answers that end an update. *)
Definition ends_save (entry : StatusPage * StatusEvent * list StatusAction) : bool :=
  is_saving entry.1.1 && match entry.1.2 with Settled _ => true | _ => false end.
Definition outstanding (page : StatusPage) : nat := if is_saving page then 1 else 0.

Lemma status_step_outstanding page ev :
  (length (js_filter is_send (step page ev).2) + outstanding page =
   (if ends_save (page, ev, (step page ev).2) then 1 else 0) + outstanding (step page ev).1)%nat.
Proof.
  unfold ends_save, outstanding. destruct ev as [id cached|loaded|status| |failure]; cbn [status_step fst snd];
    rewrite ?andb_false_r, ?andb_true_r.
  - unfold is_saving. cbn. by destruct (st_mutation page).
  - unfold is_saving. cbn. by destruct (st_mutation page).
  - destruct (status_controls canUpdate page) as [[[]]|]; unfold is_saving; cbn; by destruct (st_mutation page).
  - destruct (status_controls canUpdate page) as [[[i key] d]|] eqn:E; [|done]. apply status_controls_Some in E as (_ & Hs & _).
    by case_bool_decide; cbn; rewrite Hs.
  - unfold is_saving. destruct (st_mutation page) eqn:E; cbn; rewrite ?E; try done. by destruct failure.
Qed.

Lemma status_run_outstanding events : ∀ page,
  (sends (run page events).2 + outstanding page =
   length (js_filter ends_save (run page events).2) + outstanding (run page events).1)%nat.
Proof.
  induction events as [|ev events IH]; intros page; cbn [status_run]; [done|].
  pose proof (status_step_outstanding page ev) as H. destruct (step page ev) as [page1 actions]. cbn [fst snd] in H.
  specialize (IH page1). destruct (run page1 events) as [page2 log]. cbn [fst snd] in *. unfold sends in *.
  cbn [mbind list_bind]. rewrite js_filter_app, length_app, js_filter_cons. cbn [snd].
  destruct (ends_save _); cbn [length]; lia.
Qed.
End status_facts.

Section refreshing.
Context (canUpdate latest_callbacks : bool).

(** What the success of an update refreshes. *)
Lemma status_step_refreshes page ev :
  (∃ keys, Invalidate keys ∈ (status_step canUpdate latest_callbacks page ev).2) ↔ is_saving page = true ∧ ev = Settled None.
Proof.
  unfold is_saving. destruct ev as [| |status| |failure]; cbn [status_step].
  1-3: by split; [intros [keys Hk%not_elem_of_nil]|intros [_ ?]].
  - split; [|by intros [_ ?]]. intros [keys Hk]. exfalso. revert Hk. destruct (status_controls canUpdate page) as [[[shown key] d]|]; cbn.
    + by case_bool_decide; cbn; [intros Hk%not_elem_of_nil|intros Hk%list_elem_of_singleton].
    + by intros Hk%not_elem_of_nil.
  - destruct (st_mutation page), failure; cbn; split; try (by intros [keys Hk%not_elem_of_nil]); try (by intros [??]).
    all: first [by intros [keys Hk%list_elem_of_singleton]|intros _; eexists; by left].
Qed.
Lemma status_step_saved page saved s : st_mutation page = Saving saved s →
  ∃ keys, (status_step canUpdate latest_callbacks page (Settled None)).2 = [Invalidate keys] ∧
    (∀ rest name, name ∈ [u! "incidents"; u! "incident-workbench-queue"; u! "endpoints"; u! "dashboard"] →
       refreshed keys (KText name :: rest) = true) ∧
    (latest_callbacks = false ∨ st_incidentId page = saved →
     ∀ rest, refreshed keys (KText (u! "incident") :: KNumber saved :: rest) = true).
Proof.
  intros E. cbn [status_step]. rewrite E. eexists. split; [done|]. split.
  - intros rest name Hn. set_unfold in Hn. unfold refreshed, js_some, invalidateIncidentData.
    destruct_or! Hn; subst name; cbn; rewrite ?take_0; repeat (case_bool_decide; [done|]); done.
  - intros Hcase rest. assert ((if latest_callbacks then st_incidentId page else saved) = saved) as ->.
    { destruct latest_callbacks; [|done]. by destruct Hcase. }
    unfold refreshed, js_some, invalidateIncidentData. cbn. by rewrite !bool_decide_eq_true_2 by done.
Qed.
End refreshing.


(** ** The parts fit the queries *)

(** With an incident on the page every failed query is reported, the queue's note and its
    panel exclude each other, and the panel never has to say that it is empty. *)
Lemma incident_parts_complete id params result queue investigation timeline pid tree incident :
  q_data result = Some incident →
  let parts := incident_page_parts (Some id) params result queue investigation timeline pid tree in
  DetailShown incident ∈ parts ∧
  (∀ e, q_error result = Some e → DetailFailed e ∈ parts) ∧
  (∀ e, q_error investigation = Some e → InvestigationFailed e ∈ parts) ∧
  (∀ e, q_error timeline = Some e → TimelineFailed e ∈ parts) ∧
  (∀ e, q_error tree = Some e → ProcessFailed e ∈ parts) ∧
  (QueuePanel ∈ parts ↔ QueueCleared (queueUrl params) ∉ parts) ∧
  (QueueCleared (queueUrl params) ∈ parts ↔ queue = QData [] None).
Proof.
  intros Hd. cbn zeta. unfold incident_page_parts. rewrite Hd.
  assert (∀ {A} (part : Rejection → IncidentPart) (q : QueryResult A) e, q_error q = Some e → part e ∈ part_failed part q) as Hf.
  { intros A part q e He. unfold part_failed. rewrite He. by left. }
  set (rest := [DetailShown incident] ++ _).
  assert (∀ part, part ∈ rest → part ≠ QueuePanel ∧ ∀ link, part ≠ QueueCleared link) as Hrest.
  { unfold rest, part_loading, part_failed, part_shown. intros part Hp.
    rewrite !elem_of_app in Hp. destruct_or! Hp; repeat case_match;
      (apply list_elem_of_singleton in Hp as -> || by apply not_elem_of_nil in Hp); by split. }
  assert (∀ part, part ∈ part_loading DetailLoading result ++ part_failed DetailFailed result → part ≠ QueuePanel ∧ ∀ link, part ≠ QueueCleared link) as Hhead.
  { unfold part_loading, part_failed. intros part Hp. rewrite elem_of_app in Hp. destruct Hp as [Hp|Hp]; repeat case_match;
      (apply list_elem_of_singleton in Hp as -> || by apply not_elem_of_nil in Hp); by split. }
  rewrite app_assoc. set (head := part_loading DetailLoading result ++ _) in *. assert (DetailShown incident ∈ rest) as H0 by (apply elem_of_app; left; by left).
  assert (QueuePanel ∉ head ∧ QueuePanel ∉ rest) as [HQ1 HQ2] by (split; intros HQ; [by apply Hhead in HQ as []|by apply Hrest in HQ as []]).
  assert (QueueCleared (queueUrl params) ∉ head ∧ QueueCleared (queueUrl params) ∉ rest) as [HC1 HC2].
  { split; intros HC; [apply Hhead in HC as [_ HC]|apply Hrest in HC as [_ HC]]; by apply (HC (queueUrl params)). }
  split_and!.
  - rewrite !elem_of_app. auto.
  - intros e He. apply elem_of_app. left. apply elem_of_app. right. by apply (Hf _ DetailFailed).
  - intros e He. pose proof (Hf _ InvestigationFailed _ e He). unfold rest. rewrite !elem_of_app. tauto.
  - intros e He. pose proof (Hf _ TimelineFailed _ e He). unfold rest. rewrite !elem_of_app. tauto.
  - intros e He. pose proof (Hf _ ProcessFailed _ e He). unfold rest. rewrite !elem_of_app. tauto.
  - clearbody head rest. rewrite !elem_of_app. destruct (showQueue queue); (split; [set_solver|]); intros HC.
    + right. right. left. by left.
    + exfalso. apply HC. right. left. by left.
  - clearbody head rest. rewrite !elem_of_app. split.
    + intros HC. destruct (showQueue queue) eqn:E; [set_solver|].
      unfold showQueue in E. destruct queue as [|e|[|i l] [e|]]; done.
    + intros ->. cbn. right. left. by left.
Qed.

Lemma queue_never_empty `{DateHost} t medium locale id params queue : showQueue queue = true →
  IncidentQueue t medium locale id params queue ≠ Some QueueEmpty.
Proof.
  unfold showQueue, IncidentQueue. destruct queue as [|e|[|i l] [e|]]; try done. cbn. intros _.
  destruct (queue_row _ _ _ _ _ i); cbn; [|done]. by destruct (mapM _ l).
Qed.

(** The dialog shows what the panel shows, without the button that opens it. *)
Lemma dialog_same `{DateHost} t medium locale graphEnabled investigation selection panel :
  IncidentInvestigation t medium locale graphEnabled true investigation selection = Some panel →
  ∃ stage, ip_dialog panel = Some stage ∧ stage_expandable stage = false ∧ stage_expandable (ip_stage panel) = true ∧
    stage_legend stage = stage_legend (ip_stage panel) ∧ stage_edges stage = stage_edges (ip_stage panel) ∧
    stage_graph stage = stage_graph (ip_stage panel) ∧ stage_selected stage = stage_selected (ip_stage panel).
Proof.
  unfold IncidentInvestigation, InvestigationStage. intros Hp.
  destruct (localizedInvestigation t investigation) as [loc|]; [|done]. cbn in Hp.
  destruct (mapM _ _) as [ws|]; [|done]. cbn in Hp.
  destruct (if showGraph graphEnabled loc then _ else _) as [g|]; [|done]. cbn in Hp.
  destruct (SelectedContext _ _ _ _ _) as [sel|]; [|done]. cbn in Hp.
  destruct (match inv_edges loc with [] => _ | _ => _ end) as [table|]; [|done]. cbn in Hp.
  injection Hp as <-. by eexists.
Qed.

(** ** Examples *)

Definition sample_incident (id : Z) (status : IncidentStatus) (updatedAt : string) : IncidentDto :=
  mkIncidentDto 1 None (u! "key") (u! "c") None 4 (u! "f") id (u! "l") Severity_HIGH status (u! "title") (u! updatedAt) (u! "e") (u! "s").


(** The update outlives its incident: on the next one the page still says that the status
    was saved, although nothing was changed there. *)
Example saved_note_stale :
  save_note (status_run true false (status_mount 1 (Some (sample_incident 1 Incident_OPEN "v1")))
    [Choose Incident_CLOSED; Save; Settled None; GoTo 2 None; Loaded (sample_incident 2 Incident_OPEN "v1")]).1 = Some SavedNote.
Proof. vm_compute. reflexivity. Qed.
