(* ===== verification/Markup.v ===== *)
(** * The shared components as element trees

    Models the markup of frontend/src/components/{primitives,ui}.tsx: what each component
    renders, with its classes, states and labels. A rendering draws the identifiers of
    [useId] from a supply and passes the rest of it on, so that components compose as they
    do in the pages. Icons come from the icon library and texts from [t]; event handlers
    are not part of the trees. *)

From S2P Require Import Prelude JsNumber Url Dom I18n Ui.

#[local] Open Scope list_scope.
#[local] Open Scope Z_scope.

(** ** Elements *)

(** An element with its identifier, the attributes that name identifiers of others
    ([aria-labelledby], [aria-describedby], [htmlFor]), the other attributes, and its
    children. *)
Inductive jsx :=
| Txt (text_node : ustring)
| El (tag : ustring) (id : option ustring) (refs : list (ustring * ustring)) (attrs : list (ustring * ustring)) (children : list jsx).

(** What is rendered with the next identifiers, and the first unused one. *)
Definition Render : Type := nat → list jsx * nat.

(** The words of an attribute that lists identifiers. *)
Definition words (s : ustring) : list ustring := js_filter truthy (class_tokens [] s).
Arguments words : simpl never.

(** The identifiers of [useId] are different single words, and none is another one with
    the suffix that the fields add. *)
Class IdSupply := {
  id_of : nat → ustring;
  id_of_inj : ∀ m n, id_of m = id_of n → m = n;
  id_of_word : ∀ n, words (id_of n) = [id_of n];
  id_of_detail : ∀ m n, id_of m ≠ id_of n ++ u! "-detail";
  id_of_detail_word : ∀ n, words (id_of n ++ u! "-detail") = [id_of n ++ u! "-detail"];
}.

Definition rendered (l : list jsx) : Render := λ n, (l, n).
Definition nothing : Render := rendered [].
Definition text_node (s : ustring) : Render := rendered [Txt s].
Definition both (a b : Render) : Render := λ n, let '(la, n) := a n in let '(lb, n) := b n in (la ++ lb, n).
Fixpoint all (l : list Render) : Render := match l with [] => nothing | r :: rest => both r (all rest) end.
(** An element around what is rendered, and one around two or three parts. *)
Definition around (f : list jsx → list jsx) (a : Render) : Render := λ n, let '(l, n) := a n in (f l, n).
Definition around2 (f : list jsx → list jsx → list jsx) (a b : Render) : Render :=
  λ n, let '(la, n) := a n in let '(lb, n) := b n in (f la lb, n).
Definition maybe_render (a : option Render) : Render := default nothing a.

Definition cls (className : ustring) : ustring * ustring := (u! "class", className).
Definition plain (tag : string) (attrs : list (ustring * ustring)) (children : list jsx) : jsx := El (u tag) None [] attrs children.
Definition when {A} (o : option A) (f : A → list jsx) : list jsx := from_option f [] o.
(** [cond ? x : null] on a string: the empty one is falsy. *)
Definition when_text (s : option ustring) (f : ustring → list jsx) : list jsx :=
  match s with Some s => if truthy s then f s else [] | None => [] end.
(** [...props]: later values win. *)
Definition spread (attrs props : list (ustring * ustring)) : list (ustring * ustring) :=
  foldl (λ acc kv, map_set kv.1 kv.2 acc) attrs props.

Section components.
Context `{IdSupply}.
Context (t : string → TranslationParams → ustring) (icon : ustring → list jsx).
Context (toLowerCase : ustring → ustring) (formatDateTime : ustring → ustring).
#[local] Abbreviation human := (humanize toLowerCase).

Definition useId (k : ustring → Render) : Render := λ n, k (id_of n) (S n).

(** ** Primitives *)

Inductive ButtonVariant := variant_default | variant_primary | variant_ghost | variant_danger.
Definition variant_name (v : ButtonVariant) : ustring :=
  match v with variant_default => [] | variant_primary => u! "primary" | variant_ghost => u! "ghost" | variant_danger => u! "danger" end.

(** Boolean attributes are there when they hold. *)
Definition flag (name : string) (value : bool) : list (ustring * ustring) := if value then [(u name, u! "true")] else [].

Definition Button (variant : ButtonVariant) (disabled loading : bool) (className : ustring) (props : list (ustring * ustring))
  (children : Render) : Render :=
  around (λ l, [plain "button" (spread (flag "aria-busy" loading
    ++ [cls (trim (u! "button " ++ variant_name variant ++ u! " " ++ className))] ++ flag "disabled" (disabled || loading)) props) l]) children.
Definition IconButton (className : ustring) (props : list (ustring * ustring)) (children : Render) : Render :=
  around (λ l, [plain "button" (spread [cls (trim (u! "icon-button " ++ className))] props) l]) children.

Definition field_class (error : option ustring) : ustring := u! "field " ++ if truthy_opt error then u! "invalid" else [].
Definition Field (label : ustring) (helper error : option ustring) (children : Render) : Render :=
  around (λ l, [plain "label" [cls (field_class error)]
    ([plain "span" [] [Txt label]] ++ l ++
     (if truthy_opt error then when error (λ e, [plain "small" [cls (u! "field-error")] [Txt e]])
      else when_text helper (λ h, [plain "small" [] [Txt h]])))]) children.

(** The line under a labelled control, and the attributes that lead to it. *)
Definition detail_line (detailId : ustring) (helper error : option ustring) : list jsx :=
  if truthy_opt error then when error (λ e, [El (u! "small") (Some detailId) [] [cls (u! "field-error")] [Txt e]])
  else when_text helper (λ h, [El (u! "small") (Some detailId) [] [] [Txt h]]).
Definition described (detailId : ustring) (helper error : option ustring) : list (ustring * ustring) :=
  if truthy_opt helper || truthy_opt error then [(u! "aria-describedby", detailId)] else [].
Definition detail_id (fieldId : ustring) : ustring := fieldId ++ u! "-detail".
Arguments detail_id : simpl never.

(** [TextField] and [SelectField] around their control. *)
Definition labelled_field (tag : string) (label : ustring) (helper error id : option ustring) (className : ustring)
  (props : list (ustring * ustring)) (children : Render) : Render :=
  useId (λ generatedId,
    let fieldId := default generatedId id in
    around (λ l, [plain "div" [cls (trim (field_class error ++ u! " " ++ className))]
      ([El (u! "label") None [(u! "for", fieldId)] [] [Txt label];
        El (u tag) (Some fieldId) (described (detail_id fieldId) helper error)
          (flag "aria-invalid" (truthy_opt error) ++ props) l] ++ detail_line (detail_id fieldId) helper error)]) children).
Definition TextField (label : ustring) (helper error id : option ustring) (className : ustring) (props : list (ustring * ustring)) : Render :=
  labelled_field "input" label helper error id className props nothing.
Definition SelectField (label : ustring) (helper error id : option ustring) (className : ustring) (props : list (ustring * ustring))
  (children : Render) : Render :=
  labelled_field "select" label helper error id className props children.

Definition Badge (tone : string) (className : ustring) (children : Render) : Render :=
  around (λ l, [plain "span" [cls (trim (u! "badge badge-" ++ u tone ++ u! " " ++ className))] l]) children.

(** [cloneElement] on the child, which is one element. *)
Definition describe (describedBy : ustring) (l : list jsx) : list jsx :=
  match l with
  | El tag id refs attrs children :: rest => El tag id (map_set (u! "aria-describedby") describedBy refs) attrs children :: rest
  | _ => l
  end.
Definition description_of (l : list jsx) : option ustring :=
  match l with El _ _ refs _ _ :: _ => map_get (u! "aria-describedby") refs | _ => None end.
Definition Tooltip (label : ustring) (child : Render) : Render :=
  useId (λ id, around (λ l,
    [plain "span" [cls (u! "tooltip")]
       (describe (join (u! " ") (js_filter truthy (option_list (description_of l) ++ [id]))) l
        ++ [El (u! "span") (Some id) [] [cls (u! "tooltip-content"); (u! "role", u! "tooltip")] [Txt label]])]) child).

(** [open]: the state of the popover, below. *)
Definition Popover (open : bool) (label : ustring) (className : ustring) (trigger children : Render) : Render :=
  around2 (λ lt lc, [plain "div" [cls (trim (u! "popover " ++ className))]
    ([plain "button" [(u! "aria-expanded", if open then u! "true" else u! "false"); (u! "aria-haspopup", u! "dialog");
                   (u! "aria-label", label); cls (u! "popover-trigger icon-button"); (u! "type", u! "button")] lt]
     ++ lc)])
    trigger (if open then around (λ l, [plain "section" [(u! "aria-label", label); cls (u! "popover-content"); (u! "role", u! "dialog")] l]) children
             else nothing).

Definition close_button (className label : ustring) : jsx :=
  plain "button" [(u! "aria-label", label); cls className; (u! "data-autofocus", u! "true"); (u! "type", u! "button")] (icon (u! "X")).

Definition Dialog (open : bool) (title : ustring) (eyebrow : option ustring) (closeLabel className : ustring)
  (actions : option Render) (children : Render) : Render :=
  useId (λ titleId,
    if negb open then nothing else
    around2 (λ lc la, [plain "div" [cls (u! "modal-layer"); (u! "role", u! "presentation")]
      [El (u! "section") None [(u! "aria-labelledby", titleId)]
         [(u! "aria-modal", u! "true"); cls (trim (u! "dialog-surface " ++ className)); (u! "role", u! "dialog")]
         ([close_button (u! "dialog-close icon-button") closeLabel]
          ++ when_text eyebrow (λ e, [plain "span" [cls (u! "eyebrow")] [Txt e]])
          ++ [El (u! "h2") (Some titleId) [] [] [Txt title]; plain "div" [cls (u! "dialog-body")] lc] ++ la)]])
      children (match actions with Some a => around (λ l, [plain "div" [cls (u! "dialog-actions")] l]) a | None => nothing end)).

Definition Drawer (open right : bool) (label closeLabel : ustring) (title : option ustring) (children : Render) : Render :=
  useId (λ titleId,
    if negb open then nothing else
    around (λ l, [plain "div" [cls (u! "drawer-layer"); (u! "role", u! "presentation")]
      [plain "div" [cls (u! "drawer-backdrop")] [];
       El (u! "section") None (if truthy_opt title then [(u! "aria-labelledby", titleId)] else [])
         ((if truthy_opt title then [] else [(u! "aria-label", label)])
          ++ [(u! "aria-modal", u! "true"); cls (u! "drawer-panel drawer-" ++ if right then u! "right" else u! "left"); (u! "role", u! "dialog")])
         ([close_button (u! "drawer-close icon-button") closeLabel]
          ++ when_text title (λ s, [El (u! "h2") (Some titleId) [] [cls (u! "drawer-title")] [Txt s]]) ++ l)]]) children).

(** ** Headers and panels *)

Definition PageHeader (eyebrow : option ustring) (title : ustring) (description : option ustring) (actions : option Render) : Render :=
  around (λ la, [plain "header" [cls (u! "page-header")]
    ([plain "div" [] (when_text eyebrow (λ e, [plain "span" [] [Txt e]]) ++ [plain "h1" [] [Txt title]]
        ++ when_text description (λ d, [plain "p" [] [Txt d]]))] ++ la)])
    (match actions with Some a => around (λ l, [plain "div" [cls (u! "page-actions")] l]) a | None => nothing end).

Definition Panel (title : ustring) (subtitle : option ustring) (meta : option Render) (className : ustring) (children : Render) : Render :=
  useId (λ titleId, around2 (λ lm lc,
    [El (u! "section") None [(u! "aria-labelledby", titleId)] [cls (u! "panel " ++ className)]
      [plain "header" [cls (u! "panel-heading")]
         ([plain "div" [] (El (u! "h2") (Some titleId) [] [] [Txt title] :: when_text subtitle (λ s, [plain "p" [] [Txt s]]))] ++ lm);
       plain "div" [cls (u! "panel-body")] lc]])
    (match meta with Some m => around (λ l, [plain "div" [cls (u! "panel-meta")] l]) m | None => nothing end) children).

Definition link (className to : ustring) (children : list jsx) : jsx := plain "a" [cls className; (u! "href", to)] children.
Definition KpiCard (label value detail : ustring) (tone : string) (to : option ustring) (iconNode : Render) : Render :=
  around (λ li,
    let content := [plain "span" [cls (u! "kpi-icon")] li; plain "span" [] [Txt label]; plain "strong" [] [Txt value]; plain "small" [] [Txt detail]]
                   ++ when_text to (λ _, icon (u! "ArrowRight")) in
    match to with
    | Some target => if truthy target then [link (u! "kpi-card " ++ u tone) target content] else [plain "article" [cls (u! "kpi-card " ++ u tone)] content]
    | None => [plain "article" [cls (u! "kpi-card " ++ u tone)] content]
    end) iconNode.

(** [value.toLowerCase().replaceAll(" ", "-")] *)
Definition tone_of (value : ustring) : ustring := map (λ c, if c =? 32 then 45 else c) (toLowerCase value).
Definition StatusPill (value : ustring) (label : option ustring) : Render :=
  Badge "neutral" (u! "status-pill tone-" ++ tone_of value)
    (rendered [plain "i" [(u! "aria-hidden", u! "true")] []; Txt (default (human value) label)]).

Definition EdrDiagnosticAxis (label : ustring) (score : Z) (status : ustring) : list jsx :=
  [plain "div" [cls (u! "edr-axis tone-" ++ toLowerCase status)]
    [plain "div" [] [plain "span" [] [Txt label]; plain "strong" [] [Txt (string_of_Z score)]; plain "small" [] [Txt (human status)]];
     plain "div" [(u! "aria-label", label ++ u! ": " ++ string_of_Z score ++ u! " / 100, " ++ human status);
               (u! "aria-valuemax", u! "100"); (u! "aria-valuemin", u! "0"); (u! "aria-valuenow", string_of_Z score);
               cls (u! "edr-axis-track"); (u! "role", u! "progressbar")]
       [plain "i" [(u! "style", u! "width: " ++ string_of_Z score ++ u! "%")] []]]].

Record EdrAxis := mkEdrAxis { axis_score : Z; axis_status : ustring }.
Record EdrStateDto := mkEdrState {
  edr_status : ustring; edr_score : Z; edr_threatLevel : EdrAxis; edr_collectionHealth : EdrAxis;
  edr_reasonCodes : list ustring; edr_calculatedAt : ustring;
}.
(** [reason]: the text of a reason code, of Ui.v. *)
Definition EdrStateSummary (reason : ustring → ustring) (state : EdrStateDto) : Render :=
  useId (λ titleId, around (λ lp,
    [El (u! "section") None [(u! "aria-labelledby", titleId)] [cls (u! "edr-state-summary tone-" ++ toLowerCase (edr_status state))]
      [plain "header" []
         ([plain "div" [] [El (u! "h2") (Some titleId) [] [cls (u! "eyebrow")] [Txt (t "edrState.current" [])];
             plain "div" [cls (u! "edr-overall")] [plain "strong" [] [Txt (string_of_Z (edr_score state))]; plain "span" [] [Txt (u! "/ 100")]]]]
          ++ lp);
       plain "div" [(u! "aria-label", t "edrState.diagnostics" []); cls (u! "edr-diagnostics")]
         (EdrDiagnosticAxis (t "edrState.threatLevel" []) (axis_score (edr_threatLevel state)) (axis_status (edr_threatLevel state))
          ++ EdrDiagnosticAxis (t "edrState.collectionHealth" []) (axis_score (edr_collectionHealth state)) (axis_status (edr_collectionHealth state)));
       plain "div" [cls (u! "edr-reason-block")]
         [plain "h3" [] [Txt (t "edrState.reasonCodes" [])];
          match edr_reasonCodes state with
          | [] => plain "p" [] [Txt (t "edrState.noReasons" [])]
          | codes => plain "ul" [] (map (λ code, plain "li" [] [Txt (reason code)]) codes)
          end;
          plain "footer" [] [Txt (t "edrState.calculated" [(u! "time", PText (formatDateTime (edr_calculatedAt state)))])]]]])
    (StatusPill (edr_status state) None)).

(** ** Filters and tables *)

Record AppliedFilter := mkAppliedFilter { af_key : ustring; af_label : ustring; af_value : ustring }.
Definition applied_filter (removable : bool) (filter : AppliedFilter) : Render :=
  around (λ l, [plain "li" [] ([plain "span" [] [Txt (af_label filter)]; plain "strong" [] [Txt (af_value filter)]] ++ l)])
    (if removable then IconButton [] [(u! "aria-label", t "filter.remove" [(u! "label", PText (af_label filter))]); (u! "type", u! "button")]
                         (rendered (icon (u! "X"))) else nothing).

(** [advancedOpen]: the state of the bar. *)
Definition FilterBar (advancedOpen : bool) (advanced : option Render) (appliedFilters : list AppliedFilter) (removable hasFilters : bool)
  (primary : Render) : Render :=
  let main := around2 (λ lp lb, [plain "div" [cls (u! "filter-bar-main")]
        [plain "div" [cls (u! "filter-fields")] lp; plain "div" [cls (u! "filter-actions")] lb]]) primary
      (both (match advanced with
             | Some _ => Button variant_ghost false false [] [(u! "aria-expanded", if advancedOpen then u! "true" else u! "false"); (u! "type", u! "button")]
                           (rendered (icon (u! "SlidersHorizontal") ++ [Txt (t "filter.more" [])]))
             | None => nothing
             end)
            (Button variant_ghost (negb hasFilters) false [] [(u! "type", u! "button")] (text_node (t "filter.clear" [])))) in
  let applied := match appliedFilters with
                 | [] => nothing
                 | l => around (λ items, [plain "ul" [(u! "aria-label", t "filter.active" []); cls (u! "applied-filter-list")] items])
                          (all (map (applied_filter removable) l))
                 end in
  let drawer := match advanced with
                | Some fields => Drawer advancedOpen true (t "filter.moreTitle" []) (t "filter.closeMore" []) (Some (t "filter.moreTitle" []))
                    (both (around (λ l, [plain "div" [cls (u! "filter-drawer-fields")] l]) fields)
                          (around (λ l, [plain "div" [cls (u! "filter-drawer-actions")] l])
                             (Button variant_primary false false [] [(u! "type", u! "button")] (text_node (t "filter.done" [])))))
                | None => nothing
                end in
  around (λ l, [plain "section" [(u! "aria-label", t "filter.filters" []); cls (u! "filter-bar")] l]) (both main (both applied drawer)).
Definition GlobalFilterBar (hasFilters : bool) (children : Render) : Render := FilterBar false None [] false hasFilters children.

Definition DataTable (label : ustring) (caption : option ustring) (busy : bool) (className : ustring) (children : Render) : Render :=
  around (λ l, [plain "div" (flag "aria-busy" busy ++ [(u! "aria-label", t "table.aria" [(u! "label", PText label)]);
      cls (trim (u! "table-scroll " ++ className)); (u! "role", u! "region"); (u! "tabindex", u! "0")])
    [plain "table" [] (plain "caption" [cls (u! "sr-only")] [Txt (default label caption)] :: l)]]) children.

Definition SortableHeader (label : ustring) (active descending : bool) : Render :=
  let state := if active then if descending then u! "descending" else u! "ascending" else u! "none" in
  let next := if active && descending then t "filter.ascending" [] else t "filter.descending" [] in
  rendered [plain "th" [(u! "aria-sort", state); (u! "scope", u! "col")]
    [plain "button" [(u! "aria-label", t "filter.sortColumn" [(u! "label", PText label); (u! "direction", PText next)]); cls (u! "sort-header"); (u! "type", u! "button")]
      [plain "span" [] [Txt label]; plain "span" [(u! "aria-hidden", u! "true")] [Txt (if active then if descending then u! "↓" else u! "↑" else u! "↕")]]]].

(** The pages of Ui.v, as links or disabled words. *)
Definition page_link (to : option ustring) (children : list jsx) : jsx :=
  match to with
  | None => plain "span" [(u! "aria-disabled", u! "true"); cls (u! "disabled")] children
  | Some url => plain "a" [(u! "href", url)] children
  end.
Definition size_option (size : Z) : jsx := plain "option" [(u! "value", string_of_Z size)] [Txt (string_of_Z size)].
Definition number_param (n : Z) : ParamValue := PNumber (num_of_Z n).
Definition Pagination (pathname : ustring) (params : URLSearchParams) (page total size : Z) : Render :=
  rendered [plain "nav" [(u! "aria-label", t "pagination.label" []); cls (u! "pagination")]
    [page_link (pageUrl pathname params <$> previous_page page) (icon (u! "ArrowLeft") ++ [Txt (t "pagination.previous" [])]);
     plain "span" [] [Txt (t "pagination.summary" [(u! "page", number_param page); (u! "totalPages", number_param (total_pages total size)); (u! "total", number_param total)])];
     plain "label" [cls (u! "page-size")]
       [plain "span" [] [Txt (t "pagination.pageSize" [])];
        plain "select" [(u! "aria-label", t "pagination.pageSize" []); (u! "value", string_of_Z size)]
          ((if bool_decide (size ∈ [25; 50; 100]) then [] else [size_option size]) ++ map size_option [25; 50; 100])];
     page_link (pageUrl pathname params <$> next_page page total size) ([Txt (t "pagination.next" [])] ++ icon (u! "ArrowRight"))]].

(** ** States *)

Definition Skeleton (rows : nat) : Render :=
  rendered [plain "div" [(u! "aria-label", t "common.loading" []); cls (u! "skeleton"); (u! "role", u! "status")]
    (plain "span" [cls (u! "skeleton-heading")] [] :: replicate rows (plain "span" [cls (u! "skeleton-row")] []))].

Definition EmptyState (title message : ustring) (compact : bool) (actions : option Render) : Render :=
  around (λ la, [plain "div" [cls (if compact then u! "state-card empty compact" else u! "state-card empty")]
    (icon (u! "CircleAlert") ++ [plain "div" [cls (u! "state-copy")] [plain "strong" [] [Txt title]; plain "p" [] [Txt message]]] ++ la)])
    (match actions with Some a => around (λ l, [plain "div" [cls (u! "state-actions")] l]) a | None => nothing end).

(** The error of Ui.v, with the texts of its details. *)
Definition ErrorState (view : ErrorView) (details : list ustring) (has_request retry : bool) : Render :=
  rendered [plain "div" [cls (u! "state-card " ++ view_class view); (u! "role", u! "alert")]
    (icon (u! "AlertTriangle") ++
     [plain "strong" [] [Txt (view_message view)]; plain "p" [] [Txt (view_help view)];
      plain (if has_request then "code" else "span") [] [Txt (view_request view)]] ++
     (match details with [] => [] | l => [plain "ul" [] (map (λ d, plain "li" [] [Txt d]) l)] end) ++
     [plain "div" [cls (u! "state-actions")]
        ((if retry then [plain "button" [cls (u! "button"); (u! "type", u! "button")] (icon (u! "RefreshCw") ++ [Txt (t "common.retry" [])])] else [])
         ++ (if view_archive view then [link (u! "button") (u! "/operations/archives") [Txt (t "error.archiveAction" [])]] else []))])].

Definition InvalidFilterState (message : option ustring) : Render :=
  rendered [plain "div" [cls (u! "state-card invalid"); (u! "role", u! "alert")]
    (icon (u! "CircleAlert") ++ [plain "strong" [] [Txt (t "filter.invalidTitle" [])]; plain "p" [] [Txt (default (t "filter.invalidDescription" []) message)]])].
Definition RefetchingIndicator : Render :=
  rendered [plain "div" [(u! "aria-live", u! "polite"); cls (u! "refetching-indicator"); (u! "role", u! "status")]
    (icon (u! "RefreshCw") ++ [plain "span" [] [Txt (t "common.refreshing" [])]])].
Definition PartialFailureWarning (message : ustring) : Render :=
  rendered [plain "div" [cls (u! "partial-warning"); (u! "role", u! "status")]
    (icon (u! "AlertTriangle") ++ [plain "div" [] [plain "strong" [] [Txt (t "error.partialTitle" [])]; plain "span" [] [Txt message]]])].
Definition StaleWarning (requestId : option ustring) : Render :=
  rendered [plain "div" [cls (u! "stale-warning"); (u! "role", u! "alert")]
    (icon (u! "AlertTriangle") ++
     [plain "span" [] [Txt (t "error.refreshStale" [] ++ match requestId with
        | Some id => if truthy id then u! " " ++ t "common.requestId" [(u! "requestId", PText id)] ++ u! "." else []
        | None => [] end)];
      plain "button" [(u! "type", u! "button")] [Txt (t "common.retry" [])]])].

(** What [QueryFeedback] of Ui.v decides, drawn. *)
Definition feedback_part (invalidMessage : option ustring) (rows : nat) (view : ErrorView) (details : list ustring) (has_request : bool)
  (requestId : option ustring) (part : Feedback) : Render :=
  match part with
  | InvalidFilter => InvalidFilterState (match invalidMessage with Some m => if truthy m then Some m else None | None => None end)
  | SkeletonRows => Skeleton rows
  | ErrorShown => ErrorState view details has_request true
  | StaleShown => StaleWarning requestId
  | Refetching => RefetchingIndicator
  end.

(** ** Details *)

Definition fact (item : ustring * Render) : Render :=
  around (λ l, [plain "div" [] [plain "dt" [] [Txt item.1]; plain "dd" [] l]]) item.2.
Definition DefinitionGrid (items : list (ustring * Render)) : Render :=
  around (λ l, [plain "dl" [cls (u! "definition-grid")] l]) (all (map fact items)).
Definition DetailLedger (className : ustring) (children : Render) : Render :=
  around (λ l, [plain "div" [cls (trim (u! "detail-ledger " ++ className))] l]) children.
Definition DetailLedgerSection (title : ustring) (subtitle : option ustring) (items : option (list (ustring * Render))) (className : ustring)
  (children : Render) : Render :=
  useId (λ titleId, around2 (λ li lc,
    [El (u! "section") None [(u! "aria-labelledby", titleId)] [cls (trim (u! "detail-ledger-section " ++ className))]
      [plain "header" [] (El (u! "h2") (Some titleId) [] [] [Txt title] :: when_text subtitle (λ s, [plain "p" [] [Txt s]]));
       plain "div" [cls (u! "detail-ledger-content")] (li ++ lc)]])
    (match items with Some l => around (λ l, [plain "dl" [cls (u! "detail-fact-list")] l]) (all (map fact l)) | None => nothing end) children).

Definition Inspector (title : ustring) (description : option ustring) (actions : option Render) (children : Render) : Render :=
  useId (λ titleId, around2 (λ la lc,
    [El (u! "aside") None [(u! "aria-labelledby", titleId)] [cls (u! "inspector")]
      [plain "header" [] ([plain "div" [] ([plain "span" [cls (u! "eyebrow")] [Txt (u! "INSPECTOR")]; El (u! "h2") (Some titleId) [] [] [Txt title]]
                                      ++ when_text description (λ d, [plain "p" [] [Txt d]]))] ++ la);
       plain "div" [cls (u! "inspector-body")] lc]])
    (match actions with Some a => around (λ l, [plain "div" [cls (u! "inspector-actions")] l]) a | None => nothing end) children).

Definition MasterDetail (label : option ustring) (list detail : Render) : Render :=
  around2 (λ ll ld, [plain "section" ((if truthy_opt label then [(u! "aria-label", default [] label)] else []) ++ [cls (u! "master-detail")])
    [plain "div" [cls (u! "master-list")] ll; plain "div" [cls (u! "master-inspector")] ld]]) list detail.

Definition ChartFrame (title description : ustring) (meta : option Render) (fallback children : Render) : Render :=
  useId (λ titleId, around2 (λ lm lr, [El (u! "section") None [(u! "aria-labelledby", titleId)] [cls (u! "chart-frame")]
      (plain "header" [] (plain "div" [] [El (u! "h2") (Some titleId) [] [] [Txt title]; plain "p" [] [Txt description]] :: lm) :: lr)])
    (match meta with Some m => around (λ l, [plain "div" [cls (u! "chart-frame-meta")] l]) m | None => nothing end)
    (around2 (λ lc lf, [plain "div" [cls (u! "chart-frame-visual")] lc;
        plain "details" [cls (u! "chart-frame-fallback")] (plain "summary" [] [Txt (t "charts.viewData" [(u! "label", PText (u! "data"))])] :: lf)])
      children fallback)).
End components.

(** ** Identifiers and the attributes that name them *)

Fixpoint ids (j : jsx) : list ustring :=
  match j with Txt _ => [] | El _ id _ _ children => option_list id ++ flat_map ids children end.
Fixpoint named (j : jsx) : list ustring :=
  match j with Txt _ => [] | El _ _ refs _ children => flat_map (λ r, words r.2) refs ++ flat_map named children end.
Abbreviation ids_in := (flat_map ids).
Abbreviation named_in := (flat_map named).

Section accessible.
Context `{IdSupply}.
Context (t : string → TranslationParams → ustring) (icon : ustring → list jsx).
Context (toLowerCase : ustring → ustring) (formatDateTime : ustring → ustring).
(** The library's icons have no identifiers. *)
Hypothesis icon_ids : ∀ name, ids_in (icon name) = [].
Hypothesis icon_named : ∀ name, named_in (icon name) = [].

(** The identifiers a component may use: those between two points of the supply. *)
Definition owned (n n' : nat) (x : ustring) : Prop := ∃ i, (n ≤ i < n')%nat ∧ (x = id_of i ∨ x = detail_id (id_of i)).
Record labelled (n n' : nat) (l : list jsx) : Prop := {
  lb_le : (n ≤ n')%nat;
  lb_unique : NoDup (ids_in l);
  lb_owned : Forall (owned n n') (ids_in l);
  lb_named : named_in l ⊆ ids_in l;
}.
Definition accessible (r : Render) : Prop := ∀ n, labelled n (r n).2 (r n).1.

Lemma owned_mono n n' m m' x : (m ≤ n)%nat → (n' ≤ m')%nat → owned n n' x → owned m m' x.
Proof. intros H1 H2 (i & Hi & Hx). exists i. split; [lia|done]. Qed.

Lemma owned_disjoint n m p x : owned n m x → owned m p x → False.
Proof.
  intros (i & Hi & Hx) (j & Hj & Hy). destruct Hx as [->| ->], Hy as [E|E].
  - apply id_of_inj in E. lia.
  - by apply id_of_detail in E.
  - by apply eq_sym, id_of_detail in E.
  - apply (inj (.++ u! "-detail")) in E. apply id_of_inj in E. lia.
Qed.

Lemma labelled_app n m p l1 l2 : labelled n m l1 → labelled m p l2 → labelled n p (l1 ++ l2).
Proof.
  intros [L1 U1 O1 N1] [L2 U2 O2 N2]. split; rewrite ?flat_map_app.
  - lia.
  - apply NoDup_app. split_and!; [done| |done]. intros x H1 H2. rewrite Forall_forall in O1, O2.
    by apply (owned_disjoint n m p x); [apply O1|apply O2].
  - apply Forall_app. split; (eapply Forall_impl; [done|]); intros x; by apply owned_mono.
  - set_solver.
Qed.

(** A tree around parts, with its own identifiers before theirs. *)
Lemma labelled_own n n' own inner out : labelled (S n) n' inner →
  own = [] ∨ own = [id_of n] ∨ own = [id_of n; detail_id (id_of n)] →
  ids_in out ≡ₚ own ++ ids_in inner → named_in out ⊆ own ++ named_in inner → labelled n n' out.
Proof.
  intros [L U O N] Hown Hids Hnamed.
  assert (Forall (owned n (S n)) own ∧ NoDup own) as [Ho Hnd].
  { assert (owned n (S n) (id_of n)) by (exists n; split; [lia|by left]).
    assert (owned n (S n) (detail_id (id_of n))) by (exists n; split; [lia|by right]).
    destruct Hown as [->|[->| ->]]; (split; [by repeat constructor|]); [constructor|apply NoDup_singleton|].
    apply NoDup_cons. split; [|apply NoDup_singleton]. intros Hx%list_elem_of_singleton. by apply id_of_detail in Hx. }
  split.
  - lia.
  - rewrite Hids. apply NoDup_app. split_and!; [done| |done]. intros x H1 H2. rewrite Forall_forall in O, Ho.
    by apply (owned_disjoint n (S n) n' x); [apply Ho|apply O].
  - rewrite Hids. apply Forall_app. split; (eapply Forall_impl; [done|]); intros x; apply owned_mono; lia.
  - intros x Hx%Hnamed. rewrite Hids. set_solver.
Qed.

Lemma labelled_same n n' inner out : labelled n n' inner → ids_in out ≡ₚ ids_in inner → named_in out ⊆ named_in inner → labelled n n' out.
Proof. intros [L U O N] Hids Hnamed. split; [done|by rewrite Hids..|]. intros x Hx%Hnamed. rewrite Hids. set_solver. Qed.

Lemma accessible_nothing : accessible nothing.
Proof. intros n. split; cbn; [lia|constructor|by apply Forall_nil_2|done]. Qed.

Lemma accessible_rendered l : ids_in l = [] → named_in l = [] → accessible (rendered l).
Proof. intros H1 H2 n. split; cbn; rewrite ?H1, ?H2; [lia|constructor|by apply Forall_nil_2|done]. Qed.

Lemma accessible_around f r : accessible r → (∀ l, ids_in (f l) ≡ₚ ids_in l) → (∀ l, named_in (f l) ⊆ named_in l) → accessible (around f r).
Proof.
  intros Hr H1 H2 n. unfold around. specialize (Hr n). destruct (r n) as [l n']. apply (labelled_same _ _ l); [done|apply H1|apply H2].
Qed.

Lemma accessible_both a b : accessible a → accessible b → accessible (both a b).
Proof.
  intros Ha Hb n. unfold both. specialize (Ha n). destruct (a n) as [la m]. specialize (Hb m). destruct (b m) as [lb p]. by apply (labelled_app n m p).
Qed.

Lemma accessible_around2 f a b : accessible a → accessible b →
  (∀ la lb, ids_in (f la lb) ≡ₚ ids_in la ++ ids_in lb) → (∀ la lb, named_in (f la lb) ⊆ named_in la ++ named_in lb) →
  accessible (around2 f a b).
Proof.
  intros Ha Hb H1 H2 n. unfold around2. specialize (Ha n). destruct (a n) as [la m]. specialize (Hb m). destruct (b m) as [lb p].
  apply (labelled_same n p (la ++ lb)); [by apply (labelled_app n m p)|rewrite flat_map_app; apply H1|rewrite flat_map_app; apply H2].
Qed.

Lemma accessible_all l : Forall accessible l → accessible (all l).
Proof. induction 1; [apply accessible_nothing|by apply accessible_both]. Qed.

(** A component with an identifier of its own. *)
Lemma accessible_useId (f : ustring → list jsx → list jsx) r : accessible r →
  (∀ n l, ids_in (f (id_of n) l) ≡ₚ id_of n :: ids_in l) → (∀ n l, named_in (f (id_of n) l) ⊆ id_of n :: named_in l) →
  accessible (useId (λ id, around (f id) r)).
Proof.
  intros Hr H1 H2 n. unfold useId, around. specialize (Hr (S n)). destruct (r (S n)) as [l n']. cbn [fst snd] in *.
  apply (labelled_own n n' [id_of n] l); [done|auto|by rewrite H1|by rewrite H2].
Qed.
Lemma accessible_useId2 (f : ustring → list jsx → list jsx → list jsx) a b : accessible a → accessible b →
  (∀ n la lb, ids_in (f (id_of n) la lb) ≡ₚ id_of n :: ids_in la ++ ids_in lb) →
  (∀ n la lb, named_in (f (id_of n) la lb) ⊆ id_of n :: named_in la ++ named_in lb) →
  accessible (useId (λ id, around2 (f id) a b)).
Proof.
  intros Ha Hb H1 H2 n. unfold useId, around2. specialize (Ha (S n)). destruct (a (S n)) as [la m].
  specialize (Hb m). destruct (b m) as [lb p]. cbn [fst snd] in *. apply (labelled_own n p [id_of n] (la ++ lb)); [by apply (labelled_app (S n) m p)|auto|..].
  - by rewrite H1, flat_map_app.
  - by rewrite H2, flat_map_app.
Qed.

(** *** The components *)

Ltac tree := intros; cbn;
  repeat match goal with
  | |- context [when_text ?o _] => destruct o as [[|? ?]|]; cbn
  | |- context [truthy_opt ?o] => destruct o as [[|? ?]|]; cbn
  | |- context [from_option _ _ ?o] => destruct o; cbn
  end;
  rewrite ?flat_map_app, ?icon_ids, ?icon_named, ?id_of_word, ?app_nil_r; cbn; rewrite ?flat_map_app, ?app_nil_r;
  try done; try (by rewrite <- ?Permutation_middle); try set_solver.

Lemma detail_word n : words (detail_id (id_of n)) = [detail_id (id_of n)].
Proof. apply id_of_detail_word. Qed.

Lemma accessible_wrap tag attrs r : accessible r → accessible (around (λ l, [El tag None [] attrs l]) r).
Proof. intros Hr. apply accessible_around; [done|tree..]. Qed.

Lemma accessible_boxed tag attrs (r : option Render) : accessible (maybe_render r) →
  accessible (match r with Some a => around (λ l, [plain tag attrs l]) a | None => nothing end).
Proof. destruct r; [apply accessible_wrap|done]. Qed.

Lemma accessible_labelled_field tag label helper error className props r : accessible r →
  accessible (labelled_field tag label helper error None className props r).
Proof.
  intros Hr n. unfold labelled_field, useId, around. cbn zeta. cbn [default]. specialize (Hr (S n)). destruct (r (S n)) as [l n']. cbn [fst snd] in *.
  destruct (truthy_opt error) eqn:Ee; [|destruct (truthy_opt helper) eqn:Eh].
  - destruct error as [e|]; [|done]. apply (labelled_own n n' [id_of n; detail_id (id_of n)] l); [done|auto|..];
      unfold described, detail_line; rewrite Ee, ?orb_true_r; cbn; rewrite ?id_of_word, ?detail_word, ?app_nil_r.
    + by rewrite <- Permutation_cons_append.
    + set_solver.
  - destruct helper as [[|c h]|]; try done. apply (labelled_own n n' [id_of n; detail_id (id_of n)] l); [done|auto|..];
      unfold described, detail_line; rewrite Ee; cbn; rewrite ?id_of_word, ?detail_word, ?app_nil_r.
    + by rewrite <- Permutation_cons_append.
    + set_solver.
  - apply (labelled_own n n' [id_of n] l); [done|auto|..];
      unfold described, detail_line; rewrite Ee, Eh; destruct helper as [[|c h]|]; try done; cbn; rewrite ?id_of_word, ?app_nil_r; try done; set_solver.
Qed.

Lemma accessible_facts className tag items : accessible (all (map fact items)) →
  accessible (around (λ l, [plain tag [cls className] l]) (all (map fact items))).
Proof. apply accessible_wrap. Qed.

Lemma describe_ids d l : ids_in (describe d l) = ids_in l.
Proof. by destruct l as [|[] l]. Qed.

Lemma map_set_words k v (refs : list (ustring * ustring)) :
  flat_map (λ r, words r.2) (map_set k v refs) ⊆ words v ++ flat_map (λ r, words r.2) refs.
Proof.
  induction refs as [|[k' v'] refs IH]; cbn; [set_solver|]. case_decide; cbn; set_solver.
Qed.

Lemma class_tokens_space a : ∀ word b, class_tokens word (a ++ 32 :: b) = class_tokens word a ++ class_tokens [] b.
Proof.
  induction a as [|c a IH]; intros word b; cbn; [done|]. destruct (ascii_space c); cbn; by rewrite IH.
Qed.
Lemma words_space a b : words (a ++ 32 :: b) = words a ++ words b.
Proof. unfold words. by rewrite class_tokens_space, js_filter_app. Qed.

Lemma described_words l n d : d = join (u! " ") (js_filter truthy (option_list (description_of l) ++ [id_of n])) →
  words d ⊆ id_of n :: named_in l.
Proof.
  intros ->. assert (truthy (id_of n) = true) as Ht.
  { pose proof (id_of_word n) as Hw. by destruct (id_of n). }
  assert (∀ e, description_of l = Some e → words e ⊆ named_in l) as He.
  { intros e. destruct l as [|[x|tag id refs attrs kids] l]; try done. cbn. intros Hg%map_get_Some_elem x Hx.
    apply elem_of_app. left. apply elem_of_app. left. apply list_elem_of_In, in_flat_map. exists (u! "aria-describedby", e).
    split; by apply list_elem_of_In. }
  destruct (description_of l) as [e|] eqn:E.
  - change (option_list (Some e) ++ [id_of n]) with [e; id_of n]. rewrite !js_filter_cons, Ht. destruct (truthy e); [|cbn; rewrite id_of_word; set_solver].
    change (join (u! " ") (e :: id_of n :: js_filter truthy [])) with (e ++ 32 :: id_of n).
    rewrite words_space, id_of_word. specialize (He e eq_refl). set_solver.
  - change (option_list None ++ [id_of n]) with [id_of n]. rewrite js_filter_cons, Ht. cbn. rewrite id_of_word. set_solver.
Qed.

Lemma describe_named d l : named_in (describe d l) ⊆ words d ++ named_in l.
Proof.
  destruct l as [|[x|tag id refs attrs kids] l]; cbn; [set_solver..|]. pose proof (map_set_words (u! "aria-describedby") d refs). set_solver.
Qed.

Lemma accessible_Tooltip label child : accessible child → accessible (Tooltip label child).
Proof.
  intros Hc. unfold Tooltip. apply (accessible_useId (λ id l, [plain "span" [cls (u! "tooltip")] (describe _ l ++ [El (u! "span") (Some id) [] _ [Txt label]])])); [done|..].
  - intros n l. cbn. rewrite ?app_nil_r, flat_map_app, describe_ids. cbn. by rewrite <- Permutation_cons_append.
  - intros n l. cbn. rewrite ?app_nil_r, flat_map_app. cbn. rewrite ?app_nil_r.
    pose proof (describe_named (join (u! " ") (js_filter truthy (option_list (description_of l) ++ [id_of n]))) l) as H1.
    pose proof (described_words l n _ eq_refl) as H2. set_solver.
Qed.

Lemma accessible_closed (k : ustring → Render) : (∀ id, k id = nothing) → accessible (useId k).
Proof.
  intros Hk n. unfold useId. rewrite Hk. cbn. split; cbn; [lia|constructor|by apply Forall_nil_2|done].
Qed.

Lemma accessible_Dialog open title eyebrow closeLabel className actions children : accessible (maybe_render actions) → accessible children →
  accessible (Dialog icon open title eyebrow closeLabel className actions children).
Proof.
  intros Ha Hc. unfold Dialog. destruct open; cbn [negb]; [|by apply accessible_closed].
  apply (accessible_useId2 (λ titleId lc la, _)); [done|by apply accessible_boxed|..]; tree.
Qed.

Lemma accessible_Drawer open right label closeLabel title children : accessible children →
  accessible (Drawer icon open right label closeLabel title children).
Proof.
  intros Hc. unfold Drawer. destruct open; cbn [negb]; [|by apply accessible_closed]. destruct title as [[|c title]|]; cbn [truthy_opt truthy when_text].
  - intros n. unfold useId, around. specialize (Hc (S n)). destruct (children (S n)) as [l n']. cbn [fst snd] in *.
    apply (labelled_own n n' [] l); [done|auto|..]; tree.
  - apply (accessible_useId (λ titleId l, _)); [done|..]; tree.
  - intros n. unfold useId, around. specialize (Hc (S n)). destruct (children (S n)) as [l n']. cbn [fst snd] in *.
    apply (labelled_own n n' [] l); [done|auto|..]; tree.
Qed.

(** What the pages put together: plain elements and texts, one after the other or inside
    each other, and the shared components around them. *)
Inductive composed : Render → Prop :=
| c_nothing : composed nothing
| c_plain l : ids_in l = [] → named_in l = [] → composed (rendered l)
| c_both a b : composed a → composed b → composed (both a b)
| c_element tag attrs r : composed r → composed (around (λ l, [El tag None [] attrs l]) r)
| c_around f r : composed r → (∀ l, ids_in (f l) ≡ₚ ids_in l) → (∀ l, named_in (f l) ⊆ named_in l) → composed (around f r)
| c_around2 f a b : composed a → composed b → (∀ la lb, ids_in (f la lb) ≡ₚ ids_in la ++ ids_in lb) →
    (∀ la lb, named_in (f la lb) ⊆ named_in la ++ named_in lb) → composed (around2 f a b)
| c_Button v disabled loading className props r : composed r → composed (Button v disabled loading className props r)
| c_IconButton className props r : composed r → composed (IconButton className props r)
| c_Field label helper error r : composed r → composed (Field label helper error r)
| c_TextField label helper error className props : composed (TextField label helper error None className props)
| c_SelectField label helper error className props r : composed r → composed (SelectField label helper error None className props r)
| c_Badge tone className r : composed r → composed (Badge tone className r)
| c_Tooltip label r : composed r → composed (Tooltip label r)
| c_Popover open label className trigger r : composed trigger → composed r → composed (Popover open label className trigger r)
| c_Dialog open title eyebrow closeLabel className actions r :
    composed (maybe_render actions) → composed r → composed (Dialog icon open title eyebrow closeLabel className actions r)
| c_Drawer open right label closeLabel title r : composed r → composed (Drawer icon open right label closeLabel title r)
| c_PageHeader eyebrow title description actions : composed (maybe_render actions) → composed (PageHeader eyebrow title description actions)
| c_Panel title subtitle meta className r : composed (maybe_render meta) → composed r → composed (Panel title subtitle meta className r)
| c_KpiCard label value detail tone to r : composed r → composed (KpiCard icon label value detail tone to r)
| c_StatusPill value label : composed (StatusPill toLowerCase value label)
| c_EdrStateSummary reason state : composed (EdrStateSummary t toLowerCase formatDateTime reason state)
| c_FilterBar advancedOpen advanced filters removable hasFilters r : composed (maybe_render advanced) → composed r →
    composed (FilterBar t icon advancedOpen advanced filters removable hasFilters r)
| c_DataTable label caption busy className r : composed r → composed (DataTable t label caption busy className r)
| c_SortableHeader label active descending : composed (SortableHeader t label active descending)
| c_Pagination pathname params page total size : composed (Pagination t icon pathname params page total size)
| c_EmptyState title message compact actions : composed (maybe_render actions) → composed (EmptyState icon title message compact actions)
| c_feedback message rows view details has_request requestId part :
    composed (feedback_part t icon message rows view details has_request requestId part)
| c_PartialFailureWarning message : composed (PartialFailureWarning t icon message)
| c_fact label r : composed r → composed (fact (label, r))
| c_DefinitionGrid items : composed (all (map fact items)) → composed (DefinitionGrid items)
| c_DetailLedger className r : composed r → composed (DetailLedger className r)
| c_DetailLedgerSection title subtitle items className r : composed (all (map fact (default [] items))) → composed r →
    composed (DetailLedgerSection title subtitle items className r)
| c_Inspector title description actions r : composed (maybe_render actions) → composed r → composed (Inspector title description actions r)
| c_MasterDetail label list detail : composed list → composed detail → composed (MasterDetail label list detail)
| c_ChartFrame title description meta fallback r : composed (maybe_render meta) → composed fallback → composed r →
    composed (ChartFrame t title description meta fallback r).

Lemma plain_map {A} (f : A → jsx) l : (∀ x, ids (f x) = [] ∧ named (f x) = []) → ids_in (map f l) = [] ∧ named_in (map f l) = [].
Proof. intros Hf. induction l as [|x l [IH1 IH2]]; [done|]. cbn. destruct (Hf x) as [-> ->]. by rewrite IH1, IH2. Qed.

Lemma axis_plain label score status :
  ids_in (EdrDiagnosticAxis toLowerCase label score status) = [] ∧ named_in (EdrDiagnosticAxis toLowerCase label score status) = [].
Proof. done. Qed.

Lemma accessible_EdrStateSummary reason state : accessible (EdrStateSummary t toLowerCase formatDateTime reason state).
Proof.
  unfold EdrStateSummary.
  assert (ids_in (map (λ code, plain "li" [] [Txt (reason code)]) (edr_reasonCodes state)) = [] ∧
          named_in (map (λ code, plain "li" [] [Txt (reason code)]) (edr_reasonCodes state)) = []) as [H1 H2] by (by apply plain_map).
  apply (accessible_useId (λ titleId lp, _)); [by apply accessible_wrap, accessible_rendered|..];
    intros n l; cbn; rewrite ?app_nil_r; destruct (edr_reasonCodes state) as [|c codes]; cbn in H1, H2 |- *;
    rewrite ?H1, ?H2, ?app_nil_r, ?id_of_word; cbn; set_solver.
Qed.

Lemma accessible_applied removable filter : accessible (applied_filter t icon removable filter).
Proof.
  unfold applied_filter. apply accessible_around; [|tree..]. destruct removable; [|apply accessible_nothing].
  apply accessible_wrap, accessible_rendered; [apply icon_ids|apply icon_named].
Qed.

Lemma accessible_FilterBar advancedOpen advanced filters removable hasFilters r : accessible (maybe_render advanced) → accessible r →
  accessible (FilterBar t icon advancedOpen advanced filters removable hasFilters r).
Proof.
  intros Ha Hr. unfold FilterBar. cbn zeta. apply accessible_wrap, accessible_both; [|apply accessible_both].
  - apply accessible_around2; [done| |tree..]. apply accessible_both; [|by apply accessible_wrap, accessible_rendered].
    destruct advanced; [|apply accessible_nothing]. apply accessible_wrap, accessible_rendered; tree.
  - destruct filters as [|f filters]; [apply accessible_nothing|]. apply accessible_wrap, accessible_all.
    apply Forall_fmap, Forall_forall. intros x _. apply accessible_applied.
  - destruct advanced as [a|]; [|apply accessible_nothing]. apply accessible_Drawer, accessible_both.
    + by apply accessible_wrap.
    + by apply accessible_wrap, accessible_wrap, accessible_rendered.
Qed.

Lemma accessible_feedback message rows view details has_request requestId part :
  accessible (feedback_part t icon message rows view details has_request requestId part).
Proof.
  destruct part; apply accessible_rendered; cbn; rewrite ?flat_map_app, ?icon_ids, ?icon_named; cbn; try done.
  1, 2: by induction rows.
  all: destruct (plain_map (λ d, plain "li" [] [Txt d]) details) as [H1 H2]; [done|]; rewrite ?flat_map_app;
    destruct details, (view_archive view), has_request; cbn in *; rewrite ?H1, ?H2, ?flat_map_app, ?icon_ids, ?icon_named; done.
Qed.

Lemma accessible_Pagination pathname params page total size : accessible (Pagination t icon pathname params page total size).
Proof.
  apply accessible_rendered; cbn; unfold page_link; destruct (pageUrl pathname params <$> previous_page page), (pageUrl pathname params <$> next_page page total size);
    cbn; rewrite ?flat_map_app, ?icon_ids, ?icon_named; by case_bool_decide.
Qed.

Lemma composed_accessible r : composed r → accessible r.
Proof.
  induction 1; try (by apply accessible_wrap).
  - apply accessible_nothing.
  - by apply accessible_rendered.
  - by apply accessible_both.
  - by apply accessible_around.
  - by apply accessible_around2.
  - apply accessible_around; [done|..]; tree; set_solver.
  - by apply accessible_labelled_field, accessible_nothing.
  - by apply accessible_labelled_field.
  - by apply accessible_Tooltip.
  - unfold Popover. apply accessible_around2; [done| |tree..]. destruct open; [by apply accessible_wrap|apply accessible_nothing].
  - by apply accessible_Dialog.
  - by apply accessible_Drawer.
  - unfold PageHeader. apply accessible_around; [by apply accessible_boxed|tree..].
  - unfold Panel. apply (accessible_useId2 (λ titleId lm lc, _)); [by apply accessible_boxed|done|..]; tree.
  - unfold KpiCard. apply accessible_around; [done|..]; intros l; destruct to as [[|c to]|]; tree.
  - by apply accessible_wrap, accessible_rendered.
  - apply accessible_EdrStateSummary.
  - by apply accessible_FilterBar.
  - unfold DataTable. apply accessible_around; [done|tree..].
  - by apply accessible_rendered.
  - apply accessible_Pagination.
  - unfold EmptyState. apply accessible_around; [by apply accessible_boxed|tree..].
  - apply accessible_feedback.
  - apply accessible_rendered; tree.
  - unfold fact. apply accessible_around; [done|tree..].
  - unfold DetailLedgerSection. apply (accessible_useId2 (λ titleId li lc, _)); [|done|..]; [|tree..].
    destruct items as [l|]; [by apply accessible_wrap|apply accessible_nothing].
  - unfold Inspector. apply (accessible_useId2 (λ titleId la lc, _)); [by apply accessible_boxed|done|..]; tree.
  - unfold MasterDetail. apply accessible_around2; [done..|tree|tree].
  - unfold ChartFrame. apply (accessible_useId2 (λ titleId lm lr, _)); [by apply accessible_boxed| |tree..].
    apply accessible_around2; [done..|tree|tree].
Qed.
End accessible.

(** ** The labels of a page resolve *)

(** C37: the names of a page's elements can be looked up. Whatever a page puts together from
    the shared components (panels, ledgers, inspectors, chart frames, fields, tooltips,
    popovers, dialogs and drawers, opened or closed, within each other and among plain
    elements), no identifier occurs twice in it, every attribute that names an identifier
    (the label of a section, the label of a control, the description of a control or of what
    a tooltip explains) names one that is there, and no identifier of the supply is used
    that a sibling rendered later will use. *)
Theorem labels_resolve `{IdSupply} t icon toLowerCase formatDateTime r
  (icon_ids : ∀ name, ids_in (icon name) = []) (icon_named : ∀ name, named_in (icon name) = [])
  (Hr : composed t icon toLowerCase formatDateTime r) :
  ∀ n, let '(l, n') := r n in
    (n ≤ n')%nat ∧ NoDup (ids_in l) ∧ named_in l ⊆ ids_in l ∧ Forall (owned n n') (ids_in l).
Proof.
  intros n. pose proof (composed_accessible t icon toLowerCase formatDateTime icon_ids icon_named r Hr n) as [L U O N].
  by destruct (r n).
Qed.

(** A supply, and a panel with a described field and a tooltip in it. *)
Definition sample_id (n : nat) : ustring := repeat 105 (S n).

Lemma word_tokens s : ∀ word, Forall (λ c, ascii_space c = false) s → class_tokens word s = [reverse word ++ s].
Proof.
  induction s as [|c s IH]; intros word Hs; cbn; [by rewrite app_nil_r|]. apply Forall_cons in Hs as [-> Hs].
  rewrite IH by done. by rewrite reverse_cons, <- app_assoc.
Qed.
Lemma one_word s : Forall (λ c, ascii_space c = false) s → s ≠ [] → words s = [s].
Proof. intros Hs Hn. unfold words. rewrite word_tokens by done. by destruct s. Qed.

Lemma sample_letters n : Forall (λ c, c = 105) (sample_id n).
Proof. apply Forall_forall. intros c Hc. apply list_elem_of_In, repeat_spec in Hc. done. Qed.
Lemma sample_spaces n : Forall (λ c, ascii_space c = false) (sample_id n).
Proof. eapply Forall_impl; [apply sample_letters|]. by intros c ->. Qed.

#[local] Instance sample_supply : IdSupply.
Proof.
  refine {| id_of := sample_id |}.
  - intros m n E. apply (f_equal length) in E. unfold sample_id in E. rewrite !repeat_length in E. lia.
  - intros n. by apply one_word; [apply sample_spaces|].
  - intros m n E. pose proof (sample_letters m) as Hm. rewrite E in Hm. apply Forall_app in Hm as [_ Hm].
    apply Forall_cons in Hm as [Hm _]. by vm_compute in Hm.
  - intros n. apply one_word; [|by destruct (sample_id n)]. apply Forall_app. split; [apply sample_spaces|].
    apply (bool_decide_unpack _). by vm_compute.
Defined.

Definition sample_t (key : string) (params : TranslationParams) : ustring := u key.
Definition sample_page : Render :=
  Panel (u! "Login") None (Some (Tooltip (u! "help") (rendered [plain "button" [] [Txt (u! "?")]]))) []
    (TextField (u! "Name") (Some (u! "Your name")) None None [] []).

Lemma labels_resolve_witness :
  flat_map ids (sample_page 0%nat).1 = [sample_id 0; sample_id 1; sample_id 2; sample_id 2 ++ u! "-detail"] ∧
  (0 ≤ (sample_page 0%nat).2)%nat ∧ NoDup (flat_map ids (sample_page 0%nat).1) ∧ flat_map named (sample_page 0%nat).1 ⊆ flat_map ids (sample_page 0%nat).1.
Proof.
  split; [vm_compute; reflexivity|].
  pose proof (labels_resolve sample_t (λ _, []) id id sample_page (λ _, eq_refl) (λ _, eq_refl)
    ltac:(apply c_Panel; [apply c_Tooltip, c_plain; vm_compute; reflexivity|apply c_TextField]) 0%nat) as H.
  destruct (sample_page 0%nat) as [l n']. destruct H as (H1 & H2 & H3 & _). split; [exact H1|]. split; [exact H2|exact H3].
Defined.

(** ** The popover *)

(** A press of the pointer inside or outside of it, the keys, and its button. *)
Inductive PopoverEvent := ClickTrigger | PointerDown (inside : bool) | PressKey (key : ustring).
(** The state, and whether the trigger gets the focus; the document's listeners are there
    while it is open. *)
Definition popover_step (open : bool) (ev : PopoverEvent) : bool * bool :=
  match ev with
  | ClickTrigger => (negb open, false)
  | PointerDown inside => (open && inside, false)
  | PressKey key => if open && bool_decide (key = u! "Escape") then (false, true) else (open, false)
  end.

(** Escape and presses outside close it, whatever happened before, and only Escape in an open
    one moves the focus. *)
Lemma popover_closes open :
  popover_step open (PointerDown false) = (false, false) ∧ popover_step open (PressKey (u! "Escape")) = (false, open) ∧
  (∀ ev, (popover_step open ev).2 = true → open = true ∧ ev = PressKey (u! "Escape")) ∧
  (∀ ev, (popover_step open ev).1 = true → open = true ∨ ev = ClickTrigger).
Proof.
  split_and!; [by destruct open|cbn; rewrite bool_decide_eq_true_2 by done; by destruct open|..].
  - intros [|inside|key]; try done. cbn. case_bool_decide; destruct open; cbn; naive_solver.
  - intros [|inside|key]; cbn; [auto|destruct open; auto|]. case_bool_decide; destruct open; cbn; auto.
Qed.
