(* ===== verification/ListViews.v ===== *)
(** * The list pages as shown

    Models frontend/src/components/filters.tsx and what
    frontend/src/pages/{Alerts,Endpoints,Events,Incidents}Page.tsx render over the queries of
    ListPages.v: the controls of the filter bar with their handlers, the applied filters, the
    feedback, the tables and the empty states, as trees of the shared components. *)

From S2P Require Import Prelude JsNumber JsDate Url Contracts ApiClient UrlState Auth ListPages Dom I18n EventDetail EndpointPage Ui Markup Intelligence PageRequests.

#[local] Open Scope list_scope.
#[local] Open Scope Z_scope.

(** ** Controls *)

(** An input, or a select with its options (value and text), that shows what it reads from
    the query string and sets the query string on a change. [None] in [ct_value] and
    [ct_change]: a date that cannot be written is thrown. *)
Record Control := mkControl {
  ct_key : ustring; ct_label : ustring; ct_helper : option ustring;
  ct_options : option (list (ustring * ustring)); ct_disabled : bool; ct_attrs : list (ustring * ustring);
  ct_value : option ustring;
  ct_change : ustring → option URLSearchParams;
}.

Definition control_element (c : Control) (value : ustring) : jsx :=
  match ct_options c with
  | Some options => plain "select" (ct_attrs c ++ flag "disabled" (ct_disabled c) ++ [(u! "value", value)])
      (map (λ o, plain "option" [(u! "value", o.1)] [Txt o.2]) options)
  | None => plain "input" (ct_attrs c ++ flag "disabled" (ct_disabled c) ++ [(u! "value", value)]) []
  end.
Definition control_field (c : Control) : option Render :=
  value ← ct_value c; Some (Field (ct_label c) (ct_helper c) None (rendered [control_element c value])).
(** A group of controls: one that throws takes the page with it. *)
Definition control_fields (controls : list Control) : option Render := all <$> mapM control_field controls.

Definition set_param (params : URLSearchParams) (key value : ustring) : option URLSearchParams :=
  Some (updateParams params [(key, UrlState.PText value)] true).

Definition TIME_PRESETS : list TimePreset := [Preset_LATEST_15M; Preset_LATEST_1H; Preset_LATEST_24H; Preset_LATEST_7D; Preset_CUSTOM].

Section views.
Context `{DateHost} `{IdSupply}.
(** [formatDateTime] and [detectionTitle] of I18n.v in the locale of the page; [None]: they throw. *)
Context (t : string → TranslationParams → ustring) (icon : ustring → list jsx) (toLowerCase : ustring → ustring)
  (formatDateTime : option ustring → option ustring) (detectionTitle : ustring → option ustring → option ustring) (locale : Locale).
#[local] Abbreviation human := (humanize toLowerCase).

Definition input_control (params : URLSearchParams) (key : string) (label : ustring) (attrs : list (ustring * ustring)) (value : ustring) : Control :=
  mkControl (u key) label None None false attrs (Some value) (set_param params (u key)).
(** The text of a parameter as it is. *)
Definition raw_input (params : URLSearchParams) (key : string) (label : ustring) (attrs : list (ustring * ustring)) : Control :=
  input_control params key label attrs (default [] (params_get params (u key))).
Definition select_control (params : URLSearchParams) (key : string) (label : ustring) (helper : option ustring) (disabled : bool)
  (options : list (ustring * ustring)) (value : ustring) : Control :=
  mkControl (u key) label helper (Some options) disabled [] (Some value) (set_param params (u key)).
(** A filter with a first option for all, and an order by a column. *)
Definition filter_select `{Literal A} (params : URLSearchParams) (key : string) (label everything : ustring) (allowed : list A) : Control :=
  select_control params key label None false
    ((u! "", everything) :: map (λ a, (lit_name a, lit_name a)) allowed) (from_option lit_name [] (enum_param params (u key) allowed)).
Definition choice `{Literal A} (a : A) (text : string) : ustring * ustring := (lit_name a, t text []).
Definition order_select (params : URLSearchParams) (helper : option ustring) (disabled : bool) (descending ascending : string) : Control :=
  select_control params "sortOrder" (t "filter.order" []) helper disabled [choice Order_desc descending; choice Order_asc ascending]
    (lit_name (order_of params)).

(** ** filters.tsx *)

Definition preset_label (preset : TimePreset) : ustring :=
  t (match preset with
     | Preset_LATEST_15M => "filter.latest15Minutes" | Preset_LATEST_1H => "filter.latestHour" | Preset_LATEST_24H => "filter.latest24Hours"
     | Preset_LATEST_7D => "filter.latest7Days" | Preset_CUSTOM => "filter.customUtcRange"
     end) [].

Definition preset_select (params : URLSearchParams) : Control :=
  mkControl (u! "timePreset") (t "filter.timeRange" []) None (Some (map (λ p, (lit_name p, preset_label p)) TIME_PRESETS)) false []
    (Some (lit_name (tf_preset (readTimeFilter params)))) (λ value, Some (onPresetSelect params value)).
Definition bound_value (bound : option ustring) : option ustring :=
  match bound with Some timestamp => if truthy timestamp then localDateTimeValue timestamp else Some [] | None => Some [] end.
Definition bound_input (params : URLSearchParams) (key : string) (label : ustring) (bound : option ustring) : Control :=
  mkControl (u key) label None None false [(u! "type", u! "datetime-local")] (bound_value bound) (onBoundChange (u key) params).
Definition bound_inputs (params : URLSearchParams) : list Control :=
  let state := readTimeFilter params in
  if bool_decide (tf_preset state = Preset_CUSTOM)
  then [bound_input params "from" (t "filter.from" []) (tf_from state); bound_input params "to" (t "filter.to" []) (tf_to state)] else [].

Definition preset_button (params : URLSearchParams) (preset : TimePreset) : jsx :=
  let active := bool_decide (tf_preset (readTimeFilter params) = preset) in
  plain "button" ([(u! "aria-pressed", if active then u! "true" else u! "false")] ++ (if active then [cls (u! "active")] else [])
    ++ [(u! "type", u! "button")]) [Txt (preset_label preset)].

(** The ranges with evidence, of the availability query. *)
Record TimeAvailabilityState := mkAvailability { av_ranges : list TimeRangeDto; av_pending : bool; av_unavailable : bool }.
Definition range_item (range : TimeRangeDto) : option jsx :=
  from ← formatDateTime (Some (range_from range)); to ← formatDateTime (Some (range_to range));
  Some (plain "li" []
    [plain "time" [(u! "datetime", range_from range)] [Txt from]; plain "span" [(u! "aria-hidden", u! "true")] [Txt (u! "–")];
     plain "time" [(u! "datetime", range_to range)] [Txt to]]).
Definition AvailableTimeRanges (state : TimeAvailabilityState) : option Render :=
  ranges ← (if av_pending state || av_unavailable state then Some [] else mapM range_item (av_ranges state));
  Some (rendered [plain "div" [(u! "aria-live", u! "polite"); cls (u! "time-availability"); (u! "role", u! "status")]
    [plain "strong" [] [Txt (t "filter.availableRanges" [])];
     if av_pending state then plain "span" [] [Txt (t "filter.availabilityLoading" [])]
     else if av_unavailable state then plain "span" [] [Txt (t "filter.availabilityUnavailable" [])]
     else match av_ranges state with
          | [] => plain "span" [] [Txt (t "filter.noAvailableRanges" [])]
          | _ => plain "ul" [] ranges
          end]]).
Definition UnavailableTimeRangeState : Render :=
  around (λ l, [plain "div" [cls (u! "time-range-unavailable")] l])
    (EmptyState icon (t "filter.unavailableRangeTitle" []) (t "filter.unavailableRangeDescription" []) false None).

Inductive FilterVariant := variant_select | variant_presets.
Definition TimeFilterFields (variant : FilterVariant) (availability : option TimeAvailabilityState) (params : URLSearchParams) : option Render :=
  bounds ← control_fields (bound_inputs params);
  presets ← match variant with
            | variant_presets => Some (rendered [plain "div" [(u! "aria-label", t "filter.timeRange" []); cls (u! "time-preset-list"); (u! "role", u! "group")]
                                         (map (preset_button params) TIME_PRESETS)])
            | variant_select => control_field (preset_select params)
            end;
  let custom := bool_decide (tf_preset (readTimeFilter params) = Preset_CUSTOM) in
  ranges ← match availability with Some a => if custom then AvailableTimeRanges a else Some nothing | None => Some nothing end;
  Some (both presets (both bounds ranges)).

(** ** The filter bars *)

Inductive ListPage := OfAlerts | OfEndpoints | OfEvents | OfIncidents.
Definition has_time (page : ListPage) : bool := match page with OfEndpoints => false | _ => true end.
Definition list_invalid (page : ListPage) : URLSearchParams → bool :=
  match page with OfAlerts => alerts_invalid | OfEndpoints => endpoints_invalid | OfEvents => events_invalid | OfIncidents => incidents_invalid end.

Definition numeric : list (ustring * ustring) := [(u! "inputmode", u! "numeric")].
Definition placeholder (text : ustring) : ustring * ustring := (u! "placeholder", text).
Definition severity_select (params : URLSearchParams) : Control :=
  filter_select params "severity" (t "filter.severity" []) (t "filter.allSeverities" []) SEVERITIES.
Definition endpointId_input (params : URLSearchParams) : Control := raw_input params "endpointId" (t "filter.endpointId" []) numeric.

Definition alert_sort_select (params : URLSearchParams) : Control :=
  select_control params "sortBy" (t "filter.sort" []) None false
    [choice AlertSort_priority "filter.priority"; choice AlertSort_detectedAt "alerts.detected"; choice AlertSort_severity "filter.severity";
     choice AlertSort_riskScore "alerts.risk"; choice AlertSort_status "filter.status"] (lit_name (alerts_sortBy params)).
Definition alert_order_select (params : URLSearchParams) : Control :=
  let by_priority := bool_decide (alerts_sortBy params = AlertSort_priority) in
  order_select params (if by_priority then Some (t "alerts.priorityOrder" []) else None) by_priority "filter.descending" "filter.ascending".
Definition endpoint_sort_select (params : URLSearchParams) : Control :=
  select_control params "sortBy" (t "filter.sort" []) None false
    [choice EndpointSort_riskScore "endpoints.riskScore"; choice EndpointSort_lastSeenAt "endpoints.lastSeen";
     choice EndpointSort_registeredAt "endpoints.registered"] (lit_name (endpoints_sortBy params)).

Definition eventFilterLabel (field : ustring) : ustring :=
  let named (english : string) (korean : ustring) := match locale with EN => u english | KO => korean end in
  if bool_decide (field = u! "processName") then named "Process Name"%string (t "event.processName" [])
  else if bool_decide (field = u! "filePath") then named "File Path"%string (t "event.filePath" [])
  else if bool_decide (field = u! "domain") then named "Domain"%string (u! "Remote Domain")
  else if bool_decide (field = u! "remoteIp") then u! "Remote IP"
  else if bool_decide (field = u! "dnsQuery") then u! "DNS Query" else u! "L7 Protocol".
Definition detail_input (params : URLSearchParams) (field : ustring) : Control :=
  mkControl field (eventFilterLabel field) None None false [] (Some (default [] (params_get params field))) (set_param params field).

(** The controls beside those of the time, always shown and in the drawer. *)
Definition primary_controls (page : ListPage) (params : URLSearchParams) : list Control :=
  match page with
  | OfAlerts => [filter_select params "status" (t "filter.status" []) (t "filter.allStatuses" []) ALERT_STATUSES; severity_select params]
  | OfEndpoints =>
    [raw_input params "q" (t "endpoints.search" []) [(u! "autocomplete", u! "off"); placeholder (t "search.placeholder" [])];
     filter_select params "status" (t "filter.status" []) (t "filter.allStatuses" []) ENDPOINT_STATUSES;
     filter_select params "riskLevel" (t "endpoints.riskLevel" []) (t "endpoints.allLevels" []) ENDPOINT_RISK_LEVELS]
  | OfEvents => [endpointId_input params; filter_select params "eventType" (t "events.type" []) (t "events.allTypes" []) EVENT_TYPES]
  | OfIncidents => [filter_select params "status" (t "filter.status" []) (t "filter.allStatuses" []) INCIDENT_STATUSES; severity_select params]
  end.
Definition advanced_controls (page : ListPage) (params : URLSearchParams) : list Control :=
  match page with
  | OfAlerts =>
    [endpointId_input params; input_control params "ruleCode" (t "alerts.ruleCode" []) [] (trim (stringParam params (u! "ruleCode") []));
     alert_sort_select params; alert_order_select params]
  | OfEndpoints =>
    [raw_input params "endpointIds" (t "filter.endpointIds" []) [placeholder (u! "1, 2, 7")];
     filter_select params "osType" (t "endpoints.operatingSystem" []) (t "endpoints.allSystems" []) OS_TYPES;
     endpoint_sort_select params; order_select params None false "filter.descending" "filter.ascending"]
  | OfEvents => map (detail_input params) DETAIL_FILTERS ++ [order_select params None false "filter.newestFirst" "filter.oldestFirst"]
  | OfIncidents => [endpointId_input params; order_select params None false "filter.newestFirst" "filter.oldestFirst"]
  end.
Definition time_controls (params : URLSearchParams) : list Control := preset_select params :: bound_inputs params.
(** All controls of a page. *)
Definition list_controls (page : ListPage) (params : URLSearchParams) : list Control :=
  (if has_time page then time_controls params else []) ++ primary_controls page params ++ advanced_controls page params.

Definition filter_def (key label : string) : FilterDefinition := mkFilterDefinition (u key) (t label []) None.
Definition filter_literal (key label : string) : FilterDefinition := mkFilterDefinition (u key) (t label []) (Some human).
Definition time_filters : list FilterDefinition :=
  [filter_literal "timePreset" "filter.timeRange"; filter_def "from" "filter.from"; filter_def "to" "filter.to"].
Definition list_filters (page : ListPage) : list FilterDefinition :=
  match page with
  | OfAlerts => time_filters ++ [filter_literal "status" "filter.status"; filter_literal "severity" "filter.severity";
      filter_def "endpointId" "filter.endpointId"; filter_def "ruleCode" "alerts.ruleCode"; filter_literal "sortBy" "filter.sort";
      filter_literal "sortOrder" "filter.order"]
  | OfEndpoints => [filter_def "q" "endpoints.search"; filter_literal "status" "filter.status"; filter_literal "riskLevel" "endpoints.riskLevel";
      filter_def "endpointIds" "filter.endpointIds"; filter_literal "osType" "endpoints.operatingSystem"; filter_literal "sortBy" "filter.sort";
      filter_literal "sortOrder" "filter.order"]
  | OfEvents => time_filters ++ [filter_def "endpointId" "filter.endpointId"; filter_literal "eventType" "events.type"]
      ++ map (λ key, mkFilterDefinition key (eventFilterLabel key) None) DETAIL_FILTERS ++ [filter_literal "sortOrder" "filter.order"]
  | OfIncidents => time_filters ++ [filter_literal "status" "filter.status"; filter_literal "severity" "filter.severity";
      filter_def "endpointId" "filter.endpointId"; filter_literal "sortOrder" "filter.order"]
  end.
Definition drawn_filters (params : URLSearchParams) (definitions : list FilterDefinition) : list AppliedFilter :=
  map (λ d, mkAppliedFilter (UrlState.af_key d) (UrlState.af_label d) (UrlState.af_value d)) (appliedFilterDescriptors params definitions).

Definition list_filter_bar (page : ListPage) (advancedOpen : bool) (params : URLSearchParams) : option Render :=
  advanced ← control_fields (advanced_controls page params);
  time ← (if has_time page then TimeFilterFields variant_select None params else Some nothing);
  primary ← control_fields (primary_controls page params);
  let filters := drawn_filters params (list_filters page) in
  Some (FilterBar t icon advancedOpen (Some advanced) filters true (negb (bool_decide (filters = []))) (both time primary)).

(** ** The tables *)

Definition td (r : Render) : Render := around (λ l, [plain "td" [] l]) r.
Definition th (text : ustring) : Render := rendered [plain "th" [(u! "scope", u! "col")] [Txt text]].
Definition pill (value : ustring) : Render := StatusPill toLowerCase value None.
Definition small (text : ustring) : jsx := plain "small" [] [Txt text].
Definition anchor (className : option ustring) (to : ustring) (children : list jsx) : jsx :=
  plain "a" (from_option (λ c, [cls c]) [] className ++ [(u! "href", to)]) children.

(** A row that is marked when it is the one chosen last, with the link to its item. *)
Definition list_row (selected : bool) (cells : list Render) : Render :=
  around (λ l, [plain "tr" (if selected then [cls (u! "selected-row")] else []) l]) (all (map td cells)).
Definition primary_link (selected : bool) (title : option ustring) (to : ustring) (first second : ustring) : Render :=
  rendered [plain "a" ((if selected then [(u! "aria-current", u! "true")] else []) ++ [cls (u! "table-primary")]
    ++ from_option (λ s, [(u! "title", s)]) [] title ++ [(u! "href", to)]) [plain "strong" [] [Txt first]; plain "code" [] [Txt second]]].
Definition text_cell (text : ustring) : Render := text_node text.

Definition alert_to (params : URLSearchParams) (alert : AlertDto) : ustring :=
  u! "/alerts/" ++ string_of_Z (alert_alertId alert) ++ selectedSearch params (string_of_Z (alert_alertId alert)).
Definition alert_row (params : URLSearchParams) (alert : AlertDto) : option Render :=
  let selected := isSelected params (string_of_Z (alert_alertId alert)) in
  title ← detectionTitle (alert_ruleName alert) (Some (alert_ruleCode alert));
  detected ← formatDateTime (Some (alert_detectedAt alert));
  Some (list_row selected
    [primary_link selected None (alert_to params alert) title
       (alert_ruleCode alert ++ u! " · v" ++ string_of_Z (alert_ruleVersion alert));
     pill (lit_name (alert_severity alert)); text_cell (string_of_Z (alert_riskScore alert)); pill (lit_name (alert_status alert));
     rendered [plain "code" [] [Txt (alert_agentId alert)]]; text_cell detected]).

Definition endpoint_path (endpointId : Z) : ustring := u! "/endpoints/" ++ string_of_Z endpointId.
Definition endpoint_to (params : URLSearchParams) (endpoint : EndpointDto) : ustring :=
  endpoint_path (endpoint_endpointId endpoint) ++ selectedSearch params (string_of_Z (endpoint_endpointId endpoint)).
Definition endpoint_row (params : URLSearchParams) (endpoint : EndpointDto) : option Render :=
  let selected := isSelected params (string_of_Z (endpoint_endpointId endpoint)) in
  let level := lit_name (risk_level (endpoint_risk endpoint)) in
  lastSeen ← formatDateTime (endpoint_lastSeenAt endpoint);
  Some (list_row selected
    [primary_link selected (Some (endpoint_hostname endpoint)) (endpoint_to params endpoint) (endpoint_hostname endpoint) (endpoint_agentId endpoint);
     rendered [Txt (lit_name (endpoint_osType endpoint)); small (default (t "endpoints.versionUnavailable" []) (endpoint_osVersion endpoint))];
     both (pill (lit_name (endpoint_status endpoint)))
       (if endpoint_isStale endpoint then rendered [plain "span" [cls (u! "stale-inline")] [Txt (t "endpoints.stale" [])]] else nothing);
     text_cell lastSeen;
     rendered [anchor (Some (u! "risk-cell")) (endpoint_to params endpoint)
       [plain "strong" [] [Txt (string_of_Z (risk_score (endpoint_risk endpoint)))];
        plain "span" [cls (u! "risk-level-text tone-" ++ toLowerCase level)] [Txt (human level)]]];
     text_cell (string_of_Z (risk_activeAlertCount (endpoint_risk endpoint)));
     text_cell (string_of_Z (risk_openIncidentCount (endpoint_risk endpoint)))]).

Definition event_to (params : URLSearchParams) (event : EventDto) : ustring :=
  u! "/events/" ++ event_eventId event ++ eventDetailSearch params (event_eventId event) (event_endpointId event) (event_occurredAt event).
Definition event_row (params : URLSearchParams) (event : EventDto) : option Render :=
  let selected := isSelected params (event_eventId event) in
  let summary := eventListSummary event in
  occurred ← formatDateTime (Some (event_occurredAt event)); ingested ← formatDateTime (Some (event_ingestedAt event));
  Some (list_row selected
    [primary_link selected None (event_to params event) occurred (event_eventId event);
     rendered [anchor None (endpoint_path (event_endpointId event)) [Txt (event_hostname event)]; small (u! "ID " ++ string_of_Z (event_endpointId event))];
     pill (lit_name (event_eventType event));
     rendered [Txt (if truthy summary then summary else t "common.notAvailable" []);
       small (if truthy_opt (event_processName event) && negb (bool_decide (event_eventType event = Ev_PROCESS_EXECUTION))
              then default [] (event_processName event) else [])];
     text_cell ingested]).

Definition incident_to (params : URLSearchParams) (incident : IncidentDto) : ustring :=
  u! "/incidents/" ++ string_of_Z (incident_incidentId incident) ++ selectedSearch params (string_of_Z (incident_incidentId incident)).
Definition incident_row (params : URLSearchParams) (incident : IncidentDto) : option Render :=
  let selected := isSelected params (string_of_Z (incident_incidentId incident)) in
  title ← detectionTitle (incident_title incident) None;
  windowStart ← formatDateTime (Some (incident_windowStartAt incident)); windowEnd ← formatDateTime (Some (incident_windowEndAt incident));
  lastDetected ← formatDateTime (Some (incident_lastDetectedAt incident));
  Some (list_row selected
    [primary_link selected (Some title) (incident_to params incident) title (incident_correlationKey incident);
     rendered [anchor None (endpoint_path (incident_endpointId incident)) [Txt (string_of_Z (incident_endpointId incident))]];
     pill (lit_name (incident_severity incident)); pill (lit_name (incident_status incident)); text_cell (string_of_Z (incident_alertCount incident));
     rendered [Txt windowStart; small (t "common.to" [] ++ u! " " ++ windowEnd)]; text_cell lastDetected]).

(** A sortable column of the alerts and of the endpoints. *)
Definition alert_column (params : URLSearchParams) (field : AlertSortBy) (label : string) : Render :=
  SortableHeader t (t label []) (bool_decide (alerts_sortBy params = field)) (bool_decide (order_of params = Order_desc)).
Definition endpoint_column (params : URLSearchParams) (field : EndpointSortBy) (label : string) : Render :=
  SortableHeader t (t label []) (bool_decide (endpoints_sortBy params = field)) (bool_decide (order_of params = Order_desc)).
Definition ordered_column (params : URLSearchParams) (label : string) : Render :=
  SortableHeader t (t label []) true (bool_decide (order_of params = Order_desc)).
Definition column (label : string) : Render := th (t label []).

Definition list_columns (page : ListPage) (params : URLSearchParams) : list Render :=
  match page with
  | OfAlerts => [column "alerts.rule"; alert_column params AlertSort_severity "filter.severity"; alert_column params AlertSort_riskScore "alerts.risk";
      alert_column params AlertSort_status "filter.status"; column "alerts.agent"; alert_column params AlertSort_detectedAt "alerts.detected"]
  | OfEndpoints => [th (u! "Endpoint"); column "endpoints.os"; column "filter.status"; endpoint_column params EndpointSort_lastSeenAt "endpoints.lastSeen";
      endpoint_column params EndpointSort_riskScore "endpoints.risk"; column "endpoints.activeAlerts"; column "endpoints.openIncidents"]
  | OfEvents => [ordered_column params "events.occurred"; th (u! "Endpoint"); column "events.type"; column "events.typeDetail"; column "events.ingested"]
  | OfIncidents => [column "incident.singular"; th (u! "Endpoint"); column "filter.severity"; column "filter.status"; column "incident.alerts";
      column "incident.window"; ordered_column params "incident.lastDetected"]
  end.

(** ** The pages *)

(** The items of a page of results, with the row and the key of each. *)
Record Item := mkItem { it_key : ustring; it_to : ustring; it_row : option Render }.
Record ListData := mkListData { ld_items : list Item; ld_page : Z; ld_size : Z; ld_total : Z }.
Definition alert_item (params : URLSearchParams) (alert : AlertDto) : Item :=
  mkItem (string_of_Z (alert_alertId alert)) (alert_to params alert) (alert_row params alert).
Definition endpoint_item (params : URLSearchParams) (endpoint : EndpointDto) : Item :=
  mkItem (string_of_Z (endpoint_endpointId endpoint)) (endpoint_to params endpoint) (endpoint_row params endpoint).
Definition event_item (params : URLSearchParams) (event : EventDto) : Item :=
  mkItem (event_eventId event) (event_to params event) (event_row params event).
Definition incident_item (params : URLSearchParams) (incident : IncidentDto) : Item :=
  mkItem (string_of_Z (incident_incidentId incident)) (incident_to params incident) (incident_row params incident).

Record PageTexts := mkPageTexts {
  pt_path : string; pt_title : string; pt_panel : string; pt_records : option string; pt_rows : nat;
  pt_empty : string; pt_noMatch : string; pt_none : string; pt_compact : bool; pt_actions : bool;
}.
Definition page_texts (page : ListPage) : PageTexts :=
  match page with
  | OfAlerts => mkPageTexts "/alerts" "alerts.title" "alerts.queue" None 8 "alerts.noResults" "alerts.noFilterMatch" "alerts.noneInRange" true true
  | OfEndpoints => mkPageTexts "/endpoints" "endpoints.title" "endpoints.inventory" (Some "endpoints.records"%string) 8
      "endpoints.noResults" "endpoints.noFilterMatch" "endpoints.noneRegistered" false false
  | OfEvents => mkPageTexts "/events" "events.title" "events.stream" (Some "events.records"%string) 8
      "events.noResults" "events.noFilterMatch" "events.noneInRange" false true
  | OfIncidents => mkPageTexts "/incidents" "incident.title" "incident.queue" (Some "incident.records"%string) 7
      "incident.noResults" "incident.noFilterMatch" "incident.noneInRange" true true
  end.

(** A part of the feedback; only the error state has the texts of the error. *)
Definition no_error : DrawnError := mkDrawnError (mkErrorView [] [] [] [] false) [].
Definition feedback_error (error : option Rejection) (part : Feedback) : option DrawnError :=
  match part, error with ErrorShown, Some e => drawn_error locale e | _, _ => Some no_error end.
Definition draw_feedback (invalidMessage : option ustring) (rows : nat) (error : option Rejection) (part : Feedback) : option Render :=
  drawn ← feedback_error error part;
  let requestId := error ≫= request_id in
  Some (feedback_part t icon invalidMessage rows (de_view drawn) (de_details drawn) (truthy_opt requestId) requestId part).
Definition list_feedback (invalid fetching : bool) (invalidMessage : option ustring) (rows : nat) (enabled : bool) {A} (result : QueryResult A) : option Render :=
  all <$> mapM (draw_feedback invalidMessage rows (q_error result))
    (QueryFeedback invalid (q_pending result && enabled) fetching (q_refetchError result) (is_Some_b (q_error result)) (is_Some_b (q_data result))).

Definition list_table (page : ListPage) (fetching : bool) (params : URLSearchParams) (data : ListData) : option Render :=
  let texts := page_texts page in
  rows ← mapM it_row (ld_items data);
  Some (both (DataTable t (t (pt_panel texts) []) None fetching []
          (both (around (λ l, [plain "thead" [] l]) (around (λ l, [plain "tr" [] l]) (all (list_columns page params))))
                (around (λ l, [plain "tbody" [] l]) (all rows))))
       (Pagination t icon (u (pt_path texts)) params (ld_page data) (ld_total data) (ld_size data))).

Definition empty_actions (filters : list AppliedFilter) : Render :=
  rendered [plain "button" ([cls (u! "button ghost")] ++ flag "disabled" (bool_decide (filters = [])) ++ [(u! "type", u! "button")]) [Txt (t "filter.clear" [])];
            plain "button" [cls (u! "button primary"); (u! "type", u! "button")] [Txt (t "filter.latest7Days" [])]].
Definition list_empty (page : ListPage) (filters : list AppliedFilter) : Render :=
  let texts := page_texts page in
  EmptyState icon (t (pt_empty texts) []) (t (if bool_decide (filters = []) then pt_none texts else pt_noMatch texts) []) (pt_compact texts)
    (if pt_actions texts then Some (empty_actions filters) else None).

Definition list_panel (page : ListPage) (fetching : bool) (params : URLSearchParams) (data : ListData) : option Render :=
  let texts := page_texts page in
  content ← match ld_items data with
            | [] => Some (list_empty page (drawn_filters params (list_filters page)))
            | _ => list_table page fetching params data
            end;
  Some (Panel (t (pt_panel texts) []) ((λ key, t key [(u! "total", number_param (ld_total data))]) <$> pt_records texts) None [] content).

(** [None]: a control, the error or a row throws, and with it the page. *)
Definition list_page (page : ListPage) (advancedOpen fetching : bool) (params : URLSearchParams) (result : QueryResult ListData) : option Render :=
  bar ← list_filter_bar page advancedOpen params;
  let invalid := list_invalid page params in
  feedback ← list_feedback invalid fetching None (pt_rows (page_texts page)) (negb invalid) result;
  panel ← match q_data result with Some data => if invalid then Some nothing else list_panel page fetching params data | None => Some nothing end;
  Some (around (λ l, [plain "div" [cls (u! "page-stack")] l])
    (both (PageHeader None (t (pt_title (page_texts page)) []) None None) (both bar (both feedback panel)))).

(** The handlers of the bar and of the empty state. *)
Definition clear_filters : URLSearchParams := [].
Definition remove_filter (params : URLSearchParams) (filter : AppliedFilter) : URLSearchParams := removeListFilter params (Markup.af_key filter).
End views.

(** ** Facts about single controls *)

Lemma get_set_param params key value k : usv k ≠ u! "page" →
  params_get (updateParams params [(key, UrlState.PText value)] true) k =
  if bool_decide (usv key = usv k) then (if truthy value then Some (usv value) else None) else params_get params k.
Proof.
  intros Hk. rewrite params_get_update by done. cbn [reverse rev_append js_find fst].
  destruct (bool_decide (usv key = usv k)); [|done]. cbn [snd UrlState.param_text]. by destruct (truthy value).
Qed.

Section controls.
Context `{DateHost}.
Context (t : string → TranslationParams → ustring) (locale : Locale).

(** A select is offered its options; a bound takes a local minute or is emptied; other inputs
    take any text, written in whole characters. *)
Definition offered (c : Control) (value : ustring) : Prop :=
  ct_disabled c = false ∧
  match ct_options c with
  | Some options => value ∈ options.*1
  | None => if str_in (ct_key c) [u! "from"; u! "to"] then value = [] ∨ ∃ time, local_minute time value else usv value = value
  end.
(** What the control shows after the change: only the code of a rule is trimmed. *)
Definition shown_as (c : Control) (value : ustring) : ustring := if bool_decide (ct_key c = u! "ruleCode") then trim value else value.

(** The value a parameter has once it was set. *)
Definition stored (value : ustring) : option ustring := if truthy value then Some value else None.

(** A control of the parameter [k] that writes it and shows what it reads. *)
Record reads_and_writes (k : ustring) (control : URLSearchParams → Control) : Prop := {
  rw_key : ∀ p, ct_key (control p) = k;
  rw_label : ∀ p q, ct_label (control p) = ct_label (control q);
  rw_change : ∀ p value, ct_change (control p) value = set_param p k value;
  rw_reads : ∀ p q, params_get p k = params_get q k → ct_value (control p) = ct_value (control q);
  rw_usv : ∀ p value, offered (control p) value → usv value = value;
  rw_shows : ∀ p value, offered (control p) value → ∀ q, params_get q k = stored value → ct_value (control q) = Some (shown_as (control p) value);
}.

Lemma literal_text `{Literal A} (allowed : list A) a :
  forallb (λ a, bool_decide (usv (lit_name a) = lit_name a) && truthy (lit_name a)) allowed = true → a ∈ allowed →
  usv (lit_name a) = lit_name a ∧ stored (lit_name a) = Some (lit_name a).
Proof. intros Ha Hin. destruct (literal_usv a allowed Hin Ha) as [H1 H2]. unfold stored. by rewrite H2. Qed.

(** A select of literals, perhaps with a first option for all. *)
Lemma rw_select `{Literal A} (allowed : list A) (control : URLSearchParams → Control) k (first : option ustring) options (value : URLSearchParams → ustring) :
  k ≠ u! "ruleCode" →
  forallb (λ a, bool_decide (usv (lit_name a) = lit_name a) && truthy (lit_name a)) allowed = true →
  (∀ p, ct_key (control p) = k ∧ ct_options (control p) = Some (options p) ∧ ct_value (control p) = Some (value p)) →
  (∀ p q, ct_label (control p) = ct_label (control q)) →
  (∀ p v, ct_change (control p) v = set_param p k v) →
  (∀ p, (options p).*1 = option_list ((λ _, u! "") <$> first) ++ map lit_name allowed) →
  (∀ p q, params_get p k = params_get q k → value p = value q) →
  (∀ p a, a ∈ allowed → params_get p k = Some (lit_name a) → value p = lit_name a) →
  (is_Some first → ∀ p, params_get p k = None → value p = []) →
  reads_and_writes k control.
Proof.
  intros Hk Hall Hc Hl Hch Ho Hr Hv Hn.
  assert (∀ p v, offered (control p) v → (is_Some first ∧ v = []) ∨ ∃ a, a ∈ allowed ∧ v = lit_name a) as Hoff.
  { intros p v [_ Hin]. destruct (Hc p) as (_ & E & _). rewrite E, Ho in Hin. apply elem_of_app in Hin as [Hin|Hin].
    - left. destruct first; [|by apply not_elem_of_nil in Hin]. cbn in Hin. apply list_elem_of_singleton in Hin. by split.
    - right. apply list_elem_of_fmap in Hin as (a & -> & Ha). by exists a. }
  split.
  - intros p. apply Hc.
  - done.
  - done.
  - intros p q E. destruct (Hc p) as (_ & _ & ->), (Hc q) as (_ & _ & ->). f_equal. by apply Hr.
  - intros p v Hp. destruct (Hoff p v Hp) as [[_ ->]|(a & Ha & ->)]; [done|]. by apply (literal_text allowed).
  - intros p v Hp q Hq. destruct (Hc q) as (_ & _ & ->). unfold shown_as. destruct (Hc p) as (-> & _). rewrite bool_decide_false by done. f_equal.
    destruct (Hoff p v Hp) as [[Hf ->]|(a & Ha & ->)]; [by apply Hn|]. apply Hv; [done|]. rewrite Hq. by apply (literal_text allowed).
Qed.

Lemma enum_param_reads `{Literal A} (allowed : list A) p q k : params_get p k = params_get q k → enum_param p k allowed = enum_param q k allowed.
Proof. unfold enum_param. by intros ->. Qed.

Lemma rw_filter_select `{Literal A} (key : string) label everything (allowed : list A) : u key ≠ u! "ruleCode" →
  forallb (λ a, bool_decide (usv (lit_name a) = lit_name a) && truthy (lit_name a)) allowed = true →
  reads_and_writes (u key) (λ p, filter_select p key label everything allowed).
Proof.
  intros Hk Hall. eapply (rw_select allowed _ _ (Some everything) _ (λ p, from_option lit_name [] (enum_param p (u key) allowed))); [done|done|done|done|done|..].
  - intros p. cbn. f_equal. rewrite map_map. done.
  - intros p q E. by rewrite (enum_param_reads allowed p q).
  - intros p a Ha Hg. by rewrite (enum_read p (u key) allowed a).
  - intros _ p Hg. unfold enum_param. by rewrite Hg.
Qed.

Lemma default_read `{Literal A} p k (allowed : list A) d a : a ∈ allowed → params_get p k = Some (lit_name a) →
  lit_name (default d (enum_param p k allowed)) = lit_name a.
Proof. intros Ha Hg. by rewrite (enum_read p k allowed a). Qed.

Lemma rw_order_select helper disabled descending ascending :
  reads_and_writes (u! "sortOrder") (λ p, order_select t p (helper p) (disabled p) descending ascending).
Proof.
  eapply (rw_select [Order_desc; Order_asc] _ _ None _ (λ p, lit_name (order_of p))); try done.
  - intros p q E. unfold order_of. by rewrite (enum_param_reads _ p q).
  - intros p a Ha. apply default_read. destruct a; set_solver.
Qed.

Lemma rw_alert_sort : reads_and_writes (u! "sortBy") (alert_sort_select t).
Proof.
  eapply (rw_select ALERT_SORT_FIELDS _ _ None _ (λ p, lit_name (alerts_sortBy p))); try done.
  - intros p q E. unfold alerts_sortBy. by rewrite (enum_param_reads _ p q).
  - intros p a. apply default_read.
Qed.
Lemma rw_endpoint_sort : reads_and_writes (u! "sortBy") (endpoint_sort_select t).
Proof.
  eapply (rw_select ENDPOINT_SORT_FIELDS _ _ None _ (λ p, lit_name (endpoints_sortBy p))); try done.
  - intros p q E. unfold endpoints_sortBy. by rewrite (enum_param_reads _ p q).
  - intros p a. apply default_read.
Qed.
Lemma rw_preset : reads_and_writes (u! "timePreset") (preset_select t).
Proof.
  eapply (rw_select TIME_PRESETS _ _ None _ (λ p, lit_name (timePreset p))); try done.
  - intros p q E. unfold timePreset. by rewrite E.
  - intros p a _ Hg. f_equal. by apply timePreset_raw.
Qed.

(** An input that shows the text of its parameter, or makes something of it. *)
Lemma rw_input (control : URLSearchParams → Control) k (f : ustring → ustring) : str_in k [u! "from"; u! "to"] = false →
  (∀ p, ct_key (control p) = k ∧ ct_options (control p) = None ∧ ct_value (control p) = Some (f (default [] (params_get p k)))) →
  (∀ p q, ct_label (control p) = ct_label (control q)) →
  (∀ p v, ct_change (control p) v = set_param p k v) →
  (∀ v, f v = if bool_decide (k = u! "ruleCode") then trim v else v) → reads_and_writes k control.
Proof.
  intros Hk Hc Hl Hch Hf. split.
  - intros p. apply Hc.
  - done.
  - done.
  - intros p q E. destruct (Hc p) as (_ & _ & ->), (Hc q) as (_ & _ & ->). by rewrite E.
  - intros p v [_ Hp]. destruct (Hc p) as (Ek & E & _). by rewrite E, Ek, Hk in Hp.
  - intros p v _ q Hq. destruct (Hc q) as (_ & _ & ->). unfold shown_as. destruct (Hc p) as (-> & _). rewrite Hq.
    rewrite Hf. unfold stored. by destruct v.
Qed.

Lemma rw_raw_input key label attrs : str_in (u key) [u! "from"; u! "to"] = false → u key ≠ u! "ruleCode" →
  reads_and_writes (u key) (λ p, raw_input p key label attrs).
Proof. intros Hk Hr. eapply (rw_input _ _ (λ v, v)); try done. intros v. by rewrite bool_decide_false. Qed.

Lemma rw_rule_input label attrs :
  reads_and_writes (u! "ruleCode") (λ p, input_control p "ruleCode" label attrs (trim (stringParam p (u! "ruleCode") []))).
Proof. by eapply (rw_input _ _ trim). Qed.
Lemma rw_detail_input field : str_in field [u! "from"; u! "to"] = false → field ≠ u! "ruleCode" → reads_and_writes field (λ p, detail_input t locale p field).
Proof. intros Hk Hr. eapply (rw_input _ _ (λ v, v)); try done. intros v. by rewrite bool_decide_false. Qed.

(** ** The controls of a page *)

Definition plain_controls (page : ListPage) (p : URLSearchParams) : list Control :=
  (if has_time page then [preset_select t p] else []) ++ primary_controls t page p ++ advanced_controls t locale page p.

Lemma controls_split page p c : c ∈ list_controls t locale page p ↔ c ∈ plain_controls page p ∨ has_time page = true ∧ c ∈ bound_inputs t p.
Proof. unfold list_controls, plain_controls, time_controls. destruct (has_time page); set_solver. Qed.

Ltac below i := destruct i as [|i]; [|first [exfalso; lia|below i]].

Ltac rw_control :=
  unfold severity_select, endpointId_input;
  lazymatch goal with |- reads_and_writes _ ?control =>
    let c := eval cbv beta in (control []) in
    lazymatch c with
    | filter_select _ _ _ _ _ => by apply rw_filter_select
    | raw_input _ _ _ _ => by apply rw_raw_input
    | input_control _ _ _ _ _ => apply rw_rule_input
    | detail_input _ _ _ _ => by apply rw_detail_input
    | alert_sort_select _ _ => apply rw_alert_sort
    | endpoint_sort_select _ _ => apply rw_endpoint_sort
    | preset_select _ _ => apply rw_preset
    | order_select _ _ _ _ _ _ => apply (rw_order_select (λ _, None) (λ _, false))
    | alert_order_select _ _ =>
      apply (rw_order_select (λ p, if bool_decide (alerts_sortBy p = AlertSort_priority) then Some (t "alerts.priorityOrder" []) else None)
               (λ p, bool_decide (alerts_sortBy p = AlertSort_priority)))
    end
  end.

Lemma plain_control page i : (i < length (plain_controls page []))%nat →
  ∃ k control, (∀ q, plain_controls page q !! i = Some (control q)) ∧ reads_and_writes k control ∧ k ≠ u! "page" ∧ str_in k [u! "from"; u! "to"] = false ∧ usv k = k.
Proof.
  intros Hi. destruct page; cbn in Hi; below i;
    (eexists _, _; split; [intros q; reflexivity|split;
      [rw_control|
       split; [lit_ne|split; vm_compute; reflexivity]]]).
Qed.

Lemma plain_length page p i c : plain_controls page p !! i = Some c → (i < length (plain_controls page []))%nat.
Proof. intros Hi%lookup_lt_Some. enough (length (plain_controls page p) = length (plain_controls page [])) by lia. by destruct page. Qed.

Lemma plain_found page p c : c ∈ plain_controls page p →
  ∃ i k control, reads_and_writes k control ∧ k ≠ u! "page" ∧ str_in k [u! "from"; u! "to"] = false ∧ usv k = k ∧ c = control p ∧ plain_controls page p !! i = Some c ∧
    ∀ q, control q ∈ plain_controls page q.
Proof.
  intros (i & Hi)%list_elem_of_lookup. destruct (plain_control page i) as (k & control & Hq & Hrw & Hk & Hb & Hu); [by eapply plain_length|].
  exists i, k, control. split_and!; try done; [|by intros q; apply list_elem_of_lookup; exists i]. rewrite Hq in Hi. by injection Hi.
Qed.

(** ** A choice keeps the page valid *)

Section change.
Context (p : URLSearchParams) (key value : ustring).
#[local] Abbreviation next := (updateParams p [(key, UrlState.PText value)] true).

Lemma next_get k : usv k ≠ usv key → params_get next k = if bool_decide (usv k = u! "page") then None else params_get p k.
Proof.
  intros Hk. case_bool_decide as E.
  - rewrite (params_get_usv _ k (u! "page")) by (rewrite E; vm_compute; reflexivity). apply params_get_delete_eq.
  - rewrite get_set_param by done. by rewrite bool_decide_false.
Qed.

Lemma valid_enum `{Literal A} (allowed : list A) k : usv k ≠ u! "page" → usv value = value →
  usv k ≠ usv key ∨ str_in value ([] :: map lit_name allowed) = true →
  enum_invalid p k allowed = false → enum_invalid next k allowed = false.
Proof.
  intros Hk Hv Hor. unfold enum_invalid, hasInvalidEnum. rewrite get_set_param by done.
  destruct (bool_decide_reflect (usv key = usv k)) as [E|E]; [|done]. intros _. destruct Hor as [Hne|Hin]; [congruence|].
  destruct value as [|c v] eqn:Ev; [done|]. cbn [truthy negb]. apply negb_false_iff, str_in_true. rewrite Hv. apply str_in_true in Hin.
  by apply elem_of_cons in Hin as [Hin|Hin].
Qed.

Lemma valid_same (check : URLSearchParams → bool) (keys : list ustring) :
  (∀ q q', (∀ k, k ∈ keys → params_get q k = params_get q' k) → check q = check q') →
  forallb (λ k, negb (bool_decide (usv k = usv key)) && negb (bool_decide (usv k = u! "page"))) keys = true →
  check p = false → check next = false.
Proof.
  intros Hc Hk <-. apply Hc. intros k Hin. rewrite forallb_elem in Hk. specialize (Hk k Hin).
  apply andb_true_iff in Hk as [H1%negb_true_iff%bool_decide_eq_false H2%negb_true_iff%bool_decide_eq_false].
  rewrite next_get by done. by rewrite bool_decide_false.
Qed.

Lemma valid_pages : usv (u! "size") ≠ usv key → hasInvalidPagination p = false → hasInvalidPagination next = false.
Proof.
  intros Hk. unfold hasInvalidPagination. intros [_ Hs]%orb_false_iff. apply orb_false_iff. split.
  - unfold hasInvalidPositiveInteger. unfold updateParams. by rewrite params_get_delete_eq.
  - by rewrite next_get.
Qed.

Lemma valid_preset (preset : TimePreset) : key = u! "timePreset" → value = lit_name preset → preset ≠ Preset_CUSTOM →
  tf_valid (readTimeFilter next) = true.
Proof.
  intros Ek Ev Hp. assert (params_get next (u! "timePreset") = Some (lit_name preset)) as Hg.
  { rewrite get_set_param by done. rewrite bool_decide_true by (by rewrite Ek). rewrite Ev. destruct preset; vm_compute; reflexivity. }
  unfold readTimeFilter. rewrite (timePreset_raw _ preset Hg), Hg. cbn [tf_valid]. rewrite bool_decide_false by done.
  cbn [negb orb]. rewrite andb_true_r. apply preset_names. by exists preset.
Qed.
End change.

Lemma time_ext q q' : (∀ k, k ∈ [u! "timePreset"; u! "from"; u! "to"] → params_get q k = params_get q' k) →
  negb (tf_valid (readTimeFilter q)) = negb (tf_valid (readTimeFilter q')).
Proof. intros E. by rewrite (readTimeFilter_ext q q'). Qed.

(** The refusals of single parameters. *)
Lemma reads_id q q' : (∀ k, k ∈ [u! "endpointId"] → params_get q k = params_get q' k) →
  hasInvalidPositiveInteger q (u! "endpointId") = hasInvalidPositiveInteger q' (u! "endpointId").
Proof. intros E. unfold hasInvalidPositiveInteger. by rewrite E by set_solver. Qed.
Lemma reads_q q q' : (∀ k, k ∈ [u! "q"] → params_get q k = params_get q' k) → hasInvalidText q (u! "q") 128 = hasInvalidText q' (u! "q") 128.
Proof. intros E. unfold hasInvalidText. by rewrite E by set_solver. Qed.
Lemma reads_ids q q' : (∀ k, k ∈ [u! "endpointIds"] → params_get q k = params_get q' k) →
  invalidEndpointIds (raw_endpointIds q) = invalidEndpointIds (raw_endpointIds q').
Proof. intros E. unfold raw_endpointIds. by rewrite E by set_solver. Qed.

Lemma str_in_sub value options allowed : str_in value options = true → forallb (λ o, str_in o allowed) options = true → str_in value allowed = true.
Proof. intros Hv%str_in_true Ha. rewrite forallb_elem in Ha. by apply Ha. Qed.

(** One refusal of a page after a change of the parameter [key] to [value]. *)
(** A hypothesis as it is written. *)
Ltac known := match goal with H : ?P |- ?P => exact H | H : str_in ?v _ = true |- str_in ?v _ = true => exact H end.
Ltac by_eval := vm_compute; first [reflexivity|discriminate].
Ltac unaffected lemma check := apply (valid_same _ _ _ check _ lemma); [by_eval|known].
Ltac still_valid :=
  lazymatch goal with
  | |- hasInvalidPagination _ = false => apply valid_pages; [by_eval|known]
  | |- enum_invalid _ _ _ = false =>
    apply valid_enum; [by_eval|known|first [left; vm_compute; discriminate|right; eapply str_in_sub; [known|vm_compute; reflexivity]]|known]
  | |- hasInvalidPositiveInteger _ _ = false => unaffected reads_id (λ q, hasInvalidPositiveInteger q (u! "endpointId"))
  | |- hasInvalidText _ _ _ = false => unaffected reads_q (λ q, hasInvalidText q (u! "q") 128)
  | |- invalidEndpointIds _ = false => unaffected reads_ids (λ q, invalidEndpointIds (raw_endpointIds q))
  | |- negb (tf_valid _) = false => 
    first [apply negb_false_iff; known|apply (valid_same _ _ _ (λ q, negb (tf_valid (readTimeFilter q))) _ time_ext); [by_eval|apply negb_false_iff; known]]
  end.

Lemma preset_stays_valid p value : value ∈ map lit_name TIME_PRESETS → value ≠ u! "CUSTOM" →
  negb (tf_valid (readTimeFilter (updateParams p [(u! "timePreset", UrlState.PText value)] true))) = false.
Proof.
  intros Hv Hn. apply list_elem_of_fmap in Hv as (preset & -> & _). apply negb_false_iff. eapply valid_preset; try done. by intros ->.
Qed.

Lemma choice_stays_valid page i p c value : (i < length (plain_controls page []))%nat → plain_controls page p !! i = Some c →
  is_Some (ct_options c) → offered c value → value ≠ u! "CUSTOM" → usv value = value → list_invalid page p = false →
  list_invalid page (updateParams p [(ct_key c, UrlState.PText value)] true) = false.
Proof.
  intros Hi Hc Hs [_ Ho] Hv Hu Hp. destruct page; cbn in Hi; below i; cbn in Hc; injection Hc as <-; cbn [ct_options] in *;
    try (by destruct Hs); cbn in Ho; rewrite ?map_map in Ho;
    match goal with |- context [ct_key ?c] => let k := eval cbn in (ct_key c) in change (ct_key c) with k end.
  all: try (pose proof (preset_stays_valid p value Ho Hv)); apply str_in_true in Ho.
  all: unfold list_invalid, alerts_invalid, endpoints_invalid, events_invalid, incidents_invalid in *; split_valid;
    repeat match goal with |- _ || _ = false => apply orb_false_iff; split end; still_valid.
Qed.

(** ** What the selects show is what is sent *)

(** The query behind a page, which [page_request] sends, and the text of one of its entries. *)
Definition list_entries (page : ListPage) (p : URLSearchParams) : QueryRecord :=
  match page with
  | OfAlerts => alert_entries (alerts_query p) | OfEndpoints => endpoint_entries (endpoints_query p)
  | OfEvents => event_entries (events_query p) | OfIncidents => incident_entries (incidents_query p)
  end.
Definition list_request (page : ListPage) : PageRequest :=
  match page with OfAlerts => AlertsList | OfEndpoints => EndpointsList | OfEvents => EventsList | OfIncidents => IncidentsList end.
Definition list_call (page : ListPage) : QueryRecord → ApiCall :=
  match page with OfAlerts => ApiClient.alerts | OfEndpoints => ApiClient.endpoints | OfEvents => ApiClient.events | OfIncidents => ApiClient.incidents end.
Definition sent_text (value : option QueryValue) : ustring := match value with Some (QString s) => s | _ => [] end.

Lemma list_sent page p : page_request (list_request page) p = (if list_invalid page p then None else Some (list_call page (list_entries page p))).
Proof.
  destruct page; unfold page_request, sent_if; cbn [list_request list_invalid];
    [destruct (alerts_invalid p)|destruct (endpoints_invalid p)|destruct (events_invalid p)|destruct (incidents_invalid p)]; reflexivity.
Qed.

Lemma map_get_app {V} k (a b : list (ustring * V)) : map_get k (a ++ b) = match map_get k a with Some v => Some v | None => map_get k b end.
Proof. induction a as [|[k' v] a IH]; [done|]. cbn [map_get app]. by case_decide. Qed.
Lemma map_get_given {A} k k' (f : A → QueryValue) o : map_get k (given k' f o) = if decide (k = k') then f <$> o else None.
Proof. destruct o; cbn; by case_decide. Qed.
Lemma map_get_details k p : k ∉ DETAIL_FILTERS →
  map_get k (map (λ kv : ustring * ustring, (kv.1, QString kv.2)) (omap (λ field, pair field <$> text_param p field) DETAIL_FILTERS)) = None.
Proof.
  intros Hk. apply map_get_None. intros Hin. apply Hk. apply list_elem_of_fmap in Hin as (e & -> & Hin).
  apply list_elem_of_fmap in Hin as (kv & -> & Hin). apply list_elem_of_omap in Hin as (field & Hf & E).
  destruct (text_param p field) as [v|]; [|done]. by injection E as <-.
Qed.

(** Looks a literal name up among entries. *)
Ltac look_up :=
  repeat first
    [ rewrite map_get_app | rewrite map_get_given | rewrite map_get_details by (vm_compute; set_solver)
    | progress cbn [map_get]
    | match goal with |- context [decide (?a = ?b)] =>
        let d := eval vm_compute in (bool_decide (a = b)) in
        lazymatch d with true => rewrite (decide_True _ _ (P := a = b)) by reflexivity | false => rewrite (decide_False _ _ (P := a = b)) by (vm_compute; discriminate) end
      end ].

Lemma shown_is_sent page i p c : (i < length (plain_controls page []))%nat → plain_controls page p !! i = Some c → is_Some (ct_options c) →
  ct_value c = Some (sent_text (map_get (ct_key c) (list_entries page p))).
Proof.
  intros Hi Hc Hs. destruct page; cbn in Hi; below i; cbn in Hc; injection Hc as <-; try (by destruct Hs);
    unfold list_entries, alert_entries, endpoint_entries, event_entries, incident_entries, time_entries, alerts_query, endpoints_query, events_query, incidents_query;
    cbn [aq_time aq_page aq_size aq_sortBy aq_sortOrder aq_status aq_severity aq_endpointId aq_ruleCode
         eq_page eq_size eq_sortBy eq_sortOrder eq_q eq_status eq_osType eq_riskLevel eq_endpointIds
         vq_time vq_page vq_size vq_sortOrder vq_eventType vq_endpointId vq_details pq_time pq_page pq_size pq_sortOrder pq_status pq_severity pq_endpointId];
    match goal with |- context [ct_key ?c] => let k := eval cbn in (ct_key c) in change (ct_key c) with k end; look_up.
  all: first [reflexivity|unfold severity_select, filter_select, select_control; cbn [ct_value];
    match goal with |- context [enum_param ?a ?b ?c] => by destruct (enum_param a b c) end|idtac].
  all: unfold preset_select, readTimeFilter; cbn; by destruct (_ && _).
Qed.

(** ** The filter bars do what they show *)

Lemma bound_elem p c : c ∈ bound_inputs t p ↔ timePreset p = Preset_CUSTOM ∧
  (c = bound_input p "from" (t "filter.from" []) (params_get p (u! "from")) ∨ c = bound_input p "to" (t "filter.to" []) (params_get p (u! "to"))).
Proof. unfold bound_inputs. change (tf_preset (readTimeFilter p)) with (timePreset p). case_bool_decide; set_solver. Qed.
Lemma bound_found p c : c ∈ bound_inputs t p → ∃ key label, timePreset p = Preset_CUSTOM ∧ str_in (u key) [u! "from"; u! "to"] = true ∧
  usv (u key) = u key ∧ u key ≠ u! "page" ∧ u key ≠ u! "timePreset" ∧ c = bound_input p key label (params_get p (u key)) ∧
  ∀ q, timePreset q = Preset_CUSTOM → bound_input q key label (params_get q (u key)) ∈ bound_inputs t q.
Proof.
  intros [Hp [->| ->]]%bound_elem; [exists "from"%string, (t "filter.from" [])|exists "to"%string, (t "filter.to" [])];
    (split_and!; [done|by_compute|by_compute|lit_ne|lit_ne|reflexivity|]); intros q Hq; apply bound_elem; auto.
Qed.

(** A change of one parameter leaves the controls of the others as they are. *)
Lemma others_kept page p k value c2 : usv k = k → k ≠ u! "page" →
  let next := updateParams p [(k, UrlState.PText value)] true in
  c2 ∈ list_controls t locale page p → ct_key c2 ≠ k → (k = u! "timePreset" → str_in (ct_key c2) [u! "from"; u! "to"] = false) →
  ∃ c2', c2' ∈ list_controls t locale page next ∧ ct_key c2' = ct_key c2 ∧ ct_value c2' = ct_value c2.
Proof.
  intros Hu Hk next Hc2 Hne Hb.
  assert (∀ k', k' ≠ k → k' ≠ u! "page" → usv k' = k' → params_get next k' = params_get p k') as Hsame.
  { intros k' Hne' Hp' Hu'. unfold next. rewrite next_get by congruence. by rewrite bool_decide_false by congruence. }
  apply controls_split in Hc2 as [Hc2|[Ht Hc2]].
  - destruct (plain_found page p c2 Hc2) as (j & k2 & control2 & [Kkey2 _ _ Kread2 _ _] & Hk2 & _ & Hu2 & -> & _ & Hq2).
    exists (control2 next). rewrite !Kkey2 in *. split; [apply controls_split; left; apply Hq2|]. split; [done|]. apply Kread2. by apply Hsame.
  - destruct (bound_found p c2 Hc2) as (key & label & Hp & Hin & Hu2 & Hk2 & Htp & -> & Hq). cbn [ct_key bound_input] in *.
    assert (k ≠ u! "timePreset") as Hkt by (intros E; specialize (Hb E); congruence).
    assert (timePreset next = Preset_CUSTOM) as Hnext by (rewrite <- Hp; unfold timePreset; rewrite Hsame by (done || by_compute || lit_ne); done).
    exists (bound_input next key label (params_get next (u key))). split; [apply controls_split; auto|]. split; [done|].
    cbn [ct_value bound_input]. by rewrite Hsame.
Qed.

(** What typing into a bound sets and shows. *)
Lemma bound_change p key label bound value : usv (u key) = u key → u key ≠ u! "page" → str_in (u key) [u! "from"; u! "to"] = true →
  offered (bound_input p key label bound) value →
  ∃ sent, let next := updateParams p [(u key, UrlState.PText sent)] true in
    ct_change (bound_input p key label bound) value = Some next ∧ bound_value (params_get next (u key)) = Some value.
Proof.
  intros Hu Hk Hin [_ Ho]. cbn [ct_options bound_input ct_key] in Ho. rewrite Hin in Ho.
  assert (∀ sent, params_get (updateParams p [(u key, UrlState.PText sent)] true) (u key) = if truthy sent then Some (usv sent) else None) as Hg
    by (intros sent; rewrite get_set_param by (by rewrite Hu); by rewrite bool_decide_true).
  cbn [ct_change bound_input]. unfold onBoundChange. destruct Ho as [->|[time Hm]].
  - exists []. cbv zeta. split; [done|]. by rewrite Hg.
  - destruct (local_minute_utc time value Hm) as (Ht & Hutc & Hl). exists (toISOString time). cbv zeta. rewrite Ht, Hutc. split; [done|].
    rewrite Hg, iso_truthy, iso_usv. unfold bound_value. by rewrite iso_truthy.
Qed.

Lemma selects_show_sent page p c : c ∈ list_controls t locale page p → is_Some (ct_options c) →
  ct_value c = Some (sent_text (map_get (ct_key c) (list_entries page p))).
Proof.
  intros [Hc|[_ Hc]]%controls_split Hs; [|destruct (bound_found p c Hc) as (? & ? & _ & _ & _ & _ & _ & -> & _); by destruct Hs].
  destruct (plain_found page p c Hc) as (j & _ & _ & _ & _ & _ & _ & _ & Hj & _). eapply (shown_is_sent page j); [by eapply plain_length|done..].
Qed.

(** A choice, whatever the control. *)
Lemma control_change page p c value : c ∈ list_controls t locale page p → offered c value →
  ∃ sent, let next := updateParams p [(ct_key c, UrlState.PText sent)] true in
    ct_change c value = Some next ∧ usv (ct_key c) = ct_key c ∧ ct_key c ≠ u! "page" ∧
    (∃ c', c' ∈ list_controls t locale page next ∧ ct_key c' = ct_key c ∧ ct_label c' = ct_label c ∧ ct_value c' = Some (shown_as c value)) ∧
    (is_Some (ct_options c) → value ≠ u! "CUSTOM" → list_invalid page p = false → list_invalid page next = false).
Proof.
  intros [Hc|[Ht Hc]]%controls_split Ho.
  - destruct (plain_found page p c Hc) as (i & k & control & [Kkey Klab Kch Kread Kusv Kshow] & Hk & _ & Hu & -> & Hi & Hq).
    exists value. cbv zeta. rewrite Kch, Kkey. assert (usv value = value) as Hv by (by eapply Kusv). split_and!; [done..| |].
    + exists (control (updateParams p [(k, UrlState.PText value)] true)). rewrite Kkey. split; [apply controls_split; left; apply Hq|].
      split; [done|]. split; [apply Klab|]. apply (Kshow p value Ho). rewrite get_set_param by (by rewrite Hu). by rewrite bool_decide_true, Hv.
    + intros Hs Hn Hval. rewrite <- (Kkey p). eapply (choice_stays_valid page i); try done. by eapply plain_length.
  - destruct (bound_found p c Hc) as (key & label & Hp & Hin & Hu & Hk & Htp & -> & Hq).
    destruct (bound_change p key label _ value Hu Hk Hin Ho) as (sent & Hch & Hv). exists sent. cbv zeta in *. set (next := updateParams p _ true) in *.
    split; [done|]. split; [done|]. split; [done|]. split; [|by intros [??]].
    exists (bound_input next key label (params_get next (u key))). split; [apply controls_split; right; split; [done|]; apply Hq|].
    + unfold timePreset, next. rewrite next_get by (rewrite Hu; intros E; apply Htp; rewrite <- E; by_compute).
      rewrite bool_decide_false by lit_ne. exact Hp.
    + split; [done|]. split; [done|]. cbn [ct_value bound_input]. rewrite Hv. unfold shown_as. cbn [ct_key bound_input].
      rewrite bool_decide_false; [done|]. intros E. rewrite E in Hin. by vm_compute in Hin.
Qed.

(** C39: the filter bar of a list page shows what the page asks for, and sets what is chosen.
    For the alert, endpoint, event and incident lists, every select shows the text that the
    request carries for its parameter (or its first, empty option when the request leaves it
    out), before and after every change. Choosing an option of any select, typing a text into
    an input, or a local time into one of the two bounds (or emptying it), changes the query
    string so that this control shows the choice (the code of a rule without the spaces
    around it), every other control (apart from the two bounds, when the time preset is
    changed) shows what it did, and the list starts at its first page; and no choice of an
    option, apart from the custom range, makes a valid query string one that the page
    refuses. The local times are the minutes of four-digit years that the host's time zone
    has exactly once; a disabled select offers nothing. *)
Theorem filter_bar_faithful page p :
  (∀ c, c ∈ list_controls t locale page p → is_Some (ct_options c) → ct_value c = Some (sent_text (map_get (ct_key c) (list_entries page p)))) ∧
  ∀ c value, c ∈ list_controls t locale page p → offered c value →
  ∃ next, ct_change c value = Some next ∧
    (∃ c', c' ∈ list_controls t locale page next ∧ ct_key c' = ct_key c ∧ ct_label c' = ct_label c ∧ ct_value c' = Some (shown_as c value)) ∧
    (∀ c2, c2 ∈ list_controls t locale page p → ct_key c2 ≠ ct_key c →
       (ct_key c = u! "timePreset" → str_in (ct_key c2) [u! "from"; u! "to"] = false) →
       ∃ c2', c2' ∈ list_controls t locale page next ∧ ct_key c2' = ct_key c2 ∧ ct_value c2' = ct_value c2) ∧
    page_of next = 1 ∧
    (is_Some (ct_options c) → value ≠ u! "CUSTOM" → list_invalid page p = false → list_invalid page next = false) ∧
    (∀ c2, c2 ∈ list_controls t locale page next → is_Some (ct_options c2) →
       ct_value c2 = Some (sent_text (map_get (ct_key c2) (list_entries page next)))).
Proof.
  split; [intros c; apply selects_show_sent|]. intros c value Hc Ho.
  destruct (control_change page p c value Hc Ho) as (sent & Hch & Hu & Hk & Hshow & Hvalid). eexists. split; [exact Hch|].
  split_and!; [done| | |done|intros c2; apply selects_show_sent].
  - intros c2. by apply others_kept.
  - unfold page_of, numberParam, updateParams. by rewrite params_get_delete_eq.
Qed.
End controls.

(** ** What is drawn *)

Section drawn.
Context `{DateHost} `{IdSupply}.
Context (t : string → TranslationParams → ustring) (icon : ustring → list jsx) (toLowerCase : ustring → ustring)
  (formatDateTime : option ustring → option ustring) (detectionTitle : ustring → option ustring → option ustring) (locale : Locale).
#[local] Abbreviation composed_here := (composed t icon toLowerCase (λ time, default [] (formatDateTime (Some time)))).
#[local] Abbreviation page_drawn := (list_page t icon toLowerCase formatDateTime locale).

Lemma composed_all l : Forall composed_here l → composed_here (all l).
Proof. induction 1; [apply c_nothing|by apply c_both]. Qed.

Lemma composed_rows {A} (f : A → option Render) l rows : mapM f l = Some rows → (∀ x r, f x = Some r → composed_here r) → Forall composed_here rows.
Proof. intros E%mapM_Some Hf. induction E as [|x r l rows Hx _ IH]; constructor; [by eapply Hf|done]. Qed.

Lemma composed_control c value : composed_here (rendered [control_element c value]).
Proof.
  unfold control_element. destruct (ct_options c) as [options|]; [|by apply c_plain].
  destruct (plain_map (λ o : ustring * ustring, plain "option" [(u! "value", o.1)] [Txt o.2]) options) as [H1 H2]; [done|].
  apply c_plain; cbn; by rewrite ?H1, ?H2.
Qed.

Lemma composed_field c r : control_field c = Some r → composed_here r.
Proof. unfold control_field. destruct (ct_value c); [|done]. intros [= <-]. apply c_Field, composed_control. Qed.

Lemma composed_fields controls r : control_fields controls = Some r → composed_here r.
Proof.
  unfold control_fields. destruct (mapM control_field controls) as [l|] eqn:E; [|done]. intros [= <-].
  apply composed_all, (composed_rows _ _ _ E), composed_field.
Qed.

Lemma composed_available state r : AvailableTimeRanges t formatDateTime state = Some r → composed_here r.
Proof.
  unfold AvailableTimeRanges. destruct (if _ || _ then _ else _) as [ranges|] eqn:E; [|done]. cbn [mbind option_bind]. intros [= <-].
  assert (ids_in ranges = [] ∧ named_in ranges = []) as [H1 H2].
  { destruct (_ || _); [by injection E as <-|]. apply mapM_Some in E. induction E as [|range item l items Hr _ [IH1 IH2]]; [done|].
    unfold range_item in Hr. apply bind_Some in Hr as (from & _ & Hr). apply bind_Some in Hr as (to & _ & Hr). injection Hr as <-. by cbn. }
  apply c_plain; cbn; destruct (av_pending state), (av_unavailable state); try done; destruct (av_ranges state); try done; cbn; by rewrite ?H1, ?H2.
Qed.

Lemma composed_time variant availability p r : TimeFilterFields t formatDateTime variant availability p = Some r → composed_here r.
Proof.
  unfold TimeFilterFields. intros E. apply bind_Some in E as (bounds & Eb & E). apply bind_Some in E as (presets & Ep & E).
  apply bind_Some in E as (ranges & Er & [= <-]). apply c_both; [|apply c_both; [by eapply composed_fields|]].
  - destruct variant; [by eapply composed_field|]. injection Ep as <-. by apply c_plain.
  - destruct availability as [a|]; [destruct (bool_decide _)|]; [by eapply composed_available|by injection Er as <-; apply c_nothing..].
Qed.
Lemma composed_unavailable : composed_here (UnavailableTimeRangeState t icon).
Proof. apply c_element, c_EmptyState, c_nothing. Qed.

(** *** Rows *)

Lemma composed_row selected cells : Forall composed_here cells → composed_here (list_row selected cells).
Proof.
  intros Hc. unfold list_row. apply c_element, composed_all, Forall_fmap. eapply Forall_impl; [done|]. intros r Hr. by apply c_element.
Qed.
Ltac cell :=
  match goal with
  | |- Forall _ [] => apply Forall_nil_2
  | |- Forall _ (_ :: _) => apply Forall_cons; split; cell
  | |- _ => first [apply c_StatusPill|by apply c_plain|apply c_both; [apply c_StatusPill|case_match; [by apply c_plain|apply c_nothing]]]
  end.

(** The texts of a row were all there. *)
Ltac drawn_row E := repeat (apply bind_Some in E as (? & _ & E)); injection E as <-; apply composed_row; cell.
Lemma composed_alert_row p alert r : alert_row toLowerCase formatDateTime detectionTitle p alert = Some r → composed_here r.
Proof. intros E. drawn_row E. Qed.
Lemma composed_endpoint_row p endpoint r : endpoint_row t toLowerCase formatDateTime p endpoint = Some r → composed_here r.
Proof. intros E. drawn_row E. Qed.
Lemma composed_event_row p event r : event_row t toLowerCase formatDateTime p event = Some r → composed_here r.
Proof. intros E. drawn_row E. Qed.
Lemma composed_incident_row p incident r : incident_row t toLowerCase formatDateTime detectionTitle p incident = Some r → composed_here r.
Proof. intros E. drawn_row E. Qed.

(** *** The pages *)

Lemma composed_columns page p : Forall composed_here (list_columns t page p).
Proof. destruct page; cbn; repeat (apply Forall_cons; split); try apply Forall_nil_2; first [apply c_SortableHeader|by apply c_plain]. Qed.

Lemma composed_feedback invalid fetching message rows enabled {A} (result : QueryResult A) r :
  list_feedback t icon locale invalid fetching message rows enabled result = Some r → composed_here r.
Proof.
  unfold list_feedback. destruct (mapM _ _) as [parts|] eqn:E; [|done]. intros [= <-]. apply composed_all, (composed_rows _ _ _ E).
  intros part p Hp. unfold draw_feedback in Hp. apply bind_Some in Hp as (drawn & _ & [= <-]). apply c_feedback.
Qed.

Lemma composed_bar page advancedOpen p r : list_filter_bar t icon toLowerCase formatDateTime locale page advancedOpen p = Some r → composed_here r.
Proof.
  unfold list_filter_bar. destruct (control_fields (advanced_controls t locale page p)) as [a|] eqn:Ea; [|done]. cbn [mbind option_bind].
  destruct (if has_time page then _ else _) as [time|] eqn:Et; [|done]. cbn [mbind option_bind].
  destruct (control_fields (primary_controls t page p)) as [b|] eqn:Eb; [|done]. intros [= <-].
  apply c_FilterBar; [by eapply composed_fields|]. apply c_both; [|by eapply composed_fields].
  destruct (has_time page); [by eapply composed_time|]. injection Et as <-. apply c_nothing.
Qed.

Lemma composed_table page fetching p data r : list_table t icon page fetching p data = Some r →
  (∀ item row, item ∈ ld_items data → it_row item = Some row → composed_here row) → composed_here r.
Proof.
  unfold list_table. intros E Hrows. apply bind_Some in E as (rows & E & [= <-]).
  apply c_both; [|apply c_Pagination]. apply c_DataTable, c_both; apply c_element; [apply c_element, composed_all, composed_columns|].
  apply composed_all. apply mapM_Some in E. revert Hrows. induction E as [|item row items rows Hr _ IH]; intros Hrows; constructor.
  - apply (Hrows item); [by left|done].
  - apply IH. intros item' row' Hin. apply Hrows. by right.
Qed.
Lemma composed_panel page fetching p data r : list_panel t icon toLowerCase locale page fetching p data = Some r →
  (∀ item row, item ∈ ld_items data → it_row item = Some row → composed_here row) → composed_here r.
Proof.
  unfold list_panel. intros E Hrows. apply bind_Some in E as (content & E & [= <-]). apply c_Panel; [apply c_nothing|].
  destruct (ld_items data) as [|item items] eqn:Ei; [|by eapply composed_table; [done|rewrite Ei]]. injection E as <-.
  unfold list_empty. apply c_EmptyState. destruct (pt_actions (page_texts page)); [|apply c_nothing]. by apply c_plain; destruct (bool_decide _).
Qed.

Lemma composed_page page advancedOpen fetching p result r :
  page_drawn page advancedOpen fetching p result = Some r →
  (∀ data item row, q_data result = Some data → item ∈ ld_items data → it_row item = Some row → composed_here row) → composed_here r.
Proof.
  unfold list_page. intros E Hrows. apply bind_Some in E as (bar & Eb & E). apply bind_Some in E as (feedback & Ef & E).
  apply bind_Some in E as (panel & Ep & [= <-]).
  apply c_element, c_both; [by apply c_PageHeader, c_nothing|]. apply c_both; [by eapply composed_bar|].
  apply c_both; [by eapply composed_feedback|]. destruct (q_data result) as [data|]; [|injection Ep as <-; apply c_nothing].
  destruct (list_invalid page p); [injection Ep as <-; apply c_nothing|]. eapply composed_panel; [done|]. intros item row. by apply Hrows.
Qed.

(** *** When a page is drawn *)

Lemma control_field_Some c : is_Some (control_field c) ↔ is_Some (ct_value c).
Proof. unfold control_field. destruct (ct_value c) as [v|]; split; intros Hs; [by eexists|by eexists|by destruct Hs..]. Qed.
Lemma control_fields_Some controls : is_Some (control_fields controls) ↔ Forall (λ c, is_Some (ct_value c)) controls.
Proof. unfold control_fields. rewrite fmap_is_Some, mapM_is_Some. apply Forall_iff. intros c. apply control_field_Some. Qed.

Lemma plain_values page p : Forall (λ c, is_Some (ct_value c)) (plain_controls t locale page p).
Proof. destruct page; cbn; repeat (apply Forall_cons; split; [done|]); apply Forall_nil_2. Qed.

Lemma bar_drawn page advancedOpen p : is_Some (list_filter_bar t icon toLowerCase formatDateTime locale page advancedOpen p) ↔
  (has_time page = true → Forall (λ c, is_Some (ct_value c)) (bound_inputs t p)).
Proof.
  pose proof (plain_values page p) as Hv. unfold plain_controls in Hv. rewrite !Forall_app in Hv. destruct Hv as (_ & Hp & Ha).
  apply control_fields_Some in Hp as (b & Eb), Ha as (a & Ea). unfold list_filter_bar. rewrite Ea. cbn [mbind option_bind].
  destruct (has_time page).
  - rewrite <- control_fields_Some. unfold TimeFilterFields. destruct (control_fields (bound_inputs t p)); cbn; [|split; [by intros []|intros Hf; by destruct (Hf eq_refl)]].
    rewrite Eb. by split.
  - cbn. rewrite Eb. by split.
Qed.

(** The error of a query without data has to be told, unless the query was not sent. *)
Lemma feedback_drawn invalid fetching message rows enabled {A} (result : QueryResult A) :
  is_Some (list_feedback t icon locale invalid fetching message rows enabled result) ↔
  ∀ e, invalid = false → q_error result = Some e → q_data result = None → is_Some (drawn_error locale e).
Proof.
  unfold list_feedback. rewrite fmap_is_Some, mapM_is_Some, Forall_forall. split.
  - intros Hf e -> He Hd. rewrite He, Hd in Hf. destruct (Hf ErrorShown) as [r Hr].
    + cbn. destruct (_ && _); [right|]; by left.
    + unfold draw_feedback in Hr. apply bind_Some in Hr as (drawn & Hr & _). by eexists.
  - intros Hd part Hin. unfold draw_feedback. destruct part; try by eexists. destruct (q_error result) as [e|] eqn:He; [|by eexists].
    cbn. assert (invalid = false ∧ q_data result = None) as [Hi Hn].
    { unfold QueryFeedback in Hin. destruct invalid; [set_solver|]. split; [done|]. destruct (q_data result); [|done].
      rewrite !elem_of_app in Hin. cbn in Hin. destruct_or! Hin; repeat case_match; set_solver. }
    destruct (Hd e Hi eq_refl Hn) as [drawn ->]. by eexists.
Qed.

Lemma panel_drawn page fetching p data : is_Some (list_panel t icon toLowerCase locale page fetching p data) ↔
  Forall (λ item, is_Some (it_row item)) (ld_items data).
Proof.
  unfold list_panel, list_table. destruct (ld_items data) as [|item items] eqn:E; [by split|].
  change (λ i, is_Some (it_row i)) with (is_Some ∘ it_row). rewrite <- mapM_is_Some. destruct (mapM it_row (item :: items)) as [rows|]; cbn [mbind option_bind]; split; intros [? ?]; first [done|by eexists].
Qed.

(** A bound can be shown when it is empty, or can be read and shifted to local time. *)
Definition showable (bound : option ustring) : Prop := is_Some (bound_value bound).

(** A page is drawn unless a bound, an error or a row cannot be. *)
Lemma list_page_drawn page advancedOpen fetching p result :
  is_Some (page_drawn page advancedOpen fetching p result) ↔
  (has_time page = true → tf_preset (readTimeFilter p) = Preset_CUSTOM →
   showable (params_get p (u! "from")) ∧ showable (params_get p (u! "to"))) ∧
  (list_invalid page p = false → ∀ e, q_error result = Some e → q_data result = None → is_Some (drawn_error locale e)) ∧
  (list_invalid page p = false → ∀ data, q_data result = Some data → Forall (λ item, is_Some (it_row item)) (ld_items data)).
Proof.
  trans (is_Some (list_filter_bar t icon toLowerCase formatDateTime locale page advancedOpen p) ∧
    is_Some (list_feedback t icon locale (list_invalid page p) fetching None (pt_rows (page_texts page)) (negb (list_invalid page p)) result) ∧
    is_Some (match q_data result with Some data => if list_invalid page p then Some nothing else list_panel t icon toLowerCase locale page fetching p data
             | None => Some nothing end)).
  { unfold list_page. set (bar := list_filter_bar _ _ _ _ _ _ _ _). set (feedback := list_feedback _ _ _ _ _ _ _ _ _). set (panel := match q_data result with Some _ => _ | None => _ end).
    clearbody bar feedback panel. destruct bar, feedback, panel; cbn; (split; [intros [? ?]|intros ([? ?] & [? ?] & [? ?])]); try done; by split_and!. }
  f_equiv; [|f_equiv].
  - rewrite bar_drawn. unfold bound_inputs. change (tf_from (readTimeFilter p)) with (params_get p (u! "from")).
    change (tf_to (readTimeFilter p)) with (params_get p (u! "to")). split; intros Hd Ht.
    + intros Hp. specialize (Hd Ht). rewrite bool_decide_true in Hd by done. rewrite !Forall_cons in Hd. by destruct Hd as (H1 & H2 & _).
    + case_bool_decide as Hp; [|apply Forall_nil_2]. destruct (Hd Ht Hp) as [H1 H2]. repeat (apply Forall_cons; split; [done|]). apply Forall_nil_2.
  - rewrite feedback_drawn. naive_solver.
  - destruct (q_data result) as [data|]; [|split; [done|by eexists]]. destruct (list_invalid page p); [split; [done|by eexists]|].
    rewrite panel_drawn. naive_solver.
Qed.

(** A custom range that cannot be read is refused as invalid, and yet the page is never
    drawn to say so. *)
Lemma unreadable_bound_throws page advancedOpen fetching p result from : has_time page = true → page ≠ OfEndpoints →
  params_get p (u! "timePreset") = Some (u! "CUSTOM") → params_get p (u! "from") = Some from → truthy from = true → Date_parse from = None →
  list_invalid page p = true ∧ page_drawn page advancedOpen fetching p result = None.
Proof.
  intros Ht Hpage Hc Hf Hft Hd. pose proof (timePreset_raw p Preset_CUSTOM Hc) as Hp. split.
  - assert (tf_valid (readTimeFilter p) = false) as Hv.
    { unfold readTimeFilter. cbn [tf_valid]. rewrite Hp, bool_decide_true, Hf by done. cbn [negb orb]. change (default [] (Some from)) with from. unfold time_lt. rewrite Hd.
      by rewrite !andb_false_r. }
    destruct page; [| done| |]; cbn; [unfold alerts_invalid|unfold events_invalid|unfold incidents_invalid]; by rewrite Hv.
  - destruct (page_drawn page advancedOpen fetching p result) eqn:E; [|done]. exfalso.
    destruct (proj1 (proj1 (list_page_drawn page advancedOpen fetching p result) ltac:(by eexists))) as [[v Hs] _]; [done|done|].
    unfold bound_value in Hs. rewrite Hf, Hft in Hs. unfold localDateTimeValue in Hs. by rewrite Hd in Hs.
Qed.

(** *** The rows of a table *)

(** The links of a tree, in the order in which they are drawn. *)
Fixpoint links (j : jsx) : list ustring :=
  match j with Txt _ => [] | El _ _ _ attrs children => option_list (map_get (u! "href") attrs) ++ flat_map links children end.

(** The first link of a row opens its item, and a row is marked when its item was chosen last. *)
Lemma row_opens selected cells to title first second n :
  (list_row selected (primary_link selected title to first second :: cells) n).1 =
    [plain "tr" (if selected then [cls (u! "selected-row")] else [])
       ((td (primary_link selected title to first second) n).1 ++ (all (map td cells) n).1)] ∧
  flat_map links (td (primary_link selected title to first second) n).1 = [to].
Proof.
  split; [|destruct selected, title; reflexivity].
  unfold list_row. unfold around at 1. cbn [map all]. unfold both. unfold td at 1 3, primary_link, rendered, around. cbn -[all map].
  by destruct (all (map td cells) n).
Qed.
End drawn.

(** A page of alerts whose third page was shown, with a choice of the severity, and one with
    a custom range, whose start is moved by five minutes. *)
Definition sample_alerts : URLSearchParams := params_of_string (u! "?status=OPEN&page=3").
Definition sample_range : URLSearchParams := params_of_string (u! "?timePreset=CUSTOM&from=2026-07-19T13:00:00.000Z&to=2026-07-20T00:00:00.000Z").
#[local] Existing Instance utc_host.
Lemma filter_bar_faithful_witness :
  (let c := severity_select sample_t sample_alerts in
   c ∈ list_controls sample_t EN OfAlerts sample_alerts ∧ offered c (u! "HIGH") ∧
   ∃ next, ct_change c (u! "HIGH") = Some next ∧ page_of next = 1 ∧ alerts_invalid next = false) ∧
  (let c := bound_input sample_range "from" (u! "filter.from") (params_get sample_range (u! "from")) in
   c ∈ list_controls sample_t EN OfAlerts sample_range ∧ offered c (u! "2026-07-19T13:05") ∧
   ∃ next c', ct_change c (u! "2026-07-19T13:05") = Some next ∧ c' ∈ list_controls sample_t EN OfAlerts next ∧
     ct_key c' = u! "from" ∧ ct_value c' = Some (u! "2026-07-19T13:05")).
Proof.
  split; cbv zeta.
  - set (c := severity_select sample_t sample_alerts).
    assert (c ∈ list_controls sample_t EN OfAlerts sample_alerts) as Hc
      by (unfold list_controls; apply elem_of_app; right; apply elem_of_app; left; right; left).
    assert (offered c (u! "HIGH")) as Ho by (split; [reflexivity|apply str_in_true; vm_compute; reflexivity]).
    split; [exact Hc|]. split; [exact Ho|].
    destruct (proj2 (filter_bar_faithful sample_t EN OfAlerts sample_alerts) c (u! "HIGH") Hc Ho) as (next & H1 & _ & _ & H2 & H3 & _).
    exists next. split; [exact H1|]. split; [exact H2|].
    apply H3; [by eexists|intros E; vm_compute in E; discriminate E|vm_compute; reflexivity].
  - set (c := bound_input sample_range "from" _ _).
    assert (c ∈ list_controls sample_t EN OfAlerts sample_range) as Hc
      by (unfold list_controls; apply elem_of_app; left; right; apply bound_elem; split; [vm_compute; reflexivity|left; reflexivity]).
    assert (offered c (u! "2026-07-19T13:05")) as Ho.
    { split; [reflexivity|]. right. exists 1784466300000. unfold local_minute, four_digit_year. vm_compute. intuition discriminate. }
    split; [exact Hc|]. split; [exact Ho|].
    destruct (proj2 (filter_bar_faithful sample_t EN OfAlerts sample_range) c _ Hc Ho) as (next & H1 & (c' & H2 & H3 & _ & H4) & _).
    exists next, c'. split; [exact H1|]. split; [exact H2|]. split; [exact H3|]. rewrite H4. vm_compute. reflexivity.
Defined.

Example unreadable_bound :
  let params := params_of_string (u! "?timePreset=CUSTOM&from=yesterday&to=2026-07-19") in
  alerts_invalid params = true ∧ control_fields (bound_inputs sample_t params) = None.
Proof. vm_compute. split; reflexivity. Qed.
