(* ===== verification/ArchivesView.v ===== *)
(** * The archive page

    Models frontend/src/pages/ArchivesPage.tsx over the queries of ListPages.v: its date
    fields with their drafts and refusals, the restore request with its answer, and what is
    rendered: the readiness ledger, the lifecycle board, the restore panel and the buckets. *)

From S2P Require Import Prelude JsNumber JsDate Json Url Contracts ApiClient UrlState Auth ListPages Topology Dom I18n Ui Markup Intelligence ListViews.

#[local] Open Scope list_scope.
#[local] Open Scope Z_scope.

(** ** The page as a machine *)

(** The text field of a bound in English, uncontrolled: its text and whether the last text
    that was left in it was refused. *)
Record DateField := mkDateField { df_text : ustring; df_invalid : bool }.
Inductive Bound := BoundFrom | BoundTo.
#[export] Instance Bound_eq_dec : EqDecision Bound.
Proof. solve_decision. Defined.
Definition bound_key (bound : Bound) : ustring := match bound with BoundFrom => u! "from" | BoundTo => u! "to" end.

(** The mutation behind the restore button. *)
Inductive Restore := RestoreIdle | RestorePending (request : ArchiveRestoreRequest) | RestoreAccepted | RestoreRefused (error : Rejection).
Definition restore_pending (restore : Restore) : bool := match restore with RestorePending _ => true | _ => false end.

Record Archives := mkArchivesState {
  ar_params : URLSearchParams;
  ar_from : DateField; ar_to : DateField;
  ar_restore : Restore;
}.
Definition ar_field (bound : Bound) (page : Archives) : DateField := match bound with BoundFrom => ar_from page | BoundTo => ar_to page end.
Definition set_field (bound : Bound) (field : DateField) (page : Archives) : Archives :=
  match bound with
  | BoundFrom => mkArchivesState (ar_params page) field (ar_to page) (ar_restore page)
  | BoundTo => mkArchivesState (ar_params page) (ar_from page) field (ar_restore page)
  end.
Definition set_restore (restore : Restore) (page : Archives) : Archives := mkArchivesState (ar_params page) (ar_from page) (ar_to page) restore.

Inductive ArchivesEvent :=
| TypeIds (text : ustring)
| TypeDate (bound : Bound) (text : ustring) | LeaveDate (bound : Bound)
| PickDate (bound : Bound) (value : ustring)
| RemoveFilter (key : ustring) | ClearFilters
| StartRestore | RestoreSettled (failure : option Rejection) | RetryRestore.
Inductive ArchivesAction := SendRestore (request : ArchiveRestoreRequest) | InvalidateArchives.

Section page.
Context `{DateHost}.
(** Whether the locale writes dates in English, and the role of the user. *)
Context (english : bool) (role : option UserRole).

Definition timestamp_of (bound : Bound) (params : URLSearchParams) : ustring := stringParam params (bound_key bound) [].
(** A field starts with the bound's local time; [None]: an unreadable bound is thrown. *)
Definition mount_field (timestamp : ustring) : option DateField := text ← archiveFieldText timestamp; Some (mkDateField text false).
(** [key={timestamp || "empty"}]: the field starts anew when its key changes; the text it
    would start with is computed in every rendering. *)
Definition field_key (timestamp : ustring) : ustring := if truthy timestamp then timestamp else u! "empty".
Definition keep_field (old new : ustring) (field : DateField) : option DateField :=
  fresh ← mount_field new; Some (if bool_decide (field_key old = field_key new) then field else fresh).

(** A rendering with another query string. *)
Definition navigate (next : URLSearchParams) (page : Archives) : option Archives :=
  from ← keep_field (timestamp_of BoundFrom (ar_params page)) (timestamp_of BoundFrom next) (ar_from page);
  to ← keep_field (timestamp_of BoundTo (ar_params page)) (timestamp_of BoundTo next) (ar_to page);
  Some (mkArchivesState next from to (ar_restore page)).

Definition onCommit (bound : Bound) (value : option ustring) (page : Archives) : option Archives :=
  navigate (updateParams (ar_params page) [(bound_key bound, match value with Some v => UrlState.PText v | None => UrlState.PNull end)] true) page.

(** [None]: the event throws. *)
Definition archives_step (page : Archives) (ev : ArchivesEvent) : option (Archives * list ArchivesAction) :=
  let quiet (next : option Archives) := (λ page, (page, [])) <$> next in
  match ev with
  | TypeIds text => quiet (navigate (updateParams (ar_params page) [(u! "endpointIds", UrlState.PText text)] true) page)
  | TypeDate bound text => Some (if english then set_field bound (mkDateField text false) page else page, [])
  | LeaveDate bound =>
    if english then
      let text := df_text (ar_field bound page) in
      match commitArchiveDate text with
      | Refused => Some (set_field bound (mkDateField text true) page, [])
      | Committed value => quiet (onCommit bound value (set_field bound (mkDateField text false) page))
      end
    else Some (page, [])
  | PickDate bound value =>
    if english then Some (page, [])
    else if truthy value then utc ← utcFromLocal value; quiet (onCommit bound (Some utc) page) else quiet (onCommit bound None page)
  | RemoveFilter key => quiet (navigate (removeListFilter (ar_params page) key) page)
  | ClearFilters => quiet (navigate [] page)
  | StartRestore =>
    match restore_request (ar_params page) role with
    | Some request => if restore_pending (ar_restore page) then Some (page, []) else Some (set_restore (RestorePending request) page, [SendRestore request])
    | None => Some (page, [])
    end
  | RestoreSettled failure =>
    if restore_pending (ar_restore page) then
      match failure with
      | Some e => Some (set_restore (RestoreRefused e) page, [])
      | None => Some (set_restore RestoreAccepted page, [InvalidateArchives])
      end
    else Some (page, [])
  | RetryRestore => match ar_restore page with RestoreRefused _ => Some (set_restore RestoreIdle page, []) | _ => Some (page, []) end
  end.

Definition archives_mount (params : URLSearchParams) : option Archives :=
  from ← mount_field (timestamp_of BoundFrom params);
  to ← mount_field (timestamp_of BoundTo params);
  Some (mkArchivesState params from to RestoreIdle).

(** Every step with the page it starts from, until one throws. *)
Fixpoint archives_run (page : Archives) (events : list ArchivesEvent) : option Archives * list (Archives * ArchivesEvent * list ArchivesAction) :=
  match events with
  | [] => (Some page, [])
  | ev :: rest =>
    match archives_step page ev with
    | None => (None, [])
    | Some (page1, actions) => let '(last, log) := archives_run page1 rest in (last, (page, ev, actions) :: log)
    end
  end.
End page.

(** ** What is rendered *)

Section view.
Context `{DateHost} `{IdSupply}.
Context (t : string → TranslationParams → ustring) (icon : ustring → list jsx) (toLowerCase : ustring → ustring)
  (formatDateTime : option ustring → option ustring) (locale : Locale).

Definition archive_filters : list FilterDefinition :=
  [filter_def t "endpointIds" "filter.endpointIds"; filter_def t "from" "filter.from"; filter_def t "to" "filter.to"].

Definition help_id : ustring := u! "endpoint-id-help".
Definition ids_field (params : URLSearchParams) : Render :=
  Field (t "filter.endpointIds" []) None None (rendered
    [El (u! "input") None [(u! "aria-describedby", help_id)] [placeholder (u! "1001, 1002"); (u! "value", raw_endpointIds params)] [];
     El (u! "small") (Some help_id) [] [] [Txt (t "archive.endpointHelp" [])]]).

(** The text field of a bound in English. *)
Definition english_field (label : ustring) (field : DateField) : Render :=
  useId (λ errorId, rendered
    [plain "label" [cls (u! "field " ++ if df_invalid field then u! "invalid" else [])]
      ([plain "span" [] [Txt label];
        El (u! "input") None (if df_invalid field then [(u! "aria-describedby", errorId)] else [])
          (flag "aria-invalid" (df_invalid field) ++
           [(u! "inputmode", u! "numeric"); (u! "lang", u! "en-US"); (u! "pattern", u! "\d{4}-\d{2}-\d{2} \d{2}:\d{2}");
            placeholder (u! "YYYY-MM-DD HH:mm"); (u! "title", u! "YYYY-MM-DD HH:mm"); (u! "type", u! "text"); (u! "value", df_text field)]) []]
       ++ (if df_invalid field then [El (u! "small") (Some errorId) [] [cls (u! "field-error")] [Txt (t "archive.invalidDateTime" [])]] else []))]).
(** The control of the browser in the other locales. *)
Definition local_field (label timestamp : ustring) : option Render :=
  value ← bound_value (Some timestamp);
  Some (Field label None None (rendered [plain "input" [(u! "lang", I18n.dateLocale locale); (u! "type", u! "datetime-local"); (u! "value", value)] []])).
Definition ArchiveDateTimeField (label : ustring) (bound : Bound) (page : Archives) : option Render :=
  if bool_decide (I18n.dateLocale locale = u! "en-US") then Some (english_field label (ar_field bound page))
  else local_field label (timestamp_of bound (ar_params page)).

Definition readiness_row (title subtitle : ustring) (rest : list jsx) : jsx :=
  plain "div" [cls (u! "archive-readiness-row")] (plain "div" [] [plain "strong" [] [Txt title]; small subtitle] :: rest).
Definition readiness_fact (label value : ustring) : jsx := plain "div" [] [plain "dt" [] [Txt label]; plain "dd" [] [Txt value]].
Definition ArchiveReadinessLedger (endpointCount : Z) (from to : ustring) (hasCriteria ready : bool) : option Render :=
  range ← (if truthy from && truthy to then first ← formatDateTime (Some from); last ← formatDateTime (Some to); Some (first ++ u! " — " ++ last)
           else Some (t "archive.rangeRequirement" []));
  Some (rendered [plain "section" [(u! "aria-label", t "archive.readiness" []); cls (u! "archive-readiness-ledger")]
    [plain "header" []
       [plain "div" [] [plain "span" [] [Txt (t "archive.readiness" [])];
          plain "strong" [] [Txt (if ready then t "archive.scopeReady" [] else t "archive.chooseRange" [])]];
        plain "span" [cls (if ready then u! "archive-readiness-state ready" else u! "archive-readiness-state")]
          [Txt (if ready then t "archive.valid" [] else t "archive.incomplete" [])]];
     readiness_row (t "archive.queryScope" []) (t "archive.requiredInput" [])
       [plain "dl" []
          [readiness_fact (t "filter.endpointIds" [])
             (if endpointCount =? 0 then t "archive.endpointRequirement" [] else t "archive.endpointCount" [(u! "count", number_param endpointCount)]);
           readiness_fact (t "archive.utcRange" []) range]];
     readiness_row (t "archive.restorePolicy" []) (t "archive.actionBoundary" [])
       [plain "dl" [] [readiness_fact (t "archive.retrieval" []) (u! "Glacier Flexible Retrieval");
                    readiness_fact (t "archive.temporaryCopy" []) (t "archive.standardSevenDays" [])]];
     readiness_row (t "archive.nextStep" []) (t "archive.validationGated" [])
       [plain "p" [] [Txt (if ready then t "archive.readyDescription" []
                           else if hasCriteria then t "archive.invalidScopeDescription" [] else t "archive.chooseRangeDescription" [])]]]]).

Definition lifecycleDescription (status : StorageStatus) : ustring :=
  t (match status with
     | Storage_HOT => "archive.lifecycleHot" | Storage_ARCHIVED => "archive.lifecycleArchived"
     | Storage_RESTORE_REQUESTED => "archive.lifecycleRequested" | Storage_RESTORED => "archive.lifecycleRestored"
     | Storage_RESTORE_FAILED => "archive.lifecycleFailed" | Storage_EXPIRED => "archive.lifecycleExpired"
     end) [].
Definition lifecycle_item (entry : StorageStatus * Z) : jsx :=
  plain "li" [cls (u! "tone-" ++ toLowerCase (lit_name entry.1))]
    [plain "span" [] [Txt (lit_name entry.1)]; plain "strong" [] [Txt (string_of_Z entry.2)]; small (lifecycleDescription entry.1)].
Definition ArchiveLifecycleBoard (items : list ArchiveBucketDto) : Render :=
  Panel (t "archive.lifecycle" []) (Some (t "archive.lifecycleSubtitle" [])) None (u! "archive-lifecycle-panel")
    (rendered [plain "ol" [(u! "aria-label", t "archive.lifecycle" []); cls (u! "archive-lifecycle")] (map lifecycle_item (archiveLifecycleCounts items))]).

(** The panel of the restore: the button, that it was accepted, or why not. *)
Definition restore_panel (restore : Restore) : option Render :=
  note ← match restore with
         | RestoreAccepted => Some (rendered [plain "p" [cls (u! "mutation-success"); (u! "role", u! "status")] [Txt (t "archive.successRequested" [])]])
         | RestoreRefused e => list_feedback t icon locale false false None 8 false (QFailed (A := unit) e)
         | RestoreIdle | RestorePending _ => Some nothing
         end;
  Some (Panel (t "archive.temporaryRestore" []) (Some (t "archive.policy" [])) None []
    (both (rendered [plain "button" ([cls (u! "button primary")] ++ flag "disabled" (restore_pending restore) ++ [(u! "type", u! "button")])
                       (icon (u! "ArchiveRestore") ++ [Txt (if restore_pending restore then t "archive.starting" [] else t "archive.start" [])])]) note)).
Definition access_panel : Render :=
  Panel (t "archive.access" []) (Some (t "archive.viewerSubtitle" [])) None []
    (rendered [plain "p" [cls (u! "read-only-note")] [Txt (t "archive.viewerDescription" [])]]).

Definition bucket_row (bucket : ArchiveBucketDto) : option Render :=
  start ← formatDateTime (Some (bucket_bucketStartAt bucket)); finish ← formatDateTime (Some (bucket_bucketEndAt bucket));
  requested ← (if truthy_opt (bucket_restoreRequestedAt bucket) then
                 time ← formatDateTime (bucket_restoreRequestedAt bucket); Some (t "archive.requested" [(u! "time", PText time)])
               else Some (t "archive.notRequested" []));
  expires ← (if truthy_opt (bucket_restoreExpiresAt bucket) then
               time ← formatDateTime (bucket_restoreExpiresAt bucket); Some (t "archive.expires" [(u! "time", PText time)])
             else Some (t "archive.noExpiry" []));
  Some (around (λ l, [plain "tr" [cls (u! "archive-row tone-" ++ toLowerCase (lit_name (bucket_storageStatus bucket)))] l]) (all (map td
    [rendered [anchor None (endpoint_path (bucket_endpointId bucket)) [Txt (string_of_Z (bucket_endpointId bucket))]];
     rendered [Txt start; small (t "common.to" [] ++ u! " " ++ finish)];
     both (pill toLowerCase (lit_name (bucket_storageStatus bucket))) (rendered [small (lit_name (bucket_storageClass bucket))]);
     rendered [plain "code" [cls (u! "path-value")] [Txt (bucket_storagePath bucket)]];
     text_cell (string_of_Z (bucket_eventCount bucket));
     rendered [Txt requested; small expires]; text_cell (default (t "common.none" []) (bucket_lastError bucket))]))).
Definition descending_column (text : ustring) : Render :=
  rendered [plain "th" [(u! "aria-sort", u! "descending"); (u! "scope", u! "col")] [Txt text]].

Record BucketData := mkBucketData { bd_items : list ArchiveBucketDto; bd_page : Z; bd_size : Z; bd_total : Z }.
Definition bucket_panel (params : URLSearchParams) (fetching : bool) (data : BucketData) : option Render :=
  rows ← mapM bucket_row (bd_items data);
  Some (Panel (t "archive.buckets" []) (Some (t "archive.records" [(u! "total", number_param (bd_total data))])) None []
    (match bd_items data with
     | [] => EmptyState icon (t "archive.noBuckets" []) (t "archive.noBucketsDescription" []) false None
     | _ =>
       both (DataTable t (t "archive.buckets" []) None fetching []
               (both (around (λ l, [plain "thead" [] l]) (around (λ l, [plain "tr" [] l]) (all
                        [th (u! "Endpoint"); descending_column (t "archive.bucket" []); column t "filter.status"; column t "archive.objectPath";
                         column t "archive.eventCount"; column t "archive.restoreWindow"; column t "archive.lastError"])))
                     (around (λ l, [plain "tbody" [] l]) (all rows))))
            (Pagination t icon (u! "/operations/archives") params (bd_page data) (bd_total data) (bd_size data))
     end)).

(** The parts below the filter bar, for the page's query string, its user and the result. *)
Inductive ArchivesPart :=
| LedgerPart | ListFeedbackPart | LifecyclePart (items : list ArchiveBucketDto) | RestorePart | AccessPart | BucketsPart (data : BucketData).
Definition archives_parts (params : URLSearchParams) (role : option UserRole) (result : QueryResult BucketData) : list ArchivesPart :=
  let state := readArchives params in
  let writeAllowed := match role with Some r => canMutate r | None => false end in
  let data := q_data result in
  [LedgerPart] ++ (if hasCriteria state then [ListFeedbackPart] else [])
  ++ (match data with Some d => if ready state then [LifecyclePart (bd_items d)] else [] | None => [] end)
  ++ (if ready state && writeAllowed then [RestorePart] else [])
  ++ (if ready state && negb writeAllowed then [AccessPart] else [])
  ++ (match data with Some d => if ready state then [BucketsPart d] else [] | None => [] end).

Definition draw_part (params : URLSearchParams) (restore : Restore) (fetching : bool) (result : QueryResult BucketData) (part : ArchivesPart) : option Render :=
  let state := readArchives params in
  match part with
  | LedgerPart => ArchiveReadinessLedger (Z.of_nat (length (rq_endpointIds (archive_query state)))) (rq_from (archive_query state)) (rq_to (archive_query state))
                    (hasCriteria state) (ready state)
  | ListFeedbackPart => list_feedback t icon locale (invalid state) fetching (Some (t "archive.chooseRangeDescription" [])) 7 (ready state) result
  | LifecyclePart items => Some (ArchiveLifecycleBoard items)
  | RestorePart => restore_panel restore
  | AccessPart => Some access_panel
  | BucketsPart data => bucket_panel params fetching data
  end.

Definition archives_page (role : option UserRole) (fetching : bool) (page : Archives) (result : QueryResult BucketData) : option Render :=
  let params := ar_params page in
  from ← ArchiveDateTimeField (t "filter.from" []) BoundFrom page;
  to ← ArchiveDateTimeField (t "filter.to" []) BoundTo page;
  let filters := drawn_filters params archive_filters in
  parts ← mapM (draw_part params (ar_restore page) fetching result) (archives_parts params role result);
  Some (around (λ l, [plain "div" [cls (u! "page-stack archives-page")] l])
    (both (rendered [anchor (Some (u! "back-link")) (u! "/operations") (icon (u! "ArrowLeft") ++ [Txt (t "navigation.operations" [])])])
    (both (PageHeader None (t "archive.title" []) None None)
    (both (FilterBar t icon false None filters true (negb (bool_decide (filters = []))) (both (ids_field params) (both from to))) (all parts))))).
End view.

(** ** The page never breaks, and restores what it shows *)

Section safe.
Context `{DateHost}.
Context (english : bool) (locale : Locale) (role : option UserRole).
#[local] Abbreviation step := (archives_step english role).
#[local] Abbreviation run := (archives_run english role).

(** A bound the page can show. *)
Definition readable (timestamp : ustring) : Prop := is_Some (archiveFieldText timestamp).
(** Both bounds can be shown, an error stands under a text that is no time, and the error of
    the restore can be told. *)
Record sound (page : Archives) : Prop := {
  so_readable : ∀ bound, readable (timestamp_of bound (ar_params page));
  so_told : ∀ e, ar_restore page = RestoreRefused e → tellable locale e;
  so_refused : ∀ bound, df_invalid (ar_field bound page) = true → commitArchiveDate (df_text (ar_field bound page)) = Refused;
}.

Lemma readable_nothing : readable [].
Proof. by eexists. Qed.

Lemma keep_field_ok old new field : readable new → (df_invalid field = true → commitArchiveDate (df_text field) = Refused) →
  ∃ field', keep_field old new field = Some field' ∧ (df_invalid field' = true → commitArchiveDate (df_text field') = Refused).
Proof.
  intros [text Ht] Hf. unfold keep_field, mount_field. rewrite Ht. cbn [mbind option_bind]. eexists. split; [done|]. by case_bool_decide.
Qed.

Lemma navigate_ok next page : sound page → (∀ bound, readable (timestamp_of bound next)) →
  ∃ page', navigate next page = Some page' ∧ sound page' ∧ ar_restore page' = ar_restore page ∧ ar_params page' = next.
Proof.
  intros [Hr Ht Hf] Hn. unfold navigate.
  destruct (keep_field_ok (timestamp_of BoundFrom (ar_params page)) (timestamp_of BoundFrom next) (ar_from page)) as (f & -> & Hf1); [done|apply (Hf BoundFrom)|].
  destruct (keep_field_ok (timestamp_of BoundTo (ar_params page)) (timestamp_of BoundTo next) (ar_to page)) as (g & -> & Hf2); [done|apply (Hf BoundTo)|].
  eexists. split; [done|]. split; [|done]. split; [done|done|]. by intros [].
Qed.

Lemma mount_sound params page : archives_mount params = Some page → sound page.
Proof.
  unfold archives_mount, mount_field. destruct (archiveFieldText (timestamp_of BoundFrom params)) eqn:E1; [|done].
  destruct (archiveFieldText (timestamp_of BoundTo params)) eqn:E2; [|done]. cbn. intros [= <-]. split; cbn.
  - intros []; unfold readable; by rewrite ?E1, ?E2.
  - done.
  - by intros [].
Qed.

(** What the query strings of the page's events read for its bounds. *)
Lemma bound_get_set params key value bound : usv key ≠ bound_key bound →
  timestamp_of bound (updateParams params [(key, value)] true) = timestamp_of bound params.
Proof.
  intros Hk. unfold timestamp_of, stringParam. rewrite params_get_update by (by destruct bound; lit_ne). cbn [reverse rev_append js_find fst].
  rewrite bool_decide_false; [done|]. intros E. apply Hk. rewrite E. by destruct bound; vm_compute.
Qed.
Lemma bound_get_own params value bound :
  timestamp_of bound (updateParams params [(bound_key bound, value)] true) = default [] (usv <$> UrlState.param_text value).
Proof.
  unfold timestamp_of, stringParam. rewrite params_get_update by (by destruct bound; lit_ne). cbn [reverse rev_append js_find fst].
  by rewrite bool_decide_true.
Qed.

Lemma commit_readable bound params value : (∀ b, readable (timestamp_of b params)) →
  readable (default [] (usv <$> UrlState.param_text value)) →
  ∀ b, readable (timestamp_of b (updateParams params [(bound_key bound, value)] true)).
Proof.
  intros Hr Hv b. destruct (decide (b = bound)) as [->|Hne].
  - by rewrite bound_get_own.
  - rewrite bound_get_set; [done|]. destruct b, bound; try done; lit_ne.
Qed.

Lemma utc_usv value utc : utcFromLocal value = Some utc → usv utc = utc.
Proof. unfold utcFromLocal, iso_of_string. destruct (Date_parse value); [|done]. intros [= <-]. apply iso_usv. Qed.

Lemma typed_readable text parsed : commitArchiveDate text = Committed (Some parsed) → usv parsed = parsed ∧ readable parsed.
Proof.
  unfold commitArchiveDate. destruct (truthy (trim text)); [|done]. destruct (utcFromArchiveText text) as [p|] eqn:E; [|done].
  destruct (truthy p) eqn:Ep; [|done]. intros [= <-]. unfold utcFromArchiveText in E. destruct (truthy (trim text)); [|done].
  destruct (archive_local (trim text)) as [local|]; [|done]. cbn [mbind option_bind] in E. destruct (iso_of_string local) as [iso|] eqn:Ei; [|done].
  cbn [mbind option_bind] in E. case_bool_decide as Hl; [|done]. unfold utcFromLocal in E. rewrite Ei in E. injection E as <-. split.
  - by apply (utc_usv local).
  - unfold readable, archiveFieldText. rewrite Ep, Hl. by eexists.
Qed.

(** A value the browser's date control gives: none, or a local time that can be written
    and shown. *)
Definition pickable (value : ustring) : Prop :=
  truthy value = true → ∃ utc, utcFromLocal value = Some utc ∧ readable utc.
Definition possible (ev : ArchivesEvent) : Prop :=
  match ev with PickDate _ value => pickable value | RestoreSettled (Some e) => tellable locale e | _ => True end.

Lemma archives_step_ok page ev : sound page → possible ev →
  ∃ page' actions, step page ev = Some (page', actions) ∧ sound page'.
Proof.
  intros Hs Hev. assert (∀ b, readable (timestamp_of b (ar_params page))) as Hr by apply Hs.
  assert (∀ b field, (df_invalid field = true → commitArchiveDate (df_text field) = Refused) → sound (set_field b field page)) as Hset.
  { intros b field Hf. destruct Hs as [H1 Ht H2]. split; [by destruct b|by destruct b|].
    intros b'. destruct b, b'; cbn; try done; [apply (H2 BoundTo)|apply (H2 BoundFrom)]. }
  assert (∀ next page0, sound page0 → (∀ b, readable (timestamp_of b next)) →
    ∃ page' actions, (λ page, (page, [] : list ArchivesAction)) <$> navigate next page0 = Some (page', actions) ∧ sound page') as Hnav.
  { intros next page0 H0 Hn. destruct (navigate_ok next page0 H0 Hn) as (p & -> & Hp & _). by eexists _, _. }
  assert (∀ restore, (∀ e, restore = RestoreRefused e → tellable locale e) → sound (set_restore restore page)) as Hres
    by (intros restore Ht; destruct Hs as [H1 _ H2]; by split).
  destruct ev as [text|b text|b|b value|key| | |failure|]; cbn [archives_step].
  - apply Hnav; [done|]. intros b. rewrite bound_get_set; [done|]. destruct b; lit_ne.
  - eexists _, _. split; [done|]. destruct english; [by apply Hset|done].
  - destruct english; [|by eexists _, _]. destruct (commitArchiveDate (df_text (ar_field b page))) as [|value] eqn:Ec.
    + eexists _, _. split; [done|]. by apply Hset.
    + unfold onCommit. apply Hnav; [by apply Hset|]. replace (ar_params (set_field b _ page)) with (ar_params page) by (by destruct b).
      apply commit_readable; [done|]. destruct value as [v|]; [|apply readable_nothing]. destruct (typed_readable _ _ Ec) as [Hu Hv].
      cbn. destruct (truthy v); cbn; [by rewrite Hu|apply readable_nothing].
  - destruct english; [by eexists _, _|]. unfold onCommit. destruct (truthy value) eqn:Ev.
    + destruct (Hev Ev) as (utc & E & Hu). rewrite E. cbn [mbind option_bind]. apply Hnav; [done|]. apply commit_readable; [done|].
      cbn. destruct (truthy utc); cbn; [|apply readable_nothing]. by rewrite (utc_usv value utc).
    + apply Hnav; [done|]. apply commit_readable; [done|apply readable_nothing].
  - apply Hnav; [done|]. intros b. unfold timestamp_of, stringParam. rewrite removeListFilter_get. case_match; [apply readable_nothing|apply Hr].
  - apply Hnav; [done|]. intros b. apply readable_nothing.
  - destruct (restore_request _ _); [|by eexists _, _]. destruct (restore_pending _); eexists _, _; (split; [done|]); first [done|by apply Hres].
  - destruct (restore_pending _); [|by eexists _, _]. destruct failure; eexists _, _; (split; [done|]); apply Hres; [|done]. by intros e [= <-].
  - destruct (ar_restore page); eexists _, _; (split; [done|]); first [done|by apply Hres].
Qed.

(** A run of possible events keeps the page. *)
Lemma archives_run_ok page events : sound page → Forall possible events →
  ∃ last log, run page events = (Some last, log) ∧ sound last ∧ length log = length events ∧ Forall (λ entry, sound entry.1.1) log.
Proof.
  revert page. induction events as [|ev events IH]; intros page Hs Hev.
  - by eexists _, [].
  - apply Forall_cons in Hev as [Hev Hevs]. destruct (archives_step_ok page ev Hs Hev) as (page1 & actions & E & H1).
    destruct (IH page1 H1 Hevs) as (last & log & E2 & Hl & Hlen & Hf). cbn. rewrite E, E2. eexists _, _. split; [done|].
    split; [done|]. split; [cbn; by rewrite Hlen|]. by constructor.
Qed.

(** *** Requests and answers *)

Definition is_send (action : ArchivesAction) : bool := match action with SendRestore _ => true | InvalidateArchives => false end.
(** An answer to the request under way. *)
Definition answers_restore (entry : Archives * ArchivesEvent * list ArchivesAction) : bool :=
  match entry.1.2 with RestoreSettled _ => restore_pending (ar_restore entry.1.1) | _ => false end.
Definition sent_restores (log : list (Archives * ArchivesEvent * list ArchivesAction)) : nat := length (js_filter is_send (log ≫= λ entry, entry.2)).
Definition answered_restores (log : list (Archives * ArchivesEvent * list ArchivesAction)) : nat := length (js_filter answers_restore log).
Definition under_way (page : Archives) : nat := if restore_pending (ar_restore page) then 1 else 0.

Lemma navigate_restore next page page' : navigate next page = Some page' → ar_restore page' = ar_restore page.
Proof.
  unfold navigate. destruct (keep_field _ _ (ar_from page)); [|done]. destruct (keep_field _ _ (ar_to page)); [|done]. by intros [= <-].
Qed.
Lemma set_field_restore b field page : ar_restore (set_field b field page) = ar_restore page.
Proof. by destruct b. Qed.

Lemma archives_step_counts page ev page' actions : step page ev = Some (page', actions) →
  (length (js_filter is_send actions) + under_way page = (if answers_restore (page, ev, actions) then 1 else 0) + under_way page')%nat.
Proof.
  assert (∀ next page0, ar_restore page0 = ar_restore page → (λ page, (page, [])) <$> navigate next page0 = Some (page', actions) →
    actions = [] ∧ under_way page' = under_way page) as Hnav.
  { intros next page0 E0. destruct (navigate next page0) as [p|] eqn:E; [|done]. intros [= -> <-]. split; [done|]. unfold under_way.
    by rewrite (navigate_restore _ _ _ E), E0. }
  intros E. destruct ev as [text|b text|b|b value|key| | |failure|]; cbn [archives_step answers_restore fst snd] in *.
  - by apply Hnav in E as [-> ->].
  - injection E as <- <-. unfold under_way. destruct english; by rewrite ?set_field_restore.
  - destruct english; [|by injection E as <- <-]. destruct (commitArchiveDate _).
    + injection E as <- <-. unfold under_way. by rewrite set_field_restore.
    + apply Hnav in E as [-> ->]; [done|by rewrite set_field_restore].
  - destruct english; [by injection E as <- <-|]. destruct (truthy value); [destruct (utcFromLocal value); [|done]|]; by apply Hnav in E as [-> ->].
  - by apply Hnav in E as [-> ->].
  - by apply Hnav in E as [-> ->].
  - unfold under_way. destruct (restore_request _ _); [|by injection E as <- <-].
    destruct (restore_pending (ar_restore page)) eqn:Ep; injection E as <- <-; cbn; by rewrite ?Ep.
  - unfold under_way. destruct (restore_pending (ar_restore page)) eqn:Ep; [|injection E as <- <-; by rewrite Ep].
    destruct failure; by injection E as <- <-.
  - unfold under_way. destruct (ar_restore page) eqn:Er; injection E as <- <-; by rewrite ?Er.
Qed.

Lemma archives_run_counts events : ∀ page last log, run page events = (Some last, log) →
  (sent_restores log + under_way page = answered_restores log + under_way last)%nat.
Proof.
  unfold sent_restores, answered_restores. induction events as [|ev events IH]; intros page last log; cbn.
  - intros [= <- <-]. cbn. lia.
  - destruct (step page ev) as [[page1 actions]|] eqn:E; [|done]. destruct (run page1 events) as [last1 log1] eqn:E1. intros [= -> <-].
    specialize (IH page1 last log1 E1). pose proof (archives_step_counts _ _ _ _ E) as Hc. cbn [mbind list_bind snd].
    rewrite js_filter_app, length_app, js_filter_cons. cbn [mbind list_bind] in IH. destruct (answers_restore _); cbn [length]; lia.
Qed.

Lemma run_step events : ∀ page before ev actions, (before, ev, actions) ∈ (run page events).2 → ∃ after, step before ev = Some (after, actions).
Proof.
  induction events as [|ev0 events IH]; intros page before ev actions; cbn; [by intros ?%not_elem_of_nil|].
  destruct (step page ev0) as [[page1 acts]|] eqn:E; [|by intros ?%not_elem_of_nil]. specialize (IH page1 before ev actions).
  destruct (run page1 events) as [last log]. cbn in *. intros [Heq|Hin]%elem_of_cons; [|by apply IH]. injection Heq as -> -> ->. by eexists.
Qed.

(** What a step sends. *)
Lemma step_sends page ev page' actions : step page ev = Some (page', actions) →
  (∀ r, SendRestore r ∈ actions → ev = StartRestore ∧ restore_pending (ar_restore page) = false ∧ restore_request (ar_params page) role = Some r) ∧
  (InvalidateArchives ∈ actions → ev = RestoreSettled None ∧ restore_pending (ar_restore page) = true).
Proof.
  assert (∀ next page0, (λ page, (page, [])) <$> navigate next page0 = Some (page', actions) → actions = []) as Hnav.
  { intros next page0. destruct (navigate next page0); [|done]. by intros [= _ <-]. }
  intros E. destruct (decide (actions = [])) as [->|Hne]; [split; [intros request|]; intros Hin; by apply not_elem_of_nil in Hin|].
  destruct ev as [text|b text|b|b value|key| | |failure|]; cbn [archives_step] in E; try (by apply Hnav in E); try (injection E as _ <-; done).
  - destruct english; [|by injection E as _ <-]. destruct (commitArchiveDate _); [by injection E as _ <-|by apply Hnav in E].
  - destruct english; [by injection E as _ <-|]. destruct (truthy value); [destruct (utcFromLocal value); [|done]|]; by apply Hnav in E.
  - destruct (restore_request _ _) as [r0|] eqn:Er; [|by injection E as _ <-].
    destruct (restore_pending _) eqn:Ep; [by injection E as _ <-|]. injection E as _ <-. split.
    + intros r Hr%list_elem_of_singleton. by injection Hr as ->.
    + by intros Hr%list_elem_of_singleton.
  - destruct (restore_pending _) eqn:Ep; [|by injection E as _ <-].
    destruct failure; injection E as _ <-; [done|]. split; [by intros r Hr%list_elem_of_singleton|done].
  - destruct (ar_restore page); by injection E as _ <-.
Qed.
End safe.

Section claims.
Context `{DateHost} `{IdSupply}.
Context (t : string → TranslationParams → ustring) (icon : ustring → list jsx) (toLowerCase : ustring → ustring)
  (mediumDateTime : Locale → Z → ustring) (locale : Locale).
Definition english_dates : bool := bool_decide (I18n.dateLocale locale = u! "en-US").
#[local] Abbreviation date_text := (formatDateTime mediumDateTime locale).
#[local] Abbreviation drawn := (archives_page t icon toLowerCase date_text locale).

(** The dates of a bucket that the page prints can be read. *)
Definition dated (bucket : ArchiveBucketDto) : Prop :=
  is_Some (Date_parse (bucket_bucketStartAt bucket)) ∧ is_Some (Date_parse (bucket_bucketEndAt bucket)) ∧
  (∀ time, bucket_restoreRequestedAt bucket = Some time → truthy time = true → is_Some (Date_parse time)) ∧
  (∀ time, bucket_restoreExpiresAt bucket = Some time → truthy time = true → is_Some (Date_parse time)).
(** What the query of the archives brought can be shown. *)
Definition presentable (result : QueryResult BucketData) : Prop :=
  (∀ data, q_data result = Some data → Forall dated (bd_items data)) ∧ (∀ e, q_error result = Some e → tellable locale e).

Lemma readable_bound timestamp : readable timestamp → is_Some (bound_value (Some timestamp)).
Proof.
  unfold readable, archiveFieldText, bound_value. destruct (truthy timestamp); [|by eexists]. by destruct (localDateTimeValue timestamp); intros [].
Qed.
Lemma readable_date timestamp : readable timestamp → truthy timestamp = true → is_Some (date_text (Some timestamp)).
Proof.
  unfold readable, archiveFieldText, localDateTimeValue. intros Hr Et. rewrite Et in Hr. cbn [formatDateTime]. destruct (Date_parse timestamp); [by eexists|by destruct Hr].
Qed.
Lemma printed_date timestamp : is_Some (Date_parse timestamp) → is_Some (date_text (Some timestamp)).
Proof. intros [time Hp]. cbn. rewrite Hp. by eexists. Qed.

Lemma field_drawn label bound page : sound locale page → is_Some (ArchiveDateTimeField t locale label bound page).
Proof.
  intros [Hr _ _]. unfold ArchiveDateTimeField. case_bool_decide; [by eexists|]. unfold local_field.
  destruct (readable_bound _ (Hr bound)) as [v ->]. by eexists.
Qed.

Lemma bucket_drawn bucket : dated bucket → is_Some (bucket_row t toLowerCase date_text bucket).
Proof.
  intros (H1 & H2 & H3 & H4). unfold bucket_row. destruct (printed_date _ H1) as [start ->], (printed_date _ H2) as [finish ->]. cbn [mbind option_bind].
  assert (∀ time key missing, (∀ v, time = Some v → truthy v = true → is_Some (Date_parse v)) →
    is_Some (if truthy_opt time then v ← date_text time; Some (t key [(u! "time", PText v)]) else Some (t missing []))) as Hopt.
  { intros time key missing Ht. destruct time as [v|]; [|by eexists]. cbn [truthy_opt]. destruct (truthy v) eqn:E; [|by eexists].
    destruct (printed_date v (Ht v eq_refl E)) as [text ->]. by eexists. }
  destruct (Hopt _ "archive.requested" "archive.notRequested" H3)%string as [a ->]. cbn [mbind option_bind].
  destruct (Hopt _ "archive.expires" "archive.noExpiry" H4)%string as [b ->]. by eexists.
Qed.

(** The range of the ledger is that of the bounds. *)
Lemma ledger_drawn count params criteria is_ready : (∀ bound, readable (timestamp_of bound params)) →
  is_Some (ArchiveReadinessLedger t date_text count (timestamp_of BoundFrom params) (timestamp_of BoundTo params) criteria is_ready).
Proof.
  intros Hr. unfold ArchiveReadinessLedger. destruct (truthy (timestamp_of BoundFrom params)) eqn:Ef; [|by eexists].
  destruct (truthy (timestamp_of BoundTo params)) eqn:Et; [|by eexists]. cbn [andb].
  destruct (readable_date _ (Hr BoundFrom) Ef) as [first ->], (readable_date _ (Hr BoundTo) Et) as [last ->]. by eexists.
Qed.

Lemma part_drawn params restore role fetching result part : (∀ bound, readable (timestamp_of bound params)) →
  (∀ e, restore = RestoreRefused e → tellable locale e) → presentable result → part ∈ archives_parts params role result →
  is_Some (draw_part t icon toLowerCase date_text locale params restore fetching result part).
Proof.
  intros Hr Ht [Hd He] Hin. destruct part as [| |items| | |data]; cbn [draw_part]; try by eexists.
  - by apply ledger_drawn.
  - apply (proj2 (feedback_drawn t icon date_text locale _ _ _ _ _ result)). intros e _ Hq _. by apply drawn_error_Some, He.
  - unfold restore_panel. destruct restore as [| | |e]; try by eexists.
    destruct (proj2 (feedback_drawn t icon date_text locale false false None 8 false (QFailed (A := unit) e))) as [note ->]; [|by eexists].
    intros e' _ [= <-] _. by apply drawn_error_Some, Ht.
  - unfold bucket_panel. assert (is_Some (mapM (bucket_row t toLowerCase date_text) (bd_items data))) as [rows ->]; [|by eexists].
    apply mapM_is_Some. apply (Forall_impl dated); [|apply bucket_drawn]. apply Hd.
    unfold archives_parts in Hin. rewrite !elem_of_app in Hin. destruct_or! Hin; repeat case_match; set_solver.
Qed.

Lemma sound_drawn role fetching page result : sound locale page → presentable result → is_Some (drawn role fetching page result).
Proof.
  intros Hs Hp. unfold archives_page. destruct (field_drawn (t "filter.from" []) BoundFrom page Hs) as [f ->].
  destruct (field_drawn (t "filter.to" []) BoundTo page Hs) as [g ->]. cbn [mbind option_bind]. destruct Hs as [Hr Ht _].
  assert (is_Some (mapM (draw_part t icon toLowerCase date_text locale (ar_params page) (ar_restore page) fetching result)
    (archives_parts (ar_params page) role result))) as [parts ->]; [|by eexists].
  apply mapM_is_Some, Forall_forall. intros part Hin. by eapply part_drawn.
Qed.

(** The scope of a request: distinct archives' endpoints and at most 31 days. *)
Definition within_policy (r : ArchiveRestoreRequest) : Prop :=
  restore_endpointIds r ≠ [] ∧ NoDup (restore_endpointIds r) ∧ Forall (λ id, 0 < id) (restore_endpointIds r) ∧
  ∃ f e, Date_parse (restore_from r) = Some f ∧ Date_parse (restore_to r) = Some e ∧ f < e ≤ f + 31 * msPerDay.

Lemma offered_policy params role r : restore_request params role = Some r →
  within_policy r ∧ role ∈ [Some Role_ADMIN; Some Role_ANALYST] ∧
  (restore_endpointIds r, restore_from r, restore_to r) =
    (rq_endpointIds (archive_query (readArchives params)), rq_from (archive_query (readArchives params)), rq_to (archive_query (readArchives params))) ∧
  ∀ result, RestorePart ∈ archives_parts params role result.
Proof.
  intros Hr. destruct (archives_request_spec params role) as [H1 H2]. destruct (H2 r Hr) as (Hready & Hrole & ->).
  destruct (H1 Hready) as (A & B & C & D & _). split; [done|]. split; [done|]. split; [done|]. intros result. unfold archives_parts. rewrite Hready.
  assert (match role with Some r => canMutate r | None => false end = true) as ->.
  { apply elem_of_cons in Hrole as [->|Hrole]; [done|]. by apply list_elem_of_singleton in Hrole as ->. }
  apply elem_of_app. right. apply elem_of_app. right. apply elem_of_app. right. apply elem_of_app. left. by left.
Qed.

(** C40: the archive page cannot be broken, and restores what it shows. Once the page was
    opened (both bounds of its query string can be shown), no typing, leaving or picking of
    dates, removing or clearing of filters, restore or answer makes it throw, when the picked
    values are local times that can be written and shown: after every event the page can be
    drawn with any result whose printed dates can be read, and an error under a date stands
    over a text that is no local time. The errors of the query and of the restore have to be
    tellable: their details keep the contract, and in Korean their code is no inherited
    member name (else the error state throws). A restore is requested only by its button,
    which is there, by a user who may, with the endpoints and the range that the page shows,
    within the policy (distinct endpoints, at most 31 days), and never while another one is
    under way; each request is answered before the next, and the archives are fetched again
    exactly when one was accepted. *)
Theorem archive_page_safe role params page0 events
  (Hopened : archives_mount params = Some page0) (Hevents : Forall (possible locale) events) :
  ∃ last log, archives_run english_dates role page0 events = (Some last, log) ∧ length log = length events ∧
    (∀ page, page = last ∨ page ∈ (λ entry, entry.1.1) <$> log →
       (∀ fetching result, presentable result → is_Some (drawn role fetching page result)) ∧
       ∀ bound, df_invalid (ar_field bound page) = true → commitArchiveDate (df_text (ar_field bound page)) = Refused) ∧
    (∀ before ev actions, (before, ev, actions) ∈ log →
       (∀ r, SendRestore r ∈ actions →
          ev = StartRestore ∧ restore_pending (ar_restore before) = false ∧ role ∈ [Some Role_ADMIN; Some Role_ANALYST] ∧ within_policy r ∧
          (restore_endpointIds r, restore_from r, restore_to r) =
            (let q := archive_query (readArchives (ar_params before)) in (rq_endpointIds q, rq_from q, rq_to q)) ∧
          ∀ result, RestorePart ∈ archives_parts (ar_params before) role result) ∧
       (InvalidateArchives ∈ actions ↔ ev = RestoreSettled None ∧ restore_pending (ar_restore before) = true)) ∧
    (sent_restores log = answered_restores log + under_way last)%nat.
Proof.
  pose proof (mount_sound locale params page0 Hopened) as Hs0.
  destruct (archives_run_ok english_dates locale role page0 events Hs0 Hevents) as (last & log & Hrun & Hlast & Hlen & Hall). exists last, log.
  split; [done|]. split; [done|]. split; [|split].
  - intros page Hp. assert (sound locale page) as Hs.
    { destruct Hp as [->|(entry & -> & Hin)%list_elem_of_fmap]; [done|]. rewrite Forall_forall in Hall. by apply Hall. }
    split; [intros fetching result; by apply sound_drawn|apply (so_refused locale page Hs)].
  - intros before ev actions Hin. destruct (run_step english_dates role events page0 before ev actions) as (after & Hstep); [by rewrite Hrun|].
    destruct (step_sends _ _ _ _ _ _ Hstep) as [H1 H2].
    split; [|split; [done|]; intros [-> Hp]; cbn [archives_step] in Hstep; rewrite Hp in Hstep; injection Hstep as _ <-; by left]. intros r Hr. destruct (H1 r Hr) as (-> & Hp & Hreq).
    destruct (offered_policy _ _ _ Hreq) as (A & B & C & D). done.
  - pose proof (archives_run_counts english_dates role events page0 last log Hrun) as Hc. unfold archives_mount in Hopened.
    destruct (mount_field (timestamp_of BoundFrom params)); [|done]. destruct (mount_field (timestamp_of BoundTo params)); [|done].
    injection Hopened as <-. cbn in Hc. lia.
Qed.
End claims.

(** ** Examples *)

Definition sample_archives : URLSearchParams := params_of_string (u! "?endpointIds=7&from=2026-07-01T00:00:30Z&to=2026-07-19").
Definition sample_refusal : Rejection := RApi (mkApiError 409 (u! "CONFLICT") (u! "busy") true
  [JObj [(u! "context", JNull); (u! "field", JStr (u! "from")); (u! "message", JStr (u! "too old"))]] None None).
Definition sample_events : list ArchivesEvent :=
  [StartRestore; PickDate BoundTo (u! "2026-07-20T12:00"); RestoreSettled (Some sample_refusal)].
Definition sample_bucket : ArchiveBucketDto :=
  mkArchiveBucketDto None None (u! "2026-07-02T00:00:00Z") (u! "2026-07-01T00:00:00Z") None 7 12 None None (Some (u! "2026-07-03T00:00:00Z"))
    None None Backend_S3 Class_GLACIER_FLEXIBLE_RETRIEVAL (u! "s3") Storage_ARCHIVED.
#[local] Existing Instance sample_supply.

Lemma archive_page_safe_witness :
  ∃ page0, archives_mount (H := utc_host) sample_archives = Some page0 ∧ Forall (possible (H := utc_host) KO) sample_events ∧
  ∃ last log, archives_run (H := utc_host) (english_dates KO) (Some Role_ANALYST) page0 sample_events = (Some last, log) ∧
    length log = 3%nat ∧ sent_restores log = (answered_restores log + under_way last)%nat ∧
    is_Some (archives_page (H := utc_host) sample_t (λ _, []) id (formatDateTime (H := utc_host) (λ _ time, string_of_Z time) KO) KO (Some Role_ANALYST) false last
      (QData (mkBucketData [sample_bucket] 1 25 1) None)).
Proof.
  destruct (archives_mount (H := utc_host) sample_archives) as [page0|] eqn:E; [|vm_compute in E; discriminate E].
  exists page0. split; [reflexivity|].
  assert (Forall (possible (H := utc_host) KO) sample_events) as Hev.
  { constructor; [exact I|]. constructor; [|constructor; [|constructor]].
    - intros _. eexists. split; [vm_compute; reflexivity|]. eexists. vm_compute. reflexivity.
    - intros err Herr. injection Herr as <-. split; [intros _ Hin; apply str_in_true in Hin; vm_compute in Hin; discriminate Hin|].
      constructor; [|constructor]. split; [eexists; reflexivity|right; eexists; reflexivity]. }
  split; [exact Hev|].
  destruct (archive_page_safe (H := utc_host) sample_t (λ _, []) id (λ _ time, string_of_Z time)
    KO (Some Role_ANALYST) sample_archives page0 sample_events E Hev) as (last & log & H1 & H2 & H3 & _ & H4).
  exists last, log. split; [exact H1|]. split; [exact H2|]. split; [exact H4|].
  apply (proj1 (H3 last (or_introl eq_refl))). split; [|intros e He; discriminate He].
  intros data [= <-]. constructor; [|constructor]. split; [eexists; vm_compute; reflexivity|]. split; [eexists; vm_compute; reflexivity|].
  split; [intros time [= <-] _; eexists; vm_compute; reflexivity|intros time [= <-] _; eexists; vm_compute; reflexivity].
Defined.

(** The answer of a restore stays on the page when its scope is changed: it then says of
    another endpoint that its restore was accepted. *)
Example restore_note_stale :
  let page := archives_mount (H := utc_host) sample_archives in
  let run := p ← page; (archives_run (H := utc_host) true (Some Role_ANALYST) p [StartRestore; RestoreSettled None; TypeIds (u! "8")]).1 in
  ar_restore <$> run = Some RestoreAccepted ∧
  ((λ p, rq_endpointIds (archive_query (readArchives (H := utc_host) (ar_params p)))) <$> run) = Some [8] ∧
  ((λ p, ready (readArchives (H := utc_host) (ar_params p))) <$> run) = Some true.
Proof. vm_compute. split_and!; reflexivity. Qed.

(** Leaving a field that was not touched rewrites its bound: the seconds are lost. *)
Example leaving_changes_range :
  let run := p ← archives_mount (H := utc_host) sample_archives; (archives_run (H := utc_host) true None p [LeaveDate BoundFrom]).1 in
  (λ p, timestamp_of BoundFrom (ar_params p)) <$> run = Some (u! "2026-07-01T00:00:00.000Z").
Proof. vm_compute. reflexivity. Qed.

(** Clearing the filters leaves a refused text and its error in the field. *)
Example refused_text_stays :
  let run := p ← archives_mount (H := utc_host) (params_of_string (u! "?endpointIds=7"));
             (archives_run (H := utc_host) true None p [TypeDate BoundFrom (u! "soon"); LeaveDate BoundFrom; ClearFilters]).1 in
  ((λ p, (ar_params p, ar_from p)) <$> run) = Some ([], mkDateField (u! "soon") true).
Proof. vm_compute. reflexivity. Qed.

(** Why the results have to be presentable: a bucket whose date cannot be read, or in Korean
    an error whose code is an inherited name, takes the whole page with it. *)
Example unpresentable_results :
  let draw (result : QueryResult BucketData) :=
    p ← archives_mount (H := utc_host) sample_archives;
    archives_page (H := utc_host) sample_t (λ _, []) id (formatDateTime (H := utc_host) (λ _ time, string_of_Z time) KO) KO None false p result in
  let undated := mkArchiveBucketDto None None (u! "soon") (u! "2026-07-01T00:00:00Z") None 7 12 None None None None None Backend_S3
    Class_GLACIER_FLEXIBLE_RETRIEVAL (u! "s3") Storage_ARCHIVED in
  is_Some_b (draw (QData (mkBucketData [sample_bucket] 1 25 1) None)) = true ∧
  is_Some_b (draw (QData (mkBucketData [undated] 1 25 1) None)) = false ∧
  is_Some_b (draw (QFailed (RApi (mkApiError 500 (u! "CONFLICT") (u! "no") false [] None None)))) = true ∧
  is_Some_b (draw (QFailed (RApi (mkApiError 500 (u! "constructor") (u! "no") false [] None None)))) = false.
Proof. vm_compute. split_and!; reflexivity. Qed.
