(* ===== verification/DetailViews.v ===== *)
(** * Event and alert details as shown

    Models what frontend/src/components/{ProcessTree,RawPayloadViewer}.tsx and
    frontend/src/pages/{EventDetailPage,AlertDetailPage}.tsx render over EventDetail.v,
    ProcessTree.v and Triage.v, as trees of the shared components: the process tree, the
    payload with its search and copy, the event page, and the triage page with its queue,
    chain of evidence and decision. *)

From S2P Require Import Prelude JsNumber JsDate Json Url Contracts ApiClient UrlState Auth Dom I18n ProcessTree EventDetail EndpointPage Investigation Triage Ui Markup Intelligence ListViews.

#[local] Open Scope list_scope.
#[local] Open Scope Z_scope.

Section details.
Context `{DateHost} `{IdSupply}.
(** [formatDateTime] and the detection copy of I18n.v, in the locale of the page; [None]: they
    throw. *)
Context (t : string → TranslationParams → ustring) (icon : ustring → list jsx) (toLowerCase : ustring → ustring)
  (formatDateTime : option ustring → option ustring) (locale : Locale).
Context (detectionTitle : ustring → option ustring → option ustring) (detectionRuleName : ustring → option ustring → option ustring)
  (detectionSummary : ustring → ustring → option ustring).
#[local] Abbreviation pill := (pill toLowerCase).

(** [<ErrorState error onRetry archiveAction>] and [<Skeleton rows>]. *)
Definition error_state (error : Rejection) (retry archive : bool) : option Render :=
  view ← Ui.ErrorState locale error archive; details ← error_details locale error;
  Some (Markup.ErrorState t icon view details (truthy_opt (request_id error)) retry).
Definition query_parts {A} (rows : nat) (retry : bool) (result : QueryResult A) : option Render :=
  error ← match q_error result with Some e => error_state e retry false | None => Some nothing end;
  Some (both (if q_pending result then Skeleton t rows else nothing) error).

(** ** ProcessTree.tsx *)

Definition process_node (entry : ProcessTreeNodeDto * Z) : option Render :=
  let '(node, depth) := entry in
  time ← formatDateTime (Some (ptn_lastSeenAt node));
  Some (around (λ flags, [plain "article" ((if ptn_selected node then [(u! "aria-current", u! "true")] else [])
      ++ [cls (if ptn_selected node then u! "process-node selected" else u! "process-node"); (u! "role", u! "treeitem");
          (u! "style", u! "--tree-depth:" ++ string_of_Z depth)])
    ([plain "span" [cls (u! "process-branch"); (u! "aria-hidden", u! "true")] (icon (if depth =? 0 then u! "GitFork" else u! "CornerDownRight"));
      plain "span" [cls (u! "process-icon")] (icon (u! "Terminal"));
      plain "span" [cls (u! "process-copy")]
        [plain "strong" [] [Txt (ptn_processName node)];
         plain "code" [] [Txt (match ptn_commandLine node, ptn_processPath node with
                               | Some c, _ | None, Some c => c | None, None => t "processTree.commandUnavailable" [] end)];
         small (t "processTree.metadata" [(u! "time", PText time); (u! "pid", number_param (ptn_pid node));
           (u! "ppid", match ptn_ppid node with Some p => number_param p | None => PText (t "common.none" []) end);
           (u! "count", number_param (ptn_eventCount node))])]] ++ flags)])
    (around (λ l, [plain "span" [cls (u! "process-flags")] l])
       (both (if ptn_selected node then StatusPill toLowerCase (u! "SELECTED PID") (Some (t "processTree.selectedPid" [])) else nothing)
             (if bool_decide (is_Some (ptn_ppid node)) && negb (ptn_parentCaptured node)
              then StatusPill toLowerCase (u! "PARENT NOT CAPTURED") (Some (t "processTree.parentNotCaptured" [])) else nothing)))).

(** The nodes in the order of [layoutProcessTree]. *)
Definition process_rows (nodes : list ProcessTreeNodeDto) : list (ProcessTreeNodeDto * Z) := default [] (layoutProcessTree nodes).
Definition ProcessTreeView (nodes : list ProcessTreeNodeDto) : option Render :=
  match process_rows nodes with
  | [] => Some (EmptyState icon (t "processTree.empty" []) (t "processTree.emptyDescription" []) false None)
  | rows =>
    drawn ← mapM process_node rows;
    Some (around (λ l, [plain "div" [cls (u! "process-tree"); (u! "role", u! "tree"); (u! "aria-label", t "processTree.aria" [])] l]) (all drawn))
  end.

(** ** RawPayloadViewer.tsx *)

Record PayloadViewer := mkViewer { pv_query : ustring; pv_copied : bool }.
Inductive PayloadEvent := SearchPayload (text : ustring) | CopySettled (written : bool).
Definition payload_step (viewer : PayloadViewer) (ev : PayloadEvent) : PayloadViewer :=
  match ev with
  | SearchPayload text => mkViewer text (pv_copied viewer)
  | CopySettled written => mkViewer (pv_query viewer) written
  end.
Definition payload_mount : PayloadViewer := mkViewer [] false.

Definition highlighted (line query : ustring) : list jsx :=
  match highlight toLowerCase line query with
  | (text, None) => [Txt text]
  | (before, Some (mark, after)) => [Txt before; plain "mark" [] [Txt mark]; Txt after]
  end.
Definition payload_line (query line : ustring) : jsx :=
  plain "span" [cls (if line_marked toLowerCase line query then u! "json-line match" else u! "json-line")] (highlighted line query ++ [Txt [10]]).
Definition payload_pre (payload : list (ustring * json)) (query : ustring) : jsx :=
  plain "pre" [(u! "aria-label", t "event.rawPayload" []); cls (u! "json-view")] (map (payload_line query) (payload_lines payload)).
Definition payload_status (payload : list (ustring * json)) (query : ustring) : ustring :=
  if truthy query then
    t "event.payloadMatches" [(u! "count", number_param (Z.of_nat (default 0%nat (matchCount toLowerCase (payload_lines payload) query))))]
  else [].
Definition RawPayloadViewer (payload : list (ustring * json)) (viewer : PayloadViewer) : Render :=
  rendered [plain "details" [cls (u! "raw-payload-panel")]
    [plain "summary" [] ([plain "span" [] [Txt (t "event.rawPayload" [])]] ++ icon (u! "ChevronDown"));
     plain "div" [cls (u! "raw-payload-content")]
       [plain "div" [cls (u! "raw-payload-toolbar")]
          [plain "label" [] (icon (u! "Search") ++ [plain "span" [cls (u! "sr-only")] [Txt (t "event.searchPayload" [])];
              plain "input" [placeholder (t "event.searchPayload" []); (u! "type", u! "search"); (u! "value", pv_query viewer)] []]);
           plain "span" [(u! "aria-live", u! "polite")] [Txt (payload_status payload (pv_query viewer))];
           plain "button" [cls (u! "button secondary"); (u! "type", u! "button")]
             (icon (if pv_copied viewer then u! "Check" else u! "Copy") ++
              [Txt (if pv_copied viewer then t "event.copied" [] else t "event.copyPayload" [])])];
        payload_pre payload (pv_query viewer)]]].

(** ** EventDetailPage.tsx *)

(** The ids of the batch and of the agent, the first items of the identity, are code. *)
Definition fact_value (group : EventDetailGroup) (index : nat) (text : ustring) : Render :=
  if bool_decide (group = IDENTITY) && (index <? 2)%nat then rendered [plain "code" [] [Txt text]] else text_node text.
Definition fact_items (group : EventDetailGroup) (items : list (ustring * ustring)) : list (ustring * Render) :=
  imap (λ index item, (item.1, fact_value group index item.2)) items.
Definition event_section (group : EventDetailGroup) (section : ustring * ustring * list (ustring * ustring)) : Render :=
  let '(title, subtitle, items) := section in
  DetailLedgerSection title (Some subtitle) (Some (fact_items group items)) [] nothing.

Definition back_link (to text : ustring) : Render := rendered [anchor (Some (u! "back-link")) to (icon (u! "ArrowLeft") ++ [Txt text])].
Definition anchor_fact (label : ustring) (value : jsx) : jsx := plain "div" [] [plain "span" [] [Txt label]; value].
Definition EventDetail (detail : EventDetailDto) (viewer : PayloadViewer) (processTree : Render) : option Render :=
  let e := detail_event detail in
  occurred ← formatDateTime (Some (event_occurredAt e)); ingested ← formatDateTime (Some (event_ingestedAt e));
  groups ← ledger locale e;
  Some (all [PageHeader (Some (u! "EVENT · SCHEMA V" ++ string_of_Z (detail_schemaVersion detail))) (detail_title e) (Some (event_eventId e))
         (Some (both (pill (lit_name (event_eventType e))) (pill (u! "READ ONLY"))));
       rendered [plain "section" [(u! "aria-label", t "event.groupIdentity" []); cls (u! "event-anchor-strip")]
         [anchor_fact (u! "Event ID") (plain "code" [] [Txt (event_eventId e)]);
          anchor_fact (u! "Endpoint") (anchor None (endpoint_path (event_endpointId e)) [Txt (event_hostname e ++ u! " · " ++ string_of_Z (event_endpointId e))]);
          anchor_fact (t "event.occurred" []) (plain "strong" [] [Txt occurred]);
          anchor_fact (t "event.ingested" []) (plain "strong" [] [Txt ingested])]];
       DetailLedger (u! "event-evidence-ledger")
         (all (zip_with event_section (eventDetailGroups e) groups
           ++ [DetailLedgerSection (t "event.payloadIdentity" []) (Some (t "event.payloadSubtitle" []))
                 (Some [(t "event.payloadSha" [], rendered [plain "code" [] [Txt (detail_payloadSha256 detail)]]);
                        (t "event.schemaVersion" [], text_node (string_of_Z (detail_schemaVersion detail)))]) [] nothing;
               DetailLedgerSection (t "event.processTree" []) (Some (t "event.processTreeSubtitle" [])) None (u! "event-process-tree-section")
                 (both (around (λ l, [plain "div" [cls (u! "detail-ledger-meta")] l]) (pill (u! "READ ONLY"))) processTree)]));
       RawPayloadViewer (detail_rawPayload detail) viewer]).

Definition tree_part (result : QueryResult (list ProcessTreeNodeDto)) : option Render :=
  match result with
  | QPending => Some (Skeleton t 5)
  | QFailed e | QData _ (Some e) => error_state e true false
  | QData nodes None => ProcessTreeView nodes
  end.

Definition archive_not_ready (error : Rejection) : bool := has_code error (u! "ARCHIVE_NOT_READY").
Definition event_page (eventId : option ustring) (params : URLSearchParams) (result : QueryResult EventDetailDto)
  (tree : QueryResult (list ProcessTreeNodeDto)) (viewer : PayloadViewer) : option Render :=
  let returnPath := safeReturnPath params (u! "/events") in
  let page (parts : list Render) := around (λ l, [plain "div" [cls (u! "page-stack")] l]) (all (back_link returnPath (t "events.stream" []) :: parts)) in
  if truthy (default [] eventId) && validEventDetailQuery params then
    error ← match q_error result with Some e => error_state e (negb (archive_not_ready e)) (archive_not_ready e) | None => Some nothing end;
    detail ← match q_data result with Some detail => drawn ← tree_part tree; EventDetail detail viewer drawn | None => Some nothing end;
    Some (page [if q_pending result then Skeleton t 12 else nothing; error; detail])
  else Some (page [EmptyState icon (t "event.routingMissing" []) (t "event.routingDescription" []) false None;
                   rendered [anchor (Some (u! "button")) returnPath [Txt (t "event.return" [])]]]).

(** ** AlertDetailPage.tsx *)

Record IncidentReferenceDto := mkIncidentReference {
  ir_incidentId : Z; ir_severity : Severity; ir_status : IncidentStatus; ir_title : ustring; ir_windowEndAt : ustring; ir_windowStartAt : ustring;
}.
(** The fields of the alert, and those only the detail has. *)
Record AlertDetailDto := mkAlertDetail {
  ad_alert : AlertDto; ad_sourceEvent : option EventDto; ad_incidents : list IncidentReferenceDto; ad_responseGuidance : list ResponseGuidanceStepDto;
}.

Definition triage_row (current : Z) (params : URLSearchParams) (item : AlertDto) : option Render :=
  let selected := alert_alertId item =? current in
  title ← detectionTitle (alert_title item) (Some (alert_ruleCode item)); detected ← formatDateTime (Some (alert_detectedAt item));
  Some (around2 (λ severity status, [plain "a" ((if selected then [(u! "aria-current", u! "page")] else [])
      ++ [cls (if selected then u! "triage-row selected" else u! "triage-row"); (u! "href", alertDetailUrl (alert_alertId item) params)])
    [plain "span" [cls (u! "triage-row-heading")]
       [plain "span" [] (severity ++ status); small (t "alert.riskValue" [(u! "score", number_param (alert_riskScore item))])];
     plain "strong" [] [Txt title]; plain "code" [] [Txt (alert_ruleCode item ++ u! " · " ++ alert_agentId item)]; small detected]])
    (pill (lit_name (alert_severity item))) (pill (lit_name (alert_status item)))).

(** The query of the queue; [q_data] is the queue of the page's state. *)
Definition triage_queue (page : TriagePage) (queueResult : QueryResult unit) : option Render :=
  let shown := negb (q_pending queueResult) && negb (bool_decide (is_Some (q_error queueResult))) in
  feedback ← query_parts 8 false queueResult;
  rows ← (if shown then mapM (triage_row (alertId page) (Triage.params page)) (activeQueue page) else Some []);
  Some (Panel (t "alert.activeQueue" []) (Some (t "alert.requiresAction" [(u! "total", number_param (Z.of_nat (length (activeQueue page))))])) None (u! "triage-queue-panel")
    (both feedback
       (if shown then
          around (λ l, [plain "div" [cls (u! "triage-queue"); (u! "aria-label", t "alert.activeQueue" [])] l])
            (both (all rows)
               (match activeQueue page with
                | [] => EmptyState icon (t "alert.queueCleared" []) (t "alert.queueClearedDescription" []) false None
                | _ => nothing
                end))
        else nothing))).

Definition alerts_url (params : URLSearchParams) : ustring := u! "/alerts" ++ search_of params.
Definition queue_cleared (page : TriagePage) : Render :=
  if queueCleared page then
    rendered [plain "section" [(u! "aria-live", u! "polite"); cls (u! "triage-complete-state"); (u! "role", u! "status")]
      (icon (u! "CheckCircle2") ++ [plain "div" [] [plain "strong" [] [Txt (t "alert.queueCleared" [])]; plain "p" [] [Txt (t "alert.queueClearedRecoverableDescription" [])]];
        anchor (Some (u! "button")) (alerts_url (Triage.params page)) [Txt (t "alerts.queue" [])]])]
  else nothing.

Definition state_class (state : StepState) : ustring :=
  match state with Linked => u! "linked" | Unavailable => u! "unavailable" | Observed => u! "observed" | Current => u! "current" end.
Definition step_icon (step : EvidenceStep) : ustring :=
  if bool_decide (step_label step = u! "Endpoint") then u! "Server" else if bool_decide (step_label step = u! "Event") then u! "Activity"
  else if bool_decide (step_label step = u! "Rule") then u! "Radar" else if bool_decide (step_label step = u! "Alert") then u! "BellRing" else u! "ShieldAlert".
Definition evidence_step (index : nat) (step : EvidenceStep) : jsx :=
  plain "li" [cls (state_class (step_state step))]
    [plain "span" [cls (u! "evidence-chain-index")] [Txt (pad2 (Z.of_nat index + 1))];
     plain "span" [cls (u! "evidence-chain-icon"); (u! "aria-hidden", u! "true")] (icon (step_icon step));
     plain "div" [] [plain "span" [] [Txt (step_label step)];
       match step_to step with
       | Some to => if truthy to then plain "a" [(u! "title", step_detail step); (u! "href", to)] [Txt (step_detail step)]
                    else plain "strong" [(u! "title", step_detail step)] [Txt (step_detail step)]
       | None => plain "strong" [(u! "title", step_detail step)] [Txt (step_detail step)]
       end]].
Definition evidence_chain (steps : list EvidenceStep) : Render :=
  around (λ pills, [plain "section" [(u! "aria-label", t "alert.evidenceChain" []); cls (u! "evidence-chain")]
    [plain "header" [] (plain "div" [] [plain "span" [] [Txt (t "alert.evidenceChain" [])]; plain "strong" [] [Txt (t "alert.evidenceChainDescription" [])]] :: pills);
     plain "ol" [] (imap evidence_step steps)]]) (pill (u! "OBSERVED")).

Definition alert_facts (alert : AlertDto) : option (list (ustring * Render)) :=
  let code (text : ustring) := rendered [plain "code" [] [Txt text]] in
  rule ← detectionRuleName (alert_ruleName alert) (Some (alert_ruleCode alert)); updated ← formatDateTime (Some (alert_updatedAt alert));
  Some [(t "alert.id" [], text_node (string_of_Z (alert_alertId alert)));
   (t "alert.riskScore" [], text_node (string_of_Z (alert_riskScore alert) ++ u! " / 100"));
   (u! "Rule", text_node (rule ++ u! " · " ++ alert_ruleCode alert));
   (u! "Endpoint", rendered [anchor None (endpoint_path (alert_endpointId alert)) [Txt (u! "Endpoint " ++ string_of_Z (alert_endpointId alert))]]);
   (t "alert.agentId" [], code (alert_agentId alert)); (t "alert.eventId" [], code (alert_eventId alert));
   (t "alert.mitreTactic" [], text_node (alert_mitreTacticCode alert ++ u! " · " ++ alert_mitreTacticName alert));
   (t "alert.mitreTechnique" [], text_node (alert_mitreTechniqueCode alert ++ u! " · " ++ alert_mitreTechniqueName alert));
   (t "alert.updated" [], text_node updated)].

Definition connected_incident (incident : IncidentReferenceDto) : option Render :=
  title ← detectionTitle (ir_title incident) None;
  windowStart ← formatDateTime (Some (ir_windowStartAt incident)); windowEnd ← formatDateTime (Some (ir_windowEndAt incident));
  Some (around2 (λ severity status, [plain "a" [(u! "href", u! "/incidents/" ++ string_of_Z (ir_incidentId incident))]
    [plain "span" [cls (u! "connected-incident-copy")] [plain "strong" [] [Txt title]; small (windowStart ++ u! " – " ++ windowEnd)];
     plain "span" [cls (u! "connected-incident-badges")] (severity ++ status)]])
    (pill (lit_name (ir_severity incident))) (pill (lit_name (ir_status incident)))).
Definition connected_incidents (incidents : list IncidentReferenceDto) : option Render :=
  match incidents with
  | [] => Some (EmptyState icon (t "alert.noConnectedIncidents" []) (t "alert.noConnectedDescription" []) false None)
  | _ => drawn ← mapM connected_incident incidents; Some (around (λ l, [plain "div" [cls (u! "link-list connected-incident-list")] l]) (all drawn))
  end.

(** The step's number, title, badge and description, of EndpointPage.v. *)
Definition guidance_step (step : Z * ustring * option ustring * ustring) : Render :=
  let '(order, title, manual, description) := step in
  around (λ badge, [plain "li" [] [plain "span" [] [Txt (string_of_Z order)];
    plain "div" [] [plain "div" [cls (u! "guidance-title")] (plain "strong" [] [Txt title] :: badge); plain "p" [] [Txt description]]]])
    (match manual with Some text => Badge "warning" [] (text_node text) | None => nothing end).
Definition guidance_list (steps : list (Z * ustring * option ustring * ustring)) : Render :=
  match steps with
  | [] => EmptyState icon (t "empty.noResponseGuidance" []) (t "empty.responseGuidanceDescription" []) false None
  | _ => around (λ l, [plain "ol" [(u! "aria-label", t "alert.guidanceSteps" []); cls (u! "guidance-list")] l]) (all (map guidance_step steps))
  end.
(** The link and the name of the event, of EndpointPage.v. *)
Definition source_event (sourceEvent : option EventDto) (link : option (ustring * ustring)) : option Render :=
  match sourceEvent, link with
  | Some e, Some (to, name) =>
    occurred ← formatDateTime (Some (event_occurredAt e));
    Some (rendered [anchor (Some (u! "source-event")) to
      [plain "span" [] [Txt (lit_name (event_eventType e))]; plain "strong" [] [Txt name]; small occurred]])
  | _, _ => Some (EmptyState icon (t "empty.sourceEventUnavailable" []) (t "empty.sourceEventDescription" []) false None)
  end.

(** The decision: its controls for a user who may update, a note for the others. *)
Definition status_options : list jsx := map (λ s : AlertStatus, plain "option" [] [Txt (lit_name s)]) [Alert_OPEN; Alert_IN_PROGRESS; Alert_RESOLVED].
Definition decision_controls (page : TriagePage) (status draft : AlertStatus) : Render :=
  around (λ l, [plain "div" [cls (u! "workflow-controls")] l])
    (both (Field (t "alert.status" []) None None (rendered [plain "select" (flag "disabled" (is_pending page) ++ [(u! "value", lit_name draft)]) status_options]))
      (rendered [plain "div" [cls (u! "workflow-actions")]
         [plain "button" ([cls (u! "button ghost")] ++ flag "disabled" (save_disabled page status draft) ++ [(u! "type", u! "button")])
            (icon (u! "Save") ++ [Txt (t "alert.saveStatus" [])]);
          plain "button" ([cls (u! "button")] ++ flag "disabled" (next_disabled page status draft) ++ [(u! "type", u! "button")])
            [Txt (t "alert.submitNext" [])]]])).
Definition decision_panel (canUpdate : bool) (page : TriagePage) (status draft : AlertStatus) : Render :=
  Panel (t "alert.workflowState" []) (Some (if canUpdate then t "alert.saveOrContinue" [] else t "alert.viewerReadOnly" [])) None (u! "alert-decision-panel")
    (if canUpdate then decision_controls page status draft
     else around (λ l, [plain "div" [cls (u! "read-only-note")] l]) (both (pill (lit_name status)) (rendered [plain "span" [] [Txt (t "alert.viewerControlsHidden" [])]]))).

Definition mutation_note (page : TriagePage) : option Render :=
  match mutation page with
  | MFailed e => error_state e false false
  | MSaved => Some (rendered [plain "div" [cls (u! "mutation-success")] (icon (u! "CheckCircle2") ++ [Txt (t "alert.workflowSaved" [])])])
  | _ => Some nothing
  end.

(** The draft starts as the status of the alert. *)
Definition shown_draft (page : TriagePage) (alert : AlertDto) : AlertStatus := default (alert_status alert) (Triage.draft page).

(** [None]: a link's time cannot be encoded, a date cannot be read, an error cannot be told, or
    a copy lookup throws. *)
Definition AlertDetail (canUpdate : bool) (page : TriagePage) (queueResult : QueryResult unit) (detail : AlertDetailDto) : option Render :=
  let alert := ad_alert detail in
  guidance ← ResponseGuidance (λ key params, Some (t key params)) (ad_responseGuidance detail);
  steps ← AlertEvidenceChain (t "alert.notConnected" []) alert (ad_sourceEvent detail) (map ir_incidentId (ad_incidents detail));
  link ← SourceEvent (ad_sourceEvent detail);
  detected ← formatDateTime (Some (alert_detectedAt alert)); facts ← alert_facts alert;
  event ← source_event (ad_sourceEvent detail) link; connected ← connected_incidents (ad_incidents detail);
  queue ← triage_queue page queueResult; note ← mutation_note page;
  title ← detectionTitle (alert_title alert) (Some (alert_ruleCode alert)); summary ← detectionSummary (alert_summary alert) [];
  let ledger_part :=
    DetailLedger (u! "alert-evidence-ledger") (all
      [DetailLedgerSection (t "alert.evidence" []) (Some (t "alert.detectedAt" [(u! "time", PText detected)]))
         (Some facts) [] nothing;
       DetailLedgerSection (t "alert.sourceEvent" []) (Some (t "alert.sourceEventSubtitle" [])) None [] event;
       DetailLedgerSection (t "alert.connectedIncidents" []) (Some (t "alert.correlationReferences" [])) None [] connected]) in
  let actions_part :=
    around (λ l, [plain "section" [cls (u! "alert-action-grid")] l])
      (both (Panel (t "alert.responseGuidance" [])
               (Some (t "alert.guidanceRuleVersion" [(u! "ruleCode", PText (alert_ruleCode alert)); (u! "version", number_param (alert_ruleVersion alert))]))
               None (u! "alert-guidance-panel") (guidance_list guidance))
            (decision_panel canUpdate page (alert_status alert) (shown_draft page alert))) in
  Some (both (queue_cleared page)
    (around (λ l, [plain "section" [cls (u! "triage-workspace")] l])
      (both queue
        (around (λ l, [plain "div" [cls (u! "triage-detail page-stack")] l])
          (all [PageHeader (Some (alert_ruleCode alert ++ u! " · RULE V" ++ string_of_Z (alert_ruleVersion alert)))
                  title (Some summary)
                  (Some (both (pill (lit_name (alert_severity alert))) (pill (lit_name (alert_status alert)))));
                evidence_chain steps; note; ledger_part; actions_part]))))).

Definition alert_page (valid canUpdate : bool) (page : TriagePage) (result : QueryResult AlertDetailDto) (queueResult : QueryResult unit) : option Render :=
  if negb valid then error_state RType false false else
  feedback ← query_parts 10 true result;
  detail ← match q_data result with Some d => AlertDetail canUpdate page queueResult d | None => Some nothing end;
  Some (around (λ l, [plain "div" [cls (u! "page-stack")] l])
    (all [back_link (alerts_url (Triage.params page)) (t "alerts.queue" []); feedback; detail])).
End details.

(** ** Texts and buttons of a tree *)

Fixpoint content (j : jsx) : ustring := match j with Txt s => s | El _ _ _ _ children => flat_map content children end.
(** The buttons in the order in which they are drawn: their text, and whether they act. *)
Fixpoint buttons (j : jsx) : list (ustring * bool) :=
  match j with
  | Txt _ => []
  | El tag _ _ attrs children =>
    (if bool_decide (tag = u! "button") then [(flat_map content children, negb (map_has (u! "disabled") attrs))] else []) ++ flat_map buttons children
  end.
Lemma other_element (tag : string) id refs attrs children : bool_decide (u tag = u! "button") = false →
  buttons (El (u tag) id refs attrs children) = flat_map buttons children.
Proof. intros E. cbn [buttons]. by rewrite E. Qed.
Lemma text_buttons s : buttons (Txt s) = [].
Proof. done. Qed.
Lemma button_element attrs children :
  buttons (plain "button" attrs children) = [(flat_map content children, negb (map_has (u! "disabled") attrs))] ++ flat_map buttons children.
Proof. reflexivity. Qed.

Section facts.
Context `{DateHost} `{IdSupply}.
Context (t : string → TranslationParams → ustring) (icon : ustring → list jsx) (toLowerCase : ustring → ustring)
  (formatDateTime : option ustring → option ustring) (locale : Locale)
  (detectionTitle : ustring → option ustring → option ustring) (detectionRuleName : ustring → option ustring → option ustring)
  (detectionSummary : ustring → ustring → option ustring).

(** *** The payload *)

Lemma highlight_keeps line query : flat_map content (highlighted toLowerCase line query) = line.
Proof.
  unfold highlighted, highlight. destruct (truthy query); [|cbn; apply app_nil_r].
  destruct (index_of (toLowerCase line) (toLowerCase query)) as [i|]; cbn; rewrite ?app_nil_r; [|done].
  rewrite <- (drop_drop line (length query) i), take_drop, take_drop. done.
Qed.

Lemma payload_lines_content query lines :
  flat_map content (map (payload_line toLowerCase query) lines) = flat_map (λ line, line ++ [10]) lines.
Proof.
  induction lines as [|line lines IH]; [done|]. cbn [map flat_map]. rewrite IH. f_equal.
  change (content (payload_line toLowerCase query line)) with (flat_map content (highlighted toLowerCase line query ++ [Txt [10]])).
  by rewrite flat_map_app, highlight_keeps.
Qed.

Lemma join_lines lines : lines ≠ [] → flat_map (λ line, line ++ [10]) lines = join [10] lines ++ [10].
Proof.
  induction lines as [|line lines IH]; [done|]. intros _. cbn [flat_map]. destruct lines as [|l lines]; [cbn; by rewrite app_nil_r|].
  rewrite IH by done. cbn [join]. by rewrite <- !app_assoc.
Qed.

Lemma split_not_nil c s : split_on c s ≠ [].
Proof. destruct s as [|d s]; [done|]. cbn. destruct (d =? c); [done|]. by destruct (split_on c s). Qed.

Lemma pre_content payload query : content (payload_pre t toLowerCase payload query) = payload_text payload ++ [10].
Proof.
  change (content (payload_pre t toLowerCase payload query)) with (flat_map content (map (payload_line toLowerCase query) (payload_lines payload))).
  unfold payload_lines. rewrite payload_lines_content, join_lines by apply split_not_nil.
  by rewrite join_split_on.
Qed.

(** *** The buttons *)

Hypothesis icon_content : ∀ name, flat_map content (icon name) = [].
Hypothesis icon_buttons : ∀ name, flat_map buttons (icon name) = [].

(** What is drawn has these buttons, whatever identifiers it draws. *)
Definition has_buttons (bs : list (ustring * bool)) (r : Render) : Prop := ∀ n, flat_map buttons (r n).1 = bs.
#[local] Abbreviation quiet := (has_buttons []).

(** Walks through the elements that are no buttons. *)
Ltac walk := intros; unfold anchor, link, plain, cls;
  repeat first [progress cbn [flat_map app]|rewrite flat_map_app|rewrite icon_buttons|rewrite text_buttons|rewrite other_element by (vm_compute; reflexivity)|rewrite app_nil_r];
  try done.

Lemma hb_rendered l bs : flat_map buttons l = bs → has_buttons bs (rendered l).
Proof. by intros <- n. Qed.
Lemma hb_nothing : quiet nothing.
Proof. by intros n. Qed.
Lemma hb_both a b x y : has_buttons x a → has_buttons y b → has_buttons (x ++ y) (both a b).
Proof.
  intros Ha Hb n. unfold both. specialize (Ha n). destruct (a n) as [la m]. specialize (Hb m). destruct (b m) as [lb p]. cbn [fst] in *.
  by rewrite flat_map_app, Ha, Hb.
Qed.
Lemma hb_around f r bs : has_buttons bs r → (∀ l, flat_map buttons (f l) = flat_map buttons l) → has_buttons bs (around f r).
Proof. intros Hr Hf n. unfold around. specialize (Hr n). destruct (r n). cbn [fst] in *. by rewrite Hf. Qed.
Lemma hb_around2 f a b x y : has_buttons x a → has_buttons y b → (∀ la lb, flat_map buttons (f la lb) = flat_map buttons la ++ flat_map buttons lb) →
  has_buttons (x ++ y) (around2 f a b).
Proof.
  intros Ha Hb Hf n. unfold around2. specialize (Ha n). destruct (a n) as [la m]. specialize (Hb m). destruct (b m) as [lb p]. cbn [fst] in *.
  by rewrite Hf, Ha, Hb.
Qed.
Lemma hb_useId k bs : (∀ id, has_buttons bs (k id)) → has_buttons bs (useId k).
Proof. intros Hk n. apply Hk. Qed.
Lemma quiet_both a b : quiet a → quiet b → quiet (both a b).
Proof. intros Ha Hb. exact (hb_both a b [] [] Ha Hb). Qed.
Lemma quiet_all l : Forall quiet l → quiet (all l).
Proof. induction 1; [apply hb_nothing|by apply quiet_both]. Qed.

Lemma quiet_pill value label : quiet (StatusPill toLowerCase value label).
Proof. apply hb_around; [by apply hb_rendered|]. walk. Qed.
Lemma hb_Panel title subtitle className r bs : has_buttons bs r → has_buttons bs (Panel title subtitle None className r).
Proof.
  intros Hr. apply hb_useId. intros id. apply (hb_around2 _ _ _ [] bs hb_nothing Hr). walk. destruct subtitle as [[|c s]|]; walk.
Qed.
Lemma hb_element (tag : string) attrs r bs : bool_decide (u tag = u! "button") = false → has_buttons bs r → has_buttons bs (around (λ l, [plain tag attrs l]) r).
Proof. intros Ht Hr. apply hb_around; [done|]. intros l. unfold plain. cbn [flat_map]. by rewrite other_element, app_nil_r. Qed.
Lemma quiet_EmptyState title message compact : quiet (EmptyState icon title message compact None).
Proof. apply hb_around; [apply hb_nothing|]. walk. Qed.
Lemma quiet_Skeleton rows : quiet (Skeleton t rows).
Proof. apply hb_rendered. walk. by induction rows. Qed.
Lemma plain_quiet {A} (f : A → jsx) l : (∀ x, buttons (f x) = []) → flat_map buttons (map f l) = [].
Proof. intros Hf. induction l as [|x l IH]; [done|]. cbn [map flat_map]. by rewrite Hf, IH. Qed.
(** What an optional drawing gives, from what its parts give. *)
Ltac drawn E := repeat (let r := fresh "r" in let Er := fresh "Er" in apply bind_Some in E as (r & Er & E)); injection E as <-.
Lemma quiet_mapM {A} (f : A → option Render) l rows : mapM f l = Some rows → (∀ x r, f x = Some r → quiet r) → quiet (all rows).
Proof. intros E%mapM_Some Hf. apply quiet_all. induction E as [|x r l rows Hx _ IH]; constructor; [by eapply Hf|done]. Qed.
Lemma quiet_error error archive r : error_state t icon locale error false archive = Some r → quiet r.
Proof.
  unfold error_state. intros E. apply bind_Some in E as (view & _ & E). apply bind_Some in E as (details & _ & [= <-]).
  apply hb_rendered. unfold Markup.ErrorState.
  pose proof (plain_quiet (λ d, plain "li" [] [Txt d]) details (λ x, eq_refl)) as Hd.
  destruct (truthy_opt _), (view_archive view), details as [|d ds]; walk; by rewrite Hd.
Qed.
Lemma quiet_query {A} rows (result : QueryResult A) r : query_parts t icon locale rows false result = Some r → quiet r.
Proof.
  unfold query_parts. intros E. apply bind_Some in E as (error & Ee & [= <-]).
  apply quiet_both; [destruct (q_pending result); [apply quiet_Skeleton|apply hb_nothing]|].
  destruct (q_error result); [by eapply quiet_error|injection Ee as <-; apply hb_nothing].
Qed.
Lemma quiet_header eyebrow title description actions : quiet actions → quiet (PageHeader eyebrow title description (Some actions)).
Proof.
  intros Ha. apply hb_around; [by apply hb_element|]. walk. destruct eyebrow as [[|c e]|], description as [[|d s]|]; walk.
Qed.
Lemma quiet_section title subtitle items className r : Forall (λ item, quiet item.2) (default [] items) → quiet r →
  quiet (DetailLedgerSection title subtitle items className r).
Proof.
  intros Hi Hr. apply hb_useId. intros id. apply (hb_around2 _ _ _ [] []); [|done|].
  - destruct items as [l|]; [|apply hb_nothing]. apply hb_element; [done|]. apply quiet_all, Forall_fmap. eapply Forall_impl; [exact Hi|].
    intros item Hitem. unfold compose, fact. apply hb_around; [done|]. walk.
  - walk. destruct subtitle as [[|c s]|]; walk.
Qed.
Lemma quiet_text s : quiet (text_node s).
Proof. by apply hb_rendered. Qed.

(** *** The parts of the triage page *)

Lemma quiet_pills a b : quiet (both (pill toLowerCase a) (pill toLowerCase b)).
Proof. apply quiet_both; apply quiet_pill. Qed.
Lemma quiet_triage_row current p item r : triage_row t toLowerCase formatDateTime detectionTitle current p item = Some r → quiet r.
Proof. unfold triage_row. intros E. drawn E. apply (hb_around2 _ _ _ [] []); [apply quiet_pill..|]. unfold small. walk. Qed.
Lemma quiet_triage_queue page queueResult r : triage_queue t icon toLowerCase formatDateTime locale detectionTitle page queueResult = Some r → quiet r.
Proof.
  unfold triage_queue. intros E. apply bind_Some in E as (feedback & Ef & E). apply bind_Some in E as (rows & Er & [= <-]).
  apply hb_Panel, quiet_both; [by eapply quiet_query|]. destruct (_ && _); [|apply hb_nothing]. apply hb_element; [done|]. apply quiet_both.
  - eapply quiet_mapM; [exact Er|]. intros item row. apply quiet_triage_row.
  - destruct (activeQueue page); [apply quiet_EmptyState|apply hb_nothing].
Qed.
Lemma quiet_cleared page : quiet (queue_cleared t icon page).
Proof. unfold queue_cleared. destruct (queueCleared page); [|apply hb_nothing]. apply hb_rendered. walk. Qed.
Lemma quiet_chain steps : quiet (evidence_chain t icon toLowerCase steps).
Proof.
  assert (∀ l i, flat_map buttons (imap (λ k, evidence_step icon (i + k)%nat) l) = []) as Hl.
  { intros l. induction l as [|step l IH]; intros i; [done|]. cbn [imap flat_map].
    assert (buttons (evidence_step icon (i + 0)%nat step) = []) as ->
      by (unfold evidence_step; destruct (step_to step) as [to|]; [destruct (truthy to)|]; walk).
    cbn [app]. erewrite imap_ext; [apply (IH (S i))|]. intros k x _. cbn. by rewrite Nat.add_succ_r. }
  apply hb_around; [apply quiet_pill|]. walk.
  assert (flat_map buttons (imap (evidence_step icon) steps) = []) as Hs by exact (Hl steps 0%nat). by rewrite Hs, app_nil_r.
Qed.
Lemma quiet_note page r : mutation_note t icon locale page = Some r → quiet r.
Proof.
  unfold mutation_note. destruct (mutation page); first [by apply quiet_error|intros [= <-]; first [apply hb_nothing|apply hb_rendered; walk]].
Qed.
Lemma quiet_connected incidents r : connected_incidents t icon toLowerCase formatDateTime detectionTitle incidents = Some r → quiet r.
Proof.
  unfold connected_incidents. destruct incidents as [|incident incidents]; [intros [= <-]; apply quiet_EmptyState|].
  intros E. apply bind_Some in E as (rows & E & [= <-]). apply hb_element; [done|]. eapply quiet_mapM; [exact E|].
  intros item row Hrow. unfold connected_incident in Hrow. drawn Hrow. apply (hb_around2 _ _ _ [] []); [apply quiet_pill..|]. unfold small. walk.
Qed.
Lemma quiet_source sourceEvent link r : source_event t icon formatDateTime sourceEvent link = Some r → quiet r.
Proof.
  destruct sourceEvent, link as [[to name]|]; cbn; try (intros [= <-]; apply quiet_EmptyState). intros E. drawn E.
  apply hb_rendered. unfold small. walk.
Qed.
Lemma quiet_guidance steps : quiet (guidance_list t icon steps).
Proof.
  destruct steps as [|step steps]; [apply quiet_EmptyState|]. apply hb_element; [done|]. apply quiet_all, Forall_fmap, Forall_forall.
  intros [[[order title] manual] description] _. apply hb_around; [|walk]. destruct manual; [|apply hb_nothing].
  apply hb_around; [apply quiet_text|]. walk.
Qed.
Lemma quiet_facts alert facts : alert_facts t formatDateTime detectionRuleName alert = Some facts → Forall (λ item, quiet item.2) facts.
Proof. unfold alert_facts. intros E. drawn E. repeat (apply Forall_cons; split; [by apply hb_rendered|]). apply Forall_nil_2. Qed.

(** *** The decision *)

Definition decision_buttons (canUpdate : bool) (page : TriagePage) (status d : AlertStatus) : list (ustring * bool) :=
  if canUpdate then [(t "alert.saveStatus" [], negb (save_disabled page status d)); (t "alert.submitNext" [], negb (next_disabled page status d))] else [].
Lemma hb_decision canUpdate page status d :
  has_buttons (decision_buttons canUpdate page status d)
    (decision_panel t icon toLowerCase canUpdate page status d).
Proof.
  unfold decision_panel, decision_buttons. apply hb_Panel. destruct canUpdate.
  - unfold decision_controls. apply hb_element; [done|]. apply (hb_both _ _ []).
    + apply hb_around; [|by walk]. apply hb_rendered. by walk.
    + apply hb_rendered. unfold plain at 1. cbn [flat_map]. rewrite other_element, app_nil_r by (vm_compute; reflexivity). cbn [flat_map].
      rewrite !button_element, !flat_map_app, icon_content, icon_buttons. cbn [flat_map content buttons app].
      destruct (save_disabled page status d), (next_disabled page status d); cbn; by rewrite !app_nil_r.
  - apply hb_element; [done|]. apply quiet_both; [apply quiet_pill|by apply hb_rendered].
Qed.

(** What the buttons send. *)
Lemma save_sends canUpdate latest_callbacks page status d : Triage.detail page = Some status → Triage.draft page = Some d →
  (triage_step canUpdate latest_callbacks page SaveStatus).2 =
    if canUpdate && negb (save_disabled page status d) then [UpdateAlert (alertId page) d] else [].
Proof.
  intros Hs Hd. cbn [triage_step]. unfold save, decision. rewrite Hs, Hd. destruct canUpdate; [|done]. cbn [mbind option_bind andb].
  by destruct (save_disabled page status d).
Qed.
Lemma next_sends canUpdate latest_callbacks page status d : Triage.detail page = Some status → Triage.draft page = Some d →
  (triage_step canUpdate latest_callbacks page SubmitNext).2 =
    if canUpdate && negb (next_disabled page status d) then [UpdateAlert (alertId page) d] else [].
Proof.
  intros Hs Hd. cbn [triage_step]. unfold submitNext, decision. rewrite Hs, Hd. destruct canUpdate; [|done]. cbn [mbind option_bind andb].
  by destruct (next_disabled page status d).
Qed.

(** When they are enabled. *)
Lemma save_enabled page status d : negb (save_disabled page status d) = true ↔ is_pending page = false ∧ d ≠ status.
Proof. unfold save_disabled. destruct (is_pending page); cbn; [naive_solver|]. case_bool_decide; naive_solver. Qed.
Lemma next_enabled page status d : NoDup (alert_alertId <$> Triage.queue page) →
  negb (next_disabled page status d) = true ↔
  is_pending page = false ∧ (d ≠ status ∨ ∃ a, a ∈ Triage.queue page ∧ is_resolved a = false ∧ alert_alertId a ≠ alertId page).
Proof.
  intros Hnd. unfold next_disabled, nextAlert. pose proof (next_alert_spec (Triage.queue page) (alertId page) Hnd) as Hn.
  destruct (is_pending page); cbn [orb negb]; [naive_solver|].
  assert (∀ a, actionable (alertId page) a = true ↔ is_resolved a = false ∧ alert_alertId a ≠ alertId page) as Ha
    by (intros a; unfold actionable; by rewrite andb_true_iff, !negb_true_iff, Z.eqb_neq).
  destruct (nextActionableAlert (Triage.queue page) (alertId page)) as [b|].
  - rewrite bool_decide_false by done. cbn [andb negb]. destruct Hn as [Hin Hb%Ha]. naive_solver.
  - rewrite bool_decide_true by done. cbn [andb]. case_bool_decide; cbn [negb].
    + split; [done|]. intros (_ & [?|(a & Hin & H2)]); [done|]. apply Ha in H2. by rewrite (Hn a Hin) in H2.
    + naive_solver.
Qed.

Lemma hb_detail canUpdate page queueResult detail r :
  AlertDetail t icon toLowerCase formatDateTime locale detectionTitle detectionRuleName detectionSummary canUpdate page queueResult detail = Some r →
  has_buttons (decision_buttons canUpdate page (alert_status (ad_alert detail)) (shown_draft page (ad_alert detail))) r.
Proof.
  unfold AlertDetail. cbv zeta. intros E. set (bs := decision_buttons _ _ _ _). repeat (apply bind_Some in E as (? & ? & E)). injection E as <-.
  apply (hb_both _ _ [] bs (quiet_cleared page)). apply hb_element; [done|]. apply (hb_both _ _ [] bs); [by eapply quiet_triage_queue|].
  apply hb_element; [done|]. cbn [all].
  apply (hb_both _ _ [] bs); [apply quiet_header, quiet_pills|]. apply (hb_both _ _ [] bs (quiet_chain _)). apply (hb_both _ _ [] bs); [by eapply quiet_note|].
  apply (hb_both _ _ [] bs).
  - apply hb_element; [done|]. cbn [all]. apply quiet_both; [apply quiet_section; [by eapply quiet_facts|apply hb_nothing]|].
    apply quiet_both; [apply quiet_section; [by apply Forall_nil_2|by eapply quiet_source]|].
    apply quiet_both; [|apply hb_nothing]. apply quiet_section; [by apply Forall_nil_2|by eapply quiet_connected].
  - rewrite <- (app_nil_r bs). apply hb_both; [|apply hb_nothing]. apply hb_element; [done|]. apply (hb_both _ _ [] bs); [|apply hb_decision].
    apply hb_Panel, quiet_guidance.
Qed.

(** C38: the buttons of the triage page do what they show. On the page of an alert that was
    loaded, the only buttons (beside the notes of a failed query) are those that save the
    status and that submit it with the next alert, and they are there exactly for a user who
    may update. Saving is enabled exactly when no update is pending and the drafted status
    is not the alert's; submitting exactly when no update is pending and either that is so
    or the queue, whose alerts are distinct, has an unresolved other alert. Pressing an
    enabled button sends exactly one update, of the alert on the page to the drafted status;
    a button that is missing or disabled sends nothing. *)
Theorem triage_buttons_act canUpdate latest_callbacks page queueResult detail drawn d n
  (Hloaded : Triage.detail page = Some (alert_status (ad_alert detail))) (Hdraft : Triage.draft page = Some d)
  (Hqueue : NoDup (alert_alertId <$> Triage.queue page))
  (Hdrawn : alert_page t icon toLowerCase formatDateTime locale detectionTitle detectionRuleName detectionSummary
     true canUpdate page (QData detail None) queueResult = Some drawn) :
  ∃ saves submits : bool,
    flat_map buttons (drawn n).1 = (if canUpdate then [(t "alert.saveStatus" [], saves); (t "alert.submitNext" [], submits)] else []) ∧
    (saves = true ↔ is_pending page = false ∧ d ≠ alert_status (ad_alert detail)) ∧
    (submits = true ↔ is_pending page = false ∧
       (d ≠ alert_status (ad_alert detail) ∨
        ∃ a, a ∈ Triage.queue page ∧ is_resolved a = false ∧ alert_alertId a ≠ alertId page)) ∧
    (triage_step canUpdate latest_callbacks page SaveStatus).2 = (if canUpdate && saves then [UpdateAlert (alertId page) d] else []) ∧
    (triage_step canUpdate latest_callbacks page SubmitNext).2 = (if canUpdate && submits then [UpdateAlert (alertId page) d] else []).
Proof.
  exists (negb (save_disabled page (alert_status (ad_alert detail)) d)), (negb (next_disabled page (alert_status (ad_alert detail)) d)).
  split; [|by split_and!; [apply save_enabled|apply next_enabled|apply save_sends|apply next_sends]].
  unfold alert_page in Hdrawn. cbn [negb q_data] in Hdrawn. apply bind_Some in Hdrawn as (feedback & Ef & Hdrawn).
  apply bind_Some in Hdrawn as (r & E & [= <-]). pose proof (hb_detail _ _ _ _ _ E) as Hb.
  assert (shown_draft page (ad_alert detail) = d) as Hdr by (unfold shown_draft; by rewrite Hdraft). rewrite Hdr in Hb.
  set (bs := decision_buttons _ _ _ _) in Hb. revert n.
  change (has_buttons bs (around (λ l, [plain "div" [cls (u! "page-stack")] l])
    (all [back_link icon (alerts_url (Triage.params page)) (t "alerts.queue" []); feedback; r]))).
  apply hb_element; [done|]. cbn [all]. apply (hb_both _ _ [] bs); [apply hb_rendered; by walk|].
  injection Ef as <-. apply (hb_both _ _ [] bs); [by apply (quiet_both nothing nothing)|]. rewrite <- (app_nil_r bs). by apply hb_both.
Qed.
End facts.

(** ** The labels of the detail pages *)

Section labels.
Context `{DateHost} `{IdSupply}.
Context (t : string → TranslationParams → ustring) (icon : ustring → list jsx) (toLowerCase : ustring → ustring)
  (formatDateTime : option ustring → option ustring) (locale : Locale)
  (detectionTitle : ustring → option ustring → option ustring) (detectionRuleName : ustring → option ustring → option ustring)
  (detectionSummary : ustring → ustring → option ustring).
Hypothesis icon_ids : ∀ name, ids_in (icon name) = [].
Hypothesis icon_named : ∀ name, named_in (icon name) = [].
#[local] Abbreviation composed_here := (composed t icon toLowerCase (λ time, default [] (formatDateTime (Some time)))).
#[local] Abbreviation all_composed := (ListViews.composed_all t icon toLowerCase formatDateTime).
#[local] Abbreviation rows_composed := (ListViews.composed_rows t icon toLowerCase formatDateTime).

(** Elements without identifiers of their own, around what was drawn. *)
Ltac bare := intros; unfold anchor, link, small, plain; cbn; rewrite ?flat_map_app, ?icon_ids, ?icon_named; cbn; rewrite ?flat_map_app, ?app_nil_r; try done.

Lemma composed_bare l : ids_in l = [] → named_in l = [] → composed_here (rendered l).
Proof. apply c_plain. Qed.
Lemma composed_error error retry archive r : error_state t icon locale error retry archive = Some r → composed_here r.
Proof.
  unfold error_state. intros E. apply bind_Some in E as (view & _ & E). apply bind_Some in E as (details & _ & [= <-]). unfold Markup.ErrorState.
  destruct (plain_map (λ d, plain "li" [] [Txt d]) details) as [H1 H2]; [done|].
  apply c_plain; bare; destruct details as [|d ds], retry, (view_archive view);
    unfold plain in *; cbn in *; rewrite ?H1, ?H2, ?flat_map_app, ?icon_ids, ?icon_named; reflexivity.
Qed.
Lemma composed_skeleton rows : composed_here (Skeleton t rows).
Proof. exact (c_feedback t icon toLowerCase _ None rows (mkErrorView [] [] [] [] false) [] false None SkeletonRows). Qed.
Lemma composed_query {A} rows retry (result : QueryResult A) r : query_parts t icon locale rows retry result = Some r → composed_here r.
Proof.
  unfold query_parts. intros E. apply bind_Some in E as (error & Ee & [= <-]).
  apply c_both; [destruct (q_pending result); [apply composed_skeleton|apply c_nothing]|].
  destruct (q_error result); [by eapply composed_error|injection Ee as <-; apply c_nothing].
Qed.
Lemma composed_pill value label : composed_here (StatusPill toLowerCase value label).
Proof. apply c_StatusPill. Qed.
Lemma composed_two a b : composed_here (both (pill toLowerCase a) (pill toLowerCase b)).
Proof. apply c_both; apply c_StatusPill. Qed.
Lemma composed_if (b : bool) r : composed_here r → composed_here (if b then r else nothing).
Proof. destruct b; [done|intros _; apply c_nothing]. Qed.
Lemma composed_map {A} (f : A → Render) l : (∀ x, composed_here (f x)) → composed_here (all (map f l)).
Proof. intros Hf. apply all_composed, Forall_fmap, Forall_forall. intros x _. apply Hf. Qed.

Lemma composed_node entry r : process_node t icon toLowerCase formatDateTime entry = Some r → composed_here r.
Proof.
  destruct entry as [node depth]. unfold process_node. intros E. apply bind_Some in E as (time & _ & [= <-]).
  apply c_around; [|bare; by destruct (depth =? 0)..]. apply c_element, c_both; apply composed_if, composed_pill.
Qed.
Lemma composed_tree nodes r : ProcessTreeView t icon toLowerCase formatDateTime nodes = Some r → composed_here r.
Proof.
  unfold ProcessTreeView. destruct (process_rows nodes) as [|entry rows]; [intros [= <-]; apply c_EmptyState, c_nothing|].
  intros E. apply bind_Some in E as (drawn & E & [= <-]). apply c_element, all_composed, (rows_composed _ _ _ E), composed_node.
Qed.

Lemma composed_payload payload viewer : composed_here (RawPayloadViewer t icon toLowerCase payload viewer).
Proof.
  assert (∀ query line, ids (payload_line toLowerCase query line) = [] ∧ named (payload_line toLowerCase query line) = []) as Hl
    by (intros query line; unfold payload_line, highlighted; destruct (highlight toLowerCase line query) as [text [[mark after]|]]; by bare).
  destruct (plain_map (payload_line toLowerCase (pv_query viewer)) (payload_lines payload)) as [H1 H2]; [apply Hl|].
  unfold RawPayloadViewer, payload_pre. apply c_plain; bare; destruct (pv_copied viewer); rewrite ?icon_ids, ?icon_named; cbn; by rewrite ?H1, ?H2.
Qed.

Lemma composed_event_section group section : composed_here (event_section group section).
Proof.
  destruct section as [[title subtitle] items]. apply c_DetailLedgerSection; [|apply c_nothing].
  change (composed_here (all (map fact (fact_items group items)))). apply all_composed, Forall_fmap, Forall_forall.
  unfold fact_items. intros item (i & x & -> & _)%elem_of_lookup_imap. apply c_fact. unfold fact_value.
  destruct (_ && _); by apply c_plain.
Qed.
Lemma composed_back to text : composed_here (back_link icon to text).
Proof. apply c_plain; bare. Qed.
Ltac pieces := cbn [all]; repeat (apply c_both; [|]); try apply c_nothing.

Lemma composed_event detail viewer tree r : composed_here tree →
  EventDetail t icon toLowerCase formatDateTime locale detail viewer tree = Some r → composed_here r.
Proof.
  intros Ht. unfold EventDetail. intros E. apply bind_Some in E as (occurred & _ & E). apply bind_Some in E as (ingested & _ & E).
  apply bind_Some in E as (groups & _ & E). apply (inj Some) in E as <-. pieces.
  - apply c_PageHeader, composed_two.
  - apply c_plain; bare.
  - apply c_DetailLedger, all_composed, Forall_app. split; [apply Forall_lookup; intros i x (group & section & -> & _)%lookup_zip_with_Some; apply composed_event_section|].
    repeat (apply Forall_cons; split); [| |apply Forall_nil_2].
    + apply c_DetailLedgerSection; [|apply c_nothing]. cbn. pieces; by apply c_fact, c_plain.
    + apply c_DetailLedgerSection; [apply c_nothing|]. apply c_both; [apply c_element, composed_pill|done].
  - apply composed_payload.
Qed.

Lemma event_page_composed eventId p result tree viewer r :
  event_page t icon toLowerCase formatDateTime locale eventId p result tree viewer = Some r → composed_here r.
Proof.
  unfold event_page. destruct (_ && _).
  - intros E. apply bind_Some in E as (error & Ee & E). apply bind_Some in E as (detail & Ed & [= <-]). apply c_element. pieces; [apply composed_back|..].
    + apply composed_if, composed_skeleton.
    + destruct (q_error result); [by eapply composed_error|injection Ee as <-; apply c_nothing].
    + destruct (q_data result); [|injection Ed as <-; apply c_nothing]. apply bind_Some in Ed as (drawn & Et & Ed).
      eapply composed_event; [|exact Ed]. unfold tree_part in Et.
      destruct tree as [|failure|nodes [failure|]]; first [by eapply composed_error|by eapply composed_tree|injection Et as <-; apply composed_skeleton].
  - intros [= <-]. apply c_element. pieces; [apply composed_back|apply c_EmptyState, c_nothing|apply c_plain; bare].
Qed.

Lemma composed_triage_row current p item r : triage_row t toLowerCase formatDateTime detectionTitle current p item = Some r → composed_here r.
Proof.
  unfold triage_row. intros E. apply bind_Some in E as (title & _ & E). apply bind_Some in E as (detected & _ & [= <-]).
  apply c_around2; [apply composed_pill..| |]; bare.
Qed.
Lemma composed_triage_queue page queueResult r :
  triage_queue t icon toLowerCase formatDateTime locale detectionTitle page queueResult = Some r → composed_here r.
Proof.
  unfold triage_queue. intros E. apply bind_Some in E as (feedback & Ef & E). apply bind_Some in E as (rows & Er & [= <-]).
  apply c_Panel; [apply c_nothing|]. apply c_both; [by eapply composed_query|]. destruct (_ && _); [|apply c_nothing].
  apply c_element, c_both; [apply all_composed, (rows_composed _ _ _ Er), composed_triage_row|].
  destruct (activeQueue page); [apply c_EmptyState|]; apply c_nothing.
Qed.
Lemma composed_cleared page : composed_here (queue_cleared t icon page).
Proof. apply composed_if, c_plain; bare. Qed.

Lemma step_bare index step : ids (evidence_step icon index step) = [] ∧ named (evidence_step icon index step) = [].
Proof. unfold evidence_step. destruct (step_to step) as [to|]; [destruct (truthy to)|]; by bare. Qed.
Lemma steps_bare steps i : ids_in (imap (λ k, evidence_step icon (i + k)%nat) steps) = [] ∧ named_in (imap (λ k, evidence_step icon (i + k)%nat) steps) = [].
Proof.
  revert i. induction steps as [|step steps IH]; intros i; [done|]. cbn [imap flat_map]. destruct (step_bare (i + 0)%nat step) as [-> ->].
  cbn [app]. rewrite (imap_ext _ (λ k, evidence_step icon (S i + k)%nat)); [apply (IH (S i))|]. intros k x _. cbn. by rewrite Nat.add_succ_r.
Qed.
Lemma composed_chain steps : composed_here (evidence_chain t icon toLowerCase steps).
Proof.
  destruct (steps_bare steps 0%nat) as [H1 H2]. change (imap _ steps) with (imap (evidence_step icon) steps) in H1, H2.
  apply c_around; [apply composed_pill|bare; by rewrite H1, ?app_nil_r|bare; by rewrite H2, ?app_nil_r].
Qed.
Lemma composed_note page r : mutation_note t icon locale page = Some r → composed_here r.
Proof.
  unfold mutation_note. destruct (mutation page); first [by apply composed_error|intros [= <-]; first [apply c_nothing|apply c_plain; bare]].
Qed.
Lemma composed_connected incidents r : connected_incidents t icon toLowerCase formatDateTime detectionTitle incidents = Some r → composed_here r.
Proof.
  unfold connected_incidents. destruct incidents as [|incident incidents]; [intros [= <-]; apply c_EmptyState, c_nothing|].
  intros E. apply bind_Some in E as (rows & E & [= <-]). apply c_element, all_composed, (rows_composed _ _ _ E). intros item row Hrow.
  unfold connected_incident in Hrow. repeat (apply bind_Some in Hrow as (? & _ & Hrow)). injection Hrow as <-. apply c_around2; [apply composed_pill..| |]; bare.
Qed.
Lemma composed_source sourceEvent link r : source_event t icon formatDateTime sourceEvent link = Some r → composed_here r.
Proof.
  destruct sourceEvent, link as [[to name]|]; cbn; try (intros [= <-]; apply c_EmptyState, c_nothing).
  intros E. apply bind_Some in E as (occurred & _ & [= <-]). by apply c_plain.
Qed.
Lemma composed_facts alert facts : alert_facts t formatDateTime detectionRuleName alert = Some facts → composed_here (all (map fact facts)).
Proof.
  unfold alert_facts. intros E. apply bind_Some in E as (rule & _ & E). apply bind_Some in E as (updated & _ & [= <-]).
  cbn. pieces; by apply c_fact, c_plain.
Qed.
Lemma composed_guidance steps : composed_here (guidance_list t icon steps).
Proof.
  destruct steps as [|step steps]; [apply c_EmptyState, c_nothing|]. apply c_element, composed_map. intros [[[order title] manual] description].
  apply c_around; [destruct manual; [by apply c_Badge, c_plain|apply c_nothing]|bare..].
Qed.
Lemma composed_decision canUpdate page status d : composed_here (decision_panel t icon toLowerCase canUpdate page status d).
Proof.
  apply c_Panel; [apply c_nothing|]. destruct canUpdate; apply c_element, c_both.
  - by apply c_Field, c_plain.
  - apply c_plain; bare.
  - apply composed_pill.
  - by apply c_plain.
Qed.

Lemma composed_detail canUpdate page queueResult detail drawn :
  AlertDetail t icon toLowerCase formatDateTime locale detectionTitle detectionRuleName detectionSummary canUpdate page queueResult detail = Some drawn →
  composed_here drawn.
Proof.
  unfold AlertDetail. cbv zeta. intros E. repeat (apply bind_Some in E as (? & ? & E)). injection E as <-.
  apply c_both; [apply composed_cleared|]. apply c_element, c_both; [by eapply composed_triage_queue|]. apply c_element. pieces.
  - apply c_PageHeader, composed_two.
  - apply composed_chain.
  - by eapply composed_note.
  - apply c_DetailLedger. pieces; apply c_DetailLedgerSection;
      first [apply c_nothing|by eapply composed_source|by eapply composed_connected|by eapply composed_facts].
  - apply c_element, c_both; [|apply composed_decision]. apply c_Panel; [apply c_nothing|apply composed_guidance].
Qed.

Lemma alert_page_composed valid canUpdate page result queueResult drawn :
  alert_page t icon toLowerCase formatDateTime locale detectionTitle detectionRuleName detectionSummary valid canUpdate page result queueResult = Some drawn →
  composed_here drawn.
Proof.
  unfold alert_page. destruct valid; cbn [negb]; [|apply composed_error].
  intros E. apply bind_Some in E as (feedback & Ef & E). apply bind_Some in E as (r & Ed & [= <-]). apply c_element. cbn [all].
  apply c_both; [apply composed_back|]. apply c_both; [by eapply composed_query|]. apply c_both; [|apply c_nothing].
  destruct (q_data result) as [detail|]; [by eapply composed_detail|injection Ed as <-; apply c_nothing].
Qed.
End labels.

(** ** Examples *)

#[local] Existing Instance sample_supply.
Definition sample_detail : AlertDetailDto := mkAlertDetail (sample_alert 7 Alert_OPEN) None [] [].
(** The analyst has chosen RESOLVED for a loaded alert without a next one. *)
Definition sample_triage : TriagePage := mkTriage 7 [] (Some Alert_OPEN) (Some Alert_RESOLVED) [] true MIdle.
#[local] Abbreviation sample_page :=
  (alert_page sample_t (λ _, []) id (λ time, Some (default [] time)) EN (λ s _, Some s) (λ s _, Some s) (λ s _, Some s) true true sample_triage
     (QData sample_detail None) (QData tt None)).

Lemma triage_buttons_act_witness :
  ∃ drawn, sample_page = Some drawn ∧
    ∃ saves submits, flat_map buttons (drawn 0%nat).1 = [(u! "alert.saveStatus", saves); (u! "alert.submitNext", submits)] ∧ saves = true ∧ submits = true ∧
    (triage_step true true sample_triage SaveStatus).2 = [UpdateAlert 7 Alert_RESOLVED].
Proof.
  destruct sample_page as [drawn|] eqn:E; [|vm_compute in E; discriminate E].
  exists drawn. split; [reflexivity|].
  destruct (triage_buttons_act sample_t (λ _, []) id (λ time, Some (default [] time)) EN (λ s _, Some s) (λ s _, Some s) (λ s _, Some s)
    (λ _, eq_refl) (λ _, eq_refl) true true sample_triage (QData tt None) sample_detail drawn Alert_RESOLVED 0%nat eq_refl eq_refl (NoDup_nil_2) E)
    as (saves & submits & H1 & H2 & H3 & H4 & _).
  exists saves, submits. assert (saves = true) as -> by (apply H2; split; [reflexivity|discriminate]).
  assert (submits = true) as -> by (apply H3; split; [reflexivity|left; discriminate]).
  split; [exact H1|]. split; [reflexivity|]. split; [reflexivity|]. exact H4.
Defined.
