(* ===== verification/ShellView.v ===== *)
(** * The application shell as shown

    Models what frontend/src/components/AppShell.tsx renders over the machine of Shell.v:
    the navigation, the top bar with its breadcrumbs, search, theme, language and account,
    the page's place and the report dialog, with frontend/src/components/ServiceMark.tsx. The
    page, the report and its preview are drawn elsewhere and come in as arguments. *)

From S2P Require Import Prelude JsNumber JsDate WebStorage Url Contracts UrlState I18n Dom Report Shell Ui Markup.

#[local] Open Scope list_scope.
#[local] Open Scope Z_scope.

(** ** What is expected of the router *)

(** A path in small letters that does not end in a slash, or the root. *)
Definition settled_path (p : ustring) : bool :=
  bool_decide (p = [47]) || (forallb (λ c, negb ((65 <=? c) && (c <=? 90))) p && negb (bool_decide (last p = Some 47))).
(** The target of a link without its query string. *)
Definition path_part (to : ustring) : ustring := default [] (head (split_on 63 to)).
Definition below (path p : ustring) : bool := negb (bool_decide (path = [47])) && starts_with (path ++ [47]) p.

(** [NavLink]: a link is active at its own path and, without [end], below it; the root is
    active only at itself. The library's treatment of capital letters and of final slashes
    is left open. *)
Class NavLinks := {
  isActive : bool → ustring → ustring → bool;
  isActive_settled : ∀ exact to p, settled_path p = true →
    isActive exact to p = bool_decide (p = path_part to) || (negb exact && below (path_part to) p);
}.

Section view.
Context `{IdSupply} `{NavLinks}.
Context (t : ustring → TranslationParams → ustring) (icon : ustring → list jsx).
#[local] Abbreviation tr key := (t (u key) []).

(** ** Navigation *)

Definition ServiceMark : jsx :=
  plain "span" [(u! "aria-hidden", u! "true"); cls (u! "service-mark")]
    [plain "svg" [(u! "viewBox", u! "0 0 48 36")]
      [plain "path" [cls (u! "service-mark-ring"); (u! "d", u! "M 34 7 A 13 13 0 1 1 18 6")] [];
       plain "path" [cls (u! "service-mark-aperture"); (u! "d", u! "M 18 6 L 24 12")] [];
       plain "circle" [cls (u! "service-mark-focus"); (u! "cx", u! "24"); (u! "cy", u! "18"); (u! "r", u! "3")] []]].

(** The icon of an item, by its place in the navigation. *)
Definition nav_icon (item : NavigationItem) : ustring :=
  default [] (map_get (nav_to item)
    [(u! "/", u! "MonitorDot"); (u! "/alerts", u! "BellRing"); (u! "/incidents", u! "ShieldCheck"); (u! "/endpoints", u! "Server");
     (u! "/events", u! "Activity"); (u! "/intelligence", u! "Radar"); (u! "/operations", u! "Database"); (u! "/operations/archives", u! "Archive")]).

(** [<NavLink>]; the library marks the active link with [aria-current]. *)
Definition nav_link (compact : bool) (timeScope pathname : ustring) (item : NavigationItem) : jsx :=
  let label := t (nav_labelKey item) [] in
  let to := navigationDestination (nav_to item) timeScope in
  let active := isActive (nav_end item) to pathname in
  plain "a" ((if active then [(u! "aria-current", u! "page")] else [])
      ++ [(u! "aria-label", label);
          cls (trim (u! "nav-item " ++ (if nav_child item then u! "nav-child " else []) ++ (if active then u! "active" else [])))]
      ++ (if compact then [(u! "title", label)] else []) ++ [(u! "href", to)])
    (icon (nav_icon item) ++ [plain "span" [] [Txt label]]).
Definition nav_group (compact : bool) (timeScope pathname : ustring) (group : NavigationGroup) : jsx :=
  plain "section" [cls (u! "nav-group")]
    ((if bool_decide (group_labelKey group = u! "navigation.groupOverview") then [] else [plain "h2" [] [Txt (t (group_labelKey group) [])]])
     ++ map (nav_link compact timeScope pathname) (group_items group)).
Definition compact_label (compact : bool) : ustring := if compact then tr "navigation.expand" else tr "navigation.compact".
Definition mobile_id : ustring := u! "mobile-primary-navigation".
Definition PrimaryNavigation (compact mobile : bool) (timeScope pathname : ustring) : Render :=
  around (λ toggle, [El (u! "div") (if mobile then Some mobile_id else None) [] [cls (u! "navigation-content")]
    ([plain "div" [(u! "aria-label", SERVICE_NAME); cls (u! "brand-mark")]
        [ServiceMark; plain "div" [] [plain "strong" [(u! "title", SERVICE_NAME)] [Txt SERVICE_NAME]]];
      plain "nav" [(u! "aria-label", tr "navigation.primary")] (map (nav_group compact timeScope pathname) NAVIGATION_GROUPS)] ++ toggle)])
    (if mobile then nothing
     else Tooltip (compact_label compact)
       (rendered [plain "button" [(u! "aria-label", compact_label compact); cls (u! "nav-compact"); (u! "type", u! "button")]
          (icon (if compact then u! "PanelLeftOpen" else u! "PanelLeftClose") ++ [plain "span" [] [Txt (compact_label compact)]])])).

Definition breadcrumb (count index : nat) (item : BreadcrumbItem) : jsx :=
  let last := (S index =? count)%nat in
  let here := plain "span" (if last then [(u! "aria-current", u! "page")] else []) [Txt (crumb_label item)] in
  plain "li" [] [match crumb_to item with
                 | Some to => if truthy to && negb last then plain "a" [(u! "href", to)] [Txt (crumb_label item)] else here
                 | None => here
                 end].
Definition Breadcrumbs (items : list BreadcrumbItem) (label : ustring) : jsx :=
  plain "nav" [(u! "aria-label", label); cls (u! "breadcrumbs")]
    [plain "ol" [] (plain "li" [] [plain "a" [(u! "href", u! "/")] [Txt SERVICE_NAME]] :: imap (breadcrumb (length items)) items)].

(** ** The top bar *)

#[local] Abbreviation key_text := (λ key, t key []).
Definition menu_button (open : bool) : jsx :=
  El (u! "button") None [(u! "aria-controls", mobile_id)]
    [(u! "aria-expanded", if open then u! "true" else u! "false"); (u! "aria-label", tr "navigation.toggle");
     cls (u! "mobile-nav-menu icon-button"); (u! "type", u! "button")] (icon (u! "Menu")).
Definition top_title (pathname : ustring) : jsx :=
  let crumbs := buildBreadcrumbs key_text pathname in
  let overviewRoute := bool_decide (pathname = u! "/") in
  plain "div" [cls (u! "top-title" ++ if overviewRoute then u! " service-title" else [])]
    (if overviewRoute then [plain "strong" [(u! "title", SERVICE_NAME)] [Txt SERVICE_NAME]]
     else [Breadcrumbs crumbs (tr "navigation.breadcrumb");
           plain "strong" [] [Txt (default (tr "navigation.console") (crumb_label <$> last crumbs))]]).
Definition search_form (search : ustring) : jsx :=
  plain "form" [cls (u! "global-search"); (u! "role", u! "search")]
    (icon (u! "Search") ++
     [plain "input" [(u! "aria-label", tr "search.aria"); (u! "placeholder", tr "search.placeholder"); (u! "value", search)] []]).
Definition theme_toggle (theme : Theme) : Render :=
  let label := match theme with Dark => tr "theme.switchToLight" | Light => tr "theme.switchToDark" end in
  Tooltip label (rendered [plain "button" [(u! "aria-label", label); cls (u! "icon-button theme-toggle"); (u! "title", label); (u! "type", u! "button")]
    (icon (match theme with Dark => u! "Sun" | Light => u! "Moon" end))]).
Definition locale_control (locale : Locale) (saving error : bool) : Render :=
  around (λ l, [plain "div" [cls (u! "locale-control")] l])
    (both (SelectField (tr "language.label") None None None (u! "locale-selector")
             (flag "disabled" saving ++ [(u! "value", match locale with EN => u! "EN" | KO => u! "KO" end)])
             (rendered [plain "option" [(u! "value", u! "EN")] [Txt (tr "language.english")];
                        plain "option" [(u! "value", u! "KO")] [Txt (tr "language.korean")]]))
          (if error then rendered [plain "span" [cls (u! "locale-error"); (u! "role", u! "alert")] [Txt (tr "language.saveError")]] else nothing)).

(** A value that is missing draws nothing. *)
Definition maybe_text (value : option ustring) : list jsx := match value with Some s => [Txt s] | None => [] end.
Definition account_menu (open : bool) (user : option UserDto) : Render :=
  Popover open (tr "navigation.accountMenu") [] (rendered (icon (u! "CircleUserRound")))
    (both (around (λ badge, [plain "div" [cls (u! "account-summary")]
             (badge ++ [plain "strong" [] (maybe_text (user_name <$> user)); plain "small" [] (maybe_text (user_loginId <$> user))])])
             (Badge "info" [] (rendered (maybe_text (lit_name ∘ user_role <$> user)))))
          (around (λ l, [plain "div" [cls (u! "account-actions")] l])
             (both (Button variant_ghost false false [] [(u! "type", u! "button")] (rendered (icon (u! "Printer") ++ [Txt (tr "report.openAria")])))
                   (Button variant_ghost false false [] [(u! "type", u! "button")] (rendered (icon (u! "LogOut") ++ [Txt (tr "navigation.logout")])))))).
Definition session_summary (s : Shell) (locale : Locale) (accountOpen : bool) (user : option UserDto) : Render :=
  around (λ l, [plain "div" [cls (u! "session-summary")] l])
    (all [theme_toggle (theme s); locale_control locale (localeSaving s) (localeError s); account_menu accountOpen user]).

(** ** The shell *)

(** The place of the page; a page whose code is still being loaded is [None]. *)
Definition main_content (outlet : option Render) : Render :=
  around (λ l, [El (u! "main") (Some (u! "main-content")) [] [cls (u! "main-content"); (u! "tabindex", u! "-1")] l])
    (default (rendered [plain "div" [(u! "aria-label", tr "common.loading"); cls (u! "route-loading"); (u! "role", u! "status")]
                          [plain "span" [] []; Txt (tr "common.loading")]]) outlet).
Definition report_dialog (preview : DashboardReportSnapshot → Render) (s : Shell) : Render :=
  let page := match reportSnapshot s with Some snapshot => ctx_pageTitle (snap_context snapshot) | None => pageTitleText key_text (location s) end in
  Dialog icon (reportOpen s) (t (u! "report.snapshot") [(u! "page", PText page)]) None (tr "report.close") (u! "report-dialog")
    (Some (both (Button variant_ghost false false [] [(u! "type", u! "button")] (text_node (tr "report.cancel")))
                (Button variant_default false false [] [(u! "type", u! "button")] (rendered (icon (u! "Printer") ++ [Txt (tr "report.printSave")])))))
    (match reportSnapshot s with Some snapshot => preview snapshot | None => nothing end).
Definition print_shell (document : DashboardReportSnapshot → Render) (s : Shell) : Render :=
  match reportSnapshot s with
  | Some snapshot => around (λ l, [plain "div" [(u! "aria-hidden", u! "true"); cls (u! "dashboard-report-print-shell")] l]) (document snapshot)
  | None => nothing
  end.

Definition app_shell (document preview : DashboardReportSnapshot → Render) (s : Shell) (locale : Locale) (accountOpen : bool)
  (user : option UserDto) (outlet : option Render) : Render :=
  let p := pathname (location s) in
  around (λ l, [plain "div" [cls (if compact s then u! "app-shell compact" else u! "app-shell")] l])
    (all [rendered [plain "a" [cls (u! "skip-link"); (u! "href", u! "#main-content")] [Txt (tr "navigation.skipToContent")]];
          around (λ l, [plain "aside" [cls (u! "nav-rail desktop-navigation")] l]) (PrimaryNavigation (compact s) false (navigationTime s) p);
          Drawer icon (mobileNavigationOpen s) false (tr "navigation.primary") (tr "navigation.close") None
            (PrimaryNavigation false true (navigationTime s) p);
          around (λ l, [plain "section" [cls (u! "console-shell")] l])
            (all [around (λ session, [plain "header" [cls (u! "top-bar")]
                    ([menu_button (mobileNavigationOpen s); top_title p; search_form (search s)] ++ session)])
                    (session_summary s locale accountOpen user);
                  main_content outlet; print_shell document s; report_dialog preview s])]).
End view.

(** ** Where the navigation stands *)

(** The links of a tree: their label, target, and whether they are marked as the current page. *)
Fixpoint anchors (j : jsx) : list (ustring * ustring * bool) :=
  match j with
  | Txt _ => []
  | El tag _ _ attrs children =>
    (if bool_decide (tag = u! "a")
     then [(default [] (map_get (u! "aria-label") attrs), default [] (map_get (u! "href") attrs), map_has (u! "aria-current") attrs)] else [])
    ++ flat_map anchors children
  end.

(** The page of an item, or one below it that has an identifier. *)
Definition opens (item : NavigationItem) (id : option ustring) (p : ustring) : Prop :=
  match id with
  | None => p = nav_to item
  | Some s => nav_end item = false ∧ p = nav_to item ++ [47] ++ s
  end.
Definition active_here (p : ustring) (item : NavigationItem) : bool :=
  bool_decide (p = nav_to item) || (negb (nav_end item) && below (nav_to item) p).

Lemma every_item (P : NavigationItem → Prop) item : Forall P NAVIGATION_ITEMS → item ∈ NAVIGATION_ITEMS → P item.
Proof. rewrite Forall_forall. auto. Qed.
Ltac each_item := repeat (apply Forall_cons; split); try apply Forall_nil_2.

Lemma item_path item scope : item ∈ NAVIGATION_ITEMS → path_part (navigationDestination (nav_to item) scope) = nav_to item.
Proof.
  apply (every_item (λ item, path_part (navigationDestination (nav_to item) scope) = nav_to item)). each_item; vm_compute; reflexivity.
Qed.

Lemma opens_active item id p : item ∈ NAVIGATION_ITEMS → opens item id p → js_filter (active_here p) NAVIGATION_ITEMS = [item].
Proof.
  apply (every_item (λ item, opens item id p → js_filter (active_here p) NAVIGATION_ITEMS = [item])).
  each_item; destruct id as [s|]; cbn [opens nav_end nav_to]; first [intros [? _]; discriminate|intros [_ ->]|intros ->]; vm_compute; reflexivity.
Qed.

Lemma active_opens p item : item ∈ js_filter (active_here p) NAVIGATION_ITEMS → item ∈ NAVIGATION_ITEMS ∧ ∃ id, opens item id p.
Proof.
  intros [Hin Hp]%js_filter_elem. split; [done|]. unfold active_here in Hp. apply orb_prop in Hp as [Hp|Hp].
  - exists None. by apply bool_decide_eq_true in Hp.
  - apply andb_prop in Hp as [He Hb]. apply andb_prop in Hb as [_ Hb]. apply starts_with_app in Hb as [r ->].
    exists (Some r). split; [by destruct (nav_end item)|]. by rewrite <- app_assoc.
Qed.

(** The text a page below an item is titled with. *)
Definition item_title (t : ustring → ustring) (item : NavigationItem) (id : option ustring) : ustring :=
  match id with
  | None => t (nav_labelKey item)
  | Some s => drop_final_s (t (nav_labelKey item)) ++ u! " #" ++ default [] (head (split_on 47 s))
  end.
Lemma opens_title t item id p query : item ∈ NAVIGATION_ITEMS → opens item id p → pageTitleText t (mkLocation p query) = item_title t item id.
Proof.
  apply (every_item (λ item, opens item id p → pageTitleText t (mkLocation p query) = item_title t item id)).
  each_item; destruct id as [s|]; cbn [opens nav_end nav_to]; first [intros [? _]; discriminate|intros [_ ->]|intros ->]; vm_compute; reflexivity.
Qed.

Lemma js_filter_map_eq {A B} (q : B → bool) (r : A → bool) (f : A → B) l :
  (∀ x, x ∈ l → q (f x) = r x) → js_filter q (map f l) = map f (js_filter r l).
Proof.
  induction l as [|x l IH]; intros Hf; [done|]. cbn [map]. rewrite !js_filter_cons, Hf, IH by set_solver. by destruct (r x).
Qed.

Section oriented.
Context `{IdSupply} `{NavLinks}.
Context (t : ustring → TranslationParams → ustring) (icon : ustring → list jsx).
(** The library's icons contain no links. *)
Hypothesis icon_anchors : ∀ name, flat_map anchors (icon name) = [].

Definition nav_entry (scope p : ustring) (item : NavigationItem) : ustring * ustring * bool :=
  let to := navigationDestination (nav_to item) scope in (t (nav_labelKey item) [], to, isActive (nav_end item) to p).

Lemma nav_link_anchors compact scope p item : anchors (nav_link t icon compact scope p item) = [nav_entry scope p item].
Proof.
  unfold nav_link, nav_entry. cbn zeta. unfold plain. cbn [anchors]. rewrite bool_decide_true by done.
  rewrite flat_map_app, icon_anchors. by destruct compact, (isActive _ _ _).
Qed.
Lemma nav_groups_anchors compact scope p groups :
  flat_map anchors (map (nav_group t icon compact scope p) groups) = map (nav_entry scope p) (flat_map group_items groups).
Proof.
  induction groups as [|group groups IH]; [done|]. cbn [map flat_map]. rewrite map_app, <- IH. f_equal.
  unfold nav_group, plain. cbn [anchors app]. rewrite bool_decide_false by (vm_compute; discriminate). cbn [app]. rewrite flat_map_app.
  replace (flat_map anchors (if bool_decide _ then _ else _)) with (@nil (ustring * ustring * bool)) by (by destruct (bool_decide _)). cbn [app].
  induction (group_items group) as [|item items IHi]; [done|]. cbn [map flat_map]. by rewrite nav_link_anchors, IHi.
Qed.
Lemma navigation_drawn compact mobile scope p n :
  flat_map anchors (PrimaryNavigation t icon compact mobile scope p n).1 = map (nav_entry scope p) NAVIGATION_ITEMS.
Proof.
  change NAVIGATION_ITEMS with (flat_map group_items NAVIGATION_GROUPS). unfold PrimaryNavigation.
  rewrite <- (nav_groups_anchors compact). generalize (map (nav_group t icon compact scope p) NAVIGATION_GROUPS). intros groups.
  destruct mobile; cbn; [by rewrite !app_nil_r|]. rewrite flat_map_app, icon_anchors. cbn. by rewrite !app_nil_r.
Qed.

(** The navigation shows where the user is. Whatever the width of the navigation, it
    draws a link for every item in order, with the item's label and a target that carries
    the time scope where the page has one. On the page of an item, and on the pages below
    an item that has details, exactly this item's link is marked as current, and the title
    of the page is the item's label, with the identifier for a detail; on every other page
    no link is marked. *)
Theorem navigation_oriented compact mobile scope p query n (Hp : settled_path p = true) :
  let drawn := flat_map anchors (PrimaryNavigation t icon compact mobile scope p n).1 in
  fst <$> drawn = (λ item, (t (nav_labelKey item) [], navigationDestination (nav_to item) scope)) <$> NAVIGATION_ITEMS ∧
  (∀ item id, item ∈ NAVIGATION_ITEMS → opens item id p →
     js_filter snd drawn = [(t (nav_labelKey item) [], navigationDestination (nav_to item) scope, true)] ∧
     pageTitleText (λ key, t key []) (mkLocation p query) = item_title (λ key, t key []) item id) ∧
  ((∀ item id, item ∈ NAVIGATION_ITEMS → ¬ opens item id p) → js_filter snd drawn = []).
Proof.
  intros drawn. unfold drawn. rewrite navigation_drawn.
  assert (js_filter snd (map (nav_entry scope p) NAVIGATION_ITEMS) = map (nav_entry scope p) (js_filter (active_here p) NAVIGATION_ITEMS)) as Hf.
  { apply js_filter_map_eq. intros item Hin. cbn. by rewrite isActive_settled, item_path. }
  split; [|split].
  - by rewrite map_map.
  - intros item id Hin Ho. rewrite Hf, (opens_active item id p Hin Ho). split; [|by apply opens_title].
    cbn [map]. unfold nav_entry. rewrite isActive_settled, item_path by done.
    assert (item ∈ js_filter (active_here p) NAVIGATION_ITEMS) as [_ E]%js_filter_elem by (rewrite (opens_active item id p Hin Ho); by left).
    unfold active_here in E. by rewrite E.
  - intros Hno. rewrite Hf. destruct (js_filter (active_here p) NAVIGATION_ITEMS) as [|item rest] eqn:E; [done|].
    destruct (active_opens p item) as (Hin & id & Ho); [rewrite E; by left|]. by destruct (Hno item id Hin).
Qed.
End oriented.

(** ** Examples *)

#[local] Existing Instance sample_supply.
#[export] Program Instance reference_links : NavLinks :=
  {| isActive exact to p := bool_decide (p = path_part to) || (negb exact && below (path_part to) p) |}.
Next Obligation. done. Qed.

Definition sample_texts (key : ustring) (params : TranslationParams) : ustring := if bool_decide (key = u! "navigation.alerts") then u! "Alerts" else key.

Lemma navigation_oriented_witness :
  js_filter snd (flat_map anchors (PrimaryNavigation sample_texts (λ _, []) false false (u! "timePreset=LATEST_1H") (u! "/alerts/7") 0%nat).1) =
    [(u! "Alerts", u! "/alerts?timePreset=LATEST_1H", true)] ∧
  pageTitleText (λ key, sample_texts key []) (mkLocation (u! "/alerts/7") []) = u! "Alert #7".
Proof.
  destruct (navigation_oriented sample_texts (λ _, []) (λ _, eq_refl) false false (u! "timePreset=LATEST_1H") (u! "/alerts/7") [] 0%nat eq_refl)
    as (_ & H1 & _).
  destruct (H1 (mkNavItem (u! "/alerts") (u! "navigation.alerts") false false) (Some (u! "7"))) as [E1 E2].
  - vm_compute. right. left.
  - split; reflexivity.
  - rewrite E1, E2. split; vm_compute; reflexivity.
Defined.

(** The router opens the same page for a path with a final slash or with capital letters;
    the title is then that of a detail without identifier, or of no page at all. *)
Example slash_is_detail : pageTitleText (λ key, sample_texts key []) (mkLocation (u! "/alerts/") []) = u! "Alert #".
Proof. vm_compute. reflexivity. Qed.
Example capitals_are_unknown : pageTitleText (λ key, sample_texts key []) (mkLocation (u! "/Alerts") []) = u! "navigation.console".
Proof. vm_compute. reflexivity. Qed.

(** While the menu is closed, its button names an element that is not in the page. *)
Definition drawn_shell (s : Shell) : list jsx :=
  (app_shell sample_texts (λ _, []) (λ _, nothing) (λ _, nothing) s EN false None None 0%nat).1.
Definition closed_shell : Shell := mount (H := utc_host) sample_storage sample_location [].
Example menu_controls_nothing :
  mobile_id ∈ named_in (drawn_shell closed_shell) ∧ mobile_id ∉ ids_in (drawn_shell closed_shell) ∧
  mobile_id ∈ ids_in (drawn_shell (setMobile closed_shell true)).
Proof. split; [|split]; apply (bool_decide_unpack _); vm_compute; exact I. Qed.
