(* ===== verification/OperationsView.v ===== *)
(** * The operations page as shown

    Models what frontend/src/pages/OperationsPage.tsx renders over Operations.v: the
    filters of the failure list as controls, the health of services and workers, the
    collection path and the snapshot of the pipeline, the ingest figures and the failure
    list, as trees of the shared components. *)

From S2P Require Import Prelude JsNumber JsDate Json Url Contracts ApiClient UrlState ListPages Dom I18n Topology Intelligence Operations EndpointPage Ui Markup ListViews DetailViews.

#[local] Open Scope list_scope.
#[local] Open Scope Z_scope.

(** [["true", "false"]] *)
#[local] Instance bool_literal : Literal bool.
Proof. refine {| lit_name (b : bool) := if b then u! "true" else u! "false"; lit_values := [true; false] |}; literal_laws. Defined.

Section view.
Context `{DateHost} `{IdSupply}.
Context (displayLocale : Locale) (icon : ustring → list jsx) (toLowerCase : ustring → ustring) (mediumDateTime : Locale → Z → ustring)
  (now : Z).
(** The texts of the page (none is missing, I18n.v) and of the dates, which throw when they
    cannot be read. *)
Definition page_text (key : string) (params : TranslationParams) : ustring := default [] (translate displayLocale key params).
Definition page_date (time : option ustring) : option ustring := I18n.formatDateTime mediumDateTime displayLocale time.
#[local] Abbreviation t := page_text.
#[local] Abbreviation human := (humanize toLowerCase).
#[local] Abbreviation pill := (pill toLowerCase).

(** ** Filters *)

Definition failure_select (key : string) (label : ustring) (options : list (ustring * ustring)) (params : URLSearchParams) (value : ustring) : Control :=
  mkControl (u key) label None (Some options) false [] (Some value) (λ v, Some (onFailureFilter (u key) params v)).
Definition status_control (params : URLSearchParams) : Control :=
  failure_select "failureStatus" (t "operations.failureStatus" [])
    ((u! "", t "filter.allStatuses" []) :: map (λ s, (lit_name s, lit_name s)) FAILURE_STATUSES) params (from_option lit_name [] (failureStatus params)).
Definition stage_control (params : URLSearchParams) : Control :=
  mkControl (u! "failureStage") (t "operations.stage" []) None None false [placeholder (u! "detection")]
    (Some (default [] (params_get params (u! "failureStage")))) (λ v, Some (onFailureFilter (u! "failureStage") params v)).
Definition retryable_control (params : URLSearchParams) : Control :=
  failure_select "retryable" (t "operations.retryable" [])
    [(u! "", t "operations.all" []); (u! "true", t "operations.retryable" []); (u! "false", t "operations.notRetryable" [])] params
    (from_option lit_name [] (retryable params)).
Definition failure_controls (params : URLSearchParams) : list Control := [status_control params; stage_control params; retryable_control params].

Definition operations_filters (params : URLSearchParams) : option Render :=
  time ← TimeFilterFields t page_date variant_select None params;
  fields ← control_fields (failure_controls params);
  Some (GlobalFilterBar t icon (negb (bool_decide (params = []))) (both time fields)).

(** ** The pipeline *)

Definition head_row (columns : list Render) : Render := around (λ l, [plain "thead" [] l]) (around (λ l, [plain "tr" [] l]) (all columns)).
Definition body (rows : list Render) : Render := around (λ l, [plain "tbody" [] l]) (all rows).
Definition table_row (cells : list Render) : Render := around (λ l, [plain "tr" [] l]) (all (map td cells)).
Definition table_code (text : ustring) : jsx := plain "code" [cls (u! "table-code")] [Txt text].
#[local] Abbreviation th_t key := (th (t key [])).

Definition path_icons : list ustring :=
  [u! "MonitorDot"; u! "ShieldCheck"; u! "Server"; u! "Radio"; u! "Cpu"; u! "Database"; u! "Radio"; u! "Cpu"; u! "Database"].
Definition path_row (index : nat) (entry : ustring * PathNode) : Render :=
  let '(icon_name, node) := entry in
  rendered [plain "tr" []
    [plain "td" [cls (u! "collection-path-index")] [Txt (pad2 (Z.of_nat index + 1))];
     plain "td" [] [plain "span" [cls (u! "collection-path-stage")]
       [plain "i" [(u! "aria-hidden", u! "true")] (icon icon_name); plain "strong" [] [Txt (path_label node)]]];
     plain "td" [] [plain "span" [cls (u! "collection-path-state tone-" ++ tone_of toLowerCase (path_status node))] [Txt (human (path_status node))]];
     plain "td" [] [Txt (path_detail node)]]].
Definition path_board (health : OperationsHealthDto) : option Render :=
  nodes ← CollectionPath displayLocale toLowerCase health;
  Some (around (λ l, [plain "section" [(u! "aria-label", t "operations.collectionPath" []); cls (u! "collection-path-board")] l])
    (all [around (λ status, [plain "header" [] (plain "div" [] [plain "span" [] [Txt (t "operations.collectionPath" [])];
              plain "strong" [] [Txt (t "operations.collectionPathSubtitle" [])]] :: status)]) (pill (lit_name (health_status health)));
          DataTable t (t "operations.collectionPath" []) None false []
            (both (head_row [th (u! "#"); th_t "operations.stage"; th_t "filter.status"; th_t "operations.brokerState"])
                  (body (imap path_row (zip path_icons nodes))));
          rendered [plain "p" [] [Txt (t "operations.collectionPathCaveat" [])]]])).

Definition stage_name (id : PipelineStageId) : ustring :=
  t (match id with COLLECTION => "operations.stageCOLLECTION" | DETECTION => "operations.stageDETECTION" | STORAGE => "operations.stageSTORAGE" end) [].
Definition stage_item (entry : PipelineSnapshotStage * option (ustring * ustring)) : option jsx :=
  let '(stage, details) := entry in
  let tone := u! "tone-" ++ toLowerCase (lit_name (stage_status stage)) in
  '(primary, secondary) ← details;
  Some (plain "li" [cls tone]
    [plain "span" [cls (u! "pipeline-stage-name")] [Txt (stage_name (stage_id stage))];
     plain "strong" [cls (u! "pipeline-stage-state " ++ tone)] [Txt (human (lit_name (stage_status stage)))];
     plain "strong" [] [Txt primary]; plain "small" [] [Txt secondary]]).
Definition snapshot_panel (health : OperationsHealthDto) (ingest : IngestSummaryDto) : option Render :=
  board ← path_board health;
  stages ← mapM stage_item (PipelineSnapshot displayLocale mediumDateTime health ingest);
  checked ← page_date (Some (health_checkedAt health));
  Some (Panel (t "operations.currentPipelineSnapshot" []) (Some (t "operations.currentPipelineSnapshotSubtitle" [])) (Some (pill (lit_name (health_status health))))
    (u! "pipeline-snapshot-panel")
    (both board (rendered
      [plain "div" [cls (u! "pipeline-section-label")] [plain "span" [] [Txt (t "operations.problemSummary" [])]; small (t "operations.problemSummaryDescription" [])];
       plain "ol" [(u! "aria-label", t "operations.currentPipelineSnapshot" []); cls (u! "pipeline-snapshot")] stages;
       plain "p" [cls (u! "snapshot-caveat")] [Txt (t "operations.snapshotCaveat" [(u! "time", PText checked)])]]))).

(** ** Health *)

Definition service_row (service : ServiceHealthDto) : option Render :=
  detail ← operationsDetail displayLocale (svc_detail service);
  Some (table_row [rendered [plain "strong" [] [Txt (svc_service service)]];
    rendered [plain "span" [cls (u! "service-state-text tone-" ++ toLowerCase (lit_name (svc_status service)))] [Txt (human (lit_name (svc_status service)))]];
    text_cell (string_of_num (svc_latencyMs service) ++ u! " ms"); text_cell detail]).
Definition known_count (count : option Z) : ustring := match count with Some n => string_of_Z n | None => t "operations.unknown" [] end.
Definition worker_row (worker : PipelineWorkerDto) : option Render :=
  detail ← operationsDetail displayLocale (worker_detail worker);
  Some (table_row [rendered [plain "strong" [] [Txt (worker_worker worker)]; table_code (worker_groupId worker)];
    rendered [plain "code" [] [Txt (worker_topic worker)]]; pill (lit_name (worker_status worker)); text_cell (known_count (worker_memberCount worker));
    text_cell (known_count (worker_lag worker)); text_cell detail]).
Definition LiveHealth (data : OperationsHealthDto) : option Render :=
  checked ← page_date (Some (health_checkedAt data));
  services ← mapM service_row (health_services data); workers ← mapM worker_row (health_workers data);
  Some (all [around (λ status, [plain "section" [cls (u! "health-summary tone-" ++ toLowerCase (lit_name (health_status data))); (u! "aria-live", u! "polite")]
         [plain "div" [] (icon (u! "Radio") ++ [plain "span" [] [Txt (t "operations.liveControlPlane" [])]] ++ status);
          small (t "operations.checked" [(u! "time", PText checked)])]]) (pill (lit_name (health_status data)));
       Panel (t "operations.serviceHealth" []) (Some (t "operations.serviceHealthSubtitle" [])) None []
         (DataTable t (t "operations.serviceHealth" []) None false []
            (both (head_row [th (u! "Service"); th_t "filter.status"; th (u! "Latency"); th_t "operations.brokerState"])
                  (body services)));
       Panel (t "operations.pipelineWorkers" []) (Some (t "operations.pipelineWorkersSubtitle" [])) None []
         (DataTable t (t "operations.pipelineWorkerHealth" []) None false []
            (both (head_row [th (u! "Worker"); th (u! "Topic"); th_t "filter.status"; th_t "operations.members"; th (u! "Lag"); th_t "operations.brokerState"])
                  (body workers)))]).

(** ** Ingest and failures *)

Definition card_heads : list (string * string) :=
  [("Database", "operations.ingestedEvents"); ("RefreshCcw", "operations.failed"); ("RefreshCcw", "operations.reprocessed"); ("RefreshCcw", "operations.reprocessFailed")]%string.
Definition tone_string (tone : ustring) : string :=
  if bool_decide (tone = u! "critical") then "critical" else if bool_decide (tone = u! "warning") then "warning" else "neutral".
Definition ingest_card (entry : string * string * IngestCard) : Render :=
  let '(icon_name, label, card) := entry in
  KpiCard icon (t label []) (string_of_Z (card_value card)) (card_detail card) (tone_string (card_tone card)) None (rendered (icon (u icon_name))).
Definition StorageCount (entry : ustring * Z) : jsx :=
  plain "article" [] [plain "span" [] [Txt entry.1]; plain "strong" [] [Txt (string_of_Z entry.2)]].
Definition ingest_content (data : IngestSummaryDto) : option Render :=
  '(cards, storage) ← IngestContent displayLocale mediumDateTime now data;
  Some (all [around (λ l, [plain "section" [cls (u! "kpi-grid operations-kpis")] l]) (all (map ingest_card (zip card_heads cards)));
       Panel (t "operations.storageLifecycle" []) (Some (t "operations.storageSubtitle" [])) None []
         (rendered [plain "section" [cls (u! "storage-grid")] (map StorageCount storage)]);
       Panel (t "operations.boundary" []) (Some (t "operations.boundarySubtitle" [])) None []
         (rendered [plain "div" [cls (u! "boundary-note")] (icon (u! "HardDrive") ++
            [plain "div" [] [plain "strong" [] [Txt (t "operations.noWebReplay" [])]; plain "p" [] [Txt (t "operations.boundaryDescription" [])]]])])]).

Definition failure_row (failure : EventFailureDto) : option Render :=
  failed ← page_date (Some (failure_failedAt failure));
  Some (table_row [rendered [table_code (failure_failureId failure);
      small (u! "Endpoint " ++ string_of_Z (failure_endpointId failure) ++ u! " · offset " ++ string_of_Z (failure_sourcePartition failure) ++ u! ":"
             ++ string_of_Z (failure_sourceOffset failure))];
    rendered [Txt (human (failure_failureStage failure)); small (failure_consumerName failure)]; pill (lit_name (failure_status failure));
    rendered [Txt (if failure_retryable failure then t "operations.retryable" [] else t "operations.no" []);
      small (t "operations.attempts" [(u! "count", number_param (failure_retryCount failure))])];
    rendered [plain "strong" [] [Txt (default (t "operations.uncoded" []) (failure_failureCode failure))]; small (failure_errorMessage failure)];
    text_cell failed]).
Record FailureData := mkFailureData { fd_items : list EventFailureDto; fd_page : Z; fd_size : Z; fd_total : Z }.
Definition failure_panel (params : URLSearchParams) (data : FailureData) : option Render :=
  rows ← mapM failure_row (fd_items data);
  Some (Panel (t "operations.failureQueue" []) (Some (t "operations.failureQueueSubtitle" [])) (Some (pill (u! "READ ONLY"))) []
    (match fd_items data with
     | [] => EmptyState icon (t "operations.noFailureRows" []) (t "operations.noFailureRowsDescription" []) false None
     | _ =>
       both (DataTable t (t "operations.eventFailureQueue" []) None false []
               (both (head_row [th_t "operations.failure"; th_t "operations.stage"; th_t "filter.status"; th_t "operations.retry"; th_t "operations.error";
                                th_t "operations.failedAt"])
                     (body rows)))
            (Pagination t icon (u! "/operations") params (fd_page data) (fd_total data) (fd_size data))
     end)).

(** ** The page *)

Definition skeleton_rows (which : Resource) : nat := match which with HealthResource => 5 | IngestResource | FailuresResource => 8 end.
Definition draw_operations_part (params : URLSearchParams) (health : QueryResult OperationsHealthDto) (ingest : QueryResult IngestSummaryDto)
  (failures : QueryResult FailureData) (part : OperationsPart) : option Render :=
  match part with
  | OSkeleton which => Some (Skeleton t (skeleton_rows which))
  | OError _ error => error_state t icon displayLocale error true false
  | OStale _ error => Some (StaleWarning t icon (error ≫= request_id))
  | OPartial ingestMissing => Some (PartialFailureWarning t icon (if ingestMissing then t "operations.ingestPartial" [] else t "operations.healthPartial" []))
  | OSnapshot => match q_data health, q_data ingest with Some h, Some i => snapshot_panel h i | _, _ => Some nothing end
  | OContent HealthResource => from_option LiveHealth (Some nothing) (q_data health)
  | OContent IngestResource => from_option ingest_content (Some nothing) (q_data ingest)
  | OContent FailuresResource => from_option (failure_panel params) (Some nothing) (q_data failures)
  end.
Definition operations_actions (refreshing : bool) : Render :=
  rendered [plain "button" ([cls (u! "button ghost")] ++ flag "disabled" refreshing ++ [(u! "type", u! "button")])
              (icon (u! "RefreshCcw") ++ [Txt (if refreshing then t "operations.refreshing" [] else t "operations.refreshLive" [])]);
            anchor (Some (u! "button")) (u! "/operations/archives") (icon (u! "Archive") ++ [Txt (t "operations.archiveAction" [])])].
Definition operations_page (params : URLSearchParams) (refreshing : bool) (health : QueryResult OperationsHealthDto) (ingest : QueryResult IngestSummaryDto)
  (failures : QueryResult FailureData) : option Render :=
  filters ← operations_filters params;
  parts ← mapM (draw_operations_part params health ingest failures) (operations_parts health ingest failures);
  Some (around (λ l, [plain "div" [cls (u! "page-stack")] l])
    (all (PageHeader None (t "operations.title" []) None (Some (operations_actions refreshing)) :: filters :: parts))).
End view.

(** ** The filters do what they show *)

Lemma delete_twice k p : params_delete k (params_delete k p) = params_delete k p.
Proof. unfold params_delete. apply js_filter_all. by intros x [_ Hx]%js_filter_elem. Qed.
Lemma failure_change key p value : onFailureFilter key p value = updateParams p [(key, UrlState.PText value)] true.
Proof. unfold onFailureFilter, updateParams. cbn [foldl]. apply delete_twice. Qed.

Lemma retryable_enum p : retryable p = enum_param p (u! "retryable") [true; false].
Proof.
  unfold retryable, enum_param, allowedValue. destruct (params_get p (u! "retryable")) as [v|]; [|done]. cbn [mbind option_bind].
  unfold lit_find. cbn [js_find lit_name bool_literal]. repeat case_bool_decide; congruence.
Qed.

Section filters.
Context `{DateHost}.
Context (displayLocale : Locale).

Lemma rw_failure_select `{Literal A} (allowed : list A) key label everything (shown : A → ustring) (value : URLSearchParams → option A) :
  u key ≠ u! "ruleCode" → forallb (λ a, bool_decide (usv (lit_name a) = lit_name a) && truthy (lit_name a)) allowed = true →
  (∀ p, value p = enum_param p (u key) allowed) →
  reads_and_writes (u key) (λ p, failure_select key label ((u! "", everything) :: map (λ a, (lit_name a, shown a)) allowed) p (from_option lit_name [] (value p))).
Proof.
  intros Hk Hall Hv. eapply (rw_select allowed _ _ (Some everything) _ (λ p, from_option lit_name [] (value p))); [done|done|done|done|..].
  - intros p v. cbn [ct_change failure_select]. by rewrite failure_change.
  - intros p. cbn. f_equal. by rewrite map_map.
  - intros p q E. by rewrite !Hv, (enum_param_reads allowed p q).
  - intros p a Ha Hg. by rewrite Hv, (enum_read p (u key) allowed a).
  - intros _ p Hg. rewrite Hv. unfold enum_param. by rewrite Hg.
Qed.

Lemma rw_status : reads_and_writes (u! "failureStatus") (status_control displayLocale).
Proof. by apply (rw_failure_select FAILURE_STATUSES). Qed.
Lemma rw_retryable : reads_and_writes (u! "retryable") (retryable_control displayLocale).
Proof.
  exact (rw_failure_select [true; false] "retryable" (page_text displayLocale "operations.retryable" []) (page_text displayLocale "operations.all" [])
    (λ b : bool, if b then page_text displayLocale "operations.retryable" [] else page_text displayLocale "operations.notRetryable" []) retryable
    ltac:(done) eq_refl retryable_enum).
Qed.
Lemma rw_stage : reads_and_writes (u! "failureStage") (stage_control displayLocale).
Proof. eapply (rw_input _ _ (λ v, v)); try done. intros p v. cbn [ct_change stage_control]. by rewrite failure_change. Qed.

(** The texts the request for the failures carries, in the order of the controls. *)
Definition failure_shown (query : FailureListQuery) : list ustring :=
  [from_option lit_name [] (fq_status query); default [] (fq_failureStage query); from_option lit_name [] (fq_retryable query)].

(** The filters of the failure list show what its request asks for, whatever the query
    string; choosing or typing changes the request to what the control then shows, leaves
    the other filters and the time as they are, and starts at the first page. *)
Theorem failure_filters_faithful p c value (Hc : c ∈ failure_controls displayLocale p) (Ho : offered c value) :
  ∃ next, ct_change c value = Some next ∧
    (λ control, ct_value control) <$> failure_controls displayLocale next = Some <$> failure_shown (failureQuery next) ∧
    (∃ c', c' ∈ failure_controls displayLocale next ∧ ct_key c' = ct_key c ∧ ct_value c' = Some value) ∧
    (∀ c2, c2 ∈ failure_controls displayLocale p → ct_key c2 ≠ ct_key c →
       ∃ c2', c2' ∈ failure_controls displayLocale next ∧ ct_key c2' = ct_key c2 ∧ ct_value c2' = ct_value c2) ∧
    fq_time (failureQuery next) = fq_time (failureQuery p) ∧ fq_page (failureQuery next) = 1.
Proof.
  assert (∀ c, c ∈ failure_controls displayLocale p → ∃ k control, reads_and_writes k control ∧ c = control p ∧ k ∈ [u! "failureStatus"; u! "failureStage"; u! "retryable"]
    ∧ ∀ q, control q ∈ failure_controls displayLocale q) as Hall.
  { intros c0. unfold failure_controls. intros [->|[->|[->|[]%elem_of_nil]%elem_of_cons]%elem_of_cons]%elem_of_cons.
    - exists (u! "failureStatus"), (status_control displayLocale). split; [apply rw_status|]. split; [done|]. split; [set_solver|intros q; by left].
    - exists (u! "failureStage"), (stage_control displayLocale). split; [apply rw_stage|]. split; [done|]. split; [set_solver|intros q; right; by left].
    - exists (u! "retryable"), (retryable_control displayLocale). split; [apply rw_retryable|]. split; [done|]. split; [set_solver|intros q; right; right; by left]. }
  destruct (Hall c Hc) as (k & control & [Kkey _ Kch _ Kusv Kshow] & -> & Hk & Hin). rewrite Kch.
  set (next := updateParams p [(k, UrlState.PText value)] true).
  assert (∀ k', k' ∈ [u! "failureStatus"; u! "failureStage"; u! "retryable"] → usv k' = k' ∧ k' ≠ u! "page" ∧ k' ≠ u! "ruleCode" ∧
    ∀ key, key ∈ [u! "timePreset"; u! "from"; u! "to"] → key ≠ k' ∧ usv key = key ∧ key ≠ u! "page") as Hkeys.
  { intros k' Hk'. assert (forallb (λ k', bool_decide (usv k' = k' ∧ k' ≠ u! "page" ∧ k' ≠ u! "ruleCode") &&
      forallb (λ key, bool_decide (key ≠ k' ∧ usv key = key ∧ key ≠ u! "page")) [u! "timePreset"; u! "from"; u! "to"])
      [u! "failureStatus"; u! "failureStage"; u! "retryable"] = true) as Hb by (vm_compute; reflexivity).
    rewrite forallb_forall in Hb. apply list_elem_of_In, Hb, andb_prop in Hk' as [H1 H2]. apply bool_decide_eq_true in H1 as (H1 & H3 & H4).
    do 3 (split; [done|]). intros key Hkey. rewrite forallb_forall in H2. apply list_elem_of_In, H2 in Hkey. by apply bool_decide_eq_true in Hkey. }
  destruct (Hkeys k Hk) as (Hu & Hp & Hr & Ht). assert (usv value = value) as Hv by (by eapply Kusv).
  assert (∀ k', usv k' = k' → k' ≠ u! "page" → params_get next k' = if bool_decide (k = k') then stored value else params_get p k') as Hget.
  { intros k' Hu' Hp'. unfold next. rewrite get_set_param by (by rewrite Hu'). unfold stored. by rewrite Hu, Hu', Hv. }
  exists next. split; [done|]. split; [|split; [|split; [|split]]].
  - unfold failure_shown, failureQuery, failure_controls. cbn [fmap list_fmap ct_value status_control stage_control retryable_control failure_select fq_status fq_failureStage fq_retryable].
    by destruct (params_get next (u! "failureStage")) as [[|x s]|].
  - exists (control next). split; [apply Hin|]. split; [by rewrite !Kkey|]. rewrite (Kshow p value Ho); [unfold shown_as; rewrite Kkey, bool_decide_false by done; done|].
    by rewrite Hget, bool_decide_true.
  - intros c2 Hc2 Hne. destruct (Hall c2 Hc2) as (k2 & control2 & [Kkey2 _ _ Kread2 _ _] & -> & Hk2 & Hin2). rewrite !Kkey, !Kkey2 in *.
    exists (control2 next). rewrite Kkey2. split; [apply Hin2|]. split; [done|]. destruct (Hkeys k2 Hk2) as (Hu2 & Hp2 & _). apply Kread2.
    rewrite Hget, bool_decide_false by congruence. done.
  - unfold failureQuery. cbn [fq_time]. f_equal. apply readTimeFilter_ext. intros key Hkey. destruct (Ht key Hkey) as (H1 & H2 & H3). by rewrite Hget, bool_decide_false by congruence.
  - unfold failureQuery. cbn [fq_page]. unfold page_of, numberParam, next, updateParams. by rewrite params_get_delete_eq.
Qed.
End filters.

(** While the range of the time filter is refused, only the health is fetched; the page says
    nothing about the filter and its lists stay in their skeletons. *)
Lemma invalid_range_waits `{DateHost} params health :
  tf_valid (readTimeFilter params) = false →
  enabled_requests params = [HealthRequest] ∧
  js_filter (λ part, match part with OSkeleton IngestResource | OSkeleton FailuresResource => true | _ => false end)
    (operations_parts (H := OperationsHealthDto) (I := IngestSummaryDto) (F := FailureData) (QData health None) QPending QPending) =
    [OSkeleton IngestResource; OSkeleton FailuresResource].
Proof. intros Hv. unfold enabled_requests. by rewrite Hv. Qed.
