(* ===== verification/Dtos.v ===== *)
(** * The records of the model and the types of the contract

    Writes the records in which the development keeps the contract's data (Contracts.v and
    the files of the features) as JSON, field by field, and shows that they have the types
    that frontend/src/api/generated/schema.ts gives to the schemas of their names, with
    exactly the fields of the schema. *)

From S2P Require Import Prelude JsNumber JsDate Json Url Contracts ApiClient UrlState Auth Topology ListPages Rest Schemas Conformance Charts EndpointPage EventDetail Intelligence IntelligenceView IncidentView Operations Ui Markup ListViews DetailViews.

#[local] Open Scope list_scope.
#[local] Open Scope Z_scope.

(** ** Writing *)

Class Encode (A : Type) := encode : A → json.
(** What is written has the type, whenever the names it follows are found. *)
Class Encoded (A : Type) `{Encode A} (s : Schema) := encoded : ∀ (a : A) n, resolves n s = true → conforms n s (encode a) = true.

#[export] Instance text_encode : Encode ustring | 0 := JStr.
#[export] Instance integer_encode : Encode Z := JInt.
#[export] Instance number_encode : Encode jsnum := JNum.
#[export] Instance bool_encode : Encode bool := JBool.
#[export] Instance option_encode `{Encode A} : Encode (option A) := from_option encode JNull.
#[export] Instance list_encode `{Encode A} : Encode (list A) | 10 := λ l, JArr (map encode l).
#[export] Instance map_encode : Encode (list (ustring * json)) | 0 := JObj.
#[export] Instance literal_encode `{Literal A} : Encode A | 20 := λ a, JStr (lit_name a).
#[export] Instance AgentArchitecture_encode : Encode AgentArchitecture := λ a, JStr (AgentArchitecture_name a).
#[export] Instance AttackTimelineItemItemType_encode : Encode AttackTimelineItemItemType := λ a, JStr (AttackTimelineItemItemType_name a).
#[export] Instance CorrelationRelationshipRelation_encode : Encode CorrelationRelationshipRelation := λ a, JStr (CorrelationRelationshipRelation_name a).
#[export] Instance CorrelationSource_encode : Encode CorrelationSource := λ a, JStr (CorrelationSource_name a).
#[export] Instance CorrelationValueType_encode : Encode CorrelationValueType := λ a, JStr (CorrelationValueType_name a).
#[export] Instance LoginDataTokenType_encode : Encode LoginDataTokenType := λ a, JStr (LoginDataTokenType_name a).
#[export] Instance RiskFactorSource_encode : Encode RiskFactorSource := λ a, JStr (RiskFactorSource_name a).
(** An object with the fields of its type, in their order. *)
Definition object_of (s : Schema) (values : list json) : json := JObj (zip (field_names s) values).

#[export] Instance text_encoded : Encoded ustring SText | 0.
Proof. by intros a []. Qed.
#[export] Instance integer_encoded : Encoded Z SNumber.
Proof. by intros a []. Qed.
#[export] Instance number_encoded : Encoded jsnum SNumber.
Proof. by intros a []. Qed.
#[export] Instance bool_encoded : Encoded bool SBoolean.
Proof. by intros a []. Qed.
#[export] Instance map_encoded : Encoded (list (ustring * json)) SMap | 0.
Proof. by intros a []. Qed.
#[export] Instance option_encoded `{Encoded A s} : Encoded (option A) (SNullable s).
Proof.
  intros a n. rewrite resolves_inside, conforms_nullable. intros Hr. destruct a as [a|]; [|done]. pose proof (encoded a n Hr) as Ha.
  cbn. by destruct (encode a).
Qed.
#[export] Instance list_encoded `{Encoded A s} : Encoded (list A) (SArray s) | 10.
Proof.
  intros l n. rewrite resolves_inside, conforms_array. intros Hr. cbn. apply forallb_forall. intros y (x & <- & _)%in_map_iff. by apply encoded.
Qed.

(** The fields of a written object are found under their names. *)
Lemma object_conforms n fields values : NoDup (map (λ f : ustring * bool * Schema, f.1.1) fields) →
  Forall2 (λ f v, ∀ n, resolves n f.2 = true → conforms n f.2 v = true) fields values →
  resolves n (SObject fields) = true → conforms n (SObject fields) (object_of (SObject fields) values) = true.
Proof.
  intros Hnd Hf. rewrite resolves_inside, conforms_object. unfold object_of. cbn [field_names]. intros Hr.
  set (kvs := zip (map (λ f : ustring * bool * Schema, f.1.1) fields) values).
  assert (kvs.*1 = map (λ f : ustring * bool * Schema, f.1.1) fields) as Hkeys.
  { apply fst_zip. rewrite length_map. by rewrite (Forall2_length _ _ _ Hf). }
  rewrite forallb_forall in Hr |- *. intros f Hin. specialize (Hr f Hin). apply list_elem_of_In, list_elem_of_lookup in Hin as [i Hi].
  destruct (Forall2_lookup_l _ _ _ _ _ Hf Hi) as (v & Hv & Hc).
  assert (prop f.1.1 (JObj kvs) = Some v) as ->; [|by apply Hc].
  apply map_get_elem; [by rewrite Hkeys|]. apply (list_elem_of_lookup_2 _ i). unfold kvs. rewrite lookup_zip_with, list_lookup_fmap, Hi. cbn. by rewrite Hv.
Qed.

Lemma record_encoded name fields values : schema_of name = Some (SObject fields) → bool_decide (NoDup (map (λ f : ustring * bool * Schema, f.1.1) fields)) = true →
  Forall2 (λ f v, ∀ n, resolves n f.2 = true → conforms n f.2 v = true) fields values →
  ∀ n, resolves n (SRef name) = true → conforms n (SRef name) (object_of (SObject fields) values) = true.
Proof.
  intros Hs Hnd%bool_decide_eq_true Hf [|n] Hr; [done|]. rewrite (conforms_ref n _ _ _ Hs). apply object_conforms; [done|done|].
  cbn [resolves] in Hr. by rewrite Hs in Hr.
Qed.

Ltac literal := intros a n; destruct n as [|n]; [try (by destruct a)|]; intros _; first [by destruct a|by destruct n, a].
Ltac record := intros x; refine (record_encoded _ _ _ _ _ _); [reflexivity|vm_compute; reflexivity|repeat (apply Forall2_cons; split; [exact (encoded _)|]); apply Forall2_nil_2].

#[export] Instance AgentArchitecture_encoded : Encoded AgentArchitecture (ref "AgentArchitecture").
Proof. literal. Qed.
#[export] Instance AlertStatus_encoded : Encoded AlertStatus (ref "AlertStatus").
Proof. literal. Qed.
#[export] Instance AttackTimelineItemItemType_encoded_inline : Encoded AttackTimelineItemItemType (SLiterals [u! "INCIDENT"; u! "EVENT"; u! "ALERT"]).
Proof. literal. Qed.
#[export] Instance CorrelationRelationshipRelation_encoded_inline : Encoded CorrelationRelationshipRelation (SLiterals [u! "RESOLVES_TO"; u! "PTR_CANDIDATE"; u! "SUBDOMAIN_OF"]).
Proof. literal. Qed.
#[export] Instance CorrelationSource_encoded_inline : Encoded CorrelationSource (SLiterals [u! "LIVE_DNS"; u! "OBSERVED_EVENTS"]).
Proof. literal. Qed.
#[export] Instance CorrelationValueType_encoded_inline : Encoded CorrelationValueType (SLiterals [u! "IP"; u! "DOMAIN"]).
Proof. literal. Qed.
#[export] Instance EndpointStatus_encoded : Encoded EndpointStatus (ref "EndpointStatus").
Proof. literal. Qed.
#[export] Instance EventFailureStatus_encoded : Encoded EventFailureStatus (ref "EventFailureStatus").
Proof. literal. Qed.
#[export] Instance EventType_encoded : Encoded EventType (ref "EventType").
Proof. literal. Qed.
#[export] Instance IncidentStatus_encoded : Encoded IncidentStatus (ref "IncidentStatus").
Proof. literal. Qed.
#[export] Instance InvestigationEvidence_encoded : Encoded InvestigationEvidence (ref "InvestigationEvidence").
Proof. literal. Qed.
#[export] Instance InvestigationNodeType_encoded : Encoded InvestigationNodeType (ref "InvestigationNodeType").
Proof. literal. Qed.
#[export] Instance InvestigationRelation_encoded : Encoded InvestigationRelation (ref "InvestigationRelation").
Proof. literal. Qed.
#[export] Instance InvestigationWarningCode_encoded : Encoded InvestigationWarningCode (ref "InvestigationWarningCode").
Proof. literal. Qed.
#[export] Instance LoginDataTokenType_encoded_inline : Encoded LoginDataTokenType (SLiterals [u! "Bearer"]).
Proof. literal. Qed.
#[export] Instance OsType_encoded : Encoded OsType (ref "OsType").
Proof. literal. Qed.
#[export] Instance RiskFactorSource_encoded : Encoded RiskFactorSource (ref "EndpointRiskFactorSourceType").
Proof. literal. Qed.
#[export] Instance RiskLevel_encoded : Encoded RiskLevel (ref "RiskLevel").
Proof. literal. Qed.
#[export] Instance SensorHealth_encoded : Encoded SensorHealth (ref "SensorHealth").
Proof. literal. Qed.
#[export] Instance Severity_encoded : Encoded Severity (ref "Severity").
Proof. literal. Qed.
#[export] Instance StorageBackend_encoded : Encoded StorageBackend (ref "StorageBackend").
Proof. literal. Qed.
#[export] Instance StorageClass_encoded : Encoded StorageClass (ref "StorageClass").
Proof. literal. Qed.
#[export] Instance StorageStatus_encoded : Encoded StorageStatus (ref "StorageStatus").
Proof. literal. Qed.
#[export] Instance UserLocale_encoded : Encoded UserLocale (ref "UserLocale").
Proof. literal. Qed.
#[export] Instance UserRole_encoded : Encoded UserRole (ref "UserRole").
Proof. literal. Qed.
#[export] Instance UserStatus_encoded : Encoded UserStatus (ref "UserStatus").
Proof. literal. Qed.
#[export] Instance WorkerStatus_encoded : Encoded WorkerStatus (ref "WorkerStatus").
Proof. literal. Qed.

#[export] Instance EventDto_encode : Encode Contracts.EventDto := λ x, object_of schema_EventDto
  [encode (Contracts.event_agentId x); encode (Contracts.event_batchId x); encode (Contracts.event_commandLine x); encode (Contracts.event_dnsAnswers x);
   encode (Contracts.event_dnsQuery x); encode (Contracts.event_dnsRecordType x); encode (Contracts.event_dnsResponseCode x);
   encode (Contracts.event_endpointId x); encode (Contracts.event_eventId x); encode (Contracts.event_eventType x); encode (Contracts.event_fileAction x);
   encode (Contracts.event_fileHashSha256 x); encode (Contracts.event_filePath x); encode (Contracts.event_hostname x); encode (Contracts.event_httpHost x);
   encode (Contracts.event_httpMethod x); encode (Contracts.event_httpStatusCode x); encode (Contracts.event_httpUserAgent x);
   encode (Contracts.event_ingestedAt x); encode (Contracts.event_ipAddress x); encode (Contracts.event_l7Protocol x);
   encode (Contracts.event_occurredAt x); encode (Contracts.event_osType x); encode (Contracts.event_pid x); encode (Contracts.event_ppid x);
   encode (Contracts.event_processName x); encode (Contracts.event_processPath x); encode (Contracts.event_protocol x);
   encode (Contracts.event_remoteDomain x); encode (Contracts.event_remoteIp x); encode (Contracts.event_remotePort x);
   encode (Contracts.event_tlsCertificateIssuer x); encode (Contracts.event_tlsCertificateSha256 x); encode (Contracts.event_tlsCertificateSubject x);
   encode (Contracts.event_tlsSni x); encode (Contracts.event_tlsVersion x); encode (Contracts.event_url x); encode (Contracts.event_userName x)].
#[export] Instance EventDto_encoded : Encoded Contracts.EventDto (ref "EventDto").
Proof. record. Qed.
#[export] Instance IncidentReferenceDto_encode : Encode DetailViews.IncidentReferenceDto := λ x, object_of schema_IncidentReferenceDto
  [encode (DetailViews.ir_incidentId x); encode (DetailViews.ir_severity x); encode (DetailViews.ir_status x); encode (DetailViews.ir_title x);
   encode (DetailViews.ir_windowEndAt x); encode (DetailViews.ir_windowStartAt x)].
#[export] Instance IncidentReferenceDto_encoded : Encoded DetailViews.IncidentReferenceDto (ref "IncidentReferenceDto").
Proof. record. Qed.
#[export] Instance ResponseGuidanceStepDto_encode : Encode EndpointPage.ResponseGuidanceStepDto := λ x, object_of schema_ResponseGuidanceStepDto
  [encode (EndpointPage.step_description x); encode (EndpointPage.step_order x); encode (EndpointPage.step_requiresManualAction x);
   encode (EndpointPage.step_title x)].
#[export] Instance ResponseGuidanceStepDto_encoded : Encoded EndpointPage.ResponseGuidanceStepDto (ref "ResponseGuidanceStepDto").
Proof. record. Qed.
#[export] Instance AlertDetailDto_encode : Encode DetailViews.AlertDetailDto := λ x, object_of schema_AlertDetailDto
  [encode (Contracts.alert_agentId (DetailViews.ad_alert x)); encode (Contracts.alert_alertId (DetailViews.ad_alert x));
   encode (Contracts.alert_batchId (DetailViews.ad_alert x)); encode (Contracts.alert_createdAt (DetailViews.ad_alert x));
   encode (Contracts.alert_detectedAt (DetailViews.ad_alert x)); encode (Contracts.alert_endpointId (DetailViews.ad_alert x));
   encode (Contracts.alert_eventId (DetailViews.ad_alert x)); encode (Contracts.alert_eventOccurredAt (DetailViews.ad_alert x));
   encode (DetailViews.ad_incidents x); encode (Contracts.alert_mitreTacticCode (DetailViews.ad_alert x));
   encode (Contracts.alert_mitreTacticName (DetailViews.ad_alert x)); encode (Contracts.alert_mitreTechniqueCode (DetailViews.ad_alert x));
   encode (Contracts.alert_mitreTechniqueName (DetailViews.ad_alert x)); encode (DetailViews.ad_responseGuidance x);
   encode (Contracts.alert_riskScore (DetailViews.ad_alert x)); encode (Contracts.alert_ruleCode (DetailViews.ad_alert x));
   encode (Contracts.alert_ruleName (DetailViews.ad_alert x)); encode (Contracts.alert_ruleVersion (DetailViews.ad_alert x));
   encode (Contracts.alert_severity (DetailViews.ad_alert x)); encode (DetailViews.ad_sourceEvent x);
   encode (Contracts.alert_status (DetailViews.ad_alert x)); encode (Contracts.alert_summary (DetailViews.ad_alert x));
   encode (Contracts.alert_title (DetailViews.ad_alert x)); encode (Contracts.alert_updatedAt (DetailViews.ad_alert x))].
#[export] Instance AlertDetailDto_encoded : Encoded DetailViews.AlertDetailDto (ref "AlertDetailDto").
Proof. record. Qed.
#[export] Instance AlertDto_encode : Encode Contracts.AlertDto := λ x, object_of schema_AlertDto
  [encode (Contracts.alert_agentId x); encode (Contracts.alert_alertId x); encode (Contracts.alert_batchId x); encode (Contracts.alert_createdAt x);
   encode (Contracts.alert_detectedAt x); encode (Contracts.alert_endpointId x); encode (Contracts.alert_eventId x);
   encode (Contracts.alert_eventOccurredAt x); encode (Contracts.alert_mitreTacticCode x); encode (Contracts.alert_mitreTacticName x);
   encode (Contracts.alert_mitreTechniqueCode x); encode (Contracts.alert_mitreTechniqueName x); encode (Contracts.alert_riskScore x);
   encode (Contracts.alert_ruleCode x); encode (Contracts.alert_ruleName x); encode (Contracts.alert_ruleVersion x); encode (Contracts.alert_severity x);
   encode (Contracts.alert_status x); encode (Contracts.alert_summary x); encode (Contracts.alert_title x); encode (Contracts.alert_updatedAt x)].
#[export] Instance AlertDto_encoded : Encoded Contracts.AlertDto (ref "AlertDto").
Proof. record. Qed.
#[export] Instance ArchiveBucketDto_encode : Encode Contracts.ArchiveBucketDto := λ x, object_of schema_ArchiveBucketDto
  [encode (Contracts.bucket_archiveVerifiedAt x); encode (Contracts.bucket_archivedAt x); encode (Contracts.bucket_bucketEndAt x);
   encode (Contracts.bucket_bucketStartAt x); encode (Contracts.bucket_checksumSha256 x); encode (Contracts.bucket_endpointId x);
   encode (Contracts.bucket_eventCount x); encode (Contracts.bucket_lastError x); encode (Contracts.bucket_restoreExpiresAt x);
   encode (Contracts.bucket_restoreRequestedAt x); encode (Contracts.bucket_restoredAt x); encode (Contracts.bucket_sizeBytes x);
   encode (Contracts.bucket_storageBackend x); encode (Contracts.bucket_storageClass x); encode (Contracts.bucket_storagePath x);
   encode (Contracts.bucket_storageStatus x)].
#[export] Instance ArchiveBucketDto_encoded : Encoded Contracts.ArchiveBucketDto (ref "ArchiveBucketDto").
Proof. record. Qed.
#[export] Instance AttackTimelineItemDto_encode : Encode Contracts.AttackTimelineItemDto := λ x, object_of schema_AttackTimelineItemDto
  [encode (Contracts.item_alertId x); encode (Contracts.item_endpointId x); encode (Contracts.item_eventId x); encode (Contracts.item_eventType x);
   encode (Contracts.item_incidentId x); encode (Contracts.item_itemType x); encode (Contracts.item_occurredAt x); encode (Contracts.item_severity x);
   encode (Contracts.item_summary x); encode (Contracts.item_title x)].
#[export] Instance AttackTimelineItemDto_encoded : Encoded Contracts.AttackTimelineItemDto (ref "AttackTimelineItemDto").
Proof. record. Qed.
#[export] Instance CertificateDto_encode : Encode EndpointPage.CertificateDto := λ x, object_of schema_CertificateDto
  [encode (EndpointPage.cert_certFingerprint x); encode (EndpointPage.cert_certSanAgentId x); encode (EndpointPage.cert_certSubject x);
   encode (EndpointPage.cert_expiresAt x); encode (EndpointPage.cert_isExpired x); encode (EndpointPage.cert_isRevoked x);
   encode (EndpointPage.cert_issuedAt x); encode (EndpointPage.cert_revokedAt x)].
#[export] Instance CertificateDto_encoded : Encoded EndpointPage.CertificateDto (ref "CertificateDto").
Proof. record. Qed.
#[export] Instance CorrelationRelationshipDto_encode : Encode Contracts.CorrelationRelationshipDto := λ x, object_of schema_CorrelationRelationshipDto
  [encode (Contracts.cr_relation x); encode (Contracts.cr_sourceType x); encode (Contracts.cr_sourceValue x); encode (Contracts.cr_sources x);
   encode (Contracts.cr_targetType x); encode (Contracts.cr_targetValue x)].
#[export] Instance CorrelationRelationshipDto_encoded : Encoded Contracts.CorrelationRelationshipDto (ref "CorrelationRelationshipDto").
Proof. record. Qed.
#[export] Instance RelatedValueDto_encode : Encode Contracts.RelatedValueDto := λ x, object_of schema_RelatedValueDto
  [encode (Contracts.rv_sources x); encode (Contracts.rv_value x); encode (Contracts.rv_valueType x)].
#[export] Instance RelatedValueDto_encoded : Encoded Contracts.RelatedValueDto (ref "RelatedValueDto").
Proof. record. Qed.
#[export] Instance CorrelationDto_encode : Encode Contracts.CorrelationDto := λ x, object_of schema_CorrelationDto
  [encode (Contracts.corr_from x); encode (Contracts.corr_inputType x); encode (Contracts.corr_inputValue x); encode (Contracts.corr_related x);
   encode (Contracts.corr_relationships x); encode (Contracts.corr_to x)].
#[export] Instance CorrelationDto_encoded : Encoded Contracts.CorrelationDto (ref "CorrelationDto").
Proof. record. Qed.
#[export] Instance TopologyEdgeDto_encode : Encode Contracts.TopologyEdgeDto := λ x, object_of schema_TopologyEdgeDto
  [encode (Contracts.te_alertCount x); encode (Contracts.te_endpointId x); encode (Contracts.te_eventCount x); encode (Contracts.te_lastSeenAt x);
   encode (Contracts.te_protocol x); encode (Contracts.te_sourceLabel x); encode (Contracts.te_target x)].
#[export] Instance TopologyEdgeDto_encoded : Encoded Contracts.TopologyEdgeDto (ref "TopologyEdgeDto").
Proof. record. Qed.
#[export] Instance TopologyNodeDto_encode : Encode Contracts.TopologyNodeDto := λ x, object_of schema_TopologyNodeDto
  [encode (Contracts.tn_alertCount x); encode (Contracts.tn_endpointId x); encode (Contracts.tn_hostname x); encode (Contracts.tn_riskLevel x);
   encode (Contracts.tn_riskScore x); encode (Contracts.tn_status x)].
#[export] Instance TopologyNodeDto_encoded : Encoded Contracts.TopologyNodeDto (ref "TopologyNodeDto").
Proof. record. Qed.
#[export] Instance EgressTopologyDto_encode : Encode Contracts.EgressTopologyDto := λ x, object_of schema_EgressTopologyDto
  [encode (Contracts.topo_edges x); encode (Contracts.topo_from x); encode (Contracts.topo_nodes x); encode (Contracts.topo_to x)].
#[export] Instance EgressTopologyDto_encoded : Encoded Contracts.EgressTopologyDto (ref "EgressTopologyDto").
Proof. record. Qed.
#[export] Instance EndpointRiskFactorDto_encode : Encode EndpointPage.EndpointRiskFactorDto := λ x, object_of schema_EndpointRiskFactorDto
  [encode (EndpointPage.factor_code x); encode (EndpointPage.factor_contribution x); encode (EndpointPage.factor_description x);
   encode (EndpointPage.factor_sourceId x); encode (EndpointPage.factor_sourceType x); encode (EndpointPage.factor_title x)].
#[export] Instance EndpointRiskFactorDto_encoded : Encoded EndpointPage.EndpointRiskFactorDto (ref "EndpointRiskFactorDto").
Proof. record. Qed.
#[export] Instance EndpointRiskDto_encode : Encode EndpointPage.EndpointRiskDto := λ x, object_of schema_EndpointRiskDto
  [encode (EndpointPage.risk_activeAlertCount x); encode (EndpointPage.risk_calculatedAt x); encode (EndpointPage.risk_highestAlertRiskScore x);
   encode (EndpointPage.risk_level x); encode (EndpointPage.risk_openIncidentCount x); encode (EndpointPage.risk_riskFactors x);
   encode (EndpointPage.risk_score x)].
#[export] Instance EndpointRiskDto_encoded : Encoded EndpointPage.EndpointRiskDto (ref "EndpointRiskDto").
Proof. record. Qed.
#[export] Instance SensorHealthDto_encode : Encode EndpointPage.SensorHealthDto := λ x, object_of schema_SensorHealthDto
  [encode (EndpointPage.sensor_packetDropCount x); encode (EndpointPage.sensor_parseErrorCount x); encode (EndpointPage.sensor_provider x);
   encode (EndpointPage.sensor_sensor x); encode (EndpointPage.sensor_status x)].
#[export] Instance SensorHealthDto_encoded : Encoded EndpointPage.SensorHealthDto (ref "SensorHealthDto").
Proof. record. Qed.
#[export] Instance EndpointDetailDto_encode : Encode EndpointPage.EndpointDetailDto := λ x, object_of schema_EndpointDetailDto
  [encode (EndpointPage.endpoint_agentArch (EndpointPage.detail_endpoint x)); encode (EndpointPage.endpoint_agentBuildId (EndpointPage.detail_endpoint x));
   encode (EndpointPage.endpoint_agentId (EndpointPage.detail_endpoint x)); encode (EndpointPage.endpoint_agentVersion (EndpointPage.detail_endpoint x));
   encode (EndpointPage.endpoint_capabilityCodes (EndpointPage.detail_endpoint x)); encode (EndpointPage.detail_certificates x);
   encode (EndpointPage.endpoint_endpointId (EndpointPage.detail_endpoint x)); encode (EndpointPage.endpoint_hostname (EndpointPage.detail_endpoint x));
   encode (EndpointPage.endpoint_ipAddress (EndpointPage.detail_endpoint x)); encode (EndpointPage.endpoint_isStale (EndpointPage.detail_endpoint x));
   encode (EndpointPage.endpoint_lastSeenAt (EndpointPage.detail_endpoint x)); encode (EndpointPage.endpoint_osType (EndpointPage.detail_endpoint x));
   encode (EndpointPage.endpoint_osVersion (EndpointPage.detail_endpoint x)); encode (EndpointPage.endpoint_registeredAt (EndpointPage.detail_endpoint x));
   encode (EndpointPage.endpoint_risk (EndpointPage.detail_endpoint x)); encode (EndpointPage.endpoint_sensorHealth (EndpointPage.detail_endpoint x));
   encode (EndpointPage.endpoint_status (EndpointPage.detail_endpoint x))].
#[export] Instance EndpointDetailDto_encoded : Encoded EndpointPage.EndpointDetailDto (ref "EndpointDetailDto").
Proof. record. Qed.
#[export] Instance EndpointDto_encode : Encode EndpointPage.EndpointDto := λ x, object_of schema_EndpointDto
  [encode (EndpointPage.endpoint_agentArch x); encode (EndpointPage.endpoint_agentBuildId x); encode (EndpointPage.endpoint_agentId x);
   encode (EndpointPage.endpoint_agentVersion x); encode (EndpointPage.endpoint_capabilityCodes x); encode (EndpointPage.endpoint_endpointId x);
   encode (EndpointPage.endpoint_hostname x); encode (EndpointPage.endpoint_ipAddress x); encode (EndpointPage.endpoint_isStale x);
   encode (EndpointPage.endpoint_lastSeenAt x); encode (EndpointPage.endpoint_osType x); encode (EndpointPage.endpoint_osVersion x);
   encode (EndpointPage.endpoint_registeredAt x); encode (EndpointPage.endpoint_risk x); encode (EndpointPage.endpoint_sensorHealth x);
   encode (EndpointPage.endpoint_status x)].
#[export] Instance EndpointDto_encoded : Encoded EndpointPage.EndpointDto (ref "EndpointDto").
Proof. record. Qed.
#[export] Instance EventDetailDto_encode : Encode EventDetail.EventDetailDto := λ x, object_of schema_EventDetailDto
  [encode (Contracts.event_agentId (EventDetail.detail_event x)); encode (Contracts.event_batchId (EventDetail.detail_event x));
   encode (Contracts.event_commandLine (EventDetail.detail_event x)); encode (Contracts.event_dnsAnswers (EventDetail.detail_event x));
   encode (Contracts.event_dnsQuery (EventDetail.detail_event x)); encode (Contracts.event_dnsRecordType (EventDetail.detail_event x));
   encode (Contracts.event_dnsResponseCode (EventDetail.detail_event x)); encode (Contracts.event_endpointId (EventDetail.detail_event x));
   encode (Contracts.event_eventId (EventDetail.detail_event x)); encode (Contracts.event_eventType (EventDetail.detail_event x));
   encode (Contracts.event_fileAction (EventDetail.detail_event x)); encode (Contracts.event_fileHashSha256 (EventDetail.detail_event x));
   encode (Contracts.event_filePath (EventDetail.detail_event x)); encode (Contracts.event_hostname (EventDetail.detail_event x));
   encode (Contracts.event_httpHost (EventDetail.detail_event x)); encode (Contracts.event_httpMethod (EventDetail.detail_event x));
   encode (Contracts.event_httpStatusCode (EventDetail.detail_event x)); encode (Contracts.event_httpUserAgent (EventDetail.detail_event x));
   encode (Contracts.event_ingestedAt (EventDetail.detail_event x)); encode (Contracts.event_ipAddress (EventDetail.detail_event x));
   encode (Contracts.event_l7Protocol (EventDetail.detail_event x)); encode (Contracts.event_occurredAt (EventDetail.detail_event x));
   encode (Contracts.event_osType (EventDetail.detail_event x)); encode (EventDetail.detail_payloadSha256 x);
   encode (Contracts.event_pid (EventDetail.detail_event x)); encode (Contracts.event_ppid (EventDetail.detail_event x));
   encode (Contracts.event_processName (EventDetail.detail_event x)); encode (Contracts.event_processPath (EventDetail.detail_event x));
   encode (Contracts.event_protocol (EventDetail.detail_event x)); encode (EventDetail.detail_rawPayload x);
   encode (Contracts.event_remoteDomain (EventDetail.detail_event x)); encode (Contracts.event_remoteIp (EventDetail.detail_event x));
   encode (Contracts.event_remotePort (EventDetail.detail_event x)); encode (EventDetail.detail_schemaVersion x);
   encode (Contracts.event_tlsCertificateIssuer (EventDetail.detail_event x)); encode (Contracts.event_tlsCertificateSha256 (EventDetail.detail_event x));
   encode (Contracts.event_tlsCertificateSubject (EventDetail.detail_event x)); encode (Contracts.event_tlsSni (EventDetail.detail_event x));
   encode (Contracts.event_tlsVersion (EventDetail.detail_event x)); encode (Contracts.event_url (EventDetail.detail_event x));
   encode (Contracts.event_userName (EventDetail.detail_event x))].
#[export] Instance EventDetailDto_encoded : Encoded EventDetail.EventDetailDto (ref "EventDetailDto").
Proof. record. Qed.
#[export] Instance EventFailureDto_encode : Encode Operations.EventFailureDto := λ x, object_of schema_EventFailureDto
  [encode (Operations.failure_consumerName x); encode (Operations.failure_createdAt x); encode (Operations.failure_endpointId x);
   encode (Operations.failure_errorMessage x); encode (Operations.failure_eventId x); encode (Operations.failure_failedAt x);
   encode (Operations.failure_failureCode x); encode (Operations.failure_failureId x); encode (Operations.failure_failureStage x);
   encode (Operations.failure_lastReplayedAt x); encode (Operations.failure_payloadObjectKey x); encode (Operations.failure_payloadSha256 x);
   encode (Operations.failure_payloadSizeBytes x); encode (Operations.failure_replayCount x); encode (Operations.failure_reprocessOutcome x);
   encode (Operations.failure_resolvedAt x); encode (Operations.failure_retentionExpiresAt x); encode (Operations.failure_retryCount x);
   encode (Operations.failure_retryable x); encode (Operations.failure_sourceOffset x); encode (Operations.failure_sourcePartition x);
   encode (Operations.failure_sourceTopic x); encode (Operations.failure_status x); encode (Operations.failure_updatedAt x)].
#[export] Instance EventFailureDto_encoded : Encoded Operations.EventFailureDto (ref "EventFailureDto").
Proof. record. Qed.
#[export] Instance IncidentDetailDto_encode : Encode IncidentView.IncidentDetailDto := λ x, object_of schema_IncidentDetailDto
  [encode (EndpointPage.incident_alertCount (IncidentView.detail_incident x)); encode (IncidentView.detail_alerts x);
   encode (EndpointPage.incident_closedAt (IncidentView.detail_incident x)); encode (EndpointPage.incident_correlationKey (IncidentView.detail_incident x));
   encode (EndpointPage.incident_createdAt (IncidentView.detail_incident x)); encode (EndpointPage.incident_description (IncidentView.detail_incident x));
   encode (EndpointPage.incident_endpointId (IncidentView.detail_incident x));
   encode (EndpointPage.incident_firstDetectedAt (IncidentView.detail_incident x));
   encode (EndpointPage.incident_incidentId (IncidentView.detail_incident x));
   encode (EndpointPage.incident_lastDetectedAt (IncidentView.detail_incident x)); encode (EndpointPage.incident_severity (IncidentView.detail_incident x));
   encode (EndpointPage.incident_status (IncidentView.detail_incident x)); encode (EndpointPage.incident_title (IncidentView.detail_incident x));
   encode (EndpointPage.incident_updatedAt (IncidentView.detail_incident x)); encode (EndpointPage.incident_windowEndAt (IncidentView.detail_incident x));
   encode (EndpointPage.incident_windowStartAt (IncidentView.detail_incident x))].
#[export] Instance IncidentDetailDto_encoded : Encoded IncidentView.IncidentDetailDto (ref "IncidentDetailDto").
Proof. record. Qed.
#[export] Instance IncidentDto_encode : Encode EndpointPage.IncidentDto := λ x, object_of schema_IncidentDto
  [encode (EndpointPage.incident_alertCount x); encode (EndpointPage.incident_closedAt x); encode (EndpointPage.incident_correlationKey x);
   encode (EndpointPage.incident_createdAt x); encode (EndpointPage.incident_description x); encode (EndpointPage.incident_endpointId x);
   encode (EndpointPage.incident_firstDetectedAt x); encode (EndpointPage.incident_incidentId x); encode (EndpointPage.incident_lastDetectedAt x);
   encode (EndpointPage.incident_severity x); encode (EndpointPage.incident_status x); encode (EndpointPage.incident_title x);
   encode (EndpointPage.incident_updatedAt x); encode (EndpointPage.incident_windowEndAt x); encode (EndpointPage.incident_windowStartAt x)].
#[export] Instance IncidentDto_encoded : Encoded EndpointPage.IncidentDto (ref "IncidentDto").
Proof. record. Qed.
#[export] Instance InvestigationEdgeDto_encode : Encode Contracts.InvestigationEdgeDto := λ x, object_of schema_InvestigationEdgeDto
  [encode (Contracts.edge_alertId x); encode (Contracts.edge_edgeId x); encode (Contracts.edge_eventId x); encode (Contracts.edge_evidence x);
   encode (Contracts.edge_incidentId x); encode (Contracts.edge_observedAt x); encode (Contracts.edge_relation x); encode (Contracts.edge_sourceNodeId x);
   encode (Contracts.edge_targetNodeId x)].
#[export] Instance InvestigationEdgeDto_encoded : Encoded Contracts.InvestigationEdgeDto (ref "InvestigationEdgeDto").
Proof. record. Qed.
#[export] Instance InvestigationFallbackDto_encode : Encode Contracts.InvestigationFallbackDto := λ x, object_of schema_InvestigationFallbackDto
  [encode (Contracts.fallback_alertTableAvailable x); encode (Contracts.fallback_eventTableAvailable x); encode (Contracts.fallback_timelineAvailable x)].
#[export] Instance InvestigationFallbackDto_encoded : Encoded Contracts.InvestigationFallbackDto (ref "InvestigationFallbackDto").
Proof. record. Qed.
#[export] Instance InvestigationNodeDto_encode : Encode Contracts.InvestigationNodeDto := λ x, object_of schema_InvestigationNodeDto
  [encode (Contracts.node_alertId x); encode (Contracts.node_destination x); encode (Contracts.node_endpointId x); encode (Contracts.node_eventId x);
   encode (Contracts.node_eventType x); encode (Contracts.node_incidentId x); encode (Contracts.node_label x); encode (Contracts.node_nodeId x);
   encode (Contracts.node_nodeType x); encode (Contracts.node_occurredAt x); encode (Contracts.node_pid x); encode (Contracts.node_processName x);
   encode (Contracts.node_protocol x); encode (Contracts.node_riskScore x); encode (Contracts.node_severity x)].
#[export] Instance InvestigationNodeDto_encoded : Encoded Contracts.InvestigationNodeDto (ref "InvestigationNodeDto").
Proof. record. Qed.
#[export] Instance InvestigationWarningDto_encode : Encode Contracts.InvestigationWarningDto := λ x, object_of schema_InvestigationWarningDto
  [encode (Contracts.warning_code x); encode (Contracts.warning_endpointId x); encode (Contracts.warning_eventId x); encode (Contracts.warning_message x);
   encode (Contracts.warning_occurredAt x)].
#[export] Instance InvestigationWarningDto_encoded : Encoded Contracts.InvestigationWarningDto (ref "InvestigationWarningDto").
Proof. record. Qed.
#[export] Instance TimeRangeDto_encode : Encode Contracts.TimeRangeDto := λ x, object_of schema_TimeRangeDto
  [encode (Contracts.range_from x); encode (Contracts.range_to x)].
#[export] Instance TimeRangeDto_encoded : Encoded Contracts.TimeRangeDto (ref "TimeRangeDto").
Proof. record. Qed.
#[export] Instance IncidentInvestigationDto_encode : Encode Contracts.IncidentInvestigationDto := λ x, object_of schema_IncidentInvestigationDto
  [encode (Contracts.inv_edgeCount x); encode (Contracts.inv_edges x); encode (Contracts.inv_fallback x); encode (Contracts.inv_incidentId x);
   encode (Contracts.inv_nodeCount x); encode (Contracts.inv_nodes x); encode (Contracts.inv_partial x); encode (Contracts.inv_timeRange x);
   encode (Contracts.inv_truncated x); encode (Contracts.inv_warnings x)].
#[export] Instance IncidentInvestigationDto_encoded : Encoded Contracts.IncidentInvestigationDto (ref "IncidentInvestigationDto").
Proof. record. Qed.
#[export] Instance IncidentTimeSeriesPointDto_encode : Encode Charts.IncidentTimeSeriesPointDto := λ x, object_of schema_IncidentTimeSeriesPointDto
  [encode (Charts.it_bucketStartAt x); encode (Charts.it_closedCount x); encode (Charts.it_openCount x)].
#[export] Instance IncidentTimeSeriesPointDto_encoded : Encoded Charts.IncidentTimeSeriesPointDto (ref "IncidentTimeSeriesPointDto").
Proof. record. Qed.
#[export] Instance IngestEventFailuresDto_encode : Encode Contracts.IngestEventFailuresDto := λ x, object_of schema_IngestEventFailuresDto
  [encode (Contracts.failures_failedCount x); encode (Contracts.failures_oldestFailedAt x); encode (Contracts.failures_ratePerMinute x);
   encode (Contracts.failures_reprocessFailedCount x); encode (Contracts.failures_reprocessedCount x)].
#[export] Instance IngestEventFailuresDto_encoded : Encoded Contracts.IngestEventFailuresDto (ref "IngestEventFailuresDto").
Proof. record. Qed.
#[export] Instance IngestEventsDto_encode : Encode Contracts.IngestEventsDto := λ x, object_of schema_IngestEventsDto
  [encode (Contracts.ingested_ingestedCount x); encode (Contracts.ingested_latestIngestedAt x); encode (Contracts.ingested_ratePerMinute x)].
#[export] Instance IngestEventsDto_encoded : Encoded Contracts.IngestEventsDto (ref "IngestEventsDto").
Proof. record. Qed.
#[export] Instance IngestStorageDto_encode : Encode Contracts.IngestStorageDto := λ x, object_of schema_IngestStorageDto
  [encode (Contracts.istorage_clickhouseHotBucketCount x); encode (Contracts.istorage_expiredBucketCount x);
   encode (Contracts.istorage_failedBucketCount x); encode (Contracts.istorage_glacierArchivedBucketCount x);
   encode (Contracts.istorage_restoredBucketCount x); encode (Contracts.istorage_restoringBucketCount x)].
#[export] Instance IngestStorageDto_encoded : Encoded Contracts.IngestStorageDto (ref "IngestStorageDto").
Proof. record. Qed.
#[export] Instance IngestSummaryDto_encode : Encode Contracts.IngestSummaryDto := λ x, object_of schema_IngestSummaryDto
  [encode (Contracts.ingest_eventFailures x); encode (Contracts.ingest_events x); encode (Contracts.ingest_storage x);
   encode (Contracts.ingest_timeRange x)].
#[export] Instance IngestSummaryDto_encoded : Encoded Contracts.IngestSummaryDto (ref "IngestSummaryDto").
Proof. record. Qed.
#[export] Instance UserDto_encode : Encode Contracts.UserDto := λ x, object_of schema_UserDto
  [encode (Contracts.user_locale x); encode (Contracts.user_loginId x); encode (Contracts.user_name x); encode (Contracts.user_role x);
   encode (Contracts.user_status x); encode (Contracts.user_userId x)].
#[export] Instance UserDto_encoded : Encoded Contracts.UserDto (ref "UserDto").
Proof. record. Qed.
#[export] Instance LoginData_encode : Encode Contracts.LoginData := λ x, object_of schema_LoginData
  [encode (Contracts.login_accessToken x); encode (Contracts.login_expiresIn x); encode (Contracts.login_tokenType x); encode (Contracts.login_user x)].
#[export] Instance LoginData_encoded : Encoded Contracts.LoginData (ref "LoginData").
Proof. record. Qed.
#[export] Instance PipelineWorkerDto_encode : Encode Contracts.PipelineWorkerDto := λ x, object_of schema_PipelineWorkerDto
  [encode (Contracts.worker_detail x); encode (Contracts.worker_groupId x); encode (Contracts.worker_lag x); encode (Contracts.worker_memberCount x);
   encode (Contracts.worker_status x); encode (Contracts.worker_topic x); encode (Contracts.worker_worker x)].
#[export] Instance PipelineWorkerDto_encoded : Encoded Contracts.PipelineWorkerDto (ref "PipelineWorkerDto").
Proof. record. Qed.
#[export] Instance ServiceHealthDto_encode : Encode Contracts.ServiceHealthDto := λ x, object_of schema_ServiceHealthDto
  [encode (Contracts.svc_detail x); encode (Contracts.svc_latencyMs x); encode (Contracts.svc_service x); encode (Contracts.svc_status x)].
#[export] Instance ServiceHealthDto_encoded : Encoded Contracts.ServiceHealthDto (ref "ServiceHealthDto").
Proof. record. Qed.
#[export] Instance OperationsHealthDto_encode : Encode Contracts.OperationsHealthDto := λ x, object_of schema_OperationsHealthDto
  [encode (Contracts.health_checkedAt x); encode (Contracts.health_services x); encode (Contracts.health_status x); encode (Contracts.health_workers x)].
#[export] Instance OperationsHealthDto_encoded : Encoded Contracts.OperationsHealthDto (ref "OperationsHealthDto").
Proof. record. Qed.
#[export] Instance ProcessTreeNodeDto_encode : Encode Contracts.ProcessTreeNodeDto := λ x, object_of schema_ProcessTreeNodeDto
  [encode (Contracts.ptn_commandLine x); encode (Contracts.ptn_eventCount x); encode (Contracts.ptn_firstSeenAt x); encode (Contracts.ptn_lastSeenAt x);
   encode (Contracts.ptn_parentCaptured x); encode (Contracts.ptn_pid x); encode (Contracts.ptn_ppid x); encode (Contracts.ptn_processName x);
   encode (Contracts.ptn_processPath x); encode (Contracts.ptn_selected x); encode (Contracts.ptn_userName x)].
#[export] Instance ProcessTreeNodeDto_encoded : Encoded Contracts.ProcessTreeNodeDto (ref "ProcessTreeNodeDto").
Proof. record. Qed.
#[export] Instance ProcessTreeDto_encode : Encode Contracts.ProcessTreeDto := λ x, object_of schema_ProcessTreeDto
  [encode (Contracts.pt_endpointId x); encode (Contracts.pt_from x); encode (Contracts.pt_nodes x); encode (Contracts.pt_to x)].
#[export] Instance ProcessTreeDto_encoded : Encoded Contracts.ProcessTreeDto (ref "ProcessTreeDto").
Proof. record. Qed.
#[export] Instance RiskLevelCountDto_encode : Encode Charts.RiskLevelCountDto := λ x, object_of schema_RiskLevelCountDto
  [encode (Charts.rc_count x); encode (Charts.rc_level x)].
#[export] Instance RiskLevelCountDto_encoded : Encoded Charts.RiskLevelCountDto (ref "RiskLevelCountDto").
Proof. record. Qed.
#[export] Instance SensorHealthCountDto_encode : Encode Charts.SensorHealthCountDto := λ x, object_of schema_SensorHealthCountDto
  [encode (Charts.sh_count x); encode (Charts.sh_sensor x); encode (Charts.sh_status x)].
#[export] Instance SensorHealthCountDto_encoded : Encoded Charts.SensorHealthCountDto (ref "SensorHealthCountDto").
Proof. record. Qed.
#[export] Instance SeverityCountDto_encode : Encode Charts.SeverityCountDto := λ x, object_of schema_SeverityCountDto
  [encode (Charts.sc_count x); encode (Charts.sc_severity x)].
#[export] Instance SeverityCountDto_encoded : Encoded Charts.SeverityCountDto (ref "SeverityCountDto").
Proof. record. Qed.
#[export] Instance TimeSeriesPointDto_encode : Encode Charts.TimeSeriesPointDto := λ x, object_of schema_TimeSeriesPointDto
  [encode (Charts.ts_bucketStartAt x); encode (Charts.ts_count x)].
#[export] Instance TimeSeriesPointDto_encoded : Encoded Charts.TimeSeriesPointDto (ref "TimeSeriesPointDto").
Proof. record. Qed.
#[export] Instance TopRuleDto_encode : Encode IntelligenceView.TopRuleDto := λ x, object_of schema_TopRuleDto
  [encode (IntelligenceView.tr_count x); encode (IntelligenceView.tr_ruleCode x); encode (IntelligenceView.tr_ruleName x)].
#[export] Instance TopRuleDto_encoded : Encoded IntelligenceView.TopRuleDto (ref "TopRuleDto").
Proof. record. Qed.

(** ** The records *)

Record Described := mkDescribed { ds_name : ustring; ds_record : Type; ds_encode : ds_record → json }.
Definition contract_record (A : Type) `{Encode A} (name : string) : Described := mkDescribed (u name) A encode.
Definition DTOS : list Described :=
  [contract_record Contracts.EventDto "EventDto"; contract_record DetailViews.IncidentReferenceDto "IncidentReferenceDto";
   contract_record EndpointPage.ResponseGuidanceStepDto "ResponseGuidanceStepDto"; contract_record DetailViews.AlertDetailDto "AlertDetailDto";
   contract_record Contracts.AlertDto "AlertDto"; contract_record Contracts.ArchiveBucketDto "ArchiveBucketDto";
   contract_record Contracts.AttackTimelineItemDto "AttackTimelineItemDto"; contract_record EndpointPage.CertificateDto "CertificateDto";
   contract_record Contracts.CorrelationRelationshipDto "CorrelationRelationshipDto"; contract_record Contracts.RelatedValueDto "RelatedValueDto";
   contract_record Contracts.CorrelationDto "CorrelationDto"; contract_record Contracts.TopologyEdgeDto "TopologyEdgeDto";
   contract_record Contracts.TopologyNodeDto "TopologyNodeDto"; contract_record Contracts.EgressTopologyDto "EgressTopologyDto";
   contract_record EndpointPage.EndpointRiskFactorDto "EndpointRiskFactorDto"; contract_record EndpointPage.EndpointRiskDto "EndpointRiskDto";
   contract_record EndpointPage.SensorHealthDto "SensorHealthDto"; contract_record EndpointPage.EndpointDetailDto "EndpointDetailDto";
   contract_record EndpointPage.EndpointDto "EndpointDto"; contract_record EventDetail.EventDetailDto "EventDetailDto";
   contract_record Operations.EventFailureDto "EventFailureDto"; contract_record IncidentView.IncidentDetailDto "IncidentDetailDto";
   contract_record EndpointPage.IncidentDto "IncidentDto"; contract_record Contracts.InvestigationEdgeDto "InvestigationEdgeDto";
   contract_record Contracts.InvestigationFallbackDto "InvestigationFallbackDto";
   contract_record Contracts.InvestigationNodeDto "InvestigationNodeDto";
   contract_record Contracts.InvestigationWarningDto "InvestigationWarningDto"; contract_record Contracts.TimeRangeDto "TimeRangeDto";
   contract_record Contracts.IncidentInvestigationDto "IncidentInvestigationDto";
   contract_record Charts.IncidentTimeSeriesPointDto "IncidentTimeSeriesPointDto";
   contract_record Contracts.IngestEventFailuresDto "IngestEventFailuresDto"; contract_record Contracts.IngestEventsDto "IngestEventsDto";
   contract_record Contracts.IngestStorageDto "IngestStorageDto"; contract_record Contracts.IngestSummaryDto "IngestSummaryDto";
   contract_record Contracts.UserDto "UserDto"; contract_record Contracts.LoginData "LoginData";
   contract_record Contracts.PipelineWorkerDto "PipelineWorkerDto"; contract_record Contracts.ServiceHealthDto "ServiceHealthDto";
   contract_record Contracts.OperationsHealthDto "OperationsHealthDto"; contract_record Contracts.ProcessTreeNodeDto "ProcessTreeNodeDto";
   contract_record Contracts.ProcessTreeDto "ProcessTreeDto"; contract_record Charts.RiskLevelCountDto "RiskLevelCountDto";
   contract_record Charts.SensorHealthCountDto "SensorHealthCountDto"; contract_record Charts.SeverityCountDto "SeverityCountDto";
   contract_record Charts.TimeSeriesPointDto "TimeSeriesPointDto"; contract_record IntelligenceView.TopRuleDto "TopRuleDto"].

Definition written_well (d : Described) : Prop :=
  ∀ x, valid (ds_name d) (ds_encode d x) = true ∧
    ∃ fields, ds_encode d x = JObj fields ∧ Some fields.*1 = field_names <$> schema_of (ds_name d).
Lemma contract_record_well (A : Type) `{Encode A} name fields (values : A → list json) `{!Encoded A (ref name)} : schema_of (u name) = Some (SObject fields) →
  resolves DEPTH (ref name) = true → (∀ x, encode x = object_of (SObject fields) (values x) ∧ length (values x) = length fields) → written_well (contract_record A name).
Proof.
  intros Hs Hr Hv x. split; [by apply (encoded x)|]. destruct (Hv x) as [E Hl]. exists (zip (field_names (SObject fields)) (values x)).
  split; [exact E|]. change (ds_name _) with (u name). rewrite Hs. cbn. f_equal. apply fst_zip. rewrite length_map. by rewrite Hl.
Qed.

(** Every record of the contract's data has the type that the contract gives to the schema of
    its name, whatever its values, and no field more or less. *)
Theorem records_follow_contract : Forall written_well DTOS.
Proof.
  unfold DTOS. repeat (apply Forall_cons; split; [eapply contract_record_well; [apply _|reflexivity|vm_compute; reflexivity|intros x; split; [reflexivity|reflexivity]]|]).
  apply Forall_nil_2.
Qed.
